(* ===== verification/_CoqProject ===== *)
-Q . S2P
Prelude.v
IO.v
GoStr.v
Replay.v
Padding.v
Obfs.v
Reliable.v
DnsCache.v
DnsChannel.v
Tunnel.v
SignalServer.v
Socks.v
Adapters.v
Sdp.v
Nat.v
PortMap.v
Codes.v
Signal.v
Rendezvous.v
Peer.v
Group.v
DtlsWire.v
DtlsExt.v
DtlsHandshake.v
DtlsRandom.v
DtlsFragment.v
DtlsNet.v
DtlsCrypto.v
DtlsConn.v
DtlsSession.v
DtlsSuites.v
DtlsState.v
DtlsHello.v
DtlsFlights.v
DtlsFsm.v
DtlsAuth.v
DtlsDemo.v
PeerIce.v
Relay.v
DtlsConfig.v
DtlsLife.v
SignalPoll.v
SignalRoutes.v
DtlsCcm.v
Helpers.v
Threads.v
Url.v
Fingerprint.v
Xray.v
Api.v
ApiState.v
ApiServer.v
ApiClient.v
ApiSafety.v
ApiSpec.v
ApiServing.v
ApiDemo.v
