(* ===== verification/Prelude.v ===== *)
(** * NATProxy: a verification library

    NATProxy is a peer-to-peer proxy.  A device that shares its connection runs
    the server side, another one the client side; they find each other through
    a signalling server, connect with WebRTC, obfuscate every datagram, and
    multiplex proxied TCP connections and DNS queries over data channels (or
    over a fake media stream).  The Go code lives under [src/golib] (the
    library) and [src/signalserver] (the signalling server).  This development
    models the parts that carry the program's own logic and proves what makes
    them correct, or, where the code does not do what it means to, what it does
    instead.

    ** How a proxied connection flows, and where it is modelled

    - An application speaks SOCKS5 to the client ([webrtc/socks5.go],
      [group.go]) or sends packets into a TUN device ([tunnel/tun.go]):
      [Socks.v], [Tunnel.v].  Bytes are copied both ways between it and the
      stream, and between the stream and the target ([handleTCP], [relay]):
      [Relay.v], which also has the start and the stop of the tunnel.
    - The client group picks a peer connection and a session with the fewest
      streams ([group.go], [client.go]): [Group.v], [Peer.v].
    - The stream begins with a target header, and may be padded and wrapped in
      decoys ([padding.go], [padding_burst.go]): [Padding.v]; the server reads
      the header back ([server.go], [socks5.go]): [Socks.v].
    - Bytes cross wrappers that adapt a message channel to a stream, limit the
      rate, count, and close idle connections ([dcconn.go], [throttle.go],
      [activity.go], [media_transport.go], [media_codec.go]): [Adapters.v].
      In media mode a reliable layer over RTP orders and retransmits frames
      ([media_reliable.go]): [Reliable.v].
    - Every datagram is sealed with AES-GCM under counter nonces ([obfs.go])
      and can be checked against an anti-replay window ([replay.go]): [Obfs.v],
      [Replay.v].
    - DNS queries use a response cache ([tun.go]: [dnsCache], [parseDNSTTL]), a
      multiplexed channel with batching ([dnschannel.go]) and a relay on the
      server ([dnsrelay.go]): [DnsCache.v], [DnsChannel.v], and [Tunnel.v] for
      the order in which resolvers are asked.
    - Peers exchange session descriptions, to which the program adds its own
      ICE candidates and from which it filters non-routable ones ([peer.go],
      [ice_filter.go]): [Sdp.v]; before that they pick jittered settings,
      resolve STUN servers and discover their public address on the raw socket
      ([peer.go]): [PeerIce.v]; they find out what kind of NAT they are behind
      and open ports on it ([nat/stun.go], [nat/cache.go], [nat/natpmp.go],
      [nat/upnp.go]): [Nat.v], [PortMap.v].
    - Descriptions are minified, compressed, encrypted or turned into codes
      that users copy by hand ([signaling/compress.go], [manual.go],
      [crypto.go]): [Codes.v]; a client posts, polls and streams them over HTTP
      or through tables of a hosted database ([signaling.go],
      [supabase_rendezvous.go], [util/backoff.go]): [Signal.v].  The signalling
      server also lists public servers and relays UDP
      ([signalserver/.../main.go]): [SignalServer.v], with its routes and
      streams of listings in [SignalRoutes.v]; client and server together are
      in [Rendezvous.v].
    - Options, defaults, the start of peers and groups with their failure
      paths, readiness of the data channels, limits on streams ([defaults.go],
      [server.go], [client.go], [group.go]): [Peer.v], [Group.v].
    - The data channels run over DTLS, for which the program carries its own
      fork of a library ([replace/dtls]).  Datagrams arrive through a listener
      that dispatches them to connections ([internal/net]): [DtlsNet.v]; they
      are cut into records, decrypted, checked against replays and dispatched
      ([conn.go], [pkg/crypto], [internal/ciphersuite]): [DtlsWire.v],
      [DtlsCrypto.v], [DtlsConn.v], [DtlsSession.v]; handshake messages are put
      together from fragments and cached ([fragment_buffer.go],
      [handshake_cache.go]) and decoded ([pkg/protocol]): [DtlsFragment.v],
      [DtlsExt.v], [DtlsHandshake.v].
    - The DTLS handshake: suites, signatures, certificates and curves
      ([cipher_suite.go], [crypto.go], [certificate.go], [config.go]):
      [DtlsSuites.v]; its state ([state.go]): [DtlsState.v]; the nine flights
      ([flight0handler.go] to [flight6handler.go]): [DtlsHello.v],
      [DtlsFlights.v]; the machine that prepares, sends, waits and retransmits
      ([handshaker.go]): [DtlsFsm.v].  The program shuffles and truncates its
      hellos against fingerprinting ([webrtc/dtls_randomize.go]):
      [DtlsRandom.v].  How a connection is configured and created
      ([config.go], [conn.go], [listener.go], [resume.go]): [DtlsConfig.v]; the
      handshake call, its goroutines, [Read] and [Close] ([conn.go]):
      [DtlsLife.v].  The CCM record cipher ([ccm.go]) and the suites that hold
      a cipher once they are initialised ([internal/ciphersuite]):
      [DtlsCcm.v].  The fingerprint of a certificate
      ([pkg/crypto/fingerprint]):
      [Fingerprint.v].
    - Above all this is the interface that the application calls
      ([api.go]): settings and connection codes: [Api.v]; the package
      variables and the components below as one interface: [ApiState.v]; the
      server with its accept loop, manual mode and discovery: [ApiServer.v],
      waiting for answers: [SignalPoll.v]; the client with its monitor and
      fast reconnect: [ApiClient.v].  When ports can be mapped an xray instance
      takes the place of WebRTC, and users exchange VLESS links
      ([xray/server.go], [client.go], [engine.go], [vlesslink.go]): [Xray.v],
      over URLs ([net/url], [util/url_normalize.go]): [Url.v].
    - Beside the connections run the log, the scores of peers, the network
      monitor, the keep-alive and the simulated RTCP reports ([applog.go],
      [quality.go], [netmon.go], [keepalive.go], [media_rtcp.go]): [Helpers.v].

    ** Files

    [Prelude.v] (bytes, machine integers, big-endian codes, slices, results,
    loops, automation), [IO.v] (errors, readers, writers, random sources),
    [GoStr.v] (strings of the Go library); then one file and one module of the
    same name per component: [Replay], [Padding], [Obfs], [Reliable],
    [DnsCache], [DnsChannel], [Tunnel], [SignalServer], [Socks], [Adapters],
    [Sdp], [Peer], [Group], [PeerIce], [Relay], [DtlsConfig], [DtlsLife],
    [DtlsCcm], [SignalPoll], [SignalRoutes], [Helpers], [Url], [Fingerprint],
    [Xray], [Api], [ApiState],
    [ApiServer], [ApiClient], [ApiSafety] (the invariant of the client over all
    interleavings), [ApiSpec] (the automaton of the client and the proof that
    calls follow it), [ApiServing] (the contract of starting and stopping a
    server) and [ApiDemo] (a scripted environment, the witnesses that use it,
    and schedules of races).  [Threads] (programs of atomic steps, their
    interleaving, and the two rules the proofs use), [Nat], [PortMap],
    [Codes], [Signal] and [Rendezvous] hold their definitions at the top
    level.  The DTLS library has
    a file per layer, each building on those before it: [DtlsWire] (records, alerts, datagrams),
    [DtlsExt] (hello extensions), [DtlsHandshake] (messages and whole records),
    [DtlsFragment] (fragmentation, reassembly, the handshake cache), [DtlsNet]
    (packet buffers, the UDP listener, connection identifiers), [DtlsCrypto]
    (record ciphers, CCM, the key derivation), [DtlsConn] (the state of a
    connection, sending, receiving), [DtlsSession] (the theorems on what is
    received), [DtlsRandom] (randomised hellos), [DtlsSuites], [DtlsState],
    [DtlsHello] (flights 0 to 3), [DtlsFlights] (flights 4 to 6), [DtlsFsm]
    (the state machine and its invariants), [DtlsAuth] (what the flights
    establish) and [DtlsDemo] (instances with which client and server run a
    handshake, and the witnesses that use them).

    ** Conventions

    A struct is a record with the source's field names where they do not
    clash, a Go function that returns a value and an error a function into
    [res], a run-time panic the outer [None] of an option.  Unsigned integers
    are [Z] with [wrap] written out where the code can overflow; slices that
    share an array keep the array and the bounds where a claim depends on it.
    Code that a goroutine runs between two points where others can interfere
    is one step: [Reliable], [DnsChannel], [Peer] (readiness, stream limit) and
    [Adapters] (idle timers) are transition systems, and their theorems
    quantify over every interleaving; so are [Relay], whose steps are turns of
    the copying goroutines, and [DtlsLife], whose steps are critical sections
    and channel operations.  A function of the public API is a program of
    [Threads]: a critical section or a call of another component is an atomic
    step, [go] starts another program, and a pool of programs runs by
    interleaving steps.  [safe] is the rule for invariants under every
    interleaving, [wp] the rule for a call that runs alone and ends, where a
    loop needs a bound.  Time is an integer that the caller
    passes; map iteration order is an argument, and the theorems hold for all
    orders.  Recursion is structural, or uses as fuel the length of the input
    or the number of resource records that a message announces, and the
    theorems on the results ([padding_read_total], [dns_ttl_total]) show that
    the fuel suffices.  In the DTLS files a decoder returns [res derr], where
    [Panic] stands for an index or slice out of range and [OutOfFuel] for a
    loop that did not end; the predicate [safe] excludes both, and
    [handshake_decode_safe] and [unprotected_input_safe] show it for the
    decoders and for the whole receiving path.  A flight of the handshake is a
    program [FP] over state, configuration, connection and random source that
    ends early with a next flight, an alert or an error; [ends] and [keeps] in
    [DtlsFsm] and [DtlsAuth] are the two logics the flights are reasoned about
    with, and [fsm_step] is the step relation of a run.  The waiting loops of
    the signalling client have the fuel [poll_fuel], 250 turns, which
    [polling_terminates] and [answers_poll_ends] show to suffice.  Masking
    addresses in a log message uses the length of the message, and
    [mask_clean] shows that nothing is left over.  The schedules of [ApiDemo]
    let a call that is not interrupted take at most 100 steps; they are runs
    that are evaluated, and what they show does not depend on a bound.

    Interfaces between components are classes: [Rand] (a random source),
    [AEAD] (the cipher that [Obfs] seals with; its laws are that opening what
    was sealed gives the plaintext and that sealing adds sixteen bytes),
    [AntiReplay] (what
    [Obfs] expects of a filter; [Replay] is an instance); for DTLS
    [Cryptobyte], [BlockCipher], [AEAD12] (CCM is an instance by proof),
    [Hash], [RecordCipher] (what a connection expects of a cipher suite; the
    GCM/CCM and CBC suites are instances by proof), [ReplayDetector],
    [CryptoRand] and [MRand] (system and seeded random numbers), [Pki]
    (signatures and certificates), [Curves], [SuiteInit] and [FlightConn] (the
    connection as the flights see it); [StunCodec], [UdpNet] and [Lan] for NAT
    discovery and port mapping; [Flate], [Json], [Http] and [Supa] for
    signalling, and [Rendezvous], which the server's handlers implement by
    proof; [ProxyJson] and [ApiJson] (encodings of settings and codes),
    [XrayCore], and [ApiEnv] (all components below the public API), which
    [ClientEnv] and [MappingEnv] extend by what the sequential theorems need of
    it: how many times a newer offer can appear, and a ledger of the port
    mappings made and removed, which only the two functions of [nat] change.  Each has an executable instance on which the theorems are
    evaluated.  Cryptography, the
    WebRTC stack, the stream multiplexer, resolvers, limiters and sockets are
    parameters with the behaviour their documentation states.

    ** What is shown

    - [Replay]: the bitmap window refines the set of accepted counters and
      accepts no counter twice.
    - [Padding]: writes are read back exactly, reads terminate; writes above
      65535 bytes are cut.
    - [Obfs]: exact exchange over a network that loses, repeats, reorders and
      injects; within a connection nonces never repeat, and across the
      connections of one key they are distinct exactly when the random prefixes
      are; no replay when a filter is installed.
    - [Reliable]: what is read is a prefix of what was written in every
      interleaving, and frames in any order are put back in order; two ways in
      which a frame is lost although it was acknowledged.
    - [DnsCache], [DnsChannel], [Tunnel]: the lifetime of a response is its
      least TTL, the parser never reads out of bounds, the cache keeps its
      invariant and answers within the lifetime; callers only get answers to
      their own identifier; batches are recovered exactly; the resolvers are
      asked in a fixed order until one answers, and queries leave the tunnel
      only when that is allowed and no resolver has answered through it.
    - [SignalServer]: what is posted is what is fetched, listings are sorted,
      registered peers reach each other through the relay; expired relays and
      forgotten watchers are shown as failures.
    - [Socks]: the server dials the address the application asked for.
    - [Sdp]: which lines a published description has, with and without
      discovery and relay; a relay known by name is lost.
    - [Nat], [PortMap]: the detection of RFC 5780 classifies every NAT that does
      not keep the local port, and takes one that does for an open connection;
      leases are renewed or their renewer was told to stop, in every
      interleaving; gateways read what is asked of them and their answers
      arrive.
    - [Codes], [Signal], [Rendezvous]: codes and compressed descriptions decode
      to what was encoded; offers and answers posted on one side are what the
      other side polls or streams, encrypted or not; every wait ends; delays
      stay within their bounds; lists fail over the database and long answers
      over the stream.
    - [Adapters]: data channels read as streams deliver exactly their bytes,
      idle connections are closed exactly when idle, low rate limits break
      transfers.
    - [Peer], [Group]: readiness without lost wake-ups, the stream limit, no
      leaked sockets on any failure path, the split of channels, load
      balancing and its failure with unconnected peers.
    - [DtlsWire], [DtlsExt], [DtlsHandshake]: a datagram is cut into records
      exactly when it is a sequence of records; whole datagrams of handshake,
      alert and data records, and handshake messages of all ten kinds, survive
      encoding and decoding; no input makes the
      decoders read out of range, except the key exchanges with a pre-shared
      key.
    - [DtlsFragment], [DtlsNet]: messages come out of the fragment buffer in
      order and only as they were sent, and all of them once every fragment
      arrived, whatever is asked of the buffer in between; differently cut retransmissions can stick, old ones fill the
      buffer; the listener keeps every datagram on the connection it belongs
      to.
    - [DtlsCrypto]: the padding check decides exactly valid padding, the
      additional data determines the header, CCM and the suites decrypt what
      they encrypt, the PRF is the one of the standard; forged CBC records can
      stop the program.
    - [DtlsConn], [DtlsSession]: record numbers are unique over all writes,
      failed ones included, except for handshake messages wrapped with a
      connection identifier, which repeat the number of their packet; received
      data is delivered at most once and is what the suite decrypts a record
      to; what one connection
      writes the other reads; packets queued across datagrams alias a pooled
      buffer and are overwritten.

    - [DtlsRandom], [DtlsSuites], [DtlsState]: a randomised hello keeps the
      required suite and is a permutation of a part of the original, but leaves
      its mark on the configuration; the suites of a configuration are exactly
      the usable ones; signatures verify, and one on an empty digest fits every
      message; a saved state is loaded as it was, except with a custom suite;
      both ends export the same keys.
    - [DtlsHello], [DtlsFlights], [DtlsFsm], [DtlsAuth], [DtlsDemo]: each end
      keeps to the flights of its role in every run; the retransmission timer
      doubles with every expiry, up to a minute; a server signs only for clients
      that return its cookie; suite and protection profile are the first common
      ones, the curve the first of the client; both ends derive the same master
      secret and initialise the suite with it alike; waiting ends only with a Finished message
      that matches the transcript, except for the server of a full handshake,
      which takes any; required client certificates are verified over the
      transcript, except with a scheme that names no hash; a server
      flight that arrives in parts can be taken for a resumption; complete and
      resumed handshakes run to their end.

    - [Relay]: under every interleaving a relay writes a prefix of what
      arrived, and once its goroutines cannot move, everything of a side that
      has ended, and it returns when both have; an application that waits is
      not told that the other end has closed.  A tunnel holds its device until
      the first stop and nothing afterwards.
    - [PeerIce]: default times keep their order under jitter; every resolved
      server is asked once; discovery returns the first answer to a listed
      request, and an error exactly when there is none.
    - [DtlsConfig], [DtlsLife]: an accepted configuration gives a connection
      with suites, curves and positive sizes; a [Close] ends both goroutines,
      the handshake call and every other [Close], closes the transport exactly
      once and misuses no channel; a handshake that is completed during a
      [Close] can leave a [Read] waiting.
    - [DtlsCcm]: the CCM record cipher equals that of GCM over another AEAD;
      two ends that initialise a suite of any kind with the same secrets
      understand each other; the constructors make the suites of the table.
    - [Fingerprint]: the loop that inserts the colons writes every digit, stays
      inside its slice, and gives different digests different fingerprints.
    - [Url], [Xray], [Api]: a VLESS link to a name or IPv4 address is parsed
      back to what it was made from, one to an IPv6 address not at all; the code of a server decodes to options that agree with its own.
    - [ApiSafety], [ApiSpec], [ApiServing]: under every interleaving of calls,
      goroutines and failures the client is never running and connecting at
      once and an idle client has nothing left; calls that do not overlap end
      and follow an automaton of phases, with exactly the groups, tunnel and
      instance of the phase; a server that fails to start leaves nothing, but
      for a port mapping when xray could not be started, and stopping one
      releases what it acquired, but for a mapping not made over UPnP.  [ApiDemo] runs the races in
      which calls that do overlap leak or lose a stop.
    - [SignalPoll], [SignalRoutes], [Helpers]: the wait for answers ends, and
      only with answers; every stream of listings is up to date or about to be
      notified; reading the log is reading the list of what was written, and a
      cursor beyond its end panics; masked messages hold no address; scores
      stay between 0 and 1.

    ** Not modelled

    The Flutter and Android code; the third-party stacks (pion, smux,
    xray-core, sing-tun), which are parameters; sockets, log lines and
    command-line handling; the latency test, and functions that only read a
    variable or pass a call on.  Of the DTLS library: write deadlines, getters,
    the generation of certificates, test helpers and examples, error types and
    the printing of alerts and suites; [DtlsLife] starts when the handshake call
    has set its cancel functions, so a [Close] before that point is left out.
    The accept loop of the server takes the first of two groups that connects;
    they are waited for one after the other, in either order.  Scores, jitter and back-off use
    rationals or integers where the code uses floating point. *)

From Stdlib Require Export ZArith Lia Strings.Byte.
From stdpp Require Export base decidable list list_numbers numbers gmap strings relations sorting.

Declare Scope np_scope.
Delimit Scope np_scope with np.

(** ** Bytes *)

Abbreviation byte := Byte.byte.
Abbreviation bytes := (list Byte.byte).

#[export] Instance byte_eq_dec : EqDecision byte := Byte.byte_eq_dec.

#[export, refine] Instance byte_countable : Countable byte :=
  inj_countable Byte.to_N Byte.of_N _.
Proof. apply Byte.of_to_N. Defined.

(** The unsigned value of a byte and the conversion [byte(z)] of Go, which
    keeps the low eight bits. *)
Definition b2z (b : byte) : Z := Z.of_N (Byte.to_N b).
Definition z2b (z : Z) : byte := default Byte.x00 (Byte.of_N (Z.to_N (z mod 256))).

Lemma b2z_range b : (0 <= b2z b < 256)%Z.
Proof. unfold b2z. pose proof (Byte.to_N_bounded b). lia. Qed.

Lemma b2z_z2b z : b2z (z2b z) = (z mod 256)%Z.
Proof.
  unfold b2z, z2b.
  assert (Hr : (0 <= z mod 256 < 256)%Z) by (apply Z.mod_pos_bound; lia).
  destruct (Byte.of_N (Z.to_N (z mod 256))) as [b|] eqn:E; simpl.
  - apply Byte.to_of_N in E. rewrite E. lia.
  - apply Byte.of_N_None_iff in E. lia.
Qed.

Lemma b2z_inj b c : b2z b = b2z c -> b = c.
Proof.
  unfold b2z. intros H. assert (E : Byte.to_N b = Byte.to_N c) by lia.
  pose proof (Byte.of_to_N b) as Hb. pose proof (Byte.of_to_N c) as Hc.
  rewrite E in Hb. congruence.
Qed.

Lemma z2b_b2z b : z2b (b2z b) = b.
Proof.
  apply b2z_inj. rewrite b2z_z2b. apply Z.mod_small, b2z_range.
Qed.

Lemma b2z_z2b_small z : (0 <= z < 256)%Z -> b2z (z2b z) = z.
Proof. intros H. rewrite b2z_z2b. apply Z.mod_small. lia. Qed.

(** ** Machine integers

    An unsigned [w]-bit integer of Go is a [Z] in [0, 2^w); arithmetic on it
    wraps around. *)

Definition wrap (w z : Z) : Z := z mod 2 ^ w.

Abbreviation u8 := (wrap 8).
Abbreviation u16 := (wrap 16).
Abbreviation u32 := (wrap 32).
Abbreviation u64 := (wrap 64).

Lemma wrap_range w z : (0 <= w)%Z -> (0 <= wrap w z < 2 ^ w)%Z.
Proof. intros. apply Z.mod_pos_bound, Z.pow_pos_nonneg; lia. Qed.

Lemma wrap_small w z : (0 <= z < 2 ^ w)%Z -> wrap w z = z.
Proof. apply Z.mod_small. Qed.

Lemma wrap_wrap w z : wrap w (wrap w z) = wrap w z.
Proof.
  unfold wrap. destruct (decide (2 ^ w = 0)%Z) as [->|]; [by rewrite !Z.mod_0_r|].
  by apply Z.mod_mod.
Qed.

(** A conversion to [int] of a wrapped 64-bit value; [int] is 64 bits wide on
    the targets of the library. *)
Definition maxInt : Z := 2 ^ 63 - 1.

(** ** Big-endian integers ([encoding/binary]) *)

(** [be_put n z] are the [n] bytes of [z], most significant first;
    [be_get l] is the number that the bytes [l] spell. *)
Fixpoint be_put (n : nat) (z : Z) : bytes :=
  match n with
  | O => []
  | S n' => be_put n' (z / 256) ++ [z2b z]
  end.

Definition be_get (l : bytes) : Z := foldl (fun acc b => acc * 256 + b2z b)%Z 0%Z l.

Lemma length_be_put n z : length (be_put n z) = n.
Proof. revert z. induction n as [|n IH]; intros z; simpl; [done|]. rewrite length_app, IH. simpl. lia. Qed.

Lemma be_get_snoc l b : be_get (l ++ [b]) = (be_get l * 256 + b2z b)%Z.
Proof. unfold be_get. by rewrite foldl_app. Qed.

Lemma pow256_succ n : (2 ^ (8 * Z.of_nat (S n)) = 256 * 2 ^ (8 * Z.of_nat n))%Z.
Proof.
  replace (8 * Z.of_nat (S n))%Z with (8 + 8 * Z.of_nat n)%Z by lia.
  rewrite Z.pow_add_r by lia. reflexivity.
Qed.

Lemma be_get_range l : (0 <= be_get l < 2 ^ (8 * Z.of_nat (length l)))%Z.
Proof.
  induction l as [|b l IH] using rev_ind; [done|].
  rewrite be_get_snoc, length_app, Nat.add_1_r, pow256_succ.
  pose proof (b2z_range b). lia.
Qed.

Lemma be_get_put n z : be_get (be_put n z) = (z mod 2 ^ (8 * Z.of_nat n))%Z.
Proof.
  revert z. induction n as [|n IH]; intros z; simpl be_put.
  - by rewrite Z.mod_1_r.
  - rewrite be_get_snoc, IH, b2z_z2b, pow256_succ.
    rewrite Z.rem_mul_r by (try apply Z.pow_nonzero; lia). lia.
Qed.

Lemma be_put_get l : be_put (length l) (be_get l) = l.
Proof.
  induction l as [|b l IH] using rev_ind; [done|].
  rewrite length_app, Nat.add_1_r, be_get_snoc. simpl be_put. pose proof (b2z_range b).
  rewrite Z.div_add_l, Z.div_small, Z.add_0_r, IH by lia. do 2 f_equal.
  apply b2z_inj. rewrite b2z_z2b, Z.add_comm, Z_mod_plus_full. by apply Z.mod_small.
Qed.

Lemma be_get_put_small n z :
  (0 <= z < 2 ^ (8 * Z.of_nat n))%Z -> be_get (be_put n z) = z.
Proof. intros. rewrite be_get_put. by apply Z.mod_small. Qed.

Lemma be_get_inj l k : length l = length k -> be_get l = be_get k -> l = k.
Proof. intros Hl He. rewrite <- (be_put_get l), <- (be_put_get k). congruence. Qed.

Lemma be_get_nil : be_get [] = 0%Z.
Proof. done. Qed.

(** ** Slices

    [slice lo hi l] is [l[lo:hi]]; [splice off src dst] is [dst] after
    [copy(dst[off:], src)], which writes as many bytes as fit. *)

Section slices.
Context {A : Type}.
Implicit Types l src dst : list A.

Definition slice (lo hi : nat) l : list A := take (hi - lo) (drop lo l).

Definition splice (off : nat) src dst : list A :=
  take off dst ++ take (length dst - off) src ++ drop (off + length src) dst.

Lemma length_splice off src dst : length (splice off src dst) = length dst.
Proof.
  unfold splice. rewrite !length_app, !length_take, length_drop. lia.
Qed.

Lemma splice_all src dst : length src = length dst -> splice 0 src dst = src.
Proof.
  intros H. unfold splice. rewrite take_0, Nat.sub_0_r, <- H, firstn_all. simpl.
  by rewrite H, drop_all, app_nil_r.
Qed.

(** Writing [src] right after the prefix [pre] of the destination. *)
Lemma splice_app pre src rest :
  (length src <= length rest)%nat ->
  splice (length pre) src (pre ++ rest) = pre ++ src ++ drop (length src) rest.
Proof.
  intros H. unfold splice. rewrite take_app_length, length_app.
  rewrite (take_ge src) by lia. rewrite <- drop_drop, drop_app_length. done.
Qed.

Lemma splice_app_0 src rest :
  (length src <= length rest)%nat -> splice 0 src rest = src ++ drop (length src) rest.
Proof. apply (splice_app [] src rest). Qed.

(** A buffer filled from left to right holds what was written, whatever
    it held before. *)
Lemma take_splice k pre src dst :
  take k dst = pre -> (k + length src <= length dst)%nat ->
  take (k + length src) (splice k src dst) = pre ++ src.
Proof.
  intros <- H. unfold splice. rewrite (take_ge src) by lia. rewrite app_assoc.
  apply take_app_length'. rewrite length_app, length_take. lia.
Qed.

Lemma slice_app_r lo hi l k :
  (length l <= lo)%nat -> slice lo hi (l ++ k) = slice (lo - length l) (hi - length l) k.
Proof.
  intros H. unfold slice. rewrite drop_app_ge by lia. f_equal. lia.
Qed.

Lemma length_slice lo hi l :
  (hi <= length l)%nat -> length (slice lo hi l) = (hi - lo)%nat.
Proof. intros. unfold slice. rewrite length_take, length_drop. lia. Qed.
End slices.

(** ** Results

    A Go function that returns [(T, error)] is a function into [res E T]. *)

Inductive res (E A : Type) : Type :=
  | Ok (a : A)
  | Err (e : E).
Arguments Ok {E A} a.
Arguments Err {E A} e.

#[export] Instance res_eq_dec `{EqDecision E, EqDecision A} : EqDecision (res E A).
Proof. solve_decision. Defined.

Definition is_ok {E A} (r : res E A) : bool := if r is Ok _ then true else false.

Definition res_bind {E A B} (m : res E A) (f : A -> res E B) : res E B :=
  match m with Ok a => f a | Err e => Err e end.

Notation "'let!' x ':=' m 'in' k" := (res_bind m (fun x => k))
  (at level 10, x pattern, m at level 100, k at level 200) : np_scope.

(** ** Automation *)

Create HintDb np.
Create Rewrite HintDb np.
#[export] Hint Resolve b2z_range be_get_range : np.
#[export] Hint Rewrite @length_be_put @length_splice b2z_z2b : np.

(** Lengths of appended, cut and encoded lists, then linear arithmetic. *)
Ltac len :=
  repeat (rewrite ?length_app, ?length_take, ?length_drop, ?length_be_put,
    ?length_splice, ?length_replicate, ?length_cons, ?length_insert, ?length_fmap in *);
  simpl length in *; try lia.

(** Case analysis on the boolean comparisons of [Z] that a guard of the code
    makes, with the linear fact each branch gives. *)
Ltac case_zb :=
  repeat match goal with
  | |- context [Z.ltb ?a ?b] => destruct (Z.ltb_spec a b)
  | |- context [Z.leb ?a ?b] => destruct (Z.leb_spec a b)
  | |- context [Z.eqb ?a ?b] => destruct (Z.eqb_spec a b)
  | H : context [Z.ltb ?a ?b] |- _ => destruct (Z.ltb_spec a b)
  | H : context [Z.leb ?a ?b] |- _ => destruct (Z.leb_spec a b)
  | H : context [Z.eqb ?a ?b] |- _ => destruct (Z.eqb_spec a b)
  end.

(** ** Loops

    [for_up n lo body s] is [for i := lo; i < lo+n; i++ { body }] and
    [for_down n lo body s] is [for i := lo+n-1; i >= lo; i-- { body }], on a
    state [s] that the body updates. *)

Fixpoint for_up {S} (n lo : nat) (body : nat -> S -> S) (s : S) : S :=
  match n with
  | O => s
  | S n' => for_up n' (Datatypes.S lo) body (body lo s)
  end.

Fixpoint for_down {S} (n lo : nat) (body : nat -> S -> S) (s : S) : S :=
  match n with
  | O => s
  | S n' => for_down n' lo body (body (lo + n')%nat s)
  end.

Lemma for_up_invariant {S} (P : nat -> S -> Prop) n lo body s :
  P lo s ->
  (forall i t, (lo <= i < lo + n)%nat -> P i t -> P (Datatypes.S i) (body i t)) ->
  P (lo + n)%nat (for_up n lo body s).
Proof.
  revert lo s. induction n as [|n IH]; intros lo s H0 HS; simpl; [by rewrite Nat.add_0_r|].
  replace (lo + Datatypes.S n)%nat with (Datatypes.S lo + n)%nat by lia.
  apply IH; [apply HS; [lia|done] | intros; apply HS; [lia|done]].
Qed.

Section array_loops.
Context {A : Type} `{Inhabited A}.
Implicit Types (l : list A) (f : nat -> list A -> A).

(** A downward loop that stores at [i] a value computed from the cells up
    to [i] stores what that value is in the initial array. *)
Lemma for_down_store f n lo l k :
  (forall i l1 l2, (forall j, (j <= i)%nat -> l1 !!! j = l2 !!! j) -> f i l1 = f i l2) ->
  (lo + n <= length l)%nat ->
  for_down n lo (fun i a => <[i := f i a]> a) l !!! k =
    if decide (lo <= k < lo + n)%nat then f k l else l !!! k.
Proof.
  intros Hf. revert l. induction n as [|n IH]; intros l Hl; simpl.
  - by rewrite decide_False by lia.
  - rewrite IH by (len; lia). repeat case_decide; try lia.
    + apply Hf. intros j Hj. apply list_lookup_total_insert_ne. lia.
    + assert (k = (lo + n)%nat) as -> by lia. apply list_lookup_total_insert_eq. lia.
    + apply list_lookup_total_insert_ne. lia.
Qed.

Lemma length_for_down_store f n lo l :
  length (for_down n lo (fun i a => <[i := f i a]> a) l) = length l.
Proof. revert l. induction n as [|n IH]; intros l; simpl; [done|]. rewrite IH. apply length_insert. Qed.

Lemma for_up_const n lo l (x : A) k :
  (lo + n <= length l)%nat ->
  for_up n lo (fun i a => <[i := x]> a) l !!! k =
    if decide (lo <= k < lo + n)%nat then x else l !!! k.
Proof.
  revert lo l. induction n as [|n IH]; intros lo l Hl; simpl.
  - by rewrite decide_False by lia.
  - rewrite IH by (len; lia). repeat case_decide; try lia; try done.
    + assert (k = lo) as -> by lia. apply list_lookup_total_insert_eq. lia.
    + apply list_lookup_total_insert_ne. lia.
Qed.

Lemma length_for_up_const n lo l (x : A) :
  length (for_up n lo (fun i a => <[i := x]> a) l) = length l.
Proof. revert lo l. induction n as [|n IH]; intros lo l; simpl; [done|]. rewrite IH. apply length_insert. Qed.
End array_loops.

(** ** Transition systems *)

(** A property that holds at the start and that every step preserves holds
    at every reachable state. *)
Lemma rtc_invariant {A} (R : relation A) (P : A -> Prop) x y :
  (forall a b, P a -> R a b -> P b) -> P x -> rtc R x y -> P y.
Proof. intros HP Hx Hxy. induction Hxy; eauto. Qed.
