(* ===== verification/IO.v ===== *)
(** * Errors, readers, writers and random sources

    The parts of the Go standard library that the stream components use:
    error values with their wrapping, [io.ReadFull] and [io.CopyN] on a
    reader, [Write] on a writer that may fail, and a random source.

    A reader is the sequence of bytes that will arrive followed by the error
    that ends it; [io.ReadFull] does not depend on how the bytes arrive in
    pieces.  A writer keeps what reached it; every call consumes one entry of
    a fault script, which says whether the call succeeds or stops after some
    bytes with an error. *)

From S2P Require Import Prelude.

(** ** Errors *)

Inductive io_err :=
  | EOF
  | ErrUnexpectedEOF
  | ErrClosedPipe
  | ErrShortBuffer
  | ErrTimeout
  | ErrNet (code : Z).   (* any other error of the underlying connection *)

#[export] Instance io_err_eq_dec : EqDecision io_err.
Proof. solve_decision. Defined.

(** [fmt.Errorf("ctx: %w", err)] is [EWrap ctx err]; an error without a cause
    keeps its format and its arguments. *)
Inductive goerr :=
  | EIO (e : io_err)
  | EWrap (ctx : string) (e : goerr)
  | EMsg (msg : string) (args : list Z).

#[export] Instance goerr_eq_dec : EqDecision goerr.
Proof. solve_decision. Defined.

(** ** Readers *)

Record reader := mkReader { rd_data : bytes; rd_err : io_err }.

Definition ReadFull (n : nat) (r : reader) : res goerr bytes * reader :=
  if decide (n <= length (rd_data r))%nat then
    (Ok (take n (rd_data r)), mkReader (drop n (rd_data r)) (rd_err r))
  else
    let e := match rd_data r with
             | [] => rd_err r
             | _ => if decide (rd_err r = EOF) then ErrUnexpectedEOF else rd_err r
             end in
    (Err (EIO e), mkReader [] (rd_err r)).

(** [io.CopyN(io.Discard, r, n)]. *)
Definition CopyNDiscard (n : nat) (r : reader) : res goerr unit * reader :=
  if decide (n <= length (rd_data r))%nat then
    (Ok tt, mkReader (drop n (rd_data r)) (rd_err r))
  else (Err (EIO (rd_err r)), mkReader [] (rd_err r)).

(** [copy(p, src)] for a buffer of [n] bytes: what is copied, what is left. *)
Definition copy_out (n : nat) (src : bytes) : bytes * bytes := (take n src, drop n src).

(** ** Writers *)

Record writer := mkWriter { w_out : bytes; w_faults : list (option (nat * goerr)) }.

Definition Write (p : bytes) (w : writer) : res goerr nat * writer :=
  match w_faults w with
  | Some (k, e) :: fs => (Err e, mkWriter (w_out w ++ take k p) fs)
  | None :: fs => (Ok (length p), mkWriter (w_out w ++ p) fs)
  | [] => (Ok (length p), mkWriter (w_out w ++ p) [])
  end.

(** A writer on which no call fails. *)
Definition reliable (w : writer) : Prop := w_faults w = [].

(** ** Programs with state and errors

    A program that changes a state [S] and may fail.  What it changed before
    it failed stays changed. *)

Section programs.
Context {S : Type}.

Definition Prog (A : Type) : Type := S -> res goerr A * S.

Definition nret {A} (a : A) : Prog A := fun w => (Ok a, w).
Definition nfail {A} (e : goerr) : Prog A := fun w => (Err e, w).
Definition nbind {A B} (m : Prog A) (f : A -> Prog B) : Prog B :=
  fun w => match m w with (Ok a, w) => f a w | (Err e, w) => (Err e, w) end.

(** [x, err := m()]: the caller looks at the error itself. *)
Definition ntry {A} (m : Prog A) : Prog (res goerr A) := fun w => let '(r, w) := m w in (Ok r, w).

(** [fmt.Errorf("ctx: %w", err)] around the error of [m]. *)
Definition nwrap {A} (ctx : string) (m : Prog A) : Prog A :=
  fun w => match m w with (Ok a, w) => (Ok a, w) | (Err e, w) => (Err (EWrap ctx e), w) end.

End programs.

Arguments Prog S A : clear implicits.

Notation "'let*' x ':=' m 'in' k" := (nbind m (fun x => k))
  (at level 10, x pattern, m at level 100, k at level 200).

(** ** Random sources

    [Intn n] is in [0, n) for a positive [n]; [Read] fills a buffer.  The
    theorems hold for every source. *)
Class Rand (S : Type) := {
  intn : Z -> S -> Z * S;
  rread : nat -> S -> bytes * S;
  intn_range : forall n s, (0 < n)%Z -> (0 <= fst (intn n s) < n)%Z;
  length_rread : forall n s, length (fst (rread n s)) = n
}.

(** A linear congruential source, to run the definitions. *)
Definition lcg_next (s : Z) : Z := ((s * 1103515245 + 12345) mod 2147483648)%Z.

Fixpoint lcg_bytes (n : nat) (s : Z) : bytes * Z :=
  match n with
  | O => ([], s)
  | S n' => let s' := lcg_next s in
            let '(l, s'') := lcg_bytes n' s' in (z2b (s' / 65536) :: l, s'')
  end.

#[export, refine] Instance lcg_Rand : Rand Z := {|
  intn n s := let s' := lcg_next s in ((s' / 65536) mod n, s')%Z;
  rread := lcg_bytes
|}.
Proof.
  - intros n s Hn. simpl. apply Z.mod_pos_bound. done.
  - induction n as [|n IH]; intros s; simpl; [done|].
    specialize (IH (lcg_next s)). destruct (lcg_bytes n (lcg_next s)). simpl in *. by rewrite IH.
Defined.

(** ** Lemmas *)

Lemma ReadFull_app n l k e :
  length l = n -> ReadFull n (mkReader (l ++ k) e) = (Ok l, mkReader k e).
Proof.
  intros <-. unfold ReadFull. simpl. rewrite decide_True by (len; lia).
  by rewrite take_app_length, drop_app_length.
Qed.

Lemma ReadFull_nil n e :
  (0 < n)%nat -> ReadFull n (mkReader [] e) = (Err (EIO e), mkReader [] e).
Proof. intros. unfold ReadFull. simpl. by rewrite decide_False by lia. Qed.

Lemma CopyNDiscard_app n l k e :
  length l = n -> CopyNDiscard n (mkReader (l ++ k) e) = (Ok tt, mkReader k e).
Proof.
  intros <-. unfold CopyNDiscard. simpl. rewrite decide_True by (len; lia).
  by rewrite drop_app_length.
Qed.

(** Reading never makes data appear. *)
Lemma ReadFull_length n r : 
  (length (rd_data (snd (ReadFull n r))) <= length (rd_data r))%nat.
Proof. unfold ReadFull. case_decide; simpl; len; lia. Qed.

Lemma ReadFull_Ok_length n r l r' :
  ReadFull n r = (Ok l, r') ->
  length l = n /\ rd_data r = l ++ rd_data r' /\ rd_err r' = rd_err r.
Proof.
  unfold ReadFull. case_decide; intros [= <- <-]. simpl.
  rewrite length_take, take_drop. split; [lia|done].
Qed.

Lemma CopyNDiscard_length n r :
  (length (rd_data (snd (CopyNDiscard n r))) <= length (rd_data r))%nat.
Proof. unfold CopyNDiscard. case_decide; simpl; len; lia. Qed.

Lemma Write_reliable p w :
  reliable w -> Write p w = (Ok (length p), mkWriter (w_out w ++ p) []).
Proof. unfold reliable, Write. by intros ->. Qed.
