(* ===== verification/GoStr.v ===== *)
(** * Strings of the Go standard library

    The functions of [strings], [strconv] and [net] that the components use,
    on [string].  A Go string is a sequence of bytes, like [string]. *)

From Stdlib Require Export Strings.Ascii Strings.String.
From stdpp Require Export pretty.
From S2P Require Import Prelude.

Open Scope Z_scope.

(** [fmt.Sprintf] of an integer with [%d]. *)
Definition itoa (z : Z) : string := pretty z.

Fixpoint has_char (c : Ascii.ascii) (s : string) : bool :=
  match s with
  | EmptyString => false
  | String a s => bool_decide (a = c) || has_char c s
  end.

(** [strings.HasPrefix] and [strings.Contains]. *)
Definition HasPrefix (s p : string) : bool := String.prefix p s.

Fixpoint Contains (s p : string) : bool :=
  HasPrefix s p || match s with EmptyString => false | String _ s => Contains s p end.

(** [net.JoinHostPort]: a host with a colon is put in brackets. *)
Definition JoinHostPort (host port : string) : string :=
  if has_char ":"%char host then String.append "[" (String.append host (String.append "]:" port))
  else String.append host (String.append ":" port).

(** [strings.Split(s, c)] for a one-byte separator. *)
Fixpoint split_char (c : Ascii.ascii) (s : string) : list string :=
  match s with
  | EmptyString => [EmptyString]
  | String a s =>
      if decide (a = c) then EmptyString :: split_char c s
      else match split_char c s with
           | [] => [String a EmptyString]
           | x :: xs => String a x :: xs
           end
  end.

(** [strings.Join(l, sep)]. *)
Fixpoint Join (sep : string) (l : list string) : string :=
  match l with
  | [] => EmptyString
  | [x] => x
  | x :: l => String.append x (String.append sep (Join sep l))
  end.

Lemma split_char_not_nil c s : split_char c s <> [].
Proof. destruct s; simpl; [done|]. case_decide; [done|]. by destruct (split_char c s). Qed.

(** Joining what was split gives the string back. *)
Lemma Join_split_char c s : Join (String c EmptyString) (split_char c s) = s.
Proof.
  induction s as [|a s IH]; [done|]. simpl. pose proof (split_char_not_nil c s) as Hne.
  case_decide as Hc.
  - subst. destruct (split_char c s) as [|x xs] eqn:E; [done|]. simpl in *. by rewrite IH.
  - destruct (split_char c s) as [|x xs] eqn:E; [done|]. simpl in *. destruct xs; simpl in *; by rewrite <- IH.
Qed.

Example join_v4 : JoinHostPort "8.8.8.8" "53" = "8.8.8.8:53".
Proof. reflexivity. Qed.
Example join_v6 : JoinHostPort "::1" "53" = "[::1]:53".
Proof. reflexivity. Qed.

(** ** Trimming and splitting *)

Fixpoint trim_left (c : Ascii.ascii) (s : string) : string :=
  match s with
  | EmptyString => EmptyString
  | String a s' => if decide (a = c) then trim_left c s' else s
  end.

Fixpoint trim_right (c : Ascii.ascii) (s : string) : string :=
  match s with
  | EmptyString => EmptyString
  | String a s =>
      match trim_right c s with
      | EmptyString => if decide (a = c) then EmptyString else String a EmptyString
      | t => String a t
      end
  end.

(** [strings.Trim(s, c)] for a one-byte cutset. *)
Definition Trim (c : Ascii.ascii) (s : string) : string := trim_right c (trim_left c s).

Definition slash : Ascii.ascii := "/"%char.

Lemma append_cons x a b : String.append (String x a) b = String x (String.append a b).
Proof. reflexivity. Qed.

Lemma append_nil_r s : String.append s EmptyString = s.
Proof. induction s as [|a s IH]; [done|]. by rewrite append_cons, IH. Qed.

Lemma append_assoc a b c : String.append (String.append a b) c = String.append a (String.append b c).
Proof. induction a as [|x a IH]; [done|]. by rewrite !append_cons, IH. Qed.

Lemma split_char_app c a b :
  has_char c a = false -> split_char c (String.append a (String c b)) = a :: split_char c b.
Proof.
  induction a as [|x a IH].
  - intros _. change (String.append EmptyString (String c b)) with (String c b). simpl.
    by rewrite decide_True.
  - rewrite append_cons. simpl. intros [Hx Ha]%orb_false_iff. apply bool_decide_eq_false in Hx.
    rewrite decide_False by done. by rewrite IH.
Qed.

Lemma split_char_single c a : has_char c a = false -> split_char c a = [a].
Proof.
  induction a as [|x a IH]; simpl; [done|].
  intros [Hx Ha]%orb_false_iff. apply bool_decide_eq_false in Hx.
  rewrite decide_False by done. by rewrite IH.
Qed.

Lemma trim_right_app c a b : trim_right c b = b -> b <> EmptyString ->
  trim_right c (String.append a b) = String.append a b.
Proof.
  intros Hb Hne. induction a as [|x a IH]; [done|]. rewrite append_cons. simpl. rewrite IH.
  destruct (String.append a b) eqn:E; [|done]. exfalso.
  destruct a; [done|]. by rewrite append_cons in E.
Qed.
