(* ===== verification/Replay.v ===== *)
(** * Anti-replay window ([golib/webrtc/replay.go])

    The sliding-window bitmap that decides whether a packet counter is new.
    [Replay.Check] and its helpers follow the Go methods statement by
    statement: the bitmap is an array of 128 words of 64 bits that the loops
    update in place.  The abstract filter remembers the set of accepted
    counters; the refinement theorem relates the two. *)

From S2P Require Import Prelude.

Local Open Scope Z_scope.

(** ** Interface

    What a receiver relies on: a filter state represents the set of the
    counters it accepted, and a counter in that set is never accepted again. *)
Class AntiReplay (F : Type) := {
  ar_new : F;
  ar_check : Z -> F -> bool * F;
  ar_rep : F -> gset Z -> Prop;
  ar_new_rep : ar_rep ar_new ∅;
  ar_accept : forall seq f seen f', 0 <= seq < 2 ^ 64 ->
    ar_rep f seen -> ar_check seq f = (true, f') ->
    (seq ∉ seen) /\ ar_rep f' ({[seq]} ∪ seen);
  ar_reject : forall seq f seen f', 0 <= seq < 2 ^ 64 ->
    ar_rep f seen -> ar_check seq f = (false, f') -> ar_rep f' seen
}.

Module Replay.

Definition replayWindowSize : Z := 8192.

Record replayFilter := mkFilter {
  maxSeq : Z;        (* uint64 *)
  bitmap : list Z    (* [128]uint64 *)
}.

Definition newReplayFilter : replayFilter := mkFilter 0 (replicate 128 0).

Definition setBit (rf : replayFilter) (offset : Z) : replayFilter :=
  let idx := Z.to_nat (offset / 64) in
  let bit := offset mod 64 in
  mkFilter (maxSeq rf)
    (<[idx := Z.lor (bitmap rf !!! idx) (u64 (Z.shiftl 1 bit))]> (bitmap rf)).

Definition getBit (rf : replayFilter) (offset : Z) : bool :=
  let idx := Z.to_nat (offset / 64) in
  let bit := offset mod 64 in
  negb (Z.land (bitmap rf !!! idx) (u64 (Z.shiftl 1 bit)) =? 0).

(** The whole-word loops and the sub-word loop of [advanceWindow]. *)
Definition shift_words (ws : nat) (bm : list Z) : list Z :=
  for_up ws 0 (fun i bm => <[i := 0]> bm)
    (for_down (128 - ws) ws (fun i bm => <[i := bm !!! (i - ws)%nat]> bm) bm).

Definition shift_bits (bs : Z) (bm : list Z) : list Z :=
  let b := for_down 127 1
             (fun i bm => <[i := Z.lor (u64 (Z.shiftl (bm !!! i) bs))
                                      (Z.shiftr (bm !!! (i - 1)%nat) (64 - bs))]> bm) bm in
  <[0%nat := u64 (Z.shiftl (b !!! 0%nat) bs)]> b.

Definition advanceWindow (rf : replayFilter) (shift : Z) : replayFilter :=
  let wordShift := shift / 64 in
  let bitShift := shift mod 64 in
  if 128 <=? wordShift then mkFilter (maxSeq rf) (replicate 128 0)
  else
    let b1 := if 0 <? wordShift then shift_words (Z.to_nat wordShift) (bitmap rf) else bitmap rf in
    mkFilter (maxSeq rf) (if 0 <? bitShift then shift_bits bitShift b1 else b1).

Definition Check (seq : Z) (rf : replayFilter) : bool * replayFilter :=
  if maxSeq rf <? seq then
    let shift := u64 (seq - maxSeq rf) in
    let rf1 := if replayWindowSize <=? shift then mkFilter (maxSeq rf) (replicate 128 0)
               else advanceWindow rf shift in
    (true, setBit (mkFilter seq (bitmap rf1)) 0)
  else
    let diff := u64 (maxSeq rf - seq) in
    if replayWindowSize <=? diff then (false, rf)
    else if getBit rf diff then (false, rf)
    else (true, setBit rf diff).

(** The bits of the window: position [k] stands for the counter
    [maxSeq - k]. *)
Definition bm_bit (bm : list Z) (k : Z) : bool :=
  Z.testbit (bm !!! Z.to_nat (k / 64)) (k mod 64).

Definition bm_wf (bm : list Z) : Prop :=
  length bm = 128%nat /\ forall i, 0 <= bm !!! i < 2 ^ 64.

(** ** Word and bit lemmas *)

Lemma testbit_high x i : 0 <= x < 2 ^ 64 -> 64 <= i -> Z.testbit x i = false.
Proof.
  intros Hx Hi. rewrite <- (Z.mod_small x (2 ^ 64)) by lia. apply Z.mod_pow2_bits_high. lia.
Qed.

Lemma testbit_u64 x i : 0 <= i < 64 -> Z.testbit (u64 x) i = Z.testbit x i.
Proof. intros. unfold wrap. by rewrite Z.mod_pow2_bits_low by lia. Qed.

Lemma u64_bit b : 0 <= b < 64 -> u64 (Z.shiftl 1 b) = 2 ^ b.
Proof.
  intros. rewrite Z.shiftl_1_l. apply wrap_small. split; [lia|]. apply Z.pow_lt_mono_r; lia.
Qed.

Lemma lor_range x y : 0 <= x < 2 ^ 64 -> 0 <= y < 2 ^ 64 -> 0 <= Z.lor x y < 2 ^ 64.
Proof.
  intros Hx Hy. replace (Z.lor x y) with (u64 (Z.lor x y)); [apply wrap_range; lia|].
  apply Z.bits_inj'. intros n Hn. destruct (decide (n < 64)).
  - apply testbit_u64. lia.
  - rewrite Z.lor_spec, !testbit_high by (try apply wrap_range; lia). done.
Qed.

Lemma shiftr_range x k : 0 <= x < 2 ^ 64 -> 0 <= k -> 0 <= Z.shiftr x k < 2 ^ 64.
Proof.
  intros Hx Hk. rewrite Z.shiftr_div_pow2 by lia.
  assert (0 < 2 ^ k) by (apply Z.pow_pos_nonneg; lia).
  split; [apply Z.div_pos; lia|]. apply Z.div_lt_upper_bound; nia.
Qed.

Lemma getBit_bm rf k : 0 <= k -> getBit rf k = bm_bit (bitmap rf) k.
Proof.
  intros Hk. unfold getBit, bm_bit.
  assert (0 <= k mod 64 < 64) by (apply Z.mod_pos_bound; lia).
  rewrite u64_bit by done. set (w := bitmap rf !!! _).
  destruct (Z.testbit w (k mod 64)) eqn:E.
  - apply negb_true_iff, Z.eqb_neq. intros H0.
    assert (Z.testbit (Z.land w (2 ^ (k mod 64))) (k mod 64) = false) as F by (rewrite H0; apply Z.bits_0).
    rewrite Z.land_spec, Z.pow2_bits_true, E in F by lia. done.
  - apply negb_false_iff, Z.eqb_eq. apply Z.bits_inj'. intros n Hn.
    rewrite Z.land_spec, Z.bits_0, Z.pow2_bits_eqb by lia.
    destruct (Z.eqb_spec (k mod 64) n) as [<-|]; [by rewrite E|apply andb_false_r].
Qed.

Lemma div_mod_64_inj j k : j / 64 = k / 64 -> j mod 64 = k mod 64 -> j = k.
Proof. intros. rewrite (Z.div_mod j 64), (Z.div_mod k 64) by lia. congruence. Qed.

Lemma setBit_bm rf k j :
  bm_wf (bitmap rf) -> 0 <= k < 8192 -> 0 <= j < 8192 ->
  bm_bit (bitmap (setBit rf k)) j = (j =? k) || bm_bit (bitmap rf) j.
Proof.
  intros [Hl _] Hk Hj. unfold setBit, bm_bit. simpl.
  assert (0 <= k mod 64 < 64) by (apply Z.mod_pos_bound; lia).
  assert (0 <= k / 64 < 128) by (split; [apply Z.div_pos|apply Z.div_lt_upper_bound]; lia).
  assert (0 <= j / 64 < 128) by (split; [apply Z.div_pos|apply Z.div_lt_upper_bound]; lia).
  rewrite u64_bit by done.
  destruct (decide (k / 64 = j / 64)) as [E|E].
  - rewrite <- E, list_lookup_total_insert_eq by lia.
    rewrite Z.lor_spec, Z.pow2_bits_eqb, orb_comm by lia. f_equal.
    destruct (Z.eqb_spec j k) as [->|]; [by rewrite Z.eqb_refl|].
    apply Z.eqb_neq. intros F. auto using div_mod_64_inj.
  - rewrite list_lookup_total_insert_ne by lia.
    destruct (Z.eqb_spec j k); [congruence|done].
Qed.

Lemma setBit_wf rf k : bm_wf (bitmap rf) -> 0 <= k < 8192 -> bm_wf (bitmap (setBit rf k)).
Proof.
  intros [Hl Hr] Hk. unfold setBit. simpl. split; [by rewrite length_insert|]. intros i.
  assert (0 <= k mod 64 < 64) by (apply Z.mod_pos_bound; lia).
  destruct (decide (Z.to_nat (k / 64) = i)) as [<-|];
    [|by rewrite list_lookup_total_insert_ne].
  assert (0 <= k / 64 < 128) by (split; [apply Z.div_pos|apply Z.div_lt_upper_bound]; lia).
  rewrite list_lookup_total_insert_eq by lia.
  apply lor_range; [apply Hr|apply wrap_range; lia].
Qed.

(** ** The two shifting loops of [advanceWindow] *)

Lemma advanceWindow_eq rf s :
  0 <= s / 64 < 128 ->
  bitmap (advanceWindow rf s) =
    let b1 := if 0 <? s / 64 then shift_words (Z.to_nat (s / 64)) (bitmap rf) else bitmap rf in
    if 0 <? s mod 64 then shift_bits (s mod 64) b1 else b1.
Proof. intros H. unfold advanceWindow. by rewrite (proj2 (Z.leb_gt 128 (s / 64))) by lia. Qed.

Lemma shift_words_lookup ws bm i :
  length bm = 128%nat -> (0 < ws < 128)%nat -> (i < 128)%nat ->
  shift_words ws bm !!! i = if decide (i < ws)%nat then 0 else bm !!! (i - ws)%nat.
Proof.
  intros Hl Hws Hi. unfold shift_words.
  rewrite for_up_const by (rewrite length_for_down_store; lia).
  destruct (decide (i < ws)%nat); [by rewrite decide_True by lia|].
  rewrite decide_False, for_down_store by (try (intros j l1 l2 Hj; apply Hj); lia).
  by rewrite decide_True by lia.
Qed.

Lemma shift_bits_lookup bs bm i :
  length bm = 128%nat -> (i < 128)%nat ->
  shift_bits bs bm !!! i =
    if decide (i = 0)%nat then u64 (Z.shiftl (bm !!! 0%nat) bs)
    else Z.lor (u64 (Z.shiftl (bm !!! i) bs)) (Z.shiftr (bm !!! (i - 1)%nat) (64 - bs)).
Proof.
  intros Hl Hi. unfold shift_bits.
  assert (forall (j : nat) (l1 l2 : list Z), (forall k, (k <= j)%nat -> l1 !!! k = l2 !!! k) ->
    Z.lor (u64 (Z.shiftl (l1 !!! j) bs)) (Z.shiftr (l1 !!! (j - 1)%nat) (64 - bs)) =
    Z.lor (u64 (Z.shiftl (l2 !!! j) bs)) (Z.shiftr (l2 !!! (j - 1)%nat) (64 - bs))) as Hf.
  { intros j l1 l2 Hj. by rewrite !Hj by lia. }
  case_decide as Hd.
  - subst i. rewrite list_lookup_total_insert_eq by (rewrite length_for_down_store; lia).
    rewrite (for_down_store _ _ _ _ _ Hf) by lia. by rewrite decide_False by lia.
  - rewrite list_lookup_total_insert_ne by lia.
    rewrite (for_down_store _ _ _ _ _ Hf) by lia. by rewrite decide_True by lia.
Qed.

Lemma length_shift_words ws bm : length (shift_words ws bm) = length bm.
Proof. unfold shift_words. by rewrite length_for_up_const, length_for_down_store. Qed.

Lemma length_shift_bits bs bm : length (shift_bits bs bm) = length bm.
Proof. unfold shift_bits. by rewrite length_insert, length_for_down_store. Qed.

Lemma bm_wf_intro bm :
  length bm = 128%nat -> (forall i, (i < 128)%nat -> 0 <= bm !!! i < 2 ^ 64) -> bm_wf bm.
Proof.
  intros Hl Hr. split; [done|]. intros i. destruct (decide (i < 128)%nat); [by apply Hr|].
  rewrite list_lookup_total_alt, lookup_ge_None_2 by lia. simpl. lia.
Qed.

Lemma shift_words_wf ws bm : (0 < ws < 128)%nat -> bm_wf bm -> bm_wf (shift_words ws bm).
Proof.
  intros Hws [Hl Hr]. apply bm_wf_intro; [by rewrite length_shift_words|].
  intros i Hi. rewrite shift_words_lookup by done. case_decide; [lia|apply Hr].
Qed.

Lemma shift_bits_wf bs bm : 0 <= bs < 64 -> bm_wf bm -> bm_wf (shift_bits bs bm).
Proof.
  intros Hbs [Hl Hr]. apply bm_wf_intro; [by rewrite length_shift_bits|].
  intros i Hi. rewrite shift_bits_lookup by done. case_decide; [apply wrap_range; lia|].
  apply lor_range; [apply wrap_range; lia|]. apply shiftr_range; [apply Hr|lia].
Qed.

(** In terms of window positions: shifting whole words moves the window by a
    multiple of 64, shifting bits by less than 64. *)

Lemma split64 k : 0 <= k < 8192 ->
  exists i t, k = 64 * Z.of_nat i + t /\ (i < 128)%nat /\ 0 <= t < 64 /\
    k / 64 = Z.of_nat i /\ k mod 64 = t.
Proof.
  intros Hk. exists (Z.to_nat (k / 64)), (k mod 64).
  assert (0 <= k mod 64 < 64) by (apply Z.mod_pos_bound; lia).
  assert (0 <= k / 64 < 128) by (split; [apply Z.div_pos|apply Z.div_lt_upper_bound]; lia).
  pose proof (Z.div_mod k 64). lia.
Qed.

Lemma bm_bit_at bm (i : nat) t : 0 <= t < 64 -> bm_bit bm (64 * Z.of_nat i + t) = Z.testbit (bm !!! i) t.
Proof.
  intros Ht. unfold bm_bit. rewrite (Z.add_comm _ t), Z.mul_comm, Z.div_add, Z_mod_plus_full by lia.
  rewrite Z.div_small, Z.mod_small by lia. by rewrite Z.add_0_l, Nat2Z.id.
Qed.

Lemma shift_words_bit ws bm k :
  length bm = 128%nat -> (0 < ws < 128)%nat -> 0 <= k < 8192 ->
  bm_bit (shift_words ws bm) k =
    if decide (k < 64 * Z.of_nat ws) then false else bm_bit bm (k - 64 * Z.of_nat ws).
Proof.
  intros Hl Hws Hk. destruct (split64 k Hk) as (i & t & -> & Hi & Ht & _ & _).
  rewrite bm_bit_at, shift_words_lookup by done. repeat case_decide; try lia.
  - apply Z.bits_0.
  - replace (64 * Z.of_nat i + t - 64 * Z.of_nat ws) with (64 * Z.of_nat (i - ws) + t) by lia.
    by rewrite bm_bit_at.
Qed.

Lemma shift_bits_bit bs bm k :
  bm_wf bm -> 0 < bs < 64 -> 0 <= k < 8192 ->
  bm_bit (shift_bits bs bm) k = if decide (k < bs) then false else bm_bit bm (k - bs).
Proof.
  intros [Hl Hr] Hbs Hk. destruct (split64 k Hk) as (i & t & -> & Hi & Ht & _ & _).
  rewrite bm_bit_at, shift_bits_lookup by done. destruct (decide (t < bs)) as [Htb|Htb].
  - (* the bit comes from the word below *)
    assert (Z.testbit (u64 (Z.shiftl (bm !!! i) bs)) t = false) as Hlo
      by (rewrite testbit_u64, Z.shiftl_spec_low by lia; done).
    repeat case_decide; try lia; subst.
    + by rewrite Hlo.
    + rewrite Z.lor_spec, Hlo, Z.shiftr_spec by lia. simpl.
      replace (64 * Z.of_nat i + t - bs) with (64 * Z.of_nat (i - 1) + (t + (64 - bs))) by lia.
      by rewrite bm_bit_at by lia.
  - (* the bit stays in its word *)
    assert (Z.testbit (u64 (Z.shiftl (bm !!! i) bs)) t = Z.testbit (bm !!! i) (t - bs)) as Hhi
      by (rewrite testbit_u64, Z.shiftl_spec by lia; done).
    replace (64 * Z.of_nat i + t - bs) with (64 * Z.of_nat i + (t - bs)) by lia.
    rewrite bm_bit_at by lia. rewrite (decide_False (P := _ < bs)) by lia.
    case_decide; [by subst; rewrite Hhi|].
    rewrite Z.lor_spec, Hhi, Z.shiftr_spec by lia.
    rewrite (testbit_high _ (t + (64 - bs))) by (try apply Hr; lia). apply orb_false_r.
Qed.

Lemma advanceWindow_bit rf s k :
  bm_wf (bitmap rf) -> 0 <= s < 8192 -> 0 <= k < 8192 ->
  bm_bit (bitmap (advanceWindow rf s)) k =
    if decide (k < s) then false else bm_bit (bitmap rf) (k - s).
Proof.
  intros Hwf Hs Hk. destruct (split64 s Hs) as (ws & bs & Heq & Hws & Hbs & Hd & Hm).
  rewrite advanceWindow_eq, Hm, Hd, Nat2Z.id by lia. cbv zeta.
  assert (Hz : ws = 0%nat -> bs = 0 -> s = 0) by lia.
  destruct (Z.ltb_spec 0 (Z.of_nat ws)) as [Hw|Hw], (Z.ltb_spec 0 bs) as [Hb|Hb].
  - rewrite shift_bits_bit by (try apply shift_words_wf; lia || done).
    destruct (decide (k < bs)); [by rewrite decide_True by lia|].
    rewrite shift_words_bit by (try apply Hwf; lia).
    repeat case_decide; try lia. f_equal. lia.
  - rewrite shift_words_bit by (try apply Hwf; lia).
    repeat case_decide; try lia. f_equal. lia.
  - rewrite shift_bits_bit by (done || lia).
    repeat case_decide; try lia. f_equal. lia.
  - rewrite decide_False by lia. f_equal. lia.
Qed.

Lemma advanceWindow_wf rf s :
  bm_wf (bitmap rf) -> 0 <= s < 8192 -> bm_wf (bitmap (advanceWindow rf s)).
Proof.
  intros Hwf Hs. destruct (split64 s Hs) as (ws & bs & Heq & Hws & Hbs & Hd & Hm).
  rewrite advanceWindow_eq, Hm by lia. cbv zeta.
  destruct (Z.ltb_spec 0 (s / 64)), (Z.ltb_spec 0 bs);
    repeat first [apply shift_bits_wf | apply shift_words_wf]; done || lia.
Qed.

(** ** The abstract filter and the refinement *)

(** The contract: remember every accepted counter; accept a counter that was
    not accepted before and is less than a window behind the largest one. *)
Record spec := mkSpec { s_max : Z; s_seen : gset Z }.

Definition spec_new : spec := mkSpec 0 ∅.

Definition spec_check (seq : Z) (s : spec) : bool * spec :=
  if decide (seq ∈ s_seen s) then (false, s)
  else if s_max s - seq <? replayWindowSize
  then (true, mkSpec (Z.max (s_max s) seq) ({[seq]} ∪ s_seen s))
  else (false, s).

Record rep (rf : replayFilter) (s : spec) : Prop := {
  rep_wf : bm_wf (bitmap rf);
  rep_max : maxSeq rf = s_max s;
  rep_u64 : 0 <= s_max s < 2 ^ 64;
  rep_seen : forall x, x ∈ s_seen s -> 0 <= x <= s_max s;
  rep_bit : forall k, 0 <= k < replayWindowSize ->
    bm_bit (bitmap rf) k = bool_decide (s_max s - k ∈ s_seen s)
}.

Lemma bm_bit_zero k : 0 <= k < replayWindowSize -> bm_bit (replicate 128 0) k = false.
Proof.
  unfold replayWindowSize. intros Hk. destruct (split64 k Hk) as (i & t & -> & Hi & Ht & _ & _).
  rewrite bm_bit_at, lookup_total_replicate_2 by lia. apply Z.bits_0.
Qed.

Lemma bm_wf_zero : bm_wf (replicate 128 0).
Proof. apply bm_wf_intro; [done|]. intros i Hi. rewrite lookup_total_replicate_2 by lia. lia. Qed.

Lemma rep_new : rep newReplayFilter spec_new.
Proof.
  split; simpl; [apply bm_wf_zero|done|done|by intros x ?%elem_of_empty|]. intros k Hk.
  rewrite bm_bit_zero, bool_decide_eq_false_2 by (done || apply not_elem_of_empty). done.
Qed.

(** A counter above the largest: the window moves, whatever the distance. *)
Lemma advance_rep rf s seq :
  rep rf s -> s_max s < seq < 2 ^ 64 ->
  let shift := u64 (seq - maxSeq rf) in
  let rf1 := if replayWindowSize <=? shift then mkFilter (maxSeq rf) (replicate 128 0)
             else advanceWindow rf shift in
  bm_wf (bitmap rf1) /\
  forall k, 0 <= k < replayWindowSize ->
    bm_bit (bitmap rf1) k = bool_decide (seq - k ∈ s_seen s).
Proof.
  intros [Hwf Hm Hu Hs Hb] Hseq. unfold replayWindowSize in *. cbv zeta. rewrite Hm.
  rewrite wrap_small by lia. destruct (Z.leb_spec 8192 (seq - s_max s)).
  - split; [apply bm_wf_zero|]. intros k Hk.
    rewrite bm_bit_zero, bool_decide_eq_false_2; [done| |done]. intros Hin%Hs. lia.
  - split; [apply advanceWindow_wf; [done|lia]|]. intros k Hk.
    rewrite advanceWindow_bit by (done || lia). case_decide as Hd.
    + rewrite bool_decide_eq_false_2; [done|]. intros Hin%Hs. lia.
    + rewrite Hb by lia. by replace (s_max s - (k - (seq - s_max s))) with (seq - k) by lia.
Qed.

(** Recording a counter of the window. *)
Lemma rep_add rf s seq :
  bm_wf (bitmap rf) -> maxSeq rf = Z.max (s_max s) seq ->
  0 <= s_max s < 2 ^ 64 -> 0 <= seq < 2 ^ 64 -> maxSeq rf - seq < replayWindowSize ->
  (forall x, x ∈ s_seen s -> 0 <= x <= s_max s) ->
  (forall k, 0 <= k < replayWindowSize ->
     bm_bit (bitmap rf) k = bool_decide (maxSeq rf - k ∈ s_seen s)) ->
  rep (setBit rf (maxSeq rf - seq)) (mkSpec (Z.max (s_max s) seq) ({[seq]} ∪ s_seen s)).
Proof.
  unfold replayWindowSize. intros Hwf Hm Hu Hseq Hw Hs Hb. split; cbn [s_max s_seen].
  - apply setBit_wf; [done|lia].
  - done.
  - lia.
  - intros x [->%elem_of_singleton|Hx%Hs]%elem_of_union; lia.
  - unfold replayWindowSize. intros k Hk. rewrite setBit_bm, Hb, <- Hm by (done || lia).
    destruct (Z.eqb_spec k (maxSeq rf - seq)) as [->|Hne]; simpl.
    + rewrite bool_decide_eq_true_2; [done|]. apply elem_of_union_l, elem_of_singleton. lia.
    + apply bool_decide_ext. rewrite elem_of_union, elem_of_singleton. split; [by right|].
      intros [?|?]; [lia|done].
Qed.

Lemma Check_sim seq rf s :
  rep rf s -> 0 <= seq < 2 ^ 64 ->
  fst (Check seq rf) = fst (spec_check seq s) /\
  rep (snd (Check seq rf)) (snd (spec_check seq s)).
Proof.
  intros Hrep Hseq. pose proof Hrep as [Hwf Hm Hu Hs Hb]. unfold Check, spec_check.
  destruct (Z.ltb_spec (maxSeq rf) seq) as [Hgt|Hle].
  - destruct (advance_rep rf s seq Hrep ltac:(lia)) as [Hwf1 Hb1].
    cbv zeta in *. set (rf1 := if replayWindowSize <=? _ then _ else _) in *.
    rewrite decide_False by (intros Hin%Hs; lia).
    rewrite (proj2 (Z.ltb_lt _ _)) by (unfold replayWindowSize; lia). split; [done|]. cbn [snd].
    replace 0 with (maxSeq (mkFilter seq (bitmap rf1)) - seq) by (simpl; lia).
    apply rep_add; simpl; unfold replayWindowSize; done || lia.
  - cbv zeta. rewrite wrap_small by lia.
    destruct (Z.leb_spec replayWindowSize (maxSeq rf - seq)) as [Hold|Hin].
    { rewrite (proj2 (Z.ltb_ge _ _)) by lia. by destruct (decide _). }
    rewrite getBit_bm, Hb by lia. replace (s_max s - (maxSeq rf - seq)) with seq by lia.
    destruct (decide (seq ∈ s_seen s)) as [Hseen|Hnew]; [by rewrite bool_decide_eq_true_2|].
    rewrite bool_decide_eq_false_2, (proj2 (Z.ltb_lt _ _)) by (done || lia). split; [done|].
    apply rep_add; try done; try lia. intros k Hk. rewrite Hm. auto.
Qed.

#[export, refine] Instance replay_AntiReplay : AntiReplay replayFilter := {|
  ar_new := newReplayFilter;
  ar_check := Check;
  ar_rep f seen := exists m, rep f (mkSpec m seen)
|}.
Proof.
  - exists 0. apply rep_new.
  - intros seq f seen f' Hseq [m Hrep] Hc. destruct (Check_sim seq f _ Hrep Hseq) as [H1 H2].
    rewrite Hc in H1, H2. unfold spec_check in H1, H2. simpl in *.
    destruct (decide _); [done|]. destruct (_ <? _); [|done]. eauto.
  - intros seq f seen f' Hseq [m Hrep] Hc. destruct (Check_sim seq f _ Hrep Hseq) as [H1 H2].
    rewrite Hc in H1, H2. unfold spec_check in H1, H2. simpl in *.
    destruct (decide _); [eauto|]. destruct (_ <? _); [done|eauto].
Defined.

(** ** Runs of the filter *)

(** The counters of a received sequence that the filter lets through, in
    order, with the final state. *)
Fixpoint run (rf : replayFilter) (seqs : list Z) : list Z * replayFilter :=
  match seqs with
  | [] => ([], rf)
  | x :: xs =>
      let '(ok, rf1) := Check x rf in
      let '(acc, rf2) := run rf1 xs in
      (if ok then x :: acc else acc, rf2)
  end.

Fixpoint spec_run (s : spec) (seqs : list Z) : list Z * spec :=
  match seqs with
  | [] => ([], s)
  | x :: xs =>
      let '(ok, s1) := spec_check x s in
      let '(acc, s2) := spec_run s1 xs in
      (if ok then x :: acc else acc, s2)
  end.

Definition u64_seqs (seqs : list Z) : Prop := Forall (fun x => 0 <= x < 2 ^ 64) seqs.

Lemma run_sim rf s seqs :
  rep rf s -> u64_seqs seqs ->
  fst (run rf seqs) = fst (spec_run s seqs) /\ rep (snd (run rf seqs)) (snd (spec_run s seqs)).
Proof.
  intros Hrep Hu. revert rf s Hrep. induction Hu as [|x xs Hx Hxs IH]; intros rf s Hrep; simpl; [done|].
  destruct (Check_sim x rf s Hrep Hx) as [H1 H2].
  destruct (Check x rf) as [ok rf1], (spec_check x s) as [ok' s1]. simpl in *. subst ok'.
  destruct (IH _ _ H2) as [H3 H4].
  destruct (run rf1 xs), (spec_run s1 xs). simpl in *. by subst.
Qed.

Lemma spec_run_nodup s seqs :
  NoDup (fst (spec_run s seqs)) /\ forall x, x ∈ fst (spec_run s seqs) -> x ∉ s_seen s.
Proof.
  revert s. induction seqs as [|y ys IH]; intros s; simpl.
  { split; [constructor|]. by intros x ?%not_elem_of_nil. }
  unfold spec_check. destruct (decide (y ∈ s_seen s)); [|destruct (_ <? _)].
  - destruct (IH s). by destruct (spec_run s ys).
  - destruct (IH (mkSpec (s_max s `max` y) ({[y]} ∪ s_seen s))) as [Hn Hs].
    destruct (spec_run _ ys) as [acc s2]. simpl in *. split.
    + constructor; [|done]. intros Hy. apply (Hs y Hy), elem_of_union_l, elem_of_singleton. done.
    + intros x [->|Hx]%elem_of_cons; [done|]. intros Hin. by apply (Hs x Hx), elem_of_union_r.
  - destruct (IH s). by destruct (spec_run s ys).
Qed.

(** whatever sequence of packet counters arrives, the filter never lets
    the same counter through twice. *)
Theorem replay_accepts_once seqs :
  u64_seqs seqs -> NoDup (fst (run newReplayFilter seqs)).
Proof.
  intros Hu. destruct (run_sim _ _ seqs rep_new Hu) as [-> _]. apply spec_run_nodup.
Qed.

(** C3: the bitmap filter refines the abstract one on every received
    sequence: it lets through exactly the counters that were not let through
    before and lie less than [replayWindowSize] behind the largest one, so
    reordering within the window never loses a packet. *)
Theorem replay_refines seqs :
  u64_seqs seqs -> fst (run newReplayFilter seqs) = fst (spec_run spec_new seqs).
Proof. intros Hu. by destruct (run_sim _ _ seqs rep_new Hu). Qed.

Lemma u64_seqs_dec seqs :
  forallb (fun x => (0 <=? x) && (x <? 2 ^ 64)) seqs = true -> u64_seqs seqs.
Proof.
  intros H. apply Forall_forall. intros x Hx%list_elem_of_In.
  rewrite forallb_forall in H. specialize (H x Hx). lia.
Qed.

Lemma replay_accepts_once_witness :
  fst (run newReplayFilter [5; 3; 5; 9000; 700; 9000; 2 ^ 64 - 1]) = [5; 3; 9000; 2 ^ 64 - 1] /\
  NoDup (fst (run newReplayFilter [5; 3; 5; 9000; 700; 9000; 2 ^ 64 - 1])).
Proof. split; [vm_compute; reflexivity|]. apply replay_accepts_once, u64_seqs_dec. reflexivity. Defined.

Lemma replay_refines_witness :
  fst (run newReplayFilter [100; 164; 101; 8291; 99; 100]) =
  fst (spec_run spec_new [100; 164; 101; 8291; 99; 100]).
Proof. apply replay_refines, u64_seqs_dec. reflexivity. Defined.

End Replay.
