(* ===== verification/Padding.v ===== *)
(** * Traffic padding of a stream ([golib/webrtc/padding.go], [padding_burst.go])

    [paddedStream] frames every write of a stream with optional random
    padding, and sends a burst of decoy frames before the first write.  The
    reading side strips padding and decoys.

    The model keeps the buffers the code keeps: [writeBuf] is the reusable
    buffer, with the stale bytes of earlier writes in it, that every frame is
    assembled in, in place; [readBuf] is the rest of a frame that did not fit
    the caller's buffer.  [None] is a panic of the Go runtime (a negative
    slice bound).  The random source is an argument of every operation that
    draws from it. *)

From S2P Require Import Prelude IO.

Open Scope Z_scope.
Open Scope np_scope.

Module Padding.

(** ** State *)

Definition paddingFlagNone : Z := 0.
Definition paddingFlagPad : Z := 1.
Definition paddingFlagDecoy : Z := 2.
Definition paddingFlagBurstEnd : Z := 3.

Record paddedStream := mkPadded {
  inner_r : reader;          (* what arrives on [inner] *)
  inner_w : writer;          (* what is written to [inner] *)
  minPad : Z;
  maxPad : Z;
  burstOnce : bool;          (* the [sync.Once] has run *)
  readBuf : bytes;
  writeBuf : bytes           (* its length is its capacity *)
}.

Definition newPaddedStream (r : reader) (w : writer) (mn mx : Z) : paddedStream :=
  mkPadded r w mn mx false [] [].

Definition set_inner_w (w : writer) (ps : paddedStream) : paddedStream :=
  mkPadded (inner_r ps) w (minPad ps) (maxPad ps) (burstOnce ps) (readBuf ps) (writeBuf ps).
Definition set_writeBuf (b : bytes) (ps : paddedStream) : paddedStream :=
  mkPadded (inner_r ps) (inner_w ps) (minPad ps) (maxPad ps) (burstOnce ps) (readBuf ps) b.
Definition set_burst (ps : paddedStream) : paddedStream :=
  mkPadded (inner_r ps) (inner_w ps) (minPad ps) (maxPad ps) true (readBuf ps) (writeBuf ps).
Definition set_read (r : reader) (b : bytes) (ps : paddedStream) : paddedStream :=
  mkPadded r (inner_w ps) (minPad ps) (maxPad ps) (burstOnce ps) b (writeBuf ps).

(** ** Writing *)

(** The buffer of capacity at least [n] that [ps.writeBuf] is afterwards; the
    caller uses its first [n] bytes. *)
Definition growWriteBuf (n : nat) (ps : paddedStream) : paddedStream :=
  if decide (length (writeBuf ps) < n)%nat then set_writeBuf (replicate n x00) ps else ps.

Section write.
Context {G : Type} `{Rand G}.

(** [sizes[i] = 64 + rand.Intn(961)] for every [i]. *)
Fixpoint burst_sizes (count : nat) (g : G) : list nat * G :=
  match count with
  | O => ([], g)
  | S c => let '(x, g1) := intn 961 g in
           let '(rest, g2) := burst_sizes c g1 in
           (Z.to_nat (64 + x) :: rest, g2)
  end.

(** The loop that fills [buf] with one decoy frame per size. *)
Fixpoint burst_fill (sizes : list nat) (offset : nat) (buf : bytes) (g : G)
    : nat * bytes * G :=
  match sizes with
  | [] => (offset, buf, g)
  | size :: rest =>
      let buf := splice offset [z2b paddingFlagDecoy] buf in
      let buf := splice (offset + 1) (be_put 2 (u16 (Z.of_nat size))) buf in
      let '(rnd, g) := rread size g in
      let buf := splice (offset + 3) rnd buf in
      burst_fill rest (offset + (1 + 2 + size)) buf g
  end.

Definition burst_total (sizes : list nat) : nat :=
  (foldr (fun s acc => 1 + 2 + s + acc) 0 sizes + 1)%nat.

(** The error of the inner write is only logged. *)
Definition sendPaddingBurst (ps : paddedStream) (g : G) : paddedStream * G :=
  let '(c, g) := intn 6 g in
  let count := Z.to_nat (3 + c) in
  let '(sizes, g) := burst_sizes count g in
  let totalSize := burst_total sizes in
  let '(offset, buf, g) := burst_fill sizes 0 (replicate totalSize x00) g in
  let buf := splice offset [z2b paddingFlagBurstEnd] buf in
  let '(_, w) := Write buf (inner_w ps) in
  (set_inner_w w ps, g).

Definition choose_padLen (ps : paddedStream) (g : G) : Z * G :=
  if minPad ps <? maxPad ps then
    let '(x, g) := intn (maxPad ps - minPad ps) g in (minPad ps + x, g)
  else if 0 <? maxPad ps then (minPad ps, g)
  else (0, g).

(** Hand the first [n] bytes of the buffer to [inner]. *)
Definition flush_buf (n : nat) (plen : nat) (ps : paddedStream)
    : res goerr nat * paddedStream :=
  let '(r, w) := Write (take n (writeBuf ps)) (inner_w ps) in
  (match r with Ok _ => Ok plen | Err e => Err e end, set_inner_w w ps).

Definition psWrite (p : bytes) (ps : paddedStream) (g : G)
    : option (res goerr nat * paddedStream * G) :=
  let '(ps, g) := if burstOnce ps then (ps, g) else sendPaddingBurst (set_burst ps) g in
  let '(padLen, g) := choose_padLen ps g in
  if padLen =? 0 then
    let n := (1 + 2 + length p)%nat in
    let ps := growWriteBuf n ps in
    let buf := writeBuf ps in
    let buf := splice 0 [z2b paddingFlagNone] buf in
    let buf := splice 1 (be_put 2 (u16 (Z.of_nat (length p)))) buf in
    let buf := splice 3 p buf in
    Some (flush_buf n (length p) (set_writeBuf buf ps), g)
  else if padLen <? 0 then None
  else
    let pl := Z.to_nat padLen in
    let n := (1 + 2 + pl + 2 + length p)%nat in
    let ps := growWriteBuf n ps in
    let buf := writeBuf ps in
    let buf := splice 0 [z2b paddingFlagPad] buf in
    let buf := splice 1 (be_put 2 (u16 padLen)) buf in
    let '(rnd, g) := rread pl g in
    let buf := splice 3 rnd buf in
    let buf := splice (3 + pl) (be_put 2 (u16 (Z.of_nat (length p)))) buf in
    let buf := splice (5 + pl) p buf in
    Some (flush_buf n (length p) (set_writeBuf buf ps), g).

Definition WriteDecoy (size : Z) (ps : paddedStream) (g : G)
    : res goerr unit * paddedStream * G :=
  let '(size, g) := if size <=? 0 then let '(x, g) := intn 961 g in (64 + x, g)
                    else (size, g) in
  let sz := Z.to_nat size in
  let buf := replicate (1 + 2 + sz) x00 in
  let buf := splice 0 [z2b paddingFlagDecoy] buf in
  let buf := splice 1 (be_put 2 (u16 size)) buf in
  let '(rnd, g) := rread sz g in
  let buf := splice 3 rnd buf in
  let '(r, w) := Write buf (inner_w ps) in
  (match r with Ok _ => Ok tt | Err e => Err e end, set_inner_w w ps, g).

Definition WriteBurstEnd (ps : paddedStream) : res goerr unit * paddedStream :=
  let '(r, w) := Write [z2b paddingFlagBurstEnd] (inner_w ps) in
  (match r with Ok _ => Ok tt | Err e => Err e end, set_inner_w w ps).
End write.

(** ** Reading *)

(** One turn of the [for] loop of [Read]: either it returns or it continues. *)
Inductive turn := Return (r : res goerr bytes) | Continue.

(** The common tail of the two data frames: payload length, payload, copy. *)
Definition read_payload (n : nat) (ps : paddedStream) : turn * paddedStream :=
  match ReadFull 2 (inner_r ps) with
  | (Err e, r) => (Return (Err (EWrap "padding: read payload len" e)), set_read r (readBuf ps) ps)
  | (Ok lenBuf, r) =>
      let payloadLen := Z.to_nat (be_get lenBuf) in
      if decide (payloadLen = 0)%nat then (Continue, set_read r (readBuf ps) ps)
      else match ReadFull payloadLen r with
           | (Err e, r) => (Return (Err (EWrap "padding: read payload" e)), set_read r (readBuf ps) ps)
           | (Ok payload, r) =>
               let '(out, rest) := copy_out n payload in
               (Return (Ok out),
                set_read r (if decide (length out < payloadLen)%nat then rest else readBuf ps) ps)
           end
  end.

Definition discard_len (ctxLen ctxData : string) (ps : paddedStream)
    : res goerr unit * paddedStream :=
  match ReadFull 2 (inner_r ps) with
  | (Err e, r) => (Err (EWrap ctxLen e), set_read r (readBuf ps) ps)
  | (Ok lenBuf, r) =>
      let l := Z.to_nat (be_get lenBuf) in
      if decide (0 < l)%nat then
        match CopyNDiscard l r with
        | (Err e, r) => (Err (EWrap ctxData e), set_read r (readBuf ps) ps)
        | (Ok _, r) => (Ok tt, set_read r (readBuf ps) ps)
        end
      else (Ok tt, set_read r (readBuf ps) ps)
  end.

Definition read_turn (n : nat) (ps : paddedStream) : turn * paddedStream :=
  match ReadFull 1 (inner_r ps) with
  | (Err e, r) => (Return (Err e), set_read r (readBuf ps) ps)
  | (Ok flags, r) =>
      let ps := set_read r (readBuf ps) ps in
      let f := be_get flags in
      if f =? paddingFlagNone then read_payload n ps
      else if f =? paddingFlagPad then
        match discard_len "padding: read padLen" "padding: discard pad" ps with
        | (Err e, ps) => (Return (Err e), ps)
        | (Ok _, ps) => read_payload n ps
        end
      else if f =? paddingFlagDecoy then
        match discard_len "padding: read decoy len" "padding: discard decoy" ps with
        | (Err e, ps) => (Return (Err e), ps)
        | (Ok _, ps) => (Continue, ps)
        end
      else if f =? paddingFlagBurstEnd then (Continue, ps)
      else (Return (Err (EMsg "padding: unknown flags byte" [f])), ps)
  end.

#[global] Arguments read_turn : simpl never.

Fixpoint read_loop (fuel n : nat) (ps : paddedStream) : option (res goerr bytes * paddedStream) :=
  match fuel with
  | O => None
  | S fuel => match read_turn n ps with
              | (Return r, ps) => Some (r, ps)
              | (Continue, ps) => read_loop fuel n ps
              end
  end.

(** [Read(p)] with [n = len(p)]; the result is what is copied into [p].  Every
    turn of the loop that continues consumes the flags byte, so one more turn
    than there are bytes is enough. *)
Definition psRead (n : nat) (ps : paddedStream) : option (res goerr bytes * paddedStream) :=
  match readBuf ps with
  | [] => read_loop (S (length (rd_data (inner_r ps)))) n ps
  | _ => let '(out, rest) := copy_out n (readBuf ps) in
         Some (Ok out, set_read (inner_r ps) rest ps)
  end.

(** A caller that reads with buffers of the given sizes until an error. *)
Fixpoint read_many (sizes : list nat) (ps : paddedStream) : bytes * option goerr * paddedStream :=
  match sizes with
  | [] => ([], None, ps)
  | n :: sizes =>
      match psRead n ps with
      | Some (Ok out, ps) => let '(l, e, ps) := read_many sizes ps in (out ++ l, e, ps)
      | Some (Err e, ps) => ([], Some e, ps)
      | None => ([], None, ps)
      end
  end.

(** ** Frames

    What the two sides agree on: a stream is a sequence of frames, [enc] is
    their wire format, and [payload] what a frame carries. *)

Inductive frame :=
  | FData (p : bytes)
  | FPad (pad p : bytes)
  | FDecoy (d : bytes)
  | FEnd.

Definition len2 (l : bytes) : bytes := be_put 2 (u16 (Z.of_nat (length l))).

#[global] Arguments len2 : simpl never.

Definition enc (f : frame) : bytes :=
  match f with
  | FData p => z2b paddingFlagNone :: len2 p ++ p
  | FPad pad p => z2b paddingFlagPad :: len2 pad ++ pad ++ len2 p ++ p
  | FDecoy d => z2b paddingFlagDecoy :: len2 d ++ d
  | FEnd => [z2b paddingFlagBurstEnd]
  end.

Definition payload (f : frame) : bytes :=
  match f with FData p | FPad _ p => p | FDecoy _ | FEnd => [] end.

Definition fits (l : bytes) : Prop := Z.of_nat (length l) < 65536.

Definition frame_wf (f : frame) : Prop :=
  match f with
  | FData p => fits p
  | FPad pad p => fits pad /\ fits p
  | FDecoy d => fits d
  | FEnd => True
  end.

Definition encs (fs : list frame) : bytes := concat (enc <$> fs).
Definition payloads (fs : list frame) : bytes := concat (payload <$> fs).

Lemma encs_app fs gs : encs (fs ++ gs) = encs fs ++ encs gs.
Proof. unfold encs. by rewrite fmap_app, concat_app. Qed.

Lemma payloads_app fs gs : payloads (fs ++ gs) = payloads fs ++ payloads gs.
Proof. unfold payloads. by rewrite fmap_app, concat_app. Qed.

Lemma payloads_decoys ds : payloads (FDecoy <$> ds) = [].
Proof. by induction ds. Qed.

Lemma u16_length l : fits l -> u16 (Z.of_nat (length l)) = Z.of_nat (length l).
Proof. unfold fits. intros. apply wrap_small. change (2 ^ 16) with 65536. lia. Qed.

Lemma len2_get l : fits l -> Z.to_nat (be_get (len2 l)) = length l.
Proof.
  intros Hl. unfold len2. rewrite u16_length by done.
  rewrite be_get_put_small; [lia|]. unfold fits in Hl. change (2 ^ (8 * Z.of_nat 2)) with 65536. lia.
Qed.

Lemma length_len2 l : length (len2 l) = 2%nat.
Proof. apply length_be_put. Qed.

Lemma be_get_flag z : 0 <= z < 256 -> be_get [z2b z] = z.
Proof. intros. unfold be_get. simpl. by apply b2z_z2b_small. Qed.

(** *** Reading frames *)

Section reading.
Context (e : io_err).
Implicit Types (ps : paddedStream) (fs : list frame) (rest : bytes).

Lemma read_payload_ok n ps p rest :
  fits p -> inner_r ps = mkReader (len2 p ++ p ++ rest) e ->
  read_payload n ps =
    match p with
    | [] => (Continue, set_read (mkReader rest e) (readBuf ps) ps)
    | _ => (Return (Ok (take n p)),
            set_read (mkReader rest e) (if decide (n < length p)%nat then drop n p else readBuf ps) ps)
    end.
Proof.
  intros Hp Hr. unfold read_payload. rewrite Hr, ReadFull_app by apply length_len2.
  rewrite len2_get by done. destruct p as [|b p]; [done|].
  rewrite decide_False by (simpl; lia). rewrite ReadFull_app by done.
  unfold copy_out. rewrite length_take. do 2 f_equal.
  repeat case_decide; try lia; done.
Qed.

Lemma discard_len_ok c1 c2 ps d rest :
  fits d -> inner_r ps = mkReader (len2 d ++ d ++ rest) e ->
  discard_len c1 c2 ps = (Ok tt, set_read (mkReader rest e) (readBuf ps) ps).
Proof.
  intros Hd Hr. unfold discard_len. rewrite Hr, ReadFull_app by apply length_len2.
  rewrite len2_get by done. case_decide as Hc; [by rewrite CopyNDiscard_app|].
  destruct d; [done|simpl in Hc; lia].
Qed.

(** A turn of the loop consumes exactly one frame. *)
Lemma read_turn_frame n ps f rest :
  frame_wf f -> inner_r ps = mkReader (enc f ++ rest) e ->
  read_turn n ps =
    match payload f with
    | [] => (Continue, set_read (mkReader rest e) (readBuf ps) ps)
    | p => (Return (Ok (take n p)),
            set_read (mkReader rest e) (if decide (n < length p)%nat then drop n p else readBuf ps) ps)
    end.
Proof.
  intros Hf Hr. unfold read_turn. rewrite Hr.
  destruct f as [p|pad p|d|]; simpl enc; rewrite <- ?app_assoc; cbn [app];
    match goal with |- context [mkReader (?b :: ?l) e] => change (b :: l) with ([b] ++ l) end;
    rewrite ReadFull_app by done; rewrite be_get_flag by done;
    unfold paddingFlagNone, paddingFlagPad, paddingFlagDecoy, paddingFlagBurstEnd;
    cbn -[len2 read_payload discard_len].
  - rewrite (read_payload_ok _ _ p rest) by (rewrite <- ?app_assoc; done). by destruct p.
  - destruct Hf as [Hpad Hp].
    rewrite (discard_len_ok _ _ _ pad (len2 p ++ p ++ rest)) by (rewrite <- ?app_assoc; done).
    rewrite (read_payload_ok _ _ p rest) by done. by destruct p.
  - by rewrite (discard_len_ok _ _ _ d rest) by (rewrite <- ?app_assoc; done).
  - done.
Qed.

(** What [Read] does on a sequence of frames [fs]. *)
Lemma read_loop_frames fuel n ps fs :
  Forall frame_wf fs -> readBuf ps = [] -> inner_r ps = mkReader (encs fs) e ->
  (length fs < fuel)%nat ->
  exists r ps', read_loop fuel n ps = Some (r, ps') /\
    match r with
    | Ok out => exists gs, Forall frame_wf gs /\ inner_r ps' = mkReader (encs gs) e /\
        payloads fs = out ++ readBuf ps' ++ payloads gs /\
        ((0 < n)%nat -> out <> [])
    | Err err => payloads fs = [] /\ err = EIO e /\ inner_r ps' = mkReader [] e /\ readBuf ps' = []
    end.
Proof.
  revert ps fs. induction fuel as [|fuel IH]; intros ps fs Hwf Hb Hr Hfuel; [lia|]. simpl.
  destruct fs as [|f fs].
  - unfold read_turn. rewrite Hr. change (encs []) with (@nil byte).
    rewrite ReadFull_nil by lia. eexists _, _. split; [done|]. by split_and!.
  - inversion Hwf as [|? ? Hf Hfs]; subst.
    rewrite (read_turn_frame n ps f (encs fs)) by done. unfold payloads. simpl. fold (payloads fs).
    destruct (payload f) as [|b p] eqn:Hp.
    + apply (IH (set_read _ _ _)); [done..|]. simpl in Hfuel. lia.
    + eexists _, _. split; [done|]. exists fs. split; [done|]. simpl inner_r. split; [done|].
      split; [|intros ?; by destruct n; [lia|]]. cbn [readBuf set_read]. case_decide.
      * by rewrite !app_assoc, take_drop.
      * by rewrite Hb, (take_ge (b :: p) n) by (simpl; lia).
Qed.

Lemma length_encs fs : (length fs <= length (encs fs))%nat.
Proof.
  induction fs as [|f fs IH]; [simpl; lia|].
  change (encs (f :: fs)) with (enc f ++ encs fs). destruct f; len.
Qed.

Lemma psRead_frames n ps fs :
  Forall frame_wf fs -> inner_r ps = mkReader (encs fs) e ->
  exists r ps', psRead n ps = Some (r, ps') /\
    match r with
    | Ok out => exists gs, Forall frame_wf gs /\ inner_r ps' = mkReader (encs gs) e /\
        readBuf ps ++ payloads fs = out ++ readBuf ps' ++ payloads gs /\
        ((0 < n)%nat -> out <> [])
    | Err err => readBuf ps ++ payloads fs = [] /\ err = EIO e
    end.
Proof.
  intros Hwf Hr. unfold psRead. destruct (readBuf ps) as [|b l] eqn:Hb.
  - pose proof (length_encs fs).
    destruct (read_loop_frames (S (length (rd_data (inner_r ps)))) n ps fs)
      as (r & ps' & -> & Hpost); try done; [rewrite Hr; simpl; lia|].
    exists r, ps'. split; [done|]. destruct r; tauto.
  - unfold copy_out. eexists _, _. split; [done|]. exists fs. repeat split; try done.
    + cbn [readBuf set_read]. by rewrite (app_assoc (take _ _)), take_drop.
    + intros. by destruct n; [lia|].
Qed.

Lemma read_many_frames sizes ps fs :
  Forall frame_wf fs -> inner_r ps = mkReader (encs fs) e -> Forall (fun n => 0 < n)%nat sizes ->
  (length (readBuf ps ++ payloads fs) < length sizes)%nat ->
  exists ps', read_many sizes ps = (readBuf ps ++ payloads fs, Some (EIO e), ps').
Proof.
  revert ps fs. induction sizes as [|n sizes IH]; intros ps fs Hwf Hr Hpos Hlen; [simpl in Hlen; lia|].
  inversion Hpos as [|? ? Hn Hs]; subst. simpl.
  destruct (psRead_frames n ps fs Hwf Hr) as (r & ps' & -> & Hpost).
  destruct r as [out|err].
  - destruct Hpost as (gs & Hgs & Hr' & Heq & Hne). specialize (Hne Hn).
    rewrite Heq in Hlen |- *. destruct (IH ps' gs) as [ps'' ->]; try done.
    + destruct out; [done|]. simpl in Hlen |- *. len.
    + eauto.
  - destruct Hpost as [-> ->]. eauto.
Qed.

Lemma read_many_prefix sizes ps fs :
  Forall frame_wf fs -> inner_r ps = mkReader (encs fs) e ->
  exists out err ps', read_many sizes ps = (out, err, ps') /\
    out `prefix_of` readBuf ps ++ payloads fs.
Proof.
  revert ps fs. induction sizes as [|n sizes IH]; intros ps fs Hwf Hr; simpl.
  { eexists _, _, _. split; [done|]. apply prefix_nil. }
  destruct (psRead_frames n ps fs Hwf Hr) as (r & ps' & -> & Hpost). destruct r as [out|err].
  - destruct Hpost as (gs & Hgs & Hr' & Heq & _). rewrite Heq.
    destruct (IH ps' gs Hgs Hr') as (o & er & ps'' & -> & Hpre).
    eexists _, _, _. split; [done|]. by apply prefix_app.
  - eexists _, _, _. split; [done|]. apply prefix_nil.
Qed.
End reading.

(** *** Writing frames *)

Section writing.
Context {G : Type} `{Rand G}.
Implicit Types (ps : paddedStream) (g : G) (fs : list frame).

(** [ps'] is [ps] after the frames [fs] went out; the reading side is not
    touched. *)
Definition wrote fs ps ps' : Prop :=
  Forall frame_wf fs /\
  inner_w ps' = mkWriter (w_out (inner_w ps) ++ encs fs) [] /\
  inner_r ps' = inner_r ps /\ readBuf ps' = readBuf ps /\
  minPad ps' = minPad ps /\ maxPad ps' = maxPad ps.

Lemma wrote_nil ps : reliable (inner_w ps) -> wrote [] ps ps.
Proof.
  unfold wrote, reliable. intros Hf. destruct (inner_w ps) as [o f]. simpl in *. subst.
  change (encs []) with (@nil byte). rewrite app_nil_r. by repeat split.
Qed.

Lemma wrote_trans fs gs ps1 ps2 ps3 :
  wrote fs ps1 ps2 -> wrote gs ps2 ps3 -> wrote (fs ++ gs) ps1 ps3.
Proof.
  intros (Hf & Hw & Hr & Hb & Hn & Hx) (Hf' & Hw' & Hr' & Hb' & Hn' & Hx').
  split; [by apply Forall_app|]. rewrite Hw', Hw, encs_app, app_assoc. simpl.
  by split_and!; try congruence.
Qed.

Lemma wrote_reliable fs ps ps' : wrote fs ps ps' -> reliable (inner_w ps').
Proof. intros (_ & Hw & _). unfold reliable. by rewrite Hw. Qed.

Lemma encs_1 f : encs [f] = enc f.
Proof. unfold encs. simpl. apply app_nil_r. Qed.

Lemma length_growWriteBuf n ps : (n <= length (writeBuf (growWriteBuf n ps)))%nat.
Proof. unfold growWriteBuf. case_decide; [simpl|]; len. Qed.

Lemma growWriteBuf_inner n ps b :
  set_writeBuf b (growWriteBuf n ps) = set_writeBuf b ps.
Proof. unfold growWriteBuf. by case_decide. Qed.

(** A frame assembled in the reused buffer goes out without the stale bytes. *)
Lemma flush_buf_frame n k f buf ps :
  reliable (inner_w ps) -> frame_wf f -> take n buf = enc f ->
  exists ps', flush_buf n k (set_writeBuf buf ps) = (Ok k, ps') /\ wrote [f] ps ps' /\
    burstOnce ps' = burstOnce ps.
Proof.
  intros Hw Hf Hb. unfold flush_buf. simpl. rewrite Write_reliable, Hb by done.
  eexists. split; [done|]. unfold wrote. simpl. rewrite encs_1.
  by repeat split; try apply Forall_singleton.
Qed.

Lemma burst_sizes_range c g : 
  Forall (fun s => 64 <= s <= 1024)%nat (fst (burst_sizes c g)) /\
  length (fst (burst_sizes c g)) = c.
Proof.
  revert g. induction c as [|c IH]; intros g; simpl; [by split|].
  pose proof (intn_range 961 g). destruct (intn 961 g) as [x g1]. simpl in *.
  specialize (IH g1). destruct (burst_sizes c g1) as [l g2]. simpl in *.
  destruct IH as [IH ->]. split; [|done]. constructor; [|done]. lia.
Qed.

Lemma burst_total_cons s sizes : burst_total (s :: sizes) = (3 + s + burst_total sizes)%nat.
Proof. unfold burst_total. simpl. lia. Qed.

(** The fill loop leaves the encoded decoys in the part of the buffer that
    it has passed. *)
Lemma burst_fill_spec sizes pre buf g :
  Forall (fun s => 64 <= s <= 1024)%nat sizes ->
  take (length pre) buf = pre ->
  (length pre + burst_total sizes <= length buf)%nat ->
  exists ds buf' g', burst_fill sizes (length pre) buf g =
      (length (pre ++ encs (FDecoy <$> ds)), buf', g') /\
    length buf' = length buf /\ length <$> ds = sizes /\
    take (length (pre ++ encs (FDecoy <$> ds))) buf' = pre ++ encs (FDecoy <$> ds).
Proof.
  revert pre buf g. induction sizes as [|s sizes IH]; intros pre buf g Hs Hpre Hlen; cbn [burst_fill].
  { exists [], buf, g. simpl. change (encs []) with (@nil byte). by rewrite !app_nil_r. }
  inversion Hs as [|? ? Hs1 Hs2]; subst. rewrite burst_total_cons in Hlen.
  pose proof (length_rread s g) as Hrl. destruct (rread s g) as [rnd g1]. simpl in Hrl.
  set (buf3 := splice _ rnd _).
  assert (Henc : enc (FDecoy rnd) = [z2b paddingFlagDecoy] ++ be_put 2 (u16 (Z.of_nat s)) ++ rnd).
  { simpl. unfold len2. by rewrite Hrl. }
  assert (Hl3 : length (pre ++ enc (FDecoy rnd)) = (length pre + (1 + 2 + s))%nat).
  { rewrite Henc. len. }
  destruct (IH (pre ++ enc (FDecoy rnd)) buf3 g1) as (ds & buf' & g' & Hfill & Hlb & Hds & Htk).
  - done.
  - rewrite Hl3, Henc. unfold buf3.
    replace (length pre + (1 + 2 + s))%nat with (length pre + 3 + length rnd)%nat by lia.
    rewrite !app_assoc. apply take_splice; [|len].
    replace (length pre + 3)%nat
      with (length pre + 1 + length (be_put 2 (u16 (Z.of_nat s))))%nat by len.
    apply take_splice; [|len].
    by apply (take_splice (length pre) pre [z2b paddingFlagDecoy] buf); [|len].
  - rewrite Hl3. unfold buf3. len.
  - exists (rnd :: ds), buf', g'. rewrite Hl3 in Hfill. rewrite Hfill.
    assert (Ha : pre ++ encs (FDecoy <$> rnd :: ds) =
                 (pre ++ enc (FDecoy rnd)) ++ encs (FDecoy <$> ds)).
    { by rewrite <- app_assoc. }
    rewrite !Ha. split_and!; try done.
    + rewrite Hlb. unfold buf3. len.
    + rewrite fmap_cons. by rewrite Hrl, Hds.
Qed.

Lemma length_encs_decoys ds :
  length (encs (FDecoy <$> ds) ++ enc FEnd) = burst_total (length <$> ds).
Proof.
  induction ds as [|d ds IH]; [done|]. rewrite (fmap_cons length), burst_total_cons, <- IH.
  change (encs (FDecoy <$> d :: ds)) with (enc (FDecoy d) ++ encs (FDecoy <$> ds)).
  rewrite <- app_assoc, length_app. simpl. unfold len2. len.
Qed.

Lemma burst_total_bounds ds :
  Forall (fun d : bytes => 64 <= length d <= 1024)%nat ds ->
  67 * Z.of_nat (length ds) + 1 <= Z.of_nat (burst_total (length <$> ds))
    <= 1027 * Z.of_nat (length ds) + 1.
Proof.
  induction 1 as [|d ds Hd _ IH]; [done|].
  rewrite (fmap_cons length), burst_total_cons. simpl length in *. lia.
Qed.

Lemma sendPaddingBurst_spec ps g :
  reliable (inner_w ps) ->
  exists ds ps' g', sendPaddingBurst ps g = (ps', g') /\
    wrote ((FDecoy <$> ds) ++ [FEnd]) ps ps' /\ burstOnce ps' = burstOnce ps /\
    (3 <= length ds <= 8)%nat /\ Forall (fun d => 64 <= length d <= 1024)%nat ds.
Proof.
  intros Hw. unfold sendPaddingBurst.
  pose proof (intn_range 6 g) as Hc. destruct (intn 6 g) as [c g1]. simpl in Hc.
  pose proof (burst_sizes_range (Z.to_nat (3 + c)) g1) as [Hsz Hcnt].
  destruct (burst_sizes (Z.to_nat (3 + c)) g1) as [sizes g2]. simpl in Hsz, Hcnt.
  destruct (burst_fill_spec sizes [] (replicate (burst_total sizes) x00) g2)
    as (ds & buf & g' & Hfill & Hlb & <- & Htk); [done..|len|].
  simpl length in Hfill. rewrite Hfill. simpl app in *.
  rewrite Forall_fmap in Hsz. rewrite length_replicate in Hlb.
  set (full := splice _ _ buf).
  assert (Hfull : full = encs ((FDecoy <$> ds) ++ [FEnd])).
  { rewrite encs_app, encs_1. rewrite <- (take_ge full (length full)) by done.
    replace (length full) with (length (encs (FDecoy <$> ds)) + length (enc FEnd))%nat.
    - apply take_splice; [done|]. rewrite Hlb, <- length_encs_decoys, length_app. done.
    - unfold full. rewrite length_splice, Hlb, <- length_encs_decoys. by rewrite length_app. }
  rewrite Hfull, Write_reliable by done. eexists ds, _, _. split; [done|].
  assert (Hd : Forall frame_wf (FDecoy <$> ds)).
  { apply Forall_fmap. eapply Forall_impl; [done|]. intros d Hd. simpl. unfold fits.
    simpl in Hd. lia. }
  split_and!; try done.
  - unfold wrote. simpl. split_and!; try done. apply Forall_app. split; [done|by repeat constructor].
  - rewrite length_fmap in Hcnt. lia.
  - rewrite length_fmap in Hcnt. lia.
Qed.
(** The padding settings for which [Write] neither panics nor truncates the
    padding length. *)
Definition pad_config (mn mx : Z) : Prop := 0 <= mn <= 65535 /\ mx <= 65536.

Lemma choose_padLen_range ps g :
  pad_config (minPad ps) (maxPad ps) -> 0 <= fst (choose_padLen ps g) < 65536.
Proof.
  intros [Hmn Hmx]. unfold choose_padLen. case_zb; simpl; try lia.
  pose proof (intn_range (maxPad ps - minPad ps) g). destruct (intn _ g). simpl in *. lia.
Qed.

(** The frame of a write, after the burst has been dealt with. *)
Definition write_frame (p : bytes) (f : frame) : Prop := payload f = p /\
  match f with FData _ | FPad _ _ => True | _ => False end.

Lemma psWrite_frame p ps g :
  reliable (inner_w ps) -> pad_config (minPad ps) (maxPad ps) -> fits p -> burstOnce ps = true ->
  exists f ps' g', psWrite p ps g = Some (Ok (length p), ps', g') /\
    write_frame p f /\ wrote [f] ps ps' /\ burstOnce ps' = true.
Proof.
  intros Hw Hcfg Hp Hb. unfold psWrite. rewrite Hb.
  pose proof (choose_padLen_range ps g Hcfg) as Hpl.
  destruct (choose_padLen ps g) as [padLen g1]. simpl in Hpl.
  destruct (Z.eqb_spec padLen 0) as [->|Hnz].
  - rewrite growWriteBuf_inner. pose proof (length_growWriteBuf (1 + 2 + length p) ps) as Hl.
    edestruct (flush_buf_frame (1 + 2 + length p) (length p) (FData p)) as (ps' & -> & Hwr & Hbo);
      [exact Hw|exact Hp| |]; last first.
    { exists (FData p), ps', g1. rewrite Hbo. by split_and!. }
    apply (take_splice 3 [_; _; _] p); [|len].
    apply (take_splice 1 [_] (be_put 2 _)); [|len]. by apply (take_splice 0 [] [_]); [|len].
  - rewrite (proj2 (Z.ltb_ge padLen 0)) by lia. 
    pose proof (length_rread (Z.to_nat padLen) g1) as Hrl.
    destruct (rread (Z.to_nat padLen) g1) as [rnd g2]. simpl in Hrl.
    assert (Hpz : Z.of_nat (length rnd) = padLen) by lia.
    set (pl := Z.to_nat padLen) in *. rewrite growWriteBuf_inner.
    pose proof (length_growWriteBuf (1 + 2 + pl + 2 + length p) ps) as Hl.
    edestruct (flush_buf_frame (1 + 2 + pl + 2 + length p) (length p) (FPad rnd p))
      as (ps' & -> & Hwr & Hbo); [exact Hw|split; [unfold fits; lia|exact Hp]| |]; last first.
    { exists (FPad rnd p), ps', g2. rewrite Hbo. by split_and!. }
    assert (Henc : enc (FPad rnd p) = ((([z2b paddingFlagPad] ++ be_put 2 (u16 padLen)) ++ rnd) ++
              be_put 2 (u16 (Z.of_nat (length p)))) ++ p).
    { simpl enc. unfold len2. by rewrite Hpz, <- !app_assoc. }
    rewrite Henc. generalize dependent (writeBuf (growWriteBuf (1 + 2 + pl + 2 + length p) ps)).
    intros wb Hl. replace (1 + 2 + pl + 2 + length p)%nat with (5 + pl + length p)%nat in Hl |- * by lia.
    apply take_splice; [|len].
    replace (5 + pl)%nat with (3 + pl + length (be_put 2 (u16 (Z.of_nat (length p)))))%nat by len.
    apply take_splice; [|len].
    rewrite <- Hrl. apply take_splice; [|len].
    apply (take_splice 1 [_] (be_put 2 _)); [|len]. by apply (take_splice 0 [] [_]); [|len].
Qed.

Lemma psWrite_spec p ps g :
  reliable (inner_w ps) -> pad_config (minPad ps) (maxPad ps) -> fits p ->
  exists ds f ps' g', psWrite p ps g = Some (Ok (length p), ps', g') /\
    write_frame p f /\ burstOnce ps' = true /\
    wrote ((if burstOnce ps then [] else (FDecoy <$> ds) ++ [FEnd]) ++ [f]) ps ps' /\
    (burstOnce ps = false -> (3 <= length ds <= 8)%nat).
Proof.
  intros Hw Hcfg Hp. destruct (burstOnce ps) eqn:Hb.
  - destruct (psWrite_frame p ps g) as (f & ps' & g' & Heq & Hf & Hwr & Hb'); [done..|].
    exists [], f, ps', g'. by split_and!.
  - destruct (sendPaddingBurst_spec (set_burst ps) g Hw) as (ds & ps1 & g1 & Hs & Hwr1 & Hb1 & Hn & _).
    pose proof (wrote_reliable _ _ _ Hwr1) as Hrel.
    destruct (psWrite_frame p ps1 g1) as (f & ps' & g' & Heq & Hf & Hwr & Hb'); try done.
    { by destruct Hwr1 as (_ & _ & _ & _ & -> & ->). }
    exists ds, f, ps', g'. unfold psWrite in Heq |- *. rewrite Hb, Hs. rewrite Hb1 in Heq.
    split_and!; try done. eapply wrote_trans; [|done]. apply Hwr1.
Qed.

(** *** A session: writes, decoys and burst ends in any order *)

Inductive op := OpWrite (p : bytes) | OpDecoy (size : Z) | OpBurstEnd.

Definition op_wf (o : op) : Prop :=
  match o with OpWrite p => fits p | OpDecoy n => n < 65536 | OpBurstEnd => True end.

Definition op_payload (o : op) : bytes := if o is OpWrite p then p else [].

Fixpoint run_ops (os : list op) (ps : paddedStream) (g : G) : option (paddedStream * G) :=
  match os with
  | [] => Some (ps, g)
  | OpWrite p :: os =>
      match psWrite p ps g with Some (_, ps, g) => run_ops os ps g | None => None end
  | OpDecoy n :: os => let '(_, ps, g) := WriteDecoy n ps g in run_ops os ps g
  | OpBurstEnd :: os => let '(_, ps) := WriteBurstEnd ps in run_ops os ps g
  end.

Lemma WriteDecoy_spec size ps g :
  reliable (inner_w ps) -> size < 65536 ->
  exists d ps' g', WriteDecoy size ps g = (Ok tt, ps', g') /\ wrote [FDecoy d] ps ps'.
Proof.
  intros Hw Hsz. unfold WriteDecoy.
  set (pr := if size <=? 0 then _ else _).
  assert (Hpr : 0 < fst pr < 65536).
  { unfold pr. case_zb; simpl; [|lia]. pose proof (intn_range 961 g).
    destruct (intn 961 g). simpl in *. lia. }
  destruct pr as [sz g1]. simpl in Hpr.
  pose proof (length_rread (Z.to_nat sz) g1) as Hrl.
  destruct (rread (Z.to_nat sz) g1) as [rnd g2]. simpl in Hrl.
  set (buf := splice 3 rnd _).
  assert (Hbuf : buf = enc (FDecoy rnd)).
  { rewrite <- (take_ge buf (3 + length rnd)) by (unfold buf; len).
    simpl enc. unfold len2. replace (Z.of_nat (length rnd)) with sz by lia.
    apply (take_splice 3 [_; _; _] rnd); [|len].
    apply (take_splice 1 [_] (be_put 2 _)); [|len]. by apply (take_splice 0 [] [_]); [|len]. }
  rewrite Hbuf, Write_reliable by done. exists rnd. eexists _, _. split; [done|].
  unfold wrote. rewrite encs_1. simpl. split_and!; try done.
  apply Forall_singleton. simpl. unfold fits. lia.
Qed.

Lemma run_ops_spec os ps g :
  reliable (inner_w ps) -> pad_config (minPad ps) (maxPad ps) -> Forall op_wf os ->
  exists fs ps' g', run_ops os ps g = Some (ps', g') /\ wrote fs ps ps' /\
    payloads fs = concat (op_payload <$> os).
Proof.
  revert ps g. induction os as [|o os IH]; intros ps g Hw Hcfg Hos.
  { exists [], ps, g. split; [done|]. split; [by apply wrote_nil|done]. }
  inversion Hos as [|? ? Ho Hos']; subst.
  assert (Hstep : exists fs ps1 g1, run_ops (o :: os) ps g = run_ops os ps1 g1 /\ wrote fs ps ps1 /\
                    payloads fs = op_payload o).
  { destruct o as [p|n|]; simpl in Ho |- *.
    - destruct (psWrite_spec p ps g) as (ds & f & ps1 & g1 & -> & [Hpf _] & _ & Hwr & _); [done..|].
      eexists _, ps1, g1. split_and!; [done|exact Hwr|]. rewrite payloads_app.
      unfold payloads at 2. simpl. rewrite Hpf, app_nil_r.
      destruct (burstOnce ps); [done|]. by rewrite payloads_app, payloads_decoys.
    - destruct (WriteDecoy_spec n ps g) as (d & ps1 & g1 & -> & Hwr); [done..|]. eauto 10.
    - unfold WriteBurstEnd. rewrite Write_reliable by done. exists [FEnd]. eexists _, _.
      split; [done|]. unfold wrote. rewrite encs_1. simpl. by repeat split; repeat constructor. }
  destruct Hstep as (fs1 & ps1 & g1 & -> & Hwr1 & Hp1).
  destruct (IH ps1 g1) as (fs2 & ps2 & g2 & -> & Hwr2 & Hp2); try done.
  { by eapply wrote_reliable. }
  { by destruct Hwr1 as (_ & _ & _ & _ & -> & ->). }
  exists (fs1 ++ fs2), ps2, g2. split; [done|]. split; [by eapply wrote_trans|].
  rewrite payloads_app, Hp1, Hp2. done.
Qed.
End writing.

(** ** Totality of [Read] *)

Section totality.
Implicit Types ps : paddedStream.

Definition avail ps : nat := length (rd_data (inner_r ps)).

Lemma read_payload_avail n ps : (avail (snd (read_payload n ps)) <= avail ps)%nat.
Proof.
  unfold read_payload, avail. pose proof (ReadFull_length 2 (inner_r ps)) as H1.
  destruct (ReadFull 2 (inner_r ps)) as [[lb|e] r]; simpl in *; [|done].
  case_decide; simpl; [done|].
  pose proof (ReadFull_length (Z.to_nat (be_get lb)) r) as H2.
  destruct (ReadFull (Z.to_nat (be_get lb)) r) as [[pl|e] r']; simpl in *; lia.
Qed.

Lemma discard_len_avail a b ps : (avail (snd (discard_len a b ps)) <= avail ps)%nat.
Proof.
  unfold discard_len, avail. pose proof (ReadFull_length 2 (inner_r ps)) as H1.
  destruct (ReadFull 2 (inner_r ps)) as [[lb|e] r]; simpl in *; [|done].
  case_decide; simpl; [|done].
  pose proof (CopyNDiscard_length (Z.to_nat (be_get lb)) r) as H2.
  destruct (CopyNDiscard (Z.to_nat (be_get lb)) r) as [[u|e] r']; simpl in *; lia.
Qed.

(** A turn that continues has consumed at least the flags byte. *)
Lemma read_turn_progress n ps ps' :
  read_turn n ps = (Continue, ps') -> (avail ps' < avail ps)%nat.
Proof.
  unfold read_turn. destruct (ReadFull 1 (inner_r ps)) as [[fl|e] r] eqn:Hr; [|done].
  apply ReadFull_Ok_length in Hr as (Hl & Hd & _).
  assert (Hlt : (avail (set_read r (readBuf ps) ps) < avail ps)%nat).
  { unfold avail. simpl. rewrite Hd. len. }
  generalize dependent (set_read r (readBuf ps) ps). intros q Hlt.
  pose proof (read_payload_avail n) as HP.
  pose proof (discard_len_avail "padding: read padLen" "padding: discard pad" q) as HD1.
  pose proof (discard_len_avail "padding: read decoy len" "padding: discard decoy" q) as HD2.
  repeat case_match; intros Heq; simplify_eq; simpl in *; try lia.
  - specialize (HP q). rewrite Heq in HP. simpl in HP. lia.
  - match type of Heq with read_payload n ?q' = _ => specialize (HP q'); rewrite Heq in HP end.
    simpl in HP. lia.
Qed.

Lemma read_loop_total fuel n ps : (avail ps < fuel)%nat -> is_Some (read_loop fuel n ps).
Proof.
  revert ps. induction fuel as [|fuel IH]; intros ps Hf; [lia|]. simpl.
  destruct (read_turn n ps) as [[r|] ps'] eqn:Ht; [done|].
  apply read_turn_progress in Ht. apply IH. lia.
Qed.

Lemma read_payload_nonempty n ps out ps' :
  (0 < n)%nat -> read_payload n ps = (Return (Ok out), ps') -> out <> [].
Proof.
  intros Hn. unfold read_payload. destruct (ReadFull 2 (inner_r ps)) as [[lb|] r]; [|done].
  case_decide as Hz; [done|]. destruct (ReadFull _ r) as [[pl|] r'] eqn:Hr; [|done].
  apply ReadFull_Ok_length in Hr as (Hl & _). intros [= <- _] Hnil.
  apply (f_equal length) in Hnil. rewrite length_take in Hnil. simpl in *. lia.
Qed.

Lemma read_payload_short n ps out ps' :
  read_payload n ps = (Return (Ok out), ps') -> (length out <= n)%nat.
Proof.
  unfold read_payload. destruct (ReadFull 2 (inner_r ps)) as [[lb|] r]; [|done].
  case_decide; [done|]. destruct (ReadFull _ r) as [[pl|] r']; [|done].
  intros [= <- _]. rewrite length_take. lia.
Qed.

Lemma read_loop_nonempty fuel n ps out ps' :
  (0 < n)%nat -> read_loop fuel n ps = Some (Ok out, ps') -> out <> [].
Proof.
  intros Hn. revert ps. induction fuel as [|fuel IH]; intros ps; simpl; [done|].
  destruct (read_turn n ps) as [[r|] q] eqn:Ht; [|apply IH]. intros [= -> ->].
  unfold read_turn in Ht. repeat case_match; simplify_eq; eauto using read_payload_nonempty.
Qed.
End totality.

(** ** Properties *)

(** C4: what the peer reads is what was written.  For every sequence of
    writes of at most 65535 bytes, decoys and burst ends, every padding
    configuration, every random source and every stale content of the write
    buffer, a reader that drains the wire with any positive buffer sizes gets
    exactly the concatenation of the written payloads, then the error that
    ends the wire. *)
Theorem padding_roundtrip {G} `{Rand G} (os : list op) (ps : paddedStream) (g : G)
    (sizes : list nat) (peer : paddedStream) (e : io_err) :
  w_out (inner_w ps) = [] -> reliable (inner_w ps) ->
  pad_config (minPad ps) (maxPad ps) -> Forall op_wf os ->
  readBuf peer = [] -> Forall (fun n => 0 < n)%nat sizes ->
  (length (concat (op_payload <$> os)) < length sizes)%nat ->
  exists ps' g', run_ops os ps g = Some (ps', g') /\
    exists peer', read_many sizes (set_read (mkReader (w_out (inner_w ps')) e) [] peer) =
      (concat (op_payload <$> os), Some (EIO e), peer').
Proof.
  intros Hout Hrel Hcfg Hos Hpb Hpos Hlen.
  destruct (run_ops_spec os ps g Hrel Hcfg Hos) as (fs & ps' & g' & -> & Hwr & Hpay).
  eexists _, _. split; [done|]. destruct Hwr as (Hwf & -> & _). simpl. rewrite Hout.
  rewrite <- Hpay in Hlen |- *.
  by apply (read_many_frames e sizes (set_read (mkReader (encs fs) e) [] peer) fs).
Qed.

Definition demo_ops : list op :=
  [OpWrite [x41; x42; x43]; OpDecoy 0; OpWrite []; OpBurstEnd; OpWrite [x44]].

Lemma padding_roundtrip_witness :
  exists ps' (g' : Z),
    run_ops demo_ops (newPaddedStream (mkReader [] EOF) (mkWriter [] []) 2 9) 7 = Some (ps', g') /\
    exists peer', read_many [2; 1; 1; 1; 1]%nat
        (set_read (mkReader (w_out (inner_w ps')) EOF) []
           (newPaddedStream (mkReader [] EOF) (mkWriter [] []) 0 0)) =
      ([x41; x42; x43; x44], Some (EIO EOF), peer').
Proof.
  apply (padding_roundtrip demo_ops _ 7 [2; 1; 1; 1; 1]%nat
    (newPaddedStream (mkReader [] EOF) (mkWriter [] []) 0 0) EOF); try reflexivity.
  - unfold pad_config. simpl. lia.
  - repeat constructor.
  - repeat constructor; lia.
  - simpl. lia.
Defined.

(** [Read] always returns, whatever bytes arrive: the loop over padding
    frames terminates, and a [Read] into a non-empty buffer never returns
    zero bytes without an error (the contract of [io.Reader]). *)
Theorem padding_read_total (n : nat) (ps : paddedStream) :
  (0 < n)%nat ->
  exists r ps', psRead n ps = Some (r, ps') /\ (forall out, r = Ok out -> out <> []).
Proof.
  intros Hn. unfold psRead. destruct (readBuf ps) as [|b l] eqn:Hb.
  - destruct (read_loop_total (S (avail ps)) n ps) as [[r ps'] Hr]; [lia|].
    exists r, ps'. split; [done|]. intros out ->. by eapply read_loop_nonempty.
  - unfold copy_out. eexists _, _. split; [done|]. intros out [= <-]. by destruct n; [lia|].
Qed.

Lemma padding_read_total_witness :
  exists r ps', psRead 4 (newPaddedStream (mkReader [x03; x02; x00; x01; x55; x07] EOF)
      (mkWriter [] []) 0 0) = Some (r, ps') /\ (forall out, r = Ok out -> out <> []).
Proof. apply padding_read_total. lia. Defined.

(** the burst of decoys goes out once, before the first write, as a
    single write of 3 to 8 decoys and between 202 and 8217 bytes; every later
    write adds exactly one frame. *)
Theorem padding_burst_once {G} `{Rand G} (p q : bytes) (ps : paddedStream) (g : G) :
  reliable (inner_w ps) -> pad_config (minPad ps) (maxPad ps) -> fits p -> fits q ->
  burstOnce ps = false ->
  exists ds f1 f2 ps1 ps2 g1 g2,
    psWrite p ps g = Some (Ok (length p), ps1, g1) /\
    psWrite q ps1 g1 = Some (Ok (length q), ps2, g2) /\
    w_out (inner_w ps2) = w_out (inner_w ps) ++ encs ((FDecoy <$> ds) ++ [FEnd]) ++ enc f1 ++ enc f2 /\
    write_frame p f1 /\ write_frame q f2 /\
    (3 <= length ds <= 8)%nat /\ 
    202 <= Z.of_nat (length (encs ((FDecoy <$> ds) ++ [FEnd]))) <= 8217.
Proof.
  intros Hw Hcfg Hp Hq Hb.
  destruct (sendPaddingBurst_spec (set_burst ps) g Hw) as (ds & ps0 & g0 & Hs & Hwr0 & Hb0 & Hn & Hsz).
  pose proof (wrote_reliable _ _ _ Hwr0) as Hr0.
  assert (Hcfg0 : pad_config (minPad ps0) (maxPad ps0)).
  { by destruct Hwr0 as (_ & _ & _ & _ & -> & ->). }
  destruct (psWrite_frame p ps0 g0) as (f1 & ps1 & g1 & Heq1 & Hf1 & Hwr1 & Hb1); [done..|].
  pose proof (wrote_reliable _ _ _ Hwr1) as Hr1.
  destruct (psWrite_frame q ps1 g1) as (f2 & ps2 & g2 & Heq2 & Hf2 & Hwr2 & Hb2); try done.
  { by destruct Hwr1 as (_ & _ & _ & _ & -> & ->). }
  exists ds, f1, f2, ps1, ps2, g1, g2.
  assert (Heq : psWrite p ps g = Some (Ok (length p), ps1, g1)).
  { unfold psWrite in Heq1 |- *. rewrite Hb, Hs. rewrite Hb0 in Heq1. exact Heq1. }
  split_and!; try done; try lia.
  - destruct Hwr2 as (_ & -> & _), Hwr1 as (_ & -> & _), Hwr0 as (_ & -> & _). simpl.
    by rewrite !encs_1, <- !app_assoc.
  - rewrite encs_app, encs_1, length_encs_decoys. clear -Hn Hsz.
    pose proof (burst_total_bounds ds Hsz). lia.
  - rewrite encs_app, encs_1, length_encs_decoys. clear -Hn Hsz.
    pose proof (burst_total_bounds ds Hsz). lia.
Qed.

Lemma padding_burst_once_witness :
  exists ds f1 f2 ps1 ps2 (g1 g2 : Z),
    psWrite [x41] (newPaddedStream (mkReader [] EOF) (mkWriter [] []) 0 0) 5 = Some (Ok 1%nat, ps1, g1) /\
    psWrite [x42; x43] ps1 g1 = Some (Ok 2%nat, ps2, g2) /\
    w_out (inner_w ps2) = [] ++ encs ((FDecoy <$> ds) ++ [FEnd]) ++ enc f1 ++ enc f2 /\
    write_frame [x41] f1 /\ write_frame [x42; x43] f2 /\
    (3 <= length ds <= 8)%nat /\
    202 <= Z.of_nat (length (encs ((FDecoy <$> ds) ++ [FEnd]))) <= 8217.
Proof.
  apply (padding_burst_once [x41] [x42; x43]
    (newPaddedStream (mkReader [] EOF) (mkWriter [] []) 0 0) 5); try reflexivity.
  unfold pad_config. simpl. lia.
Defined.

(** the limit of the frame format.  Without padding, a write of 65536
    bytes or more reports success for all of its bytes, but the length field
    keeps the low 16 bits: the peer's [Read] gets at most the first
    [len mod 65536] bytes, and the rest of the payload stays on the wire
    without a frame header, to be parsed as frames. *)
Theorem padding_long_write_truncated {G} `{Rand G} (p : bytes) (ps peer : paddedStream) (g : G)
    (n : nat) (e : io_err) :
  reliable (inner_w ps) -> w_out (inner_w ps) = [] -> burstOnce ps = true ->
  minPad ps = 0 -> maxPad ps = 0 -> readBuf peer = [] ->
  65536 <= Z.of_nat (length p) -> Z.of_nat (length p) mod 65536 <> 0 ->
  let k := Z.to_nat (Z.of_nat (length p) mod 65536) in
  exists ps' g', psWrite p ps g = Some (Ok (length p), ps', g') /\
    exists peer', psRead n (set_read (mkReader (w_out (inner_w ps')) e) [] peer) =
        Some (Ok (take n (take k p)), peer') /\
      rd_data (inner_r peer') = drop k p /\ (0 < length (drop k p))%nat.
Proof.
  intros Hw Hout Hb Hmn Hmx Hpb Hlong Hk k.
  assert (Hkr : (0 < k)%nat /\ Z.of_nat k < 65536 /\ (k < length p)%nat).
  { subst k. pose proof (Z.mod_pos_bound (Z.of_nat (length p)) 65536). lia. }
  unfold psWrite. rewrite Hb. unfold choose_padLen. rewrite Hmn, Hmx.
  change (0 <? 0) with false. cbn iota. change (0 =? 0) with true. cbn iota.
  rewrite growWriteBuf_inner.
  pose proof (length_growWriteBuf (1 + 2 + length p) ps) as Hl. unfold flush_buf.
  generalize dependent (writeBuf (growWriteBuf (1 + 2 + length p) ps)). intros wb Hl.
  assert (Hbuf : forall x y, take (1 + 2 + length p) (splice 3 p (splice 1 (be_put 2 y) (splice 0 [x] wb)))
                  = [x] ++ be_put 2 y ++ p).
  { intros x y. apply (take_splice 3 [_; _; _] p); [|len].
    apply (take_splice 1 [_] (be_put 2 _)); [|len]. by apply (take_splice 0 [] [_]); [|len]. }
  cbn [writeBuf set_writeBuf inner_w]. rewrite Hbuf, Write_reliable by done.
  eexists _, _. split; [done|]. cbn [inner_w set_inner_w w_out]. rewrite Hout, app_nil_l.
  assert (Hlen : be_put 2 (u16 (Z.of_nat (length p))) ++ p = len2 (take k p) ++ take k p ++ drop k p).
  { rewrite take_drop. f_equal. unfold len2. rewrite length_take. f_equal.
    unfold wrap. change (2 ^ 16) with 65536. rewrite Nat.min_l by lia. subst k.
    rewrite Z2Nat.id by (apply Z.mod_pos_bound; lia). by rewrite Z.mod_mod. }
  rewrite Hlen. unfold psRead. cbn [readBuf set_read read_loop].
  assert (Hne : exists b l, take k p = b :: l).
  { destruct (take k p) eqn:E; [|eauto]. apply (f_equal length) in E. rewrite length_take in E.
    simpl in E. lia. }
  rewrite (read_turn_frame e n _ (FData (take k p)) (drop k p));
    [|simpl; unfold fits; rewrite length_take; lia|done].
  destruct Hne as (b & l & ->). cbn [payload]. eexists. split; [done|]. split; [done|]. len.
Qed.

Definition long_write : bytes := repeat x41 (Z.to_nat 65538).

Lemma padding_long_write_truncated_witness :
  let ps := set_burst (newPaddedStream (mkReader [] EOF) (mkWriter [] []) 0 0) in
  exists ps' (g' : Z), psWrite long_write ps 1 = Some (Ok (length long_write), ps', g') /\
    exists peer', psRead 100 (set_read (mkReader (w_out (inner_w ps')) EOF) [] ps) =
        Some (Ok (take 100 (take (Z.to_nat (Z.of_nat (length long_write) mod 65536)) long_write)), peer') /\
      rd_data (inner_r peer') = drop (Z.to_nat (Z.of_nat (length long_write) mod 65536)) long_write /\
      (0 < length (drop (Z.to_nat (Z.of_nat (length long_write) mod 65536)) long_write))%nat.
Proof.
  intros ps.
  assert (Hlen : Z.of_nat (length long_write) = 65538).
  { unfold long_write. rewrite repeat_length. lia. }
  apply (padding_long_write_truncated long_write ps ps 1 100 EOF); try reflexivity.
  - rewrite Hlen. lia.
  - rewrite Hlen. discriminate.
Defined.

End Padding.
