(* ===== verification/Obfs.v ===== *)
(** * The obfuscation layer of the packet transport ([golib/webrtc/obfs.go])

    [ObfuscatedPacketConn] seals every outgoing datagram with AES-GCM under a
    directional key and a counter nonce, and silently drops what it cannot
    open.  The cipher, the key derivation and the random source are the
    libraries the code calls: they are parameters, with the documented laws of
    [cipher.AEAD] as the class [AEAD].  The anti-replay filter is used through
    the interface [AntiReplay]. *)

From S2P Require Import Prelude IO Replay.

Open Scope Z_scope.
Open Scope np_scope.

(** ** What [crypto/cipher] promises *)
Class AEAD (K : Type) := {
  Seal : K -> bytes -> bytes -> bytes;          (* key, nonce, plaintext *)
  Open : K -> bytes -> bytes -> option bytes;   (* key, nonce, ciphertext *)
  Open_Seal : forall k n p, Open k n (Seal k n p) = Some p;
  length_Seal : forall k n p, length (Seal k n p) = (length p + 16)%nat
}.

Module Obfs.

Definition nonceSize : nat := 12.
Definition gcmTagSize : nat := 16.

Section obfs.
Context {K F B addr : Type} `{AEAD K} `{AntiReplay F}.
(** [hkdf key info n] are the first [n] bytes that HKDF-SHA256 derives. *)
Variable hkdf : bytes -> string -> nat -> res goerr bytes.
Variable aesNewCipher : bytes -> res goerr B.
Variable cipherNewGCM : B -> res goerr K.

(** ** State *)

(** The wrapped connection: the datagrams that went out, the script of its
    write errors, and what its [ReadFrom] will return. *)
Record PacketConn := mkConn {
  pc_sent : list (bytes * addr);
  pc_faults : list (option goerr);
  pc_inbox : list (res goerr (bytes * addr))
}.

Record ObfuscatedPacketConn := mkOPC {
  opc_conn : PacketConn;
  sendAEAD : K;
  recvAEAD : K;
  nonceCounter : Z;          (* uint64 *)
  noncePrefix : bytes;       (* [4]byte *)
  recvFilter : option F;
  pktsSent : Z; pktsRecv : Z; decryptErrors : Z;
  replayRejects : Z; tooShort : Z; loggedErrors : Z;   (* uint64 *)
  isServer : bool;
  opc_done : bool            (* the channel is closed *)
}.

(** ** Construction *)

Definition newGCM (key : bytes) : res goerr K :=
  match aesNewCipher key with
  | Err e => Err e
  | Ok block => cipherNewGCM block
  end.

Definition wrap_err {A} (ctx : string) (r : res goerr A) : res goerr A :=
  match r with Ok a => Ok a | Err e => Err (EWrap ctx e) end.

(** [prefix] is what [rand.Read] puts in [noncePrefix]. *)
Definition NewObfuscatedPacketConn (conn : PacketConn) (key : bytes) (isSrv : bool)
    (prefix : res goerr bytes) : res goerr ObfuscatedPacketConn :=
  if negb (Z.of_nat (length key) =? 32) then
    Err (EMsg "obfs: key must be 32 bytes" [Z.of_nat (length key)])
  else
    let! clientKey := wrap_err "obfs: derive client key" (hkdf key "natproxy-client-to-server" 32) in
    let! serverKey := wrap_err "obfs: derive server key" (hkdf key "natproxy-server-to-client" 32) in
    let! clientAEAD := wrap_err "obfs: create client AEAD" (newGCM clientKey) in
    let! serverAEAD := wrap_err "obfs: create server AEAD" (newGCM serverKey) in
    let! pre := wrap_err "obfs: generate nonce prefix" prefix in
    Ok (mkOPC conn
          (if isSrv then serverAEAD else clientAEAD)
          (if isSrv then clientAEAD else serverAEAD)
          0 pre None 0 0 0 0 0 0 isSrv false).

(** ** Writing *)

Definition conn_WriteTo (d : bytes) (a : addr) (c : PacketConn) : option goerr * PacketConn :=
  match pc_faults c with
  | Some e :: fs => (Some e, mkConn (pc_sent c) fs (pc_inbox c))
  | None :: fs => (None, mkConn (pc_sent c ++ [(d, a)]) fs (pc_inbox c))
  | [] => (None, mkConn (pc_sent c ++ [(d, a)]) [] (pc_inbox c))
  end.

Definition mk_nonce (prefix : bytes) (counter : Z) : bytes :=
  splice 4 (be_put 8 counter) (splice 0 prefix (replicate nonceSize x00)).

Definition writeToGCM (p : bytes) (a : addr) (c : ObfuscatedPacketConn)
    : res goerr nat * ObfuscatedPacketConn :=
  let counter := u64 (nonceCounter c + 1) in
  let nonce := mk_nonce (noncePrefix c) counter in
  let buf := nonce ++ Seal (sendAEAD c) nonce p in
  let sent := u64 (pktsSent c + 1) in
  let '(err, conn) := conn_WriteTo buf a (opc_conn c) in
  let c' := mkOPC conn (sendAEAD c) (recvAEAD c) counter (noncePrefix c) (recvFilter c)
              sent (pktsRecv c) (decryptErrors c) (replayRejects c) (tooShort c)
              (loggedErrors c) (isServer c) (opc_done c) in
  match err with
  | Some e => (Err e, c')
  | None => (Ok (length p), c')
  end.

(** ** Reading *)

Definition set_inbox (i : list (res goerr (bytes * addr))) (c : PacketConn) : PacketConn :=
  mkConn (pc_sent c) (pc_faults c) i.

(** The receive side after an update of the filter and of one counter. *)
Definition upd_recv (c : ObfuscatedPacketConn) (f : option F) (dRecv dDec dRep dShort dLog : Z)
    : ObfuscatedPacketConn :=
  mkOPC (opc_conn c) (sendAEAD c) (recvAEAD c) (nonceCounter c) (noncePrefix c) f
    (pktsSent c) (u64 (pktsRecv c + dRecv)) (u64 (decryptErrors c + dDec))
    (u64 (replayRejects c + dRep)) (u64 (tooShort c + dShort)) (u64 (loggedErrors c + dLog))
    (isServer c) (opc_done c).

Definition set_conn (k : PacketConn) (c : ObfuscatedPacketConn) : ObfuscatedPacketConn :=
  mkOPC k (sendAEAD c) (recvAEAD c) (nonceCounter c) (noncePrefix c) (recvFilter c)
    (pktsSent c) (pktsRecv c) (decryptErrors c) (replayRejects c) (tooShort c)
    (loggedErrors c) (isServer c) (opc_done c).

(** One turn of the receive loop on the [n] bytes [d] of a datagram:
    [Some plaintext] is returned to the caller, [None] continues. *)
Definition recv_turn (d : bytes) (c : ObfuscatedPacketConn) : option bytes * ObfuscatedPacketConn :=
  if decide (length d < nonceSize + gcmTagSize)%nat then
    (None, upd_recv c (recvFilter c) 0 0 0 1 1)
  else
    let nonce := take nonceSize d in
    let ciphertext := drop nonceSize d in
    match Open (recvAEAD c) nonce ciphertext with
    | None => (None, upd_recv c (recvFilter c) 0 1 0 0 1)
    | Some plaintext =>
        match recvFilter c with
        | None => (Some plaintext, upd_recv c None 1 0 0 0 0)
        | Some f =>
            let counter := be_get (drop 4 nonce) in
            match ar_check counter f with
            | (false, f') => (None, upd_recv c (Some f') 0 0 1 0 1)
            | (true, f') => (Some plaintext, upd_recv c (Some f') 1 0 0 0 0)
            end
        end
    end.

(** [ReadFrom(p)] with [n = len(p)]: a datagram longer than the buffer is cut
    to it.  [None] is a call that is still waiting when the inbox is empty. *)
Fixpoint recv_loop (n : nat) (inbox : list (res goerr (bytes * addr))) (c : ObfuscatedPacketConn)
    : option (res goerr (bytes * addr)) * ObfuscatedPacketConn :=
  match inbox with
  | [] => (None, set_conn (set_inbox [] (opc_conn c)) c)
  | Err e :: rest => (Some (Err e), set_conn (set_inbox rest (opc_conn c)) c)
  | Ok (d, a) :: rest =>
      match recv_turn (take (nonceSize + n + gcmTagSize) d) c with
      | (Some pt, c') => (Some (Ok (pt, a)), set_conn (set_inbox rest (opc_conn c')) c')
      | (None, c') => recv_loop n rest c'
      end
  end.

Definition readFromGCM (n : nat) (c : ObfuscatedPacketConn)
    : option (res goerr (bytes * addr)) * ObfuscatedPacketConn :=
  recv_loop n (pc_inbox (opc_conn c)) c.

Definition WriteTo := writeToGCM.
Definition ReadFrom := readFromGCM.

(** [Close] closes [done] once, then the wrapped connection ([closeConn]). *)
Definition Close (closeConn : PacketConn -> option goerr * PacketConn) (c : ObfuscatedPacketConn)
    : option goerr * ObfuscatedPacketConn :=
  let '(err, conn) := closeConn (opc_conn c) in
  (err, mkOPC conn (sendAEAD c) (recvAEAD c) (nonceCounter c) (noncePrefix c) (recvFilter c)
    (pktsSent c) (pktsRecv c) (decryptErrors c) (replayRejects c) (tooShort c)
    (loggedErrors c) (isServer c) true).

(** ** Sessions *)

Fixpoint send_all (ps : list (bytes * addr)) (c : ObfuscatedPacketConn) : ObfuscatedPacketConn :=
  match ps with
  | [] => c
  | (p, a) :: ps => send_all ps (snd (WriteTo p a c))
  end.

(** Read until the connection blocks or fails, at most [k] times. *)
Fixpoint recv_all (k n : nat) (c : ObfuscatedPacketConn)
    : list (bytes * addr) * ObfuscatedPacketConn :=
  match k with
  | O => ([], c)
  | S k => match ReadFrom n c with
           | (Some (Ok m), c') => let '(l, c'') := recv_all k n c' in (m :: l, c'')
           | (_, c') => ([], c')
           end
  end.
(** ** Lemmas *)

Definition wire (k : K) (prefix : bytes) (ctr : Z) (p : bytes) : bytes :=
  let nonce := mk_nonce prefix (u64 ctr) in nonce ++ Seal k nonce p.

Fixpoint wires (k : K) (prefix : bytes) (ctr : Z) (ps : list (bytes * addr)) : list (bytes * addr) :=
  match ps with
  | [] => []
  | (p, a) :: ps => (wire k prefix (ctr + 1) p, a) :: wires k prefix (ctr + 1) ps
  end.

Lemma mk_nonce_eq prefix ctr : length prefix = 4%nat -> mk_nonce prefix ctr = prefix ++ be_put 8 ctr.
Proof.
  intros Hp. unfold mk_nonce, nonceSize.
  rewrite (splice_app_0 prefix) by len. rewrite Hp.
  replace 4%nat with (length prefix) by done. rewrite splice_app by (rewrite Hp; len).
  rewrite length_be_put. rewrite drop_ge by (rewrite Hp; len). by rewrite app_nil_r.
Qed.

Lemma length_mk_nonce prefix ctr : length (mk_nonce prefix ctr) = nonceSize.
Proof. unfold mk_nonce. by len. Qed.

Lemma wrap_add_l z d : u64 (u64 z + d) = u64 (z + d).
Proof. unfold wrap. by rewrite Zplus_mod_idemp_l. Qed.

Lemma wires_u64 k prefix ctr ps : wires k prefix (u64 ctr) ps = wires k prefix ctr ps.
Proof.
  revert ctr. induction ps as [|[p a] ps IH]; intros ctr; [done|]. simpl.
  rewrite <- (IH (u64 ctr + 1)), wrap_add_l, IH. unfold wire. by rewrite wrap_add_l.
Qed.

Definition conn_reliable (c : ObfuscatedPacketConn) : Prop := pc_faults (opc_conn c) = [].

Lemma send_all_wires ps c :
  conn_reliable c ->
  pc_sent (opc_conn (send_all ps c)) =
    pc_sent (opc_conn c) ++ wires (sendAEAD c) (noncePrefix c) (nonceCounter c) ps.
Proof.
  revert c. induction ps as [|[p a] ps IH]; intros c Hc; simpl; [by rewrite app_nil_r|].
  unfold WriteTo, writeToGCM, conn_WriteTo. unfold conn_reliable in Hc. rewrite Hc. simpl.
  rewrite IH by done. simpl. rewrite wires_u64, <- app_assoc. done.
Qed.

Lemma wires_lookup k prefix ctr ps i :
  wires k prefix ctr ps !! i =
    (fun '(p, a) => (wire k prefix (ctr + 1 + Z.of_nat i) p, a)) <$> ps !! i.
Proof.
  revert ctr i. induction ps as [|[p a] ps IH]; intros ctr i; [done|].
  destruct i as [|i]; simpl; [by rewrite Z.add_0_r|]. rewrite IH.
  destruct (ps !! i) as [[q b]|]; simpl; [|done].
  by replace (ctr + 1 + 1 + Z.of_nat i) with (ctr + 1 + Z.of_nat (S i)) by lia.
Qed.

Lemma length_wire k prefix ctr p : length (wire k prefix ctr p) = (12 + length p + 16)%nat.
Proof. unfold wire. rewrite length_app, length_mk_nonce, length_Seal. unfold nonceSize. lia. Qed.

(** The counter that a datagram carries. *)
Definition ctr_of (d : bytes) : Z := be_get (drop 4 (take nonceSize d)).

Lemma take_wire k prefix ctr p : take nonceSize (wire k prefix ctr p) = mk_nonce prefix (u64 ctr).
Proof. unfold wire. apply take_app_length'. by rewrite length_mk_nonce. Qed.

Lemma ctr_of_wire k prefix ctr p :
  length prefix = 4%nat -> ctr_of (wire k prefix ctr p) = u64 ctr.
Proof.
  intros Hp. unfold ctr_of. rewrite take_wire, mk_nonce_eq by done.
  rewrite drop_app_length' by done. apply be_get_put_small. by apply wrap_range.
Qed.

Lemma recv_turn_wire k prefix ctr p c :
  recvAEAD c = k -> recvFilter c = None ->
  exists c', recv_turn (wire k prefix ctr p) c = (Some p, c') /\ recvAEAD c' = k /\ recvFilter c' = None.
Proof.
  intros Hk Hf. unfold recv_turn.
  rewrite decide_False by (rewrite length_wire; unfold nonceSize, gcmTagSize; lia).
  rewrite take_wire. unfold wire. rewrite drop_app_length' by (by rewrite length_mk_nonce).
  rewrite Hk, Open_Seal, Hf. eauto.
Qed.

(** Receiving as a fold over the datagrams: what is delivered, with the
    datagram that carried it. *)
Fixpoint proc (n : nat) (ds : list (bytes * addr)) (c : ObfuscatedPacketConn)
    : list (bytes * (bytes * addr)) * ObfuscatedPacketConn :=
  match ds with
  | [] => ([], c)
  | (d, a) :: ds =>
      let d := take (nonceSize + n + gcmTagSize) d in
      match recv_turn d c with
      | (Some pt, c') => let '(l, c'') := proc n ds c' in ((d, (pt, a)) :: l, c'')
      | (None, c') => proc n ds c'
      end
  end.

Lemma recv_turn_conn d k c :
  recv_turn d (set_conn k c) = (fst (recv_turn d c), set_conn k (snd (recv_turn d c))).
Proof. unfold recv_turn. simpl. repeat case_match; simplify_eq; done. Qed.

Lemma set_conn_twice k1 k2 c : set_conn k1 (set_conn k2 c) = set_conn k1 c.
Proof. done. Qed.

Lemma proc_conn n ds k c :
  proc n ds (set_conn k c) = (fst (proc n ds c), set_conn k (snd (proc n ds c))).
Proof.
  revert c. induction ds as [|[d a] ds IH]; intros c; [done|]. simpl.
  rewrite recv_turn_conn. destruct (recv_turn _ c) as [[pt|] c']; simpl; rewrite IH;
    by destruct (proc n ds c').
Qed.

(** [ReadFrom] on an inbox without errors: the next delivered datagram. *)
Lemma recv_loop_spec n ds c :
  match recv_loop n (Ok <$> ds) c with
  | (None, c') => fst (proc n ds c) = [] /\
      c' = set_conn (set_inbox [] (opc_conn c')) (snd (proc n ds c))
  | (Some (Ok m), c') => exists d ds', (length ds' < length ds)%nat /\
      pc_inbox (opc_conn c') = Ok <$> ds' /\
      fst (proc n ds c) = (d, m) :: fst (proc n ds' c') /\
      set_conn (opc_conn c') (snd (proc n ds c)) = set_conn (opc_conn c') (snd (proc n ds' c'))
  | (Some (Err _), _) => False
  end.
Proof.
  revert c. induction ds as [|[d a] ds IH]; intros c; [by destruct c|].
  cbn [fmap list_fmap recv_loop proc].
  destruct (recv_turn (take (nonceSize + n + gcmTagSize) d) c) as [[pt|] c'] eqn:Ht.
  - exists (take (nonceSize + n + gcmTagSize) d), ds. simpl. rewrite proc_conn.
    destruct (proc n ds c') as [l c'']. simpl. by split_and!; [lia|..].
  - specialize (IH c'). destruct (recv_loop n (Ok <$> ds) c') as [[[m|]|] c'']; [|done..].
    destruct IH as (d' & ds' & Hl & Hi & Hp & Hs). exists d', ds'. by split_and!; [simpl; lia|..].
Qed.

Lemma recv_all_proc k n ds c :
  pc_inbox (opc_conn c) = Ok <$> ds -> (length ds < k)%nat ->
  fst (recv_all k n c) = snd <$> fst (proc n ds c).
Proof.
  revert ds c. induction k as [|k IH]; intros ds c Hi Hk; [lia|]. simpl.
  unfold ReadFrom, readFromGCM. rewrite Hi. pose proof (recv_loop_spec n ds c) as Hs.
  destruct (recv_loop n (Ok <$> ds) c) as [[[m|]|] c'].
  - destruct Hs as (d & ds' & Hl & Hi' & -> & _). specialize (IH ds' c' Hi' ltac:(lia)).
    destruct (recv_all k n c') as [l c'']. simpl in *. by rewrite IH.
  - done.
  - by destruct Hs as [-> _].
Qed.

(** ** A network that may lose, repeat, reorder and inject datagrams *)

Inductive delivery := Genuine (i : nat) | Junk (d : bytes).

Definition wire_of (sent : list (bytes * addr)) (x : delivery) : option bytes :=
  match x with Genuine i => fst <$> sent !! i | Junk d => Some d end.

Definition junk_ok (k : K) (n : nat) (d : bytes) : Prop :=
  let d := take (nonceSize + n + gcmTagSize) d in
  Open k (take nonceSize d) (drop nonceSize d) = None \/ (length d < 28)%nat.

Definition delivered (ps : list (bytes * addr)) (x : delivery) : option bytes :=
  match x with Genuine i => fst <$> ps !! i | Junk _ => None end.

Lemma recv_turn_junk k n d c :
  recvAEAD c = k -> junk_ok k n d ->
  exists c', recv_turn (take (nonceSize + n + gcmTagSize) d) c = (None, c') /\
    recvAEAD c' = k /\ recvFilter c' = recvFilter c.
Proof.
  intros Hk Hj. unfold recv_turn, junk_ok in *. rewrite Hk.
  case_decide as Hl; [eauto|]. destruct Hj as [->|Hj]; [eauto|].
  unfold nonceSize, gcmTagSize in *. lia.
Qed.

Lemma proc_delivery n ps xs k prefix ctr src c :
  recvAEAD c = k -> recvFilter c = None ->
  Forall (fun pa => length (fst pa) <= n)%nat ps ->
  Forall (fun x => match x with Junk d => junk_ok k n d | Genuine _ => True end) xs ->
  snd <$> fst (proc n ((., src) <$> omap (wire_of (wires k prefix ctr ps)) xs) c) =
    (., src) <$> omap (delivered ps) xs.
Proof.
  intros Hk Hf Hps. revert c Hk Hf. induction xs as [|x xs IH]; intros c Hk Hf Hx; [done|].
  inversion Hx as [|? ? Hx1 Hx2]; subst. destruct x as [i|d]; [simpl|].
  - rewrite wires_lookup. destruct (ps !! i) as [[p a]|] eqn:Hi; simpl; [|by apply IH].
    apply (Forall_lookup_1 _ _ _ _ Hps) in Hi. simpl in Hi.
    rewrite take_ge by (rewrite length_wire; unfold gcmTagSize; lia).
    destruct (recv_turn_wire _ prefix (ctr + 1 + Z.of_nat i) p c eq_refl Hf) as (c' & -> & Hk' & Hf').
    specialize (IH c' Hk' Hf' Hx2). destruct (proc n _ c') as [l c'']. simpl. f_equal. apply IH.
  - destruct (recv_turn_junk _ n d c eq_refl Hx1) as (c' & Ht & Hk' & Hf').
    cbn [omap list_omap wire_of delivered fmap list_fmap proc]. rewrite Ht.
    apply IH; [done|congruence|done].
Qed.

(** With a filter, the counters of the delivered datagrams are new. *)
Lemma proc_filter n ds c f seen :
  recvFilter c = Some f -> ar_rep f seen ->
  NoDup (ctr_of ∘ fst <$> fst (proc n ds c)) /\
  Forall (fun x => ctr_of (fst x) ∉ seen) (fst (proc n ds c)).
Proof.
  revert c f seen. induction ds as [|[d a] ds IH]; intros c f seen Hf Hrep; [by repeat constructor|].
  cbn [proc]. set (d' := take (nonceSize + n + gcmTagSize) d). unfold recv_turn.
  case_decide; [by apply IH with f|].
  destruct (Open _ _ _) as [pt|]; [|by apply IH with f]. rewrite Hf.
  assert (Hr : 0 <= be_get (drop 4 (take nonceSize d')) < 2 ^ 64).
  { pose proof (be_get_range (drop 4 (take nonceSize d'))) as Hb.
    rewrite length_drop, length_take in Hb.
    replace (nonceSize `min` length d' - 4)%nat with 8%nat in Hb
      by (unfold nonceSize, gcmTagSize in *; lia). exact Hb. }
  destruct (ar_check _ f) as [[|] f'] eqn:Hc.
  - apply (ar_accept _ _ _ _ Hr Hrep) in Hc as [Hnew Hrep'].
    match goal with |- context [proc n ds ?c'] => destruct (IH c' f' _ eq_refl Hrep') as [HN HF];
      destruct (proc n ds c') as [l c''] end. simpl in *.
    split; constructor; try done.
    + intros (x & Hx1 & Hx2)%list_elem_of_fmap. rewrite Forall_forall in HF.
      apply HF in Hx2. simpl in Hx1. unfold ctr_of in *. rewrite Hx1 in Hnew, Hx2. apply Hx2, elem_of_union_l, elem_of_singleton_2; done.
    + eapply Forall_impl; [exact HF|]. intros x Hx Hin. apply Hx. by apply elem_of_union_r.
  - apply (ar_reject _ _ _ _ Hr Hrep) in Hc. by apply IH with f'.
Qed.
(** *** Counters *)

Definition total (c : ObfuscatedPacketConn) : Z :=
  pktsRecv c + decryptErrors c + replayRejects c + tooShort c.

Lemma u64_eqm x y : u64 x = u64 y <-> exists q, x = y + q * 2 ^ 64.
Proof.
  unfold wrap. split.
  - intros Heq. exists (x / 2 ^ 64 - y / 2 ^ 64).
    pose proof (Z.div_mod x (2 ^ 64)). pose proof (Z.div_mod y (2 ^ 64)). lia.
  - intros [q ->]. by rewrite Z_mod_plus_full.
Qed.

Lemma u64_quot x : exists q, u64 x = x + q * 2 ^ 64.
Proof. apply u64_eqm. apply wrap_wrap. Qed.

Lemma upd_recv_total c f a b d e l :
  u64 (total (upd_recv c f a b d e l)) = u64 (total c + a + b + d + e).
Proof.
  unfold total. simpl. apply u64_eqm.
  destruct (u64_quot (pktsRecv c + a)) as [q1 ->], (u64_quot (decryptErrors c + b)) as [q2 ->],
    (u64_quot (replayRejects c + d)) as [q3 ->], (u64_quot (tooShort c + e)) as [q4 ->].
  exists (q1 + q2 + q3 + q4). lia.
Qed.

Lemma recv_turn_total d c :
  u64 (total (snd (recv_turn d c))) = u64 (total c + 1) /\
  u64 (pktsRecv (snd (recv_turn d c))) =
    u64 (pktsRecv c + (if fst (recv_turn d c) is Some _ then 1 else 0)).
Proof.
  unfold recv_turn. repeat case_match; cbn [fst snd]; rewrite ?upd_recv_total;
    (split; [f_equal; lia|cbn [pktsRecv upd_recv]; by rewrite wrap_wrap]).
Qed.

Lemma u64_plus x y z : u64 x = u64 y -> u64 (x + z) = u64 (y + z).
Proof. intros [q ->]%u64_eqm. apply u64_eqm. exists q. lia. Qed.

Lemma proc_total n ds c :
  u64 (total (snd (proc n ds c))) = u64 (total c + Z.of_nat (length ds)) /\
  u64 (pktsRecv (snd (proc n ds c))) = u64 (pktsRecv c + Z.of_nat (length (fst (proc n ds c)))).
Proof.
  revert c. induction ds as [|[d a] ds IH]; intros c.
  { simpl. by rewrite !Z.add_0_r. }
  cbn [proc]. set (d' := take (nonceSize + n + gcmTagSize) d).
  destruct (recv_turn_total d' c) as [Ht Hr].
  destruct (recv_turn d' c) as [[pt|] c'] eqn:E; cbn [fst snd] in Ht, Hr; specialize (IH c');
    destruct (proc n ds c') as [l c'']; cbn [fst snd] in *; destruct IH as [IH1 IH2];
    rewrite IH1, IH2, (u64_plus _ _ _ Ht), (u64_plus _ _ _ Hr);
    split; f_equal; simpl length; lia.
Qed.

Lemma recv_all_state k n ds c :
  pc_inbox (opc_conn c) = Ok <$> ds -> (length ds < k)%nat ->
  exists cn, snd (recv_all k n c) = set_conn cn (snd (proc n ds c)).
Proof.
  revert ds c. induction k as [|k IH]; intros ds c Hi Hk; [lia|]. simpl.
  unfold ReadFrom, readFromGCM. rewrite Hi. pose proof (recv_loop_spec n ds c) as Hs.
  destruct (recv_loop n (Ok <$> ds) c) as [[[m|]|] c'].
  - destruct Hs as (d & ds' & Hl & Hi' & _ & Hst). destruct (IH ds' c' Hi' ltac:(lia)) as [cn Hcn].
    destruct (recv_all k n c') as [l c'']. simpl in *. exists cn. rewrite Hcn.
    apply (f_equal (set_conn cn)) in Hst. by rewrite !set_conn_twice in Hst.
  - done.
  - destruct Hs as [_ ->]. eauto.
Qed.

(** *** Construction *)

Lemma New_Ok conn key srv prefix c :
  NewObfuscatedPacketConn conn key srv prefix = Ok c ->
  length key = 32%nat /\ exists ck sk ca sa,
    hkdf key "natproxy-client-to-server" 32 = Ok ck /\
    hkdf key "natproxy-server-to-client" 32 = Ok sk /\
    newGCM ck = Ok ca /\ newGCM sk = Ok sa /\ prefix = Ok (noncePrefix c) /\
    sendAEAD c = (if srv then sa else ca) /\ recvAEAD c = (if srv then ca else sa) /\
    opc_conn c = conn /\ nonceCounter c = 0 /\ recvFilter c = None.
Proof.
  unfold NewObfuscatedPacketConn. destruct (Z.eqb_spec (Z.of_nat (length key)) 32); [|done].
  cbn [negb]. destruct (hkdf key "natproxy-client-to-server" 32) as [ck|]; [|done].
  destruct (hkdf key "natproxy-server-to-client" 32) as [sk|]; [|done]. simpl.
  destruct (newGCM ck) as [ca|] eqn:Hca; [|done]. simpl.
  destruct (newGCM sk) as [sa|] eqn:Hsa; [|done]. simpl.
  destruct prefix as [pre|]; [|done]. intros [= <-]. split; [lia|].
  exists ck, sk, ca, sa. by split_and!.
Qed.

Definition with_inbox (ds : list (bytes * addr)) (c : ObfuscatedPacketConn) : ObfuscatedPacketConn :=
  set_conn (set_inbox (Ok <$> ds) (opc_conn c)) c.
End obfs.

(** ** Properties *)

(** C5: end to end, two endpoints made from the same 32-byte key with
    opposite roles understand each other.  Whatever the network does with the
    datagrams of the sender (loss, repetition, reordering) and whatever
    undecryptable or short datagrams it injects, the receiver delivers exactly
    the payloads of the genuine datagrams, in the order of arrival and once
    per arrival: the constructor installs no anti-replay filter. *)
Theorem obfs_roundtrip {K F B addr} `{AEAD K} `{AntiReplay F}
    (hkdf : bytes -> string -> nat -> res goerr bytes)
    (aes : bytes -> res goerr B) (gcm : B -> res goerr K)
    (conn1 conn2 : PacketConn) (key pre1 : bytes) (pre2 : res goerr bytes) (srv : bool)
    (tx rx : ObfuscatedPacketConn (F:=F))
    (ps : list (bytes * addr)) (xs : list delivery) (src : addr) (n k : nat) :
  NewObfuscatedPacketConn hkdf aes gcm conn1 key srv (Ok pre1) = Ok tx ->
  NewObfuscatedPacketConn hkdf aes gcm conn2 key (negb srv) pre2 = Ok rx ->
  pc_sent conn1 = [] -> pc_faults conn1 = [] ->
  Forall (fun pa => length (fst pa) <= n)%nat ps ->
  Forall (fun x => match x with Junk d => junk_ok (recvAEAD rx) n d | Genuine _ => True end) xs ->
  let ds := (., src) <$> omap (wire_of (pc_sent (opc_conn (send_all ps tx)))) xs in
  (length ds < k)%nat ->
  fst (recv_all k n (with_inbox ds rx)) = (., src) <$> omap (delivered ps) xs.
Proof.
  intros Htx Hrx Hs Hf Hps Hxs ds Hk.
  apply New_Ok in Htx as (_ & ck & sk & ca & sa & H1 & H2 & H3 & H4 & _ & Hsend & _ & Hc & Hctr & _).
  apply New_Ok in Hrx as (_ & ck' & sk' & ca' & sa' & H1' & H2' & H3' & H4' & _ & _ & Hrecv & _ & _ & Hfl).
  assert (Hkey : recvAEAD rx = sendAEAD tx) by (rewrite Hsend, Hrecv; destruct srv; simpl; congruence).
  rewrite (recv_all_proc k n ds) by done. unfold with_inbox. rewrite proc_conn. cbn [fst].
  subst ds. rewrite send_all_wires by (unfold conn_reliable; by rewrite Hc).
  rewrite Hc, Hs, app_nil_l, <- Hkey. by apply proc_delivery.
Qed.

(** *** Nonces of several connections

    The connections of a group, and later groups of the same session, are made
    from one key; those with the same role encrypt under the same GCM key. *)

Section nonces.
Context {K F B addr : Type} `{AEAD K} `{AntiReplay F}.
Variables (hkdf : bytes -> string -> nat -> res goerr bytes) (aes : bytes -> res goerr B) (gcm : B -> res goerr K).
Abbreviation sender := (ObfuscatedPacketConn (K:=K) (F:=F) (addr:=addr) * list (bytes * addr))%type.

(** A connection made by the constructor, and the packets it writes. *)
Definition opened (key : bytes) (srv : bool) (s : sender) : Prop :=
  exists conn prefix, NewObfuscatedPacketConn hkdf aes gcm conn key srv (Ok prefix) = Ok (fst s) /\
    pc_sent conn = [] /\ pc_faults conn = [] /\ length prefix = 4%nat /\
    snd s <> [] /\ Z.of_nat (length (snd s)) < 2 ^ 64.

(** The nonces on the wire after its writes. *)
Definition nonces (s : sender) : list bytes := take nonceSize ∘ fst <$> pc_sent (opc_conn (send_all (snd s) (fst s))).

Lemma opened_nonces key srv s : opened key srv s ->
  length (noncePrefix (fst s)) = 4%nat /\ snd s <> [] /\ Z.of_nat (length (snd s)) < 2 ^ 64 /\
  forall i, nonces s !! i = (fun _ => noncePrefix (fst s) ++ be_put 8 (u64 (1 + Z.of_nat i))) <$> snd s !! i.
Proof.
  intros (conn & pre & Hnew & Hs & Hf & Hp & Hne & Hl).
  apply New_Ok in Hnew as (_ & ck & sk & ca & sa & _ & _ & _ & _ & Hpre & _ & _ & Hc & Hctr & _). injection Hpre as Hpre.
  rewrite <- Hpre. split_and!; [done|done|done|]. intros i. unfold nonces.
  rewrite send_all_wires by (unfold conn_reliable; by rewrite Hc). rewrite Hc, Hs, Hctr, app_nil_l, <- Hpre.
  rewrite list_lookup_fmap, wires_lookup. destruct (snd s !! i) as [[q a]|]; [|done]. simpl.
  rewrite take_wire, mk_nonce_eq by done. done.
Qed.

Lemma nonces_distinct key srv s : opened key srv s -> NoDup (nonces s).
Proof.
  intros (Hp & _ & Hl & Hn)%opened_nonces. apply NoDup_alt. intros i j x. rewrite !Hn.
  destruct (snd s !! i) as [a|] eqn:Hi; [|done]. destruct (snd s !! j) as [b|] eqn:Hj; [|done]. cbn [fmap option_fmap option_map].
  intros Hx Hy. rewrite <- Hy in Hx. apply (inj Some) in Hx. apply app_inv_head in Hx. apply (f_equal be_get) in Hx.
  rewrite !be_get_put_small in Hx by (by apply wrap_range). apply u64_eqm in Hx as [z Hz].
  apply lookup_lt_Some in Hi. apply lookup_lt_Some in Hj. lia.
Qed.

Lemma nonces_prefix key srv s x : opened key srv s -> x ∈ nonces s -> take 4 x = noncePrefix (fst s).
Proof.
  intros (Hp & _ & _ & Hn)%opened_nonces (i & Hi)%list_elem_of_lookup. rewrite Hn in Hi.
  destruct (snd s !! i); [|done]. injection Hi as <-. by apply take_app_length'.
Qed.

Lemma nonces_first key srv s : opened key srv s -> noncePrefix (fst s) ++ be_put 8 1 ∈ nonces s.
Proof.
  intros (Hp & Hne & _ & Hn)%opened_nonces. apply list_elem_of_lookup. exists 0%nat. rewrite Hn.
  by destruct (snd s).
Qed.

Lemma opened_same_key key srv s t : opened key srv s -> opened key srv t -> sendAEAD (fst s) = sendAEAD (fst t).
Proof.
  intros (? & ? & Hs & _) (? & ? & Ht & _).
  apply New_Ok in Hs as (_ & ? & ? & ? & ? & E1 & E2 & E3 & E4 & _ & -> & _).
  apply New_Ok in Ht as (_ & ? & ? & ? & ? & E1' & E2' & E3' & E4' & _ & -> & _). destruct srv; congruence.
Qed.

(** C6: nonces under one key.  All connections of one role that are made from
    one 32-byte key encrypt under the same GCM key.  When each writes at least
    one and fewer than [2^64] packets, the nonces on all their wires together
    are pairwise distinct exactly when the connections drew pairwise distinct
    four-byte prefixes: within a connection a nonce never repeats, two
    connections with different prefixes never share one, and two with the same
    prefix share the very first.  Nothing in the program compares prefixes, so
    across connections uniqueness rests on the 32 random bits. *)
Theorem obfs_nonce_unique (key : bytes) (srv : bool) (ss : list sender) :
  Forall (opened key srv) ss ->
  (forall s t, s ∈ ss -> t ∈ ss -> sendAEAD (fst s) = sendAEAD (fst t)) /\
  (forall s, s ∈ ss -> NoDup (nonces s)) /\
  (NoDup (ss ≫= nonces) <-> NoDup (noncePrefix ∘ fst <$> ss)).
Proof.
  intros Hss. split_and!.
  - intros s t Hs Ht. rewrite Forall_forall in Hss. eapply opened_same_key; eauto.
  - intros s Hs. rewrite Forall_forall in Hss. eapply nonces_distinct; eauto.
  - induction Hss as [|s ss Hs Hss IH]; [by split; constructor|]. cbn [mbind list_bind fmap list_fmap]. change (list_bind _ _ nonces ss) with (ss ≫= nonces).
    rewrite NoDup_app, NoDup_cons. rewrite Forall_forall in Hss. split.
    + intros (_ & Hd & Hn). split; [|by apply IH]. intros (t & Hp & Ht)%list_elem_of_fmap.
      apply (Hd (noncePrefix (fst s) ++ be_put 8 1)); [by eapply nonces_first|]. apply list_elem_of_bind. exists t.
      split; [|done]. change ((noncePrefix ∘ fst) s) with (noncePrefix (fst s)) in Hp. rewrite Hp. eapply nonces_first. by apply Hss.
    + intros (Hp & Hn). split_and!; [by eapply nonces_distinct| |by apply IH].
      intros x Hx (t & Hxt & Ht)%list_elem_of_bind. apply Hp. apply list_elem_of_fmap. exists t. split; [|done]. simpl.
      rewrite <- (nonces_prefix key srv s x Hs Hx). by eapply nonces_prefix; [apply Hss|].
Qed.
End nonces.

(** with a filter installed, no counter is delivered twice.  For every
    sequence of datagrams an attacker may send, what the receiver delivers
    comes from datagrams with pairwise distinct counters. *)
Theorem obfs_no_replay {K F addr} `{AEAD K} `{AntiReplay F}
    (c : ObfuscatedPacketConn (K:=K) (F:=F) (addr:=addr)) (ds : list (bytes * addr)) (n k : nat) :
  recvFilter c = Some ar_new -> (length ds < k)%nat ->
  exists ws, fst (recv_all k n (with_inbox ds c)) = snd <$> ws /\
    NoDup (ctr_of ∘ fst <$> ws) /\
    Forall (fun w => Open (recvAEAD c) (take nonceSize (fst w)) (drop nonceSize (fst w)) =
                     Some (fst (snd w))) ws.
Proof.
  intros Hf Hk. exists (fst (proc n ds c)).
  rewrite (recv_all_proc k n ds) by done. unfold with_inbox. rewrite proc_conn. split; [done|].
  split; [by eapply (proc_filter n ds c ar_new ∅ Hf ar_new_rep)|].
  clear. revert c. induction ds as [|[d a] ds IH]; intros c; [done|]. cbn [proc].
  assert (Hkey : recvAEAD (snd (recv_turn (take (nonceSize + n + gcmTagSize) d) c)) = recvAEAD c).
  { unfold recv_turn. by repeat case_match. }
  destruct (recv_turn _ c) as [[pt|] c'] eqn:E; cbn [snd] in Hkey; specialize (IH c');
    rewrite Hkey in IH; [|done]. destruct (proc n ds c') as [l c'']. constructor; [|done].
  simpl. unfold recv_turn in E. repeat case_match; simplify_eq; done.
Qed.

(** every datagram is accounted for.  After the receiver has drained its
    inbox, exactly one of the counters for received, undecryptable, replayed
    and short datagrams has been advanced per datagram, and the received
    counter by the number of deliveries, modulo [2^64]. *)
Theorem obfs_accounting {K F addr} `{AEAD K} `{AntiReplay F}
    (c : ObfuscatedPacketConn (K:=K) (F:=F) (addr:=addr)) (ds : list (bytes * addr)) (n k : nat) :
  (length ds < k)%nat ->
  let '(out, c') := recv_all k n (with_inbox ds c) in
  u64 (total c') = u64 (total c + Z.of_nat (length ds)) /\
  u64 (pktsRecv c') = u64 (pktsRecv c + Z.of_nat (length out)).
Proof.
  intros Hk. destruct (recv_all_state k n ds (with_inbox ds c) eq_refl Hk) as [cn Hst].
  pose proof (recv_all_proc k n ds (with_inbox ds c) eq_refl Hk) as Hout.
  destruct (recv_all k n (with_inbox ds c)) as [out c']. cbn [fst snd] in *.
  unfold with_inbox in *. rewrite proc_conn in *. cbn [fst snd] in *. subst.
  rewrite length_fmap. rewrite !set_conn_twice. apply proc_total.
Qed.

(** ** A toy cipher, to run the definitions: the tag repeats the key. *)

#[export, refine] Instance toy_AEAD : AEAD byte := {|
  Seal k n p := p ++ replicate 16 k;
  Open k n c := let m := (length c - 16)%nat in
    if decide (drop m c = replicate 16 k) then Some (take m c) else None
|}.
Proof.
  - intros k n p.
    assert (Hm : (length (p ++ replicate 16 k) - 16)%nat = length p) by len.
    cbv zeta. rewrite Hm, drop_app_length, decide_True by done. by rewrite take_app_length.
  - intros. by rewrite length_app, length_replicate.
Defined.

Definition toy_hkdf (key : bytes) (info : string) (n : nat) : res goerr bytes :=
  Ok (replicate n (if decide (info = "natproxy-client-to-server") then x11 else x22)).
Definition toy_gcm (b : bytes) : res goerr byte := Ok (default x00 (head b)).
Definition toy_conn : PacketConn (addr:=Z) := mkConn [] [] [].
Definition toy_opc (srv : bool) (f : option Replay.replayFilter)
    : ObfuscatedPacketConn (K:=byte) (addr:=Z) :=
  mkOPC toy_conn (if srv then x22 else x11) (if srv then x11 else x22) 0
    [x01; x02; x03; x04] f 0 0 0 0 0 0 srv false.

#[local] Existing Instance Replay.replay_AntiReplay.

Definition demo_msgs : list (bytes * Z) := [([x41; x42], 7); ([], 7)].

Lemma obfs_roundtrip_witness :
  let ds := (., 9) <$> omap (wire_of (pc_sent (opc_conn (send_all demo_msgs (toy_opc false None)))))
              [Genuine 1; Junk [x00]; Genuine 0; Genuine 0] in
  fst (recv_all 5 4 (with_inbox ds (toy_opc true None))) = [([], 9); ([x41; x42], 9); ([x41; x42], 9)].
Proof.
  apply (obfs_roundtrip toy_hkdf (fun b => Ok b) toy_gcm toy_conn toy_conn (replicate 32 x00)
    [x01; x02; x03; x04] (Ok [x01; x02; x03; x04]) false); try reflexivity.
  - repeat constructor; simpl; lia.
  - repeat constructor; try exact I; right; simpl; lia.
  - simpl. lia.
Defined.

(** Two connections of a group with different prefixes, and two with the same. *)
Definition toy_sender (prefix : bytes) : ObfuscatedPacketConn (K:=byte) (F:=Replay.replayFilter) (addr:=Z) * list (bytes * Z) :=
  (mkOPC toy_conn x11 x22 0 prefix None 0 0 0 0 0 0 false false, demo_msgs).

Lemma obfs_nonce_unique_witness :
  NoDup ([toy_sender [x01; x02; x03; x04]; toy_sender [x01; x02; x03; x05]] ≫= nonces) /\
  ~ NoDup ([toy_sender [x01; x02; x03; x04]; toy_sender [x01; x02; x03; x04]] ≫= nonces).
Proof.
  assert (Ho : forall pre, length pre = 4%nat -> opened toy_hkdf (fun b => Ok b) toy_gcm (replicate 32 x00) false (toy_sender pre)).
  { intros pre Hp. exists toy_conn, pre. by split_and!. }
  split.
  - apply (obfs_nonce_unique toy_hkdf (fun b => Ok b) toy_gcm (replicate 32 x00) false); [repeat (constructor; [by apply Ho|]); constructor|].
    apply NoDup_cons. split; [|apply NoDup_singleton]. simpl. intros [E|E]%elem_of_cons; [discriminate E|by apply elem_of_nil in E].
  - intros Hn. apply (obfs_nonce_unique toy_hkdf (fun b => Ok b) toy_gcm (replicate 32 x00) false) in Hn; [|repeat (constructor; [by apply Ho|]); constructor].
    apply NoDup_cons in Hn as [Hn _]. apply Hn. simpl. by constructor.
Defined.

Lemma obfs_no_replay_witness :
  let c := toy_opc true (Some Replay.newReplayFilter) in
  let d := wire x11 [x01; x02; x03; x04] 1 [x41] in
  exists ws, fst (recv_all 4 4 (with_inbox [(d, 1); (d, 1); (d, 2)] c)) = snd <$> ws /\
    NoDup (ctr_of ∘ fst <$> ws) /\
    Forall (fun w => Open x11 (take nonceSize (fst w)) (drop nonceSize (fst w)) =
                     Some (fst (snd w))) ws.
Proof. intros c d. apply (obfs_no_replay c); [reflexivity|simpl; lia]. Defined.

Lemma obfs_accounting_witness :
  let c := toy_opc true None in
  let '(out, c') := recv_all 3 4 (with_inbox [([x00], 1); (replicate 40 x55, 1)] c) in
  u64 (total c') = u64 (total c + 2) /\ u64 (pktsRecv c') = u64 (pktsRecv c + Z.of_nat (length out)).
Proof. apply (obfs_accounting (toy_opc true None) [([x00], 1); (replicate 40 x55, 1)] 4 3). simpl. lia. Defined.

End Obfs.
