(* ===== verification/Reliable.v ===== *)
(** * Reliable delivery over RTP ([golib/webrtc/media_reliable.go])

    [reliableRTP] numbers every write with a 16-bit sequence number, keeps it
    until it is acknowledged, retransmits it on a timer, and reorders what it
    receives.  One definition models each method and one turn of each of the
    two background loops; datagrams are the bytes on the wire.

    [sys_step] is the system of two endpoints over a network that may lose,
    repeat and reorder datagrams, in which the two loops, the readers and the
    writers interleave freely. *)

From S2P Require Import Prelude IO.

Open Scope Z_scope.

Module Reliable.

Definition reliableFlagData : Z := 0.
Definition reliableFlagAck : Z := 1.
Definition reliableFlagRetransmit : Z := 2.
Definition reliableHeaderSize : nat := 3.
Definition reliableMaxRetries : Z := 10.
Definition reliableRTOInit : Z := 100000000.       (* nanoseconds *)
Definition reliableWindowSize : nat := 256.

(** ** State *)

Record reliableFrame := mkFrame { fr_data : bytes; sentAt : Z; retries : Z }.

Record reliableRTP := mkRTP {
  writeSeq : Z;                        (* uint16 *)
  unacked : gmap Z reliableFrame;
  readSeq : Z;                         (* uint16 *)
  readBuf : gmap Z bytes;
  readPending : bytes;
  done : bool
}.

Definition newReliableRTP : reliableRTP := mkRTP 0 ∅ 0 ∅ [] false.

(** ** Operations *)

(** [Write(p)] at time [now]; [werr] is the error of the inner write.  The
    last component are the datagrams handed to the inner connection. *)
Definition rWrite (p : bytes) (now : Z) (werr : option goerr) (r : reliableRTP)
    : res goerr nat * reliableRTP * list bytes :=
  let seq := writeSeq r in
  let frame := replicate (reliableHeaderSize + length p) x00 in
  let frame := splice 0 (be_put 2 seq) frame in
  let frame := splice 2 [z2b reliableFlagData] frame in
  let frame := splice 3 p frame in
  let r' := mkRTP (u16 (writeSeq r + 1)) (<[seq := mkFrame frame now 0]> (unacked r))
              (readSeq r) (readBuf r) (readPending r) (done r) in
  match werr with
  | Some e => (Err e, r', [])
  | None => (Ok (length p), r', [frame])
  end.

(** [Read(p)] with [n = len(p)]; [None] waits on the condition variable. *)
Definition rRead (n : nat) (r : reliableRTP) : option (res goerr bytes) * reliableRTP :=
  match readPending r with
  | _ :: _ => (Some (Ok (take n (readPending r))),
               mkRTP (writeSeq r) (unacked r) (readSeq r) (readBuf r) (drop n (readPending r)) (done r))
  | [] =>
      if done r then (Some (Err (EIO EOF)), r)
      else match readBuf r !! readSeq r with
           | Some data =>
               let rest := if decide (n < length data)%nat then drop n data else readPending r in
               (Some (Ok (take n data)),
                mkRTP (writeSeq r) (unacked r) (u16 (readSeq r + 1)) (delete (readSeq r) (readBuf r))
                  rest (done r))
           | None => (None, r)
           end
  end.

Definition sendAck (seq : Z) : bytes :=
  splice 2 [z2b reliableFlagAck] (splice 0 (be_put 2 seq) (replicate reliableHeaderSize x00)).

Definition recvBufLen : nat := Z.to_nat 65536.
#[global] Opaque recvBufLen.

Lemma recvBufLen_eq : Z.of_nat recvBufLen = 65536.
Proof. Transparent recvBufLen. unfold recvBufLen. by rewrite Z2Nat.id. Qed.
#[global] Opaque recvBufLen.

(** One turn of [receiveLoop] on the datagram [d], read into a buffer of
    65536 bytes. *)
Definition receive (d : bytes) (r : reliableRTP) : reliableRTP * list bytes :=
  let buf := take recvBufLen d in
  if decide (length buf < reliableHeaderSize)%nat then (r, [])
  else
    let seq := be_get (take 2 buf) in
    let flags := be_get (take 1 (drop 2 buf)) in
    if (flags =? reliableFlagData) || (flags =? reliableFlagRetransmit) then
      let payload := drop 3 buf in
      let rb := if decide (size (readBuf r) < reliableWindowSize)%nat
                then <[seq := payload]> (readBuf r) else readBuf r in
      (mkRTP (writeSeq r) (unacked r) (readSeq r) rb (readPending r) (done r), [sendAck seq])
    else if flags =? reliableFlagAck then
      (mkRTP (writeSeq r) (delete seq (unacked r)) (readSeq r) (readBuf r) (readPending r) (done r), [])
    else (r, []).

(** What a tick of [retransmitLoop] at time [now] does to one frame: the
    frame that is kept, if any, and the datagram that is sent again, if any. *)
Definition retransmit_frame (now : Z) (f : reliableFrame) : option reliableFrame * option bytes :=
  if reliableRTOInit * Z.shiftl 1 (retries f) <? now - sentAt f then
    if reliableMaxRetries <=? retries f then (None, None)
    else (Some (mkFrame (fr_data f) now (retries f + 1)),
          Some (<[2%nat := z2b reliableFlagRetransmit]> (fr_data f)))
  else (Some f, None).

Definition retransmit (now : Z) (r : reliableRTP) : reliableRTP * list bytes :=
  (mkRTP (writeSeq r) (omap (fun f => fst (retransmit_frame now f)) (unacked r))
     (readSeq r) (readBuf r) (readPending r) (done r),
   omap (fun sf => snd (retransmit_frame now (snd sf))) (map_to_list (unacked r))).

Definition rClose (r : reliableRTP) : reliableRTP :=
  mkRTP (writeSeq r) (unacked r) (readSeq r) (readBuf r) (readPending r) true.

(** [readTargetAddrReliable]: the target address that opens a stream. *)
Definition readTargetAddrReliable (r : reader) : res goerr bytes * reader :=
  match ReadFull 2 r with
  | (Err e, r) => (Err (EWrap "read addr length" e), r)
  | (Ok lenBuf, r) =>
      let addrLen := be_get lenBuf in
      if (addrLen =? 0) || (512 <? addrLen) then (Err (EMsg "invalid addr length" [addrLen]), r)
      else match ReadFull (Z.to_nat addrLen) r with
           | (Err e, r) => (Err (EWrap "read addr" e), r)
           | (Ok a, r) => (Ok a, r)
           end
  end.

(** ** The system of two endpoints *)

Inductive ep_op :=
  | OpWrite (p : bytes) (now : Z) (werr : option goerr)
  | OpRead (n : nat)
  | OpReceive (d : bytes)
  | OpTick (now : Z)
  | OpClose.

(** An operation of an endpoint: its new state, what it sends, what it
    delivers to its reader and what its writer submitted. *)
Definition ep_run (o : ep_op) (r : reliableRTP) : reliableRTP * list bytes * bytes * list bytes :=
  match o with
  | OpWrite p now werr => let '(_, r', out) := rWrite p now werr r in (r', out, [], [p])
  | OpRead n => match rRead n r with
                | (Some (Ok l), r') => (r', [], l, [])
                | (_, r') => (r', [], [], [])
                end
  | OpReceive d => let '(r', out) := receive d r in (r', out, [], [])
  | OpTick now => let '(r', out) := retransmit now r in (r', out, [], [])
  | OpClose => (rClose r, [], [], [])
  end.

(** One side of the system: the endpoint, every datagram it ever sent, what
    was written to it and what was read from it. *)
Record side := mkSide { ep : reliableRTP; net : list bytes; wr : list bytes; rd : bytes }.

Definition side_run (o : ep_op) (s : side) : side :=
  let '(r, out, l, ws) := ep_run o (ep s) in
  mkSide r (net s ++ out) (wr s ++ ws) (rd s ++ l).

(** An operation is possible when what it receives was sent by the peer;
    writes fit the receive buffer of the peer. *)
Definition enabled (o : ep_op) (peer : side) : Prop :=
  match o with
  | OpReceive d => d ∈ net peer
  | OpWrite p _ _ => Z.of_nat (length p) <= 65533
  | _ => True
  end.

Inductive sys_step : relation (side * side) :=
  | step_left o a b : enabled o b -> sys_step (a, b) (side_run o a, b)
  | step_right o a b : enabled o a -> sys_step (a, b) (a, side_run o b).

Definition side_init : side := mkSide newReliableRTP [] [] [].
Definition sys_init : side * side := (side_init, side_init).

(** ** The invariant of one direction, from [src] to [dst] *)

Definition hdr (seq : Z) (flag : Z) : bytes := be_put 2 seq ++ [z2b flag].

Definition frame_for (w : list bytes) (flag : Z) (d : bytes) : Prop :=
  exists (i : nat) p, w !! i = Some p /\ d = hdr (Z.of_nat i) flag ++ p.

Definition net_ok (w : list bytes) (d : bytes) : Prop :=
  (exists seq, d = hdr seq reliableFlagAck) \/
  frame_for w reliableFlagData d \/ frame_for w reliableFlagRetransmit d.

Definition fits (p : bytes) : Prop := Z.of_nat (length p) <= 65533.

Record dir_inv (src dst : side) : Prop := {
  di_fits : Forall fits (wr src);
  di_seq : writeSeq (ep src) = Z.of_nat (length (wr src));
  di_unacked : forall seq f, unacked (ep src) !! seq = Some f ->
    frame_for (wr src) reliableFlagData (fr_data f) /\ 0 <= retries f <= reliableMaxRetries;
  di_net : Forall (net_ok (wr src)) (net src);
  di_buf : forall seq p, readBuf (ep dst) !! seq = Some p ->
    0 <= seq /\ wr src !! Z.to_nat seq = Some p;
  di_read : exists k, readSeq (ep dst) = Z.of_nat k /\ (k <= length (wr src))%nat /\
    rd dst ++ readPending (ep dst) = concat (take k (wr src))
}.

(** ** Wire lemmas *)

Lemma length_hdr seq f : length (hdr seq f) = 3%nat.
Proof. unfold hdr. len. Qed.

Lemma write_frame_eq seq (p : bytes) :
  splice 3 p (splice 2 [z2b reliableFlagData]
    (splice 0 (be_put 2 seq) (replicate (reliableHeaderSize + length p) x00)))
  = hdr seq reliableFlagData ++ p.
Proof.
  unfold reliableHeaderSize.
  match goal with |- ?l = _ => rewrite <- (take_ge l (3 + length p)) by len end.
  apply take_splice; [|len]. unfold hdr.
  apply (take_splice 2 (be_put 2 seq) [z2b reliableFlagData]); [|len].
  apply (take_splice 0 [] (be_put 2 seq)); [done|len].
Qed.

Lemma rWrite_eq p now werr r :
  rWrite p now werr r =
    let frame := hdr (writeSeq r) reliableFlagData ++ p in
    (match werr with Some e => Err e | None => Ok (length p) end,
     mkRTP (u16 (writeSeq r + 1)) (<[writeSeq r := mkFrame frame now 0]> (unacked r))
       (readSeq r) (readBuf r) (readPending r) (done r),
     match werr with Some _ => [] | None => [frame] end).
Proof. unfold rWrite. rewrite write_frame_eq. by destruct werr. Qed.

Lemma sendAck_eq seq : sendAck seq = hdr seq reliableFlagAck.
Proof.
  unfold sendAck, hdr, reliableHeaderSize.
  match goal with |- ?l = _ => rewrite <- (take_ge l 3) by len end.
  apply (take_splice 2 (be_put 2 seq) [z2b reliableFlagAck]); [|len].
  apply (take_splice 0 [] (be_put 2 seq)); [done|len].
Qed.

Lemma retransmit_bytes seq p :
  <[2%nat := z2b reliableFlagRetransmit]> (hdr seq reliableFlagData ++ p) = hdr seq reliableFlagRetransmit ++ p.
Proof. done. Qed.

(** What the receive loop makes of a well-formed frame. *)
Lemma receive_frame seq flag p r :
  0 <= seq < 65536 -> 0 <= flag < 256 -> fits p ->
  receive (hdr seq flag ++ p) r =
    if (flag =? reliableFlagData) || (flag =? reliableFlagRetransmit) then
      (mkRTP (writeSeq r) (unacked r) (readSeq r)
         (if decide (size (readBuf r) < reliableWindowSize)%nat then <[seq := p]> (readBuf r) else readBuf r)
         (readPending r) (done r), [sendAck seq])
    else if flag =? reliableFlagAck then
      (mkRTP (writeSeq r) (delete seq (unacked r)) (readSeq r) (readBuf r) (readPending r) (done r), [])
    else (r, []).
Proof.
  intros Hs Hf Hp. unfold receive, fits in *.
  pose proof recvBufLen_eq. rewrite take_ge by (rewrite length_app, length_hdr; lia).
  rewrite decide_False by (rewrite length_app, length_hdr; unfold reliableHeaderSize; lia).
  unfold hdr. rewrite <- app_assoc, take_app_length' by len.
  rewrite (drop_app_length' (be_put 2 seq)) by len.
  rewrite be_get_put_small by (change (2 ^ (8 * Z.of_nat 2)) with 65536; lia).
  replace (be_get (take 1 ([z2b flag] ++ p))) with flag; [|by unfold be_get; simpl; rewrite b2z_z2b_small].
  rewrite app_assoc, drop_app_length' by len. done.
Qed.

Lemma frame_for_app w w' flag d : frame_for w flag d -> frame_for (w ++ w') flag d.
Proof. intros (i & p & Hi & Hd). exists i, p. split; [by apply lookup_app_l_Some|done]. Qed.

Lemma net_ok_app w w' d : net_ok w d -> net_ok (w ++ w') d.
Proof. intros [?|[?|?]]; [by left|right; left|right; right]; by apply frame_for_app. Qed.

(** ** Preservation *)

(** 65535 writes per direction: the sequence numbers have not wrapped. *)
Definition short (s : side) : Prop := Z.of_nat (length (wr s)) <= 65535.

Section preservation.
Implicit Types (src dst a b : side) (o : ep_op).

(** Operations of [src] that do not write keep the history; what they send
    must be right and what they keep must have been there. *)
Lemma dir_inv_src src dst r out l :
  dir_inv src dst -> writeSeq r = writeSeq (ep src) ->
  (forall seq f, unacked r !! seq = Some f ->
    frame_for (wr src) reliableFlagData (fr_data f) /\ 0 <= retries f <= reliableMaxRetries) ->
  Forall (net_ok (wr src)) out ->
  dir_inv (mkSide r (net src ++ out) (wr src ++ []) (rd src ++ l)) dst.
Proof.
  intros [] Hw Hu Ho. rewrite app_nil_r. split; simpl; try done.
  - congruence.
  - by apply Forall_app.
Qed.

Lemma receive_src d r r' out :
  receive d r = (r', out) ->
  writeSeq r' = writeSeq r /\ (unacked r' ⊆ unacked r) /\
  Forall (fun d => exists seq, d = hdr seq reliableFlagAck) out.
Proof.
  unfold receive. repeat case_match; intros [= <- <-]; simpl; split_and!; try done;
    try apply delete_subseteq; rewrite ?sendAck_eq; repeat constructor; eauto.
Qed.

Lemma retransmit_ok w now f :
  frame_for w reliableFlagData (fr_data f) -> 0 <= retries f <= reliableMaxRetries ->
  (forall f', fst (retransmit_frame now f) = Some f' ->
     frame_for w reliableFlagData (fr_data f') /\ 0 <= retries f' <= reliableMaxRetries) /\
  (forall d, snd (retransmit_frame now f) = Some d -> net_ok w d).
Proof.
  intros Hf Hr. unfold retransmit_frame. case_zb; simpl; (split; [intros ? [= <-]|intros ? [=]]);
    try done.
  - split; [done|simpl; lia].
  - subst. right; right. destruct Hf as (i & p & Hi & ->). exists i, p. by rewrite retransmit_bytes.
Qed.

Lemma dir_inv_src_run o src dst :
  dir_inv src dst -> enabled o dst -> short (side_run o src) -> dir_inv (side_run o src) dst.
Proof.
  intros Hinv Hen Hsh. pose proof Hinv as [Hfit Hseq Hun Hnet Hbuf Hread].
  unfold side_run in *. destruct o as [p now werr|n|d|now|]; cbn [ep_run] in *.
  - (* Write *)
    rewrite rWrite_eq in *. cbn zeta iota in *.
    assert (Hfr : frame_for (wr src ++ [p]) reliableFlagData (hdr (writeSeq (ep src)) reliableFlagData ++ p)).
    { exists (length (wr src)), p. rewrite Hseq. split; [|done]. by rewrite lookup_app_r, Nat.sub_diag. }
    assert (Hgoal : forall out, Forall (net_ok (wr src ++ [p])) out -> short (mkSide (ep src) [] (wr src ++ [p]) []) ->
      dir_inv (mkSide (mkRTP (u16 (writeSeq (ep src) + 1))
        (<[writeSeq (ep src) := mkFrame (hdr (writeSeq (ep src)) reliableFlagData ++ p) now 0]> (unacked (ep src)))
        (readSeq (ep src)) (readBuf (ep src)) (readPending (ep src)) (done (ep src)))
        (net src ++ out) (wr src ++ [p]) (rd src ++ [])) dst).
    { intros out Hout Hs. unfold short in Hs. cbn [wr] in Hs. rewrite length_app in Hs. simpl in Hs.
      split; simpl.
      - apply Forall_app. split; [done|]. by apply Forall_singleton.
      - rewrite Hseq, length_app. simpl. rewrite wrap_small; [lia|]. change (2 ^ 16) with 65536. lia.
      - intros seq f. rewrite lookup_insert_Some. intros [[<- <-]|[_ Hl]]; simpl.
        + split; [done|]. unfold reliableMaxRetries. lia.
        + apply Hun in Hl as [??]. split; [by apply frame_for_app|done].
      - apply Forall_app. split; [|done]. eapply Forall_impl; [done|]. intros; by apply net_ok_app.
      - intros seq q Hq. apply Hbuf in Hq as [??]. split; [done|]. by apply lookup_app_l_Some.
      - destruct Hread as (k & Hk & Hle & Hrd). exists k. rewrite take_app_le by done.
        rewrite length_app. split_and!; [done|simpl; lia|done]. }
    apply Hgoal; [|done]. destruct werr; [done|]. apply Forall_singleton. by right; left.
  - (* Read *)
    destruct (rRead n (ep src)) as [[[l|]|] r] eqn:E; unfold rRead in E;
      repeat case_match; simplify_eq; (apply dir_inv_src; try done).
  - (* Receive *)
    destruct (receive d (ep src)) as [r out] eqn:E. apply receive_src in E as (Hw & Hu & Ho).
    apply dir_inv_src; try done.
    + intros seq f Hf. eapply lookup_weaken in Hf; [|done]. by apply Hun in Hf.
    + eapply Forall_impl; [done|]. intros. by left.
  - (* Tick *)
    apply dir_inv_src; try done; simpl.
    + intros seq f. rewrite lookup_omap. intros (f0 & Hf0 & Hf)%bind_Some.
      apply Hun in Hf0 as [H1 H2]. by apply (retransmit_ok _ now f0 H1 H2).
    + apply Forall_forall. intros d ([seq f0] & Hin & Hd)%list_elem_of_omap.
      apply elem_of_map_to_list, Hun in Hin as [H1 H2]. by apply (retransmit_ok _ now f0 H1 H2).
  - (* Close *) by apply dir_inv_src.
Qed.

(** Operations of [dst] that leave what it will read. *)
Lemma dir_inv_dst src dst r nt w :
  dir_inv src dst -> readSeq r = readSeq (ep dst) -> readBuf r = readBuf (ep dst) ->
  readPending r = readPending (ep dst) ->
  dir_inv src (mkSide r nt w (rd dst ++ [])).
Proof. intros [] H1 H2 H3. rewrite app_nil_r. split; simpl; rewrite ?H1, ?H2, ?H3; done. Qed.

Lemma dir_inv_receive src dst d r out nt w :
  dir_inv src dst -> short src -> d ∈ net src -> receive d (ep dst) = (r, out) ->
  dir_inv src (mkSide r nt w (rd dst ++ [])).
Proof.
  intros Hinv Hsh Hd. pose proof Hinv as [Hfit Hseq Hun Hnet Hbuf Hread].
  assert (Hdata : forall flag, frame_for (wr src) flag d -> flag = reliableFlagData \/ flag = reliableFlagRetransmit ->
            receive d (ep dst) = (r, out) -> dir_inv src (mkSide r nt w (rd dst ++ []))).
  { intros flag (i & p & Hi & ->) Hflag. pose proof (lookup_lt_Some _ _ _ Hi) as Hlt.
    pose proof (Forall_lookup_1 _ _ _ _ Hfit Hi) as Hp. unfold short in Hsh.
    rewrite receive_frame; [|lia|destruct Hflag; subst; done|done].
    replace ((flag =? reliableFlagData) || (flag =? reliableFlagRetransmit)) with true
      by (by destruct Hflag; subst).
    intros [= <- <-]. rewrite app_nil_r. split; simpl; try done.
    intros seq q. case_decide; [|by apply Hbuf].
    rewrite lookup_insert_Some. intros [[<- <-]|[_ ?]]; [|by apply Hbuf].
    rewrite Nat2Z.id. split; [lia|done]. }
  apply (proj1 (Forall_forall _ _) Hnet) in Hd as [[seq ->]|[Hf|Hf]]; [|eapply Hdata; eauto..].
  intros Hr. unfold receive in Hr. unfold hdr in Hr.
  pose proof recvBufLen_eq. rewrite take_ge in Hr by (len; lia). rewrite decide_False in Hr by (len; unfold reliableHeaderSize; lia).
  rewrite (drop_app_length' (be_put 2 seq)) in Hr by len.
  replace (be_get (take 1 [z2b reliableFlagAck])) with reliableFlagAck in Hr by done.
  simpl in Hr. injection Hr as <- <-. by apply dir_inv_dst.
Qed.

Lemma concat_take_S (w : list bytes) k p :
  w !! k = Some p -> concat (take (S k) w) = concat (take k w) ++ p.
Proof. intros Hk. rewrite (take_S_r _ _ _ Hk), concat_app. simpl. by rewrite app_nil_r. Qed.

Lemma dir_inv_read src dst n l r nt w :
  dir_inv src dst -> short src -> rRead n (ep dst) = (Some (Ok l), r) ->
  dir_inv src (mkSide r nt w (rd dst ++ l)).
Proof.
  intros Hinv Hsh. pose proof Hinv as [Hfit Hseq Hun Hnet Hbuf (k & Hk & Hle & Hrd)].
  unfold rRead. destruct (readPending (ep dst)) as [|x pend] eqn:Hpd.
  - destruct (done (ep dst)); [done|].
    destruct (readBuf (ep dst) !! readSeq (ep dst)) as [data|] eqn:Hb; [|done].
    intros [= <- <-]. pose proof (Hbuf _ _ Hb) as [_ Hw]. rewrite Hk, Nat2Z.id in Hw.
    pose proof (lookup_lt_Some _ _ _ Hw) as Hlt. unfold short in Hsh.
    split; simpl; try done.
    + intros seq q Hq. apply lookup_delete_Some in Hq as [_ Hq]. by apply Hbuf.
    + exists (S k). split; [|split; [lia|]].
      { rewrite Hk. rewrite wrap_small; [lia|]. change (2 ^ 16) with 65536. lia. }
      rewrite (concat_take_S _ _ _ Hw), <- Hrd, app_nil_r, <- app_assoc. f_equal.
      case_decide; [by rewrite take_drop|]. rewrite app_nil_r. apply take_ge. lia.
  - intros [= <- <-]. split; simpl; try done. exists k. split_and!; try done.
    by rewrite <- app_assoc, take_drop.
Qed.

Lemma dir_inv_dst_run o src dst :
  dir_inv src dst -> enabled o src -> short src -> dir_inv src (side_run o dst).
Proof.
  intros Hinv Hen Hsh. unfold side_run. destruct o as [p now werr|n|d|now|]; simpl in *.
  - destruct werr; by apply dir_inv_dst.
  - destruct (rRead n (ep dst)) as [[[l|e]|] r] eqn:E; [by eapply dir_inv_read|..];
      unfold rRead in E; repeat case_match; simplify_eq; by apply dir_inv_dst.
  - destruct (receive d (ep dst)) as [r out] eqn:E. by eapply dir_inv_receive.
  - by apply dir_inv_dst.
  - by apply dir_inv_dst.
Qed.

Lemma short_run o s : short (side_run o s) -> short s.
Proof.
  unfold short, side_run. destruct (ep_run o (ep s)) as [[[r out] l] ws]. simpl.
  rewrite length_app. lia.
Qed.

Definition sys_inv (ab : side * side) : Prop :=
  short (fst ab) -> short (snd ab) ->
  dir_inv (fst ab) (snd ab) /\ dir_inv (snd ab) (fst ab).

Lemma sys_step_inv ab ab' : sys_inv ab -> sys_step ab ab' -> sys_inv ab'.
Proof.
  intros Hinv Hst Ha Hb. destruct Hst as [o a b Hen|o a b Hen]; simpl in *.
  - pose proof (short_run _ _ Ha). destruct (Hinv ltac:(done) ltac:(done)) as [Hab Hba].
    split; [by apply dir_inv_src_run|by apply dir_inv_dst_run].
  - pose proof (short_run _ _ Hb). destruct (Hinv ltac:(done) ltac:(done)) as [Hab Hba].
    split; [by apply dir_inv_dst_run|by apply dir_inv_src_run].
Qed.

Lemma sys_init_inv : sys_inv sys_init.
Proof.
  assert (H : dir_inv side_init side_init).
  { split; simpl; try done. exists O. split_and!; [done|lia|done]. }
  intros _ _. by split.
Qed.
End preservation.

(** ** Executable runs of the system *)

Definition enabledb (o : ep_op) (peer : side) : bool :=
  match o with
  | OpReceive d => bool_decide (d ∈ net peer)
  | OpWrite p _ _ => Z.of_nat (length p) <=? 65533
  | _ => true
  end.

(** [(true, o)] is the operation [o] of the left side. *)
Definition run_op (x : bool * ep_op) (ab : side * side) : option (side * side) :=
  let '(isLeft, o) := x in
  let '(a, b) := ab in
  if isLeft then (if enabledb o b then Some (side_run o a, b) else None)
  else (if enabledb o a then Some (a, side_run o b) else None).

Fixpoint run_sys (xs : list (bool * ep_op)) (ab : side * side) : option (side * side) :=
  match xs with
  | [] => Some ab
  | x :: xs => match run_op x ab with Some ab' => run_sys xs ab' | None => None end
  end.

Lemma enabledb_ok o peer : enabledb o peer = true -> enabled o peer.
Proof.
  destruct o; simpl; try done; intros Ho; [by apply Z.leb_le|by apply bool_decide_eq_true in Ho].
Qed.

Lemma run_sys_reach xs ab ab' : run_sys xs ab = Some ab' -> rtc sys_step ab ab'.
Proof.
  revert ab. induction xs as [|[l o] xs IH]; intros [a b]; simpl; [by intros [= <-]|].
  destruct l; destruct (enabledb o _) eqn:E; try done; intros Hr; (eapply rtc_l; [|by apply IH]);
    constructor; by apply enabledb_ok.
Qed.

(** ** Delivery of a reordered window *)

Definition data_frames (ws : list bytes) : list (Z * bytes) :=
  imap (fun i p => (Z.of_nat i, p)) ws.

Definition receive_all (fs : list (Z * bytes)) (r : reliableRTP) : reliableRTP :=
  foldl (fun r f => fst (receive (hdr (fst f) reliableFlagData ++ snd f) r)) r fs.

Fixpoint read_all (k n : nat) (r : reliableRTP) : bytes :=
  match k with
  | O => []
  | S k => match rRead n r with
           | (Some (Ok l), r') => l ++ read_all k n r'
           | _ => []
           end
  end.

Lemma receive_all_buf fs r :
  Forall (fun f => 0 <= fst f < 65536 /\ fits (snd f)) fs -> NoDup (fst <$> fs) ->
  (size (readBuf r) + length fs <= 256)%nat ->
  exists rb, receive_all fs r = mkRTP (writeSeq r) (unacked r) (readSeq r) rb (readPending r) (done r) /\
    rb = list_to_map fs ∪ readBuf r.
Proof.
  intros Hf Hnd. revert r. induction fs as [|[seq p] fs IH]; intros r Hsz.
  { exists (readBuf r). split; [by destruct r|]. simpl. by rewrite (left_id_L ∅ (∪)). }
  inversion Hf as [|? ? [Hs Hp] Hf']; subst. simpl in Hnd. apply NoDup_cons in Hnd as [Hnew Hnd].
  simpl in Hsz. cbn [receive_all foldl fst snd].
  rewrite receive_frame by done. cbn [reliableFlagData Z.eqb orb fst].
  rewrite decide_True by (unfold reliableWindowSize; lia).
  destruct (IH Hf' Hnd (mkRTP (writeSeq r) (unacked r) (readSeq r) (<[seq:=p]> (readBuf r))
    (readPending r) (done r))) as (rb & Heq & ->).
  { simpl. destruct (readBuf r !! seq) eqn:E.
    - rewrite map_size_insert_Some by done. lia.
    - rewrite map_size_insert_None by done. lia. }
  eexists. split; [exact Heq|]. simpl.
  rewrite <- insert_union_r by (by apply not_elem_of_list_to_map_1). by rewrite insert_union_l.
Qed.

Lemma read_all_buf ws k n r :
  readPending r = [] -> done r = false -> readSeq r = Z.of_nat k -> Z.of_nat (length ws) <= 65535 ->
  Forall (fun p => length p <= n)%nat ws ->
  (forall i p, (k <= i)%nat -> ws !! i = Some p -> readBuf r !! Z.of_nat i = Some p) ->
  read_all (length ws - k) n r = concat (drop k ws).
Proof.
  remember (length ws - k)%nat as m eqn:Hm. revert k r Hm.
  induction m as [|m IH]; intros k r Hm Hpd Hdn Hrs Hws Hn Hbuf.
  { rewrite drop_ge by lia. done. }
  destruct (lookup_lt_is_Some_2 ws k) as [p Hp]; [lia|].
  simpl. unfold rRead. rewrite Hpd, Hdn, Hrs, (Hbuf k p) by (done || lia).
  pose proof (Forall_lookup_1 _ _ _ _ Hn Hp) as Hlen. simpl in Hlen.
  rewrite (take_ge p) by done. rewrite decide_False by lia.
  rewrite (drop_S _ _ _ Hp). simpl. f_equal. apply IH; try done; simpl; try lia.
  - rewrite wrap_small; [lia|]. change (2 ^ 16) with 65536. lia.
  - intros i q Hi Hq. rewrite lookup_delete_ne by lia. apply Hbuf; [lia|done].
Qed.

(** ** Properties *)

(** C7: safety of the reliable layer.  In every interleaving of writers,
    readers, receive loops and retransmission ticks, over a network that may
    lose, repeat and reorder datagrams, and as long as neither side has made
    65536 writes, what each side has read is a prefix of what the other side
    has written. *)
Theorem reliable_prefix (a b : side) :
  rtc sys_step sys_init (a, b) -> short a -> short b ->
  rd b `prefix_of` concat (wr a) /\ rd a `prefix_of` concat (wr b).
Proof.
  intros Hr Ha Hb. destruct (rtc_invariant sys_step sys_inv sys_init (a, b) sys_step_inv sys_init_inv Hr Ha Hb)
    as [[_ _ _ _ _ (k & _ & _ & Hk)] [_ _ _ _ _ (k' & _ & _ & Hk')]].
  simpl in *. split.
  - exists (readPending (ep b) ++ concat (drop k (wr a))).
    by rewrite app_assoc, Hk, <- concat_app, take_drop.
  - exists (readPending (ep a) ++ concat (drop k' (wr b))).
    by rewrite app_assoc, Hk', <- concat_app, take_drop.
Qed.

Definition demo_trace : list (bool * ep_op) :=
  [(true, OpWrite [x41; x42] 0 None); (true, OpWrite [x43] 1 None);
   (false, OpReceive (hdr 1 0 ++ [x43])); (false, OpRead 9);
   (true, OpTick 200000000); (false, OpReceive (hdr 0 2 ++ [x41; x42])); (false, OpRead 1);
   (true, OpReceive (hdr 0 1)); (false, OpRead 9); (false, OpRead 9)].

Lemma reliable_prefix_witness :
  match run_sys demo_trace sys_init with
  | Some (a, b) => rd b = [x41; x42; x43] /\
      rd b `prefix_of` concat (wr a) /\ rd a `prefix_of` concat (wr b)
  | None => False
  end.
Proof.
  destruct (run_sys demo_trace sys_init) as [[a b]|] eqn:E; [|vm_compute in E; discriminate].
  split.
  - vm_compute in E. injection E as <- <-. reflexivity.
  - apply reliable_prefix.
    + by apply run_sys_reach in E.
    + vm_compute in E. injection E as <- <-. unfold short. simpl. lia.
    + vm_compute in E. injection E as <- <-. unfold short. simpl. lia.
Defined.

(** reordering.  Up to 256 frames delivered to a fresh endpoint in any
    order are read back in the order of the writes, complete. *)
Theorem reliable_reorders (ws : list bytes) (fs : list (Z * bytes)) (n : nat) :
  (length ws <= 256)%nat -> Forall fits ws -> Forall (fun p => length p <= n)%nat ws ->
  fs ≡ₚ data_frames ws ->
  read_all (length ws) n (receive_all fs newReliableRTP) = concat ws.
Proof.
  intros Hlen Hfit Hn Hperm.
  assert (Hkeys : NoDup (fst <$> data_frames ws)).
  { unfold data_frames. apply NoDup_alt. intros i j x. rewrite !list_lookup_fmap, !list_lookup_imap.
    destruct (ws !! i), (ws !! j); simpl; try done. intros [= <-] [= Heq]. lia. }
  assert (Hok : Forall (fun f => 0 <= fst f < 65536 /\ fits (snd f)) (data_frames ws)).
  { apply Forall_lookup. intros i [seq p]. unfold data_frames. rewrite list_lookup_imap.
    destruct (ws !! i) eqn:Hi; simpl; [|done]. intros [= <- <-]. simpl.
    pose proof (lookup_lt_Some _ _ _ Hi). split; [lia|]. by eapply (Forall_lookup_1 fits). }
  destruct (receive_all_buf fs newReliableRTP) as (rb & -> & ->).
  - by rewrite Hperm.
  - by rewrite Hperm.
  - rewrite Hperm. unfold data_frames. rewrite length_imap. simpl. rewrite map_size_empty. lia.
  - rewrite <- (Nat.sub_0_r (length ws)). rewrite (read_all_buf ws 0); simpl; try done; try lia.
    intros i p _ Hi. rewrite (right_id_L ∅ (∪)). apply elem_of_list_to_map_1; [by rewrite Hperm|].
    rewrite Hperm. apply list_elem_of_lookup. exists i. unfold data_frames.
    by rewrite list_lookup_imap, Hi.
Qed.

Lemma reliable_reorders_witness :
  read_all 3 4 (receive_all [(2, [x43]); (0, [x41; x41]); (1, [])] newReliableRTP)
    = concat [[x41; x41]; []; [x43]].
Proof.
  apply (reliable_reorders [[x41; x41]; []; [x43]]).
  - simpl. lia.
  - repeat constructor; unfold fits; simpl; lia.
  - repeat constructor; simpl; lia.
  - unfold data_frames. simpl. apply Permutation_cons_app with (l1 := [_; _]). reflexivity.
Defined.

(** The side can make no more progress on its own: what the reader waits for
    is not there and the peer keeps nothing to send again. *)
Definition stuck (a b : side) (i : nat) : Prop :=
  unacked (ep a) = ∅ /\ readSeq (ep b) = Z.of_nat i /\ readPending (ep b) = [] /\
  readBuf (ep b) !! Z.of_nat i = None /\ (i < length (wr a))%nat.

Definition stuckb (i nw : nat) (out : bytes) (ab : side * side) : bool :=
  let '(a, b) := ab in
  bool_decide (unacked (ep a) = ∅) && bool_decide (readSeq (ep b) = Z.of_nat i) &&
  bool_decide (readPending (ep b) = []) && bool_decide (readBuf (ep b) !! Z.of_nat i = None) &&
  bool_decide (length (wr a) = nw) && bool_decide (rd b = out) && negb (done (ep b)) &&
  bool_decide (i < nw)%nat.

Lemma stuck_run xs i nw out :
  from_option (stuckb i nw out) false (run_sys xs sys_init) = true ->
  exists a b, rtc sys_step sys_init (a, b) /\ stuck a b i /\
    rd b = out /\ length (wr a) = nw /\
    fst (rRead 100 (ep b)) = None /\ (forall now, snd (retransmit now (ep a)) = []).
Proof.
  destruct (run_sys xs sys_init) as [[a b]|] eqn:E; simpl; [|done].
  rewrite !andb_true_iff, !bool_decide_eq_true, negb_true_iff.
  intros [[[[[[[H1 H2] H3] H4] H5] H6] H7] H8]. exists a, b.
  split_and!; try done.
  - by apply run_sys_reach in E.
  - unfold stuck. split_and!; try done. by rewrite H5.
  - unfold rRead. by rewrite H3, H7, H2, H4.
  - intros now. unfold retransmit. by rewrite H1.
Qed.

Definition seqs (lo n : nat) : list Z := Z.of_nat <$> seq lo n.
Definition one (i : Z) : bytes := [z2b i].

(** 257 writes arrive with the first one last; every acknowledgement arrives. *)
Definition late_first_trace : list (bool * ep_op) :=
  ((fun i => (true, OpWrite (one i) 0 None)) <$> seqs 0 257) ++
  ((fun i => (false, OpReceive (hdr i 0 ++ one i))) <$> seqs 1 256) ++
  [(false, OpReceive (hdr 0 0 ++ one 0))] ++
  ((fun i => (true, OpReceive (hdr i 1))) <$> seqs 0 257).

(** the receiver acknowledges a frame that it throws away because its
    window is full, so the frame is lost: there is a run, without any datagram
    lost, in which 257 writes were all acknowledged, nothing is left to
    retransmit, and the reader waits for ever for the first write. *)
Theorem reliable_window_loss :
  exists a b, rtc sys_step sys_init (a, b) /\ stuck a b 0 /\ 
    rd b = [] /\ length (wr a) = 257%nat /\ 
    fst (rRead 100 (ep b)) = None /\ (forall now, snd (retransmit now (ep a)) = []).
Proof. apply (stuck_run late_first_trace 0 257 []). vm_compute. reflexivity. Qed.

(** 256 writes are delivered and read, then delivered again because their
    acknowledgements are late; one more write follows. *)
Definition stale_trace : list (bool * ep_op) :=
  ((fun i => (true, OpWrite (one i) 0 None)) <$> seqs 0 256) ++
  ((fun i => (false, OpReceive (hdr i 0 ++ one i))) <$> seqs 0 256) ++
  ((fun _ => (false, OpRead 8)) <$> seqs 0 256) ++
  ((fun i => (false, OpReceive (hdr i 0 ++ one i))) <$> seqs 0 256) ++
  [(true, OpWrite (one 0) 0 None); (false, OpReceive (hdr 256 0 ++ one 0))] ++
  ((fun i => (true, OpReceive (hdr i 1))) <$> seqs 0 257).

(** duplicates of frames that were already read are put back in the
    window, where nothing removes them: after 256 repeated datagrams every new
    frame is thrown away and acknowledged, and the reader waits for ever. *)
Theorem reliable_stale_loss :
  exists a b, rtc sys_step sys_init (a, b) /\ stuck a b 256 /\ 
    rd b = concat (one <$> seqs 0 256) /\ length (wr a) = 257%nat /\ 
    fst (rRead 100 (ep b)) = None /\ (forall now, snd (retransmit now (ep a)) = []).
Proof.
  apply (stuck_run stale_trace 256 257 (concat (one <$> seqs 0 256))). vm_compute. reflexivity.
Qed.

End Reliable.
