(* ===== verification/DnsCache.v ===== *)
(** * The DNS response cache of the tunnel ([golib/tunnel/tun.go])

    The parser of response lifetimes ([skipDNSName], [parseDNSTTL],
    [isDNSNXDomain]) and the LRU cache ([get], [put]).

    Byte accesses are checked: [None] is an index or a slice out of range,
    which panics in Go, and also a loop that runs out of fuel; the theorems
    show that neither happens.  Times and durations are nanoseconds.

    The cache keeps a map from keys to entries and a list of the same entries
    in order of use.  An entry is shared by the two and found in the list
    through its own list element; since an entry never changes its key, the
    model keeps the keys in the list. *)

From S2P Require Import Prelude.

Open Scope Z_scope.

Module DnsCache.

Definition second : Z := 1000000000.
Definition dnsCacheMaxTTL : Z := 300 * second.
Definition dnsCacheNXDomainTTL : Z := 30 * second.
Definition dnsCacheMaxEntries : nat := 512.
Definition dnsRcodeNXDOMAIN : Z := 3.

(** ** Checked accesses *)

Definition at_ (l : bytes) (i : Z) : option Z :=
  if i <? 0 then None else b2z <$> l !! Z.to_nat i.

Definition cut (l : bytes) (lo hi : Z) : option bytes :=
  if (0 <=? lo) && (lo <=? hi) && (hi <=? Z.of_nat (length l))
  then Some (slice (Z.to_nat lo) (Z.to_nat hi) l) else None.

Definition uint_at (l : bytes) (lo hi : Z) : option Z := be_get <$> cut l lo hi.

(** ** Names and lifetimes *)

Fixpoint skip_loop (fuel : nat) (data : bytes) (offset : Z) : option Z :=
  match fuel with
  | O => None
  | S fuel =>
      if Z.of_nat (length data) <=? offset then Some (-1)
      else match at_ data offset with
           | None => None
           | Some labelLen =>
               if labelLen =? 0 then Some (offset + 1)
               else if Z.land labelLen 192 =? 192 then
                 if Z.of_nat (length data) <=? offset + 1 then Some (-1) else Some (offset + 2)
               else if negb (Z.land labelLen 192 =? 0) then Some (-1)
               else skip_loop fuel data (offset + (1 + labelLen))
           end
  end.

(** Every turn advances the offset, which ends at the length of the data. *)
Definition skipDNSName (data : bytes) (offset : Z) : option Z :=
  skip_loop (S (Z.to_nat (Z.of_nat (length data) - offset))) data offset.

(** The loop over the question section: the offset after it, or [inr] of the
    value that the function returns early. *)
Fixpoint questions_loop (n : nat) (resp : bytes) (offset : Z) : option (Z + Z) :=
  match n with
  | O => Some (inl offset)
  | S n =>
      match skipDNSName resp offset with
      | None => None
      | Some offset =>
          if offset <? 0 then Some (inr dnsCacheMaxTTL)
          else let offset := offset + 4 in
               if Z.of_nat (length resp) <? offset then Some (inr dnsCacheMaxTTL)
               else questions_loop n resp offset
      end
  end.

(** The loop over answers and authorities: the least lifetime, and whether a
    record was seen. *)
Fixpoint rrs_loop (n : nat) (resp : bytes) (offset minTTL : Z) (found : bool)
    : option (Z * bool) :=
  match n with
  | O => Some (minTTL, found)
  | S n =>
      match skipDNSName resp offset with
      | None => None
      | Some offset =>
          if (offset <? 0) || (Z.of_nat (length resp) <? offset + 10) then Some (minTTL, found)
          else
            match uint_at resp (offset + 4) (offset + 8), uint_at resp (offset + 8) (offset + 10) with
            | Some ttlSec, Some rdLen =>
                let offset := offset + (10 + rdLen) in
                if Z.of_nat (length resp) <? offset then Some (minTTL, found)
                else
                  let ttl := ttlSec * second in
                  if ttl <? minTTL then rrs_loop n resp offset ttl true
                  else rrs_loop n resp offset minTTL true
            | _, _ => None
            end
      end
  end.

Definition parseDNSTTL (resp : bytes) : option Z :=
  if Z.of_nat (length resp) <? 12 then Some dnsCacheMaxTTL
  else
    match uint_at resp 4 6, uint_at resp 6 8, uint_at resp 8 10 with
    | Some qdcount, Some ancount, Some nscount =>
        match questions_loop (Z.to_nat qdcount) resp 12 with
        | None => None
        | Some (inr ttl) => Some ttl
        | Some (inl offset) =>
            match rrs_loop (Z.to_nat (ancount + nscount)) resp offset dnsCacheMaxTTL false with
            | None => None
            | Some (minTTL, found) =>
                if negb found || (minTTL <=? 0) then Some dnsCacheMaxTTL
                else if dnsCacheMaxTTL <? minTTL then Some dnsCacheMaxTTL
                else Some minTTL
            end
        end
    | _, _, _ => None
    end.

Definition isDNSNXDomain (resp : bytes) : option bool :=
  if Z.of_nat (length resp) <? 4 then Some false
  else (fun b => Z.land b 15 =? dnsRcodeNXDOMAIN) <$> at_ resp 3.

(** ** The cache *)

Record dnsCacheEntry := mkEntry { response : bytes; expiry : Z; ttl : Z }.

Record dnsCache := mkCache {
  entries : gmap bytes dnsCacheEntry;
  lru : list bytes                  (* front is the most recently used *)
}.

Definition newDNSCache : dnsCache := mkCache ∅ [].

Definition list_remove_key (k : bytes) (l : list bytes) : list bytes := filter (fun x => x <> k) l.
Definition move_to_front (k : bytes) (l : list bytes) : list bytes := k :: list_remove_key k l.

(** [get(query)] at time [now]: the patched response, if any, with the
    prefetch flag.  A lifetime is a whole number of seconds, for which the
    floating-point product [float64(ttl)*0.10] is exact. *)
Definition get (query : bytes) (now : Z) (c : dnsCache) : option (bytes * bool) * dnsCache :=
  if Z.of_nat (length query) <? 12 then (None, c)
  else
    let key := drop 2 query in
    match entries c !! key with
    | None => (None, c)
    | Some entry =>
        if expiry entry <? now then
          (None, mkCache (delete key (entries c)) (list_remove_key key (lru c)))
        else
          let resp := splice 0 (take 2 query) (response entry) in
          let remaining := expiry entry - now in
          let shouldPrefetch := (0 <? ttl entry) && (10 * remaining <? ttl entry) in
          (Some (resp, shouldPrefetch), mkCache (entries c) (move_to_front key (lru c)))
    end.

(** The eviction loop; every turn shortens the list. *)
Fixpoint evict_loop (fuel : nat) (c : dnsCache) : dnsCache :=
  match fuel with
  | O => c
  | S fuel =>
      if decide (dnsCacheMaxEntries <= length (lru c))%nat then
        match last (lru c) with
        | None => c
        | Some k => evict_loop fuel (mkCache (delete k (entries c)) (removelast (lru c)))
        end
      else c
  end.

Definition evict (c : dnsCache) : dnsCache := evict_loop (length (lru c)) c.

(** [put(query, response)] at time [now]; [None] would be a panic of the
    parser. *)
Definition put (query resp : bytes) (now : Z) (c : dnsCache) : option dnsCache :=
  if (Z.of_nat (length query) <? 12) || (Z.of_nat (length resp) <? 12) then Some c
  else
    let key := drop 2 query in
    match parseDNSTTL resp, isDNSNXDomain resp with
    | Some ttl, Some nx =>
        let ttl := if nx && (dnsCacheNXDomainTTL <? ttl) then dnsCacheNXDomainTTL else ttl in
        match entries c !! key with
        | Some _ => Some (mkCache (<[key := mkEntry resp (now + ttl) ttl]> (entries c))
                            (move_to_front key (lru c)))
        | None =>
            let c := evict c in
            Some (mkCache (<[key := mkEntry resp (now + ttl) ttl]> (entries c)) (key :: lru c))
        end
    | _, _ => None
    end.

(** ** The parser is total *)

Lemma at_in (l : bytes) i : 0 <= i < Z.of_nat (length l) ->
  exists b, l !! Z.to_nat i = Some b /\ at_ l i = Some (b2z b).
Proof.
  intros Hi. destruct (lookup_lt_is_Some_2 l (Z.to_nat i)) as [b Hb]; [lia|].
  exists b. split; [done|]. unfold at_. rewrite (proj2 (Z.ltb_ge _ _)) by lia. by rewrite Hb.
Qed.

Lemma uint_at_in (l : bytes) lo hi : 0 <= lo <= hi -> hi <= Z.of_nat (length l) ->
  exists z, uint_at l lo hi = Some z /\ 0 <= z < 2 ^ (8 * (hi - lo)).
Proof.
  intros H1 H2. unfold uint_at, cut.
  rewrite (proj2 (Z.leb_le 0 lo)), (proj2 (Z.leb_le lo hi)), (proj2 (Z.leb_le hi _)) by lia. simpl.
  eexists. split; [done|]. pose proof (be_get_range (slice (Z.to_nat lo) (Z.to_nat hi) l)) as Hr.
  rewrite length_slice in Hr by lia.
  by replace (8 * Z.of_nat (Z.to_nat hi - Z.to_nat lo)) with (8 * (hi - lo)) in Hr by lia.
Qed.

Lemma skip_loop_total fuel data offset :
  0 <= offset -> (Z.to_nat (Z.of_nat (length data) - offset) < fuel)%nat ->
  exists r, skip_loop fuel data offset = Some r /\
    (r = -1 \/ offset < r <= Z.of_nat (length data)).
Proof.
  revert offset. induction fuel as [|fuel IH]; intros offset Ho Hf; [lia|]. simpl.
  destruct (Z.leb_spec (Z.of_nat (length data)) offset); [eauto|].
  destruct (at_in data offset) as (b & _ & ->); [lia|].
  pose proof (b2z_range b).
  destruct (Z.eqb_spec (b2z b) 0); [eexists; split; [reflexivity|lia]|].
  destruct (Z.land (b2z b) 192 =? 192).
  { destruct (Z.leb_spec (Z.of_nat (length data)) (offset + 1));
      (eexists; split; [reflexivity|lia]). }
  destruct (negb _); [eauto|].
  destruct (IH (offset + (1 + b2z b))) as (r & -> & Hr); [lia|lia|].
  eexists. split; [reflexivity|]. lia.
Qed.

Lemma skipDNSName_total data offset :
  0 <= offset ->
  exists r, skipDNSName data offset = Some r /\ (r = -1 \/ offset < r <= Z.of_nat (length data)).
Proof. intros. apply skip_loop_total; lia. Qed.

Lemma questions_loop_total n resp offset :
  0 <= offset <= Z.of_nat (length resp) ->
  exists r, questions_loop n resp offset = Some r /\
    match r with inl o => 0 <= o <= Z.of_nat (length resp) | inr t => t = dnsCacheMaxTTL end.
Proof.
  revert offset. induction n as [|n IH]; intros offset Ho; simpl; [eauto|].
  destruct (skipDNSName_total resp offset) as (r & -> & Hr); [lia|].
  case_zb; [eexists; split; done|eexists; split; done|]. apply IH. lia.
Qed.

(** What the record loop keeps: a whole number of seconds below the start. *)
Definition ttl_ok (m0 m : Z) : Prop := 0 <= m <= m0 /\ exists k, m = k * second.

Lemma rrs_loop_total n resp offset m0 m found :
  0 <= offset <= Z.of_nat (length resp) -> ttl_ok m0 m ->
  exists m' f, rrs_loop n resp offset m found = Some (m', f) /\ ttl_ok m0 m'.
Proof.
  revert offset m found. induction n as [|n IH]; intros offset m found Ho Hm; simpl; [eauto|].
  destruct (skipDNSName_total resp offset) as (r & -> & Hr); [lia|].
  destruct (_ || _) eqn:Hc; [eauto|]. apply orb_false_iff in Hc as [Hc1%Z.ltb_ge Hc2%Z.ltb_ge].
  destruct (uint_at_in resp (r + 4) (r + 8)) as (t & -> & Ht); [lia|lia|].
  destruct (uint_at_in resp (r + 8) (r + 10)) as (l & -> & Hl); [lia|lia|].
  destruct (Z.ltb_spec (Z.of_nat (length resp)) (r + (10 + l))); [eauto|].
  destruct (Z.ltb_spec (t * second) m); apply IH; try lia; try done.
  unfold ttl_ok, second in *. split; [lia|eauto].
Qed.

Lemma parseDNSTTL_total resp :
  exists t, parseDNSTTL resp = Some t /\ second <= t <= dnsCacheMaxTTL.
Proof.
  unfold parseDNSTTL. assert (Hmax : second <= dnsCacheMaxTTL <= dnsCacheMaxTTL) by done.
  destruct (Z.ltb_spec (Z.of_nat (length resp)) 12); [eauto|].
  destruct (uint_at_in resp 4 6) as (q & -> & _); [lia|lia|].
  destruct (uint_at_in resp 6 8) as (a & -> & _); [lia|lia|].
  destruct (uint_at_in resp 8 10) as (n & -> & _); [lia|lia|].
  destruct (questions_loop_total (Z.to_nat q) resp 12) as (r & -> & Hr); [lia|].
  destruct r as [off|t]; [|subst; eauto].
  destruct (rrs_loop_total (Z.to_nat (a + n)) resp off dnsCacheMaxTTL dnsCacheMaxTTL false)
    as (m & f & -> & Hm & k & Hk); [done|split; [done|by exists 300]|].
  destruct (negb f || (m <=? 0)) eqn:Hc; [eauto|].
  apply orb_false_iff in Hc as [_ Hc%Z.leb_gt]. case_zb; [eauto|].
  eexists. split; [done|]. unfold second in *. lia.
Qed.

Lemma isDNSNXDomain_total resp : exists b, isDNSNXDomain resp = Some b.
Proof.
  unfold isDNSNXDomain. destruct (Z.ltb_spec (Z.of_nat (length resp)) 4); [eauto|].
  destruct (at_in resp 3) as (b & _ & ->); [lia|]. simpl. eauto.
Qed.

(** ** Messages of RFC 1035 *)

Inductive name_end := Root | Pointer (hi lo : byte).
Record name := mkName { labels : list bytes; nend : name_end }.

Definition label_wf (l : bytes) : Prop := 1 <= Z.of_nat (length l) <= 63.
Definition name_wf (n : name) : Prop :=
  Forall label_wf (labels n) /\
  match nend n with Root => True | Pointer hi _ => Z.land (b2z hi) 192 = 192 end.

Definition enc_label (l : bytes) : bytes := z2b (Z.of_nat (length l)) :: l.
Definition enc_end (e : name_end) : bytes :=
  match e with Root => [x00] | Pointer hi lo => [hi; lo] end.
Definition enc_name (n : name) : bytes := concat (enc_label <$> labels n) ++ enc_end (nend n).

Record rr := mkRR { rr_name : name; rr_tc : Z (* TYPE and CLASS *); rr_ttl : Z; rr_data : bytes }.
Definition rr_wf (r : rr) : Prop :=
  name_wf (rr_name r) /\ 0 <= rr_ttl r < 2 ^ 32 /\ Z.of_nat (length (rr_data r)) < 65536.
Definition enc_rr (r : rr) : bytes :=
  enc_name (rr_name r) ++ be_put 4 (rr_tc r) ++ be_put 4 (rr_ttl r) ++
  be_put 2 (Z.of_nat (length (rr_data r))) ++ rr_data r.

Definition enc_question (q : name * Z) : bytes := enc_name (fst q) ++ be_put 4 (snd q).

Record message := mkMsg {
  msg_id : Z; msg_flags : Z; questions : list (name * Z);
  answers : list rr; authorities : list rr; msg_arcount : Z; additional : bytes
}.

Definition msg_wf (m : message) : Prop :=
  Forall (fun q => name_wf (fst q)) (questions m) /\
  Forall rr_wf (answers m ++ authorities m) /\
  Z.of_nat (length (questions m)) < 65536 /\
  Z.of_nat (length (answers m)) < 65536 /\ Z.of_nat (length (authorities m)) < 65536.

Definition enc_header (m : message) : bytes :=
  be_put 2 (msg_id m) ++ be_put 2 (msg_flags m) ++ be_put 2 (Z.of_nat (length (questions m))) ++
  be_put 2 (Z.of_nat (length (answers m))) ++ be_put 2 (Z.of_nat (length (authorities m))) ++
  be_put 2 (msg_arcount m).

Definition encode (m : message) : bytes :=
  enc_header m ++ concat (enc_question <$> questions m) ++
  concat (enc_rr <$> answers m ++ authorities m) ++ additional m.

(** The least lifetime of answers and authorities, in seconds, at most 300. *)
Definition min_ttl (m : message) : Z :=
  foldl (fun acc r => Z.min acc (rr_ttl r)) 300 (answers m ++ authorities m).

(** ** The parser on messages *)

Lemma at_app (pre rest : bytes) (b : byte) :
  at_ (pre ++ b :: rest) (Z.of_nat (length pre)) = Some (b2z b).
Proof.
  unfold at_. rewrite (proj2 (Z.ltb_ge _ _)) by lia.
  rewrite Nat2Z.id, lookup_app_r, Nat.sub_diag by lia. done.
Qed.

Lemma uint_at_app (pre mid rest : bytes) lo hi :
  lo = Z.of_nat (length pre) -> hi = lo + Z.of_nat (length mid) ->
  uint_at (pre ++ mid ++ rest) lo hi = Some (be_get mid).
Proof.
  intros -> ->. unfold uint_at, cut.
  rewrite (proj2 (Z.leb_le _ _)), (proj2 (Z.leb_le _ _)), (proj2 (Z.leb_le _ _)) by (len; lia).
  simpl. unfold slice. rewrite Nat2Z.id, drop_app_length.
  by rewrite take_app_length' by lia.
Qed.

Lemma land_small_label z : 0 <= z <= 63 -> Z.land z 192 = 0.
Proof.
  intros Hz. assert (Hall : forallb (fun n => Z.land (Z.of_nat n) 192 =? 0) (seq 0 64) = true) by done.
  rewrite forallb_forall in Hall. specialize (Hall (Z.to_nat z)).
  rewrite Z2Nat.id in Hall by lia. apply Z.eqb_eq, Hall, in_seq. lia.
Qed.

Lemma skip_loop_name fuel pre n rest :
  name_wf n -> (length (enc_name n) < fuel)%nat ->
  skip_loop fuel (pre ++ enc_name n ++ rest) (Z.of_nat (length pre)) =
    Some (Z.of_nat (length pre) + Z.of_nat (length (enc_name n))).
Proof.
  destruct n as [ls e]. unfold name_wf, enc_name. simpl. intros [Hls He]. revert fuel pre.
  induction Hls as [|l ls Hl Hls IH]; intros fuel pre Hf; destruct fuel as [|fuel]; try lia;
    cbn [skip_loop].
  - rewrite (proj2 (Z.leb_gt _ _)) by (destruct e; len; lia).
    destruct e as [|hi lo]; cbn [fmap list_fmap concat app enc_end]; rewrite at_app; [done|].
    rewrite He. destruct (Z.eqb_spec (b2z hi) 0) as [E|E]; [by rewrite E in He|].
    change (192 =? 192) with true. cbn iota.
    rewrite (proj2 (Z.leb_gt _ _)) by (len; lia). done.
  - unfold label_wf in Hl. set (X := (concat (enc_label <$> ls) ++ enc_end e) ++ rest).
    assert (HD : pre ++ (concat (enc_label <$> l :: ls) ++ enc_end e) ++ rest = (pre ++ enc_label l) ++ X).
    { unfold X. rewrite fmap_cons. cbn [concat]. by rewrite <- !app_assoc. }
    assert (HD' : (pre ++ enc_label l) ++ X = pre ++ z2b (Z.of_nat (length l)) :: (l ++ X)).
    { by rewrite <- app_assoc. }
    rewrite HD. rewrite (proj2 (Z.leb_gt _ _)) by (unfold enc_label; len; lia).
    rewrite HD' at 1. rewrite at_app, b2z_z2b_small by lia.
    destruct (Z.eqb_spec (Z.of_nat (length l)) 0); [lia|].
    rewrite land_small_label by lia. change (0 =? 192) with false.
    change (negb (0 =? 0)) with false. cbn iota.
    replace (Z.of_nat (length pre) + (1 + Z.of_nat (length l)))
      with (Z.of_nat (length (pre ++ enc_label l))) by (unfold enc_label; len).
    rewrite fmap_cons in Hf |- *. cbn [concat] in Hf |- *. unfold X.
    rewrite IH by (unfold enc_label in *; len; lia). f_equal. unfold enc_label. len.
Qed.

Lemma skipDNSName_name pre n rest :
  name_wf n ->
  skipDNSName (pre ++ enc_name n ++ rest) (Z.of_nat (length pre)) =
    Some (Z.of_nat (length (pre ++ enc_name n))).
Proof.
  intros Hn. unfold skipDNSName. rewrite skip_loop_name by (try done; len; lia). f_equal. len.
Qed.

Lemma questions_loop_msg qs pre rest :
  Forall (fun q => name_wf (fst q)) qs ->
  questions_loop (length qs) (pre ++ concat (enc_question <$> qs) ++ rest) (Z.of_nat (length pre)) =
    Some (inl (Z.of_nat (length (pre ++ concat (enc_question <$> qs))))).
Proof.
  intros Hqs. revert pre. induction Hqs as [|[n tc] qs Hn Hqs IH]; intros pre.
  { simpl. by rewrite app_nil_r. }
  simpl in Hn. rewrite fmap_cons. cbn [questions_loop length concat].
  set (X := concat (enc_question <$> qs) ++ rest).
  assert (HD : pre ++ (enc_question (n, tc) ++ concat (enc_question <$> qs)) ++ rest
    = pre ++ enc_name n ++ be_put 4 tc ++ X) by (unfold X, enc_question at 1; by rewrite <- !app_assoc).
  assert (HD' : pre ++ enc_name n ++ be_put 4 tc ++ X = (pre ++ enc_question (n, tc)) ++ X).
  { unfold enc_question. by rewrite <- !app_assoc. }
  rewrite HD, skipDNSName_name, HD' by done.
  replace (Z.of_nat (length (pre ++ enc_name n)) + 4)
    with (Z.of_nat (length (pre ++ enc_question (n, tc)))) by (unfold enc_question; cbn [fst snd]; len).
  rewrite (proj2 (Z.ltb_ge _ 0)) by lia. rewrite (proj2 (Z.ltb_ge _ _)) by len.
  unfold X. rewrite IH. by rewrite <- app_assoc.
Qed.

Lemma rrs_loop_msg rs pre rest k found :
  Forall rr_wf rs ->
  rrs_loop (length rs) (pre ++ concat (enc_rr <$> rs) ++ rest) (Z.of_nat (length pre)) (k * second) found =
    Some (foldl (fun acc r => Z.min acc (rr_ttl r)) k rs * second,
          if decide (rs = []) then found else true).
Proof.
  intros Hrs. revert pre k found. induction Hrs as [|r rs Hr Hrs IH]; intros pre k found; [done|].
  destruct r as [n tc t d]. destruct Hr as (Hn & Ht & Hd). simpl in Hn, Ht, Hd.
  set (tail := concat (enc_rr <$> rs) ++ rest).
  assert (Hmsg : pre ++ concat (enc_rr <$> mkRR n tc t d :: rs) ++ rest
    = pre ++ enc_name n ++ be_put 4 tc ++ be_put 4 t ++ be_put 2 (Z.of_nat (length d)) ++ d ++ tail).
  { unfold tail. simpl. unfold enc_rr at 1. simpl. by rewrite <- !app_assoc. }
  rewrite Hmsg. cbn [rrs_loop length]. rewrite skipDNSName_name by done.
  rewrite (proj2 (Z.ltb_ge _ 0)) by lia. rewrite (proj2 (Z.ltb_ge _ _)) by len. cbn [orb].
  rewrite !(app_assoc pre (enc_name n)), (app_assoc _ (be_put 4 tc)).
  rewrite uint_at_app by len. rewrite be_get_put_small by (change (8 * Z.of_nat 4) with 32; lia).
  rewrite (app_assoc _ (be_put 4 t)).
  rewrite uint_at_app by len. rewrite be_get_put_small by (change (2 ^ (8 * Z.of_nat 2)) with 65536; lia).
  rewrite (proj2 (Z.ltb_ge _ _)) by len.
  set (pre' := pre ++ enc_rr (mkRR n tc t d)).
  assert (Hpre' : ((((pre ++ enc_name n) ++ be_put 4 tc) ++ be_put 4 t) ++
    be_put 2 (Z.of_nat (length d)) ++ d ++ tail) = pre' ++ concat (enc_rr <$> rs) ++ rest).
  { unfold pre', enc_rr at 1, tail. simpl. by rewrite <- !app_assoc. }
  assert (Hoff : Z.of_nat (length (pre ++ enc_name n)) + (10 + Z.of_nat (length d)) = Z.of_nat (length pre')).
  { unfold pre', enc_rr. simpl rr_name. simpl rr_tc. simpl rr_ttl. simpl rr_data. len. }
  rewrite Hpre', Hoff. cbn [foldl rr_ttl].
  destruct (Z.ltb_spec (t * second) (k * second)) as [Hlt|Hge]; rewrite IH; unfold second in *.
  - rewrite (Z.min_r k t) by lia. by case_decide.
  - rewrite (Z.min_l k t) by lia. by case_decide.
Qed.

Lemma parseDNSTTL_msg m :
  msg_wf m ->
  parseDNSTTL (encode m) =
    Some ((if min_ttl m =? 0 then 300 else min_ttl m) * second).
Proof.
  intros (Hqs & Hrs & Hq & Ha & Hn). unfold parseDNSTTL.
  assert (Hh : length (enc_header m) = 12%nat) by (unfold enc_header; len).
  unfold encode.
  rewrite (proj2 (Z.ltb_ge _ _)) by (rewrite length_app; lia).
  assert (H2 : forall x, 0 <= x < 65536 -> be_get (be_put 2 x) = x).
  { intros. apply be_get_put_small. by change (2 ^ (8 * Z.of_nat 2)) with 65536. }
  set (body := concat (enc_question <$> questions m) ++ _).
  assert (Hu : uint_at (enc_header m ++ body) 4 6 = Some (Z.of_nat (length (questions m))) /\
    uint_at (enc_header m ++ body) 6 8 = Some (Z.of_nat (length (answers m))) /\
    uint_at (enc_header m ++ body) 8 10 = Some (Z.of_nat (length (authorities m)))).
  { unfold enc_header. rewrite <- (app_assoc (be_put 2 (msg_id m))), <- (app_assoc (be_put 2 (msg_flags m))).
    rewrite (app_assoc (be_put 2 (msg_id m))). rewrite <- !(app_assoc (be_put 2 (Z.of_nat _))).
    split_and!.
    - rewrite uint_at_app by len. by rewrite H2 by lia.
    - rewrite (app_assoc _ (be_put 2 (Z.of_nat (length (questions m))))).
      rewrite uint_at_app by len. by rewrite H2 by lia.
    - rewrite (app_assoc _ (be_put 2 (Z.of_nat (length (questions m))))).
      rewrite (app_assoc _ (be_put 2 (Z.of_nat (length (answers m))))).
      rewrite uint_at_app by len. by rewrite H2 by lia. }
  destruct Hu as (-> & -> & ->). unfold body.
  rewrite Nat2Z.id. change 12 with (Z.of_nat 12). rewrite <- Hh, questions_loop_msg by done.
  rewrite (app_assoc (enc_header m)).
  replace (Z.to_nat (Z.of_nat (length (answers m)) + Z.of_nat (length (authorities m))))
    with (length (answers m ++ authorities m)) by (rewrite length_app; lia).
  unfold dnsCacheMaxTTL at 1. rewrite rrs_loop_msg by done. fold (min_ttl m).
  assert (Hmin : 0 <= min_ttl m <= 300).
  { unfold min_ttl. clear -Hrs. assert (H : forall k, 0 <= k <= 300 ->
      0 <= foldl (fun acc r => Z.min acc (rr_ttl r)) k (answers m ++ authorities m) <= 300);
      [|apply H; lia].
    induction Hrs as [|r rs (_ & Hr & _) _ IH]; intros k Hk; [done|]. apply IH. lia. }
  unfold dnsCacheMaxTTL, second. case_decide as Hnil.
  - unfold min_ttl in *. rewrite Hnil in *. done.
  - simpl negb. cbn [orb]. case_zb; try lia; done.
Qed.

(** ** The cache *)

Definition entry_wf (e : dnsCacheEntry) : Prop :=
  12 <= Z.of_nat (length (response e)) /\ second <= ttl e <= dnsCacheMaxTTL.

(** The list and the map hold the same keys, each once. *)
Record cache_wf (c : dnsCache) : Prop := {
  cw_nodup : NoDup (lru c);
  cw_keys : forall k, k ∈ lru c <-> is_Some (entries c !! k);
  cw_entries : map_Forall (fun _ => entry_wf) (entries c)
}.

Definition bounded (c : dnsCache) : Prop := (length (lru c) <= dnsCacheMaxEntries)%nat.

Section cache.
Implicit Types (c : dnsCache) (k : bytes) (l : list bytes).

Lemma elem_of_remove_key k l x : x ∈ list_remove_key k l <-> x <> k /\ x ∈ l.
Proof. unfold list_remove_key. by rewrite list_elem_of_filter. Qed.

Lemma length_remove_key k l : k ∈ l -> (length (list_remove_key k l) < length l)%nat.
Proof.
  intros Hk. unfold list_remove_key. apply length_filter_lt with k; auto.
Qed.

Lemma NoDup_move_to_front k l : NoDup l -> NoDup (move_to_front k l).
Proof.
  intros H. apply NoDup_cons. split; [by rewrite elem_of_remove_key; intros []|].
  by apply NoDup_filter.
Qed.

Lemma elem_of_move_to_front k l x : x ∈ move_to_front k l <-> x = k \/ x ∈ l.
Proof.
  unfold move_to_front. rewrite elem_of_cons, elem_of_remove_key.
  destruct (decide (x = k)); tauto.
Qed.

(** The cache without one key. *)
Lemma wf_remove c k :
  cache_wf c -> cache_wf (mkCache (delete k (entries c)) (list_remove_key k (lru c))).
Proof.
  intros [Hn Hk He]. split; simpl.
  - by apply NoDup_filter.
  - intros x. rewrite elem_of_remove_key, Hk, lookup_delete_is_Some. intuition congruence.
  - by apply map_Forall_delete.
Qed.

Lemma remove_key_snoc k l : (k ∉ l) -> list_remove_key k (l ++ [k]) = l.
Proof.
  intros Hk. unfold list_remove_key. rewrite filter_app.
  rewrite filter_cons_False, filter_nil, app_nil_r by auto.
  induction l as [|x l IH]; [done|]. apply not_elem_of_cons in Hk as [Hx Hk].
  rewrite filter_cons_True by auto. by rewrite IH.
Qed.

Lemma evict_loop_spec fuel c :
  cache_wf c -> (length (lru c) <= fuel)%nat ->
  cache_wf (evict_loop fuel c) /\ (length (lru (evict_loop fuel c)) < dnsCacheMaxEntries)%nat /\
  (lru (evict_loop fuel c) `prefix_of` lru c) /\ (entries (evict_loop fuel c) ⊆ entries c).
Proof.
  revert c. induction fuel as [|fuel IH]; intros c Hwf Hf; simpl.
  { split_and!; try done. unfold dnsCacheMaxEntries. lia. }
  case_decide as Hd; [|split_and!; try done; lia].
  destruct (lru c) as [|k' l'] eqn:El using rev_ind.
  { simpl in Hd. unfold dnsCacheMaxEntries in Hd. lia. }
  clear IHl'. rewrite last_snoc, removelast_last.
  assert (Hwf' : cache_wf (mkCache (delete k' (entries c)) l')).
  { pose proof (wf_remove c k' Hwf) as H. rewrite El, remove_key_snoc in H; [done|].
    pose proof (cw_nodup c Hwf) as Hn. rewrite El in Hn. apply NoDup_app in Hn as (_ & Hn & _).
    intros Hin. by apply (Hn k' Hin), list_elem_of_singleton. }
  destruct (IH _ Hwf') as (H1 & H2 & H3 & H4); [simpl; rewrite length_app in Hf; simpl in Hf; lia|].
  split_and!; try done.
  - etrans; [exact H3|]. simpl. by eexists.
  - etrans; [exact H4|]. apply delete_subseteq.
Qed.

Lemma evict_spec c :
  cache_wf c ->
  cache_wf (evict c) /\ (length (lru (evict c)) < dnsCacheMaxEntries)%nat /\
  (lru (evict c) `prefix_of` lru c) /\ (entries (evict c) ⊆ entries c).
Proof. intros. by apply evict_loop_spec. Qed.

Lemma get_wf q now c : cache_wf c -> bounded c -> cache_wf (snd (get q now c)) /\ bounded (snd (get q now c)).
Proof.
  intros Hwf Hb. unfold get. destruct (_ <? 12); [done|].
  destruct (entries c !! drop 2 q) as [e|] eqn:He; [|done].
  assert (Hin : drop 2 q ∈ lru c) by (apply (cw_keys c Hwf); eauto).
  pose proof (length_remove_key _ _ Hin) as Hl.
  destruct (_ <? now); simpl; unfold bounded in *; simpl.
  - split; [by apply wf_remove|lia].
  - split; [|lia]. destruct Hwf as [Hn Hk Hent]. split; simpl; [by apply NoDup_move_to_front| |done].
    intros x. rewrite elem_of_move_to_front, Hk. split; [|by right]. intros [->|?]; eauto.
Qed.

(** What [put] stores. *)
Definition stored_ttl (resp : bytes) (t : Z) : Prop :=
  exists t0 nx, parseDNSTTL resp = Some t0 /\ isDNSNXDomain resp = Some nx /\
    t = (if nx && (dnsCacheNXDomainTTL <? t0) then dnsCacheNXDomainTTL else t0).

Lemma stored_ttl_exists resp : exists t, stored_ttl resp t /\ second <= t <= dnsCacheMaxTTL.
Proof.
  destruct (parseDNSTTL_total resp) as (t0 & H1 & Ht), (isDNSNXDomain_total resp) as (nx & H2).
  eexists. split; [by exists t0, nx|]. destruct (_ && _); [|done].
  unfold second, dnsCacheMaxTTL, dnsCacheNXDomainTTL, second. lia.
Qed.

Lemma put_spec q r now c :
  cache_wf c -> bounded c -> exists c', put q r now c = Some c' /\ cache_wf c' /\ bounded c' /\
    (if (Z.of_nat (length q) <? 12) || (Z.of_nat (length r) <? 12) then c' = c
     else exists t, stored_ttl r t /\ entries c' !! drop 2 q = Some (mkEntry r (now + t) t) /\
       hd_error (lru c') = Some (drop 2 q)).
Proof.
  intros Hwf Hb. unfold put. destruct (_ || _) eqn:Hlen; [eauto|].
  apply orb_false_iff in Hlen as [_ Hr%Z.ltb_ge].
  destruct (parseDNSTTL_total r) as (t0 & H1 & Ht), (isDNSNXDomain_total r) as (nx & H2).
  rewrite H1, H2. set (t := if nx && (dnsCacheNXDomainTTL <? t0) then dnsCacheNXDomainTTL else t0).
  assert (Hst : stored_ttl r t) by (by exists t0, nx).
  assert (Hew : forall n, entry_wf (mkEntry r n t)).
  { intros n. destruct (stored_ttl_exists r) as (t' & (t1 & nx1 & E1 & E2 & ->) & Ht').
    rewrite H1 in E1. rewrite H2 in E2. simplify_eq. split; [exact Hr|exact Ht']. }
  destruct (entries c !! drop 2 q) as [e|] eqn:He.
  - assert (Hin : drop 2 q ∈ lru c) by (apply (cw_keys c Hwf); eauto).
    pose proof (length_remove_key _ _ Hin) as Hlk. unfold bounded in *.
    eexists. split; [done|]. unfold move_to_front. cbn [lru length entries hd_error].
    split_and!; [|lia|].
    + fold (move_to_front (drop 2 q) (lru c)).
      destruct Hwf as [Hn Hk Hent]. split; cbn [lru entries].
      * by apply NoDup_move_to_front.
      * intros x. rewrite elem_of_move_to_front, Hk, lookup_insert_is_Some. destruct (decide (drop 2 q = x)); intuition congruence.
      * by apply map_Forall_insert_2.
    + exists t. by rewrite lookup_insert_eq.
  - destruct (evict_spec c Hwf) as ([Hn Hk Hent] & Hlt & Hpre & Hsub).
    assert (Hnew : entries (evict c) !! drop 2 q = None) by (by eapply lookup_weaken_None).
    eexists. split; [done|]. unfold bounded. simpl. split_and!; [|lia|].
    + split; simpl.
      * apply NoDup_cons. split; [|done]. rewrite Hk, Hnew. by intros [? ?].
      * intros x. rewrite elem_of_cons, Hk, lookup_insert_is_Some. destruct (decide (drop 2 q = x)); intuition congruence.
      * by apply map_Forall_insert_2.
    + exists t. by rewrite lookup_insert_eq.
Qed.

(** *** Sequences of operations *)

Inductive cop := CGet (q : bytes) (now : Z) | CPut (q r : bytes) (now : Z).

Definition cop_time (o : cop) : Z := match o with CGet _ t => t | CPut _ _ t => t end.

Fixpoint run (os : list cop) (c : dnsCache) : option dnsCache :=
  match os with
  | [] => Some c
  | CGet q now :: os => run os (snd (get q now c))
  | CPut q r now :: os => match put q r now c with Some c' => run os c' | None => None end
  end.

Lemma run_wf os c :
  cache_wf c -> bounded c -> exists c', run os c = Some c' /\ cache_wf c' /\ bounded c'.
Proof.
  revert c. induction os as [|[q now|q r now] os IH]; intros c Hwf Hb; simpl; [eauto|..].
  - apply IH; by apply get_wf.
  - destruct (put_spec q r now c Hwf Hb) as (c' & -> & Hwf' & Hb' & _). by apply IH.
Qed.

(** The entry of [k] is [e] and fewer than [j] keys were used after it. *)
Definition holds k (e : dnsCacheEntry) (j : nat) c : Prop :=
  entries c !! k = Some e /\ exists l1 l2, lru c = l1 ++ k :: l2 /\ (length l1 < j)%nat.

Lemma remove_key_split x k l1 l2 :
  x <> k -> list_remove_key x (l1 ++ k :: l2) = list_remove_key x l1 ++ k :: list_remove_key x l2.
Proof. intros H. unfold list_remove_key. by rewrite filter_app, filter_cons_True. Qed.

Lemma length_remove_key_le x l : (length (list_remove_key x l) <= length l)%nat.
Proof. apply length_filter. Qed.

Lemma holds_front k e j c x E :
  x <> k -> holds k e j c -> E !! k = Some e -> holds k e (S j) (mkCache E (move_to_front x (lru c))).
Proof.
  intros Hx (_ & l1 & l2 & Hl & Hj) HE. split; [done|]. simpl.
  exists (x :: list_remove_key x l1), (list_remove_key x l2). unfold move_to_front.
  rewrite Hl, remove_key_split by done. split; [done|].
  pose proof (length_remove_key_le x l1). simpl. lia.
Qed.

Lemma evict_holds k e j fuel c :
  holds k e j c -> (j <= 511)%nat -> NoDup (lru c) -> holds k e j (evict_loop fuel c).
Proof.
  intros Hh Hj. revert c Hh. induction fuel as [|fuel IH]; intros c (He & l1 & l2 & Hl & Hl1) Hn; simpl.
  { split; eauto. }
  case_decide as Hd; [|split; eauto].
  destruct l2 as [|x l2 _] using rev_ind.
  { rewrite Hl, length_app in Hd. unfold dnsCacheMaxEntries in Hd. simpl in Hd. lia. }
  rewrite Hl. rewrite app_comm_cons, app_assoc, last_snoc, removelast_last.
  rewrite Hl, app_comm_cons, app_assoc in Hn. apply NoDup_app in Hn as (Hn1 & Hn2 & _).
  apply IH; [|done]. split; simpl.
  - rewrite lookup_delete_ne; [done|]. intros ->. apply (Hn2 k); [|by apply list_elem_of_singleton].
    apply elem_of_app. right. left.
  - eauto.
Qed.

Lemma get_holds k e j q now c :
  holds k e j c -> now <= expiry e -> holds k e (S j) (snd (get q now c)).
Proof.
  intros Hh Hnow. pose proof Hh as (He & l1 & l2 & Hl & Hj).
  assert (Hw : holds k e (S j) c) by (split; eauto 10).
  unfold get. destruct (_ <? 12); [done|].
  destruct (entries c !! drop 2 q) as [e'|] eqn:Hq; [|done].
  destruct (decide (drop 2 q = k)) as [Heq|Hne].
  - rewrite Heq, He in *. simplify_eq. rewrite (proj2 (Z.ltb_ge _ _)) by lia. simpl.
    split; [done|]. simpl. exists []. eexists. split; [done|]. simpl. lia.
  - destruct (_ <? now); simpl; [|by apply holds_front with (j := j)].
    split; simpl; [by rewrite lookup_delete_ne|].
    exists (list_remove_key (drop 2 q) l1), (list_remove_key (drop 2 q) l2).
    rewrite Hl, remove_key_split by done. split; [done|].
    pose proof (length_remove_key_le (drop 2 q) l1). lia.
Qed.

Lemma put_holds k e j q r now c c' :
  holds k e j c -> (j <= 511)%nat -> cache_wf c -> drop 2 q <> k ->
  put q r now c = Some c' -> holds k e (S j) c'.
Proof.
  intros Hh Hj Hwf Hne. pose proof Hh as (He & l1 & l2 & Hl & Hj').
  unfold put. destruct (_ || _); [intros [= <-]; split; eauto 10|].
  destruct (parseDNSTTL r) as [t|]; [|done]. destruct (isDNSNXDomain r) as [nx|]; [|done].
  destruct (entries c !! drop 2 q) as [e'|]; intros [= <-].
  - apply holds_front with (j := j); [done|done|]. by rewrite lookup_insert_ne.
  - destruct (evict_holds k e j (length (lru c)) c Hh Hj (cw_nodup c Hwf)) as (H1 & m1 & m2 & Hm & Hlm).
    fold (evict c) in *. split; simpl; [by rewrite lookup_insert_ne|].
    exists (drop 2 q :: m1), m2. rewrite Hm. split; [done|]. simpl. lia.
Qed.

Definition touches (k : bytes) (o : cop) : Prop :=
  match o with CPut q r _ => drop 2 q = k | CGet _ _ => False end.

Lemma run_holds k e os j c c' :
  holds k e j c -> cache_wf c -> bounded c -> (length os + j <= 512)%nat ->
  Forall (fun o => cop_time o <= expiry e /\ ~ touches k o) os ->
  run os c = Some c' -> holds k e (length os + j) c' /\ cache_wf c' /\ bounded c'.
Proof.
  revert j c. induction os as [|o os IH]; intros j c Hh Hwf Hb Hlen Hos; simpl.
  { intros [= <-]. done. }
  inversion Hos as [|? ? [Ht Hn] Hos']; subst. simpl in Hlen.
  replace (S (length os + j)) with (length os + S j)%nat by lia.
  destruct o as [q now|q r now]; simpl in Ht, Hn.
  - destruct (get_wf q now c Hwf Hb). intros Hr. eapply IH; [|done..|lia|done|exact Hr].
    by apply get_holds.
  - destruct (put_spec q r now c Hwf Hb) as (c1 & Hp & Hwf' & Hb' & _). rewrite Hp. intros Hr.
    eapply IH; [|done..|lia|done|exact Hr]. eapply put_holds; eauto. lia.
Qed.
End cache.

Lemma cache_wf_new : cache_wf newDNSCache.
Proof.
  split; simpl; [constructor| |by apply map_Forall_empty].
  intros k. rewrite lookup_empty. split; [by intros ?%elem_of_nil|by intros [? ?]].
Qed.

(** ** Properties *)

(** lifetimes.  On every well-formed response (any names with labels and
    compression pointers, any records, any additional section) the parser
    returns the least lifetime of the answer and authority records, capped at
    300 seconds; a least lifetime of zero, which forbids caching, comes out as
    300 seconds. *)
Theorem dns_ttl_correct (m : message) :
  msg_wf m ->
  parseDNSTTL (encode m) = Some ((if min_ttl m =? 0 then 300 else min_ttl m) * second).
Proof. apply parseDNSTTL_msg. Qed.

Definition demo_name : name := mkName [[x77; x77; x77]; [x61]] Root.
Definition demo_response (t : Z) : message :=
  mkMsg 7 33152 [(demo_name, 65537)]
    [mkRR (mkName [] (Pointer xc0 x0c)) 65537 t [x01; x02; x03; x04]; mkRR demo_name 65537 500 []] [] 0 [x09].

Lemma dns_ttl_correct_witness :
  parseDNSTTL (encode (demo_response 60)) = Some (60 * second) /\
  parseDNSTTL (encode (demo_response 0)) = Some (300 * second).
Proof.
  assert (Hwf : forall t, 0 <= t < 2 ^ 32 -> msg_wf (demo_response t)).
  { intros t Ht. unfold msg_wf. simpl. split_and!; try lia; repeat constructor; simpl; try lia. }
  split; [apply (dns_ttl_correct (demo_response 60))|apply (dns_ttl_correct (demo_response 0))];
    apply Hwf; lia.
Defined.

(** the parser accepts every sequence of bytes: it reads no byte outside
    the response, its loops end, and the lifetime is between one second and
    300 seconds. *)
Theorem dns_ttl_total (resp : bytes) :
  exists t, parseDNSTTL resp = Some t /\ second <= t <= dnsCacheMaxTTL.
Proof. apply parseDNSTTL_total. Qed.

(** the invariant of the cache.  From the empty cache, after any sequence
    of lookups and insertions the map and the list hold the same keys without
    repetition, at most 512 of them, every response has a header to patch and
    every lifetime is in range; no operation panics. *)
Theorem dns_cache_invariant (os : list cop) :
  exists c, run os newDNSCache = Some c /\ cache_wf c /\ bounded c.
Proof.
  apply run_wf; [apply cache_wf_new|]. unfold bounded, dnsCacheMaxEntries. simpl. lia.
Qed.

(** what was stored is found again.  After [put], and after at most 511
    further operations none of which stores the same question, a lookup of the
    same question with any transaction identifier, before the entry expires,
    returns the stored response with its identifier replaced by that of the
    query. *)
Theorem dns_cache_retention (c c1 c2 : dnsCache) (q r q' : bytes) (now now' : Z) (os : list cop) :
  cache_wf c -> bounded c ->
  12 <= Z.of_nat (length q) -> 12 <= Z.of_nat (length r) ->
  length q' = length q -> drop 2 q' = drop 2 q ->
  put q r now c = Some c1 -> run os c1 = Some c2 ->
  (length os <= 511)%nat ->
  exists t, stored_ttl r t /\ second <= t <= dnsCacheMaxTTL /\
    (Forall (fun o => cop_time o <= now + t /\ ~ touches (drop 2 q) o) os ->
     now' <= now + t ->
     exists pf, fst (get q' now' c2) = Some (splice 0 (take 2 q') r, pf)).
Proof.
  intros Hwf Hb Hq Hr Hlen Hbody Hput Hrun Hos.
  destruct (put_spec q r now c Hwf Hb) as (c1' & Hput' & Hwf1 & Hb1 & Hst).
  rewrite Hput in Hput'. injection Hput' as <-.
  rewrite (proj2 (Z.ltb_ge _ _)), (proj2 (Z.ltb_ge _ _)) in Hst by lia.
  destruct Hst as (t & Ht & Hent & Hhd). exists t. split; [done|]. split.
  { destruct (stored_ttl_exists r) as (t' & (t1 & nx1 & E1 & E2 & ->) & Ht').
    destruct Ht as (t0 & nx & E1' & E2' & ->). rewrite E1 in E1'. rewrite E2 in E2'. by simplify_eq. }
  intros Hall Hnow.
  assert (Hh : holds (drop 2 q) (mkEntry r (now + t) t) 1 c1).
  { split; [done|]. destruct (lru c1) as [|k l]; [done|]. simpl in Hhd. injection Hhd as ->.
    exists [], l. split; [done|]. simpl. lia. }
  destruct (run_holds _ _ os 1 c1 c2 Hh Hwf1 Hb1) as ((He & _) & _); [lia|done|done|].
  unfold get. rewrite (proj2 (Z.ltb_ge _ _)) by lia. rewrite Hbody, He. simpl.
  rewrite (proj2 (Z.ltb_ge _ _)) by lia. simpl. eauto.
Qed.

Definition demo_query (id : byte) : bytes := id :: x01 :: replicate 12 x05.

Lemma dns_cache_retention_witness :
  exists c1 c2 t pf,
    put (demo_query x0a) (encode (demo_response 60)) 100 newDNSCache = Some c1 /\
    run [CGet (demo_query x0b) 200; CPut (replicate 13 x00) (replicate 12 x00) 300] c1 = Some c2 /\
    stored_ttl (encode (demo_response 60)) t /\
    fst (get (demo_query x0c) 400 c2) =
      Some (splice 0 [x0c; x01] (encode (demo_response 60)), pf).
Proof.
  assert (Hb : bounded newDNSCache) by (unfold bounded, dnsCacheMaxEntries; simpl; lia).
  destruct (put_spec (demo_query x0a) (encode (demo_response 60)) 100 newDNSCache cache_wf_new Hb)
    as (c1 & E1 & W1 & B1 & _).
  destruct (run_wf [CGet (demo_query x0b) 200; CPut (replicate 13 x00) (replicate 12 x00) 300] c1 W1 B1)
    as (c2 & E2 & _).
  destruct (dns_cache_retention newDNSCache c1 c2 (demo_query x0a) (encode (demo_response 60))
    (demo_query x0c) 100 400 _ cache_wf_new Hb ltac:(by vm_compute) ltac:(by vm_compute) eq_refl eq_refl
    E1 E2 ltac:(simpl; lia)) as (t & Ht & Hr & Hget).
  unfold second in Hr. destruct Hget as [pf Hget].
  - repeat constructor; simpl; try lia; auto.
  - lia.
  - exists c1, c2, t, pf. auto.
Defined.

End DnsCache.
