(* ===== verification/DnsChannel.v ===== *)
(** * DNS channels ([golib/tunnel/dnschannel.go], [golib/webrtc/dnsrelay.go])

    Queries are multiplexed over persistent streams, framed as in
    DNS-over-TCP, and answers are dispatched by transaction identifier.

    [Channel] is one stream with the callers that wait on it: a caller waits
    on a Go channel of capacity one, which [pending] maps the identifier of its
    query to.  The goroutines (read loop, one waiter per query) interleave in
    [ch_step].  [Batch] is the queue of the pool, [Pool] the choice of a
    channel.  [Relay] is the server side of the stream. *)

From S2P Require Import Prelude IO.

Open Scope Z_scope.

Module DnsChannel.

Definition dnsChannelCount : nat := 2.
Definition dnsBatchMaxQueries : nat := 16.

(** ** Framing *)

(** [2B length][message], the length being cut to 16 bits. *)
Definition dns_frame (q : bytes) : bytes :=
  let frame := replicate (2 + length q) x00 in
  let frame := splice 0 (be_put 2 (u16 (Z.of_nat (length q)))) frame in
  splice 2 q frame.

(** The concatenation that [flushBatch] builds. *)
Definition batch_frames (qs : list bytes) : bytes :=
  foldl (fun buf q => (buf ++ be_put 2 (u16 (Z.of_nat (length q)))) ++ q) [] qs.

(** One turn of the read loops of both sides: a message, or the end. *)
Definition read_msg (r : reader) : option bytes * reader :=
  match ReadFull 2 r with
  | (Err _, r) => (None, r)
  | (Ok lenBuf, r) =>
      let l := be_get lenBuf in
      if (l =? 0) || (4096 <? l) then (None, r)
      else match ReadFull (Z.to_nat l) r with
           | (Err _, r) => (None, r)
           | (Ok m, r) => (Some m, r)
           end
  end.

(** [handleDNSStream]: the queries that the server hands to the resolver, in
    order, until the stream ends.  Every turn consumes at least a byte. *)
Fixpoint relay_loop (fuel : nat) (r : reader) : list bytes * reader :=
  match fuel with
  | O => ([], r)
  | S fuel => match read_msg r with
              | (None, r) => ([], r)
              | (Some q, r) => let '(qs, r) := relay_loop fuel r in (q :: qs, r)
              end
  end.

Definition handleDNSStream (r : reader) : list bytes * reader :=
  relay_loop (S (length (rd_data r))) r.

(** [resolveDNSUDP] over the two resolvers, and the answer frame. *)
Definition resolveDNSUDP (udp : string -> bytes -> res goerr bytes) (q : bytes) : res goerr bytes :=
  match udp "8.8.8.8:53" q with
  | Ok r => Ok r
  | Err _ => udp "1.1.1.1:53" q
  end.

Definition relay_answer (udp : string -> bytes -> res goerr bytes) (q : bytes) : option bytes :=
  match resolveDNSUDP udp q with Ok r => Some (dns_frame r) | Err _ => None end.

(** ** A channel and its waiters *)

Inductive dnsResult := RespOk (r : bytes) | RespErr (msg : string).

Record waiter := mkWaiter {
  w_tx : Z;                           (* identifier of its query *)
  w_buf : option (option bytes);      (* its channel, of capacity one; [Some None] is nil *)
  w_res : option dnsResult            (* what it returned *)
}.

Record dnsChannel := mkCh {
  pending : gmap Z nat;               (* identifier -> waiter *)
  waiters : list waiter;
  ch_out : writer;
  ch_in : reader;
  ch_done : bool
}.

Definition newDNSChannel (w : writer) (r : reader) : dnsChannel := mkCh ∅ [] w r false.

Definition set_waiter (i : nat) (w : waiter) (ch : dnsChannel) : dnsChannel :=
  mkCh (pending ch) (<[i := w]> (waiters ch)) (ch_out ch) (ch_in ch) (ch_done ch).
Definition set_pending (p : gmap Z nat) (ch : dnsChannel) : dnsChannel :=
  mkCh p (waiters ch) (ch_out ch) (ch_in ch) (ch_done ch).
Definition set_out (w : writer) (ch : dnsChannel) : dnsChannel :=
  mkCh (pending ch) (waiters ch) w (ch_in ch) (ch_done ch).
Definition set_in (r : reader) (ch : dnsChannel) : dnsChannel :=
  mkCh (pending ch) (waiters ch) (ch_out ch) r (ch_done ch).

(** A fresh channel for the answer, stored under the identifier. *)
Definition register (tx : Z) (ch : dnsChannel) : dnsChannel :=
  mkCh (<[tx := length (waiters ch)]> (pending ch)) (waiters ch ++ [mkWaiter tx None None])
    (ch_out ch) (ch_in ch) (ch_done ch).

(** A waiter returns; its deferred call removes the identifier. *)
Definition return_waiter (i : nat) (r : dnsResult) (ch : dnsChannel) : dnsChannel :=
  match waiters ch !! i with
  | Some w => set_pending (delete (w_tx w) (pending ch))
                (set_waiter i (mkWaiter (w_tx w) (w_buf w) (Some r)) ch)
  | None => ch
  end.

(** The start of [query]: registration and write; [inr] is its early error. *)
Definition query_start (q : bytes) (ch : dnsChannel) : (dnsChannel + string) :=
  if Z.of_nat (length q) <? 12 then inr "dns query too short"
  else
    let tx := be_get (take 2 q) in
    let i := length (waiters ch) in
    let ch := register tx ch in
    match Write (dns_frame q) (ch_out ch) with
    | (Ok _, w) => inl (set_out w ch)
    | (Err _, w) => inl (return_waiter i (RespErr "dns channel write") (set_out w ch))
    end.

(** [flushBatch] on the channel it picked, for two queries or more: queries
    shorter than an identifier are sent but not registered. *)
Definition flush_register (qs : list bytes) (ch : dnsChannel) : dnsChannel :=
  foldl (fun ch q => if Z.of_nat (length q) <? 2 then ch else register (be_get (take 2 q)) ch) ch qs.

Definition flush_many (qs : list bytes) (ch : dnsChannel) : dnsChannel :=
  let ch := flush_register qs ch in
  let '(_, w) := Write (batch_frames qs) (ch_out ch) in set_out w ch.

(** [select { case respCh <- v: default: }] *)
Definition try_send (i : nat) (v : option bytes) (ch : dnsChannel) : dnsChannel :=
  match waiters ch !! i with
  | Some w => match w_buf w with
              | None => set_waiter i (mkWaiter (w_tx w) (Some v) (w_res w)) ch
              | Some _ => ch
              end
  | None => ch
  end.

(** The deferred function of [readLoop]. *)
Definition shutdown (ch : dnsChannel) : dnsChannel :=
  let ch' := foldl (fun c kv => try_send (snd kv) None c) ch (map_to_list (pending ch)) in
  mkCh ∅ (waiters ch') (ch_out ch') (ch_in ch') true.

(** One turn of [readLoop]. *)
Definition read_step (ch : dnsChannel) : dnsChannel :=
  match read_msg (ch_in ch) with
  | (None, r) => shutdown (set_in r ch)
  | (Some resp, r) =>
      let ch := set_in r ch in
      if Z.of_nat (length resp) <? 2 then ch
      else
        let tx := be_get (take 2 resp) in
        match pending ch !! tx with
        | Some i => try_send i (Some resp) (set_pending (delete tx (pending ch)) ch)
        | None => ch
        end
  end.

(** The three arms of a waiter's [select]. *)
Definition waiter_recv (i : nat) (ch : dnsChannel) : option dnsChannel :=
  match waiters ch !! i with
  | Some (mkWaiter _ (Some v) None) =>
      Some (return_waiter i (match v with Some r => RespOk r | None => RespErr "dns channel closed" end) ch)
  | _ => None
  end.

Definition waiter_timeout (i : nat) (ch : dnsChannel) : option dnsChannel :=
  match waiters ch !! i with
  | Some (mkWaiter _ _ None) => Some (return_waiter i (RespErr "dns query timeout") ch)
  | _ => None
  end.

Definition waiter_done (i : nat) (ch : dnsChannel) : option dnsChannel :=
  match waiters ch !! i with
  | Some (mkWaiter _ _ None) =>
      if ch_done ch then Some (return_waiter i (RespErr "dns channel closed") ch) else None
  | _ => None
  end.

Inductive ch_step : relation dnsChannel :=
  | st_query ch q ch' : query_start q ch = inl ch' -> ch_step ch ch'
  | st_flush ch qs : ch_step ch (flush_many qs ch)
  | st_read ch : ch_done ch = false -> ch_step ch (read_step ch)
  | st_recv ch i ch' : waiter_recv i ch = Some ch' -> ch_step ch ch'
  | st_timeout ch i ch' : waiter_timeout i ch = Some ch' -> ch_step ch ch'
  | st_done ch i ch' : waiter_done i ch = Some ch' -> ch_step ch ch'.

(** ** The batch queue of the pool *)

Section batch.
Context {item : Type}.

Record batcher := mkBatcher { batchQueue : list item; batchTimer : bool; flushed : list (list item) }.

Definition submit (x : item) (b : batcher) : batcher :=
  let q := batchQueue b ++ [x] in
  if decide (dnsBatchMaxQueries <= length q)%nat then mkBatcher [] false (flushed b ++ [q])
  else mkBatcher q true (flushed b).

(** The timer function; a stopped timer may still fire once. *)
Definition timer_fire (b : batcher) : batcher :=
  match batchQueue b with
  | [] => mkBatcher [] false (flushed b)
  | q => mkBatcher [] false (flushed b ++ [q])
  end.

(** [close]: the queued items fail. *)
Definition pool_close (b : batcher) : list item * batcher :=
  (batchQueue b, mkBatcher [] false (flushed b)).

Inductive batch_op := Submit (x : item) | Fire.

Definition batch_run (ops : list batch_op) (b : batcher) : batcher :=
  foldl (fun b o => match o with Submit x => submit x b | Fire => timer_fire b end) b ops.

Definition submitted (ops : list batch_op) : list item :=
  omap (fun o => match o with Submit x => Some x | Fire => None end) ops.
End batch.

(** ** The choice of a channel *)

Section pool.
Context {chan : Type}.

(** [dial k] is the outcome of the [k]-th call of [openChannel]. *)
Fixpoint open_loop (fuel k : nat) (dial : nat -> res goerr chan) (chs : list chan)
    : res goerr (list chan) :=
  match fuel with
  | O => Ok chs
  | S fuel =>
      if decide (length chs < dnsChannelCount)%nat then
        match dial k with
        | Ok c => open_loop fuel (S k) dial (chs ++ [c])
        | Err e => if decide (0 < length chs)%nat then Ok chs else Err e
        end
      else Ok chs
  end.

(** The loop appends at most [dnsChannelCount] channels. *)
Definition pickChannel (isDone : chan -> bool) (dial : nat -> res goerr chan) (rr : Z) (chs : list chan)
    : res goerr chan * list chan * Z :=
  let alive := filter (fun c => isDone c = false) chs in
  match open_loop dnsChannelCount 0 dial alive with
  | Err e => (Err e, alive, rr)
  | Ok chs =>
      match chs with
      | [] => (Err (EMsg "no dns channels available" []), chs, rr)
      | c0 :: _ =>
          let rr := u32 (rr + 1) in
          (Ok (nth (Z.to_nat (rr mod Z.of_nat (length chs))) chs c0), chs, rr)
      end
  end.
End pool.

(** ** Lemmas on framing *)

Definition msg_ok (m : bytes) : Prop := 1 <= Z.of_nat (length m) <= 4096.

Lemma dns_frame_eq q : dns_frame q = be_put 2 (u16 (Z.of_nat (length q))) ++ q.
Proof.
  unfold dns_frame.
  match goal with |- ?l = _ => rewrite <- (take_ge l (2 + length q)) by len end.
  apply take_splice; [|len]. apply (take_splice 0 [] (be_put 2 _)); [done|len].
Qed.

Lemma batch_frames_eq qs : batch_frames qs = concat (dns_frame <$> qs).
Proof.
  unfold batch_frames. assert (H : forall acc, foldl (fun buf q => (buf ++ be_put 2 (u16 (Z.of_nat (length q)))) ++ q) acc qs
    = acc ++ concat (dns_frame <$> qs)); [|apply H].
  induction qs as [|q qs IH]; intros acc; [by rewrite app_nil_r|].
  rewrite fmap_cons. cbn [foldl concat]. rewrite IH, dns_frame_eq. by rewrite <- !app_assoc.
Qed.

Lemma read_msg_frame m rest e :
  msg_ok m -> read_msg (mkReader (dns_frame m ++ rest) e) = (Some m, mkReader rest e).
Proof.
  unfold msg_ok. intros Hm. unfold read_msg. rewrite dns_frame_eq, <- app_assoc.
  rewrite ReadFull_app by apply length_be_put.
  rewrite wrap_small by (change (2 ^ 16) with 65536; lia).
  rewrite be_get_put_small by (change (2 ^ (8 * Z.of_nat 2)) with 65536; lia).
  destruct (Z.eqb_spec (Z.of_nat (length m)) 0); [lia|].
  destruct (Z.ltb_spec 4096 (Z.of_nat (length m))); [lia|]. cbn [orb].
  by rewrite Nat2Z.id, ReadFull_app.
Qed.

Lemma read_msg_progress r m r' : read_msg r = (Some m, r') -> (length (rd_data r') < length (rd_data r))%nat.
Proof.
  unfold read_msg. destruct (ReadFull 2 r) as [[lb|] r1] eqn:E; [|done].
  apply ReadFull_Ok_length in E as (Hl & Hd & _). destruct (_ || _); [done|].
  pose proof (ReadFull_length (Z.to_nat (be_get lb)) r1) as Hle.
  destruct (ReadFull _ r1) as [[m'|] r2]; [|done]. intros [= _ <-]. simpl in Hle.
  rewrite Hd. len.
Qed.

Lemma relay_loop_frames fuel qs rest e :
  Forall msg_ok qs -> (length qs < fuel)%nat -> read_msg (mkReader rest e) = (None, mkReader rest e) ->
  relay_loop fuel (mkReader (concat (dns_frame <$> qs) ++ rest) e) = (qs, mkReader rest e).
Proof.
  intros Hqs Hf Hend. revert fuel Hf.
  induction Hqs as [|q qs Hq Hqs IH]; intros fuel Hf; destruct fuel as [|fuel]; try lia.
  - cbn [relay_loop fmap list_fmap concat app]. by rewrite Hend.
  - rewrite fmap_cons. cbn [relay_loop concat]. rewrite <- app_assoc, read_msg_frame by done.
    rewrite IH by (simpl in Hf; lia). done.
Qed.

Lemma length_frames qs : (length qs <= length (concat (dns_frame <$> qs)))%nat.
Proof.
  induction qs as [|q qs IH]; [done|]. rewrite fmap_cons. cbn [concat].
  rewrite dns_frame_eq. len.
Qed.

(** ** The invariant of a channel *)

Definition tx_of (r : bytes) : Z := be_get (take 2 r).

Definition waiter_ok (w : waiter) : Prop :=
  (forall r, w_buf w = Some (Some r) -> tx_of r = w_tx w) /\
  (forall r, w_res w = Some (RespOk r) -> tx_of r = w_tx w).

Definition ch_inv (ch : dnsChannel) : Prop :=
  Forall waiter_ok (waiters ch) /\
  map_Forall (fun tx i => exists w, waiters ch !! i = Some w /\ w_tx w = tx) (pending ch).

Section invariant.
Implicit Types (ch : dnsChannel) (i : nat).

Lemma inv_set_out w ch : ch_inv ch -> ch_inv (set_out w ch).
Proof. done. Qed.

Lemma inv_set_in r ch : ch_inv ch -> ch_inv (set_in r ch).
Proof. done. Qed.

Lemma inv_pending p ch : ch_inv ch -> p ⊆ pending ch -> ch_inv (set_pending p ch).
Proof.
  intros [Hw Hp] Hsub. split; [done|]. simpl.
  intros tx i Hi. apply (Hp tx i). by eapply lookup_weaken.
Qed.

(** Replacing a waiter by one with the same identifier. *)
Lemma inv_set_waiter i w w' ch :
  ch_inv ch -> waiters ch !! i = Some w -> w_tx w' = w_tx w -> waiter_ok w' -> ch_inv (set_waiter i w' ch).
Proof.
  intros [Hw Hp] Hi Htx Hok. split; simpl.
  - by apply Forall_insert.
  - intros tx j Hj. destruct (Hp tx j Hj) as (v & Hv & <-).
    destruct (decide (i = j)) as [->|Hne].
    + simplify_eq. exists w'. split; [|done]. apply list_lookup_insert_eq. by eapply lookup_lt_Some.
    + exists v. by rewrite list_lookup_insert_ne.
Qed.

Lemma inv_register tx ch : ch_inv ch -> ch_inv (register tx ch).
Proof.
  intros [Hw Hp]. split; simpl.
  - apply Forall_app. split; [done|]. apply Forall_singleton. by split.
  - apply map_Forall_insert_2.
    + exists (mkWaiter tx None None). split; [|done]. by rewrite lookup_app_r, Nat.sub_diag.
    + intros t i Hi. destruct (Hp t i Hi) as (w & Hwi & Hwt). exists w. split; [|done].
      by apply lookup_app_l_Some.
Qed.

Lemma inv_return i r ch :
  ch_inv ch ->
  (forall b, r = RespOk b -> exists w, waiters ch !! i = Some w /\ w_buf w = Some (Some b)) ->
  ch_inv (return_waiter i r ch).
Proof.
  intros Hinv Hr. unfold return_waiter. destruct (waiters ch !! i) as [w|] eqn:Hi; [|done].
  apply (inv_pending _ (set_waiter i _ ch)); [|apply delete_subseteq].
  destruct (Forall_lookup_1 _ _ _ _ (proj1 Hinv) Hi) as [H1 H2].
  eapply inv_set_waiter; [done..|]. split; [done|]. simpl. intros b [= ->].
  destruct (Hr b eq_refl) as (w' & [= <-] & Hb). by apply H1.
Qed.

Lemma inv_try_send i v ch :
  ch_inv ch -> (forall r w, v = Some r -> waiters ch !! i = Some w -> tx_of r = w_tx w) ->
  ch_inv (try_send i v ch).
Proof.
  intros Hinv Hv. unfold try_send. destruct (waiters ch !! i) as [w|] eqn:Hi; [|done].
  destruct (w_buf w) eqn:Hb; [done|].
  destruct (Forall_lookup_1 _ _ _ _ (proj1 Hinv) Hi) as [H1 H2].
  eapply inv_set_waiter; [done..|]. split; simpl; [|done]. intros r [= ->]. by apply (Hv r w).
Qed.

Lemma inv_shutdown ch : ch_inv ch -> ch_inv (shutdown ch).
Proof.
  intros Hinv. unfold shutdown.
  assert (H : forall (l : list (Z * nat)) c, ch_inv c -> ch_inv (foldl (fun c kv => try_send (snd kv) None c) c l)).
  { induction l as [|[k i] l IH]; intros c Hc; [done|]. apply IH. by apply inv_try_send. }
  destruct (H (map_to_list (pending ch)) ch Hinv) as [Hw _]. split; [done|]. apply map_Forall_empty.
Qed.

Lemma inv_read_step ch : ch_inv ch -> ch_inv (read_step ch).
Proof.
  intros Hinv. unfold read_step. destruct (read_msg (ch_in ch)) as [[m|] r].
  - destruct (_ <? 2); [done|]. simpl. destruct (pending ch !! be_get (take 2 m)) as [i|] eqn:Hp; [|done].
    apply inv_try_send; [by apply (inv_pending _ (set_in r ch)); [|apply delete_subseteq]|].
    intros m' w [= <-] Hw. destruct (proj2 Hinv _ _ Hp) as (w' & Hw' & Htx). simpl in Hw.
    rewrite Hw in Hw'. by simplify_eq.
  - by apply inv_shutdown.
Qed.

Lemma ch_step_inv ch ch' : ch_inv ch -> ch_step ch ch' -> ch_inv ch'.
Proof.
  intros Hinv Hst. destruct Hst as [ch q ch' Hq|ch qs|ch _|ch i ch' Hs|ch i ch' Hs|ch i ch' Hs].
  - unfold query_start in Hq. destruct (_ <? 12); [done|]. cbn [ch_out register] in Hq.
    pose proof (inv_register (be_get (take 2 q)) ch Hinv) as Hr.
    destruct (Write (dns_frame q) (ch_out ch)) as [[n|e] w]; injection Hq as <-; [done|].
    by apply inv_return.
  - unfold flush_many.
    assert (Hr : ch_inv (flush_register qs ch)).
    { unfold flush_register. revert ch Hinv. induction qs as [|q qs IH]; intros ch Hinv; [done|].
      simpl. apply IH. destruct (_ <? 2); [done|by apply inv_register]. }
    by destruct (Write _ (ch_out (flush_register qs ch))).
  - by apply inv_read_step.
  - unfold waiter_recv in Hs. destruct (waiters ch !! i) as [[tx [v|] [r|]]|] eqn:Hi; try done.
    injection Hs as <-. apply inv_return; [done|]. destruct v as [b|]; [|done].
    intros b' [= <-]. rewrite Hi. eauto.
  - unfold waiter_timeout in Hs. destruct (waiters ch !! i) as [[tx v [r|]]|] eqn:Hi; try done.
    injection Hs as <-. by apply inv_return.
  - unfold waiter_done in Hs. destruct (waiters ch !! i) as [[tx v [r|]]|] eqn:Hi; try done.
    destruct (ch_done ch); [|done]. injection Hs as <-. by apply inv_return.
Qed.
End invariant.

(** ** The batch queue *)

Section batch_lemmas.
Context {item : Type}.

Definition batch_inv (xs : list item) (b : batcher (item:=item)) : Prop :=
  concat (flushed b) ++ batchQueue b = xs /\
  Forall (fun q => 0 < length q <= dnsBatchMaxQueries)%nat (flushed b) /\
  (length (batchQueue b) < dnsBatchMaxQueries)%nat /\
  (batchQueue b <> [] -> batchTimer b = true).

Lemma concat_snoc (l : list (list item)) q : concat (l ++ [q]) = concat l ++ q.
Proof. rewrite concat_app. simpl. by rewrite app_nil_r. Qed.

Lemma submit_inv xs x b : batch_inv xs b -> batch_inv (xs ++ [x]) (submit x b).
Proof.
  intros (<- & Hf & Hq & Ht). unfold submit, batch_inv. case_decide as Hd; simpl.
  - rewrite concat_snoc, app_nil_r, app_assoc. split_and!; try done.
    + apply Forall_app. split; [done|]. apply Forall_singleton. rewrite length_app. simpl.
      unfold dnsBatchMaxQueries in *. lia.
    + unfold dnsBatchMaxQueries. lia.
  - rewrite app_assoc. split_and!; (done || lia).
Qed.

Lemma fire_inv xs b : batch_inv xs b -> batch_inv xs (timer_fire b).
Proof.
  intros (<- & Hf & Hq & Ht). unfold timer_fire, batch_inv.
  destruct (batchQueue b) as [|y q]; simpl.
  - unfold dnsBatchMaxQueries. split_and!; (done || lia).
  - rewrite concat_snoc, app_nil_r. split_and!; try done.
    + apply Forall_app. split; [done|]. apply Forall_singleton. simpl in *. lia.
    + unfold dnsBatchMaxQueries. lia.
Qed.

Lemma batch_run_inv ops xs b :
  batch_inv xs b -> batch_inv (xs ++ submitted ops) (batch_run ops b).
Proof.
  revert xs b. induction ops as [|[x|] ops IH]; intros xs b Hb; simpl.
  - unfold submitted. simpl. by rewrite app_nil_r.
  - change (submitted (Submit x :: ops)) with (x :: submitted ops).
    rewrite cons_middle, app_assoc. apply IH. by apply submit_inv.
  - change (submitted (Fire :: ops)) with (submitted ops). apply IH. by apply fire_inv.
Qed.
End batch_lemmas.

(** ** The choice of a channel *)

Lemma open_loop_spec {chan} fuel k (dial : nat -> res goerr chan) chs chs' :
  open_loop fuel k dial chs = Ok chs' -> (length chs <= dnsChannelCount)%nat ->
  (length chs' <= dnsChannelCount)%nat /\ chs `prefix_of` chs' /\
  forall c, c ∈ chs' -> c ∈ chs \/ exists j, dial j = Ok c.
Proof.
  revert k chs. induction fuel as [|fuel IH]; intros k chs; simpl.
  { intros [= <-] Hl. split_and!; auto. }
  case_decide as Hd; [|intros [= <-] Hl; split_and!; auto].
  destruct (dial k) as [c|e] eqn:Hk.
  - intros Ho _. apply IH in Ho as (H1 & H2 & H3); [|rewrite length_app; simpl; lia].
    split_and!; [done| |].
    + etrans; [|done]. by eexists.
    + intros x Hx. apply H3 in Hx as [Hx|?]; [|by right]. apply elem_of_app in Hx as [?|Hx]; [by left|].
      apply list_elem_of_singleton in Hx as ->. eauto.
  - case_decide; [|done]. intros [= <-] Hl. split_and!; auto.
Qed.

(** ** Properties *)

(** framing.  The server's relay loop recovers exactly the queries of a
    batch, in order, from the single write that [flushBatch] makes, for
    messages of 1 to 4096 bytes, and stops at the end of the stream. *)
Theorem dns_batch_roundtrip (qs : list bytes) (e : io_err) :
  Forall msg_ok qs ->
  handleDNSStream (mkReader (batch_frames qs) e) = (qs, mkReader [] e).
Proof.
  intros Hqs. unfold handleDNSStream. rewrite batch_frames_eq.
  pose proof (length_frames qs). simpl rd_data.
  rewrite <- (app_nil_r (concat (dns_frame <$> qs))).
  apply relay_loop_frames; [done|rewrite app_nil_r; lia|].
  unfold read_msg. by rewrite ReadFull_nil by lia.
Qed.

Lemma dns_batch_roundtrip_witness :
  handleDNSStream (mkReader (batch_frames [[x01; x02]; [x07]]) EOF) = ([[x01; x02]; [x07]], mkReader [] EOF).
Proof. apply dns_batch_roundtrip. repeat constructor; unfold msg_ok; simpl; lia. Defined.

(** C8: no answer reaches the wrong question.  In every interleaving of
    queries, batches, the read loop and the waiters, a caller that is given a
    response is given one with the transaction identifier of its query. *)
Theorem dns_response_matches (w : writer) (r : reader) (ch : dnsChannel) (i : nat) (q : waiter) (resp : bytes) :
  rtc ch_step (newDNSChannel w r) ch ->
  waiters ch !! i = Some q -> w_res q = Some (RespOk resp) -> tx_of resp = w_tx q.
Proof.
  intros Hr Hi Hres. assert (Hinv : ch_inv ch).
  { eapply (rtc_invariant ch_step ch_inv); [exact ch_step_inv| |exact Hr].
    split; [constructor|apply map_Forall_empty]. }
  apply (Forall_lookup_1 _ _ _ _ (proj1 Hinv)) in Hi as [_ H]. by apply H.
Qed.

Definition demo_q (id : byte) : bytes := [x00; id] ++ replicate 10 x00.

Lemma dns_response_matches_witness :
  exists ch, rtc ch_step (newDNSChannel (mkWriter [] []) (mkReader (dns_frame (demo_q x02 ++ [x09])) EOF)) ch /\
    exists q, waiters ch !! 1%nat = Some q /\ w_res q = Some (RespOk (demo_q x02 ++ [x09])) /\
      tx_of (demo_q x02 ++ [x09]) = w_tx q.
Proof.
  set (c1 := flush_many [demo_q x01; demo_q x02]
    (newDNSChannel (mkWriter [] []) (mkReader (dns_frame (demo_q x02 ++ [x09])) EOF))).
  exists (default c1 (waiter_recv 1 (read_step c1))).
  assert (H : rtc ch_step (newDNSChannel (mkWriter [] []) (mkReader (dns_frame (demo_q x02 ++ [x09])) EOF))
    (default c1 (waiter_recv 1 (read_step c1)))).
  { eapply rtc_l; [apply (st_flush _ [demo_q x01; demo_q x02])|]. fold c1.
    eapply rtc_l; [apply st_read; reflexivity|].
    eapply rtc_l; [apply (st_recv _ 1); reflexivity|]. apply rtc_refl. }
  split; [exact H|]. eexists. split; [reflexivity|]. split; [reflexivity|].
  eapply (dns_response_matches _ _ _ 1 _ _ H); reflexivity.
Defined.

(** dispatch.  When the next frame on the stream answers the query that
    was last registered under its identifier, the read loop hands it to that
    caller, whose call returns it, and the identifier is free again. *)
Theorem dns_dispatch (ch : dnsChannel) (i : nat) (resp rest : bytes) (e : io_err) :
  2 <= Z.of_nat (length resp) <= 4096 ->
  ch_in ch = mkReader (dns_frame resp ++ rest) e ->
  pending ch !! tx_of resp = Some i -> waiters ch !! i = Some (mkWaiter (tx_of resp) None None) ->
  exists ch', waiter_recv i (read_step ch) = Some ch' /\
    waiters ch' !! i = Some (mkWaiter (tx_of resp) (Some (Some resp)) (Some (RespOk resp))) /\
    pending ch' !! tx_of resp = None /\ ch_in ch' = mkReader rest e.
Proof.
  intros Hlen Hin Hp Hw. unfold read_step. rewrite Hin, read_msg_frame by (unfold msg_ok; lia).
  rewrite (proj2 (Z.ltb_ge _ _)) by lia. cbn [pending set_in]. fold (tx_of resp). rewrite Hp.
  unfold try_send. cbn [waiters set_pending set_in]. rewrite Hw. cbn [w_buf w_tx w_res].
  pose proof (lookup_lt_Some _ _ _ Hw) as Hlt.
  unfold waiter_recv. cbn [waiters set_waiter]. rewrite list_lookup_insert_eq by done.
  eexists. split; [done|]. unfold return_waiter. cbn [waiters set_waiter set_pending].
  rewrite list_lookup_insert_eq by done. cbn [waiters set_waiter set_pending pending w_tx ch_in].
  split_and!; try done.
  - apply list_lookup_insert_eq. cbn. rewrite length_insert. done.
  - cbn. apply lookup_delete_eq.
Qed.

Lemma dns_dispatch_witness :
  let resp := demo_q x05 ++ [x01] in
  let ch := register 5 (newDNSChannel (mkWriter [] []) (mkReader (dns_frame resp ++ [x00]) EOF)) in
  exists ch', waiter_recv 0 (read_step ch) = Some ch' /\
    waiters ch' !! 0%nat = Some (mkWaiter 5 (Some (Some resp)) (Some (RespOk resp))) /\
    pending ch' !! 5 = None /\ ch_in ch' = mkReader [x00] EOF.
Proof.
  intros resp ch. apply (dns_dispatch ch 0 resp [x00] EOF); try reflexivity. vm_compute. split; discriminate.
Defined.

(** two outstanding queries with the same identifier interfere.  The
    second one takes over the registration, and when the first caller gives up
    its deferred removal deletes the registration of the second: the answer
    that then arrives is dropped, although its caller still waits. *)
Theorem dns_txid_collision (q1 q2 resp : bytes) (e : io_err) :
  12 <= Z.of_nat (length q1) -> 12 <= Z.of_nat (length q2) -> 2 <= Z.of_nat (length resp) <= 4096 ->
  tx_of q1 = tx_of q2 -> tx_of resp = tx_of q2 ->
  exists c1 c2 c3, 
    query_start q1 (newDNSChannel (mkWriter [] []) (mkReader (dns_frame resp) e)) = inl c1 /\
    query_start q2 c1 = inl c2 /\ pending c2 !! tx_of q2 = Some 1%nat /\
    waiter_timeout 0 c2 = Some c3 /\ pending c3 = ∅ /\
    ch_in (read_step c3) = mkReader [] e /\
    waiters (read_step c3) !! 1%nat = Some (mkWaiter (tx_of q2) None None).
Proof.
  intros H1 H2 Hr Htx Htr. unfold query_start. rewrite (proj2 (Z.ltb_ge _ _)) by lia.
  fold (tx_of q1). cbn [ch_out register newDNSChannel].
  rewrite Write_reliable by done. eexists. eexists. eexists. split; [done|].
  rewrite (proj2 (Z.ltb_ge _ _)) by lia. fold (tx_of q2). cbn [ch_out register set_out newDNSChannel].
  rewrite Write_reliable by done. split; [done|].
  cbn [pending waiters set_out register newDNSChannel length app].
  split; [by rewrite Htx, lookup_insert_eq|]. split; [done|].
  unfold return_waiter. cbn [waiters set_out register newDNSChannel app lookup list_lookup].
  assert (Hp : delete (tx_of q1) (<[tx_of q2 := 1%nat]> (<[tx_of q1 := 0%nat]> (∅ : gmap Z nat))) = ∅).
  { rewrite Htx, insert_insert_eq, delete_insert_eq. apply delete_empty. }
  cbn [pending set_pending set_waiter set_out register w_tx]. split; [exact Hp|].
  unfold read_step. cbn [ch_in set_pending set_waiter set_out register newDNSChannel].
  rewrite <- (app_nil_r (dns_frame resp)), read_msg_frame by (unfold msg_ok; lia).
  rewrite (proj2 (Z.ltb_ge _ _)) by lia.
  cbn [waiters pending set_in set_pending set_waiter set_out register newDNSChannel w_tx length app].
  rewrite Hp, lookup_empty. split; done.
Qed.

Lemma dns_txid_collision_witness :
  exists c1 c2 c3, 
    query_start (demo_q x05) (newDNSChannel (mkWriter [] []) (mkReader (dns_frame (demo_q x05)) EOF)) = inl c1 /\
    query_start (demo_q x05 ++ [x01]) c1 = inl c2 /\ pending c2 !! 5 = Some 1%nat /\
    waiter_timeout 0 c2 = Some c3 /\ pending c3 = ∅ /\
    ch_in (read_step c3) = mkReader [] EOF /\
    waiters (read_step c3) !! 1%nat = Some (mkWaiter 5 None None).
Proof.
  apply (dns_txid_collision (demo_q x05) (demo_q x05 ++ [x01]) (demo_q x05) EOF);
    try reflexivity; vm_compute; try discriminate; split; discriminate.
Defined.

(** batching loses and repeats nothing.  After any sequence of
    submissions and timer firings the flushed batches followed by the queue are
    the submitted items in order; every batch has 1 to 16 items, and a
    non-empty queue has a timer running. *)
Theorem dns_batching {item} (ops : list (batch_op (item:=item))) :
  let b := batch_run ops (mkBatcher [] false []) in
  concat (flushed b) ++ batchQueue b = submitted ops /\
  Forall (fun q => 0 < length q <= dnsBatchMaxQueries)%nat (flushed b) /\
  (length (batchQueue b) < dnsBatchMaxQueries)%nat /\
  (batchQueue b <> [] -> batchTimer b = true).
Proof.
  apply (batch_run_inv ops [] (mkBatcher [] false [])).
  unfold batch_inv, dnsBatchMaxQueries. simpl. split_and!; (done || lia).
Qed.

(** the pool picks a live channel.  With at most two channels before,
    [pickChannel] ends with at most two, all of them old channels that are not
    closed or channels it has just opened, and the round-robin index is always
    one of them. *)
Theorem dns_pick_alive {chan} (isDone : chan -> bool) (dial : nat -> res goerr chan) (rr : Z)
    (chs chs' : list chan) (c : chan) (rr' : Z) :
  (length chs <= dnsChannelCount)%nat ->
  pickChannel isDone dial rr chs = (Ok c, chs', rr') ->
  (length chs' <= dnsChannelCount)%nat /\ c ∈ chs' /\ 
  (forall x, x ∈ chs' -> (x ∈ chs /\ isDone x = false) \/ exists j, dial j = Ok x).
Proof.
  intros Hl. unfold pickChannel. set (alive := filter _ chs).
  assert (Ha : (length alive <= dnsChannelCount)%nat).
  { pose proof (length_filter (fun c => isDone c = false) chs). unfold alive. lia. }
  destruct (open_loop dnsChannelCount 0 dial alive) as [l|e] eqn:Ho; [|done].
  apply open_loop_spec in Ho as (H1 & H2 & H3); [|done].
  destruct l as [|c0 l]; [done|]. intros [=Hc <- <-]. split; [done|]. subst c. split.
  - apply list_elem_of_In.
    refine (nth_In (c0 :: l) c0 (n := Z.to_nat (u32 (rr + 1) mod Z.of_nat (length (c0 :: l)))) _).
    pose proof (Z.mod_pos_bound (u32 (rr + 1)) (Z.of_nat (length (c0 :: l)))). simpl length in *. lia.
  - intros x Hx. apply H3 in Hx as [Hx|?]; [|by right]. left. unfold alive in Hx.
    apply list_elem_of_filter in Hx as [??]. done.
Qed.

Lemma dns_pick_alive_witness :
  let isDone := fun c => bool_decide (c = 3) in
  let dial := fun k => Ok (Z.of_nat k + 100) in
  pickChannel isDone dial 4294967295 [3; 8] = (Ok 8, [8; 100], 0) /\
  (length [8; 100] <= dnsChannelCount)%nat /\ 8 ∈ [8; 100] /\
  (forall x, x ∈ [8; 100] -> (x ∈ [3; 8] /\ isDone x = false) \/ exists j, dial j = Ok x).
Proof.
  split; [vm_compute; reflexivity|].
  apply (dns_pick_alive (fun c => bool_decide (c = 3)) (fun k => Ok (Z.of_nat k + 100)) 4294967295
    [3; 8] [8; 100] 8 0); [unfold dnsChannelCount; simpl; lia|vm_compute; reflexivity].
Defined.

End DnsChannel.
