(* ===== verification/Tunnel.v ===== *)
(** * DNS resolution of the tunnel ([golib/tunnel/tun.go])

    [handleUDP] answers a DNS query from the cache or through a cascade of
    resolvers, [prefetchDNS] refreshes an entry, and [dnsViaTunnel] tries the
    persistent channel before a stream of its own.

    The dialers, the channel pool and the direct UDP exchange are arguments;
    the cascade records which resolver it asks in which order, so that the
    privacy property of the cascade can be stated. *)

From S2P Require Import Prelude IO GoStr DnsCache.

Open Scope Z_scope.

Module Tunnel.
Import DnsCache.

Definition dnsPort : Z := 53.
Definition udpBufSize : Z := 4096.

(** A dialed stream: what will arrive on it and where writes go. *)
Record conn := mkConn { c_r : reader; c_w : writer }.

Record env := mkEnv {
  dnsPool : option (bytes -> res goerr bytes);           (* nil, or [submitQuery] *)
  dialStream : option (string -> res goerr conn);        (* nil, or the WebRTC dialer *)
  socksDialer : res goerr (string -> res goerr conn);    (* [proxy.SOCKS5] and its [Dial] *)
  directUDP : string -> bytes -> res goerr bytes         (* the protected UDP exchange *)
}.

Record tunnel := mkTunnel {
  dnsAddr : string;
  dns2Addr : string;
  allowDirectDNS : bool;
  dns : dnsCache;
  prefetching : gset bytes;
  bytesUp : Z;
  bytesDown : Z
}.

Inductive event := EvPool | EvStream (target : string) | EvDirect (addr : string).

Definition set_dns (c : dnsCache) (t : tunnel) : tunnel :=
  mkTunnel (dnsAddr t) (dns2Addr t) (allowDirectDNS t) c (prefetching t) (bytesUp t) (bytesDown t).
Definition set_prefetching (p : gset bytes) (t : tunnel) : tunnel :=
  mkTunnel (dnsAddr t) (dns2Addr t) (allowDirectDNS t) (dns t) p (bytesUp t) (bytesDown t).
Definition add_bytes (up down : Z) (t : tunnel) : tunnel :=
  mkTunnel (dnsAddr t) (dns2Addr t) (allowDirectDNS t) (dns t) (prefetching t)
    (bytesUp t + up) (bytesDown t + down).

(** The exchange of [dnsViaStream] on a dialed connection. *)
Definition stream_exchange (query : bytes) (c : conn) : res goerr bytes :=
  let tcpMsg := replicate (2 + length query) x00 in
  let tcpMsg := splice 0 (be_put 2 (u16 (Z.of_nat (length query)))) tcpMsg in
  let tcpMsg := splice 2 query tcpMsg in
  match Write tcpMsg (c_w c) with
  | (Err e, _) => Err e
  | (Ok _, _) =>
      match ReadFull 2 (c_r c) with
      | (Err e, _) => Err e
      | (Ok lenBuf, r) =>
          let respLen := be_get lenBuf in
          if (respLen =? 0) || (udpBufSize <? respLen) then
            Err (EMsg "dns response length out of range" [respLen])
          else fst (ReadFull (Z.to_nat respLen) r)
      end
  end.

Definition dnsViaStream (E : env) (addr : string) (query : bytes) : res goerr bytes * list event :=
  let target := JoinHostPort addr (itoa dnsPort) in
  let r :=
    match dialStream E with
    | Some ds => match ds target with
                 | Err e => Err (EWrap "dial dns via stream" e)
                 | Ok c => stream_exchange query c
                 end
    | None => match socksDialer E with
              | Err e => Err (EWrap "socks5 dialer" e)
              | Ok d => match d target with
                        | Err e => Err (EWrap "dial dns via socks5" e)
                        | Ok c => stream_exchange query c
                        end
              end
    end in
  (r, [EvStream target]).

Definition dnsViaTunnel (E : env) (addr : string) (query : bytes) : res goerr bytes * list event :=
  match dnsPool E with
  | Some submitQuery =>
      match submitQuery query with
      | Ok resp => (Ok resp, [EvPool])
      | Err _ => let '(r, ev) := dnsViaStream E addr query in (r, EvPool :: ev)
      end
  | None => dnsViaStream E addr query
  end.

Definition dnsDirect (E : env) (addr : string) (query : bytes) : res goerr bytes * list event :=
  (directUDP E addr query, [EvDirect addr]).

(** The steps 1 and 2 of the cascade, shared with the prefetch. *)
Definition tunnel_resolvers (E : env) (t : tunnel) (query : bytes) : res goerr bytes * list event :=
  match dnsViaTunnel E (dnsAddr t) query with
  | (Ok r, ev) => (Ok r, ev)
  | (Err e, ev) =>
      if bool_decide (dns2Addr t = EmptyString) then (Err e, ev)
      else let '(r, ev') := dnsViaTunnel E (dns2Addr t) query in (r, ev ++ ev')
  end.

Definition cascade (E : env) (t : tunnel) (query : bytes) : res goerr bytes * list event :=
  match tunnel_resolvers E t query with
  | (Ok r, ev) => (Ok r, ev)
  | (Err e, ev) =>
      if allowDirectDNS t then let '(r, ev') := dnsDirect E (dnsAddr t) query in (r, ev ++ ev')
      else (Err e, ev)
  end.

Record outcome := mkOutcome {
  reply : option bytes;        (* the packet written to the client *)
  asked : list event;          (* the resolvers that were asked *)
  prefetch : bool              (* a prefetch was started *)
}.

(** [handleUDP] on the packet that was read; [None] is a panic. *)
Definition handleUDP (E : env) (query : bytes) (now : Z) (t : tunnel) : option (outcome * tunnel) :=
  match query with
  | [] => Some (mkOutcome None [] false, t)
  | _ =>
      let t := add_bytes (Z.of_nat (length query)) 0 t in
      let '(hit, c) := get query now (dns t) in
      let t := set_dns c t in
      match hit with
      | Some (resp, shouldPrefetch) =>
          Some (mkOutcome (Some resp) [] shouldPrefetch, add_bytes 0 (Z.of_nat (length resp)) t)
      | None =>
          match cascade E t query with
          | (Err _, ev) => Some (mkOutcome None ev false, t)
          | (Ok resp, ev) =>
              match put query resp now (dns t) with
              | None => None
              | Some c => Some (mkOutcome (Some resp) ev false,
                                add_bytes 0 (Z.of_nat (length resp)) (set_dns c t))
              end
          end
      end
  end.

(** [NewPacketConnectionEx]: only port 53 is served. *)
Definition NewPacketConnectionEx (E : env) (port : Z) (query : bytes) (now : Z) (t : tunnel)
    : option (outcome * tunnel) :=
  if negb (port =? dnsPort) then Some (mkOutcome None [] false, t) else handleUDP E query now t.

(** [prefetchDNS]; [now] is the time when the answer arrives.  The key is in
    [prefetching] while the resolvers are asked. *)
Definition prefetchDNS (E : env) (query : bytes) (now : Z) (t : tunnel) : option (list event * tunnel) :=
  if Z.of_nat (length query) <? 12 then Some ([], t)
  else
    let key := drop 2 query in
    if decide (key ∈ prefetching t) then Some ([], t)
    else
      match tunnel_resolvers E t query with
      | (Err _, ev) => Some (ev, t)
      | (Ok resp, ev) => match put query resp now (dns t) with
                         | None => None
                         | Some c => Some (ev, set_dns c t)
                         end
      end.

(** ** Lemmas *)

Definition is_direct (e : event) : bool := if e is EvDirect _ then true else false.

Definition indirect (ev : list event) : Prop := Forall (fun e => is_direct e = false) ev.

(** *** What the resolvers answer, and in which order they may be asked

    [answers E q ev r]: asked as [ev] says, the environment [E] answers the
    query [q] with [r].  A stream answers when it accepts the query behind its
    length and carries a length in range and that many bytes. *)

Definition dial (E : env) (target : string) : option conn :=
  match dialStream E with
  | Some ds => if ds target is Ok c then Some c else None
  | None => if socksDialer E is Ok d then (if d target is Ok c then Some c else None) else None
  end.

Definition stream_answers (q : bytes) (c : conn) (r : bytes) : Prop :=
  is_ok (fst (Write (be_put 2 (u16 (Z.of_nat (length q))) ++ q) (c_w c))) = true /\
  0 < Z.of_nat (length r) <= udpBufSize /\
  exists l, rd_data (c_r c) = be_put 2 (Z.of_nat (length r)) ++ r ++ l.

Definition answers (E : env) (q : bytes) (ev : event) (r : bytes) : Prop :=
  match ev with
  | EvPool => exists submitQuery, dnsPool E = Some submitQuery /\ submitQuery q = Ok r
  | EvStream target => exists c, dial E target = Some c /\ stream_answers q c r
  | EvDirect a => directUDP E a q = Ok r
  end.

(** The order of the comment in [handleUDP], most private first. *)
Definition via (E : env) (a : string) : list event :=
  (if dnsPool E is Some _ then [EvPool] else []) ++ [EvStream (JoinHostPort a "53")].

Definition plan (E : env) (t : tunnel) : list event :=
  via E (dnsAddr t) ++ (if decide (dns2Addr t = EmptyString) then [] else via E (dns2Addr t)) ++
  (if allowDirectDNS t then [EvDirect (dnsAddr t)] else []).

(** Asking the events of a plan in turn until one answers. *)
Inductive first_answer (E : env) (q : bytes) : list event -> list event -> option bytes -> Prop :=
  | fa_none : first_answer E q [] [] None
  | fa_hit ev evs r : answers E q ev r -> first_answer E q (ev :: evs) [ev] (Some r)
  | fa_miss ev evs asked rep : (forall r, ~ answers E q ev r) ->
      first_answer E q evs asked rep -> first_answer E q (ev :: evs) (ev :: asked) rep.

Lemma first_answer_more E q l1 a1 r l2 : first_answer E q l1 a1 (Some r) -> first_answer E q (l1 ++ l2) a1 (Some r).
Proof.
  intros Hf. remember (Some r) as rep eqn:Er. induction Hf; [done| |]; simpl.
  - by constructor.
  - apply fa_miss; auto.
Qed.

Lemma first_answer_app E q l1 a1 l2 a2 rep :
  first_answer E q l1 a1 None -> first_answer E q l2 a2 rep -> first_answer E q (l1 ++ l2) (a1 ++ a2) rep.
Proof.
  intros Hf H2. remember None as no eqn:Er. induction Hf; [done|done|]. simpl. apply fa_miss; auto.
Qed.

(** The two-byte length and the query, as the loops of [dnsViaStream] copy them. *)
Lemma framed q : splice 2 q (splice 0 (be_put 2 (u16 (Z.of_nat (length q)))) (replicate (2 + length q) x00)) =
  be_put 2 (u16 (Z.of_nat (length q))) ++ q.
Proof.
  rewrite (splice_app_0 (be_put 2 _)) by len. rewrite length_be_put.
  replace 2%nat with (length (be_put 2 (u16 (Z.of_nat (length q))))) at 1 by (by rewrite length_be_put).
  rewrite splice_app by len. rewrite drop_ge by len. by rewrite app_nil_r.
Qed.

Lemma stream_exchange_spec q c :
  match stream_exchange q c with
  | Ok r => stream_answers q c r
  | Err _ => forall r, ~ stream_answers q c r
  end.
Proof.
  unfold stream_exchange, stream_answers. rewrite framed. destruct (Write _ (c_w c)) as [[n|e] w]; [|by intros r [? _]]. cbn [fst is_ok].
  destruct (ReadFull 2 (c_r c)) as [[lenBuf|e] r1] eqn:E1; cycle 1.
  { intros r (_ & Hr & l & Hd). destruct (c_r c) as [data err]. cbn [rd_data] in Hd. rewrite Hd in E1.
    by rewrite ReadFull_app in E1 by (by rewrite length_be_put). }
  apply ReadFull_Ok_length in E1 as (Hl & Hd & _). pose proof (be_get_range lenBuf) as Hrange. rewrite Hl in Hrange.
  assert (Hlen : forall r l, 0 < Z.of_nat (length r) <= udpBufSize -> rd_data (c_r c) = be_put 2 (Z.of_nat (length r)) ++ r ++ l ->
            be_get lenBuf = Z.of_nat (length r) /\ rd_data r1 = r ++ l).
  { intros r l Hr Hdata. rewrite Hd in Hdata. apply app_inj_1 in Hdata as [-> ->]; [|by rewrite length_be_put].
    rewrite be_get_put_small; [done|]. unfold udpBufSize in Hr. lia. }
  destruct (_ || _) eqn:Eb.
  { intros r (_ & Hr & l & Hdata). destruct (Hlen r l Hr Hdata) as [Hg _]. rewrite Hg in Eb. lia. }
  destruct (ReadFull (Z.to_nat (be_get lenBuf)) r1) as [[r|e] r2] eqn:E2; cbn [fst].
  - apply ReadFull_Ok_length in E2 as (Hr & Hd2 & _). split; [done|]. apply orb_false_iff in Eb as [Eb1 Eb2].
    split; [lia|]. exists (rd_data r2). rewrite Hd, Hd2, Hr, Z2Nat.id by lia.
    f_equal. symmetry. replace 2%nat with (length lenBuf). apply be_put_get.
  - intros r (_ & Hr & l & Hdata). destruct (Hlen r l Hr Hdata) as [Hg Hd1]. destruct r1 as [data err]. cbn [rd_data] in Hd1.
    rewrite Hd1, Hg, Nat2Z.id, ReadFull_app in E2 by done. done.
Qed.

Definition rep_of (r : res goerr bytes) : option bytes := match r with Ok r => Some r | Err _ => None end.

Lemma dnsViaStream_first E a q :
  first_answer E q [EvStream (JoinHostPort a "53")] (snd (dnsViaStream E a q)) (rep_of (fst (dnsViaStream E a q))).
Proof.
  unfold dnsViaStream. change (itoa dnsPort) with "53". cbn [fst snd]. set (target := JoinHostPort a "53").
  assert (Hc : forall c, dial E target = Some c -> first_answer E q [EvStream target] [EvStream target] (rep_of (stream_exchange q c))).
  { intros c Hd. pose proof (stream_exchange_spec q c) as Hs. destruct (stream_exchange q c) as [r|e]; cbn [rep_of].
    - apply fa_hit. by exists c.
    - apply fa_miss; [|constructor]. intros r (c' & Hd' & Hr). rewrite Hd in Hd'. injection Hd' as <-. by apply (Hs r). }
  assert (Hn : dial E target = None -> first_answer E q [EvStream target] [EvStream target] None).
  { intros Hd. apply fa_miss; [|constructor]. intros r (c & Hd' & _). congruence. }
  unfold dial in Hc, Hn. destruct (dialStream E) as [ds|]; [destruct (ds target); auto|].
  destruct (socksDialer E) as [d|]; [destruct (d target); auto|auto].
Qed.

Lemma dnsViaTunnel_first E a q : first_answer E q (via E a) (snd (dnsViaTunnel E a q)) (rep_of (fst (dnsViaTunnel E a q))).
Proof.
  pose proof (dnsViaStream_first E a q) as Hs. unfold dnsViaTunnel, via. destruct (dnsPool E) as [f|] eqn:Ep; [|done]. cbn [app].
  destruct (f q) as [r|e] eqn:Ef; [apply fa_hit; by exists f|].
  destruct (dnsViaStream E a q) as [r ev]. apply fa_miss; [|done]. intros r' (f' & Hf & Hr). congruence.
Qed.

Lemma cascade_first E t q : first_answer E q (plan E t) (snd (cascade E t q)) (rep_of (fst (cascade E t q))).
Proof.
  pose proof (dnsViaTunnel_first E (dnsAddr t) q) as H1. pose proof (dnsViaTunnel_first E (dns2Addr t) q) as H2.
  assert (Hd : first_answer E q (if allowDirectDNS t then [EvDirect (dnsAddr t)] else []) (if allowDirectDNS t then [EvDirect (dnsAddr t)] else [])
            (if allowDirectDNS t then rep_of (directUDP E (dnsAddr t) q) else None)).
  { destruct (allowDirectDNS t); [|constructor]. destruct (directUDP E (dnsAddr t) q) as [r|] eqn:Ed; [by apply fa_hit|].
    apply fa_miss; [|constructor]. intros r Hr. simpl in Hr. congruence. }
  unfold cascade, tunnel_resolvers, plan. destruct (dnsViaTunnel E (dnsAddr t) q) as [[r|e] ev]; cbn [fst snd rep_of] in *; [by apply first_answer_more|].
  case_bool_decide as He; [rewrite decide_True by done|rewrite decide_False by done].
  - destruct (allowDirectDNS t) eqn:Ha; cbn [dnsDirect fst snd rep_of].
    + by apply (first_answer_app _ _ _ _ ([] ++ _)).
    + rewrite <- (app_nil_r ev). by apply (first_answer_app _ _ _ _ ([] ++ _)).
  - destruct (dnsViaTunnel E (dns2Addr t) q) as [[r|e'] ev']; cbn [fst snd rep_of] in *.
    { apply first_answer_app; [done|]. by apply first_answer_more. }
    destruct (allowDirectDNS t) eqn:Ha; cbn [dnsDirect fst snd rep_of].
    + rewrite <- app_assoc. apply first_answer_app; [done|]. by apply first_answer_app.
    + apply first_answer_app; [done|]. rewrite app_nil_r. done.
Qed.

(** A plan is asked to its end exactly as far as nothing has answered. *)
Lemma first_answer_prefix E q l a rep : first_answer E q l a rep ->
  exists l', l = a ++ l' /\ (forall l1 ev l2, a = l1 ++ ev :: l2 -> forall e, e ∈ l1 -> forall r, ~ answers E q e r).
Proof.
  induction 1 as [|ev evs r Ha|ev evs a rep Hm _ (l' & -> & IH)].
  - exists []. split; [done|]. by intros [].
  - exists evs. split; [done|]. intros [|x [|]] e0 l2 [=]; intros e' He. by apply elem_of_nil in He.
  - exists l'. split; [done|]. intros [|x l1] e l2 [=]; subst; intros e' He; [by apply elem_of_nil in He|].
    apply elem_of_cons in He as [->|He]; [done|]. by eapply IH.
Qed.

Lemma via_indirect E a : indirect (via E a).
Proof. unfold via. destruct (dnsPool E); by repeat constructor. Qed.

Lemma plan_direct E t : exists l, indirect l /\ plan E t = l ++ (if allowDirectDNS t then [EvDirect (dnsAddr t)] else []).
Proof.
  unfold plan. rewrite app_assoc. eexists. split; [|done]. apply Forall_app. split; [apply via_indirect|]. case_decide; [constructor|apply via_indirect].
Qed.

Lemma direct_last E q t ev rep a : first_answer E q (plan E t) ev rep -> EvDirect a ∈ ev ->
  allowDirectDNS t = true /\ a = dnsAddr t /\ ev = plan E t /\
  exists tunnelled, plan E t = tunnelled ++ [EvDirect a] /\ indirect tunnelled /\ forall e r, e ∈ tunnelled -> ~ answers E q e r.
Proof.
  intros (l' & Hp & Hm)%first_answer_prefix Ha. destruct (plan_direct E t) as (l & Hl & Hpl).
  assert (Hin : EvDirect a ∈ plan E t) by (rewrite Hp; set_solver). rewrite Hpl in Hin. apply elem_of_app in Hin as [Hin|Hin].
  { unfold indirect in Hl. rewrite Forall_forall in Hl. by specialize (Hl _ Hin). }
  destruct (allowDirectDNS t); [|by apply elem_of_nil in Hin]. apply list_elem_of_singleton in Hin. injection Hin as ->.
  apply list_elem_of_split in Ha as (e1 & e2 & ->). rewrite Hpl, <- app_assoc in Hp. cbn [app] in Hp.
  assert (Hsplit : e1 = l /\ e2 ++ l' = []).
  { clear -Hp Hl. revert l Hp Hl. induction e1 as [|x e1 IH]; intros [|y l] Hp Hl; cbn [app] in Hp; simplify_eq.
    - done.
    - apply Forall_cons in Hl as [Hl _]. done.
    - by destruct e1.
    - apply Forall_cons in Hl as [_ Hl]. match goal with H : _ = _ |- _ => destruct (IH l H Hl) as [-> ->] end. done. }
  destruct Hsplit as [-> Hnil]. apply app_eq_nil in Hnil as [-> ->]. split_and!; [done|done|done|].
  exists l. split_and!; [done|done|]. intros e r He. by eapply Hm.
Qed.

Definition tunnel_wf (t : tunnel) : Prop := cache_wf (dns t) /\ bounded (dns t).

(** ** Properties *)

(** C9: privacy of the cascade.  For every query and every behaviour of the
    resolvers [handleUDP] returns and keeps the cache well-formed.  A query that
    the cache answers is sent to nobody.  Any other is sent to the resolvers of
    the plan in order until one answers, and that answer is the reply: the first
    resolver through the channel pool, then over a stream of its own; if one is
    configured, the second resolver in the same ways; and only if direct
    resolution is allowed, as the very last, the unencrypted resolver.  So the
    direct resolver is asked only when it is allowed and after every way
    through the tunnel to every configured resolver has been tried and has not
    answered. *)
Theorem tun_dns_no_leak (E : env) (query : bytes) (now : Z) (t : tunnel) :
  tunnel_wf t -> query <> [] ->
  exists o t', handleUDP E query now t = Some (o, t') /\ tunnel_wf t' /\
    match fst (get query now (dns t)) with
    | Some (resp, _) => asked o = [] /\ reply o = Some resp
    | None => first_answer E query (plan E t) (asked o) (reply o)
    end /\
    (forall a, EvDirect a ∈ asked o ->
       allowDirectDNS t = true /\ a = dnsAddr t /\ asked o = plan E t /\
       exists tunnelled, plan E t = tunnelled ++ [EvDirect a] /\ indirect tunnelled /\
         forall e r, e ∈ tunnelled -> ~ answers E query e r).
Proof.
  intros [Hwf Hb] Hne. unfold handleUDP. destruct query as [|b query]; [done|]. clear Hne.
  set (q := b :: query). pose proof (get_wf q now (dns t) Hwf Hb) as [Hwf1 Hb1].
  cbn [dns add_bytes]. destruct (get q now (dns t)) as [[[resp pf]|] c]; cbn [fst snd] in *.
  { eexists _, _. split; [done|]. split; [done|]. split; [done|]. intros a Ha. by apply elem_of_nil in Ha. }
  set (t1 := set_dns c _). pose proof (cascade_first E t1 q) as Hc. change (plan E t1) with (plan E t) in Hc.
  assert (Hput : forall r, exists c', put q r now (dns t1) = Some c' /\ cache_wf c' /\ bounded c').
  { intros r. destruct (put_spec q r now c Hwf1 Hb1) as (c' & ? & ? & ? & _). eauto. }
  assert (Hdir : forall a, EvDirect a ∈ snd (cascade E t1 q) ->
            allowDirectDNS t = true /\ a = dnsAddr t /\ snd (cascade E t1 q) = plan E t /\
            exists tunnelled, plan E t = tunnelled ++ [EvDirect a] /\ indirect tunnelled /\ forall e r, e ∈ tunnelled -> ~ answers E q e r)
    by (intros a Ha; eapply direct_last; eauto).
  destruct (cascade E t1 q) as [[r|e] ev]; cbn [fst snd rep_of] in *.
  - destruct (Hput r) as (c' & -> & Hw & Hbd). eexists _, _. split; [done|]. split; [done|]. by split.
  - eexists _, _. split; [done|]. split; [done|]. by split.
Qed.

Definition failing_env : env :=
  mkEnv (Some (fun _ => Err (EMsg "timeout" []))) None (Err (EMsg "refused" [])) (fun _ q => Ok q).
Definition demo_tunnel (direct : bool) : tunnel :=
  mkTunnel "8.8.8.8" "1.1.1.1" direct newDNSCache ∅ 0 0.

Lemma demo_tunnel_wf b : tunnel_wf (demo_tunnel b).
Proof. split; [apply cache_wf_new|]. unfold bounded, dnsCacheMaxEntries. simpl. lia. Qed.

Lemma tun_dns_no_leak_witness :
  exists o t', handleUDP failing_env (demo_query x01) 5 (demo_tunnel true) = Some (o, t') /\
    asked o = [EvPool; EvStream "8.8.8.8:53"; EvPool; EvStream "1.1.1.1:53"; EvDirect "8.8.8.8"] /\ asked o = plan failing_env (demo_tunnel true).
Proof.
  destruct (tun_dns_no_leak failing_env (demo_query x01) 5 (demo_tunnel true) (demo_tunnel_wf true) ltac:(discriminate))
    as (o & t' & Heq & _ & _ & Hd).
  assert (Ha : asked o = [EvPool; EvStream "8.8.8.8:53"; EvPool; EvStream "1.1.1.1:53"; EvDirect "8.8.8.8"])
    by (vm_compute in Heq; injection Heq as <- _; reflexivity).
  exists o, t'. split; [exact Heq|]. split; [exact Ha|]. apply (Hd "8.8.8.8"). rewrite Ha. repeat constructor.
Defined.

(** a resolved question is answered from the cache.  After [handleUDP]
    has forwarded a response of at least 12 bytes, the same question with any
    transaction identifier, asked before the lifetime has passed, is answered
    with that response under the new identifier and without asking any
    resolver. *)
Theorem tun_dns_cached (E E' : env) (q q' resp : bytes) (now now' : Z) (t t1 : tunnel) (ev : list event) :
  tunnel_wf t -> 12 <= Z.of_nat (length q) -> 12 <= Z.of_nat (length resp) ->
  length q' = length q -> drop 2 q' = drop 2 q ->
  fst (get q now (dns t)) = None ->
  handleUDP E q now t = Some (mkOutcome (Some resp) ev false, t1) ->
  exists ttl, stored_ttl resp ttl /\
    (now' <= now + ttl -> exists pf t2,
       handleUDP E' q' now' t1 = Some (mkOutcome (Some (splice 0 (take 2 q') resp)) [] pf, t2)).
Proof.
  intros [Hwf Hb] Hq Hr Hlen Hbody Hmiss. pose proof (get_wf q now (dns t) Hwf Hb) as [Hwf1 Hb1].
  unfold handleUDP at 1. destruct q as [|b0 q0]; [simpl in Hq; lia|]. set (q := b0 :: q0) in *.
  cbn [dns add_bytes]. destruct (get q now (dns t)) as [hit c]. cbn [fst snd] in *. subst hit.
  set (t0 := set_dns c _). destruct (cascade E t0 q) as [[r|] ev']; [|done].
  replace (dns t0) with c by done.
  destruct (put_spec q r now c Hwf1 Hb1) as (c' & -> & Hwf2 & Hb2 & Hst).
  intros [= <- <- <-].
  rewrite (proj2 (Z.ltb_ge _ _)), (proj2 (Z.ltb_ge _ _)) in Hst by lia.
  destruct Hst as (ttl & Httl & Hent & _). exists ttl. split; [done|]. intros Hnow.
  unfold handleUDP. destruct q' as [|b1 q1]; [simpl in Hlen; lia|]. set (q' := b1 :: q1) in *.
  cbn [dns add_bytes set_dns]. unfold get.
  rewrite (proj2 (Z.ltb_ge _ _)) by lia. rewrite Hbody, Hent. cbn [expiry].
  rewrite (proj2 (Z.ltb_ge _ _)) by lia. eauto.
Qed.

Definition answering_env : env :=
  mkEnv (Some (fun q => Ok (take 2 q ++ replicate 10 x00))) None (Err (EMsg "refused" [])) (fun _ _ => Err (EIO EOF)).

Lemma tun_dns_cached_witness :
  exists t1 ttl, 
    handleUDP answering_env (demo_query x01) 5 (demo_tunnel false) =
      Some (mkOutcome (Some (x01 :: x01 :: replicate 10 x00)) [EvPool] false, t1) /\
    stored_ttl (x01 :: x01 :: replicate 10 x00) ttl /\
    exists pf t2, handleUDP failing_env (demo_query x09) 6 t1 =
      Some (mkOutcome (Some (x09 :: x01 :: replicate 10 x00)) [] pf, t2).
Proof.
  eexists. assert (H1 : handleUDP answering_env (demo_query x01) 5 (demo_tunnel false) =
    Some (mkOutcome (Some (x01 :: x01 :: replicate 10 x00)) [EvPool] false,
      add_bytes 0 12 (set_dns (default newDNSCache (put (demo_query x01) (x01 :: x01 :: replicate 10 x00) 5 newDNSCache))
        (add_bytes 14 0 (demo_tunnel false))))) by (vm_compute; reflexivity).
  destruct (tun_dns_cached answering_env failing_env (demo_query x01) (demo_query x09)
    (x01 :: x01 :: replicate 10 x00) 5 6 (demo_tunnel false) _ _ (demo_tunnel_wf false)
    ltac:(by vm_compute) ltac:(by vm_compute) eq_refl eq_refl eq_refl H1) as (ttl & Ht & Hans).
  exists ttl. split; [exact H1|]. split; [exact Ht|]. apply Hans.
  destruct Ht as (t0 & nx & Ht0 & Hnx & ->). vm_compute in Ht0. injection Ht0 as <-.
  vm_compute in Hnx. injection Hnx as <-. vm_compute. discriminate.
Defined.

End Tunnel.
