(* ===== verification/SignalServer.v ===== *)
(** * The signaling server ([signalserver/cmd/signalserver/main.go])

    The session store with its watchers, the discovery store, the UDP relay
    and the HTTP handlers over them.

    A Go channel of capacity one is a cell of the channel heap: whether it
    holds a token and whether it is closed.  A watcher set maps to the cells of
    its members.  A send to a closed channel panics ([None]).  The handlers that
    notify do so after they released the lock, so [set] and [notify] are
    separate steps. *)

From S2P Require Import Prelude IO GoStr.

Open Scope Z_scope.

Module SignalServer.

(** ** Channels *)

Record chan := mkChan { tok : bool; closed : bool }.

(** [make(chan struct{}, 1)]: the new cell is at the end of the heap. *)
Definition new_chan : chan := mkChan false false.

(** [select { case ch <- struct{}{}: default: }] *)
Definition send (i : nat) (h : list chan) : option (list chan) :=
  match h !! i with
  | None => Some h
  | Some c => if closed c then None
              else if tok c then Some h else Some (<[i := mkChan true false]> h)
  end.

Fixpoint send_all (is_ : list nat) (h : list chan) : option (list chan) :=
  match is_ with
  | [] => Some h
  | i :: is_ => match send i h with Some h => send_all is_ h | None => None end
  end.

(** [close(ch)]; closing twice panics. *)
Definition close_chan (i : nat) (h : list chan) : option (list chan) :=
  match h !! i with
  | None => Some h
  | Some c => if closed c then None else Some (<[i := mkChan (tok c) true]> h)
  end.

(** ** Session store *)

Record sessionEntry := mkSession { Offer : bytes; Answer : bytes; UpdatedAt : Z }.

Record sessionHub := mkHub {
  sessions : gmap string sessionEntry;
  watchO : gmap string (gset nat);
  watchA : gmap string (gset nat)
}.

Definition newSessionHub : sessionHub := mkHub ∅ ∅ ∅.

(** [get] returns a copy of the entry. *)
Definition get (sessionID : string) (h : sessionHub) : option sessionEntry := sessions h !! sessionID.

Definition emptySession : sessionEntry := mkSession [] [] 0.

(** The locked part of [setOffer], with the watchers to notify. *)
Definition setOffer (sessionID : string) (body : bytes) (now : Z) (h : sessionHub)
    : sessionHub * list nat :=
  let e := default emptySession (sessions h !! sessionID) in
  (mkHub (<[sessionID := mkSession body (Answer e) now]> (sessions h)) (watchO h) (watchA h),
   elements (default ∅ (watchO h !! sessionID))).

Definition setAnswer (sessionID : string) (body : bytes) (now : Z) (h : sessionHub)
    : sessionHub * list nat :=
  let e := default emptySession (sessions h !! sessionID) in
  (mkHub (<[sessionID := mkSession (Offer e) body now]> (sessions h)) (watchO h) (watchA h),
   elements (default ∅ (watchA h !! sessionID))).

Definition watch_add (sessionID : string) (i : nat) (m : gmap string (gset nat)) : gmap string (gset nat) :=
  <[sessionID := {[i]} ∪ default ∅ (m !! sessionID)]> m.

Definition watch_del (sessionID : string) (i : nat) (m : gmap string (gset nat)) : gmap string (gset nat) :=
  match m !! sessionID with
  | None => m
  | Some mm => if decide (mm ∖ {[i]} = ∅) then delete sessionID m else <[sessionID := mm ∖ {[i]}]> m
  end.

(** [watchOffer]: the new hub, the channel heap and the channel. *)
Definition watchOffer (sessionID : string) (h : sessionHub) (ch : list chan)
    : sessionHub * list chan * nat :=
  let i := length ch in
  (mkHub (sessions h) (watch_add sessionID i (watchO h)) (watchA h), ch ++ [new_chan], i).

Definition watchAnswer (sessionID : string) (h : sessionHub) (ch : list chan)
    : sessionHub * list chan * nat :=
  let i := length ch in
  (mkHub (sessions h) (watchO h) (watch_add sessionID i (watchA h)), ch ++ [new_chan], i).

(** The [stop] functions: unregister under the lock, then close. *)
Definition stopOffer (sessionID : string) (i : nat) (h : sessionHub) (ch : list chan)
    : option (sessionHub * list chan) :=
  (fun ch => (mkHub (sessions h) (watch_del sessionID i (watchO h)) (watchA h), ch)) <$> close_chan i ch.

Definition stopAnswer (sessionID : string) (i : nat) (h : sessionHub) (ch : list chan)
    : option (sessionHub * list chan) :=
  (fun ch => (mkHub (sessions h) (watchO h) (watch_del sessionID i (watchA h)), ch)) <$> close_chan i ch.

(** One tick of [gcLoop]: stale sessions go, with their watcher sets. *)
Definition session_gc (now ttl : Z) (h : sessionHub) : sessionHub :=
  let stale := fun e => UpdatedAt e <? now - ttl in
  let live {A} (m : gmap string A) : gmap string A :=
    filter (fun kv => from_option stale false (sessions h !! fst kv) = false) m in
  mkHub (live (sessions h)) (live (watchO h)) (live (watchA h)).

(** ** Discovery store *)

Record listing := mkListing {
  l_ID : string; l_Name : string; l_Room : string; l_Code : string; l_Method : string;
  l_Transport : string; l_Protocol : string; l_NatMapping : string; l_NatFiltering : string;
  l_UpdatedAt : Z
}.

Record discoveryHub := mkDisc { listings : gmap string listing; watchers : gset nat }.

Definition newDiscoveryHub : discoveryHub := mkDisc ∅ ∅.

Definition letters : string := "abcdefghijklmnopqrstuvwxyzABCDEFGHIJKLMNOPQRSTUVWXYZ0123456789".

Fixpoint randomID {G} `{Rand G} (n : nat) (g : G) : string * G :=
  match n with
  | O => (EmptyString, g)
  | S n =>
      let '(x, g) := intn 62 g in
      let c := default Ascii.zero (String.get (Z.to_nat x) letters) in
      let '(s, g) := randomID n g in (String c s, g)
  end.

Definition set_id (id : string) (now : Z) (l : listing) : listing :=
  mkListing id (l_Name l) (l_Room l) (l_Code l) (l_Method l) (l_Transport l) (l_Protocol l)
    (l_NatMapping l) (l_NatFiltering l) now.

Definition register {G} `{Rand G} (l : listing) (now : Z) (d : discoveryHub) (g : G)
    : string * discoveryHub * G :=
  let '(id, g) := if decide (l_ID l = EmptyString) then randomID 12 g else (l_ID l, g) in
  (id, mkDisc (<[id := set_id id now l]> (listings d)) (watchers d), g).

Definition heartbeat (id : string) (now : Z) (d : discoveryHub) : bool * discoveryHub :=
  match listings d !! id with
  | None => (false, d)
  | Some l => (true, mkDisc (<[id := set_id (l_ID l) now l]> (listings d)) (watchers d))
  end.

Definition remove (id : string) (d : discoveryHub) : discoveryHub :=
  mkDisc (delete id (listings d)) (watchers d).

(** [list(room)]; [order] is the order in which the map is iterated. *)
Definition list_room (room : string) (order : list listing) : list listing :=
  filter (fun l => room = EmptyString \/ l_Room l = room) order.

Definition watch (d : discoveryHub) (ch : list chan) : discoveryHub * list chan * nat :=
  let i := length ch in (mkDisc (listings d) ({[i]} ∪ watchers d), ch ++ [new_chan], i).

Definition stop (i : nat) (d : discoveryHub) (ch : list chan) : option (discoveryHub * list chan) :=
  (fun ch => (mkDisc (listings d) (watchers d ∖ {[i]}), ch)) <$> close_chan i ch.

(** [notifyAll] takes the watchers under the lock and sends without it. *)
Definition notify_snapshot (d : discoveryHub) : list nat := elements (watchers d).
Definition notifyAll (d : discoveryHub) (ch : list chan) : option (list chan) :=
  send_all (notify_snapshot d) ch.

Definition discovery_gc (now ttl : Z) (d : discoveryHub) : discoveryHub * bool :=
  let live : gmap string listing := filter (fun kv => (l_UpdatedAt (snd kv) <? now - ttl) = false) (listings d) in
  (mkDisc live (watchers d), existsb (fun kv => l_UpdatedAt (snd kv) <? now - ttl) (map_to_list (listings d))).

(** *** The exchange sort of [sortByUpdatedDesc] *)

(** [if list[j] is newer than list[i] swap them] *)
Definition cmp_swap (i j : nat) (l : list listing) : list listing :=
  match l !! i, l !! j with
  | Some a, Some b => if l_UpdatedAt a <? l_UpdatedAt b then <[i := b]> (<[j := a]> l) else l
  | _, _ => l
  end.

Definition sort_inner (i : nat) (l : list listing) : list listing :=
  for_up (length l - S i) (S i) (fun j l => cmp_swap i j l) l.

Definition sortByUpdatedDesc (l : list listing) : list listing :=
  for_up (length l) 0 sort_inner l.

(** ** UDP relay *)

Record relayPeer := mkPeer { p_addr : Z; p_updatedAt : Z }.
Record relaySession := mkRelay { server : option relayPeer; client : option relayPeer }.
Record udpRelay := mkUdp { rsessions : gmap bytes relaySession; recv : Z; sent : Z }.

Definition newUDPRelay : udpRelay := mkUdp ∅ 0 0.

Definition addrEqual (a b : option Z) : bool :=
  match a, b with Some a, Some b => a =? b | _, _ => false end.

Definition is_registration (pkt : bytes) : bool :=
  bool_decide (length pkt = 21%nat) && bool_decide (take 4 pkt = [xde; xad; xbe; xef]).

(** The search over the sessions in iteration order: the opposite peer. *)
Fixpoint find_target (from : Z) (ss : list relaySession) : option Z :=
  match ss with
  | [] => None
  | s :: ss =>
      if addrEqual (p_addr <$> server s) (Some from) then p_addr <$> client s
      else if addrEqual (p_addr <$> client s) (Some from) then p_addr <$> server s
      else find_target from ss
  end.

(** [handlePacket]: the new relay and the datagram that is forwarded.
    [order] is the order in which the map is iterated. *)
Definition handlePacket (pkt : bytes) (from now : Z) (order : list relaySession) (r : udpRelay)
    : udpRelay * option (Z * bytes) :=
  let rc := u64 (recv r + 1) in
  if is_registration pkt then
    let key := slice 4 20 pkt in
    let role := be_get (slice 20 21 pkt) in
    let s := default (mkRelay None None) (rsessions r !! key) in
    let peer := Some (mkPeer from now) in
    let s' := if role =? 1 then mkRelay (server s) peer else mkRelay peer (client s) in
    (mkUdp (<[key := s']> (rsessions r)) rc (sent r), None)
  else
    match find_target from order with
    | None => (mkUdp (rsessions r) rc (sent r), None)
    | Some target => (mkUdp (rsessions r) rc (u64 (sent r + 1)), Some (target, pkt))
    end.

Definition relay_stale (now ttl : Z) (s : relaySession) : bool :=
  let fresh p := match p with Some p => now - ttl <? p_updatedAt p | None => false end in
  negb (fresh (server s)) && negb (fresh (client s)).

Definition relay_gc (now ttl : Z) (r : udpRelay) : udpRelay :=
  mkUdp (filter (fun kv => relay_stale now ttl (snd kv) = false) (rsessions r)) (recv r) (sent r).

(** ** HTTP handlers *)

Inductive method := GET | POST | DELETE | OtherMethod.

#[export] Instance method_eq_dec : EqDecision method.
Proof. solve_decision. Defined.

Inductive body := BNone | BRaw (b : bytes) | BText (s : string) | BListings (l : list listing).

Record response := mkResp { status : Z; rbody : body }.

Definition NotFound : response := mkResp 404 (BText "404 page not found").

Record apiServer := mkServer { hub : sessionHub; disc : discoveryHub; chans : list chan }.

Definition set_hub (h : sessionHub) (s : apiServer) : apiServer := mkServer h (disc s) (chans s).
Definition set_disc (d : discoveryHub) (s : apiServer) : apiServer := mkServer (hub s) d (chans s).
Definition set_chans (c : list chan) (s : apiServer) : apiServer := mkServer (hub s) (disc s) c.

(** [readBodyLimit]: at most [limit] bytes are read and the rest is ignored. *)
Definition readBodyLimit (b : bytes) (limit : Z) : res string bytes :=
  let b := take (Z.to_nat limit) b in
  match b with [] => Err "empty body" | _ => Ok b end.

(** [sendSessionSSE]: the event that is written, if any. *)
Definition sendSessionSSE (sessionID : string) (isOffer : bool) (s : apiServer) : option bytes :=
  match get sessionID (hub s) with
  | None => None
  | Some e => match (if isOffer then Offer e else Answer e) with [] => None | b => Some b end
  end.

(** [handleSessionStream] up to its loop: subscribe, then send what is there. *)
Definition stream_open (sessionID : string) (isOffer : bool) (s : apiServer)
    : option bytes * nat * apiServer :=
  let '(h, c, i) := if isOffer then watchOffer sessionID (hub s) (chans s)
                    else watchAnswer sessionID (hub s) (chans s) in
  let s := set_chans c (set_hub h s) in
  (sendSessionSSE sessionID isOffer s, i, s).

Section handlers.
(** [json.Unmarshal] into [any], and into a map of strings. *)
Variable jsonValid : bytes -> bool.
Variable jsonMap : bytes -> option (gmap string string).
Variable TrimSpace : string -> string.

(** [handleSession]; [None] is a panic of a send.  For a stream the response
    is what [handleSessionStream] writes before its loop. *)
Definition handleSession (m : method) (path : string) (reqBody : bytes) (now : Z) (s : apiServer)
    : option (response * apiServer) :=
  match split_char slash (Trim slash path) with
  | p0 :: sessionID :: kind :: more =>
      if negb (bool_decide (p0 = "session")) then Some (NotFound, s)
      else if bool_decide (head more = Some "stream") then
        if negb (bool_decide (m = GET)) then Some (mkResp 405 BNone, s)
        else if bool_decide (kind = "offer") || bool_decide (kind = "answer") then
          let '(ev, _, s) := stream_open sessionID (bool_decide (kind = "offer")) s in
          Some (mkResp 200 (match ev with Some b => BRaw b | None => BNone end), s)
        else Some (NotFound, s)
      else
        match m with
        | POST =>
            match readBodyLimit reqBody (512 * 1024) with
            | Err e => Some (mkResp 400 (BText e), s)
            | Ok b =>
                if negb (jsonValid b) then Some (mkResp 400 (BText "invalid json"), s)
                else if bool_decide (kind = "offer") then
                  let '(h, ws) := setOffer sessionID b now (hub s) in
                  match send_all ws (chans s) with
                  | None => None
                  | Some c => Some (mkResp 200 BNone, set_chans c (set_hub h s))
                  end
                else if bool_decide (kind = "answer") then
                  let '(h, ws) := setAnswer sessionID b now (hub s) in
                  match send_all ws (chans s) with
                  | None => None
                  | Some c => Some (mkResp 200 BNone, set_chans c (set_hub h s))
                  end
                else Some (NotFound, s)
            end
        | GET =>
            match get sessionID (hub s) with
            | None => Some (mkResp 404 BNone, s)
            | Some e =>
                if bool_decide (kind = "offer") then
                  match Offer e with
                  | [] => Some (mkResp 404 BNone, s)
                  | o => Some (mkResp 200 (BRaw o), s)
                  end
                else if bool_decide (kind = "answer") then
                  match Answer e with
                  | [] => Some (mkResp 404 BNone, s)
                  | a => Some (mkResp 200 (BRaw a), s)
                  end
                else Some (NotFound, s)
            end
        | _ => Some (mkResp 405 BNone, s)
        end
  | _ => Some (NotFound, s)
  end.

(** The [notify] arm of its loop: take the token and send what is there. *)
Definition stream_notify (sessionID : string) (isOffer : bool) (i : nat) (s : apiServer)
    : option (option bytes * apiServer) :=
  match chans s !! i with
  | Some (mkChan true cl) =>
      let s := set_chans (<[i := mkChan false cl]> (chans s)) s in
      Some (sendSessionSSE sessionID isOffer s, s)
  | _ => None
  end.

(** Its end: the deferred [stop]. *)
Definition stream_close (sessionID : string) (isOffer : bool) (i : nat) (s : apiServer) : option apiServer :=
  (fun hc => set_chans (snd hc) (set_hub (fst hc) s)) <$>
    (if isOffer then stopOffer sessionID i (hub s) (chans s) else stopAnswer sessionID i (hub s) (chans s)).

Definition field (data : gmap string string) (k : string) : string := TrimSpace (default EmptyString (data !! k)).

Definition handleDiscoveryRegister {G} `{Rand G} (m : method) (reqBody : bytes) (now : Z) (s : apiServer) (g : G)
    : option (response * apiServer * G) :=
  if negb (bool_decide (m = POST)) then Some (mkResp 405 BNone, s, g)
  else
    match readBodyLimit reqBody (64 * 1024) with
    | Err e => Some (mkResp 400 (BText e), s, g)
    | Ok b =>
        match jsonMap b with
        | None => Some (mkResp 400 (BText "invalid json"), s, g)
        | Some data =>
            let name := field data "name" in
            let code := field data "code" in
            if bool_decide (name = EmptyString) || bool_decide (code = EmptyString) then
              Some (mkResp 400 (BText "missing name/code"), s, g)
            else
              let l := mkListing EmptyString name (field data "room") code (field data "method")
                         (field data "transport") (field data "protocol") (field data "nat_mapping")
                         (field data "nat_filtering") 0 in
              let '(id, d, g) := register l now (disc s) g in
              match notifyAll d (chans s) with
              | None => None
              | Some c => Some (mkResp 201 (BText id), set_chans c (set_disc d s), g)
              end
        end
    end.

Definition handleDiscoveryItem (m : method) (path : string) (now : Z) (s : apiServer)
    : option (response * apiServer) :=
  match split_char slash (Trim slash path) with
  | p0 :: id :: rest =>
      if negb (bool_decide (p0 = "discovery")) then Some (NotFound, s)
      else match rest with
           | [] =>
               if negb (bool_decide (m = DELETE)) then Some (mkResp 405 BNone, s)
               else let d := remove id (disc s) in
                    match notifyAll d (chans s) with
                    | None => None
                    | Some c => Some (mkResp 200 BNone, set_chans c (set_disc d s))
                    end
           | [p2] =>
               if bool_decide (p2 = "heartbeat") then
                 if negb (bool_decide (m = POST)) then Some (mkResp 405 BNone, s)
                 else let '(ok, d) := heartbeat id now (disc s) in
                      Some (mkResp (if ok then 200 else 404) BNone, set_disc d s)
               else Some (NotFound, s)
           | _ => Some (NotFound, s)
           end
  | _ => Some (NotFound, s)
  end.

(** [handleDiscoveryServers]; [order] is the order of the map iteration. *)
Definition handleDiscoveryServers (m : method) (room : string) (order : list listing) : response :=
  if negb (bool_decide (m = GET)) then mkResp 405 BNone
  else mkResp 200 (BListings (sortByUpdatedDesc (list_room room order))).
End handlers.

(** The packet of [registerRelay] ([golib/webrtc/peer.go]); [key] are the first
    16 bytes of the SHA-256 of the session identifier. *)
Definition registration (key : bytes) (isServer : bool) : bytes :=
  let pkt := replicate 21 x00 in
  let pkt := splice 0 [xde; xad; xbe; xef] pkt in
  let pkt := splice 4 key pkt in
  if isServer then pkt else <[20%nat := x01]> pkt.

(** ** Lemmas: channels *)

Definition open_chan (h : list chan) (i : nat) : Prop := exists b, h !! i = Some (mkChan b false).

Lemma send_spec i h : open_chan h i ->
  exists h', send i h = Some h' /\ h' !! i = Some (mkChan true false) /\
    forall j, j <> i -> h' !! j = h !! j.
Proof.
  intros [b Hb]. unfold send. rewrite Hb. simpl. destruct b; [eauto|].
  eexists. split; [done|]. split.
  - apply list_lookup_insert_eq. by eapply lookup_lt_Some.
  - intros j Hj. by rewrite list_lookup_insert_ne.
Qed.

Lemma send_all_spec l h : Forall (open_chan h) l ->
  exists h', send_all l h = Some h' /\
    forall j, h' !! j = if decide (j ∈ l) then Some (mkChan true false) else h !! j.
Proof.
  revert h. induction l as [|i l IH]; intros h Hl.
  { eexists. split; [done|]. done. }
  cbn [send_all].
  inversion Hl as [|? ? Hi Hl']; subst. destruct (send_spec i h Hi) as (h1 & -> & H1 & H2).
  destruct (IH h1) as (h' & -> & Hh').
  - eapply Forall_impl; [exact Hl'|]. intros j [b Hj]. destruct (decide (j = i)) as [->|Hne].
    + by exists true.
    + exists b. by rewrite H2.
  - eexists. split; [done|]. intros j. rewrite Hh'. destruct (decide (j ∈ l)) as [Hin|Hin].
    + case_decide as Hd; [done|]. destruct Hd. by right.
    + destruct (decide (j = i)) as [->|Hne].
      * case_decide as Hd; [done|]. destruct Hd. left.
      * case_decide as Hd; [|by apply H2]. by apply elem_of_cons in Hd as [?|?].
Qed.

(** A send to a closed channel somewhere in the list panics. *)
Lemma send_all_closed l h i b :
  i ∈ l -> h !! i = Some (mkChan b true) -> send_all l h = None.
Proof.
  revert h. induction l as [|k l IH]; intros h Hin Hc; [by apply not_elem_of_nil in Hin|]. simpl.
  destruct (send k h) as [h'|] eqn:Hs; [|done].
  assert (Hne : k <> i).
  { intros ->. unfold send in Hs. by rewrite Hc in Hs. }
  apply IH; [by apply elem_of_cons in Hin as [->|?]|].
  unfold send in Hs. destruct (h !! k) as [[t cl]|]; [|by simplify_eq]. simpl in Hs.
  destruct cl; [done|]. destruct t; simplify_eq; [done|]. by rewrite list_lookup_insert_ne.
Qed.

(** ** Lemmas: sorting *)

Definition ts (l : list listing) (i : nat) : option Z := l_UpdatedAt <$> l !! i.

(** Every element before [i] is at least as new as all that follow it. *)
Definition sorted_upto (i : nat) (l : list listing) : Prop :=
  forall p q a b, (p < i)%nat -> (p < q)%nat -> ts l p = Some a -> ts l q = Some b -> b <= a.

Section sorting.
Implicit Types l : list listing.

Lemma cmp_swap_perm i j l : cmp_swap i j l ≡ₚ l.
Proof.
  unfold cmp_swap. destruct (l !! i) as [a|] eqn:Hi; [|done]. destruct (l !! j) as [b|] eqn:Hj; [|done].
  case_zb; [|done]. by apply Permutation_insert_swap.
Qed.

Lemma cmp_swap_ts i j l x y : i <> j -> ts l i = Some x -> ts l j = Some y ->
  ts (cmp_swap i j l) i = Some (Z.max x y) /\ ts (cmp_swap i j l) j = Some (Z.min x y) /\
  forall q, q <> i -> q <> j -> ts (cmp_swap i j l) q = ts l q.
Proof.
  unfold ts, cmp_swap. intros Hne Hx Hy.
  destruct (l !! i) as [a|] eqn:Hi; [|done]. destruct (l !! j) as [b|] eqn:Hj; [|done].
  injection Hx as <-. injection Hy as <-.
  apply lookup_lt_Some in Hi as Hil. apply lookup_lt_Some in Hj as Hjl.
  case_zb.
  - rewrite list_lookup_insert_eq by (by rewrite length_insert).
    rewrite list_lookup_insert_ne by done. rewrite list_lookup_insert_eq by done. simpl.
    split_and!; [f_equal; lia|f_equal; lia|]. intros q Hq1 Hq2. by rewrite !list_lookup_insert_ne.
  - rewrite Hi, Hj. simpl. split_and!; [f_equal; lia|f_equal; lia|done].
Qed.

Lemma ts_lt l p a : ts l p = Some a -> (p < length l)%nat.
Proof. unfold ts. intros (x & Hx & _)%fmap_Some. by eapply lookup_lt_Some. Qed.

Lemma ts_some l p : (p < length l)%nat -> exists a, ts l p = Some a.
Proof. intros H. unfold ts. destruct (lookup_lt_is_Some_2 l p H) as [x ->]. simpl. eauto. Qed.

Lemma sort_inner_spec i l :
  (i < length l)%nat -> sorted_upto i l -> sort_inner i l ≡ₚ l /\ sorted_upto (S i) (sort_inner i l).
Proof.
  intros Hi Hs. unfold sort_inner.
  set (P := fun j k => k ≡ₚ l /\ sorted_upto i k /\
    forall q a b, (i < q < j)%nat -> ts k i = Some a -> ts k q = Some b -> b <= a).
  assert (HP : P (S i + (length l - S i))%nat (for_up (length l - S i) (S i) (fun j l => cmp_swap i j l) l)).
  { apply for_up_invariant; unfold P.
    - split_and!; try done. intros; lia.
    - intros j k Hj (Hp & Hk & Hmax). assert (Hlk : length k = length l) by (by apply Permutation_length).
      destruct (ts_some k i) as [x Hx]; [lia|]. destruct (ts_some k j) as [y Hy]; [lia|].
      destruct (cmp_swap_ts i j k x y) as (H1 & H2 & H3); [lia|done|done|].
      split_and!.
      + etrans; [apply cmp_swap_perm|done].
      + intros p q a b Hpi Hpq. rewrite (H3 p) by lia. intros Ha.
        pose proof (Hk p i a x Hpi ltac:(lia) Ha Hx). pose proof (Hk p j a y Hpi ltac:(lia) Ha Hy).
        destruct (decide (q = i)) as [->|]; [rewrite H1; intros [= <-]; lia|].
        destruct (decide (q = j)) as [->|]; [rewrite H2; intros [= <-]; lia|].
        rewrite H3 by done. intros Hb. by apply (Hk p q).
      + intros q a b Hq. rewrite H1. intros [= <-]. destruct (decide (q = j)) as [->|].
        * rewrite H2. intros [= <-]. lia.
        * rewrite H3 by lia. intros Hb. pose proof (Hmax q x b ltac:(lia) Hx Hb). lia. }
  destruct HP as (Hp & Hk & Hmax). split; [done|].
  intros p q a b Hpi Hpq Ha Hb. destruct (decide (p = i)) as [->|]; [|eapply (Hk p q); eauto; lia].
  eapply Hmax; [|exact Ha|exact Hb]. apply ts_lt in Hb. rewrite (Permutation_length Hp) in Hb. lia.
Qed.

Lemma sort_spec l :
  sortByUpdatedDesc l ≡ₚ l /\ sorted_upto (length l) (sortByUpdatedDesc l).
Proof.
  unfold sortByUpdatedDesc.
  apply (for_up_invariant (fun i k => k ≡ₚ l /\ sorted_upto i k) (length l) 0 sort_inner l).
  - split; [done|]. intros p q a b Hp. lia.
  - intros i k Hi [Hp Hk]. destruct (sort_inner_spec i k) as [H1 H2]; [rewrite (Permutation_length Hp); lia|done|].
    split; [by etrans|done].
Qed.
End sorting.

(** ** Lemmas: sessions *)

Definition kind_name (isOffer : bool) : string := if isOffer then "offer" else "answer".
Definition session_path (id : string) (isOffer : bool) : string :=
  String.append "/session/" (String.append id (String slash (kind_name isOffer))).

Lemma session_path_parts id k :
  has_char slash id = false ->
  split_char slash (Trim slash (session_path id k)) = ["session"; id; kind_name k].
Proof.
  intros Hid. unfold Trim, session_path.
  change (trim_left slash (String.append "/session/" (String.append id (String slash (kind_name k)))))
    with (String.append "session" (String slash (String.append id (String slash (kind_name k))))).
  assert (Ht : trim_right slash (String slash (kind_name k)) = String slash (kind_name k)) by (by destruct k).
  replace (String.append "session" (String slash (String.append id (String slash (kind_name k)))))
    with (String.append (String.append "session/" id) (String slash (kind_name k))).
  2: { by rewrite append_assoc. }
  rewrite trim_right_app by done. rewrite append_assoc.
  change (String.append "session/" (String.append id (String slash (kind_name k))))
    with (String.append "session" (String slash (String.append id (String slash (kind_name k))))).
  rewrite split_char_app by done. rewrite split_char_app by done.
  by rewrite split_char_single by (by destruct k).
Qed.

Definition watchers_of (isOffer : bool) (id : string) (s : apiServer) : gset nat :=
  default ∅ ((if isOffer then watchO (hub s) else watchA (hub s)) !! id).

(** The channels of the registered watchers are open. *)
Definition srv_ok (s : apiServer) : Prop :=
  forall k id i, i ∈ watchers_of k id s -> open_chan (chans s) i.

Lemma srv_ok_new : srv_ok (mkServer newSessionHub newDiscoveryHub []).
Proof. intros [] id i; unfold watchers_of; simpl; rewrite lookup_empty; simpl; by rewrite elem_of_empty. Qed.

Lemma open_chan_app h i c : open_chan h i -> open_chan (h ++ c) i.
Proof. intros [b Hb]. exists b. by apply lookup_app_l_Some. Qed.

Lemma watch_add_lookup id i m id' j :
  j ∈ (default ∅ (watch_add id i m !! id') : gset nat) -> j = i \/ j ∈ (default ∅ (m !! id') : gset nat).
Proof.
  unfold watch_add. destruct (decide (id = id')) as [->|Hne].
  - rewrite lookup_insert_eq. simpl. rewrite elem_of_union, elem_of_singleton. done.
  - rewrite lookup_insert_ne by done. by right.
Qed.

Lemma stream_open_ok id k s ev i s' : srv_ok s -> stream_open id k s = (ev, i, s') -> srv_ok s'.
Proof.
  intros Hok. unfold stream_open.
  assert (Hnew : open_chan (chans s ++ [new_chan]) (length (chans s))).
  { exists false. by rewrite lookup_app_r, Nat.sub_diag. }
  destruct k; simpl; intros [= _ _ <-]; intros k' id' j; unfold watchers_of; simpl; destruct k'; intros Hj;
    try (apply watch_add_lookup in Hj as [->|Hj]); try done; apply open_chan_app; revert Hj;
    first [apply (Hok true)|apply (Hok false)].
Qed.

(** The store after a post of either kind. *)
Definition posted (id : string) (k : bool) (b : bytes) (now : Z) (h : sessionHub) : sessionHub :=
  fst (if k then setOffer id b now h else setAnswer id b now h).

Lemma handleSession_post jsonValid id k b now s :
  has_char slash id = false -> (0 < length b)%nat -> Z.of_nat (length b) <= 512 * 1024 ->
  jsonValid b = true ->
  handleSession jsonValid POST (session_path id k) b now s =
    match send_all (elements (watchers_of k id s)) (chans s) with
    | None => None
    | Some c => Some (mkResp 200 BNone, set_chans c (set_hub (posted id k b now (hub s)) s))
    end.
Proof.
  intros Hid Hb Hlen Hj. unfold handleSession. rewrite session_path_parts by done.
  change (negb (bool_decide ("session" = "session"))) with false. cbn [head].
  change (bool_decide (None = Some "stream")) with false. cbn iota.
  unfold readBodyLimit. rewrite take_ge by lia.
  destruct b as [|x b]; [simpl in Hb; lia|]. rewrite Hj. by destruct k.
Qed.

Lemma handleSession_get jsonValid id k s b now :
  has_char slash id = false -> sendSessionSSE id k s = Some b ->
  handleSession jsonValid GET (session_path id k) [] now s = Some (mkResp 200 (BRaw b), s).
Proof.
  intros Hid Hs. unfold handleSession. rewrite session_path_parts by done.
  change (negb (bool_decide ("session" = "session"))) with false. cbn [head].
  change (bool_decide (None = Some "stream")) with false. cbn iota.
  unfold sendSessionSSE in Hs. destruct (get id (hub s)) as [e|]; [|done].
  destruct k.
  - change (bool_decide (kind_name true = "offer")) with true. cbn iota. destruct (Offer e); [done|].
    by injection Hs as <-.
  - change (bool_decide (kind_name false = "offer")) with false.
    change (bool_decide (kind_name false = "answer")) with true. cbn iota. destruct (Answer e); [done|].
    by injection Hs as <-.
Qed.

Lemma posted_get id k b now s c id' k' :
  (0 < length b)%nat ->
  sendSessionSSE id' k' (set_chans c (set_hub (posted id k b now (hub s)) s)) =
    if decide (id' = id /\ k' = k) then Some b else sendSessionSSE id' k' s.
Proof.
  intros Hb. unfold sendSessionSSE, posted, get, setOffer, setAnswer. cbn [hub set_chans set_hub].
  destruct (decide (id' = id)) as [->|Hid].
  - destruct k, k'; cbn [fst sessions]; rewrite lookup_insert_eq; cbn [Offer Answer];
      case_decide as Hd; try (destruct Hd; done); try (by destruct Hd as [_ Hd]);
      try (by destruct b; [simpl in Hb; lia|]); destruct (sessions (hub s) !! id); done.
  - destruct k, k'; cbn [fst sessions]; rewrite lookup_insert_ne by done;
      (case_decide as Hd; [by destruct Hd|done]).
Qed.

Lemma post_session jsonValid id k b now s :
  srv_ok s -> has_char slash id = false -> (0 < length b)%nat -> Z.of_nat (length b) <= 512 * 1024 ->
  jsonValid b = true ->
  exists c, let s1 := set_chans c (set_hub (posted id k b now (hub s)) s) in
    handleSession jsonValid POST (session_path id k) b now s = Some (mkResp 200 BNone, s1) /\
    (forall i, c !! i = if decide (i ∈ elements (watchers_of k id s)) then Some (mkChan true false) else chans s !! i) /\
    srv_ok s1.
Proof.
  intros Hok Hid Hb Hlen Hj. rewrite handleSession_post by done.
  destruct (send_all_spec (elements (watchers_of k id s)) (chans s)) as (c & -> & Hc).
  { apply Forall_forall. intros i Hi. apply elem_of_elements in Hi. by apply (Hok k id). }
  exists c. split; [done|]. split; [done|].
  intros k' id' i Hi. unfold open_chan. cbn [chans set_chans]. rewrite Hc. case_decide; [eauto|].
  apply (Hok k' id'). unfold watchers_of in *. revert Hi. unfold posted, setOffer, setAnswer. by destruct k, k'.
Qed.

(** ** Lemmas: relay *)

Definition mentions (a : Z) (x : relaySession) : bool :=
  addrEqual (p_addr <$> server x) (Some a) || addrEqual (p_addr <$> client x) (Some a).

Lemma find_target_unique a s0 ss :
  s0 ∈ ss -> mentions a s0 = true -> Forall (fun x => x = s0 \/ mentions a x = false) ss ->
  find_target a ss = find_target a [s0].
Proof.
  intros Hin Hm Hall. induction ss as [|x ss IH]; [by apply not_elem_of_nil in Hin|].
  inversion Hall as [|? ? Hx Hall']; subst. cbn [find_target]. destruct Hx as [->|Hx].
  - unfold mentions in Hm. destruct (addrEqual (p_addr <$> server s0) (Some a)); [done|].
    simpl in Hm. by rewrite Hm.
  - unfold mentions in Hx. apply orb_false_iff in Hx as [H1 H2]. rewrite H1, H2. apply IH; [|done].
    apply elem_of_cons in Hin as [<-|?]; [|done]. unfold mentions in Hm. by rewrite H1, H2 in Hm.
Qed.

Lemma registration_ok key srv : length key = 16%nat ->
  is_registration (registration key srv) = true /\ slice 4 20 (registration key srv) = key /\
  be_get (slice 20 21 (registration key srv)) = (if srv then 0 else 1).
Proof.
  intros Hk.
  assert (Hr : registration key srv = [xde; xad; xbe; xef] ++ key ++ [if srv then x00 else x01]).
  { unfold registration. rewrite (splice_app_0 [xde; xad; xbe; xef]) by (simpl; lia).
    rewrite (splice_app [xde; xad; xbe; xef] key) by (rewrite Hk; simpl; lia).
    rewrite Hk. destruct srv; [done|].
    rewrite app_assoc, insert_app_r_alt by (len; lia). rewrite length_app, Hk. done. }
  rewrite Hr. split_and!.
  - unfold is_registration. rewrite !length_app, Hk. by destruct srv.
  - unfold slice. rewrite (drop_app_length' [xde; xad; xbe; xef]) by done.
    apply take_app_length'. by rewrite Hk.
  - unfold slice. rewrite app_assoc, drop_app_length' by (len; lia). by destruct srv.
Qed.

Lemma handle_registration key srv from now o r : length key = 16%nat ->
  rsessions (fst (handlePacket (registration key srv) from now o r)) =
    let s := default (mkRelay None None) (rsessions r !! key) in
    <[key := if srv then mkRelay (Some (mkPeer from now)) (client s)
             else mkRelay (server s) (Some (mkPeer from now))]> (rsessions r).
Proof.
  intros Hk. destruct (registration_ok key srv Hk) as (A1 & A2 & A3).
  unfold handlePacket. rewrite A1, A2, A3. by destruct srv.
Qed.

(** Data packets change only the counters. *)
Fixpoint relay_data (pkts : list (bytes * Z * Z)) (r : udpRelay) : udpRelay :=
  match pkts with
  | [] => r
  | (p, from, now) :: pkts =>
      relay_data pkts (fst (handlePacket p from now (snd <$> map_to_list (rsessions r)) r))
  end.

Lemma relay_data_sessions pkts r :
  Forall (fun x => is_registration (fst (fst x)) = false) pkts ->
  rsessions (relay_data pkts r) = rsessions r.
Proof.
  intros H. revert r. induction H as [|[[p f] t] pkts Hp _ IH]; intros r; [done|]. simpl in *.
  rewrite IH. unfold handlePacket. rewrite Hp. by destruct (find_target _ _).
Qed.

(** ** Properties *)

(** the signaling contract.  A POST of a valid JSON body of at most 512 KiB
    to the offer or the answer of a session succeeds; afterwards a GET returns
    exactly that body, every other offer and answer is what it was, every
    stream that watches it has a notification pending that makes it send the
    body, and the watchers stay well-formed. *)
Theorem session_post_get (jsonValid : bytes -> bool) (id : string) (k : bool) (b : bytes) (now now' : Z)
    (s : apiServer) :
  srv_ok s -> has_char slash id = false -> (0 < length b)%nat -> Z.of_nat (length b) <= 512 * 1024 ->
  jsonValid b = true ->
  exists s1, handleSession jsonValid POST (session_path id k) b now s = Some (mkResp 200 BNone, s1) /\
    handleSession jsonValid GET (session_path id k) [] now' s1 = Some (mkResp 200 (BRaw b), s1) /\
    (forall id' k', id' <> id \/ k' <> k -> sendSessionSSE id' k' s1 = sendSessionSSE id' k' s) /\
    (forall i, i ∈ watchers_of k id s -> exists s2, stream_notify id k i s1 = Some (Some b, s2)) /\
    srv_ok s1.
Proof.
  intros Hok Hid Hb Hlen Hj. destruct (post_session jsonValid id k b now s Hok Hid Hb Hlen Hj) as (c & Hp & Hc & Hok1).
  eexists. split; [exact Hp|].
  assert (Hget : forall id' k' c', sendSessionSSE id' k' (set_chans c' (set_hub (posted id k b now (hub s)) s)) =
    if decide (id' = id /\ k' = k) then Some b else sendSessionSSE id' k' s) by (intros; by apply posted_get).
  split_and!; [| | |done].
  - apply handleSession_get; [done|]. rewrite Hget. by rewrite decide_True.
  - intros id' k' Hne. rewrite Hget. rewrite decide_False; [done|]. intros [-> ->]. by destruct Hne.
  - intros i Hi. unfold stream_notify. cbn [chans set_chans].
    rewrite Hc, decide_True by (by apply elem_of_elements). eexists. f_equal. f_equal.
    change (set_chans ?x (set_chans c ?y)) with (set_chans x y). rewrite Hget. by rewrite decide_True.
Qed.

Definition demo_srv : apiServer :=
  mkServer (mkHub ∅ {[ "r1" := {[0%nat]} ]} ∅) newDiscoveryHub [new_chan].

Lemma demo_srv_ok : srv_ok demo_srv.
Proof.
  intros [] id i; unfold watchers_of, demo_srv; simpl.
  - destruct (decide (id = "r1")) as [->|Hne].
    + rewrite lookup_singleton_eq. simpl. rewrite elem_of_singleton. intros ->. by exists false.
    + rewrite lookup_singleton_ne by done. simpl. by rewrite elem_of_empty.
  - rewrite lookup_empty. simpl. by rewrite elem_of_empty.
Qed.

Lemma session_post_get_witness :
  exists s1, handleSession (fun _ => true) POST "/session/r1/offer" [x7b; x7d] 5 demo_srv = Some (mkResp 200 BNone, s1) /\
    handleSession (fun _ => true) GET "/session/r1/offer" [] 6 s1 = Some (mkResp 200 (BRaw [x7b; x7d]), s1) /\
    (forall id' k', id' <> "r1" \/ k' <> true -> sendSessionSSE id' k' s1 = sendSessionSSE id' k' demo_srv) /\
    (forall i, i ∈ watchers_of true "r1" demo_srv -> exists s2, stream_notify "r1" true i s1 = Some (Some [x7b; x7d], s2)) /\
    srv_ok s1.
Proof.
  apply (session_post_get (fun _ => true) "r1" true [x7b; x7d] 5 6 demo_srv demo_srv_ok); try reflexivity.
  - simpl. lia.
  - simpl. lia.
Defined.

(** the garbage collector drops live watchers.  When a tick finds the
    entry of a session stale it also deletes its watcher set, although the
    streams are still open: a later post succeeds but reaches none of them. *)
Theorem session_gc_drops_watchers (jsonValid : bytes -> bool) (id : string) (b : bytes) (now ttl now' : Z)
    (i : nat) (e : sessionEntry) (s : apiServer) :
  sessions (hub s) !! id = Some e -> UpdatedAt e < now - ttl ->
  i ∈ watchers_of true id s -> chans s !! i = Some new_chan ->
  has_char slash id = false -> (0 < length b)%nat -> Z.of_nat (length b) <= 512 * 1024 -> jsonValid b = true ->
  exists s2, handleSession jsonValid POST (session_path id true) b now' (set_hub (session_gc now ttl (hub s)) s)
      = Some (mkResp 200 BNone, s2) /\
    sendSessionSSE id true s2 = Some b /\ stream_notify id true i s2 = None.
Proof.
  intros He Hold Hi Hch Hid Hb Hlen Hj. rewrite handleSession_post by done.
  assert (Hw : watchers_of true id (set_hub (session_gc now ttl (hub s)) s) = ∅).
  { unfold watchers_of. simpl. rewrite map_lookup_filter_None_2; [done|]. right. intros x Hx. simpl.
    rewrite He. simpl. by rewrite (proj2 (Z.ltb_lt _ _)) by done. }
  rewrite Hw, elements_empty. simpl send_all. eexists. split; [done|]. split.
  - change (hub (set_hub (session_gc now ttl (hub s)) s)) with (session_gc now ttl (hub s)).
    assert (Hg : forall h, sendSessionSSE id true (set_chans (chans s) (set_hub (posted id true b now' h) s)) = Some b).
    { intros h. unfold sendSessionSSE, get, posted, setOffer. cbn [hub set_chans set_hub fst sessions].
      rewrite lookup_insert_eq. cbn [Offer]. by destruct b; [simpl in Hb; lia|]. }
    apply (Hg (session_gc now ttl (hub s))).
  - unfold stream_notify. simpl. by rewrite Hch.
Qed.

Lemma session_gc_drops_watchers_witness :
  let s := mkServer (mkHub {[ "r1" := mkSession [x31] [] 10 ]} {[ "r1" := {[0%nat]} ]} ∅) newDiscoveryHub [new_chan] in
  exists s2, handleSession (fun _ => true) POST "/session/r1/offer" [x32] 800 (set_hub (session_gc 700 600 (hub s)) s)
      = Some (mkResp 200 BNone, s2) /\
    sendSessionSSE "r1" true s2 = Some [x32] /\ stream_notify "r1" true 0 s2 = None.
Proof.
  intros s. apply (session_gc_drops_watchers (fun _ => true) "r1" [x32] 700 600 800 0 (mkSession [x31] [] 10) s);
    try reflexivity; simpl; lia.
Defined.

(** a notification that races with the end of a stream crashes the server.
    [notifyAll] sends to the watchers that it read under the lock; if one of
    them stops in between, its channel is closed and the send panics. *)
Theorem notify_after_stop_panics (d d1 d2 : discoveryHub) (ch ch1 ch2 : list chan) (i : nat) :
  watch d ch = (d1, ch1, i) -> stop i d1 ch1 = Some (d2, ch2) ->
  send_all (notify_snapshot d1) ch2 = None.
Proof.
  unfold watch, stop, close_chan. intros [= <- <- <-].
  rewrite lookup_app_r, Nat.sub_diag by lia. simpl. intros [= <- <-].
  eapply send_all_closed with (i := length ch).
  - unfold notify_snapshot. apply elem_of_elements. simpl. apply elem_of_union_l. by apply elem_of_singleton.
  - apply list_lookup_insert_eq. rewrite length_app. simpl. lia.
Qed.

Lemma notify_after_stop_panics_witness :
  exists d1 ch1 d2 ch2, watch newDiscoveryHub [] = (d1, ch1, 0%nat) /\
    stop 0 d1 ch1 = Some (d2, ch2) /\ send_all (notify_snapshot d1) ch2 = None.
Proof.
  eexists _, _, _, _. split; [reflexivity|]. split; [reflexivity|].
  eapply (notify_after_stop_panics newDiscoveryHub _ _ [] _ _ 0); reflexivity.
Defined.

(** the server list.  Whatever the order in which the map is iterated,
    [handleDiscoveryServers] answers with exactly the listings of the room, or
    all of them without a room, the most recently updated first. *)
Theorem discovery_list_sorted (room : string) (order : list listing) (d : discoveryHub) :
  order ≡ₚ snd <$> map_to_list (listings d) ->
  exists out, handleDiscoveryServers GET room order = mkResp 200 (BListings out) /\
    out ≡ₚ filter (fun l => room = EmptyString \/ l_Room l = room) (snd <$> map_to_list (listings d)) /\
    (forall p q a b, (p < q)%nat -> ts out p = Some a -> ts out q = Some b -> b <= a).
Proof.
  intros Hord. eexists. split; [done|]. destruct (sort_spec (list_room room order)) as [Hp Hs].
  split.
  - rewrite Hp. unfold list_room. by rewrite Hord.
  - intros p q a b Hpq Ha Hb. eapply (Hs p q); try done. apply ts_lt in Ha.
    by rewrite (Permutation_length Hp) in Ha.
Qed.

Definition demo_listing (id : string) (t : Z) : listing := mkListing id "n" "r" "c" "" "" "" "" "" t.

Lemma discovery_list_sorted_witness :
  let d := mkDisc (<["a" := demo_listing "a" 3]> {[ "b" := demo_listing "b" 8 ]}) ∅ in
  exists out, handleDiscoveryServers GET "r" [demo_listing "a" 3; demo_listing "b" 8] = mkResp 200 (BListings out) /\
    out ≡ₚ filter (fun l => "r" = EmptyString \/ l_Room l = "r") (snd <$> map_to_list (listings d)) /\
    (forall p q a b, (p < q)%nat -> ts out p = Some a -> ts out q = Some b -> b <= a).
Proof.
  intros d. apply (discovery_list_sorted "r" [demo_listing "a" 3; demo_listing "b" 8] d).
  unfold d. simpl listings. rewrite map_to_list_insert by (by rewrite lookup_singleton_ne).
  by rewrite map_to_list_singleton.
Defined.

(** the relay connects the two peers of a session.  After the server and
    the client have sent the registration packets that [registerRelay] builds,
    from addresses that no other session uses, a data packet of either one is
    forwarded unchanged to the other, in every iteration order of the map. *)
Theorem relay_forwards (r : udpRelay) (key pkt : bytes) (sa ca t1 t2 t3 : Z) (o1 o2 order : list relaySession) :
  length key = 16%nat -> sa <> ca -> is_registration pkt = false ->
  map_Forall (fun k x => k = key \/ (mentions sa x = false /\ mentions ca x = false)) (rsessions r) ->
  let r1 := fst (handlePacket (registration key true) sa t1 o1 r) in
  let r2 := fst (handlePacket (registration key false) ca t2 o2 r1) in
  order ≡ₚ snd <$> map_to_list (rsessions r2) ->
  snd (handlePacket pkt sa t3 order r2) = Some (ca, pkt) /\
  snd (handlePacket pkt ca t3 order r2) = Some (sa, pkt).
Proof.
  intros Hk Hne Hpkt Hother r1 r2. unfold r2. rewrite handle_registration by done.
  unfold r1 at 1 2. rewrite handle_registration by done. cbv zeta.
  rewrite lookup_insert_eq. cbn [default server client]. rewrite insert_insert_eq.
  set (s0 := mkRelay (Some (mkPeer sa t1)) (Some (mkPeer ca t2))). intros Hord.
  assert (Hin : s0 ∈ order).
  { rewrite Hord. apply list_elem_of_fmap. exists (key, s0). split; [done|].
    apply elem_of_map_to_list, lookup_insert_eq. }
  assert (Hall : forall a, a = sa \/ a = ca -> Forall (fun x => x = s0 \/ mentions a x = false) order).
  { intros a Ha. rewrite Hord. apply Forall_fmap, Forall_forall. intros [k x] Hx%elem_of_map_to_list. simpl.
    destruct (decide (k = key)) as [->|Hkk].
    - rewrite lookup_insert_eq in Hx. left. by injection Hx.
    - rewrite lookup_insert_ne in Hx by done. destruct (Hother _ _ Hx) as [->|[??]]; [done|].
      right. by destruct Ha as [->| ->]. }
  assert (Hms : mentions sa s0 = true) by (unfold mentions; simpl; by rewrite Z.eqb_refl).
  assert (Hmc : mentions ca s0 = true) by (unfold mentions; simpl; rewrite Z.eqb_refl; apply orb_true_r).
  unfold handlePacket. rewrite Hpkt.
  rewrite (find_target_unique sa s0 order Hin Hms) by auto.
  rewrite (find_target_unique ca s0 order Hin Hmc) by auto. simpl.
  rewrite !Z.eqb_refl. destruct (Z.eqb_spec sa ca); [done|]. done.
Qed.

Lemma relay_forwards_witness :
  let key := replicate 16 x07 in
  let r1 := fst (handlePacket (registration key true) 1 10 [] newUDPRelay) in
  let r2 := fst (handlePacket (registration key false) 2 11 [] r1) in
  let order := snd <$> map_to_list (rsessions r2) in
  snd (handlePacket [x55] 1 12 order r2) = Some (2, [x55]) /\
  snd (handlePacket [x55] 2 12 order r2) = Some (1, [x55]).
Proof.
  intros key r1 r2 order. apply (relay_forwards newUDPRelay key [x55] 1 2 10 11 12 [] []); try reflexivity.
  - discriminate.
  - apply map_Forall_empty.
Defined.

(** the relay forgets peers that only send data.  A registration is
    refreshed by registrations alone, which the peers send once: after the
    first tick later than [ttl] after it, the session is gone whatever data was
    forwarded in between. *)
Theorem relay_expires_despite_traffic (r : udpRelay) (key : bytes) (sp cp : relayPeer)
    (pkts : list (bytes * Z * Z)) (now ttl : Z) :
  rsessions r !! key = Some (mkRelay (Some sp) (Some cp)) ->
  Forall (fun x => is_registration (fst (fst x)) = false) pkts ->
  p_updatedAt sp <= now - ttl -> p_updatedAt cp <= now - ttl ->
  rsessions (relay_gc now ttl (relay_data pkts r)) !! key = None.
Proof.
  intros Hs Hp H1 H2. unfold relay_gc. cbn [rsessions]. rewrite relay_data_sessions by done.
  apply map_lookup_filter_None_2. right. intros x Hx. rewrite Hs in Hx. injection Hx as <-. simpl.
  unfold relay_stale. simpl. rewrite !(proj2 (Z.ltb_ge _ _)) by lia. done.
Qed.

Lemma relay_expires_despite_traffic_witness :
  let r := mkUdp {[ [x01] := mkRelay (Some (mkPeer 1 10)) (Some (mkPeer 2 10)) ]} 0 0 in
  rsessions (relay_gc 41 30 (relay_data [([x55], 1, 39); ([x56], 2, 40)] r)) !! [x01] = None.
Proof.
  intros r. apply (relay_expires_despite_traffic r [x01] (mkPeer 1 10) (mkPeer 2 10)); try (simpl; lia).
  - apply lookup_singleton_eq.
  - repeat constructor.
Defined.

End SignalServer.
