(* ===== verification/Socks.v ===== *)
(** * SOCKS5 and the target header ([golib/webrtc/socks5.go], [group.go],
    [client.go], [server.go])

    The SOCKS5 CONNECT handshake that the local proxy accepts, the target
    header that the client sends on a fresh stream, and the server's parser of
    that header, over a plain or a padded stream.

    [IP.String] of the standard library is written out for both families. *)

From S2P Require Import Prelude IO GoStr Padding.

Open Scope Z_scope.

Module Socks.
Import Padding.

Definition to_bytes (s : string) : bytes := String.list_byte_of_string s.
Definition of_bytes (l : bytes) : string := String.string_of_list_byte l.

(** ** Addresses *)

Definition ip4_string (b : bytes) : string := Join "." ((fun x => itoa (b2z x)) <$> b).

Definition hex_digit (d : Z) : Ascii.ascii :=
  default "0"%char (String.get (Z.to_nat d) "0123456789abcdef").

(** Lower-case hexadecimal without leading zeros. *)
Definition hex16 (w : Z) : string :=
  let d3 := String (hex_digit (w mod 16)) EmptyString in
  if w <? 16 then d3
  else let d2 := String (hex_digit (w / 16 mod 16)) d3 in
       if w <? 256 then d2
       else let d1 := String (hex_digit (w / 256 mod 16)) d2 in
            if w <? 4096 then d1 else String (hex_digit (w / 4096 mod 16)) d1.

Fixpoint words (b : bytes) : list Z :=
  match b with
  | x :: y :: b => (b2z x * 256 + b2z y) :: words b
  | _ => []
  end.

(** Length of the run of zero words that starts the list. *)
Fixpoint zero_run (ws : list Z) : nat :=
  match ws with
  | 0 :: ws => S (zero_run ws)
  | _ => O
  end.

(** The first longest run of at least two zero words: start and length. *)
Fixpoint longest_run (i : nat) (ws : list Z) (best : nat * nat) : nat * nat :=
  match ws with
  | [] => best
  | _ :: ws' =>
      let l := zero_run ws in
      longest_run (S i) ws' (if decide (2 <= l /\ snd best < l)%nat then (i, l) else best)
  end.

Definition ip6_string (b : bytes) : string :=
  if decide (take 12 b = replicate 10 x00 ++ [xff; xff]) then ip4_string (drop 12 b)
  else
    let ws := words b in
    let '(st, l) := longest_run 0 ws (0%nat, 0%nat) in
    if decide (l = 0)%nat then Join ":" (hex16 <$> ws)
    else String.append (Join ":" (hex16 <$> take st ws))
           (String.append "::" (Join ":" (hex16 <$> drop (st + l) ws))).

Inductive addr := V4 (b : bytes) | Domain (b : bytes) | V6 (b : bytes).

Definition host_string (a : addr) : string :=
  match a with V4 b => ip4_string b | Domain b => of_bytes b | V6 b => ip6_string b end.

(** ** The handshake *)

(** What the handshake ends with, the replies it wrote, and the rest of the
    connection; [None] closes the connection. *)
Definition hs_result : Type := option string * list bytes * reader.

Definition reply (code : Z) : bytes := [x05; z2b code; x00; x01; x00; x00; x00; x00; x00; x00].

Definition read_port (host : string) (w : list bytes) (r : reader) : hs_result :=
  match ReadFull 2 r with
  | (Err _, r) => (None, w, r)
  | (Ok b, r) => (Some (JoinHostPort host (itoa (be_get b))), w, r)
  end.

Definition socks_handshake (r : reader) : hs_result :=
  match ReadFull 2 r with
  | (Err _, r) => (None, [], r)
  | (Ok buf, r) =>
      if negb (be_get (take 1 buf) =? 5) then (None, [], r)
      else
        match ReadFull (Z.to_nat (be_get (drop 1 buf))) r with
        | (Err _, r) => (None, [], r)
        | (Ok _, r) =>
            let w := [[x05; x00]] in
            match ReadFull 4 r with
            | (Err _, r) => (None, w, r)
            | (Ok buf, r) =>
                if negb (be_get (slice 1 2 buf) =? 1) then (None, w ++ [reply 7], r)
                else
                  let atyp := be_get (slice 3 4 buf) in
                  if atyp =? 1 then
                    match ReadFull 4 r with
                    | (Err _, r) => (None, w, r)
                    | (Ok b, r) => read_port (ip4_string b) w r
                    end
                  else if atyp =? 3 then
                    match ReadFull 1 r with
                    | (Err _, r) => (None, w, r)
                    | (Ok b, r) =>
                        match ReadFull (Z.to_nat (be_get b)) r with
                        | (Err _, r) => (None, w, r)
                        | (Ok b, r) => read_port (of_bytes b) w r
                        end
                    end
                  else if atyp =? 4 then
                    match ReadFull 16 r with
                    | (Err _, r) => (None, w, r)
                    | (Ok b, r) => read_port (ip6_string b) w r
                    end
                  else (None, w ++ [reply 8], r)
            end
        end
  end.

(** ** The target header *)

Definition target_header (target : string) : bytes :=
  let addrBytes := to_bytes target in
  let hdr := replicate (2 + length addrBytes) x00 in
  let hdr := splice 0 (be_put 2 (u16 (Z.of_nat (length addrBytes)))) hdr in
  splice 2 addrBytes hdr.

Section target.
(** A stream with [io.ReadFull]. *)
Context {S : Type} (rf : nat -> S -> res goerr bytes * S).

Definition readTargetAddr (s : S) : res goerr string * S :=
  match rf 2 s with
  | (Err e, s) => (Err (EWrap "read addr length" e), s)
  | (Ok lenBuf, s) =>
      let addrLen := be_get lenBuf in
      if (addrLen =? 0) || (512 <? addrLen) then (Err (EMsg "invalid addr length" [addrLen]), s)
      else match rf (Z.to_nat addrLen) s with
           | (Err e, s) => (Err (EWrap "read addr" e), s)
           | (Ok a, s) => (Ok (of_bytes a), s)
           end
  end.
End target.

(** [io.ReadFull] over a padded stream: reads into what is left of the
    buffer; every read that does not fail returns at least a byte. *)
Fixpoint ReadFull_ps_loop (fuel n : nat) (ps : paddedStream) : res goerr bytes * paddedStream :=
  match fuel with
  | O => (Ok [], ps)
  | S fuel =>
      match n with
      | O => (Ok [], ps)
      | _ =>
          match psRead n ps with
          | Some (Ok out, ps) =>
              match ReadFull_ps_loop fuel (n - length out) ps with
              | (Ok l, ps) => (Ok (out ++ l), ps)
              | (Err (EIO EOF), ps) => (Err (EIO ErrUnexpectedEOF), ps)
              | (Err e, ps) => (Err e, ps)
              end
          | Some (Err e, ps) => (Err e, ps)
          | None => (Err (EMsg "unreachable" []), ps)
          end
      end
  end.

Definition ReadFull_ps (n : nat) (ps : paddedStream) : res goerr bytes * paddedStream :=
  ReadFull_ps_loop n n ps.

(** ** The client side: [handleSocks5Conn] and [DialStream] *)

Section client.
Context {G : Type} `{Rand G}.

(** A fresh stream to the peer, wrapped with padding or not; the header goes
    out in one write.  The result is what is on the wire. *)
Definition send_header (padding : bool) (paddingMax : Z) (target : string) (w : writer) (g : G)
    : option (res goerr nat * writer * G) :=
  if padding then
    match psWrite (target_header target) (newPaddedStream (mkReader [] EOF) w 0 paddingMax) g with
    | Some (r, ps, g) => Some (r, inner_w ps, g)
    | None => None
    end
  else let '(r, w) := Write (target_header target) w in Some (r, w, g).

(** The maximum that [DialStream] uses. *)
Definition dial_paddingMax (padding : bool) (paddingMax : Z) : Z :=
  if (paddingMax =? 0) && padding then 256 else paddingMax.

Definition DialStream (padding : bool) (paddingMax : Z) (target : string) (openStream : res goerr writer) (g : G)
    : option (res goerr writer * G) :=
  match openStream with
  | Err e => Some (Err e, g)
  | Ok w =>
      match send_header padding (dial_paddingMax padding paddingMax) target w g with
      | None => None
      | Some (Err e, _, g) => Some (Err (EWrap "write target header" e), g)
      | Some (Ok _, w, g) => Some (Ok w, g)
      end
  end.

(** The replies to the SOCKS client and the stream that is relayed, if the
    connection gets that far. *)
Definition handleSocks5Conn (padding : bool) (paddingMax : Z) (r : reader) (openStream : res goerr writer) (g : G)
    : option (list bytes * option writer * G) :=
  match socks_handshake r with
  | (None, w, _) => Some (w, None, g)
  | (Some target, w, _) =>
      match openStream with
      | Err _ => Some (w ++ [reply 1], None, g)
      | Ok st =>
          match send_header padding paddingMax target st g with
          | None => None
          | Some (Err _, _, g) => Some (w ++ [reply 1], None, g)
          | Some (Ok _, st, g) => Some (w ++ [reply 0], Some st, g)
          end
      end
  end.

(** [handleGroupSocks5Conn] dials through the group. *)
Definition handleGroupSocks5Conn (dial : string -> G -> option (res goerr writer * G)) (r : reader) (g : G)
    : option (list bytes * option writer * G) :=
  match socks_handshake r with
  | (None, w, _) => Some (w, None, g)
  | (Some target, w, _) =>
      match dial target g with
      | None => None
      | Some (Err _, g) => Some (w ++ [reply 1], None, g)
      | Some (Ok st, g) => Some (w ++ [reply 0], Some st, g)
      end
  end.
End client.

(** The start of [handleStream]: the server reads the target. *)
Definition server_target (padding : bool) (paddingMax : Z) (wire : bytes) (e : io_err) : res goerr string :=
  if padding then fst (readTargetAddr ReadFull_ps (newPaddedStream (mkReader wire e) (mkWriter [] []) 0 paddingMax))
  else fst (readTargetAddr ReadFull (mkReader wire e)).

(** The categories of [handleStream]: where the bytes sent down are counted. *)
Inductive category := CatNone | CatWeb | CatVideo | CatOther.

Definition categorize (port down : Z) : category :=
  if down <=? 0 then CatNone
  else if (port =? 443) && (10 * 1024 * 1024 <=? down) then CatVideo
  else if (port =? 80) || (port =? 443) then CatWeb
  else CatOther.

(** ** Requests *)

Definition addr_wf (a : addr) : Prop :=
  match a with
  | V4 b => length b = 4%nat
  | Domain b => Z.of_nat (length b) <= 255
  | V6 b => length b = 16%nat
  end.

Definition enc_addr (a : addr) : bytes :=
  match a with
  | V4 b => x01 :: b
  | Domain b => x03 :: z2b (Z.of_nat (length b)) :: b
  | V6 b => x04 :: b
  end.

(** The bytes of a CONNECT request with the offered [methods]. *)
Definition enc_request (methods : bytes) (rsv ver : byte) (a : addr) (port : Z) : bytes :=
  [x05; z2b (Z.of_nat (length methods))] ++ methods ++ [ver; x01; rsv] ++ enc_addr a ++ be_put 2 port.

Definition target_of (a : addr) (port : Z) : string := JoinHostPort (host_string a) (itoa port).

(** ** Lemmas: lengths of address strings *)

Abbreviation slen := String.length.

Lemma slen_append a b : slen (String.append a b) = (slen a + slen b)%nat.
Proof. induction a as [|x a IH]; [done|]. rewrite append_cons. simpl. by rewrite IH. Qed.

Lemma length_to_bytes s : length (to_bytes s) = slen s.
Proof.
  unfold to_bytes, String.list_byte_of_string. rewrite length_map.
  induction s as [|x s IH]; [done|]. simpl. by rewrite IH.
Qed.

Lemma slen_of_bytes l : slen (of_bytes l) = length l.
Proof.
  unfold of_bytes, String.string_of_list_byte. rewrite <- (length_map Ascii.ascii_of_byte l).
  induction (List.map Ascii.ascii_of_byte l) as [|x k IH]; [done|]. simpl. by rewrite IH.
Qed.

Lemma slen_pretty_go k x s : (x < 10 ^ N.of_nat k)%N ->
  (slen (pretty_N_go x s) <= k + slen s)%nat.
Proof.
  revert x s. induction k as [|k IH]; intros x s Hx.
  - assert (x = 0%N) as -> by (simpl in Hx; lia). rewrite pretty_N_go_0. lia.
  - destruct (decide (x = 0%N)) as [->|Hne]; [rewrite pretty_N_go_0; lia|].
    rewrite pretty_N_go_step by lia. etrans; [apply IH|simpl; lia].
    rewrite Nat2N.inj_succ, N.pow_succ_r' in Hx. apply N.Div0.div_lt_upper_bound. lia.
Qed.

Lemma slen_itoa k z : 0 <= z < Z.of_N (10 ^ N.of_nat (S k)) -> (slen (itoa z) <= S k)%nat.
Proof.
  intros Hz. unfold itoa. destruct z as [|p|p]; [simpl; lia| |lia].
  change (pretty (Z.pos p)) with (pretty_N_go (N.pos p) EmptyString). pose proof (slen_pretty_go (S k) (N.pos p) EmptyString). simpl in *. lia.
Qed.

Lemma slen_Join sep l k : Forall (fun x => slen x <= k)%nat l ->
  (slen (Join sep l) <= length l * (k + slen sep))%nat.
Proof.
  induction 1 as [|x l Hx Hl IH]; [simpl; lia|]. destruct l as [|y l].
  - simpl. lia.
  - change (Join sep (x :: y :: l)) with (String.append x (String.append sep (Join sep (y :: l)))).
    rewrite !slen_append. simpl length in *. lia.
Qed.

Lemma slen_ip4 b : (slen (ip4_string b) <= length b * 4)%nat.
Proof.
  unfold ip4_string. etrans; [apply (slen_Join _ _ 3)|rewrite length_fmap; simpl; lia].
  apply Forall_fmap, Forall_true. intros x. apply (slen_itoa 2). pose proof (b2z_range x).
  change (Z.of_N (10 ^ N.of_nat 3)) with 1000. lia.
Qed.

Lemma slen_hex16 w : (slen (hex16 w) <= 4)%nat.
Proof. unfold hex16. case_zb; simpl; lia. Qed.

Lemma length_words b : (length (words b) <= length b)%nat.
Proof.
  remember (length b) as n eqn:Hn. revert b Hn. induction n as [n IH] using lt_wf_ind. intros b ->.
  destruct b as [|x [|y b]]; simpl; try lia. specialize (IH (length b) ltac:(simpl; lia) b eq_refl). lia.
Qed.

Lemma slen_ip6 b : length b = 16%nat -> (slen (ip6_string b) <= 162)%nat.
Proof.
  intros Hb. unfold ip6_string. case_decide.
  { etrans; [apply slen_ip4|]. rewrite length_drop. lia. }
  pose proof (length_words b) as Hw. destruct (longest_run 0 (words b) _) as [st l].
  assert (HJ : forall ws, (length ws <= 16)%nat -> (slen (Join ":" (hex16 <$> ws)) <= 80)%nat).
  { intros ws Hws. etrans; [apply (slen_Join _ _ 4)|rewrite length_fmap; simpl; lia].
    apply Forall_fmap, Forall_true. intros x. apply slen_hex16. }
  case_decide; [etrans; [apply HJ|]; lia|]. rewrite !slen_append.
  pose proof (HJ (take st (words b)) ltac:(rewrite length_take; lia)).
  pose proof (HJ (drop (st + l) (words b)) ltac:(rewrite length_drop; lia)). simpl. lia.
Qed.

Lemma slen_JoinHostPort h p : (slen (JoinHostPort h p) <= slen h + slen p + 3)%nat /\ (1 <= slen (JoinHostPort h p))%nat.
Proof. unfold JoinHostPort. destruct (has_char _ h); rewrite !slen_append; simpl; rewrite ?slen_append; simpl; lia. Qed.

Lemma slen_target a port : addr_wf a -> 0 <= port < 65536 -> (1 <= slen (target_of a port) <= 512)%nat.
Proof.
  intros Ha Hp. unfold target_of. pose proof (slen_JoinHostPort (host_string a) (itoa port)) as [H1 H2].
  pose proof (slen_itoa 4 port) as Hport. change (Z.of_N (10 ^ N.of_nat 5)) with 100000 in Hport.
  assert (Hh : (slen (host_string a) <= 255)%nat).
  { destruct a as [b|b|b]; simpl in *.
    - pose proof (slen_ip4 b). lia.
    - rewrite slen_of_bytes. lia.
    - pose proof (slen_ip6 b Ha). lia. }
  lia.
Qed.

(** ** Lemmas: the handshake *)

Lemma slice_cons1 {A} (x y : A) l : slice 1 2 (x :: y :: l) = [y].
Proof. done. Qed.

Lemma be_get_1 (b : byte) : be_get [b] = b2z b.
Proof. done. Qed.

Lemma read_port_ok host w port rest e : 0 <= port < 65536 ->
  read_port host w (mkReader (be_put 2 port ++ rest) e) =
    (Some (JoinHostPort host (itoa port)), w, mkReader rest e).
Proof.
  intros Hp. unfold read_port. rewrite ReadFull_app by apply length_be_put.
  rewrite be_get_put_small; [done|]. by change (2 ^ (8 * Z.of_nat 2)) with 65536.
Qed.

Lemma handshake_start methods hdr rest e :
  Z.of_nat (length methods) < 256 -> length hdr = 4%nat ->
  socks_handshake (mkReader ([x05; z2b (Z.of_nat (length methods))] ++ methods ++ hdr ++ rest) e) =
    (let w := [[x05; x00]] in let r := mkReader rest e in
     if negb (be_get (slice 1 2 hdr) =? 1) then (None, w ++ [reply 7], r)
     else let atyp := be_get (slice 3 4 hdr) in
       if atyp =? 1 then
         match ReadFull 4 r with (Err _, r) => (None, w, r) | (Ok b, r) => read_port (ip4_string b) w r end
       else if atyp =? 3 then
         match ReadFull 1 r with
         | (Err _, r) => (None, w, r)
         | (Ok b, r) => match ReadFull (Z.to_nat (be_get b)) r with
                        | (Err _, r) => (None, w, r) | (Ok b, r) => read_port (of_bytes b) w r end
         end
       else if atyp =? 4 then
         match ReadFull 16 r with (Err _, r) => (None, w, r) | (Ok b, r) => read_port (ip6_string b) w r end
       else (None, w ++ [reply 8], r)).
Proof.
  intros Hm Hh. unfold socks_handshake. rewrite ReadFull_app by done.
  cbn [take drop]. rewrite !be_get_1, b2z_z2b_small by lia. change (b2z x05 =? 5) with true. cbn [negb].
  rewrite Nat2Z.id, ReadFull_app by done. rewrite ReadFull_app by done. reflexivity.
Qed.

Lemma handshake_ok methods rsv ver a port rest e :
  Z.of_nat (length methods) < 256 -> addr_wf a -> 0 <= port < 65536 ->
  socks_handshake (mkReader (enc_request methods rsv ver a port ++ rest) e) =
    (Some (target_of a port), [[x05; x00]], mkReader rest e).
Proof.
  intros Hm Ha Hp. unfold enc_request, target_of. destruct a as [b|b|b]; simpl enc_addr; simpl in Ha.
  - replace (([x05; z2b (Z.of_nat (length methods))] ++ methods ++ [ver; x01; rsv] ++ (x01 :: b) ++ be_put 2 port) ++ rest)
      with ([x05; z2b (Z.of_nat (length methods))] ++ methods ++ [ver; x01; rsv; x01] ++ (b ++ be_put 2 port ++ rest))
      by (by rewrite <- !app_assoc).
    rewrite handshake_start by done. cbv zeta. change (negb (be_get (slice 1 2 [ver; x01; rsv; x01]) =? 1)) with false.
    change (be_get (slice 3 4 [ver; x01; rsv; x01])) with 1. change (1 =? 1) with true. cbn iota.
    rewrite ReadFull_app by done. by apply read_port_ok.
  - replace (([x05; z2b (Z.of_nat (length methods))] ++ methods ++ [ver; x01; rsv] ++
        (x03 :: z2b (Z.of_nat (length b)) :: b) ++ be_put 2 port) ++ rest)
      with ([x05; z2b (Z.of_nat (length methods))] ++ methods ++ [ver; x01; rsv; x03] ++
        ([z2b (Z.of_nat (length b))] ++ b ++ be_put 2 port ++ rest)) by (by rewrite <- !app_assoc).
    rewrite handshake_start by done. cbv zeta. change (negb (be_get (slice 1 2 [ver; x01; rsv; x03]) =? 1)) with false.
    change (be_get (slice 3 4 [ver; x01; rsv; x03])) with 3. change (3 =? 1) with false. change (3 =? 3) with true.
    cbn iota. rewrite ReadFull_app by done. rewrite be_get_1, b2z_z2b_small by lia. rewrite Nat2Z.id.
    rewrite ReadFull_app by done. by apply read_port_ok.
  - replace (([x05; z2b (Z.of_nat (length methods))] ++ methods ++ [ver; x01; rsv] ++ (x04 :: b) ++ be_put 2 port) ++ rest)
      with ([x05; z2b (Z.of_nat (length methods))] ++ methods ++ [ver; x01; rsv; x04] ++ (b ++ be_put 2 port ++ rest))
      by (by rewrite <- !app_assoc).
    rewrite handshake_start by done. cbv zeta. change (negb (be_get (slice 1 2 [ver; x01; rsv; x04]) =? 1)) with false.
    change (be_get (slice 3 4 [ver; x01; rsv; x04])) with 4. change (4 =? 1) with false. change (4 =? 3) with false.
    change (4 =? 4) with true. cbn iota.
    rewrite ReadFull_app by done. by apply read_port_ok.
Qed.

(** ** Lemmas: the header *)

Lemma target_header_eq t : target_header t = be_put 2 (u16 (Z.of_nat (slen t))) ++ to_bytes t.
Proof.
  unfold target_header. rewrite length_to_bytes.
  match goal with |- ?l = _ => rewrite <- (take_ge l (2 + length (to_bytes t)))
    by (rewrite length_to_bytes; len) end.
  apply take_splice; [|rewrite length_to_bytes; len].
  apply (take_splice 0 [] (be_put 2 _)); [done|len].
Qed.

(** Any stream that delivers the header and then [s']. *)
Lemma readTargetAddr_ok {S} (rf : nat -> S -> res goerr bytes * S) t s s1 s2 :
  (1 <= slen t <= 512)%nat ->
  rf 2%nat s = (Ok (be_put 2 (u16 (Z.of_nat (slen t)))), s1) ->
  rf (slen t) s1 = (Ok (to_bytes t), s2) ->
  readTargetAddr rf s = (Ok t, s2).
Proof.
  intros Ht H1 H2. unfold readTargetAddr. rewrite H1.
  rewrite wrap_small by (change (2 ^ 16) with 65536; lia).
  rewrite be_get_put_small by (change (2 ^ (8 * Z.of_nat 2)) with 65536; lia).
  destruct (Z.eqb_spec (Z.of_nat (slen t)) 0); [lia|].
  destruct (Z.ltb_spec 512 (Z.of_nat (slen t))); [lia|]. cbn [orb].
  rewrite Nat2Z.id, H2. unfold of_bytes, to_bytes. by rewrite String.string_of_list_byte_of_string.
Qed.

(** [io.ReadFull] over a padded stream delivers the next [n] payload bytes. *)
Lemma ReadFull_ps_frames e fuel n ps fs l more :
  Forall frame_wf fs -> inner_r ps = mkReader (encs fs) e ->
  readBuf ps ++ payloads fs = l ++ more -> length l = n -> (n <= fuel)%nat ->
  exists ps' gs, ReadFull_ps_loop fuel n ps = (Ok l, ps') /\ Forall frame_wf gs /\
    inner_r ps' = mkReader (encs gs) e /\ readBuf ps' ++ payloads gs = more.
Proof.
  revert n ps fs l. induction fuel as [|fuel IH]; intros n ps fs l Hwf Hr Hl Hn Hf.
  { destruct l; [|simpl in Hn; lia]. exists ps, fs. simpl. done. }
  destruct n as [|n].
  { destruct l; [|done]. exists ps, fs. done. }
  cbn [ReadFull_ps_loop].
  destruct (psRead_frames e (S n) ps fs Hwf Hr) as (r & ps1 & Hpr & Hpost). rewrite Hpr.
  destruct r as [out|err].
  2: { destruct Hpost as [Hnil _]. rewrite Hl in Hnil. apply app_nil in Hnil as [-> _]. done. }
  destruct Hpost as (gs & Hgs & Hr1 & Heq & Hne). specialize (Hne ltac:(lia)).
  assert (Hout : (length out <= S n)%nat).
  { clear -Hpr. unfold psRead in Hpr. destruct (readBuf ps).
    - revert Hpr. generalize (S (length (rd_data (inner_r ps)))). intros k. revert ps.
      induction k as [|k IHk]; intros ps; [done|]. simpl.
      destruct (read_turn (S n) ps) as [[r|] ps'] eqn:Ht; [|apply IHk]. intros [= -> ->].
      unfold read_turn in Ht. repeat case_match; simplify_eq; eauto using read_payload_short.
    - injection Hpr as <- _. simpl; rewrite length_take. lia. }
  rewrite Hl in Heq. assert (Hpre : exists l', l = out ++ l' /\ readBuf ps1 ++ payloads gs = l' ++ more).
  { destruct (app_eq_inv _ _ _ _ Heq) as [(k & -> & Hk)|(k & Hk1 & Hk2)]; [eauto|].
    assert (k = []) as ->.
    { destruct k; [done|]. apply (f_equal length) in Hk1. rewrite length_app in Hk1. simpl in Hk1. lia. }
    rewrite app_nil_r in Hk1. exists []. rewrite app_nil_r. subst. done. }
  destruct Hpre as (l' & -> & Hl'). rewrite length_app in Hn.
  destruct (IH (S n - length out)%nat ps1 gs l') as (ps' & hs & -> & Hh); try done; [lia| |].
  { destruct out; [done|simpl; lia]. }
  eauto.
Qed.

Lemma fits_header t : (slen t <= 512)%nat -> fits (target_header t).
Proof. intros Ht. unfold fits. rewrite target_header_eq, length_app, length_be_put, length_to_bytes. lia. Qed.

Lemma server_target_plain t mx rest e :
  (1 <= slen t <= 512)%nat -> server_target false mx (target_header t ++ rest) e = Ok t.
Proof.
  intros Ht. unfold server_target. rewrite target_header_eq, <- app_assoc.
  erewrite readTargetAddr_ok; [done|done|by apply ReadFull_app, length_be_put|].
  by apply ReadFull_app, length_to_bytes.
Qed.

Lemma server_target_padded t mx fs e :
  (1 <= slen t <= 512)%nat -> Forall frame_wf fs -> payloads fs = target_header t ->
  server_target true mx (encs fs) e = Ok t.
Proof.
  intros Ht Hfs Hp. unfold server_target.
  set (ps := newPaddedStream (mkReader (encs fs) e) (mkWriter [] []) 0 mx).
  destruct (ReadFull_ps_frames e 2 2 ps fs (be_put 2 (u16 (Z.of_nat (slen t)))) (to_bytes t))
    as (ps1 & gs & H1 & Hgs & Hr1 & Hm1); [done|done| |apply length_be_put|lia|].
  { simpl. by rewrite Hp, target_header_eq. }
  destruct (ReadFull_ps_frames e (slen t) (slen t) ps1 gs (to_bytes t) [])
    as (ps2 & hs & H2 & _); [done|done|by rewrite Hm1, app_nil_r|apply length_to_bytes|lia|].
  by rewrite (readTargetAddr_ok ReadFull_ps t ps ps1 ps2 Ht H1 H2).
Qed.

(** What the header write puts on a fresh stream. *)
Lemma send_header_ok {G} `{Rand G} padding mx t (g : G) :
  (1 <= slen t <= 512)%nat -> mx <= 65536 ->
  exists w g', send_header padding mx t (mkWriter [] []) g = Some (Ok (length (target_header t)), w, g') /\
    forall mx' e, server_target padding mx' (w_out w) e = Ok t.
Proof.
  intros Ht Hmx. unfold send_header. destruct padding.
  - set (ps := newPaddedStream (mkReader [] EOF) (mkWriter [] []) 0 mx).
    destruct (psWrite_spec (target_header t) ps g) as (ds & f & ps' & g' & Hw & [Hpf _] & _ & Hwr & _);
      [done|split; simpl; lia|by apply fits_header; lia|].
    rewrite Hw. eexists _, _. split; [done|]. intros mx' e.
    destruct Hwr as (Hwf & -> & _). cbn [w_out inner_w ps newPaddedStream]. rewrite app_nil_l.
    apply server_target_padded; [done|done|].
    change (burstOnce ps) with false. cbn iota. rewrite !payloads_app, payloads_decoys. simpl.
    unfold payloads. simpl. by rewrite Hpf, app_nil_r.
  - rewrite Write_reliable by done. eexists _, _. split; [done|]. intros mx' e. cbn [w_out]. rewrite app_nil_l.
    rewrite <- (app_nil_r (target_header t)). by apply server_target_plain.
Qed.

(** ** Properties *)

(** C10: end to end, the server dials what the application asked for.  For
    every SOCKS5 CONNECT request (any offered methods, an IPv4 or IPv6 address
    or a domain name, any port), with or without padding and with any random
    source, the handler answers "no authentication" and "succeeded", and the
    server that reads the stream gets exactly the requested host and port. *)
Theorem socks_end_to_end {G} `{Rand G} (padding : bool) (mx mx' : Z) (methods rest : bytes) (rsv ver : byte)
    (a : addr) (port : Z) (g : G) (e e' : io_err) :
  Z.of_nat (length methods) < 256 -> addr_wf a -> 0 <= port < 65536 -> mx <= 65536 ->
  exists w g', handleSocks5Conn padding mx (mkReader (enc_request methods rsv ver a port ++ rest) e)
      (Ok (mkWriter [] [])) g = Some ([[x05; x00]; reply 0], Some w, g') /\
    server_target padding mx' (w_out w) e' = Ok (target_of a port).
Proof.
  intros Hm Ha Hp Hmx. unfold handleSocks5Conn. rewrite handshake_ok by done.
  pose proof (slen_target a port Ha Hp) as Ht.
  destruct (send_header_ok padding mx (target_of a port) g Ht Hmx) as (w & g' & -> & Hs).
  eexists _, _. split; [done|]. apply Hs.
Qed.

Lemma socks_end_to_end_witness :
  exists w (g' : Z), handleSocks5Conn true 256
      (mkReader (enc_request [x00] x00 x05 (V6 (replicate 15 x00 ++ [x01])) 443 ++ [x16]) EOF)
      (Ok (mkWriter [] [])) 3 = Some ([[x05; x00]; reply 0], Some w, g') /\
    server_target true 256 (w_out w) EOF = Ok "[::1]:443".
Proof.
  apply (socks_end_to_end true 256 256 [x00] [x16] x00 x05 (V6 (replicate 15 x00 ++ [x01])) 443 3 EOF EOF);
    try reflexivity; try (simpl; lia).
Defined.

(** refusals.  A command other than CONNECT is answered with code 7, an
    unknown address type with code 8, and a stream that cannot be opened with
    code 1; in none of these cases is a connection relayed, and no stream is
    opened for the first two. *)
Theorem socks_refusals {G} `{Rand G} (padding : bool) (mx : Z) (methods rest : bytes) (ver cmd rsv atyp : byte)
    (a : addr) (port : Z) (g : G) (e : io_err) (err : goerr) (st : res goerr writer) :
  Z.of_nat (length methods) < 256 -> addr_wf a -> 0 <= port < 65536 ->
  let start := [x05; z2b (Z.of_nat (length methods))] ++ methods in
  (b2z cmd <> 1 ->
    handleSocks5Conn padding mx (mkReader (start ++ [ver; cmd; rsv; atyp] ++ rest) e) st g
      = Some ([[x05; x00]; reply 7], None, g)) /\
  (b2z atyp <> 1 -> b2z atyp <> 3 -> b2z atyp <> 4 ->
    handleSocks5Conn padding mx (mkReader (start ++ [ver; x01; rsv; atyp] ++ rest) e) st g
      = Some ([[x05; x00]; reply 8], None, g)) /\
  handleSocks5Conn padding mx (mkReader (enc_request methods rsv ver a port ++ rest) e) (Err err) g
      = Some ([[x05; x00]; reply 1], None, g).
Proof.
  intros Hm Ha Hp start. split_and!.
  - intros Hc. unfold handleSocks5Conn, start. rewrite <- app_assoc, handshake_start by done. cbv zeta.
    change (slice 1 2 [ver; cmd; rsv; atyp]) with [cmd]. rewrite be_get_1.
    destruct (Z.eqb_spec (b2z cmd) 1); [done|]. done.
  - intros H1 H3 H4. unfold handleSocks5Conn, start. rewrite <- app_assoc, handshake_start by done. cbv zeta.
    change (be_get (slice 1 2 [ver; x01; rsv; atyp])) with 1. change (negb (1 =? 1)) with false. cbn iota.
    change (slice 3 4 [ver; x01; rsv; atyp]) with [atyp]. rewrite be_get_1.
    destruct (Z.eqb_spec (b2z atyp) 1); [done|]. destruct (Z.eqb_spec (b2z atyp) 3); [done|].
    destruct (Z.eqb_spec (b2z atyp) 4); [done|]. done.
  - unfold handleSocks5Conn. by rewrite handshake_ok.
Qed.

Lemma socks_refusals_witness :
  handleSocks5Conn false 0 (mkReader ([x05; x01; x00] ++ [x05; x02; x00; x01] ++ [x01]) EOF) (Ok (mkWriter [] [])) 7
      = Some ([[x05; x00]; reply 7], None, 7) /\
  handleSocks5Conn false 0 (mkReader ([x05; x01; x00] ++ [x05; x01; x00; x09] ++ [x01]) EOF) (Ok (mkWriter [] [])) 7
      = Some ([[x05; x00]; reply 8], None, 7).
Proof.
  split.
  - apply (socks_refusals false 0 [x00] [x01] x05 x02 x00 x01 (Domain []) 80 7 EOF (EIO EOF) (Ok (mkWriter [] [])));
      try (simpl; lia). vm_compute. discriminate.
  - apply (socks_refusals false 0 [x00] [x01] x05 x02 x00 x09 (Domain []) 80 7 EOF (EIO EOF) (Ok (mkWriter [] [])));
      try (simpl; lia); vm_compute; discriminate.
Defined.

End Socks.
