(* ===== verification/Adapters.v ===== *)
(** * Connection adapters

    The small wrappers through which the relayed bytes flow:
    [golib/webrtc/dcconn.go] (a message channel as a byte stream, with
    back-pressure), [media_transport.go] and [media_codec.go] (RTP packets as
    a byte stream), [activity.go] (closing idle connections), [throttle.go]
    (rate limits) and the byte counter of [server.go].  The data channel, the
    RTP track, the timer and the rate limiter are third-party or run-time
    objects: what they do is an argument of the definitions. *)

From S2P Require Import Prelude IO.

Open Scope Z_scope.

Module Adapters.

(** ** A data channel as a stream ([dcStreamConn])

    [readBuf] is one array; [pending] is the slice [lo, hi) of it, as in the
    source, so a read of the channel would overwrite pending bytes. *)

Definition dcBufLen : nat := Z.to_nat 65536.

Lemma dcBufLen_eq : Z.of_nat dcBufLen = 65536.
Proof. apply Z2Nat.id. lia. Qed.
#[global] Opaque dcBufLen.

(** The detached channel: the messages that will arrive and the error that
    follows them.  A message longer than the buffer is an error (pion's
    [io.ErrShortBuffer]). *)
Record dataChannel := mkDC { dc_msgs : list bytes; dc_err : io_err }.

Definition dc_Read (buf : bytes) (c : dataChannel) : res goerr nat * bytes * dataChannel :=
  match dc_msgs c with
  | [] => (Err (EIO (dc_err c)), buf, c)
  | m :: ms =>
      if decide (length buf < length m)%nat then (Err (EIO ErrShortBuffer), buf, c)
      else (Ok (length m), splice 0 m buf, mkDC ms (dc_err c))
  end.

Record dcStreamConn := mkDCS {
  rwc : dataChannel; dcReadBuf : bytes; pend_lo : nat; pend_hi : nat;
  maxBuffered : Z; lowMark : Z; dcs_done : bool }.

Definition newDCStreamConn (c : dataChannel) (maxB lowM : Z) : dcStreamConn :=
  mkDCS c (replicate dcBufLen x00) 0 0
    (if maxB <=? 0 then 512 * 1024 else maxB) (if lowM <=? 0 then 128 * 1024 else lowM) false.

Definition set_read (c : dataChannel) (buf : bytes) (lo hi : nat) (s : dcStreamConn) : dcStreamConn :=
  mkDCS c buf lo hi (maxBuffered s) (lowMark s) (dcs_done s).

Definition pending (s : dcStreamConn) : bytes := slice (pend_lo s) (pend_hi s) (dcReadBuf s).

Definition dcsRead (n : nat) (s : dcStreamConn) : res goerr bytes * dcStreamConn :=
  match pending s with
  | _ :: _ =>
      let k := Nat.min n (length (pending s)) in
      (Ok (take n (pending s)), set_read (rwc s) (dcReadBuf s) (pend_lo s + k) (pend_hi s) s)
  | [] =>
      match dc_Read (dcReadBuf s) (rwc s) with
      | (Err e, buf, c) => (Err e, set_read c buf (pend_lo s) (pend_hi s) s)
      | (Ok k, buf, c) =>
          let m := Nat.min n k in
          if decide (m < k)%nat then (Ok (take n (take k buf)), set_read c buf m k s)
          else (Ok (take n (take k buf)), set_read c buf (pend_lo s) (pend_hi s) s)
      end
  end.

(** [Write] under back-pressure: [amounts] are the buffered amounts that the
    loop sees, one per turn; between turns it waits for the low-water signal
    ([true]) or for [done].  [None]: still waiting. *)
Fixpoint dcsWrite (amounts : list Z) (woken : list bool) (p : bytes) (s : dcStreamConn)
    : option (res goerr bytes) :=
  match amounts with
  | [] => None
  | a :: amounts =>
      if maxBuffered s <? a then
        match woken with
        | [] => None
        | true :: woken => dcsWrite amounts woken p s
        | false :: _ => Some (Err (EIO ErrClosedPipe))
        end
      else Some (Ok p)
  end.

Definition dcsClose (s : dcStreamConn) : dcStreamConn :=
  mkDCS (rwc s) (dcReadBuf s) (pend_lo s) (pend_hi s) (maxBuffered s) (lowMark s) true.

(** Successive reads. *)
Fixpoint dcs_reads (ns : list nat) (s : dcStreamConn) : list (res goerr bytes) * dcStreamConn :=
  match ns with
  | [] => ([], s)
  | n :: ns => let '(r, s) := dcsRead n s in let '(rs, s) := dcs_reads ns s in (r :: rs, s)
  end.

Definition data_of (r : res goerr bytes) : bytes := match r with Ok b => b | Err _ => [] end.

(** What the reader has not seen yet. *)
Definition unread (s : dcStreamConn) : bytes := pending s ++ concat (dc_msgs (rwc s)).

Definition dcs_ok (s : dcStreamConn) : Prop :=
  length (dcReadBuf s) = dcBufLen /\ (pend_hi s <= dcBufLen)%nat /\
  Forall (fun m => m <> [] /\ (length m <= dcBufLen)%nat) (dc_msgs (rwc s)).

Lemma slice_empty {A} lo hi (l : list A) : (hi <= lo)%nat -> slice lo hi l = [].
Proof. intros H. unfold slice. by replace (hi - lo)%nat with 0%nat by lia. Qed.

Lemma slice_advance {A} lo hi k (l : list A) : slice (lo + k) hi l = drop k (slice lo hi l).
Proof. unfold slice. rewrite skipn_firstn_comm, drop_drop. f_equal. lia. Qed.

Lemma dcs_done_pending s : dcs_ok s -> pending s = [] -> (pend_hi s <= pend_lo s)%nat.
Proof.
  intros (Hl & Hh & _) Hp. assert (E : length (pending s) = (pend_hi s - pend_lo s)%nat)
    by (unfold pending; apply length_slice; lia). rewrite Hp in E. simpl in E. lia.
Qed.

(** One read: what it returns comes off the front of the unread bytes. *)
Lemma dcsRead_spec n s : dcs_ok s ->
  let '(r, s') := dcsRead n s in
  dcs_ok s' /\ data_of r ++ unread s' = unread s /\
  match r with
  | Ok b => (length b <= n)%nat /\ (0 < n -> b <> [])%nat
  | Err e => e = EIO (dc_err (rwc s)) /\ unread s = []
  end /\ dc_err (rwc s') = dc_err (rwc s).
Proof.
  intros Hok. pose proof Hok as (Hl & Hh & Hm). unfold dcsRead. destruct (pending s) as [|x p] eqn:Hp.
  - pose proof (dcs_done_pending s Hok Hp) as Hlo. unfold dc_Read. destruct (dc_msgs (rwc s)) as [|m ms] eqn:Em.
    + assert (Hu : unread s = []) by (unfold unread; by rewrite Hp, Em). rewrite Hu.
      split; [unfold dcs_ok; simpl; by rewrite Em|]. split; [exact Hu|]. done.
    + apply Forall_cons in Hm as [[Hne Hlen] Hms]. rewrite decide_False by lia.
      assert (Hbuf : splice 0 m (dcReadBuf s) = m ++ drop (length m) (dcReadBuf s)) by (apply splice_app_0; lia).
      assert (Htk : take (length m) (splice 0 m (dcReadBuf s)) = m) by (rewrite Hbuf; apply take_app_length).
      assert (Hu : unread s = m ++ concat ms) by (unfold unread; by rewrite Hp, Em).
      assert (Hok' : forall lo hi, (hi <= dcBufLen)%nat -> dcs_ok (set_read (mkDC ms (dc_err (rwc s))) (splice 0 m (dcReadBuf s)) lo hi s)).
      { intros lo hi Hhi. unfold dcs_ok. simpl. rewrite length_splice. done. }
      rewrite Htk. case_decide as Hlt; (split; [apply Hok'; lia|]); rewrite Hu; unfold unread, pending;
        cbn [data_of rwc set_read dc_msgs pend_lo pend_hi dcReadBuf dc_err]; (split; [|split; [|done]]).
      * rewrite app_assoc. f_equal. unfold slice. rewrite Hbuf, drop_app_le, take_app_le by (len; lia).
        rewrite (take_ge (drop _ m)) by (len; lia). replace (Nat.min n (length m)) with n by lia. apply take_drop.
      * split; [len; lia|]. intros Hn. destruct m, n; done || lia.
      * rewrite slice_empty by lia. by rewrite take_ge by lia.
      * split; [len; lia|]. intros Hn. destruct m, n; done || lia.
  - assert (E : length (pending s) = (pend_hi s - pend_lo s)%nat) by (unfold pending; apply length_slice; lia).
    rewrite <- Hp. split; [done|]. split; [|split; [|done]].
    + unfold unread. cbn [data_of rwc set_read]. rewrite app_assoc. f_equal.
      set (k := Nat.min n (length (pending s))).
      change (pending (set_read (rwc s) (dcReadBuf s) (pend_lo s + k) (pend_hi s) s))
        with (slice (pend_lo s + k) (pend_hi s) (dcReadBuf s)).
      rewrite slice_advance. change (slice (pend_lo s) (pend_hi s) (dcReadBuf s)) with (pending s). unfold k.
      destruct (decide (n <= length (pending s))%nat).
      * rewrite Nat.min_l by lia. apply take_drop.
      * rewrite Nat.min_r by lia. by rewrite drop_all, app_nil_r, take_ge by lia.
    + split; [len; lia|]. intros Hn. rewrite Hp. destruct n; [lia|done].
Qed.

Lemma dcs_reads_spec ns : forall s, dcs_ok s ->
  let '(rs, s') := dcs_reads ns s in
  dcs_ok s' /\ concat (data_of <$> rs) ++ unread s' = unread s /\ length rs = length ns /\ dc_err (rwc s') = dc_err (rwc s) /\
  forall i r n, rs !! i = Some r -> ns !! i = Some n ->
    match r with
    | Ok b => (length b <= n)%nat /\ (0 < n -> b <> [])%nat
    | Err e => e = EIO (dc_err (rwc s)) /\ concat (data_of <$> take i rs) = unread s
    end.
Proof.
  induction ns as [|n ns IH]; intros s Hok; cbn [dcs_reads].
  - split; [done|]. split; [done|]. split; [done|]. split; [done|]. by intros i r n Hi.
  - pose proof (dcsRead_spec n s Hok) as Hr. destruct (dcsRead n s) as [r s1] eqn:E.
    destruct Hr as (Hok1 & Hu & Hcase & He). specialize (IH s1 Hok1). destruct (dcs_reads ns s1) as [rs s2].
    destruct IH as (Hok2 & Hu2 & Hlen & He2 & Hall). split; [done|]. split.
    { cbn [fmap list_fmap concat]. rewrite <- app_assoc, Hu2. done. }
    split; [simpl; lia|]. split; [congruence|].
    intros [|i] r' n' Hi Hn; simpl in Hi, Hn.
    + injection Hi as <-. injection Hn as <-. destruct r as [b|e]; [done|]. destruct Hcase as [-> ->]. done.
    + specialize (Hall i r' n' Hi Hn). destruct r' as [b|e]; [done|]. destruct Hall as [-> Hc].
      split; [by rewrite He|]. cbn [take fmap list_fmap concat]. by rewrite Hc.
Qed.

Lemma newDCStreamConn_ok c maxB lowM :
  Forall (fun m => m <> [] /\ (length m <= dcBufLen)%nat) (dc_msgs c) -> dcs_ok (newDCStreamConn c maxB lowM).
Proof. intros H. unfold dcs_ok. simpl. rewrite length_replicate. repeat split; [lia|done]. Qed.

(** ** RTP packets as a stream ([MediaStreamTransport]) *)

Record mediaCodecInfo := mkCodec { Name : string; PayloadType : Z; ClockRate : Z }.

Definition mediaCodecs : list mediaCodecInfo :=
  [mkCodec "H264" 96 90000; mkCodec "VP8" 97 90000; mkCodec "VP9" 98 90000; mkCodec "AV1" 35 90000].
Definition frameRates : list Z := [25; 30; 60].

(** [int(x)] of an unsigned 32-bit value, for an [int] of [w] bits. *)
Definition to_int (w x : Z) : Z := let y := wrap w x in if y <? 2 ^ (w - 1) then y else y - 2 ^ w.

(** Indexing a slice; [None] is the run-time panic. *)
Definition index {A} (l : list A) (i : Z) : option A := if i <? 0 then None else l !! Z.to_nat i.

Definition selectCodec (w : Z) (seed : bytes) : option mediaCodecInfo :=
  if Z.of_nat (length seed) <? 4 then index mediaCodecs 0
  else index mediaCodecs (Z.rem (to_int w (be_get (take 4 seed))) (Z.of_nat (length mediaCodecs))).

Definition selectFrameRate (w : Z) (seed : bytes) : option Z :=
  if Z.of_nat (length seed) <? 8 then Some 30
  else index frameRates (Z.rem (to_int w (be_get (slice 4 8 seed))) (Z.of_nat (length frameRates))).

Record rtpPacket := mkRtp { p_type : Z; p_seq : Z; p_ts : Z; p_ssrc : Z; p_payload : bytes }.

(** The transport; [readCh] are the payloads that the read loop has queued
    (at most 4096: the loop blocks while it is full). *)
Record MediaStreamTransport := mkMST {
  mst_codec : mediaCodecInfo; mst_frameRate : Z; mst_ssrc : Z; seqNum : Z; timestamp : Z;
  readCh : list bytes; mst_readBuf : bytes; mst_done : bool }.

Definition writeRTP (payload : bytes) (t : MediaStreamTransport) : rtpPacket * MediaStreamTransport :=
  let seq := u16 (seqNum t + 1) in
  let ts := u32 (timestamp t + ClockRate (mst_codec t) / mst_frameRate t) in
  (mkRtp (PayloadType (mst_codec t)) seq ts (mst_ssrc t) payload,
   mkMST (mst_codec t) (mst_frameRate t) (mst_ssrc t) seq ts (readCh t) (mst_readBuf t) (mst_done t)).

(** [Write]; [track] is what [WriteRTP] of the local track answers. *)
Definition mstWrite (track : rtpPacket -> option goerr) (p : bytes) (t : MediaStreamTransport)
    : res goerr nat * list rtpPacket * MediaStreamTransport :=
  if mst_done t then (Err (EIO ErrClosedPipe), [], t)
  else let '(pkt, t) := writeRTP p t in
       match track pkt with
       | Some e => (Err e, [pkt], t)
       | None => (Ok (length p), [pkt], t)
       end.

(** One turn of [readTrackLoop] for a received packet; [None] while the queue
    is full. *)
Definition readTrack (payload : bytes) (t : MediaStreamTransport) : option MediaStreamTransport :=
  if mst_done t then Some t
  else match payload with
       | [] => Some t
       | _ => if (4096 <=? Z.of_nat (length (readCh t)))%Z then None
              else Some (mkMST (mst_codec t) (mst_frameRate t) (mst_ssrc t) (seqNum t) (timestamp t)
                           (readCh t ++ [payload]) (mst_readBuf t) (mst_done t))
       end.

Definition set_mst_read (ch : list bytes) (rest : bytes) (t : MediaStreamTransport) : MediaStreamTransport :=
  mkMST (mst_codec t) (mst_frameRate t) (mst_ssrc t) (seqNum t) (timestamp t) ch rest (mst_done t).

(** [Read]; [None]: it waits. *)
Definition mstRead (n : nat) (t : MediaStreamTransport) : option (res goerr bytes * MediaStreamTransport) :=
  match mst_readBuf t with
  | _ :: _ => Some (Ok (take n (mst_readBuf t)), set_mst_read (readCh t) (drop n (mst_readBuf t)) t)
  | [] =>
      match readCh t with
      | data :: ch =>
          Some (Ok (take n data),
                set_mst_read ch (if decide (n < length data)%nat then drop n data else mst_readBuf t) t)
      | [] => if mst_done t then Some (Err (EIO EOF), t) else None
      end
  end.

Definition mstClose (t : MediaStreamTransport) : MediaStreamTransport :=
  mkMST (mst_codec t) (mst_frameRate t) (mst_ssrc t) (seqNum t) (timestamp t) (readCh t) (mst_readBuf t) true.

(** With a 64-bit [int] the choice never panics; with a 32-bit [int], a build
    target of the Android library, a seed whose first byte is 128 or more and
    whose index is not a multiple of four does. *)
Lemma selectCodec_64 seed : exists c, selectCodec 64 seed = Some c.
Proof.
  unfold selectCodec. destruct (Z.ltb_spec (Z.of_nat (length seed)) 4) as [|Hl]; [by eexists|].
  pose proof (be_get_range (take 4 seed)) as Hr. rewrite length_take, Nat.min_l in Hr by lia.
  change (2 ^ (8 * Z.of_nat 4)) with 4294967296 in Hr. unfold to_int. rewrite wrap_small by lia.
  destruct (Z.ltb_spec (be_get (take 4 seed)) (2 ^ (64 - 1))) as [_|]; [|lia].
  change (Z.of_nat (length mediaCodecs)) with 4. pose proof (Z.rem_bound_pos (be_get (take 4 seed)) 4) as Hb.
  unfold index. destruct (Z.ltb_spec (Z.rem (be_get (take 4 seed)) 4) 0); [lia|].
  apply lookup_lt_is_Some_2. simpl. lia.
Qed.

Lemma selectCodec_32_panics : selectCodec 32 [xff; xff; xff; xfe] = None.
Proof. reflexivity. Qed.

(** ** Counting ([countingRWC]) *)

Record counters := mkCount { bytesRead : Z; bytesWritten : Z }.

(** The inner call moved [n] bytes. *)
Definition count_read (n : nat) (c : counters) : counters :=
  if decide (0 < n)%nat then mkCount (bytesRead c + Z.of_nat n) (bytesWritten c) else c.
Definition count_write (n : nat) (c : counters) : counters :=
  if decide (0 < n)%nat then mkCount (bytesRead c) (bytesWritten c + Z.of_nat n) else c.

(** ** Rate limits ([throttledConn]) *)

Definition relayBufSize : Z := 128 * 1024.

Section Throttle.
(** [Limiter.WaitN] for a limiter of the given burst (its rate is the same
    number): [None] when the tokens were taken, else the error. *)
Context (WaitN : Z -> Z -> option goerr).

Record throttledConn := mkThrottled { readLim : option Z; writeLim : option Z; t_written : list bytes }.

Definition newThrottledConn (bytesPerSecUp bytesPerSecDown : Z) : throttledConn :=
  mkThrottled (if 0 <? bytesPerSecDown then Some bytesPerSecDown else None)
    (if 0 <? bytesPerSecUp then Some bytesPerSecUp else None) [].

(** [Read], given what the inner read returned: bytes and error. *)
Definition tcRead (data : bytes) (err : option goerr) (t : throttledConn) : bytes * option goerr :=
  match readLim t with
  | Some b => if decide (0 < length data)%nat then
                match WaitN b (Z.of_nat (length data)) with
                | Some e => (data, Some e)
                | None => (data, err)
                end
              else (data, err)
  | None => (data, err)
  end.

(** [Write], with an inner connection that takes everything. *)
Definition tcWrite (p : bytes) (t : throttledConn) : res goerr nat * throttledConn :=
  match writeLim t with
  | Some b => match WaitN b (Z.of_nat (length p)) with
              | Some e => (Err e, t)
              | None => (Ok (length p), mkThrottled (readLim t) (writeLim t) (t_written t ++ [p]))
              end
  | None => (Ok (length p), mkThrottled (readLim t) (writeLim t) (t_written t ++ [p]))
  end.
End Throttle.

(** ** Idle connections ([activityConn]) *)

Record activityConn := mkActivity {
  timeout : Z; lastActivity : Z; timer : option Z; closed : bool }.

Definition newActivityConn (timeout now : Z) : activityConn :=
  mkActivity timeout now (Some (now + timeout)) false.

(** A read or write that moved bytes. *)
Definition activity (now : Z) (a : activityConn) : activityConn :=
  mkActivity (timeout a) now (timer a) (closed a).

Definition closeActivity (a : activityConn) : activityConn :=
  mkActivity (timeout a) (lastActivity a) None true.

(** The timer's function. *)
Definition checkInactivity (now : Z) (a : activityConn) : activityConn :=
  let elapsed := now - lastActivity a in
  if timeout a <=? elapsed then closeActivity a
  else mkActivity (timeout a) (lastActivity a) (Some (now + (timeout a - elapsed))) (closed a).

(** Time passes; bytes move; the timer fires at or after its time. *)
Inductive act_step : Z * activityConn -> Z * activityConn -> Prop :=
  | act_io now now' a : now <= now' -> closed a = false -> act_step (now, a) (now', activity now' a)
  | act_fire now now' d a : now <= now' -> d <= now' -> timer a = Some d ->
      act_step (now, a) (now', checkInactivity now' a).

Definition act_inv (s : Z * activityConn) : Prop :=
  let '(now, a) := s in
  0 < timeout a /\ lastActivity a <= now /\
  match timer a with
  | Some d => closed a = false /\ d <= lastActivity a + timeout a
  | None => closed a = true /\ lastActivity a + timeout a <= now
  end.

Lemma act_inv_step s s' : act_inv s -> act_step s s' -> act_inv s'.
Proof.
  intros H Hs. destruct Hs as [now now' a Hn Hc|now now' d a Hn Hd Ht]; unfold act_inv, checkInactivity in *; simpl in *.
  - destruct (timer a); destruct_and!; [|congruence]. repeat split; try done; lia.
  - rewrite Ht in H. destruct_and!. destruct (Z.leb_spec (timeout a) (now' - lastActivity a)); simpl; repeat split; try done; lia.
Qed.

(** ** Properties *)

(** a data channel read as a stream.  Whatever sizes the reader asks for,
    the bytes it gets are, in order and without loss or repetition, those of
    the messages; no read of a positive size returns nothing, and an error is
    reported only after every byte has been delivered. *)
Theorem dc_stream_exact (msgs : list bytes) (e : io_err) (maxB lowM : Z) (ns : list nat) :
  Forall (fun m => m <> [] /\ (length m <= dcBufLen)%nat) msgs ->
  let '(rs, s) := dcs_reads ns (newDCStreamConn (mkDC msgs e) maxB lowM) in
  concat (data_of <$> rs) ++ unread s = concat msgs /\
  forall i r n, rs !! i = Some r -> ns !! i = Some n ->
    match r with
    | Ok b => (length b <= n)%nat /\ (0 < n -> b <> [])%nat
    | Err e' => e' = EIO e /\ concat (data_of <$> take i rs) = concat msgs
    end.
Proof.
  intros Hm. pose proof (dcs_reads_spec ns _ (newDCStreamConn_ok (mkDC msgs e) maxB lowM Hm)) as H.
  destruct (dcs_reads ns (newDCStreamConn (mkDC msgs e) maxB lowM)) as [rs s].
  destruct H as (_ & Hu & _ & _ & Hall). assert (E : unread (newDCStreamConn (mkDC msgs e) maxB lowM) = concat msgs) by done.
  rewrite E in *. split; [done|]. exact Hall.
Qed.

Lemma dc_stream_exact_witness :
  let '(rs, s) := dcs_reads [2; 8; 1; 4]%nat (newDCStreamConn (mkDC [[x01; x02; x03]; [x04]] EOF) 0 0) in
  concat (data_of <$> rs) ++ unread s = [x01; x02; x03; x04].
Proof.
  pose proof (dc_stream_exact [[x01; x02; x03]; [x04]] EOF 0 0 [2; 8; 1; 4]%nat) as H.
  destruct (dcs_reads [2; 8; 1; 4]%nat (newDCStreamConn (mkDC [[x01; x02; x03]; [x04]] EOF) 0 0)) as [rs s].
  apply H. pose proof dcBufLen_eq as Hb.
  repeat (apply Forall_cons; split; [split; [discriminate|simpl; lia]|]). apply Forall_nil. exact I.
Defined.

(** rate limits below the relay's buffer size break transfers.  A limiter
    whose burst is the configured rate refuses more tokens than its burst, so
    at a rate below 128 KiB per second a single chunk of the relay's buffer
    fails: the write returns an error and passes nothing on, and the read
    returns its bytes with an error, which ends the copy.  A chunk that the
    limiter grants passes unchanged. *)
Theorem throttle_chunks (WaitN : Z -> Z -> option goerr) (up down : Z) (p : bytes) :
  (forall burst n, burst < n -> WaitN burst n <> None) ->
  0 < up < relayBufSize -> 0 < down < relayBufSize ->
  let t := newThrottledConn up down in
  (Z.of_nat (length p) = relayBufSize ->
     (exists e, tcWrite WaitN p t = (Err e, t)) /\ (exists e, tcRead WaitN p None t = (p, Some e))) /\
  (WaitN up (Z.of_nat (length p)) = None ->
     exists t', tcWrite WaitN p t = (Ok (length p), t') /\ t_written t' = t_written t ++ [p]).
Proof.
  intros HW Hu Hd t. unfold t, newThrottledConn, tcWrite, tcRead. cbn [writeLim readLim t_written].
  destruct (Z.ltb_spec 0 up); [|lia]. destruct (Z.ltb_spec 0 down); [|lia]. split.
  - intros Hp. split.
    + destruct (WaitN up (Z.of_nat (length p))) eqn:E; [by eexists|]. exfalso. apply (HW up (Z.of_nat (length p))); [lia|done].
    + rewrite decide_True by (unfold relayBufSize in Hp; lia).
      destruct (WaitN down (Z.of_nat (length p))) eqn:E; [by eexists|]. exfalso. apply (HW down (Z.of_nat (length p))); [lia|done].
  - intros ->. by eexists.
Qed.

(** A limiter that is full: it grants up to its burst. *)
Definition full_limiter (burst n : Z) : option goerr :=
  if burst <? n then Some (EMsg "rate: Wait exceeds limiter's burst" [n]) else None.

Lemma throttle_chunks_witness :
  (exists e, tcWrite full_limiter (replicate (Z.to_nat relayBufSize) x00) (newThrottledConn 65536 65536) = (Err e, newThrottledConn 65536 65536)) /\
  (exists t', tcWrite full_limiter [x01] (newThrottledConn 65536 65536) = (Ok 1%nat, t') /\
     t_written t' = t_written (newThrottledConn 65536 65536) ++ [[x01]]).
Proof.
  assert (HW : forall burst n, burst < n -> full_limiter burst n <> None).
  { intros b n H. unfold full_limiter. destruct (Z.ltb_spec b n); [discriminate|lia]. }
  assert (Hr : 0 < 65536 < relayBufSize) by (unfold relayBufSize; lia). split.
  - apply (throttle_chunks full_limiter 65536 65536 (replicate (Z.to_nat relayBufSize) x00) HW Hr Hr).
    rewrite length_replicate. apply Z2Nat.id. unfold relayBufSize. lia.
  - apply (throttle_chunks full_limiter 65536 65536 [x01] HW Hr Hr). reflexivity.
Defined.

(** idle connections.  Whatever the traffic and however late the timer
    fires, a connection that the timer has closed has been idle for its whole
    timeout, and an open connection always has a timer armed for no later than
    the end of its current idle period; that timer, firing when the period is
    over, closes the connection, and firing earlier is armed again for exactly
    the end of the period. *)
Theorem activity_timeout (timeout_ t0 now : Z) (a : activityConn) :
  0 < timeout_ -> rtc act_step (t0, newActivityConn timeout_ t0) (now, a) ->
  (closed a = true -> timeout_ <= now - lastActivity a) /\
  (closed a = false -> exists d, timer a = Some d /\ d <= lastActivity a + timeout_ /\
     forall t, closed (checkInactivity t a) = (lastActivity a + timeout_ <=? t) /\
       (t < lastActivity a + timeout_ -> timer (checkInactivity t a) = Some (lastActivity a + timeout_))).
Proof.
  intros Ht Hr. assert (H : act_inv (now, a) /\ timeout a = timeout_).
  { apply (rtc_invariant act_step (fun s => act_inv s /\ timeout s.2 = timeout_) _ _) in Hr; [done| |].
    - intros s s' [Hi Ho] Hs. split; [by eapply act_inv_step|]. destruct Hs; simpl in *; [done|].
      unfold checkInactivity. by destruct (_ <=? _).
    - unfold act_inv. simpl. repeat split; lia. }
  destruct H as [(_ & Hl & Hc) Ho]. destruct (timer a) as [d|]; destruct_and!; split; try congruence; [|lia].
  intros Hcl. exists d. split; [done|]. split; [lia|]. intros t. unfold checkInactivity. rewrite Ho.
  destruct (Z.leb_spec timeout_ (t - lastActivity a)), (Z.leb_spec (lastActivity a + timeout_) t); simpl; try lia.
  split; [done|]. intros _. f_equal. lia.
Qed.

Lemma activity_timeout_witness :
  (closed (mkActivity 10 7 (Some 17) false) = true -> 10 <= 12 - 7) /\
  (closed (mkActivity 10 7 (Some 17) false) = false -> exists d, timer (mkActivity 10 7 (Some 17) false) = Some d /\ d <= 7 + 10 /\
     forall t, closed (checkInactivity t (mkActivity 10 7 (Some 17) false)) = (7 + 10 <=? t) /\
       (t < 7 + 10 -> timer (checkInactivity t (mkActivity 10 7 (Some 17) false)) = Some (7 + 10))).
Proof.
  apply (activity_timeout 10 0 12 (mkActivity 10 7 (Some 17) false)); [lia|].
  eapply rtc_l; [apply (act_io 0 7); [lia|reflexivity]|].
  eapply rtc_l; [apply (act_fire 7 12 10); [lia|lia|reflexivity]|]. apply rtc_refl.
Defined.

End Adapters.
