(* ===== verification/Sdp.v ===== *)
(** * Session descriptions and their ICE candidates

    [golib/webrtc/peer.go] (the [inject...Candidate] functions) and
    [golib/webrtc/ice_filter.go]: the candidate lines that the program adds to
    a description and the filter that drops candidates with non-routable
    addresses.  The standard library's [net.ParseIP], [net.SplitHostPort],
    [strings.Fields], [strings.Index] and the address predicates are written
    out; descriptions are ASCII, so [strings.Fields] splits at the six ASCII
    spaces. *)

From S2P Require Import Prelude GoStr.

Open Scope Z_scope.

Module Sdp.

(** ** Characters and numbers *)

Definition CR : Ascii.ascii := "013"%char.
Definition LF : Ascii.ascii := "010"%char.
Definition crlf : string := String CR (String LF EmptyString).

Definition code (c : Ascii.ascii) : Z := Z.of_N (N_of_ascii c).

Definition is_space (c : Ascii.ascii) : bool := bool_decide (code c ∈ [9; 10; 11; 12; 13; 32]).

Definition digit (c : Ascii.ascii) : option Z :=
  if (48 <=? code c) && (code c <=? 57) then Some (code c - 48) else None.

Definition hex (c : Ascii.ascii) : option Z :=
  if (48 <=? code c) && (code c <=? 57) then Some (code c - 48)
  else if (97 <=? code c) && (code c <=? 102) then Some (code c - 97 + 10)
  else if (65 <=? code c) && (code c <=? 70) then Some (code c - 65 + 10) else None.

Fixpoint digits_val (acc : Z) (s : string) : option Z :=
  match s with
  | EmptyString => Some acc
  | String c s => d ← digit c; digits_val (acc * 10 + d) s
  end.

(** [strconv.Atoi]: an optional sign and at least one digit, in the range of
    a 64-bit [int]. *)
Definition Atoi (s : string) : option Z :=
  let '(neg, d) := match s with
                   | String "-"%char t => (true, t)
                   | String "+"%char t => (false, t)
                   | _ => (false, s)
                   end in
  match d with
  | EmptyString => None
  | _ => v ← digits_val 0 d;
         let z := if neg : bool then - v else v in
         if (- 2 ^ 63 <=? z) && (z <? 2 ^ 63) then Some z else None
  end.

(** ** Splitting *)

(** [strings.Split(s, sep)] for the separator CR LF. *)
Fixpoint split_crlf (s : string) : list string :=
  match s with
  | EmptyString => [EmptyString]
  | String a s1 =>
      match s1 with
      | String b s2 =>
          if bool_decide (a = CR) && bool_decide (b = LF) then EmptyString :: split_crlf s2
          else match split_crlf s1 with [] => [String a EmptyString] | x :: xs => String a x :: xs end
      | EmptyString => [s]
      end
  end.

Fixpoint split_spaces (s : string) : list string :=
  match s with
  | EmptyString => [EmptyString]
  | String a s =>
      if is_space a then EmptyString :: split_spaces s
      else match split_spaces s with [] => [String a EmptyString] | x :: xs => String a x :: xs end
  end.

(** [strings.Fields]. *)
Definition Fields (s : string) : list string := filter (fun x => x <> EmptyString) (split_spaces s).

(** [strings.Index] together with the two slices around it: the text before
    the first occurrence of [p], and the text from it on. *)
Fixpoint cut_at (p s : string) : option (string * string) :=
  if HasPrefix s p then Some (EmptyString, s)
  else match s with
       | EmptyString => None
       | String a s => '(x, y) ← cut_at p s; Some (String a x, y)
       end.

Fixpoint index_char (c : Ascii.ascii) (s : string) : option nat :=
  match s with
  | EmptyString => None
  | String a s => if decide (a = c) then Some O else S <$> index_char c s
  end.

Fixpoint last_char (c : Ascii.ascii) (s : string) : option nat :=
  match s with
  | EmptyString => None
  | String a s => match last_char c s with
                  | Some i => Some (S i)
                  | None => if decide (a = c) then Some O else None
                  end
  end.

Fixpoint sdrop (n : nat) (s : string) : string :=
  match n, s with S n, String _ s => sdrop n s | _, _ => s end.
Fixpoint stake (n : nat) (s : string) : string :=
  match n, s with S n, String a s => String a (stake n s) | _, _ => EmptyString end.

Definition lbr : Ascii.ascii := "["%char.
Definition rbr : Ascii.ascii := "]"%char.
Definition colon : Ascii.ascii := ":"%char.

(** [net.SplitHostPort]; [None] is an error. *)
Definition SplitHostPort (hp : string) : option (string * string) :=
  i ← last_char colon hp;
  let port := sdrop (S i) hp in
  match hp with
  | String a _ =>
      if decide (a = lbr) then
        e ← index_char rbr hp;
        if decide (S e = i) then
          if has_char lbr (sdrop 1 hp) || has_char rbr (sdrop (S e) hp) then None
          else Some (stake (e - 1) (sdrop 1 hp), port)
        else None
      else
        if has_char colon (stake i hp) || has_char lbr hp || has_char rbr hp then None
        else Some (stake i hp, port)
  | EmptyString => None
  end.

(** ** Addresses: [net.ParseIP]

    An address is its sixteen bytes; an IPv4 address is the mapped form. *)

Definition parse_octet (s : string) : option Z :=
  match s with
  | EmptyString => None
  | String "0"%char (String _ _) => None
  | _ => v ← digits_val 0 s; if v <=? 255 then Some v else None
  end.

Definition parse_v4 (s : string) : option (list Z) :=
  let parts := split_char "."%char s in
  if decide (length parts = 4%nat) then mapM parse_octet parts else None.

Definition v4mapped (q : list Z) : list Z := replicate 10 0 ++ [255; 255] ++ q.

(** One group of an IPv6 address: its value, the number of its digits and the
    rest; [None] when it has more than four digits. *)
Fixpoint hex_group (off : nat) (acc : Z) (s : string) : option (Z * nat * string) :=
  match s with
  | EmptyString => Some (acc, off, s)
  | String c s' =>
      match hex c with
      | Some d => if decide (3 < off)%nat then None else hex_group (S off) (acc * 16 + d) s'
      | None => Some (acc, off, s)
      end
  end.

(** The groups of an IPv6 address: the bytes before the ellipsis, if one was
    seen, and the bytes read; [fuel] is the number of groups left. *)
Fixpoint groups (fuel : nat) (ell : option nat) (ip : list Z) (s : string) : option (option nat * list Z) :=
  match fuel with
  | O => match s with EmptyString => Some (ell, ip) | _ => None end
  | S fuel =>
      '(acc, off, rest) ← hex_group 0 0 s;
      if decide (off = O) then None else
      match rest with
      | String "."%char _ =>
          if bool_decide (ell = None) && negb (Nat.eqb (length ip) 12) then None
          else if decide (16 < length ip + 4)%nat then None
          else q ← parse_v4 s; Some (ell, ip ++ q)
      | EmptyString => Some (ell, ip ++ [acc / 256; acc mod 256])
      | String ":"%char t =>
          let ip := ip ++ [acc / 256; acc mod 256] in
          match t with
          | EmptyString => None
          | String ":"%char t2 =>
              if ell is Some _ then None
              else match t2 with
                   | EmptyString => Some (Some (length ip), ip)
                   | _ => groups fuel (Some (length ip)) ip t2
                   end
          | _ => groups fuel ell ip t
          end
      | _ => None
      end
  end.

Definition expand (ell : option nat) (ip : list Z) : option (list Z) :=
  if decide (length ip < 16)%nat then
    e ← ell; Some (take e ip ++ replicate (16 - length ip) 0 ++ drop e ip)
  else if ell is Some _ then None else Some ip.

Definition parse_v6 (s : string) : option (list Z) :=
  match s with
  | String ":"%char (String ":"%char EmptyString) => Some (replicate 16 0)
  | String ":"%char (String ":"%char t) => '(ell, ip) ← groups 8 (Some O) [] t; expand ell ip
  | _ => '(ell, ip) ← groups 8 None [] s; expand ell ip
  end.

Fixpoint first_sep (s : string) : option Ascii.ascii :=
  match s with
  | EmptyString => None
  | String c s => if bool_decide (c ∈ ["."; ":"; "%"]%char) then Some c else first_sep s
  end.

Definition ParseIP (s : string) : option (list Z) :=
  match first_sep s with
  | Some "."%char => v4mapped <$> parse_v4 s
  | Some ":"%char => if has_char "%"%char s then None else parse_v6 s
  | _ => None
  end.

(** [IP.To4]. *)
Definition To4 (ip : list Z) : option (list Z) :=
  if decide (take 12 ip = replicate 10 0 ++ [255; 255]) then Some (drop 12 ip) else None.

Definition at_ (l : list Z) (i : nat) : Z := nth i l 0.

Definition IsLoopback (ip : list Z) : bool :=
  match To4 ip with Some q => at_ q 0 =? 127 | None => bool_decide (ip = replicate 15 0 ++ [1]) end.
Definition IsMulticast (ip : list Z) : bool :=
  match To4 ip with Some q => Z.land (at_ q 0) 240 =? 224 | None => at_ ip 0 =? 255 end.
Definition IsUnspecified (ip : list Z) : bool :=
  bool_decide (ip = v4mapped [0; 0; 0; 0]) || bool_decide (ip = replicate 16 0).
Definition IsLinkLocalUnicast (ip : list Z) : bool :=
  match To4 ip with
  | Some q => (at_ q 0 =? 169) && (at_ q 1 =? 254)
  | None => (at_ ip 0 =? 254) && (Z.land (at_ ip 1) 192 =? 128)
  end.
Definition IsLinkLocalMulticast (ip : list Z) : bool :=
  match To4 ip with
  | Some q => (at_ q 0 =? 224) && (at_ q 1 =? 0) && (at_ q 2 =? 0)
  | None => (at_ ip 0 =? 255) && (Z.land (at_ ip 1) 15 =? 2)
  end.

(** ** The filter *)

(** The networks, as an IPv4 address and a prefix length. *)
Definition bogonNets : list (list Z * Z) :=
  [([10; 0; 0; 0], 8); ([172; 16; 0; 0], 12); ([192; 168; 0; 0], 16); ([100; 64; 0; 0], 10);
   ([192; 0; 2; 0], 24); ([198; 51; 100; 0], 24); ([203; 0; 113; 0], 24); ([192; 0; 0; 0], 24);
   ([198; 18; 0; 0], 15); ([240; 0; 0; 0], 4)].

Definition v4_val (q : list Z) : Z := foldl (fun a b => a * 256 + b) 0 q.

(** [IPNet.Contains] for an IPv4 network. *)
Definition net_contains (n : list Z * Z) (ip : list Z) : bool :=
  match To4 ip with
  | Some q => Z.shiftr (v4_val q) (32 - n.2) =? Z.shiftr (v4_val n.1) (32 - n.2)
  | None => false
  end.

Definition isBogonIPLocal (ip : string) : bool :=
  match ParseIP ip with
  | None => true
  | Some p =>
      if IsLoopback p || IsMulticast p || IsUnspecified p || IsLinkLocalUnicast p || IsLinkLocalMulticast p
      then true
      else existsb (fun n => net_contains n p) bogonNets
  end.

Definition extractCandidateIP (line : string) : string :=
  let parts := Fields line in
  if decide (length parts < 6)%nat then EmptyString else nth 4 parts EmptyString.

Definition bogon_line (line : string) : bool :=
  HasPrefix line "a=candidate:" &&
  (negb (bool_decide (extractCandidateIP line = EmptyString)) && isBogonIPLocal (extractCandidateIP line)).

Fixpoint filter_lines (drop_line : string -> bool) (lines : list string) : list string :=
  match lines with
  | [] => []
  | l :: lines => if drop_line l then filter_lines drop_line lines else l :: filter_lines drop_line lines
  end.

Definition filterBogonCandidates (sdp : string) : string := Join crlf (filter_lines bogon_line (split_crlf sdp)).

Definition ipv6_line (line : string) : bool :=
  HasPrefix line "a=candidate:" &&
  (negb (bool_decide (extractCandidateIP line = EmptyString)) &&
   match ParseIP (extractCandidateIP line) with Some p => bool_decide (To4 p = None) | None => false end).

Definition filterIPv6Candidates (sdp : string) : string := Join crlf (filter_lines ipv6_line (split_crlf sdp)).

(** ** The candidates that are added *)

Definition eoc : string := "a=end-of-candidates".

(** The insertion point that the three functions share. *)
Definition insert_candidate (sdp cand : string) : string :=
  match cut_at eoc sdp with
  | Some (x, y) => String.append x (String.append cand y)
  | None => String.append sdp cand
  end.

Definition srflx_line (ip : string) (port lport : Z) : string :=
  Join " " ["a=candidate:obfs1"; "1"; "udp"; "1694498815"; ip; itoa port; "typ"; "srflx"; "raddr"; "0.0.0.0"; "rport"; itoa lport].
Definition relay_line (host : string) (port lport : Z) : string :=
  Join " " ["a=candidate:relay1"; "1"; "udp"; "16777215"; host; itoa port; "typ"; "relay"; "raddr"; "0.0.0.0"; "rport"; itoa lport].
Definition portmap_line (ip : string) (port lport : Z) : string :=
  Join " " ["a=candidate:portmap"; "1"; "udp"; "2130706175"; ip; itoa port; "typ"; "host"; "raddr"; "0.0.0.0"; "rport"; itoa lport].

Definition injectPortMappedCandidate (sdp externalIP : string) (externalPort localPort : Z) : string :=
  if bool_decide (externalIP = EmptyString) || (externalPort =? 0) then sdp
  else insert_candidate sdp (String.append (portmap_line externalIP externalPort localPort) crlf).

Definition injectSrflxCandidate (sdp publicIP : string) (publicPort localPort : Z) : string :=
  if bool_decide (publicIP = EmptyString) || (publicPort =? 0) then sdp
  else insert_candidate sdp (String.append (srflx_line publicIP publicPort localPort) crlf).

Definition injectRelayCandidate (sdp relayAddr : string) (localPort : Z) : string :=
  if bool_decide (relayAddr = EmptyString) then sdp
  else match SplitHostPort relayAddr with
       | None => sdp
       | Some (host, portStr) =>
           match Atoi portStr with
           | None => sdp
           | Some port => insert_candidate sdp (String.append (relay_line host port localPort) crlf)
           end
       end.

(** What [newPeerConnection] reports to its callers. *)
Record peerConnResult := mkPC {
  publicIP : string; publicPort : Z; localPort : Z; relayAddr : string; socketFD : Z }.

(** The description that [StartServer] and [StartClient] publish. *)
Definition localSDP (sdp : string) (r : peerConnResult) : string :=
  let sdp := injectSrflxCandidate sdp (publicIP r) (publicPort r) (localPort r) in
  let sdp := injectRelayCandidate sdp (relayAddr r) (localPort r) in
  filterBogonCandidates sdp.

(** [deriveRelayAddr] of [golib/api.go], from the host name of the URL. *)
Definition defaultRelayPort : string := "3478".
Definition deriveRelayAddr (hostname : option string) : string :=
  match hostname with
  | None | Some EmptyString => EmptyString
  | Some h => JoinHostPort h defaultRelayPort
  end.

(** ** Concrete addresses *)

Example parse_v4_ok : ParseIP "203.0.113.7" = Some (v4mapped [203; 0; 113; 7]).
Proof. reflexivity. Qed.
Example parse_v4_zero : ParseIP "1.02.3.4" = None.
Proof. reflexivity. Qed.
Example parse_v6_ok : ParseIP "2001:db8::1:2" = Some [32; 1; 13; 184; 0; 0; 0; 0; 0; 0; 0; 0; 0; 1; 0; 2].
Proof. reflexivity. Qed.
Example parse_v6_v4 : ParseIP "::ffff:1.2.3.4" = Some (v4mapped [1; 2; 3; 4]).
Proof. reflexivity. Qed.
Example parse_v6_bad : ParseIP "1::2::3" = None /\ ParseIP "1:2:3:4:5:6:7" = None /\ ParseIP "fe80::1%eth0" = None.
Proof. repeat split. Qed.
Example split_v6 : SplitHostPort "[2001:db8::1]:3478" = Some ("2001:db8::1", "3478").
Proof. reflexivity. Qed.
Example bogon_ex : (isBogonIPLocal "172.31.255.1", isBogonIPLocal "172.32.0.1", isBogonIPLocal "::1", isBogonIPLocal "8.8.8.8")
  = (true, false, true, false).
Proof. reflexivity. Qed.

(** ** Strings: lemmas *)

Lemma has_char_app c a b : has_char c (String.append a b) = has_char c a || has_char c b.
Proof. induction a as [|x a IH]; [done|]. rewrite append_cons. simpl. by rewrite IH, orb_assoc. Qed.

Lemma HasPrefix_app p s : HasPrefix (String.append p s) p = true.
Proof.
  unfold HasPrefix. induction p as [|x p IH]; [by destruct s|]. rewrite append_cons. simpl.
  by destruct (Ascii.ascii_dec x x).
Qed.

Lemma HasPrefix_spec s p : HasPrefix s p = true -> exists t, s = String.append p t.
Proof.
  unfold HasPrefix. revert s. induction p as [|x p IH]; intros s; [by exists s|].
  destruct s as [|y s]; [done|]. simpl. destruct (Ascii.ascii_dec x y) as [->|]; [|done].
  intros [t ->]%IH. by exists t.
Qed.

(** A text without CR that is a prefix of a line and what follows it is a
    prefix of the line. *)
Lemma HasPrefix_line l rest p :
  has_char CR p = false -> HasPrefix (String.append l (String CR rest)) p = true -> HasPrefix l p = true.
Proof.
  unfold HasPrefix. revert l. induction p as [|x p IH]; intros l; [by destruct l|].
  cbn [has_char]. intros [Hx Hp]%orb_false_iff. apply bool_decide_eq_false in Hx. destruct l as [|y l].
  - change (String.append EmptyString (String CR rest)) with (String CR rest). cbn [String.prefix].
    destruct (Ascii.ascii_dec x CR); done.
  - rewrite append_cons. cbn [String.prefix]. destruct (Ascii.ascii_dec x y); [|done]. by apply IH.
Qed.

(** Lines, each closed by CR LF. *)
Fixpoint unlines (ls : list string) : string :=
  match ls with
  | [] => EmptyString
  | l :: ls => String.append l (String.append crlf (unlines ls))
  end.

Definition plain (l : string) : Prop := has_char CR l = false.

Lemma unlines_app a b : unlines (a ++ b) = String.append (unlines a) (unlines b).
Proof. induction a as [|l a IH]; [done|]. simpl. by rewrite IH, !append_assoc. Qed.

Lemma split_crlf_eq a b s : split_crlf (String a (String b s)) =
  if bool_decide (a = CR) && bool_decide (b = LF) then EmptyString :: split_crlf s
  else match split_crlf (String b s) with [] => [String a EmptyString] | x :: xs => String a x :: xs end.
Proof. reflexivity. Qed.

Lemma split_crlf_cons_ne a s : a <> CR ->
  split_crlf (String a s) = match split_crlf s with [] => [String a EmptyString] | x :: xs => String a x :: xs end.
Proof.
  intros Ha. destruct s as [|b s]; [done|]. rewrite split_crlf_eq. by rewrite bool_decide_eq_false_2.
Qed.

Lemma split_crlf_line l s : plain l -> split_crlf (String.append l (String.append crlf s)) = l :: split_crlf s.
Proof.
  unfold plain. induction l as [|a l IH]; intros Hl.
  - change (String.append EmptyString (String.append crlf s)) with (String CR (String LF s)).
    rewrite split_crlf_eq. by rewrite !bool_decide_eq_true_2.
  - cbn [has_char] in Hl. apply orb_false_iff in Hl as [Ha Hl]. apply bool_decide_eq_false in Ha.
    rewrite append_cons, split_crlf_cons_ne, IH by done. done.
Qed.

Lemma split_crlf_unlines ls s : Forall plain ls ->
  split_crlf (String.append (unlines ls) s) = ls ++ split_crlf s.
Proof.
  induction 1 as [|l ls Hl _ IH]; [done|]. cbn [unlines]. rewrite !append_assoc, split_crlf_line by done.
  by rewrite IH.
Qed.

(** Joining lines and splitting them again. *)
Lemma split_join ls : Forall plain ls -> ls <> [] -> split_crlf (Join crlf ls) = ls.
Proof.
  intros H. induction H as [|l ls Hl Hls IH]; [done|]. intros _. destruct ls as [|l' ls].
  - cbn [Join]. unfold plain in Hl. induction l as [|a l IHl]; [done|]. cbn [has_char] in Hl.
    apply orb_false_iff in Hl as [Ha Hl]. apply bool_decide_eq_false in Ha.
    rewrite split_crlf_cons_ne by done. by rewrite IHl.
  - change (Join crlf (l :: l' :: ls)) with (String.append l (String.append crlf (Join crlf (l' :: ls)))).
    rewrite split_crlf_line by done. by rewrite IH.
Qed.

Lemma cut_at_here p s : cut_at p (String.append p s) = Some (EmptyString, String.append p s).
Proof.
  pose proof (HasPrefix_app p s) as Hp. destruct (String.append p s) eqn:E; cbn [cut_at]; by rewrite Hp.
Qed.

Lemma cut_at_step p a s : HasPrefix (String a s) p = false ->
  cut_at p (String a s) = '(x, y) ← cut_at p s; Some (String a x, y).
Proof. intros H. cbn [cut_at]. by rewrite H. Qed.

(** The marker is not found inside lines that do not contain it. *)
Lemma cut_at_line p l rest :
  p <> EmptyString -> has_char CR p = false -> has_char LF p = false -> Contains l p = false ->
  cut_at p (String.append l (String.append crlf rest)) =
  '(x, y) ← cut_at p rest; Some (String.append l (String.append crlf x), y).
Proof.
  intros Hne Hcr Hlf. assert (Hp : forall c s, has_char c p = false -> HasPrefix (String c s) p = false).
  { intros c s Hc. destruct p as [|x p]; [done|]. cbn [has_char] in Hc. apply orb_false_iff in Hc as [Hx _].
    apply bool_decide_eq_false in Hx. unfold HasPrefix. cbn [String.prefix]. by destruct (Ascii.ascii_dec x c). }
  induction l as [|a l IH]; intros Hl.
  - change (String.append EmptyString (String.append crlf rest)) with (String CR (String LF rest)).
    rewrite !cut_at_step by (by apply Hp). by destruct (cut_at p rest) as [[x y]|].
  - cbn [Contains] in Hl. apply orb_false_iff in Hl as [H1 H2].
    rewrite append_cons, cut_at_step, IH by
      (first [done | rewrite <- append_cons; apply not_true_iff_false; intros Hc;
        change (String.append crlf rest) with (String CR (String LF rest)) in Hc;
        apply HasPrefix_line in Hc; congruence]).
    by destruct (cut_at p rest) as [[x y]|].
Qed.

Lemma cut_at_unlines p ls rest :
  p <> EmptyString -> has_char CR p = false -> has_char LF p = false ->
  Forall (fun l => Contains l p = false) ls ->
  cut_at p (String.append (unlines ls) (String.append p rest)) = Some (unlines ls, String.append p rest).
Proof.
  intros Hne H1 H2. induction 1 as [|l ls Hl _ IH]; [exact (cut_at_here p rest)|].
  cbn [unlines]. rewrite !append_assoc, cut_at_line, IH by done. done.
Qed.

(** [net.SplitHostPort] undoes [net.JoinHostPort]. *)
Lemma stake_app a b : stake (String.length a) (String.append a b) = a.
Proof. induction a as [|x a IH]; [by destruct b|]. rewrite append_cons. simpl. by rewrite IH. Qed.
Lemma sdrop_app a b : sdrop (String.length a) (String.append a b) = b.
Proof. induction a as [|x a IH]; [by destruct b|]. rewrite append_cons. simpl. by rewrite IH. Qed.
Lemma last_char_none c s : has_char c s = false -> last_char c s = None.
Proof.
  induction s as [|a s IH]; [done|]. cbn [has_char last_char]. intros [Ha Hs]%orb_false_iff.
  apply bool_decide_eq_false in Ha. by rewrite IH, decide_False.
Qed.
Lemma last_char_app c a b : has_char c b = false ->
  last_char c (String.append a (String c b)) = Some (String.length a).
Proof.
  intros Hb. induction a as [|x a IH].
  - change (String.append EmptyString (String c b)) with (String c b). cbn [last_char].
    by rewrite last_char_none, decide_True.
  - rewrite append_cons. cbn [last_char]. by rewrite IH.
Qed.
Lemma index_char_app c a b : has_char c a = false ->
  index_char c (String.append a (String c b)) = Some (String.length a).
Proof.
  induction a as [|x a IH].
  - intros _. change (String.append EmptyString (String c b)) with (String c b). cbn [index_char].
    by rewrite decide_True.
  - rewrite append_cons. cbn [has_char index_char]. intros [Hx Ha]%orb_false_iff.
    apply bool_decide_eq_false in Hx. by rewrite decide_False, IH.
Qed.

Definition no_brackets (s : string) : Prop := has_char lbr s = false /\ has_char rbr s = false.

Lemma length_append a b : String.length (String.append a b) = (String.length a + String.length b)%nat.
Proof. induction a as [|x a IH]; [done|]. rewrite append_cons. simpl. by rewrite IH. Qed.

Lemma sdrop_app_plus a b k : sdrop (String.length a + k) (String.append a b) = sdrop k b.
Proof. induction a as [|x a IH]; [done|]. rewrite append_cons. simpl. by rewrite IH. Qed.

Lemma split_v6_host h p :
  no_brackets h -> no_brackets p -> has_char colon p = false ->
  SplitHostPort (String lbr (String.append h (String rbr (String colon p)))) = Some (h, p).
Proof.
  intros [Hl Hr] [Pl Pr] Pc. unfold SplitHostPort.
  set (s := String.append h (String rbr (String colon p))).
  assert (E : String lbr s = String.append (String lbr (String.append h "]")) (String colon p))
    by (unfold s; by rewrite append_cons, append_assoc).
  rewrite E at 1. rewrite last_char_app by done. cbn [mbind option_bind].
  rewrite decide_True by done. cbn [index_char]. rewrite decide_False by done.
  unfold s; clear s E. rewrite index_char_app by done. cbn [mbind option_bind fmap option_fmap option_map].
  cbn [String.length]. rewrite length_append. cbn [String.length]. rewrite decide_True by lia.
  assert (D : forall k, sdrop (S (String.length h + k)) (String lbr (String.append h (String rbr (String colon p))))
    = sdrop k (String rbr (String colon p))) by (intros k; apply sdrop_app_plus).
  replace (S (S (String.length h))) with (S (String.length h + 1)) by lia.
  replace (S (S (String.length h + 1))) with (S (String.length h + 2)) by lia. rewrite !D.
  change (sdrop 1 (String lbr ?x)) with x. rewrite !has_char_app, Hl. cbn [sdrop has_char].
  rewrite Pl, Pr. change (bool_decide (rbr = lbr)) with false. change (bool_decide (colon = lbr)) with false.
  change (bool_decide (colon = rbr)) with false. cbn [orb].
  replace (S (String.length h) - 1)%nat with (String.length h) by lia. by rewrite stake_app.
Qed.

Lemma split_plain_host h p :
  no_brackets h -> no_brackets p -> has_char colon h = false -> has_char colon p = false ->
  SplitHostPort (String.append h (String colon p)) = Some (h, p).
Proof.
  intros [Hl Hr] [Pl Pr] Hc Pc. unfold SplitHostPort. rewrite last_char_app by done.
  cbn [mbind option_bind]. rewrite stake_app, Hc, !has_char_app, Hl, Hr. cbn [has_char orb].
  rewrite Pl, Pr. change (bool_decide (colon = lbr)) with false. change (bool_decide (colon = rbr)) with false.
  cbn [orb]. replace (S (String.length h)) with (String.length h + 1)%nat by lia. rewrite sdrop_app_plus.
  destruct h as [|a h]; [done|]. rewrite append_cons. cbn [has_char] in Hl.
  apply orb_false_iff in Hl as [Ha _]. apply bool_decide_eq_false in Ha. by rewrite decide_False.
Qed.

Lemma split_join_host_port h p :
  no_brackets h -> no_brackets p -> has_char colon p = false ->
  SplitHostPort (JoinHostPort h p) = Some (h, p).
Proof.
  intros Hh Hp Hc. unfold JoinHostPort. fold colon. destruct (has_char colon h) eqn:E.
  - by apply split_v6_host.
  - by apply split_plain_host.
Qed.

(** ** Words and lines *)

Fixpoint all_chars (f : Ascii.ascii -> bool) (s : string) : bool :=
  match s with EmptyString => true | String c s => f c && all_chars f s end.

(** A character that can be part of an address or a number: not a space, not
    an equals sign. *)
Definition ok_char (c : Ascii.ascii) : bool := negb (is_space c) && negb (bool_decide (c = "="%char)).

Definition word (s : string) : Prop := s <> EmptyString /\ all_chars ok_char s = true.

Lemma all_chars_app f a b : all_chars f (String.append a b) = all_chars f a && all_chars f b.
Proof. induction a as [|x a IH]; [done|]. rewrite append_cons. simpl. by rewrite IH, andb_assoc. Qed.

Lemma all_chars_has f c s : f c = false -> all_chars f s = true -> has_char c s = false.
Proof.
  intros Hf. induction s as [|a s IH]; [done|]. simpl. intros [Ha Hs]%andb_true_iff.
  rewrite IH by done. rewrite bool_decide_eq_false_2; [done|]. intros ->. congruence.
Qed.

Lemma pretty_go_ok x s : all_chars ok_char s = true -> all_chars ok_char (pretty_N_go x s) = true.
Proof.
  revert s. induction (N.lt_wf_0 x) as [x _ IH]; intros s Hs.
  destruct (decide (x = 0%N)) as [->|]; [by rewrite pretty_N_go_0|].
  rewrite pretty_N_go_step by lia. apply IH; [apply N.div_lt; lia|]. simpl. rewrite Hs, andb_true_r.
  unfold pretty_N_char. by repeat case_match.
Qed.

Lemma pretty_go_ne x s : s <> EmptyString -> pretty_N_go x s <> EmptyString.
Proof.
  revert s. induction (N.lt_wf_0 x) as [x _ IH]; intros s Hs.
  destruct (decide (x = 0%N)) as [->|]; [by rewrite pretty_N_go_0|].
  rewrite pretty_N_go_step by lia. apply IH; [apply N.div_lt; lia|done].
Qed.

Lemma itoa_word z : word (itoa z).
Proof.
  unfold itoa, word. destruct z as [|p|p]; [done|..].
  - change (pretty (Z.pos p)) with (pretty_N_go (N.pos p) EmptyString). split; [|by apply pretty_go_ok].
    rewrite pretty_N_go_step by lia. by apply pretty_go_ne.
  - change (pretty (Z.neg p)) with (String "-"%char (pretty_N_go (N.pos p) EmptyString)).
    split; [done|]. cbn [all_chars]. rewrite pretty_go_ok; done.
Qed.

Definition field_text (w : string) : Prop := w <> EmptyString /\ all_chars (fun c => negb (is_space c)) w = true.

Lemma word_field w : word w -> field_text w.
Proof.
  intros [Hne Hw]. split; [done|]. clear Hne. induction w as [|c w IH]; [done|]. cbn [all_chars] in *.
  apply andb_true_iff in Hw as [[-> _]%andb_true_iff Hw]. by rewrite IH.
Qed.

Lemma Fields_Join ws : Forall field_text ws ->
  Fields (Join " " ws) = ws.
Proof.
  assert (Hs : forall a b, all_chars (fun c => negb (is_space c)) a = true ->
    split_spaces (String.append a (String " "%char b)) = a :: split_spaces b /\ split_spaces a = [a]).
  { intros a b. induction a as [|x a IH]; [done|]. rewrite append_cons. cbn [all_chars split_spaces].
    intros [Hx Ha]%andb_true_iff. apply negb_true_iff in Hx. destruct (IH Ha) as [H1 H2].
    by rewrite Hx, H1, H2. }
  induction 1 as [|w ws [Hne Hw] Hws IH]; [done|]. destruct ws as [|w' ws].
  - cbn [Join]. unfold Fields. rewrite (proj2 (Hs w EmptyString Hw)). by rewrite filter_cons_True.
  - change (Join " " (w :: w' :: ws)) with (String.append w (String " "%char (Join " " (w' :: ws)))).
    unfold Fields in *. rewrite (proj1 (Hs w _ Hw)). rewrite filter_cons_True by done. by rewrite IH.
Qed.

Lemma has_char_Join c ws : c <> " "%char -> Forall (fun w => has_char c w = false) ws -> has_char c (Join " " ws) = false.
Proof.
  intros Hc. induction 1 as [|w ws Hw Hws IH]; [done|]. destruct ws as [|w' ws]; [done|].
  change (Join " " (w :: w' :: ws)) with (String.append w (String " "%char (Join " " (w' :: ws)))).
  rewrite has_char_app, Hw. cbn [has_char]. by rewrite bool_decide_eq_false_2, IH.
Qed.

(** The lines the program adds: a fixed word, more words and the address at
    the fifth place. *)
Definition cand_line (head prio ip typ : string) (port lport : Z) : string :=
  Join " " ["a=candidate:" +:+ head; "1"; "udp"; prio; ip; itoa port; "typ"; typ; "raddr"; "0.0.0.0"; "rport"; itoa lport].

Section Cand.
Context (head prio ip typ : string) (port lport : Z).
Hypothesis Hhead : word head.
Hypothesis Hprio : word prio.
Hypothesis Hip : word ip.
Hypothesis Htyp : word typ.

Abbreviation line := (cand_line head prio ip typ port lport).

Lemma cand_head_field : field_text ("a=candidate:" +:+ head).
Proof.
  split; [done|]. rewrite all_chars_app. destruct (word_field _ Hhead) as [_ ->]. reflexivity.
Qed.

Lemma cand_extract : extractCandidateIP line = ip.
Proof.
  unfold extractCandidateIP, cand_line. rewrite Fields_Join; [reflexivity|].
  apply Forall_cons; split; [apply cand_head_field|]. eapply Forall_impl; [|apply word_field].
  repeat (apply Forall_cons; split); auto using itoa_word; done.
Qed.

Lemma cand_bogon : bogon_line line = isBogonIPLocal ip.
Proof.
  unfold bogon_line. rewrite cand_extract. assert (Hpre : HasPrefix line "a=candidate:" = true).
  { unfold cand_line. cbn [Join]. rewrite append_assoc. apply HasPrefix_app. }
  rewrite Hpre. destruct Hip as [Hne _]. by rewrite bool_decide_eq_false_2.
Qed.

Lemma cand_no_char c : ok_char c = false -> c <> " "%char -> c <> "="%char -> has_char c line = false.
Proof.
  intros Hc Hsp Heq. pose proof (itoa_word port) as [_ Hp]. pose proof (itoa_word lport) as [_ Hl].
  destruct Hhead as [_ Hh], Hprio as [_ Hr], Hip as [_ Hi], Htyp as [_ Ht].
  unfold cand_line. apply has_char_Join; [done|]. repeat constructor; try (by eapply (all_chars_has ok_char)).
  rewrite has_char_app, (all_chars_has ok_char c head) by done. rewrite orb_false_r.
  apply (all_chars_has (fun x => negb (is_space x) || bool_decide (x = " "%char)) c); [|reflexivity].
  unfold ok_char in Hc. rewrite (bool_decide_eq_false_2 (c = "="%char)) in Hc by done.
  rewrite andb_true_r in Hc. by rewrite Hc, bool_decide_eq_false_2.
Qed.

Lemma cand_plain : plain line.
Proof. by apply cand_no_char. Qed.

Lemma Contains_has_char c p s : has_char c p = true -> has_char c s = false -> Contains s p = false.
Proof.
  intros Hp. assert (Hx : forall s, has_char c s = false -> HasPrefix s p = false).
  { intros u Hu. apply not_true_iff_false. intros [t ->]%HasPrefix_spec.
    rewrite has_char_app, Hp in Hu. done. }
  induction s as [|a s IH]; intros Hs; cbn [Contains]; rewrite Hx by done; [done|].
  cbn [has_char] in Hs. apply orb_false_iff in Hs as [_ Hs]. by rewrite IH.
Qed.

Lemma cand_no_eoc : Contains line eoc = false.
Proof.
  assert (Ht : has_char "="%char (Join " " ["candidate:" +:+ head; "1"; "udp"; prio; ip; itoa port; "typ"; typ;
    "raddr"; "0.0.0.0"; "rport"; itoa lport]) = false).
  { pose proof (itoa_word port) as [_ Hp]. pose proof (itoa_word lport) as [_ Hl].
    destruct Hhead as [_ Hh], Hprio as [_ Hr], Hip as [_ Hi], Htyp as [_ Ht].
    apply has_char_Join; [done|]. repeat constructor; by eapply (all_chars_has ok_char). }
  apply (Contains_has_char _ eoc) in Ht; [|reflexivity].
  change line with (String "a"%char (String "="%char (Join " " ["candidate:" +:+ head; "1"; "udp"; prio; ip; itoa port;
    "typ"; typ; "raddr"; "0.0.0.0"; "rport"; itoa lport]))).
  cbn [Contains]. rewrite Ht. reflexivity.
Qed.
End Cand.

(** Adding a line puts it right before the end-of-candidates line. *)
Lemma Join_unlines L x M : Join crlf (L ++ x :: M) = String.append (unlines L) (Join crlf (x :: M)).
Proof.
  induction L as [|l L IH]; [done|]. cbn [unlines]. rewrite !append_assoc, <- IH.
  cbn [app]. destruct (L ++ x :: M) eqn:E; [by destruct L|]. done.
Qed.

Lemma insert_candidate_lines L M c :
  Forall (fun l => Contains l eoc = false) L ->
  insert_candidate (Join crlf (L ++ eoc :: M)) (String.append c crlf) = Join crlf (L ++ c :: eoc :: M).
Proof.
  intros HL. unfold insert_candidate. rewrite !Join_unlines.
  assert (E : exists r, Join crlf (eoc :: M) = String.append eoc r).
  { destruct M; [exists EmptyString; by rewrite append_nil_r|]. eexists; reflexivity. }
  change (Join crlf (c :: eoc :: M)) with (String.append c (String.append crlf (Join crlf (eoc :: M)))).
  destruct E as [r ->]. rewrite cut_at_unlines by done. by rewrite !append_assoc.
Qed.

Lemma filter_lines_app f a b : filter_lines f (a ++ b) = filter_lines f a ++ filter_lines f b.
Proof. induction a as [|x a IH]; [done|]. simpl. rewrite IH. by destruct (f x). Qed.

Lemma filter_lines_Forall P f l : Forall P l -> Forall P (filter_lines f l).
Proof. induction 1; simpl; [constructor|]. destruct (f x); [done|]. by constructor. Qed.

(** The split of the filtered description, when a line is kept. *)
Lemma filter_bogon_lines L M :
  Forall plain L -> Forall plain M ->
  split_crlf (filterBogonCandidates (Join crlf (L ++ eoc :: M))) = filter_lines bogon_line (L ++ eoc :: M).
Proof.
  intros HL HM. assert (Hp : Forall plain (L ++ eoc :: M)) by (apply Forall_app; split; [done|by constructor]).
  unfold filterBogonCandidates. rewrite (split_join (L ++ eoc :: M)); [|done|by destruct L]. apply split_join.
  - by apply filter_lines_Forall.
  - rewrite filter_lines_app. change (filter_lines bogon_line (eoc :: M)) with (eoc :: filter_lines bogon_line M).
    by destruct (filter_lines bogon_line L).
Qed.

(** What the two injections do to a description with its end-of-candidates
    line: [disc] is the address that STUN discovery found, if it found one, and
    [relay] the host name of the signalling URL, if a relay is used. *)
Definition srflx_of (disc : option (string * Z)) (lport : Z) : list string :=
  match disc with Some (ip, port) => [srflx_line ip port lport] | None => [] end.
Definition relay_of (relay : option string) (lport : Z) : list string :=
  match relay with Some host => [relay_line host 3478 lport] | None => [] end.

Definition disc_ok (disc : option (string * Z)) : Prop :=
  match disc with Some (ip, port) => word ip /\ port <> 0 | None => True end.
Definition relay_ok (relay : option string) : Prop :=
  match relay with Some host => word host /\ no_brackets host | None => True end.

Definition result_of (disc : option (string * Z)) (relay : option string) (lport fd : Z) : peerConnResult :=
  mkPC (default EmptyString (fst <$> disc)) (default 0 (snd <$> disc)) lport (deriveRelayAddr relay) fd.

Lemma inject_srflx_lines L M disc lport :
  Forall (fun l => Contains l eoc = false) L -> disc_ok disc ->
  injectSrflxCandidate (Join crlf (L ++ eoc :: M)) (default EmptyString (fst <$> disc)) (default 0 (snd <$> disc)) lport
  = Join crlf ((L ++ srflx_of disc lport) ++ eoc :: M).
Proof.
  intros HL Hd. unfold injectSrflxCandidate. destruct disc as [[ip port]|]; cbn [fmap option_fmap option_map from_option id fst snd srflx_of].
  - destruct Hd as [Hip Hport]. destruct (Z.eqb_spec port 0); [done|].
    rewrite (bool_decide_eq_false_2 (ip = EmptyString)) by apply Hip. cbn [orb].
    rewrite insert_candidate_lines by done. by rewrite <- app_assoc.
  - rewrite app_nil_r; reflexivity.
Qed.

Lemma inject_relay_lines L M relay lport :
  Forall (fun l => Contains l eoc = false) L -> relay_ok relay ->
  injectRelayCandidate (Join crlf (L ++ eoc :: M)) (deriveRelayAddr relay) lport
  = Join crlf ((L ++ relay_of relay lport) ++ eoc :: M).
Proof.
  intros HL Hr. destruct relay as [host|]; cbn [relay_of]; [|by rewrite app_nil_r]. destruct Hr as [Hhost Hbr].
  unfold injectRelayCandidate.
  assert (Hd : deriveRelayAddr (Some host) = JoinHostPort host "3478") by (destruct Hhost; by destruct host).
  rewrite Hd, split_join_host_port by done.
  rewrite bool_decide_eq_false_2.
  2:{ unfold JoinHostPort. destruct (has_char _ host); [done|]. destruct Hhost as [Hne _]. by destruct host. }
  change (Atoi "3478") with (Some 3478). cbv iota beta.
  rewrite insert_candidate_lines by done. by rewrite <- app_assoc.
Qed.

Lemma srflx_no_eoc disc lport : disc_ok disc -> Forall (fun l => Contains l eoc = false) (srflx_of disc lport).
Proof. destruct disc as [[ip port]|]; [|constructor]. intros [Hip _]. repeat constructor. by apply (cand_no_eoc "obfs1" "1694498815" ip "srflx"). Qed.

Lemma inject_lines L M disc relay lport fd :
  Forall (fun l => Contains l eoc = false) L -> disc_ok disc -> relay_ok relay ->
  let r := result_of disc relay lport fd in
  injectRelayCandidate (injectSrflxCandidate (Join crlf (L ++ eoc :: M)) (publicIP r) (publicPort r) lport) (relayAddr r) lport
  = Join crlf ((L ++ srflx_of disc lport ++ relay_of relay lport) ++ eoc :: M).
Proof.
  intros HL Hd Hr r. cbn [r result_of publicIP publicPort relayAddr]. rewrite inject_srflx_lines, inject_relay_lines; try done.
  - by rewrite <- !app_assoc.
  - apply Forall_app. split; [done|by apply srflx_no_eoc].
Qed.

Lemma plain_added disc relay lport : disc_ok disc -> relay_ok relay ->
  Forall plain (srflx_of disc lport ++ relay_of relay lport).
Proof.
  intros Hd Hr. apply Forall_app. split.
  - destruct disc as [[ip port]|]; repeat constructor. by apply (cand_plain "obfs1" "1694498815" ip "srflx"); destruct Hd.
  - destruct relay as [host|]; repeat constructor. by apply (cand_plain "relay1" "16777215" host "relay"); destruct Hr.
Qed.

Lemma bogon_srflx ip port lport : word ip -> bogon_line (srflx_line ip port lport) = isBogonIPLocal ip.
Proof. intros. by apply (cand_bogon "obfs1" "1694498815" ip "srflx"). Qed.
Lemma bogon_relay host port lport : word host -> bogon_line (relay_line host port lport) = isBogonIPLocal host.
Proof. intros. by apply (cand_bogon "relay1" "16777215" host "relay"). Qed.

(** ** Properties *)

(** C11: the description that a peer publishes.  Of a gathered description with
    an end-of-candidates line the published lines are the gathered ones without
    the candidates whose address is not routable, and right before the
    end-of-candidates line: the reflexive candidate, if discovery found an
    address and it is routable; and the relay candidate, if a relay is used and
    the host of the signalling URL is written as a routable IP address.  A relay
    that is known by name is never published, and without discovery or relay
    nothing is added; no other line is lost, added or moved. *)
Theorem sdp_published (L M : list string) (disc : option (string * Z)) (relay : option string) (lport fd : Z) :
  Forall plain L -> Forall (fun l => Contains l eoc = false) L -> Forall plain M -> disc_ok disc -> relay_ok relay ->
  split_crlf (localSDP (Join crlf (L ++ eoc :: M)) (result_of disc relay lport fd)) =
    filter_lines bogon_line L ++
    match disc with
    | Some (ip, port) => if isBogonIPLocal ip then [] else [srflx_line ip port lport]
    | None => []
    end ++
    match relay with
    | Some host =>
        match ParseIP host with
        | None => []
        | Some _ => if isBogonIPLocal host then [] else [relay_line host 3478 lport]
        end
    | None => []
    end ++
    eoc :: filter_lines bogon_line M.
Proof.
  intros HL HC HM Hd Hr. unfold localSDP. cbn zeta.
  pose proof (inject_lines L M disc relay lport fd HC Hd Hr) as E. cbn zeta in E. cbn [localPort result_of] in *. rewrite E.
  pose proof (plain_added disc relay lport Hd Hr) as Hadd.
  rewrite filter_bogon_lines by (try done; apply Forall_app; done).
  rewrite !filter_lines_app. cbn [filter_lines]. change (bogon_line eoc) with false. rewrite <- !app_assoc. f_equal. f_equal; [|f_equal].
  - destruct disc as [[ip port]|]; [|done]. cbn [srflx_of filter_lines]. rewrite bogon_srflx by apply Hd. by destruct (isBogonIPLocal ip).
  - destruct relay as [host|]; [|done]. cbn [relay_of filter_lines]. rewrite bogon_relay by apply Hr.
    destruct (ParseIP host) eqn:Hp; [by destruct (isBogonIPLocal host)|]. unfold isBogonIPLocal. by rewrite Hp.
Qed.

Lemma sdp_published_witness :
  let gathered := Join crlf ["v=0"; "a=candidate:1 1 udp 2130706431 192.168.1.7 40000 typ host"; eoc; ""] in
  split_crlf (localSDP gathered (result_of (Some ("8.8.4.4", 40001)) (Some "2001:db8::5") 40000 9)) =
    ["v=0"; srflx_line "8.8.4.4" 40001 40000; relay_line "2001:db8::5" 3478 40000; eoc; ""] /\
  split_crlf (localSDP gathered (result_of None (Some "signal.example.org") 40000 9)) = ["v=0"; eoc; ""] /\
  split_crlf (localSDP gathered (result_of None None 40000 9)) = ["v=0"; eoc; ""].
Proof.
  intros gathered.
  assert (Hw : forall disc relay, disc_ok disc -> relay_ok relay -> split_crlf (localSDP gathered (result_of disc relay 40000 9)) = _)
    by (intros disc relay Hd Hr; exact (sdp_published ["v=0"; "a=candidate:1 1 udp 2130706431 192.168.1.7 40000 typ host"] [""] disc relay 40000 9
          ltac:(repeat constructor) ltac:(repeat constructor) ltac:(repeat constructor) Hd Hr)).
  split_and!; (etrans; [apply Hw|vm_compute; reflexivity]); try exact I;
    (split; [split; [discriminate|reflexivity]|]); solve [discriminate|split; reflexivity].
Defined.

(** a relay reached by name is never offered.  When the signalling URL
    names its host by a domain name (anything [net.ParseIP] does not accept),
    the relay candidate that is added for it is taken for a non-routable
    address and dropped again: the published description is the one without a
    relay, although the peer has registered with that relay. *)
Theorem sdp_named_relay_dropped (L M : list string) (disc : option (string * Z)) (host : string) (lport fd : Z) :
  Forall plain L -> Forall (fun l => Contains l eoc = false) L -> Forall plain M ->
  disc_ok disc -> word host -> no_brackets host -> ParseIP host = None ->
  localSDP (Join crlf (L ++ eoc :: M)) (result_of disc (Some host) lport fd) =
  localSDP (Join crlf (L ++ eoc :: M)) (result_of disc None lport fd).
Proof.
  intros HL HC HM Hd Hhost Hbr Hname. unfold localSDP. cbn zeta.
  pose proof (inject_lines L M disc (Some host) lport fd HC Hd (conj Hhost Hbr)) as E1.
  pose proof (inject_lines L M disc None lport fd HC Hd I) as E2. cbn zeta in E1, E2. cbn [localPort result_of] in *. rewrite E1, E2.
  pose proof (plain_added disc (Some host) lport Hd (conj Hhost Hbr)) as Hadd. pose proof (plain_added disc None lport Hd I) as Hadd'.
  unfold filterBogonCandidates. rewrite !split_join; try (intros [_ Hnil]%app_eq_nil; discriminate Hnil).
  - rewrite !filter_lines_app. do 3 f_equal. f_equal. cbn [relay_of filter_lines].
    assert (Hb : isBogonIPLocal host = true) by (unfold isBogonIPLocal; by rewrite Hname).
    by rewrite bogon_relay, Hb by done.
  - apply Forall_app; split; [by apply Forall_app|]. by constructor.
  - apply Forall_app; split; [by apply Forall_app|]. by constructor.
Qed.

Lemma sdp_named_relay_dropped_witness :
  ParseIP "signal.example.org" = None /\
  localSDP (Join crlf ["v=0"; eoc; ""]) (result_of (Some ("8.8.4.4", 40001)) (Some "signal.example.org") 40000 9) =
  localSDP (Join crlf ["v=0"; eoc; ""]) (result_of (Some ("8.8.4.4", 40001)) None 40000 9).
Proof.
  split; [reflexivity|].
  exact (sdp_named_relay_dropped ["v=0"] [""] (Some ("8.8.4.4", 40001)) "signal.example.org" 40000 9
    ltac:(repeat constructor) ltac:(repeat constructor) ltac:(repeat constructor)
    ltac:(split; [split; [discriminate|reflexivity]|discriminate]) ltac:(split; [discriminate|reflexivity])
    ltac:(split; reflexivity) eq_refl).
Defined.

End Sdp.
