(* ===== verification/Nat.v ===== *)
(** * NAT discovery

    [golib/nat]: the classification of the NAT in front of the program
    (stun.go), the address predicates (util.go) and the cache of the result
    (cache.go).

    The STUN codec (pion/stun) is the class [StunCodec].  The network is the
    class [UdpNet]: what happens on a send, and which datagrams have arrived
    when the program waits for one.  The program has one socket at a time; a
    datagram that arrived and was not read stays in the queue of the socket,
    where the next read finds it. *)

From S2P Require Import Prelude IO GoStr Socks Sdp.
Import Sdp.

Open Scope Z_scope.

(** ** Addresses *)

Abbreviation IP := (list Z).

Record UDPAddr := mkUDPAddr { ua_IP : IP; ua_Port : Z }.

#[export] Instance UDPAddr_eq_dec : EqDecision UDPAddr.
Proof. solve_decision. Defined.

(** [IP.String] of the standard library: dotted for IPv4, and for IPv6 the
    form that [Socks] also prints. *)
Definition v6_string (ip : IP) : string := Socks.ip6_string (map z2b ip).

Definition v4_string (q : list Z) : string := Join "." (map itoa q).

Definition IP_String (ip : IP) : string :=
  if decide (length ip = 4%nat) then v4_string ip
  else match To4 ip with Some q => v4_string q | None => v6_string ip end.

(** ** The address predicates of util.go *)

Definition privateNets : list (list Z * Z) :=
  [([10; 0; 0; 0], 8); ([172; 16; 0; 0], 12); ([192; 168; 0; 0], 16); ([100; 64; 0; 0], 10)].

Definition bogonNetsNat : list (list Z * Z) :=
  [([10; 0; 0; 0], 8); ([172; 16; 0; 0], 12); ([192; 168; 0; 0], 16); ([100; 64; 0; 0], 10);
   ([192; 0; 2; 0], 24); ([198; 51; 100; 0], 24); ([203; 0; 113; 0], 24); ([192; 0; 0; 0], 24);
   ([198; 18; 0; 0], 15); ([240; 0; 0; 0], 4)].

Definition isPrivateIP (ip : string) : bool :=
  match ParseIP ip with
  | None => false
  | Some parsedIP => existsb (fun network => net_contains network parsedIP) privateNets
  end.

Definition isBogonIP (ip : string) : bool :=
  match ParseIP ip with
  | None => true
  | Some parsedIP =>
      if IsLoopback parsedIP || IsMulticast parsedIP || IsUnspecified parsedIP ||
         IsLinkLocalUnicast parsedIP || IsLinkLocalMulticast parsedIP then true
      else existsb (fun network => net_contains network parsedIP) bogonNetsNat
  end.

Definition randomPort `{Rand R} (r : R) : Z * R :=
  let '(n, r) := intn 50000 r in (10000 + n, r).

(** ** The classification *)

Inductive NATMapping :=
  | MappingUnknown
  | MappingEndpointIndependent
  | MappingAddressDependent
  | MappingAddressPortDependent.

Inductive NATFiltering :=
  | FilteringUnknown
  | FilteringEndpointIndependent
  | FilteringAddressDependent
  | FilteringAddressPortDependent.

Inductive NATTraversal :=
  | TraversalUnknown
  | TraversalUnlimited
  | TraversalPartiallyLimited
  | TraversalStrictlyLimited.

#[export] Instance NATMapping_eq_dec : EqDecision NATMapping.
Proof. solve_decision. Defined.
#[export] Instance NATFiltering_eq_dec : EqDecision NATFiltering.
Proof. solve_decision. Defined.

Definition NATMapping_String (m : NATMapping) : string :=
  match m with
  | MappingEndpointIndependent => "endpoint_independent"
  | MappingAddressDependent => "address_dependent"
  | MappingAddressPortDependent => "address_port_dependent"
  | MappingUnknown => "unknown"
  end.

Definition NATFiltering_String (f : NATFiltering) : string :=
  match f with
  | FilteringEndpointIndependent => "endpoint_independent"
  | FilteringAddressDependent => "address_dependent"
  | FilteringAddressPortDependent => "address_port_dependent"
  | FilteringUnknown => "unknown"
  end.

Definition NATTraversal_String (t : NATTraversal) : string :=
  match t with
  | TraversalUnlimited => "unlimited"
  | TraversalPartiallyLimited => "partially_limited"
  | TraversalStrictlyLimited => "strictly_limited"
  | TraversalUnknown => "unknown"
  end.

Record NATType := mkNATType {
  Mapping : NATMapping; Filtering : NATFiltering; MappedIP : string; MappedPort : Z }.

Definition PredictTraversal (loc rem : NATType) : NATTraversal :=
  if bool_decide (Mapping loc = MappingEndpointIndependent) &&
     bool_decide (Mapping rem = MappingEndpointIndependent) then TraversalUnlimited
  else if bool_decide (Mapping loc = MappingAddressPortDependent) ||
          bool_decide (Mapping rem = MappingAddressPortDependent) then TraversalStrictlyLimited
  else if bool_decide (Mapping loc = MappingAddressDependent) ||
          bool_decide (Mapping rem = MappingAddressDependent) then TraversalPartiallyLimited
  else TraversalUnknown.

(** ** STUN and the socket *)

Class StunCodec := {
  TxID : Type;
  TxID_eq_dec :: EqDecision TxID;
  StunMessage : Type;
  (* a binding request with raw attributes, each a type and a value; it
     fails only when no transaction identifier can be drawn *)
  stun_Build : TxID -> list (Z * bytes) -> bytes;
  stun_Decode : bytes -> option StunMessage;
  TransactionID : StunMessage -> TxID;
  XORMappedAddress_GetFrom : StunMessage -> option (IP * Z);
  MappedAddress_GetFromAs : StunMessage -> Z -> option (IP * Z)
}.

Definition attrMappedAddress : Z := 1.
Definition attrChangeRequest : Z := 3.
Definition attrChangedAddress : Z := 5.
Definition AttrOtherAddress : Z := 0x802c.
Definition changeIPFlag : Z := 4.
Definition changePortFlag : Z := 2.

(** Times are milliseconds. *)
Definition stunReadTimeout : Z := 5000.
Definition changeReqTimeout : Z := 2000.
Definition stunBufSize : nat := Z.to_nat 1500.

(** [net_recv e t] are the datagrams that have arrived by the time a wait of
    at most [t] is over, and the error with which the socket then reports that
    nothing else came. *)
Class UdpNet `{StunCodec} (E : Type) := {
  net_NewTxID : E -> TxID * E;
  net_Listen : E -> res goerr UDPAddr * E;
  net_Resolve : E -> string -> res goerr UDPAddr * E;
  net_send : E -> bytes -> UDPAddr -> option io_err * E;
  net_recv : E -> Z -> list bytes * io_err * E;
  (* [Client.Do] of pion/stun on a connected socket *)
  net_Dial : E -> option Z -> string -> res goerr UDPAddr * E;
  net_Do : E -> bytes -> UDPAddr -> res goerr (res goerr StunMessage) * E
}.

Section detection.
Context `{UdpNet E}.

Record world := mkWorld { w_env : E; w_queue : list bytes }.

(** Programs that use the socket and may fail. *)
Abbreviation NetM := (Prog world).

Definition lift {A} (f : E -> res goerr A * E) : NetM A :=
  fun w => let '(r, e) := f (w_env w) in (r, mkWorld e (w_queue w)).

(** A new socket has nothing to read. *)
Definition ListenUDP : NetM UDPAddr :=
  fun w => let '(r, e) := net_Listen (w_env w) in (r, mkWorld e []).

Definition NewTxID : NetM TxID :=
  fun w => let '(t, e) := net_NewTxID (w_env w) in (Ok t, mkWorld e (w_queue w)).

Definition WriteToUDP (raw : bytes) (a : UDPAddr) : NetM unit :=
  fun w => match net_send (w_env w) raw a with
           | (None, e) => (Ok tt, mkWorld e (w_queue w))
           | (Some x, e) => (Err (EIO x), mkWorld e (w_queue w))
           end.

Record stunBindResult := mkBind { mappedIP : string; mappedPort : Z; msg : StunMessage }.

(** The address that [stunBindReq] takes from a response. *)
Definition mapped_of (resp : StunMessage) : res goerr stunBindResult :=
  match XORMappedAddress_GetFrom resp with
  | Some (ip, port) => Ok (mkBind (IP_String ip) port resp)
  | None =>
      match MappedAddress_GetFromAs resp attrMappedAddress with
      | Some (ip, port) => Ok (mkBind (IP_String ip) port resp)
      | None => Err (EMsg "no mapped address in response" [])
      end
  end.

(** The inner loop: datagrams that are not a response to this transaction are
    skipped; [None] when the deadline passes. *)
Fixpoint await_response (tx : TxID) (q : list bytes) : option (res goerr stunBindResult) * list bytes :=
  match q with
  | [] => (None, [])
  | d :: q =>
      match stun_Decode (take stunBufSize d) with
      | None => await_response tx q
      | Some resp =>
          if decide (TransactionID resp = tx) then (Some (mapped_of resp), q)
          else await_response tx q
      end
  end.

Definition maxRetries : nat := 3.

Fixpoint bind_attempts (n : nat) (lastErr : goerr) (tx : TxID) (raw : bytes) (serverAddr : UDPAddr) (timeout : Z)
    : NetM stunBindResult :=
  match n with
  | O => nfail lastErr
  | S n => fun w =>
      match WriteToUDP raw serverAddr w with
      | (Err e, w) => bind_attempts n (EWrap "send" e) tx raw serverAddr timeout w
      | (Ok _, w) =>
          let '(arrived, e, env) := net_recv (w_env w) timeout in
          match await_response tx (w_queue w ++ arrived) with
          | (Some r, q) => (r, mkWorld env q)
          | (None, q) => bind_attempts n (EWrap "recv" (EIO e)) tx raw serverAddr timeout (mkWorld env q)
          end
      end
  end.

Definition change_attrs (changeFlags : Z) : list (Z * bytes) :=
  if changeFlags =? 0 then [] else [(attrChangeRequest, be_put 4 changeFlags)].

Definition stunBindReq (serverAddr : UDPAddr) (changeFlags timeout : Z) : NetM stunBindResult :=
  let* tx := NewTxID in
  let raw := stun_Build tx (change_attrs changeFlags) in
  bind_attempts maxRetries (EMsg "" []) tx raw serverAddr timeout.

Definition getChangedAddr (m : StunMessage) : string * Z :=
  match MappedAddress_GetFromAs m attrChangedAddress with
  | Some (ip, port) => (IP_String ip, port)
  | None =>
      match MappedAddress_GetFromAs m AttrOtherAddress with
      | Some (ip, port) => (IP_String ip, port)
      | None => (EmptyString, 0)
      end
  end.

Definition same_mapping (a b : stunBindResult) : bool :=
  bool_decide (mappedIP a = mappedIP b) && (mappedPort a =? mappedPort b).

(** [net.ParseIP], where no address is nil. *)
Definition parse_or_nil (s : string) : IP := default [] (ParseIP s).

Definition mapping_test (serverAddr : UDPAddr) (altIP : string) (altPort : Z) (res1 : stunBindResult) : NetM NATMapping :=
  let altAddr2 := mkUDPAddr (parse_or_nil altIP) (ua_Port serverAddr) in
  let altAddr3 := mkUDPAddr (parse_or_nil altIP) altPort in
  let* r2 := ntry (stunBindReq altAddr2 0 stunReadTimeout) in
  match r2 with
  | Err _ =>
      let* r3 := ntry (stunBindReq altAddr3 0 stunReadTimeout) in
      match r3 with
      | Err _ => nfail (EMsg "mapping test failed (neither alt addr reachable)" [])
      | Ok res3 => nret (if same_mapping res1 res3 then MappingEndpointIndependent else MappingAddressPortDependent)
      end
  | Ok res2 =>
      if same_mapping res1 res2 then nret MappingEndpointIndependent
      else
        let* r3 := ntry (stunBindReq altAddr3 0 stunReadTimeout) in
        match r3 with
        | Err _ => nret MappingAddressPortDependent
        | Ok res3 => nret (if same_mapping res2 res3 then MappingAddressDependent else MappingAddressPortDependent)
        end
  end.

Definition filtering_test (serverAddr : UDPAddr) : NetM NATFiltering :=
  let* r := ntry (stunBindReq serverAddr (Z.lor changeIPFlag changePortFlag) changeReqTimeout) in
  match r with
  | Ok _ => nret FilteringEndpointIndependent
  | Err _ =>
      let* r := ntry (stunBindReq serverAddr changePortFlag changeReqTimeout) in
      nret (if r is Ok _ then FilteringAddressDependent else FilteringAddressPortDependent)
  end.

Definition open_internet (localAddr : UDPAddr) (res1 : stunBindResult) : bool :=
  let localIP := IP_String (ua_IP localAddr) in
  (bool_decide (localIP = mappedIP res1) || bool_decide (localIP = "0.0.0.0")) &&
  (ua_Port localAddr =? mappedPort res1).

Definition detectNATTypeRFC5780 (server : string) : NetM NATType :=
  let* localAddr := nwrap "bind" ListenUDP in
  let* serverAddr := nwrap "resolve" (lift (fun e => net_Resolve e server)) in
  let* res1 := nwrap "test I" (stunBindReq serverAddr 0 stunReadTimeout) in
  let '(altIP, altPort) := getChangedAddr (msg res1) in
  if bool_decide (altIP = EmptyString) then
    nfail (EMsg "server doesn't provide OTHER-ADDRESS/CHANGED-ADDRESS" [])
  else if isBogonIP altIP then nfail (EMsg "server returned bogon OTHER-ADDRESS" [])
  else if open_internet localAddr res1 then
    let* r := ntry (stunBindReq serverAddr (Z.lor changeIPFlag changePortFlag) changeReqTimeout) in
    nret (mkNATType MappingEndpointIndependent
            (if r is Ok _ then FilteringEndpointIndependent else FilteringAddressPortDependent)
            (mappedIP res1) (mappedPort res1))
  else
    let* mapping := mapping_test serverAddr altIP altPort res1 in
    let* filtering := filtering_test serverAddr in
    nret (mkNATType mapping filtering (mappedIP res1) (mappedPort res1)).

(** One read; the transaction of what is read is not looked at. *)
Definition DiscoverPublicAddrVia (stunServer : string) : NetM (string * Z) :=
  let* remoteAddr := nwrap "resolve STUN server" (lift (fun e => net_Resolve e stunServer)) in
  let* tx := NewTxID in
  let* _ := nwrap "send STUN" (WriteToUDP (stun_Build tx []) remoteAddr) in
  fun w =>
    let '(arrived, e, env) := net_recv (w_env w) stunReadTimeout in
    match w_queue w ++ arrived with
    | [] => (Err (EWrap "read STUN response" (EIO e)), mkWorld env [])
    | d :: q =>
        match stun_Decode (take stunBufSize d) with
        | None => (Err (EMsg "decode STUN response" []), mkWorld env q)
        | Some resp =>
            match XORMappedAddress_GetFrom resp with
            | None => (Err (EMsg "parse XOR-MAPPED-ADDRESS" []), mkWorld env q)
            | Some (ip, port) => (Ok (IP_String ip, port), mkWorld env q)
            end
        end
    end.

Fixpoint two_servers (servers : list string) (used : list string) (results : list (string * Z)) : NetM (list (string * Z)) :=
  match servers with
  | [] => nret results
  | s :: servers =>
      if (2 <=? length results)%nat then nret results
      else if decide (s ∈ used) then two_servers servers used results
      else
        let* r := ntry (DiscoverPublicAddrVia s) in
        match r with
        | Err _ => two_servers servers used results
        | Ok x => two_servers servers (s :: used) (results ++ [x])
        end
  end.

Definition classify_two (ip1 : string) (port1 : Z) (ip2 : string) (port2 : Z) : NATType :=
  if isPrivateIP ip1 then mkNATType MappingUnknown FilteringUnknown ip1 port1
  else if negb (bool_decide (ip1 = ip2)) then mkNATType MappingUnknown FilteringUnknown ip1 port1
  else if negb (port1 =? port2) then mkNATType MappingAddressPortDependent FilteringUnknown ip1 port1
  else mkNATType MappingEndpointIndependent FilteringUnknown ip1 port1.

Definition detectNATTypeTwoServerFull (stunServer1 stunServer2 : string) : NetM NATType :=
  let* _ := nwrap "bind ephemeral UDP" ListenUDP in
  let* results := two_servers [stunServer1; stunServer2; "stun2.l.google.com:19302";
                             "stun3.l.google.com:19302"; "stun4.l.google.com:19302"] [] [] in
  match results with
  | (ip1, port1) :: (ip2, port2) :: _ => nret (classify_two ip1 port1 ip2 port2)
  | _ => nfail (EMsg "fewer than 2 STUN servers responded" [])
  end.

Definition rfc3489Servers : list string :=
  ["stun.stunprotocol.org:3478"; "stun.voipbuster.com:3478"; "stun.voipstunt.com:3478"; "stun.sipnet.net:3478"].

Fixpoint first_detected (servers : list string) (fallback : NetM NATType) : NetM NATType :=
  match servers with
  | [] => fallback
  | server :: servers =>
      let* r := ntry (detectNATTypeRFC5780 server) in
      match r with Ok result => nret result | Err _ => first_detected servers fallback end
  end.

Definition DetectNATTypeFull (stunServer1 stunServer2 : string) : NetM NATType :=
  first_detected rfc3489Servers (detectNATTypeTwoServerFull stunServer1 stunServer2).

(** [doSTUN] through the client of the library, and its two callers. *)
Definition doSTUN (conn : UDPAddr) : NetM (string * Z) :=
  let* tx := NewTxID in
  let message := stun_Build tx [] in
  let* event := nwrap "STUN request" (lift (fun e => net_Do e message conn)) in
  match event with
  | Err e => nfail e
  | Ok m =>
      match XORMappedAddress_GetFrom m with
      | None => nfail (EMsg "parse XOR-MAPPED-ADDRESS" [])
      | Some (ip, port) => nret (IP_String ip, port)
      end
  end.

Definition DiscoverPublicAddr (stunServer : string) : NetM (string * Z) :=
  let* conn := nwrap "dial STUN server" (lift (fun e => net_Dial e None stunServer)) in
  doSTUN conn.

Definition DiscoverPublicAddrFromPort (stunServer : string) (localPort : Z) : NetM (string * Z) :=
  let* _ := nwrap "resolve STUN server" (lift (fun e => net_Resolve e stunServer)) in
  let* conn := nwrap "dial STUN from port" (lift (fun e => net_Dial e (Some localPort) stunServer)) in
  doSTUN conn.

End detection.


(** ** The cache of the result (cache.go)

    [CachedDetectNATType] holds the lock for the lookup and for the store, not
    for the detection between them. *)

Record natCache := mkNatCache { result : option NATType; updated : Z; ttl : Z }.

Definition globalNATCache : natCache := mkNatCache None 0 300000.

Definition cache_lookup (c : natCache) (now : Z) : option NATType :=
  match result c with
  | Some r => if now - updated c <? ttl c then Some r else None
  | None => None
  end.

Definition cache_store (r : NATType) (now : Z) (c : natCache) : natCache := mkNatCache (Some r) now (ttl c).

Definition InvalidateNATCache (c : natCache) : natCache := mkNatCache None 0 (ttl c).

(** A call that no other call interrupts; [start] and [finish] are the times
    of the lookup and of the store. *)
Definition CachedDetectNATType `{UdpNet E} (start finish : Z) (server1 server2 : string) (c : natCache)
    : world -> res goerr NATType * world * natCache :=
  fun w =>
    match cache_lookup c start with
    | Some r => (Ok r, w, c)
    | None =>
        match DetectNATTypeFull server1 server2 w with
        | (Err e, w) => (Err e, w, c)
        | (Ok r, w) => (Ok r, w, cache_store r finish c)
        end
    end.

(** A detection that began before the network changed stores its result after
    the cache was invalidated, and it is served for the next five minutes. *)
Lemma stale_after_invalidation c r t1 t2 t :
  cache_lookup c t1 = None -> t2 <= t < t2 + ttl c ->
  cache_lookup (cache_store r t2 (InvalidateNATCache c)) t = Some r.
Proof. intros _ Ht. unfold cache_lookup. simpl. case_zb; [done|lia]. Qed.

(** ** IPv4 addresses as strings *)

Definition v4 (q : list Z) : Prop := length q = 4%nat /\ Forall (fun b => 0 <= b < 256) q.

Lemma octet_roundtrip b : 0 <= b < 256 -> parse_octet (itoa b) = Some b /\ has_char "."%char (itoa b) = false
  /\ first_sep (itoa b) = None.
Proof.
  intros Hb.
  assert (Hall : forallb (fun b => bool_decide (parse_octet (itoa b) = Some b /\ has_char "."%char (itoa b) = false
    /\ first_sep (itoa b) = None)) (seqZ 0 256) = true) by (vm_compute; reflexivity).
  rewrite forallb_forall in Hall. eapply bool_decide_eq_true, Hall.
  apply list_elem_of_In, elem_of_seqZ. lia.
Qed.

Lemma first_sep_app a b : first_sep a = None -> first_sep (String.append a b) = first_sep b.
Proof. induction a as [|c a IH]; [done|]. rewrite append_cons. cbn [first_sep]. case_bool_decide; [done|auto]. Qed.

Lemma ParseIP_v4_string q : v4 q -> ParseIP (v4_string q) = Some (v4mapped q).
Proof.
  intros [Hl Hq]. destruct q as [|a [|b [|c [|d [|]]]]]; try discriminate. clear Hl.
  rewrite !Forall_cons in Hq. destruct Hq as (? & ? & ? & ? & _).
  destruct (octet_roundtrip a ltac:(done)) as (Pa & Da & Sa), (octet_roundtrip b ltac:(done)) as (Pb & Db & Sb),
    (octet_roundtrip c ltac:(done)) as (Pc & Dc & Sc), (octet_roundtrip d ltac:(done)) as (Pd & Dd & Sd).
  unfold ParseIP, v4_string, parse_v4. cbn [map Join].
  assert (Hdot : forall x, String.append "." x = String "."%char x) by done. rewrite !Hdot.
  rewrite first_sep_app by done. cbn [first_sep]. rewrite bool_decide_true by by left.
  rewrite !split_char_app, split_char_single by done. rewrite decide_True by done.
  cbn [mapM]. by rewrite Pa, Pb, Pc, Pd.
Qed.

Lemma To4_v4mapped q : To4 (v4mapped q) = Some q.
Proof. unfold To4, v4mapped. rewrite app_assoc. rewrite take_app_length', drop_app_length' by done. by rewrite decide_True. Qed.

Lemma IP_String_v4mapped q : v4 q -> IP_String (v4mapped q) = v4_string q.
Proof.
  intros [Hl _]. unfold IP_String. rewrite decide_False, To4_v4mapped; [done|].
  unfold v4mapped. rewrite !length_app, length_replicate, Hl. simpl. lia.
Qed.

Example v6_strings :
  (IP_String (replicate 16 0), IP_String [32; 1; 13; 184; 0; 0; 0; 0; 0; 0; 0; 0; 0; 1; 0; 2],
   IP_String (v4mapped [203; 0; 113; 7]), IP_String [32; 1; 0; 0; 0; 1; 0; 0; 0; 0; 0; 1; 0; 0; 0; 171])
  = ("::", "2001:db8::1:2", "203.0.113.7", "2001:0:1::1:0:ab").
Proof. reflexivity. Qed.

(** ** A NAT and a STUN server to test against

    The NAT has a mapping and a filtering behaviour: [nat_key] is what the
    external port depends on, and a datagram from outside passes if an earlier
    one of the same external port went to anywhere, to the same address or to
    the same address and port.  The server has two addresses and two ports and
    answers from the one that the request asks for.  The network may deliver
    an answer several times; [copies] is how often. *)

(** Membership in a list that is written out. *)
Ltac in_list := rewrite ?elem_of_cons; tauto.

Section nat_model.
Context `{StunCodec}.

Record nat_box := mkBox {
  nb_mapping : NATMapping;
  nb_filtering : NATFiltering;
  nb_public : list Z;                        (* IPv4 *)
  nb_alloc : option IP * option Z -> Z;      (* the external port of a key *)
  nb_local : UDPAddr                         (* the program's socket *)
}.

Record stun_server := mkServer {
  ss_ip1 : list Z; ss_ip2 : list Z; ss_port1 : Z; ss_port2 : Z;
  ss_request : bytes -> option (TxID * Z);                (* transaction and change flags *)
  ss_respond : TxID -> IP * Z -> IP * Z -> bytes          (* mapped address, other address *)
}.

Record nat_state := mkNatState { ns_tx : nat; ns_sessions : list (Z * UDPAddr); ns_inbox : list bytes }.

Context (N : nat_box) (V : stun_server) (txs : nat -> TxID).
Context (copies : nat) (resolve : string -> UDPAddr).

Definition nat_key (dst : UDPAddr) : option IP * option Z :=
  match nb_mapping N with
  | MappingAddressDependent => (Some (ua_IP dst), None)
  | MappingAddressPortDependent => (Some (ua_IP dst), Some (ua_Port dst))
  | _ => (None, None)
  end.

Definition ext_port (dst : UDPAddr) : Z := nb_alloc N (nat_key dst).

Definition passes (sessions : list (Z * UDPAddr)) (port : Z) (src : UDPAddr) : bool :=
  existsb (fun s => (s.1 =? port) &&
    match nb_filtering N with
    | FilteringAddressDependent => bool_decide (ua_IP s.2 = ua_IP src)
    | FilteringAddressPortDependent => bool_decide (s.2 = src)
    | _ => true
    end) sessions.

Definition ss_ips : list IP := [v4mapped (ss_ip1 V); v4mapped (ss_ip2 V)].
Definition ss_ports : list Z := [ss_port1 V; ss_port2 V].

Definition other_ip (ip : IP) : IP :=
  if decide (ip = v4mapped (ss_ip1 V)) then v4mapped (ss_ip2 V) else v4mapped (ss_ip1 V).
Definition other_port (p : Z) : Z := if decide (p = ss_port1 V) then ss_port2 V else ss_port1 V.

(** Where the server answers a request to [dst] from. *)
Definition answer_from (dst : UDPAddr) (flags : Z) : UDPAddr :=
  mkUDPAddr (if Z.testbit flags 2 then other_ip (ua_IP dst) else ua_IP dst)
            (if Z.testbit flags 1 then other_port (ua_Port dst) else ua_Port dst).

Definition add_session (s : Z * UDPAddr) (l : list (Z * UDPAddr)) : list (Z * UDPAddr) :=
  if decide (s ∈ l) then l else s :: l.

Definition nat_send (st : nat_state) (raw : bytes) (dst : UDPAddr) : nat_state :=
  let sessions := add_session (ext_port dst, dst) (ns_sessions st) in
  let inbox :=
    match ss_request V raw with
    | Some (tx, flags) =>
        if decide (ua_IP dst ∈ ss_ips /\ ua_Port dst ∈ ss_ports) then
          if passes sessions (ext_port dst) (answer_from dst flags)
          then ns_inbox st ++ replicate copies
                 (ss_respond V tx (v4mapped (nb_public N), ext_port dst)
                    (other_ip (ua_IP dst), other_port (ua_Port dst)))
          else ns_inbox st
        else ns_inbox st
    | None => ns_inbox st
    end in
  mkNatState (ns_tx st) sessions inbox.

#[export] Instance nat_net : UdpNet nat_state := {|
  net_NewTxID st := (txs (ns_tx st), mkNatState (S (ns_tx st)) (ns_sessions st) (ns_inbox st));
  net_Listen st := (Ok (nb_local N), mkNatState (ns_tx st) [] []);
  net_Resolve st s := (Ok (resolve s), st);
  net_send st raw dst := (None, nat_send st raw dst);
  net_recv st _ := (ns_inbox st, ErrTimeout, mkNatState (ns_tx st) (ns_sessions st) []);
  net_Dial st _ s := (Ok (resolve s), st);
  net_Do st _ _ := (Err (EIO ErrTimeout), st)
|}.

Definition addr_ok (a : IP * Z) : Prop :=
  length a.1 = 16%nat /\ Forall (fun b => 0 <= b < 256) a.1 /\ 0 <= a.2 < 65536.

(** What the server's documentation promises: it reads the requests that the
    codec builds, and its responses decode to the transaction, the mapped
    address and its other address; the transaction identifiers, which have 96
    bits, do not repeat before they are used up. *)
Definition tx_limit : Z := 2 ^ 96.
Definition tx_fresh : Prop := forall i j, (i < j)%nat -> Z.of_nat j < tx_limit -> txs i <> txs j.

Definition compliant : Prop :=
  tx_fresh /\
  (forall n flags, flags ∈ [0; 2; 6] ->
     ss_request V (stun_Build (txs n) (change_attrs flags)) = Some (txs n, flags)) /\
  (forall n mapped other, addr_ok mapped -> addr_ok other ->
     exists resp, stun_Decode (take stunBufSize (ss_respond V (txs n) mapped other)) = Some resp /\
       TransactionID resp = txs n /\ XORMappedAddress_GetFrom resp = Some mapped /\
       MappedAddress_GetFromAs resp attrChangedAddress = None /\
       MappedAddress_GetFromAs resp AttrOtherAddress = Some other).

Definition net_ok : Prop :=
  (1 <= copies)%nat /\
  v4 (ss_ip1 V) /\ v4 (ss_ip2 V) /\ v4 (nb_public N) /\ ss_ip1 V <> ss_ip2 V /\ ss_port1 V <> ss_port2 V /\
  0 <= ss_port1 V < 65536 /\ 0 <= ss_port2 V < 65536 /\
  (forall k, 0 <= nb_alloc N k < 65536) /\
  (forall ip1 ip2 p1 p2, ip1 ∈ ss_ips -> ip2 ∈ ss_ips -> p1 ∈ ss_ports -> p2 ∈ ss_ports ->
     ext_port (mkUDPAddr ip1 p1) = ext_port (mkUDPAddr ip2 p2) ->
     nat_key (mkUDPAddr ip1 p1) = nat_key (mkUDPAddr ip2 p2)) /\
  nb_mapping N <> MappingUnknown /\ nb_filtering N <> FilteringUnknown.

(** What the two change requests show, given the destinations that the mapping
    test has contacted before from the same socket. *)
Definition observed_filtering : NATFiltering :=
  match nb_mapping N, nb_filtering N with
  | MappingEndpointIndependent, FilteringAddressDependent => FilteringEndpointIndependent
  | _, f => f
  end.

Lemma add_session_idem s l : add_session s (add_session s l) = add_session s l.
Proof.
  unfold add_session. destruct (decide (s ∈ l)) as [Hs|]; [by rewrite decide_True|].
  rewrite decide_True; [done|left].
Qed.

Lemma nat_send_eq st tx flags raw dst :
  ss_request V raw = Some (tx, flags) -> ua_IP dst ∈ ss_ips -> ua_Port dst ∈ ss_ports -> ns_inbox st = [] ->
  nat_send st raw dst =
    let sessions := add_session (ext_port dst, dst) (ns_sessions st) in
    mkNatState (ns_tx st) sessions
      (if passes sessions (ext_port dst) (answer_from dst flags)
       then replicate copies (ss_respond V tx (v4mapped (nb_public N), ext_port dst)
                                (other_ip (ua_IP dst), other_port (ua_Port dst)))
       else []).
Proof.
  intros Hr Hi Hp Hin. unfold nat_send. rewrite Hr, Hin, decide_True by done. cbv zeta. by destruct (passes _ _ _).
Qed.

(** The queue holds only answers to transactions before the [n]-th. *)
Definition stale (n : nat) (q : list bytes) : Prop :=
  Forall (fun d => forall r, stun_Decode (take stunBufSize d) = Some r ->
    exists k, (k < n)%nat /\ TransactionID r = txs k) q.

Lemma await_stale n q rest :
  tx_fresh -> Z.of_nat n < tx_limit -> stale n q -> await_response (txs n) (q ++ rest) = await_response (txs n) rest.
Proof.
  intros Hinj Hn. induction 1 as [|d q Hd Hq IH]; [done|]. cbn [app await_response].
  destruct (stun_Decode _) as [r|]; [|done]. destruct (Hd r eq_refl) as (k & Hk & ->).
  rewrite decide_False; [done|]. by apply Hinj.
Qed.

Lemma v4mapped_ok q p : v4 q -> 0 <= p < 65536 -> addr_ok (v4mapped q, p).
Proof.
  intros [Hl Hq] Hp. unfold addr_ok, v4mapped. cbn [fst snd]. split_and!; try lia.
  - rewrite !length_app, length_replicate, Hl. done.
  - rewrite !Forall_app. split_and!; [|by repeat constructor|done]. apply Forall_replicate. lia.
Qed.

Lemma other_ok dst : net_ok -> addr_ok (other_ip (ua_IP dst), other_port (ua_Port dst)).
Proof.
  intros (_ & ? & ? & _ & _ & _ & ? & ? & _). unfold other_ip, other_port.
  repeat case_decide; by apply v4mapped_ok.
Qed.

(** A request without an answer is repeated; the sessions it opens are those
    of the first attempt. *)
Lemma bind_blocked n err k flags raw dst timeout st q :
  tx_fresh -> Z.of_nat k < tx_limit -> ss_request V raw = Some (txs k, flags) ->
  ua_IP dst ∈ ss_ips -> ua_Port dst ∈ ss_ports -> ns_inbox st = [] -> stale k q ->
  let sessions := add_session (ext_port dst, dst) (ns_sessions st) in
  passes sessions (ext_port dst) (answer_from dst flags) = false ->
  exists e, bind_attempts (S n) err (txs k) raw dst timeout (mkWorld st q)
    = (Err e, mkWorld (mkNatState (ns_tx st) sessions []) []).
Proof.
  intros Hinj Hk Hr Hi Hp Hin Hq sessions Hb. revert err st q Hin Hq sessions Hb.
  induction n as [|n IH]; intros err st q Hin Hq sessions Hb; cbn [bind_attempts];
    unfold WriteToUDP; cbn [w_env w_queue net_send nat_net];
    rewrite (nat_send_eq _ _ _ _ _ Hr Hi Hp Hin); cbv zeta; fold sessions; rewrite Hb;
    cbn [net_recv nat_net w_env ns_inbox w_queue ns_tx ns_sessions]; rewrite await_stale by done;
    cbn [await_response].
  - by eexists.
  - edestruct (IH (EWrap "recv" (EIO ErrTimeout)) (mkNatState (ns_tx st) sessions []) []) as [e He];
      [done|constructor| |].
    + cbn [ns_sessions]. unfold sessions. by rewrite add_session_idem.
    + exists e. cbn [ns_tx ns_sessions] in He. unfold sessions in He. rewrite add_session_idem in He. exact He.
Qed.

(** One request to the server and what it shows. *)
Lemma stunBindReq_nat dst flags timeout st q :
  Z.of_nat (ns_tx st) < tx_limit -> compliant -> net_ok -> ua_IP dst ∈ ss_ips -> ua_Port dst ∈ ss_ports -> flags ∈ [0; 2; 6] ->
  ns_inbox st = [] -> stale (ns_tx st) q ->
  let sessions := add_session (ext_port dst, dst) (ns_sessions st) in
  let st' := mkNatState (S (ns_tx st)) sessions [] in
  exists q', stale (ns_tx st') q' /\
  if passes sessions (ext_port dst) (answer_from dst flags) then
    exists resp, stunBindReq dst flags timeout (mkWorld st q) =
      (Ok (mkBind (v4_string (nb_public N)) (ext_port dst) resp), mkWorld st' q') /\
      getChangedAddr resp = (IP_String (other_ip (ua_IP dst)), other_port (ua_Port dst))
  else exists e, stunBindReq dst flags timeout (mkWorld st q) = (Err e, mkWorld st' q').
Proof.
  intros Hn (Hinj & Hreq & Hresp) Hok Hi Hp Hf Hin Hq sessions st'.
  unfold stunBindReq, nbind, NewTxID. cbn [w_env net_NewTxID nat_net w_queue].
  specialize (Hreq (ns_tx st) flags Hf).
  destruct (passes sessions (ext_port dst) (answer_from dst flags)) eqn:E.
  2:{ exists []. split; [constructor|].
      by apply (bind_blocked 2 _ _ flags _ _ _ (mkNatState (S (ns_tx st)) (ns_sessions st) (ns_inbox st))). }
  destruct (Hresp (ns_tx st) (v4mapped (nb_public N), ext_port dst)
    (other_ip (ua_IP dst), other_port (ua_Port dst))) as (resp & Hd & Ht & Hx & Hc & Ho).
  { destruct Hok as (_ & _ & _ & ? & _ & _ & _ & _ & Ha & _). apply v4mapped_ok; [done|apply Ha]. }
  { by apply other_ok. }
  assert (Hcop : copies = S (pred copies)) by (destruct Hok as [? _]; lia).
  exists (replicate (pred copies) (ss_respond V (txs (ns_tx st)) (v4mapped (nb_public N), ext_port dst)
    (other_ip (ua_IP dst), other_port (ua_Port dst)))). split.
  { apply Forall_replicate. intros r. rewrite Hd. intros [= <-]. exists (ns_tx st). simpl. split; [lia|done]. }
  exists resp. unfold maxRetries. cbn [bind_attempts]. unfold WriteToUDP.
  cbn [w_env w_queue net_send nat_net].
  rewrite (nat_send_eq (mkNatState _ _ _) _ _ _ _ Hreq Hi Hp Hin). cbv zeta.
  cbn [ns_sessions]. fold sessions. rewrite E.
  cbn [net_recv nat_net w_env ns_inbox w_queue ns_tx ns_sessions]. rewrite await_stale by done.
  rewrite Hcop at 1. cbn [replicate await_response].
  rewrite Hd, decide_True by done. unfold mapped_of. rewrite Hx, IP_String_v4mapped by apply Hok.
  split; [done|]. unfold getChangedAddr. by rewrite Hc, Ho.
Qed.

Lemma elem_add_session s s' l : s ∈ add_session s' l <-> s = s' \/ s ∈ l.
Proof. unfold add_session. case_decide; rewrite ?elem_of_cons; naive_solver. Qed.

Definition lets_in (d src : UDPAddr) : Prop :=
  match nb_filtering N with
  | FilteringAddressDependent => ua_IP d = ua_IP src
  | FilteringAddressPortDependent => d = src
  | _ => True
  end.

Lemma passes_spec l x src : passes l x src = true <-> exists d, (x, d) ∈ l /\ lets_in d src.
Proof.
  unfold passes, lets_in. rewrite existsb_exists. split.
  - intros ([y d] & Hin & [Hy Hd]%andb_prop). simpl in *. apply Z.eqb_eq in Hy as ->. exists d.
    split; [by apply list_elem_of_In|]. destruct (nb_filtering N); try done; by apply bool_decide_eq_true in Hd.
  - intros (d & Hin & Hd). exists (x, d). split; [by apply list_elem_of_In|]. simpl. rewrite Z.eqb_refl. simpl.
    destruct (nb_filtering N); try done; by apply bool_decide_eq_true.
Qed.

Lemma passes_self x d l : passes (add_session (x, d) l) x d = true.
Proof.
  apply passes_spec. exists d. split; [apply elem_add_session; by left|].
  unfold lets_in. by destruct (nb_filtering N).
Qed.

Definition A11 : UDPAddr := mkUDPAddr (v4mapped (ss_ip1 V)) (ss_port1 V).
Definition A21 : UDPAddr := mkUDPAddr (v4mapped (ss_ip2 V)) (ss_port1 V).
Definition A12 : UDPAddr := mkUDPAddr (v4mapped (ss_ip1 V)) (ss_port2 V).
Definition A22 : UDPAddr := mkUDPAddr (v4mapped (ss_ip2 V)) (ss_port2 V).

Lemma other_of_first : other_ip (ua_IP A11) = v4mapped (ss_ip2 V) /\ other_port (ua_Port A11) = ss_port2 V.
Proof. unfold other_ip, other_port, A11. cbn [ua_IP ua_Port]. by rewrite !decide_True. Qed.

Lemma changed_answers : answer_from A11 6 = A22 /\ answer_from A11 2 = A12.
Proof. unfold answer_from. destruct other_of_first as [-> ->]. done. Qed.

Lemma server_addr d : d ∈ [A11; A21; A12; A22] -> ua_IP d ∈ ss_ips /\ ua_Port d ∈ ss_ports.
Proof. unfold ss_ips, ss_ports. rewrite !elem_of_cons. intros [->|[->|[->|[->|[]%not_elem_of_nil]]]]; simpl; auto. Qed.

(** A plain request to any of the server's addresses is answered. *)
Lemma plain_answered d timeout st q :
  Z.of_nat (ns_tx st) < tx_limit -> compliant -> net_ok -> d ∈ [A11; A21; A12; A22] -> ns_inbox st = [] -> stale (ns_tx st) q ->
  exists resp q', stunBindReq d 0 timeout (mkWorld st q) =
    (Ok (mkBind (v4_string (nb_public N)) (ext_port d) resp),
     mkWorld (mkNatState (S (ns_tx st)) (add_session (ext_port d, d) (ns_sessions st)) []) q') /\
    stale (S (ns_tx st)) q' /\
    getChangedAddr resp = (IP_String (other_ip (ua_IP d)), other_port (ua_Port d)).
Proof.
  intros Hn Hc Hok Hd Hin Hq. destruct (server_addr d Hd) as [Hi Hp].
  destruct (stunBindReq_nat d 0 timeout st q Hn Hc Hok Hi Hp ltac:(in_list) Hin Hq) as (q' & Hq' & Hb).
  replace (answer_from d 0) with d in Hb by by destruct d.
  rewrite passes_self in Hb. destruct Hb as (resp & ? & ?). by exists resp, q'.
Qed.

(** Two addresses of the server share the external port exactly when the NAT
    maps them alike. *)
Lemma ext_port_eq d d' :
  net_ok -> d ∈ [A11; A21; A12; A22] -> d' ∈ [A11; A21; A12; A22] ->
  ext_port d = ext_port d' <-> nat_key d = nat_key d'.
Proof.
  intros Hok Hd Hd'. destruct (server_addr d Hd), (server_addr d' Hd').
  split; [|unfold ext_port; congruence]. destruct d, d'. by apply Hok.
Qed.

Lemma v4mapped_inj q q' : v4mapped q = v4mapped q' -> q = q'.
Proof. unfold v4mapped. intros. by simplify_list_eq. Qed.

Lemma key_eq d d' :
  nat_key d = nat_key d' <->
  match nb_mapping N with
  | MappingAddressDependent => ua_IP d = ua_IP d'
  | MappingAddressPortDependent => d = d'
  | _ => True
  end.
Proof. unfold nat_key. destruct (nb_mapping N), d, d'; simpl; naive_solver. Qed.

Lemma same_ports_bool d d' :
  net_ok -> d ∈ [A11; A21; A12; A22] -> d' ∈ [A11; A21; A12; A22] ->
  (ext_port d =? ext_port d') = bool_decide (nat_key d = nat_key d').
Proof.
  intros Hok Hd Hd'. pose proof (ext_port_eq d d' Hok Hd Hd') as He.
  case_bool_decide as Hk; [by apply Z.eqb_eq, He|apply Z.eqb_neq; tauto].
Qed.

(** The sessions of the socket when the mapping test is over. *)
Definition contacted (sessions : list (Z * UDPAddr)) : Prop :=
  forall x d, (x, d) ∈ sessions <->
    x = ext_port d /\ (d = A11 \/ d = A21 \/ (d = A22 /\ nb_mapping N <> MappingEndpointIndependent)).

Lemma mapping_test_nat st resp q :
  Z.of_nat (ns_tx st) + 1 < tx_limit -> compliant -> net_ok -> ns_inbox st = [] -> stale (ns_tx st) q ->
  ns_sessions st = [(ext_port A11, A11)] ->
  exists sessions n q',
    mapping_test A11 (v4_string (ss_ip2 V)) (ss_port2 V)
      (mkBind (v4_string (nb_public N)) (ext_port A11) resp) (mkWorld st q)
    = (Ok (nb_mapping N), mkWorld (mkNatState n sessions []) q') /\ stale n q' /\ contacted sessions /\ (n <= ns_tx st + 2)%nat.
Proof.
  intros Hn Hc Hok Hin Hq Hs. assert (Hu : nb_mapping N <> MappingUnknown) by apply Hok. unfold mapping_test, parse_or_nil.
  rewrite ParseIP_v4_string by apply Hok. cbv zeta. cbn [default id ua_Port A11].
  change (mkUDPAddr (v4mapped (ss_ip2 V)) (ss_port1 V)) with A21.
  change (mkUDPAddr (v4mapped (ss_ip2 V)) (ss_port2 V)) with A22.
  unfold nbind, ntry.
  destruct (plain_answered A21 stunReadTimeout st q) as (r2 & q2 & E2 & Hq2 & _); [lia|done..|in_list|done|done|].
  rewrite E2. unfold same_mapping. cbn [mappedIP mappedPort].
  rewrite bool_decide_true, same_ports_bool by (done || in_list). cbn [andb].
  rewrite Hs. set (st2 := mkNatState _ _ _).
  assert (Hne : A11 <> A21 /\ A21 <> A22 /\ ua_IP A11 <> ua_IP A21).
  { destruct Hok as (_ & _ & _ & _ & Hi & Hp & _). unfold A11, A21, A22. simpl.
    split_and!; [intros [= E]|intros [= E]|intros E%v4mapped_inj]; done. }
  destruct (bool_decide (nat_key A11 = nat_key A21)) eqn:K1; rewrite ?bool_decide_eq_true, ?bool_decide_eq_false in K1;
    rewrite key_eq in K1.
  - destruct (nb_mapping N) eqn:Em; try tauto. exists (ns_sessions st2), (ns_tx st2), q2. split; [done|]. split; [done|]. split; [|simpl; lia].
    intros x d. unfold st2. cbn [ns_sessions]. rewrite elem_add_session, list_elem_of_singleton, Em.
    split; [intros [[= -> ->]|[= -> ->]]|intros (-> & [->|[->|[_ E]]])]; auto; done.
  - destruct (plain_answered A22 stunReadTimeout st2 q2) as (r3 & q3 & E3 & Hq3 & _); [simpl; lia|done..|in_list|done|done|].
    rewrite E3. cbn [mappedIP mappedPort].
    rewrite bool_decide_true, same_ports_bool by (done || in_list). cbn [andb].
    exists (add_session (ext_port A22, A22) (ns_sessions st2)), (S (ns_tx st2)), q3. split; [|split; [done|split; [|simpl; lia]]].
    + unfold nret. do 2 f_equal. destruct (bool_decide (nat_key A21 = nat_key A22)) eqn:K2;
        rewrite ?bool_decide_eq_true, ?bool_decide_eq_false in K2; rewrite key_eq in K2;
        destruct (nb_mapping N); try done; by destruct Hne as (_ & ? & _).
    + intros x d. unfold st2. cbn [ns_sessions]. rewrite !elem_add_session, list_elem_of_singleton.
      split; [intros [[= -> ->]|[[= -> ->]|[= -> ->]]]|intros (-> & [->|[->|[-> E]]])]; auto.
      split; [done|]. right. right. split; [done|]. by intros E; rewrite E in K1.
Qed.

(** The destinations whose sessions share the external port of the first
    request. *)
Lemma passes_contacted l src :
  net_ok -> contacted l ->
  passes l (ext_port A11) src = true <->
  exists d, (d = A11 \/ d = A21 /\ nb_mapping N = MappingEndpointIndependent) /\ lets_in d src.
Proof.
  intros Hok Hl. rewrite passes_spec. split.
  - intros (d & [Hx Hd]%Hl & Hlet). exists d. split; [|done].
    assert (Hu : nb_mapping N <> MappingUnknown) by apply Hok.
    assert (Hne : A11 <> A22 /\ ua_IP A11 <> ua_IP A21).
    { destruct Hok as (_ & _ & _ & _ & Hi' & Hp' & _). unfold A11, A21, A22. simpl.
      split; [intros [= E ?]|intros E%v4mapped_inj]; congruence. }
    apply (ext_port_eq A11 d Hok) in Hx; [|in_list|in_list]. rewrite key_eq in Hx.
    destruct Hd as [->|[->|[-> Hd]]]; [by left|right|exfalso]; destruct (nb_mapping N); try done;
      exfalso; destruct Hne as [? Hne]; try done; apply Hne; by rewrite <- Hx.
  - intros (d & Hd & Hlet). exists d. split; [|done]. apply Hl. destruct Hd as [->|[-> Hm]]; [auto|].
    split; [|auto]. unfold ext_port, nat_key. by rewrite Hm.
Qed.

Lemma change_both_passes l :
  net_ok -> contacted l ->
  passes l (ext_port A11) A22 = bool_decide (observed_filtering = FilteringEndpointIndependent).
Proof.
  intros Hok Hl. assert (Hf : nb_filtering N <> FilteringUnknown) by apply Hok. pose proof (passes_contacted l A22 Hok Hl) as Hp.
  assert (Hne : A11 <> A22 /\ A21 <> A22 /\ ua_IP A11 <> ua_IP A22).
  { destruct Hok as (_ & _ & _ & _ & Hi' & Hp' & _). unfold A11, A21, A22. simpl.
    split_and!; [intros [= E ?]|intros [= E]|intros E%v4mapped_inj]; congruence. }
  case_bool_decide as Ho.
  - apply Hp. unfold observed_filtering, lets_in in *.
    destruct (nb_mapping N), (nb_filtering N); try done; first [by exists A11; auto | by exists A21; auto].
  - destruct (passes l (ext_port A11) A22); [|done]. exfalso. destruct Hp as [(d & Hd & Hlet) _]; [done|].
    unfold observed_filtering, lets_in in *. destruct (nb_mapping N), (nb_filtering N); try done; naive_solver.
Qed.

Lemma change_port_passes l :
  net_ok -> contacted l ->
  passes l (ext_port A11) A12 = bool_decide (nb_filtering N <> FilteringAddressPortDependent).
Proof.
  intros Hok Hl. assert (Hf : nb_filtering N <> FilteringUnknown) by apply Hok. pose proof (passes_contacted l A12 Hok Hl) as Hp.
  assert (Hne : A11 <> A12 /\ A21 <> A12).
  { destruct Hok as (_ & _ & _ & _ & Hi' & Hp' & _). unfold A11, A21, A12.
    split_and!; [intros [= E]|intros [= E ?]]; congruence. }
  case_bool_decide as Ho.
  - apply Hp. exists A11. split; [by left|]. unfold lets_in. by destruct (nb_filtering N).
  - destruct (passes l (ext_port A11) A12); [|done]. exfalso. destruct Hp as [(d & Hd & Hlet) _]; [done|].
    unfold lets_in in *. destruct (nb_filtering N); naive_solver.
Qed.

Lemma filtering_test_nat st q :
  Z.of_nat (ns_tx st) + 1 < tx_limit -> compliant -> net_ok -> ns_inbox st = [] -> stale (ns_tx st) q -> contacted (ns_sessions st) ->
  fst (filtering_test A11 (mkWorld st q)) = Ok observed_filtering.
Proof.
  intros Hn Hc Hok Hin Hq Hs. assert (Hf : nb_filtering N <> FilteringUnknown) by apply Hok. unfold filtering_test, nbind, ntry.
  assert (Hadd : forall l, contacted l -> contacted (add_session (ext_port A11, A11) l)).
  { intros l Hl x d. rewrite elem_add_session, (Hl x d). naive_solver. }
  destruct (server_addr A11 ltac:(in_list)) as [Hi Hp].
  destruct changed_answers as [Ha6 Ha2].
  change (Z.lor changeIPFlag changePortFlag) with 6. change changePortFlag with 2.
  destruct (stunBindReq_nat A11 6 changeReqTimeout st q ltac:(lia) Hc Hok Hi Hp ltac:(in_list) Hin Hq) as (q' & Hq' & B6).
  rewrite Ha6, change_both_passes in B6 by auto.
  case_bool_decide as Ho; [by destruct B6 as (r & -> & _); rewrite Ho|].
  destruct B6 as (e & ->).
  match goal with |- context [stunBindReq A11 2 changeReqTimeout (mkWorld ?s q')] => set (st' := s) end.
  destruct (stunBindReq_nat A11 2 changeReqTimeout st' q' ltac:(simpl; lia) Hc Hok Hi Hp ltac:(in_list) eq_refl Hq') as (q2 & _ & B2).
  rewrite Ha2, change_port_passes in B2 by (try done; apply Hadd, Hadd, Hs).
  unfold observed_filtering in *.
  case_bool_decide as Ho2; [destruct B2 as (r & -> & _)|destruct B2 as (e2 & ->)]; simpl; f_equal;
    destruct (nb_mapping N), (nb_filtering N); try done; exfalso; by apply Ho2.
Qed.

Lemma isBogonIP_not_empty s : isBogonIP s = false -> s <> EmptyString.
Proof. by intros Hb ->. Qed.

(** The first request of a detection. *)
Lemma detect_start server w :
  Z.of_nat (ns_tx (w_env w)) < tx_limit -> compliant -> net_ok -> resolve server = A11 -> isBogonIP (v4_string (ss_ip2 V)) = false ->
  exists resp st q, ns_tx st = S (ns_tx (w_env w)) /\ ns_inbox st = [] /\ stale (ns_tx st) q /\ ns_sessions st = [(ext_port A11, A11)] /\
    fst (detectNATTypeRFC5780 server w) =
    fst ((let res1 := mkBind (v4_string (nb_public N)) (ext_port A11) resp in
          if open_internet (nb_local N) res1 then
            let* r := ntry (stunBindReq A11 (Z.lor changeIPFlag changePortFlag) changeReqTimeout) in
            nret (mkNATType MappingEndpointIndependent
              (if r is Ok _ then FilteringEndpointIndependent else FilteringAddressPortDependent)
              (mappedIP res1) (mappedPort res1))
          else
            let* mapping := mapping_test A11 (v4_string (ss_ip2 V)) (ss_port2 V) res1 in
            let* filtering := filtering_test A11 in
            nret (mkNATType mapping filtering (mappedIP res1) (mappedPort res1))) (mkWorld st q)).
Proof.
  intros Hn Hc Hok Hres Hb. unfold detectNATTypeRFC5780, ListenUDP, lift.
  unfold nwrap, nbind at 1 2 3. cbn [w_env net_Listen nat_net net_Resolve w_queue].
  rewrite Hres. destruct (plain_answered A11 stunReadTimeout (mkNatState (ns_tx (w_env w)) [] []) [])
    as (r1 & q1 & -> & Hq1 & Hg); [done|done..|in_list|done|constructor|]. cbn [msg]. rewrite Hg.
  destruct other_of_first as [-> ->]. rewrite IP_String_v4mapped by apply Hok.
  rewrite bool_decide_false by by apply isBogonIP_not_empty. rewrite Hb.
  eexists r1, _, q1. split; [|split; [|split; [|split]]]; [..|reflexivity]; [done..|].
  cbn [ns_sessions]. unfold add_session. rewrite decide_False by apply not_elem_of_nil. done.
Qed.

(** C13: Behind a NAT of any mapping and filtering behaviour that does not keep
    the local port, and with a server that has two addresses and two ports, the
    detection after RFC 5780, even when the network repeats datagrams, ends with
    the mapping of the NAT, the public
    address and port, and with the filtering of the NAT, except that a NAT with
    endpoint-independent mapping and address-dependent filtering is reported to
    filter nothing: the mapping test has already contacted the other address
    from the same socket, so its answer passes. *)
Theorem rfc5780_classifies server w :
  Z.of_nat (ns_tx (w_env w)) + 5 <= tx_limit -> compliant -> net_ok -> resolve server = A11 -> isBogonIP (v4_string (ss_ip2 V)) = false ->
  ua_Port (nb_local N) <> ext_port A11 ->
  fst (detectNATTypeRFC5780 server w) =
    Ok (mkNATType (nb_mapping N)
          (match nb_mapping N, nb_filtering N with
           | MappingEndpointIndependent, FilteringAddressDependent => FilteringEndpointIndependent
           | _, f => f
           end)
          (v4_string (nb_public N)) (ext_port A11)).
Proof.
  intros Hn Hc Hok Hres Hb Hl. destruct (detect_start server w ltac:(lia) Hc Hok Hres Hb) as (r1 & st & q & Htx & Hin & Hq & Hs & ->).
  cbv zeta. unfold open_internet. cbn [mappedPort mappedIP]. rewrite (proj2 (Z.eqb_neq _ _)), andb_false_r by done.
  destruct (mapping_test_nat st r1 q ltac:(lia) Hc Hok Hin Hq Hs) as (ss & n & q' & Hm & Hq' & Hcon & Hle).
  unfold nbind at 1. rewrite Hm. unfold nbind.
  pose proof (filtering_test_nat (mkNatState n ss []) q' ltac:(simpl; lia) Hc Hok eq_refl Hq' Hcon) as Hft.
  destruct (filtering_test _ _) as [[] w2]; simpl in Hft; [|done]. by injection Hft as ->.
Qed.

(** A socket that listens on all interfaces has the local address
    "0.0.0.0", so the test for an open internet compares ports only: behind a
    NAT that keeps the local port, whatever its mapping depends on, the
    detection makes no mapping test, reports an endpoint-independent mapping,
    and takes filtering by address for filtering by address and port. *)
Theorem port_preserving_nat_missed server w :
  Z.of_nat (ns_tx (w_env w)) + 2 <= tx_limit -> compliant -> net_ok -> resolve server = A11 -> isBogonIP (v4_string (ss_ip2 V)) = false ->
  IP_String (ua_IP (nb_local N)) = "0.0.0.0" -> ua_Port (nb_local N) = ext_port A11 ->
  fst (detectNATTypeRFC5780 server w) =
    Ok (mkNATType MappingEndpointIndependent
          (if decide (nb_filtering N = FilteringEndpointIndependent)
           then FilteringEndpointIndependent else FilteringAddressPortDependent)
          (v4_string (nb_public N)) (ext_port A11)).
Proof.
  intros Hn Hc Hok Hres Hb Hz Hp. destruct (detect_start server w ltac:(lia) Hc Hok Hres Hb) as (r1 & st & q & Htx & Hin & Hq & Hs & ->).
  cbv zeta. unfold open_internet. cbn [mappedPort mappedIP]. rewrite Hz, Hp, Z.eqb_refl, orb_true_r. cbn [andb].
  unfold nbind, ntry. change (Z.lor changeIPFlag changePortFlag) with 6.
  destruct (server_addr A11 ltac:(in_list)) as [Hi Hpt].
  destruct (stunBindReq_nat A11 6 changeReqTimeout st q ltac:(lia) Hc Hok Hi Hpt ltac:(in_list) Hin Hq) as (q' & _ & B).
  rewrite Hs in B. unfold add_session in B. rewrite decide_True in B by by left.
  rewrite (proj1 changed_answers) in B.
  assert (Hpass : passes [(ext_port A11, A11)] (ext_port A11) A22
    = bool_decide (nb_filtering N = FilteringEndpointIndependent)).
  { destruct Hok as (_ & _ & _ & _ & Hi' & Hp' & _ & _ & _ & _ & _ & Hf). unfold passes. cbn [existsb fst snd]. rewrite Z.eqb_refl, orb_false_r. cbn [andb].
    destruct (nb_filtering N); try done; apply bool_decide_eq_false;
      unfold A11, A22; simpl; [intros E%v4mapped_inj|intros [= E ?]]; congruence. }
  rewrite Hpass in B. case_bool_decide as Hf.
  - destruct B as (r & -> & _). unfold nret. cbn [fst]. by rewrite decide_True.
  - destruct B as (e & ->). unfold nret. cbn [fst]. by rewrite decide_False.
Qed.

(** An answer to the [n]-th transaction about the external port [x]. *)
Definition reply_to (n : nat) (d : UDPAddr) : bytes :=
  ss_respond V (txs n) (v4mapped (nb_public N), ext_port d) (other_ip (ua_IP d), other_port (ua_Port d)).

(** [DiscoverPublicAddrVia] takes the first datagram of the queue. *)
Lemma via_reads_head s d d0 n0 q st :
  compliant -> net_ok -> resolve s = d -> d ∈ [A11; A21] -> d0 ∈ [A11; A21] -> ns_inbox st = [] ->
  forall q', q ++ replicate copies (reply_to (ns_tx st) d) = reply_to n0 d0 :: q' ->
  exists ss, DiscoverPublicAddrVia s (mkWorld st q) =
    (Ok (v4_string (nb_public N), ext_port d0), mkWorld (mkNatState (S (ns_tx st)) ss []) q').
Proof.
  intros (Hinj & Hreq & Hresp) Hok Hs Hd Hd0 Hin q' Hq. unfold DiscoverPublicAddrVia, nwrap, lift, nbind, NewTxID, WriteToUDP.
  cbn [w_env w_queue net_Resolve net_NewTxID nat_net net_send]. rewrite Hs.
  destruct (server_addr d) as [Hi Hp]; [revert Hd; rewrite !elem_of_cons; tauto|].
  specialize (Hreq (ns_tx st) 0 ltac:(in_list)). change (change_attrs 0) with (@nil (Z * bytes)) in Hreq.
  rewrite (nat_send_eq (mkNatState _ _ _) _ _ _ _ Hreq Hi Hp Hin). cbv zeta. cbn [ns_sessions].
  replace (answer_from d 0) with d by by destruct d. rewrite passes_self.
  cbn [net_recv nat_net w_env ns_inbox w_queue ns_tx ns_sessions].
  fold (reply_to (ns_tx st) d). rewrite Hq.
  destruct (Hresp n0 (v4mapped (nb_public N), ext_port d0)
    (other_ip (ua_IP d0), other_port (ua_Port d0))) as (resp & Hdc & _ & Hx & _).
  { destruct Hok as (_ & _ & _ & ? & _ & _ & _ & _ & Ha & _). apply v4mapped_ok; [done|apply Ha]. }
  { by apply other_ok. }
  unfold reply_to. rewrite Hdc, Hx, IP_String_v4mapped by apply Hok. by eexists.
Qed.

(** The fallback compares the ports that two servers see.  When every
    answer arrives once it tells endpoint-independent mappings from the
    others.  When the answers are duplicated it takes the second copy of the
    first server's answer for the answer of the second, because the
    transaction of a response is not checked: every NAT, also a symmetric one,
    is then reported as endpoint-independent. *)
Theorem two_server_test s1 s2 w :
  compliant -> net_ok -> resolve s1 = A11 -> resolve s2 = A21 -> s1 <> s2 ->
  isPrivateIP (v4_string (nb_public N)) = false ->
  fst (detectNATTypeTwoServerFull s1 s2 w) =
    Ok (mkNATType
          (if decide (nb_mapping N = MappingEndpointIndependent \/ (2 <= copies)%nat)
           then MappingEndpointIndependent else MappingAddressPortDependent)
          FilteringUnknown (v4_string (nb_public N)) (ext_port A11)).
Proof.
  intros Hc Hok H1 H2' Hne Hpriv. unfold detectNATTypeTwoServerFull, ListenUDP, nwrap, nbind at 1 2.
  cbn [w_env net_Listen nat_net]. set (st := mkNatState _ _ _).
  assert (Hcop : copies = S (pred copies)) by (destruct Hok as [? _]; lia).
  destruct (via_reads_head s1 A11 A11 (ns_tx st) [] st Hc Hok H1 ltac:(in_list) ltac:(in_list) eq_refl
    (replicate (pred copies) (reply_to (ns_tx st) A11))) as [ss E1].
  { rewrite Hcop at 1. done. }
  cbn [two_servers length Nat.leb]. rewrite decide_False by apply not_elem_of_nil.
  unfold nbind at 1, ntry. rewrite E1. cbn [app two_servers length Nat.leb].
  rewrite decide_False by (rewrite elem_of_cons; intros [E|[]%not_elem_of_nil]; done).
  set (st2 := mkNatState (S (ns_tx st)) ss []).
  assert (H2p : forall d0 n0 q', d0 ∈ [A11; A21] ->
    replicate (pred copies) (reply_to (ns_tx st) A11) ++ replicate copies (reply_to (ns_tx st2) A21)
      = reply_to n0 d0 :: q' ->
    exists w2, DiscoverPublicAddrVia s2 (mkWorld st2 (replicate (pred copies) (reply_to (ns_tx st) A11)))
      = (Ok (v4_string (nb_public N), ext_port d0), w2)).
  { intros d0 n0 q' Hd0 Hq. destruct (via_reads_head s2 A21 d0 n0 _ st2 Hc Hok H2' ltac:(in_list) Hd0 eq_refl q' Hq)
      as [ss2 ->]. by eexists. }
  unfold nbind, ntry. destruct (decide (2 <= copies)%nat) as [Hdup|Hone].
  - destruct (H2p A11 (ns_tx st) (replicate (pred (pred copies)) (reply_to (ns_tx st) A11) ++
      replicate copies (reply_to (ns_tx st2) A21))) as [w2 ->]; [in_list| |].
    { destruct copies as [|[|c]]; [lia..|]. done. }
    simpl. unfold classify_two. rewrite Hpriv, bool_decide_true, Z.eqb_refl, decide_True by tauto. done.
  - destruct (H2p A21 (ns_tx st2) []) as [w2 ->]; [in_list| |].
    { destruct copies as [|[|c]]; [lia| |lia]. done. }
    simpl. unfold classify_two. rewrite Hpriv, bool_decide_true by done. cbn [negb].
    rewrite same_ports_bool by (done || in_list). unfold nret. do 2 f_equal.
    assert (Hu : nb_mapping N <> MappingUnknown) by apply Hok.
    assert (Hip : ua_IP A11 <> ua_IP A21).
    { destruct Hok as (_ & _ & _ & _ & Hi' & _). by intros E%v4mapped_inj. }
    case_bool_decide as Hk; rewrite key_eq in Hk; case_decide as Hd; simpl; f_equal;
      destruct (nb_mapping N); try done; try (exfalso; tauto); try (destruct Hd; [done|lia]);
      by rewrite Hk in Hip.
Qed.

End nat_model.

(** ** A codec and networks to run the definitions on *)

#[export] Instance toy_stun : StunCodec := {|
  TxID := bytes;
  StunMessage := bytes * (IP * Z) * (IP * Z);
  stun_Build tx attrs := tx ++ concat (map snd attrs);
  stun_Decode raw :=
    if decide (length raw = 48%nat)
    then Some (take 12 raw, (map b2z (slice 12 28 raw), be_get (slice 28 30 raw)),
               (map b2z (slice 30 46 raw), be_get (drop 46 raw)))
    else None;
  TransactionID m := m.1.1;
  XORMappedAddress_GetFrom m := Some m.1.2;
  MappedAddress_GetFromAs m attr := if decide (attr = AttrOtherAddress) then Some m.2 else None
|}.

Definition toy_txs (n : nat) : bytes := be_put 12 (Z.of_nat n mod 2 ^ 96).

Definition toy_respond (tx : bytes) (mapped other : IP * Z) : bytes :=
  tx ++ map z2b mapped.1 ++ be_put 2 mapped.2 ++ map z2b other.1 ++ be_put 2 other.2.

Definition toy_server : @stun_server toy_stun :=
  @mkServer toy_stun [18; 0; 0; 1] [18; 0; 0; 2] 3478 3479
    (fun raw => Some (take 12 raw, be_get (drop 12 raw))) toy_respond.

(** Ports from the last octet of the address and the last bit of the port. *)
Definition toy_alloc (k : option IP * option Z) : Z :=
  match k with
  | (Some ip, Some p) => (40000 + 4 * at_ ip 15 + 2 * (p mod 2)) mod 65536
  | (Some ip, None) => (40000 + 4 * at_ ip 15) mod 65536
  | _ => 40000
  end.

Definition toy_box (m : NATMapping) (f : NATFiltering) (lport : Z) : nat_box :=
  mkBox m f [198; 41; 0; 4] toy_alloc (mkUDPAddr [0; 0; 0; 0] lport).

Definition toy_resolve (s : string) : UDPAddr :=
  if decide (s = "other") then mkUDPAddr (v4mapped [18; 0; 0; 2]) 3478
  else mkUDPAddr (v4mapped [18; 0; 0; 1]) 3478.

Definition toy_world : world := mkWorld (mkNatState 0 [] []) [].

Lemma z2b_roundtrip l : Forall (fun b => 0 <= b < 256) l -> map b2z (map z2b l) = l.
Proof. induction 1 as [|b l Hb Hl IH]; [done|]. cbn [map]. by rewrite b2z_z2b_small, IH. Qed.

Lemma toy_decode n mapped other :
  addr_ok mapped -> addr_ok other ->
  stun_Decode (take stunBufSize (toy_respond (toy_txs n) mapped other)) = Some (toy_txs n, mapped, other).
Proof.
  intros (Hl & Hb & Hp) (Hl' & Hb' & Hp'). destruct mapped as [ip p], other as [ip' p']. cbn [fst snd] in *.
  assert (H48 : length (toy_respond (toy_txs n) (ip, p) (ip', p')) = 48%nat).
  { unfold toy_respond, toy_txs. cbn [fst snd]. rewrite !length_app, !length_map, !length_be_put, Hl, Hl'. done. }
  rewrite take_ge by (rewrite H48; unfold stunBufSize; lia).
  unfold stun_Decode, toy_stun. rewrite decide_True by done. unfold toy_respond. cbn [fst snd].
  unfold slice. change (28 - 12)%nat with 16%nat. change (30 - 28)%nat with 2%nat. change (46 - 30)%nat with 16%nat.
  assert (Hd12 : forall r, drop 12 (toy_txs n ++ r) = r) by (intros; by rewrite drop_app_length').
  assert (Hd28 : forall r, drop 28 (toy_txs n ++ map z2b ip ++ r) = r).
  { intros. change 28%nat with (12 + 16)%nat. rewrite <- drop_drop, Hd12. apply drop_app_length'. by rewrite length_map. }
  assert (Hd30 : forall r, drop 30 (toy_txs n ++ map z2b ip ++ be_put 2 p ++ r) = r).
  { intros. change 30%nat with (28 + 2)%nat. rewrite <- drop_drop, Hd28. apply drop_app_length'. by rewrite length_be_put. }
  assert (Hd46 : forall r, drop 46 (toy_txs n ++ map z2b ip ++ be_put 2 p ++ map z2b ip' ++ r) = r).
  { intros. change 46%nat with (30 + 16)%nat. rewrite <- drop_drop, Hd30. apply drop_app_length'. by rewrite length_map. }
  rewrite Hd12, Hd28, Hd30, Hd46.
  rewrite !take_app_length' by (rewrite ?length_map, ?length_be_put; done).
  by rewrite !z2b_roundtrip, !be_get_put_small by (simpl; lia || done).
Qed.

Lemma toy_compliant : compliant toy_server toy_txs.
Proof.
  split; [|split].
  - intros i j Hij Hj E. unfold toy_txs in E. apply (f_equal be_get) in E. unfold tx_limit in Hj.
    rewrite !Z.mod_small, !be_get_put_small in E by (simpl; lia). lia.
  - intros n flags Hf. cbn [ss_request toy_server stun_Build toy_stun].
    rewrite take_app_length', drop_app_length' by (symmetry; apply length_be_put).
    rewrite !elem_of_cons in Hf. by destruct Hf as [->|[->|[->|[]%not_elem_of_nil]]].
  - intros n mapped other Hm Ho. eexists. split; [exact (toy_decode n mapped other Hm Ho)|]. done.
Qed.

Lemma toy_net_ok m f lport copies :
  m <> MappingUnknown -> f <> FilteringUnknown -> (1 <= copies)%nat -> net_ok (toy_box m f lport) toy_server copies.
Proof.
  intros Hm Hf Hc. split_and!; try done; try (split; [done|repeat constructor; lia]).
  - intros [[ip|] [p|]]; simpl; try apply Z.mod_pos_bound; lia.
  - intros ip1 ip2 p1 p2. unfold ss_ips, ss_ports. rewrite !elem_of_cons, !elem_of_nil.
    intros [->|[->|[]]] [->|[->|[]]] [->|[->|[]]] [->|[->|[]]]; destruct m; vm_compute; try done; discriminate.
Qed.

Lemma rfc5780_classifies_witness :
  let N := toy_box MappingAddressDependent FilteringAddressDependent 5000 in
  fst (@detectNATTypeRFC5780 toy_stun nat_state (nat_net N toy_server toy_txs 2 toy_resolve) "stun" toy_world)
  = Ok (mkNATType MappingAddressDependent FilteringAddressDependent "198.41.0.4" 40004).
Proof.
  apply (rfc5780_classifies (toy_box MappingAddressDependent FilteringAddressDependent 5000) toy_server toy_txs 2
    toy_resolve "stun" toy_world).
  - unfold tx_limit. simpl. lia.
  - apply toy_compliant.
  - by apply toy_net_ok; [..|lia].
  - reflexivity.
  - vm_compute. reflexivity.
  - vm_compute. discriminate.
Defined.

Lemma port_preserving_nat_missed_witness :
  let N := toy_box MappingAddressPortDependent FilteringAddressDependent 40004 in
  fst (@detectNATTypeRFC5780 toy_stun nat_state (nat_net N toy_server toy_txs 1 toy_resolve) "stun" toy_world)
  = Ok (mkNATType MappingEndpointIndependent FilteringAddressPortDependent "198.41.0.4" 40004).
Proof.
  apply (port_preserving_nat_missed (toy_box MappingAddressPortDependent FilteringAddressDependent 40004)
    toy_server toy_txs 1 toy_resolve "stun" toy_world).
  - unfold tx_limit. simpl. lia.
  - apply toy_compliant.
  - by apply toy_net_ok; [..|lia].
  - reflexivity.
  - vm_compute. reflexivity.
  - vm_compute. reflexivity.
  - vm_compute. reflexivity.
Defined.

Lemma two_server_test_witness :
  let N := toy_box MappingAddressPortDependent FilteringAddressDependent 5000 in
  fst (@detectNATTypeTwoServerFull toy_stun nat_state (nat_net N toy_server toy_txs 2 toy_resolve) "stun" "other" toy_world)
  = Ok (mkNATType MappingEndpointIndependent FilteringUnknown "198.41.0.4" 40004).
Proof.
  apply (two_server_test (toy_box MappingAddressPortDependent FilteringAddressDependent 5000)
    toy_server toy_txs 2 toy_resolve "stun" "other" toy_world).
  - apply toy_compliant.
  - by apply toy_net_ok; [..|lia].
  - reflexivity.
  - reflexivity.
  - discriminate.
  - vm_compute. reflexivity.
Defined.
