(* ===== verification/PortMap.v ===== *)
(** * Port mapping

    [golib/nat]: a port of the router is opened with UPnP (upnp.go), and when
    that fails with NAT-PMP or PCP (pmp.go).

    The local network is the class [Lan]: UDP exchanges with a gateway, the
    SSDP search, device descriptions and the operations of an internet gateway
    device, which goupnp provides.  The program's own state is the list of
    active leases and the goroutines that renew them; the calls to gateways
    that succeeded are recorded, so that the theorems can speak of them. *)

From S2P Require Import Prelude IO GoStr Sdp Nat.
Import Sdp.

Open Scope Z_scope.

(** ** The local network *)

Record gw_conn := mkGwConn { gc_id : nat; gc_local : IP; gc_remote : UDPAddr }.

Class Lan (E : Type) := {
  Client : Type;                    (* a WANIPConnection or WANPPPConnection *)
  Root : Type;                      (* a device description *)
  (* the local address of a socket connected to 8.8.8.8:80 *)
  lan_LocalIP : Prog E IP;
  (* [DialUDP], [Write] and [Read] into a buffer of the given size *)
  lan_DialUDP : UDPAddr -> Prog E gw_conn;
  lan_Write : gw_conn -> bytes -> Prog E unit;
  lan_Read : gw_conn -> nat -> Prog E bytes;
  (* [DialTimeout("tcp", ...)], closed at once *)
  lan_TcpOpen : string -> Prog E unit;
  lan_HTTPUClient : string -> Prog E unit;
  (* the locations in the responses to a search with a time-out; [None] for a
     response without one *)
  lan_RawSearch : Z -> string -> Prog E (list (option string));
  lan_DeviceByURL : string -> Prog E Root;
  lan_WANIPConnection2 : Root -> string -> res goerr (list Client);
  lan_WANIPConnection1 : Root -> string -> res goerr (list Client);
  lan_WANPPPConnection1 : Root -> string -> res goerr (list Client);
  igd_GetExternalIPAddress : Client -> Prog E string;
  (* client, external port, protocol, internal port, internal client, lease *)
  igd_AddPortMapping : Client -> Z -> string -> Z -> string -> Z -> Prog E unit;
  igd_DeletePortMapping : Client -> Z -> string -> Prog E unit
}.

(** [getLocalIP] of util.go. *)
Definition getLocalIP `{Lan E} : Prog E string :=
  let* ip := nwrap "dial for local IP" lan_LocalIP in
  if IsLoopback ip || bool_decide (To4 ip = None) then nfail (EMsg "no local IP found" [])
  else nret (IP_String ip).

(** ** Gateways *)

Definition wellKnown : list string :=
  ["192.168.1.1"; "192.168.0.1"; "192.168.2.1"; "10.0.0.1"; "10.0.0.138"; "10.0.1.1"; "172.16.0.1"].

(** The loop that appends what was not seen. *)
Fixpoint append_unseen (gs : list string) (seen gateways : list string) : list string :=
  match gs with
  | [] => gateways
  | g :: gs =>
      if decide (g ∈ seen) then append_unseen gs seen gateways
      else append_unseen gs (g :: seen) (gateways ++ [g])
  end.

Definition deriveGatewayIPs (localIP : string) : list string :=
  match ParseIP localIP ≫= To4 with
  | None => ["192.168.1.1"; "192.168.0.1"; "10.0.0.1"]
  | Some ip =>
      let subnet := Join "." [itoa (at_ ip 0); itoa (at_ ip 1); itoa (at_ ip 2)] in
      let gateways := [String.append subnet ".1"; String.append subnet ".254"] in
      append_unseen wellKnown gateways gateways
  end.

(** ** NAT-PMP and PCP *)

Definition pmpPort : Z := 5351.
Definition pmpVersion : Z := 0.
Definition pmpOpcodeUDP : Z := 1.
Definition pmpOpcodeTCP : Z := 2.
Definition pmpDefaultLife : Z := 3600.
Definition pcpVersion : Z := 2.
Definition pcpOpcodeMAP : Z := 1.
Definition pcpProtoTCP : Z := 6.
Definition pcpProtoUDP : Z := 17.

Section pmp.
Context `{Lan E}.

Definition gw_addr (gatewayIP : string) : UDPAddr := mkUDPAddr (parse_or_nil gatewayIP) pmpPort.

(** The probe of one gateway; every error means the next one. *)
Definition probe_gateway (gw : string) : Prog E bool :=
  let* c := ntry (lan_DialUDP (gw_addr gw)) in
  match c with
  | Err _ => nret false
  | Ok conn =>
      let* _ := ntry (lan_Write conn (map z2b [pmpVersion; 0])) in
      let* r := ntry (lan_Read conn 12) in
      nret (if r is Ok d then (12 <=? length d)%nat else false)
  end.

Fixpoint first_gateway (gws : list string) (dflt : string) : Prog E string :=
  match gws with
  | [] => nret dflt
  | gw :: gws => let* ok := probe_gateway gw in if ok then nret gw else first_gateway gws dflt
  end.

Definition discoverGatewayForPMP : Prog E string :=
  let* localIP := getLocalIP in
  match deriveGatewayIPs localIP with
  | [] => nfail (EMsg "no gateway candidates" [])
  | g :: gs => first_gateway (g :: gs) g
  end.

Definition pmpGetExternalAddress (conn : gw_conn) : Prog E string :=
  let* _ := lan_Write conn (map z2b [pmpVersion; 0]) in
  let* buf := lan_Read conn 12 in
  if (length buf <? 12)%nat then nfail (EMsg "response too short: %d bytes" [Z.of_nat (length buf)])
  else
    let resultCode := be_get (slice 2 4 buf) in
    if negb (resultCode =? 0) then nfail (EMsg "result code %d" [resultCode])
    else nret (IP_String (map b2z (slice 8 12 buf))).

Definition pmp_request (opcode internalPort externalPort lifetime : Z) : bytes :=
  let req := replicate 12 x00 in
  let req := <[0%nat := z2b pmpVersion]> req in
  let req := <[1%nat := z2b opcode]> req in
  let req := splice 4 (be_put 2 internalPort) req in
  let req := splice 6 (be_put 2 externalPort) req in
  splice 8 (be_put 4 lifetime) req.

Definition pmpRequestMapping (conn : gw_conn) (opcode internalPort externalPort lifetime : Z) : Prog E (Z * Z) :=
  let* _ := lan_Write conn (pmp_request opcode internalPort externalPort lifetime) in
  let* buf := lan_Read conn 16 in
  if (length buf <? 16)%nat then nfail (EMsg "response too short: %d bytes" [Z.of_nat (length buf)])
  else
    let resultCode := be_get (slice 2 4 buf) in
    if negb (resultCode =? 0) then nfail (EMsg "result code %d" [resultCode])
    else nret (be_get (slice 10 12 buf), be_get (slice 12 16 buf)).

Definition pmp_opcode (protocol : string) : Z :=
  if decide (protocol = "UDP") then pmpOpcodeUDP
  else if decide (protocol = "TCP") then pmpOpcodeTCP
  else pmpOpcodeTCP.

Definition tryNATPMP (internalPort externalPort : Z) (protocol : string) (lifetime : Z) : Prog E (string * Z) :=
  let* gatewayIP := nwrap "discover gateway" discoverGatewayForPMP in
  let* conn := nwrap "dial gateway" (lan_DialUDP (gw_addr gatewayIP)) in
  let* extIP := nwrap "get external address" (pmpGetExternalAddress conn) in
  let opcode := pmp_opcode protocol in
  let lifetime := if lifetime <=? 0 then pmpDefaultLife else lifetime in
  let* m := nwrap "request mapping"
    (pmpRequestMapping conn opcode (u16 internalPort) (u16 externalPort) (u32 lifetime)) in
  nret (extIP, m.1).

Definition pcp_nonce : bytes := map z2b [110; 97; 116; 112; 114; 111; 120; 121; 45; 112; 99; 112].

Definition pcp_request (localIP : IP) (proto internalPort externalPort lifetime : Z) : bytes :=
  let req := replicate 60 x00 in
  let req := <[0%nat := z2b pcpVersion]> req in
  let req := <[1%nat := z2b pcpOpcodeMAP]> req in
  let req := splice 4 (be_put 4 lifetime) req in
  let req := match To4 localIP with
             | Some clientIP =>
                 splice 20 (map z2b clientIP) (<[19%nat := z2b 255]> (<[18%nat := z2b 255]> req))
             | None => req
             end in
  let req := splice 24 pcp_nonce req in
  let req := <[36%nat := z2b proto]> req in
  let req := splice 40 (be_put 2 internalPort) req in
  splice 42 (be_put 2 externalPort) req.

(** The external address in a response: sixteen bytes, or the last four of
    them. *)
Definition pcp_external (buf : bytes) : IP :=
  let extIP := map b2z (slice 44 60 buf) in
  if (at_ extIP 10 =? 255) && (at_ extIP 11 =? 255) then drop 12 extIP else extIP.

Definition tryPCP (internalPort externalPort : Z) (protocol : string) (lifetime : Z) : Prog E (string * Z) :=
  let* gatewayIP := nwrap "discover gateway" discoverGatewayForPMP in
  let* conn := nwrap "dial gateway" (lan_DialUDP (gw_addr gatewayIP)) in
  let proto := if decide (protocol = "UDP") then pcpProtoUDP else pcpProtoTCP in
  let lifetime := if lifetime <=? 0 then pmpDefaultLife else lifetime in
  let* _ := lan_Write conn
    (pcp_request (gc_local conn) proto (u16 internalPort) (u16 externalPort) (u32 lifetime)) in
  let* buf := lan_Read conn 60 in
  if (length buf <? 60)%nat then nfail (EMsg "PCP response too short: %d bytes" [Z.of_nat (length buf)])
  else if Z.land (b2z (nth 1 buf x00)) 128 =? 0 then nfail (EMsg "not a PCP response" [])
  else if negb (b2z (nth 3 buf x00) =? 0) then nfail (EMsg "PCP result code %d" [b2z (nth 3 buf x00)])
  else nret (IP_String (pcp_external buf), be_get (slice 42 44 buf)).

End pmp.

(** ** UPnP *)

Definition upnpMappingRetries : Z := 3.
Definition upnpLeaseDuration : Z := 3600.
Definition ssdpSearchTimeout : Z := 3000.

Record UPnPOptions := mkUPnPOptions { LeaseDuration : Z; MappingRetries : Z; SSDPTimeout : Z }.

Section upnp.
Context `{Lan E} `{Rand R}.

Record upnpLease := mkLease { lease_port : Z; lease_protocol : string; lease_client : Client; stopCh : nat }.

(** A goroutine that runs [renewLease]. *)
Record renewer := mkRenewer {
  rn_lease : upnpLease; rn_internalPort : Z; rn_localIP : string; rn_duration : Z }.

Inductive igd_call :=
  | Added (c : Client) (externalPort : Z) (protocol : string) (internalPort : Z) (internalClient : string) (lease : Z)
  | Deleted (c : Client) (externalPort : Z) (protocol : string).

Record pm_world := mkPm {
  pm_env : E;
  pm_rand : R;
  activeLeases : list upnpLease;
  renewers : list renewer;
  closedCh : list nat;             (* the stop channels that are closed *)
  nextCh : nat;                    (* the next channel that [make] returns *)
  pm_calls : list igd_call         (* the calls that succeeded, in order *)
}.

Definition in_env {A} (m : Prog E A) : Prog pm_world A :=
  fun w => let '(r, e) := m (pm_env w) in
           (r, mkPm e (pm_rand w) (activeLeases w) (renewers w) (closedCh w) (nextCh w) (pm_calls w)).

Definition record_call (c : igd_call) : Prog pm_world unit :=
  fun w => (Ok tt, mkPm (pm_env w) (pm_rand w) (activeLeases w) (renewers w) (closedCh w) (nextCh w)
                     (pm_calls w ++ [c])).

Definition AddPortMapping (c : Client) (externalPort : Z) (protocol : string) (internalPort : Z)
    (internalClient : string) (lease : Z) : Prog pm_world unit :=
  let* _ := in_env (igd_AddPortMapping c externalPort protocol internalPort internalClient lease) in
  record_call (Added c externalPort protocol internalPort internalClient lease).

Definition DeletePortMapping (c : Client) (externalPort : Z) (protocol : string) : Prog pm_world unit :=
  let* _ := in_env (igd_DeletePortMapping c externalPort protocol) in
  record_call (Deleted c externalPort protocol).

Definition draw_port : Prog pm_world Z :=
  fun w => let '(p, r) := randomPort (pm_rand w) in
           (Ok p, mkPm (pm_env w) r (activeLeases w) (renewers w) (closedCh w) (nextCh w) (pm_calls w)).

(** The lease is recorded and its renewal started. *)
Definition start_lease (port : Z) (protocol : string) (c : Client) (internalPort : Z) (localIP : string) (duration : Z)
    : Prog pm_world unit :=
  fun w =>
    let lease := mkLease port protocol c (nextCh w) in
    (Ok tt, mkPm (pm_env w) (pm_rand w) (activeLeases w ++ [lease])
              (renewers w ++ [mkRenewer lease internalPort localIP duration])
              (closedCh w) (S (nextCh w)) (pm_calls w)).

Section mapping.
Variables (internalPort externalPort : Z) (protocol localIP : string) (duration : Z).

(** The attempts with one client: the port that was mapped, or the error of
    the last attempt. *)
Fixpoint map_attempts (n attempt : nat) (c : Client) (lastErr : goerr) : Prog pm_world (Z + goerr) :=
  match n with
  | O => nret (inr lastErr)
  | S n =>
      let* port := (if decide (attempt = O) then nret externalPort else draw_port) in
      let* r := ntry (AddPortMapping c (u16 port) protocol (u16 internalPort) localIP (u32 duration)) in
      match r with
      | Ok _ =>
          let* _ := start_lease port protocol c internalPort localIP (u32 duration) in
          nret (inl port)
      | Err e =>
          if decide (attempt = O) then
            let* r := ntry (AddPortMapping c (u16 port) protocol (u16 internalPort) localIP 0) in
            match r with
            | Ok _ =>
                let* _ := start_lease port protocol c internalPort localIP 0 in
                nret (inl port)
            | Err e => map_attempts n (S attempt) c e
            end
          else map_attempts n (S attempt) c e
      end
  end.

Fixpoint try_clients (retries : nat) (clients : list Client) (lastErr : goerr) : Prog pm_world (string * Z) :=
  match clients with
  | [] => nfail (EWrap "UPnP port mapping failed" lastErr)
  | c :: clients =>
      let* r := ntry (in_env (igd_GetExternalIPAddress c)) in
      match r with
      | Err e => try_clients retries clients e
      | Ok externalIP =>
          if isPrivateIP externalIP then
            try_clients retries clients (EMsg "double NAT detected: external IP is private" [])
          else
            let* m := map_attempts retries 0 c lastErr in
            match m with
            | inl port => nret (externalIP, port)
            | inr e => try_clients retries clients e
            end
      end
  end.

End mapping.

(** *** Discovery *)

Definition searchTargets : list string :=
  ["urn:schemas-upnp-org:service:WANIPConnection:2"; "urn:schemas-upnp-org:service:WANIPConnection:1";
   "urn:schemas-upnp-org:service:WANPPPConnection:1"; "urn:schemas-upnp-org:device:InternetGatewayDevice:1";
   "urn:schemas-upnp-org:device:InternetGatewayDevice:2"; "ssdp:all"].

(** The locations that were not seen before are appended. *)
Fixpoint new_locations (responses : list (option string)) (locations : list string) : list string :=
  match responses with
  | [] => locations
  | None :: responses => new_locations responses locations
  | Some loc :: responses =>
      if decide (loc ∈ locations) then new_locations responses locations
      else new_locations responses (locations ++ [loc])
  end.

Fixpoint search_all (ssdpTimeout : Z) (targets : list string) (locations : list string) : Prog E (list string) :=
  match targets with
  | [] => nret locations
  | target :: targets =>
      let* r := ntry (lan_RawSearch ssdpTimeout target) in
      match r with
      | Err _ => search_all ssdpTimeout targets locations
      | Ok responses => search_all ssdpTimeout targets (new_locations responses locations)
      end
  end.

Definition or_none (r : res goerr (list Client)) : list Client := match r with Ok l => l | Err _ => [] end.

Fixpoint clientsFromLocations (locations : list string) (allClients : list Client) : Prog E (list Client) :=
  match locations with
  | [] => nret allClients
  | loc :: locations =>
      let* root := ntry (lan_DeviceByURL loc) in
      match root with
      | Err _ => clientsFromLocations locations allClients
      | Ok root =>
          clientsFromLocations locations
            (allClients ++ or_none (lan_WANIPConnection2 root loc) ++ or_none (lan_WANIPConnection1 root loc)
               ++ or_none (lan_WANPPPConnection1 root loc))
      end
  end.

Definition discoverViaSSDP (ssdpTimeout : Z) : Prog E (list Client) :=
  let* localIP := nwrap "get local IP" getLocalIP in
  let* _ := nwrap "create HTTPU client" (lan_HTTPUClient localIP) in
  let* locations := search_all ssdpTimeout searchTargets [] in
  clientsFromLocations locations [].

Definition descPaths : list string :=
  ["/rootDesc.xml"; "/description.xml"; "/upnp/IGD.xml"; "/igd.xml"; "/IGatewayDeviceDescDoc";
   "/gatedesc.xml"; "/DeviceDescription.xml"].
Definition descPorts : list Z := [49152; 5000; 49153; 1900; 2869; 5431; 49000; 8080; 80].

Definition host_port (gw : string) (port : Z) : string := String.append gw (String.append ":" (itoa port)).

(** The scan for open ports, in the order of gateways and ports. *)
Fixpoint scan (candidates : list (string * Z)) (openTargets : list (string * Z)) : Prog E (list (string * Z)) :=
  match candidates with
  | [] => nret openTargets
  | (gw, port) :: candidates =>
      let* r := ntry (lan_TcpOpen (host_port gw port)) in
      scan candidates (if r is Ok _ then openTargets ++ [(gw, port)] else openTargets)
  end.

(** The first path that has a device description. *)
Fixpoint first_description (target : string * Z) (paths : list string) : Prog E (option string) :=
  match paths with
  | [] => nret None
  | path :: paths =>
      let descURL := String.append "http://" (String.append (host_port target.1 target.2) path) in
      let* r := ntry (lan_DeviceByURL descURL) in
      if r is Ok _ then nret (Some descURL) else first_description target paths
  end.

Fixpoint describe_all (targets : list (string * Z)) (locations : list string) : Prog E (list string) :=
  match targets with
  | [] => nret locations
  | t :: targets =>
      let* l := first_description t descPaths in
      describe_all targets (match l with Some loc => locations ++ [loc] | None => locations end)
  end.

Definition discoverBruteForce : Prog E (list Client) :=
  let* localIP := nwrap "get local IP" getLocalIP in
  let gatewayIPs := deriveGatewayIPs localIP in
  let* openTargets := scan (list_prod gatewayIPs descPorts) [] in
  if decide (openTargets = []) then nfail (EMsg "no open UPnP ports found on candidate gateways" [])
  else
    let* locations := describe_all openTargets [] in
    clientsFromLocations locations [].

Definition discoverUPnPClients (ssdpTimeout : Z) : Prog E (list Client) :=
  let* r := ntry (discoverViaSSDP ssdpTimeout) in
  match r with
  | Ok (c :: cs) => nret (c :: cs)
  | _ =>
      let* r := ntry discoverBruteForce in
      match r with
      | Ok (c :: cs) => nret (c :: cs)
      | _ => nfail (EMsg "no UPnP devices found via SSDP or brute-force" [])
      end
  end.

(** *** The public operations *)

Definition upnp_defaults (opts : UPnPOptions) : UPnPOptions :=
  mkUPnPOptions (if LeaseDuration opts <? 0 then upnpLeaseDuration else LeaseDuration opts)
    (if MappingRetries opts <=? 0 then upnpMappingRetries else MappingRetries opts)
    (if SSDPTimeout opts <=? 0 then ssdpSearchTimeout else SSDPTimeout opts).

Definition TryUPnP (internalPort externalPort : Z) (protocol : string) (opts : UPnPOptions)
    : Prog pm_world (string * Z) :=
  let opts := upnp_defaults opts in
  let* clients := nwrap "UPnP discovery failed" (in_env (discoverUPnPClients (SSDPTimeout opts))) in
  if decide (length clients = O) then nfail (EMsg "no UPnP IGD devices found" [])
  else
    let* localIP := nwrap "get local IP" (in_env getLocalIP) in
    try_clients internalPort externalPort protocol localIP (LeaseDuration opts)
      (Z.to_nat (MappingRetries opts)) clients (EMsg "" []).

Fixpoint find_lease (externalPort : Z) (protocol : string) (leases : list upnpLease)
    : option (upnpLease * list upnpLease) :=
  match leases with
  | [] => None
  | l :: leases =>
      if (lease_port l =? externalPort) && bool_decide (lease_protocol l = protocol) then Some (l, leases)
      else match find_lease externalPort protocol leases with
           | Some (x, rest) => Some (x, l :: rest)
           | None => None
           end
  end.

(** The error of [DeletePortMapping] is ignored. *)
Definition RemoveUPnPMapping (externalPort : Z) (protocol : string) : Prog pm_world unit :=
  fun w =>
    match find_lease externalPort protocol (activeLeases w) with
    | None => (Ok tt, w)
    | Some (lease, rest) =>
        let w := mkPm (pm_env w) (pm_rand w) (activeLeases w) (renewers w) (stopCh lease :: closedCh w)
                   (nextCh w) (pm_calls w) in
        let '(_, w) := DeletePortMapping (lease_client lease) (u16 externalPort) protocol w in
        (Ok tt, mkPm (pm_env w) (pm_rand w) rest (renewers w) (closedCh w) (nextCh w) (pm_calls w))
    end.

Definition TryPortMapping (internalPort externalPort : Z) (protocol : string) (opts : UPnPOptions) (pmpLifetime : Z)
    : Prog pm_world (string * Z * string) :=
  let* r := ntry (TryUPnP internalPort externalPort protocol opts) in
  match r with
  | Ok (extIP, extPort) => nret (extIP, extPort, "upnp")
  | Err _ =>
      let lifetime := if pmpLifetime <=? 0 then 3600 else pmpLifetime in
      let* r := ntry (in_env (tryNATPMP internalPort externalPort protocol lifetime)) in
      match r with
      | Ok (extIP, extPort) => nret (extIP, extPort, "natpmp")
      | Err _ =>
          let* r := ntry (in_env (tryPCP internalPort externalPort protocol lifetime)) in
          match r with
          | Ok (extIP, extPort) => nret (extIP, extPort, "pcp")
          | Err _ => nfail (EMsg "all port mapping methods failed (UPnP, NAT-PMP, PCP)" [])
          end
      end
  end.

(** *** Interleaving

    What the program can do: an operation under the lock, or a renewing
    goroutine that leaves its [select].  When its ticker has fired it may
    renew although the stop channel is closed: [select] chooses among the
    ready cases at random. *)
Inductive pm_step : pm_world -> pm_world -> Prop :=
  | step_map w i x p o l : pm_step w (snd (TryPortMapping i x p o l w))
  | step_remove w x p : pm_step w (snd (RemoveUPnPMapping x p w))
  | step_renew w r : r ∈ renewers w ->
      pm_step w (snd (AddPortMapping (lease_client (rn_lease r)) (u16 (lease_port (rn_lease r)))
        (lease_protocol (rn_lease r)) (u16 (rn_internalPort r)) (rn_localIP r) (rn_duration r) w))
  | step_stop w r rs rs' : renewers w = rs ++ r :: rs' -> stopCh (rn_lease r) ∈ closedCh w ->
      pm_step w (mkPm (pm_env w) (pm_rand w) (activeLeases w) (rs ++ rs') (closedCh w) (nextCh w) (pm_calls w)).

End upnp.

(** ** The book of leases *)

Section book.
Context `{Lan E} `{Rand R}.

#[local] Abbreviation W := (pm_world (E:=E) (R:=R)).

(** Nothing that concerns mappings has changed. *)
Definition same_book (w w' : W) : Prop :=
  activeLeases w' = activeLeases w /\ renewers w' = renewers w /\ closedCh w' = closedCh w /\
  nextCh w' = nextCh w /\ pm_calls w' = pm_calls w.

(** One mapping was added, recorded as a lease and given a renewer. *)
Definition booked (w w' : W) (c : Client) (port : Z) (protocol : string) (internalPort : Z) (localIP : string)
    (duration : Z) : Prop :=
  let lease := mkLease port protocol c (nextCh w) in
  activeLeases w' = activeLeases w ++ [lease] /\
  renewers w' = renewers w ++ [mkRenewer lease internalPort localIP duration] /\
  closedCh w' = closedCh w /\ nextCh w' = S (nextCh w) /\
  pm_calls w' = pm_calls w ++ [Added c (u16 port) protocol (u16 internalPort) localIP duration].

#[export] Instance same_book_preorder : PreOrder same_book.
Proof. split; [by repeat split|]. unfold same_book. intros ??? (?&?&?&?&?) (?&?&?&?&?). split_and!; congruence. Qed.

Lemma same_book_booked w w1 w2 c p pr i ip d : same_book w w1 -> booked w1 w2 c p pr i ip d -> booked w w2 c p pr i ip d.
Proof.
  unfold same_book, booked. intros (E1 & E2 & E3 & E4 & E5) (F1 & F2 & F3 & F4 & F5).
  rewrite E1, E4 in F1. rewrite E2, E4 in F2. rewrite E3 in F3. rewrite E4 in F4. rewrite E5 in F5. done.
Qed.

Lemma in_env_book {A} (m : Prog E A) (w : W) : same_book w (snd (in_env m w)).
Proof. unfold in_env. by destruct (m (pm_env w)). Qed.

Lemma draw_port_book (w : W) : exists p, fst (draw_port w) = Ok p /\ same_book w (snd (draw_port w)).
Proof. unfold draw_port. destruct (randomPort _) as [p r]. by exists p. Qed.

Lemma AddPortMapping_book c x pr i ip d (w : W) :
  match AddPortMapping c x pr i ip d w with
  | (Ok _, w') => exists w1, same_book w w1 /\ w' = snd (record_call (Added c x pr i ip d) w1)
  | (Err _, w') => same_book w w'
  end.
Proof.
  unfold AddPortMapping, nbind. pose proof (in_env_book (igd_AddPortMapping c x pr i ip d) w) as Hb.
  destruct (in_env _ _) as [[[]|e] w1]; [by exists w1|done].
Qed.

(** What an attempt that succeeds leaves behind. *)
Lemma add_and_start c port pr i ip d (w w1 : W) :
  same_book w w1 ->
  booked w (snd (start_lease port pr c i ip d (snd (record_call (Added c (u16 port) pr (u16 i) ip d) w1))))
    c port pr i ip d.
Proof. intros Hb. apply (same_book_booked _ _ _ _ _ _ _ _ _ Hb). by repeat split. Qed.

Section mapping_proofs.
Variables (internalPort externalPort : Z) (protocol localIP : string) (duration : Z).

Lemma map_attempts_book n k c err (w : W) :
  match map_attempts internalPort externalPort protocol localIP duration n k c err w with
  | (Ok (inl port), w') => exists d, d ∈ [u32 duration; 0] /\ booked w w' c port protocol internalPort localIP d
  | (Ok (inr _), w') => same_book w w'
  | (Err _, _) => False
  end.
Proof.
  revert k err w. induction n as [|n IH]; intros k err w; cbn [map_attempts]; [done|].
  unfold nbind at 1.
  assert (Hport : exists port w1, (if decide (k = O) then nret externalPort else draw_port) w = (Ok port, w1)
    /\ same_book w w1).
  { case_decide; [by exists externalPort, w|]. destruct (draw_port_book w) as (p & Hp & Hb).
    destruct (draw_port w) as [r w1]. simpl in Hp. subst r. by exists p, w1. }
  destruct Hport as (port & w1 & -> & Hb1). unfold nbind at 1, ntry.
  pose proof (AddPortMapping_book c (u16 port) protocol (u16 internalPort) localIP (u32 duration) w1) as Ha.
  destruct (AddPortMapping _ _ _ _ _ _ w1) as [[u|e] w2].
  - destruct Ha as (w' & Hw' & ->). cbn. exists (u32 duration). split; [left|].
    apply (same_book_booked _ _ _ _ _ _ _ _ _ Hb1). by apply add_and_start.
  - assert (Hb2 : same_book w w2) by by transitivity w1.
    assert (Hnext : forall e (w3 : W), same_book w w3 ->
      match map_attempts internalPort externalPort protocol localIP duration n (S k) c e w3 with
      | (Ok (inl port), w') => exists d, d ∈ [u32 duration; 0] /\ booked w w' c port protocol internalPort localIP d
      | (Ok (inr _), w') => same_book w w'
      | (Err _, _) => False
      end).
    { intros e' w3 Hw3. specialize (IH (S k) e' w3). destruct (map_attempts _ _ _ _ _ _ _ _ _ w3) as [[[p|e'']|] w4]; [| |done].
      - destruct IH as (d & Hd & Hbk). exists d. split; [done|]. by eapply same_book_booked.
      - by transitivity w3. }
    case_decide; [|by apply Hnext].
    unfold nbind, ntry.
    pose proof (AddPortMapping_book c (u16 port) protocol (u16 internalPort) localIP 0 w2) as Ha0.
    destruct (AddPortMapping _ _ _ _ _ 0 w2) as [[u|e0] w3].
    + destruct Ha0 as (w' & Hw' & ->). cbn. exists 0. split; [right; left|].
      apply (same_book_booked _ _ _ _ _ _ _ _ _ Hb2). by apply add_and_start.
    + apply Hnext. by transitivity w2.
Qed.

Lemma try_clients_book retries cs err (w : W) :
  match try_clients internalPort externalPort protocol localIP duration retries cs err w with
  | (Ok (ip, port), w') => isPrivateIP ip = false /\
      exists c d, c ∈ cs /\ d ∈ [u32 duration; 0] /\ booked w w' c port protocol internalPort localIP d
  | (Err _, w') => same_book w w'
  end.
Proof.
  revert err w. induction cs as [|c cs IH]; intros err w; cbn [try_clients]; [done|].
  assert (Hnext : forall e (w1 : W), same_book w w1 ->
    match try_clients internalPort externalPort protocol localIP duration retries cs e w1 with
    | (Ok (ip, port), w') => isPrivateIP ip = false /\
        exists c' d, c' ∈ c :: cs /\ d ∈ [u32 duration; 0] /\ booked w w' c' port protocol internalPort localIP d
    | (Err _, w') => same_book w w'
    end).
  { intros e w1 Hw1. specialize (IH e w1). destruct (try_clients _ _ _ _ _ _ _ _ w1) as [[[ip p]|e'] w2].
    - destruct IH as (Hip & c' & d & Hc & Hd & Hbk). split; [done|]. exists c', d.
      split; [by right|]. split; [done|]. by eapply same_book_booked.
    - by transitivity w1. }
  unfold nbind at 1, ntry. pose proof (in_env_book (igd_GetExternalIPAddress c) w) as Hb.
  destruct (in_env _ w) as [[ip|e] w1]; simpl in Hb; [|by apply Hnext].
  destruct (isPrivateIP ip) eqn:Hp; [by apply Hnext|].
  unfold nbind. pose proof (map_attempts_book retries 0 c err w1) as Hm.
  destruct (map_attempts _ _ _ _ _ _ _ _ _ w1) as [[[port|e]|] w2]; [| |done].
  - destruct Hm as (d & Hd & Hbk). split; [done|]. exists c, d. split; [left|]. split; [done|]. by eapply same_book_booked.
  - apply Hnext. by transitivity w1.
Qed.

End mapping_proofs.

Lemma TryUPnP_book internalPort externalPort protocol opts (w : W) :
  match TryUPnP internalPort externalPort protocol opts w with
  | (Ok (ip, port), w') => isPrivateIP ip = false /\
      exists c localIP d, d ∈ [u32 (LeaseDuration (upnp_defaults opts)); 0] /\
        booked w w' c port protocol internalPort localIP d
  | (Err _, w') => same_book w w'
  end.
Proof.
  unfold TryUPnP, nbind at 1, nwrap at 1.
  pose proof (in_env_book (discoverUPnPClients (SSDPTimeout (upnp_defaults opts))) w) as Hb.
  destruct (in_env _ w) as [[cs|e] w1]; simpl in Hb; [|done]. case_decide; [done|].
  unfold nbind, nwrap. pose proof (in_env_book getLocalIP w1) as Hb1.
  destruct (in_env _ w1) as [[ip|e] w2]; simpl in Hb1; [|by transitivity w1].
  assert (Hb2 : same_book w w2) by by transitivity w1.
  pose proof (try_clients_book internalPort externalPort protocol ip (LeaseDuration (upnp_defaults opts))
    (Z.to_nat (MappingRetries (upnp_defaults opts))) cs (EMsg "" []) w2) as Ht.
  destruct (try_clients _ _ _ _ _ _ _ _ w2) as [[[xip p]|e] w3].
  - destruct Ht as (Hp & c & d & _ & Hd & Hbk). split; [done|]. exists c, ip, d. split; [done|]. by eapply same_book_booked.
  - by transitivity w2.
Qed.

(** Every mapping that UPnP opens is accounted for.  When the call reports
    UPnP as its method, exactly one mapping was added on a gateway, for the
    port that is reported, the caller's internal port and either the requested
    lease or an unlimited one; one lease was recorded for it and one renewer
    started, and the external address is not private.  On every other outcome,
    failed attempts included, no mapping, lease or renewer is left; mappings
    made with NAT-PMP or PCP are therefore never renewed nor removed. *)
Theorem port_mapping_accounted internalPort externalPort protocol opts lifetime (w : W) :
  let '(r, w') := TryPortMapping internalPort externalPort protocol opts lifetime w in
  match r with
  | Ok (ip, port, method) =>
      if decide (method = "upnp")
      then isPrivateIP ip = false /\
        exists c localIP d, d ∈ [u32 (LeaseDuration (upnp_defaults opts)); 0] /\
          booked w w' c port protocol internalPort localIP d
      else (method = "natpmp" \/ method = "pcp") /\ same_book w w'
  | Err _ => same_book w w'
  end.
Proof.
  unfold TryPortMapping, nret, nbind at 1, ntry at 1.
  pose proof (TryUPnP_book internalPort externalPort protocol opts w) as Hu.
  destruct (TryUPnP _ _ _ _ w) as [[[ip port]|e] w1]; [by rewrite decide_True|].
  unfold nbind at 1, ntry at 1.
  match goal with |- context [in_env ?m w1] => pose proof (in_env_book m w1) as Hb1; destruct (in_env m w1) as [[[ip port]|e1] w2] end;
    simpl in Hb1.
  - rewrite decide_False by done. split; [by left|]. by transitivity w1.
  - unfold nbind, ntry.
    match goal with |- context [in_env ?m w2] => pose proof (in_env_book m w2) as Hb2; destruct (in_env m w2) as [[[ip port]|e2] w3] end;
      simpl in Hb2; assert (same_book w w3) by (transitivity w1; [done|by transitivity w2]); [|done].
    rewrite decide_False by done. split; [by right|done].
Qed.

(** *** Leases and their renewers *)

(** Every lease has its own channel, open, and a renewer; every renewer
    belongs to a lease or has been told to stop. *)
Record leases_ok (w : W) : Prop := {
  lo_fresh : Forall (fun r => (stopCh (rn_lease r) < nextCh w)%nat) (renewers w);
  lo_nodup : NoDup (map stopCh (activeLeases w));
  lo_renewed : forall l, l ∈ activeLeases w -> l ∈ map rn_lease (renewers w);
  lo_open : forall l, l ∈ activeLeases w -> stopCh l ∉ closedCh w;
  lo_owned : forall r, r ∈ renewers w -> rn_lease r ∈ activeLeases w \/ stopCh (rn_lease r) ∈ closedCh w;
  lo_closed : forall c, c ∈ closedCh w -> (c < nextCh w)%nat
}.

Lemma leases_ok_same w w' : same_book w w' -> leases_ok w -> leases_ok w'.
Proof. intros (E1 & E2 & E3 & E4 & _) []. by split; rewrite ?E1, ?E2, ?E3, ?E4. Qed.

Lemma leases_ok_booked w w' c p pr i ip d : booked w w' c p pr i ip d -> leases_ok w -> leases_ok w'.
Proof.
  intros (E1 & E2 & E3 & E4 & _) [Hf Hn Hr Ho Hw Hc]. rewrite Forall_forall in Hf.
  assert (Hlt : forall l, l ∈ activeLeases w -> (stopCh l < nextCh w)%nat).
  { intros l Hl. apply Hr in Hl. apply list_elem_of_fmap in Hl as (r & -> & Hr'). by apply Hf. }
  split; rewrite ?E1, ?E2, ?E3, ?E4.
  - apply Forall_app. split; [apply Forall_forall; intros r Hr'%Hf; lia|]. repeat constructor.
  - rewrite map_app. apply NoDup_app. split; [done|]. split; [|apply NoDup_singleton].
    intros x (l & -> & Hl)%list_elem_of_fmap Hx. apply list_elem_of_singleton in Hx. simpl in Hx.
    apply Hlt in Hl. lia.
  - intros l. rewrite map_app, !elem_of_app. intros [Hl%Hr|Hl]; [by left|right]. done.
  - intros l [Hl|Hl%list_elem_of_singleton]%elem_of_app; [by apply Ho|]. subst l. simpl. intros Hx%Hc. lia.
  - intros r [Hr'|Hr'%list_elem_of_singleton]%elem_of_app.
    + rewrite elem_of_app. destruct (Hw r Hr') as [?|?]; auto.
    + subst r. left. apply elem_of_app. right. simpl. left.
  - intros x Hx%Hc. lia.
Qed.

Lemma find_lease_spec x pr ls l rest :
  find_lease x pr ls = Some (l, rest) ->
  lease_port l = x /\ lease_protocol l = pr /\ exists ls1 ls2, ls = ls1 ++ l :: ls2 /\ rest = ls1 ++ ls2.
Proof.
  revert l rest. induction ls as [|a ls IH]; intros l rest; cbn [find_lease]; [done|].
  destruct ((lease_port a =? x) && bool_decide (lease_protocol a = pr)) eqn:Em.
  - intros [= <- <-]. apply andb_prop in Em as [E1%Z.eqb_eq E2%bool_decide_eq_true].
    split; [done|]. split; [done|]. by exists [], ls.
  - destruct (find_lease x pr ls) as [[y r]|] eqn:Ef; [|done]. intros [= <- <-].
    destruct (IH y r eq_refl) as (? & ? & ls1 & ls2 & -> & ->). split; [done|]. split; [done|]. by exists (a :: ls1), ls2.
Qed.

Lemma remove_book x pr (w : W) :
  match find_lease x pr (activeLeases w) with
  | None => snd (RemoveUPnPMapping x pr w) = w
  | Some (l, rest) =>
      let w' := snd (RemoveUPnPMapping x pr w) in
      activeLeases w' = rest /\ renewers w' = renewers w /\ closedCh w' = stopCh l :: closedCh w /\ nextCh w' = nextCh w
  end.
Proof.
  unfold RemoveUPnPMapping. destruct (find_lease _ _ _) as [[l rest]|]; [|done].
  unfold DeletePortMapping, nbind. match goal with |- context [in_env ?m ?v] =>
    pose proof (in_env_book m v) as (_ & E2 & E3 & E4 & _); destruct (in_env m v) as [[[]|] w2] end;
    simpl in *; split_and!; congruence.
Qed.

Lemma leases_ok_remove x pr (w : W) : leases_ok w -> leases_ok (snd (RemoveUPnPMapping x pr w)).
Proof.
  intros Hok. pose proof (remove_book x pr w) as Hb.
  destruct (find_lease x pr (activeLeases w)) as [[l rest]|] eqn:Ef; [|by rewrite Hb].
  apply find_lease_spec in Ef as (_ & _ & l1 & l2 & Hl & ->).
  destruct Hb as (E1 & E2 & E3 & E4). destruct Hok as [Hf Hn Hr Ho Hw Hc].
  rewrite Hl, map_app in Hn. cbn [map] in Hn. 
  assert (Hperm : map stopCh l1 ++ stopCh l :: map stopCh l2 ≡ₚ stopCh l :: map stopCh (l1 ++ l2)).
  { rewrite map_app. symmetry. apply Permutation_middle. }
  rewrite Hperm in Hn. apply NoDup_cons in Hn as [Hnl Hn].
  assert (Hsub : forall y, y ∈ l1 ++ l2 -> y ∈ activeLeases w).
  { intros y. rewrite Hl, !elem_of_app, elem_of_cons. tauto. }
  split; rewrite ?E1, ?E2, ?E3, ?E4; try done.
  - intros y Hy. by apply Hr, Hsub.
  - intros y Hy. rewrite not_elem_of_cons. split; [|by apply Ho, Hsub].
    intros Em. apply Hnl. apply list_elem_of_fmap. by exists y.
  - intros r Hr'. rewrite elem_of_cons. destruct (Hw r Hr') as [Hin|?]; [|auto].
    rewrite Hl, elem_of_app, elem_of_cons in Hin. rewrite elem_of_app.
    destruct Hin as [?|[->|?]]; auto.
  - intros c. rewrite elem_of_cons. intros [->|Hx]; [|by apply Hc].
    assert (Hla : l ∈ activeLeases w) by (rewrite Hl, elem_of_app, elem_of_cons; auto).
    apply Hr, list_elem_of_fmap in Hla as (r & -> & Hr'). by apply (Forall_forall _ _) with (x:=r) in Hf.
Qed.

Lemma leases_ok_stop (w : W) rs r rs' :
  renewers w = rs ++ r :: rs' -> stopCh (rn_lease r) ∈ closedCh w -> leases_ok w ->
  leases_ok (mkPm (pm_env w) (pm_rand w) (activeLeases w) (rs ++ rs') (closedCh w) (nextCh w) (pm_calls w)).
Proof.
  intros Hr Hcl [Hf Hn Hre Ho Hw Hc]. rewrite Hr in Hf, Hre, Hw.
  split; cbn [activeLeases renewers closedCh nextCh]; try done.
  - rewrite Forall_app, Forall_cons in *. tauto.
  - intros l Hl. pose proof (Hre l Hl) as Hin. rewrite map_app, elem_of_app in *. cbn [map] in Hin.
    rewrite elem_of_cons in Hin. destruct Hin as [?|[->|?]]; auto. by apply Ho in Hl.
  - intros r' Hr'. apply Hw. rewrite elem_of_app, elem_of_cons in *. tauto.
Qed.

Lemma TryPortMapping_book i x p o l (w : W) :
  let '(_, w') := TryPortMapping i x p o l w in
  same_book w w' \/ exists c ip d y, booked w w' c y p i ip d.
Proof.
  unfold TryPortMapping, nret, nbind at 1, ntry at 1. pose proof (TryUPnP_book i x p o w) as Hu.
  destruct (TryUPnP _ _ _ _ w) as [[[ip port]|e] w1].
  - destruct Hu as (_ & c & lip & d & _ & Hb). right. by exists c, lip, d, port.
  - unfold nbind at 1, ntry at 1.
    match goal with |- context [in_env ?m w1] => pose proof (in_env_book m w1) as Hb1; destruct (in_env m w1) as [[[ip port]|e1] w2] end;
      simpl in Hb1; [left; by transitivity w1|]. unfold nbind, ntry.
    match goal with |- context [in_env ?m w2] => pose proof (in_env_book m w2) as Hb2; destruct (in_env m w2) as [[[ip port]|e2] w3] end;
      simpl in Hb2; left; (transitivity w1; [done|by transitivity w2]).
Qed.

(** C14: Whatever the order in which ports are mapped and removed and leases
    renewed, every active lease has a running renewer whose stop channel is
    open, channels are not shared, and every other renewer that is still
    running has been told to stop. *)
Theorem leases_renewed (w0 w : W) :
  activeLeases w0 = [] -> renewers w0 = [] -> closedCh w0 = [] ->
  rtc pm_step w0 w ->
  NoDup (map stopCh (activeLeases w)) /\
  (forall l, l ∈ activeLeases w -> (stopCh l ∉ closedCh w) /\ exists r, r ∈ renewers w /\ rn_lease r = l) /\
  (forall r, r ∈ renewers w -> rn_lease r ∈ activeLeases w \/ stopCh (rn_lease r) ∈ closedCh w).
Proof.
  intros E1 E2 E3 Hs.
  assert (Hok : leases_ok w).
  { revert Hs. apply (rtc_invariant pm_step leases_ok).
    2:{ split; rewrite ?E1, ?E2, ?E3; try (by intros ? ?%not_elem_of_nil); try constructor. }
    - clear. intros w w' Hok Hst. destruct Hst as [w i x p o l|w x p|w r Hr|w r rs rs' Hr Hcl].
      + pose proof (TryPortMapping_book i x p o l w) as Hb. destruct (TryPortMapping _ _ _ _ _ w) as [r' w'].
        destruct Hb as [Hb|(c & ip & d & y & Hb)]; [by eapply leases_ok_same|by eapply leases_ok_booked].
      + by apply leases_ok_remove.
      + match goal with |- leases_ok (snd (AddPortMapping ?c ?x ?p ?i ?ip ?d w)) =>
          pose proof (AddPortMapping_book c x p i ip d w) as Ha; destruct (AddPortMapping c x p i ip d w) as [[u|e] w1] end;
          simpl in *; [|by eapply leases_ok_same]. destruct Ha as (w2 & Hb & ->). apply (leases_ok_same _ _ Hb) in Hok.
        destruct Hok. by split.
      + by eapply leases_ok_stop. }
  destruct Hok as [_ Hn Hr Ho Hw _]. split; [done|]. split; [|done]. intros l Hl. split; [by apply Ho|].
  apply Hr, list_elem_of_fmap in Hl as (r & -> & Hr'). by exists r.
Qed.

(** Removing a mapping does not stop its renewal at once.  The renewer
    waits for its ticker and for the stop channel in one [select]; when both
    are ready it may renew first.  The gateway then has the mapping again after
    it was deleted, without a lease that would remove it, and for ever if the
    lease is unlimited. *)
Theorem removed_mapping_renewed (w : W) r l rest :
  find_lease (lease_port l) (lease_protocol l) (activeLeases w) = Some (l, rest) ->
  r ∈ renewers w -> rn_lease r = l ->
  (forall c x p e, fst (igd_DeletePortMapping c x p e) = Ok tt) ->
  (forall c x p i ip d e, fst (igd_AddPortMapping c x p i ip d e) = Ok tt) ->
  exists w1 w2, pm_step w w1 /\ pm_step w1 w2 /\
    activeLeases w1 = rest /\ activeLeases w2 = rest /\
    pm_calls w2 = pm_calls w ++
      [Deleted (lease_client l) (u16 (lease_port l)) (lease_protocol l);
       Added (lease_client l) (u16 (lease_port l)) (lease_protocol l) (u16 (rn_internalPort r)) (rn_localIP r) (rn_duration r)].
Proof.
  intros Hf Hr Hl Hdel Hadd.
  set (w1 := snd (RemoveUPnPMapping (lease_port l) (lease_protocol l) w)).
  assert (Hw1 : activeLeases w1 = rest /\ renewers w1 = renewers w /\
    pm_calls w1 = pm_calls w ++ [Deleted (lease_client l) (u16 (lease_port l)) (lease_protocol l)]).
  { unfold w1, RemoveUPnPMapping. rewrite Hf. unfold DeletePortMapping, nbind, in_env. cbn [pm_env].
    specialize (Hdel (lease_client l) (u16 (lease_port l)) (lease_protocol l) (pm_env w)).
    destruct (igd_DeletePortMapping _ _ _ _) as [r' e']. simpl in Hdel. subst r'. done. }
  destruct Hw1 as (Ha & Hrn & Hc).
  eexists w1, _. split; [by apply step_remove|]. split; [apply (step_renew _ r); by rewrite Hrn|].
  rewrite Hl. unfold AddPortMapping, nbind, in_env.
  specialize (Hadd (lease_client l) (u16 (lease_port l)) (lease_protocol l) (u16 (rn_internalPort r)) (rn_localIP r)
    (rn_duration r) (pm_env w1)).
  destruct (igd_AddPortMapping _ _ _ _ _ _ _) as [r' e']. simpl in Hadd. subst r'. cbn [record_call snd activeLeases pm_calls].
  rewrite Hc, <- app_assoc. done.
Qed.

End book.

(** ** Gateway candidates *)

(** What [append_unseen] adds, when exactly the gateways so far were seen. *)
Lemma append_unseen_spec gs seen gateways :
  NoDup gateways -> (forall g, g ∈ seen <-> g ∈ gateways) ->
  exists tl, append_unseen gs seen gateways = gateways ++ tl /\ NoDup (gateways ++ tl) /\
    (forall g, g ∈ gs -> g ∈ gateways ++ tl) /\ (forall g, g ∈ tl -> g ∈ gs).
Proof.
  revert seen gateways. induction gs as [|g gs IH]; intros seen gateways Hn Hs; cbn [append_unseen].
  - exists []. rewrite app_nil_r. split_and!; try done; by intros ? ?%not_elem_of_nil.
  - case_decide as Hg.
    + destruct (IH seen gateways Hn Hs) as (tl & -> & Hnd & Hin & Hof). exists tl. split; [done|]. split; [done|].
      apply Hs in Hg. split; intros x; rewrite elem_of_cons; [|auto].
      intros [->|?]; [rewrite elem_of_app; by left|auto].
    + assert (Hg' : g ∉ gateways) by by rewrite <- Hs.
      destruct (IH (g :: seen) (gateways ++ [g])) as (tl & -> & Hnd & Hin & Hof).
      * apply NoDup_app. split; [done|]. split; [|apply NoDup_singleton].
        intros x Hx ->%list_elem_of_singleton. done.
      * intros x. rewrite elem_of_app, elem_of_cons, list_elem_of_singleton, Hs. tauto.
      * exists (g :: tl). rewrite <- app_assoc in *. cbn [app] in *. split_and!; [done|done|..].
        -- intros x. rewrite elem_of_cons. intros [->|Hx]; [|by apply Hin]. rewrite elem_of_app. right. left.
        -- intros x. rewrite !elem_of_cons. intros [->|Hx]; auto.
Qed.

Lemma v4_string_snoc a b c d :
  String.append (Join "." [itoa a; itoa b; itoa c]) (String.append "." (itoa d)) = v4_string [a; b; c; d].
Proof. unfold v4_string. cbn [map Join]. by rewrite !append_assoc. Qed.

Lemma wellKnown_v4 : Forall (fun g => exists q, v4 q /\ g = v4_string q) wellKnown.
Proof.
  unfold wellKnown. rewrite !Forall_cons, Forall_nil. split_and!; [exists [192; 168; 1; 1]|exists [192; 168; 0; 1]|exists [192; 168; 2; 1]
    |exists [10; 0; 0; 1]|exists [10; 0; 0; 138]|exists [10; 0; 1; 1]|exists [172; 16; 0; 1]|done];
    (split; [split; [done|repeat constructor; lia]|vm_compute; reflexivity]).
Qed.

(** The gateways that are tried for an IPv4 host are addresses, each is
    tried once, the first two are .1 and .254 of the host's network, and the
    well-known ones follow. *)
Theorem gateway_candidates a b c d :
  v4 [a; b; c; d] ->
  exists tl, deriveGatewayIPs (v4_string [a; b; c; d]) =
      v4_string [a; b; c; 1] :: v4_string [a; b; c; 254] :: tl /\
    NoDup (deriveGatewayIPs (v4_string [a; b; c; d])) /\
    (forall g, g ∈ wellKnown -> g ∈ deriveGatewayIPs (v4_string [a; b; c; d])) /\
    (forall g, g ∈ deriveGatewayIPs (v4_string [a; b; c; d]) -> exists q, v4 q /\ ParseIP g = Some (v4mapped q)).
Proof.
  intros Hv. unfold deriveGatewayIPs. rewrite ParseIP_v4_string by done. cbn [mbind option_bind].
  rewrite To4_v4mapped. cbn [at_ nth]. cbv zeta.
  change ".1"%string with (String.append "." (itoa 1)). change ".254"%string with (String.append "." (itoa 254)).
  rewrite !v4_string_snoc.
  assert (Hv' : forall x, 0 <= x < 256 -> v4 [a; b; c; x]).
  { intros x Hx. destruct Hv as [_ Hv]. split; [done|].
    rewrite !Forall_cons in Hv |- *. rewrite Forall_nil. tauto. }
  assert (Hne : v4_string [a; b; c; 1] <> v4_string [a; b; c; 254]).
  { intros Heq%(f_equal ParseIP). rewrite !ParseIP_v4_string in Heq by (apply Hv'; lia). by injection Heq. }
  edestruct (append_unseen_spec wellKnown [v4_string [a; b; c; 1]; v4_string [a; b; c; 254]]
    [v4_string [a; b; c; 1]; v4_string [a; b; c; 254]]) as (tl & -> & Hnd & Hin & Hof).
  { apply NoDup_cons. split; [by intros ?%list_elem_of_singleton|apply NoDup_singleton]. }
  { done. }
  exists tl. split; [done|]. split; [done|]. split; [done|]. intros g Hg.
  assert (Hq : exists q, v4 q /\ g = v4_string q).
  { cbn [app] in Hg. rewrite !elem_of_cons in Hg. destruct Hg as [->|[->|Hg]].
    - exists [a; b; c; 1]. split; [apply Hv'; lia|done].
    - exists [a; b; c; 254]. split; [apply Hv'; lia|done].
    - apply Hof in Hg. pose proof wellKnown_v4 as Hw. rewrite Forall_forall in Hw. by apply Hw. }
  destruct Hq as (q & Hq & ->). exists q. split; [done|]. by apply ParseIP_v4_string.
Qed.

Lemma gateway_candidates_witness :
  exists tl, deriveGatewayIPs "192.168.1.7" = "192.168.1.1" :: "192.168.1.254" :: tl.
Proof.
  destruct (gateway_candidates 192 168 1 7) as (tl & Htl & _); [split; [done|repeat constructor; lia]|].
  exists tl. exact Htl.
Defined.

(** ** A gateway after RFC 6886 and RFC 6887

    It answers requests for its external address and for mappings; [assign] is
    how it chooses the external port from the protocol, the two ports and the
    lifetime that it reads in the request. *)

Section gateway.
Variables (external lan gateway : list Z) (assign : Z -> Z -> Z -> Z -> Z) (has_upnp : bool).

Definition pmp_reply (req : bytes) : bytes :=
  let op := b2z (nth 1 req x00) in
  if op =? 0 then map z2b [0; 128; 0; 0] ++ be_put 4 0 ++ map z2b external
  else map z2b [0; 128 + op; 0; 0] ++ be_put 4 0 ++ slice 4 6 req ++
       be_put 2 (assign op (be_get (slice 4 6 req)) (be_get (slice 6 8 req)) (be_get (slice 8 12 req))) ++
       slice 8 12 req.

Definition pcp_reply (req : bytes) : bytes :=
  map z2b [2; 129; 0; 0] ++ slice 4 8 req ++ be_put 4 0 ++ replicate 12 x00 ++ slice 24 40 req ++ slice 40 42 req ++
  be_put 2 (assign (b2z (nth 36 req x00)) (be_get (slice 40 42 req)) (be_get (slice 42 44 req)) (be_get (slice 4 8 req))) ++
  map z2b (v4mapped external).

Definition gw_reply (req : bytes) : bytes :=
  if b2z (nth 0 req x00) =? pcpVersion then pcp_reply req else pmp_reply req.

#[export] Instance gw_lan : Lan (option bytes) := {|
  Client := unit;
  Root := unit;
  lan_LocalIP := nret (v4mapped lan);
  lan_DialUDP a := fun _ => (Ok (mkGwConn 0 (v4mapped lan) a), None);
  lan_Write c b := fun _ => (Ok tt, Some b);
  lan_Read c n := fun e =>
    match e with
    | Some req => if decide (ua_IP (gc_remote c) = v4mapped gateway) then (Ok (take n (gw_reply req)), None)
                  else (Err (EIO ErrTimeout), None)
    | None => (Err (EIO ErrTimeout), None)
    end;
  lan_TcpOpen _ := nfail (EIO ErrTimeout);
  lan_HTTPUClient _ := nret tt;
  lan_RawSearch _ _ := nret (if has_upnp then [Some "http://gateway/"] else []);
  lan_DeviceByURL _ := nret tt;
  lan_WANIPConnection2 _ _ := Ok [];
  lan_WANIPConnection1 _ _ := Ok [tt];
  lan_WANPPPConnection1 _ _ := Err (EIO ErrTimeout);
  igd_GetExternalIPAddress _ := nret (v4_string external);
  igd_AddPortMapping _ _ _ _ _ _ := nret tt;
  igd_DeletePortMapping _ _ _ := nret tt
|}.

Definition gw_found (gw : string) : Prop := parse_or_nil gw = v4mapped gateway.

Lemma length_reply_address rest : v4 external -> length (pmp_reply (z2b 0 :: z2b 0 :: rest)) = 12%nat.
Proof.
  intros [He _]. unfold pmp_reply. cbn [nth]. change (b2z (z2b 0) =? 0) with true. cbv iota.
  rewrite !length_app, length_be_put, !length_map, He. done.
Qed.

Lemma probe_gateway_eq gw e :
  v4 external -> exists e', probe_gateway gw e = (Ok (bool_decide (gw_found gw)), e').
Proof.
  intros He. unfold probe_gateway, nbind, ntry, gw_found. cbn [lan_DialUDP gw_lan lan_Write lan_Read gc_remote gw_addr ua_IP].
  case_decide as Hd; eexists.
  - rewrite bool_decide_true by done. unfold nret. repeat f_equal. unfold gw_reply.
    change (b2z (nth 0 (map z2b [pmpVersion; 0]) x00) =? pcpVersion) with false. cbv iota.
    change (map z2b [pmpVersion; 0]) with (z2b 0 :: z2b 0 :: @nil byte).
    rewrite take_ge by (by rewrite length_reply_address). by rewrite length_reply_address.
  - rewrite bool_decide_false by done. done.
Qed.

Lemma first_gateway_eq gws dflt e :
  v4 external -> (exists g, g ∈ gws /\ gw_found g) ->
  exists g e', first_gateway gws dflt e = (Ok g, e') /\ gw_found g.
Proof.
  intros He. revert e. induction gws as [|g gws IH]; intros e (x & Hx & Hf); [by apply not_elem_of_nil in Hx|].
  cbn [first_gateway]. unfold nbind. destruct (probe_gateway_eq g e He) as (e' & ->).
  case_bool_decide as Hg; [by exists g, e'|]. apply IH. exists x. split; [|done].
  apply elem_of_cons in Hx as [->|?]; done.
Qed.

Definition reachable_gateway : Prop :=
  v4 external /\ v4 lan /\ at_ lan 0 <> 127 /\
  exists g, g ∈ deriveGatewayIPs (v4_string lan) /\ gw_found g.

Lemma getLocalIP_eq e : v4 lan -> at_ lan 0 <> 127 -> getLocalIP e = (Ok (v4_string lan), e).
Proof.
  intros Hl H7. unfold getLocalIP, nbind, nwrap. cbn [lan_LocalIP gw_lan nret]. unfold IsLoopback.
  rewrite To4_v4mapped, (proj2 (Z.eqb_neq _ _)) by done. rewrite bool_decide_false by done. cbn [orb].
  unfold nret. by rewrite IP_String_v4mapped.
Qed.

Lemma discover_eq e :
  reachable_gateway -> exists g e', discoverGatewayForPMP e = (Ok g, e') /\ gw_found g.
Proof.
  intros (He & Hl & H7 & Hg). unfold discoverGatewayForPMP, nbind. rewrite getLocalIP_eq by done.
  destruct (deriveGatewayIPs (v4_string lan)) as [|g gs] eqn:Ed.
  - destruct Hg as (x & Hx%not_elem_of_nil & _). done.
  - by apply first_gateway_eq.
Qed.

Lemma length_pmp_request op i x l : length (pmp_request op i x l) = 12%nat.
Proof. unfold pmp_request. by rewrite !length_splice, !length_insert. Qed.

(** The request carries its fields where the gateway looks for them. *)
Lemma pmp_request_fields op i x l :
  pmp_request op i x l = z2b 0 :: z2b op :: x00 :: x00 :: be_put 2 i ++ be_put 2 x ++ be_put 4 l.
Proof. reflexivity. Qed.

Lemma pmp_address_eq conn e :
  v4 external -> ua_IP (gc_remote conn) = v4mapped gateway ->
  exists e', pmpGetExternalAddress conn e = (Ok (v4_string external), e').
Proof.
  intros He Hc. unfold pmpGetExternalAddress, nbind. cbn [lan_Write gw_lan lan_Read]. rewrite decide_True by done.
  unfold gw_reply. change (b2z (nth 0 (map z2b [pmpVersion; 0]) x00) =? pcpVersion) with false. cbv iota.
  change (map z2b [pmpVersion; 0]) with (z2b 0 :: z2b 0 :: @nil byte).
  rewrite take_ge by (by rewrite length_reply_address). rewrite length_reply_address by done.
  change (12 <? 12)%nat with false. cbv iota. unfold pmp_reply.
  change (b2z (nth 1 (z2b 0 :: z2b 0 :: @nil byte) x00) =? 0) with true. cbv iota.
  destruct He as [Hl Hb]. destruct external as [|a [|b [|c [|d [|]]]]]; try discriminate.
  exists None. rewrite !Forall_cons in Hb. destruct Hb as (? & ? & ? & ? & _).
  change (nret (IP_String (map b2z (map z2b [a; b; c; d]))) (@None bytes) = (Ok (v4_string [a; b; c; d]), @None bytes)).
  unfold nret. rewrite z2b_roundtrip by (rewrite !Forall_cons, Forall_nil; done).
  unfold IP_String. by rewrite decide_True.
Qed.

Lemma pmp_mapping_eq conn op i x l e :
  op = 1 \/ op = 2 -> 0 <= i < 65536 -> 0 <= x < 65536 -> 0 <= l < 2 ^ 32 -> 0 <= assign op i x l < 65536 ->
  ua_IP (gc_remote conn) = v4mapped gateway ->
  exists e', pmpRequestMapping conn op i x l e = (Ok (assign op i x l, l), e').
Proof.
  intros Hop Hi Hx Hl Ha Hc. unfold pmpRequestMapping, nbind. cbn [lan_Write gw_lan lan_Read]. rewrite decide_True by done.
  eexists. unfold gw_reply. rewrite pmp_request_fields.
  change (b2z (nth 0 (z2b 0 :: ?r) x00) =? pcpVersion) with false. cbv iota.
  unfold pmp_reply. cbn [nth]. rewrite (b2z_z2b_small op) by lia.
  rewrite (proj2 (Z.eqb_neq op 0)) by lia.
  change (slice 4 6 (?a :: ?b :: ?c :: ?d :: be_put 2 i ++ ?r)) with (be_put 2 i).
  change (slice 6 8 (?a :: ?b :: ?c :: ?d :: be_put 2 i ++ be_put 2 x ++ ?r)) with (be_put 2 x).
  change (slice 8 12 (?a :: ?b :: ?c :: ?d :: be_put 2 i ++ be_put 2 x ++ be_put 4 l)) with (be_put 4 l).
  rewrite !be_get_put_small by (simpl; lia).
  rewrite take_ge by (rewrite !length_app, !length_be_put; simpl; lia).
  rewrite (proj2 (Nat.ltb_ge _ _)) by (rewrite !length_app, !length_be_put; simpl; lia).
  change (be_get (slice 2 4 (map z2b [0; 128 + op; 0; 0] ++ ?r))) with 0. cbn [negb Z.eqb].
  match goal with |- context [be_get (slice 10 12 ?b)] =>
    change (slice 10 12 b) with (be_put 2 (assign op i x l)); change (slice 12 16 b) with (be_put 4 l) end.
  by rewrite !be_get_put_small by (simpl; lia).
Qed.

(** The fields of the PCP request, in order. *)
Lemma pcp_request_fields proto i x l a b c d :
  pcp_request (v4mapped [a; b; c; d]) proto i x l =
    map z2b [2; 1; 0; 0] ++ be_put 4 l ++ replicate 10 x00 ++ map z2b [255; 255; a; b; c; d] ++
    pcp_nonce ++ [z2b proto; x00; x00; x00] ++ be_put 2 i ++ be_put 2 x ++ replicate 16 x00.
Proof. reflexivity. Qed.

Lemma pcp_external_eq pre : v4 external -> length pre = 44%nat -> pcp_external (pre ++ map z2b (v4mapped external)) = external.
Proof.
  intros [Hl Hb] Hp. unfold pcp_external, slice. rewrite drop_app_length' by done.
  rewrite take_ge by (rewrite length_map; unfold v4mapped; rewrite !length_app, Hl; simpl; lia).
  rewrite z2b_roundtrip; [|apply v4mapped_ok with (p := 0); [by split|lia]].
  unfold v4mapped. cbn [replicate app at_ nth]. done.
Qed.

(** With a gateway that follows the standards and is among the candidates,
    NAT-PMP and PCP succeed: the gateway reads the protocol, both ports, each
    modulo 2^16, and the lifetime (one hour when none is given) out of the
    request, and the caller gets the gateway's external address and the port
    that it assigned. *)
Theorem gateway_protocols internalPort externalPort protocol lifetime e :
  reachable_gateway -> (forall p i x l, 0 <= assign p i x l < 65536) ->
  let life := u32 (if lifetime <=? 0 then 3600 else lifetime) in
  fst (tryNATPMP internalPort externalPort protocol lifetime e) =
    Ok (v4_string external,
        assign (if decide (protocol = "UDP") then 1 else 2) (u16 internalPort) (u16 externalPort) life) /\
  fst (tryPCP internalPort externalPort protocol lifetime e) =
    Ok (v4_string external,
        assign (if decide (protocol = "UDP") then 17 else 6) (u16 internalPort) (u16 externalPort) life).
Proof.
  intros Hr Ha life. pose proof (wrap_range 16 internalPort ltac:(lia)) as Hi.
  pose proof (wrap_range 16 externalPort ltac:(lia)) as Hx.
  assert (Hlife : 0 <= life < 2 ^ 32) by (apply wrap_range; lia).
  destruct (discover_eq e Hr) as (g & e1 & Hd & Hg). destruct Hr as (He & Hlan & _).
  split.
  - unfold tryNATPMP, nbind, nwrap. rewrite Hd. cbn [lan_DialUDP gw_lan].
    match goal with |- context [pmpGetExternalAddress ?c ?s] =>
      destruct (pmp_address_eq c s He Hg) as (e2 & ->) end.
    fold life. unfold pmp_opcode.
    match goal with |- context [pmpRequestMapping ?c ?op ?i ?x ?l ?s] =>
      destruct (pmp_mapping_eq c op i x l s) as (e3 & ->) end; try done; [repeat case_decide; auto|].
    cbn [nret fst]. repeat case_decide; done.
  - unfold tryPCP, nbind, nwrap. rewrite Hd. cbn [lan_DialUDP gw_lan lan_Write lan_Read gc_remote gc_local].
    rewrite decide_True by done. fold life.
    destruct Hlan as [Hl4 _]. destruct lan as [|la [|lb [|lc [|ld [|]]]]]; try discriminate.
    unfold gw_reply. rewrite pcp_request_fields.
    set (proto := if decide (protocol = "UDP") then pcpProtoUDP else pcpProtoTCP).
    set (req := map z2b [2; 1; 0; 0] ++ _).
    change (b2z (nth 0 req x00) =? pcpVersion) with true. cbv iota. unfold pcp_reply.
    change (slice 4 8 req) with (be_put 4 life). change (slice 40 42 req) with (be_put 2 (u16 internalPort)).
    change (slice 42 44 req) with (be_put 2 (u16 externalPort)). change (nth 36 req x00) with (z2b proto).
    rewrite (b2z_z2b_small proto) by (unfold proto; case_decide; unfold pcpProtoUDP, pcpProtoTCP; lia).
    rewrite !be_get_put_small by (simpl; lia).
    assert (Hreq : length (slice 24 40 req) = 16%nat) by reflexivity.
    set (port := assign proto _ _ _). set (head := map z2b [2; 129; 0; 0] ++ be_put 4 life ++ be_put 4 0 ++
      replicate 12 x00 ++ slice 24 40 req ++ be_put 2 (u16 internalPort)).
    match goal with |- context [take 60 ?b] =>
      replace b with (head ++ be_put 2 port ++ map z2b (v4mapped external)) by (unfold head; by rewrite <- !app_assoc) end.
    assert (Hh : length head = 42%nat) by reflexivity.
    assert (H60 : length (head ++ be_put 2 port ++ map z2b (v4mapped external)) = 60%nat).
    { rewrite !length_app, Hh, length_be_put, length_map. unfold v4mapped. rewrite !length_app, (proj1 He). done. }
    rewrite take_ge by lia. rewrite H60. change (60 <? 60)%nat with false. cbv iota.
    match goal with |- context [Z.land (b2z (nth 1 ?b x00)) 128] => change (nth 1 b x00) with (z2b 129); change (nth 3 b x00) with x00 end.
    change (Z.land (b2z (z2b 129)) 128 =? 0) with false. change (b2z x00 =? 0) with true. cbn [negb].
    unfold nret. cbn [fst]. rewrite app_assoc, pcp_external_eq by (done || (rewrite length_app, Hh, length_be_put; done)).
    rewrite <- app_assoc. unfold slice at 1. rewrite drop_app_length' by done.
    rewrite take_app_length' by (by rewrite length_be_put). rewrite be_get_put_small by (apply Ha).
    unfold IP_String. rewrite decide_True by apply He. unfold port, proto. by case_decide.
Qed.

End gateway.

Definition toy_assign (p i x l : Z) : Z := (i + x + p) mod 65536.

Lemma gateway_protocols_witness :
  fst (@tryPCP _ (gw_lan [198; 41; 0; 4] [192; 168; 1; 7] [192; 168; 1; 1] toy_assign false) 8000 9000 "UDP" 0 None)
  = Ok ("198.41.0.4", 17017).
Proof.
  refine (proj2 (gateway_protocols [198; 41; 0; 4] [192; 168; 1; 7] [192; 168; 1; 1] toy_assign false
    8000 9000 "UDP" 0 None _ _)).
  - split; [split; [done|repeat constructor; lia]|]. split; [split; [done|repeat constructor; lia]|]. split; [done|].
    exists "192.168.1.1". split; [apply (bool_decide_unpack _); vm_compute; exact I|vm_compute; reflexivity].
  - intros. apply Z.mod_pos_bound. lia.
Defined.

#[local] Instance toy_lan : Lan (option bytes) := gw_lan [198; 41; 0; 4] [192; 168; 1; 7] [192; 168; 1; 1] toy_assign true.

Definition toy_client : @Client _ toy_lan := tt.

Definition toy_pm : pm_world (E:=option bytes) (H:=toy_lan) (R:=Z) :=
  mkPm None 7 [] [] [] 0 [].

Definition toy_mapped := snd (TryPortMapping 8000 9000 "UDP" (mkUPnPOptions (-1) 0 0) 0 toy_pm).

Lemma leases_renewed_witness :
  map lease_port (activeLeases toy_mapped) = [9000] /\ NoDup (map stopCh (activeLeases toy_mapped)).
Proof.
  split; [vm_compute; reflexivity|].
  apply (leases_renewed toy_pm toy_mapped); [done..|]. apply rtc_once. apply step_map.
Defined.

Lemma removed_mapping_renewed_witness :
  exists w1 w2, pm_step toy_mapped w1 /\ pm_step w1 w2 /\ activeLeases w2 = [] /\
    pm_calls w2 = pm_calls toy_mapped ++
      [Deleted toy_client 9000 "UDP"; Added toy_client 9000 "UDP" 8000 "192.168.1.7" 3600].
Proof.
  destruct (removed_mapping_renewed toy_mapped
    (mkRenewer (mkLease 9000 "UDP" toy_client 0) 8000 "192.168.1.7" 3600) (mkLease 9000 "UDP" toy_client 0) [])
    as (w1 & w2 & S1 & S2 & A1 & A2 & C2).
  - reflexivity.
  - change (renewers toy_mapped) with [mkRenewer (mkLease 9000 "UDP" toy_client 0) 8000 "192.168.1.7" 3600]. left.
  - reflexivity.
  - reflexivity.
  - reflexivity.
  - exists w1, w2. auto.
Defined.
