(* ===== verification/Codes.v ===== *)
(** * Codes and payloads of the signalling client

    [golib/signaling]: the reduction and compression of session descriptions
    (compress.go), the encryption of payloads (crypto.go), the codes that are
    copied by hand (manual.go) and the guard against replays (anti_replay.go).

    Base64 is written out.  DEFLATE and JSON are the classes [Flate] and
    [Json], with the round trips that their documentation promises; the cipher
    is the class [AEAD] of [Obfs]. *)

From S2P Require Import Prelude IO GoStr Socks Obfs Sdp.
Import Sdp.

Open Scope Z_scope.

(** ** Base64 ([encoding/base64]) *)

Definition std_alphabet : string := "ABCDEFGHIJKLMNOPQRSTUVWXYZabcdefghijklmnopqrstuvwxyz0123456789+/".
Definition url_alphabet : string := "ABCDEFGHIJKLMNOPQRSTUVWXYZabcdefghijklmnopqrstuvwxyz0123456789-_".

(** An encoding: its alphabet, and whether it pads with '='. *)
Record b64 := mkB64 { b64_alphabet : string; b64_pad : bool }.

Definition StdEncoding : b64 := mkB64 std_alphabet true.
Definition RawURLEncoding : b64 := mkB64 url_alphabet false.

Definition padChar : Ascii.ascii := "="%char.

Section base64.
Variable enc : b64.

Definition b64_char (v : Z) : Ascii.ascii := default padChar (String.get (Z.to_nat v) (b64_alphabet enc)).
Definition b64_val (c : Ascii.ascii) : option Z := Z.of_nat <$> index_char c (b64_alphabet enc).

Fixpoint EncodeToString (src : bytes) : string :=
  match src with
  | a :: b :: c :: src =>
      let v := b2z a * 65536 + b2z b * 256 + b2z c in
      String (b64_char (v / 262144)) (String (b64_char (v / 4096 mod 64))
        (String (b64_char (v / 64 mod 64)) (String (b64_char (v mod 64)) (EncodeToString src))))
  | [a; b] =>
      let v := b2z a * 65536 + b2z b * 256 in
      String (b64_char (v / 262144)) (String (b64_char (v / 4096 mod 64))
        (String (b64_char (v / 64 mod 64)) (if b64_pad enc then "=" else EmptyString)))
  | [a] =>
      let v := b2z a * 65536 in
      String (b64_char (v / 262144)) (String (b64_char (v / 4096 mod 64))
        (if b64_pad enc then "==" else EmptyString))
  | [] => EmptyString
  end.

(** Line ends in the text are skipped. *)
Fixpoint strip_newlines (s : string) : string :=
  match s with
  | EmptyString => EmptyString
  | String c s => if bool_decide (c = CR) || bool_decide (c = LF) then strip_newlines s
                  else String c (strip_newlines s)
  end.

Fixpoint decode_quanta (s : string) : option bytes :=
  match s with
  | EmptyString => Some []
  | String c1 (String c2 (String c3 (String c4 s'))) =>
      v1 ← b64_val c1; v2 ← b64_val c2;
      match b64_val c3 with
      | Some v3 =>
          match b64_val c4 with
          | Some v4 =>
              let v := v1 * 262144 + v2 * 4096 + v3 * 64 + v4 in
              rest ← decode_quanta s';
              Some (z2b (v / 65536) :: z2b (v / 256) :: z2b v :: rest)
          | None =>
              if b64_pad enc && bool_decide (c4 = padChar) && bool_decide (s' = EmptyString) then
                let v := v1 * 262144 + v2 * 4096 + v3 * 64 in Some [z2b (v / 65536); z2b (v / 256)]
              else None
          end
      | None =>
          if b64_pad enc && bool_decide (c3 = padChar) && bool_decide (c4 = padChar) && bool_decide (s' = EmptyString)
          then let v := v1 * 262144 + v2 * 4096 in Some [z2b (v / 65536)]
          else None
      end
  | String c1 (String c2 EmptyString) =>
      if b64_pad enc then None
      else v1 ← b64_val c1; v2 ← b64_val c2; Some [z2b ((v1 * 262144 + v2 * 4096) / 65536)]
  | String c1 (String c2 (String c3 EmptyString)) =>
      if b64_pad enc then None
      else v1 ← b64_val c1; v2 ← b64_val c2; v3 ← b64_val c3;
           let v := v1 * 262144 + v2 * 4096 + v3 * 64 in Some [z2b (v / 65536); z2b (v / 256)]
  | _ => None
  end.

Definition DecodeString (s : string) : option bytes := decode_quanta (strip_newlines s).

End base64.

(** ** [strings.TrimSpace]

    The UTF-8 encodings of the characters with the property White_Space. *)

Definition space_codes : list (list Z) :=
  [[9]; [10]; [11]; [12]; [13]; [32]; [194; 133]; [194; 160]; [225; 154; 128]; [226; 128; 128]; [226; 128; 129];
   [226; 128; 130]; [226; 128; 131]; [226; 128; 132]; [226; 128; 133]; [226; 128; 134]; [226; 128; 135];
   [226; 128; 136]; [226; 128; 137]; [226; 128; 138]; [226; 128; 168]; [226; 128; 169]; [226; 128; 175];
   [226; 129; 159]; [227; 128; 128]].

Definition spaces : list bytes := map (map z2b) space_codes.

(** One space off the front, in a list of them. *)
Fixpoint cut_space (sp : list bytes) (l : bytes) : option bytes :=
  match sp with
  | [] => None
  | c :: sp => if decide (take (length c) l = c) then Some (drop (length c) l) else cut_space sp l
  end.

Fixpoint trim_spaces (fuel : nat) (sp : list bytes) (l : bytes) : bytes :=
  match fuel with
  | O => l
  | S fuel => match cut_space sp l with Some l => trim_spaces fuel sp l | None => l end
  end.

Definition trim_bytes (l : bytes) : bytes :=
  let l := trim_spaces (length l) spaces l in
  rev (trim_spaces (length l) (map (@rev byte) spaces) (rev l)).

Definition TrimSpace (s : string) : string := Socks.of_bytes (trim_bytes (Socks.to_bytes s)).

(** ** Interfaces *)

Class Flate := {
  flate_compress : bytes -> bytes;              (* a writer of level 6, written to and closed *)
  flate_read : bytes -> res goerr bytes;        (* [io.ReadAll] of a reader *)
  flate_roundtrip : forall b, flate_read (flate_compress b) = Ok b
}.

Record ManualOffer := mkManualOffer {
  mo_Version : Z; mo_SessionID : string; mo_ObfsKey : string; mo_RelayAddr : string; mo_NumChannels : Z;
  mo_SmuxStreamBuffer : Z; mo_SmuxSessionBuffer : Z; mo_SmuxFrameSize : Z; mo_DCMaxBuffered : Z; mo_DCLowMark : Z;
  mo_PaddingMax : Z; mo_Padding : bool; mo_TransportV : Z; mo_SmuxKeepAlive : Z; mo_SmuxKeepAliveTimeout : Z;
  mo_CompressedSDP : string }.

Record ManualAnswer := mkManualAnswer { ma_Version : Z; ma_CompressedSDP : string }.

Record peerInfo := mkPeerInfo { pi_IP : string; pi_Port : Z }.

(** [json.Marshal] and [json.Unmarshal] at the types of the client.  Strings
    that are valid UTF-8 survive, and what is marshalled has no line end. *)
Class Json := {
  utf8 : string -> bool;
  json_offer : ManualOffer -> bytes;
  json_get_offer : bytes -> option ManualOffer;
  json_answer : ManualAnswer -> bytes;
  json_get_answer : bytes -> option ManualAnswer;
  json_sdp : string -> bytes;                   (* the object {"sdp": ...} *)
  json_get_sdp : bytes -> option string;        (* the empty string when the field is missing *)
  json_strings : list string -> bytes;
  json_get_strings : bytes -> option (list string);
  json_peer : peerInfo -> bytes;
  json_get_peer : bytes -> option peerInfo;
  json_offer_roundtrip : forall o, utf8 (mo_SessionID o) = true -> utf8 (mo_ObfsKey o) = true ->
    utf8 (mo_RelayAddr o) = true -> utf8 (mo_CompressedSDP o) = true -> json_get_offer (json_offer o) = Some o;
  json_answer_roundtrip : forall a, utf8 (ma_CompressedSDP a) = true -> json_get_answer (json_answer a) = Some a;
  json_sdp_roundtrip : forall s, utf8 s = true -> json_get_sdp (json_sdp s) = Some s;
  json_strings_roundtrip : forall l, forallb utf8 l = true -> json_get_strings (json_strings l) = Some l;
  json_peer_roundtrip : forall p, utf8 (pi_IP p) = true -> json_get_peer (json_peer p) = Some p;
  json_strings_utf8 : forall l, utf8 (Socks.of_bytes (json_strings l)) = true;
  json_strings_nonempty : forall l, json_strings l <> [];
  utf8_ascii : forall s, Forall (fun b => b2z b < 128) (Socks.to_bytes s) -> utf8 s = true;
  json_sdp_line : forall s, (z2b 10 ∉ json_sdp s) /\ (z2b 13 ∉ json_sdp s) /\ json_sdp s <> []
}.

(** ** compress.go *)

Definition sdpKeepPrefixes : list string :=
  ["v="; "o="; "s="; "t="; "m="; "c="; "a=ice-ufrag:"; "a=ice-pwd:"; "a=fingerprint:"; "a=setup:"; "a=mid:";
   "a=sctp-port:"; "a=max-message-size:"; "a=candidate:"; "a=end-of-candidates"].

Definition keep_line (line : string) : bool :=
  if bool_decide (line = EmptyString) then false else existsb (fun p => HasPrefix line p) sdpKeepPrefixes.

Definition MinifySDP (sdp : string) : string :=
  let kept := List.filter keep_line (split_crlf sdp) in
  if decide (length kept = O) then sdp else String.append (Join crlf kept) crlf.

Section codes.
Context `{Flate} `{Json}.

Definition CompressSDP (sdp : string) : res goerr string :=
  let minified := MinifySDP sdp in
  Ok (EncodeToString RawURLEncoding (flate_compress (Socks.to_bytes minified))).

Definition DecompressSDP (compressed : string) : res goerr string :=
  match DecodeString RawURLEncoding compressed with
  | None => Err (EMsg "base64 decode" [])
  | Some data =>
      match flate_read data with
      | Err e => Err (EWrap "flate decompress" e)
      | Ok out =>
          let sdp := Socks.of_bytes out in
          if Contains sdp "v=" then Ok sdp else Err (EMsg "decompressed data does not look like SDP" [])
      end
  end.

(** ** manual.go *)

Definition ManualOfferPrefix : string := "M1:".
Definition ManualAnswerPrefix : string := "M1A:".

Definition deflateBytes (data : bytes) : res goerr bytes := Ok (flate_compress data).
Definition inflateBytes (data : bytes) : res goerr bytes := flate_read data.

(** The two encoders and decoders differ in the prefix and the JSON type. *)
Definition encode_manual (prefix : string) (data : bytes) : res goerr string :=
  let! compressed := deflateBytes data in
  Ok (String.append prefix (EncodeToString RawURLEncoding compressed)).

Definition decode_manual {A} (prefix : string) (unmarshal : bytes -> option A) (code : string) : res goerr A :=
  let code := TrimSpace code in
  if negb (HasPrefix code prefix) then Err (EMsg "invalid manual code: missing prefix" [])
  else
    let payload := sdrop (String.length prefix) code in
    match DecodeString RawURLEncoding payload with
    | None => Err (EMsg "base64 decode" [])
    | Some data =>
        match inflateBytes data with
        | Err e => Err (EWrap "decompress" e)
        | Ok jsonData =>
            match unmarshal jsonData with
            | None => Err (EMsg "unmarshal" [])
            | Some a => Ok a
            end
        end
    end.

Definition EncodeManualOffer (offer : ManualOffer) : res goerr string :=
  encode_manual ManualOfferPrefix (json_offer offer).
Definition DecodeManualOffer (code : string) : res goerr ManualOffer :=
  decode_manual ManualOfferPrefix json_get_offer code.
Definition EncodeManualAnswer (answer : ManualAnswer) : res goerr string :=
  encode_manual ManualAnswerPrefix (json_answer answer).
Definition DecodeManualAnswer (code : string) : res goerr ManualAnswer :=
  decode_manual ManualAnswerPrefix json_get_answer code.

End codes.

(** ** crypto.go *)

(** [hkdf obfsKey] is the key that HKDF-SHA256 derives with the salt and the
    info of the program; [gcm] builds the cipher from it. *)
Section crypto.
Context {K R : Type} `{AEAD K} `{Rand R}.
Variables (hkdf : bytes -> res goerr bytes) (gcm : bytes -> res goerr K).

Definition deriveSignalingKey (obfsKey : bytes) : res goerr bytes := hkdf obfsKey.

(** The cipher that both directions set up. *)
Definition signaling_cipher (obfsKey : bytes) : res goerr K :=
  match deriveSignalingKey obfsKey with
  | Err e => Err (EWrap "derive signaling key" e)
  | Ok key => match gcm key with Err e => Err (EWrap "create cipher" e) | Ok k => Ok k end
  end.

Definition signalNonceSize : nat := 12.

Definition EncryptPayload (data obfsKey : bytes) (r : R) : res goerr bytes * R :=
  match signaling_cipher obfsKey with
  | Err e => (Err e, r)
  | Ok k =>
      let '(nonce, r) := rread signalNonceSize r in
      let ciphertext := Seal k nonce data in
      let result := replicate (length nonce + length ciphertext) x00 in
      let result := splice 0 nonce result in
      (Ok (splice (length nonce) ciphertext result), r)
  end.

Definition DecryptPayload (data obfsKey : bytes) : res goerr bytes :=
  let! k := signaling_cipher obfsKey in
  if (length data <? signalNonceSize)%nat then Err (EMsg "ciphertext too short" [])
  else
    match Open k (take signalNonceSize data) (drop signalNonceSize data) with
    | None => Err (EMsg "decrypt" [])
    | Some plaintext => Ok plaintext
    end.

End crypto.

(** ** anti_replay.go *)

Record replayGuard := mkGuard { seen : gmap bytes Z }.

Definition globalReplayGuard : replayGuard := mkGuard ∅.

(** The check is disabled in the source. *)
Definition guard_Check (rg : replayGuard) (nonce : bytes) : bool := true.

(** One turn of [cleanupLoop]; times are seconds. *)
Definition guard_cleanup (now : Z) (rg : replayGuard) : replayGuard :=
  mkGuard (filter (fun kv => negb (kv.2 <? now - 300)) (seen rg)).

(** ** Base64: decoding what was encoded *)

Definition known (enc : b64) : Prop := enc = StdEncoding \/ enc = RawURLEncoding.

Lemma b64_char_spec enc v :
  known enc -> 0 <= v < 64 ->
  b64_val enc (b64_char enc v) = Some v /\ b64_char enc v <> CR /\ b64_char enc v <> LF.
Proof.
  intros Hk Hv.
  assert (Hall : forall e, e ∈ [StdEncoding; RawURLEncoding] ->
    forallb (fun v => bool_decide (b64_val e (b64_char e v) = Some v /\ b64_char e v <> CR /\ b64_char e v <> LF))
      (seqZ 0 64) = true).
  { intros e. rewrite !elem_of_cons. intros [->|[->|[]%not_elem_of_nil]]; vm_compute; reflexivity. }
  specialize (Hall enc ltac:(rewrite !elem_of_cons; unfold known in Hk; tauto)).
  rewrite forallb_forall in Hall. eapply bool_decide_eq_true, Hall. apply list_elem_of_In, elem_of_seqZ. lia.
Qed.

Lemma b64_pad_val enc : known enc -> b64_val enc padChar = None.
Proof. by intros [->| ->]. Qed.

(** The sextets of up to three bytes and the bytes they give back. *)
Lemma sextets a b c : 0 <= a < 256 -> 0 <= b < 256 -> 0 <= c < 256 ->
  let v := a * 65536 + b * 256 + c in
  let w := v / 262144 * 262144 + v / 4096 mod 64 * 4096 + v / 64 mod 64 * 64 + v mod 64 in
  0 <= v / 262144 < 64 /\ w = v /\ v / 65536 = a /\ (v / 256) mod 256 = b /\ v mod 256 = c.
Proof.
  intros Ha Hb Hc v w. subst w. subst v. split_and!; Z.to_euclidean_division_equations; lia.
Qed.

Lemma z2b_mod v b : v mod 256 = b2z b -> z2b v = b.
Proof. intros Hv. apply b2z_inj. by rewrite b2z_z2b. Qed.

Lemma strip_cons c s : c <> CR -> c <> LF -> strip_newlines (String c s) = String c (strip_newlines s).
Proof. intros. simpl. by rewrite !bool_decide_false. Qed.

Lemma bytes3_ind (P : bytes -> Prop) :
  P [] -> (forall a, P [a]) -> (forall a b, P [a; b]) -> (forall a b c l, P l -> P (a :: b :: c :: l)) -> forall l, P l.
Proof.
  intros H0 H1 H2 H3. fix IH 1. intros [|a [|b [|c l]]]; [done|apply H1|apply H2|apply H3, IH].
Qed.

Lemma base64_roundtrip enc src : known enc -> DecodeString enc (EncodeToString enc src) = Some src.
Proof.
  intros Hk. unfold DecodeString.
  assert (Hm : forall v, 0 <= v mod 64 < 64) by (intros; apply Z.mod_pos_bound; lia).
  induction src as [|a|a b|a b c src IH] using bytes3_ind; [done|..].
  - pose proof (b2z_range a). destruct (sextets (b2z a) 0 0) as (Hr & Hw & Q1 & _); [lia..|].
    cbn [EncodeToString]. rewrite !Z.mul_0_l, !Z.add_0_r in *. set (v := b2z a * 65536) in *.
    destruct (b64_char_spec enc (v / 262144) Hk Hr) as (V1 & ? & ?).
    destruct (b64_char_spec enc (v / 4096 mod 64) Hk (Hm _)) as (V2 & ? & ?).
    rewrite !strip_cons by done.
    assert (Hv : v / 64 mod 64 = 0 /\ v mod 64 = 0) by (subst v; Z.to_euclidean_division_equations; lia).
    destruct Hv as [Hv1 Hv2]. rewrite Hv1, Hv2, !Z.mul_0_l, !Z.add_0_r in Hw.
    assert (Hz : z2b ((v / 262144 * 262144 + v / 4096 mod 64 * 4096) / 65536) = a).
    { rewrite Hw, Q1. apply z2b_b2z. }
    destruct (b64_pad enc) eqn:Ep.
    + change (strip_newlines "==") with "==". cbn [decode_quanta].
      rewrite V1, V2. cbn [mbind option_bind]. change (b64_val enc "="%char) with (b64_val enc padChar). rewrite b64_pad_val by done. rewrite Ep. cbn [andb].
      rewrite !bool_decide_true by done. cbn [andb]. by rewrite Hz.
    + cbn [strip_newlines decode_quanta]. rewrite Ep, V1, V2. cbn [mbind option_bind]. by rewrite Hz.
  - pose proof (b2z_range a). pose proof (b2z_range b).
    destruct (sextets (b2z a) (b2z b) 0) as (Hr & Hw & Q1 & Q2 & _); [lia..|].
    cbn [EncodeToString]. rewrite !Z.add_0_r in *. set (v := b2z a * 65536 + b2z b * 256) in *.
    destruct (b64_char_spec enc (v / 262144) Hk Hr) as (V1 & ? & ?).
    destruct (b64_char_spec enc (v / 4096 mod 64) Hk (Hm _)) as (V2 & ? & ?).
    destruct (b64_char_spec enc (v / 64 mod 64) Hk (Hm _)) as (V3 & ? & ?).
    rewrite !strip_cons by done.
    assert (Hv2 : v mod 64 = 0) by (subst v; Z.to_euclidean_division_equations; lia).
    rewrite Hv2, !Z.add_0_r in Hw.
    destruct (b64_pad enc) eqn:Ep.
    + change (strip_newlines "=") with "=". cbn [decode_quanta].
      rewrite V1, V2, V3. cbn [mbind option_bind]. change (b64_val enc "="%char) with (b64_val enc padChar). rewrite b64_pad_val by done. rewrite Ep. cbn [andb].
      rewrite !bool_decide_true by done. rewrite Hw, Q1, z2b_b2z. do 2 f_equal. by rewrite (z2b_mod _ b).
    + cbn [strip_newlines decode_quanta]. rewrite Ep, V1, V2, V3. cbn [mbind option_bind].
      rewrite Hw, Q1, z2b_b2z. do 2 f_equal. by rewrite (z2b_mod _ b).
  - pose proof (b2z_range a). pose proof (b2z_range b). pose proof (b2z_range c).
    destruct (sextets (b2z a) (b2z b) (b2z c)) as (Hr & Hw & Q1 & Q2 & Q3); [lia..|].
    cbn [EncodeToString]. set (v := b2z a * 65536 + b2z b * 256 + b2z c) in *.
    destruct (b64_char_spec enc (v / 262144) Hk Hr) as (V1 & ? & ?).
    destruct (b64_char_spec enc (v / 4096 mod 64) Hk (Hm _)) as (V2 & ? & ?).
    destruct (b64_char_spec enc (v / 64 mod 64) Hk (Hm _)) as (V3 & ? & ?).
    destruct (b64_char_spec enc (v mod 64) Hk (Hm _)) as (V4 & ? & ?).
    rewrite !strip_cons by done. cbn [decode_quanta]. rewrite V1, V2, V3, V4. cbn [mbind option_bind].
    rewrite IH. rewrite Hw, Q1, z2b_b2z. cbn [mbind option_bind]. by rewrite (z2b_mod _ b), (z2b_mod _ c).
Qed.

(** ** Strings as bytes *)

Lemma to_bytes_cons c s : Socks.to_bytes (String c s) = Ascii.byte_of_ascii c :: Socks.to_bytes s.
Proof. reflexivity. Qed.

Lemma to_bytes_app a b : Socks.to_bytes (String.append a b) = Socks.to_bytes a ++ Socks.to_bytes b.
Proof. induction a as [|c a IH]; [done|]. by rewrite append_cons, !to_bytes_cons, IH. Qed.

Lemma of_to_bytes s : Socks.of_bytes (Socks.to_bytes s) = s.
Proof. apply String.string_of_list_byte_of_string. Qed.

Lemma to_of_bytes l : Socks.to_bytes (Socks.of_bytes l) = l.
Proof. apply String.list_byte_of_string_of_list_byte. Qed.

(** ** Trimming *)

(** No code is the beginning of another one. *)
Definition prefix_free (sp : list bytes) : bool :=
  forallb (fun c => forallb (fun c' => bool_decide (take (length c) c' = c -> c = c')) sp) sp.

Lemma cut_space_in sp c rest : prefix_free sp = true -> c ∈ sp -> cut_space sp (c ++ rest) = Some rest.
Proof.
  intros Hpf Hc.
  assert (Hp : forall a b, a ∈ sp -> b ∈ sp -> take (length a) b = a -> a = b).
  { intros a b Ha%list_elem_of_In Hb%list_elem_of_In Hab. unfold prefix_free in Hpf. rewrite forallb_forall in Hpf. specialize (Hpf a Ha).
    rewrite forallb_forall in Hpf. specialize (Hpf b Hb). by apply bool_decide_eq_true in Hpf; auto. }
  clear Hpf. cut (forall l, (forall x, x ∈ l -> x ∈ sp) -> c ∈ l -> cut_space l (c ++ rest) = Some rest).
  { intros Hcut. by apply Hcut. }
  clear Hc. intros l. induction l as [|x l IH]; intros Hsub Hc; [by apply not_elem_of_nil in Hc|].
  cbn [cut_space]. case_decide as Hx.
  - assert (Hxsp : x ∈ sp) by (apply Hsub; left).
    assert (Hcsp : c ∈ sp) by by apply Hsub.
    assert (x = c) as ->; [|by rewrite drop_app_length].
    destruct (decide (length x <= length c)%nat) as [Hle|Hle].
    + apply Hp; [done|done|]. rewrite take_app_le in Hx by done. done.
    + symmetry. apply Hp; [done|done|]. rewrite <- Hx, take_take, Nat.min_l by lia. apply take_app_length.
  - apply elem_of_cons in Hc as [->|Hc]; [by rewrite take_app_length in Hx|]. apply IH; [|done].
    intros y Hy. apply Hsub. by right.
Qed.

Definition graph (b : byte) : Prop := 33 <= b2z b < 127.

(** No code begins with a visible ASCII character. *)
Definition invisible (sp : list bytes) : bool :=
  forallb (fun c => match c with x :: _ => negb ((33 <=? b2z x) && (b2z x <? 127)) | [] => false end) sp.

Lemma cut_space_graph sp b l :
  invisible sp = true ->
  graph b -> cut_space sp (b :: l) = None.
Proof.
  intros Hs Hb. induction sp as [|c sp IH]; [done|]. apply andb_prop in Hs as [Hc Hs].
  cbn [cut_space]. rewrite decide_False; [by apply IH|]. destruct c as [|x c]; [done|]. cbn [length take].
  intros [= -> _]. unfold graph in Hb. lia.
Qed.

Lemma trim_spaces_core sp ws b l fuel :
  prefix_free sp = true ->
  invisible sp = true ->
  Forall (fun c => c ∈ sp) ws -> graph b -> (length ws <= fuel)%nat ->
  trim_spaces fuel sp (concat ws ++ b :: l) = b :: l.
Proof.
  intros Hp Hs Hws Hb. revert fuel. induction Hws as [|c ws Hc Hws IH]; intros fuel Hf.
  - cbn [concat app]. destruct fuel; [done|]. cbn [trim_spaces]. by rewrite cut_space_graph.
  - destruct fuel as [|fuel]; [simpl in Hf; lia|]. cbn [concat trim_spaces]. rewrite <- app_assoc, cut_space_in by done.
    apply IH. simpl in Hf. lia.
Qed.

Lemma length_concat_spaces sp ws :
  invisible sp = true ->
  Forall (fun c => c ∈ sp) ws -> (length ws <= length (concat ws))%nat.
Proof.
  intros Hs. induction 1 as [|c ws Hc Hws IH]; [done|]. cbn [concat length]. rewrite length_app.
  unfold invisible in Hs. rewrite forallb_forall in Hs. apply list_elem_of_In, Hs in Hc. destruct c; [done|]. simpl. lia.
Qed.

(** Spaces around a text of visible ASCII characters are removed. *)
Lemma TrimSpace_visible ws1 ws2 core :
  Forall (fun c => c ∈ spaces) ws1 -> Forall (fun c => c ∈ spaces) ws2 -> core <> [] -> Forall graph core ->
  TrimSpace (Socks.of_bytes (concat ws1 ++ core ++ concat ws2)) = Socks.of_bytes core.
Proof.
  intros H1 H2 Hne Hg. unfold TrimSpace. rewrite to_of_bytes. f_equal. unfold trim_bytes.
  assert (Hc1 : invisible spaces = true)
    by (vm_compute; reflexivity).
  assert (Hc2 : invisible (map (@rev byte) spaces) = true) by (vm_compute; reflexivity).
  destruct core as [|b core']; [done|]. set (core := b :: core') in *.
  assert (Hl : trim_spaces (length (concat ws1 ++ core ++ concat ws2)) spaces (concat ws1 ++ core ++ concat ws2)
    = core ++ concat ws2).
  { unfold core. cbn [app]. apply trim_spaces_core; [vm_compute; reflexivity|done|done|by inversion Hg|].
    rewrite length_app. pose proof (length_concat_spaces _ _ Hc1 H1). lia. }
  rewrite Hl. rewrite rev_app_distr.
  assert (Hr : rev (concat ws2) = concat (map (@rev byte) (rev ws2))).
  { clear. induction ws2 as [|c ws IH]; [done|]. cbn [concat rev]. rewrite rev_app_distr, IH, map_app, concat_app.
    cbn [map concat]. by rewrite app_nil_r. }
  rewrite Hr. assert (Hws : Forall (fun c => c ∈ map (@rev byte) spaces) (map (@rev byte) (rev ws2))).
  { apply Forall_forall. intros c (c' & -> & Hc')%list_elem_of_fmap. apply list_elem_of_fmap. exists c'. split; [done|].
    rewrite Forall_forall in H2. apply H2. by apply list_elem_of_In, in_rev, list_elem_of_In. }
  destruct (rev core) as [|z rc] eqn:Erc.
  { apply (f_equal (@length byte)) in Erc. rewrite length_rev in Erc. done. }
  rewrite trim_spaces_core; [|vm_compute; reflexivity|done|done| |].
  - rewrite <- Erc. apply rev_involutive.
  - apply (Forall_forall _ core) with (x := z) in Hg; [done|]. apply list_elem_of_In, in_rev. rewrite Erc. by left.
  - pose proof (length_concat_spaces _ _ Hc2 Hws) as Hlen. rewrite <- Hr in Hlen. rewrite length_rev in Hlen.
    rewrite length_app. lia.
Qed.

Lemma b64_char_graph enc v : known enc -> 0 <= v < 64 -> graph (Ascii.byte_of_ascii (b64_char enc v)).
Proof.
  intros Hk Hv.
  assert (Hall : forall e, e ∈ [StdEncoding; RawURLEncoding] ->
    forallb (fun v => let b := b2z (Ascii.byte_of_ascii (b64_char e v)) in (33 <=? b) && (b <? 127)) (seqZ 0 64) = true).
  { intros e. rewrite !elem_of_cons. intros [->|[->|[]%not_elem_of_nil]]; vm_compute; reflexivity. }
  specialize (Hall enc ltac:(rewrite !elem_of_cons; unfold known in Hk; tauto)).
  rewrite forallb_forall in Hall. specialize (Hall v ltac:(apply list_elem_of_In, elem_of_seqZ; lia)).
  unfold graph. cbv zeta in Hall. lia.
Qed.

Lemma base64_graph enc src : known enc -> Forall graph (Socks.to_bytes (EncodeToString enc src)).
Proof.
  intros Hk. assert (Hm : forall v, 0 <= v mod 64 < 64) by (intros; apply Z.mod_pos_bound; lia).
  assert (Hpad : graph (Ascii.byte_of_ascii padChar)) by (vm_compute; split; [discriminate|reflexivity]).
  induction src as [|a|a b|a b c src IH] using bytes3_ind; [constructor|..]; cbn [EncodeToString]; rewrite !to_bytes_cons.
  - pose proof (b2z_range a). destruct (sextets (b2z a) 0 0) as (Hr & _); [lia..|].
    rewrite !Z.mul_0_l, !Z.add_0_r in Hr.
    repeat (apply Forall_cons; split; [by apply b64_char_graph|]). destruct (b64_pad enc); [|constructor].
    rewrite !to_bytes_cons. by repeat constructor.
  - pose proof (b2z_range a). pose proof (b2z_range b). destruct (sextets (b2z a) (b2z b) 0) as (Hr & _); [lia..|].
    rewrite !Z.add_0_r in Hr.
    repeat (apply Forall_cons; split; [by apply b64_char_graph|]). destruct (b64_pad enc); [|constructor].
    rewrite !to_bytes_cons. by repeat constructor.
  - pose proof (b2z_range a). pose proof (b2z_range b). pose proof (b2z_range c).
    destruct (sextets (b2z a) (b2z b) (b2z c)) as (Hr & _); [lia..|].
    repeat (apply Forall_cons; split; [by apply b64_char_graph|]). done.
Qed.

Lemma HasPrefix_append p s : HasPrefix (String.append p s) p = true.
Proof. apply HasPrefix_app. Qed.

Lemma sdrop_append p s : sdrop (String.length p) (String.append p s) = s.
Proof. induction p as [|c p IH]; [done|]. rewrite append_cons. apply IH. Qed.

Section code_proofs.
Context `{Flate} `{Json}.

(** Decoding a code that was encoded under a prefix, with spaces around it. *)
Lemma decode_manual_eq {A} prefix (unmarshal : bytes -> option A) data a ws1 ws2 code :
  prefix <> EmptyString -> Forall graph (Socks.to_bytes prefix) ->
  Forall (fun c => c ∈ spaces) ws1 -> Forall (fun c => c ∈ spaces) ws2 ->
  unmarshal data = Some a -> encode_manual prefix data = Ok code ->
  decode_manual prefix unmarshal (Socks.of_bytes (concat ws1 ++ Socks.to_bytes code ++ concat ws2)) = Ok a.
Proof.
  intros Hne Hp H1 H2' Hu [= <-]. unfold decode_manual.
  rewrite TrimSpace_visible; [|done|done| |].
  - rewrite of_to_bytes, HasPrefix_append. cbn [negb]. rewrite sdrop_append, base64_roundtrip by by right.
    unfold inflateBytes. by rewrite flate_roundtrip, Hu.
  - rewrite to_bytes_app. destruct prefix; [done|]. by rewrite to_bytes_cons.
  - rewrite to_bytes_app. apply Forall_app. split; [done|]. apply base64_graph. by right.
Qed.

(** The code of a manual offer or answer decodes to the offer or answer,
    with any white space around it, as it comes from a copied text; and the
    code of an answer is never taken for an offer, nor the reverse. *)
Theorem manual_code_roundtrip offer answer ws1 ws2 :
  utf8 (mo_SessionID offer) = true -> utf8 (mo_ObfsKey offer) = true -> utf8 (mo_RelayAddr offer) = true ->
  utf8 (mo_CompressedSDP offer) = true -> utf8 (ma_CompressedSDP answer) = true ->
  Forall (fun c => c ∈ spaces) ws1 -> Forall (fun c => c ∈ spaces) ws2 ->
  exists co ca, EncodeManualOffer offer = Ok co /\ EncodeManualAnswer answer = Ok ca /\
    let pasted s := Socks.of_bytes (concat ws1 ++ Socks.to_bytes s ++ concat ws2) in
    DecodeManualOffer (pasted co) = Ok offer /\ DecodeManualAnswer (pasted ca) = Ok answer /\
    is_ok (DecodeManualOffer (pasted ca)) = false /\ is_ok (DecodeManualAnswer (pasted co)) = false.
Proof.
  intros U1 U2 U3 U4 U5 S1 S2. eexists _, _. split; [reflexivity|]. split; [reflexivity|]. cbv zeta.
  assert (Hpre : Forall graph (Socks.to_bytes ManualOfferPrefix) /\ Forall graph (Socks.to_bytes ManualAnswerPrefix)).
  { split; apply Forall_forall; intros b Hb; apply list_elem_of_In in Hb; cbn in Hb;
      repeat (destruct Hb as [<-|Hb]; [unfold graph; vm_compute; split; [discriminate|reflexivity]|]); done. }
  destruct Hpre as [P1 P2].
  assert (Hg : forall p d, Forall graph (Socks.to_bytes p) ->
    Forall graph (Socks.to_bytes (String.append p (EncodeToString RawURLEncoding d)))).
  { intros p d Hp. rewrite to_bytes_app. apply Forall_app. split; [done|]. apply base64_graph. by right. }
  split_and!.
  - eapply decode_manual_eq; [done|done|done|done|by apply json_offer_roundtrip|reflexivity].
  - eapply decode_manual_eq; [done|done|done|done|by apply json_answer_roundtrip|reflexivity].
  - unfold DecodeManualOffer, decode_manual. rewrite TrimSpace_visible, of_to_bytes by (done || by apply Hg). done.
  - unfold DecodeManualAnswer, decode_manual. rewrite TrimSpace_visible, of_to_bytes by (done || by apply Hg). done.
Qed.

Lemma Join_lines ls : ls <> [] -> String.append (Join crlf ls) crlf = unlines ls.
Proof.
  induction ls as [|l [|l' ls] IH]; intros Hne; [done|cbn [Join unlines]; by rewrite append_nil_r|].
  change (Join crlf (l :: l' :: ls)) with (String.append l (String.append crlf (Join crlf (l' :: ls)))).
  rewrite !append_assoc, IH by done. done.
Qed.

(** The lines of a description that are kept. *)
Lemma MinifySDP_unlines ls :
  Forall plain ls ->
  MinifySDP (unlines ls) = if decide (List.filter keep_line ls = []) then unlines ls else unlines (List.filter keep_line ls).
Proof.
  intros Hp. pose proof (split_crlf_unlines ls EmptyString Hp) as Hs. rewrite append_nil_r in Hs.
  assert (Hf : List.filter keep_line (split_crlf (unlines ls)) = List.filter keep_line ls).
  { rewrite Hs, List.filter_app. apply app_nil_r. }
  unfold MinifySDP. rewrite Hf.
  destruct (List.filter keep_line ls) as [|l ks] eqn:Ef; [by rewrite !decide_True|].
  rewrite !decide_False by done. rewrite <- Join_lines by done. done.
Qed.

Lemma filter_keep_idem ls : List.filter keep_line (List.filter keep_line ls) = List.filter keep_line ls.
Proof. induction ls as [|l ls IH]; [done|]. cbn [List.filter]. destruct (keep_line l) eqn:E; [|done]. cbn [List.filter]. by rewrite E, IH. Qed.

(** A compressed description is read back as its minified form: the lines
    of the description that begin with one of the kept prefixes, in their
    order, or the whole description if there is none.  Minifying again changes
    nothing, and the only error on the way back is that the result has no
    version line. *)
Theorem sdp_compression ls :
  Forall plain ls ->
  let kept := List.filter keep_line ls in
  let minified := if decide (kept = []) then unlines ls else unlines kept in
  MinifySDP minified = minified /\
  exists c, CompressSDP (unlines ls) = Ok c /\
    DecompressSDP c = if Contains minified "v=" then Ok minified
                      else Err (EMsg "decompressed data does not look like SDP" []).
Proof.
  intros Hp kept minified. split.
  - unfold minified. case_decide as Hk; rewrite MinifySDP_unlines.
    + fold kept. by rewrite decide_True.
    + done.
    + unfold kept. rewrite filter_keep_idem. by rewrite decide_False.
    + unfold kept. rewrite Forall_forall in Hp. apply Forall_forall. intros x Hx. apply list_elem_of_In in Hx. apply List.filter_In in Hx.
      apply Hp, list_elem_of_In. tauto.
  - eexists. split; [reflexivity|]. unfold DecompressSDP. rewrite base64_roundtrip by by right.
    rewrite flate_roundtrip, of_to_bytes, MinifySDP_unlines by done. done.
Qed.

End code_proofs.

Section crypto_proofs.
Context {K R : Type} `{AEAD K} `{Rand R}.
Variables (hkdf : bytes -> res goerr bytes) (gcm : bytes -> res goerr K).

Lemma EncryptPayload_eq data obfsKey k r :
  signaling_cipher hkdf gcm obfsKey = Ok k ->
  EncryptPayload hkdf gcm data obfsKey r =
    (Ok (fst (rread signalNonceSize r) ++ Seal k (fst (rread signalNonceSize r)) data), snd (rread signalNonceSize r)).
Proof.
  intros Hk. unfold EncryptPayload. rewrite Hk. destruct (rread signalNonceSize r) as [nonce r'] eqn:Er.
  cbn [fst snd]. do 2 f_equal. rewrite replicate_add.
  rewrite splice_app_0 by (rewrite length_app, !length_replicate; lia).
  rewrite drop_app_length' by by rewrite length_replicate.
  rewrite splice_app by by rewrite length_replicate. rewrite drop_ge by by rewrite length_replicate. by rewrite app_nil_r.
Qed.

(** A payload that was encrypted decrypts under the same key. *)
Lemma DecryptPayload_eq data obfsKey k r c r' :
  signaling_cipher hkdf gcm obfsKey = Ok k -> EncryptPayload hkdf gcm data obfsKey r = (Ok c, r') ->
  DecryptPayload hkdf gcm c obfsKey = Ok data /\ length c = (length data + 28)%nat.
Proof.
  intros Hk. rewrite (EncryptPayload_eq _ _ _ _ Hk). intros [= <- <-]. unfold DecryptPayload. rewrite Hk. cbn [res_bind].
  pose proof (length_rread signalNonceSize r) as Hn.
  rewrite length_app, length_Seal, Hn. split; [|unfold signalNonceSize; lia].
  rewrite (proj2 (Nat.ltb_ge _ _)) by lia. rewrite take_app_length', drop_app_length' by done. by rewrite Open_Seal.
Qed.

End crypto_proofs.

(** ** Instances to run the definitions on

    Nothing is compressed, and a value is written as the binary digits of its
    code; strings are valid when they are ASCII. *)

#[export, refine] Instance toy_flate : Flate := {| flate_compress b := b; flate_read b := Ok b |}.
Proof. done. Defined.

Fixpoint digits_of (p : positive) : bytes :=
  match p with
  | xH => []
  | xO p => z2b 48 :: digits_of p
  | xI p => z2b 49 :: digits_of p
  end.

Fixpoint digits_to (l : bytes) : option positive :=
  match l with
  | [] => Some xH
  | b :: l => if b2z b =? 48 then xO <$> digits_to l else if b2z b =? 49 then xI <$> digits_to l else None
  end.

Lemma digits_roundtrip p : digits_to (digits_of p) = Some p.
Proof. induction p as [p IH|p IH|]; cbn; [| |done]; rewrite IH; done. Qed.

Definition toy_write {A} `{Countable A} (a : A) : bytes := z2b 64 :: digits_of (encode a).
Definition toy_read {A} `{Countable A} (l : bytes) : option A :=
  match l with [] => None | _ :: l => digits_to l ≫= decode end.

Lemma toy_roundtrip {A} `{Countable A} (a : A) : toy_read (toy_write a) = Some a.
Proof. cbn. rewrite digits_roundtrip. cbn. apply decode_encode. Qed.

Lemma toy_write_ascii {A} `{Countable A} (a : A) : Forall (fun b => 48 <= b2z b < 65) (toy_write a).
Proof.
  unfold toy_write. constructor; [vm_compute; split; [discriminate|reflexivity]|].
  generalize (encode a). intros p. induction p; cbn; constructor; try done; vm_compute; split; try discriminate; reflexivity.
Qed.

#[export] Instance ManualOffer_eq_dec : EqDecision ManualOffer.
Proof. solve_decision. Defined.
#[export] Instance ManualAnswer_eq_dec : EqDecision ManualAnswer.
Proof. solve_decision. Defined.
#[export] Instance peerInfo_eq_dec : EqDecision peerInfo.
Proof. solve_decision. Defined.

#[export, refine] Instance ManualOffer_countable : Countable ManualOffer :=
  inj_countable' (fun o => ((mo_Version o, mo_SessionID o, mo_ObfsKey o, mo_RelayAddr o, mo_NumChannels o),
      (mo_SmuxStreamBuffer o, mo_SmuxSessionBuffer o, mo_SmuxFrameSize o, mo_DCMaxBuffered o, mo_DCLowMark o),
      (mo_PaddingMax o, mo_Padding o, mo_TransportV o, mo_SmuxKeepAlive o, mo_SmuxKeepAliveTimeout o, mo_CompressedSDP o)))
    (fun '((a, b, c, d, e), (f, g, h, i, j), (k, l, m, n, o, p)) => mkManualOffer a b c d e f g h i j k l m n o p) _.
Proof. by intros []. Defined.
#[export, refine] Instance ManualAnswer_countable : Countable ManualAnswer :=
  inj_countable' (fun a => (ma_Version a, ma_CompressedSDP a)) (fun '(v, s) => mkManualAnswer v s) _.
Proof. by intros []. Defined.
#[export, refine] Instance peerInfo_countable : Countable peerInfo :=
  inj_countable' (fun a => (pi_IP a, pi_Port a)) (fun '(i, p) => mkPeerInfo i p) _.
Proof. by intros []. Defined.

#[export, refine] Instance toy_json : Json := {|
  utf8 s := forallb (fun b => b2z b <? 128) (Socks.to_bytes s);
  json_offer := toy_write; json_get_offer := toy_read;
  json_answer := toy_write; json_get_answer := toy_read;
  json_sdp := toy_write; json_get_sdp := toy_read;
  json_strings := toy_write; json_get_strings := toy_read;
  json_peer := toy_write; json_get_peer := toy_read
|}.
Proof.
  1-5: intros; apply toy_roundtrip.
  - intros l. rewrite to_of_bytes. apply forallb_forall. intros b Hb%list_elem_of_In.
    pose proof (toy_write_ascii l) as Hw. rewrite Forall_forall in Hw. apply Hw in Hb. lia.
  - done.
  - intros s Hs. apply forallb_forall. intros b Hb%list_elem_of_In. rewrite Forall_forall in Hs. apply Hs in Hb. lia.
  - intros s. pose proof (toy_write_ascii s) as Hw. rewrite Forall_forall in Hw.
    split_and!; [intros Hb%Hw; rewrite b2z_z2b_small in Hb by lia; lia..|done].
Defined.

Definition toy_offer : ManualOffer :=
  mkManualOffer 1 "abc" "a2V5" "" 2 0 0 0 0 0 0 true 0 10 30 "eJx".

Lemma manual_code_roundtrip_witness :
  exists co, EncodeManualOffer toy_offer = Ok co /\
    DecodeManualOffer (Socks.of_bytes (concat [map z2b [32]; map z2b [194; 160]] ++ Socks.to_bytes co ++ concat [map z2b [10]]))
    = Ok toy_offer.
Proof.
  destruct (manual_code_roundtrip toy_offer (mkManualAnswer 1 "eJx") [map z2b [32]; map z2b [194; 160]] [map z2b [10]])
    as (co & ca & Hco & _ & Hd & _); [reflexivity..| | |].
  - repeat (apply Forall_cons; split; [apply (bool_decide_unpack _); vm_compute; exact I|]). constructor.
  - repeat (apply Forall_cons; split; [apply (bool_decide_unpack _); vm_compute; exact I|]). constructor.
  - exists co. split; [exact Hco|exact Hd].
Defined.

Lemma sdp_compression_witness :
  exists c, CompressSDP (unlines ["v=0"; "a=group:BUNDLE 0"; "a=mid:0"]) = Ok c /\
    DecompressSDP c = Ok (unlines ["v=0"; "a=mid:0"]).
Proof.
  destruct (sdp_compression ["v=0"; "a=group:BUNDLE 0"; "a=mid:0"]) as [_ (c & Hc & Hd)].
  - repeat (apply Forall_cons; split; [reflexivity|]). constructor.
  - exists c. split; [exact Hc|]. exact Hd.
Defined.
