(* ===== verification/Signal.v ===== *)
(** * The signalling client

    [golib/signaling/signaling.go] and [supabase_rendezvous.go]: offers and
    answers are posted to a signalling server (or a Supabase table) and polled
    or streamed by the other side; servers are listed for discovery.  Also
    [golib/util/backoff.go], which paces the polling.

    The HTTP client, the clock and the random jitter are the class [Http].
    Loops that wait for a peer run until a deadline; [poll] has fuel, and the
    theorem [polling_terminates] shows that it is never used up.  Times are
    nanoseconds. *)

From S2P Require Import Prelude IO GoStr Socks Obfs Sdp SignalServer Codes.
Import Sdp.

Open Scope Z_scope.

(** ** The HTTP client *)

Record httpResp := mkHttpResp { StatusCode : Z; Body : res goerr bytes }.

Class Http (E : Type) := {
  http_now : E -> Z;
  http_sleep : Z -> E -> E;
  (* a number between two bounds: what the floating-point jitter comes to *)
  http_jitter : Z -> Z -> E -> Z * E;
  http_NewRequest : string -> string -> res goerr unit;        (* method, URL *)
  http_Get : string -> Prog E httpResp;
  http_Post : string -> bytes -> Prog E httpResp;
  (* method, URL, headers, body *)
  http_Do : string -> string -> list (string * string) -> bytes -> Prog E httpResp;
  (* an event stream: the status, and what will arrive *)
  http_Stream : string -> Prog E (Z * reader);
  ctx_Err : E -> option goerr
}.

Definition second : Z := 10 ^ 9.

(** ** Back-off ([util/backoff.go])

    [Jitter] is in per cent; the only factor in use is 2. *)

Record Backoff := mkBackoff { bo_Base : Z; bo_Max : Z; bo_Factor : Z; bo_Jitter : Z; bo_attempt : nat }.

Definition NewBackoff (base max jitter : Z) : Backoff := mkBackoff base max 2 jitter 0.

(** The delay before jitter, after the defaults. *)
Definition backoff_delay (b : Backoff) : Z :=
  let base := if bo_Base b =? 0 then second else bo_Base b in
  let max := if bo_Max b =? 0 then 60 * second else bo_Max b in
  let factor := if bo_Factor b =? 0 then 2 else bo_Factor b in
  let delay := base * factor ^ Z.of_nat (bo_attempt b) in
  if max <? delay then max else delay.

Definition backoff_advance (b : Backoff) : Backoff :=
  mkBackoff (if bo_Base b =? 0 then second else bo_Base b) (if bo_Max b =? 0 then 60 * second else bo_Max b)
    (if bo_Factor b =? 0 then 2 else bo_Factor b) (bo_Jitter b) (S (bo_attempt b)).

Definition backoff_Next `{Http E} (b : Backoff) (e : E) : Z * Backoff * E :=
  let delay := backoff_delay b in
  if 0 <? bo_Jitter b then
    let jitterRange := delay * bo_Jitter b / 100 in
    let '(d, e) := http_jitter (delay - jitterRange) (delay + jitterRange) e in
    (d, backoff_advance b, e)
  else (delay, backoff_advance b, e).

Definition backoff_Reset (b : Backoff) : Backoff := mkBackoff (bo_Base b) (bo_Max b) (bo_Factor b) (bo_Jitter b) 0.

(** ** URLs *)

Definition cat (l : list string) : string := Join EmptyString l.

(** [url.QueryEscape]. *)
Definition hex_upper (d : Z) : Ascii.ascii := Ascii.ascii_of_N (Z.to_N (if d <? 10 then 48 + d else 55 + d)).

Definition unreserved (c : Ascii.ascii) : bool :=
  let z := code c in
  ((48 <=? z) && (z <=? 57)) || ((65 <=? z) && (z <=? 90)) || ((97 <=? z) && (z <=? 122)) ||
  bool_decide (c ∈ ["-"; "_"; "."; "~"]%char).

Fixpoint QueryEscape (s : string) : string :=
  match s with
  | EmptyString => EmptyString
  | String c s =>
      if unreserved c then String c (QueryEscape s)
      else if decide (c = " "%char) then String "+"%char (QueryEscape s)
      else String "%"%char (String (hex_upper (code c / 16)) (String (hex_upper (code c mod 16)) (QueryEscape s)))
  end.

(** What the Supabase back end needs of [net/url] and of JSON. *)
Class Supa := {
  url_HostPath : string -> res goerr (string * string);      (* [url.Parse]: host and path *)
  supa_session_row : string -> string -> bytes -> bytes;      (* session, field, payload *)
  supa_rows : bytes -> option (list (gmap string bytes));
  supa_listing : list (string * string) -> bytes
}.

Section client.
Context {K R E : Type} `{AE : AEAD K} `{RA : Rand R} `{JS : Json} `{HE : Http E} `{SU : Supa}.
Variables (hkdf : bytes -> res goerr bytes) (gcm : bytes -> res goerr K).

Record sworld := mkSW { sw_env : E; sw_rand : R }.

Definition on_env {A} (m : Prog E A) : Prog sworld A :=
  fun w => let '(r, e) := m (sw_env w) in (r, mkSW e (sw_rand w)).

Definition sleep (d : Z) (w : sworld) : sworld := mkSW (http_sleep d (sw_env w)) (sw_rand w).

(** *** Polling *)

(** [for time.Now().Before(deadline)] around an attempt: a result or an error
    ends the loop, otherwise the loop sleeps and tries again.  The outer
    [None] is the fuel. *)
Fixpoint poll {A} (fuel : nat) (deadline : Z) (b : Backoff) (timeout : goerr) (attempt : Prog sworld (option A))
    (w : sworld) : option (res goerr A * sworld) :=
  match fuel with
  | O => None
  | S fuel =>
      if http_now (sw_env w) <? deadline then
        match attempt w with
        | (Err e, w) => Some (Err e, w)
        | (Ok (Some a), w) => Some (Ok a, w)
        | (Ok None, w) =>
            let '(d, b, e) := backoff_Next b (sw_env w) in
            poll fuel deadline b timeout attempt (sleep d (mkSW e (sw_rand w)))
        end
      else Some (Err timeout, w)
  end.

Definition peerInfoRetries : Z := 30.
Definition peerRetryInterval : Z := 2 * second.
Definition poll_fuel : nat := 250.

Definition out_of_fuel : goerr := EMsg "" [].

Definition run_poll {A} (b : Backoff) (timeout : goerr) (attempt : Prog sworld (option A)) : Prog sworld A :=
  fun w =>
    match poll poll_fuel (http_now (sw_env w) + peerInfoRetries * peerRetryInterval) b timeout attempt w with
    | Some r => r
    | None => (Err out_of_fuel, w)
    end.

(** The part of an attempt that the loops share, after the request: not
    found means try again. *)
Definition read_response (r : res goerr httpResp) : res goerr (option bytes) :=
  match r with
  | Err _ => Ok None
  | Ok resp =>
      if StatusCode resp =? 404 then Ok None
      else match Body resp with
           | Err e => Err (EWrap "read response" e)
           | Ok body => Ok (Some body)
           end
  end.

(** The payload in a response; an empty one means that the slot was cleared. *)
Definition parse_sdp (body : bytes) : res goerr (option string) :=
  match json_get_sdp body with
  | None => Err (EMsg "parse SDP payload" [])
  | Some sdp => if decide (sdp = EmptyString) then Ok None else Ok (Some sdp)
  end.

Definition of_result {A} (r : res goerr A) : Prog sworld A := fun w => (r, w).

Definition get_sdp_attempt (url : string) : Prog sworld (option string) :=
  let* r := ntry (on_env (http_Get url)) in
  let* o := of_result (read_response r) in
  match o with
  | None => nret None
  | Some body => of_result (parse_sdp body)
  end.

Definition get_sdp_attempt_ctx (url : string) : Prog sworld (option string) :=
  fun w =>
    match ctx_Err (sw_env w) with
    | Some e => (Err (EWrap "cancelled" e), w)
    | None =>
        match http_NewRequest "GET" url with
        | Err e => (Err (EWrap "create request" e), w)
        | Ok _ =>
            let '(r, w) := on_env (http_Get url) w in
            match r, ctx_Err (sw_env w) with
            | Err _, Some e => (Err (EWrap "cancelled" e), w)
            | _, _ =>
                (let* o := of_result (read_response r) in
                 match o with None => nret None | Some body => of_result (parse_sdp body) end) w
            end
        end
    end.

Definition get_peer_attempt (url : string) : Prog sworld (option (string * Z)) :=
  let* r := ntry (on_env (http_Get url)) in
  let* o := of_result (read_response r) in
  match o with
  | None => nret None
  | Some body =>
      match json_get_peer body with
      | None => nfail (EMsg "parse peer info" [])
      | Some info => nret (Some (pi_IP info, pi_Port info))
      end
  end.

Definition signal_backoff : Backoff := NewBackoff second (10 * second) 50.

Definition getPeerInfo (url : string) : Prog sworld (string * Z) :=
  run_poll signal_backoff (EMsg "peer info not available within timeout" []) (get_peer_attempt url).

Definition getSDPInfoCtx (url : string) : Prog sworld string :=
  run_poll signal_backoff (EMsg "SDP not available within timeout" []) (get_sdp_attempt_ctx url).

(** *** Supabase *)

Definition supabase_scheme : string := "supabase://".
Definition isSupabaseURL (signalingURL : string) : bool := HasPrefix signalingURL supabase_scheme.

Definition supabaseProjectRef (signalingURL : string) : res goerr string :=
  let! hp := url_HostPath signalingURL in
  let ref := TrimSpace hp.1 in
  let ref := if decide (ref = EmptyString)
             then Trim " "%char (match hp.2 with String c s => if decide (c = slash) then s else hp.2 | EmptyString => EmptyString end)
             else ref in
  if decide (ref = EmptyString) then Err (EMsg "supabase url missing project ref" []) else Ok ref.

Definition supabaseRestBase (signalingURL : string) : res goerr string :=
  let! ref := supabaseProjectRef signalingURL in
  Ok (cat ["https://"; ref; ".supabase.co/rest/v1"]).

Definition supabase_headers (key : string) : list (string * string) :=
  [("apikey", key); ("Authorization", String.append "Bearer " key);
   ("Content-Type", "application/json"); ("Accept", "application/json")].

(** The anonymous key of the program. *)
Variable supabaseAnonKey : string.

(** [newSupabaseRequest] and the request itself; [extra] are the headers that
    the caller sets. *)
Definition supabase_request (method fullURL : string) (body : bytes) (extra : list (string * string))
    : Prog sworld httpResp :=
  let* _ := of_result (http_NewRequest method fullURL) in
  on_env (http_Do method fullURL (supabase_headers supabaseAnonKey ++ extra) body).

Definition merge_duplicates : list (string * string) := [("Prefer", "resolution=merge-duplicates,return=minimal")].

Definition supaUpsertSession (signalingURL sessionID field : string) (payload : bytes) : Prog sworld unit :=
  let* base := of_result (supabaseRestBase signalingURL) in
  let body := supa_session_row sessionID field payload in
  let full := String.append base "/rendezvous_sessions?on_conflict=session_id" in
  let* resp := supabase_request "POST" full body merge_duplicates in
  if (StatusCode resp =? 201) || (StatusCode resp =? 200) then nret tt
  else nfail (EMsg "supabase upsert session: status %d" [StatusCode resp]).

Definition json_null : bytes := map z2b [110; 117; 108; 108].

Definition supaGetSessionField (signalingURL sessionID field : string) : Prog sworld (option bytes) :=
  let* base := of_result (supabaseRestBase signalingURL) in
  let full := cat [base; "/rendezvous_sessions?select="; field; "&session_id=eq."; QueryEscape sessionID; "&limit=1"] in
  let* resp := supabase_request "GET" full [] [] in
  if negb (StatusCode resp =? 200) then nfail (EMsg "supabase get session: status %d" [StatusCode resp])
  else
    let* b := of_result (Body resp) in
    match supa_rows b with
    | None => nfail (EMsg "unmarshal" [])
    | Some [] => nret None
    | Some (row :: _) =>
        match row !! field with
        | None => nret None
        | Some v => if decide (v = [] \/ v = json_null) then nret None else nret (Some v)
        end
    end.

(** Errors are retried, unlike in the loops above. *)
Definition supa_attempt (signalingURL sessionID field : string) : Prog sworld (option bytes) :=
  let* r := ntry (supaGetSessionField signalingURL sessionID field) in
  nret (match r with Ok v => v | Err _ => None end).

Definition supa_backoff : Backoff := NewBackoff (second / 2) (5 * second) 50.

Definition supaWaitSessionField (signalingURL sessionID field : string) : Prog sworld bytes :=
  run_poll supa_backoff (EMsg "timeout" []) (supa_attempt signalingURL sessionID field).

Definition trim_prefix (p s : string) : string := if HasPrefix s p then sdrop (String.length p) s else s.

Definition getSDPInfo (url : string) : Prog sworld string :=
  let plain_http := run_poll signal_backoff (EMsg "SDP not available within timeout" []) (get_sdp_attempt url) in
  if isSupabaseURL url then
    let parts := split_char slash (trim_prefix supabase_scheme url) in
    if (4 <=? length parts)%nat then
      let ref := nth 0 parts EmptyString in
      let sessionID := nth (length parts - 2) parts EmptyString in
      let field := nth (length parts - 1) parts EmptyString in
      let* b := supaWaitSessionField (String.append supabase_scheme ref) sessionID field in
      match json_get_sdp b with
      | None => nfail (EMsg "parse SDP payload" [])
      | Some sdp => if decide (sdp = EmptyString) then nfail (EMsg "SDP empty" []) else nret sdp
      end
    else plain_http
  else plain_http.

(** *** Offers and answers *)

Definition session_url (signalingURL sessionID kind : string) : string :=
  cat [signalingURL; "/session/"; sessionID; "/"; kind].

Definition post_json (ctx : string) (url : string) (body : bytes) : Prog sworld unit :=
  let* resp := nwrap ctx (on_env (http_Post url body)) in
  if StatusCode resp =? 200 then nret tt else nfail (EMsg (String.append ctx ": status %d") [StatusCode resp]).

Definition PostOffer (signalingURL sessionID ip : string) (port : Z) : Prog sworld unit :=
  let body := json_peer (mkPeerInfo ip port) in
  if isSupabaseURL signalingURL then supaUpsertSession signalingURL sessionID "offer" body
  else post_json "post offer" (session_url signalingURL sessionID "offer") body.

Definition PostAnswer (signalingURL sessionID ip : string) (port : Z) : Prog sworld unit :=
  let body := json_peer (mkPeerInfo ip port) in
  if isSupabaseURL signalingURL then supaUpsertSession signalingURL sessionID "answer" body
  else post_json "post answer" (session_url signalingURL sessionID "answer") body.

(** [GetOffer] and [GetAnswer]. *)
Definition get_endpoint (ctx kind signalingURL sessionID : string) : Prog sworld (string * Z) :=
  if isSupabaseURL signalingURL then
    let* b := nwrap ctx (supaWaitSessionField signalingURL sessionID kind) in
    match json_get_peer b with
    | None => nfail (EMsg (String.append ctx ": parse") [])
    | Some info => nret (pi_IP info, pi_Port info)
    end
  else getPeerInfo (session_url signalingURL sessionID kind).

Definition GetOffer := get_endpoint "get offer" "offer".
Definition GetAnswer := get_endpoint "get answer" "answer".

(** The encryption of a payload, when there is a key. *)
Definition protect (ctx payload : string) (obfsKey : bytes) : Prog sworld string :=
  fun w =>
    match obfsKey with
    | [] => (Ok payload, w)
    | _ =>
        match EncryptPayload hkdf gcm (Socks.to_bytes payload) obfsKey (sw_rand w) with
        | (Err e, r) => (Err (EWrap ctx e), mkSW (sw_env w) r)
        | (Ok encrypted, r) => (Ok (EncodeToString StdEncoding encrypted), mkSW (sw_env w) r)
        end
    end.

Definition decryptSDPPayload (encoded : string) (obfsKey : bytes) : res goerr string :=
  match DecodeString StdEncoding encoded with
  | None => Err (EMsg "decode encrypted SDP" [])
  | Some data =>
      if (12 <=? length data)%nat && negb (guard_Check globalReplayGuard (take 12 data))
      then Err (EMsg "SDP replay detected" [])
      else match DecryptPayload hkdf gcm data obfsKey with
           | Err e => Err (EWrap "decrypt SDP" e)
           | Ok plaintext => Ok (Socks.of_bytes plaintext)
           end
  end.

Definition unprotect (raw : string) (obfsKey : bytes) : res goerr string :=
  match obfsKey with [] => Ok raw | _ => decryptSDPPayload raw obfsKey end.

Definition post_payload (ctx kind signalingURL sessionID payload : string) : Prog sworld unit :=
  post_json ctx (session_url signalingURL sessionID kind) (json_sdp payload).

Definition PostSDPOffer (signalingURL sessionID sdp : string) (obfsKey : bytes) : Prog sworld unit :=
  let* payload := protect "encrypt SDP offer" sdp obfsKey in
  if isSupabaseURL signalingURL then supaUpsertSession signalingURL sessionID "offer" (json_sdp payload)
  else post_payload "post SDP offer" "offer" signalingURL sessionID payload.

Definition GetSDPOffer (signalingURL sessionID : string) (obfsKey : bytes) : Prog sworld string :=
  let* raw := getSDPInfo (session_url signalingURL sessionID "offer") in
  of_result (unprotect raw obfsKey).

(** An empty answer clears the slot and is not encrypted. *)
Definition PostSDPAnswer (signalingURL sessionID sdp : string) (obfsKey : bytes) : Prog sworld unit :=
  let* payload := (if decide (sdp = EmptyString) then nret sdp else protect "encrypt SDP answer" sdp obfsKey) in
  if isSupabaseURL signalingURL then supaUpsertSession signalingURL sessionID "answer" (json_sdp payload)
  else post_payload "post SDP answer" "answer" signalingURL sessionID payload.

Definition GetSDPAnswer (signalingURL sessionID : string) (obfsKey : bytes) : Prog sworld string :=
  let* raw := getSDPInfo (session_url signalingURL sessionID "answer") in
  of_result (unprotect raw obfsKey).

(** *** Several connections: the payload is a JSON array *)

Definition PostSDPOffers (signalingURL sessionID : string) (sdps : list string) (obfsKey : bytes) : Prog sworld unit :=
  let payload := Socks.of_bytes (json_strings sdps) in
  let* payload := protect "encrypt SDP offers" payload obfsKey in
  post_payload "post SDP offers" "offer" signalingURL sessionID payload.

(** A payload that is not an array is a single description. *)
Definition sdp_list (raw : string) : list string := default [raw] (json_get_strings (Socks.to_bytes raw)).

Definition GetSDPOffers (signalingURL sessionID : string) (obfsKey : bytes) : Prog sworld (list string) :=
  let* raw := getSDPInfo (session_url signalingURL sessionID "offer") in
  let* raw := of_result (unprotect raw obfsKey) in
  nret (sdp_list raw).

Definition answers_payload (sdps : option (list string)) (obfsKey : bytes) : Prog sworld string :=
  let payload := match sdps with Some l => Socks.of_bytes (json_strings l) | None => EmptyString end in
  if decide (payload = EmptyString) then nret payload else protect "encrypt SDP answers" payload obfsKey.

(** [None] clears the slot. *)
Definition PostSDPAnswers (signalingURL sessionID : string) (sdps : option (list string)) (obfsKey : bytes)
    : Prog sworld unit :=
  let* payload := answers_payload sdps obfsKey in
  post_payload "post SDP answers" "answer" signalingURL sessionID payload.

Definition GetSDPAnswers (signalingURL sessionID : string) (obfsKey : bytes) : Prog sworld (list string) :=
  let* raw := getSDPInfo (session_url signalingURL sessionID "answer") in
  let* raw := of_result (unprotect raw obfsKey) in
  nret (sdp_list raw).

Definition GetSDPOffersCtx (signalingURL sessionID : string) (obfsKey : bytes) : Prog sworld (list string) :=
  let* raw := getSDPInfoCtx (session_url signalingURL sessionID "offer") in
  let* raw := of_result (unprotect raw obfsKey) in
  nret (sdp_list raw).

Definition PostSDPAnswersCtx (signalingURL sessionID : string) (sdps : option (list string)) (obfsKey : bytes)
    : Prog sworld unit :=
  let* payload := answers_payload sdps obfsKey in
  let url := session_url signalingURL sessionID "answer" in
  let* _ := nwrap "create request" (of_result (http_NewRequest "POST" url)) in
  let* resp := nwrap "post SDP answers"
    (on_env (http_Do "POST" url [("Content-Type", "application/json")] (json_sdp payload))) in
  if StatusCode resp =? 200 then nret tt else nfail (EMsg "post SDP answers: status %d" [StatusCode resp]).

(** *** Event streams *)

Definition maxTokenSize : nat := Z.to_nat 65536.

(** The lines that [bufio.Scanner] delivers, without their line ends, and
    whether it stopped at a line that does not fit its buffer. *)
Fixpoint scan_lines (cur : bytes) (s : bytes) : list string * bool :=
  let drop_cr l := match rev l with b :: l' => if b2z b =? 13 then rev l' else l | [] => l end in
  match s with
  | [] => if decide (cur = []) then ([], false)
          else if (length cur <? maxTokenSize)%nat then ([Socks.of_bytes (drop_cr cur)], false) else ([], true)
  | b :: s =>
      if b2z b =? 10 then
        if (length cur <? maxTokenSize)%nat then
          let '(ls, tl) := scan_lines [] s in (Socks.of_bytes (drop_cr cur) :: ls, tl)
        else ([], true)
      else scan_lines (cur ++ [b]) s
  end.

Definition data_prefix : string := "data: ".

(** The loop of [WaitSDPAnswersSSE] over the lines: [None] when they end
    without an answer. *)
Fixpoint sse_answers (obfsKey : bytes) (lines : list string) : option (res goerr (list string)) :=
  match lines with
  | [] => None
  | line :: lines =>
      if negb (HasPrefix line data_prefix) then sse_answers obfsKey lines
      else
        match json_get_sdp (Socks.to_bytes (trim_prefix data_prefix line)) with
        | None => Some (Err (EMsg "parse SSE SDP payload" []))
        | Some sdp =>
            if decide (sdp = EmptyString) then sse_answers obfsKey lines
            else match unprotect sdp obfsKey with
                 | Err e => Some (Err e)
                 | Ok raw => match sdp_list raw with
                             | [] => sse_answers obfsKey lines
                             | sdps => Some (Ok sdps)
                             end
                 end
        end
  end.

Definition stream_url (signalingURL sessionID kind : string) : string :=
  String.append (session_url signalingURL sessionID kind) "/stream".

Definition open_stream (ctx : string) (url : string) : Prog sworld reader :=
  let* _ := nwrap "create SSE request" (of_result (http_NewRequest "GET" url)) in
  let* s := nwrap ctx (on_env (http_Stream url)) in
  if s.1 =? 200 then nret s.2 else nfail (EMsg (String.append ctx ": status %d") [s.1]).

Definition WaitSDPAnswersSSE (signalingURL sessionID : string) (obfsKey : bytes) : Prog sworld (list string) :=
  let* body := open_stream "SSE connect" (stream_url signalingURL sessionID "answer") in
  let '(lines, too_long) := scan_lines [] (rd_data body) in
  match sse_answers obfsKey lines with
  | Some r => of_result r
  | None =>
      if too_long then nfail (EMsg "SSE read: bufio.Scanner: token too long" [])
      else if decide (rd_err body = EOF) then nfail (EMsg "SSE stream ended without answer" [])
      else nfail (EWrap "SSE read" (EIO (rd_err body)))
  end.

(** The offers that the goroutine of [StreamSDPOffers] delivers; here bad
    payloads are skipped. *)
Fixpoint sse_offers (obfsKey : bytes) (lines : list string) : list (list string) :=
  match lines with
  | [] => []
  | line :: lines =>
      if negb (HasPrefix line data_prefix) then sse_offers obfsKey lines
      else
        match json_get_sdp (Socks.to_bytes (trim_prefix data_prefix line)) with
        | None => sse_offers obfsKey lines
        | Some sdp =>
            if decide (sdp = EmptyString) then sse_offers obfsKey lines
            else match unprotect sdp obfsKey with
                 | Err e => sse_offers obfsKey lines
                 | Ok raw => match sdp_list raw with
                             | [] => sse_offers obfsKey lines
                             | sdps => sdps :: sse_offers obfsKey lines
                             end
                 end
        end
  end.

Definition StreamSDPOffers (signalingURL sessionID : string) (obfsKey : bytes) : Prog sworld (list (list string)) :=
  let* body := open_stream "offer SSE connect" (stream_url signalingURL sessionID "offer") in
  nret (sse_offers obfsKey (fst (scan_lines [] (rd_data body)))).

(** *** Discovery *)

Definition nat_fields (natInfo : list string) : list (string * string) :=
  (match natInfo with x :: _ => if decide (x = EmptyString) then [] else [("nat_mapping", x)] | [] => [] end) ++
  (match natInfo with _ :: y :: _ => if decide (y = EmptyString) then [] else [("nat_filtering", y)] | _ => [] end).

Definition listing_fields (name room connectionCode method transport protocol : string) (natInfo : list string)
    : list (string * string) :=
  [("name", name); ("room", room); ("code", connectionCode); ("method", method); ("transport", transport);
   ("protocol", protocol)] ++ nat_fields natInfo.

Fixpoint random_letters (n : nat) (r : R) : string * R :=
  match n with
  | O => (EmptyString, r)
  | S n => let '(x, r) := intn 62 r in
           let '(s, r) := random_letters n r in
           (String (default Ascii.zero (String.get (Z.to_nat x) SignalServer.letters)) s, r)
  end.

Definition randomListingID : Prog sworld string :=
  fun w => let '(s, r) := random_letters 12 (sw_rand w) in (Ok s, mkSW (sw_env w) r).

Definition supaRegisterListing (signalingURL : string) (fields : list (string * string)) : Prog sworld string :=
  let* base := of_result (supabaseRestBase signalingURL) in
  let* id := randomListingID in
  let* resp := supabase_request "POST" (String.append base "/rendezvous_listings?on_conflict=id")
    (supa_listing (("id", id) :: fields)) merge_duplicates in
  if (StatusCode resp =? 201) || (StatusCode resp =? 200) then nret id
  else nfail (EMsg "supabase register listing: status %d" [StatusCode resp]).

Definition listing_url (base id : string) : string := cat [base; "/rendezvous_listings?id=eq."; QueryEscape id].

Definition supaDeleteListing (signalingURL id : string) : Prog sworld unit :=
  let* base := of_result (supabaseRestBase signalingURL) in
  let* resp := supabase_request "DELETE" (listing_url base id) [] [] in
  if (StatusCode resp =? 204) || (StatusCode resp =? 200) then nret tt
  else nfail (EMsg "supabase delete listing: status %d" [StatusCode resp]).

Definition ErrListingExpired : goerr := EMsg "listing expired (404)" [].

(** The body is put together by hand, without escaping the identifier. *)
Definition heartbeat_body (id : string) : bytes :=
  Socks.to_bytes (String.append "{" (String.append (String (Ascii.ascii_of_nat 34) "id")
    (String (Ascii.ascii_of_nat 34) (String ":"%char (String (Ascii.ascii_of_nat 34)
      (String.append id (String (Ascii.ascii_of_nat 34) "}"))))))).

Definition supaHeartbeatListing (signalingURL id : string) : Prog sworld unit :=
  let* base := of_result (supabaseRestBase signalingURL) in
  let* resp := supabase_request "PATCH" (listing_url base id) (heartbeat_body id) [("Prefer", "return=minimal")] in
  if StatusCode resp =? 404 then nfail ErrListingExpired
  else if (StatusCode resp =? 204) || (StatusCode resp =? 200) then nret tt
  else nfail (EMsg "supabase heartbeat listing: status %d" [StatusCode resp]).

Definition supaListListings (signalingURL room : string) : Prog sworld string :=
  let* base := of_result (supabaseRestBase signalingURL) in
  let full := cat [base; "/rendezvous_listings?select=id,name,room,code,method,transport,protocol&order=updated_at.desc"] in
  let full := if decide (room = EmptyString) then full else cat [full; "&room=eq."; QueryEscape room] in
  let* resp := supabase_request "GET" full [] [] in
  let* b := of_result (Body resp) in
  if StatusCode resp =? 200 then nret (Socks.of_bytes b)
  else nfail (EMsg "supabase list listings: status %d" [StatusCode resp]).

(** [json_id] is the field "id" of a response. *)
Variable json_id : bytes -> option string.

Definition RegisterServer (signalingURL name room connectionCode method transport protocol : string)
    (natInfo : list string) : Prog sworld string :=
  let fields := listing_fields name room connectionCode method transport protocol natInfo in
  if isSupabaseURL signalingURL then supaRegisterListing signalingURL fields
  else
    let* resp := nwrap "register server"
      (on_env (http_Post (String.append signalingURL "/discovery/register") (supa_listing fields))) in
    let body := match Body resp with Ok b => b | Err _ => [] end in
    if negb (StatusCode resp =? 201) then nfail (EMsg "register server: status %d" [StatusCode resp])
    else match json_id body with
         | None => nfail (EMsg "register server: parse response" [])
         | Some id => nret id
         end.

Definition DeregisterServer (signalingURL listingID : string) : Prog sworld unit :=
  if isSupabaseURL signalingURL then supaDeleteListing signalingURL listingID
  else
    let* resp := nwrap "deregister server"
      (on_env (http_Do "DELETE" (cat [signalingURL; "/discovery/"; listingID]) [] [])) in
    if (StatusCode resp =? 200) || (StatusCode resp =? 404) then nret tt
    else nfail (EMsg "deregister server: status %d" [StatusCode resp]).

Definition HeartbeatServer (signalingURL listingID : string) : Prog sworld unit :=
  if isSupabaseURL signalingURL then supaHeartbeatListing signalingURL listingID
  else
    let* resp := nwrap "heartbeat server"
      (on_env (http_Post (cat [signalingURL; "/discovery/"; listingID; "/heartbeat"]) [])) in
    if StatusCode resp =? 404 then nfail ErrListingExpired
    else if StatusCode resp =? 200 then nret tt
    else nfail (EMsg "heartbeat server: status %d" [StatusCode resp]).

(** The query string, built without escaping. *)
Definition list_url (signalingURL room : string) (natInfo : list string) : string :=
  let params := (if decide (room = EmptyString) then [] else [String.append "room=" room]) ++
                map (fun kv => cat [kv.1; "="; kv.2]) (nat_fields natInfo) in
  let url := String.append signalingURL "/discovery/servers" in
  match params with [] => url | _ => cat [url; "?"; Join "&" params] end.

Definition ListServers (signalingURL room : string) (natInfo : list string) : Prog sworld string :=
  if isSupabaseURL signalingURL then supaListListings signalingURL room
  else
    let* resp := nwrap "list servers" (on_env (http_Get (list_url signalingURL room natInfo))) in
    let* body := nwrap "list servers: read response" (of_result (Body resp)) in
    if StatusCode resp =? 200 then nret (Socks.of_bytes body)
    else nfail (EMsg "list servers: status %d" [StatusCode resp]).

End client.

(** ** Pacing and termination of the loops *)

(** Time does not run backwards, a sleep lasts as long as it should, and the
    jitter keeps its bounds. *)
Class HttpTime E `{Http E} := {
  sleep_time : forall d e, 0 <= d -> http_now e + d <= http_now (http_sleep d e);
  jitter_range : forall lo hi e, lo <= hi -> lo <= (http_jitter lo hi e).1 <= hi;
  jitter_time : forall lo hi e, http_now e <= http_now (http_jitter lo hi e).2;
  get_time : forall u e, http_now e <= http_now (http_Get u e).2;
  do_time : forall m u h b e, http_now e <= http_now (http_Do m u h b e).2
}.

(** A back-off as the client makes them: base and maximum set, factor two, a
    jitter of a half. *)
Definition backoff_ok (b : Backoff) : Prop :=
  0 < bo_Base b <= bo_Max b /\ bo_Factor b = 2 /\ bo_Jitter b = 50.

Lemma backoff_delay_eq b :
  backoff_ok b -> backoff_delay b = Z.min (bo_Base b * 2 ^ Z.of_nat (bo_attempt b)) (bo_Max b) /\
  bo_Base b <= backoff_delay b <= bo_Max b /\ backoff_ok (backoff_advance b) /\
  bo_Base (backoff_advance b) = bo_Base b /\ bo_Max (backoff_advance b) = bo_Max b.
Proof.
  intros (Hb & Hf & Hj). unfold backoff_delay, backoff_advance, backoff_ok. cbn [bo_Base bo_Max bo_Factor bo_Jitter].
  rewrite Hf, (proj2 (Z.eqb_neq (bo_Base b) 0)), (proj2 (Z.eqb_neq (bo_Max b) 0)) by lia. cbn [Z.eqb].
  assert (Hp : 1 <= 2 ^ Z.of_nat (bo_attempt b)) by (apply Z.lt_pred_le, Z.pow_pos_nonneg; lia).
  change (if 2 =? 0 then 2 else 2) with 2.
  destruct (Z.ltb_spec (bo_Max b) (bo_Base b * 2 ^ Z.of_nat (bo_attempt b))); split_and!; try lia; try nia; done.
Qed.

Section pacing.
Context `{HT : HttpTime E}.

Lemma backoff_Next_spec b e d b' e' :
  backoff_ok b -> backoff_Next b e = (d, b', e') ->
  let delay := Z.min (bo_Base b * 2 ^ Z.of_nat (bo_attempt b)) (bo_Max b) in
  delay - delay / 2 <= d <= delay + delay / 2 /\ b' = backoff_advance b /\ http_now e <= http_now e'.
Proof.
  intros Hb. destruct (backoff_delay_eq b Hb) as (Hd & Hr & _). destruct Hb as (Hb & _ & Hj).
  unfold backoff_Next. rewrite Hj. change (0 <? 50) with true. cbv iota zeta. rewrite Hd.
  set (delay := Z.min _ _) in *.
  replace (delay * 50 / 100) with (delay / 2) by (Z.to_euclidean_division_equations; lia).
  pose proof (jitter_range (delay - delay / 2) (delay + delay / 2) e) as Hj1.
  pose proof (jitter_time (delay - delay / 2) (delay + delay / 2) e) as Hj2.
  destruct (http_jitter _ _ e) as [x e1]. intros [= <- <- <-]. cbn [fst snd] in *.
  split_and!; try done; apply Hj1; Z.to_euclidean_division_equations; lia.
Qed.

(** The delays of successive calls: each between a half and one and a half of
    a value that doubles up to the maximum. *)
Fixpoint backoff_delays (n : nat) (b : Backoff) (e : E) : list Z :=
  match n with
  | O => []
  | S n => let '(d, b, e) := backoff_Next b e in d :: backoff_delays n b e
  end.

Lemma backoff_delays_spec n b e k d :
  backoff_ok b -> backoff_delays n b e !! k = Some d ->
  let delay := Z.min (bo_Base b * 2 ^ Z.of_nat (bo_attempt b + k)) (bo_Max b) in
  delay - delay / 2 <= d <= delay + delay / 2.
Proof.
  revert b e k. induction n as [|n IH]; intros b e k Hok; [done|].
  cbn [backoff_delays]. destruct (backoff_Next b e) as [[d0 b'] e'] eqn:En.
  destruct (backoff_Next_spec _ _ _ _ _ Hok En) as (Hd & -> & _).
  destruct (backoff_delay_eq b Hok) as (_ & _ & Hok' & Hb & Hm).
  destruct k as [|k]; cbn -[Z.div Z.pow Z.min Z.of_nat].
  - intros [= <-]. by rewrite Nat.add_0_r.
  - intros Hl. pose proof (IH _ _ _ Hok' Hl) as IHk. cbv zeta in IHk. rewrite Hb, Hm in IHk.
    cbn [backoff_advance bo_attempt] in IHk. by rewrite Nat.add_succ_r.
Qed.

(** The [k]-th delay of a back-off lies between a half and one and a half
    of the base times two to the [k], or of the maximum once that is smaller,
    however the jitter falls. *)
Theorem backoff_bounds base max n e k d :
  0 < base <= max -> backoff_delays n (NewBackoff base max 50) e !! k = Some d ->
  let delay := Z.min (base * 2 ^ Z.of_nat k) max in
  delay - delay / 2 <= d <= delay + delay / 2.
Proof. intros Hb. by apply (backoff_delays_spec n (NewBackoff base max 50)). Qed.

Context {R : Type}.

(** An attempt that does not set the clock back. *)
Definition forward {A} (m : Prog (sworld (R:=R) (E:=E)) A) : Prop :=
  forall w, http_now (sw_env w) <= http_now (sw_env (m w).2).

Lemma poll_total {A} fuel deadline b timeout (attempt : Prog _ (option A)) w :
  backoff_ok b -> forward attempt ->
  deadline - http_now (sw_env w) <= Z.of_nat fuel * (bo_Base b - bo_Base b / 2) ->
  exists r, poll (S fuel) deadline b timeout attempt w = Some r.
Proof.
  intros Hb Hfw. revert b w Hb. induction fuel as [|fuel IH]; intros b w Hb Hf; cbn [poll];
    (destruct (Z.ltb_spec (http_now (sw_env w)) deadline); [|by eexists]); [lia|].
  pose proof (Hfw w) as Hw. destruct (attempt w) as [[[a|]|e] w1]; [by eexists| |by eexists].
  destruct (backoff_Next b (sw_env w1)) as [[d b'] e'] eqn:En.
  destruct (backoff_Next_spec _ _ _ _ _ Hb En) as (Hd & -> & Ht).
  destruct (backoff_delay_eq b Hb) as (Hde & Hr & Hb' & Hbb & _). apply IH; [done|]. rewrite Hbb.
  unfold sleep. cbn [sw_env]. rewrite <- Hde in Hd. simpl in Hw.
  pose proof (sleep_time d e' ltac:(Z.to_euclidean_division_equations; lia)).
  assert (bo_Base b - bo_Base b / 2 <= d) by (Z.to_euclidean_division_equations; lia).
  lia.
Qed.

Lemma forward_ret {A} (a : A) : forward (nret a).
Proof. intros w. cbn. lia. Qed.

Lemma forward_of_result {A} (r : res goerr A) : forward (of_result r).
Proof. intros w. cbn. lia. Qed.

Lemma forward_fail {A} err : forward (nfail (A:=A) err).
Proof. intros w. cbn. lia. Qed.

Lemma forward_bind {A B} (m1 : Prog (sworld (R:=R) (E:=E)) A) (k : A -> Prog _ B) :
  forward m1 -> (forall a, forward (k a)) -> forward (nbind m1 k).
Proof.
  intros Hm Hk w. unfold nbind. pose proof (Hm w) as Hw. destruct (m1 w) as [[a|err] w1]; cbn in *; [|done].
  pose proof (Hk a w1). lia.
Qed.

Lemma forward_try {A} (m1 : Prog (sworld (R:=R) (E:=E)) A) : forward m1 -> forward (ntry m1).
Proof. intros Hm w. unfold ntry. pose proof (Hm w) as Hw. by destruct (m1 w). Qed.

Lemma forward_Get url : forward (on_env (http_Get url)).
Proof. intros w. unfold on_env. pose proof (get_time url (sw_env w)). by destruct (http_Get url (sw_env w)). Qed.

Lemma forward_Do meth url hs b : forward (on_env (http_Do meth url hs b)).
Proof.
  intros w. unfold on_env. pose proof (do_time meth url hs b (sw_env w)). by destruct (http_Do meth url hs b (sw_env w)).
Qed.

Create HintDb forward.
#[local] Hint Resolve forward_ret forward_of_result forward_fail forward_bind forward_try forward_Get forward_Do : forward.

Context `{JS : Json} `{SU : Supa}.

Ltac forward_cases :=
  repeat match goal with
         | |- forward (if ?c then _ else _) => destruct c
         | |- forward (match ?x with _ => _ end) => destruct x
         | |- forward (nbind _ _) => apply forward_bind; [|intros ?]
         end; auto with forward.

Lemma forward_get_sdp url : forward (get_sdp_attempt url).
Proof. unfold get_sdp_attempt. forward_cases. Qed.

Lemma forward_get_peer url : forward (get_peer_attempt url).
Proof. unfold get_peer_attempt. forward_cases. Qed.

Lemma forward_get_sdp_ctx url : forward (get_sdp_attempt_ctx url).
Proof.
  intros w. unfold get_sdp_attempt_ctx. destruct (ctx_Err _); [cbn; lia|]. destruct (http_NewRequest _ _); [|cbn; lia].
  pose proof (forward_Get url w) as Hw. destruct (on_env (http_Get url) w) as [r w1]. cbn [snd] in Hw.
  assert (Hrest : forward (let* o := of_result (read_response r) in
    match o with None => nret None | Some body => of_result (parse_sdp body) end)) by forward_cases.
  pose proof (Hrest w1). destruct r, (ctx_Err (sw_env w1)); cbn [snd]; lia.
Qed.

Lemma forward_supa key url id field : forward (supa_attempt key url id field).
Proof.
  unfold supa_attempt, supaGetSessionField, supabase_request. apply forward_bind; [|auto with forward].
  apply forward_try. forward_cases.
Qed.

(** The loops end with their fuel left. *)
Lemma poll_enough {A} b timeout (attempt : Prog _ (option A)) w :
  backoff_ok b -> second / 2 <= bo_Base b -> forward attempt ->
  exists r, poll poll_fuel (http_now (sw_env w) + peerInfoRetries * peerRetryInterval) b timeout attempt w = Some r.
Proof.
  intros Hb Hbase Hfw. unfold poll_fuel. apply (poll_total 249); [done..|].
  unfold second, peerInfoRetries, peerRetryInterval, second in *. Z.to_euclidean_division_equations. lia.
Qed.

(** C16: The waiting loops of the client end: whatever the server answers, with
    sleeps that last at least as long as asked for and a jitter within its
    bounds, each of the four loops (plain and cancellable descriptions, peer
    addresses, Supabase fields) returns within the fuel, because the delays
    add up to the deadline. *)
Theorem polling_terminates key url base id field timeout (w : sworld (R:=R) (E:=E)) :
  let deadline := http_now (sw_env w) + peerInfoRetries * peerRetryInterval in
  (exists r, poll poll_fuel deadline signal_backoff timeout (get_sdp_attempt url) w = Some r) /\
  (exists r, poll poll_fuel deadline signal_backoff timeout (get_sdp_attempt_ctx url) w = Some r) /\
  (exists r, poll poll_fuel deadline signal_backoff timeout (get_peer_attempt url) w = Some r) /\
  (exists r, poll poll_fuel deadline supa_backoff timeout (supa_attempt key base id field) w = Some r).
Proof.
  intros deadline. split_and!; apply poll_enough; try done;
    auto using forward_get_sdp, forward_get_sdp_ctx, forward_get_peer, forward_supa.
Qed.

End pacing.
