(* ===== verification/Rendezvous.v ===== *)
(** * The signalling client over the signalling server

    [Rendezvous] is what the client of [Signal.v] relies on: a slot for the
    offer and one for the answer of each session, which posts fill and gets
    and event streams read.  [server_rendezvous] shows that the handlers of
    [SignalServer.v] keep that promise.  The theorems are about the client
    over any such server. *)

From S2P Require Import Prelude IO GoStr Socks Obfs Sdp SignalServer Codes Signal.
Import Sdp SignalServer.

Open Scope Z_scope.

(** ** What the client relies on *)

(** The event that carries a body, as the server writes it. *)
Definition sse_event (b : bytes) : bytes := Socks.to_bytes data_prefix ++ b ++ map z2b [10; 10].

Class Rendezvous (E : Type) `{Http E} `{Json} (base : string) := {
  rv_ok : E -> Prop;
  rv_slot : E -> string -> bool -> option bytes;
  rv_post : forall e id k payload, rv_ok e -> has_char slash id = false ->
    Z.of_nat (length (json_sdp payload)) <= 512 * 1024 ->
    exists e', http_Post (session_url base id (kind_name k)) (json_sdp payload) e = (Ok (mkHttpResp 200 (Ok [])), e') /\
      rv_ok e' /\ forall id' k', rv_slot e' id' k' =
        if decide (id' = id /\ k' = k) then Some (json_sdp payload) else rv_slot e id' k';
  rv_get : forall e id k b, rv_ok e -> has_char slash id = false -> rv_slot e id k = Some b ->
    exists e', http_Get (session_url base id (kind_name k)) e = (Ok (mkHttpResp 200 (Ok b)), e');
  rv_NewRequest : forall id k, has_char slash id = false ->
    http_NewRequest "GET" (stream_url base id (kind_name k)) = Ok tt;
  rv_stream : forall e id k b, rv_ok e -> has_char slash id = false -> rv_slot e id k = Some b ->
    exists rest err e',
      http_Stream (stream_url base id (kind_name k)) e = (Ok (200, mkReader (sse_event b ++ rest) err), e')
}.

(** ** Payloads *)

Section payloads.
Context {K R E : Type} `{AEAD K} `{Rand R} `{Json} `{Http E}.
Variables (hkdf : bytes -> res goerr bytes) (gcm : bytes -> res goerr K).

(** No key, or one from which a cipher can be made. *)
Definition key_ok (obfsKey : bytes) : Prop := obfsKey = [] \/ exists c, signaling_cipher hkdf gcm obfsKey = Ok c.

Lemma length_EncodeToString_pos enc data : data <> [] -> EncodeToString enc data <> EmptyString.
Proof. destruct data as [|a [|b [|c data]]]; done. Qed.

Lemma base64_utf8 enc data : known enc -> utf8 (EncodeToString enc data) = true.
Proof.
  intros Hk. apply utf8_ascii. eapply Forall_impl; [by apply base64_graph|]. intros b Hb. unfold graph in Hb. lia.
Qed.

Lemma protect_unprotect ctx s obfsKey (w : sworld (R:=R) (E:=E)) :
  key_ok obfsKey -> utf8 s = true -> s <> EmptyString ->
  exists p w', protect hkdf gcm ctx s obfsKey w = (Ok p, w') /\ sw_env w' = sw_env w /\ utf8 p = true /\
    p <> EmptyString /\ unprotect hkdf gcm p obfsKey = Ok s.
Proof.
  intros Hk Hu Hs. destruct obfsKey as [|x ks].
  { exists s, w. done. }
  destruct Hk as [|[c Hc]]; [done|]. unfold protect.
  pose proof (DecryptPayload_eq hkdf gcm (Socks.to_bytes s) (x :: ks) c (sw_rand w)) as Hd.
  destruct (EncryptPayload hkdf gcm (Socks.to_bytes s) (x :: ks) (sw_rand w)) as [r g] eqn:Ee.
  rewrite (EncryptPayload_eq _ _ _ _ _ _ Hc) in Ee. injection Ee as <- <-.
  destruct (Hd _ _ Hc eq_refl) as [Hdec Hlen].
  eexists _, _. split; [done|]. split; [done|]. split; [by apply base64_utf8; left|]. split.
  - apply length_EncodeToString_pos. intros Hn. rewrite Hn in Hlen. simpl in Hlen. lia.
  - unfold unprotect, decryptSDPPayload. rewrite base64_roundtrip by by left.
    unfold guard_Check. rewrite andb_false_r, Hdec. by rewrite of_to_bytes.
Qed.

Lemma json_strings_string l : Socks.of_bytes (json_strings l) <> EmptyString.
Proof.
  intros Hn. apply (json_strings_nonempty l). rewrite <- (to_of_bytes (json_strings l)), Hn. done.
Qed.

Lemma sdp_list_json l : forallb utf8 l = true -> sdp_list (Socks.of_bytes (json_strings l)) = l.
Proof. intros Hl. unfold sdp_list. by rewrite to_of_bytes, json_strings_roundtrip. Qed.

(** *** Lines of an event stream *)

Lemma scan_lines_app cur l rest :
  z2b 10 ∉ l -> scan_lines cur (l ++ rest) = scan_lines (cur ++ l) rest.
Proof.
  revert cur. induction l as [|b l IH]; intros cur Hl; [by rewrite app_nil_r|].
  apply not_elem_of_cons in Hl as [Hb Hl]. simpl app. cbn [scan_lines].
  destruct (Z.eqb_spec (b2z b) 10) as [Hz|]; [|rewrite IH by done; by rewrite <- app_assoc].
  destruct Hb. by rewrite <- Hz, z2b_b2z.
Qed.

Lemma drop_cr_none (l : bytes) :
  z2b 13 ∉ l -> match rev l with b :: l' => if b2z b =? 13 then rev l' else l | [] => l end = l.
Proof.
  intros Hl. destruct (rev l) as [|b l'] eqn:Er; [done|]. destruct (Z.eqb_spec (b2z b) 13) as [Hz|]; [|done].
  destruct Hl. rewrite <- Hz, z2b_b2z. apply list_elem_of_In, in_rev. rewrite Er. by left.
Qed.

Lemma scan_lines_newline cur s : z2b 13 ∉ cur ->
  scan_lines cur (z2b 10 :: s) =
    if (length cur <? maxTokenSize)%nat then (Socks.of_bytes cur :: (scan_lines [] s).1, (scan_lines [] s).2) else ([], true).
Proof.
  intros Hcr. cbn [scan_lines]. change (b2z (z2b 10) =? 10) with true. cbv iota. rewrite (drop_cr_none _ Hcr).
  by destruct (scan_lines [] s).
Qed.

Lemma scan_lines_event payload rest :
  let line := String.append data_prefix (Socks.of_bytes (json_sdp payload)) in
  let b := json_sdp payload in
  ((6 + length b < maxTokenSize)%nat ->
   exists ls tl, scan_lines [] (sse_event b ++ rest) = (line :: ls, tl)) /\
  ((maxTokenSize <= 6 + length b)%nat -> scan_lines [] (sse_event b ++ rest) = ([], true)).
Proof.
  intros line b. destruct (json_sdp_line payload) as (Hlf & Hcr & Hne). fold b in Hlf, Hcr, Hne.
  assert (Hs : scan_lines [] (sse_event b ++ rest) =
    scan_lines (Socks.to_bytes data_prefix ++ b) (map z2b [10; 10] ++ rest)).
  { unfold sse_event. rewrite (app_assoc (Socks.to_bytes data_prefix)), <- (app_assoc _ (map z2b [10; 10])).
    rewrite scan_lines_app; [done|]. rewrite elem_of_app. intros [Hd|]; [|done].
    revert Hd. apply (bool_decide_unpack (z2b 10 ∉ Socks.to_bytes data_prefix)). by vm_compute. }
  assert (Hl : length (Socks.to_bytes data_prefix ++ b) = (6 + length b)%nat) by by rewrite length_app.
  assert (Hline : Socks.of_bytes (Socks.to_bytes data_prefix ++ b) = line).
  { unfold line, b. rewrite <- (of_to_bytes (String.append _ _)), to_bytes_app. by rewrite to_of_bytes. }
  assert (Hcr' : z2b 13 ∉ Socks.to_bytes data_prefix ++ b).
  { rewrite elem_of_app. intros [Hd|]; [|done].
    revert Hd. apply (bool_decide_unpack _). by vm_compute. }
  rewrite Hs. cbn [map app]. rewrite scan_lines_newline by done. rewrite Hl, Hline. split; intros Hsz.
  - rewrite (proj2 (Nat.ltb_lt _ _)) by done. by eexists _, _.
  - by rewrite (proj2 (Nat.ltb_ge _ _)).
Qed.

Lemma sse_answers_event obfsKey payload s sdps ls :
  utf8 payload = true -> payload <> EmptyString -> unprotect hkdf gcm payload obfsKey = Ok s ->
  sdp_list s = sdps -> sdps <> [] ->
  sse_answers hkdf gcm obfsKey (String.append data_prefix (Socks.of_bytes (json_sdp payload)) :: ls) = Some (Ok sdps).
Proof.
  intros Hu Hp Hun Hl Hne. cbn [sse_answers]. rewrite HasPrefix_append. cbn [negb]. unfold trim_prefix.
  rewrite HasPrefix_append, sdrop_append, to_of_bytes, json_sdp_roundtrip by done.
  rewrite decide_False by done. rewrite Hun, Hl. by destruct sdps.
Qed.
End payloads.

(** ** The client over a rendezvous *)

Section delivery.
Context {K R E : Type} `{AEAD K} `{Rand R} `{JS : Json} `{HE : Http E} `{SU : Supa} {base : string} `{RV : !Rendezvous E base}.
Variables (hkdf : bytes -> res goerr bytes) (gcm : bytes -> res goerr K) (anon : string).
Implicit Types w : sworld (R:=R) (E:=E).

(** The base is an HTTP or HTTPS address, not a Supabase project. *)
Definition http_base : Prop := HasPrefix base "http" = true.

Lemma http_not_supabase s : HasPrefix s "http" = true -> forall t, isSupabaseURL (String.append s t) = false.
Proof.
  intros Hs t. destruct s as [|c1 s]; [done|]. unfold isSupabaseURL, HasPrefix in *. cbn [String.prefix String.append supabase_scheme] in *.
  destruct (ascii_dec "h" c1) as [<-|]; [|done]. done.
Qed.

Lemma session_url_http id k : http_base -> isSupabaseURL (session_url base id k) = false.
Proof. intros Hb. unfold session_url, cat. cbn [Join]. by apply http_not_supabase. Qed.

Lemma post_payload_spec ctx id k payload w :
  rv_ok (sw_env w) -> has_char slash id = false -> Z.of_nat (length (json_sdp payload)) <= 512 * 1024 ->
  exists w', post_payload ctx (kind_name k) base id payload w = (Ok tt, w') /\ rv_ok (sw_env w') /\
    forall id' k', rv_slot (sw_env w') id' k' =
      if decide (id' = id /\ k' = k) then Some (json_sdp payload) else rv_slot (sw_env w) id' k'.
Proof.
  intros Hok Hid Hlen. destruct (rv_post (sw_env w) id k payload Hok Hid Hlen) as (e' & He & Hok' & Hslot).
  exists (mkSW e' (sw_rand w)). split; [|done].
  unfold post_payload, post_json, nbind, nwrap, on_env. by rewrite He.
Qed.

Lemma getSDPInfo_spec id k payload w :
  rv_ok (sw_env w) -> http_base -> has_char slash id = false -> utf8 payload = true -> payload <> EmptyString ->
  rv_slot (sw_env w) id k = Some (json_sdp payload) ->
  exists w', getSDPInfo anon (session_url base id (kind_name k)) w = (Ok payload, w').
Proof.
  intros Hok Hb Hid Hu Hp Hslot. destruct (rv_get (sw_env w) id k _ Hok Hid Hslot) as (e' & He).
  exists (mkSW e' (sw_rand w)). unfold getSDPInfo. rewrite session_url_http by done. unfold run_poll, poll_fuel.
  cbn [poll]. rewrite (proj2 (Z.ltb_lt _ _)) by (unfold peerInfoRetries, peerRetryInterval, second; lia).
  assert (Ha : get_sdp_attempt (session_url base id (kind_name k)) w = (Ok (Some payload), mkSW e' (sw_rand w))).
  { unfold get_sdp_attempt, nbind, ntry, on_env, of_result. rewrite He. cbn. unfold parse_sdp.
    rewrite json_sdp_roundtrip by done. by rewrite decide_False. }
  by rewrite Ha.
Qed.

Lemma WaitSDPAnswersSSE_spec obfsKey id payload s sdps w :
  rv_ok (sw_env w) -> has_char slash id = false ->
  utf8 payload = true -> payload <> EmptyString -> unprotect hkdf gcm payload obfsKey = Ok s ->
  sdp_list s = sdps -> sdps <> [] -> rv_slot (sw_env w) id false = Some (json_sdp payload) ->
  exists w', WaitSDPAnswersSSE hkdf gcm base id obfsKey w =
    ((if (6 + length (json_sdp payload) <? maxTokenSize)%nat then Ok sdps
      else Err (EMsg "SSE read: bufio.Scanner: token too long" [])), w').
Proof.
  intros Hok Hid Hu Hp Hun Hl Hne Hslot.
  destruct (rv_stream (sw_env w) id false _ Hok Hid Hslot) as (rest & err & e' & He).
  exists (mkSW e' (sw_rand w)). unfold WaitSDPAnswersSSE. change "answer" with (kind_name false).
  assert (Ho : open_stream "SSE connect" (stream_url base id (kind_name false)) w =
    (Ok (mkReader (sse_event (json_sdp payload) ++ rest) err), mkSW e' (sw_rand w))).
  { unfold open_stream, nbind, nwrap, of_result, on_env. by rewrite rv_NewRequest, He by done. }
  unfold nbind at 1. rewrite Ho. cbn [rd_data rd_err].
  destruct (scan_lines_event payload rest) as [Hshort Hlong]. cbv zeta in Hshort, Hlong.
  destruct (Nat.ltb_spec (6 + length (json_sdp payload)) maxTokenSize) as [Hsz|Hsz].
  - destruct (Hshort Hsz) as (ls & tl & ->). by rewrite (sse_answers_event hkdf gcm obfsKey payload s sdps ls).
  - rewrite (Hlong Hsz). done.
Qed.
(** What the multi-connection posts put into the slot of a session. *)
Lemma PostSDPOffers_spec id sdps obfsKey w :
  rv_ok (sw_env w) -> has_char slash id = false -> key_ok hkdf gcm obfsKey ->
  (forall p w', protect hkdf gcm "encrypt SDP offers" (Socks.of_bytes (json_strings sdps)) obfsKey w = (Ok p, w') ->
     Z.of_nat (length (json_sdp p)) <= 512 * 1024) ->
  exists p w', PostSDPOffers hkdf gcm base id sdps obfsKey w = (Ok tt, w') /\ rv_ok (sw_env w') /\
    rv_slot (sw_env w') id true = Some (json_sdp p) /\ utf8 p = true /\ p <> EmptyString /\
    unprotect hkdf gcm p obfsKey = Ok (Socks.of_bytes (json_strings sdps)).
Proof.
  intros Hok Hid Hk Hlen.
  destruct (protect_unprotect hkdf gcm "encrypt SDP offers" (Socks.of_bytes (json_strings sdps)) obfsKey w)
    as (p & w1 & Hp & Henv & Hu & Hne & Hun); auto using json_strings_utf8, json_strings_string.
  rewrite <- Henv in Hok.
  destruct (post_payload_spec "post SDP offers" id true p w1 Hok Hid (Hlen _ _ Hp)) as (w2 & Hpost & Hok2 & Hslot).
  exists p, w2. split_and!; try done.
  - unfold PostSDPOffers, nbind. by rewrite Hp.
  - by rewrite Hslot, decide_True.
Qed.

Lemma PostSDPAnswers_spec id sdps obfsKey w :
  rv_ok (sw_env w) -> has_char slash id = false -> key_ok hkdf gcm obfsKey ->
  (forall p w', answers_payload hkdf gcm (Some sdps) obfsKey w = (Ok p, w') ->
     Z.of_nat (length (json_sdp p)) <= 512 * 1024) ->
  exists p w1 w', answers_payload hkdf gcm (Some sdps) obfsKey w = (Ok p, w1) /\
    PostSDPAnswers hkdf gcm base id (Some sdps) obfsKey w = (Ok tt, w') /\ rv_ok (sw_env w') /\
    rv_slot (sw_env w') id false = Some (json_sdp p) /\ utf8 p = true /\ p <> EmptyString /\
    unprotect hkdf gcm p obfsKey = Ok (Socks.of_bytes (json_strings sdps)).
Proof.
  intros Hok Hid Hk Hlen.
  destruct (protect_unprotect hkdf gcm "encrypt SDP answers" (Socks.of_bytes (json_strings sdps)) obfsKey w)
    as (p & w1 & Hp & Henv & Hu & Hne & Hun); auto using json_strings_utf8, json_strings_string.
  assert (Ha : answers_payload hkdf gcm (Some sdps) obfsKey w = (Ok p, w1)).
  { unfold answers_payload. by rewrite decide_False by apply json_strings_string. }
  rewrite <- Henv in Hok.
  destruct (post_payload_spec "post SDP answers" id false p w1 Hok Hid (Hlen _ _ Ha)) as (w2 & Hpost & Hok2 & Hslot).
  exists p, w1, w2. split_and!; try done.
  - unfold PostSDPAnswers, nbind. by rewrite Ha.
  - by rewrite Hslot, decide_True.
Qed.

Lemma GetSDPAnswers_spec id sdps obfsKey p w :
  rv_ok (sw_env w) -> http_base -> has_char slash id = false -> utf8 p = true -> p <> EmptyString ->
  rv_slot (sw_env w) id false = Some (json_sdp p) -> forallb utf8 sdps = true ->
  unprotect hkdf gcm p obfsKey = Ok (Socks.of_bytes (json_strings sdps)) ->
  exists w', GetSDPAnswers hkdf gcm anon base id obfsKey w = (Ok sdps, w').
Proof.
  intros Hok Hb Hid Hu Hne Hslot Hl Hun. destruct (getSDPInfo_spec id false p w) as (w' & Hg); try done. exists w'.
  unfold GetSDPAnswers, nbind, of_result. change "answer" with (kind_name false). rewrite Hg, Hun. cbn.
  by rewrite sdp_list_json.
Qed.

(** C15: Signalling end to end.  Over a server that keeps the promises of
    [Rendezvous], with no key or a working one, the offers that one side posts
    are exactly the offers that the other side gets, and the answers posted
    back are exactly those that both the polling and the streaming call
    deliver, as long as the bodies fit the limit of the server and the line
    of the event fits the line buffer of the client. *)
Theorem signalling_delivers id offers answers obfsKey w :
  rv_ok (sw_env w) -> http_base -> has_char slash id = false -> key_ok hkdf gcm obfsKey ->
  forallb utf8 offers = true -> forallb utf8 answers = true -> answers <> [] ->
  (forall p w', protect hkdf gcm "encrypt SDP offers" (Socks.of_bytes (json_strings offers)) obfsKey w = (Ok p, w') ->
     Z.of_nat (length (json_sdp p)) <= 512 * 1024) ->
  (forall w1 p w', PostSDPOffers hkdf gcm base id offers obfsKey w = (Ok tt, w1) ->
     answers_payload hkdf gcm (Some answers) obfsKey w1 = (Ok p, w') -> Z.of_nat (length (json_sdp p)) < 65536 - 6) ->
  exists w1, PostSDPOffers hkdf gcm base id offers obfsKey w = (Ok tt, w1) /\
    (exists w', GetSDPOffers hkdf gcm anon base id obfsKey w1 = (Ok offers, w')) /\
    exists w2, PostSDPAnswers hkdf gcm base id (Some answers) obfsKey w1 = (Ok tt, w2) /\
    (exists w', GetSDPAnswers hkdf gcm anon base id obfsKey w2 = (Ok answers, w')) /\
      (exists w', WaitSDPAnswersSSE hkdf gcm base id obfsKey w2 = (Ok answers, w')).
Proof.
  intros Hok Hb Hid Hk Ho Ha Hne Hlo Hla.
  destruct (PostSDPOffers_spec id offers obfsKey w Hok Hid Hk) as (p & w1 & Hpo & Hok1 & Hs1 & Hu1 & Hn1 & Hun1).
  { done. }
  exists w1. split; [done|]. split.
  { destruct (getSDPInfo_spec id true p w1) as (w' & Hg); try done. exists w'.
    unfold GetSDPOffers, nbind, of_result. change "offer" with (kind_name true). rewrite Hg, Hun1. cbn.
    by rewrite sdp_list_json. }
  destruct (PostSDPAnswers_spec id answers obfsKey w1 Hok1 Hid Hk)
    as (q & w1' & w2 & Hq & Hpa & Hok2 & Hs2 & Hu2 & Hn2 & Hun2).
  { intros q w' Hq. apply (Hla _ _ _ Hpo) in Hq. lia. }
  exists w2. split; [done|]. split.
  { by apply (GetSDPAnswers_spec id answers obfsKey q). }
  destruct (WaitSDPAnswersSSE_spec obfsKey id q (Socks.of_bytes (json_strings answers)) answers w2)
    as (w' & Hw); auto using sdp_list_json.
  exists w'. rewrite Hw. apply (Hla _ _ _ Hpo) in Hq. rewrite (proj2 (Nat.ltb_lt _ _)); [done|]. unfold maxTokenSize. lia.
Qed.

(** The two limits do not agree.  An answer whose event line has 64 KiB or
    more, but whose body is within the 512 KiB that the server accepts, is
    posted successfully and returned by the polling call, and yet the
    streaming call fails on it with an error of the line scanner. *)
Theorem long_answer_not_streamed id answers obfsKey w :
  rv_ok (sw_env w) -> http_base -> has_char slash id = false -> key_ok hkdf gcm obfsKey ->
  forallb utf8 answers = true -> answers <> [] ->
  (forall p w', answers_payload hkdf gcm (Some answers) obfsKey w = (Ok p, w') ->
     65536 - 6 <= Z.of_nat (length (json_sdp p)) <= 512 * 1024) ->
  exists w2, PostSDPAnswers hkdf gcm base id (Some answers) obfsKey w = (Ok tt, w2) /\
    (exists w', GetSDPAnswers hkdf gcm anon base id obfsKey w2 = (Ok answers, w')) /\
    (exists w', WaitSDPAnswersSSE hkdf gcm base id obfsKey w2 =
       (Err (EMsg "SSE read: bufio.Scanner: token too long" []), w')).
Proof.
  intros Hok Hb Hid Hk Ha Hne Hla.
  destruct (PostSDPAnswers_spec id answers obfsKey w Hok Hid Hk)
    as (q & w1' & w2 & Hq & Hpa & Hok2 & Hs2 & Hu2 & Hn2 & Hun2).
  { intros q w' Hq. apply Hla in Hq. lia. }
  exists w2. split; [done|]. split.
  { by apply (GetSDPAnswers_spec id answers obfsKey q). }
  destruct (WaitSDPAnswersSSE_spec obfsKey id q (Socks.of_bytes (json_strings answers)) answers w2)
    as (w' & Hw); auto using sdp_list_json.
  exists w'. rewrite Hw. apply Hla in Hq. rewrite (proj2 (Nat.ltb_ge _ _)); [done|]. unfold maxTokenSize. lia.
Qed.

End delivery.

(** ** The signalling server keeps the promise *)

Record snet := mkSnet { sn_srv : apiServer; sn_now : Z }.

Section server.
Context `{JS : Json}.
Variables (base : string) (jsonValid : bytes -> bool).
Hypothesis json_sdp_valid : forall s, jsonValid (json_sdp s) = true.

Definition url_path (url : string) : string := sdrop (String.length base) url.

Definition resp_body (b : body) : bytes := match b with BRaw b => b | BText s => Socks.to_bytes s | _ => [] end.

(** One request to the server: a panic of a handler closes the connection. *)
Definition serve (m : method) (url : string) (b : bytes) (n : snet) : res goerr response * snet :=
  match handleSession jsonValid m (url_path url) b (sn_now n) (sn_srv n) with
  | None => (Err (EIO EOF), n)
  | Some (r, s) => (Ok r, mkSnet s (sn_now n))
  end.

Definition serve_http (m : method) (url : string) (b : bytes) (n : snet) : res goerr httpResp * snet :=
  match serve m url b n with
  | (Ok r, n) => (Ok (mkHttpResp (status r) (Ok (resp_body (rbody r)))), n)
  | (Err e, n) => (Err e, n)
  end.

(** The streams of this network end after the event that is there when they
    open. *)
Definition server_http : Http snet := {|
  http_now := sn_now;
  http_sleep d n := mkSnet (sn_srv n) (sn_now n + d);
  http_jitter lo hi n := (lo, n);
  http_NewRequest _ _ := Ok tt;
  http_Get url := serve_http GET url [];
  http_Post url b := serve_http POST url b;
  http_Do m url _ b := serve_http (if decide (m = "POST"%string) then POST else if decide (m = "DELETE"%string) then DELETE else GET) url b;
  http_Stream url n :=
    match serve GET url [] n with
    | (Ok r, n) => (Ok (status r, mkReader (match rbody r with BRaw b => sse_event b | _ => [] end) EOF), n)
    | (Err e, n) => (Err e, n)
    end;
  ctx_Err _ := None
|}.

Lemma server_time : HttpTime snet (H:=server_http).
Proof.
  split; cbn; try lia; intros; unfold serve_http, serve; destruct (handleSession _ _ _ _ _ _) as [[]|]; cbn; lia.
Qed.

Lemma url_path_session id k : url_path (session_url base id (kind_name k)) = session_path id k.
Proof. unfold url_path, session_url, cat. cbn [Join]. rewrite sdrop_append. done. Qed.

Lemma url_path_stream id k :
  url_path (stream_url base id (kind_name k)) = String.append (session_path id k) "/stream".
Proof. unfold url_path, stream_url, session_url, cat. cbn [Join]. rewrite append_assoc, sdrop_append. done. Qed.

Lemma stream_path_parts id k : has_char slash id = false ->
  split_char slash (Trim slash (String.append (session_path id k) "/stream")) = ["session"; id; kind_name k; "stream"].
Proof.
  intros Hid. unfold Trim, session_path.
  set (tail := String.append id (String slash (kind_name k))).
  change (trim_left slash (String.append (String.append "/session/" tail) "/stream"))
    with (String.append (String.append "session/" tail) "/stream").
  rewrite trim_right_app by done. unfold tail. rewrite !append_assoc.
  change (String.append "session/" ?x) with (String.append "session" (String slash x)).
  rewrite split_char_app by done. rewrite append_cons, split_char_app by done.
  change "/stream" with (String slash "stream").
  rewrite split_char_app by (by destruct k). by rewrite split_char_single.
Qed.

Lemma serve_post id k payload n :
  srv_ok (sn_srv n) -> has_char slash id = false -> Z.of_nat (length (json_sdp payload)) <= 512 * 1024 ->
  exists n', serve_http POST (session_url base id (kind_name k)) (json_sdp payload) n = (Ok (mkHttpResp 200 (Ok [])), n') /\
    srv_ok (sn_srv n') /\ forall id' k', sendSessionSSE id' k' (sn_srv n') =
      if decide (id' = id /\ k' = k) then Some (json_sdp payload) else sendSessionSSE id' k' (sn_srv n).
Proof.
  intros Hok Hid Hlen.
  assert (Hb : (0 < length (json_sdp payload))%nat).
  { destruct (json_sdp_line payload) as (_ & _ & Hne). destruct (json_sdp payload); [done|]. simpl. lia. }
  destruct (post_session jsonValid id k (json_sdp payload) (sn_now n) (sn_srv n)) as (c & Hs & _ & Hok1); try done.
  eexists (mkSnet _ (sn_now n)). unfold serve_http, serve. rewrite url_path_session, Hs. split; [done|]. split; [done|].
  intros id' k'. by apply posted_get.
Qed.

Lemma serve_get id k b n :
  has_char slash id = false -> sendSessionSSE id k (sn_srv n) = Some b ->
  serve GET (session_url base id (kind_name k)) [] n = (Ok (mkResp 200 (BRaw b)), mkSnet (sn_srv n) (sn_now n)).
Proof. intros Hid Hs. unfold serve. rewrite url_path_session. by rewrite (handleSession_get _ id k _ b). Qed.

Lemma serve_stream id k b n :
  has_char slash id = false -> sendSessionSSE id k (sn_srv n) = Some b ->
  exists n', serve GET (stream_url base id (kind_name k)) [] n = (Ok (mkResp 200 (BRaw b)), n').
Proof.
  intros Hid Hs. unfold serve, handleSession. rewrite url_path_stream, stream_path_parts by done.
  change (negb (bool_decide ("session" = "session"))) with false. cbn [head].
  change (bool_decide (Some "stream" = Some "stream")) with true. change (negb (bool_decide (GET = GET))) with false.
  cbv iota. assert (Hkind : bool_decide (kind_name k = "offer") || bool_decide (kind_name k = "answer") = true) by by destruct k.
  rewrite Hkind. replace (bool_decide (kind_name k = "offer")) with k by by destruct k.
  destruct (stream_open id k (sn_srv n)) as [[ev i] s'] eqn:Eo.
  assert (Hev : ev = sendSessionSSE id k (sn_srv n)).
  { revert Eo. unfold stream_open, watchOffer, watchAnswer, sendSessionSSE, get. by destruct k; intros [= <- _ _]. }
  rewrite Hev, Hs. by eexists.
Qed.

#[refine] Definition server_rendezvous : @Rendezvous snet server_http JS base := {|
  rv_ok n := srv_ok (sn_srv n);
  rv_slot n id k := sendSessionSSE id k (sn_srv n)
|}.
Proof.
  - intros. by apply serve_post.
  - intros n id k b _ Hid Hs. eexists. cbn. unfold serve_http. by rewrite (serve_get id k b).
  - done.
  - intros n id k b _ Hid Hs. destruct (serve_stream id k b n Hid Hs) as (n' & Hn'). exists [], EOF, n'. cbn.
    rewrite Hn'. cbn. by rewrite app_nil_r.
Defined.

End server.

(** ** Supabase and several connections *)

Section supabase.
Context {K R E : Type} `{AEAD K} `{Rand R} `{JS : Json} `{HE : Http E} `{SU : Supa}.
Variables (hkdf : bytes -> res goerr bytes) (gcm : bytes -> res goerr K) (anon : string).
Implicit Types w : sworld (R:=R) (E:=E).

(** [net/http] knows no scheme but http and https. *)
Definition unsupported_scheme : Prop :=
  forall url b e, isSupabaseURL url = true -> exists err e', http_Post url b e = (Err err, e').

(** The table of the sessions takes an upsert. *)
Definition upserts (base : string) : Prop :=
  exists rest, supabaseRestBase base = Ok rest /\
    let url := String.append rest "/rendezvous_sessions?on_conflict=session_id" in
    http_NewRequest "POST" url = Ok tt /\
    forall hs b e, exists e' body, http_Do "POST" url hs b e = (Ok (mkHttpResp 201 body), e').

Lemma prefix_app p s t : String.prefix p s = true -> String.prefix p (String.append s t) = true.
Proof.
  revert s. induction p as [|c p IH]; intros s; [by destruct (String.append s t)|].
  destruct s as [|d s]; [done|]. rewrite append_cons. cbn [String.prefix]. destruct (ascii_dec c d); [|done]. apply IH.
Qed.

Lemma post_payload_supabase ctx kind base id payload w :
  unsupported_scheme -> isSupabaseURL base = true ->
  exists err w', post_payload ctx kind base id payload w = (Err (EWrap ctx err), w').
Proof.
  intros Hns Hb. assert (Hu : isSupabaseURL (session_url base id kind) = true).
  { unfold session_url, cat. cbn [Join]. by apply prefix_app. }
  destruct (Hns _ (json_sdp payload) (sw_env w) Hu) as (err & e' & He). exists err, (mkSW e' (sw_rand w)).
  unfold post_payload, post_json, nbind, nwrap, on_env. by rewrite He.
Qed.

(** With a Supabase address the calls for several connections do not
    work.  The single offer is written to the table; the list of offers and
    the list of answers are posted to the address itself, which the HTTP
    client refuses. *)
Theorem supabase_lists_fail base id sdp sdps obfsKey w :
  isSupabaseURL base = true -> key_ok hkdf gcm obfsKey -> utf8 sdp = true -> sdp <> EmptyString ->
  unsupported_scheme -> upserts base ->
  (exists w', PostSDPOffer hkdf gcm anon base id sdp obfsKey w = (Ok tt, w')) /\
  (exists err w', PostSDPOffers hkdf gcm base id sdps obfsKey w = (Err (EWrap "post SDP offers" err), w')) /\
  (exists err w', PostSDPAnswers hkdf gcm base id (Some sdps) obfsKey w = (Err (EWrap "post SDP answers" err), w')).
Proof.
  intros Hb Hk Hu Hne Hns (rest & Hrest & Hnew & Hdo). split_and!.
  - destruct (protect_unprotect hkdf gcm "encrypt SDP offer" sdp obfsKey w Hk Hu Hne) as (p & w1 & Hp & _).
    unfold PostSDPOffer. unfold nbind at 1. rewrite Hp, Hb. unfold supaUpsertSession, supabase_request, nbind, of_result.
    rewrite Hrest, Hnew. unfold on_env.
    match goal with |- context [http_Do ?m ?u ?h ?b ?e] => destruct (Hdo h b e) as (e' & body & ->) end.
    by eexists.
  - destruct (protect_unprotect hkdf gcm "encrypt SDP offers" (Socks.of_bytes (json_strings sdps)) obfsKey w)
      as (p & w1 & Hp & _); auto using json_strings_utf8, json_strings_string.
    unfold PostSDPOffers, nbind. rewrite Hp. by apply post_payload_supabase.
  - destruct (protect_unprotect hkdf gcm "encrypt SDP answers" (Socks.of_bytes (json_strings sdps)) obfsKey w)
      as (p & w1 & Hp & _); auto using json_strings_utf8, json_strings_string.
    unfold PostSDPAnswers, nbind, answers_payload. rewrite decide_False by apply json_strings_string.
    rewrite Hp. by apply post_payload_supabase.
Qed.
End supabase.

(** ** The theorems at work *)

#[local] Existing Instance Obfs.toy_AEAD.

Definition demo_hkdf (k : bytes) : res goerr bytes := Ok k.
Definition demo_gcm (k : bytes) : res goerr byte := Ok (default x00 (head k)).
Definition demo_key : bytes := [x2a].
Definition demo_base : string := "http://s".

Definition demo_http : Http snet := server_http demo_base (fun _ => true).
Definition demo_rv : @Rendezvous snet demo_http toy_json demo_base :=
  server_rendezvous demo_base (fun _ => true) (fun _ => eq_refl).

Definition demo_world : sworld (R:=Z) (E:=snet) := mkSW (mkSnet demo_srv 0) 1.

Lemma demo_key_ok : key_ok demo_hkdf demo_gcm demo_key.
Proof. right. by eexists. Defined.

Definition demo_supa : Supa := {|
  url_HostPath u := Ok (sdrop 11 u, EmptyString);
  supa_session_row _ _ b := b; supa_rows _ := None; supa_listing _ := []
|}.

Lemma signalling_delivers_witness :
  exists w1, PostSDPOffers (HE:=demo_http) demo_hkdf demo_gcm demo_base "r1" ["o1"; "o2"] demo_key demo_world = (Ok tt, w1).
Proof.
  destruct (signalling_delivers (RV:=demo_rv) (SU:=demo_supa) demo_hkdf demo_gcm "" "r1" ["o1"; "o2"] ["a1"] demo_key demo_world)
    as (w1 & Hp & _).
  - exact demo_srv_ok.
  - reflexivity.
  - reflexivity.
  - exact demo_key_ok.
  - reflexivity.
  - reflexivity.
  - discriminate.
  - intros p w' Hp. vm_compute in Hp. injection Hp as <- _. vm_compute. discriminate.
  - intros w1 p w' Hp Hq. vm_compute in Hp. injection Hp as <-. vm_compute in Hq. injection Hq as <- _. vm_compute. reflexivity.
  - exists w1. exact Hp.
Defined.

(** A description of 3000 characters; its encoding takes more than 64 KiB. *)
Definition long_sdp : string := Socks.of_bytes (replicate 3000 x41).

Lemma long_answer_not_streamed_witness :
  exists w2 w', PostSDPAnswers (HE:=demo_http) demo_hkdf demo_gcm demo_base "r1" (Some [long_sdp]) [] demo_world = (Ok tt, w2) /\
    WaitSDPAnswersSSE (HE:=demo_http) demo_hkdf demo_gcm demo_base "r1" [] w2 =
      (Err (EMsg "SSE read: bufio.Scanner: token too long" []), w').
Proof.
  destruct (long_answer_not_streamed (RV:=demo_rv) (SU:=demo_supa) demo_hkdf demo_gcm "" "r1" [long_sdp] [] demo_world)
    as (w2 & Hp & _ & w' & Hw).
  - exact demo_srv_ok.
  - reflexivity.
  - reflexivity.
  - left. reflexivity.
  - vm_compute. reflexivity.
  - discriminate.
  - intros p w' Hp.
    assert (Hq : p = Socks.of_bytes (json_strings [long_sdp])) by (injection Hp as <- _; reflexivity).
    rewrite Hq. split; vm_compute; discriminate.
  - exists w2, w'. split; [exact Hp|exact Hw].
Defined.

(** A network in which only requests to the tables succeed. *)
Definition demo_tables : Http unit := {|
  http_now _ := 0; http_sleep _ e := e; http_jitter lo hi e := (lo, e); http_NewRequest _ _ := Ok tt;
  http_Get _ e := (Err (EMsg "unsupported protocol scheme" []), e);
  http_Post _ _ e := (Err (EMsg "unsupported protocol scheme" []), e);
  http_Do _ _ _ _ e := (Ok (mkHttpResp 201 (Ok [])), e);
  http_Stream _ e := (Err (EMsg "unsupported protocol scheme" []), e);
  ctx_Err _ := None
|}.

Lemma supabase_lists_fail_witness :
  let w : sworld (R:=Z) (E:=unit) := mkSW tt 1 in
  exists w1 err w2,
    PostSDPOffer (HE:=demo_tables) (SU:=demo_supa) demo_hkdf demo_gcm "anon" "supabase://proj" "r1" "o1" demo_key w = (Ok tt, w1) /\
    PostSDPOffers (HE:=demo_tables) demo_hkdf demo_gcm "supabase://proj" "r1" ["o1"] demo_key w =
      (Err (EWrap "post SDP offers" err), w2).
Proof.
  intros w. destruct (supabase_lists_fail (HE:=demo_tables) (SU:=demo_supa) demo_hkdf demo_gcm "anon" "supabase://proj"
    "r1" "o1" ["o1"] demo_key w) as ((w1 & Hw1) & (err & w2 & Hw2) & _).
  - reflexivity.
  - exact demo_key_ok.
  - reflexivity.
  - discriminate.
  - intros url b e _. eexists _, _. reflexivity.
  - eexists. split; [reflexivity|]. split; [reflexivity|]. intros hs b e. eexists _, _. reflexivity.
  - exists w1, err, w2. split; [exact Hw1|exact Hw2].
Defined.

Lemma backoff_bounds_witness :
  exists d, backoff_delays (H:=demo_http) 6 (NewBackoff second (10 * second) 50) (mkSnet demo_srv 0) !! 5%nat = Some d /\
    5 * second <= d <= 15 * second.
Proof.
  eexists. split; [vm_compute; reflexivity|].
  pose proof (@backoff_bounds snet demo_http (server_time demo_base (fun _ => true)) second (10 * second) 6
    (mkSnet demo_srv 0) 5 (5 * second) ltac:(unfold second; lia) ltac:(vm_compute; reflexivity)) as Hb.
  exact Hb.
Defined.

Lemma polling_terminates_witness :
  exists r, poll (HE:=demo_http) poll_fuel (peerInfoRetries * peerRetryInterval) signal_backoff (EMsg "timeout" [])
    (get_sdp_attempt (JS:=toy_json) (HE:=demo_http) "http://s/session/r9/offer") demo_world = Some r.
Proof.
  exact (proj1 (@polling_terminates snet demo_http (server_time demo_base (fun _ => true)) Z toy_json demo_supa
    "anon" "http://s/session/r9/offer" "supabase://proj" "r9" "offer" (EMsg "timeout" []) demo_world)).
Defined.
