(* ===== verification/Peer.v ===== *)
(** * One peer connection: options, start, channels, streams

    [golib/webrtc/defaults.go], [server.go], [client.go] and the part of
    [peer.go] that opens the socket: how a server and a client are started and
    what they release when a step fails, how they learn that their data
    channels are ready, how streams are opened, limited and counted, and how
    they stop.  The WebRTC stack (pion) and the stream multiplexer (smux) are
    third-party code: what a call of theirs returns is a field of [Env] or a
    function of the session type [Sess]. *)

From S2P Require Import Prelude GoStr Sdp.

Open Scope Z_scope.

Module Peer.

(** A signed 32-bit integer. *)
Definition i32 (z : Z) : Z := let w := u32 z in if w <? 2 ^ 31 then w else w - 2 ^ 32.

(** ** Options ([defaults.go]) *)

Record PeerConfig := mkPeerConfig {
  SCTPRecvBuffer : Z; SCTPRTOMax : Z; UDPReadBuffer : Z; UDPWriteBuffer : Z;
  ICEDisconnTimeout : Z; ICEFailedTimeout : Z; ICEKeepalive : Z; DTLSRetransmit : Z;
  DTLSSkipVerify : option bool; SCTPZeroChecksum : option bool; DisableCloseByDTLS : option bool }.

Definition or_default (z d : Z) : Z := if z =? 0 then d else z.
Definition or_true (b : option bool) : option bool := if b is None then Some true else b.

Definition applyPeerDefaults (c : PeerConfig) : PeerConfig :=
  mkPeerConfig (or_default (SCTPRecvBuffer c) 8192) (or_default (SCTPRTOMax c) 2500)
    (or_default (UDPReadBuffer c) 8192) (or_default (UDPWriteBuffer c) 8192)
    (or_default (ICEDisconnTimeout c) 15000) (or_default (ICEFailedTimeout c) 25000)
    (or_default (ICEKeepalive c) 2000) (or_default (DTLSRetransmit c) 100)
    (or_true (DTLSSkipVerify c)) (or_true (SCTPZeroChecksum c)) (or_true (DisableCloseByDTLS c)).

Inductive TransportMode := TransportDataChannels | TransportMediaStream.

(** The fields that [ServerOptions] and [ClientOptions] share; [ClientOptions]
    has no others. *)
Record ClientOptions := mkOptions {
  Padding : bool; PaddingMax : Z; Mode : TransportMode; ObfsKey : bytes;
  NumPeerConnections : Z; NumChannels : Z; SmuxStreamBuffer : Z; SmuxSessionBuffer : Z;
  SmuxFrameSize : Z; SmuxKeepAlive : Z; SmuxKeepAliveTimeout : Z; DCMaxBuffered : Z; DCLowMark : Z;
  Config : PeerConfig }.

Record ServerOptions := mkServerOptions {
  shared : ClientOptions; RateLimitUp : Z; RateLimitDown : Z; DisableIPv6 : bool; MaxTotalStreams : Z }.

Definition applyClientDefaults (o : ClientOptions) : ClientOptions :=
  mkOptions (Padding o)
    (if (PaddingMax o =? 0) && Padding o then 256 else PaddingMax o) (Mode o) (ObfsKey o)
    (or_default (NumPeerConnections o) 6) (or_default (NumChannels o) 6)
    (or_default (SmuxStreamBuffer o) 2048) (or_default (SmuxSessionBuffer o) 8192)
    (or_default (SmuxFrameSize o) 32768) (or_default (SmuxKeepAlive o) 10)
    (or_default (SmuxKeepAliveTimeout o) 300) (or_default (DCMaxBuffered o) 2048)
    (or_default (DCLowMark o) 512) (applyPeerDefaults (Config o)).

(** [applyServerDefaults] fills the same fields with the same values. *)
Definition applyServerDefaults (o : ServerOptions) : ServerOptions :=
  mkServerOptions (applyClientDefaults (shared o)) (RateLimitUp o) (RateLimitDown o) (DisableIPv6 o) (MaxTotalStreams o).

Definition set_NumChannels (n : Z) (o : ClientOptions) : ClientOptions :=
  mkOptions (Padding o) (PaddingMax o) (Mode o) (ObfsKey o) (NumPeerConnections o) n (SmuxStreamBuffer o)
    (SmuxSessionBuffer o) (SmuxFrameSize o) (SmuxKeepAlive o) (SmuxKeepAliveTimeout o) (DCMaxBuffered o)
    (DCLowMark o) (Config o).

Definition set_server_NumChannels (n : Z) (o : ServerOptions) : ServerOptions :=
  mkServerOptions (set_NumChannels n (shared o)) (RateLimitUp o) (RateLimitDown o) (DisableIPv6 o) (MaxTotalStreams o).

(** The configuration handed to smux; durations in seconds. *)
Record SmuxConfig := mkSmux {
  MaxStreamBuffer : Z; MaxReceiveBuffer : Z; MaxFrameSize : Z; KeepAliveInterval : Z; KeepAliveTimeout : Z }.

Definition newSmuxConfig (streamBufKB sessBufKB frameSize keepAliveSec keepAliveTimeoutSec : Z) : SmuxConfig :=
  mkSmux (streamBufKB * 1024) (sessBufKB * 1024) frameSize keepAliveSec keepAliveTimeoutSec.

Definition newSmuxMediaConfig (streamBufKB sessBufKB keepAliveSec keepAliveTimeoutSec : Z) : SmuxConfig :=
  mkSmux (streamBufKB * 1024) (sessBufKB * 1024) 1400 keepAliveSec keepAliveTimeoutSec.

(** ** Sessions and streams *)

(** The loop that looks for the least loaded element, in [openStream] over
    sessions (closed ones are skipped) and in the client group over clients:
    the first one with the smallest count. *)
Fixpoint scan {A} (skip : A -> bool) (count : A -> Z) (best : option A) (bestCount : Z) (l : list A) : option A :=
  match l with
  | [] => best
  | s :: l =>
      if skip s then scan skip count best bestCount l
      else if count s <? bestCount then scan skip count (Some s) (count s) l
      else scan skip count best bestCount l
  end.

Lemma scan_spec {A} (skip : A -> bool) (count : A -> Z) l best bc :
  match best with Some b => count b = bc | None => bc = maxInt end ->
  (forall s, s ∈ l -> skip s = false -> count s < maxInt) ->
  match scan skip count best bc l with
  | Some s => (Some s = best \/ (s ∈ l /\ skip s = false)) /\ count s <= bc /\
      (forall t, t ∈ l -> skip t = false -> count s <= count t)
  | None => best = None /\ (forall t, t ∈ l -> skip t = true)
  end.
Proof.
  revert best bc. induction l as [|a l IH]; intros best bc Hb Hl; cbn [scan].
  { destruct best as [b|]; [|split; [done|]; by intros t ?%not_elem_of_nil].
    split; [by left|]. split; [lia|]. by intros t ?%not_elem_of_nil. }
  assert (Hl' : forall s, s ∈ l -> skip s = false -> count s < maxInt) by (intros; apply Hl; [by right|done]).
  destruct (skip a) eqn:Ea; [|destruct (Z.ltb_spec (count a) bc) as [Hlt|Hge]].
  - specialize (IH best bc Hb Hl'). destruct (scan _ _ best bc l) as [s|].
    + destruct IH as ([->|[Hs Hk]] & H2 & H3); (split; [|split; [done|]]); try (by left); try (right; by split; [right|]);
        intros t [->|Ht]%elem_of_cons Hs'; (congruence || by apply H3).
    + destruct IH as [-> IH]. split; [done|]. intros t [->|Ht]%elem_of_cons; auto.
  - specialize (IH (Some a) (count a) eq_refl Hl'). destruct (scan _ _ (Some a) (count a) l) as [s|]; [|by destruct IH].
    destruct IH as (H1 & H2 & H3). split; [|split; [lia|]].
    + right. destruct H1 as [[= ->]|[Hs Hk]]; (split; [|done]); by constructor.
    + intros t [->|Ht]%elem_of_cons Hs; [done|by apply H3].
  - specialize (IH best bc Hb Hl'). destruct (scan _ _ best bc l) as [s|].
    + destruct IH as (H1 & H2 & H3). split; [|split; [lia|]].
      * destruct H1 as [->|[Hs Hk]]; [by left|right; by split; [right|]].
      * intros t [->|Ht]%elem_of_cons Hs; [lia|by apply H3].
    + destruct IH as [-> IH]. pose proof (Hl a ltac:(by constructor) Ea). lia.
Qed.


Section Smux.
(** smux sessions: what their methods report. *)
Context {Sess : Type} (NumStreams : Sess -> Z) (IsClosed : Sess -> bool).

(** The state that [Server] and [Client] have in common, under the same field
    names; the channels [connected], [failed] and [done] are closed or not. *)
Record Conn := mkConn {
  numChannels : Z; readyCount : Z; failedCount : Z;
  connected : bool; failed : bool; done_ : bool; iceAlive : bool; sessions : list Sess }.

Definition newConn (numCh : Z) : Conn := mkConn numCh 0 0 false false false false [].

Definition set_sessions (l : list Sess) (c : Conn) : Conn :=
  mkConn (numChannels c) (readyCount c) (failedCount c) (connected c) (failed c) (done_ c) (iceAlive c) l.
Definition set_alive (b : bool) (c : Conn) : Conn :=
  mkConn (numChannels c) (readyCount c) (failedCount c) (connected c) (failed c) (done_ c) b (sessions c).
(** [failedOnce.Do(func() { close(s.failed) })]: closing once. *)
Definition set_failed (c : Conn) : Conn :=
  mkConn (numChannels c) (readyCount c) (failedCount c) (connected c) true (done_ c) (iceAlive c) (sessions c).
Definition set_done (c : Conn) : Conn :=
  mkConn (numChannels c) (readyCount c) (failedCount c) (connected c) (failed c) true (iceAlive c) (sessions c).
Definition add_counts (r f : Z) (c : Conn) : Conn :=
  mkConn (numChannels c) (i32 (readyCount c + r)) (i32 (failedCount c + f)) (connected c) (failed c) (done_ c)
    (iceAlive c) (sessions c).

(** [checkAllChannelsReady]; the counters and the comparison are 32 bits. *)
Definition checkAllChannelsReady (c : Conn) : Conn :=
  let total := i32 (readyCount c + failedCount c) in
  if (total =? i32 (numChannels c)) && (0 <? readyCount c) then
    mkConn (numChannels c) (readyCount c) (failedCount c) true (failed c) (done_ c) (iceAlive c) (sessions c)
  else c.

(** The callback of an opened data channel: detaching it and starting the
    multiplexer on it give a session or fail. *)
Definition onChannelOpen (detached : res string Sess) (c : Conn) : Conn :=
  match detached with
  | Err _ => checkAllChannelsReady (add_counts 0 1 c)
  | Ok s => checkAllChannelsReady (add_counts 1 0 (set_sessions (sessions c ++ [s]) c))
  end.

(** [closeSessions]: the sessions that are closed and the state after. *)
Definition closeSessions (c : Conn) : list Sess * Conn := (sessions c, set_sessions [] c).

Inductive ICEState := ICENew | ICEChecking | ICEConnected | ICECompleted | ICEDisconnected | ICEFailed | ICEClosed.

(** The ICE callback of the server: sessions closed, state after. *)
Definition server_onICE (st : ICEState) (c : Conn) : list Sess * Conn :=
  match st with
  | ICEConnected | ICECompleted => ([], set_alive true c)
  | ICEDisconnected => ([], set_alive false c)
  | ICEFailed | ICEClosed => closeSessions (set_failed (set_alive false c))
  | ICENew | ICEChecking => ([], c)
  end.

(** The ICE callback of the client: sessions closed, whether a reconnect is
    requested, state after. *)
Definition client_onICE (onReconnect : bool) (st : ICEState) (c : Conn) : list Sess * bool * Conn :=
  match st with
  | ICEConnected | ICECompleted => ([], false, set_alive true c)
  | ICEFailed =>
      let c := set_failed (set_alive false c) in
      if onReconnect then ([], true, c)
      else let '(l, c) := closeSessions c in (l, false, c)
  | ICEClosed => let '(l, c) := closeSessions (set_failed (set_alive false c)) in (l, false, c)
  | ICEDisconnected | ICENew | ICEChecking => ([], false, c)
  end.

Inductive PCState := PCNew | PCConnecting | PCConnected | PCDisconnected | PCFailed | PCClosed.

(** The connection-state callbacks; the start of the media transport is
    [server_setupMedia] and [client_setupMedia]. *)
Definition server_onPC (st : PCState) (c : Conn) : list Sess * Conn :=
  match st with
  | PCFailed | PCClosed => closeSessions (set_failed (set_alive false c))
  | _ => ([], c)
  end.
Definition client_onPC (st : PCState) (c : Conn) : Conn :=
  match st with PCFailed | PCClosed => set_failed c | _ => c end.

Definition set_connected (c : Conn) : Conn :=
  mkConn (numChannels c) (readyCount c) (failedCount c) true (failed c) (done_ c) (iceAlive c) (sessions c).

(** [setupMediaTransport], run once: the media transport and the multiplexer
    over it are set up or not; the boolean says whether the transport is
    closed again.  A failure is only logged: neither [connected] nor [failed]
    is closed. *)
Definition server_setupMedia (transport : res string unit) (mux : res string Sess) (c : Conn) : Conn * bool :=
  match transport, mux with
  | Err _, _ => (c, false)
  | Ok _, Err _ => (c, true)
  | Ok _, Ok s => (set_connected (set_sessions (sessions c ++ [s]) c), false)
  end.

Definition client_setupMedia (transport : res string unit) (mux : res string Sess) (c : Conn) : Conn * bool :=
  match transport, mux with
  | Err _, _ => (c, false)
  | Ok _, Err _ => (c, true)
  | Ok _, Ok s =>
      let c := add_counts 1 0 (set_sessions (sessions c ++ [s]) c) in
      (if readyCount c =? 1 then set_connected c else c, false)
  end.

(** The outcomes among which the [select] of [WaitConnected] may choose:
    success, or one of its three errors (the time-out reports how many of the
    channels are ready). *)
Inductive wait_err := WaitFailed | WaitTimeout (ready total : Z) | WaitStopped.

Definition WaitConnected_outcomes (timeout : bool) (c : Conn) : list (option wait_err) :=
  (if connected c then [None] else []) ++
  (if failed c then [Some WaitFailed] else []) ++
  (if timeout then [Some (WaitTimeout (readyCount c) (numChannels c))] else []) ++
  (if done_ c then [Some WaitStopped] else []).

Definition GetChannelCount (c : Conn) : Z := Z.of_nat (length (sessions c)).

(** The number of streams over all sessions. *)
Definition GetStreamCount (c : Conn) : Z := foldl (fun t s => t + NumStreams s) 0 (sessions c).

Definition GetStreamDistribution (c : Conn) : list Z := NumStreams <$> sessions c.

(** [openStream]: the session on which [OpenStream] is called, and the
    round-robin counter.  [None] is an index out of range. *)
Definition openStream (c : Conn) (nextSession : Z) : option (res string Sess * Z) :=
  match sessions c with
  | [] => Some (Err "no smux sessions available", nextSession)
  | [s] => Some (Ok s, nextSession)
  | l =>
      match scan IsClosed NumStreams None maxInt l with
      | Some s => Some (Ok s, nextSession)
      | None =>
          let n := u32 (nextSession + 1) in
          let idx := n mod u32 (Z.of_nat (length l)) in
          s ← l !! Z.to_nat idx; Some (Ok s, n)
      end
  end.

(** ** Starting a peer *)

(** Resources, in the order in which they are taken and released. *)
Inductive event := SockOpen | SockClose | PcOpen | PcClose | SessClose (s : Sess).

(** What the operating system and the WebRTC stack answer during one start. *)
Record Env := mkEnv {
  e_listen : res string (Z * Z);          (* the UDP socket: its descriptor and port *)
  e_stun : res string (string * Z);       (* discoverReflexiveAddrMulti *)
  e_obfs : res string unit;               (* NewObfuscatedPacketConn *)
  e_newpc : res string unit;              (* api.NewPeerConnection *)
  e_remote : res string unit;             (* SetRemoteDescription *)
  e_media : res string unit;              (* PrepareMediaTrack *)
  e_label : nat -> string;                (* generateRandomDCLabel *)
  e_channel : nat -> res string unit;     (* CreateDataChannel *)
  e_describe : res string unit;           (* CreateOffer or CreateAnswer *)
  e_local : res string unit;              (* SetLocalDescription *)
  e_sdp : string }.                       (* LocalDescription after gathering *)

(** [newPeerConnection]: the socket, the discovered address, the obfuscation
    wrapper and the peer connection.  Socket buffers, the relay registration
    and the settings passed to pion influence neither its result nor what it
    releases. *)
Definition newPeerConnection (obfsKey : bytes) (relay : string) (e : Env)
    : res string Sdp.peerConnResult * list event :=
  match e_listen e with
  | Err m => (Err ("create UDP socket: " +:+ m)%string, [])
  | Ok (fd, lport) =>
      let '(ip, port) := match e_stun e with Ok a => a | Err _ => (EmptyString, 0) end in
      match (if decide (obfsKey = []) then Ok tt else e_obfs e) with
      | Err m => (Err ("create obfuscated conn: " +:+ m)%string, [SockOpen; SockClose])
      | Ok _ =>
          match e_newpc e with
          | Err m => (Err ("create peer connection: " +:+ m)%string, [SockOpen; SockClose])
          | Ok _ => (Ok (Sdp.mkPC ip port lport relay fd), [SockOpen; PcOpen])
          end
      end
  end.

(** The clean-up that every later failure runs. *)
Definition cleanup : list event := [PcClose; SockClose].

Definition fail_with {A} (ctx m : string) (evs : list event) : res string A * list event :=
  (Err (ctx +:+ m)%string, evs ++ cleanup).

(** The loop that creates the data channels: the first failure, if any, with
    the channel's label. *)
Fixpoint create_channels (e : Env) (i n : nat) : res string unit :=
  match n with
  | O => Ok tt
  | S n => match e_channel e i with Err m => Err (e_label e i +:+ ": " +:+ m) | Ok _ => create_channels e (S i) n end
  end.

(** The end of [StartServer] and [StartClient]: create the description, set
    it, gather, add and filter candidates. *)
Definition finish {A} (ctx : string) (a : A) (r : Sdp.peerConnResult) (evs : list event) (e : Env)
    : res string (A * string) * list event :=
  match e_describe e with
  | Err m => fail_with ctx m evs
  | Ok _ =>
      match e_local e with
      | Err m => fail_with "set local description: " m evs
      | Ok _ => (Ok (a, Sdp.localSDP (e_sdp e) r), evs)
      end
  end.

Record Server := mkServer {
  s_conn : Conn; s_opts : ServerOptions; totalStreamSem : option Z; activeStreams : Z;
  bytesUp : Z; bytesDown : Z; webBytesDown : Z; videoBytesDown : Z; otherBytesDown : Z }.

(** [makeSemaphore]: the capacity, or no semaphore. *)
Definition makeSemaphore (n : Z) : option Z := if n <=? 0 then None else Some n.

(** [StartServer]; the outer [None] is the panic of [make] with a negative
    capacity. *)
Definition StartServer (obfsKey : bytes) (relay : string) (opts : ServerOptions) (e : Env)
    : option (res string (Server * string) * list event) :=
  let o := applyServerDefaults opts in
  let n := NumChannels (shared o) in
  match newPeerConnection obfsKey relay e with
  | (Err m, evs) => Some (Err m, evs)
  | (Ok r, evs) =>
      if n <? 0 then None else
      let s := mkServer (newConn n) o (makeSemaphore (MaxTotalStreams o)) 0 0 0 0 0 0 in
      Some match Mode (shared o) with
      | TransportMediaStream =>
          match e_media e with
          | Err m => fail_with "prepare media track: " m evs
          | Ok _ => finish "create offer: " s r evs e
          end
      | TransportDataChannels =>
          match create_channels e 0 (Z.to_nat n) with
          | Err m => fail_with "create data channel " m evs
          | Ok _ => finish "create offer: " s r evs e
          end
      end
  end.

Record Client := mkClient {
  c_conn : Conn; c_opts : ClientOptions; nextSession : Z; socketFD : Z; onReconnect : bool }.

Definition StartClient (obfsKey : bytes) (relay : string) (opts : ClientOptions) (e : Env)
    : option (res string (Client * string) * list event) :=
  let o := applyClientDefaults opts in
  let n := NumChannels o in
  match newPeerConnection obfsKey relay e with
  | (Err m, evs) => Some (Err m, evs)
  | (Ok r, evs) =>
      if n <? 0 then None else
      let c := mkClient (newConn n) o 0 (Sdp.socketFD r) false in
      Some match e_remote e with
      | Err m => fail_with "set remote description: " m evs
      | Ok _ =>
          match Mode o with
          | TransportMediaStream =>
              match e_media e with
              | Err m => fail_with "prepare media track: " m evs
              | Ok _ => finish "create answer: " c r evs e
              end
          | TransportDataChannels => finish "create answer: " c r evs e
          end
      end
  end.

(** [Stop] of the server and of the client: nothing the second time. *)
Definition Stop (c : Conn) : list event * Conn :=
  if done_ c then ([], c)
  else (map SessClose (sessions c) ++ [PcClose; SockClose], set_done c).

(** What [openStream] returns: with sessions it never fails or indexes out of
    range, and among the open ones it takes one with the fewest streams. *)
Lemma openStream_spec c n :
  (forall s, s ∈ sessions c -> NumStreams s < maxInt) -> Z.of_nat (length (sessions c)) < 2 ^ 32 ->
  sessions c <> [] ->
  exists s n', openStream c n = Some (Ok s, n') /\ s ∈ sessions c /\
    (forall t, t ∈ sessions c -> IsClosed t = false -> length (sessions c) <> 1%nat ->
       IsClosed s = false /\ NumStreams s <= NumStreams t).
Proof.
  intros Hb Hlen Hne. unfold openStream. destruct (sessions c) as [|a [|b l]] eqn:E; [done| |].
  - exists a, n. split; [done|]. split; [set_solver|]. done.
  - assert (Hs := scan_spec IsClosed NumStreams (a :: b :: l) None maxInt eq_refl (fun s H _ => Hb s H)).
    destruct (scan IsClosed NumStreams None maxInt (a :: b :: l)) as [s|].
    + destruct Hs as ([?|[H1 H2]] & _ & H3); [done|]. exists s, n. split; [done|]. split; [done|]. auto.
    + destruct Hs as [_ Hs]. assert (Hl : 0 < Z.of_nat (length (a :: b :: l))) by (simpl; lia).
      rewrite (wrap_small 32 (Z.of_nat (length (a :: b :: l)))) by lia.
      destruct (lookup_lt_is_Some_2 (a :: b :: l) (Z.to_nat (u32 (n + 1) mod Z.of_nat (length (a :: b :: l)))))
        as [s Hx].
      { pose proof (Z.mod_pos_bound (u32 (n + 1)) _ Hl). lia. }
      rewrite Hx. eexists _, _. split; [reflexivity|]. split; [by eapply list_elem_of_lookup_2|].
      intros t Ht Hc. rewrite Hs in Hc; done.
Qed.

(** ** Resources *)

(** How many sockets and peer connections are open after the events. *)
Fixpoint live (evs : list event) : Z * Z :=
  match evs with
  | [] => (0, 0)
  | e :: evs =>
      let '(s, p) := live evs in
      match e with
      | SockOpen => (s + 1, p) | SockClose => (s - 1, p)
      | PcOpen => (s, p + 1) | PcClose => (s, p - 1)
      | SessClose _ => (s, p)
      end
  end.

Lemma live_app a b : live (a ++ b) = ((live a).1 + (live b).1, (live a).2 + (live b).2).
Proof.
  induction a as [|e a IH]; simpl; [by destruct (live b)|]. rewrite IH.
  destruct (live a) as [s p], (live b) as [s' p'], e; simpl; f_equal; lia.
Qed.

Lemma live_stop c : done_ c = false -> live (Stop c).1 = (-1, -1).
Proof.
  intros H. unfold Stop. rewrite H. cbn [fst]. rewrite live_app.
  assert (E : live (map SessClose (sessions c)) = (0, 0)) by (induction (sessions c) as [|s l IH]; simpl; [done|by rewrite IH]).
  by rewrite E.
Qed.

(** A start leaves a socket and a peer connection open when it succeeds and
    nothing when it fails. *)
Definition balanced {A} (r : res string A) (evs : list event) : Prop :=
  live evs = match r with Ok _ => (1, 1) | Err _ => (0, 0) end.

Lemma newPeerConnection_live key relay e :
  balanced (newPeerConnection key relay e).1 (newPeerConnection key relay e).2.
Proof.
  unfold newPeerConnection, balanced. destruct (e_listen e) as [[fd lp]|]; [|done].
  destruct (match e_stun e with Ok a => a | Err _ => _ end) as [ip port].
  destruct (if decide (key = []) then _ else _); [|done]. by destruct (e_newpc e).
Qed.

Lemma fail_with_live {A} ctx m evs : live evs = (1, 1) -> balanced (fail_with (A:=A) ctx m evs).1 (fail_with (A:=A) ctx m evs).2.
Proof. intros H. unfold balanced, fail_with. cbn [fst snd]. rewrite live_app, H. done. Qed.

Lemma finish_live {A} ctx (a : A) r evs e : live evs = (1, 1) -> balanced (finish ctx a r evs e).1 (finish ctx a r evs e).2.
Proof.
  intros H. unfold finish. destruct (e_describe e); [|by apply fail_with_live].
  destruct (e_local e); [done|by apply fail_with_live].
Qed.

Lemma StartServer_live key relay opts e out :
  StartServer key relay opts e = Some out -> balanced out.1 out.2.
Proof.
  unfold StartServer. pose proof (newPeerConnection_live key relay e) as Hn.
  destruct (newPeerConnection key relay e) as [[r|m] evs]; [|by intros [= <-]].
  unfold balanced in Hn. cbn [fst snd] in Hn. destruct (_ <? 0); [done|].
  destruct (Mode _); intros [= <-].
  - destruct (create_channels _ _ _); [by apply finish_live|by apply fail_with_live].
  - destruct (e_media e); [by apply finish_live|by apply fail_with_live].
Qed.

Lemma StartClient_live key relay opts e out :
  StartClient key relay opts e = Some out -> balanced out.1 out.2.
Proof.
  unfold StartClient. pose proof (newPeerConnection_live key relay e) as Hn.
  destruct (newPeerConnection key relay e) as [[r|m] evs]; [|by intros [= <-]].
  unfold balanced in Hn. cbn [fst snd] in Hn. destruct (_ <? 0); [done|].
  destruct (e_remote e); [|intros [= <-]; by apply fail_with_live].
  destruct (Mode _); intros [= <-]; [by apply finish_live|].
  destruct (e_media e); [by apply finish_live|by apply fail_with_live].
Qed.

(** A peer that was just started is not stopped and has the channels that its
    options give it after the defaults. *)
Lemma StartServer_new key relay opts e s sdp evs :
  StartServer key relay opts e = Some (Ok (s, sdp), evs) ->
  s_conn s = newConn (or_default (NumChannels (shared opts)) 6) /\
  exists r, (newPeerConnection key relay e).1 = Ok r /\ sdp = Sdp.localSDP (e_sdp e) r.
Proof.
  unfold StartServer, finish, fail_with. destruct (newPeerConnection key relay e) as [[r|m] evs0]; [|done].
  destruct (_ <? 0); [done|]. intros H. repeat case_match; simplify_eq; eauto.
Qed.

Lemma StartClient_new key relay opts e c sdp evs :
  StartClient key relay opts e = Some (Ok (c, sdp), evs) ->
  c_conn c = newConn (or_default (NumChannels opts) 6) /\
  exists r, (newPeerConnection key relay e).1 = Ok r /\ sdp = Sdp.localSDP (e_sdp e) r.
Proof.
  unfold StartClient, finish, fail_with. destruct (newPeerConnection key relay e) as [[r|m] evs0]; [|done].
  destruct (_ <? 0); [done|]. intros H. repeat case_match; simplify_eq; eauto.
Qed.

End Smux.

(** ** The stream limit of the server ([acceptLoop])

    The goroutines of the server: accept loops that have taken a slot and not
    yet counted the stream, running handlers, and handlers that have counted
    down and not yet returned the slot. *)

Record limiter := mkLim { cap : option Z; used : Z; active : Z; taking : Z; running : Z; leaving : Z }.

Inductive lim_step : limiter -> limiter -> Prop :=
  (* case s.totalStreamSem <- struct{}{} succeeds while the channel has room *)
  | lim_take c u a t r l : u < c ->
      lim_step (mkLim (Some c) u a t r l) (mkLim (Some c) (u + 1) a (t + 1) r l)
  (* no semaphore *)
  | lim_take_free u a t r l :
      lim_step (mkLim None u a t r l) (mkLim None u a (t + 1) r l)
  (* s.activeStreams.Add(1); go ... *)
  | lim_count c u a t r l : 0 < t ->
      lim_step (mkLim c u a t r l) (mkLim c u (a + 1) (t - 1) (r + 1) l)
  (* handleStream returns; the deferred calls run last to first *)
  | lim_uncount c u a t r l : 0 < r ->
      lim_step (mkLim c u a t r l) (mkLim c u (a - 1) t (r - 1) (l + 1))
  | lim_release c u a t r l : 0 < l ->
      lim_step (mkLim (Some c) u a t r l) (mkLim (Some c) (u - 1) a t r (l - 1))
  | lim_release_free u a t r l : 0 < l ->
      lim_step (mkLim None u a t r l) (mkLim None u a t r (l - 1)).

Definition lim_init (maxTotalStreams : Z) : limiter := mkLim (makeSemaphore maxTotalStreams) 0 0 0 0 0.

Definition lim_ok (l : limiter) : Prop :=
  active l = running l /\ 0 <= taking l /\ 0 <= running l /\ 0 <= leaving l /\
  match cap l with Some c => used l = taking l + running l + leaving l /\ used l <= c | None => True end.

Lemma lim_ok_step l l' : lim_ok l -> lim_step l l' -> lim_ok l'.
Proof. intros H Hs. destruct Hs; unfold lim_ok in *; simpl in *; destruct_and?; try destruct c; repeat split; lia. Qed.

(** the server-wide stream limit.  However the accept loops of all
    sessions and the stream handlers interleave, the number of streams counted
    as active never exceeds a positive [MaxTotalStreams] and never becomes
    negative; with a limit of zero or less, every accepted stream is handled at
    once. *)
Theorem server_stream_limit (maxTotalStreams : Z) (l : limiter) :
  rtc lim_step (lim_init maxTotalStreams) l ->
  0 <= active l /\ (0 < maxTotalStreams -> active l <= maxTotalStreams) /\
  (maxTotalStreams <= 0 -> exists l', lim_step l l' /\ taking l' = taking l + 1).
Proof.
  intros Hr. assert (H : lim_ok l /\ cap l = makeSemaphore maxTotalStreams).
  { remember (lim_init maxTotalStreams) as l0 eqn:E. assert (H0 : lim_ok l0 /\ cap l0 = makeSemaphore maxTotalStreams).
    { subst. unfold lim_ok, lim_init, makeSemaphore. simpl. destruct (Z.leb_spec maxTotalStreams 0); simpl; repeat split; lia. }
    clear E. induction Hr as [|x y z Hxy _ IH]; [done|]. apply IH. destruct H0 as [H0 Hc].
    split; [by eapply lim_ok_step|]. rewrite <- Hc. by destruct Hxy. }
  destruct H as [(Ha & Ht & Hru & Hl & Hc) Hcap]. rewrite Hcap in Hc. unfold makeSemaphore in *.
  destruct (Z.leb_spec maxTotalStreams 0); (split; [lia|]).
  - split; [lia|]. intros _. destruct l as [c u a t r le]. simpl in *. subst c. eexists. split; [apply lim_take_free|done].
  - split; [lia|]. lia.
Qed.

Lemma server_stream_limit_witness : 0 <= 1 /\ (0 < 1 -> 1 <= 1) /\
  (1 <= 0 -> exists l', lim_step (mkLim (Some 1) 1 1 0 1 0) l' /\ taking l' = 0 + 1).
Proof.
  apply (server_stream_limit 1 (mkLim (Some 1) 1 1 0 1 0)).
  eapply rtc_l; [apply (lim_take 1 0 0 0 0 0); reflexivity|].
  eapply rtc_l; [apply (lim_count (Some 1) 1 0 1 0 0); reflexivity|]. apply rtc_refl.
Defined.

(** ** Readiness: the channel callbacks as concurrent threads

    Each data channel's callback runs in its own goroutine: it adds to
    [readyCount] or [failedCount] and then runs [checkAllChannelsReady], whose
    three atomic loads can interleave with the other callbacks. *)

Inductive phase :=
  | PStart              (* before the counter is incremented *)
  | PAdded              (* before the first load *)
  | PReady (r : Z)      (* readyCount.Load() returned r *)
  | PTotal (total : Z)  (* total computed *)
  | PDone.

#[export] Instance phase_eq_dec : EqDecision phase.
Proof. solve_decision. Defined.

Record thread := mkThread { t_ok : bool; t_ph : phase }.

Record rstate := mkR { r_ready : Z; r_failed : Z; r_connected : bool; r_threads : list thread }.

Definition r_init (outcomes : list bool) : rstate :=
  mkR 0 0 false ((fun b => mkThread b PStart) <$> outcomes).

Inductive rstep (n : Z) : rstate -> rstate -> Prop :=
  | r_add i b R F c ts : ts !! i = Some (mkThread b PStart) ->
      rstep n (mkR R F c ts)
        (mkR (if b then R + 1 else R) (if b then F else F + 1) c (<[i := mkThread b PAdded]> ts))
  | r_load1 i b R F c ts : ts !! i = Some (mkThread b PAdded) ->
      rstep n (mkR R F c ts) (mkR R F c (<[i := mkThread b (PReady R)]> ts))
  | r_load2 i b r R F c ts : ts !! i = Some (mkThread b (PReady r)) ->
      rstep n (mkR R F c ts) (mkR R F c (<[i := mkThread b (PTotal (r + F))]> ts))
  | r_check i b t R F c ts : ts !! i = Some (mkThread b (PTotal t)) ->
      rstep n (mkR R F c ts)
        (mkR R F (if (t =? n) && (0 <? R) then true else c) (<[i := mkThread b PDone]> ts)).

Definition started (x : thread) : bool := negb (bool_decide (t_ph x = PStart)).
Definition count (f : thread -> bool) (l : list thread) : Z := Z.of_nat (length (filter (fun x => f x = true) l)).

Lemma count_cons f x l : count f (x :: l) = (if f x then 1 else 0) + count f l.
Proof.
  unfold count. rewrite filter_cons. destruct (decide (f x = true)) as [E|E].
  - rewrite E. simpl. lia.
  - by apply not_true_is_false in E; rewrite E.
Qed.

Lemma count_insert f i x y l : l !! i = Some x ->
  count f (<[i := y]> l) = count f l + (if f y then 1 else 0) - (if f x then 1 else 0).
Proof.
  revert i. induction l as [|a l IH]; intros [|i] H; try done.
  - injection H as ->. cbn [insert list_insert]. rewrite !count_cons. lia.
  - change (<[S i := y]> (a :: l)) with (a :: <[i := y]> l). rewrite !count_cons. rewrite (IH i H). lia.
Qed.

Lemma count_range f l : 0 <= count f l <= Z.of_nat (length l).
Proof. induction l as [|a l IH]; [done|]. rewrite count_cons. destruct (f a); simpl; lia. Qed.

Lemma count_full f l : count f l = Z.of_nat (length l) -> forall x, x ∈ l -> f x = true.
Proof.
  induction l as [|a l IH]; [by intros _ x ?%not_elem_of_nil|]. rewrite count_cons. simpl length.
  pose proof (count_range f l). intros H0. destruct (f a) eqn:E; [|lia].
  intros x [->|Hx]%elem_of_cons; [done|]. apply IH; [lia|done].
Qed.

Definition done_ok (x : thread) : bool := started x && t_ok x.
Definition done_bad (x : thread) : bool := started x && negb (t_ok x).

Lemma count_split l : count done_ok l + count done_bad l = count started l.
Proof.
  induction l as [|a l IH]; [done|]. rewrite !count_cons. unfold done_ok at 1, done_bad at 1.
  destruct (started a), (t_ok a); simpl; lia.
Qed.

(** The thread that will close [connected]: the one that incremented last
    sees the final counters. *)
Definition closer (R n : Z) (x : thread) : Prop :=
  match t_ph x with PAdded => True | PReady r => r = R | PTotal t => t = n | _ => False end.

Definition phase_le (R F : Z) (x : thread) : Prop :=
  match t_ph x with PReady r => r <= R | PTotal t => t <= R + F | _ => True end.

Record rinv (n : Z) (s : rstate) : Prop := {
  ri_len : Z.of_nat (length (r_threads s)) = n;
  ri_ready : r_ready s = count done_ok (r_threads s);
  ri_failed : r_failed s = count done_bad (r_threads s);
  ri_le : Forall (phase_le (r_ready s) (r_failed s)) (r_threads s);
  ri_safe : r_connected s = true -> r_ready s + r_failed s = n /\ 0 < r_ready s;
  ri_live : r_ready s + r_failed s = n -> 0 < r_ready s ->
            r_connected s = true \/ exists x, x ∈ r_threads s /\ closer (r_ready s) n x }.

Lemma rinv_init outcomes : rinv (Z.of_nat (length outcomes)) (r_init outcomes).
Proof.
  assert (H : forall f, (forall b, f (mkThread b PStart) = false) -> count f ((fun b => mkThread b PStart) <$> outcomes) = 0).
  { intros f Hf. induction outcomes as [|b l IH]; [done|]. cbn [fmap list_fmap]. rewrite count_cons, Hf. exact IH. }
  split; simpl; try done.
  - by rewrite length_fmap.
  - by rewrite H.
  - by rewrite H.
  - apply Forall_fmap, Forall_true. done.
Qed.

(** A thread other than the closer moves: the closer stays. *)
Lemma closer_other R n (ts : list thread) (i : nat) x y : closer R n y -> y ∈ ts -> ts !! i = Some x -> ~ closer R n x ->
  forall z, exists w, w ∈ <[i := z]> ts /\ closer R n w.
Proof.
  intros Hy [j Hj]%list_elem_of_lookup Hi Hx z. exists y. split; [|done].
  apply list_elem_of_lookup. exists j. rewrite list_lookup_insert_ne; [done|]. intros ->. congruence.
Qed.

Lemma insert_here {A} (i : nat) (x y : A) (l : list A) : l !! i = Some x -> y ∈ <[i := y]> l.
Proof. intros H. apply list_elem_of_lookup. exists i. apply list_lookup_insert_eq. by eapply lookup_lt_Some. Qed.

Lemma phase_le_mono R F R' F' x : R <= R' -> F <= F' -> phase_le R F x -> phase_le R' F' x.
Proof. unfold phase_le. destruct (t_ph x); intros; lia. Qed.

Lemma ready_total n s : rinv n s -> r_ready s + r_failed s = count started (r_threads s).
Proof. intros [_ -> -> _ _ _]. apply count_split. Qed.

(** A thread that has reported moves on: the counters stay. *)
Lemma rinv_move n R F c c' ts (i : nat) b p q :
  rinv n (mkR R F c ts) -> ts !! i = Some (mkThread b p) -> p <> PStart -> q <> PStart ->
  phase_le R F (mkThread b q) -> (c' = true -> R + F = n /\ 0 < R) ->
  (R + F = n -> 0 < R -> c' = true \/ exists x, x ∈ <[i := mkThread b q]> ts /\ closer R n x) ->
  rinv n (mkR R F c' (<[i := mkThread b q]> ts)).
Proof.
  intros [Hl Hr Hf Hle _ _] Hi Hp Hq Hph Hsafe Hlive. simpl in *. split; simpl; try done.
  - by rewrite length_insert.
  - rewrite (count_insert _ _ _ _ _ Hi), <- Hr. unfold done_ok, started. simpl. rewrite !bool_decide_eq_false_2 by done. lia.
  - rewrite (count_insert _ _ _ _ _ Hi), <- Hf. unfold done_bad, started. simpl. rewrite !bool_decide_eq_false_2 by done. lia.
  - by apply Forall_insert.
Qed.

(** A thread reports: before it, not all had. *)
Lemma rinv_add n R F c ts (i : nat) b :
  rinv n (mkR R F c ts) -> ts !! i = Some (mkThread b PStart) ->
  rinv n (mkR (if b then R + 1 else R) (if b then F else F + 1) c (<[i := mkThread b PAdded]> ts)).
Proof.
  intros Hinv Hi. pose proof (ready_total _ _ Hinv) as Htot. destruct Hinv as [Hl Hr Hf Hle Hsafe Hlive]. simpl in *.
  assert (Hlt : R + F < n).
  { rewrite Htot, <- Hl. pose proof (count_range started ts) as [_ Hc].
    destruct (decide (count started ts = Z.of_nat (length ts))) as [E|]; [|lia].
    apply list_elem_of_lookup_2 in Hi as Hx. by apply (count_full _ _ E) in Hx. }
  split; simpl.
  - by rewrite length_insert.
  - rewrite (count_insert _ _ _ _ _ Hi), <- Hr. unfold done_ok. simpl. destruct b; simpl; lia.
  - rewrite (count_insert _ _ _ _ _ Hi), <- Hf. unfold done_bad. simpl. destruct b; simpl; lia.
  - apply Forall_insert; [|done]. eapply Forall_impl; [exact Hle|]. intros x. apply phase_le_mono; destruct b; lia.
  - intros Hc. apply Hsafe in Hc. lia.
  - intros _ _. right. exists (mkThread b PAdded). split; [by eapply insert_here|done].
Qed.

Lemma rinv_step n s s' : rinv n s -> rstep n s s' -> rinv n s'.
Proof.
  intros Hinv Hs. destruct Hs as [i b R F c ts Hi|i b R F c ts Hi|i b r R F c ts Hi|i b t R F c ts Hi].
  - by apply rinv_add.
  - destruct (Hinv) as [_ _ _ _ Hsafe Hlive]. eapply rinv_move; try done; [unfold phase_le; simpl; lia|]. intros H1 H2.
    destruct (Hlive H1 H2) as [Hc|_]; [by left|]. right. eexists. split; [by eapply insert_here|done].
  - destruct (Hinv) as [_ _ _ Hle Hsafe Hlive]. pose proof (Forall_lookup_1 _ _ _ _ Hle Hi) as Hrle. unfold phase_le in Hrle. simpl in Hrle.
    eapply rinv_move; try done; [unfold phase_le; simpl; lia|]. intros H1 H2.
    destruct (Hlive H1 H2) as [Hc|(y & Hy & Hcl)]; [by left|]. right. destruct (decide (r = R)) as [->|Hne].
    + eexists. split; [by eapply insert_here|]. unfold closer. simpl. lia.
    + by eapply closer_other.
  - pose proof (ready_total _ _ Hinv) as Htot. destruct (Hinv) as [Hl _ _ Hle Hsafe Hlive].
    pose proof (Forall_lookup_1 _ _ _ _ Hle Hi) as Htle. unfold phase_le in Htle. pose proof (count_range started ts) as Hcr.
    simpl in *. eapply rinv_move; try done.
    + destruct (Z.eqb_spec t n), (Z.ltb_spec 0 R); simpl; try done. intros _. lia.
    + intros H1 H2. destruct (Z.eqb_spec t n), (Z.ltb_spec 0 R); simpl; try (by left); try lia.
      destruct (Hlive H1 H2) as [Hc|(y & Hy & Hcl)]; [by left|]. right. by eapply closer_other.
Qed.

(** readiness under concurrency.  However the callbacks of the [n] data
    channels interleave, [connected] is closed only after all of them have
    reported and at least one channel works; and once all callbacks have
    finished, it is closed if at least one channel works (no lost wake-up). *)
Theorem channels_ready (outcomes : list bool) (s : rstate) :
  rtc (rstep (Z.of_nat (length outcomes))) (r_init outcomes) s ->
  (r_connected s = true -> (forall x, x ∈ r_threads s -> t_ph x <> PStart) /\ 0 < r_ready s) /\
  ((forall x, x ∈ r_threads s -> t_ph x = PDone) -> (exists x, x ∈ r_threads s /\ t_ok x = true) ->
     r_connected s = true).
Proof.
  intros Hr. assert (Hi : rinv (Z.of_nat (length outcomes)) s).
  { pose proof (rinv_init outcomes) as H0. induction Hr as [|x y z Hxy _ IH]; [done|]. apply IH. by eapply rinv_step. }
  pose proof (ready_total _ _ Hi) as Htot. destruct Hi as [Hl Hrd Hf Hle Hsafe Hlive]. split.
  - intros [H1 H2]%Hsafe. split; [|done]. rewrite Htot, <- Hl in H1. intros x Hx E.
    pose proof (count_full _ _ H1 x Hx) as Hst. unfold started in Hst. by rewrite E in Hst.
  - intros Hd (x & Hx & Hok). assert (Hall : forall y, y ∈ r_threads s -> started y = true).
    { intros y Hy. unfold started. by rewrite (Hd y Hy). }
    assert (Hc : count started (r_threads s) = Z.of_nat (length (r_threads s))).
    { clear -Hall. induction (r_threads s) as [|a l IH]; [done|]. rewrite count_cons, Hall by constructor.
      rewrite IH; [simpl; lia|]. intros y Hy. apply Hall. by right. }
    assert (Hpos : 0 < r_ready s).
    { rewrite Hrd. unfold count. enough (0 < length (filter (fun x => done_ok x = true) (r_threads s)))%nat by lia.
      apply list_elem_of_lookup in Hx as [k Hk]. 
      assert (Hin : x ∈ filter (fun x => done_ok x = true) (r_threads s)).
      { apply list_elem_of_filter. split; [|by eapply list_elem_of_lookup_2].
        unfold done_ok. rewrite Hall, Hok; [done|]. by eapply list_elem_of_lookup_2. }
      destruct (filter _ _); [by apply not_elem_of_nil in Hin|simpl; lia]. }
    destruct Hlive as [?|(y & Hy & Hcl)]; [lia|done|done|]. unfold closer in Hcl. by rewrite (Hd y Hy) in Hcl.
Qed.

Lemma channels_ready_witness :
  (false = true -> (forall x, x ∈ [mkThread true (PReady 1); mkThread false PStart] -> t_ph x <> PStart) /\ 0 < 1) /\
  ((forall x, x ∈ [mkThread true (PReady 1); mkThread false PStart] -> t_ph x = PDone) ->
     (exists x, x ∈ [mkThread true (PReady 1); mkThread false PStart] /\ t_ok x = true) -> false = true).
Proof.
  apply (channels_ready [true; false] (mkR 1 0 false [mkThread true (PReady 1); mkThread false PStart])).
  eapply rtc_l; [apply (r_add 2 0 true 0 0 false [mkThread true PStart; mkThread false PStart]); reflexivity|].
  eapply rtc_l; [apply (r_load1 2 0 true 1 0 false [mkThread true PAdded; mkThread false PStart]); reflexivity|].
  apply rtc_refl.
Defined.

End Peer.
