(* ===== verification/Group.v ===== *)
(** * Groups of peer connections

    [golib/webrtc/group.go]: a server or a client runs several peer
    connections side by side.  The group splits the data channels among them,
    starts them one after the other and undoes the start when one fails, waits
    for the first one to connect, sums their counters and, on the client,
    opens each stream on the least loaded connection. *)

From S2P Require Import Prelude GoStr Sdp Peer.

Open Scope Z_scope.

Module Group.

Import Peer.

Definition deriveSessionID (base : string) (index : Z) : string :=
  if index =? 0 then base else base +:+ "-" +:+ itoa index.

(** [distributeChannels]; Go's division and remainder truncate. *)
Definition distributeChannels (total npc : Z) : list Z :=
  if npc <=? 0 then []
  else let base := Z.quot total npc in
       let extra := Z.rem total npc in
       (fun i => if Z.of_nat i <? extra then base + 1 else base) <$> seq 0 (Z.to_nat npc).

Definition maxPeerConnections : Z := 8.

Definition cap_npc (npc : Z) : Z :=
  let npc := if npc <=? 0 then 1 else npc in
  if maxPeerConnections <? npc then maxPeerConnections else npc.

Definition total_channels (n : Z) : Z := if n =? 0 then 6 else n.

Section Groups.
Context {Sess : Type} (NumStreams : Sess -> Z) (IsClosed : Sess -> bool).

Abbreviation Conn := (@Conn Sess).
Abbreviation Server := (@Server Sess).
Abbreviation Client := (@Client Sess).
Abbreviation event := (@event Sess).

(** The loop over the peer connections of a group: start number [i], and on a
    failure stop the ones already started, oldest first.  [stop] gives the
    events of stopping one; events carry the number of their peer. *)
Section Start.
Context {P : Type} (role : string) (start : nat -> option (res string (P * string) * list event)) (stop : P -> list event).

Fixpoint stop_all (i : nat) (ps : list P) : list (nat * event) :=
  match ps with
  | [] => []
  | p :: ps => ((fun e => (i, e)) <$> stop p) ++ stop_all (S i) ps
  end.

Fixpoint start_loop (i n : nat) (ps : list P) (sdps : list string) (evs : list (nat * event))
    : option (res string (list P * list string) * list (nat * event)) :=
  match n with
  | O => Some (Ok (ps, sdps), evs)
  | S n =>
      match start i with
      | None => None
      | Some (Err m, es) =>
          Some (Err ("start " +:+ role +:+ " PC " +:+ itoa (Z.of_nat i) +:+ ": " +:+ m), (evs ++ ((fun e => (i, e)) <$> es)) ++ stop_all 0 ps)
      | Some (Ok (p, sdp), es) => start_loop (S i) n (ps ++ [p]) (sdps ++ [sdp]) (evs ++ ((fun e => (i, e)) <$> es))
      end
  end.

End Start.

Record ServerGroup := mkSG { servers : list Server }.

Definition stop_server (s : Server) : list event := (Stop (s_conn s)).1.
Definition stop_client (c : Client) : list event := (Stop (c_conn c)).1.

Definition StartServerGroup (npc : Z) (obfsKey : bytes) (relay : string) (opts : ServerOptions) (env : nat -> Env)
    : option (res string (ServerGroup * list string) * list (nat * event)) :=
  let npc := cap_npc npc in
  let dist := distributeChannels (total_channels (NumChannels (shared opts))) npc in
  match start_loop "server" (fun i => n ← dist !! i; StartServer obfsKey relay (set_server_NumChannels n opts) (env i))
          stop_server 0 (Z.to_nat npc) [] [] [] with
  | None => None
  | Some (Err m, evs) => Some (Err m, evs)
  | Some (Ok (ss, offers), evs) => Some (Ok (mkSG ss, offers), evs)
  end.

(** [AcceptAnswers]; [accept] is what [SetRemoteDescription] of one server
    answers.  The result names the servers that got their answer. *)
Definition AcceptAnswers (answers : list string) (accept : nat -> string -> res string unit) (g : ServerGroup)
    : res string unit * list nat :=
  if negb (Nat.eqb (length answers) (length (servers g))) then
    (Err ("expected " +:+ itoa (Z.of_nat (length (servers g))) +:+ " answers, got " +:+ itoa (Z.of_nat (length answers))), [])
  else
    (fix go i ans acc := match ans with
      | [] => (Ok tt, acc)
      | a :: ans => match accept i a with
                    | Err m => (Err ("accept answer PC " +:+ itoa (Z.of_nat i) +:+ ": " +:+ m), acc)
                    | Ok _ => go (S i) ans (acc ++ [i])
                    end
      end) O answers [].

(** The collecting loop of [WaitConnected] and [WaitConnectedCtx]: results in
    the order in which the peers deliver them.  The outer [None] is a receive
    that blocks. *)
Fixpoint wait_loop (failed_ : nat) (total : nat) (lastErr : option string) (results : list (nat * option string))
    : option (option string) :=
  if decide (failed_ < total)%nat then
    match results with
    | [] => None
    | (_, None) :: _ => Some None
    | (i, Some e) :: results =>
        wait_loop (S failed_) total (Some ("PC " +:+ itoa (Z.of_nat i) +:+ ": " +:+ e)) results
    end
  else Some lastErr.

Definition WaitConnected (total : nat) (results : list (nat * option string)) : option (option string) :=
  wait_loop 0 total None results.

Definition StopServers (g : ServerGroup) : list (nat * event) := stop_all stop_server 0 (servers g).
Definition IsAliveServers (g : ServerGroup) : bool := existsb (fun s => iceAlive (s_conn s)) (servers g).
Definition GetClientCount (g : ServerGroup) : Z := foldl (fun t s => t + activeStreams s) 0 (servers g).
Definition ServerChannelCount (g : ServerGroup) : Z := foldl (fun t s => t + GetChannelCount (s_conn s)) 0 (servers g).
Definition GetStats (g : ServerGroup) : Z * Z :=
  foldl (fun t s => (t.1 + bytesUp s, t.2 + bytesDown s)) (0, 0) (servers g).
Definition GetUsageDown (g : ServerGroup) : Z * Z * Z :=
  foldl (fun t s => (t.1.1 + webBytesDown s, t.1.2 + videoBytesDown s, t.2 + otherBytesDown s)) (0, 0, 0) (servers g).
Definition GroupStreamDistribution (g : ServerGroup) : list Z :=
  foldl (fun d s => d ++ GetStreamDistribution NumStreams (s_conn s)) [] (servers g).
Definition ServerGroupCount (g : ServerGroup) : Z := Z.of_nat (length (servers g)).

(** [gdone] is the channel [done]; [reconnected] is [reconnectOnce]. *)
Record ClientGroup := mkCG { clients : list Client; gdone : bool; reconnected : bool }.

Definition set_reconnect (c : Client) : Client :=
  mkClient (c_conn c) (c_opts c) (nextSession c) (socketFD c) true.

Definition StartClientGroup (npc : Z) (offers : list string) (obfsKey : bytes) (relay : string) (opts : ClientOptions)
    (env : nat -> string -> Env) : option (res string (ClientGroup * list string) * list (nat * event)) :=
  let npc1 := if npc <=? 0 then 1 else npc in
  let offers := if maxPeerConnections <? npc1
                then (if maxPeerConnections <? Z.of_nat (length offers) then take (Z.to_nat maxPeerConnections) offers else offers)
                else offers in
  let npc := cap_npc npc in
  if negb (Z.of_nat (length offers) =? npc) then
    Some (Err ("expected " +:+ itoa npc +:+ " SDP offers, got " +:+ itoa (Z.of_nat (length offers))), [])
  else
  let dist := distributeChannels (total_channels (NumChannels opts)) npc in
  match start_loop "client" (fun i => n ← dist !! i; offer ← offers !! i;
                             StartClient obfsKey relay (set_NumChannels n opts) (env i offer))
          stop_client 0 (Z.to_nat npc) [] [] [] with
  | None => None
  | Some (Err m, evs) => Some (Err m, evs)
  | Some (Ok (cs, answers), evs) => Some (Ok (mkCG (set_reconnect <$> cs) false false, answers), evs)
  end.

(** A client's reconnect callback: whether the group's own callback runs. *)
Definition request_reconnect (g : ClientGroup) : bool * ClientGroup :=
  if reconnected g then (false, g) else (true, mkCG (clients g) (gdone g) true).

(** [DialStream] of the group: the client that is asked to dial. *)
Definition pick_client (g : ClientGroup) : res string Client :=
  match clients g with
  | [] => Err "no client PeerConnections available"
  | [c] => Ok c
  | c0 :: _ =>
      match scan (fun _ => false) (fun c => GetStreamCount NumStreams (c_conn c)) None maxInt (clients g) with
      | Some c => Ok c
      | None => Ok c0
      end
  end.

(** The session on which the group opens its stream. *)
Definition dial_session (g : ClientGroup) : option (res string Sess) :=
  match pick_client g with
  | Err m => Some (Err m)
  | Ok c => '(r, _) ← openStream NumStreams IsClosed (c_conn c) (nextSession c); Some r
  end.

Definition StopClients (g : ClientGroup) : list (nat * event) * ClientGroup :=
  (stop_all stop_client 0 (clients g), mkCG (clients g) true (reconnected g)).
Definition IsAliveClients (g : ClientGroup) : bool := existsb (fun c => iceAlive (c_conn c)) (clients g).

(** [ProtectSockets]: the descriptors that were protected and the result. *)
Fixpoint protect_loop (protectFn : Z -> bool) (i : nat) (cs : list Client) : res string unit * list Z :=
  match cs with
  | [] => (Ok tt, [])
  | c :: cs =>
      if socketFD c <=? 0 then protect_loop protectFn (S i) cs
      else if protectFn (socketFD c) then
        let '(r, l) := protect_loop protectFn (S i) cs in (r, socketFD c :: l)
      else (Err ("protect socket fd " +:+ itoa (socketFD c) +:+ " (client " +:+ itoa (Z.of_nat i) +:+ ") failed"), [])
  end.

Definition ProtectSockets (protectFn : Z -> bool) (g : ClientGroup) : res string unit * list Z :=
  protect_loop protectFn 0 (clients g).

Definition ClientGroupCount (g : ClientGroup) : Z := Z.of_nat (length (clients g)).
Definition ClientChannelCount (g : ClientGroup) : Z := foldl (fun t c => t + GetChannelCount (c_conn c)) 0 (clients g).
Definition ClientStreamCount (g : ClientGroup) : Z := foldl (fun t c => t + GetStreamCount NumStreams (c_conn c)) 0 (clients g).

(** ** Starting and undoing *)

(** The open resources of peer [j]. *)
Definition live_of (j : nat) (evs : list (nat * event)) : Z * Z :=
  live (snd <$> filter (fun x => x.1 = j) evs).

Lemma live_of_app j a b :
  live_of j (a ++ b) = ((live_of j a).1 + (live_of j b).1, (live_of j a).2 + (live_of j b).2).
Proof. unfold live_of. rewrite filter_app, fmap_app. apply live_app. Qed.

Lemma live_of_tag j i (es : list event) : live_of j ((fun e => (i, e)) <$> es) = if decide (i = j) then live es else (0, 0).
Proof.
  unfold live_of. case_decide as E.
  - subst. f_equal. induction es as [|e es IH]; [done|]. cbn [fmap list_fmap]. rewrite filter_cons_True by done.
    cbn [fmap list_fmap snd]. by rewrite IH.
  - assert (H : filter (fun x => x.1 = j) ((fun e => (i, e)) <$> es) = []); [|by rewrite H].
    induction es as [|e es IH]; [done|]. cbn [fmap list_fmap]. by rewrite filter_cons_False.
Qed.

Section StartFacts.
Context {P : Type} (role : string) (start : nat -> option (res string (P * string) * list event)) (stop : P -> list event).
Hypothesis start_live : forall i r es, start i = Some (r, es) -> balanced r es.
Hypothesis stop_live : forall i p sdp es, start i = Some (Ok (p, sdp), es) -> live (stop p) = (-1, -1).

Lemma stop_all_live j k ps : (forall p, p ∈ ps -> live (stop p) = (-1, -1)) ->
  live_of j (stop_all stop k ps) = if decide (k <= j < k + length ps)%nat then (-1, -1) else (0, 0).
Proof.
  revert k. induction ps as [|p ps IH]; intros k Hps; cbn [stop_all].
  - rewrite decide_False by (simpl; lia). done.
  - rewrite live_of_app, live_of_tag, IH by (intros; apply Hps; by right). simpl length.
    pose proof (Hps p ltac:(by constructor)) as Hp.
    repeat case_decide; rewrite ?Hp; simpl; try done; lia.
Qed.

Lemma start_loop_live n : forall i ps sdps evs out,
  length ps = i -> length sdps = i -> (forall p, p ∈ ps -> live (stop p) = (-1, -1)) ->
  (forall j, live_of j evs = if decide (j < i)%nat then (1, 1) else (0, 0)) ->
  start_loop role start stop i n ps sdps evs = Some out ->
  match out with
  | (Err _, evs') => forall j, live_of j evs' = (0, 0)
  | (Ok (ps', sdps'), evs') => length ps' = (i + n)%nat /\ length sdps' = (i + n)%nat /\
      forall j, live_of j evs' = if decide (j < i + n)%nat then (1, 1) else (0, 0)
  end.
Proof.
  induction n as [|n IH]; intros i ps sdps evs out Hps Hsd Hst Hev; cbn [start_loop].
  - intros [= <-]. rewrite Nat.add_0_r. done.
  - destruct (start i) as [[[[p sdp]|m] es]|] eqn:E; [| |done].
    + intros Ho. apply IH in Ho.
      * by rewrite Nat.add_succ_r.
      * rewrite length_app. simpl. lia.
      * rewrite length_app. simpl. lia.
      * intros q [Hq|Hq]%elem_of_app; [auto|]. apply list_elem_of_singleton in Hq as ->. eauto.
      * intros j. rewrite live_of_app, live_of_tag, Hev. apply start_live in E. unfold balanced in E. rewrite E.
        repeat case_decide; simpl; try done; lia.
    + intros [= <-] j. rewrite !live_of_app, live_of_tag, Hev, stop_all_live by done.
      apply start_live in E. unfold balanced in E. rewrite E.
      repeat case_decide; simpl; try done; lia.
Qed.

(** On success, peer [k] and its description are what start number [k] gave. *)
Lemma start_loop_members n : forall i ps sdps evs ps' sdps' evs',
  start_loop role start stop i n ps sdps evs = Some (Ok (ps', sdps'), evs') ->
  exists qs ss, ps' = ps ++ qs /\ sdps' = sdps ++ ss /\ length qs = n /\ length ss = n /\
    forall k, (k < n)%nat -> exists p sdp es, start (i + k) = Some (Ok (p, sdp), es) /\ qs !! k = Some p /\ ss !! k = Some sdp.
Proof.
  induction n as [|n IH]; intros i ps sdps evs ps' sdps' evs'; cbn [start_loop].
  - intros [= <- <- <-]. exists [], []. rewrite !app_nil_r. repeat split; lia.
  - destruct (start i) as [[[[p sdp]|m] es]|] eqn:E; [|done..].
    intros (qs & ss & -> & -> & Hq & Hs & Hk)%IH. exists (p :: qs), (sdp :: ss).
    rewrite <- !app_assoc. repeat split; simpl; try lia.
    intros [|k] Hlt; [exists p, sdp, es; by rewrite Nat.add_0_r|].
    destruct (Hk k) as (p' & s' & es' & ? & ? & ?); [lia|]. exists p', s', es'. by rewrite Nat.add_succ_r.
Qed.
End StartFacts.

Lemma start_server_bind key relay opts env (dist : list Z) (i : nat) r es :
  (n ← dist !! i; StartServer key relay (set_server_NumChannels n opts) (env i)) = Some (r, es) ->
  exists n, dist !! i = Some n /\ @StartServer Sess key relay (set_server_NumChannels n opts) (env i) = Some (r, es).
Proof. destruct (dist !! i) as [n|]; [|done]. simpl. eauto. Qed.

Lemma start_client_bind key relay opts env (dist : list Z) (offers : list string) (i : nat) r es :
  (n ← dist !! i; offer ← offers !! i; StartClient key relay (set_NumChannels n opts) (env i offer)) = Some (r, es) ->
  exists n offer, dist !! i = Some n /\ offers !! i = Some offer /\
    @StartClient Sess key relay (set_NumChannels n opts) (env i offer) = Some (r, es).
Proof. destruct (dist !! i) as [n|]; [|done]. simpl. destruct (offers !! i); [|done]. simpl. eauto 10. Qed.

Lemma cap_npc_range npc : 1 <= cap_npc npc <= 8.
Proof. unfold cap_npc, maxPeerConnections. destruct (Z.leb_spec npc 0); [done|]. destruct (Z.ltb_spec 8 npc); lia. Qed.

Lemma started_server_stop key relay opts e s sdp es :
  @StartServer Sess key relay opts e = Some (Ok (s, sdp), es) -> live (stop_server s) = (-1, -1).
Proof. intros [H _]%StartServer_new. unfold stop_server. apply live_stop. by rewrite H. Qed.

Lemma started_client_stop key relay opts e c sdp es :
  @StartClient Sess key relay opts e = Some (Ok (c, sdp), es) -> live (stop_client c) = (-1, -1).
Proof. intros [H _]%StartClient_new. unfold stop_client. apply live_stop. by rewrite H. Qed.

(** The final state of the resources of a group start. *)
Definition clean_start {A} (k : nat) (len : A -> nat) (out : res string (A * list string) * list (nat * event)) : Prop :=
  match out with
  | (Err _, evs) => forall j, live_of j evs = (0, 0)
  | (Ok (g, sdps), evs) => len g = k /\ length sdps = k /\
      forall j, live_of j evs = if decide (j < k)%nat then (1, 1) else (0, 0)
  end.

Lemma server_group_clean npc key relay opts env out :
  StartServerGroup npc key relay opts env = Some out ->
  clean_start (Z.to_nat (cap_npc npc)) (fun g => length (servers g)) out.
Proof.
  unfold StartServerGroup. cbv zeta. destruct (start_loop _ _ _ _ _ _ _ _) as [[r evs]|] eqn:E; [|done].
  apply start_loop_live in E; try done.
  - destruct r as [[ss offers]|m]; intros [= <-]; exact E.
  - intros i r' es (n & _ & H)%start_server_bind. by apply StartServer_live in H.
  - intros i p sdp es (n & _ & H)%start_server_bind. by eapply started_server_stop.
  - by intros p ?%not_elem_of_nil.
Qed.

Lemma client_group_clean npc offers key relay opts env out :
  StartClientGroup npc offers key relay opts env = Some out ->
  clean_start (Z.to_nat (cap_npc npc)) (fun g => length (clients g)) out.
Proof.
  unfold StartClientGroup. cbv zeta. destruct (negb _); [by intros [= <-]|].
  destruct (start_loop _ _ _ _ _ _ _ _) as [[r evs]|] eqn:E; [|done].
  apply start_loop_live in E; try done.
  - destruct r as [[cs answers]|m]; intros [= <-]; [|exact E]. unfold clean_start. cbn [clients].
    rewrite length_fmap. exact E.
  - intros i r' es (n & o & _ & _ & H)%start_client_bind. by apply StartClient_live in H.
  - intros i p sdp es (n & o & _ & _ & H)%start_client_bind. by eapply started_client_stop.
  - by intros p ?%not_elem_of_nil.
Qed.

(** ** The split of the channels *)

Definition sumZ (l : list Z) : Z := foldr Z.add 0 l.

Lemma sumZ_app a b : sumZ (a ++ b) = sumZ a + sumZ b.
Proof. induction a as [|x a IH]; simpl; [done|]. unfold sumZ in *. simpl in *. lia. Qed.

Lemma sum_split (f : nat -> Z) (x y extra : Z) m : 0 <= extra ->
  (forall i, f i = if Z.of_nat i <? extra then x else y) ->
  sumZ (f <$> seq 0 m) = Z.min (Z.of_nat m) extra * x + (Z.of_nat m - Z.min (Z.of_nat m) extra) * y.
Proof.
  intros He Hf. induction m as [|m IH]; [rewrite Z.min_l by lia; done|].
  rewrite seq_S, fmap_app, sumZ_app, IH. cbn [fmap list_fmap]. rewrite Hf, Nat.add_0_l, Nat2Z.inj_succ. unfold sumZ. cbn [foldr].
  destruct (Z.ltb_spec (Z.of_nat m) extra); [rewrite !Z.min_l by lia|rewrite !Z.min_r by lia]; ring.
Qed.

Lemma distribute_sum total npc : 0 <= total -> 0 < npc -> sumZ (distributeChannels total npc) = total.
Proof.
  intros Ht Hn. unfold distributeChannels. destruct (Z.leb_spec npc 0); [lia|].
  pose proof (Z.rem_bound_pos total npc Ht Hn) as Hr. pose proof (Z.quot_rem' total npc) as Hq.
  rewrite (sum_split _ (Z.quot total npc + 1) (Z.quot total npc) (Z.rem total npc)) by (try done; lia).
  rewrite Z2Nat.id by lia. rewrite Z.min_r by lia. lia.
Qed.

Lemma distribute_lookup total npc i : 0 < npc -> (i < Z.to_nat npc)%nat ->
  distributeChannels total npc !! i =
    Some (if Z.of_nat i <? Z.rem total npc then Z.quot total npc + 1 else Z.quot total npc).
Proof.
  intros Hn Hi. unfold distributeChannels. destruct (Z.leb_spec npc 0); [lia|].
  rewrite list_lookup_fmap, lookup_seq_lt by done. done.
Qed.

Lemma distribute_length total npc : 0 < npc -> length (distributeChannels total npc) = Z.to_nat npc.
Proof. intros. unfold distributeChannels. destruct (Z.leb_spec npc 0); [lia|]. by rewrite length_fmap, length_seq. Qed.

(** The channels after each peer has applied its defaults: an empty share
    becomes the default of six. *)
Lemma effective_sum total npc : 0 < total -> 0 < npc ->
  sumZ ((fun n => or_default n 6) <$> distributeChannels total npc) =
  if npc <=? total then total else total + 6 * (npc - total).
Proof.
  intros Ht Hn. destruct (Z.leb_spec npc total) as [Hle|Hgt].
  - transitivity (sumZ (distributeChannels total npc)); [|apply distribute_sum; lia]. f_equal.
    unfold distributeChannels. destruct (Z.leb_spec npc 0); [lia|].
    pose proof (Z.quot_le_lower_bound total npc 1 Hn). rewrite <- list_fmap_compose. apply list_fmap_ext.
    intros _ i _. simpl. unfold or_default. destruct (Z.of_nat i <? _); destruct (Z.eqb_spec (Z.quot total npc + 1) 0);
      destruct (Z.eqb_spec (Z.quot total npc) 0); lia.
  - unfold distributeChannels. destruct (Z.leb_spec npc 0); [lia|].
    rewrite Z.quot_small, Z.rem_small by lia. rewrite <- list_fmap_compose.
    rewrite (sum_split _ 1 6 total); [|lia|].
    + rewrite Z2Nat.id, Z.min_r by lia. lia.
    + intros i. simpl. by destruct (Z.of_nat i <? total).
Qed.

Lemma server_group_channels npc key relay opts env g offers evs :
  StartServerGroup npc key relay opts env = Some (Ok (g, offers), evs) ->
  ((fun s => numChannels (s_conn s)) <$> servers g) =
  (fun n => or_default n 6) <$> distributeChannels (total_channels (NumChannels (shared opts))) (cap_npc npc).
Proof.
  unfold StartServerGroup. cbv zeta. pose proof (cap_npc_range npc) as Hc.
  destruct (start_loop _ _ _ _ _ _ _ _) as [[[[ss os]|] evs']|] eqn:E; [|done..]. intros [= <- <- <-]. cbn [servers].
  apply start_loop_members in E as (qs & so & -> & _ & Hq & _ & Hk). rewrite app_nil_l.
  apply list_eq. intros i. rewrite !list_lookup_fmap. destruct (decide (i < Z.to_nat (cap_npc npc))%nat) as [Hi|Hi].
  - destruct (Hk i Hi) as (s & sdp & es & (n & Hd & Hst)%start_server_bind & Hqi & _).
    simpl in Hd. rewrite Hd, Hqi. simpl. by apply StartServer_new in Hst as [-> _].
  - rewrite (lookup_ge_None_2 qs) by lia. rewrite (lookup_ge_None_2 (distributeChannels _ _)); [done|].
    rewrite distribute_length by lia. lia.
Qed.

(** ** Dialling *)

Lemma GetStreamCount_acc (l : list Sess) a :
  foldl (fun t s => t + NumStreams s) a l = a + sumZ (NumStreams <$> l).
Proof.
  revert a. induction l as [|s l IH]; intros a; cbn [foldl fmap list_fmap]; [unfold sumZ; simpl; lia|].
  rewrite IH. unfold sumZ. cbn [foldr]. lia.
Qed.

Lemma GetStreamCount_sum (c : Conn) : GetStreamCount NumStreams c = sumZ (NumStreams <$> sessions c).
Proof. unfold GetStreamCount. rewrite GetStreamCount_acc. lia. Qed.

Definition load (c : Client) : Z := GetStreamCount NumStreams (c_conn c).

Lemma pick_client_spec g :
  (forall c, c ∈ clients g -> load c < maxInt) -> (1 < length (clients g))%nat ->
  exists c, pick_client g = Ok c /\ c ∈ clients g /\ forall c', c' ∈ clients g -> load c <= load c'.
Proof.
  intros Hb Hl. unfold pick_client. destruct (clients g) as [|c0 [|c1 l]] eqn:E; simpl in Hl; [lia..|].
  pose proof (scan_spec (fun _ => false) load (c0 :: c1 :: l) None maxInt eq_refl (fun s H _ => Hb s H)) as Hs.
  change (fun c => GetStreamCount NumStreams (c_conn c)) with load.
  destruct (scan (fun _ => false) load None maxInt (c0 :: c1 :: l)) as [c|].
  - destruct Hs as ([?|[Hc _]] & _ & Hmin); [done|]. exists c. repeat split; [done|]. auto.
  - destruct Hs as [_ Hs]. specialize (Hs c0 ltac:(by constructor)). done.
Qed.

End Groups.

Lemma wait_loop_spec results : forall f lastErr,
  wait_loop f (f + length results) lastErr results =
  Some (if existsb (fun r => bool_decide (r.2 = None)) results then None
        else match last results with
             | Some (i, Some e) => Some ("PC " +:+ itoa (Z.of_nat i) +:+ ": " +:+ e)
             | _ => lastErr
             end).
Proof.
  induction results as [|[i [e|]] rs IH]; intros f lastErr.
  - simpl. rewrite Nat.add_0_r, decide_False by lia. done.
  - cbn [wait_loop length]. rewrite decide_True by lia. rewrite Nat.add_succ_r, <- Nat.add_succ_l, IH.
    cbn [existsb snd]. rewrite bool_decide_eq_false_2 by done. cbn [orb]. destruct rs as [|r rs]; [done|].
    rewrite last_cons_cons. destruct (existsb _ _) eqn:Ex; [done|]. f_equal.
    destruct (last (r :: rs)) as [[j [e'|]]|] eqn:El; try done.
    + exfalso. apply not_true_iff_false in Ex. apply Ex, existsb_exists. exists (j, None).
      split; [|done]. apply list_elem_of_In. apply last_Some in El as [l ->]. apply elem_of_app. right. by constructor.
    + by apply last_None in El.
  - cbn [wait_loop length]. rewrite decide_True by lia. done.
Qed.

(** ** Properties *)

(** C12: a group start leaks nothing.  Whatever the operating system and the
    WebRTC stack answer, when a server or client group fails to start, every
    socket and every peer connection that was opened on the way is closed
    again; when it starts, the group has one description per peer, and exactly
    its peers hold one open socket and one open peer connection each. *)
Theorem group_start_no_leak {Sess : Type} (npc : Z) (offers : list string) (key : bytes) (relay : string)
    (so : ServerOptions) (co : ClientOptions) (senv : nat -> Env) (cenv : nat -> string -> Env) sout cout :
  @StartServerGroup Sess npc key relay so senv = Some sout ->
  @StartClientGroup Sess npc offers key relay co cenv = Some cout ->
  clean_start (Z.to_nat (cap_npc npc)) (fun g => length (servers g)) sout /\
  clean_start (Z.to_nat (cap_npc npc)) (fun g => length (clients g)) cout.
Proof. intros Hs Hc. split; [by eapply server_group_clean|by eapply client_group_clean]. Qed.

Definition demo_options (n : Z) : ClientOptions :=
  mkOptions true 0 TransportDataChannels [] 0 n 0 0 0 0 0 0 0 (mkPeerConfig 0 0 0 0 0 0 0 0 None None None).
Definition demo_server_options (n : Z) : ServerOptions := mkServerOptions (demo_options n) 0 0 false 0.
(** An environment in which everything works, except the socket of number
    [bad]. *)
Definition demo_env (bad i : nat) : Env :=
  mkEnv (if Nat.eqb i bad then Err "no descriptors" else Ok (7, 40000)) (Ok ("8.8.4.4"%string, 40001)) (Ok tt) (Ok tt)
    (Ok tt) (Ok tt) (fun i => "ch" +:+ itoa (Z.of_nat i)) (fun _ => Ok tt) (Ok tt) (Ok tt) Sdp.eoc.

Lemma group_start_no_leak_witness :
  clean_start (Sess := unit) 3 (fun g : @ServerGroup unit => length (servers g))
    (Err "start server PC 2: create UDP socket: no descriptors",
     [(0%nat, SockOpen); (0%nat, PcOpen); (1%nat, SockOpen); (1%nat, PcOpen);
      (0%nat, PcClose); (0%nat, SockClose); (1%nat, PcClose); (1%nat, SockClose)]) /\
  clean_start (Sess := unit) 3 (fun g : @ClientGroup unit => length (clients g)) (Err "expected 3 SDP offers, got 0", []).
Proof.
  apply (group_start_no_leak 3 [] [] "" (demo_server_options 6) (demo_options 6) (demo_env 2) (fun i _ => demo_env 9 i));
    vm_compute; reflexivity.
Defined.

(** the channels of a group.  A started group of [k] peers with [total]
    channels to share (six when the option is zero) has exactly [total]
    channels, split into shares that differ by at most one, as long as there
    are at least as many channels as peers.  With fewer channels than peers
    the empty shares are taken for "not set" by the defaults and become six
    channels each, so the group opens more channels than configured. *)
Theorem group_channels {Sess : Type} (npc : Z) (key : bytes) (relay : string) (opts : ServerOptions)
    (env : nat -> Env) (g : @ServerGroup Sess) (offers : list string) evs :
  StartServerGroup npc key relay opts env = Some (Ok (g, offers), evs) -> 0 <= NumChannels (shared opts) ->
  let k := cap_npc npc in
  let total := total_channels (NumChannels (shared opts)) in
  let chans := (fun s => numChannels (s_conn s)) <$> servers g in
  Z.of_nat (length chans) = k /\
  (k <= total -> sumZ chans = total /\
     forall i j x y, chans !! i = Some x -> chans !! j = Some y -> x <= y + 1) /\
  (total < k -> sumZ chans = total + 6 * (k - total)).
Proof.
  intros H Hn k total chans. pose proof (cap_npc_range npc) as Hc. pose proof (server_group_channels _ _ _ _ _ _ _ _ H) as E.
  assert (Ht : 0 < total) by (unfold total, total_channels; destruct (Z.eqb_spec (NumChannels (shared opts)) 0); lia).
  unfold chans. rewrite E. fold total k. fold k in Hc. pose proof (effective_sum total k Ht ltac:(lia)) as Hsum. split_and!.
  - rewrite length_fmap, distribute_length by lia. lia.
  - intros Hle. destruct (Z.leb_spec k total); [|lia]. split; [done|]. intros i j x y Hi Hj.
    rewrite list_lookup_fmap in Hi, Hj. pose proof (Z.quot_le_lower_bound total k 1 ltac:(lia) ltac:(lia)) as Hq.
    apply fmap_Some in Hi as (a & Ha & ->), Hj as (b & Hb & ->).
    apply lookup_lt_Some in Ha as Hla. apply lookup_lt_Some in Hb as Hlb. rewrite distribute_length in Hla, Hlb by lia.
    rewrite distribute_lookup in Ha, Hb by lia. unfold or_default.
    destruct (_ <? _), (_ <? _); simplify_eq; repeat (case_match; try lia).
  - intros Hlt. rewrite Hsum. destruct (Z.leb_spec k total); [lia|done].
Qed.

Lemma group_channels_witness :
  exists (g : @ServerGroup unit) offers evs, StartServerGroup 4 [] "" (demo_server_options 2) (demo_env 9) = Some (Ok (g, offers), evs) /\
    sumZ ((fun s => numChannels (s_conn s)) <$> servers g) = 2 + 6 * (4 - 2).
Proof.
  destruct (@StartServerGroup unit 4 [] "" (demo_server_options 2) (demo_env 9)) as [[[[g offers]|m] evs]|] eqn:E;
    [|vm_compute in E; discriminate..].
  exists g, offers, evs. split; [reflexivity|].
  exact (proj2 (proj2 (group_channels 4 [] "" (demo_server_options 2) (demo_env 9) g offers evs E ltac:(vm_compute; discriminate)))
    ltac:(vm_compute; reflexivity)).
Defined.

(** waiting for a group.  When every peer delivers one result, in any
    order, the group's [WaitConnected] returns: success as soon as one peer
    has connected, and otherwise, after all of them, the error of the one that
    failed last. *)
Theorem group_wait (results : list (nat * option string)) :
  WaitConnected (length results) results =
  Some (if existsb (fun r => bool_decide (r.2 = None)) results then None
        else match last results with
             | Some (i, Some e) => Some ("PC " +:+ itoa (Z.of_nat i) +:+ ": " +:+ e)
             | _ => None
             end).
Proof. apply (wait_loop_spec results 0 None). Qed.

(** load balancing.  A client group of at least two peers dials on a peer
    with the fewest streams, and that peer, if it has sessions, opens the
    stream on one of its open sessions with the fewest streams (on one of its
    sessions in any case: the round-robin index is never out of range). *)
Theorem group_dial_least {Sess : Type} (NumStreams : Sess -> Z) (IsClosed : Sess -> bool) (g : ClientGroup) :
  (1 < length (clients g))%nat ->
  (forall c, c ∈ clients g -> load NumStreams c < maxInt /\ Z.of_nat (length (sessions (c_conn c))) < 2 ^ 32 /\
     forall s, s ∈ sessions (c_conn c) -> NumStreams s < maxInt) ->
  exists c, pick_client NumStreams g = Ok c /\ c ∈ clients g /\
    (forall c', c' ∈ clients g -> load NumStreams c <= load NumStreams c') /\
    (sessions (c_conn c) <> [] ->
     exists s, dial_session NumStreams IsClosed g = Some (Ok s) /\ s ∈ sessions (c_conn c) /\
       forall t, t ∈ sessions (c_conn c) -> IsClosed t = false -> length (sessions (c_conn c)) <> 1%nat ->
         IsClosed s = false /\ NumStreams s <= NumStreams t).
Proof.
  intros Hl Hb. destruct (pick_client_spec NumStreams g) as (c & Hp & Hc & Hmin); [intros; by apply Hb|done|].
  exists c. repeat split; try done. intros Hne. destruct (Hb c Hc) as (_ & Hlen & Hs).
  destruct (openStream_spec NumStreams IsClosed (c_conn c) (nextSession c) Hs Hlen Hne) as (s & n & Ho & Hin & Hleast).
  exists s. unfold dial_session. rewrite Hp, Ho. done.
Qed.

(** Sessions that are just a stream count and a flag. *)
Definition demo_client (ss : list (Z * bool)) : @Client (Z * bool) :=
  mkClient (set_sessions ss (newConn 6)) (demo_options 6) 0 7 true.

Lemma group_dial_least_witness :
  exists c, pick_client fst (mkCG [demo_client [(3, false); (1, true)]; demo_client [(2, true); (1, false); (0, true)]] false false) = Ok c /\
    c ∈ [demo_client [(3, false); (1, true)]; demo_client [(2, true); (1, false); (0, true)]] /\
    (forall c', c' ∈ [demo_client [(3, false); (1, true)]; demo_client [(2, true); (1, false); (0, true)]] -> load fst c <= load fst c') /\
    (sessions (c_conn c) <> [] ->
     exists s, dial_session fst snd (mkCG [demo_client [(3, false); (1, true)]; demo_client [(2, true); (1, false); (0, true)]] false false) = Some (Ok s) /\
       s ∈ sessions (c_conn c) /\
       forall t, t ∈ sessions (c_conn c) -> t.2 = false -> length (sessions (c_conn c)) <> 1%nat -> s.2 = false /\ s.1 <= t.1).
Proof.
  apply (group_dial_least fst snd (mkCG [demo_client [(3, false); (1, true)]; demo_client [(2, true); (1, false); (0, true)]] false false)).
  - simpl. lia.
  - intros c Hc. repeat (apply elem_of_cons in Hc as [->|Hc]); try (by apply not_elem_of_nil in Hc);
      (split; [reflexivity|split; [reflexivity|]]); intros s Hs;
      repeat (apply elem_of_cons in Hs as [->|Hs]; [reflexivity|]); by apply not_elem_of_nil in Hs.
Defined.

(** a peer without sessions takes every dial.  [WaitConnected] lets the
    group be used when one peer is up, and a peer that is still connecting, or
    whose sessions were closed, has no streams.  While every peer with
    sessions carries at least one stream, such a peer is the least loaded one:
    every dial of the group is given to it and fails, although other peers are
    connected. *)
Theorem group_dial_unconnected {Sess : Type} (NumStreams : Sess -> Z) (IsClosed : Sess -> bool)
    (g : ClientGroup) (c0 : Client) :
  (1 < length (clients g))%nat -> c0 ∈ clients g -> sessions (c_conn c0) = [] ->
  (forall c, c ∈ clients g -> sessions (c_conn c) <> [] -> 0 < load NumStreams c < maxInt) ->
  dial_session NumStreams IsClosed g = Some (Err "no smux sessions available").
Proof.
  intros Hl Hc0 He Hb. assert (H0 : forall c, sessions (c_conn c) = [] -> load NumStreams c = 0).
  { intros c E. unfold load, GetStreamCount. by rewrite E. }
  destruct (pick_client_spec NumStreams g) as (c & Hp & Hc & Hmin); [|done|].
  { intros c Hc. destruct (sessions (c_conn c)) eqn:E; [rewrite H0 by done; done|]. apply Hb; [done|by rewrite E]. }
  unfold dial_session. rewrite Hp. unfold openStream. specialize (Hmin c0 Hc0). rewrite (H0 c0 He) in Hmin.
  destruct (sessions (c_conn c)) eqn:E; [done|]. specialize (Hb c Hc ltac:(by rewrite E)). lia.
Qed.

Lemma group_dial_unconnected_witness :
  dial_session fst snd (mkCG [demo_client [(1, false); (0, false)]; demo_client []] false false)
    = Some (Err "no smux sessions available").
Proof.
  apply (group_dial_unconnected fst snd _ (demo_client [])).
  - simpl. lia.
  - right. constructor.
  - reflexivity.
  - intros c Hc. repeat (apply elem_of_cons in Hc as [->|Hc]); try (by apply not_elem_of_nil in Hc);
      intros Hne; [split; reflexivity|by destruct Hne].
Defined.

End Group.
