(* ===== verification/DtlsWire.v ===== *)
(** * DTLS wire format: records

    The package [protocol] of the forked DTLS library
    (golib/replace/dtls/pkg/protocol) below the handshake messages: the
    24- and 48-bit integers of [internal/util], versions and content types,
    the record header, the inner plaintext of records with a connection
    identifier, the change-cipher-spec, alert and application-data contents,
    and the two functions that cut a datagram into records.

    A decoder is a function into [res derr]; an index or slice expression
    outside its operand, which stops a Go program, is the error [Panic].
    Slice bounds are checked against the length of the operand: the guards of
    the code compare with [len], never with [cap]. *)

From S2P Require Import Prelude.
Open Scope np_scope.

(** ** Errors *)

(** The error values of the packages [protocol], [recordlayer], [alert],
    [extension], [handshake], [ciphersuite] and [ccm], and those of the
    package [dtls] itself that the record path returns. *)
Inductive derr :=
  | errBufferTooSmall
  | errInvalidCipherSpec
  | ErrInvalidPacketLength
  | errSequenceNumberOverflow
  | errUnsupportedProtocolVersion
  | errInvalidContentType
  | errLengthMismatch
  | errInvalidExtensionType
  | errInvalidSNIFormat
  | errInvalidCIDFormat
  | errInvalidCompressionMethod
  | ErrALPNInvalidFormat
  | errALPNNoAppProto
  | errMasterKeyIdentifierTooLarge
  | errBuilder (* a length-prefixed block of [cryptobyte] is too long *)
  | errUnableToMarshalFragmented
  | errHandshakeMessageUnset
  | errNotImplemented
  | errCookieTooLong
  | errCipherSuiteUnset
  | errCompressionMethodUnset
  | errInvalidClientKeyExchange
  | errInvalidHashAlgorithm
  | errInvalidSignatureAlgorithm
  | errInvalidEllipticCurveType
  | errInvalidNamedCurve
  | errFragmentBufferOverflow
  | errNotEnoughRoomForNonce
  | errDecryptPacket
  | errInvalidMAC
  | errInvalidBlockSize
  | errInvalidTagSize
  | errInvalidNonceSize
  | errPlaintextTooLong
  | errOpen
  | errCiphertextTooShort
  | errCiphertextTooLong
  | errCipherSuiteNotInit
  | Panic        (* a run-time panic: index or slice bounds out of range *)
  | Diverges.    (* the loop did not end within the bound the model gives it *)

#[export] Instance derr_eq_dec : EqDecision derr.
Proof. solve_decision. Defined.

(** ** Access to byte slices *)

(** [data[i]], [data[lo:hi]], [data[lo:]] and [binary.BigEndian.Uint16(data[i:])]. *)
Definition idx (i : nat) (data : bytes) : res derr Z :=
  match data !! i with Some b => Ok (b2z b) | None => Err Panic end.

Definition sub (lo hi : nat) (data : bytes) : res derr bytes :=
  if decide (lo <= hi <= length data)%nat then Ok (slice lo hi data) else Err Panic.

Definition from (lo : nat) (data : bytes) : res derr bytes :=
  if decide (lo <= length data)%nat then Ok (drop lo data) else Err Panic.

Definition u16_at (i : nat) (data : bytes) : res derr Z :=
  if decide (i + 2 <= length data)%nat then Ok (be_get (slice i (i + 2) data)) else Err Panic.

(** A guard [if c { return err }]. *)
Definition ensure (c : bool) (e : derr) : res derr unit := if c then Ok tt else Err e.

(** ** Integers of 24 and 48 bits (internal/util) *)

Definition BigEndianUint24 (raw : bytes) : Z :=
  if decide (length raw < 3)%nat then 0%Z
  else be_get (splice 1 raw (replicate 4 (z2b 0))).

(** [copy(out, tmp[1:])]: the result is [out] after the copy. *)
Definition PutBigEndianUint24 (out : bytes) (v : Z) : bytes :=
  splice 0 (drop 1 (be_put 4 v)) out.

Definition PutBigEndianUint48 (out : bytes) (v : Z) : bytes :=
  splice 0 (drop 2 (be_put 8 v)) out.

(** ** Versions and content types *)

Record Version := mkVersion { Major : Z; Minor : Z }.

Definition Version1_0 := mkVersion 254 255.
Definition Version1_2 := mkVersion 254 253.

Definition Version_Equal (v x : Version) : bool :=
  (Major v =? Major x)%Z && (Minor v =? Minor x)%Z.

Definition ContentTypeChangeCipherSpec : Z := 20.
Definition ContentTypeAlert : Z := 21.
Definition ContentTypeHandshake : Z := 22.
Definition ContentTypeApplicationData : Z := 23.
Definition ContentTypeConnectionID : Z := 25.

(** ** The record header *)

Record Header := mkHeader {
  ContentType : Z;
  ContentLen : Z;
  HVersion : Version;
  Epoch : Z;
  SequenceNumber : Z;
  ConnectionID : bytes
}.

Definition zero_Header : Header := mkHeader 0 0 (mkVersion 0 0) 0 0 [].

Definition FixedHeaderSize : nat := 13.
Definition MaxSequenceNumber : Z := 2 ^ 48 - 1.

Definition Header_Size (h : Header) : nat := FixedHeaderSize + length (ConnectionID h).

(** The writes of [Marshal] fill the buffer from left to right. *)
Definition Header_Marshal (h : Header) : res derr bytes :=
  if (MaxSequenceNumber <? SequenceNumber h)%Z then Err errSequenceNumberOverflow
  else
    let hs := (FixedHeaderSize + length (ConnectionID h))%nat in
    let out := replicate hs (z2b 0) in
    let out := splice 0 [z2b (ContentType h)] out in
    let out := splice 1 [z2b (Major (HVersion h))] out in
    let out := splice 2 [z2b (Minor (HVersion h))] out in
    let out := splice 3 (be_put 2 (Epoch h)) out in
    let out := take 5 out ++ PutBigEndianUint48 (drop 5 out) (SequenceNumber h) in
    let out := splice 11 (ConnectionID h) out in
    let out := splice (hs - 2) (be_put 2 (ContentLen h)) out in
    Ok out.

(** [Unmarshal] overwrites the fields of its receiver [h]; a connection
    identifier is only read when the receiver announces one, and [ContentLen]
    is never set. *)
Definition Header_Unmarshal (h : Header) (data : bytes) : res derr Header :=
  let! _ := ensure (negb (length data <? FixedHeaderSize)%nat) errBufferTooSmall in
  let! ct := idx 0 data in
  let! cid :=
    (if (ct =? ContentTypeConnectionID)%Z then
       let! _ := ensure (negb (length data <? FixedHeaderSize + length (ConnectionID h))%nat)
                   errBufferTooSmall in
       sub 11 (11 + length (ConnectionID h)) data
     else Ok (ConnectionID h)) in
  let! major := idx 1 data in
  let! minor := idx 2 data in
  let! epoch := u16_at 3 data in
  let! seq := sub 5 11 data in
  let v := mkVersion major minor in
  let! _ := ensure (Version_Equal v Version1_0 || Version_Equal v Version1_2)
              errUnsupportedProtocolVersion in
  Ok (mkHeader ct (ContentLen h) v epoch (be_get (splice 2 seq (replicate 8 (z2b 0)))) cid).

(** ** Inner plaintext *)

Record InnerPlaintext := mkInner { IContent : bytes; RealType : Z; Zeros : nat }.

Definition InnerPlaintext_Marshal (p : InnerPlaintext) : bytes :=
  IContent p ++ [z2b (RealType p)] ++ replicate (Zeros p) (z2b 0).

(** The scan from the end: [n] is the number of positions left, [i = n - 1];
    the result is the position where the loop stops, [None] for [-1]. *)
Fixpoint last_nonzero (data : bytes) (n : nat) : option nat :=
  match n with
  | O => None
  | S i => match data !! i with
           | Some b => if (b2z b =? 0)%Z then last_nonzero data i else Some i
           | None => None
           end
  end.

Definition InnerPlaintext_Unmarshal (data : bytes) : res derr InnerPlaintext :=
  match last_nonzero data (length data) with
  | None => Err Panic          (* data[-1] *)
  | Some O => Err errBufferTooSmall
  | Some i =>
      let! t := idx i data in
      let! c := sub 0 i data in
      Ok (mkInner c t (length data - 1 - i))
  end.

(** ** Contents other than handshake messages *)

Definition ChangeCipherSpec_Marshal : bytes := [z2b 1].

Definition ChangeCipherSpec_Unmarshal (data : bytes) : res derr unit :=
  if (length data =? 1)%nat then
    let! b := idx 0 data in
    if (b =? 1)%Z then Ok tt else Err errInvalidCipherSpec
  else Err errInvalidCipherSpec.

Record ApplicationData := mkAppData { AData : bytes }.

Definition ApplicationData_Marshal (a : ApplicationData) : bytes := [] ++ AData a.
Definition ApplicationData_Unmarshal (data : bytes) : res derr ApplicationData :=
  Ok (mkAppData ([] ++ data)).

Record Alert := mkAlert { Level : Z; Description : Z }.

Definition Alert_Marshal (a : Alert) : bytes := [z2b (Level a); z2b (Description a)].

Definition Alert_Unmarshal (data : bytes) : res derr Alert :=
  if negb (length data =? 2)%nat then Err errBufferTooSmall
  else
    let! l := idx 0 data in
    let! d := idx 1 data in
    Ok (mkAlert l d).

(** ** Datagrams *)

(** One turn of the loop of [UnpackDatagram] at [offset]: the record that
    starts there. *)
Definition unpack_step (headerSize lenIdx : nat) (buf : bytes) (offset : nat) : res derr nat :=
  let! _ := ensure (negb (length buf - offset <=? headerSize)%nat) ErrInvalidPacketLength in
  let! l := u16_at (offset + lenIdx) buf in
  let pktLen := (headerSize + Z.to_nat l)%nat in
  let! _ := ensure (negb (length buf <? offset + pktLen)%nat) ErrInvalidPacketLength in
  Ok pktLen.

Fixpoint unpack_loop (fuel : nat) (buf : bytes) (offset : nat) (out : list bytes)
    : res derr (list bytes) :=
  if decide (length buf = offset) then Ok out
  else match fuel with
  | O => Err Diverges
  | S fuel' =>
      let! pktLen := unpack_step FixedHeaderSize 11 buf offset in
      let! r := sub offset (offset + pktLen) buf in
      unpack_loop fuel' buf (offset + pktLen) (out ++ [r])
  end.

Definition UnpackDatagram (buf : bytes) : res derr (list bytes) :=
  unpack_loop (length buf) buf 0 [].

Definition fixedHeaderLenIdx : nat := 11.

Fixpoint cid_unpack_loop (fuel : nat) (buf : bytes) (cidLength : nat) (offset : nat)
    (out : list bytes) : res derr (list bytes) :=
  if decide (length buf = offset) then Ok out
  else match fuel with
  | O => Err Diverges
  | S fuel' =>
      let! ct := idx offset buf in
      let isCID := (ct =? ContentTypeConnectionID)%Z in
      let headerSize := if isCID then (FixedHeaderSize + cidLength)%nat else FixedHeaderSize in
      let lenIdx := if isCID then (fixedHeaderLenIdx + cidLength)%nat else fixedHeaderLenIdx in
      let! pktLen := unpack_step headerSize lenIdx buf offset in
      let! r := sub offset (offset + pktLen) buf in
      cid_unpack_loop fuel' buf cidLength (offset + pktLen) (out ++ [r])
  end.

Definition ContentAwareUnpackDatagram (buf : bytes) (cidLength : nat) : res derr (list bytes) :=
  cid_unpack_loop (length buf) buf cidLength 0 [].

(** ** Reading what was written *)

Section access.
Implicit Types (pre mid rest data : bytes) (i n : nat).

(** [At i data rest]: the bytes of [data] from position [i] on are [rest].
    A decoder that walks over its input by offsets is followed with it. *)
Definition At i data rest : Prop := (i <= length data)%nat /\ drop i data = rest.

Lemma At_start data : At 0 data data.
Proof. split; [lia|done]. Qed.

Lemma At_len i data rest : At i data rest -> length data = (i + length rest)%nat.
Proof. intros [H <-]. len. Qed.

Lemma At_skip i j data mid rest :
  At i data (mid ++ rest) -> j = (i + length mid)%nat -> At j data rest.
Proof.
  intros H ->. pose proof (At_len _ _ _ H) as Hl. destruct H as [H E]. split; [len|].
  rewrite <- drop_drop, E. apply drop_app_length.
Qed.

Lemma At_next i j data b rest : At i data (b :: rest) -> j = S i -> At j data rest.
Proof. intros H ->. eapply (At_skip _ _ _ [b]); [exact H|simpl; lia]. Qed.

Lemma At_idx i data b rest : At i data (b :: rest) -> idx i data = Ok (b2z b).
Proof.
  intros [_ H]. unfold idx. rewrite <- (Nat.add_0_r i), <- lookup_drop, H. done.
Qed.

Lemma At_sub i j data mid rest :
  At i data (mid ++ rest) -> j = (i + length mid)%nat -> sub i j data = Ok mid.
Proof.
  intros H ->. pose proof (At_len _ _ _ H) as Hl. destruct H as [H E].
  unfold sub, slice. rewrite decide_True by (len; lia). rewrite E.
  f_equal. apply take_app_length'. lia.
Qed.

Lemma At_from i data rest : At i data rest -> from i data = Ok rest.
Proof. intros [H E]. unfold from. rewrite decide_True by lia. by rewrite E. Qed.

Lemma At_u16 i data v rest :
  At i data (be_put 2 v ++ rest) -> u16_at i data = Ok (v mod 65536)%Z.
Proof.
  intros H. pose proof (At_len _ _ _ H) as Hl. destruct H as [H E].
  unfold u16_at, slice. rewrite decide_True by (len; lia). rewrite E.
  rewrite take_app_length' by (len; lia). by rewrite be_get_put.
Qed.

Lemma idx_ok data i : (i < length data)%nat -> exists z, idx i data = Ok z /\ (0 <= z < 256)%Z.
Proof.
  intros H. apply lookup_lt_is_Some in H as [b Hb]. unfold idx. rewrite Hb.
  eauto using b2z_range.
Qed.

Lemma sub_ok data i n : (i <= n <= length data)%nat -> sub i n data = Ok (slice i n data).
Proof. intros. unfold sub. by rewrite decide_True by lia. Qed.

Lemma from_ok data i : (i <= length data)%nat -> from i data = Ok (drop i data).
Proof. intros. unfold from. by rewrite decide_True by lia. Qed.

Lemma u16_at_ok data i :
  (i + 2 <= length data)%nat ->
  exists z, u16_at i data = Ok z /\ (0 <= z < 65536)%Z.
Proof.
  intros. unfold u16_at. rewrite decide_True by lia. eexists. split; [done|].
  pose proof (be_get_range (slice i (i + 2) data)) as Hr.
  rewrite length_slice in Hr by lia. replace (i + 2 - i)%nat with 2%nat in Hr by lia. exact Hr.
Qed.
End access.

Lemma ensure_true e : ensure true e = Ok tt.
Proof. done. Qed.

(** *** Decoders that neither panic nor loop *)

Definition safe {A} (r : res derr A) : Prop := r <> Err Panic /\ r <> Err Diverges.

Section safe.
Context {A B : Type}.
Implicit Types (m : res derr A) (k : A -> res derr B).

Lemma safe_ok (a : A) : safe (Ok a : res derr A).
Proof. done. Qed.

Lemma safe_bind m k : safe m -> (forall a, m = Ok a -> safe (k a)) -> safe (res_bind m k).
Proof. intros [H1 H2] Hk. destruct m as [a|e]; simpl; [by apply Hk|]. split; congruence. Qed.

Lemma safe_ensure c e (r : res derr B) :
  e <> Panic -> e <> Diverges -> (c = true -> safe r) -> safe (let! _ := ensure c e in r).
Proof. intros ? ? H. destruct c; simpl; [by apply H|]. split; congruence. Qed.

Lemma safe_idx i data : (i < length data)%nat -> safe (idx i data).
Proof. intros H. destruct (idx_ok data i H) as (z & -> & _). done. Qed.

Lemma safe_sub i j data : (i <= j <= length data)%nat -> safe (sub i j data).
Proof. intros H. by rewrite sub_ok. Qed.

Lemma safe_from i data : (i <= length data)%nat -> safe (from i data).
Proof. intros H. by rewrite from_ok. Qed.

Lemma safe_u16 i data : (i + 2 <= length data)%nat -> safe (u16_at i data).
Proof. intros H. destruct (u16_at_ok data i H) as (z & -> & _). done. Qed.
End safe.

(** The tactic [safe_steps] goes through a decoder read by read; the guards
    passed so far are in the context as linear facts. *)
Ltac guards :=
  repeat match goal with
  | H : negb _ = true |- _ => apply negb_true_iff in H
  | H : (_ <? _)%nat = false |- _ => apply Nat.ltb_ge in H
  | H : (_ <=? _)%nat = false |- _ => apply Nat.leb_gt in H
  | H : (_ <? _)%nat = true |- _ => apply Nat.ltb_lt in H
  | H : (_ <=? _)%nat = true |- _ => apply Nat.leb_le in H
  | H : (_ =? _)%nat = true |- _ => apply Nat.eqb_eq in H
  | H : (_ =? _)%nat = false |- _ => apply Nat.eqb_neq in H
  | H : (_ =? _)%Z = true |- _ => apply Z.eqb_eq in H
  | H : (_ =? _)%Z = false |- _ => apply Z.eqb_neq in H
  | H : (_ <? _)%Z = true |- _ => apply Z.ltb_lt in H
  | H : (_ <? _)%Z = false |- _ => apply Z.ltb_ge in H
  end.

Ltac safe_step :=
  match goal with
  | |- safe (Ok _) => done
  | |- safe (Err _) => split; discriminate
  | |- safe (idx _ _) => apply safe_idx; guards; lia
  | |- safe (sub _ _ _) => apply safe_sub; guards; lia
  | |- safe (from _ _) => apply safe_from; guards; lia
  | |- safe (u16_at _ _) => apply safe_u16; guards; lia
  | |- safe (res_bind (ensure _ _) _) =>
      apply safe_ensure; [discriminate|discriminate|intros ?]
  | |- safe (res_bind _ _) => apply safe_bind; [|intros ? ?]
  | |- safe (if ?c then _ else _) => destruct c eqn:?
  | |- safe (match ?x with _ => _ end) => destruct x eqn:?
  end.
Ltac safe_steps := cbv zeta; repeat (safe_step; cbv zeta).

(** The low [n] bytes of an integer are the last [n] of its encoding. *)
Lemma drop_be_put k n z : drop k (be_put (k + n) z) = be_put n z.
Proof.
  revert z. induction n as [|n IH]; intros z.
  - rewrite Nat.add_0_r. apply drop_ge. len.
  - rewrite Nat.add_succ_r. cbn [be_put]. rewrite drop_app_le by len. by rewrite IH.
Qed.

Lemma be_get_zeros n l : be_get (replicate n (z2b 0) ++ l) = be_get l.
Proof.
  unfold be_get. rewrite foldl_app. f_equal. induction n as [|n IH]; [done|]. simpl. exact IH.
Qed.

Lemma splice_at {A} (pre src rest : list A) k :
  k = length pre -> (length src <= length rest)%nat ->
  splice k src (pre ++ rest) = (pre ++ src) ++ drop (length src) rest.
Proof. intros -> H. rewrite <- app_assoc. by apply splice_app. Qed.

Lemma splice_S {A} (a : A) src l k : splice (S k) src (a :: l) = a :: splice k src l.
Proof. done. Qed.

(** Storing a byte or a big-endian integer and reading it back. *)
Lemma z2b_small_roundtrip z : (0 <= z < 256)%Z -> b2z (z2b z) = z.
Proof. apply b2z_z2b_small. Qed.

(** *** 24-bit integers *)

Lemma PutBigEndianUint24_eq out v :
  (3 <= length out)%nat -> PutBigEndianUint24 out v = be_put 3 v ++ drop 3 out.
Proof.
  intros H. unfold PutBigEndianUint24. rewrite (drop_be_put 1 3).
  rewrite splice_app_0 by (len; lia). by rewrite length_be_put.
Qed.

Lemma BigEndianUint24_eq a b c rest :
  BigEndianUint24 (a :: b :: c :: rest) = be_get [a; b; c].
Proof.
  unfold BigEndianUint24. rewrite decide_False by (simpl; lia).
  unfold splice. simpl length. cbn [take replicate Nat.sub app].
  rewrite drop_ge by (simpl; lia). rewrite take_0. apply (be_get_zeros 1).
Qed.

Lemma BigEndianUint24_app l rest : length l = 3%nat -> BigEndianUint24 (l ++ rest) = be_get l.
Proof. intros H. destruct l as [|a [|b [|c [|]]]]; try discriminate. apply BigEndianUint24_eq. Qed.

(** *** The header *)

Definition header_bytes (h : Header) : bytes :=
  [z2b (ContentType h); z2b (Major (HVersion h)); z2b (Minor (HVersion h))]
  ++ be_put 2 (Epoch h) ++ be_put 6 (SequenceNumber h)
  ++ ConnectionID h ++ be_put 2 (ContentLen h).

Lemma length_header_bytes h : length (header_bytes h) = Header_Size h.
Proof. unfold header_bytes, Header_Size, FixedHeaderSize. len. Qed.

(** What [Marshal] writes, field by field. *)
Lemma Header_Marshal_eq h :
  (SequenceNumber h <= MaxSequenceNumber)%Z -> Header_Marshal h = Ok (header_bytes h).
Proof.
  intros Hs. unfold Header_Marshal.
  destruct (Z.ltb_spec MaxSequenceNumber (SequenceNumber h)); [lia|].
  set (n := length (ConnectionID h)).
  unfold FixedHeaderSize. cbv zeta. f_equal.
  rewrite splice_app_0 by (len; lia). cbn [app length].
  rewrite splice_S, splice_app_0 by (len; lia). cbn [app length].
  rewrite !splice_S, splice_app_0 by (len; lia). cbn [app length].
  rewrite !splice_S, splice_app_0 by (len; lia).
  rewrite length_be_put, !drop_drop, drop_replicate.
  change (z2b (ContentType h) :: z2b (Major (HVersion h)) :: z2b (Minor (HVersion h)) ::
    be_put 2 (Epoch h) ++ replicate (13 + n - (1 + (1 + (1 + 2)))) (z2b 0))
    with (([z2b (ContentType h); z2b (Major (HVersion h)); z2b (Minor (HVersion h))] ++
    be_put 2 (Epoch h)) ++ replicate (13 + n - 5) (z2b 0)).
  set (p := _ ++ be_put 2 _).
  assert (Hp : length p = 5%nat) by (unfold p; len).
  rewrite <- Hp, take_app_length, drop_app_length.
  unfold PutBigEndianUint48. rewrite (drop_be_put 2 6).
  rewrite splice_app_0 by (len; lia). rewrite length_be_put, drop_replicate.
  rewrite app_assoc. rewrite (splice_at (p ++ _)) by (len; lia).
  fold n. rewrite drop_replicate.
  rewrite splice_at by (len; lia). rewrite length_be_put, drop_replicate.
  replace (_ - _)%nat with 0%nat by lia. simpl replicate. rewrite app_nil_r.
  unfold header_bytes, p. by rewrite <- !app_assoc.
Qed.

(** A header whose fields fit the wire format. *)
Record header_wf (h : Header) : Prop := {
  hw_type : (0 <= ContentType h < 256)%Z;
  hw_len : (0 <= ContentLen h < 65536)%Z;
  hw_version : HVersion h = Version1_0 \/ HVersion h = Version1_2;
  hw_epoch : (0 <= Epoch h < 65536)%Z;
  hw_seq : (0 <= SequenceNumber h <= MaxSequenceNumber)%Z;
  hw_cid : ContentType h <> ContentTypeConnectionID -> ConnectionID h = []
}.

Definition with_len (h : Header) (n : Z) : Header :=
  mkHeader (ContentType h) n (HVersion h) (Epoch h) (SequenceNumber h) (ConnectionID h).

(** [Unmarshal] on the output of [Marshal] followed by the content: every
    field is back, except [ContentLen], which keeps the receiver's value. *)
Lemma Header_roundtrip h0 h rest :
  header_wf h ->
  length (ConnectionID h0) = length (ConnectionID h) ->
  Header_Unmarshal h0 (header_bytes h ++ rest) = Ok (with_len h (ContentLen h0)).
Proof.
  intros [Ht Hl Hv He Hs Hc] Hn. unfold MaxSequenceNumber in Hs.
  set (data := header_bytes h ++ rest).
  assert (Hd : length data = (13 + length (ConnectionID h) + length rest)%nat)
    by (unfold data; rewrite length_app, length_header_bytes; done).
  pose proof (At_start data) as H0.
  unfold data at 2, header_bytes in H0. rewrite <- !app_assoc in H0. cbn [app] in H0.
  pose proof (At_next _ 1 _ _ _ H0 eq_refl) as H1.
  pose proof (At_next _ 2 _ _ _ H1 eq_refl) as H2.
  pose proof (At_next _ 3 _ _ _ H2 eq_refl) as H3.
  pose proof (At_skip _ 5 _ _ _ H3 ltac:(len)) as H5.
  pose proof (At_skip _ 11 _ _ _ H5 ltac:(len)) as H11.
  unfold Header_Unmarshal, FixedHeaderSize. rewrite Hd, Hn.
  rewrite (proj2 (Nat.ltb_ge _ _)) by lia. cbn [negb ensure res_bind].
  rewrite (At_idx _ _ _ _ H0). cbn [res_bind]. rewrite b2z_z2b_small by lia.
  assert (Hcid : (if (ContentType h =? ContentTypeConnectionID)%Z
     then let! _ := ensure (negb (13 + length (ConnectionID h) + length rest
                                  <? 13 + length (ConnectionID h))%nat) errBufferTooSmall
          in sub 11 (11 + length (ConnectionID h)) data
     else Ok (ConnectionID h0)) = Ok (ConnectionID h)).
  { destruct (Z.eqb_spec (ContentType h) ContentTypeConnectionID) as [E|E].
    - rewrite (proj2 (Nat.ltb_ge _ _)) by lia. cbn [negb ensure res_bind].
      by apply (At_sub _ _ _ _ _ H11).
    - specialize (Hc E). rewrite Hc in *. by apply nil_length_inv in Hn as ->. }
  rewrite Hcid, (At_idx _ _ _ _ H1). cbn [res_bind].
  rewrite (At_idx _ _ _ _ H2), (At_u16 _ _ _ _ H3). cbn [res_bind].
  rewrite (At_sub _ 11 _ _ _ H5) by len. cbn [res_bind].
  rewrite !b2z_z2b_small by (destruct Hv as [-> | ->]; simpl; lia).
  assert (Hv2 : (Version_Equal (mkVersion (Major (HVersion h)) (Minor (HVersion h))) Version1_0
    || Version_Equal (mkVersion (Major (HVersion h)) (Minor (HVersion h))) Version1_2) = true)
    by (destruct Hv as [-> | ->]; done).
  rewrite Hv2. cbn [ensure res_bind]. rewrite Z.mod_small by lia.
  unfold with_len. do 2 f_equal; [by destruct (HVersion h)|].
  rewrite (splice_at (replicate 2 (z2b 0)) _ (replicate 6 (z2b 0)) 2) by len.
  rewrite length_be_put, drop_ge by len. rewrite app_nil_r, be_get_zeros.
  apply be_get_put_small. exact ltac:(lia).
Qed.

(** ** Inner plaintext *)

Lemma last_nonzero_zeros data n k :
  (forall i, (n <= i < n + k)%nat -> data !! i = Some (z2b 0)) ->
  last_nonzero data (n + k) = last_nonzero data n.
Proof.
  induction k as [|k IH]; intros H; [by rewrite Nat.add_0_r|].
  rewrite Nat.add_succ_r. cbn [last_nonzero]. rewrite H by lia.
  apply IH. intros. apply H. lia.
Qed.

(** The position [last_nonzero] finds. *)
Lemma last_nonzero_spec data n :
  (n <= length data)%nat ->
  match last_nonzero data n with
  | Some i => (i < n)%nat /\ (exists b, data !! i = Some b /\ b <> z2b 0)
              /\ (forall j, (i < j < n)%nat -> data !! j = Some (z2b 0))
  | None => forall j, (j < n)%nat -> data !! j = Some (z2b 0)
  end.
Proof.
  induction n as [|n IH]; intros Hn; cbn [last_nonzero]; [lia|].
  destruct (lookup_lt_is_Some_2 data n) as [b Hb]; [lia|]. rewrite Hb.
  destruct (Z.eqb_spec (b2z b) 0) as [E|E].
  - assert (b = z2b 0) as -> by (apply b2z_inj; exact E).
    specialize (IH ltac:(lia)). destruct (last_nonzero data n) as [i|].
    + destruct IH as (? & ? & Hz). split_and!; [lia|done|]. intros j Hj.
      destruct (decide (j = n)) as [->|]; [done|]. apply Hz. lia.
    + intros j Hj. destruct (decide (j = n)) as [->|]; [done|]. apply IH. lia.
  - split_and!; [lia| |lia]. exists b. split; [done|]. intros ->. done.
Qed.

(** A padded inner plaintext comes back from its encoding as it was,
    whatever the padding: content, real type and number of zeros, provided the
    type is not zero and the content not empty. *)
Lemma inner_plaintext_roundtrip p :
  IContent p <> [] -> (0 < RealType p < 256)%Z ->
  InnerPlaintext_Unmarshal (InnerPlaintext_Marshal p) = Ok p.
Proof.
  intros Hc Ht. destruct p as [c t k]. simpl in *.
  unfold InnerPlaintext_Unmarshal, InnerPlaintext_Marshal. cbn [IContent RealType Zeros].
  set (data := c ++ [z2b t] ++ replicate k (z2b 0)).
  assert (Hl : length data = (S (length c) + k)%nat) by (unfold data; len).
  rewrite Hl at 1. rewrite last_nonzero_zeros.
  2:{ intros i Hi. unfold data. rewrite app_assoc, lookup_app_r by len.
      apply lookup_replicate_2. len. }
  cbn [last_nonzero].
  assert (Hi : data !! length c = Some (z2b t)) by (unfold data; apply list_lookup_middle; done).
  rewrite Hi, b2z_z2b_small by lia. destruct (Z.eqb_spec t 0); [lia|].
  destruct (length c) as [|m] eqn:En; [by apply nil_length_inv in En|].
  unfold idx. rewrite Hi. cbn [res_bind]. rewrite b2z_z2b_small by lia.
  rewrite <- En. rewrite (At_sub 0 (length c) data c ([z2b t] ++ replicate k (z2b 0)))
    by (try apply At_start; done).
  cbn [res_bind]. do 2 f_equal. rewrite Hl. lia.
Qed.

(** The four outcomes of decoding an inner plaintext.  Decrypted bytes that
    are all zero, or empty, make the decoder index its input at -1 and stop
    the program with a panic; a type byte at position 0 (an empty content) is
    refused; anything else decodes, to what encodes back to the input. *)
Theorem inner_plaintext_outcomes data :
  (InnerPlaintext_Unmarshal data = Err Panic <-> data = replicate (length data) (z2b 0)) /\
  (InnerPlaintext_Unmarshal data = Err errBufferTooSmall <->
     exists b k, b <> z2b 0 /\ data = b :: replicate k (z2b 0)) /\
  (forall p, InnerPlaintext_Unmarshal data = Ok p ->
     InnerPlaintext_Marshal p = data /\ IContent p <> [] /\ RealType p <> 0%Z).
Proof.
  unfold InnerPlaintext_Unmarshal.
  pose proof (last_nonzero_spec data (length data) ltac:(lia)) as Hs.
  destruct (last_nonzero data (length data)) as [i|].
  2:{ assert (Hall : data = replicate (length data) (z2b 0)).
      { apply list_eq_same_length with (length data); [len..|].
        intros j x y Hj Hx Hy. rewrite Hs in Hx by done.
        apply lookup_replicate in Hy as [-> _]. congruence. }
      split; [done|split; [|done]]. split; [done|]. intros (b & k & Hb & ->). specialize (Hs 0%nat ltac:(simpl; lia)).
      simpl in Hs. congruence. }
  destruct Hs as (Hi & (b & Hb & Hnz) & Hz).
  assert (Htl : drop (S i) data = replicate (length data - 1 - i) (z2b 0)).
  { apply list_eq_same_length with (length data - 1 - i)%nat; [len..|].
    intros j x y Hj Hx Hy. rewrite lookup_drop, Hz in Hx by lia.
    apply lookup_replicate in Hy as [-> _]. congruence. }
  assert (Hsplit : data = take i data ++ b :: replicate (length data - 1 - i) (z2b 0)).
  { rewrite <- Htl. symmetry. by apply take_drop_middle. }
  assert (Hno : data <> replicate (length data) (z2b 0)).
  { intros E. rewrite E in Hb. apply lookup_replicate in Hb as [-> _]. done. }
  destruct i as [|i].
  - split; [split; [done|intros E; by destruct Hno]|split; [|done]].
    split; [intros _; exists b, (length data - 1 - 0)%nat; done|done].
  - unfold idx. rewrite Hb. rewrite sub_ok by lia. cbn [res_bind].
    split; [split; [done|intros E; by destruct Hno]|split].
    + split; [done|]. intros (b' & k & Hb' & E). exfalso. rewrite E in Hb. simpl in Hb.
      apply lookup_replicate in Hb as [-> _]. done.
    + intros p [= <-]. unfold InnerPlaintext_Marshal, slice. cbn [IContent RealType Zeros].
      rewrite drop_0, Nat.sub_0_r, z2b_b2z. split_and!; [by symmetry| |].
      * destruct data; [simpl in Hi; lia|]. done.
      * intros E. apply Hnz. apply b2z_inj. exact E.
Qed.

(** ** Datagrams *)

(** The header size of the record [r], and the length its header announces. *)
Definition hsize (cid : nat) (r : bytes) : nat :=
  match r with
  | b :: _ => if (b2z b =? ContentTypeConnectionID)%Z then (13 + cid)%nat else 13
  | [] => 13
  end.

Definition announced (cid : nat) (r : bytes) : nat :=
  Z.to_nat (be_get (slice (hsize cid r - 2) (hsize cid r) r)).

(** [r] is one record: its header, then as many bytes as the header says. *)
Definition is_record (cid : nat) (r : bytes) : Prop :=
  (hsize cid r <= length r)%nat /\ length r = (hsize cid r + announced cid r)%nat.

(** A sequence of records that may share a datagram: the last one is not
    empty. *)
Definition datagram (cid : nat) (rs : list bytes) : Prop :=
  Forall (is_record cid) rs /\
  (forall r, last rs = Some r -> (hsize cid r < length r)%nat).

Lemma hsize_bound cid r : (13 <= hsize cid r)%nat.
Proof. unfold hsize. destruct r as [|b r]; [lia|]. case_match; lia. Qed.

Lemma hsize_app cid r rest : r <> [] -> hsize cid (r ++ rest) = hsize cid r.
Proof. by destruct r. Qed.

Lemma At_u16_slice i data rest k :
  At i data rest -> (k + 2 <= length rest)%nat ->
  u16_at (i + k) data = Ok (be_get (slice k (k + 2) rest)).
Proof.
  intros H Hk. pose proof (At_len _ _ _ H) as Hl. destruct H as [H E].
  unfold u16_at, slice. rewrite decide_True by lia. rewrite <- drop_drop, E.
  by replace (i + k + 2 - (i + k))%nat with (k + 2 - k)%nat by lia.
Qed.

Lemma slice_app_l {A} lo hi (l k : list A) :
  (hi <= length l)%nat -> slice lo hi (l ++ k) = slice lo hi l.
Proof.
  intros H. unfold slice. destruct (decide (hi <= lo)%nat) as [Hle|Hle].
  - by replace (hi - lo)%nat with 0%nat by lia.
  - rewrite drop_app_le by lia. apply take_app_le. len.
Qed.

(** One turn of the loop where the remaining input is [rest]. *)
Lemma cid_unpack_turn fuel buf cid i rest out :
  At i buf rest -> rest <> [] ->
  cid_unpack_loop (S fuel) buf cid i out =
    if decide (hsize cid rest < length rest /\
               hsize cid rest + announced cid rest <= length rest)%nat
    then cid_unpack_loop fuel buf cid (i + (hsize cid rest + announced cid rest))
           (out ++ [take (hsize cid rest + announced cid rest) rest])
    else Err ErrInvalidPacketLength.
Proof.
  intros H Hne. pose proof (At_len _ _ _ H) as Hl.
  assert (Hpos : (0 < length rest)%nat) by (destruct rest; simpl; [done|lia]).
  cbn [cid_unpack_loop]. rewrite decide_False by lia.
  destruct rest as [|b rest']; [done|]. rewrite (At_idx _ _ _ _ H). cbn [res_bind].
  set (rest := b :: rest') in *.
  assert (Hh : (if (b2z b =? ContentTypeConnectionID)%Z then (FixedHeaderSize + cid)%nat
                else FixedHeaderSize) = hsize cid rest) by done.
  assert (Hx : (if (b2z b =? ContentTypeConnectionID)%Z then (fixedHeaderLenIdx + cid)%nat
                else fixedHeaderLenIdx) = (hsize cid rest - 2)%nat)
    by (unfold rest, hsize, fixedHeaderLenIdx; case_match; lia).
  rewrite Hh, Hx. clear Hh Hx. pose proof (hsize_bound cid rest) as Hb.
  unfold unpack_step. rewrite Hl. replace (i + length rest - i)%nat with (length rest) by lia.
  destruct (Nat.leb_spec (length rest) (hsize cid rest)).
  { rewrite decide_False by lia. done. }
  cbn [negb ensure res_bind]. rewrite (At_u16_slice _ _ _ _ H) by lia. cbn [res_bind].
  replace (hsize cid rest - 2 + 2)%nat with (hsize cid rest) by lia.
  fold (announced cid rest). set (n := (hsize cid rest + announced cid rest)%nat).
  destruct (Nat.ltb_spec (i + length rest) (i + n)).
  { rewrite decide_False by lia. done. }
  rewrite decide_True by lia. cbn [negb ensure res_bind].
  rewrite (At_sub i (i + n) buf (take n rest) (drop n rest)); [done| |len].
  by rewrite take_drop.
Qed.

Lemma cid_unpack_complete fuel buf cid i out rs :
  At i buf (concat rs) -> (length (concat rs) <= fuel)%nat -> datagram cid rs ->
  cid_unpack_loop fuel buf cid i out = Ok (out ++ rs).
Proof.
  revert fuel i out. induction rs as [|r rs IH]; intros fuel i out H Hf [Hrs Hlast].
  - pose proof (At_len _ _ _ H) as Hl. simpl in Hl.
    destruct fuel; simpl; rewrite decide_True by lia; by rewrite app_nil_r.
  - inversion_clear Hrs as [|? ? [Hr1 Hr2] Hrs']. pose proof (hsize_bound cid r) as Hb.
    assert (Hne : r <> []) by (intros ->; simpl in *; lia).
    destruct fuel as [|fuel]; [simpl in Hf; rewrite length_app in Hf; lia|].
    cbn [concat] in *. rewrite (cid_unpack_turn _ _ _ _ _ _ H) by (by destruct r).
    assert (Ha : announced cid (r ++ concat rs) = announced cid r).
    { unfold announced. rewrite hsize_app by done. by rewrite slice_app_l by lia. }
    rewrite Ha, hsize_app by done. rewrite decide_True.
    + rewrite <- Hr2, take_app_length, IH.
      * by rewrite <- app_assoc.
      * by apply (At_skip i _ _ r).
      * rewrite length_app in Hf. lia.
      * split; [done|]. intros y Hy. apply Hlast. destruct rs; [done|exact Hy].
    + rewrite length_app. split; [|lia]. destruct rs as [|r' rs].
      * specialize (Hlast r eq_refl). simpl. lia.
      * apply Forall_cons in Hrs' as [[Hr' _] _]. pose proof (hsize_bound cid r').
        simpl. rewrite length_app. lia.
Qed.

Lemma cid_unpack_sound fuel buf cid i rest out :
  At i buf rest -> (length rest <= fuel)%nat ->
  cid_unpack_loop fuel buf cid i out = Err ErrInvalidPacketLength \/
  (exists rs, cid_unpack_loop fuel buf cid i out = Ok (out ++ rs)
     /\ datagram cid rs /\ concat rs = rest).
Proof.
  revert i rest out. induction fuel as [|fuel IH]; intros i rest out H Hf;
    pose proof (At_len _ _ _ H) as Hl; (destruct (decide (rest = [])) as [->|Hne];
    [right; exists []; simpl in *; rewrite decide_True by lia; rewrite app_nil_r;
     split_and!; [done|split; [constructor|done]|done]|]).
  - destruct rest; simpl in Hf; [done|lia].
  - rewrite (cid_unpack_turn _ _ _ _ _ _ H Hne). case_decide as Hd; [|by left].
    set (n := (hsize cid rest + announced cid rest)%nat) in *.
    pose proof (hsize_bound cid rest) as Hb.
    destruct (IH (i + n)%nat (drop n rest) (out ++ [take n rest])) as [He|(rs & He & [Hd1 Hd2] & Hc)].
    { eapply (At_skip i _ _ (take n rest)); [by rewrite take_drop|len]. }
    { len. }
    { by left. }
    right. exists (take n rest :: rs). rewrite He, <- app_assoc.
    assert (Hh : hsize cid (take n rest) = hsize cid rest).
    { destruct rest as [|b rest']; [done|]. by destruct n eqn:En; [lia|]. }
    assert (Hr : is_record cid (take n rest)).
    { unfold is_record, announced. rewrite Hh. split; [len|].
      rewrite <- (slice_app_l _ _ (take n rest) (drop n rest)) by len.
      rewrite take_drop. fold (announced cid rest). len. }
    split_and!; [done| |simpl; rewrite Hc; apply take_drop].
    split; [by constructor|]. intros r Hlast. destruct rs as [|r' rs].
    + simpl in Hlast. injection Hlast as <-. rewrite Hh.
      assert (length (drop n rest) = 0%nat) by (rewrite <- Hc; done). len.
    + apply Hd2. exact Hlast.
Qed.

(** Cutting a datagram into records is exact.  The loop ends, never reads
    outside the datagram, and succeeds precisely on the datagrams that are a
    sequence of records, each a header followed by as many bytes as it
    announces (with the connection identifier counted for records that carry
    one), the last of them not empty; it then returns that sequence.  Every
    other datagram is refused with [ErrInvalidPacketLength]. *)
Theorem unpack_datagram_exact buf cid :
  (forall rs, ContentAwareUnpackDatagram buf cid = Ok rs <-> datagram cid rs /\ concat rs = buf) /\
  (is_ok (ContentAwareUnpackDatagram buf cid) = true \/
   ContentAwareUnpackDatagram buf cid = Err ErrInvalidPacketLength).
Proof.
  unfold ContentAwareUnpackDatagram.
  destruct (cid_unpack_sound (length buf) buf cid 0 buf [] (At_start buf) ltac:(lia))
    as [He|(rs & He & Hd & Hc)]; rewrite He; simpl.
  - split; [|by right]. intros rs. split; [done|]. intros [Hd Hc]. subst buf.
    rewrite (cid_unpack_complete _ _ _ _ _ rs) in He by (auto using At_start). done.
  - split; [|by left]. intros rs'. split; [intros [= <-]; done|]. intros [Hd' Hc']. subst buf.
    rewrite (cid_unpack_complete _ _ _ _ _ rs') in He by (auto; rewrite <- Hc'; auto using At_start).
    done.
Qed.

Lemma unpack_loops_equal fuel buf i out :
  (i <= length buf)%nat -> unpack_loop fuel buf i out = cid_unpack_loop fuel buf 0 i out.
Proof.
  revert i out. induction fuel as [|fuel IH]; intros i out Hi; cbn [unpack_loop cid_unpack_loop];
    case_decide as Hd; try done.
  destruct (idx_ok buf i) as (ct & -> & _); [lia|]. cbn [res_bind]. rewrite !Nat.add_0_r.
  replace (if (ct =? ContentTypeConnectionID)%Z then FixedHeaderSize else FixedHeaderSize)
    with FixedHeaderSize by (by destruct (_ =? _)%Z).
  replace (if (ct =? ContentTypeConnectionID)%Z then fixedHeaderLenIdx else fixedHeaderLenIdx)
    with 11%nat by (by destruct (_ =? _)%Z).
  destruct (unpack_step FixedHeaderSize 11 buf i) as [n|] eqn:En; cbn [res_bind]; [|done].
  assert (i + n <= length buf)%nat.
  { revert En. unfold unpack_step. destruct (_ <=? _)%nat; [done|]. cbn [negb ensure res_bind].
    destruct (u16_at _ _); [|done]. cbn [res_bind].
    destruct (Nat.ltb_spec (length buf) (i + (FixedHeaderSize + Z.to_nat a))); [done|].
    cbn. intros [= <-]. done. }
  rewrite sub_ok by lia. cbn [res_bind]. by apply IH.
Qed.

(** Without connection identifiers the two functions that unpack datagrams
    are the same function, on every input. *)
Theorem unpack_datagram_equiv buf :
  UnpackDatagram buf = ContentAwareUnpackDatagram buf 0.
Proof. apply unpack_loops_equal. lia. Qed.

Lemma marshalled_hsize h body cid :
  header_wf h -> (ContentType h = ContentTypeConnectionID -> length (ConnectionID h) = cid) ->
  hsize cid (header_bytes h ++ body) = Header_Size h.
Proof.
  intros [Ht _ _ _ _ Hc] Hcid. unfold header_bytes, Header_Size, FixedHeaderSize. cbn [app hsize].
  rewrite b2z_z2b_small by lia. destruct (Z.eqb_spec (ContentType h) ContentTypeConnectionID) as [E|E].
  - by rewrite Hcid.
  - rewrite Hc by done. simpl. lia.
Qed.

(** Records as the library writes them, header and content, are records. *)
Lemma marshalled_is_record h body cid :
  header_wf h -> ContentLen h = Z.of_nat (length body) ->
  (ContentType h = ContentTypeConnectionID -> length (ConnectionID h) = cid) ->
  is_record cid (header_bytes h ++ body).
Proof.
  intros Hw Hlen Hcid. pose proof (marshalled_hsize h body cid Hw Hcid) as Hh.
  destruct Hw as [Ht Hl _ _ _ Hc].
  unfold is_record, announced. rewrite Hh, length_app, length_header_bytes.
  split; [lia|]. f_equal. rewrite slice_app_l by (rewrite length_header_bytes; lia).
  unfold slice, header_bytes, Header_Size, FixedHeaderSize. rewrite !app_assoc.
  rewrite drop_app_length' by (len; lia). rewrite take_ge by (len; lia).
  rewrite be_get_put_small by (simpl; lia). lia.
Qed.
