(* ===== verification/DtlsExt.v ===== *)
(** * DTLS hello extensions

    The package [extension] (golib/replace/dtls/pkg/protocol/extension): the
    nine extensions with their encoders and decoders, the block that holds
    them all, and the selection of an application protocol.

    Four of the extensions are read and written with the [cryptobyte]
    package, which is not part of the repository: its readers and builders
    are the operations of the class [Cryptobyte], with their documented
    behaviour as laws, and [cryptobyte_ref] is an implementation of it. *)

From S2P Require Import Prelude DtlsWire.
Open Scope np_scope.

(** ** [cryptobyte] *)

(** A reader takes a value off the front of a byte string and returns what is
    left, or reports failure; a builder writes a block behind its length, and
    fails when the length does not fit the prefix. *)
Class Cryptobyte := {
  ReadUint8 : bytes -> option (Z * bytes);
  ReadUint16 : bytes -> option (Z * bytes);
  ReadUint8LengthPrefixed : bytes -> option (bytes * bytes);
  ReadUint16LengthPrefixed : bytes -> option (bytes * bytes);
  CopyBytes : nat -> bytes -> option (bytes * bytes);
  AddUint8LengthPrefixed : bytes -> res derr bytes;
  AddUint16LengthPrefixed : bytes -> res derr bytes;

  ReadUint8_spec s :
    ReadUint8 s = match s with b :: r => Some (b2z b, r) | [] => None end;
  ReadUint16_spec s :
    ReadUint16 s = match s with a :: b :: r => Some (be_get [a; b], r) | _ => None end;
  ReadUint8LengthPrefixed_spec s :
    ReadUint8LengthPrefixed s =
      match s with
      | b :: r => if decide (Z.to_nat (b2z b) <= length r)%nat
                  then Some (take (Z.to_nat (b2z b)) r, drop (Z.to_nat (b2z b)) r) else None
      | [] => None
      end;
  ReadUint16LengthPrefixed_spec s :
    ReadUint16LengthPrefixed s =
      match s with
      | a :: b :: r => let n := Z.to_nat (be_get [a; b]) in
                       if decide (n <= length r)%nat then Some (take n r, drop n r) else None
      | _ => None
      end;
  CopyBytes_spec n s :
    CopyBytes n s = if decide (n <= length s)%nat then Some (take n s, drop n s) else None;
  AddUint8LengthPrefixed_spec c :
    AddUint8LengthPrefixed c =
      if decide (Z.of_nat (length c) < 256)%Z then Ok (be_put 1 (Z.of_nat (length c)) ++ c)
      else Err errBuilder;
  AddUint16LengthPrefixed_spec c :
    AddUint16LengthPrefixed c =
      if decide (Z.of_nat (length c) < 65536)%Z then Ok (be_put 2 (Z.of_nat (length c)) ++ c)
      else Err errBuilder
}.

#[export, refine] Instance cryptobyte_ref : Cryptobyte := {|
  ReadUint8 s := match s with b :: r => Some (b2z b, r) | [] => None end;
  ReadUint16 s := match s with a :: b :: r => Some (be_get [a; b], r) | _ => None end;
  ReadUint8LengthPrefixed s :=
      match s with
      | b :: r => if decide (Z.to_nat (b2z b) <= length r)%nat
                  then Some (take (Z.to_nat (b2z b)) r, drop (Z.to_nat (b2z b)) r) else None
      | [] => None
      end;
  ReadUint16LengthPrefixed s :=
      match s with
      | a :: b :: r => let n := Z.to_nat (be_get [a; b]) in
                       if decide (n <= length r)%nat then Some (take n r, drop n r) else None
      | _ => None
      end;
  CopyBytes n s := if decide (n <= length s)%nat then Some (take n s, drop n s) else None;
  AddUint8LengthPrefixed c :=
      if decide (Z.of_nat (length c) < 256)%Z then Ok (be_put 1 (Z.of_nat (length c)) ++ c)
      else Err errBuilder;
  AddUint16LengthPrefixed c :=
      if decide (Z.of_nat (length c) < 65536)%Z then Ok (be_put 2 (Z.of_nat (length c)) ++ c)
      else Err errBuilder
|}.
Proof. all: done. Defined.

(** ** The extensions *)

Inductive Extension :=
  | ServerName (name : bytes)
  | SupportedEllipticCurves (curves : list Z)
  | SupportedPointFormats (formats : list Z)
  | SupportedSignatureAlgorithms (algs : list (Z * Z))   (* hash, signature *)
  | UseSRTP (profiles : list Z) (mki : bytes)
  | ALPN (protocols : list bytes)
  | UseExtendedMasterSecret (supported : bool)
  | ConnectionIDExt (cid : bytes)
  | RenegotiationInfo (conn : Z).

#[export] Instance Extension_eq_dec : EqDecision Extension.
Proof. solve_decision. Defined.

Definition ServerNameTypeValue : Z := 0.
Definition SupportedEllipticCurvesTypeValue : Z := 10.
Definition SupportedPointFormatsTypeValue : Z := 11.
Definition SupportedSignatureAlgorithmsTypeValue : Z := 13.
Definition UseSRTPTypeValue : Z := 14.
Definition ALPNTypeValue : Z := 16.
Definition UseExtendedMasterSecretTypeValue : Z := 23.
Definition ConnectionIDTypeValue : Z := 54.
Definition RenegotiationInfoTypeValue : Z := 65281.

(** The registries of the crypto packages: [elliptic.Curves],
    [hash.Algorithms], [signature.Algorithms], [srtpProtectionProfiles]. *)
Definition Curves : list Z := [29; 23; 24]%Z.
Definition hash_Algorithms : list Z := [0; 1; 2; 3; 4; 5; 6; 8]%Z.
Definition signature_Algorithms : list Z := [0; 1; 3; 7]%Z.
Definition srtpProtectionProfiles : list Z := [1; 2; 3; 4; 5; 6; 7; 8]%Z.
Definition CurvePointFormatUncompressed : Z := 0.

Definition mem (z : Z) (l : list Z) : bool := bool_decide (z ∈ l).

(** *** Server name *)

Definition ServerName_Marshal `{Cryptobyte} (name : bytes) : res derr bytes :=
  let! host := AddUint16LengthPrefixed name in
  let! names := AddUint16LengthPrefixed ([z2b 0] ++ host) in
  let! body := AddUint16LengthPrefixed names in
  Ok (be_put 2 ServerNameTypeValue ++ body).

(** [strings.HasSuffix(s, ".")]. *)
Definition ends_with_dot (s : bytes) : bool :=
  match last s with Some b => (b2z b =? 46)%Z | None => false end.

Definition is_nil {A} (l : list A) : bool := match l with [] => true | _ => false end.

(** The loop over the name list; [name] is the field of the receiver. *)
Fixpoint sni_loop `{Cryptobyte} (fuel : nat) (nameList name : bytes) : res derr bytes :=
  if is_nil nameList then Ok name
  else match fuel with
  | O => Err Diverges
  | S fuel' =>
      match ReadUint8 nameList with
      | None => Err errInvalidSNIFormat
      | Some (nameType, r) =>
          match ReadUint16LengthPrefixed r with
          | None => Err errInvalidSNIFormat
          | Some (serverName, r') =>
              if is_nil serverName then Err errInvalidSNIFormat
              else if negb (nameType =? 0)%Z then sni_loop fuel' r' name
              else if negb (is_nil name) then Err errInvalidSNIFormat
              else if ends_with_dot serverName then Err errInvalidSNIFormat
              else sni_loop fuel' r' serverName
          end
      end
  end.

(** The type and the body of an extension, as three of the decoders read
    them: a failed read leaves the variable at its zero value. *)
Definition read_ext `{Cryptobyte} (data : bytes) : Z * bytes :=
  let '(ty, v) := default (0%Z, data) (ReadUint16 data) in
  (ty, default [] (fst <$> ReadUint16LengthPrefixed v)).

Definition ServerName_Unmarshal `{Cryptobyte} (data : bytes) : res derr Extension :=
  let '(ty, extData) := read_ext data in
  let! _ := ensure (ty =? ServerNameTypeValue)%Z errInvalidExtensionType in
  match ReadUint16LengthPrefixed extData with
  | None => Err errInvalidSNIFormat
  | Some (nameList, _) =>
      if is_nil nameList then Err errInvalidSNIFormat
      else let! name := sni_loop (length nameList) nameList [] in Ok (ServerName name)
  end.

(** *** Lists of fixed-size values *)

(** [for i := 0; i < n; i++ { v := ...; if ok { s = append(s, v) } }]. *)
Fixpoint read_loop {A} (n i : nat) (f : nat -> res derr (option A)) : res derr (list A) :=
  match n with
  | O => Ok []
  | S n' =>
      let! v := f i in
      let! l := read_loop n' (S i) f in
      Ok (match v with Some x => x :: l | None => l end)
  end.

Definition supportedGroupsHeaderSize : nat := 6.

Definition SupportedEllipticCurves_Marshal (curves : list Z) : bytes :=
  be_put 2 SupportedEllipticCurvesTypeValue
  ++ be_put 2 (2 + Z.of_nat (length curves * 2))
  ++ be_put 2 (Z.of_nat (length curves * 2))
  ++ concat (map (be_put 2) curves).

Definition SupportedEllipticCurves_Unmarshal (data : bytes) : res derr Extension :=
  let! _ := ensure (negb (length data <=? supportedGroupsHeaderSize)%nat) errBufferTooSmall in
  let! ty := u16_at 0 data in
  let! _ := ensure (ty =? SupportedEllipticCurvesTypeValue)%Z errInvalidExtensionType in
  let! l := u16_at 4 data in
  let groupCount := Z.to_nat (l / 2) in
  let! _ := ensure (negb (length data <? supportedGroupsHeaderSize + groupCount * 2)%nat)
              errLengthMismatch in
  let! curves := read_loop groupCount 0 (fun i =>
      let! v := u16_at (supportedGroupsHeaderSize + i * 2) data in
      Ok (if mem v Curves then Some v else None)) in
  Ok (SupportedEllipticCurves curves).

Definition supportedPointFormatsSize : nat := 5.

Definition SupportedPointFormats_Marshal (formats : list Z) : bytes :=
  be_put 2 SupportedPointFormatsTypeValue
  ++ be_put 2 (1 + Z.of_nat (length formats))
  ++ [z2b (Z.of_nat (length formats))]
  ++ map z2b formats.

Definition SupportedPointFormats_Unmarshal (data : bytes) : res derr Extension :=
  let! _ := ensure (negb (length data <=? supportedPointFormatsSize)%nat) errBufferTooSmall in
  let! ty := u16_at 0 data in
  let! _ := ensure (ty =? SupportedPointFormatsTypeValue)%Z errInvalidExtensionType in
  let! c := idx 4 data in
  let pointFormatCount := Z.to_nat c in
  let! _ := ensure (negb (length data <? supportedPointFormatsSize + pointFormatCount)%nat)
              errLengthMismatch in
  let! formats := read_loop pointFormatCount 0 (fun i =>
      let! p := idx (supportedPointFormatsSize + i) data in
      Ok (if (p =? CurvePointFormatUncompressed)%Z then Some p else None)) in
  Ok (SupportedPointFormats formats).

Definition supportedSignatureAlgorithmsHeaderSize : nat := 6.

Definition SupportedSignatureAlgorithms_Marshal (algs : list (Z * Z)) : bytes :=
  be_put 2 SupportedSignatureAlgorithmsTypeValue
  ++ be_put 2 (2 + Z.of_nat (length algs * 2))
  ++ be_put 2 (Z.of_nat (length algs * 2))
  ++ concat (map (fun v => [z2b (fst v); z2b (snd v)]) algs).

Definition SupportedSignatureAlgorithms_Unmarshal (data : bytes) : res derr Extension :=
  let! _ := ensure (negb (length data <=? supportedSignatureAlgorithmsHeaderSize)%nat)
              errBufferTooSmall in
  let! ty := u16_at 0 data in
  let! _ := ensure (ty =? SupportedSignatureAlgorithmsTypeValue)%Z errInvalidExtensionType in
  let! l := u16_at 4 data in
  let algorithmCount := Z.to_nat (l / 2) in
  let! _ := ensure
      (negb (length data <? supportedSignatureAlgorithmsHeaderSize + algorithmCount * 2)%nat)
      errLengthMismatch in
  let! algs := read_loop algorithmCount 0 (fun i =>
      let! h := idx (supportedSignatureAlgorithmsHeaderSize + i * 2) data in
      let! s := idx (supportedSignatureAlgorithmsHeaderSize + i * 2 + 1) data in
      Ok (if mem h hash_Algorithms then
            (if mem s signature_Algorithms then Some (h, s) else None)
          else None)) in
  Ok (SupportedSignatureAlgorithms algs).

(** *** SRTP profiles *)

Definition useSRTPHeaderSize : nat := 6.

Definition UseSRTP_Marshal (profiles : list Z) (mki : bytes) : res derr bytes :=
  let out := be_put 2 UseSRTPTypeValue
    ++ be_put 2 (2 + Z.of_nat (length profiles * 2) + 1 + Z.of_nat (length mki))
    ++ be_put 2 (Z.of_nat (length profiles * 2))
    ++ concat (map (be_put 2) profiles) in
  if (255 <? length mki)%nat then Err errMasterKeyIdentifierTooLarge
  else Ok (out ++ [z2b (Z.of_nat (length mki))] ++ mki).

Definition UseSRTP_Unmarshal (data : bytes) : res derr Extension :=
  let! _ := ensure (negb (length data <=? useSRTPHeaderSize)%nat) errBufferTooSmall in
  let! ty := u16_at 0 data in
  let! _ := ensure (ty =? UseSRTPTypeValue)%Z errInvalidExtensionType in
  let! l := u16_at 4 data in
  let profileCount := Z.to_nat (l / 2) in
  let mkiIndex := (supportedGroupsHeaderSize + profileCount * 2)%nat in
  let! _ := ensure (negb (length data <? mkiIndex + 1)%nat) errLengthMismatch in
  let! profiles := read_loop profileCount 0 (fun i =>
      let! v := u16_at (useSRTPHeaderSize + i * 2) data in
      Ok (if mem v srtpProtectionProfiles then Some v else None)) in
  let! n := idx mkiIndex data in
  let mkiLen := Z.to_nat n in
  let! _ := ensure (negb (length data <=? mkiIndex + mkiLen)%nat) errLengthMismatch in
  let! mki := sub (mkiIndex + 1) (mkiIndex + 1 + mkiLen) data in
  Ok (UseSRTP profiles mki).

(** *** Application protocols *)

Fixpoint alpn_block `{Cryptobyte} (protocols : list bytes) : res derr bytes :=
  match protocols with
  | [] => Ok []
  | p :: ps =>
      let! b := AddUint8LengthPrefixed p in
      let! bs := alpn_block ps in
      Ok (b ++ bs)
  end.

Definition ALPN_Marshal `{Cryptobyte} (protocols : list bytes) : res derr bytes :=
  let! block := alpn_block protocols in
  let! lst := AddUint16LengthPrefixed block in
  let! body := AddUint16LengthPrefixed lst in
  Ok (be_put 2 ALPNTypeValue ++ body).

Fixpoint alpn_loop `{Cryptobyte} (fuel : nat) (protoList : bytes) (acc : list bytes)
    : res derr (list bytes) :=
  if is_nil protoList then Ok acc
  else match fuel with
  | O => Err Diverges
  | S fuel' =>
      match ReadUint8LengthPrefixed protoList with
      | None => Err ErrALPNInvalidFormat
      | Some (proto, r) =>
          if is_nil proto then Err ErrALPNInvalidFormat
          else alpn_loop fuel' r (acc ++ [proto])
      end
  end.

Definition ALPN_Unmarshal `{Cryptobyte} (data : bytes) : res derr Extension :=
  let '(ty, extData) := read_ext data in
  let! _ := ensure (ty =? ALPNTypeValue)%Z errInvalidExtensionType in
  match ReadUint16LengthPrefixed extData with
  | None => Err ErrALPNInvalidFormat
  | Some (protoList, _) =>
      if is_nil protoList then Err ErrALPNInvalidFormat
      else let! ps := alpn_loop (length protoList) protoList [] in Ok (ALPN ps)
  end.

(** The first of our protocols that the peer supports too; no protocol when
    either side names none. *)
Definition ALPNProtocolSelection (supported peer : list bytes) : res derr bytes :=
  if is_nil supported || is_nil peer then Ok []
  else match filter (fun s => s ∈ peer) supported with
       | s :: _ => Ok s
       | [] => Err errALPNNoAppProto
       end.

(** *** Extended master secret, connection identifier, renegotiation *)

Definition UseExtendedMasterSecret_Marshal (supported : bool) : bytes :=
  if negb supported then []
  else be_put 2 UseExtendedMasterSecretTypeValue ++ be_put 2 0.

Definition UseExtendedMasterSecret_Unmarshal (data : bytes) : res derr Extension :=
  let! _ := ensure (negb (length data <? 4)%nat) errBufferTooSmall in
  let! ty := u16_at 0 data in
  let! _ := ensure (ty =? UseExtendedMasterSecretTypeValue)%Z errInvalidExtensionType in
  Ok (UseExtendedMasterSecret true).

Definition ConnectionID_Marshal `{Cryptobyte} (cid : bytes) : res derr bytes :=
  let! block := AddUint8LengthPrefixed cid in
  let! body := AddUint16LengthPrefixed block in
  Ok (be_put 2 ConnectionIDTypeValue ++ body).

Definition ConnectionID_Unmarshal `{Cryptobyte} (data : bytes) : res derr Extension :=
  let '(ty, extData) := read_ext data in
  let! _ := ensure (ty =? ConnectionIDTypeValue)%Z errInvalidExtensionType in
  match ReadUint8LengthPrefixed extData with
  | None => Err errInvalidCIDFormat
  | Some (cid, _) =>
      match CopyBytes (length cid) cid with
      | None => Err errInvalidCIDFormat
      | Some (c, _) => Ok (ConnectionIDExt c)
      end
  end.

Definition RenegotiationInfo_Marshal (conn : Z) : bytes :=
  be_put 2 RenegotiationInfoTypeValue ++ be_put 2 1 ++ [z2b conn].

Definition RenegotiationInfo_Unmarshal (data : bytes) : res derr Extension :=
  let! _ := ensure (negb (length data <? 5)%nat) errBufferTooSmall in
  let! ty := u16_at 0 data in
  let! _ := ensure (ty =? RenegotiationInfoTypeValue)%Z errInvalidExtensionType in
  let! c := idx 4 data in
  Ok (RenegotiationInfo c).

(** ** The block of extensions *)

(** The method [Marshal] of the interface. *)
Definition ext_Marshal `{Cryptobyte} (e : Extension) : res derr bytes :=
  match e with
  | ServerName n => ServerName_Marshal n
  | SupportedEllipticCurves c => Ok (SupportedEllipticCurves_Marshal c)
  | SupportedPointFormats f => Ok (SupportedPointFormats_Marshal f)
  | SupportedSignatureAlgorithms a => Ok (SupportedSignatureAlgorithms_Marshal a)
  | UseSRTP p m => UseSRTP_Marshal p m
  | ALPN p => ALPN_Marshal p
  | UseExtendedMasterSecret s => Ok (UseExtendedMasterSecret_Marshal s)
  | ConnectionIDExt c => ConnectionID_Marshal c
  | RenegotiationInfo c => Ok (RenegotiationInfo_Marshal c)
  end.

Fixpoint exts_concat `{Cryptobyte} (es : list Extension) : res derr bytes :=
  match es with
  | [] => Ok []
  | e :: es' =>
      let! raw := ext_Marshal e in
      let! rest := exts_concat es' in
      Ok (raw ++ rest)
  end.

Definition exts_Marshal `{Cryptobyte} (es : list Extension) : res derr bytes :=
  let! extensions := exts_concat es in
  Ok (be_put 2 (Z.of_nat (length extensions)) ++ extensions).

(** The switch of [Unmarshal] over the type; an unknown type is skipped. *)
Definition ext_switch `{Cryptobyte} (ty : Z) (data : bytes) : res derr (option Extension) :=
  let some r := let! e := r in Ok (Some e) in
  if (ty =? ServerNameTypeValue)%Z then some (ServerName_Unmarshal data)
  else if (ty =? SupportedEllipticCurvesTypeValue)%Z then some (SupportedEllipticCurves_Unmarshal data)
  else if (ty =? SupportedPointFormatsTypeValue)%Z then some (SupportedPointFormats_Unmarshal data)
  else if (ty =? SupportedSignatureAlgorithmsTypeValue)%Z then
    some (SupportedSignatureAlgorithms_Unmarshal data)
  else if (ty =? UseSRTPTypeValue)%Z then some (UseSRTP_Unmarshal data)
  else if (ty =? ALPNTypeValue)%Z then some (ALPN_Unmarshal data)
  else if (ty =? UseExtendedMasterSecretTypeValue)%Z then some (UseExtendedMasterSecret_Unmarshal data)
  else if (ty =? RenegotiationInfoTypeValue)%Z then some (RenegotiationInfo_Unmarshal data)
  else if (ty =? ConnectionIDTypeValue)%Z then some (ConnectionID_Unmarshal data)
  else Ok None.

Fixpoint exts_loop `{Cryptobyte} (fuel : nat) (buf : bytes) (offset : nat) (acc : list Extension)
    : res derr (list Extension) :=
  if negb (offset <? length buf)%nat then Ok acc
  else match fuel with
  | O => Err Diverges
  | S fuel' =>
      let! _ := ensure (negb (length buf <? offset + 2)%nat) errBufferTooSmall in
      let! ty := u16_at offset buf in
      let! data := from offset buf in
      let! e := ext_switch ty data in
      let! _ := ensure (negb (length buf <? offset + 4)%nat) errBufferTooSmall in
      let! extensionLength := u16_at (offset + 2) buf in
      exts_loop fuel' buf (offset + (4 + Z.to_nat extensionLength))
        (match e with Some x => acc ++ [x] | None => acc end)
  end.

Definition exts_Unmarshal `{Cryptobyte} (buf : bytes) : res derr (list Extension) :=
  if is_nil buf then Ok []
  else if (length buf <? 2)%nat then Err errBufferTooSmall
  else
    let! declaredLen := u16_at 0 buf in
    let! _ := ensure (Z.of_nat (length buf - 2) =? declaredLen)%Z errLengthMismatch in
    exts_loop (length buf) buf 2 [].

(** ** Decoding never panics *)

Lemma safe_read_loop {A} n i (f : nat -> res derr (option A)) :
  (forall j, (i <= j < i + n)%nat -> safe (f j)) -> safe (read_loop n i f).
Proof.
  revert i. induction n as [|n IH]; intros i H; cbn [read_loop]; [done|].
  apply safe_bind; [apply H; lia|intros v _].
  apply safe_bind; [apply IH; intros; apply H; lia|intros; done].
Qed.

Section decoders.
Context `{Cryptobyte}.

Lemma safe_sni_loop fuel l name : (length l <= fuel)%nat -> safe (sni_loop fuel l name).
Proof.
  revert l name. induction fuel as [|fuel IH]; intros l name Hl; cbn [sni_loop].
  - destruct l; simpl in Hl; [done|lia].
  - destruct (is_nil l) eqn:E; [done|]. rewrite ReadUint8_spec. destruct l as [|b l]; [done|].
    rewrite ReadUint16LengthPrefixed_spec. destruct l as [|c [|d l]]; [safe_steps..|].
    cbv zeta. case_decide; [|safe_steps].
    safe_steps; apply IH; simpl in Hl; len.
Qed.

Lemma safe_alpn_loop fuel l acc : (length l <= fuel)%nat -> safe (alpn_loop fuel l acc).
Proof.
  revert l acc. induction fuel as [|fuel IH]; intros l acc Hl; cbn [alpn_loop].
  - destruct l; simpl in Hl; [done|lia].
  - destruct (is_nil l) eqn:E; [done|]. rewrite ReadUint8LengthPrefixed_spec.
    destruct l as [|b l]; [done|]. case_decide; safe_steps.
    apply IH. simpl in Hl. len.
Qed.

Lemma safe_ext_switch ty data : safe (ext_switch ty data).
Proof.
  unfold ext_switch, ServerName_Unmarshal, ALPN_Unmarshal, ConnectionID_Unmarshal,
    SupportedEllipticCurves_Unmarshal, SupportedPointFormats_Unmarshal,
    SupportedSignatureAlgorithms_Unmarshal, UseSRTP_Unmarshal,
    UseExtendedMasterSecret_Unmarshal, RenegotiationInfo_Unmarshal,
    supportedGroupsHeaderSize, supportedPointFormatsSize,
    supportedSignatureAlgorithmsHeaderSize, useSRTPHeaderSize.
  safe_steps;
    repeat first [apply safe_sni_loop; lia | apply safe_alpn_loop; lia
                 | apply safe_read_loop; intros ? ?; safe_steps].
Qed.

Lemma safe_exts_loop fuel buf i acc :
  (length buf <= i + fuel)%nat -> safe (exts_loop fuel buf i acc).
Proof.
  revert i acc. induction fuel as [|fuel IH]; intros i acc Hf; cbn [exts_loop];
    destruct (Nat.ltb_spec i (length buf)); cbn [negb]; try done; [lia|].
  safe_steps; try apply safe_ext_switch; apply IH; lia.
Qed.

(** Whatever bytes a peer sends as its extensions, the decoder returns: it
    never indexes outside the block and its loops end. *)
Lemma extensions_never_panic buf : safe (exts_Unmarshal buf).
Proof.
  unfold exts_Unmarshal. safe_steps. apply safe_exts_loop. lia.
Qed.
End decoders.

Lemma extensions_never_panic_witness :
  safe (@exts_Unmarshal cryptobyte_ref (map z2b [0; 4; 0; 10; 0; 9]%Z)).
Proof. apply extensions_never_panic. Defined.

(** ** Round trip *)

Lemma read_loop_ok {A} (l : list A) i (f : nat -> res derr (option A)) :
  (forall j x, l !! j = Some x -> f (i + j)%nat = Ok (Some x)) ->
  read_loop (length l) i f = Ok l.
Proof.
  revert i. induction l as [|x l IH]; intros i H; [done|]. cbn [length read_loop].
  rewrite <- (Nat.add_0_r i) at 1. rewrite (H 0%nat x) by done. cbn [res_bind].
  rewrite IH; [done|]. intros j y Hy. rewrite Nat.add_succ_comm. by apply H.
Qed.

(** The [j]-th of a sequence of values encoded in [w] bytes each. *)
Lemma At_nth {A} (enc : A -> bytes) w l i j k data rest x :
  At i data (concat (map enc l) ++ rest) ->
  (forall y, length (enc y) = w) -> l !! j = Some x -> k = (i + j * w)%nat ->
  exists rest', At k data (enc x ++ rest').
Proof.
  intros H Hw. revert i j k H. induction l as [|y l IH]; intros i j k H Hj ->; [done|].
  cbn [map concat] in H. rewrite <- app_assoc in H. destruct j as [|j].
  - injection Hj as ->. rewrite Nat.add_0_r. eauto.
  - apply At_skip with (j := (i + w)%nat) in H; [|by rewrite Hw].
    apply (IH _ _ _ H Hj). lia.
Qed.

Lemma length_concat_map {A} (enc : A -> bytes) w l :
  (forall y, length (enc y) = w) -> length (concat (map enc l)) = (length l * w)%nat.
Proof. intros Hw. induction l as [|y l IH]; [done|]. simpl. rewrite length_app, Hw, IH. lia. Qed.

(** The guards of a decoder that a well-formed input passes. *)
Ltac pass :=
  repeat first
    [ rewrite (proj2 (Nat.leb_gt _ _)) by lia
    | rewrite (proj2 (Nat.ltb_ge _ _)) by lia
    | rewrite Z.eqb_refl
    | progress cbn [negb ensure res_bind orb andb] ].

#[local] Arguments be_put : simpl never.

Section roundtrip.
Context `{Cryptobyte}.

(** Reading back a length-prefixed block. *)
Lemma read16_prefixed c rest :
  (Z.of_nat (length c) < 65536)%Z ->
  ReadUint16LengthPrefixed (be_put 2 (Z.of_nat (length c)) ++ c ++ rest) = Some (c, rest).
Proof.
  intros Hc. rewrite ReadUint16LengthPrefixed_spec.
  pose proof (be_get_put_small 2 (Z.of_nat (length c)) ltac:(lia)) as Hg. revert Hg.
  pose proof (length_be_put 2 (Z.of_nat (length c))) as Hl.
  destruct (be_put 2 _) as [|a [|b [|]]]; try discriminate. intros Hg. cbn [app].
  rewrite Hg, Nat2Z.id. cbv zeta. rewrite decide_True by len.
  by rewrite take_app_length, drop_app_length.
Qed.

Lemma read8_prefixed c rest :
  (Z.of_nat (length c) < 256)%Z ->
  ReadUint8LengthPrefixed (be_put 1 (Z.of_nat (length c)) ++ c ++ rest) = Some (c, rest).
Proof.
  intros Hc. rewrite ReadUint8LengthPrefixed_spec.
  change (be_put 1 (Z.of_nat (length c))) with [z2b (Z.of_nat (length c))]. cbn [app].
  rewrite b2z_z2b_small by lia. rewrite Nat2Z.id, decide_True by len.
  by rewrite take_app_length, drop_app_length.
Qed.

Lemma read16_prefixed_end c :
  (Z.of_nat (length c) < 65536)%Z ->
  ReadUint16LengthPrefixed (be_put 2 (Z.of_nat (length c)) ++ c) = Some (c, []).
Proof. intros Hc. rewrite <- (read16_prefixed c [] Hc). by rewrite app_nil_r. Qed.

Lemma read8_prefixed_end c :
  (Z.of_nat (length c) < 256)%Z ->
  ReadUint8LengthPrefixed (be_put 1 (Z.of_nat (length c)) ++ c) = Some (c, []).
Proof. intros Hc. rewrite <- (read8_prefixed c [] Hc). by rewrite app_nil_r. Qed.

Lemma read16_value v rest :
  (0 <= v < 65536)%Z -> ReadUint16 (be_put 2 v ++ rest) = Some (v, rest).
Proof.
  intros Hv. rewrite ReadUint16_spec.
  pose proof (be_get_put_small 2 v ltac:(lia)) as Hg. revert Hg.
  pose proof (length_be_put 2 v) as Hl.
  destruct (be_put 2 v) as [|a [|b [|]]]; try discriminate. intros Hg. cbn [app]. by rewrite Hg.
Qed.

Lemma read_ext_ok ty body rest :
  (0 <= ty < 65536)%Z -> (Z.of_nat (length body) < 65536)%Z ->
  read_ext (be_put 2 ty ++ be_put 2 (Z.of_nat (length body)) ++ body ++ rest) = (ty, body).
Proof.
  intros Ht Hb. unfold read_ext. rewrite read16_value by done. cbn [from_option id].
  by rewrite read16_prefixed by done.
Qed.

(** The extensions that the wire format can carry and the decoder keeps:
    known curves, algorithms and profiles, no empty list where the decoder
    wants one, lengths that fit their fields. *)
Definition ext_wf (e : Extension) : Prop :=
  match e with
  | ServerName n => n <> [] /\ ends_with_dot n = false /\ (Z.of_nat (length n) + 5 < 65536)%Z
  | SupportedEllipticCurves c => c <> [] /\ Forall (fun v => v ∈ Curves) c
      /\ (2 + 2 * Z.of_nat (length c) < 65536)%Z
  | SupportedPointFormats f => f <> [] /\ Forall (fun p => p = 0%Z) f /\ (Z.of_nat (length f) < 256)%Z
  | SupportedSignatureAlgorithms a => a <> []
      /\ Forall (fun v => fst v ∈ hash_Algorithms /\ snd v ∈ signature_Algorithms) a
      /\ (2 + 2 * Z.of_nat (length a) < 65536)%Z
  | UseSRTP p m => Forall (fun v => v ∈ srtpProtectionProfiles) p /\ (length m <= 255)%nat
      /\ (3 + 2 * Z.of_nat (length p) + Z.of_nat (length m) < 65536)%Z
  | ALPN ps => ps <> [] /\ Forall (fun p => p <> [] /\ (Z.of_nat (length p) < 256)%Z) ps
      /\ (2 + Z.of_nat (length ps) + Z.of_nat (length (concat ps)) < 65536)%Z
  | UseExtendedMasterSecret s => s = true
  | ConnectionIDExt c => (Z.of_nat (length c) < 256)%Z
  | RenegotiationInfo c => (0 <= c < 256)%Z
  end.

(** The type of an extension ([TypeValue]). *)
Definition TypeValue (e : Extension) : Z :=
  match e with
  | ServerName _ => ServerNameTypeValue
  | SupportedEllipticCurves _ => SupportedEllipticCurvesTypeValue
  | SupportedPointFormats _ => SupportedPointFormatsTypeValue
  | SupportedSignatureAlgorithms _ => SupportedSignatureAlgorithmsTypeValue
  | UseSRTP _ _ => UseSRTPTypeValue
  | ALPN _ => ALPNTypeValue
  | UseExtendedMasterSecret _ => UseExtendedMasterSecretTypeValue
  | ConnectionIDExt _ => ConnectionIDTypeValue
  | RenegotiationInfo _ => RenegotiationInfoTypeValue
  end.

(** What the block needs of one extension: it is written as its type, the
    length of its body and its body, and read back from a block in which
    more extensions follow. *)
Definition ext_codec (e : Extension) : Prop :=
  exists body,
    ext_Marshal e = Ok (be_put 2 (TypeValue e) ++ be_put 2 (Z.of_nat (length body)) ++ body) /\
    (Z.of_nat (length body) < 65536)%Z /\
    forall rest, ext_switch (TypeValue e)
      (be_put 2 (TypeValue e) ++ be_put 2 (Z.of_nat (length body)) ++ body ++ rest) = Ok (Some e).

Lemma sni_loop_one fuel n :
  n <> [] -> ends_with_dot n = false -> (Z.of_nat (length n) < 65536)%Z ->
  sni_loop (S fuel) (z2b 0 :: be_put 2 (Z.of_nat (length n)) ++ n) [] = Ok n.
Proof.
  intros Hn Hd Hl. cbn [sni_loop is_nil]. rewrite ReadUint8_spec.
  rewrite read16_prefixed_end by done. destruct n as [|b n]; [done|]. cbn [is_nil].
  change (b2z (z2b 0)) with 0%Z. cbn [Z.eqb negb]. rewrite Hd. by destruct fuel.
Qed.

Lemma codec_ServerName n : ext_wf (ServerName n) -> ext_codec (ServerName n).
Proof.
  intros (Hn & Hd & Hl).
  set (host := be_put 2 (Z.of_nat (length n)) ++ n).
  set (names := [z2b 0] ++ host). assert (Hh : length host = (2 + length n)%nat) by (unfold host; len).
  assert (Hns : length names = (3 + length n)%nat) by (unfold names; len).
  exists (be_put 2 (Z.of_nat (length names)) ++ names). unfold ext_Marshal, ServerName_Marshal.
  rewrite AddUint16LengthPrefixed_spec, decide_True by lia. cbn [res_bind].
  rewrite AddUint16LengthPrefixed_spec. fold host names. rewrite decide_True by lia. cbn [res_bind].
  rewrite AddUint16LengthPrefixed_spec, decide_True by len. cbn [res_bind].
  split_and!; [done|len|]. intros rest.
  unfold ext_switch, TypeValue. cbn [Z.eqb ServerNameTypeValue].
  unfold ServerName_Unmarshal. rewrite read_ext_ok by (unfold ServerNameTypeValue; len).
  cbn [ensure Z.eqb ServerNameTypeValue res_bind].
  rewrite read16_prefixed_end by lia.
  change (is_nil names) with false. cbv iota. rewrite Hns. cbn [Nat.add].
  unfold names, host. cbn [app]. rewrite sni_loop_one by (done || lia). done.
Qed.

(** The positions of an encoded extension. *)
Lemma header_At ty body rest data :
  data = be_put 2 ty ++ be_put 2 (Z.of_nat (length body)) ++ body ++ rest ->
  length data = (4 + length body + length rest)%nat /\
  u16_at 0 data = Ok (ty mod 65536)%Z /\ At 4 data (body ++ rest).
Proof.
  intros ->. set (data := _ ++ _). pose proof (At_start data) as H0. unfold data at 2 in H0.
  pose proof (At_skip _ 2 _ _ _ H0 ltac:(len)) as H2.
  pose proof (At_skip _ 4 _ _ _ H2 ltac:(len)) as H4.
  split_and!; [unfold data; len|by apply At_u16 in H0|done].
Qed.

(** A list of known 16-bit values behind its length in bytes. *)
Lemma read_u16s known l data i rest :
  At i data (concat (map (be_put 2) l) ++ rest) ->
  Forall (fun v => v ∈ known) l -> Forall (fun v => (0 <= v < 65536)%Z) known ->
  read_loop (length l) 0 (fun k =>
      let! v := u16_at (i + k * 2) data in Ok (if mem v known then Some v else None)) = Ok l.
Proof.
  intros H6 Hl Hk. apply read_loop_ok. intros j v Hv.
  destruct (At_nth (be_put 2) 2 l i j (i + (0 + j) * 2) data rest v H6) as [r Hr];
    [apply length_be_put|done|lia|].
  rewrite (At_u16 _ _ _ _ Hr). cbn [res_bind].
  eapply Forall_lookup_1 in Hl; [|done]. cbn beta in Hl.
  rewrite Forall_forall in Hk. rewrite Z.mod_small by (by apply Hk).
  unfold mem. by rewrite bool_decide_true.
Qed.

Lemma half_count n : Z.to_nat ((Z.of_nat (n * 2) mod 65536) / 2) = n <-> (Z.of_nat n < 32768)%Z.
Proof.
  rewrite Nat2Z.inj_mul. split; intros Hn.
  - pose proof (Z.mod_pos_bound (Z.of_nat n * Z.of_nat 2) 65536 ltac:(lia)).
    assert ((Z.of_nat n * Z.of_nat 2) mod 65536 / 2 < 32768)%Z by (apply Z.div_lt_upper_bound; lia).
    lia.
  - rewrite Z.mod_small by lia. change (Z.of_nat 2) with 2%Z. rewrite Z.div_mul by lia. lia.
Qed.

Lemma codec_Curves c : ext_wf (SupportedEllipticCurves c) -> ext_codec (SupportedEllipticCurves c).
Proof.
  intros (Hn & Hk & Hl). set (l := concat (map (be_put 2) c)).
  assert (Hlen : length l = (length c * 2)%nat) by (apply length_concat_map, length_be_put).
  assert (0 < length c)%nat by (destruct c; [done|simpl; lia]).
  exists (be_put 2 (Z.of_nat (length c * 2)) ++ l).
  split_and!; [unfold ext_Marshal, SupportedEllipticCurves_Marshal; fold l; do 4 f_equal; len|len|].
  intros rest. set (body := _ ++ l). set (data := _ ++ _) at 1.
  destruct (header_At _ body rest data eq_refl) as (Hd & Hty & H4).
  assert (Hb : length body = (2 + length l)%nat) by (unfold body; len).
  unfold body in H4. rewrite <- app_assoc in H4.
  pose proof (At_skip _ 6 _ _ _ H4 ltac:(len)) as H6.
  change (ext_switch (TypeValue (SupportedEllipticCurves c)) data) with
    (let! e := SupportedEllipticCurves_Unmarshal data in Ok (Some e)).
  unfold SupportedEllipticCurves_Unmarshal, supportedGroupsHeaderSize. rewrite Hd, Hty, Hb.
  pass. rewrite (At_u16 _ _ _ _ H4). cbn [res_bind]. rewrite (proj2 (half_count _)) by lia.
  pass. rewrite (read_u16s _ _ _ _ _ H6 Hk) by (repeat constructor; lia). done.
Qed.

Lemma codec_PointFormats f : ext_wf (SupportedPointFormats f) -> ext_codec (SupportedPointFormats f).
Proof.
  intros (Hn & Hk & Hl). assert (0 < length f)%nat by (destruct f; [done|simpl; lia]).
  exists ([z2b (Z.of_nat (length f))] ++ map z2b f).
  split_and!.
  { unfold ext_Marshal, SupportedPointFormats_Marshal. do 4 f_equal.
    rewrite length_app, length_map. simpl. lia. }
  { rewrite length_app, length_map. simpl. lia. }
  intros rest. set (body := _ ++ map z2b f). set (data := _ ++ _) at 1.
  destruct (header_At _ body rest data eq_refl) as (Hd & Hty & H4).
  assert (Hb : length body = (1 + length f)%nat)
    by (unfold body; rewrite length_app, length_map; simpl; lia).
  unfold body in H4. cbn [app] in H4. pose proof (At_next _ 5 _ _ _ H4 eq_refl) as H5.
  change (ext_switch (TypeValue (SupportedPointFormats f)) data) with
    (let! e := SupportedPointFormats_Unmarshal data in Ok (Some e)).
  unfold SupportedPointFormats_Unmarshal, supportedPointFormatsSize. rewrite Hd, Hty, Hb.
  pass. rewrite (At_idx _ _ _ _ H4), b2z_z2b_small by lia. cbn [res_bind]. rewrite Nat2Z.id.
  pass. rewrite read_loop_ok; [done|]. intros j v Hv.
  assert (He : forall l : list Z, concat (map (fun x => [z2b x]) l) = map z2b l)
    by (intros l; induction l; simpl; congruence).
  rewrite <- He in H5.
  destruct (At_nth (fun x => [z2b x]) 1 f 5 j (5 + (0 + j)) data rest v H5) as [r Hr];
    [done|done|lia|].
  cbn [app] in Hr. rewrite (At_idx _ _ _ _ Hr). cbn [res_bind].
  eapply Forall_lookup_1 in Hk; [|done]. cbn beta in Hk. by subst v.
Qed.

Lemma codec_SignatureAlgorithms a :
  ext_wf (SupportedSignatureAlgorithms a) -> ext_codec (SupportedSignatureAlgorithms a).
Proof.
  intros (Hn & Hk & Hl). set (enc := fun v : Z * Z => [z2b (fst v); z2b (snd v)]).
  set (l := concat (map enc a)).
  assert (Hlen : length l = (length a * 2)%nat) by (by apply length_concat_map).
  assert (0 < length a)%nat by (destruct a; [done|simpl; lia]).
  exists (be_put 2 (Z.of_nat (length a * 2)) ++ l).
  split_and!; [unfold ext_Marshal, SupportedSignatureAlgorithms_Marshal; fold enc l; do 4 f_equal; len|len|].
  intros rest. set (body := _ ++ l). set (data := _ ++ _) at 1.
  destruct (header_At _ body rest data eq_refl) as (Hd & Hty & H4).
  assert (Hb : length body = (2 + length l)%nat) by (unfold body; len).
  unfold body in H4. rewrite <- app_assoc in H4.
  pose proof (At_skip _ 6 _ _ _ H4 ltac:(len)) as H6.
  change (ext_switch (TypeValue (SupportedSignatureAlgorithms a)) data) with
    (let! e := SupportedSignatureAlgorithms_Unmarshal data in Ok (Some e)).
  unfold SupportedSignatureAlgorithms_Unmarshal, supportedSignatureAlgorithmsHeaderSize.
  rewrite Hd, Hty, Hb.
  pass. rewrite (At_u16 _ _ _ _ H4). cbn [res_bind]. rewrite (proj2 (half_count _)) by lia.
  pass. rewrite read_loop_ok; [done|]. intros j [h s] Hv.
  destruct (At_nth enc 2 a 6 j (6 + (0 + j) * 2) data rest (h, s) H6) as [r Hr]; [done|done|lia|].
  unfold enc in Hr. cbn [app fst snd] in Hr.
  rewrite (At_idx _ _ _ _ Hr). cbn [res_bind].
  apply At_next with (j := (6 + (0 + j) * 2 + 1)%nat) in Hr; [|lia].
  rewrite (At_idx _ _ _ _ Hr). cbn [res_bind].
  eapply Forall_lookup_1 in Hk; [|done]. destruct Hk as [Hh Hs]. cbn [fst snd] in *.
  assert (Hhr : (0 <= h < 256)%Z).
  { unfold hash_Algorithms in Hh. rewrite !elem_of_cons, elem_of_nil in Hh. lia. }
  assert (Hsr : (0 <= s < 256)%Z).
  { unfold signature_Algorithms in Hs. rewrite !elem_of_cons, elem_of_nil in Hs. lia. }
  rewrite !b2z_z2b_small by lia. unfold mem. by rewrite !bool_decide_true.
Qed.

Lemma codec_UseSRTP p m : ext_wf (UseSRTP p m) -> ext_codec (UseSRTP p m).
Proof.
  intros (Hk & Hm & Hl). set (l := concat (map (be_put 2) p)).
  assert (Hlen : length l = (length p * 2)%nat) by (apply length_concat_map, length_be_put).
  exists (be_put 2 (Z.of_nat (length p * 2)) ++ l ++ [z2b (Z.of_nat (length m))] ++ m).
  split_and!.
  { unfold ext_Marshal, UseSRTP_Marshal. fold l. rewrite (proj2 (Nat.ltb_ge _ _)) by lia.
    rewrite <- !app_assoc. do 4 f_equal. len. }
  { len. }
  intros rest. set (body := _ ++ l ++ _). set (data := _ ++ _) at 1.
  destruct (header_At _ body rest data eq_refl) as (Hd & Hty & H4).
  assert (Hb : length body = (3 + length l + length m)%nat) by (unfold body; len).
  unfold body in H4. rewrite <- !app_assoc in H4.
  pose proof (At_skip _ 6 _ _ _ H4 ltac:(len)) as H6.
  pose proof (At_skip _ (6 + length p * 2) _ _ _ H6 ltac:(len)) as Hi. cbn [app] in Hi.
  pose proof (At_next _ (6 + length p * 2 + 1) _ _ _ Hi ltac:(lia)) as Hx.
  change (ext_switch (TypeValue (UseSRTP p m)) data) with
    (let! e := UseSRTP_Unmarshal data in Ok (Some e)).
  unfold UseSRTP_Unmarshal, useSRTPHeaderSize, supportedGroupsHeaderSize. rewrite Hd, Hty, Hb.
  pass. rewrite (At_u16 _ _ _ _ H4). cbn [res_bind]. rewrite (proj2 (half_count _)) by lia.
  pass. rewrite (read_u16s _ _ _ _ _ H6 Hk) by (repeat constructor; lia). cbn [res_bind].
  rewrite (At_idx _ _ _ _ Hi), b2z_z2b_small by lia. cbn [res_bind]. rewrite Nat2Z.id.
  pass. by rewrite (At_sub _ _ _ _ _ Hx) by lia.
Qed.

(** The bytes of a list of protocols, each behind its length. *)
Definition alpn_bytes (ps : list bytes) : bytes :=
  concat (map (fun p => be_put 1 (Z.of_nat (length p)) ++ p) ps).

Lemma length_alpn_bytes ps : length (alpn_bytes ps) = (length ps + length (concat ps))%nat.
Proof. induction ps as [|p ps IH]; [done|]. unfold alpn_bytes in *. simpl. len. Qed.

Lemma alpn_block_eq ps :
  Forall (fun p => p <> [] /\ (Z.of_nat (length p) < 256)%Z) ps ->
  alpn_block ps = Ok (alpn_bytes ps).
Proof.
  induction 1 as [|p ps [_ Hp] _ IH]; [done|]. cbn [alpn_block].
  rewrite AddUint8LengthPrefixed_spec, decide_True by done. cbn [res_bind]. by rewrite IH.
Qed.

Lemma alpn_loop_eq fuel ps acc :
  Forall (fun p => p <> [] /\ (Z.of_nat (length p) < 256)%Z) ps ->
  (length ps <= fuel)%nat -> alpn_loop fuel (alpn_bytes ps) acc = Ok (acc ++ ps).
Proof.
  intros Hps. revert fuel acc. induction Hps as [|p ps [Hne Hp] _ IH]; intros fuel acc Hf.
  - destruct fuel; simpl; by rewrite app_nil_r.
  - destruct fuel as [|fuel]; [simpl in Hf; lia|]. cbn [alpn_loop].
    unfold alpn_bytes. cbn [map concat]. fold (alpn_bytes ps).
    replace (is_nil _) with false by done. rewrite <- app_assoc, read8_prefixed by done.
    destruct p as [|b p]; [done|]. cbn [is_nil]. rewrite IH by (simpl in Hf; lia).
    by rewrite <- app_assoc.
Qed.

Lemma codec_ALPN ps : ext_wf (ALPN ps) -> ext_codec (ALPN ps).
Proof.
  intros (Hn & Hk & Hl). pose proof (length_alpn_bytes ps) as Hlen.
  exists (be_put 2 (Z.of_nat (length (alpn_bytes ps))) ++ alpn_bytes ps).
  unfold ext_Marshal, ALPN_Marshal. rewrite alpn_block_eq by done. cbn [res_bind].
  rewrite AddUint16LengthPrefixed_spec, decide_True by lia. cbn [res_bind].
  rewrite AddUint16LengthPrefixed_spec, decide_True by len. cbn [res_bind].
  split_and!; [done|len|]. intros rest. set (data := _ ++ _) at 1.
  change (ext_switch (TypeValue (ALPN ps)) data) with (let! e := ALPN_Unmarshal data in Ok (Some e)).
  unfold ALPN_Unmarshal, data. rewrite read_ext_ok by (unfold TypeValue, ALPNTypeValue; len).
  pass. rewrite read16_prefixed_end by lia. rewrite alpn_loop_eq by (done || lia).
  by destruct ps.
Qed.

Lemma codec_ConnectionID c : ext_wf (ConnectionIDExt c) -> ext_codec (ConnectionIDExt c).
Proof.
  intros Hl. simpl in Hl. exists (be_put 1 (Z.of_nat (length c)) ++ c).
  unfold ext_Marshal, ConnectionID_Marshal.
  rewrite AddUint8LengthPrefixed_spec, decide_True by lia. cbn [res_bind].
  rewrite AddUint16LengthPrefixed_spec, decide_True by len. cbn [res_bind].
  split_and!; [done|len|]. intros rest. set (data := _ ++ _) at 1.
  change (ext_switch (TypeValue (ConnectionIDExt c)) data) with
    (let! e := ConnectionID_Unmarshal data in Ok (Some e)).
  unfold ConnectionID_Unmarshal, data.
  rewrite read_ext_ok by (unfold TypeValue, ConnectionIDTypeValue; len). pass.
  rewrite read8_prefixed_end by lia. rewrite CopyBytes_spec, decide_True by lia.
  by rewrite firstn_all.
Qed.

Lemma codec_EMS : ext_codec (UseExtendedMasterSecret true).
Proof.
  exists []. split_and!; [done|simpl; lia|]. intros rest. set (data := _ ++ _) at 1.
  destruct (header_At _ [] rest data eq_refl) as (Hd & Hty & _).
  change (ext_switch (TypeValue (UseExtendedMasterSecret true)) data) with
    (let! e := UseExtendedMasterSecret_Unmarshal data in Ok (Some e)).
  unfold UseExtendedMasterSecret_Unmarshal. rewrite Hd, Hty. by pass.
Qed.

Lemma codec_Renegotiation c : ext_wf (RenegotiationInfo c) -> ext_codec (RenegotiationInfo c).
Proof.
  intros Hc. simpl in Hc. exists [z2b c]. split_and!; [done|simpl; lia|].
  intros rest. set (data := _ ++ _) at 1.
  destruct (header_At _ [z2b c] rest data eq_refl) as (Hd & Hty & H4). cbn [app] in H4.
  change (ext_switch (TypeValue (RenegotiationInfo c)) data) with
    (let! e := RenegotiationInfo_Unmarshal data in Ok (Some e)).
  unfold RenegotiationInfo_Unmarshal. rewrite Hd, Hty. simpl length. pass.
  rewrite (At_idx _ _ _ _ H4), b2z_z2b_small by lia. done.
Qed.

Lemma codec_all e : ext_wf e -> ext_codec e.
Proof.
  destruct e; auto using codec_ServerName, codec_Curves, codec_PointFormats,
    codec_SignatureAlgorithms, codec_UseSRTP, codec_ALPN, codec_ConnectionID, codec_Renegotiation.
  simpl. intros ->. apply codec_EMS.
Qed.
Lemma TypeValue_range e : (0 <= TypeValue e < 65536)%Z.
Proof. by destruct e. Qed.

(** The loop of the block decoder over encoded extensions. *)
Lemma exts_loop_ok es fuel buf i acc :
  Forall ext_wf es -> (length es <= fuel)%nat ->
  exists raw, exts_concat es = Ok raw /\
    (At i buf raw -> exts_loop fuel buf i acc = Ok (acc ++ es)).
Proof.
  intros Hes. revert fuel i acc. induction Hes as [|e es He _ IH]; intros fuel i acc Hf.
  - exists []. split; [done|]. intros Hat. apply At_len in Hat. simpl in Hat.
    destruct fuel; simpl; rewrite (proj2 (Nat.ltb_ge _ _)) by lia; simpl; by rewrite app_nil_r.
  - destruct fuel as [|fuel]; [simpl in Hf; lia|].
    destruct (codec_all e He) as (body & Hm & Hb & Hsw). pose proof (TypeValue_range e) as Ht.
    destruct (IH fuel (i + (4 + length body))%nat (acc ++ [e])) as (raw & Hraw & Hrec);
      [simpl in Hf; lia|].
    exists ((be_put 2 (TypeValue e) ++ be_put 2 (Z.of_nat (length body)) ++ body) ++ raw).
    split; [cbn [exts_concat]; by rewrite Hm, Hraw|]. rewrite <- !app_assoc. intros Hat.
    pose proof (At_len _ _ _ Hat) as Hl. rewrite !length_app, !length_be_put in Hl.
    pose proof (At_skip _ (i + 2) _ _ _ Hat ltac:(len)) as Hat2.
    pose proof (At_skip _ (i + 4) _ _ _ Hat2 ltac:(len)) as Hat4.
    pose proof (At_skip _ (i + (4 + length body)) _ _ _ Hat4 ltac:(lia)) as Hat'.
    cbn [exts_loop]. rewrite (proj2 (Nat.ltb_lt i _)) by lia. pass.
    rewrite (At_u16 _ _ _ _ Hat), Z.mod_small, (At_from _ _ _ Hat) by done. cbn [res_bind].
    rewrite Hsw. pass. rewrite (At_u16 _ _ _ _ Hat2), Z.mod_small by lia.
    cbn [res_bind]. rewrite Nat2Z.id, (Hrec Hat'). by rewrite <- app_assoc.
Qed.

Lemma length_exts es raw : exts_concat es = Ok raw -> Forall ext_wf es -> (length es <= length raw)%nat.
Proof.
  intros H' Hes. revert raw H'. induction Hes as [|e es He _ IH]; intros raw Hr; [simpl; lia|].
  cbn [exts_concat] in Hr. destruct (codec_all e He) as (body & Hm & _ & _). rewrite Hm in Hr.
  cbn [res_bind] in Hr. destruct (exts_concat es) as [r|]; [|done]. injection Hr as <-.
  specialize (IH r eq_refl). len.
Qed.
End roundtrip.

(** A block of well-formed extensions survives the wire: encoding succeeds
    and, when the block fits its 16-bit length, decoding gives back the same
    extensions in the same order, whatever their kinds. *)
Lemma extensions_roundtrip `{Cryptobyte} es :
  Forall ext_wf es ->
  exists out, exts_Marshal es = Ok out /\
    ((length out <= 2 + Z.to_nat 65535)%nat -> exts_Unmarshal out = Ok es).
Proof.
  intros Hes. destruct (exts_loop_ok es (length es) [] 0 [] Hes ltac:(lia)) as (raw & Hraw & _).
  pose proof (length_exts es raw Hraw Hes) as Hle.
  exists (be_put 2 (Z.of_nat (length raw)) ++ raw). unfold exts_Marshal. rewrite Hraw.
  split; [done|]. rewrite length_app, length_be_put. intros Hl.
  set (out := _ ++ raw). pose proof (At_start out) as H0. unfold out at 2 in H0.
  pose proof (At_skip _ 2 _ _ _ H0 ltac:(len)) as H2.
  assert (Ho : length out = (2 + length raw)%nat) by (unfold out; len).
  destruct (exts_loop_ok es (length out) out 2 [] Hes ltac:(lia)) as (raw' & Hraw' & Hloop).
  assert (raw' = raw) as -> by congruence.
  unfold exts_Unmarshal. replace (is_nil out) with false by done. rewrite Ho.
  rewrite (proj2 (Nat.ltb_ge _ _)) by lia. rewrite (At_u16 _ _ _ _ H0), Z.mod_small by lia.
  cbn [res_bind]. replace (2 + length raw - 2)%nat with (length raw) by lia.
  rewrite Z.eqb_refl. cbn [ensure res_bind]. rewrite <- Ho. by apply Hloop.
Qed.

Definition sample_exts : list Extension :=
  [SupportedEllipticCurves [29; 23]%Z; SupportedPointFormats [0]%Z;
   UseSRTP [1; 7]%Z []; UseExtendedMasterSecret true; ConnectionIDExt (map z2b [1; 2; 3]%Z);
   ServerName (map z2b [97; 46; 98]%Z); ALPN [map z2b [104; 50]%Z; map z2b [97]%Z];
   SupportedSignatureAlgorithms [(4, 3); (8, 7)]%Z; RenegotiationInfo 0].

Lemma extensions_roundtrip_witness :
  exists out, @exts_Marshal cryptobyte_ref sample_exts = Ok out /\
    ((length out <= 2 + Z.to_nat 65535)%nat -> exts_Unmarshal out = Ok sample_exts).
Proof.
  apply extensions_roundtrip.
  repeat (apply Forall_cons_2 || apply Forall_nil_2);
    cbn [ext_wf]; split_and?; try done; repeat constructor; try set_solver; try (simpl; lia).
Defined.

(** An extension of unknown type may claim any length, beyond the end of the
    block too: the loop steps over the end and accepts the block. *)
Lemma unknown_extension_overrun `{Cryptobyte} n :
  (0 <= n < 65536)%Z ->
  exts_Unmarshal (be_put 2 4 ++ be_put 2 35 ++ be_put 2 n) = Ok [].
Proof.
  intros Hn. set (buf := _ ++ _ ++ _). pose proof (At_start buf) as H0. unfold buf at 2 in H0.
  pose proof (At_skip _ 2 _ _ _ H0 ltac:(len)) as H2.
  pose proof (At_skip _ 4 _ _ _ H2 ltac:(len)) as H4. rewrite <- (app_nil_r (be_put 2 n)) in H4.
  assert (Hl : length buf = 6%nat) by (unfold buf; len).
  unfold exts_Unmarshal. replace (is_nil buf) with false by done. rewrite Hl.
  rewrite (At_u16 _ _ _ _ H0). cbn [Nat.ltb Nat.leb res_bind Nat.sub].
  change (4 mod 65536)%Z with 4%Z. cbn [Z.of_nat Z.eqb Pos.of_succ_nat Pos.succ Pos.eqb ensure res_bind].
  cbn [exts_loop]. rewrite Hl. cbn [Nat.ltb Nat.leb Nat.add negb ensure res_bind].
  rewrite (At_u16 _ _ _ _ H2), (At_from _ _ _ H2). cbn [res_bind].
  change (35 mod 65536)%Z with 35%Z.
  change (ext_switch 35 (be_put 2 35 ++ be_put 2 n)) with (Ok None : res derr (option Extension)).
  cbn [res_bind]. by rewrite (At_u16 _ _ _ _ H4).
Qed.
