(* ===== verification/DtlsHandshake.v ===== *)
(** * DTLS handshake messages and records

    The package [handshake] (golib/replace/dtls/pkg/protocol/handshake): the
    handshake header, the ten messages with their encoders and decoders, and
    the [Handshake] content that carries them; then the record of package
    [recordlayer], which joins a header and a content.

    A slice that may be nil where the code asks for it is an [option]; times
    are seconds since 1970. *)

From S2P Require Import Prelude DtlsWire DtlsExt.
Open Scope np_scope.

(** ** Parts shared by the messages *)

Definition RandomBytesLength : nat := 28.
Definition RandomLength : nat := RandomBytesLength + 4.

Record Random := mkRandom { GMTUnixTime : Z; RandomBytes : bytes }.

Definition Random_MarshalFixed (r : Random) : bytes :=
  be_put 4 (GMTUnixTime r) ++ RandomBytes r.

Definition Random_UnmarshalFixed (data : bytes) : Random :=
  mkRandom (be_get (take 4 data)) (drop 4 data).

Definition decodeCipherSuiteIDs (buf : bytes) : res derr (list Z) :=
  let! _ := ensure (negb (length buf <? 2)%nat) errBufferTooSmall in
  let! l := u16_at 0 buf in
  read_loop (Z.to_nat (l / 2)) 0 (fun i =>
    let! _ := ensure (negb (length buf <? i * 2 + 4)%nat) errBufferTooSmall in
    let! v := u16_at (i * 2 + 2) buf in
    Ok (Some v)).

Definition encodeCipherSuiteIDs (ids : list Z) : bytes :=
  be_put 2 (Z.of_nat (length ids * 2)) ++ concat (map (be_put 2) ids).

(** Compression methods are their identifiers; only the null method is known. *)
Definition compressionMethodNull : Z := 0.
Definition CompressionMethods : list Z := [compressionMethodNull].

Definition DecodeCompressionMethods (buf : bytes) : res derr (list Z) :=
  let! _ := ensure (negb (length buf <? 1)%nat) errBufferTooSmall in
  let! n := idx 0 buf in
  read_loop (Z.to_nat n) 0 (fun i =>
    let! _ := ensure (negb (length buf <=? i + 1)%nat) errBufferTooSmall in
    let! id := idx (i + 1) buf in
    Ok (if mem id CompressionMethods then Some id else None)).

(** The loop runs from the last method to the first. *)
Definition EncodeCompressionMethods (c : list Z) : bytes :=
  [z2b (Z.of_nat (length c))] ++ map z2b (rev c).

(** ** Messages *)

Record MessageClientHello := mkClientHello {
  ch_Version : Version;
  ch_Random : Random;
  ch_Cookie : bytes;
  ch_SessionID : bytes;
  ch_CipherSuiteIDs : list Z;
  ch_CompressionMethods : list Z;
  ch_Extensions : list Extension
}.

Definition ClientHello_Marshal `{Cryptobyte} (m : MessageClientHello) : res derr bytes :=
  if (255 <? length (ch_Cookie m))%nat then Err errCookieTooLong
  else
    let out := [z2b (Major (ch_Version m)); z2b (Minor (ch_Version m))]
      ++ Random_MarshalFixed (ch_Random m)
      ++ [z2b (Z.of_nat (length (ch_SessionID m)))] ++ ch_SessionID m
      ++ [z2b (Z.of_nat (length (ch_Cookie m)))] ++ ch_Cookie m
      ++ encodeCipherSuiteIDs (ch_CipherSuiteIDs m)
      ++ EncodeCompressionMethods (ch_CompressionMethods m) in
    let! extensions := exts_Marshal (ch_Extensions m) in
    Ok (out ++ extensions).

(** [n := int(data[off-1])] with the two guards around it, then
    [data[off:off+n]]: how the hello decoders read a session identifier and a
    cookie at the incremented offset [off]. *)
Definition opaque8 (off : nat) (data : bytes) : res derr bytes :=
  let! _ := ensure (negb (length data <=? off)%nat) errBufferTooSmall in
  let! n := idx (off - 1) data in
  let! _ := ensure (negb (length data <=? off + Z.to_nat n)%nat) errBufferTooSmall in
  sub off (off + Z.to_nat n) data.

Definition hello_VariableWidthStart : nat := 34.

Definition ClientHello_Unmarshal `{Cryptobyte} (data : bytes) : res derr MessageClientHello :=
  let! _ := ensure (negb (length data <? 2 + RandomLength)%nat) errBufferTooSmall in
  let! major := idx 0 data in
  let! minor := idx 1 data in
  let! tl := from 2 data in
  let random := Random_UnmarshalFixed (take RandomLength tl) in
  let off := S hello_VariableWidthStart in
  let! sessionID := opaque8 off data in
  let off := S (off + length sessionID) in
  let! cookie := opaque8 off data in
  let off := (off + length cookie)%nat in
  let! _ := ensure (negb (length data <? off)%nat) errBufferTooSmall in
  let! tl := from off data in
  let! ids := decodeCipherSuiteIDs tl in
  let! _ := ensure (negb (length data <? off + 2)%nat) errBufferTooSmall in
  let! l := u16_at off data in
  let off := (off + (Z.to_nat l + 2))%nat in
  let! _ := ensure (negb (length data <? off)%nat) errBufferTooSmall in
  let! tl := from off data in
  let! methods := DecodeCompressionMethods tl in
  let! _ := ensure (negb (length data <? off)%nat) errBufferTooSmall in
  let! n := idx off data in
  let off := (off + (Z.to_nat n + 1))%nat in
  let! tl := from off data in
  let! exts := exts_Unmarshal tl in
  Ok (mkClientHello (mkVersion major minor) random cookie sessionID ids methods exts).

Record MessageServerHello := mkServerHello {
  sh_Version : Version;
  sh_Random : Random;
  sh_SessionID : bytes;
  sh_CipherSuiteID : option Z;
  sh_CompressionMethod : option Z;
  sh_Extensions : list Extension
}.

Definition ServerHello_Marshal `{Cryptobyte} (m : MessageServerHello) : res derr bytes :=
  match sh_CipherSuiteID m, sh_CompressionMethod m with
  | None, _ => Err errCipherSuiteUnset
  | _, None => Err errCompressionMethodUnset
  | Some suite, Some method =>
      let out := [z2b (Major (sh_Version m)); z2b (Minor (sh_Version m))]
        ++ Random_MarshalFixed (sh_Random m)
        ++ [z2b (Z.of_nat (length (sh_SessionID m)))] ++ sh_SessionID m
        ++ be_put 2 suite ++ [z2b method] in
      let! extensions := exts_Marshal (sh_Extensions m) in
      Ok (out ++ extensions)
  end.

Definition ServerHello_Unmarshal `{Cryptobyte} (data : bytes) : res derr MessageServerHello :=
  let! _ := ensure (negb (length data <? 2 + RandomLength)%nat) errBufferTooSmall in
  let! major := idx 0 data in
  let! minor := idx 1 data in
  let! tl := from 2 data in
  let random := Random_UnmarshalFixed (take RandomLength tl) in
  let off := S hello_VariableWidthStart in
  let! sessionID := opaque8 off data in
  let off := (off + length sessionID)%nat in
  let! _ := ensure (negb (length data <? off + 2)%nat) errBufferTooSmall in
  let! suite := u16_at off data in
  let off := (off + 2)%nat in
  let! _ := ensure (negb (length data <=? off)%nat) errBufferTooSmall in
  let! method := idx off data in
  let! _ := ensure (mem method CompressionMethods) errInvalidCompressionMethod in
  let off := S off in
  let v := mkVersion major minor in
  if (length data <=? off)%nat then
    Ok (mkServerHello v random sessionID (Some suite) (Some method) [])
  else
    let! tl := from off data in
    let! exts := exts_Unmarshal tl in
    Ok (mkServerHello v random sessionID (Some suite) (Some method) exts).

Record MessageHelloVerifyRequest := mkHelloVerify { hv_Version : Version; hv_Cookie : bytes }.

Definition HelloVerifyRequest_Marshal (m : MessageHelloVerifyRequest) : res derr bytes :=
  if (255 <? length (hv_Cookie m))%nat then Err errCookieTooLong
  else Ok ([z2b (Major (hv_Version m)); z2b (Minor (hv_Version m));
            z2b (Z.of_nat (length (hv_Cookie m)))] ++ hv_Cookie m).

Definition HelloVerifyRequest_Unmarshal (data : bytes) : res derr MessageHelloVerifyRequest :=
  let! _ := ensure (negb (length data <? 3)%nat) errBufferTooSmall in
  let! major := idx 0 data in
  let! minor := idx 1 data in
  let! n := idx 2 data in
  let! _ := ensure (negb (length data <? Z.to_nat n + 3)%nat) errBufferTooSmall in
  let! cookie := sub 3 (3 + Z.to_nat n) data in
  Ok (mkHelloVerify (mkVersion major minor) cookie).

Record MessageCertificate := mkCertificate { Certificate : list bytes }.

(** The total size is stored in the first three bytes at the end. *)
Definition Certificate_Marshal (m : MessageCertificate) : bytes :=
  let out := replicate 3 (z2b 0)
    ++ concat (map (fun r => PutBigEndianUint24 (replicate 3 (z2b 0)) (Z.of_nat (length r)) ++ r)
                 (Certificate m)) in
  PutBigEndianUint24 out (Z.of_nat (length (drop 3 out))).

Fixpoint certificate_loop (fuel : nat) (data : bytes) (offset : nat) (acc : list bytes)
    : res derr (list bytes) :=
  if negb (offset <? length data)%nat then Ok acc
  else match fuel with
  | O => Err Diverges
  | S fuel' =>
      let! tl := from offset data in
      let certificateLen := Z.to_nat (BigEndianUint24 tl) in
      let offset := (offset + 3)%nat in
      let! _ := ensure (negb (length data <? offset + certificateLen)%nat) errLengthMismatch in
      let! c := sub offset (offset + certificateLen) data in
      certificate_loop fuel' data (offset + certificateLen) (acc ++ [c])
  end.

Definition Certificate_Unmarshal (data : bytes) : res derr MessageCertificate :=
  let! _ := ensure (negb (length data <? 3)%nat) errBufferTooSmall in
  let! _ := ensure (BigEndianUint24 data + 3 =? Z.of_nat (length data))%Z errLengthMismatch in
  let! cs := certificate_loop (length data) data 3 [] in
  Ok (mkCertificate cs).

Record MessageCertificateVerify := mkCertificateVerify {
  cv_Hash : Z; cv_SignatureAlgorithm : Z; cv_Signature : bytes
}.

Definition CertificateVerify_Marshal (m : MessageCertificateVerify) : bytes :=
  [z2b (cv_Hash m); z2b (cv_SignatureAlgorithm m)]
  ++ be_put 2 (Z.of_nat (length (cv_Signature m))) ++ cv_Signature m.

Definition CertificateVerify_Unmarshal (data : bytes) : res derr MessageCertificateVerify :=
  let! _ := ensure (negb (length data <? 4)%nat) errBufferTooSmall in
  let! h := idx 0 data in
  let! _ := ensure (mem h hash_Algorithms) errInvalidHashAlgorithm in
  let! s := idx 1 data in
  let! _ := ensure (mem s signature_Algorithms) errInvalidSignatureAlgorithm in
  let! n := u16_at 2 data in
  let! _ := ensure (n + 4 =? Z.of_nat (length data))%Z errBufferTooSmall in
  let! sg := from 4 data in
  Ok (mkCertificateVerify h s sg).

Record MessageFinished := mkFinished { VerifyData : bytes }.
Definition Finished_Marshal (m : MessageFinished) : bytes := [] ++ VerifyData m.
Definition Finished_Unmarshal (data : bytes) : res derr MessageFinished :=
  Ok (mkFinished ([] ++ data)).

Definition ServerHelloDone_Marshal : bytes := [].
Definition ServerHelloDone_Unmarshal (data : bytes) : res derr unit := Ok tt.

(** *** Key exchange *)

(** [types.KeyExchangeAlgorithm], a bit mask. *)
Definition KeyExchangeAlgorithmNone : Z := 0.
Definition KeyExchangeAlgorithmPsk : Z := 2.
Definition KeyExchangeAlgorithmEcdhe : Z := 4.
Definition Has (a v : Z) : bool := (Z.land a v =? v)%Z.

Record MessageClientKeyExchange := mkClientKeyExchange {
  ck_IdentityHint : option bytes;
  ck_PublicKey : option bytes
}.

Definition ClientKeyExchange_Marshal (m : MessageClientKeyExchange) : res derr bytes :=
  match ck_IdentityHint m, ck_PublicKey m with
  | None, None => Err errInvalidClientKeyExchange
  | hint, key =>
      Ok ((match hint with
           | Some h => be_put 2 (Z.of_nat (length h)) ++ h
           | None => []
           end) ++
          (match key with
           | Some k => [z2b (Z.of_nat (length k))] ++ k
           | None => []
           end))
  end.

Definition ClientKeyExchange_Unmarshal (kx : Z) (data : bytes) : res derr MessageClientKeyExchange :=
  let! _ := ensure (negb (length data <? 2)%nat) errBufferTooSmall in
  let! _ := ensure (negb (kx =? KeyExchangeAlgorithmNone)%Z) errCipherSuiteUnset in
  let! (hint, offset) :=
    (if Has kx KeyExchangeAlgorithmPsk then
       let! n := u16_at 0 data in
       let! _ := ensure (negb (length data - 2 <? Z.to_nat n)%nat) errBufferTooSmall in
       let! h := sub 2 (Z.to_nat n + 2) data in
       Ok (Some h, (Z.to_nat n + 2)%nat)
     else Ok (None, 0%nat)) in
  let! key :=
    (if Has kx KeyExchangeAlgorithmEcdhe then
       let! n := idx offset data in
       let! _ := ensure (negb (Z.of_nat (length data) - 1 - Z.of_nat offset <? n)%Z) errBufferTooSmall in
       let! k := from (offset + 1) data in
       Ok (Some k)
     else Ok None) in
  Ok (mkClientKeyExchange hint key).

Record MessageServerKeyExchange := mkServerKeyExchange {
  sk_IdentityHint : option bytes;
  sk_EllipticCurveType : Z;
  sk_NamedCurve : Z;
  sk_PublicKey : bytes;
  sk_Hash : Z;
  sk_SignatureAlgorithm : Z;
  sk_Signature : bytes
}.

Definition hash_None : Z := 0.
Definition signature_Anonymous : Z := 0.
Definition CurveTypes : list Z := [3]%Z.

Definition ServerKeyExchange_Marshal (m : MessageServerKeyExchange) : res derr bytes :=
  let out := match sk_IdentityHint m with
             | Some h => be_put 2 (Z.of_nat (length h)) ++ h
             | None => []
             end in
  if (sk_EllipticCurveType m =? 0)%Z || is_nil (sk_PublicKey m) then Ok out
  else
    let out := out ++ [z2b (sk_EllipticCurveType m)] ++ be_put 2 (sk_NamedCurve m)
      ++ [z2b (Z.of_nat (length (sk_PublicKey m)))] ++ sk_PublicKey m in
    let noHash := (sk_Hash m =? hash_None)%Z in
    let noSig := is_nil (sk_Signature m) in
    let anon := (sk_SignatureAlgorithm m =? signature_Anonymous)%Z in
    if negb noHash && noSig then Err errInvalidHashAlgorithm
    else if noHash && negb noSig then Err errInvalidHashAlgorithm
    else if anon && (negb noHash || negb noSig) then Err errInvalidSignatureAlgorithm
    else if anon then Ok out
    else Ok (out ++ [z2b (sk_Hash m); z2b (sk_SignatureAlgorithm m)]
             ++ be_put 2 (Z.of_nat (length (sk_Signature m))) ++ sk_Signature m).

(** What follows the hint: nothing with a pre-shared key alone, otherwise the
    curve, the public key and, unless the exchange is anonymous, a signature. *)
Definition ServerKeyExchange_rest (kx : Z) (hint : option bytes) (data : bytes)
    : res derr MessageServerKeyExchange :=
  if (kx =? KeyExchangeAlgorithmPsk)%Z then
    if is_nil data then Ok (mkServerKeyExchange hint 0 0 [] 0 0 []) else Err errLengthMismatch
  else
    let! _ := ensure (Has kx KeyExchangeAlgorithmEcdhe) errLengthMismatch in
    let! ct := idx 0 data in
    let! _ := ensure (mem ct CurveTypes) errInvalidEllipticCurveType in
    let! _ := ensure (negb (length data - 1 <? 2)%nat) errBufferTooSmall in
    let! curve := u16_at 1 data in
    let! _ := ensure (mem curve Curves) errInvalidNamedCurve in
    let! _ := ensure (negb (length data <? 4)%nat) errBufferTooSmall in
    let! n := idx 3 data in
    let offset := (4 + Z.to_nat n)%nat in
    let! _ := ensure (negb (length data <? offset)%nat) errBufferTooSmall in
    let! key := sub 4 offset data in
    if (length data =? offset)%nat then Ok (mkServerKeyExchange hint ct curve key 0 0 [])
    else if (length data <=? offset)%nat then Err errBufferTooSmall
    else
      let! h := idx offset data in
      let! _ := ensure (mem h hash_Algorithms) errInvalidHashAlgorithm in
      let offset := S offset in
      let! _ := ensure (negb (length data <=? offset)%nat) errBufferTooSmall in
      let! s := idx offset data in
      let! _ := ensure (mem s signature_Algorithms) errInvalidSignatureAlgorithm in
      let offset := S offset in
      let! _ := ensure (negb (length data <? offset + 2)%nat) errBufferTooSmall in
      let! l := u16_at offset data in
      let offset := (offset + 2)%nat in
      let! _ := ensure (negb (length data <? offset + Z.to_nat l)%nat) errBufferTooSmall in
      let! sg := sub offset (offset + Z.to_nat l) data in
      Ok (mkServerKeyExchange hint ct curve key h s sg).

(** [2+hintLength] is computed in 16 bits. *)
Definition ServerKeyExchange_Unmarshal (kx : Z) (data : bytes) : res derr MessageServerKeyExchange :=
  let! _ := ensure (negb (length data <? 2)%nat) errBufferTooSmall in
  let! _ := ensure (negb (kx =? KeyExchangeAlgorithmNone)%Z) errCipherSuiteUnset in
  let! hintLength := u16_at 0 data in
  let! (hint, data) :=
    (if (Z.to_nat hintLength <=? length data - 2)%nat && Has kx KeyExchangeAlgorithmPsk then
       let! h := sub 2 (Z.to_nat (u16 (2 + hintLength))) data in
       let! d := from (Z.to_nat (u16 (2 + hintLength))) data in
       Ok (Some h, d)
     else Ok (None, data)) in
  ServerKeyExchange_rest kx hint data.

(** *** Certificate request *)

Record MessageCertificateRequest := mkCertificateRequest {
  cr_CertificateTypes : list Z;
  cr_SignatureHashAlgorithms : list (Z * Z);   (* hash, signature *)
  cr_Names : list bytes
}.

Definition clientcertificate_Types : list Z := [1; 64]%Z.

Definition cas_length (names : list bytes) : nat :=
  foldl (fun n ca => n + (length ca + 2))%nat 0%nat names.

Definition CertificateRequest_Marshal (m : MessageCertificateRequest) : bytes :=
  let casLength := cas_length (cr_Names m) in
  [z2b (Z.of_nat (length (cr_CertificateTypes m)))] ++ map z2b (cr_CertificateTypes m)
  ++ be_put 2 (Z.of_nat (length (cr_SignatureHashAlgorithms m) * 2))
  ++ concat (map (fun v => [z2b (fst v); z2b (snd v)]) (cr_SignatureHashAlgorithms m))
  ++ be_put 2 (Z.of_nat casLength)
  ++ (if (0 <? casLength)%nat then
        concat (map (fun ca => be_put 2 (Z.of_nat (length ca)) ++ ca) (cr_Names m))
      else []).

(** [for i := 0; i < n; i += 2]: the turn [k] has [i = 2k]. *)
Definition sigalgs_loop (n offset : nat) (data : bytes) : res derr (list (Z * Z)) :=
  read_loop ((n + 1) / 2) 0 (fun k =>
    let i := (2 * k)%nat in
    let! _ := ensure (negb (length data <? offset + i + 2)%nat) errBufferTooSmall in
    let! h := idx (offset + i) data in
    let! s := idx (offset + i + 1) data in
    Ok (if negb (mem h hash_Algorithms) then None
        else if negb (mem s signature_Algorithms) then None
        else Some (h, s))).

Fixpoint cas_loop (fuel : nat) (cas : bytes) (acc : list bytes) : res derr (list bytes) :=
  if is_nil cas then Ok acc
  else match fuel with
  | O => Err Diverges
  | S fuel' =>
      let! _ := ensure (negb (length cas <? 2)%nat) errBufferTooSmall in
      let! caLen := u16_at 0 cas in
      let! cas := from 2 cas in
      let! _ := ensure (negb (length cas <? Z.to_nat caLen)%nat) errBufferTooSmall in
      let! ca := sub 0 (Z.to_nat caLen) cas in
      let! cas := from (Z.to_nat caLen) cas in
      cas_loop fuel' cas (acc ++ [ca])
  end.

Definition CertificateRequest_Unmarshal (data : bytes) : res derr MessageCertificateRequest :=
  let! _ := ensure (negb (length data <? 5)%nat) errBufferTooSmall in
  let! n := idx 0 data in
  let offset := 1%nat in
  let! _ := ensure (negb (length data <? offset + Z.to_nat n)%nat) errBufferTooSmall in
  let! types := read_loop (Z.to_nat n) 0 (fun i =>
      let! t := idx (offset + i) data in
      Ok (if mem t clientcertificate_Types then Some t else None)) in
  let offset := (offset + Z.to_nat n)%nat in
  let! _ := ensure (negb (length data <? offset + 2)%nat) errBufferTooSmall in
  let! l := u16_at offset data in
  let offset := (offset + 2)%nat in
  let! _ := ensure (negb (length data <? offset + Z.to_nat l)%nat) errBufferTooSmall in
  let! algs := sigalgs_loop (Z.to_nat l) offset data in
  let offset := (offset + Z.to_nat l)%nat in
  let! _ := ensure (negb (length data <? offset + 2)%nat) errBufferTooSmall in
  let! casLength := u16_at offset data in
  let offset := (offset + 2)%nat in
  let! _ := ensure (negb (length data <? offset + Z.to_nat casLength)%nat) errBufferTooSmall in
  let! cas := sub offset (offset + Z.to_nat casLength) data in
  let! names := cas_loop (length cas) cas [] in
  Ok (mkCertificateRequest types algs names).

(** ** The handshake header *)

Definition TypeHelloRequest : Z := 0.
Definition TypeClientHello : Z := 1.
Definition TypeServerHello : Z := 2.
Definition TypeHelloVerifyRequest : Z := 3.
Definition TypeCertificate : Z := 11.
Definition TypeServerKeyExchange : Z := 12.
Definition TypeCertificateRequest : Z := 13.
Definition TypeServerHelloDone : Z := 14.
Definition TypeCertificateVerify : Z := 15.
Definition TypeClientKeyExchange : Z := 16.
Definition TypeFinished : Z := 20.

Definition HeaderLength : nat := 12.

Record HsHeader := mkHsHeader {
  hs_Type : Z;
  hs_Length : Z;
  MessageSequence : Z;
  FragmentOffset : Z;
  FragmentLength : Z
}.

(** The writes into the 12 bytes of the buffer, from left to right. *)
Definition HsHeader_Marshal (h : HsHeader) : bytes :=
  let out := replicate HeaderLength (z2b 0) in
  let out := splice 0 [z2b (hs_Type h)] out in
  let out := take 1 out ++ PutBigEndianUint24 (drop 1 out) (hs_Length h) in
  let out := splice 4 (be_put 2 (MessageSequence h)) out in
  let out := take 6 out ++ PutBigEndianUint24 (drop 6 out) (FragmentOffset h) in
  take 9 out ++ PutBigEndianUint24 (drop 9 out) (FragmentLength h).

Definition HsHeader_Unmarshal (data : bytes) : res derr HsHeader :=
  let! _ := ensure (negb (length data <? HeaderLength)%nat) errBufferTooSmall in
  let! t := idx 0 data in
  let! l := from 1 data in
  let! s := u16_at 4 data in
  let! o := from 6 data in
  let! f := from 9 data in
  Ok (mkHsHeader t (BigEndianUint24 l) s (BigEndianUint24 o) (BigEndianUint24 f)).

(** ** The handshake content *)

Inductive Message :=
  | MClientHello (m : MessageClientHello)
  | MServerHello (m : MessageServerHello)
  | MHelloVerifyRequest (m : MessageHelloVerifyRequest)
  | MCertificate (m : MessageCertificate)
  | MServerKeyExchange (m : MessageServerKeyExchange)
  | MCertificateRequest (m : MessageCertificateRequest)
  | MServerHelloDone
  | MCertificateVerify (m : MessageCertificateVerify)
  | MClientKeyExchange (m : MessageClientKeyExchange)
  | MFinished (m : MessageFinished).

Definition Message_Type (m : Message) : Z :=
  match m with
  | MClientHello _ => TypeClientHello
  | MServerHello _ => TypeServerHello
  | MHelloVerifyRequest _ => TypeHelloVerifyRequest
  | MCertificate _ => TypeCertificate
  | MServerKeyExchange _ => TypeServerKeyExchange
  | MCertificateRequest _ => TypeCertificateRequest
  | MServerHelloDone => TypeServerHelloDone
  | MCertificateVerify _ => TypeCertificateVerify
  | MClientKeyExchange _ => TypeClientKeyExchange
  | MFinished _ => TypeFinished
  end.

Definition Message_Marshal `{Cryptobyte} (m : Message) : res derr bytes :=
  match m with
  | MClientHello m => ClientHello_Marshal m
  | MServerHello m => ServerHello_Marshal m
  | MHelloVerifyRequest m => HelloVerifyRequest_Marshal m
  | MCertificate m => Ok (Certificate_Marshal m)
  | MServerKeyExchange m => ServerKeyExchange_Marshal m
  | MCertificateRequest m => Ok (CertificateRequest_Marshal m)
  | MServerHelloDone => Ok ServerHelloDone_Marshal
  | MCertificateVerify m => Ok (CertificateVerify_Marshal m)
  | MClientKeyExchange m => ClientKeyExchange_Marshal m
  | MFinished m => Ok (Finished_Marshal m)
  end.

(** The switch of [Handshake.Unmarshal] over the type byte. *)
Definition Message_Unmarshal `{Cryptobyte} (kx ty : Z) (body : bytes) : res derr Message :=
  if (ty =? TypeHelloRequest)%Z then Err errNotImplemented
  else if (ty =? TypeClientHello)%Z then let! m := ClientHello_Unmarshal body in Ok (MClientHello m)
  else if (ty =? TypeHelloVerifyRequest)%Z then
    let! m := HelloVerifyRequest_Unmarshal body in Ok (MHelloVerifyRequest m)
  else if (ty =? TypeServerHello)%Z then let! m := ServerHello_Unmarshal body in Ok (MServerHello m)
  else if (ty =? TypeCertificate)%Z then let! m := Certificate_Unmarshal body in Ok (MCertificate m)
  else if (ty =? TypeServerKeyExchange)%Z then
    let! m := ServerKeyExchange_Unmarshal kx body in Ok (MServerKeyExchange m)
  else if (ty =? TypeCertificateRequest)%Z then
    let! m := CertificateRequest_Unmarshal body in Ok (MCertificateRequest m)
  else if (ty =? TypeServerHelloDone)%Z then
    let! _ := ServerHelloDone_Unmarshal body in Ok MServerHelloDone
  else if (ty =? TypeClientKeyExchange)%Z then
    let! m := ClientKeyExchange_Unmarshal kx body in Ok (MClientKeyExchange m)
  else if (ty =? TypeFinished)%Z then let! m := Finished_Unmarshal body in Ok (MFinished m)
  else if (ty =? TypeCertificateVerify)%Z then
    let! m := CertificateVerify_Unmarshal body in Ok (MCertificateVerify m)
  else Err errNotImplemented.

Record Handshake := mkHandshake {
  hsk_Header : HsHeader;
  hsk_Message : option Message;
  hsk_KeyExchangeAlgorithm : Z
}.

(** [Marshal] fills in the length, fragment length and type of the header;
    the result is the header it leaves behind and the bytes. *)
Definition Handshake_Marshal `{Cryptobyte} (h : Handshake) : res derr (HsHeader * bytes) :=
  match hsk_Message h with
  | None => Err errHandshakeMessageUnset
  | Some m =>
      if negb (FragmentOffset (hsk_Header h) =? 0)%Z then Err errUnableToMarshalFragmented
      else
        let! msg := Message_Marshal m in
        let l := u32 (Z.of_nat (length msg)) in
        let hd := mkHsHeader (Message_Type m) l (MessageSequence (hsk_Header h))
                    (FragmentOffset (hsk_Header h)) l in
        Ok (hd, HsHeader_Marshal hd ++ msg)
  end.

Definition Handshake_Unmarshal `{Cryptobyte} (kx : Z) (data : bytes) : res derr Handshake :=
  let! hd := HsHeader_Unmarshal data in
  let! tl := from 1 data in
  let reportedLen := BigEndianUint24 tl in
  let! _ := ensure (u32 (Z.of_nat (length data - HeaderLength)) =? reportedLen)%Z errLengthMismatch in
  let! _ := ensure (reportedLen =? FragmentLength hd)%Z errLengthMismatch in
  let! ty := idx 0 data in
  let! body := from HeaderLength data in
  let! m := Message_Unmarshal kx ty body in
  Ok (mkHandshake hd (Some m) kx).

(** ** Records *)

(** The interface [protocol.Content]. *)
Inductive Content :=
  | CChangeCipherSpec
  | CAlert (a : Alert)
  | CHandshake (h : Handshake)
  | CApplicationData (a : ApplicationData).

Definition Content_Type (c : Content) : Z :=
  match c with
  | CChangeCipherSpec => ContentTypeChangeCipherSpec
  | CAlert _ => ContentTypeAlert
  | CHandshake _ => ContentTypeHandshake
  | CApplicationData _ => ContentTypeApplicationData
  end.

Definition Content_Marshal `{Cryptobyte} (c : Content) : res derr bytes :=
  match c with
  | CChangeCipherSpec => Ok ChangeCipherSpec_Marshal
  | CAlert a => Ok (Alert_Marshal a)
  | CHandshake h => let! (_, b) := Handshake_Marshal h in Ok b
  | CApplicationData a => Ok (ApplicationData_Marshal a)
  end.

Record RecordLayer := mkRecord { r_Header : Header; r_Content : Content }.

Definition RecordLayer_Marshal `{Cryptobyte} (r : RecordLayer) : res derr bytes :=
  let! contentRaw := Content_Marshal (r_Content r) in
  let h := r_Header r in
  let! headerRaw := Header_Marshal
      (mkHeader (Content_Type (r_Content r)) (u16 (Z.of_nat (length contentRaw)))
        (HVersion h) (Epoch h) (SequenceNumber h) (ConnectionID h)) in
  Ok (headerRaw ++ contentRaw).

(** [h0] is the header of the receiver before the call.  The content starts
    at [Size()+len(ConnectionID)], where [Size] counts the identifier too. *)
Definition RecordLayer_Unmarshal `{Cryptobyte} (h0 : Header) (data : bytes) : res derr RecordLayer :=
  let! h := Header_Unmarshal h0 data in
  let body := from (Header_Size h + length (ConnectionID h)) data in
  let ct := ContentType h in
  if (ct =? ContentTypeChangeCipherSpec)%Z then
    let! b := body in let! _ := ChangeCipherSpec_Unmarshal b in Ok (mkRecord h CChangeCipherSpec)
  else if (ct =? ContentTypeAlert)%Z then
    let! b := body in let! a := Alert_Unmarshal b in Ok (mkRecord h (CAlert a))
  else if (ct =? ContentTypeHandshake)%Z then
    let! b := body in let! hs := Handshake_Unmarshal 0 b in Ok (mkRecord h (CHandshake hs))
  else if (ct =? ContentTypeApplicationData)%Z then
    let! b := body in let! a := ApplicationData_Unmarshal b in Ok (mkRecord h (CApplicationData a))
  else Err errInvalidContentType.

(** ** Decoding never panics without pre-shared keys *)

Lemma opaque8_len off data l :
  opaque8 off data = Ok l -> (off + length l < length data)%nat.
Proof.
  unfold opaque8. destruct (_ <=? off)%nat; [done|]. cbn [negb ensure res_bind].
  destruct (idx _ _) as [n|]; [|done]. cbn [res_bind].
  destruct (Nat.leb_spec (length data) (off + Z.to_nat n)); [done|]. cbn [negb ensure res_bind].
  rewrite sub_ok by lia. intros [= <-]. rewrite length_slice by lia. lia.
Qed.

Lemma safe_opaque8 off data : (1 <= off)%nat -> safe (opaque8 off data).
Proof. intros. unfold opaque8. safe_steps. Qed.

Lemma from_length i data l : from i data = Ok l -> length l = (length data - i)%nat.
Proof. unfold from. case_decide; [|done]. intros [= <-]. len. Qed.

Lemma safe_decodeCipherSuiteIDs buf : safe (decodeCipherSuiteIDs buf).
Proof. unfold decodeCipherSuiteIDs. safe_steps. apply safe_read_loop. intros. safe_steps. Qed.

(** The first turn that fails decides; what passes saw enough bytes. *)
Lemma read_loop_last {A} n i (f : nat -> res derr (option A)) l :
  read_loop (S n) i f = Ok l -> exists v, f (i + n)%nat = Ok v.
Proof.
  revert i l. induction n as [|n IH]; intros i l.
  - cbn [read_loop]. rewrite Nat.add_0_r. destruct (f i) as [v|]; [eauto|done].
  - cbn [read_loop]. destruct (f i); [|done]. cbn [res_bind].
    intros H. destruct (read_loop (S n) (S i) f) as [l'|] eqn:E.
    + apply IH in E as [v Hv]. exists v. by rewrite Nat.add_succ_r.
    + cbn [read_loop] in E. rewrite E in H. done.
Qed.

Lemma DecodeCompressionMethods_len buf l n :
  DecodeCompressionMethods buf = Ok l -> idx 0 buf = Ok n -> (Z.to_nat n + 1 <= length buf)%nat.
Proof.
  unfold DecodeCompressionMethods. intros H Hn. rewrite Hn in H.
  destruct (Nat.ltb_spec (length buf) 1); [done|]. cbn [negb ensure res_bind] in H.
  destruct (Z.to_nat n) as [|k]; [lia|]. apply read_loop_last in H as [v Hv].
  rewrite Nat.add_0_l in Hv.
  destruct (Nat.leb_spec (length buf) (k + 1)); [done|]. lia.
Qed.

Lemma safe_DecodeCompressionMethods buf : safe (DecodeCompressionMethods buf).
Proof. unfold DecodeCompressionMethods. safe_steps. apply safe_read_loop. intros. safe_steps. Qed.

Lemma idx_0_from off data l n : from off data = Ok l -> idx off data = Ok n -> idx 0 l = Ok n.
Proof.
  unfold from, idx. case_decide; [|done]. intros [= <-]. by rewrite lookup_drop, Nat.add_0_r.
Qed.

Lemma safe_certificate_loop fuel data i acc :
  (length data <= i + fuel)%nat -> safe (certificate_loop fuel data i acc).
Proof.
  revert i acc. induction fuel as [|fuel IH]; intros i acc Hf; cbn [certificate_loop];
    destruct (Nat.ltb_spec i (length data)); cbn [negb]; try done; [lia|].
  safe_steps. apply IH. lia.
Qed.

Lemma safe_cas_loop fuel cas acc : (length cas <= fuel)%nat -> safe (cas_loop fuel cas acc).
Proof.
  revert cas acc. induction fuel as [|fuel IH]; intros cas acc Hf; cbn [cas_loop].
  - destruct cas; simpl in Hf; [done|lia].
  - safe_steps. apply IH.
    repeat match goal with H : from _ _ = Ok _ |- _ => apply from_length in H end. guards. lia.
Qed.

Section safety.
Context `{Cryptobyte}.

Lemma safe_ClientHello data : safe (ClientHello_Unmarshal data).
Proof.
  unfold ClientHello_Unmarshal, RandomLength, RandomBytesLength, hello_VariableWidthStart.
  safe_steps; auto using safe_decodeCipherSuiteIDs, safe_DecodeCompressionMethods;
    try (apply safe_opaque8; lia); try apply extensions_never_panic.
  - (* data[currOffset] *)
    apply safe_idx. guards.
    match goal with H : from _ data = Ok ?l, H' : DecodeCompressionMethods ?l = Ok _ |- _ =>
      apply from_length in H; unfold DecodeCompressionMethods in H';
      destruct (Nat.ltb_spec (length l) 1); [done|] end. lia.
  - (* data[currOffset:] *)
    apply safe_from.
    match goal with H : from ?o data = Ok ?l, H' : DecodeCompressionMethods ?l = Ok _,
      Hi : idx ?o data = Ok ?n |- _ =>
      pose proof (DecodeCompressionMethods_len _ _ _ H' (idx_0_from _ _ _ _ H Hi));
      apply from_length in H end. guards. lia.
Qed.

Lemma safe_ServerHello data : safe (ServerHello_Unmarshal data).
Proof.
  unfold ServerHello_Unmarshal, RandomLength, RandomBytesLength, hello_VariableWidthStart.
  safe_steps; try (apply safe_opaque8; lia); apply extensions_never_panic.
Qed.

Lemma safe_CertificateRequest data : safe (CertificateRequest_Unmarshal data).
Proof.
  unfold CertificateRequest_Unmarshal, sigalgs_loop. safe_steps;
    try (apply safe_read_loop; intros; safe_steps). apply safe_cas_loop. lia.
Qed.
End safety.

#[local] Arguments be_put : simpl never.

(** ** The handshake header *)

Definition hs_header_bytes (h : HsHeader) : bytes :=
  [z2b (hs_Type h)] ++ be_put 3 (hs_Length h) ++ be_put 2 (MessageSequence h)
  ++ be_put 3 (FragmentOffset h) ++ be_put 3 (FragmentLength h).

Lemma length_hs_header_bytes h : length (hs_header_bytes h) = 12%nat.
Proof. unfold hs_header_bytes. len. Qed.

(** Storing a 24-bit integer behind a prefix of the buffer. *)
Lemma put24_at pre rest k v :
  k = length pre -> (3 <= length rest)%nat ->
  take k (pre ++ rest) ++ PutBigEndianUint24 (drop k (pre ++ rest)) v
    = (pre ++ be_put 3 v) ++ drop 3 rest.
Proof.
  intros -> H. rewrite take_app_length, drop_app_length, PutBigEndianUint24_eq by done.
  by rewrite app_assoc.
Qed.

Lemma HsHeader_Marshal_eq h : HsHeader_Marshal h = hs_header_bytes h.
Proof.
  unfold HsHeader_Marshal, HeaderLength.
  rewrite splice_app_0 by (simpl; lia). cbn [length].
  change (drop 1 (replicate 12 (z2b 0))) with (replicate 11 (z2b 0)).
  rewrite (put24_at [z2b (hs_Type h)]) by (simpl; lia).
  change (drop 3 (replicate 11 (z2b 0))) with (replicate 8 (z2b 0)).
  rewrite splice_at by (len; simpl; lia). rewrite length_be_put.
  change (drop 2 (replicate 8 (z2b 0))) with (replicate 6 (z2b 0)).
  rewrite (put24_at (_ ++ _) _ 6) by (len; simpl; lia).
  change (drop 3 (replicate 6 (z2b 0))) with (replicate 3 (z2b 0)).
  rewrite put24_at by (len; simpl; lia). simpl drop.
  rewrite app_nil_r. unfold hs_header_bytes. by rewrite <- !app_assoc.
Qed.

Record hs_header_wf (h : HsHeader) : Prop := {
  hhw_type : (0 <= hs_Type h < 256)%Z;
  hhw_len : (0 <= hs_Length h < 2 ^ 24)%Z;
  hhw_seq : (0 <= MessageSequence h < 65536)%Z;
  hhw_off : (0 <= FragmentOffset h < 2 ^ 24)%Z;
  hhw_flen : (0 <= FragmentLength h < 2 ^ 24)%Z
}.

Lemma HsHeader_roundtrip h rest :
  hs_header_wf h -> HsHeader_Unmarshal (hs_header_bytes h ++ rest) = Ok h.
Proof.
  intros [Ht Hl Hs Ho Hf]. set (data := _ ++ rest).
  assert (Hd : length data = (12 + length rest)%nat)
    by (unfold data; rewrite length_app, length_hs_header_bytes; done).
  pose proof (At_start data) as H0. unfold data at 2, hs_header_bytes in H0.
  rewrite <- !app_assoc in H0. cbn [app] in H0.
  pose proof (At_next _ 1 _ _ _ H0 eq_refl) as H1.
  pose proof (At_skip _ 4 _ _ _ H1 ltac:(len)) as H4.
  pose proof (At_skip _ 6 _ _ _ H4 ltac:(len)) as H6.
  pose proof (At_skip _ 9 _ _ _ H6 ltac:(len)) as H9.
  unfold HsHeader_Unmarshal, HeaderLength. rewrite Hd.
  rewrite (proj2 (Nat.ltb_ge _ _)) by lia. cbn [negb ensure res_bind].
  rewrite (At_idx _ _ _ _ H0), b2z_z2b_small by lia. cbn [res_bind].
  rewrite (At_from _ _ _ H1), (At_u16 _ _ _ _ H4), Z.mod_small by lia. cbn [res_bind].
  rewrite (At_from _ _ _ H6), (At_from _ _ _ H9). cbn [res_bind].
  rewrite !BigEndianUint24_app by apply length_be_put.
  rewrite !be_get_put_small by (simpl; lia). by destruct h.
Qed.

(** A message behind a header that announces it. *)
Lemma Handshake_Unmarshal_body `{Cryptobyte} kx ty seq body :
  (0 <= ty < 256)%Z -> (0 <= seq < 65536)%Z -> (Z.of_nat (length body) < 2 ^ 24)%Z ->
  let hd := mkHsHeader ty (Z.of_nat (length body)) seq 0 (Z.of_nat (length body)) in
  Handshake_Unmarshal kx (hs_header_bytes hd ++ body) =
    (let! m := Message_Unmarshal kx ty body in Ok (mkHandshake hd (Some m) kx)).
Proof.
  intros Ht Hs Hb hd. unfold Handshake_Unmarshal.
  rewrite HsHeader_roundtrip by (split; simpl; lia). cbn [res_bind].
  set (data := _ ++ body). pose proof (At_start data) as H0.
  unfold data at 2 in H0. pose proof (At_skip _ 12 _ _ _ H0 (length_hs_header_bytes hd)) as H12.
  unfold hs_header_bytes in H0. rewrite <- !app_assoc in H0. cbn [app] in H0.
  pose proof (At_next _ 1 _ _ _ H0 eq_refl) as H1.
  rewrite (At_from _ _ _ H1). cbn [res_bind].
  rewrite BigEndianUint24_app by apply length_be_put. rewrite be_get_put_small by (simpl; lia).
  assert (Hd : (length data - HeaderLength)%nat = length body).
  { unfold data. rewrite length_app, length_hs_header_bytes. unfold HeaderLength. lia. }
  rewrite Hd, wrap_small by lia. subst hd. cbn [FragmentLength hs_Length hs_Type].
  rewrite Z.eqb_refl. cbn [ensure res_bind].
  rewrite (At_idx _ _ _ _ H0). unfold HeaderLength. rewrite (At_from _ _ _ H12).
  cbn [res_bind hs_Type]. by rewrite b2z_z2b_small by lia.
Qed.

Lemma safe_HsHeader data : safe (HsHeader_Unmarshal data).
Proof. unfold HsHeader_Unmarshal, HeaderLength. safe_steps. Qed.

Lemma HsHeader_Unmarshal_len data h : HsHeader_Unmarshal data = Ok h -> (12 <= length data)%nat.
Proof.
  unfold HsHeader_Unmarshal, HeaderLength. destruct (Nat.ltb_spec (length data) 12); [done|lia].
Qed.

Lemma safe_ServerKeyExchange kx data :
  Has kx KeyExchangeAlgorithmPsk = false -> safe (ServerKeyExchange_Unmarshal kx data).
Proof.
  intros Hk. unfold ServerKeyExchange_Unmarshal, ServerKeyExchange_rest. rewrite Hk.
  safe_step; safe_step. apply safe_bind; [safe_step|intros l _].
  rewrite andb_false_r. cbn [res_bind].
  safe_steps.
Qed.

Lemma safe_ClientKeyExchange kx data :
  Has kx KeyExchangeAlgorithmPsk = false \/ Has kx KeyExchangeAlgorithmEcdhe = false ->
  safe (ClientKeyExchange_Unmarshal kx data).
Proof.
  intros [Hk|Hk]; unfold ClientKeyExchange_Unmarshal; rewrite Hk.
  - safe_step; safe_step. cbn [res_bind]. safe_steps.
  - safe_steps.
Qed.

Lemma safe_Message `{Cryptobyte} kx ty body :
  Has kx KeyExchangeAlgorithmPsk = false -> safe (Message_Unmarshal kx ty body).
Proof.
  intros Hk. unfold Message_Unmarshal, HelloVerifyRequest_Unmarshal, Certificate_Unmarshal,
    CertificateVerify_Unmarshal, Finished_Unmarshal, ServerHelloDone_Unmarshal.
  safe_steps; auto using safe_ClientHello, safe_ServerHello, safe_CertificateRequest,
    safe_ServerKeyExchange, safe_ClientKeyExchange.
  apply safe_certificate_loop. lia.
Qed.

(** C37: With a cipher suite that uses no pre-shared key, no sequence of bytes
    makes the handshake decoder panic or loop, whatever message it claims to
    be. *)
Theorem handshake_decode_safe `{Cryptobyte} kx data :
  Has kx KeyExchangeAlgorithmPsk = false -> safe (Handshake_Unmarshal kx data).
Proof.
  intros Hk. unfold Handshake_Unmarshal. apply safe_bind; [apply safe_HsHeader|].
  intros hd Hhd. apply HsHeader_Unmarshal_len in Hhd. unfold HeaderLength.
  safe_steps. by apply safe_Message.
Qed.

Lemma handshake_decode_safe_witness :
  safe (@Handshake_Unmarshal cryptobyte_ref KeyExchangeAlgorithmEcdhe
    (map z2b [16; 0; 0; 2; 0; 0; 0; 0; 0; 0; 0; 2; 0; 0]%Z)).
Proof. apply handshake_decode_safe. reflexivity. Defined.

(** With the ECDHE-PSK key exchange a peer stops the program with one
    message.  A client key exchange whose identity fills the message makes the
    decoder read the length of the missing public key; a server key exchange
    whose hint fills the message makes it read the missing curve type; and a
    hint of 65534 bytes makes [2+hintLength] wrap to 0 in 16 bits, so that the
    slice [data[2:0]] is out of range with any suite that has pre-shared
    keys. *)
Theorem key_exchange_panics `{Cryptobyte} seq identity :
  (0 <= seq < 65536)%Z -> (Z.of_nat (length identity) < 65534)%Z ->
  let kx := Z.lor KeyExchangeAlgorithmPsk KeyExchangeAlgorithmEcdhe in
  let body := be_put 2 (Z.of_nat (length identity)) ++ identity in
  let wire ty b := hs_header_bytes
    (mkHsHeader ty (Z.of_nat (length b)) seq 0 (Z.of_nat (length b))) ++ b in
  Handshake_Unmarshal kx (wire TypeClientKeyExchange body) = Err Panic /\
  Handshake_Unmarshal kx (wire TypeServerKeyExchange body) = Err Panic /\
  (forall kx' long rest, Has kx' KeyExchangeAlgorithmPsk = true -> kx' <> 0%Z ->
     length long = Z.to_nat 65534 -> (Z.of_nat (length rest) < 65536)%Z ->
     Handshake_Unmarshal kx' (wire TypeServerKeyExchange (be_put 2 65534 ++ long ++ rest)) = Err Panic).
Proof.
  intros Hs Hi kx body wire.
  assert (Hb : length body = (2 + length identity)%nat) by (unfold body; len).
  pose proof (At_start body) as H0. unfold body at 2 in H0.
  pose proof (At_skip _ 2 _ _ _ H0 ltac:(len)) as H2.
  assert (Hsub : sub 2 (length identity + 2) body = Ok identity).
  { apply (At_sub _ _ _ _ [] ltac:(by rewrite app_nil_r)). lia. }
  unfold wire. split_and!.
  - rewrite Handshake_Unmarshal_body by (unfold TypeClientKeyExchange; lia).
    change (Message_Unmarshal kx TypeClientKeyExchange body) with
      (let! m := ClientKeyExchange_Unmarshal kx body in Ok (MClientKeyExchange m)).
    unfold ClientKeyExchange_Unmarshal. rewrite Hb, (proj2 (Nat.ltb_ge _ _)) by lia.
    change (Has kx KeyExchangeAlgorithmPsk) with true.
    change (Has kx KeyExchangeAlgorithmEcdhe) with true. cbn [negb ensure res_bind].
    change (kx =? KeyExchangeAlgorithmNone)%Z with false. cbn [negb ensure res_bind].
    rewrite (At_u16 _ _ _ _ H0), Z.mod_small by lia. cbn [res_bind]. rewrite Nat2Z.id.
    rewrite (proj2 (Nat.ltb_ge _ _)) by lia. cbn [negb ensure res_bind]. rewrite Hsub.
    cbn [res_bind]. unfold idx. by rewrite lookup_ge_None_2 by lia.
  - rewrite Handshake_Unmarshal_body by (unfold TypeServerKeyExchange; lia).
    change (Message_Unmarshal kx TypeServerKeyExchange body) with
      (let! m := ServerKeyExchange_Unmarshal kx body in Ok (MServerKeyExchange m)).
    unfold ServerKeyExchange_Unmarshal. rewrite Hb, (proj2 (Nat.ltb_ge _ _)) by lia.
    change (Has kx KeyExchangeAlgorithmPsk) with true.
    change (Has kx KeyExchangeAlgorithmEcdhe) with true. cbn [negb ensure res_bind].
    change (kx =? KeyExchangeAlgorithmNone)%Z with false. cbn [negb ensure res_bind].
    rewrite (At_u16 _ _ _ _ H0), Z.mod_small by lia. cbn [res_bind]. rewrite Nat2Z.id.
    rewrite (proj2 (Nat.leb_le _ _)) by lia. rewrite wrap_small by lia. cbn [andb].
    replace (Z.to_nat (2 + Z.of_nat (length identity))) with (length identity + 2)%nat by lia.
    rewrite Hsub. cbn [res_bind]. rewrite from_ok by lia. cbn [res_bind].
    rewrite drop_ge by lia. done.
  - intros kx' long rest Hp Hz Hlong Hrest. set (b := be_put 2 65534 ++ long ++ rest).
    assert (Hl : length b = (2 + length long + length rest)%nat) by (unfold b; len).
    pose proof (At_start b) as B0. unfold b at 2 in B0.
    rewrite Handshake_Unmarshal_body by (unfold TypeServerKeyExchange; lia).
    change (Message_Unmarshal kx' TypeServerKeyExchange b) with
      (let! m := ServerKeyExchange_Unmarshal kx' b in Ok (MServerKeyExchange m)).
    unfold ServerKeyExchange_Unmarshal. rewrite Hl, (proj2 (Nat.ltb_ge _ _)) by lia.
    destruct (Z.eqb_spec kx' KeyExchangeAlgorithmNone); [done|]. cbn [negb ensure res_bind].
    rewrite (At_u16 _ _ _ _ B0), Hp. change (65534 mod 65536)%Z with 65534%Z. cbn [res_bind].
    rewrite (proj2 (Nat.leb_le _ _)) by lia. cbn [andb].
    change (Z.to_nat (u16 (2 + 65534))) with 0%nat. unfold sub. by rewrite decide_False by lia.
Qed.

Lemma key_exchange_panics_witness :
  @Handshake_Unmarshal cryptobyte_ref 6
    (map z2b [16; 0; 0; 3; 0; 5; 0; 0; 0; 0; 0; 3; 0; 1; 120]%Z) = Err Panic.
Proof. exact (proj1 (key_exchange_panics 5 [z2b 120] ltac:(lia) ltac:(simpl; lia))). Defined.

(** ** Round trip *)

Definition byte_range (z : Z) : Prop := (0 <= z < 256)%Z.
Definition u16_range (z : Z) : Prop := (0 <= z < 65536)%Z.

Definition version_wf (v : Version) : Prop := byte_range (Major v) /\ byte_range (Minor v).

Definition random_wf (r : Random) : Prop :=
  (0 <= GMTUnixTime r < 2 ^ 32)%Z /\ length (RandomBytes r) = 28%nat.

Lemma length_Random r : random_wf r -> length (Random_MarshalFixed r) = 32%nat.
Proof. intros [_ H]. unfold Random_MarshalFixed. len. Qed.

Lemma Random_roundtrip r rest :
  random_wf r -> Random_UnmarshalFixed (take RandomLength (Random_MarshalFixed r ++ rest)) = r.
Proof.
  intros Hr. rewrite take_app_length' by (by rewrite length_Random).
  destruct Hr as [Ht Hl]. unfold Random_UnmarshalFixed, Random_MarshalFixed.
  rewrite take_app_length' by len. rewrite drop_app_length' by len.
  rewrite be_get_put_small by (simpl; lia). by destruct r.
Qed.

(** Reading a block of at most 255 bytes behind its length, when something
    follows it. *)
Lemma opaque8_at i off data block rest :
  At i data (z2b (Z.of_nat (length block)) :: block ++ rest) -> off = S i ->
  (length block <= 255)%nat -> rest <> [] -> opaque8 off data = Ok block.
Proof.
  intros H -> Hb Hr. pose proof (At_len _ _ _ H) as Hl. pose proof (At_next _ _ _ _ _ H eq_refl) as H1.
  assert (0 < length rest)%nat by (destruct rest; simpl; [done|lia]).
  simpl length in Hl. rewrite length_app in Hl.
  unfold opaque8. rewrite (proj2 (Nat.leb_gt _ _)) by lia. cbn [negb ensure res_bind].
  replace (S i - 1)%nat with i by lia. rewrite (At_idx _ _ _ _ H), b2z_z2b_small by lia.
  cbn [res_bind]. rewrite Nat2Z.id, (proj2 (Nat.leb_gt _ _)) by lia. cbn [negb ensure res_bind].
  by apply (At_sub _ _ _ _ _ H1).
Qed.

Definition ids_wf (ids : list Z) : Prop :=
  Forall u16_range ids /\ (Z.of_nat (length ids) < 32768)%Z.

Lemma length_encodeCipherSuiteIDs ids : length (encodeCipherSuiteIDs ids) = (2 + length ids * 2)%nat.
Proof.
  unfold encodeCipherSuiteIDs. rewrite length_app, length_be_put.
  by rewrite (length_concat_map _ 2) by apply length_be_put.
Qed.

Lemma CipherSuiteIDs_roundtrip ids rest :
  ids_wf ids -> decodeCipherSuiteIDs (encodeCipherSuiteIDs ids ++ rest) = Ok ids.
Proof.
  intros [Hu Hn]. set (buf := _ ++ rest).
  assert (Hl : length buf = (2 + length ids * 2 + length rest)%nat)
    by (unfold buf; rewrite length_app, length_encodeCipherSuiteIDs; done).
  pose proof (At_start buf) as H0. unfold buf at 2, encodeCipherSuiteIDs in H0.
  rewrite <- app_assoc in H0. pose proof (At_skip _ 2 _ _ _ H0 ltac:(len)) as H2.
  unfold decodeCipherSuiteIDs. pass. rewrite (At_u16 _ _ _ _ H0). cbn [res_bind].
  rewrite (proj2 (half_count _)) by lia. apply read_loop_ok. intros j v Hv.
  destruct (At_nth (be_put 2) 2 ids 2 j ((0 + j) * 2 + 2) buf rest v H2) as [r Hr];
    [apply length_be_put|done|lia|].
  apply lookup_lt_Some in Hv as Hj. pass. rewrite (At_u16 _ _ _ _ Hr). cbn [res_bind].
  eapply Forall_lookup_1 in Hu; [|done]. unfold u16_range in Hu. by rewrite Z.mod_small.
Qed.

(** Only the null method exists, so the reversal of the encoder is not seen. *)
Definition methods_wf (c : list Z) : Prop :=
  Forall (fun m => m = compressionMethodNull) c /\ (length c <= 255)%nat.

Lemma length_EncodeCompressionMethods c : length (EncodeCompressionMethods c) = S (length c).
Proof. unfold EncodeCompressionMethods. rewrite length_app, length_map, length_rev. done. Qed.

Lemma methods_rev c : methods_wf c -> rev c = c.
Proof.
  intros [Hc _].
  assert (c = replicate (length c) compressionMethodNull) as ->
    by (induction Hc; simpl; congruence).
  generalize (length c) as n. clear. induction n as [|n IH]; [done|]. cbn [replicate rev].
  rewrite IH. by rewrite <- replicate_cons_app.
Qed.

Lemma CompressionMethods_roundtrip c rest :
  methods_wf c -> DecodeCompressionMethods (EncodeCompressionMethods c ++ rest) = Ok c.
Proof.
  intros Hc. unfold EncodeCompressionMethods. rewrite (methods_rev c Hc). destruct Hc as [Hu Hn].
  cbn [app]. set (buf := _ :: _ ++ rest).
  assert (Hl : length buf = (1 + length c + length rest)%nat)
    by (unfold buf; rewrite length_cons, length_app, length_map; done).
  pose proof (At_start buf) as H0. unfold buf at 2 in H0.
  pose proof (At_next _ 1 _ _ _ H0 eq_refl) as H1.
  unfold DecodeCompressionMethods. pass. rewrite (At_idx _ _ _ _ H0), b2z_z2b_small by lia.
  cbn [res_bind]. rewrite Nat2Z.id. apply read_loop_ok. intros j v Hv.
  assert (He : forall l : list Z, concat (map (fun x => [z2b x]) l) = map z2b l)
    by (intros l; induction l; simpl; congruence).
  rewrite <- He in H1.
  destruct (At_nth (fun x => [z2b x]) 1 c 1 j (0 + j + 1) buf rest v H1) as [r Hr];
    [done|done|lia|]. cbn [app] in Hr.
  apply lookup_lt_Some in Hv as Hj. pass. rewrite (At_idx _ _ _ _ Hr). cbn [res_bind].
  eapply Forall_lookup_1 in Hu; [|done]. simpl in Hu. by subst v.
Qed.

Section roundtrip.
Context `{Cryptobyte}.

Definition exts_wf (es : list Extension) : Prop :=
  Forall ext_wf es /\
  (forall out, exts_Marshal es = Ok out -> (length out <= 2 + Z.to_nat 65535)%nat).

(** A message that is written, and read back from what was written. *)
Definition msg_codec (kx : Z) (m : Message) : Prop :=
  exists body, Message_Marshal m = Ok body /\ Message_Unmarshal kx (Message_Type m) body = Ok m.

Lemma codec_ClientHello kx m :
  version_wf (ch_Version m) -> random_wf (ch_Random m) ->
  (length (ch_Cookie m) <= 255)%nat -> (length (ch_SessionID m) <= 255)%nat ->
  ids_wf (ch_CipherSuiteIDs m) -> methods_wf (ch_CompressionMethods m) ->
  exts_wf (ch_Extensions m) -> msg_codec kx (MClientHello m).
Proof.
  destruct m as [[ma mi] rnd cookie sid ids ms es]. cbn [ch_Version ch_Random ch_Cookie ch_SessionID
    ch_CipherSuiteIDs ch_CompressionMethods ch_Extensions].
  intros [Hma Hmi] Hrnd Hck Hsid Hids Hms [Hes Heslen]. unfold byte_range in *. simpl in Hma, Hmi.
  destruct (extensions_roundtrip es Hes) as (eb & Hm & Hu). specialize (Hu (Heslen _ Hm)).
  eexists. split.
  { unfold Message_Marshal, ClientHello_Marshal. cbn [ch_Version ch_Random ch_Cookie ch_SessionID
      ch_CipherSuiteIDs ch_CompressionMethods ch_Extensions].
    rewrite (proj2 (Nat.ltb_ge _ _)) by lia. cbv zeta. rewrite Hm. cbn [res_bind]. reflexivity. }
  rewrite <- !app_assoc. cbn [app]. set (data := _ :: _ :: _).
  change (Message_Unmarshal kx _ data) with
    (let! m := ClientHello_Unmarshal data in Ok (MClientHello m)).
  pose proof (At_start data) as A0. unfold data at 2 in A0. cbn [Major Minor] in A0.
  pose proof (At_next _ 1 _ _ _ A0 eq_refl) as A1.
  pose proof (At_next _ 2 _ _ _ A1 eq_refl) as A2.
  pose proof (At_skip _ 34 _ _ _ A2 ltac:(rewrite length_Random by done; lia)) as A34.
  pose proof (At_next _ 35 _ _ _ A34 eq_refl) as A35.
  pose proof (At_skip _ (35 + length sid) _ _ _ A35 ltac:(lia)) as As.
  pose proof (At_next _ (S (35 + length sid)) _ _ _ As eq_refl) as As1.
  pose proof (At_skip _ (S (35 + length sid) + length cookie) _ _ _ As1 ltac:(lia)) as Ac.
  set (off := (S (35 + length sid) + length cookie)%nat) in *.
  pose proof (At_skip _ (off + (length ids * 2 + 2)) _ _ _ Ac
    ltac:(rewrite length_encodeCipherSuiteIDs; lia)) as Am.
  pose proof (At_skip _ (off + (length ids * 2 + 2) + (length ms + 1)) _ _ _ Am
    ltac:(rewrite length_EncodeCompressionMethods; lia)) as Ae.
  pose proof (At_len _ _ _ A2) as Hl2. rewrite length_app, length_Random in Hl2 by done.
  pose proof (At_len _ _ _ Ac) as Hlc. rewrite length_app, length_encodeCipherSuiteIDs in Hlc.
  pose proof (At_len _ _ _ Am) as Hlm. rewrite length_app, length_EncodeCompressionMethods in Hlm.
  unfold ClientHello_Unmarshal. unfold RandomLength at 1. unfold RandomBytesLength, hello_VariableWidthStart.
  pass. rewrite (At_idx _ _ _ _ A0), (At_idx _ _ _ _ A1), (At_from _ _ _ A2). cbn [res_bind].
  rewrite (opaque8_at _ _ _ _ _ A34) by (done || lia). cbn [res_bind]. fold off.
  rewrite (opaque8_at _ _ _ _ _ As) by (done || lia). cbn [res_bind]. fold off.
  pass. rewrite (At_from _ _ _ Ac). cbn [res_bind]. rewrite CipherSuiteIDs_roundtrip by done.
  pass. pose proof (At_u16 off data (Z.of_nat (length ids * 2)) _
    ltac:(unfold encodeCipherSuiteIDs in Ac; rewrite <- app_assoc in Ac; exact Ac)) as Hu16.
  rewrite Hu16. destruct Hids as [_ Hn]. rewrite Z.mod_small by lia. cbn [res_bind].
  rewrite Nat2Z.id. pass. rewrite (At_from _ _ _ Am). cbn [res_bind].
  rewrite CompressionMethods_roundtrip by done. pass.
  unfold EncodeCompressionMethods in Am. cbn [app] in Am. rewrite (At_idx _ _ _ _ Am).
  destruct Hms as [_ Hmn]. rewrite b2z_z2b_small by lia. cbn [res_bind]. rewrite Nat2Z.id.
  rewrite (At_from _ _ _ Ae). cbn [res_bind]. rewrite Hu. cbn [res_bind].
  rewrite !b2z_z2b_small by lia. by rewrite Random_roundtrip by done.
Qed.

Lemma codec_ServerHello kx m suite :
  version_wf (sh_Version m) -> random_wf (sh_Random m) -> (length (sh_SessionID m) <= 255)%nat ->
  sh_CipherSuiteID m = Some suite -> u16_range suite ->
  sh_CompressionMethod m = Some compressionMethodNull ->
  exts_wf (sh_Extensions m) -> msg_codec kx (MServerHello m).
Proof.
  destruct m as [[ma mi] rnd sid cs cm es]. cbn [sh_Version sh_Random sh_SessionID
    sh_CipherSuiteID sh_CompressionMethod sh_Extensions].
  intros [Hma Hmi] Hrnd Hsid -> Hcs -> [Hes Heslen]. unfold byte_range, u16_range in *. simpl in Hma, Hmi.
  destruct (extensions_roundtrip es Hes) as (eb & Hm & Hu). specialize (Hu (Heslen _ Hm)).
  eexists. split.
  { unfold Message_Marshal, ServerHello_Marshal. cbn [sh_Version sh_Random sh_SessionID
      sh_CipherSuiteID sh_CompressionMethod sh_Extensions].
    cbv zeta. rewrite Hm. cbn [res_bind]. reflexivity. }
  rewrite <- !app_assoc. cbn [app]. set (data := _ :: _ :: _).
  change (Message_Unmarshal kx _ data) with
    (let! m := ServerHello_Unmarshal data in Ok (MServerHello m)).
  assert (Heb : (2 <= length eb)%nat).
  { unfold exts_Marshal in Hm. destruct (exts_concat es); [|done]. injection Hm as <-. len. }
  pose proof (At_start data) as A0. unfold data at 2 in A0. cbn [Major Minor] in A0.
  pose proof (At_next _ 1 _ _ _ A0 eq_refl) as A1.
  pose proof (At_next _ 2 _ _ _ A1 eq_refl) as A2.
  pose proof (At_skip _ 34 _ _ _ A2 ltac:(rewrite length_Random by done; lia)) as A34.
  pose proof (At_next _ 35 _ _ _ A34 eq_refl) as A35.
  pose proof (At_skip _ (35 + length sid) _ _ _ A35 ltac:(lia)) as As.
  pose proof (At_skip _ (35 + length sid + 2) _ _ _ As ltac:(len)) as Am.
  pose proof (At_next _ (S (35 + length sid + 2)) _ _ _ Am eq_refl) as Ae.
  pose proof (At_len _ _ _ A2) as Hl2. rewrite length_app, length_Random in Hl2 by done.
  pose proof (At_len _ _ _ Ae) as Hle.
  unfold ServerHello_Unmarshal. unfold RandomLength at 1. unfold RandomBytesLength, hello_VariableWidthStart.
  pass. rewrite (At_idx _ _ _ _ A0), (At_idx _ _ _ _ A1), (At_from _ _ _ A2). cbn [res_bind].
  rewrite (opaque8_at _ _ _ _ _ A34) by (done || lia). pass.
  rewrite (At_u16 _ _ _ _ As), Z.mod_small by lia. pass. rewrite (At_idx _ _ _ _ Am). pass.
  change (mem (b2z (z2b compressionMethodNull)) CompressionMethods) with true. pass.
  rewrite (At_from _ _ _ Ae). cbn [res_bind]. rewrite Hu. cbn [res_bind].
  rewrite !b2z_z2b_small by (lia || (unfold compressionMethodNull; lia)).
  by rewrite Random_roundtrip by done.
Qed.
Lemma codec_HelloVerify kx m :
  version_wf (hv_Version m) -> (length (hv_Cookie m) <= 255)%nat ->
  msg_codec kx (MHelloVerifyRequest m).
Proof.
  destruct m as [[ma mi] cookie]. cbn [hv_Version hv_Cookie]. intros [Hma Hmi] Hck.
  unfold byte_range in *. simpl in Hma, Hmi. eexists. split.
  { unfold Message_Marshal, HelloVerifyRequest_Marshal. cbn [hv_Cookie hv_Version Major Minor].
    rewrite (proj2 (Nat.ltb_ge _ _)) by lia. reflexivity. }
  cbn [app]. set (data := _ :: _).
  change (Message_Unmarshal kx _ data) with
    (let! m := HelloVerifyRequest_Unmarshal data in Ok (MHelloVerifyRequest m)).
  pose proof (At_start data) as A0. unfold data at 2 in A0.
  pose proof (At_next _ 1 _ _ _ A0 eq_refl) as A1.
  pose proof (At_next _ 2 _ _ _ A1 eq_refl) as A2.
  pose proof (At_next _ 3 _ _ _ A2 eq_refl) as A3.
  pose proof (At_len _ _ _ A3) as Hl. rewrite <- (app_nil_r cookie) in A3.
  unfold HelloVerifyRequest_Unmarshal. pass.
  rewrite (At_idx _ _ _ _ A0), (At_idx _ _ _ _ A1), (At_idx _ _ _ _ A2). pass.
  rewrite (b2z_z2b_small (Z.of_nat _)) by lia. rewrite Nat2Z.id. pass.
  rewrite (At_sub _ _ _ _ _ A3) by lia. pass. by rewrite !b2z_z2b_small by lia.
Qed.

(** The certificates of a message, each behind its length. *)
Definition certs_bytes (cs : list bytes) : bytes :=
  concat (map (fun r => be_put 3 (Z.of_nat (length r)) ++ r) cs).

Lemma Certificate_Marshal_eq cs :
  Certificate_Marshal (mkCertificate cs) = be_put 3 (Z.of_nat (length (certs_bytes cs))) ++ certs_bytes cs.
Proof.
  unfold Certificate_Marshal. cbn [Certificate].
  assert (He : concat (map (fun r => PutBigEndianUint24 (replicate 3 (z2b 0)) (Z.of_nat (length r)) ++ r) cs)
    = certs_bytes cs).
  { unfold certs_bytes. by f_equal. }
  rewrite He. rewrite PutBigEndianUint24_eq by (len; simpl; lia).
  by rewrite drop_app_length'.
Qed.

Lemma certificate_loop_ok cs fuel data i acc :
  At i data (certs_bytes cs) -> (Z.of_nat (length (certs_bytes cs)) < 2 ^ 24)%Z ->
  (length cs <= fuel)%nat -> certificate_loop fuel data i acc = Ok (acc ++ cs).
Proof.
  revert fuel i acc. induction cs as [|c cs IH]; intros fuel i acc Hat Hl Hf.
  - apply At_len in Hat. simpl in Hat.
    destruct fuel; simpl; rewrite (proj2 (Nat.ltb_ge _ _)) by lia; simpl; by rewrite app_nil_r.
  - destruct fuel as [|fuel]; [simpl in Hf; lia|].
    unfold certs_bytes in Hat, Hl. cbn [map concat] in Hat, Hl. fold (certs_bytes cs) in Hat, Hl.
    rewrite <- app_assoc in Hat. rewrite !length_app, length_be_put in Hl.
    pose proof (At_len _ _ _ Hat) as Hlen. rewrite !length_app, length_be_put in Hlen.
    pose proof (At_skip _ (i + 3) _ _ _ Hat ltac:(len)) as H3.
    pose proof (At_skip _ (i + 3 + length c) _ _ _ H3 ltac:(lia)) as H4.
    cbn [certificate_loop]. rewrite (proj2 (Nat.ltb_lt i _)) by lia. pass.
    rewrite (At_from _ _ _ Hat). cbn [res_bind]. cbv zeta.
    rewrite BigEndianUint24_app by apply length_be_put.
    rewrite be_get_put_small by (simpl; lia). rewrite Nat2Z.id. pass.
    rewrite (At_sub _ _ _ _ _ H3) by lia. cbn [res_bind].
    rewrite IH by (done || lia || (simpl in Hf; lia)). by rewrite <- app_assoc.
Qed.

Lemma length_certs cs : (length cs <= length (certs_bytes cs))%nat.
Proof. induction cs as [|c cs IH]; [done|]. unfold certs_bytes in *. simpl. len. Qed.

Lemma codec_Certificate kx m :
  (Z.of_nat (length (certs_bytes (Certificate m))) < 2 ^ 24)%Z -> msg_codec kx (MCertificate m).
Proof.
  destruct m as [cs]. cbn [Certificate]. intros Hl. eexists. split; [reflexivity|].
  rewrite Certificate_Marshal_eq. set (data := _ ++ _).
  change (Message_Unmarshal kx _ data) with
    (let! m := Certificate_Unmarshal data in Ok (MCertificate m)).
  pose proof (At_start data) as A0. unfold data at 2 in A0.
  pose proof (At_skip _ 3 _ _ _ A0 ltac:(len)) as A3. pose proof (At_len _ _ _ A3) as Hd.
  unfold Certificate_Unmarshal. pass. unfold data at 1.
  rewrite BigEndianUint24_app by apply length_be_put. rewrite be_get_put_small by (simpl; lia).
  rewrite (proj2 (Z.eqb_eq _ _)) by lia. pass. pose proof (length_certs cs).
  rewrite (certificate_loop_ok cs) by (done || lia). done.
Qed.

Lemma codec_CertificateVerify kx m :
  cv_Hash m ∈ hash_Algorithms -> cv_SignatureAlgorithm m ∈ signature_Algorithms ->
  u16_range (Z.of_nat (length (cv_Signature m))) -> msg_codec kx (MCertificateVerify m).
Proof.
  destruct m as [h s sg]. cbn [cv_Hash cv_SignatureAlgorithm cv_Signature]. intros Hh Hs Hsg.
  unfold u16_range in Hsg.
  eexists. split; [reflexivity|]. unfold CertificateVerify_Marshal.
  cbn [cv_Hash cv_SignatureAlgorithm cv_Signature app]. set (data := _ :: _).
  change (Message_Unmarshal kx _ data) with
    (let! m := CertificateVerify_Unmarshal data in Ok (MCertificateVerify m)).
  pose proof (At_start data) as A0. unfold data at 2 in A0.
  pose proof (At_next _ 1 _ _ _ A0 eq_refl) as A1.
  pose proof (At_next _ 2 _ _ _ A1 eq_refl) as A2.
  pose proof (At_skip _ 4 _ _ _ A2 ltac:(len)) as A4. pose proof (At_len _ _ _ A4) as Hd.
  assert (Hhr : (0 <= h < 256)%Z).
  { unfold hash_Algorithms in Hh. rewrite !elem_of_cons, elem_of_nil in Hh. lia. }
  assert (Hsr : (0 <= s < 256)%Z).
  { unfold signature_Algorithms in Hs. rewrite !elem_of_cons, elem_of_nil in Hs. lia. }
  unfold CertificateVerify_Unmarshal. pass.
  rewrite (At_idx _ _ _ _ A0), (At_idx _ _ _ _ A1), !b2z_z2b_small by lia. cbn [res_bind].
  unfold mem. rewrite (bool_decide_true (h ∈ _)), (bool_decide_true (s ∈ _)) by done. pass.
  rewrite (At_u16 _ _ _ _ A2), Z.mod_small by lia. cbn [res_bind].
  rewrite (proj2 (Z.eqb_eq _ _)) by lia. pass. by rewrite (At_from _ _ _ A4).
Qed.

Definition kx_PskEcdhe : Z := Z.lor KeyExchangeAlgorithmPsk KeyExchangeAlgorithmEcdhe.

Definition ClientKeyExchange_wf (kx : Z) (m : MessageClientKeyExchange) : Prop :=
  match ck_IdentityHint m, ck_PublicKey m with
  | Some h, None => kx = KeyExchangeAlgorithmPsk /\ u16_range (Z.of_nat (length h))
  | None, Some k => kx = KeyExchangeAlgorithmEcdhe /\ k <> [] /\ (length k <= 255)%nat
  | Some h, Some k => kx = kx_PskEcdhe /\ u16_range (Z.of_nat (length h)) /\ (length k <= 255)%nat
  | None, None => False
  end.

Lemma codec_ClientKeyExchange kx m :
  ClientKeyExchange_wf kx m -> msg_codec kx (MClientKeyExchange m).
Proof.
  destruct m as [[h|] [k|]]; unfold ClientKeyExchange_wf, u16_range; cbn [ck_IdentityHint ck_PublicKey].
  - intros (-> & Hh & Hk). eexists. split; [reflexivity|].
    cbn [ck_PublicKey]. rewrite <- app_assoc. cbn [app]. set (data := _ ++ _).
    change (Message_Unmarshal kx_PskEcdhe _ data) with
      (let! m := ClientKeyExchange_Unmarshal kx_PskEcdhe data in Ok (MClientKeyExchange m)).
    pose proof (At_start data) as A0. unfold data at 2 in A0.
    pose proof (At_skip _ 2 _ _ _ A0 ltac:(len)) as A2.
    pose proof (At_skip _ (length h + 2) _ _ _ A2 ltac:(lia)) as Ak.
    pose proof (At_next _ (length h + 2 + 1) _ _ _ Ak ltac:(lia)) as Ak1.
    pose proof (At_len _ _ _ Ak1) as Hd.
    unfold ClientKeyExchange_Unmarshal. change (kx_PskEcdhe =? KeyExchangeAlgorithmNone)%Z with false.
    change (Has kx_PskEcdhe KeyExchangeAlgorithmPsk) with true.
    change (Has kx_PskEcdhe KeyExchangeAlgorithmEcdhe) with true. pass.
    rewrite (At_u16 _ _ _ _ A0), Z.mod_small by lia. cbn [res_bind]. rewrite Nat2Z.id. pass.
    rewrite (At_sub _ _ _ _ _ A2) by lia. pass. rewrite (At_idx _ _ _ _ Ak), b2z_z2b_small by lia.
    cbn [res_bind]. rewrite (proj2 (Z.ltb_ge _ _)) by lia. pass. by rewrite (At_from _ _ _ Ak1).
  - intros (-> & Hh). eexists. split; [reflexivity|]. cbn [ck_PublicKey]. set (data := _ ++ _).
    change (Message_Unmarshal KeyExchangeAlgorithmPsk _ data) with
      (let! m := ClientKeyExchange_Unmarshal KeyExchangeAlgorithmPsk data in Ok (MClientKeyExchange m)).
    pose proof (At_start data) as A0. unfold data at 2 in A0. rewrite <- app_assoc in A0.
    pose proof (At_skip _ 2 _ _ _ A0 ltac:(len)) as A2. pose proof (At_len _ _ _ A2) as Hd.
    rewrite length_app in Hd.
    unfold ClientKeyExchange_Unmarshal.
    change (KeyExchangeAlgorithmPsk =? KeyExchangeAlgorithmNone)%Z with false.
    change (Has KeyExchangeAlgorithmPsk KeyExchangeAlgorithmPsk) with true.
    change (Has KeyExchangeAlgorithmPsk KeyExchangeAlgorithmEcdhe) with false. pass.
    rewrite (At_u16 _ _ _ _ A0), Z.mod_small by lia. cbn [res_bind]. rewrite Nat2Z.id. pass.
    by rewrite (At_sub _ _ _ _ _ A2) by lia.
  - intros (-> & Hne & Hk). eexists. split; [reflexivity|]. cbn [app ck_PublicKey]. set (data := _ :: _).
    change (Message_Unmarshal KeyExchangeAlgorithmEcdhe _ data) with
      (let! m := ClientKeyExchange_Unmarshal KeyExchangeAlgorithmEcdhe data in Ok (MClientKeyExchange m)).
    pose proof (At_start data) as A0. unfold data at 2 in A0.
    pose proof (At_next _ 1 _ _ _ A0 eq_refl) as A1. pose proof (At_len _ _ _ A1) as Hd.
    assert (0 < length k)%nat by (destruct k; simpl; [done|lia]).
    unfold ClientKeyExchange_Unmarshal.
    change (KeyExchangeAlgorithmEcdhe =? KeyExchangeAlgorithmNone)%Z with false.
    change (Has KeyExchangeAlgorithmEcdhe KeyExchangeAlgorithmPsk) with false.
    change (Has KeyExchangeAlgorithmEcdhe KeyExchangeAlgorithmEcdhe) with true. pass.
    rewrite (At_idx _ _ _ _ A0), b2z_z2b_small by lia.
    cbn [res_bind]. rewrite (proj2 (Z.ltb_ge _ _)) by lia. pass.
    change (0 + 1)%nat with 1%nat. by rewrite (At_from _ _ _ A1).
  - done.
Qed.

(** What follows the hint in a server key exchange with a curve: anonymous
    (no hash, no signature) or signed. *)
Definition curve_wf (m : MessageServerKeyExchange) : Prop :=
  sk_EllipticCurveType m = 3%Z /\ sk_NamedCurve m ∈ Curves /\
  sk_PublicKey m <> [] /\ (length (sk_PublicKey m) <= 255)%nat /\
  ((sk_Hash m = 0%Z /\ sk_SignatureAlgorithm m = 0%Z /\ sk_Signature m = []) \/
   (sk_Hash m ∈ hash_Algorithms /\ sk_Hash m <> 0%Z /\
    sk_SignatureAlgorithm m ∈ signature_Algorithms /\ sk_SignatureAlgorithm m <> 0%Z /\
    sk_Signature m <> [] /\ u16_range (Z.of_nat (length (sk_Signature m))))).

Definition ServerKeyExchange_wf (kx : Z) (m : MessageServerKeyExchange) : Prop :=
  match sk_IdentityHint m with
  | None => kx = KeyExchangeAlgorithmEcdhe /\ curve_wf m
  | Some h => (Z.of_nat (length h) < 65534)%Z /\
      ((kx = KeyExchangeAlgorithmPsk /\ m = mkServerKeyExchange (Some h) 0 0 [] 0 0 []) \/
       (kx = kx_PskEcdhe /\ curve_wf m))
  end.

(** The curve part of the encoding. *)
Definition curve_bytes (m : MessageServerKeyExchange) : bytes :=
  z2b (sk_EllipticCurveType m) :: be_put 2 (sk_NamedCurve m)
  ++ z2b (Z.of_nat (length (sk_PublicKey m))) :: sk_PublicKey m
  ++ (if is_nil (sk_Signature m) then []
      else z2b (sk_Hash m) :: z2b (sk_SignatureAlgorithm m)
           :: be_put 2 (Z.of_nat (length (sk_Signature m))) ++ sk_Signature m).

Lemma ServerKeyExchange_Marshal_curve m :
  curve_wf m ->
  ServerKeyExchange_Marshal m =
    Ok (match sk_IdentityHint m with
        | Some h => be_put 2 (Z.of_nat (length h)) ++ h
        | None => []
        end ++ curve_bytes m).
Proof.
  intros (Ht & _ & Hk & _ & Hs). unfold ServerKeyExchange_Marshal, curve_bytes. rewrite Ht.
  destruct (sk_PublicKey m) as [|b k] eqn:Ek; [done|]. cbn [Z.eqb is_nil orb].
  destruct Hs as [(-> & -> & ->)|(_ & Hh & _ & Hsa & Hsg & _)].
  - cbn. rewrite app_nil_r. done.
  - destruct (sk_Signature m) as [|c sg] eqn:Es; [done|]. cbn [is_nil negb andb].
    destruct (Z.eqb_spec (sk_Hash m) hash_None); [done|].
    destruct (Z.eqb_spec (sk_SignatureAlgorithm m) signature_Anonymous); [done|].
    cbn [negb andb orb app]. rewrite <- !app_assoc. cbn [app]. by rewrite <- !app_assoc.
Qed.

Lemma ServerKeyExchange_rest_ok kx m :
  Has kx KeyExchangeAlgorithmEcdhe = true -> kx <> KeyExchangeAlgorithmPsk -> curve_wf m ->
  ServerKeyExchange_rest kx (sk_IdentityHint m) (curve_bytes m) = Ok m.
Proof.
  destruct m as [hint ct c k h s sg]. intros Hh Hk. unfold curve_wf, curve_bytes, u16_range.
  cbn [sk_IdentityHint sk_EllipticCurveType sk_NamedCurve sk_PublicKey sk_Hash
    sk_SignatureAlgorithm sk_Signature].
  intros (-> & Hc & Hkne & Hkl & Hs). set (data := _ :: _).
  pose proof (At_start data) as A0. unfold data at 2 in A0.
  pose proof (At_next _ 1 _ _ _ A0 eq_refl) as A1.
  pose proof (At_skip _ 3 _ _ _ A1 ltac:(len)) as A3.
  pose proof (At_next _ 4 _ _ _ A3 eq_refl) as A4.
  pose proof (At_skip _ (4 + length k) _ _ _ A4 ltac:(lia)) as Ak.
  pose proof (At_len _ _ _ Ak) as Hd.
  assert (Hcr : (0 <= c < 65536)%Z).
  { unfold Curves in Hc. rewrite !elem_of_cons, elem_of_nil in Hc. lia. }
  unfold ServerKeyExchange_rest. destruct (Z.eqb_spec kx KeyExchangeAlgorithmPsk); [done|].
  rewrite Hh. pass. rewrite (At_idx _ _ _ _ A0). cbn [res_bind].
  change (mem (b2z (z2b 3)) CurveTypes) with true. pass.
  rewrite (At_u16 _ _ _ _ A1), Z.mod_small by lia. cbn [res_bind].
  unfold mem at 1. rewrite (bool_decide_true (c ∈ _)) by done. pass.
  rewrite (At_idx _ _ _ _ A3), b2z_z2b_small by lia. cbn [res_bind]. rewrite Nat2Z.id. pass.
  rewrite (At_sub _ _ _ _ _ A4) by lia. cbn [res_bind].
  destruct Hs as [(-> & -> & ->)|(Hha & Hh0 & Hsa & Hs0 & Hsg & Hsl)].
  - cbn [is_nil length] in Hd. rewrite (proj2 (Nat.eqb_eq _ _)) by lia. done.
  - destruct (is_nil sg) eqn:En; [by destruct sg|].
    pose proof (At_next _ (S (4 + length k)) _ _ _ Ak eq_refl) as Ah.
    pose proof (At_next _ (S (S (4 + length k))) _ _ _ Ah eq_refl) as As.
    pose proof (At_skip _ (S (S (4 + length k)) + 2) _ _ _ As ltac:(len)) as Ag.
    rewrite <- (app_nil_r sg) in Ag. clear Hd. pose proof (At_len _ _ _ Ag) as Hd.
    rewrite app_nil_r in Hd.
    assert (Hhr : (0 <= h < 256)%Z).
    { unfold hash_Algorithms in Hha. rewrite !elem_of_cons, elem_of_nil in Hha. lia. }
    assert (Hsr : (0 <= s < 256)%Z).
    { unfold signature_Algorithms in Hsa. rewrite !elem_of_cons, elem_of_nil in Hsa. lia. }
    rewrite (proj2 (Nat.eqb_neq _ _)) by lia. pass.
    rewrite (At_idx _ _ _ _ Ak), b2z_z2b_small by lia. cbn [res_bind].
    unfold mem at 1. rewrite (bool_decide_true (h ∈ _)) by done. pass.
    rewrite (At_idx _ _ _ _ Ah), b2z_z2b_small by lia. cbn [res_bind].
    unfold mem at 1. rewrite (bool_decide_true (s ∈ _)) by done. pass.
    rewrite (At_u16 _ _ _ _ As), Z.mod_small by lia. cbn [res_bind]. rewrite Nat2Z.id. pass.
    by rewrite (At_sub _ _ _ _ _ Ag) by lia.
Qed.

Lemma codec_ServerKeyExchange kx m :
  ServerKeyExchange_wf kx m -> msg_codec kx (MServerKeyExchange m).
Proof.
  unfold ServerKeyExchange_wf, msg_codec. cbn [Message_Marshal Message_Type].
  set (um b := Message_Unmarshal kx TypeServerKeyExchange b).
  assert (Hum : forall b, um b = let! m := ServerKeyExchange_Unmarshal kx b in Ok (MServerKeyExchange m))
    by done.
  destruct (sk_IdentityHint m) as [h|] eqn:Ehint.
  - intros (Hl & Hc).
    assert (Hdec : forall rest, Has kx KeyExchangeAlgorithmPsk = true -> kx <> 0%Z ->
      um (be_put 2 (Z.of_nat (length h)) ++ h ++ rest) =
        let! m := ServerKeyExchange_rest kx (Some h) rest in Ok (MServerKeyExchange m)).
    { intros rest Hp Hz. rewrite Hum. set (data := _ ++ _ ++ _).
      pose proof (At_start data) as A0. unfold data at 2 in A0.
      pose proof (At_skip _ 2 _ _ _ A0 ltac:(len)) as A2.
      pose proof (At_skip _ (2 + length h) _ _ _ A2 ltac:(lia)) as Ah.
      pose proof (At_len _ _ _ Ah) as Hd.
      unfold ServerKeyExchange_Unmarshal. rewrite Hp. pass.
      destruct (Z.eqb_spec kx KeyExchangeAlgorithmNone); [done|]. pass.
      rewrite (At_u16 _ _ _ _ A0), Z.mod_small by lia. cbn [res_bind].
      rewrite Nat2Z.id, (proj2 (Nat.leb_le _ _)) by lia. rewrite wrap_small by lia. cbn [andb].
      replace (Z.to_nat (2 + Z.of_nat (length h))) with (2 + length h)%nat by lia.
      rewrite (At_sub _ _ _ _ _ A2) by lia. cbn [res_bind]. by rewrite (At_from _ _ _ Ah). }
    destruct Hc as [[-> ->]|[-> Hw]].
    + eexists. split; [reflexivity|]. specialize (Hdec []). rewrite app_nil_r in Hdec.
      exact (Hdec eq_refl ltac:(done)).
    + rewrite (ServerKeyExchange_Marshal_curve m Hw), Ehint. eexists. split; [reflexivity|].
      rewrite <- app_assoc. etransitivity; [by apply Hdec|]. rewrite <- Ehint.
      by rewrite ServerKeyExchange_rest_ok.
  - intros (-> & Hw). rewrite (ServerKeyExchange_Marshal_curve m Hw), Ehint.
    eexists. split; [reflexivity|]. etransitivity; [apply Hum|]. cbn [app].
    unfold ServerKeyExchange_Unmarshal.
    assert (Hl : (2 <= length (curve_bytes m))%nat) by (unfold curve_bytes; len).
    change (Has KeyExchangeAlgorithmEcdhe KeyExchangeAlgorithmPsk) with false.
    change (KeyExchangeAlgorithmEcdhe =? KeyExchangeAlgorithmNone)%Z with false. pass.
    destruct (u16_at_ok (curve_bytes m) 0) as (z & -> & _); [lia|]. cbn [res_bind].
    rewrite andb_false_r. cbn [res_bind]. rewrite <- Ehint.
    by rewrite ServerKeyExchange_rest_ok.
Qed.
Definition names_bytes (names : list bytes) : bytes :=
  concat (map (fun ca => be_put 2 (Z.of_nat (length ca)) ++ ca) names).

Lemma cas_length_eq names : cas_length names = length (names_bytes names).
Proof.
  unfold cas_length, names_bytes.
  assert (Hg : forall acc, foldl (fun n ca => n + (length ca + 2))%nat acc names =
    (acc + length (concat (map (fun ca : bytes => be_put 2 (Z.of_nat (length ca)) ++ ca) names)))%nat).
  { induction names as [|ca names IH]; intros acc; cbn [foldl map concat]; [simpl; lia|].
    rewrite IH, !length_app, length_be_put. lia. }
  apply (Hg 0%nat).
Qed.

Lemma names_bytes_nil names : length (names_bytes names) = 0%nat -> names_bytes names = [].
Proof. apply nil_length_inv. Qed.

Lemma cas_loop_ok fuel names acc :
  Forall (fun ca => u16_range (Z.of_nat (length ca))) names -> (length names <= fuel)%nat ->
  cas_loop fuel (names_bytes names) acc = Ok (acc ++ names).
Proof.
  intros Hn. revert fuel acc. induction Hn as [|ca names Hca _ IH]; intros fuel acc Hf.
  - destruct fuel; simpl; by rewrite app_nil_r.
  - destruct fuel as [|fuel]; [simpl in Hf; lia|]. unfold u16_range in Hca.
    unfold names_bytes. cbn [map concat]. fold (names_bytes names). rewrite <- app_assoc.
    set (cas := _ ++ _ ++ _). pose proof (At_start cas) as A0. unfold cas at 2 in A0.
    pose proof (At_skip _ 2 _ _ _ A0 ltac:(len)) as A2. pose proof (At_len _ _ _ A2) as Hd.
    rewrite length_app in Hd.
    cbn [cas_loop]. replace (is_nil cas) with false by done. pass.
    rewrite (At_u16 _ _ _ _ A0), Z.mod_small, (At_from _ _ _ A2) by lia. cbn [res_bind].
    rewrite length_app, Nat2Z.id. pass.
    pose proof (At_start (ca ++ names_bytes names)) as B0.
    pose proof (At_skip _ (length ca) _ _ _ B0 eq_refl) as B1.
    rewrite (At_sub _ _ _ _ _ B0), (At_from _ _ _ B1) by lia. cbn [res_bind].
    rewrite IH by (simpl in Hf; lia). by rewrite <- app_assoc.
Qed.

Lemma length_names names : (length names <= length (names_bytes names))%nat.
Proof. induction names as [|c names IH]; [done|]. unfold names_bytes in *. simpl. len. Qed.

Definition CertificateRequest_wf (m : MessageCertificateRequest) : Prop :=
  Forall (fun t => t ∈ clientcertificate_Types) (cr_CertificateTypes m) /\
  (length (cr_CertificateTypes m) <= 255)%nat /\
  Forall (fun v => fst v ∈ hash_Algorithms /\ snd v ∈ signature_Algorithms)
    (cr_SignatureHashAlgorithms m) /\
  (Z.of_nat (length (cr_SignatureHashAlgorithms m)) < 32768)%Z /\
  Forall (fun ca => u16_range (Z.of_nat (length ca))) (cr_Names m) /\
  u16_range (Z.of_nat (length (names_bytes (cr_Names m)))).

Lemma sigalgs_loop_ok algs data i rest :
  At i data (concat (map (fun v => [z2b (fst v); z2b (snd v)]) algs) ++ rest) ->
  Forall (fun v => fst v ∈ hash_Algorithms /\ snd v ∈ signature_Algorithms) algs ->
  sigalgs_loop (length algs * 2) i data = Ok algs.
Proof.
  intros Hat Hk. unfold sigalgs_loop. set (enc := fun v : Z * Z => [z2b (fst v); z2b (snd v)]) in *.
  replace ((length algs * 2 + 1) / 2)%nat with (length algs).
  2:{ rewrite Nat.div_add_l by lia. simpl. lia. }
  pose proof (At_len _ _ _ Hat) as Hd. rewrite length_app, (length_concat_map _ 2) in Hd by done.
  apply read_loop_ok. intros j [h s] Hv. apply lookup_lt_Some in Hv as Hj.
  destruct (At_nth enc 2 algs i j (i + 2 * (0 + j)) data rest (h, s) Hat) as [r Hr];
    [done|done|lia|].
  unfold enc in Hr. cbn [app fst snd] in Hr. cbv zeta. pass.
  rewrite (At_idx _ _ _ _ Hr). cbn [res_bind].
  apply At_next with (j := (i + 2 * (0 + j) + 1)%nat) in Hr; [|lia].
  rewrite (At_idx _ _ _ _ Hr). cbn [res_bind].
  eapply Forall_lookup_1 in Hk; [|done]. destruct Hk as [Hh Hs]. cbn [fst snd] in *.
  assert (Hhr : (0 <= h < 256)%Z).
  { unfold hash_Algorithms in Hh. rewrite !elem_of_cons, elem_of_nil in Hh. lia. }
  assert (Hsr : (0 <= s < 256)%Z).
  { unfold signature_Algorithms in Hs. rewrite !elem_of_cons, elem_of_nil in Hs. lia. }
  rewrite !b2z_z2b_small by lia. unfold mem. by rewrite !bool_decide_true.
Qed.

Lemma codec_CertificateRequest kx m :
  CertificateRequest_wf m -> msg_codec kx (MCertificateRequest m).
Proof.
  destruct m as [ts algs names]. unfold CertificateRequest_wf, u16_range.
  cbn [cr_CertificateTypes cr_SignatureHashAlgorithms cr_Names].
  intros (Ht & Htl & Ha & Hal & Hn & Hnl). eexists. split; [reflexivity|].
  unfold CertificateRequest_Marshal. cbn [cr_CertificateTypes cr_SignatureHashAlgorithms cr_Names].
  rewrite cas_length_eq.
  replace (if (0 <? length (names_bytes names))%nat then _ else []) with (names_bytes names).
  2:{ destruct (Nat.ltb_spec 0 (length (names_bytes names))); [done|]. apply names_bytes_nil. lia. }
  cbn [app]. set (algb := concat _). set (data := _ :: _).
  change (Message_Unmarshal kx _ data) with
    (let! m := CertificateRequest_Unmarshal data in Ok (MCertificateRequest m)).
  assert (Halb : length algb = (length algs * 2)%nat) by (by apply length_concat_map).
  pose proof (At_start data) as A0. unfold data at 2 in A0.
  pose proof (At_next _ 1 _ _ _ A0 eq_refl) as A1.
  pose proof (At_skip _ (1 + length ts) _ _ _ A1 ltac:(rewrite length_map; lia)) as A2.
  pose proof (At_skip _ (1 + length ts + 2) _ _ _ A2 ltac:(len)) as A3.
  pose proof (At_skip _ (1 + length ts + 2 + length algs * 2) _ _ _ A3 ltac:(lia)) as A4.
  pose proof (At_skip _ (1 + length ts + 2 + length algs * 2 + 2) _ _ _ A4 ltac:(len)) as A5.
  pose proof (At_len _ _ _ A5) as Hd. rewrite <- (app_nil_r (names_bytes names)) in A5.
  unfold CertificateRequest_Unmarshal. pass.
  rewrite (At_idx _ _ _ _ A0), b2z_z2b_small by lia. cbn [res_bind]. rewrite Nat2Z.id. pass.
  rewrite (read_loop_ok ts).
  2:{ intros j v Hv.
      assert (He : forall l : list Z, concat (map (fun x => [z2b x]) l) = map z2b l)
        by (intros l; induction l; simpl; congruence).
      rewrite <- He in A1.
      destruct (At_nth (fun x => [z2b x]) 1 ts 1 j (1 + (0 + j)) data _ v A1) as [r Hr];
        [done|done|lia|].
      cbn [app] in Hr. rewrite (At_idx _ _ _ _ Hr). cbn [res_bind].
      eapply Forall_lookup_1 in Ht; [|done]. cbn beta in Ht.
      assert ((0 <= v < 256)%Z).
      { unfold clientcertificate_Types in Ht. rewrite !elem_of_cons, elem_of_nil in Ht. lia. }
      rewrite b2z_z2b_small by lia. unfold mem. by rewrite bool_decide_true. }
  pass. rewrite (At_u16 _ _ _ _ A2), Z.mod_small by lia. cbn [res_bind]. rewrite Nat2Z.id. pass.
  rewrite (sigalgs_loop_ok _ _ _ _ A3 Ha). pass.
  rewrite (At_u16 _ _ _ _ A4), Z.mod_small by lia. cbn [res_bind]. rewrite Nat2Z.id. pass.
  rewrite (At_sub _ _ _ _ _ A5) by lia. pass. pose proof (length_names names).
  by rewrite cas_loop_ok.
Qed.

(** The messages that the wire format carries without loss, for the key
    exchange [kx] that the decoder is told. *)
Definition Message_wf (kx : Z) (m : Message) : Prop :=
  match m with
  | MClientHello m =>
      version_wf (ch_Version m) /\ random_wf (ch_Random m) /\
      (length (ch_Cookie m) <= 255)%nat /\ (length (ch_SessionID m) <= 255)%nat /\
      ids_wf (ch_CipherSuiteIDs m) /\ methods_wf (ch_CompressionMethods m) /\
      exts_wf (ch_Extensions m)
  | MServerHello m =>
      version_wf (sh_Version m) /\ random_wf (sh_Random m) /\
      (length (sh_SessionID m) <= 255)%nat /\
      (exists suite, sh_CipherSuiteID m = Some suite /\ u16_range suite) /\
      sh_CompressionMethod m = Some compressionMethodNull /\ exts_wf (sh_Extensions m)
  | MHelloVerifyRequest m => version_wf (hv_Version m) /\ (length (hv_Cookie m) <= 255)%nat
  | MCertificate m => (Z.of_nat (length (certs_bytes (Certificate m))) < 2 ^ 24)%Z
  | MServerKeyExchange m => ServerKeyExchange_wf kx m
  | MCertificateRequest m => CertificateRequest_wf m
  | MServerHelloDone => True
  | MCertificateVerify m =>
      cv_Hash m ∈ hash_Algorithms /\ cv_SignatureAlgorithm m ∈ signature_Algorithms /\
      u16_range (Z.of_nat (length (cv_Signature m)))
  | MClientKeyExchange m => ClientKeyExchange_wf kx m
  | MFinished m => True
  end.

Lemma codec_message kx m : Message_wf kx m -> msg_codec kx m.
Proof.
  destruct m; simpl; intros; destruct_and?;
    eauto using codec_ClientHello, codec_HelloVerify, codec_Certificate, codec_ServerKeyExchange,
      codec_CertificateRequest, codec_CertificateVerify, codec_ClientKeyExchange.
  - match goal with H : exists _, _ |- _ => destruct H as (? & ? & ?) end.
    eauto using codec_ServerHello.
  - by exists [].
  - destruct m as [v]. by exists v.
Qed.
End roundtrip.

(** C36: Every well-formed handshake message survives the wire, whichever of the
    ten kinds it is: encoding succeeds, and unless the body exceeds the 24 bits
    of its length, the header announces that length and decoding, told the key
    exchange, gives back the message and its sequence number. *)
Theorem handshake_roundtrip `{Cryptobyte} kx m seq :
  Message_wf kx m -> (0 <= seq < 65536)%Z ->
  exists body, Message_Marshal m = Ok body /\
  ((Z.of_nat (length body) < 2 ^ 24)%Z ->
   let hd := mkHsHeader (Message_Type m) (Z.of_nat (length body)) seq 0 (Z.of_nat (length body)) in
   exists raw,
     (forall l fl, Handshake_Marshal (mkHandshake (mkHsHeader 0 l seq 0 fl) (Some m) 0) = Ok (hd, raw)) /\
     Handshake_Unmarshal kx raw = Ok (mkHandshake hd (Some m) kx)).
Proof.
  intros Hw Hs. destruct (codec_message kx m Hw) as (body & Hm & Hu). exists body. split; [done|].
  intros Hl hd. exists (hs_header_bytes hd ++ body). split.
  - intros l fl. unfold Handshake_Marshal. cbn [hsk_Message hsk_Header FragmentOffset MessageSequence].
    cbn [Z.eqb negb]. rewrite Hm. cbn [res_bind]. rewrite wrap_small by lia. cbv zeta.
    by rewrite HsHeader_Marshal_eq.
  - unfold hd. rewrite Handshake_Unmarshal_body by (done || (destruct m; done)). by rewrite Hu.
Qed.

Lemma handshake_roundtrip_witness :
  let m := MServerKeyExchange (mkServerKeyExchange None 3 29 (map z2b [1; 2; 3]%Z) 4 3 [z2b 7]) in
  let hd := mkHsHeader 12 12 1 0 12 in
  exists raw,
    (forall l fl, @Handshake_Marshal cryptobyte_ref
       (mkHandshake (mkHsHeader 0 l 1 0 fl) (Some m) 0) = Ok (hd, raw)) /\
    Handshake_Unmarshal KeyExchangeAlgorithmEcdhe raw = Ok (mkHandshake hd (Some m) KeyExchangeAlgorithmEcdhe).
Proof.
  destruct (handshake_roundtrip KeyExchangeAlgorithmEcdhe
    (MServerKeyExchange (mkServerKeyExchange None 3 29 (map z2b [1; 2; 3]%Z) 4 3 [z2b 7])) 1) as (body & Hb & Hr); [|lia|].
  - split; [reflexivity|]. unfold curve_wf. simpl. split_and!; try done; try lia.
    + unfold Curves. repeat constructor.
    + right. split_and!; try done; unfold hash_Algorithms, signature_Algorithms; set_solver.
  - assert (body = map z2b [3; 0; 29; 3; 1; 2; 3; 4; 3; 0; 1; 7]%Z) as -> by (vm_compute in Hb; injection Hb as <-; reflexivity).
    apply Hr. simpl. lia.
Defined.

(** ** Records in datagrams *)

Section records.
Context `{Cryptobyte}.

(** Contents that fit a record and that the record decoder accepts. *)
Definition Content_wf (c : Content) : Prop :=
  match c with
  | CChangeCipherSpec => True
  | CAlert a => byte_range (Level a) /\ byte_range (Description a)
  | CHandshake h =>
      exists m body, hsk_Message h = Some m /\ Message_wf 0 m /\ Message_Marshal m = Ok body /\
        (Z.of_nat (length body) < 65536 - 12)%Z /\ hsk_KeyExchangeAlgorithm h = 0%Z /\
        (0 <= MessageSequence (hsk_Header h) < 65536)%Z /\
        hsk_Header h = mkHsHeader (Message_Type m) (Z.of_nat (length body))
          (MessageSequence (hsk_Header h)) 0 (Z.of_nat (length body))
  | CApplicationData a => AData a <> [] /\ (Z.of_nat (length (AData a)) < 65536)%Z
  end.

Definition record_wf (r : RecordLayer) : Prop :=
  (HVersion (r_Header r) = Version1_0 \/ HVersion (r_Header r) = Version1_2) /\
  u16_range (Epoch (r_Header r)) /\
  (0 <= SequenceNumber (r_Header r) <= MaxSequenceNumber)%Z /\
  ConnectionID (r_Header r) = [] /\ Content_wf (r_Content r).

(** What the receiver of a record holds: the content length is not kept. *)
Definition received (r : RecordLayer) : RecordLayer :=
  mkRecord (mkHeader (Content_Type (r_Content r)) 0 (HVersion (r_Header r)) (Epoch (r_Header r))
              (SequenceNumber (r_Header r)) []) (r_Content r).

Lemma Content_Marshal_ok c :
  Content_wf c -> exists b, Content_Marshal c = Ok b /\ b <> [] /\ (Z.of_nat (length b) < 65536)%Z.
Proof.
  destruct c as [|a|h|a]; simpl.
  - intros _. exists [z2b 1]. split_and!; [done|done|simpl; lia].
  - intros _. eexists. split_and!; [done|done|simpl; lia].
  - intros (m & body & Hm & Hw & Hb & Hl & _ & _ & Hh). unfold Handshake_Marshal. rewrite Hm, Hh.
    cbn [FragmentOffset Z.eqb negb]. rewrite Hb. cbn [res_bind]. eexists.
    split_and!; [done| |rewrite length_app, HsHeader_Marshal_eq, length_hs_header_bytes; lia].
    rewrite HsHeader_Marshal_eq. done.
  - intros [Hne Hl]. exists (AData a). done.
Qed.

Lemma RecordLayer_codec r :
  record_wf r ->
  exists h b, RecordLayer_Marshal r = Ok (header_bytes h ++ b) /\ header_wf h /\ b <> [] /\
    ContentLen h = Z.of_nat (length b) /\ ContentType h <> ContentTypeConnectionID /\
    RecordLayer_Unmarshal zero_Header (header_bytes h ++ b) = Ok (received r).
Proof.
  destruct r as [[ct cl v e s cid] c]. unfold record_wf, u16_range.
  cbn [r_Header r_Content HVersion Epoch SequenceNumber ConnectionID].
  intros (Hv & He & Hs & -> & Hc).
  destruct (Content_Marshal_ok c Hc) as (b & Hb & Hne & Hl).
  set (h := mkHeader (Content_Type c) (Z.of_nat (length b)) v e s []).
  assert (Hw : header_wf h) by (split; simpl; try done; try lia; by destruct c).
  exists h, b. split_and!; try done.
  - unfold RecordLayer_Marshal. cbn [r_Content r_Header HVersion Epoch SequenceNumber ConnectionID].
    rewrite Hb. cbn [res_bind]. rewrite wrap_small by lia. fold h.
    by rewrite Header_Marshal_eq by (simpl; lia).
  - by destruct c.
  - unfold RecordLayer_Unmarshal. rewrite Header_roundtrip by done. cbn [res_bind].
    set (data := header_bytes h ++ b).
    assert (Hbody : from (Header_Size (with_len h (ContentLen zero_Header)) + 0) data = Ok b).
    { apply At_from. eapply (At_skip 0 _ _ (header_bytes h)); [apply At_start|].
      rewrite length_header_bytes. done. }
    change (length (ConnectionID (with_len h (ContentLen zero_Header)))) with 0%nat. rewrite Hbody.
    unfold received, h, with_len, zero_Header. cbn [ContentType ContentLen r_Content r_Header HVersion
      Epoch SequenceNumber ConnectionID].
    destruct c as [|a|hs|a]; cbn [Content_Type Z.eqb Pos.eqb ContentTypeChangeCipherSpec ContentTypeAlert
      ContentTypeHandshake ContentTypeApplicationData res_bind].
    + injection Hb as <-. done.
    + injection Hb as <-. destruct a as [l d]. destruct Hc as [Hc1 Hc2]. unfold byte_range in *.
      unfold Alert_Unmarshal, Alert_Marshal. simpl. rewrite !b2z_z2b_small by done. done.
    + destruct Hc as (m & body & Hm & Hmw & Hmb & Hml & Hkx & Hseq & Hh).
      destruct (codec_message 0 m Hmw) as (body' & Hb' & Hu). rewrite Hmb in Hb'. injection Hb' as <-.
      cbn [Content_Marshal] in Hb. unfold Handshake_Marshal in Hb. rewrite Hm, Hh in Hb.
      cbn [FragmentOffset MessageSequence Z.eqb negb] in Hb.
      rewrite Hmb in Hb. cbn [res_bind] in Hb. rewrite wrap_small, HsHeader_Marshal_eq in Hb by lia.
      match type of Hb with Ok ?x = Ok _ => assert (x = b) as Hx by congruence end. rewrite <- Hx.
      rewrite Handshake_Unmarshal_body by (lia || (destruct m; done)). rewrite Hu. cbn [res_bind].
      rewrite <- Hh, <- Hm, <- Hkx. by destruct hs.
    + injection Hb as <-. by destruct a.
Qed.

Lemma hsize_no_cid b h :
  header_wf h -> ContentType h <> ContentTypeConnectionID -> b <> [] ->
  (hsize 0 (header_bytes h ++ b) < length (header_bytes h ++ b))%nat.
Proof.
  intros Hw Hn Hb. assert (0 < length b)%nat by (destruct b; simpl; [done|lia]).
  rewrite length_app, length_header_bytes. destruct Hw as [Ht _ _ _ _ Hc].
  unfold Header_Size, FixedHeaderSize, hsize, header_bytes. cbn [app].
  rewrite b2z_z2b_small by lia. destruct (Z.eqb_spec (ContentType h) ContentTypeConnectionID); [done|].
  rewrite Hc by done. simpl. lia.
Qed.

Lemma records_codec rs :
  Forall record_wf rs ->
  exists raws, Forall2 (fun r raw => RecordLayer_Marshal r = Ok raw /\
      RecordLayer_Unmarshal zero_Header raw = Ok (received r)) rs raws /\ datagram 0 raws.
Proof.
  induction 1 as [|r rs Hr _ (raws & Hf & Hd1 & Hd2)].
  - exists []. repeat constructor. done.
  - destruct (RecordLayer_codec r Hr) as (h & b & Hm & Hw & Hb & Hl & Hct & Hu).
    exists ((header_bytes h ++ b) :: raws). split; [by constructor|]. split.
    + constructor; [|done]. apply marshalled_is_record; done.
    + intros x Hx. destruct raws as [|y raws].
      * injection Hx as <-. by apply hsize_no_cid.
      * by apply Hd2.
Qed.
End records.

(** Any sequence of well-formed records can share a datagram: each is
    encoded, the receiver cuts the datagram into exactly the encoded records
    and decodes each to the content that was sent, with its version, epoch and
    sequence number. *)
Theorem datagram_roundtrip `{Cryptobyte} rs :
  Forall record_wf rs ->
  exists raws,
    map RecordLayer_Marshal rs = map Ok raws /\
    UnpackDatagram (concat raws) = Ok raws /\
    map (RecordLayer_Unmarshal zero_Header) raws = map (fun r => Ok (received r)) rs.
Proof.
  intros Hrs. destruct (records_codec rs Hrs) as (raws & Hf & Hd). exists raws. split_and!.
  - clear Hd Hrs. induction Hf as [|r raw rs raws [H1 _] _ IH]; simpl; congruence.
  - unfold UnpackDatagram. rewrite unpack_loops_equal by lia.
    by rewrite (cid_unpack_complete _ _ _ _ _ raws) by (auto using At_start).
  - clear Hd Hrs. induction Hf as [|r raw rs raws [_ H2] _ IH]; simpl; congruence.
Qed.

Definition sample_records : list RecordLayer :=
  [mkRecord (mkHeader 0 0 Version1_2 0 7 []) CChangeCipherSpec;
   mkRecord (mkHeader 0 0 Version1_2 1 0 [])
     (CHandshake (mkHandshake (mkHsHeader 20 3 4 0 3) (Some (MFinished (mkFinished (map z2b [1; 2; 3]%Z)))) 0));
   mkRecord (mkHeader 0 0 Version1_2 1 1 []) (CApplicationData (mkAppData [z2b 104]));
   mkRecord (mkHeader 0 0 Version1_0 1 2 []) (CAlert (mkAlert 1 0))].

Lemma datagram_roundtrip_witness :
  exists raws,
    map (@RecordLayer_Marshal cryptobyte_ref) sample_records = map Ok raws /\
    UnpackDatagram (concat raws) = Ok raws /\
    map (@RecordLayer_Unmarshal cryptobyte_ref zero_Header) raws
      = map (fun r => Ok (received r)) sample_records.
Proof.
  apply datagram_roundtrip. repeat (apply Forall_cons_2 || apply Forall_nil_2);
    unfold record_wf, u16_range, MaxSequenceNumber; cbn; split_and!; auto; try lia; try done.
  exists (MFinished (mkFinished (map z2b [1; 2; 3]%Z))), (map z2b [1; 2; 3]%Z).
  split_and!; try done; simpl; lia.
Defined.
