(* ===== verification/DtlsRandom.v ===== *)
(** * Randomised hellos

    [golib/webrtc/dtls_randomize.go]: the hook that truncates and shuffles the
    lists of a ClientHello and the order of its extensions, from a seed that
    the obfuscation key determines, or from the system's random source.

    The lists of an extension are slices of arrays that the configuration
    owns, and the hook works in place: truncation shortens the slice and
    leaves the array, the shuffle permutes the array.  The operations on an
    extension therefore return what the message shows and what the arrays of
    the configuration hold afterwards. *)

From S2P Require Import Prelude IO DtlsWire DtlsExt DtlsHandshake.

Open Scope Z_scope.

(** [rand.Int] on the system's source; it may fail. *)
Class CryptoRand (C : Type) := {
  rand_Int : Z -> C -> option Z * C;
  rand_Int_range : forall n c x, 0 < n -> (rand_Int n c).1 = Some x -> 0 <= x < n
}.

Section randomise.
Context {R C : Type} `{RR : Rand R} `{CC : CryptoRand C}.
(** [hkdf.New(sha256.New, key, salt, info)] read for 32 bytes, and
    [mrand.New(mrand.NewSource(seed))]. *)
Variables (hkdf : bytes -> string -> string -> res goerr bytes) (newSource : Z -> R).

(** ** The seed *)

Definition SetDTLSRandomSeed (obfsKey : bytes) (isServer : bool) (dtlsRandomSeed : bytes) : bytes :=
  let salt := (if isServer then "natproxy-dtls-seed-server" else "natproxy-dtls-seed-client")%string in
  match hkdf obfsKey salt "dtls-randomize-v3" with
  | Err _ => dtlsRandomSeed
  | Ok seed => seed
  end.

(** [int64] of an unsigned 64-bit number. *)
Definition to_int64 (x : Z) : Z := if x <? 2 ^ 63 then x else x - 2 ^ 64.

Definition newSeededRand (dtlsRandomSeed : bytes) : option R :=
  match dtlsRandomSeed with
  | [] => None
  | seed => Some (newSource (to_int64 (be_get (take 8 seed))))
  end.

(** ** Shuffling *)

(** The sources of one call: the seeded generator, if any, and the system's. *)
Record sources := mkSources { rng : option R; crypto : C }.

(** [s[i], s[j] = s[j], s[i]] *)
Definition swap {A} (i j : nat) (l : list A) : list A :=
  match l !! i, l !! j with Some a, Some b => <[i := b]> (<[j := a]> l) | _, _ => l end.

(** The loops [for i := n - 1; i > 0; i--]; the one with the system's source
    ends at the first error. *)
Fixpoint seeded_loop {A} (i : nat) (l : list A) (r : R) : list A * R :=
  match i with
  | O => (l, r)
  | S i' => let '(j, r) := intn (Z.of_nat i + 1) r in seeded_loop i' (swap i (Z.to_nat j) l) r
  end.

Fixpoint cryptoShuffle_loop {A} (i : nat) (l : list A) (c : C) : list A * C :=
  match i with
  | O => (l, c)
  | S i' =>
      match rand_Int (Z.of_nat i + 1) c with
      | (None, c) => (l, c)
      | (Some j, c) => cryptoShuffle_loop i' (swap i (Z.to_nat j) l) c
      end
  end.

Definition cryptoShuffle {A} (n : nat) (l : list A) (c : C) : list A * C := cryptoShuffle_loop (n - 1) l c.

(** The shuffle of the first [n] elements of an array. *)
Definition seededShuffle {A} (n : nat) (l : list A) (g : sources) : list A * sources :=
  match rng g with
  | Some r => let '(l, r) := seeded_loop (n - 1) l r in (l, mkSources (Some r) (crypto g))
  | None => let '(l, c) := cryptoShuffle n l (crypto g) in (l, mkSources None c)
  end.

Definition seededShuffleUint16s (s : list Z) (g : sources) : list Z * sources := seededShuffle (length s) s g.
Definition seededShuffleExtensions (s : list Extension) (g : sources) : list Extension * sources :=
  seededShuffle (length s) s g.

(** ** Cipher suites *)

Definition requiredCipherSuiteID : Z := 49195.   (* 0xc02b *)

(** The search of the suite behind the kept range. *)
Fixpoint find_required (i : nat) (l : list Z) : option nat :=
  match l with
  | [] => None
  | s :: l => if s =? requiredCipherSuiteID then Some i else find_required (S i) l
  end.

Definition truncateCipherSuites (suites : list Z) (r : R) : list Z * R :=
  if (length suites <=? 3)%nat then (suites, r)
  else
    let '(x, r) := intn (Z.of_nat (length suites) - 2) r in
    let keep := Z.to_nat (3 + x) in
    let keep := if (length suites <? keep)%nat then length suites else keep in
    let hasRequired := existsb (Z.eqb requiredCipherSuiteID) (take keep suites) in
    let suites :=
      if hasRequired then suites
      else match find_required keep (drop keep suites) with
           | Some i => swap (keep - 1) i suites
           | None => suites
           end in
    (take keep suites, r).

(** ** Extensions *)

(** The number of elements kept, when the list is longer than [above]. *)
Definition keep_some (above n : nat) (g : sources) : nat * sources :=
  match rng g with
  | Some r =>
      if (above <? n)%nat then
        let '(x, r) := intn (Z.of_nat n) r in
        let keep := Z.to_nat (1 + x) in
        ((if (n <? keep)%nat then n else keep), mkSources (Some r) (crypto g))
      else (n, g)
  | None => (n, g)
  end.

(** The extension of the message, and the same extension on the whole arrays
    of the configuration. *)
Definition randomizeExtensionFieldsSeeded (ext : Extension) (g : sources) : Extension * Extension * sources :=
  match ext with
  | SupportedEllipticCurves curves =>
      let '(keep, g) := keep_some 1 (length curves) g in
      let '(curves, g) := seededShuffle keep curves g in
      (SupportedEllipticCurves (take keep curves), SupportedEllipticCurves curves, g)
  | SupportedSignatureAlgorithms algs =>
      let '(keep, g) := keep_some 2 (length algs) g in
      let '(rest, g) := (if (1 <? keep)%nat then seededShuffle (keep - 1) (drop 1 algs) g else (drop 1 algs, g)) in
      let algs := take 1 algs ++ rest in
      (SupportedSignatureAlgorithms (take keep algs), SupportedSignatureAlgorithms algs, g)
  | UseSRTP profiles mki =>
      let '(profiles, g) := seededShuffle (length profiles) profiles g in
      (UseSRTP profiles mki, UseSRTP profiles mki, g)
  | SupportedPointFormats formats =>
      let '(formats, g) := seededShuffle (length formats) formats g in
      (SupportedPointFormats formats, SupportedPointFormats formats, g)
  | _ => (ext, ext, g)
  end.

(** The loop over the extensions: what the message shows and what the
    configuration holds afterwards, in the order before the last shuffle. *)
Fixpoint randomize_all (exts : list Extension) (g : sources) : list Extension * list Extension * sources :=
  match exts with
  | [] => ([], [], g)
  | ext :: exts =>
      let '(e, b, g) := randomizeExtensionFieldsSeeded ext g in
      let '(es, bs, g) := randomize_all exts g in
      (e :: es, b :: bs, g)
  end.

(** ** The hooks *)

Definition set_suites_exts (ids : list Z) (exts : list Extension) (h : MessageClientHello) : MessageClientHello :=
  mkClientHello (ch_Version h) (ch_Random h) (ch_Cookie h) (ch_SessionID h) ids (ch_CompressionMethods h) exts.

(** The new message, the lists of the configuration and the system's source. *)
Definition randomizeDTLSClientHello (seed : bytes) (hello : MessageClientHello) (c : C)
    : MessageClientHello * list Extension * C :=
  let '(ids, rng) := match newSeededRand seed with
                     | Some r => let '(ids, r) := truncateCipherSuites (ch_CipherSuiteIDs hello) r in (ids, Some r)
                     | None => (ch_CipherSuiteIDs hello, None)
                     end in
  let '(ids, g) := seededShuffleUint16s ids (mkSources rng c) in
  let '(exts, backing, g) := randomize_all (ch_Extensions hello) g in
  let '(exts, g) := seededShuffleExtensions exts g in
  (set_suites_exts ids exts hello, backing, crypto g).

Definition randomizeDTLSServerHello (seed : bytes) (hello : MessageServerHello) (c : C) : MessageServerHello * C :=
  let '(exts, g) := seededShuffleExtensions (sh_Extensions hello) (mkSources (newSeededRand seed) c) in
  (mkServerHello (sh_Version hello) (sh_Random hello) (sh_SessionID hello) (sh_CipherSuiteID hello)
     (sh_CompressionMethod hello) exts, crypto g).

(** ** Lemmas *)

Lemma swap_perm {A} i j (l : list A) : swap i j l ≡ₚ l.
Proof.
  unfold swap. destruct (l !! i) as [a|] eqn:Hi; [|done]. destruct (l !! j) as [b|] eqn:Hj; [|done].
  by apply Permutation_insert_swap.
Qed.

Lemma length_swap {A} i j (l : list A) : length (swap i j l) = length l.
Proof. apply Permutation_length, swap_perm. Qed.

(** Swaps below [n] do not touch what is behind. *)
Lemma swap_drop {A} n i j (l : list A) : (i < n)%nat -> (j < n)%nat -> drop n (swap i j l) = drop n l.
Proof.
  intros Hi Hj. unfold swap. destruct (l !! i); [|done]. destruct (l !! j); [|done].
  by rewrite !drop_insert_lt by lia.
Qed.

Lemma perm_take {A} n (l l' : list A) : l' ≡ₚ l -> drop n l' = drop n l -> take n l' ≡ₚ take n l.
Proof.
  intros Hp Hd. rewrite <- (take_drop n l), <- (take_drop n l'), Hd in Hp.
  by apply Permutation_app_inv_r in Hp.
Qed.

Lemma seeded_loop_spec {A} n i (l : list A) r :
  (i < n)%nat -> (seeded_loop i l r).1 ≡ₚ l /\ drop n (seeded_loop i l r).1 = drop n l.
Proof.
  revert l r. induction i as [|i IH]; intros l r Hi; [done|]. cbn [seeded_loop].
  pose proof (intn_range (Z.of_nat (S i) + 1) r ltac:(lia)) as Hj.
  destruct (intn (Z.of_nat (S i) + 1) r) as [j r']. cbn [fst] in Hj.
  destruct (IH (swap (S i) (Z.to_nat j) l) r') as [H1 H2]; [lia|].
  split; [etrans; [exact H1|apply swap_perm]|]. rewrite H2. apply swap_drop; lia.
Qed.

Lemma crypto_loop_spec {A} n i (l : list A) c :
  (i < n)%nat -> (cryptoShuffle_loop i l c).1 ≡ₚ l /\ drop n (cryptoShuffle_loop i l c).1 = drop n l.
Proof.
  revert l c. induction i as [|i IH]; intros l c Hi; [done|]. cbn [cryptoShuffle_loop].
  pose proof (fun x => rand_Int_range (Z.of_nat (S i) + 1) c x ltac:(lia)) as Hj.
  destruct (rand_Int (Z.of_nat (S i) + 1) c) as [[j|] c']; [|done]. cbn [fst] in Hj. specialize (Hj j eq_refl).
  destruct (IH (swap (S i) (Z.to_nat j) l) c') as [H1 H2]; [lia|].
  split; [etrans; [exact H1|apply swap_perm]|]. rewrite H2. apply swap_drop; lia.
Qed.

Lemma seededShuffle_spec {A} n (l : list A) g l' g' :
  seededShuffle n l g = (l', g') -> l' ≡ₚ l /\ take n l' ≡ₚ take n l.
Proof.
  intros Hs. assert (Hall : l' ≡ₚ l /\ drop n l' = drop n l).
  { unfold seededShuffle, cryptoShuffle in Hs. destruct n as [|n].
    { destruct (rng g) as [r|]; cbn in Hs; by injection Hs as <- <-. }
    destruct (rng g) as [r|].
    - destruct (seeded_loop_spec (S n) (S n - 1) l r) as [H1 H2]; [lia|].
      destruct (seeded_loop (S n - 1) l r) as [l1 r1]. by injection Hs as <- <-.
    - destruct (crypto_loop_spec (S n) (S n - 1) l (crypto g)) as [H1 H2]; [lia|].
      destruct (cryptoShuffle_loop (S n - 1) l (crypto g)) as [l1 c1]. by injection Hs as <- <-. }
  destruct Hall as [H1 H2]. split; [done|]. by apply perm_take.
Qed.

Lemma shuffle_all {A} (l : list A) g l' g' : seededShuffle (length l) l g = (l', g') -> l' ≡ₚ l.
Proof. by intros [Hp _]%seededShuffle_spec. Qed.

Lemma keep_some_spec above n g keep g' :
  keep_some above n g = (keep, g') -> (keep <= n)%nat /\ (0 < n -> 0 < keep)%nat.
Proof.
  unfold keep_some. destruct (rng g) as [r|]; [|intros [= <- <-]; lia].
  destruct (Nat.ltb_spec above n); [|intros [= <- <-]; lia].
  pose proof (intn_range (Z.of_nat n) r ltac:(lia)) as Hx. destruct (intn (Z.of_nat n) r) as [x r']. cbn [fst] in Hx.
  destruct (Nat.ltb_spec n (Z.to_nat (1 + x))); intros [= <- <-]; lia.
Qed.

Lemma find_required_spec i l k :
  find_required i l = Some k -> exists p, k = (i + p)%nat /\ l !! p = Some requiredCipherSuiteID.
Proof.
  revert i. induction l as [|s l IH]; intros i Hf; [done|]. cbn [find_required] in Hf.
  destruct (Z.eqb_spec s requiredCipherSuiteID) as [->|].
  - injection Hf as <-. exists 0%nat. split; [lia|done].
  - apply IH in Hf as (p & -> & Hp). exists (S p). split; [lia|done].
Qed.

Lemma find_required_none i l : find_required i l = None -> requiredCipherSuiteID ∉ l.
Proof.
  revert i. induction l as [|s l IH]; intros i Hf; [by apply not_elem_of_nil|]. cbn [find_required] in Hf.
  destruct (Z.eqb_spec s requiredCipherSuiteID); [done|]. apply not_elem_of_cons. split; [done|]. by eapply IH.
Qed.

Lemma swap_left {A} i j (l : list A) a : (i < length l)%nat -> l !! j = Some a -> swap i j l !! i = Some a.
Proof.
  intros Hi Hj. unfold swap. destruct (lookup_lt_is_Some_2 l i Hi) as [b Hb]. rewrite Hb, Hj.
  apply list_lookup_insert_eq. by rewrite length_insert.
Qed.

Lemma existsb_required l : existsb (Z.eqb requiredCipherSuiteID) l = true -> requiredCipherSuiteID ∈ l.
Proof. intros (x & Hx & He)%existsb_exists. apply Z.eqb_eq in He. subst x. by apply list_elem_of_In. Qed.

Lemma truncate_spec suites r ids r' :
  truncateCipherSuites suites r = (ids, r') ->
  ids ⊆+ suites /\ (min 3 (length suites) <= length ids)%nat /\
  (requiredCipherSuiteID ∈ suites -> requiredCipherSuiteID ∈ ids).
Proof.
  unfold truncateCipherSuites. destruct (Nat.leb_spec (length suites) 3) as [|Hlen].
  { intros [= <- <-]. split_and!; [done|lia|done]. }
  pose proof (intn_range (Z.of_nat (length suites) - 2) r ltac:(lia)) as Hx.
  destruct (intn _ r) as [x r1]. cbn [fst] in Hx.
  rewrite (proj2 (Nat.ltb_ge (length suites) (Z.to_nat (3 + x)))) by lia. set (keep := Z.to_nat (3 + x)).
  assert (Hkeep : (3 <= keep <= length suites)%nat) by (subst keep; lia). clearbody keep. intros [= <- <-].
  destruct (existsb _ _) eqn:Hex.
  { split_and!; [apply sublist_submseteq, sublist_take|rewrite length_take; lia|]. intros _. by apply existsb_required. }
  destruct (find_required keep (drop keep suites)) as [k|] eqn:Hf.
  - apply find_required_spec in Hf as (q & -> & Hq). rewrite lookup_drop in Hq.
    split_and!.
    + etrans; [apply sublist_submseteq, sublist_take|]. by rewrite swap_perm.
    + rewrite length_take, length_swap. lia.
    + intros _. apply (list_elem_of_lookup_2 _ (keep - 1)%nat). rewrite lookup_take_lt by lia. apply swap_left; [lia|done].
  - split_and!; [apply sublist_submseteq, sublist_take|rewrite length_take; lia|].
    intros Hr. rewrite <- (take_drop keep suites) in Hr. apply elem_of_app in Hr as [|Hr]; [done|].
    by apply find_required_none in Hf.
Qed.

(** ** What the hook keeps *)

Definition ext_kept (e e' : Extension) : Prop :=
  match e, e' with
  | SupportedEllipticCurves l, SupportedEllipticCurves l' => l' ⊆+ l /\ (l <> [] -> l' <> [])
  | SupportedSignatureAlgorithms l, SupportedSignatureAlgorithms l' => l' ⊆+ l /\ head l' = head l
  | UseSRTP l mki, UseSRTP l' mki' => l' ≡ₚ l /\ mki' = mki
  | SupportedPointFormats l, SupportedPointFormats l' => l' ≡ₚ l
  | _, _ => e' = e
  end.

(** What happens to the arrays of the configuration. *)
Definition ext_permuted (e b : Extension) : Prop :=
  match e, b with
  | SupportedEllipticCurves l, SupportedEllipticCurves l' => l' ≡ₚ l
  | SupportedSignatureAlgorithms l, SupportedSignatureAlgorithms l' => l' ≡ₚ l
  | UseSRTP l mki, UseSRTP l' mki' => l' ≡ₚ l /\ mki' = mki
  | SupportedPointFormats l, SupportedPointFormats l' => l' ≡ₚ l
  | _, _ => b = e
  end.

Lemma take_shuffled {A} keep (l l' : list A) : take keep l' ≡ₚ take keep l -> take keep l' ⊆+ l.
Proof. intros ->. apply sublist_submseteq, sublist_take. Qed.

Lemma ext_spec e g e' b g' :
  randomizeExtensionFieldsSeeded e g = (e', b, g') -> ext_kept e e' /\ ext_permuted e b.
Proof.
  destruct e as [| curves | formats | algs | profiles mki | | | |]; cbn [randomizeExtensionFieldsSeeded];
    try (by intros [= <- <- <-]).
  - destruct (keep_some 1 (length curves) g) as [keep g1] eqn:Ek. apply keep_some_spec in Ek as [Hk1 Hk2].
    destruct (seededShuffle keep curves g1) as [l g2] eqn:Es. apply seededShuffle_spec in Es as [Hp Ht].
    intros [= <- <- <-]. cbn. split; [|done]. split; [by apply take_shuffled|].
    intros Hne Hn. apply (f_equal length) in Hn. rewrite (Permutation_length Ht), length_take in Hn.
    destruct curves; [done|]. cbn in *. lia.
  - destruct (seededShuffle _ formats g) as [l g1] eqn:Es. apply shuffle_all in Es. by intros [= <- <- <-].
  - destruct (keep_some 2 (length algs) g) as [keep g1] eqn:Ek. apply keep_some_spec in Ek as [Hk1 Hk2].
    assert (Hr : exists rest g2, (if (1 <? keep)%nat then seededShuffle (keep - 1) (drop 1 algs) g1 else (drop 1 algs, g1))
      = (rest, g2) /\ rest ≡ₚ drop 1 algs /\ take (keep - 1) rest ≡ₚ take (keep - 1) (drop 1 algs)).
    { destruct (Nat.ltb_spec 1 keep).
      - destruct (seededShuffle (keep - 1) (drop 1 algs) g1) as [l g2] eqn:Es. apply seededShuffle_spec in Es. by exists l, g2.
      - by exists (drop 1 algs), g1. }
    destruct Hr as (rest & g2 & -> & Hp & Ht). intros [= <- <- <-]. destruct algs as [|a algs].
    { cbn in *. apply Permutation_nil_r in Hp as ->. by rewrite take_nil. }
    destruct keep as [|keep]; [cbn in Hk2; lia|]. cbn [take app drop ext_kept ext_permuted head] in *.
    replace (S keep - 1)%nat with keep in Ht by lia. split_and!; [|done|].
    + apply submseteq_skip. by apply take_shuffled.
    + by constructor.
  - destruct (seededShuffle _ profiles g) as [l g1] eqn:Es. apply shuffle_all in Es. by intros [= <- <- <-].
Qed.

Lemma randomize_all_spec exts g es bs g' :
  randomize_all exts g = (es, bs, g') -> Forall2 ext_kept exts es /\ Forall2 ext_permuted exts bs.
Proof.
  revert g es bs g'. induction exts as [|e exts IH]; intros g es bs g'; [intros [= <- <- _]; done|].
  cbn [randomize_all]. destruct (randomizeExtensionFieldsSeeded e g) as [[e' b] g1] eqn:Ee.
  destruct (randomize_all exts g1) as [[es' bs'] g2] eqn:Er. apply ext_spec in Ee as [H1 H2].
  apply IH in Er as [H3 H4]. intros [= <- <- _]. by split; constructor.
Qed.

(** A randomised ClientHello offers only what the original offers: version,
    random, cookie, session and compression methods are the same, the cipher
    suites are some of the original ones (at least three where there were
    three) and include the required suite whenever the original did, the
    extensions are those of the original in some order, with at least one
    curve, the same first signature scheme, and all protection profiles and
    point formats.  The lists of the configuration keep their elements but
    not their order. *)
Theorem client_hello_randomised seed hello c h' backing c' :
  randomizeDTLSClientHello seed hello c = (h', backing, c') ->
  let ids := ch_CipherSuiteIDs hello in
  h' = set_suites_exts (ch_CipherSuiteIDs h') (ch_Extensions h') hello /\
  ch_CipherSuiteIDs h' ⊆+ ids /\ (min 3 (length ids) <= length (ch_CipherSuiteIDs h'))%nat /\
  (requiredCipherSuiteID ∈ ids -> requiredCipherSuiteID ∈ ch_CipherSuiteIDs h') /\
  (exists es, ch_Extensions h' ≡ₚ es /\ Forall2 ext_kept (ch_Extensions hello) es) /\
  Forall2 ext_permuted (ch_Extensions hello) backing.
Proof.
  intros Hr ids. unfold randomizeDTLSClientHello in Hr. fold ids in Hr.
  assert (Ht : exists ids1 g1, match newSeededRand seed with
      | Some r => let '(ids, r) := truncateCipherSuites ids r in (ids, Some r) | None => (ids, None) end = (ids1, g1) /\
    ids1 ⊆+ ids /\ (min 3 (length ids) <= length ids1)%nat /\ (requiredCipherSuiteID ∈ ids -> requiredCipherSuiteID ∈ ids1)).
  { destruct (newSeededRand seed) as [r|]; [|exists ids, None; split_and!; try done; lia].
    destruct (truncateCipherSuites ids r) as [ids1 r1] eqn:Et. apply truncate_spec in Et. by exists ids1, (Some r1). }
  destruct Ht as (ids1 & g1 & Hg1 & Hsub & Hlen & Hreq). rewrite Hg1 in Hr.
  unfold seededShuffleUint16s, seededShuffleExtensions in Hr.
  destruct (seededShuffle (length ids1) ids1 _) as [ids2 g2] eqn:Es. apply shuffle_all in Es.
  destruct (randomize_all (ch_Extensions hello) g2) as [[es bs] g3] eqn:Ea. apply randomize_all_spec in Ea as [Hk Hb].
  destruct (seededShuffle (length es) es g3) as [es' g4] eqn:Ee. apply shuffle_all in Ee.
  injection Hr as <- <- <-. cbn [set_suites_exts ch_CipherSuiteIDs ch_Extensions].
  split_and!; [done|by rewrite Es|by rewrite (Permutation_length Es)|intros Hin; rewrite Es; auto|by exists es|done].
Qed.

End randomise.

(** ** The theorem at work *)

#[local, refine] Instance demo_crypto : CryptoRand Z := {|
  rand_Int n c := (Some ((c * 7 + 3) mod n), c + 1)
|}.
Proof. intros n c x Hn [= <-]. by apply Z.mod_pos_bound. Defined.

Definition demo_hello : MessageClientHello :=
  mkClientHello (mkVersion 254 253) (mkRandom 1 (replicate 28 x07)) [] []
    [49196; 49200; 49162; 49172; 49195; 168] [0]
    [SupportedSignatureAlgorithms [(4, 3); (5, 3); (6, 3); (4, 1)]; SupportedEllipticCurves [29; 23; 24];
     UseSRTP [7; 8; 1] []; UseExtendedMasterSecret true].

Definition demo_seed : bytes := map z2b [1; 2; 3; 4; 5; 6; 7; 9].

Definition run_demo (h : MessageClientHello) := randomizeDTLSClientHello (fun s => s) demo_seed h 0.

Lemma client_hello_randomised_witness :
  requiredCipherSuiteID ∈ ch_CipherSuiteIDs (run_demo demo_hello).1.1 /\
  (3 <= length (ch_CipherSuiteIDs (run_demo demo_hello).1.1))%nat.
Proof.
  destruct (client_hello_randomised (fun s => s) demo_seed demo_hello 0 (run_demo demo_hello).1.1 (run_demo demo_hello).1.2
    (run_demo demo_hello).2) as (_ & _ & Hl & Hr & _).
  - vm_compute. reflexivity.
  - split; [apply Hr; apply (bool_decide_unpack _); vm_compute; exact I|exact Hl].
Defined.

(** The hook runs once for each of the two ClientHellos of a handshake, on
    lists that the first run has shuffled in place, so that the second hello
    differs from the first although the seed is the same. *)
Lemma second_hello_differs :
  let '(h1, lists, _) := run_demo demo_hello in
  let '(h2, _, _) := run_demo (set_suites_exts (ch_CipherSuiteIDs demo_hello) lists demo_hello) in
  ch_CipherSuiteIDs h2 = ch_CipherSuiteIDs h1 /\ ch_Extensions h2 <> ch_Extensions h1.
Proof. vm_compute. split; [reflexivity|discriminate]. Qed.
