(* ===== verification/DtlsFragment.v ===== *)
(** * DTLS handshake flights: fragments, cache, compaction

    The root package of the forked DTLS library around a handshake message:
    [splitBytes] and [fragmentHandshake] cut it (util.go, conn.go),
    [compactRawPackets] joins small records (conn.go), the fragment buffer
    puts the pieces together again (fragment_buffer.go) and the handshake
    cache keeps the whole messages for the state machine
    (handshake_cache.go). *)

From S2P Require Import Prelude DtlsWire DtlsExt DtlsHandshake.
Open Scope np_scope.

(** ** Cutting a message *)

(** [splitBytes]; the loop advances by [splitLen], which is positive. *)
Fixpoint split_loop (fuel : nat) (data : bytes) (splitLen i : nat) : list bytes :=
  match fuel with
  | O => []
  | S fuel' =>
      if (i <? length data)%nat then
        let j := (i + splitLen)%nat in
        let j := if (length data <? j)%nat then length data else j in
        slice i j data :: split_loop fuel' data splitLen (i + splitLen)
      else []
  end.

Definition splitBytes (data : bytes) (splitLen : nat) : list bytes :=
  split_loop (length data) data splitLen 0.

(** The loop over the pieces: each gets a header with its offset. *)
Fixpoint fragment_loop (hd : HsHeader) (offset : nat) (pieces : list bytes) : list bytes :=
  match pieces with
  | [] => []
  | p :: ps =>
      let h := mkHsHeader (hs_Type hd) (hs_Length hd) (MessageSequence hd)
                 (u32 (Z.of_nat offset)) (u32 (Z.of_nat (length p))) in
      (HsHeader_Marshal h ++ p) :: fragment_loop hd (offset + length p) ps
  end.

Definition fragmentHandshake `{Cryptobyte} (mtu : nat) (hd : HsHeader) (m : Message)
    : res derr (list bytes) :=
  let! content := Message_Marshal m in
  let pieces := splitBytes content mtu in
  let pieces := if is_nil pieces then [[]] else pieces in
  Ok (fragment_loop hd 0 pieces).

(** ** Joining records into datagrams *)

Fixpoint compact_loop (mtu : nat) (current : bytes) (combined : list bytes) (raw : list bytes)
    : list bytes :=
  match raw with
  | [] => combined ++ [current]
  | p :: ps =>
      if (0 <? length current)%nat && (mtu <=? length current + length p)%nat
      then compact_loop mtu ([] ++ p) (combined ++ [current]) ps
      else compact_loop mtu (current ++ p) combined ps
  end.

Definition compactRawPackets (mtu : nat) (raw : list bytes) : list bytes :=
  if (length raw =? 1)%nat then raw else compact_loop mtu [] [] raw.

(** ** The fragment buffer *)

Definition fragmentBufferMaxSize : nat := Z.to_nat 2000000.

Record fragment := mkFragment {
  recordLayerHeader : Header;
  handshakeHeader : HsHeader;
  fdata : bytes
}.

Record fragmentBuffer := mkFragmentBuffer {
  fcache : gmap Z (list fragment);
  currentMessageSequenceNumber : Z
}.

Definition newFragmentBuffer : fragmentBuffer := mkFragmentBuffer ∅ 0.

Definition frags_size (l : list fragment) : nat := sum_list_with (fun f => length (fdata f)) l.

Definition fb_size (f : fragmentBuffer) : nat :=
  map_fold (fun _ l n => frags_size l + n)%nat 0%nat (fcache f).

(** The loop of [push] over the messages of a record.  The fragments stored
    before an error stay in the cache. *)
Fixpoint push_loop (fuel : nat) (rh : Header) (buf : bytes) (retransmit : bool) (f : fragmentBuffer)
    : res derr (bool * bool) * fragmentBuffer :=
  if is_nil buf then (Ok (true, retransmit), f)
  else match fuel with
  | O => (Err Diverges, f)
  | S fuel' =>
      match HsHeader_Unmarshal buf with
      | Err e => (Err e, f)
      | Ok hh =>
          let retransmit := (FragmentOffset hh =? 0)%Z &&
                            (MessageSequence hh <? currentMessageSequenceNumber f)%Z in
          let end_ := Z.to_nat (u32 (Z.of_nat HeaderLength + hs_Length hh)) in
          let end_ := if (length buf <? end_)%nat then length buf else end_ in
          let frag := mkFragment rh hh (slice HeaderLength end_ buf) in
          let old := default [] (fcache f !! MessageSequence hh) in
          push_loop fuel' zero_Header (drop end_ buf) retransmit
            (mkFragmentBuffer (<[MessageSequence hh := old ++ [frag]]> (fcache f))
               (currentMessageSequenceNumber f))
      end
  end.

(** [push]: (isHandshake, isRetransmit) or an error, and the buffer.  The
    record header is only kept with the first message of the record: the loop
    makes a new fragment for each further one. *)
Definition push (f : fragmentBuffer) (buf : bytes) : res derr (bool * bool) * fragmentBuffer :=
  if (fragmentBufferMaxSize <=? fb_size f + length buf)%nat then (Err errFragmentBufferOverflow, f)
  else match Header_Unmarshal zero_Header buf with
  | Err e => (Err e, f)
  | Ok rh =>
      if negb (ContentType rh =? ContentTypeHandshake)%Z then (Ok (false, false), f)
      else push_loop (length buf) rh (drop FixedHeaderSize buf) false f
  end.

(** [appendMessage(targetOffset)]: the message from that offset on, from the
    first fragment that starts there; the inner [None] is [false], the outer
    one that the bound on the depth was reached. *)
Fixpoint append_message (fuel : nat) (frags : list fragment) (target : Z) : option (option bytes) :=
  match fuel with
  | O => None
  | S fuel' =>
      match find (fun f => (FragmentOffset (handshakeHeader f) =? target)%Z) frags with
      | None => Some None
      | Some f =>
          let h := handshakeHeader f in
          let fragmentEnd := u32 (FragmentOffset h + FragmentLength h) in
          if negb (fragmentEnd =? hs_Length h)%Z && negb (FragmentLength h =? 0)%Z then
            match append_message fuel' frags fragmentEnd with
            | None => None
            | Some None => Some None
            | Some (Some raw) => Some (Some (fdata f ++ raw))
            end
          else Some (Some (fdata f ++ []))
      end
  end.

(** [pop]: the next message with a rebuilt header and its epoch, or nothing. *)
Definition pop (f : fragmentBuffer) : option (bytes * Z) * fragmentBuffer :=
  match fcache f !! currentMessageSequenceNumber f with
  | None => (None, f)
  | Some frags =>
      match append_message (S (length frags)) frags 0, frags with
      | Some (Some raw), first :: _ =>
          let h := handshakeHeader first in
          let h := mkHsHeader (hs_Type h) (hs_Length h) (MessageSequence h) 0 (hs_Length h) in
          (Some (HsHeader_Marshal h ++ raw, Epoch (recordLayerHeader first)),
           mkFragmentBuffer (delete (currentMessageSequenceNumber f) (fcache f))
             (u16 (currentMessageSequenceNumber f + 1)))
      | _, _ => (None, f)
      end
  end.

(** ** The handshake cache *)

Record handshakeCacheItem := mkItem {
  i_typ : Z; i_isClient : bool; i_epoch : Z; i_seq : Z; i_data : bytes
}.

Record pullRule := mkRule { r_typ : Z; r_epoch : Z; r_isClient : bool; r_optional : bool }.

Definition handshakeCache := list handshakeCacheItem.

Definition cache_push (h : handshakeCache) (data : bytes) (epoch seq typ : Z) (isClient : bool)
    : handshakeCache :=
  h ++ [mkItem typ isClient epoch seq ([] ++ data)].

Definition rule_matches (r : pullRule) (c : handshakeCacheItem) : bool :=
  (i_typ c =? r_typ r)%Z && Bool.eqb (i_isClient c) (r_isClient r) && (i_epoch c =? r_epoch r)%Z.

(** The inner loop of [pull]: the item held so far and the next one. *)
Definition pull_step (r : pullRule) (held : option handshakeCacheItem) (c : handshakeCacheItem)
    : option handshakeCacheItem :=
  if rule_matches r c then
    match held with
    | None => Some c
    | Some o => if (i_seq o <? i_seq c)%Z then Some c else held
    end
  else held.

Definition pull1 (h : handshakeCache) (r : pullRule) : option handshakeCacheItem :=
  foldl (pull_step r) None h.

Definition pull (h : handshakeCache) (rules : list pullRule) : list (option handshakeCacheItem) :=
  map (pull1 h) rules.

(** The first loop of [fullPullMap]: the items by message type, or a missing
    mandatory message.  Two rules with one type share a slot, and the later
    rule decides. *)
Fixpoint collect (h : handshakeCache) (rules : list pullRule)
    (ci : gmap Z (option handshakeCacheItem)) : option (gmap Z (option handshakeCacheItem)) :=
  match rules with
  | [] => Some ci
  | r :: rs =>
      let item := pull1 h r in
      if negb (r_optional r) && negb (bool_decide (is_Some item)) then None
      else collect h rs (<[r_typ r := item]> ci)
  end.

(** The second loop: decode in order and check that the sequence numbers have
    no gap. *)
Fixpoint decode_items `{Cryptobyte} (kx : Z) (ci : gmap Z (option handshakeCacheItem))
    (rules : list pullRule) (seq : Z) (ok : bool) (out : gmap Z Message)
    : option (Z * bool * gmap Z Message) :=
  match rules with
  | [] => Some (seq, ok, out)
  | r :: rs =>
      match mjoin (ci !! r_typ r) with
      | None => decode_items kx ci rs seq ok out
      | Some i =>
          match Handshake_Unmarshal kx (i_data i) with
          | Err _ => None
          | Ok hs =>
              if negb (u16 seq =? MessageSequence (hsk_Header hs))%Z then None
              else match hsk_Message hs with
                   | Some m => decode_items kx ci rs (seq + 1) true (<[r_typ r := m]> out)
                   | None => None
                   end
          end
      end
  end.

Definition fullPullMap `{Cryptobyte} (h : handshakeCache) (startSeq : Z) (suiteKx : option Z)
    (rules : list pullRule) : Z * option (gmap Z Message) :=
  match collect h rules ∅ with
  | None => (startSeq, None)
  | Some ci =>
      match decode_items (default KeyExchangeAlgorithmNone suiteKx) ci rules startSeq false ∅ with
      | None => (startSeq, None)
      | Some (seq, ok, out) => if ok then (seq, Some out) else (seq, None)
      end
  end.

Definition pullAndMerge (h : handshakeCache) (rules : list pullRule) : bytes :=
  concat (map (fun p => match p with Some i => i_data i | None => [] end) (pull h rules)).

(** [sessionHash]: the messages of the handshake in their order, then
    [additional], through a hash function [hf] that may fail. *)
Definition sessionHash_rules (epoch : Z) : list pullRule :=
  [mkRule TypeClientHello epoch true false;
   mkRule TypeServerHello epoch false false;
   mkRule TypeCertificate epoch false false;
   mkRule TypeServerKeyExchange epoch false false;
   mkRule TypeCertificateRequest epoch false false;
   mkRule TypeServerHelloDone epoch false false;
   mkRule TypeCertificate epoch true false;
   mkRule TypeClientKeyExchange epoch true false].

Definition sessionHash {E} (hf : bytes -> res E bytes) (h : handshakeCache) (epoch : Z)
    (additional : list bytes) : res E bytes :=
  hf (pullAndMerge h (sessionHash_rules epoch) ++ concat additional).

#[local] Arguments be_put : simpl never.

Lemma fragmentBufferMaxSize_eq : Z.of_nat fragmentBufferMaxSize = 2000000%Z.
Proof. apply Z2Nat.id. lia. Qed.

#[global] Opaque fragmentBufferMaxSize.

(** ** Cutting *)

Lemma split_loop_spec fuel data n i :
  (0 < n)%nat -> (length data <= i + fuel)%nat ->
  concat (split_loop fuel data n i) = drop i data /\
  Forall (fun p => p <> [] /\ (length p <= n)%nat) (split_loop fuel data n i).
Proof.
  intros Hn. revert i. induction fuel as [|fuel IH]; intros i Hf; cbn [split_loop].
  - split; [|constructor]. simpl. symmetry. apply drop_ge. lia.
  - destruct (Nat.ltb_spec i (length data)) as [Hi|Hi].
    2:{ split; [|constructor]. simpl. symmetry. by apply drop_ge. }
    destruct (IH (i + n)%nat ltac:(lia)) as [Hc Hall]. cbv zeta.
    set (j := if (length data <? i + n)%nat then _ else _).
    assert (Hj : j = Nat.min (length data) (i + n)).
    { unfold j. destruct (Nat.ltb_spec (length data) (i + n)); lia. }
    assert (Hl : length (slice i j data) = (j - i)%nat) by (apply length_slice; lia).
    split.
    + cbn [concat]. rewrite Hc. unfold slice. rewrite <- drop_drop.
      destruct (decide (i + n <= length data)%nat).
      * replace (j - i)%nat with n by lia. apply take_drop.
      * rewrite take_ge by (len; lia). rewrite (drop_ge (drop i data)) by (len; lia).
        by rewrite app_nil_r.
    + constructor; [|done]. split; [|lia]. intros E. rewrite E in Hl. simpl in Hl. lia.
Qed.

(** The pieces of a message: what they concatenate to, and that none is empty
    unless the message is. *)
Definition wf_pieces (ps : list bytes) : Prop := (ps <> [] /\ Forall (fun p => p <> []) ps) \/ ps = [[]].

Definition pieces_of (content : bytes) (mtu : nat) : list bytes :=
  if is_nil (splitBytes content mtu) then [[]] else splitBytes content mtu.

Lemma pieces_of_spec content mtu :
  (0 < mtu)%nat ->
  wf_pieces (pieces_of content mtu) /\ concat (pieces_of content mtu) = content /\
  Forall (fun p => (length p <= mtu)%nat) (pieces_of content mtu).
Proof.
  intros Hm. destruct (split_loop_spec (length content) content mtu 0 Hm ltac:(lia)) as [Hc Hall].
  fold (splitBytes content mtu) in Hc, Hall. unfold pieces_of.
  destruct (splitBytes content mtu) as [|p ps] eqn:E; cbn [is_nil].
  - simpl in Hc. subst. split_and!; [by right|done|]. repeat constructor. simpl. lia.
  - split_and!; [left; split; [done|]|done|]; (eapply Forall_impl; [exact Hall|]); intros ? []; done.
Qed.

(** Where the [k]-th piece starts. *)
Definition piece_off (ps : list bytes) (k : nat) : nat := length (concat (take k ps)).

Lemma piece_off_S ps k p : ps !! k = Some p -> piece_off ps (S k) = (piece_off ps k + length p)%nat.
Proof.
  intros H. unfold piece_off. rewrite (take_S_r _ _ _ H), concat_app, length_app. simpl.
  by rewrite app_nil_r.
Qed.

Lemma piece_off_le ps j k : (j <= k)%nat -> (piece_off ps j <= piece_off ps k)%nat.
Proof.
  intros H. unfold piece_off. rewrite <- (take_drop j (take k ps)), take_take.
  replace (j `min` k) with j by lia.
  rewrite concat_app, length_app. lia.
Qed.

Lemma piece_off_total ps : piece_off ps (length ps) = length (concat ps).
Proof. unfold piece_off. by rewrite firstn_all. Qed.

(** Pieces start at different offsets. *)
Lemma piece_off_lt ps j k p :
  wf_pieces ps -> ps !! j = Some p -> (j < k)%nat -> (k < length ps)%nat ->
  (piece_off ps j < piece_off ps k)%nat.
Proof.
  intros Hw Hj Hlt Hk. pose proof (piece_off_S ps j p Hj) as HS.
  pose proof (piece_off_le ps (S j) k ltac:(lia)).
  destruct Hw as [[_ Hne]| ->]; [|simpl in Hk; lia].
  eapply Forall_lookup_1 in Hne; [|done]. destruct p; [done|]. simpl in HS. lia.
Qed.

Lemma piece_off_inj ps j k p q :
  wf_pieces ps -> ps !! j = Some p -> ps !! k = Some q -> piece_off ps j = piece_off ps k -> j = k.
Proof.
  intros Hw Hj Hk He. pose proof (lookup_lt_Some _ _ _ Hj). pose proof (lookup_lt_Some _ _ _ Hk).
  destruct (Nat.lt_trichotomy j k) as [Hl|[->|Hl]]; [|done|].
  - pose proof (piece_off_lt ps j k p Hw Hj Hl ltac:(done)). lia.
  - pose proof (piece_off_lt ps k j q Hw Hk Hl ltac:(done)). lia.
Qed.

(** The header of the [k]-th fragment of a message. *)
Definition frag_header (ty seq : Z) (ps : list bytes) (k : nat) (p : bytes) : HsHeader :=
  mkHsHeader ty (Z.of_nat (length (concat ps))) seq (Z.of_nat (piece_off ps k)) (Z.of_nat (length p)).

Lemma fragment_loop_eq ty seq ps off k :
  (Z.of_nat (length (concat ps)) < 2 ^ 24)%Z -> off = piece_off ps k ->
  forall n fl o, fragment_loop (mkHsHeader ty (Z.of_nat (length (concat ps))) seq o fl) off (drop k (take (k + n) ps))
    = imap (fun i p => hs_header_bytes (frag_header ty seq ps (k + i) p) ++ p) (drop k (take (k + n) ps)).
Proof.
  intros Hl Hoff n fl o. revert off k Hoff. induction n as [|n IH]; intros off k Hoff.
  - rewrite Nat.add_0_r, drop_ge by len. done.
  - destruct (ps !! k) as [p|] eqn:Hk.
    2:{ apply lookup_ge_None in Hk. rewrite drop_ge by len. done. }
    assert (Hk' : take (k + S n) ps !! k = Some p) by (rewrite lookup_take_lt by lia; done).
    rewrite (drop_S _ _ _ Hk'). cbn [fragment_loop imap]. rewrite HsHeader_Marshal_eq.
    pose proof (piece_off_S ps k p Hk) as HS.
    pose proof (piece_off_le ps (S k) (length ps) (lookup_lt_Some _ _ _ Hk)) as Hle.
    rewrite piece_off_total in Hle. f_equal.
    + unfold frag_header. rewrite Nat.add_0_r, !wrap_small by lia. by subst off.
    + replace (k + S n)%nat with (S k + n)%nat by lia. rewrite IH by lia.
      apply imap_ext. intros i q _. cbn. by rewrite Nat.add_succ_r.
Qed.

(** ** Reassembly *)

(** Fragments as the buffer stores them: the header fields are 24 bits wide. *)
Definition frag24 (f : fragment) : Prop :=
  (0 <= FragmentOffset (handshakeHeader f) < 2 ^ 24)%Z /\
  (0 <= FragmentLength (handshakeHeader f) < 2 ^ 24)%Z.

Definition starts_from (target : Z) (f : fragment) : bool :=
  (target <=? FragmentOffset (handshakeHeader f))%Z.

Lemma length_filter_lt {A} (P Q : A -> bool) (l : list A) x :
  x ∈ l -> (forall y, Q y = true -> P y = true) -> P x = true -> Q x = false ->
  (length (List.filter Q l) < length (List.filter P l))%nat.
Proof.
  intros Hx HPQ HP HQ.
  assert (Hle : forall k, (length (List.filter Q k) <= length (List.filter P k))%nat).
  { induction k as [|z k IHk]; simpl; [lia|].
    destruct (Q z) eqn:EQ; [rewrite (HPQ z EQ); simpl; lia|]. destruct (P z); simpl; lia. }
  apply list_elem_of_split in Hx as (l1 & l2 & ->).
  rewrite !List.filter_app, !length_app. simpl. rewrite HP, HQ. simpl.
  pose proof (Hle l1). pose proof (Hle l2). lia.
Qed.

Lemma append_message_total fuel frags target :
  Forall frag24 frags ->
  (length (List.filter (starts_from target) frags) < fuel)%nat ->
  append_message fuel frags target <> None.
Proof.
  intros Hall. revert target. induction fuel as [|fuel IH]; intros target Hf; [lia|].
  cbn [append_message]. destruct (find _ frags) as [f|] eqn:Ef; [|done].
  apply find_some in Ef as [Hin Ho]. apply Z.eqb_eq in Ho. apply list_elem_of_In in Hin.
  destruct (_ && _) eqn:Ec; [|done]. apply andb_true_iff in Ec as [_ Hl].
  apply negb_true_iff, Z.eqb_neq in Hl.
  rewrite Forall_forall in Hall. destruct (Hall f Hin) as [Hr1 Hr2].
  assert (He : append_message fuel frags
    (u32 (FragmentOffset (handshakeHeader f) + FragmentLength (handshakeHeader f))) <> None).
  { apply IH. rewrite wrap_small by lia.
    eapply Nat.lt_le_trans; [|apply Nat.lt_succ_r, Hf].
    apply (length_filter_lt _ _ _ f); unfold starts_from; [done| | |].
    - intros y Hy. apply Z.leb_le in Hy. apply Z.leb_le. lia.
    - apply Z.leb_le. lia.
    - apply Z.leb_gt. lia. }
  destruct (append_message fuel frags _) as [[raw|]|]; done.
Qed.

Lemma append_message_mono fuel k frags target r :
  append_message fuel frags target = Some r -> append_message (fuel + k) frags target = Some r.
Proof.
  revert target r. induction fuel as [|fuel IH]; intros target r H; [done|].
  cbn [append_message Nat.add] in *. destruct (find _ frags) as [f|]; [|done].
  destruct (_ && _); [|done].
  destruct (append_message fuel frags _) as [[raw|]|] eqn:E; [| |done];
    by rewrite (IH _ _ E).
Qed.

(** Putting a message together ends: the recursion of [appendMessage] is no
    deeper than the number of fragments, because every step goes to a larger
    offset. *)
Theorem append_message_terminates frags target :
  Forall frag24 frags -> append_message (S (length frags)) frags target <> None.
Proof.
  intros H. apply append_message_total; [done|].
  apply Nat.lt_succ_r, List.filter_length_le.
Qed.

(** [f] is the [k]-th piece of the message [(ty, ps)] with number [seq]. *)
Definition genuine (ty seq : Z) (ps : list bytes) (f : fragment) : Prop :=
  exists k p, ps !! k = Some p /\ handshakeHeader f = frag_header ty seq ps k p /\ fdata f = p.

Definition small_message (ps : list bytes) : Prop :=
  wf_pieces ps /\ (Z.of_nat (length (concat ps)) < 2 ^ 24)%Z.

Lemma genuine_frag24 ty seq ps f : small_message ps -> genuine ty seq ps f -> frag24 f.
Proof.
  intros [Hw Hl] (k & p & Hk & Hh & _). unfold frag24. rewrite Hh. cbn.
  pose proof (piece_off_S ps k p Hk) as HS.
  pose proof (piece_off_le ps (S k) (length ps) (lookup_lt_Some _ _ _ Hk)) as Hle.
  rewrite piece_off_total in Hle. lia.
Qed.

(** With every piece present, in any order and any number of times, the
    recursion gives the message from the [k]-th piece on. *)
Lemma append_message_pieces ty seq ps frags n :
  small_message ps -> Forall (genuine ty seq ps) frags ->
  (forall k p, ps !! k = Some p -> exists f, f ∈ frags /\
     FragmentOffset (handshakeHeader f) = Z.of_nat (piece_off ps k)) ->
  forall k, (k < length ps)%nat -> (length ps - k <= n)%nat ->
  append_message n frags (Z.of_nat (piece_off ps k)) = Some (Some (concat (drop k ps))).
Proof.
  intros [Hw Hl] Hall Hpres. induction n as [|n IH]; intros k Hk Hn; [lia|].
  destruct (lookup_lt_is_Some_2 ps k Hk) as [p Hp]. cbn [append_message].
  destruct (find _ frags) as [f|] eqn:Ef.
  2:{ exfalso. destruct (Hpres k p Hp) as (f & Hin & Ho).
      apply list_elem_of_In, (find_none _ _ Ef f) in Hin. by apply Z.eqb_neq in Hin. }
  apply find_some in Ef as [Hin Ho]. apply Z.eqb_eq in Ho. apply list_elem_of_In in Hin.
  rewrite Forall_forall in Hall. destruct (Hall f Hin) as (k' & p' & Hp' & Hh & Hd).
  rewrite Hh in *. cbn [frag_header FragmentOffset FragmentLength hs_Length] in *.
  assert (k' = k) as -> by (apply (piece_off_inj ps k' k p' p Hw Hp' Hp); lia).
  assert (p' = p) as -> by congruence.
  pose proof (piece_off_S ps k p Hp) as HS.
  pose proof (piece_off_le ps (S k) (length ps) ltac:(lia)) as Hle. rewrite piece_off_total in Hle.
  rewrite wrap_small by lia.
  rewrite (drop_S ps p k Hp). cbn [concat]. rewrite Hd.
  destruct (decide (S k = length ps)) as [Hlast|Hlast].
  - rewrite Hlast, piece_off_total in HS.
    rewrite (proj2 (Z.eqb_eq (_ + _) _)) by lia. cbn [negb andb].
    rewrite drop_ge by lia. done.
  - assert (Hlt : (piece_off ps (S k) < length (concat ps))%nat).
    { destruct (lookup_lt_is_Some_2 ps (S k) ltac:(lia)) as [q Hq].
      pose proof (piece_off_S ps (S k) q Hq) as HS'.
      pose proof (piece_off_le ps (S (S k)) (length ps) ltac:(lia)) as Hle'. rewrite piece_off_total in Hle'.
      destruct Hw as [[_ Hne]| ->]; [|simpl in Hk, Hlast; lia].
      eapply Forall_lookup_1 in Hne; [|exact Hq]. destruct q; [done|]. simpl in HS'. lia. }
    assert (Hpl : (0 < length p)%nat).
    { destruct Hw as [[_ Hne]| ->]; [|simpl in Hk, Hlast; lia].
      eapply Forall_lookup_1 in Hne; [|exact Hp]. destruct p; [done|]. simpl. lia. }
    rewrite (proj2 (Z.eqb_neq (_ + _) _)) by lia. rewrite (proj2 (Z.eqb_neq _ 0)) by lia.
    cbn [negb andb]. replace (Z.of_nat (piece_off ps k) + Z.of_nat (length p))%Z
      with (Z.of_nat (piece_off ps (S k))) by lia.
    by rewrite IH by lia.
Qed.

Lemma append_message_whole ty seq ps frags :
  small_message ps -> Forall (genuine ty seq ps) frags ->
  (forall k p, ps !! k = Some p -> exists f, f ∈ frags /\
     FragmentOffset (handshakeHeader f) = Z.of_nat (piece_off ps k)) ->
  append_message (S (length frags)) frags 0 = Some (Some (concat ps)).
Proof.
  intros Hs Hall Hpres.
  assert (Hne : (0 < length ps)%nat).
  { destruct Hs as [[[Hne _]| ->] _]; [|simpl; lia]. destruct ps; [done|simpl; lia]. }
  pose proof (append_message_pieces ty seq ps frags (length ps) Hs Hall Hpres 0 Hne ltac:(lia)) as H1.
  rewrite drop_0 in H1. change (Z.of_nat (piece_off ps 0)) with 0%Z in H1.
  assert (H2 : append_message (S (length frags)) frags 0 <> None).
  { apply append_message_total; [|apply Nat.lt_succ_r, List.filter_length_le].
    eapply Forall_impl; [exact Hall|]. intros f. by apply genuine_frag24. }
  destruct (append_message (S (length frags)) frags 0) as [r|] eqn:E; [|done].
  apply (append_message_mono _ (length ps)) in E.
  apply (append_message_mono _ (S (length frags))) in H1.
  rewrite Nat.add_comm, H1 in E. congruence.
Qed.

(** Without all pieces the recursion may fail, but what it returns is right. *)
Lemma append_message_sound ty seq ps frags n k raw :
  small_message ps -> Forall (genuine ty seq ps) frags -> (k < length ps)%nat ->
  append_message n frags (Z.of_nat (piece_off ps k)) = Some (Some raw) ->
  raw = concat (drop k ps).
Proof.
  intros [Hw Hl] Hall. revert k raw. induction n as [|n IH]; intros k raw Hk H; [done|].
  destruct (lookup_lt_is_Some_2 ps k Hk) as [p Hp]. cbn [append_message] in H.
  destruct (find _ frags) as [f|] eqn:Ef; [|done].
  apply find_some in Ef as [Hin Ho]. apply Z.eqb_eq in Ho. apply list_elem_of_In in Hin.
  rewrite Forall_forall in Hall. destruct (Hall f Hin) as (k' & p' & Hp' & Hh & Hd).
  rewrite Hh in *. cbn [frag_header FragmentOffset FragmentLength hs_Length] in *.
  assert (k' = k) as -> by (apply (piece_off_inj ps k' k p' p Hw Hp' Hp); lia).
  assert (p' = p) as -> by congruence.
  pose proof (piece_off_S ps k p Hp) as HS.
  pose proof (piece_off_le ps (S k) (length ps) ltac:(lia)) as Hle. rewrite piece_off_total in Hle.
  rewrite wrap_small in H by lia. rewrite Hd in H.
  rewrite (drop_S ps p k Hp). cbn [concat].
  replace (Z.of_nat (piece_off ps k) + Z.of_nat (length p))%Z
      with (Z.of_nat (piece_off ps (S k))) in H by lia.
  destruct (_ && _) eqn:Ec.
  - destruct (append_message n frags _) as [[raw'|]|] eqn:E; [|done|done].
    injection H as <-. f_equal. apply (IH (S k)); [|done].
    apply andb_true_iff in Ec as [Ec _]. apply negb_true_iff, Z.eqb_neq in Ec.
    destruct (decide (S k = length ps)) as [e|]; [|lia]. rewrite e, piece_off_total in Ec. done.
  - injection H as <-. f_equal. rewrite drop_ge; [done|].
    apply andb_false_iff in Ec as [Ec|Ec]; apply negb_false_iff, Z.eqb_eq in Ec.
    + destruct (decide (S k < length ps)%nat) as [Hlt|]; [|lia]. exfalso.
      destruct (lookup_lt_is_Some_2 ps (S k) Hlt) as [q Hq].
      pose proof (piece_off_S ps (S k) q Hq) as HS'.
      pose proof (piece_off_le ps (S (S k)) (length ps) ltac:(lia)) as Hle'. rewrite piece_off_total in Hle'.
      destruct Hw as [[_ Hne]| ->]; [|simpl in Hlt; lia].
      eapply Forall_lookup_1 in Hne; [|exact Hq]. destruct q; [done|]. simpl in HS'. lia.
    + destruct Hw as [[_ Hne]| ->]; [|simpl; lia].
      eapply Forall_lookup_1 in Hne; [|exact Hp]. destruct p; [done|]. simpl in Ec. lia.
Qed.

(** ** Messages on the wire *)

(** A flight of messages, by sequence number: type, epoch and pieces. *)
Record hmsg := mkMsg { m_ty : Z; m_epoch : Z; m_pieces : list bytes }.

Definition msg_ok (m : hmsg) : Prop :=
  (0 <= m_ty m < 256)%Z /\ u16_range (m_epoch m) /\ small_message (m_pieces m).

Definition flight_ok (msgs : list hmsg) : Prop :=
  Forall msg_ok msgs /\ (Z.of_nat (length msgs) < 65536)%Z.

(** What [pop] must return for the message [n]. *)
Definition whole (n : nat) (m : hmsg) : bytes * Z :=
  let l := Z.of_nat (length (concat (m_pieces m))) in
  (hs_header_bytes (mkHsHeader (m_ty m) l (Z.of_nat n) 0 l) ++ concat (m_pieces m), m_epoch m).

(** The record header a fragment travels under, and the record. *)
Definition wire_header (rseq cl : Z) (m : hmsg) : Header :=
  mkHeader ContentTypeHandshake cl Version1_2 (m_epoch m) rseq [].

Definition wire_record (rseq cl : Z) (n : nat) (m : hmsg) (k : nat) (p : bytes) : bytes :=
  header_bytes (wire_header rseq cl m)
  ++ hs_header_bytes (frag_header (m_ty m) (Z.of_nat n) (m_pieces m) k p) ++ p.

Lemma frag_header_wf m n k p :
  msg_ok m -> (Z.of_nat n < 65536)%Z -> m_pieces m !! k = Some p ->
  hs_header_wf (frag_header (m_ty m) (Z.of_nat n) (m_pieces m) k p).
Proof.
  intros (Ht & _ & Hw & Hl) Hn Hk.
  pose proof (piece_off_S _ k p Hk) as HS.
  pose proof (piece_off_le (m_pieces m) (S k) _ (lookup_lt_Some _ _ _ Hk)) as Hle.
  rewrite piece_off_total in Hle. split; cbn; lia.
Qed.

Definition store (f : fragmentBuffer) (n : Z) (frag : fragment) : fragmentBuffer :=
  mkFragmentBuffer (<[n := default [] (fcache f !! n) ++ [frag]]> (fcache f))
    (currentMessageSequenceNumber f).

(** A record body that is one fragment: the loop stores it and ends. *)
Lemma push_loop_one fuel rh buf rt f hh p :
  HsHeader_Unmarshal buf = Ok hh -> length buf = (12 + length p)%nat -> drop 12 buf = p ->
  (Z.of_nat (length p) <= hs_Length hh < 2 ^ 24)%Z ->
  exists rt', push_loop (S fuel) rh buf rt f =
    (Ok (true, rt'), store f (MessageSequence hh) (mkFragment rh hh p)).
Proof.
  intros Hhh Hb Hd Hl. cbn [push_loop]. rewrite Hhh.
  destruct buf as [|b0 buf0] eqn:Eb; [simpl in Hb; lia|]. cbn [is_nil]. rewrite <- Eb in *.
  set (e := if (_ <? _)%nat then _ else _).
  assert (Hee : e = length buf).
  { unfold e, HeaderLength. rewrite wrap_small by lia.
    destruct (Nat.ltb_spec (length buf) (Z.to_nat (Z.of_nat 12 + hs_Length hh))); [done|]. lia. }
  rewrite Hee, (drop_ge buf (length buf)) by lia. unfold slice, HeaderLength.
  rewrite Hd, take_ge by lia. destruct fuel; cbn [push_loop is_nil]; eexists; reflexivity.
Qed.

Lemma push_one f buf rh hh p :
  Header_Unmarshal zero_Header buf = Ok rh -> ContentType rh = ContentTypeHandshake ->
  HsHeader_Unmarshal (drop 13 buf) = Ok hh -> length buf = (25 + length p)%nat -> drop 25 buf = p ->
  (Z.of_nat (length p) <= hs_Length hh < 2 ^ 24)%Z ->
  (fb_size f + length buf < fragmentBufferMaxSize)%nat ->
  exists rt, push f buf = (Ok (true, rt), store f (MessageSequence hh) (mkFragment rh hh p)).
Proof.
  intros Hrh Hct Hhh Hl Hp Hlen Hsz. unfold push.
  destruct (Nat.leb_spec fragmentBufferMaxSize (fb_size f + length buf)); [lia|].
  rewrite Hrh, Hct, Z.eqb_refl. cbn [negb]. unfold FixedHeaderSize.
  replace (length buf) with (S (24 + length p)) by lia.
  apply push_loop_one; [done|rewrite length_drop; lia| |done].
  by rewrite drop_drop.
Qed.

(** Pushing the record of one fragment stores that fragment. *)
Lemma push_wire f rseq cl n m k p :
  msg_ok m -> (Z.of_nat n < 65536)%Z -> m_pieces m !! k = Some p ->
  (0 <= rseq <= MaxSequenceNumber)%Z -> u16_range cl ->
  (fb_size f + length (wire_record rseq cl n m k p) < fragmentBufferMaxSize)%nat ->
  exists rt, push f (wire_record rseq cl n m k p) =
    (Ok (true, rt), store f (Z.of_nat n)
       (mkFragment (with_len (wire_header rseq cl m) 0)
          (frag_header (m_ty m) (Z.of_nat n) (m_pieces m) k p) p)).
Proof.
  intros Hm Hn Hk Hr Hcl Hsz.
  pose proof (frag_header_wf m n k p Hm Hn Hk) as Hhw.
  destruct Hm as (Ht & He & Hw & Hl). unfold u16_range in *.
  assert (Hdw : header_wf (wire_header rseq cl m)).
  { split; cbn; auto; unfold ContentTypeHandshake; lia. }
  pose proof (piece_off_S _ k p Hk) as HS.
  pose proof (piece_off_le (m_pieces m) (S k) _ (lookup_lt_Some _ _ _ Hk)) as Hle.
  rewrite piece_off_total in Hle.
  apply (push_one f _ _ (frag_header (m_ty m) (Z.of_nat n) (m_pieces m) k p)).
  - unfold wire_record. by apply (Header_roundtrip zero_Header).
  - done.
  - unfold wire_record. rewrite (drop_app_length' (header_bytes _)) by (by rewrite length_header_bytes).
    by apply HsHeader_roundtrip.
  - unfold wire_record. rewrite !length_app, length_header_bytes, length_hs_header_bytes. done.
  - unfold wire_record. rewrite app_assoc. apply drop_app_length'.
    by rewrite length_app, length_header_bytes, length_hs_header_bytes.
  - cbn. lia.
  - done.
Qed.

(** ** The size of the buffer *)

Lemma fb_size_insert (c : gmap Z (list fragment)) cur n l :
  fb_size (mkFragmentBuffer (<[n := l]> c) cur)
    = (frags_size l + fb_size (mkFragmentBuffer (delete n c) cur))%nat.
Proof.
  unfold fb_size. cbn [fcache]. rewrite <- insert_delete_eq.
  rewrite map_fold_insert_L; [done|intros; lia|apply lookup_delete_eq].
Qed.

Lemma fb_size_split (f : fragmentBuffer) n :
  fb_size f = (frags_size (default [] (fcache f !! n))
     + fb_size (mkFragmentBuffer (delete n (fcache f)) (currentMessageSequenceNumber f)))%nat.
Proof.
  destruct f as [c cur]. cbn [fcache currentMessageSequenceNumber].
  destruct (c !! n) as [l|] eqn:E; simpl default.
  - rewrite <- (insert_id c n l) at 1 by done. by rewrite fb_size_insert.
  - by rewrite delete_id.
Qed.

Lemma fb_size_store f n fr :
  fb_size (store f n fr) = (fb_size f + length (fdata fr))%nat.
Proof.
  unfold store. rewrite fb_size_insert, (fb_size_split f n). unfold frags_size.
  rewrite sum_list_with_app. simpl. lia.
Qed.

(** ** In order, whole, once *)

Section flight.
Variable msgs : list hmsg.
Hypothesis Hmsgs : flight_ok msgs.

(** What happens at the buffer: a record with a fragment arrives, or the
    connection asks for the next message. *)
Inductive op := Deliver (rseq cl : Z) (n k : nat) | Pop.

Definition op_ok (o : op) : Prop :=
  match o with
  | Deliver rseq cl n k => (0 <= rseq <= MaxSequenceNumber)%Z /\ u16_range cl /\
      exists m p, msgs !! n = Some m /\ m_pieces m !! k = Some p
  | Pop => True
  end.

Definition run_op (f : fragmentBuffer) (o : op) : list (bytes * Z) * fragmentBuffer :=
  match o with
  | Deliver rseq cl n k =>
      match msgs !! n with
      | Some m => match m_pieces m !! k with
                  | Some p => ([], snd (push f (wire_record rseq cl n m k p)))
                  | None => ([], f)
                  end
      | None => ([], f)
      end
  | Pop => let '(r, f') := pop f in (option_list r, f')
  end.

Fixpoint run (f : fragmentBuffer) (ops : list op) : list (bytes * Z) * fragmentBuffer :=
  match ops with
  | [] => ([], f)
  | o :: os => let '(out, f') := run_op f o in
               let '(outs, f'') := run f' os in (out ++ outs, f'')
  end.

(** Every cached fragment is a piece of the message it is filed under. *)
Definition filed (n : Z) (m : hmsg) (fr : fragment) : Prop :=
  genuine (m_ty m) n (m_pieces m) fr /\ Epoch (recordLayerHeader fr) = m_epoch m.

Definition fb_inv (f : fragmentBuffer) : Prop :=
  (exists c : nat, currentMessageSequenceNumber f = Z.of_nat c /\ (c <= length msgs)%nat) /\
  forall z frs, fcache f !! z = Some frs ->
    frs <> [] /\ exists n m, z = Z.of_nat n /\ msgs !! n = Some m /\ Forall (filed z m) frs.

Lemma fb_inv_new : fb_inv newFragmentBuffer.
Proof. split; [exists 0%nat; split; [done|lia]|]. intros z frs H. cbn [newFragmentBuffer fcache] in H. by rewrite lookup_empty in H. Qed.

Lemma msg_lookup n m : msgs !! n = Some m -> msg_ok m /\ (Z.of_nat n < 65536)%Z.
Proof.
  intros Hn. destruct Hmsgs as [Hall Hl]. split; [by eapply Forall_lookup_1|].
  apply lookup_lt_Some in Hn. lia.
Qed.

Lemma fb_inv_store f n m fr :
  fb_inv f -> msgs !! n = Some m -> filed (Z.of_nat n) m fr -> fb_inv (store f (Z.of_nat n) fr).
Proof.
  intros [Hc Hf] Hn Hfr. split; [done|]. intros z frs Hz. unfold store in Hz. cbn [fcache] in Hz.
  destruct (decide (z = Z.of_nat n)) as [->|Hne].
  - rewrite lookup_insert_eq in Hz. injection Hz as <-. split; [by destruct (default _ _)|].
    exists n, m. split_and!; [done|done|]. apply Forall_app. split; [|by constructor].
    destruct (fcache f !! Z.of_nat n) as [frs|] eqn:E; simpl; [|constructor].
    destruct (Hf _ _ E) as (_ & n' & m' & Hz & Hm' & Hall). apply Nat2Z.inj in Hz as <-.
    assert (m' = m) as -> by congruence. done.
  - rewrite lookup_insert_ne in Hz by done. by apply Hf.
Qed.

Lemma push_wire_cases f rseq cl n m k p :
  msgs !! n = Some m -> m_pieces m !! k = Some p ->
  (0 <= rseq <= MaxSequenceNumber)%Z -> u16_range cl ->
  push f (wire_record rseq cl n m k p) = (Err errFragmentBufferOverflow, f) \/
  exists rt fr, push f (wire_record rseq cl n m k p) = (Ok (true, rt), store f (Z.of_nat n) fr) /\
    filed (Z.of_nat n) m fr /\ fdata fr = p /\
    FragmentOffset (handshakeHeader fr) = Z.of_nat (piece_off (m_pieces m) k).
Proof.
  intros Hn Hk Hr Hcl. destruct (msg_lookup n m Hn) as [Hm Hlt].
  destruct (decide (fb_size f + length (wire_record rseq cl n m k p) < fragmentBufferMaxSize)%nat) as [Hs|Hs].
  - right. destruct (push_wire f rseq cl n m k p Hm Hlt Hk Hr Hcl Hs) as [rt Hp].
    exists rt. eexists. split_and!; [exact Hp|split|done|done]; [exists k, p; done|done].
  - left. unfold push. destruct (Nat.leb_spec fragmentBufferMaxSize (fb_size f + length (wire_record rseq cl n m k p)));
      [done|lia].
Qed.

(** What [pop] does under the invariant: nothing, or the current message. *)
Lemma pop_inv f :
  fb_inv f ->
  pop f = (None, f) \/
  exists c m, currentMessageSequenceNumber f = Z.of_nat c /\ msgs !! c = Some m /\
    fst (pop f) = Some (whole c m) /\
    currentMessageSequenceNumber (snd (pop f)) = Z.of_nat (S c) /\ fb_inv (snd (pop f)).
Proof.
  intros [(c & Hc & Hcl) Hf]. unfold pop. destruct (fcache f !! _) as [frags|] eqn:E; [|by left].
  destruct (Hf _ _ E) as (Hne & n & m & Hz & Hn & Hall). rewrite Hc in *.
  apply Nat2Z.inj in Hz as <-.
  destruct (append_message (S (length frags)) frags 0) as [[raw|]|] eqn:Ea; [|by left..].
  destruct frags as [|fr frs] eqn:Efr; [done|]. rewrite <- Efr in *. right. exists c, m.
  destruct (msg_lookup c m Hn) as [(Ht & He & Hs) Hlt].
  assert (Hlen : (0 < length (m_pieces m))%nat).
  { destruct Hs as [[[Hp _]| Hp] _]; [|rewrite Hp; simpl; lia]. destruct (m_pieces m); [done|simpl; lia]. }
  assert (Hraw : raw = concat (m_pieces m)).
  { rewrite <- (drop_0 (m_pieces m)). apply (append_message_sound (m_ty m) (Z.of_nat c) _ frags (S (length frags)) 0);
      [done| |done|exact Ea]. eapply Forall_impl; [exact Hall|]. by intros ? []. }
  subst raw. subst frags. apply Forall_cons in Hall as [[(k & p & Hk & Hh & _) Hep] _].
  cbn [fst snd currentMessageSequenceNumber]. rewrite Hh. cbn [frag_header hs_Type hs_Length MessageSequence].
  split_and!; [done|done| | |].
  - unfold whole. by rewrite HsHeader_Marshal_eq, Hep.
  - destruct Hmsgs as [_ Hml]. apply lookup_lt_Some in Hn. rewrite wrap_small by lia. lia.
  - apply lookup_lt_Some in Hn. destruct Hmsgs as [_ Hml]. split.
    + exists (S c). cbn [currentMessageSequenceNumber]. rewrite wrap_small by lia. split; lia.
    + cbn [fcache]. intros z frs' Hz. apply lookup_delete_Some in Hz as [_ Hz]. by apply Hf.
Qed.

Lemma run_op_inv f o :
  fb_inv f -> op_ok o ->
  fb_inv (snd (run_op f o)) /\
  (fst (run_op f o) = [] /\
     currentMessageSequenceNumber (snd (run_op f o)) = currentMessageSequenceNumber f \/
   exists c m, currentMessageSequenceNumber f = Z.of_nat c /\ msgs !! c = Some m /\
     fst (run_op f o) = [whole c m] /\
     currentMessageSequenceNumber (snd (run_op f o)) = Z.of_nat (S c)).
Proof.
  intros Hi Ho. destruct o as [rseq cl n k|]; cbn [run_op].
  - destruct Ho as (Hr & Hcl & m & p & Hn & Hk). rewrite Hn, Hk. cbn [fst snd].
    destruct (push_wire_cases f rseq cl n m k p Hn Hk Hr Hcl) as [->|(rt & fr & -> & Hfr & _)];
      cbn [snd]; [by split; [|left]|]. split; [by eapply fb_inv_store|by left].
  - destruct (pop_inv f Hi) as [->|(c & m & Hc & Hm & Hw & Hc' & Hi')]; [by split; [|left]|].
    destruct (pop f) as [r f']. cbn [fst snd] in *. subst r. split; [done|]. right. by exists c, m.
Qed.

(** The outputs of a run, from the message that was current at its start. *)
Lemma run_outputs f ops c :
  fb_inv f -> Forall op_ok ops -> currentMessageSequenceNumber f = Z.of_nat c ->
  let '(outs, f') := run f ops in
  outs = take (length outs) (drop c (imap whole msgs)) /\
  currentMessageSequenceNumber f' = Z.of_nat (c + length outs) /\ fb_inv f'.
Proof.
  intros Hi Hops. revert f c Hi. induction Hops as [|o ops Ho _ IH]; intros f c Hi Hc; cbn [run].
  - rewrite take_0, Nat.add_0_r. done.
  - destruct (run_op_inv f o Hi Ho) as [Hi' Hcase]. destruct (run_op f o) as [out f1].
    cbn [fst snd] in *. destruct Hcase as [[-> Hc1]|(c' & m & Hc1 & Hm & -> & Hc2)].
    + specialize (IH f1 c Hi' ltac:(congruence)). destruct (run f1 ops) as [outs f2]. exact IH.
    + assert (c' = c) as -> by lia. specialize (IH f1 (S c) Hi' Hc2).
      destruct (run f1 ops) as [outs f2]. destruct IH as (Ho1 & Hc3 & Hi2). cbn [app length].
      split_and!; [|rewrite Hc3; lia|done].
      assert (Hl : imap whole msgs !! c = Some (whole c m)) by (by rewrite list_lookup_imap, Hm).
      rewrite (drop_S _ _ _ Hl). cbn [take]. by rewrite Ho1 at 1.
Qed.
End flight.

(** C38: Handshake messages come out of the fragment buffer whole, in order and
    once.  Whatever fragments of a flight arrive, in any order, any number of
    times, interleaved with requests for the next message and with records
    dropped by the size limit, what the requests return is a prefix of the
    flight: each message with its header rebuilt, its bytes exact and the
    epoch it was sent in. *)
Theorem fragments_in_order msgs ops :
  flight_ok msgs -> Forall (op_ok msgs) ops ->
  let outs := fst (run msgs newFragmentBuffer ops) in
  outs = take (length outs) (imap whole msgs).
Proof.
  intros Hm Hops.
  pose proof (run_outputs msgs Hm newFragmentBuffer ops 0 (fb_inv_new msgs) Hops eq_refl) as H.
  destruct (run msgs newFragmentBuffer ops) as [outs f]. apply H.
Qed.

Definition sample_flight : list hmsg :=
  [mkMsg 1 0 [map z2b [1; 2; 3]%Z; map z2b [4; 5]%Z]; mkMsg 14 0 [[]]; mkMsg 20 1 [map z2b [9]%Z]].

Lemma sample_flight_ok : flight_ok sample_flight.
Proof.
  split; [|simpl; lia]. repeat (apply Forall_cons_2 || apply Forall_nil_2);
    split; try (simpl; lia); (split; [unfold u16_range; simpl; lia|]); (split; [|simpl; lia]).
  - left. split; [done|]. repeat constructor; discriminate.
  - by right.
  - left. split; [done|]. repeat constructor; discriminate.
Qed.

Lemma fragments_in_order_witness :
  let outs := fst (run sample_flight newFragmentBuffer
    [Deliver 3 14 2 0; Pop; Deliver 1 14 0 1; Deliver 1 14 0 1; Pop; Deliver 0 15 0 0; Pop; Pop;
     Deliver 2 12 1 0; Pop; Pop; Pop]) in
  outs = take (length outs) (imap whole sample_flight).
Proof.
  apply fragments_in_order; [apply sample_flight_ok|].
  repeat (apply Forall_cons_2 || apply Forall_nil_2); cbn; try done;
    split; try (unfold MaxSequenceNumber; lia); (split; [unfold u16_range; lia|]); eauto.
Defined.

(** ** Nothing is lost: a complete message comes out *)

Section complete.
Variables (msgs : list hmsg) (c : nat) (m : hmsg).
Hypotheses (Hmsgs : flight_ok msgs) (Hc : msgs !! c = Some m).

Definition present (f : fragmentBuffer) (k : nat) : Prop :=
  exists frs fr, fcache f !! Z.of_nat c = Some frs /\ fr ∈ frs /\
    FragmentOffset (handshakeHeader fr) = Z.of_nat (piece_off (m_pieces m) k).

Lemma present_store f n fr k : present f k -> present (store f n fr) k.
Proof.
  intros (frs & fr0 & Hl & Hin & Ho). unfold present, store. cbn [fcache].
  destruct (decide (n = Z.of_nat c)) as [->|Hne].
  - rewrite lookup_insert_eq, Hl. simpl default. exists (frs ++ [fr]), fr0. split_and!; [done| |done].
    apply elem_of_app. by left.
  - rewrite lookup_insert_ne by done. eauto.
Qed.

Lemma pop_complete f :
  fb_inv msgs f -> currentMessageSequenceNumber f = Z.of_nat c ->
  (forall k, (k < length (m_pieces m))%nat -> present f k) -> fst (pop f) = Some (whole c m).
Proof.
  intros Hi Hcur Hpres. destruct (msg_lookup msgs Hmsgs c m Hc) as [(Ht & He & Hs) Hlt].
  assert (Hlen : (0 < length (m_pieces m))%nat).
  { destruct Hs as [[[Hp _]| Hp] _]; [|rewrite Hp; simpl; lia]. destruct (m_pieces m); [done|simpl; lia]. }
  destruct (Hpres 0%nat Hlen) as (frs & fr0 & Hfrs & Hin0 & _).
  destruct (pop_inv msgs Hmsgs f Hi) as [Hp|(c' & m' & Hc' & Hm' & Hw & _)].
  2:{ assert (c' = c) as -> by lia. congruence. }
  exfalso. unfold pop in Hp. rewrite Hcur, Hfrs in Hp.
  destruct Hi as [_ Hf]. destruct (Hf _ _ Hfrs) as (Hne & n & m' & Hz & Hm' & Hall).
  apply Nat2Z.inj in Hz as <-. assert (m' = m) as -> by congruence.
  rewrite (append_message_whole (m_ty m) (Z.of_nat c) (m_pieces m)) in Hp; [by destruct frs|done| |].
  - eapply Forall_impl; [exact Hall|]. by intros ? [].
  - intros k p Hk. destruct (Hpres k (lookup_lt_Some _ _ _ Hk)) as (frs' & fr & Hfrs' & Hin & Ho).
    exists fr. rewrite Hfrs in Hfrs'. injection Hfrs' as <-. done.
Qed.
End complete.

(** [pop] only removes the message it returns: fragments filed under an older
    number stay. *)
Lemma pop_keeps f n :
  n <> currentMessageSequenceNumber f -> fcache (snd (pop f)) !! n = fcache f !! n.
Proof.
  intros Hn. unfold pop. destruct (fcache f !! _) as [frags|]; [|done].
  destruct (append_message _ _ _) as [[raw|]|]; [|done..]. destruct frags; [done|].
  cbn [snd fcache]. by rewrite lookup_delete_ne.
Qed.

(** The bytes that arrive: the fragments with their headers. *)
Definition op_bytes (msgs : list hmsg) (o : op) : nat :=
  match o with
  | Deliver _ _ n k => 25 + length (default [] (msgs !! n ≫= fun m => m_pieces m !! k))
  | Pop => 0
  end.
Definition arrived_bytes (msgs : list hmsg) (ops : list op) : nat := sum_list_with (op_bytes msgs) ops.

Section kept.
Variable msgs : list hmsg.
Hypothesis Hmsgs : flight_ok msgs.

(** A fragment is kept until its message has been handed out. *)
Definition kept (f : fragmentBuffer) (n : nat) (m : hmsg) (k : nat) : Prop :=
  (Z.of_nat n < currentMessageSequenceNumber f)%Z \/ present n m f k.

Lemma pop_size f : (fb_size (snd (pop f)) <= fb_size f)%nat.
Proof.
  unfold pop. destruct (fcache f !! _) as [frags|]; [|done].
  destruct (append_message _ _ _) as [[raw|]|]; [|done..]. destruct frags; [done|]. cbn [snd].
  rewrite (fb_size_split f (currentMessageSequenceNumber f)). unfold fb_size. cbn [fcache]. lia.
Qed.

Lemma pop_kept f n m k : fb_inv msgs f -> kept f n m k -> kept (snd (pop f)) n m k.
Proof.
  intros Hi Hk. destruct (pop_inv msgs Hmsgs f Hi) as [->|(c & m' & Hc & _ & _ & Hc' & _)]; [done|].
  destruct Hk as [Hk|Hk]; [left; lia|]. destruct (decide (n = c)) as [->|Hne]; [left; lia|right].
  unfold present in *. rewrite pop_keeps by lia. done.
Qed.

Lemma push_fits f rseq cl n m k p :
  msgs !! n = Some m -> m_pieces m !! k = Some p -> (0 <= rseq <= MaxSequenceNumber)%Z -> u16_range cl ->
  (fb_size f + (25 + length p) < fragmentBufferMaxSize)%nat ->
  exists fr, snd (push f (wire_record rseq cl n m k p)) = store f (Z.of_nat n) fr /\ fdata fr = p /\
    filed (Z.of_nat n) m fr /\ FragmentOffset (handshakeHeader fr) = Z.of_nat (piece_off (m_pieces m) k).
Proof.
  intros Hn Hk Hr Hcl Hs. destruct (msg_lookup msgs Hmsgs n m Hn) as [Hmo Hlt].
  assert (Hwl : length (wire_record rseq cl n m k p) = (25 + length p)%nat).
  { unfold wire_record. rewrite !length_app, length_header_bytes, length_hs_header_bytes. done. }
  destruct (push_wire f rseq cl n m k p Hmo Hlt Hk Hr Hcl ltac:(lia)) as [rt Hp]. rewrite Hp. cbn [snd].
  eexists. split_and!; [done|done| |done]. split; [|done]. by exists k, p.
Qed.

(** One operation: the size grows by at most what arrives, kept fragments stay
    kept, and a delivered one is kept from then on. *)
Lemma run_op_kept f o :
  fb_inv msgs f -> op_ok msgs o -> (fb_size f + op_bytes msgs o < fragmentBufferMaxSize)%nat ->
  let f' := snd (run_op msgs f o) in
  (fb_size f' <= fb_size f + op_bytes msgs o)%nat /\
  (forall n m k, kept f n m k -> kept f' n m k) /\
  (forall rseq cl n k m, o = Deliver rseq cl n k -> msgs !! n = Some m -> kept f' n m k).
Proof.
  intros Hi Ho Hs f'. destruct o as [rseq cl n k|].
  - destruct Ho as (Hr & Hcl & m & p & Hn & Hk). subst f'. cbn [run_op op_bytes] in *. rewrite Hn in *. cbn [mbind option_bind] in *.
    rewrite Hk in *. simpl default in *. cbn [snd]. destruct (push_fits f rseq cl n m k p Hn Hk Hr Hcl Hs) as (fr & -> & Hd & _ & Hof).
    split_and!; [rewrite fb_size_store, Hd; lia| |].
    + intros n' m' k' [Hx|Hx]; [by left|right]. by apply present_store.
    + intros ? ? n' k' m' [= _ _ <- <-] Hm'. right. assert (m' = m) as -> by congruence. unfold present, store. cbn [fcache].
      rewrite lookup_insert_eq. eexists _, fr. split_and!; [done| |done]. apply elem_of_app. right. by apply list_elem_of_singleton.
  - subst f'. cbn [run_op]. pose proof (pop_size f) as Hp. pose proof (fun n m k => pop_kept f n m k Hi) as Hk.
    destruct (pop f) as [r f1]. cbn [snd op_bytes] in *. split_and!; [lia|done|done].
Qed.

Lemma run_kept f ops :
  fb_inv msgs f -> Forall (op_ok msgs) ops -> (fb_size f + arrived_bytes msgs ops < fragmentBufferMaxSize)%nat ->
  let f' := snd (run msgs f ops) in
  (fb_size f' <= fb_size f + arrived_bytes msgs ops)%nat /\
  (forall n m k, kept f n m k -> kept f' n m k) /\
  (forall rseq cl n k m, Deliver rseq cl n k ∈ ops -> msgs !! n = Some m -> kept f' n m k).
Proof.
  intros Hi Hops. revert f Hi. induction Hops as [|o ops Ho _ IH]; intros f Hi Hs; cbn [run].
  { cbn. split_and!; [lia|done|]. intros ? ? ? ? ? Hin. by apply elem_of_nil in Hin. }
  unfold arrived_bytes in *. cbn [sum_list_with] in *.
  destruct (run_op_inv msgs Hmsgs f o Hi Ho) as [Hi1 _]. destruct (run_op_kept f o Hi Ho ltac:(lia)) as (Hs1 & Hk1 & Hd1).
  destruct (run_op msgs f o) as [out f1]. cbn [snd] in *. destruct (IH f1 Hi1 ltac:(lia)) as (Hs2 & Hk2 & Hd2).
  destruct (run msgs f1 ops) as [outs f2]. cbn [snd] in *. split_and!; [lia|intros; by apply Hk2, Hk1|].
  intros rseq cl n k m [<-|Hin]%elem_of_cons Hm; [by eapply Hk2, Hd1|by eapply Hd2].
Qed.

Lemma run_two_parts f ops1 ops2 :
  run msgs f (ops1 ++ ops2) = (fst (run msgs f ops1) ++ fst (run msgs (snd (run msgs f ops1)) ops2),
                               snd (run msgs (snd (run msgs f ops1)) ops2)).
Proof.
  revert f. induction ops1 as [|o os IH]; intros f; cbn [app run].
  - cbn [fst snd app]. by destruct (run msgs f ops2).
  - destruct (run_op msgs f o) as [out f1]. rewrite IH. destruct (run msgs f1 os) as [outs f2].
    cbn [fst snd]. destruct (run msgs f2 ops2). cbn [fst snd]. by rewrite app_assoc.
Qed.

(** All fragments of the message [n] are among the deliveries. *)
Definition arrived (ops : list op) (n : nat) : Prop :=
  forall m k, msgs !! n = Some m -> (k < length (m_pieces m))%nat -> exists rseq cl, Deliver rseq cl n k ∈ ops.

(** The state after a run from the start. *)
Lemma run_state ops : Forall (op_ok msgs) ops ->
  let r := run msgs newFragmentBuffer ops in
  fb_inv msgs (snd r) /\ currentMessageSequenceNumber (snd r) = Z.of_nat (length (fst r)).
Proof.
  intros Hops r. pose proof (run_outputs msgs Hmsgs newFragmentBuffer ops 0 (fb_inv_new msgs) Hops eq_refl) as Hr.
  fold r in Hr. destruct r as [outs f]. cbn [fst snd]. destruct Hr as (_ & Hc & Hi). done.
Qed.

Lemma next_pop ops m :
  Forall (op_ok msgs) ops -> (arrived_bytes msgs ops < fragmentBufferMaxSize)%nat ->
  let outs := fst (run msgs newFragmentBuffer ops) in
  msgs !! length outs = Some m -> arrived ops (length outs) ->
  fst (run msgs newFragmentBuffer (ops ++ [Pop])) = outs ++ [whole (length outs) m].
Proof.
  intros Hops Hs outs Hm Ha. destruct (run_state ops Hops) as [Hi Hc]. fold outs in Hc.
  destruct (run_kept newFragmentBuffer ops (fb_inv_new msgs) Hops Hs) as (_ & _ & Hd).
  rewrite run_two_parts. cbn [fst snd]. fold outs. f_equal. set (f := snd (run msgs newFragmentBuffer ops)) in *.
  pose proof (pop_complete msgs (length outs) m Hmsgs Hm f Hi Hc) as Hp. cbn [run run_op].
  destruct (pop f) as [r f1]. cbn [fst] in *. rewrite Hp; [done|]. intros k Hk.
  destruct (Ha m k Hm Hk) as (rseq & cl & Hin). destruct (Hd rseq cl (length outs) k m Hin Hm) as [Hx|Hx]; [lia|done].
Qed.

Lemma arrived_bytes_pops ops j : arrived_bytes msgs (ops ++ replicate j Pop) = arrived_bytes msgs ops.
Proof.
  unfold arrived_bytes. rewrite sum_list_with_app. assert (sum_list_with (op_bytes msgs) (replicate j Pop) = 0%nat) as ->; [|lia].
  induction j; [done|]. cbn. exact IHj.
Qed.

Lemma pops_advance ops j :
  Forall (op_ok msgs) ops -> (arrived_bytes msgs ops < fragmentBufferMaxSize)%nat ->
  (forall n, (n < j)%nat -> arrived ops n) -> (j <= length msgs)%nat ->
  (j <= length (fst (run msgs newFragmentBuffer (ops ++ replicate j Pop))))%nat.
Proof.
  intros Hops Hs Ha. induction j as [|j IH]; intros Hj; [lia|].
  assert (IH' := IH ltac:(intros n Hn; apply Ha; lia) ltac:(lia)). rewrite replicate_S_end, app_assoc.
  set (ops1 := ops ++ replicate j Pop) in *. set (outs := fst (run msgs newFragmentBuffer ops1)) in *.
  destruct (decide (length outs = j)) as [Hl|Hl].
  - destruct (lookup_lt_is_Some_2 msgs (length outs)) as [m Hm]; [lia|].
    assert (Hn : fst (run msgs newFragmentBuffer (ops1 ++ [Pop])) = outs ++ [whole (length outs) m]).
    { apply next_pop; [apply Forall_app; split; [done|by apply Forall_replicate]|subst ops1; by rewrite arrived_bytes_pops|done|].
      fold outs. intros m' k Hm' Hk. destruct (Ha (length outs) ltac:(lia) m' k Hm' Hk) as (rseq & cl & Hin). exists rseq, cl.
      apply elem_of_app. by left. }
    rewrite Hn, length_app. cbn. lia.
  - rewrite run_two_parts. cbn [fst]. fold outs. rewrite length_app. lia.
Qed.
End kept.



(** ** What the sender puts on the wire *)

(** The fragments of a message are the pieces of its encoding, each with the
    header that the lemmas above assume. *)
Lemma fragmentHandshake_pieces `{Cryptobyte} mtu ty seq o fl msg content :
  (0 < mtu)%nat -> Message_Marshal msg = Ok content -> (Z.of_nat (length content) < 2 ^ 24)%Z ->
  let ps := pieces_of content mtu in
  small_message ps /\ concat ps = content /\
  fragmentHandshake mtu (mkHsHeader ty (Z.of_nat (length content)) seq o fl) msg =
    Ok (imap (fun k p => hs_header_bytes (frag_header ty seq ps k p) ++ p) ps).
Proof.
  intros Hm Hc Hl ps. destruct (pieces_of_spec content mtu Hm) as (Hw & Hcat & _).
  fold ps in Hw, Hcat. split_and!; [split; [done|by rewrite Hcat]|done|].
  unfold fragmentHandshake. rewrite Hc. cbn [res_bind]. fold (pieces_of content mtu). fold ps.
  f_equal. rewrite <- Hcat.
  pose proof (fragment_loop_eq ty seq ps 0 0 ltac:(by rewrite Hcat) eq_refl (length ps) fl o) as He.
  rewrite drop_0, Nat.add_0_l, firstn_all in He. exact He.
Qed.

(** The "maximum transmission unit" bounds the pieces of a message, not the
    records that carry them: a message longer than the limit leaves in
    fragments of that many bytes, and with the two headers each of those
    records is 25 bytes longer than the limit (before encryption adds more). *)
Theorem fragments_exceed_mtu `{Cryptobyte} mtu ty seq o fl msg content :
  (0 < mtu)%nat -> Message_Marshal msg = Ok content -> (Z.of_nat (length content) < 2 ^ 24)%Z ->
  (mtu <= length content)%nat ->
  exists frag rest,
    fragmentHandshake mtu (mkHsHeader ty (Z.of_nat (length content)) seq o fl) msg = Ok (frag :: rest) /\
    (FixedHeaderSize + length frag = mtu + 25)%nat.
Proof.
  intros Hm Hc Hl Hlong.
  destruct (fragmentHandshake_pieces mtu ty seq o fl msg content Hm Hc Hl) as (_ & _ & Hf).
  assert (Hp : exists ps, pieces_of content mtu = take mtu content :: ps).
  { unfold pieces_of, splitBytes. destruct (length content) as [|n] eqn:En; [lia|].
    cbn [split_loop]. rewrite (proj2 (Nat.ltb_lt 0 _)) by lia. cbv zeta. rewrite Nat.add_0_l.
    rewrite (proj2 (Nat.ltb_ge _ mtu)) by lia. cbn [is_nil]. unfold slice.
    rewrite drop_0, Nat.sub_0_r. eauto. }
  destruct Hp as [ps Hps]. rewrite Hps in Hf. cbn [imap] in Hf. eexists _, _. split; [exact Hf|].
  rewrite length_app, length_hs_header_bytes, length_take. unfold FixedHeaderSize. lia.
Qed.

Lemma fragments_exceed_mtu_witness :
  exists frag rest,
    @fragmentHandshake cryptobyte_ref 4 (mkHsHeader 20 6 3 0 0)
      (MFinished (mkFinished (map z2b [1; 2; 3; 4; 5; 6]%Z))) = Ok (frag :: rest) /\
    (FixedHeaderSize + length frag = 4 + 25)%nat.
Proof.
  apply (fragments_exceed_mtu 4 20 3 0 0 (MFinished (mkFinished (map z2b [1; 2; 3; 4; 5; 6]%Z)))
    (map z2b [1; 2; 3; 4; 5; 6]%Z)); [lia|done|simpl; lia|simpl; lia].
Defined.

Lemma compact_loop_spec mtu current combined raw :
  concat (compact_loop mtu current combined raw) = concat combined ++ current ++ concat raw /\
  (forall d, d ∈ compact_loop mtu current combined raw ->
     d ∈ combined \/ (length d < mtu)%nat \/ d = current \/ d ∈ raw \/ (d = [])).
Proof.
  revert current combined. induction raw as [|p ps IH]; intros current combined; cbn [compact_loop].
  - split; [rewrite concat_app; simpl; by rewrite !app_nil_r|].
    intros d Hd. apply elem_of_app in Hd as [Hd|Hd]; [by left|].
    apply list_elem_of_singleton in Hd. by auto.
  - destruct (Nat.ltb_spec 0 (length current)) as [Hc|Hc]; cbn [andb];
      [destruct (Nat.leb_spec mtu (length current + length p)) as [Hm|Hm]|].
    + destruct (IH ([] ++ p) (combined ++ [current])) as [Hcat Hin]. split.
      * rewrite Hcat, concat_app. simpl. by rewrite app_nil_r, <- app_assoc.
      * intros d Hd. apply Hin in Hd as [Hd|[Hd|[Hd|[Hd|Hd]]]]; try (by auto 6).
        -- apply elem_of_app in Hd as [Hd|Hd]; [by left|]. apply list_elem_of_singleton in Hd. by auto.
        -- simpl in Hd. subst d. right; right; right; left. by left.
        -- right; right; right; left. by right.
    + destruct (IH (current ++ p) combined) as [Hcat Hin]. split.
      * rewrite Hcat. simpl. by rewrite <- app_assoc.
      * intros d Hd. apply Hin in Hd as [Hd|[Hd|[Hd|[Hd|Hd]]]]; try (by auto 6).
        -- right; left. subst d. rewrite length_app. lia.
        -- right; right; right; left. by right.
    + destruct (IH (current ++ p) combined) as [Hcat Hin]. split.
      * rewrite Hcat. simpl. by rewrite <- app_assoc.
      * intros d Hd. assert (current = []) as -> by (destruct current; simpl in Hc; [done|lia]).
        apply Hin in Hd as [Hd|[Hd|[Hd|[Hd|Hd]]]]; try (by auto 6).
        -- simpl in Hd. subst d. right; right; right; left. by left.
        -- right; right; right; left. by right.
Qed.

(** Joining records into datagrams loses and reorders nothing, and a
    datagram that holds more than one record is shorter than the limit. *)
Theorem compact_preserves mtu raw :
  concat (compactRawPackets mtu raw) = concat raw /\
  forall d, d ∈ compactRawPackets mtu raw -> d ∈ raw \/ d = [] \/ (length d < mtu)%nat.
Proof.
  unfold compactRawPackets. destruct (length raw =? 1)%nat; [split; [done|by left]|].
  destruct (compact_loop_spec mtu [] [] raw) as [Hc Hin]. split; [done|].
  intros d Hd. apply Hin in Hd as [Hd|[Hd|[Hd|[Hd|Hd]]]]; auto. by apply elem_of_nil in Hd.
Qed.

(** ** Where reassembly fails *)

(** A message sent again with other fragment boundaries is never put
    together.  The search takes the first fragment at an offset and does not
    look for another: when a first transmission left a fragment from 0 to [e]
    and no fragment starts at [e], the message stays incomplete whatever else
    arrives, a complete copy in other pieces included. *)
Theorem refragmented_stuck f f0 rest :
  let e := u32 (FragmentOffset (handshakeHeader f0) + FragmentLength (handshakeHeader f0)) in
  fcache f !! currentMessageSequenceNumber f = Some (f0 :: rest) ->
  FragmentOffset (handshakeHeader f0) = 0%Z -> FragmentLength (handshakeHeader f0) <> 0%Z ->
  e <> hs_Length (handshakeHeader f0) ->
  Forall (fun g => FragmentOffset (handshakeHeader g) <> e) (f0 :: rest) ->
  pop f = (None, f).
Proof.
  intros e Hc Ho Hl He Hall. unfold pop. rewrite Hc.
  assert (Hn : find (fun g => (FragmentOffset (handshakeHeader g) =? e)%Z) (f0 :: rest) = None).
  { destruct (find _ _) as [g|] eqn:Ef; [|done]. apply find_some in Ef as [Hin Hg].
    apply Z.eqb_eq in Hg. rewrite Forall_forall in Hall. apply list_elem_of_In, Hall in Hin. done. }
  assert (H0 : find (fun g => (FragmentOffset (handshakeHeader g) =? 0)%Z) (f0 :: rest) = Some f0).
  { cbn [find]. by rewrite Ho. }
  set (frags := f0 :: rest) in *. change (length frags) with (S (length rest)).
  cbn [append_message]. rewrite H0. fold e. rewrite Hn.
  rewrite (proj2 (Z.eqb_neq _ _) He), (proj2 (Z.eqb_neq _ _) Hl). done.
Qed.

(** A first transmission lost its second fragment; the second transmission,
    in pieces of two bytes, arrived completely. *)
Definition refragmented : fragmentBuffer :=
  let h o l := mkHsHeader 11 4 0 o l in
  mkFragmentBuffer {[0%Z := [mkFragment zero_Header (h 0 3)%Z (map z2b [1; 2; 3]%Z);
                             mkFragment zero_Header (h 0 2)%Z (map z2b [1; 2]%Z);
                             mkFragment zero_Header (h 2 2)%Z (map z2b [3; 4]%Z)]]} 0.

Lemma refragmented_stuck_witness : pop refragmented = (None, refragmented).
Proof.
  eapply refragmented_stuck; [reflexivity|reflexivity|discriminate|discriminate|].
  repeat constructor; discriminate.
Defined.

(** One turn of the loop of [push] over a message that is not the last of its
    record. *)
Lemma push_loop_more fuel rh buf rt f hh p rest :
  HsHeader_Unmarshal buf = Ok hh -> buf = take 12 buf ++ p ++ rest -> (12 <= length buf)%nat ->
  hs_Length hh = Z.of_nat (length p) -> (Z.of_nat (length p) < 2 ^ 24)%Z ->
  exists rt', push_loop (S fuel) rh buf rt f =
    push_loop fuel zero_Header rest rt' (store f (MessageSequence hh) (mkFragment rh hh p)).
Proof.
  intros Hhh Hb H12 Hl Hsm. cbn [push_loop]. rewrite Hhh.
  destruct buf as [|b0 buf0] eqn:Eb; [simpl in H12; lia|]. cbn [is_nil]. rewrite <- Eb in *.
  assert (Ht : length (take 12 buf) = 12%nat) by len.
  assert (Hlb : length buf = (12 + length p + length rest)%nat) by (rewrite Hb; len).
  set (e := if (_ <? _)%nat then _ else _).
  assert (Hee : e = (12 + length p)%nat).
  { unfold e, HeaderLength. rewrite wrap_small by lia.
    destruct (Nat.ltb_spec (length buf) (Z.to_nat (Z.of_nat 12 + hs_Length hh))); lia. }
  rewrite Hee. unfold slice, HeaderLength.
  assert (Hd : drop 12 buf = p ++ rest) by (rewrite Hb at 1; by apply drop_app_length').
  assert (Hd2 : drop (12 + length p) buf = rest)
    by (rewrite Hb at 1; rewrite app_assoc; apply drop_app_length'; len).
  rewrite Hd2, Hd.
  replace (12 + length p - 12)%nat with (length p) by lia. rewrite take_app_length. eauto.
Qed.

(** A message that arrived in one fragment comes out at once. *)
Lemma pop_single f r h b :
  fcache f !! currentMessageSequenceNumber f = Some [mkFragment r h b] ->
  FragmentOffset h = 0%Z -> FragmentLength h = hs_Length h -> (0 <= hs_Length h < 65536)%Z ->
  exists out, pop f = (Some (out, Epoch r),
    mkFragmentBuffer (delete (currentMessageSequenceNumber f) (fcache f))
      (u16 (currentMessageSequenceNumber f + 1))).
Proof.
  intros Hc Ho Hf Hr. unfold pop. rewrite Hc. set (fr := mkFragment r h b).
  assert (Hfind : find (fun g => (FragmentOffset (handshakeHeader g) =? 0)%Z) [fr] = Some fr)
    by (cbn [find fr handshakeHeader]; by rewrite Ho).
  set (n := length [fr]). cbn [append_message]. rewrite Hfind. cbn [fr handshakeHeader fdata].
  rewrite Ho, Z.add_0_l, Hf, wrap_small, Z.eqb_refl by lia. cbn [negb andb]. eauto.
Qed.

(** A record of epoch [e] that holds the messages 0 and 1 of a handshake. *)
Definition pair_record (e : Z) (ty1 ty2 : Z) (b1 b2 : bytes) : bytes :=
  let h ty n b := hs_header_bytes
    (mkHsHeader ty (Z.of_nat (length b)) n 0 (Z.of_nat (length b))) in
  header_bytes (mkHeader ContentTypeHandshake 0 Version1_2 e 0 [])
  ++ h ty1 0%Z b1 ++ b1 ++ h ty2 1%Z b2 ++ b2.

(** A second handshake message in a record loses its epoch.  The loop of
    [push] starts a new fragment without the record header, so the message is
    handed on as if it had come in epoch 0, whatever the epoch of the record. *)
Theorem second_message_epoch_lost e ty1 ty2 b1 b2 :
  u16_range e -> (0 <= ty1 < 256)%Z -> (0 <= ty2 < 256)%Z ->
  (Z.of_nat (length b1 + length b2) < 65536)%Z ->
  let f := snd (push newFragmentBuffer (pair_record e ty1 ty2 b1 b2)) in
  option_map snd (fst (pop f)) = Some e /\
  option_map snd (fst (pop (snd (pop f)))) = Some 0%Z.
Proof.
  intros He Ht1 Ht2 Hl. unfold u16_range in He.
  set (h1 := mkHsHeader ty1 (Z.of_nat (length b1)) 0 0 (Z.of_nat (length b1))).
  set (h2 := mkHsHeader ty2 (Z.of_nat (length b2)) 1 0 (Z.of_nat (length b2))).
  set (rh := mkHeader ContentTypeHandshake 0 Version1_2 e 0 []).
  set (buf2 := hs_header_bytes h2 ++ b2). set (buf1 := hs_header_bytes h1 ++ b1 ++ buf2).
  assert (Hrec : pair_record e ty1 ty2 b1 b2 = header_bytes rh ++ buf1) by done. rewrite Hrec.
  assert (Hl1 : length buf1 = (24 + length b1 + length b2)%nat)
    by (unfold buf1, buf2; rewrite !length_app, !length_hs_header_bytes; lia).
  assert (Hlr : length (header_bytes rh ++ buf1) = S (S (35 + length b1 + length b2))).
  { rewrite length_app, length_header_bytes, Hl1. unfold Header_Size, FixedHeaderSize. simpl. lia. }
  pose proof fragmentBufferMaxSize_eq as Hmax.
  assert (Hrw : Header_Unmarshal zero_Header (header_bytes rh ++ buf1) = Ok rh).
  { rewrite Header_roundtrip; [done| |done]. split; cbn; auto; unfold ContentTypeHandshake, MaxSequenceNumber; lia. }
  assert (Hpush : exists rt, push newFragmentBuffer (header_bytes rh ++ buf1) =
    (Ok (true, rt), store (store newFragmentBuffer 0 (mkFragment rh h1 b1)) 1 (mkFragment zero_Header h2 b2))).
  { unfold push. rewrite (proj2 (Nat.leb_gt _ _)).
    2:{ rewrite Hlr. change (fb_size newFragmentBuffer) with 0%nat. lia. }
    rewrite Hrw. change (ContentType rh =? ContentTypeHandshake)%Z with true. cbn [negb].
    rewrite Hlr, drop_app_length' by (by rewrite length_header_bytes).
    destruct (push_loop_more (S (35 + length b1 + length b2)) rh buf1 false newFragmentBuffer h1 b1 buf2)
      as [rt ->].
    - unfold buf1. apply HsHeader_roundtrip. split; cbn; lia.
    - unfold buf1. rewrite take_app_length' by (by rewrite length_hs_header_bytes). done.
    - lia.
    - done.
    - lia.
    - apply (push_loop_one _ zero_Header buf2 rt _ h2 b2); [|unfold buf2; by rewrite length_app, length_hs_header_bytes| |cbn; lia].
      + rewrite <- (app_nil_r buf2). unfold buf2. rewrite <- app_assoc.
        apply HsHeader_roundtrip. split; cbn; lia.
      + unfold buf2. apply drop_app_length'. by rewrite length_hs_header_bytes. }
  destruct Hpush as [rt Hpush]. rewrite Hpush. cbn [snd].
  set (f := store _ _ _).
  assert (Hc0 : fcache f !! currentMessageSequenceNumber f = Some [mkFragment rh h1 b1]) by done.
  destruct (pop_single f rh h1 b1 Hc0) as [o1 Hp1]; [done|done|cbn; lia|]. rewrite Hp1.
  split; [done|]. cbn [snd]. set (f2 := mkFragmentBuffer _ _).
  assert (Hc1 : fcache f2 !! currentMessageSequenceNumber f2 = Some [mkFragment zero_Header h2 b2]) by done.
  destruct (pop_single f2 zero_Header h2 b2 Hc1) as [o2 Hp2]; [done|done|cbn; lia|]. by rewrite Hp2.
Qed.

Lemma second_message_epoch_lost_witness :
  let f := snd (push newFragmentBuffer (pair_record 1 20 20 [z2b 1] [z2b 2])) in
  option_map snd (fst (pop f)) = Some 1%Z /\
  option_map snd (fst (pop (snd (pop f)))) = Some 0%Z.
Proof. apply second_message_epoch_lost; unfold u16_range; simpl; lia. Defined.

(** Retransmissions of messages that were already handed on are stored and
    never removed, until the buffer is full: after enough copies of one old
    fragment the next record is refused with the error that ends the
    connection. *)
Theorem retransmissions_overflow msgs f rseq cl n m k p N :
  let rcd := wire_record rseq cl n m k p in
  let f' := Nat.iter N (fun g => snd (push g rcd)) f in
  flight_ok msgs -> msgs !! n = Some m -> m_pieces m !! k = Some p ->
  (0 <= rseq <= MaxSequenceNumber)%Z -> u16_range cl ->
  (Z.of_nat n < currentMessageSequenceNumber f)%Z ->
  (fragmentBufferMaxSize <= N * length p)%nat ->
  fst (push f' rcd) = Err errFragmentBufferOverflow /\
  fcache (snd (pop f')) !! Z.of_nat n = fcache f' !! Z.of_nat n.
Proof.
  intros rcd f' Hm Hn Hk Hr Hcl Hold Hbig.
  assert (Hfull : forall g, (fragmentBufferMaxSize <= fb_size g + length rcd)%nat ->
    push g rcd = (Err errFragmentBufferOverflow, g)).
  { intros g Hg. unfold push. by rewrite (proj2 (Nat.leb_le _ _) Hg). }
  assert (Hgrow : forall M, let g := Nat.iter M (fun g => snd (push g rcd)) f in
    currentMessageSequenceNumber g = currentMessageSequenceNumber f /\
    ((fragmentBufferMaxSize <= fb_size g + length rcd)%nat \/ (M * length p <= fb_size g)%nat)).
  { induction M as [|M IH]; cbn [Nat.iter nat_rect]; [split; [done|right; lia]|].
    set (g := nat_rect _ _ _ _) in *. destruct IH as [Hcur IH].
    destruct (decide (fragmentBufferMaxSize <= fb_size g + length rcd)%nat) as [Hg|Hg].
    - rewrite (Hfull g Hg). cbn [snd]. by split; [|left].
    - destruct IH as [IH|IH]; [done|].
      destruct (push_wire_cases msgs Hm g rseq cl n m k p Hn Hk Hr Hcl)
        as [He|(rt & fr & He & _ & Hd & _)]; fold rcd in He; rewrite He; cbn [snd].
      + exfalso. apply Hg. destruct (msg_lookup msgs Hm n m Hn) as [Hmo Hlt].
        destruct (decide (fb_size g + length rcd < fragmentBufferMaxSize)%nat) as [Hs|]; [|lia].
        destruct (push_wire g rseq cl n m k p Hmo Hlt Hk Hr Hcl Hs) as [rt Hp].
        fold rcd in Hp. rewrite Hp in He. done.
      + split; [done|]. right. rewrite fb_size_store, Hd. cbn [Nat.mul]. unfold g. unfold Nat.iter in IH. lia. }
  destruct (Hgrow N) as [Hcur Hsz]. fold f' in Hcur, Hsz. split.
  - rewrite Hfull; [done|]. destruct Hsz as [|Hsz]; lia.
  - apply pop_keeps. rewrite Hcur. lia.
Qed.

Lemma retransmissions_overflow_witness :
  let f := mkFragmentBuffer ∅ 2 in
  let m := mkMsg 1 0 [map z2b [1; 2; 3]%Z; map z2b [4; 5]%Z] in
  let rcd := wire_record 0 15 0 m 0 (map z2b [1; 2; 3]%Z) in
  let f' := Nat.iter fragmentBufferMaxSize (fun g => snd (push g rcd)) f in
  fst (push f' rcd) = Err errFragmentBufferOverflow /\
  fcache (snd (pop f')) !! Z.of_nat 0 = fcache f' !! Z.of_nat 0.
Proof.
  apply (retransmissions_overflow sample_flight (mkFragmentBuffer ∅ 2) 0 15 0
    (mkMsg 1 0 [map z2b [1; 2; 3]%Z; map z2b [4; 5]%Z]) 0 (map z2b [1; 2; 3]%Z) fragmentBufferMaxSize);
    [apply sample_flight_ok|done|done|unfold MaxSequenceNumber; lia|unfold u16_range; lia|simpl; lia|].
  simpl length. lia.
Defined.

(** ** The handshake cache *)

Definition cache_matches (r : pullRule) (h : handshakeCache) : list handshakeCacheItem :=
  List.filter (rule_matches r) h.

Lemma pull1_snoc h r c : pull1 (h ++ [c]) r = pull_step r (pull1 h r) c.
Proof. unfold pull1. by rewrite foldl_app. Qed.

(** [pull] answers each rule with the matching message that has the highest
    sequence number, and among equal numbers with the one stored first; it
    answers with nothing exactly when no stored message matches. *)
Theorem pull_latest h rules i r :
  rules !! i = Some r ->
  match mjoin (pull h rules !! i) with
  | Some c => exists l1 l2, cache_matches r h = l1 ++ c :: l2 /\
      Forall (fun d => (i_seq d < i_seq c)%Z) l1 /\ Forall (fun d => (i_seq d <= i_seq c)%Z) l2
  | None => cache_matches r h = []
  end.
Proof.
  intros Hi. unfold pull. rewrite list_lookup_fmap, Hi. cbn.
  induction h as [|c h IH] using rev_ind; [done|].
  rewrite pull1_snoc. unfold pull_step, cache_matches in *. rewrite List.filter_app. cbn [List.filter].
  destruct (rule_matches r c) eqn:Em; [|by rewrite app_nil_r].
  destruct (pull1 h r) as [o|].
  - destruct IH as (l1 & l2 & El & H1 & H2). rewrite El.
    destruct (Z.ltb_spec (i_seq o) (i_seq c)) as [Hlt|Hge].
    + exists (l1 ++ o :: l2), []. rewrite <- app_assoc. split_and!; [done| |constructor].
      apply Forall_app. split; [|constructor; [done|]]; (eapply Forall_impl; [done|]); simpl; lia.
    + exists l1, (l2 ++ [c]). split_and!; [by rewrite <- app_assoc|done|].
      apply Forall_app. split; [done|]. constructor; [lia|constructor].
  - rewrite IH. exists [], []. split_and!; [done|constructor..].
Qed.

Lemma pull_latest_witness :
  match mjoin (pull [mkItem 1 true 0 0 [z2b 1]; mkItem 2 false 0 1 []; mkItem 1 true 0 1 [z2b 2]]
                 [mkRule 1 0 true false] !! 0%nat) with
  | Some c => exists l1 l2,
      cache_matches (mkRule 1 0 true false)
        [mkItem 1 true 0 0 [z2b 1]; mkItem 2 false 0 1 []; mkItem 1 true 0 1 [z2b 2]] = l1 ++ c :: l2 /\
      Forall (fun d => (i_seq d < i_seq c)%Z) l1 /\ Forall (fun d => (i_seq d <= i_seq c)%Z) l2
  | None => cache_matches (mkRule 1 0 true false)
      [mkItem 1 true 0 0 [z2b 1]; mkItem 2 false 0 1 []; mkItem 1 true 0 1 [z2b 2]] = []
  end.
Proof. apply pull_latest. reflexivity. Defined.

Lemma decode_items_gap_free `{Cryptobyte} kx ci rules seq ok out seq' ok' out' :
  decode_items kx ci rules seq ok out = Some (seq', ok', out') ->
  (seq <= seq')%Z /\ (ok' = true <-> ok = true \/ (seq < seq')%Z) /\
  exists items, Z.of_nat (length items) = (seq' - seq)%Z /\
    forall j i, items !! j = Some i -> exists hs,
      Handshake_Unmarshal kx (i_data i) = Ok hs /\
      MessageSequence (hsk_Header hs) = u16 (seq + Z.of_nat j).
Proof.
  revert seq ok out. induction rules as [|r rs IH]; intros seq ok out Hd; cbn [decode_items] in Hd.
  - injection Hd as <- <- <-. split_and!; [lia|split; [by left|intros [|]; [done|lia]]|].
    exists []. split; [simpl; lia|done].
  - destruct (mjoin (ci !! r_typ r)) as [i|]; [|by apply IH in Hd].
    destruct (Handshake_Unmarshal kx (i_data i)) as [hs|] eqn:Eh; [|done].
    destruct (Z.eqb_spec (u16 seq) (MessageSequence (hsk_Header hs))) as [Es|]; [|done].
    cbn [negb] in Hd. destruct (hsk_Message hs) as [m|]; [|done].
    apply IH in Hd as (Hle & Hok & items & Hl & Hall).
    split_and!; [lia| |].
    + split; [intros _; right; lia|]. intros _. apply Hok. by left.
    + exists (i :: items). split; [simpl; lia|]. intros [|j] i' Hj.
      * injection Hj as <-. exists hs. split; [done|]. by rewrite Z.add_0_r.
      * destruct (Hall j i' Hj) as (hs' & ? & ?). exists hs'. split; [done|].
        replace (seq + Z.of_nat (S j))%Z with (seq + 1 + Z.of_nat j)%Z by lia. done.
Qed.

(** A flight that [fullPullMap] accepts has no gap: the messages it
    decoded carry the consecutive sequence numbers from the start it was
    given, the number it returns is the next one, and at least one message is
    there; otherwise it returns no messages. *)
Theorem full_pull_gap_free `{Cryptobyte} h startSeq suiteKx rules :
  let '(seq, res) := fullPullMap h startSeq suiteKx rules in
  match res with
  | Some out => (startSeq < seq)%Z /\
      exists items, Z.of_nat (length items) = (seq - startSeq)%Z /\
        forall j i, items !! j = Some i -> exists hs,
          Handshake_Unmarshal (default KeyExchangeAlgorithmNone suiteKx) (i_data i) = Ok hs /\
          MessageSequence (hsk_Header hs) = u16 (startSeq + Z.of_nat j)
  | None => seq = startSeq
  end.
Proof.
  unfold fullPullMap. destruct (collect h rules ∅) as [ci|]; [|done].
  destruct (decode_items _ ci rules startSeq false ∅) as [[[seq ok] out]|] eqn:E; [|done].
  apply decode_items_gap_free in E as (Hle & Hok & Hitems).
  destruct ok.
  - destruct Hok as [Hok _]. destruct (Hok eq_refl) as [|Hlt]; [done|]. by split.
  - destruct (decide (startSeq < seq)%Z) as [Hlt|]; [|lia].
    destruct Hok as [_ Hok]. discriminate Hok. by right.
Qed.
