(* ===== verification/DtlsNet.v ===== *)
(** * DTLS over UDP: packet buffers and the listener

    The network layer of the forked DTLS library
    (golib/replace/dtls/internal/net and connection_id.go, listener.go): the
    circular buffer that keeps the packets of one connection, and the listener
    that dispatches the datagrams of one socket to connections, by connection
    identifier or by remote address.

    Addresses are their strings, as bytes.  A call that blocks on a channel is modelled
    by its non-blocking part: what it does when it can go on, and the state it
    leaves when it has to wait. *)

From S2P Require Import Prelude IO DtlsWire DtlsExt DtlsHandshake.
Open Scope np_scope.

(** ** The packet buffer (internal/net/buffer.go) *)

Module PacketBuffer.

Record AddrPacket := mkAP { ap_addr : bytes; ap_data : bytes }.

#[export] Instance AddrPacket_inhabited : Inhabited AddrPacket := populate (mkAP [] []).

Record t := mk {
  packets : list AddrPacket;
  write : nat;
  read : nat;
  full : bool;
  notify : bool;      (* a reader waits on the channel *)
  closed : bool
}.

Definition NewPacketBuffer : t := mk [mkAP [] []] 0 0 false false false.

(** The growth of a full buffer: the packets from [read] on, then those before
    [write].  [read] is not touched. *)
Definition grow (b : t) : t :=
  let newSize := if (length (packets b) <? 128)%nat then (length (packets b) * 2)%nat
                 else (5 * length (packets b) / 4)%nat in
  let newBuf := replicate newSize (mkAP [] []) in
  let '(newBuf, n) :=
    if (read b <? write b)%nat then
      (splice 0 (slice (read b) (write b) (packets b)) newBuf,
       Nat.min newSize (write b - read b))
    else
      let n := Nat.min newSize (length (packets b) - read b) in
      (splice n (take (write b) (packets b)) (splice 0 (drop (read b) (packets b)) newBuf),
       n + Nat.min (newSize - n) (write b))%nat in
  mk newBuf n (read b) false (notify b) (closed b).

(** [WriteTo]: the number of bytes or an error, and whether a waiting reader
    was woken. *)
Definition WriteTo (pkt : bytes) (addr : bytes) (b : t) : res io_err (nat * bool) * t :=
  if closed b then (Err ErrClosedPipe, b)
  else
    let woken := notify b in
    let b := if full b then grow b else b in
    let ps := <[write b := mkAP addr pkt]> (packets b) in
    let w := S (write b) in
    let w := if (length ps =? w)%nat then 0%nat else w in
    (Ok (length pkt, woken), mk ps w (read b) (full b || (w =? read b)%nat) false (closed b)).

(** The outcome of a read that does not wait. *)
Inductive rd :=
  | RPacket (data : bytes) (addr : bytes)
  | RErr (e : io_err)
  | RBlock.

(** [ReadFrom] into a buffer of [cap] bytes; [expired] says whether the read
    deadline has passed.  [bytes.Buffer.Read] on an empty buffer returns
    [io.EOF], unless the destination is empty too. *)
Definition ReadFrom (cap : nat) (expired : bool) (b : t) : rd * t :=
  if expired then (RErr ErrTimeout, b)
  else if negb (read b =? write b)%nat || full b then
    let ap := packets b !!! read b in
    if (cap <? length (ap_data ap))%nat then (RErr ErrShortBuffer, b)
    else if (length (ap_data ap) =? 0)%nat && negb (cap =? 0)%nat then (RErr EOF, b)
    else
      let r := S (read b) in
      let r := if (length (packets b) =? r)%nat then 0%nat else r in
      (RPacket (ap_data ap) (ap_addr ap), mk (packets b) (write b) r false (notify b) (closed b))
  else if closed b then (RErr EOF, b)
  else (RBlock, mk (packets b) (write b) (read b) (full b) true (closed b)).

Definition Close (b : t) : t :=
  if closed b then b else mk (packets b) (write b) (read b) (full b) false true.

(** ** It is a queue *)

(** The unread packets, oldest first. *)
Definition contents (b : t) : list AddrPacket :=
  if full b then drop (read b) (packets b) ++ take (read b) (packets b)
  else if (read b <=? write b)%nat then slice (read b) (write b) (packets b)
  else drop (read b) (packets b) ++ take (write b) (packets b).

Definition wf (b : t) : Prop :=
  (read b < length (packets b))%nat /\ (write b < length (packets b))%nat /\
  (full b = true -> read b = write b).

Lemma wf_new : wf NewPacketBuffer.
Proof. repeat split; simpl; lia || done. Qed.

(** The state after [WriteTo], wrap-around of the write pointer included. *)
Definition stored (b : t) (ap : AddrPacket) : t :=
  let w := if (length (packets b) =? S (write b))%nat then 0%nat else S (write b) in
  mk (<[write b := ap]> (packets b)) w (read b) (w =? read b)%nat false (closed b).

Lemma take_insert_S {A} (l : list A) i x :
  (i < length l)%nat -> take (S i) (<[i := x]> l) = take i l ++ [x].
Proof.
  intros H. rewrite (take_S_r _ _ x) by (by rewrite list_lookup_insert_eq).
  by rewrite take_insert_ge by lia.
Qed.

Lemma slice_drop_take {A} (l : list A) i j : slice i j l = drop i (take j l).
Proof. unfold slice. by rewrite <- firstn_skipn_comm || rewrite skipn_firstn_comm. Qed.

Lemma contents_stored b ap :
  wf b -> full b = false -> contents (stored b ap) = contents b ++ [ap] /\ wf (stored b ap).
Proof.
  intros (Hr & Hw & _) Hf. destruct b as [ps w r fu no cl]. cbn [packets write read full] in *. subst fu.
  unfold stored, contents, wf. cbn [packets write read full]. rewrite length_insert.
  destruct (Nat.eqb_spec (length ps) (S w)) as [E|E].
  - (* the write pointer wraps *)
    assert (Hd : drop r (<[w := ap]> ps) = drop r (take w ps) ++ [ap]).
    { rewrite <- (firstn_all (<[w := ap]> ps)), length_insert, E.
      rewrite take_insert_S by lia. rewrite drop_app_le; [done|]. len. }
    rewrite (proj2 (Nat.leb_le r w)) by lia. rewrite (slice_drop_take ps r w).
    destruct (Nat.eqb_spec 0 r) as [<-|Hr0].
    + rewrite take_0, app_nil_r. split; [exact Hd|]. split_and!; [lia|lia|done].
    + rewrite (proj2 (Nat.leb_gt r 0)) by lia. rewrite take_0, app_nil_r.
      split; [exact Hd|]. split_and!; [lia|lia|done].
  - destruct (Nat.eqb_spec (S w) r) as [<-|Hne].
    + (* the buffer becomes full *)
      rewrite (proj2 (Nat.leb_gt (S w) w)) by lia. rewrite take_insert_S by lia.
      rewrite drop_insert_lt by lia. split; [by rewrite app_assoc|]. split_and!; [lia|lia|done].
    + split; [|split_and!; [lia|lia|done]].
      destruct (Nat.leb_spec r w) as [Hle|Hgt].
      * rewrite (proj2 (Nat.leb_le r (S w))) by lia. rewrite !slice_drop_take, take_insert_S by lia.
        apply drop_app_le. len.
      * rewrite (proj2 (Nat.leb_gt r (S w))) by lia. rewrite take_insert_S by lia.
        rewrite drop_insert_lt by lia. by rewrite app_assoc.
Qed.

(** Growing copies the unread packets to the front but leaves [read] where it
    was, so the first [read b] of them are no longer between the pointers. *)
Lemma contents_grow b :
  wf b -> full b = true ->
  contents (grow b) = drop (read b) (contents b) /\ wf (grow b) /\ full (grow b) = false /\
  closed (grow b) = closed b.
Proof.
  intros (Hr & Hw & Hf) Hfull. specialize (Hf Hfull).
  destruct b as [ps w r fu no cl]. cbn [packets write read full] in *. subst fu w.
  set (size := if (length ps <? 128)%nat then (length ps * 2)%nat else (5 * length ps / 4)%nat).
  assert (Hsize : (length ps < size)%nat).
  { unfold size. destruct (Nat.ltb_spec (length ps) 128); [lia|].
    apply (Nat.lt_le_trans _ (S (length ps))); [lia|]. apply Nat.div_le_lower_bound; lia. }
  assert (Hg : grow (mk ps r r true no cl) =
    mk ((drop r ps ++ take r ps) ++ replicate (size - length ps) (mkAP [] [])) (length ps) r false no cl).
  { unfold grow. cbn [packets write read full notify closed]. fold size.
    rewrite (proj2 (Nat.ltb_ge r r)) by lia.
    rewrite (Nat.min_r size) by lia. rewrite Nat.min_r by lia.
    rewrite splice_app_0 by (len; lia). rewrite length_drop, drop_replicate.
    rewrite splice_at by (len; lia). rewrite length_take, drop_replicate.
    f_equal; [|lia]. do 2 f_equal. lia. }
  rewrite Hg. unfold contents, wf. cbn [packets write read full closed].
  rewrite (proj2 (Nat.leb_le _ _)) by lia. split_and!; try done; [|len|len].
  rewrite slice_drop_take. rewrite take_app_length' by (len; lia). done.
Qed.

Lemma WriteTo_stored pkt addr b :
  closed b = false ->
  WriteTo pkt addr b = (Ok (length pkt, notify b), stored (if full b then grow b else b) (mkAP addr pkt)) \/
  full (if full b then grow b else b) = true.
Proof.
  intros Hc. unfold WriteTo. rewrite Hc. set (b' := if full b then grow b else b).
  destruct (full b') eqn:Ef; [by right|]. left. unfold stored. cbn [orb]. rewrite length_insert.
  done.
Qed.

(** What a write does to the packets waiting in the buffer.  The new packet
    goes to the end; but when the buffer is full and the read pointer is not
    at the start of the array, the growth drops as many of the oldest unread
    packets as the read pointer's value, because the packets move to the front
    of the new array and the pointer does not.  (The invariant of the
    pointers holds afterwards.) *)
Theorem packet_buffer_write pkt addr b :
  wf b -> closed b = false ->
  fst (WriteTo pkt addr b) = Ok (length pkt, notify b) /\
  contents (snd (WriteTo pkt addr b)) =
    (if full b then drop (read b) (contents b) else contents b) ++ [mkAP addr pkt] /\
  wf (snd (WriteTo pkt addr b)) /\ closed (snd (WriteTo pkt addr b)) = false.
Proof.
  intros Hw Hc. destruct (full b) eqn:Ef.
  - destruct (contents_grow b Hw Ef) as (Hg & Hgw & Hgf & Hgc).
    destruct (WriteTo_stored pkt addr b Hc) as [->|Hx]; rewrite ?Ef in *; [|congruence].
    destruct (contents_stored (grow b) (mkAP addr pkt) Hgw Hgf) as [Hs Hsw].
    cbn [fst snd]. rewrite Hs, Hg. split_and!; [done|done|done|]. cbn. congruence.
  - destruct (WriteTo_stored pkt addr b Hc) as [->|Hx]; rewrite ?Ef in *; [|congruence].
    destruct (contents_stored b (mkAP addr pkt) Hw Ef) as [Hs Hsw].
    cbn [fst snd]. rewrite Hs. split_and!; done.
Qed.

(** A read returns the oldest unread packet with its sender and removes it,
    when it fits the reader's buffer and is not empty; without a packet it
    waits, or reports the end of a closed buffer.  A packet that is empty is
    never removed: every read from then on returns [io.EOF] at once, and the
    packets behind it are never seen. *)
Theorem packet_buffer_read cap b :
  wf b ->
  match contents b with
  | [] => ReadFrom cap false b =
      (if closed b then (RErr EOF, b)
       else (RBlock, mk (packets b) (write b) (read b) (full b) true (closed b)))
  | ap :: rest =>
      if (cap <? length (ap_data ap))%nat then ReadFrom cap false b = (RErr ErrShortBuffer, b)
      else if (length (ap_data ap) =? 0)%nat && negb (cap =? 0)%nat then
        ReadFrom cap false b = (RErr EOF, b)
      else fst (ReadFrom cap false b) = RPacket (ap_data ap) (ap_addr ap) /\
           contents (snd (ReadFrom cap false b)) = rest /\ wf (snd (ReadFrom cap false b)) /\
           closed (snd (ReadFrom cap false b)) = closed b
  end.
Proof.
  intros (Hr & Hw & Hf). destruct b as [ps w r fu no cl]. cbn [packets write read full closed] in *.
  destruct (lookup_lt_is_Some_2 ps r Hr) as [ap Hap].
  assert (Htot : ps !!! r = ap) by (by apply list_lookup_total_correct).
  assert (Hcons : negb (r =? w)%nat || fu = true ->
    contents (mk ps w r fu no cl) =
      ap :: contents (mk ps w (if (length ps =? S r)%nat then 0%nat else S r) false no cl)).
  { intros Hne. unfold contents. cbn [packets write read full].
    destruct fu.
    - specialize (Hf eq_refl) as ->. rewrite (drop_S _ _ _ Hap). cbn [app]. f_equal.
      destruct (Nat.eqb_spec (length ps) (S w)) as [E|E].
      + rewrite drop_ge by lia. rewrite (proj2 (Nat.leb_le 0 w)) by lia. unfold slice.
        by rewrite drop_0, Nat.sub_0_r.
      + by rewrite (proj2 (Nat.leb_gt (S w) w)) by lia.
    - rewrite orb_false_r in Hne. apply negb_true_iff, Nat.eqb_neq in Hne.
      destruct (Nat.leb_spec r w) as [Hle|Hgt].
      + assert (Hl : length ps <> S r) by lia. rewrite (proj2 (Nat.eqb_neq _ _) Hl).
        rewrite (proj2 (Nat.leb_le (S r) w)) by lia.
        unfold slice. rewrite (drop_S _ _ _ Hap). replace (w - r)%nat with (S (w - S r)) by lia. done.
      + rewrite (drop_S _ _ _ Hap). cbn [app]. f_equal.
        destruct (Nat.eqb_spec (length ps) (S r)) as [E|E].
        * rewrite drop_ge by lia. rewrite (proj2 (Nat.leb_le 0 w)) by lia. unfold slice.
          by rewrite drop_0, Nat.sub_0_r.
        * by rewrite (proj2 (Nat.leb_gt (S r) w)) by lia. }
  unfold ReadFrom. cbn [packets write read full closed notify]. rewrite Htot.
  destruct (negb (r =? w)%nat || fu) eqn:Ene.
  - rewrite (Hcons eq_refl). destruct (cap <? _)%nat; [done|]. destruct (_ && _); [done|].
    cbn [fst snd closed]. split_and!; [done|done| |done].
    unfold wf. cbn [packets write read full]. split_and!; [|done|done].
    destruct (Nat.eqb_spec (length ps) (S r)); lia.
  - apply orb_false_iff in Ene as [Ene ->]. apply negb_false_iff, Nat.eqb_eq in Ene as ->.
    unfold contents. cbn [packets write read full]. rewrite (proj2 (Nat.leb_le w w)) by lia.
    unfold slice. by rewrite Nat.sub_diag.
Qed.

(** Two packets arrive, one is read, two more arrive: the second packet is
    gone. *)
Definition lost_packet_run : list rd :=
  let w s b := snd (WriteTo [z2b s] [z2b 112] b) in
  let b := w 2%Z (w 1%Z NewPacketBuffer) in
  let '(r1, b) := ReadFrom 100 false b in
  let b := w 4%Z (w 3%Z b) in
  let '(r2, b) := ReadFrom 100 false b in
  let '(r3, b) := ReadFrom 100 false b in
  [r1; r2; r3; fst (ReadFrom 100 false b)].

Example lost_packet :
  lost_packet_run = [RPacket [z2b 1] [z2b 112]; RPacket [z2b 3] [z2b 112]; RPacket [z2b 4] [z2b 112]; RBlock].
Proof. vm_compute. reflexivity. Qed.

Lemma packet_buffer_write_witness :
  let b := mk [mkAP [z2b 97] [z2b 3]; mkAP [z2b 97] [z2b 2]] 1 1 true false false in
  fst (WriteTo [z2b 4] [z2b 97] b) = Ok (1%nat, false) /\
  contents (snd (WriteTo [z2b 4] [z2b 97] b)) = drop 1 (contents b) ++ [mkAP [z2b 97] [z2b 4]] /\
  wf (snd (WriteTo [z2b 4] [z2b 97] b)) /\ closed (snd (WriteTo [z2b 4] [z2b 97] b)) = false.
Proof.
  apply (packet_buffer_write [z2b 4] [z2b 97] (mk [mkAP [z2b 97] [z2b 3]; mkAP [z2b 97] [z2b 2]] 1 1 true false false));
    [|reflexivity]. repeat split; simpl; lia.
Defined.

Lemma packet_buffer_read_witness :
  let b := mk [mkAP [z2b 97] []; mkAP [z2b 98] [z2b 1]] 0 0 true false false in
  ReadFrom 100 false b = (RErr EOF, b).
Proof.
  apply (packet_buffer_read 100 (mk [mkAP [z2b 97] []; mkAP [z2b 98] [z2b 1]] 0 0 true false false)).
  repeat split; simpl; lia.
Defined.
End PacketBuffer.

(** ** The listener (internal/net/udp/packet_conn.go) *)

Module Udp.
Import PacketBuffer.

Inductive lerr := ErrClosedListener | ErrListenQueueExceeded | ErrDeadline.

(** A connection of the listener: [rmraddr] and [id] as the atomic values of
    the struct, [done] for its closed channel. *)
Record PacketConn := mkConn {
  raddr : bytes;
  rmraddr : bool;
  id : option bytes;
  buffer : PacketBuffer.t;
  done : bool
}.

(** [conns] maps addresses and identifiers to the connections, which are
    numbered in the order of their creation; [connWG] counts what keeps the
    socket open. *)
Record listener := mkListener {
  table : list PacketConn;
  conns : gmap bytes nat;
  acceptCh : list nat;
  backlog : nat;
  accepting : bool;
  connWG : Z
}.

(** The functions of [ListenConfig]. *)
Record ListenConfig := mkConfig {
  AcceptFilter : option (bytes -> bool);
  DatagramRouter : option (bytes -> option bytes);
  ConnectionIdentifier : option (bytes -> option bytes)
}.

Definition defaultListenBacklog : nat := 128.

Definition Listen (Backlog : nat) : listener :=
  mkListener [] ∅ [] (if (Backlog =? 0)%nat then defaultListenBacklog else Backlog) true 1.

Definition newPacketConn (ra : bytes) : PacketConn := mkConn ra false None NewPacketBuffer false.

(** [getConn]: an error, no connection, or one. *)
Definition getConn (lc : ListenConfig) (l : listener) (ra buf : bytes)
    : res lerr (option nat) * listener :=
  match (match DatagramRouter lc with
         | Some route => match route buf with Some k => conns l !! k | None => None end
         | None => None
         end) with
  | Some c => (Ok (Some c), l)
  | None =>
      match conns l !! ra with
      | Some c => (Ok (Some c), l)
      | None =>
          if negb (accepting l) then (Err ErrClosedListener, l)
          else if negb (match AcceptFilter lc with Some ok => ok buf | None => true end)
          then (Ok None, l)
          else if (length (acceptCh l) <? backlog l)%nat then
            let c := length (table l) in
            (Ok (Some c),
             mkListener (table l ++ [newPacketConn ra]) (<[ra := c]> (conns l))
               (acceptCh l ++ [c]) (backlog l) (accepting l) (connWG l))
          else (Err ErrListenQueueExceeded, l)
      end
  end.

Definition set_conn (l : listener) (c : nat) (pc : PacketConn) : listener :=
  mkListener (<[c := pc]> (table l)) (conns l) (acceptCh l) (backlog l) (accepting l) (connWG l).

(** One turn of [readLoop] with the datagram [buf] from [ra]: the connection
    that got it. *)
Definition dispatch (lc : ListenConfig) (l : listener) (ra buf : bytes) : option nat * listener :=
  match getConn lc l ra buf with
  | (Ok (Some c), l') =>
      match table l' !! c with
      | Some pc =>
          let '(_, b) := WriteTo buf ra (buffer pc) in
          (Some c, set_conn l' c (mkConn (raddr pc) (rmraddr pc) (id pc) b (done pc)))
      | None => (None, l')
      end
  | (_, l') => (None, l')
  end.

(** [Accept] when a connection is queued. *)
Definition accept_take (l : listener) : option nat * listener :=
  match acceptCh l with
  | c :: rest => (Some c, mkListener (table l) (conns l) rest (backlog l) (accepting l) (connWG l + 1))
  | [] => (None, l)
  end.

(** [PacketConn.WriteTo]: the bookkeeping before the write; the identifier is
    loaded once, before it may be set. *)
Definition conn_WriteTo (lc : ListenConfig) (l : listener) (c : nat) (payload addr : bytes) : listener :=
  match ConnectionIdentifier lc, table l !! c with
  | Some ident, Some pc =>
      let '(l1, pc1) :=
        match id pc with
        | Some _ => (l, pc)
        | None =>
            match ident payload with
            | Some k =>
                let pc' := mkConn (raddr pc) (rmraddr pc) (Some k) (buffer pc) (done pc) in
                (mkListener (<[c := pc']> (table l)) (<[k := c]> (conns l)) (acceptCh l) (backlog l)
                   (accepting l) (connWG l), pc')
            | None => (l, pc)
            end
        end in
      if bool_decide (is_Some (id pc)) && negb (rmraddr pc1) && negb (bool_decide (addr = raddr pc)) then
        mkListener (<[c := mkConn (raddr pc1) true (id pc1) (buffer pc1) (done pc1)]> (table l1))
          (delete (raddr pc) (conns l1)) (acceptCh l1) (backlog l1) (accepting l1) (connWG l1)
      else l1
  | _, _ => l
  end.

(** Removing a connection from the map: its identifier, and its address unless
    that was given up before. *)
Definition unregister (pc : PacketConn) (m : gmap bytes nat) : gmap bytes nat :=
  let m := match id pc with Some k => delete k m | None => m end in
  if rmraddr pc then m else delete (raddr pc) m.

(** [PacketConn.Close]; the second call does nothing. *)
Definition conn_Close (l : listener) (c : nat) : listener :=
  match table l !! c with
  | Some pc =>
      if done pc then l
      else mkListener (<[c := mkConn (raddr pc) true (id pc) (PacketBuffer.Close (buffer pc)) true]> (table l))
             (unregister pc (conns l)) (acceptCh l) (backlog l) (accepting l) (connWG l - 1)
  | None => l
  end.

(** [listener.Close]: the connections that nobody accepted are closed. *)
Definition close_queued (l : listener) (c : nat) : listener :=
  match table l !! c with
  | Some pc =>
      mkListener (<[c := mkConn (raddr pc) true (id pc) (buffer pc) true]> (table l))
        (unregister pc (conns l)) (acceptCh l) (backlog l) (accepting l) (connWG l)
  | None => l
  end.

Definition listener_Close (l : listener) : listener :=
  if negb (accepting l) then l
  else
    let l1 := mkListener (table l) (conns l) [] (backlog l) false (connWG l) in
    let l2 := foldl close_queued l1 (acceptCh l) in
    mkListener (table l2) (conns l2) (acceptCh l2) (backlog l2) (accepting l2) (connWG l2 - 1).

(** ** Connection identifiers (connection_id.go, listener.go) *)

Definition dtls_AcceptFilter (packet : bytes) : bool :=
  match UnpackDatagram packet with
  | Ok (pkt :: _) =>
      match Header_Unmarshal zero_Header pkt with
      | Ok h => (ContentType h =? ContentTypeHandshake)%Z
      | Err _ => false
      end
  | _ => false
  end.

Definition cid_header (size : nat) : Header :=
  mkHeader 0 0 (mkVersion 0 0) 0 0 (replicate size (z2b 0)).

Fixpoint first_cid (size : nat) (pkts : list bytes) : option bytes :=
  match pkts with
  | [] => None
  | pkt :: ps =>
      match Header_Unmarshal (cid_header size) pkt with
      | Ok h => if (ContentType h =? ContentTypeConnectionID)%Z then Some (ConnectionID h)
                else first_cid size ps
      | Err _ => first_cid size ps
      end
  end.

Definition cidDatagramRouter (size : nat) (packet : bytes) : option bytes :=
  match ContentAwareUnpackDatagram packet size with
  | Ok pkts => first_cid size pkts
  | Err _ => None
  end.

(** The search for a server hello: whether the last decoding failed, and the
    extensions of the message decoded last. *)
Fixpoint find_hello `{Cryptobyte} (pkts : list bytes) (failed : bool) : bool * list Extension :=
  match pkts with
  | [] => (failed, [])
  | pkt :: ps =>
      match HsHeader_Unmarshal (drop FixedHeaderSize pkt) with
      | Err _ => find_hello ps failed
      | Ok _ =>
          match ServerHello_Unmarshal (drop (FixedHeaderSize + HeaderLength) pkt) with
          | Ok sh => (false, sh_Extensions sh)
          | Err _ => find_hello ps true
          end
      end
  end.

Fixpoint ext_cid (es : list Extension) : option bytes :=
  match es with
  | [] => None
  | ConnectionIDExt cid :: _ => Some cid
  | _ :: es' => ext_cid es'
  end.

Definition cidConnIdentifier `{Cryptobyte} (packet : bytes) : option bytes :=
  match UnpackDatagram packet with
  | Ok (pkt :: ps) =>
      match Header_Unmarshal zero_Header pkt with
      | Ok h =>
          if negb (ContentType h =? ContentTypeHandshake)%Z then None
          else let '(failed, es) := find_hello (pkt :: ps) false in
               if failed then None else ext_cid es
      | Err _ => None
      end
  | _ => None
  end.

(** ** Routing *)

(** What the goroutines around a listener do.  A connection writes only while
    it is open. *)
Inductive lstep (lc : ListenConfig) : listener -> listener -> Prop :=
  | step_dispatch l ra buf : lstep lc l (snd (dispatch lc l ra buf))
  | step_accept l : lstep lc l (snd (accept_take l))
  | step_write l c pc payload addr :
      table l !! c = Some pc -> done pc = false -> lstep lc l (conn_WriteTo lc l c payload addr)
  | step_conn_close l c : lstep lc l (conn_Close l c)
  | step_close l : lstep lc l (listener_Close l).

(** The key [k] leads to the open connection [pc]. *)
Definition registered (k : bytes) (pc : PacketConn) : Prop :=
  done pc = false /\ ((k = raddr pc /\ rmraddr pc = false) \/ id pc = Some k).

Definition routes_ok (l : listener) : Prop :=
  forall k c, conns l !! k = Some c -> exists pc, table l !! c = Some pc /\ registered k pc.

Definition linv (l : listener) : Prop := routes_ok l /\ (length (acceptCh l) <= backlog l)%nat.

Lemma linv_Listen n : linv (Listen n).
Proof. split; [intros k c H; cbn in H; by rewrite lookup_empty in H|simpl; lia]. Qed.

Lemma routes_set_buffer l c pc b :
  routes_ok l -> table l !! c = Some pc ->
  routes_ok (set_conn l c (mkConn (raddr pc) (rmraddr pc) (id pc) b (done pc))).
Proof.
  intros Hr Hc k c' Hk. destruct (Hr k c' Hk) as (pc' & Hc' & Hreg). unfold set_conn. cbn [table].
  destruct (decide (c' = c)) as [->|Hne].
  - rewrite list_lookup_insert_eq by (by apply lookup_lt_Some in Hc).
    assert (pc' = pc) as -> by congruence. eexists. split; [done|exact Hreg].
  - rewrite list_lookup_insert_ne by done. eauto.
Qed.

Lemma getConn_inv lc l ra buf :
  linv l ->
  let '(r, l') := getConn lc l ra buf in
  linv l' /\
  (forall c, r = Ok (Some c) -> exists k pc,
     (k = ra \/ exists route, DatagramRouter lc = Some route /\ route buf = Some k) /\
     table l' !! c = Some pc /\ registered k pc).
Proof.
  intros [Hr Hq]. unfold getConn.
  destruct (match DatagramRouter lc with Some route => _ | None => None end) as [c|] eqn:Er.
  { split; [done|]. intros c' [= <-]. destruct (DatagramRouter lc) as [route|] eqn:Ed; [|done].
    destruct (route buf) as [k|] eqn:Ek; [|done]. destruct (Hr k c Er) as (pc & Hc & Hreg).
    exists k, pc. split_and!; [right; eauto|done|done]. }
  destruct (conns l !! ra) as [c|] eqn:Ea.
  { split; [done|]. intros c' [= <-]. destruct (Hr ra c Ea) as (pc & Hc & Hreg).
    exists ra, pc. split_and!; [by left|done|done]. }
  destruct (accepting l); cbn [negb]; [|done].
  destruct (negb _); [done|]. destruct (Nat.ltb_spec (length (acceptCh l)) (backlog l)); [|done].
  split.
  - split; [|cbn; rewrite length_app; simpl; lia]. intros k c' Hk. cbn [conns table] in *.
    destruct (decide (k = ra)) as [->|Hne].
    + rewrite lookup_insert_eq in Hk. injection Hk as <-.
      exists (newPacketConn ra). split; [by apply list_lookup_middle|]. split; [done|by left].
    + rewrite lookup_insert_ne in Hk by done. destruct (Hr k c' Hk) as (pc & Hc & Hreg).
      exists pc. split; [|done]. by apply lookup_app_l_Some.
  - intros c' [= <-]. exists ra, (newPacketConn ra). split_and!; [by left|by apply list_lookup_middle|].
    split; [done|by left].
Qed.

Lemma unregister_Some pc m k c :
  unregister pc m !! k = Some c ->
  m !! k = Some c /\ id pc <> Some k /\ (rmraddr pc = false -> k <> raddr pc).
Proof.
  unfold unregister. destruct (id pc) as [i|]; destruct (rmraddr pc); intros H;
    repeat (apply lookup_delete_Some in H as [? H]); split_and!; congruence.
Qed.

(** Closing [c] leaves no route to it and touches no other connection. *)
Lemma routes_unregister l c pc pc' q b a w :
  routes_ok l -> table l !! c = Some pc ->
  routes_ok (mkListener (<[c := pc']> (table l)) (unregister pc (conns l)) q b a w).
Proof.
  intros Hr Hc k c' Hk. cbn [conns table] in *. apply unregister_Some in Hk as (Hk & Hi & Ha).
  destruct (Hr k c' Hk) as (pc'' & Hc'' & Hreg).
  destruct (decide (c' = c)) as [->|Hne]; [|rewrite list_lookup_insert_ne by done; eauto].
  assert (pc'' = pc) as -> by congruence. destruct Hreg as [_ [[-> Hrm]|Hid]]; [|done].
  by specialize (Ha Hrm).
Qed.

Lemma close_queued_inv l cs :
  routes_ok l -> acceptCh l = [] -> let l' := foldl close_queued l cs in routes_ok l' /\ acceptCh l' = [].
Proof.
  revert l. induction cs as [|c cs IH]; intros l Hr Hq; [done|]. cbn [foldl]. apply IH.
  - unfold close_queued. destruct (table l !! c) as [pc|] eqn:E; [|done]. by apply routes_unregister.
  - unfold close_queued. by destruct (table l !! c).
Qed.

Lemma linv_step lc l l' : linv l -> lstep lc l l' -> linv l'.
Proof.
  intros Hl Hs. destruct Hs as [l ra buf|l|l c pc payload addr Hc Hd|l c|l].
  - unfold dispatch. pose proof (getConn_inv lc l ra buf Hl) as Hg.
    destruct (getConn lc l ra buf) as [[[c|]|e] l1]; destruct Hg as [Hg Hc]; try done.
    destruct (Hc c eq_refl) as (k & pc & _ & Htab & _). rewrite Htab.
    destruct (WriteTo buf ra (buffer pc)) as [? b]. cbn [snd]. destruct Hg as [Hr Hq].
    split; [by apply routes_set_buffer|done].
  - destruct Hl as [Hr Hq]. unfold accept_take. destruct (acceptCh l) as [|c q] eqn:E; [split; [done|]; cbn [snd]; rewrite E; simpl; lia|].
    split; [exact Hr|cbn; simpl in Hq; lia].
  - destruct Hl as [Hr Hq]. unfold conn_WriteTo. destruct (ConnectionIdentifier lc) as [ident|]; [|done].
    rewrite Hc. destruct (id pc) as [i|] eqn:Ei.
    + destruct (_ && _ && _) eqn:Eb; [|done]. split; [|done]. intros k c' Hk. cbn [conns table] in *.
      apply lookup_delete_Some in Hk as [Hne Hk]. destruct (Hr k c' Hk) as (pc' & Hc' & Hreg).
      destruct (decide (c' = c)) as [->|Hcc]; [|rewrite list_lookup_insert_ne by done; eauto].
      rewrite list_lookup_insert_eq by (by apply lookup_lt_Some in Hc).
      assert (pc' = pc) as -> by congruence. eexists. split; [done|].
      destruct Hreg as [Hdn [[-> _]|Hid]]; [done|]. split; [done|]. right. cbn. congruence.
    + destruct (ident payload) as [k0|]; cbn [bool_decide andb].
      2:{ rewrite bool_decide_false by (by intros [? ?]). done. }
      rewrite bool_decide_false by (by intros [? ?]). cbn [andb]. split; [|done].
      intros k c' Hk. cbn [conns table] in *. destruct (decide (k = k0)) as [->|Hne].
      * rewrite lookup_insert_eq in Hk. injection Hk as <-.
        rewrite list_lookup_insert_eq by (by apply lookup_lt_Some in Hc).
        eexists. split; [done|]. split; [done|by right].
      * rewrite lookup_insert_ne in Hk by done. destruct (Hr k c' Hk) as (pc' & Hc' & Hreg).
        destruct (decide (c' = c)) as [->|Hcc]; [|rewrite list_lookup_insert_ne by done; eauto].
        rewrite list_lookup_insert_eq by (by apply lookup_lt_Some in Hc).
        assert (pc' = pc) as -> by congruence. eexists. split; [done|].
        destruct Hreg as [Hdn [Hra|Hid]]; [split; [done|by left]|congruence].
  - destruct Hl as [Hr Hq]. unfold conn_Close. destruct (table l !! c) as [pc|] eqn:E; [|done].
    destruct (done pc); [done|]. split; [by apply routes_unregister|done].
  - destruct Hl as [Hr Hq]. unfold listener_Close. destruct (accepting l); cbn [negb]; [|done].
    set (l1 := mkListener (table l) (conns l) [] (backlog l) false (connWG l)).
    destruct (close_queued_inv l1 (acceptCh l) Hr eq_refl) as [Hr2 Hq2].
    split; [exact Hr2|]. cbn [acceptCh backlog]. rewrite Hq2. simpl. lia.
Qed.

(** The listener never hands a datagram to the wrong connection.  After any
    sequence of arrivals, accepts, writes and closes, the connection that gets
    a datagram is open, and is the one registered under the connection
    identifier in the datagram or under the sender's address; and the accept
    queue never exceeds its bound. *)
Theorem listener_routes lc n l ra buf c :
  rtc (lstep lc) (Listen n) l -> fst (dispatch lc l ra buf) = Some c ->
  (length (acceptCh l) <= backlog l)%nat /\
  exists k pc,
    (k = ra \/ exists route, DatagramRouter lc = Some route /\ route buf = Some k) /\
    table (snd (getConn lc l ra buf)) !! c = Some pc /\ registered k pc.
Proof.
  intros Hreach Hd.
  assert (Hl : linv l) by (eapply (rtc_invariant (lstep lc) linv); eauto using linv_step, linv_Listen).
  split; [apply Hl|]. unfold dispatch in Hd. pose proof (getConn_inv lc l ra buf Hl) as Hg.
  destruct (getConn lc l ra buf) as [[[c'|]|e] l1]; destruct Hg as [_ Hc]; try done.
  destruct (Hc c' eq_refl) as (k & pc & Hk & Htab & Hreg). rewrite Htab in Hd.
  destruct (WriteTo buf ra (buffer pc)). injection Hd as ->. eauto.
Qed.

Lemma listener_routes_witness :
  let lc := mkConfig None None None in
  let l := snd (dispatch lc (Listen 2) [z2b 1] [z2b 9]) in
  (length (acceptCh l) <= backlog l)%nat /\
  exists k pc,
    (k = [z2b 1] \/ exists route, DatagramRouter lc = Some route /\ route [z2b 8] = Some k) /\
    table (snd (getConn lc l [z2b 1] [z2b 8])) !! 0%nat = Some pc /\ registered k pc.
Proof.
  apply (listener_routes (mkConfig None None None) 2); [|reflexivity].
  eapply rtc_l; [apply (step_dispatch _ _ [z2b 1] [z2b 9])|apply rtc_refl].
Defined.

(** ** Connection identifiers *)

Lemma Header_Unmarshal_type h0 pkt h :
  Header_Unmarshal h0 pkt = Ok h -> idx 0 pkt = Ok (ContentType h).
Proof.
  unfold Header_Unmarshal. destruct (_ <? _)%nat; [done|]. cbn [negb ensure res_bind].
  destruct (idx 0 pkt) as [ct|]; [|done]. cbn [res_bind].
  destruct (if (ct =? _)%Z then _ else _) as [cid|]; [|done]. cbn [res_bind].
  destruct (idx 1 pkt); [|done]. cbn [res_bind]. destruct (idx 2 pkt); [|done]. cbn [res_bind].
  destruct (u16_at 3 pkt); [|done]. cbn [res_bind]. destruct (sub 5 11 pkt); [|done]. cbn [res_bind].
  destruct (_ || _); [|done]. cbn [ensure res_bind]. intros [= <-]. done.
Qed.

(** A record that carries the identifier [cid]. *)
Definition cid_record (h : Header) (cid body : bytes) : Prop :=
  header_wf h /\ ContentType h = ContentTypeConnectionID /\ ConnectionID h = cid /\
  ContentLen h = Z.of_nat (length body).

Lemma router_finds cid rs1 h body rs2 :
  cid_record h cid body ->
  datagram (length cid) (rs1 ++ (header_bytes h ++ body) :: rs2) ->
  Forall (fun r => idx 0 r <> Ok ContentTypeConnectionID) rs1 ->
  cidDatagramRouter (length cid) (concat (rs1 ++ (header_bytes h ++ body) :: rs2)) = Some cid.
Proof.
  intros (Hw & Ht & Hc & Hl) Hd Hother. unfold cidDatagramRouter, ContentAwareUnpackDatagram.
  rewrite (cid_unpack_complete _ _ _ _ _ _ (At_start _) (Nat.le_refl _) Hd). cbn [app]. clear Hd.
  induction Hother as [|r rs Hr _ IH]; cbn [app first_cid].
  - rewrite Header_roundtrip; [|done|cbn; by rewrite length_replicate, Hc].
    unfold with_len. cbn [ContentType ConnectionID]. by rewrite Ht, Z.eqb_refl, Hc.
  - destruct (Header_Unmarshal (cid_header (length cid)) r) as [h'|] eqn:E; [|done].
    apply Header_Unmarshal_type in E. destruct (Z.eqb_spec (ContentType h') ContentTypeConnectionID) as [Ec|];
      [|done]. rewrite Ec in E. done.
Qed.

(** The record of a server hello announces the identifier in its extensions. *)
Lemma identifier_finds `{Cryptobyte} h hh sh body cid :
  header_wf h -> ContentType h = ContentTypeHandshake -> ContentLen h = Z.of_nat (12 + length body) ->
  hs_header_wf hh -> ServerHello_Unmarshal body = Ok sh -> ext_cid (sh_Extensions sh) = Some cid ->
  cidConnIdentifier (header_bytes h ++ hs_header_bytes hh ++ body) = Some cid.
Proof.
  intros Hw Ht Hl Hhw Hsh Hcid. set (pkt := header_bytes h ++ hs_header_bytes hh ++ body).
  assert (Hct : ContentType h <> ContentTypeConnectionID) by (rewrite Ht; done).
  assert (Hid : ConnectionID h = []) by (by apply (hw_cid h Hw)).
  assert (Hlen : length (hs_header_bytes hh ++ body) = (12 + length body)%nat)
    by (by rewrite length_app, length_hs_header_bytes).
  assert (Hd : datagram 0 [pkt]).
  { split.
    - constructor; [|constructor]. apply marshalled_is_record; [done|by rewrite Hlen|done].
    - intros r [= <-]. apply hsize_no_cid; [done|done|]. destruct (hs_header_bytes hh) eqn:E; [|done].
      apply (f_equal length) in E. by rewrite length_hs_header_bytes in E. }
  unfold cidConnIdentifier, UnpackDatagram. rewrite unpack_loops_equal by lia.
  rewrite <- (app_nil_r pkt) at 1 2. change (pkt ++ []) with (concat [pkt]).
  rewrite (cid_unpack_complete _ _ _ _ _ _ (At_start _) (Nat.le_refl _) Hd). cbn [app].
  assert (Hs : length (header_bytes h) = 13%nat) by (rewrite length_header_bytes; unfold Header_Size; by rewrite Hid).
  unfold pkt at 1. rewrite Header_roundtrip; [|done|by rewrite Hid].
  unfold with_len. cbn [ContentType]. rewrite Ht, Z.eqb_refl. cbn [negb find_hello].
  unfold pkt. rewrite drop_app_length' by done. rewrite HsHeader_roundtrip by done.
  rewrite app_assoc, drop_app_length' by (by rewrite length_app, Hs, length_hs_header_bytes).
  by rewrite Hsh.
Qed.

(** A connection identifier survives a change of address.  Once the server
    has written a server hello that announces an identifier on a connection,
    every datagram whose first identifier is that one reaches the connection,
    from whatever address it comes. *)
Theorem cid_follows_client `{Cryptobyte} l c pc h hh sh hello cid addr filter
    ra rs1 hc body rs2 :
  let lc := mkConfig filter (Some (cidDatagramRouter (length cid))) (Some cidConnIdentifier) in
  table l !! c = Some pc -> id pc = None ->
  header_wf h -> ContentType h = ContentTypeHandshake -> ContentLen h = Z.of_nat (12 + length hello) ->
  hs_header_wf hh -> ServerHello_Unmarshal hello = Ok sh -> ext_cid (sh_Extensions sh) = Some cid ->
  cid_record hc cid body ->
  datagram (length cid) (rs1 ++ (header_bytes hc ++ body) :: rs2) ->
  Forall (fun r => idx 0 r <> Ok ContentTypeConnectionID) rs1 ->
  let l1 := conn_WriteTo lc l c (header_bytes h ++ hs_header_bytes hh ++ hello) addr in
  fst (dispatch lc l1 ra (concat (rs1 ++ (header_bytes hc ++ body) :: rs2))) = Some c.
Proof.
  intros lc Hc Hid Hw Ht Hl Hhw Hsh Hcid Hrec Hd Hother l1.
  assert (Hl1 : conns l1 !! cid = Some c /\ exists pc1, table l1 !! c = Some pc1).
  { unfold l1, conn_WriteTo. cbn [ConnectionIdentifier lc]. rewrite Hc, Hid.
    rewrite (identifier_finds h hh sh hello cid) by done.
    rewrite bool_decide_false by (by intros [? ?]). cbn [andb conns table].
    rewrite lookup_insert_eq. split; [done|]. eexists. apply list_lookup_insert_eq.
    by apply lookup_lt_Some in Hc. }
  destruct Hl1 as [Hk [pc1 Hpc1]]. unfold dispatch, getConn. cbn [DatagramRouter lc].
  rewrite (router_finds cid rs1 hc body rs2 Hrec Hd Hother), Hk, Hpc1.
  by destruct (WriteTo _ ra (buffer pc1)).
Qed.

Definition sample_hello : bytes :=
  map z2b ([254; 253] ++ replicate 32 0 ++ [0; 192; 43; 0; 0; 7; 0; 54; 0; 3; 2; 170; 187])%Z.

Lemma cid_follows_client_witness :
  let cid := map z2b [170; 187]%Z in
  let lc := mkConfig None (Some (cidDatagramRouter 2)) (Some (@cidConnIdentifier cryptobyte_ref)) in
  let l := mkListener [newPacketConn [z2b 1]] {[ [z2b 1] := 0%nat ]} [] 128 true 2 in
  let hello := header_bytes (mkHeader 22 59 Version1_2 0 1 [])
    ++ hs_header_bytes (mkHsHeader 2 47 1 0 47) ++ sample_hello in
  fst (dispatch lc (conn_WriteTo lc l 0 hello [z2b 1]) [z2b 99]
    (concat ([] ++ (header_bytes (mkHeader 25 1 Version1_2 1 5 cid) ++ [z2b 7]) :: []))) = Some 0%nat.
Proof.
  apply (cid_follows_client (mkListener [newPacketConn [z2b 1]] {[ [z2b 1] := 0%nat ]} [] 128 true 2) 0
    (newPacketConn [z2b 1]) (mkHeader 22 59 Version1_2 0 1 []) (mkHsHeader 2 47 1 0 47)
    (mkServerHello Version1_2 (mkRandom 0 (replicate 28 (z2b 0))) [] (Some 49195%Z) (Some 0%Z)
      [ConnectionIDExt (map z2b [170; 187]%Z)]) sample_hello (map z2b [170; 187]%Z) [z2b 1] None [z2b 99] []
    (mkHeader 25 1 Version1_2 1 5 (map z2b [170; 187]%Z)) [z2b 7] []);
    try reflexivity; try (split; cbn; unfold MaxSequenceNumber; try lia; by auto).
  - split_and!; try reflexivity. split; cbn; unfold MaxSequenceNumber; try lia; try by auto.
  - split; [|intros r [= <-]; vm_compute; lia]. repeat constructor; vm_compute; lia.
  - constructor.
Defined.
End Udp.
