(* ===== verification/DtlsCrypto.v ===== *)
(** * DTLS record protection and key derivation

    The packages [ciphersuite], [ccm] and [prf] under
    golib/replace/dtls/pkg/crypto and the [Init] methods of the suites in
    golib/replace/dtls/internal/ciphersuite: the additional data of a record,
    the check of block padding, the GCM, CCM and CBC record ciphers, CCM
    itself on a block cipher, and the derivation of the key block.

    The block cipher, GCM and the hash functions come from the Go standard
    library: they are the classes [BlockCipher], [AEAD12] and [Hash] with the
    laws their documentation states.  CCM and CBC are code of the repository
    or chaining modes defined by their standard, and are written out, so that
    CCM is an instance of [AEAD12] by proof. *)

From S2P Require Import Prelude DtlsWire DtlsExt DtlsHandshake.
Open Scope np_scope.

(** ** What the Go standard library promises *)

(** [cipher.Block] with blocks of 16 bytes. *)
Class BlockCipher (B : Type) := {
  block_Encrypt : B -> bytes -> bytes;
  block_Decrypt : B -> bytes -> bytes;
  length_block_Encrypt : forall k b, length (block_Encrypt k b) = 16%nat;
  length_block_Decrypt : forall k b, length (block_Decrypt k b) = 16%nat;
  block_Decrypt_Encrypt : forall k b, length b = 16%nat -> block_Decrypt k (block_Encrypt k b) = b
}.

(** [cipher.AEAD] with nonces of 12 bytes: [Seal key nonce plaintext
    additional] may panic; what it seals opens under the same nonce and
    additional data and is longer by the tag. *)
Class AEAD12 (K : Type) := {
  aead_Overhead : K -> nat;
  aead_Seal : K -> bytes -> bytes -> bytes -> res derr bytes;
  aead_Open : K -> bytes -> bytes -> bytes -> res derr bytes;
  aead_Seal_ok : forall k n p a,
    length n = 12%nat -> (Z.of_nat (length p) < 2 ^ 24)%Z ->
    exists c, aead_Seal k n p a = Ok c /\ length c = (length p + aead_Overhead k)%nat /\
      aead_Open k n c a = Ok p
}.

(** [hash.Hash] and [hmac]: the digests have the size of the hash. *)
Class Hash (H : Type) := {
  hash_Size : H -> nat;
  hash_Sum : H -> bytes -> bytes;
  hash_HMAC : H -> bytes -> bytes -> bytes;      (* hash, key, message *)
  hash_Size_pos : forall h, (0 < hash_Size h)%nat;
  length_hash_Sum : forall h m, length (hash_Sum h m) = hash_Size h;
  length_hash_HMAC : forall h k m, length (hash_HMAC h k m) = hash_Size h
}.

#[export] Instance byte_inhabited : Inhabited byte := populate (z2b 0).

Definition zero_byte : byte := z2b 0.

(** [a ^ b] of two bytes, and of two slices as far as both go. *)
Definition bxor (a b : byte) : byte := z2b (Z.lxor (b2z a) (b2z b)).
Definition xor_bytes (l k : bytes) : bytes := zip_with bxor l k.

(** ** Additional data (ciphersuite.go) *)

Definition generateAEADAdditionalData (h : Header) (payloadLen : Z) : bytes :=
  let a := replicate 13 zero_byte in
  let a := splice 0 (be_put 8 (SequenceNumber h)) a in
  let a := splice 0 (be_put 2 (Epoch h)) a in
  let a := splice 8 [z2b (ContentType h)] a in
  let a := splice 9 [z2b (Major (HVersion h))] a in
  let a := splice 10 [z2b (Minor (HVersion h))] a in
  splice (13 - 2) (be_put 2 (u16 payloadLen)) a.

Definition seqNumPlaceholder : Z := 2 ^ 64 - 1.

(** [util.AddUint48] appends the six low bytes. *)
Definition AddUint48 (v : Z) : bytes :=
  [z2b (Z.shiftr v 40); z2b (Z.shiftr v 32); z2b (Z.shiftr v 24);
   z2b (Z.shiftr v 16); z2b (Z.shiftr v 8); z2b v].

Definition generateAEADAdditionalDataCID (h : Header) (payloadLen : Z) : bytes :=
  be_put 8 seqNumPlaceholder
  ++ be_put 1 ContentTypeConnectionID
  ++ be_put 1 (u8 (Z.of_nat (length (ConnectionID h))))
  ++ be_put 1 ContentTypeConnectionID
  ++ be_put 1 (Major (HVersion h))
  ++ be_put 1 (Minor (HVersion h))
  ++ be_put 2 (Epoch h)
  ++ AddUint48 (SequenceNumber h)
  ++ ConnectionID h
  ++ be_put 2 (u16 payloadLen).

(** The choice both ciphers make in [Encrypt] and [Decrypt]. *)
Definition additionalData (h : Header) (payloadLen : Z) : bytes :=
  if (ContentType h =? ContentTypeConnectionID)%Z then generateAEADAdditionalDataCID h payloadLen
  else generateAEADAdditionalData h payloadLen.

(** ** Block padding (ciphersuite.go)

    [uint] is 64 bits wide. *)

(** [byte(int32(^t) >> 31)]. *)
Definition msb_mask (t : Z) : Z :=
  let lo := u32 (u64 (Z.lnot t)) in
  let signed := if (lo <? 2 ^ 31)%Z then lo else (lo - 2 ^ 32)%Z in
  u8 (Z.shiftr signed 31).

(** The body of the loop; [good &^= x] clears the bits of [x]. *)
Definition examine_body (payload : bytes) (paddingLen : Z) (i : nat) (good : Z) : Z :=
  let t := u64 (paddingLen - Z.of_nat i) in
  let mask := msb_mask t in
  let b := b2z (payload !!! (length payload - 1 - i)%nat) in
  Z.ldiff good (Z.lxor (Z.land mask paddingLen) (Z.land mask b)).

(** The last four assignments to [good]; [int8(good) >> 7] copies the sign. *)
Definition replicate_good (good : Z) : Z :=
  let good := Z.land good (u8 (Z.shiftl good 4)) in
  let good := Z.land good (u8 (Z.shiftl good 2)) in
  let good := Z.land good (u8 (Z.shiftl good 1)) in
  let signed := if (good <? 128)%Z then good else (good - 256)%Z in
  u8 (Z.shiftr signed 7).

Definition examinePadding (payload : bytes) : nat * Z :=
  if (length payload <? 1)%nat then (0%nat, 0%Z)
  else
    let paddingLen := b2z (payload !!! (length payload - 1)%nat) in
    let t := u64 (Z.of_nat (length payload - 1) - paddingLen) in
    let good := msb_mask t in
    let toCheck := if (length payload <? 256)%nat then length payload else 256%nat in
    let good := for_up toCheck 0 (examine_body payload paddingLen) good in
    (S (Z.to_nat paddingLen), replicate_good good).

(** ** The AEAD record ciphers (gcm.go, ccm.go)

    [GCM] and [CCM] have the same code over their [cipher.AEAD]; the tag
    length of the length computation is 16 for GCM and [tagLen] for CCM.
    [rnd] are the 8 bytes [rand.Read] puts in the nonce. *)

Record AeadCipher (K : Type) := mkAead {
  localAEAD : K; remoteAEAD : K; localWriteIV : bytes; remoteWriteIV : bytes; tagLength : nat
}.
Arguments mkAead {K}.
Arguments localAEAD {K}. Arguments remoteAEAD {K}.
Arguments localWriteIV {K}. Arguments remoteWriteIV {K}. Arguments tagLength {K}.

Definition gcmTagLength : nat := 16.
Definition gcmNonceLength : nat := 12.

Section aead.
Context {K : Type} `{AEAD12 K}.

(** The record length is written over the last two bytes of the header. *)
Definition fix_length (size : nat) (r : bytes) : bytes :=
  splice (size - 2) (be_put 2 (u16 (Z.of_nat (length r) - Z.of_nat size))) r.

Definition Aead_Encrypt (g : AeadCipher K) (h : Header) (raw rnd : bytes) : res derr bytes :=
  let size := Header_Size h in
  let! payload := from size raw in
  let! raw := sub 0 size raw in
  let! iv := sub 0 4 (localWriteIV g) in
  let nonce := splice 4 rnd (splice 0 iv (replicate gcmNonceLength zero_byte)) in
  let! sealed := aead_Seal (localAEAD g) nonce payload
                   (additionalData h (Z.of_nat (length payload))) in
  Ok (fix_length size (raw ++ drop 4 nonce ++ sealed)).

Definition Aead_Decrypt (g : AeadCipher K) (h0 : Header) (inp : bytes) : res derr bytes :=
  let! h := Header_Unmarshal h0 inp in
  let size := Header_Size h in
  if (ContentType h =? ContentTypeChangeCipherSpec)%Z then Ok inp
  else if (length inp <=? 8 + size)%nat then Err errNotEnoughRoomForNonce
  else
    let! iv := sub 0 4 (remoteWriteIV g) in
    let! explicit := sub size (size + 8) inp in
    let! out := from (size + 8) inp in
    match aead_Open (remoteAEAD g) (iv ++ explicit) out
            (additionalData h (Z.of_nat (length out) - Z.of_nat (tagLength g))) with
    | Ok out => Ok (take size inp ++ out)
    | Err _ => Err errDecryptPacket
    end.
End aead.

(** ** CCM on a block cipher (ccm.go of the package [ccm]) *)

Definition ccmBlockSize : nat := 16.

Record ccm (B : Type) := mkCcm { ccm_b : B; ccm_M : Z; ccm_L : Z }.   (* M, L : uint8 *)
Arguments mkCcm {B}. Arguments ccm_b {B}. Arguments ccm_M {B}. Arguments ccm_L {B}.

(** [blockSize] is [b.BlockSize()]. *)
Definition NewCCM {B} (b : B) (blockSize tagsize noncesize : Z) : res derr (ccm B) :=
  if negb (blockSize =? Z.of_nat ccmBlockSize)%Z then Err errInvalidBlockSize
  else if (tagsize <? 4)%Z || (16 <? tagsize)%Z || negb (Z.land tagsize 1 =? 0)%Z then Err errInvalidTagSize
  else
    let lensize := (15 - noncesize)%Z in
    if (lensize <? 2)%Z || (8 <? lensize)%Z then Err errInvalidNonceSize
    else Ok (mkCcm b (u8 tagsize) (u8 lensize)).

Definition NonceSize {B} (c : ccm B) : Z := (15 - ccm_L c)%Z.
Definition Overhead {B} (c : ccm B) : Z := ccm_M c.

(** The shift count [8*l] is a [uint8]; [int] has 64 bits. *)
Definition maxlen (l tagsize : Z) : Z :=
  let mLen := u64 (u64 (Z.shiftl 1 (u8 (8 * l))) - 1) in
  let m64 := u64 (maxInt - tagsize) in
  if (8 <? l)%Z || (m64 <? mLen)%Z then m64 else mLen.

Definition MaxLength {B} (c : ccm B) : Z := maxlen (ccm_L c) (Overhead c).

Fixpoint MaxNonceLength_loop (n : nat) (L pdatalen : Z) : Z :=
  match n with
  | O => 0%Z
  | S n' => if (pdatalen <=? maxlen L 16)%Z then (15 - L)%Z else MaxNonceLength_loop n' (L + 1) pdatalen
  end.
Definition MaxNonceLength (pdatalen : Z) : Z := MaxNonceLength_loop 7 2 pdatalen.

Section ccm.
Context {B : Type} `{BlockCipher B}.
Implicit Types (c : ccm B) (mac data nonce plaintext adata : bytes).

Definition cbcRound c mac data : bytes := block_Encrypt (ccm_b c) (xor_bytes mac (take ccmBlockSize data)).

Fixpoint cbcData_loop (fuel : nat) c mac data : bytes :=
  match fuel with
  | O => mac
  | S fuel' =>
      if (ccmBlockSize <=? length data)%nat then
        cbcData_loop fuel' c (cbcRound c mac (take ccmBlockSize data)) (drop ccmBlockSize data)
      else if (0 <? length data)%nat then
        cbcRound c mac (splice 0 data (replicate ccmBlockSize zero_byte))
      else mac
  end.
Definition cbcData c mac data : bytes := cbcData_loop (S (length data)) c mac data.

(** [x[0] |= v] on an array. *)
Definition or_at (i : nat) (v : Z) (l : bytes) : bytes :=
  <[i := z2b (Z.lor (b2z (l !!! i)) v)]> l.

(** The first block of additional data: its length, then what fits; the
    result is the block and the number of bytes of [adata] in it. *)
Definition adata_block (adata : bytes) : bytes * nat :=
  let block := replicate ccmBlockSize zero_byte in
  let n := Z.of_nat (length adata) in
  if (n <=? 65279)%Z then
    (splice 2 adata (splice 0 (be_put 2 n) block), Nat.min (ccmBlockSize - 2) (length adata))
  else
    let block := splice 1 [z2b 255] (splice 0 [z2b 254] block) in
    if (n <? 2 ^ 32)%Z then
      (splice 6 adata (splice 2 (be_put 4 n) block), Nat.min (ccmBlockSize - 6) (length adata))
    else
      (splice 10 adata (splice 2 (be_put 8 n) block), Nat.min (ccmBlockSize - 10) (length adata)).

Definition tag c nonce plaintext adata : res derr bytes :=
  let mac := replicate ccmBlockSize zero_byte in
  let mac := if (0 <? length adata)%nat then or_at 0 64 mac else mac in
  let mac := or_at 0 (u8 (Z.shiftl (u8 (ccm_M c - 2)) 2)) mac in
  let mac := or_at 0 (u8 (ccm_L c - 1)) mac in
  if negb (Z.of_nat (length nonce) =? NonceSize c)%Z then Err errInvalidNonceSize
  else if (MaxLength c <? Z.of_nat (length plaintext))%Z then Err errPlaintextTooLong
  else
    let mac := splice 8 (be_put 8 (Z.of_nat (length plaintext))) mac in
    let mac := splice 1 (take (15 - Z.to_nat (ccm_L c)) nonce) mac in
    let mac := block_Encrypt (ccm_b c) mac in
    let mac :=
      (if (0 <? length adata)%nat then
         let '(block, i) := adata_block adata in
         cbcData c (cbcRound c mac block) (drop i adata)
       else mac) in
    let mac := if (0 <? length plaintext)%nat then cbcData c mac plaintext else mac in
    sub 0 (Z.to_nat (ccm_M c)) mac.

(** The counter block that starts the stream, with the nonce in place. *)
Definition ccm_iv c nonce : bytes :=
  let iv := replicate ccmBlockSize zero_byte in
  let iv := <[0%nat := z2b (ccm_L c - 1)]> iv in
  splice 1 (take (15 - Z.to_nat (ccm_L c)) nonce) iv.

(** [tag[i] ^= s0[i]] for [i < M]. *)
Definition mask_tag c nonce (t : bytes) : bytes := xor_bytes t (block_Encrypt (ccm_b c) (ccm_iv c nonce)).

(** [cipher.NewCTR]: the key stream from a counter block, as a 128-bit
    big-endian counter. *)
Definition keystream (b : B) (iv : bytes) (n : nat) : bytes :=
  take n (concat (map (fun i => block_Encrypt b (be_put 16 (be_get iv + Z.of_nat i)))
                    (seq 0 (S (n / ccmBlockSize))))).

Definition ctr_xor c nonce data : bytes :=
  xor_bytes data (keystream (ccm_b c) (or_at 15 1 (ccm_iv c nonce)) (length data)).

(** An error of [tag] makes [Seal] panic. *)
Definition ccm_Seal c dst nonce plaintext adata : res derr bytes :=
  match tag c nonce plaintext adata with
  | Err _ => Err Panic
  | Ok t => Ok (dst ++ ctr_xor c nonce plaintext ++ mask_tag c nonce t)
  end.

Definition ccm_Open c dst nonce ciphertext adata : res derr bytes :=
  let m := Z.to_nat (ccm_M c) in
  if (length ciphertext <? m)%nat then Err errCiphertextTooShort
  else if (MaxLength c + Overhead c <? Z.of_nat (length ciphertext))%Z then Err errCiphertextTooLong
  else
    let tag' := drop (length ciphertext - m) ciphertext in
    let body := take (length ciphertext - m) ciphertext in
    let tag' := mask_tag c nonce tag' in
    let plaintext := ctr_xor c nonce body in
    let! expectedTag := tag c nonce plaintext adata in
    if negb (bool_decide (tag' = expectedTag)) then Err errOpen else Ok (dst ++ plaintext).
End ccm.

(** ** CBC with HMAC (cbc.go) *)

Record CBC (B H : Type) := mkCBC { writeCBC : B; readCBC : B; writeMac : bytes; readMac : bytes; cbc_h : H }.
Arguments mkCBC {B H}. Arguments writeCBC {B H}. Arguments readCBC {B H}.
Arguments writeMac {B H}. Arguments readMac {B H}. Arguments cbc_h {B H}.

Section cbc.
Context {B H : Type} `{BlockCipher B} `{Hash H}.
Implicit Types (c : CBC B H) (payload iv : bytes).

(** [CryptBlocks] of [crypto/cipher] after [SetIV]: the input is a whole
    number of blocks. *)
Fixpoint cbc_chain_encrypt (n : nat) (k : B) iv (data : bytes) : bytes :=
  match n with
  | O => []
  | S n' => let e := block_Encrypt k (xor_bytes iv (take 16 data)) in
            e ++ cbc_chain_encrypt n' k e (drop 16 data)
  end.
Fixpoint cbc_chain_decrypt (n : nat) (k : B) iv (data : bytes) : bytes :=
  match n with
  | O => []
  | S n' => xor_bytes iv (block_Decrypt k (take 16 data)) ++ cbc_chain_decrypt n' k (take 16 data) (drop 16 data)
  end.

Definition CryptBlocks (chain : nat -> bytes -> bytes) (data : bytes) : res derr bytes :=
  if (length data mod 16 =? 0)%nat then Ok (chain (length data / 16)%nat data) else Err Panic.

Definition hmac (epoch sequenceNumber contentType : Z) (v : Version) payload (key : bytes) (hf : H) : bytes :=
  let msg := replicate 13 zero_byte in
  let msg := splice 0 (be_put 2 epoch) msg in
  let msg := take 2 msg ++ PutBigEndianUint48 (drop 2 msg) sequenceNumber in
  let msg := splice 8 [z2b contentType] msg in
  let msg := splice 9 [z2b (Major v)] msg in
  let msg := splice 10 [z2b (Minor v)] msg in
  let msg := splice 11 (be_put 2 (u16 (Z.of_nat (length payload)))) msg in
  hash_HMAC hf key (msg ++ payload).

Definition hmacCID (epoch sequenceNumber : Z) (v : Version) payload (key : bytes) (hf : H) (cid : bytes)
    : res derr bytes :=
  let! ip := InnerPlaintext_Unmarshal payload in
  let msg := be_put 8 seqNumPlaceholder ++ be_put 1 ContentTypeConnectionID
    ++ be_put 1 (u8 (Z.of_nat (length cid))) ++ be_put 1 ContentTypeConnectionID
    ++ be_put 1 (Major v) ++ be_put 1 (Minor v) ++ be_put 2 epoch ++ AddUint48 sequenceNumber
    ++ cid ++ be_put 2 (u16 (Z.of_nat (length payload)))
    ++ IContent ip ++ be_put 1 (RealType ip) ++ replicate (Zeros ip) zero_byte in
  Ok (hash_HMAC hf key (msg ++ payload)).

(** The choice between the two that [Encrypt] and [Decrypt] make. *)
Definition record_mac (h : Header) payload (key : bytes) (hf : H) : res derr bytes :=
  if (ContentType h =? ContentTypeConnectionID)%Z
  then hmacCID (Epoch h) (SequenceNumber h) (HVersion h) payload key hf (ConnectionID h)
  else Ok (hmac (Epoch h) (SequenceNumber h) (ContentType h) (HVersion h) payload key hf).

Definition cbc_padding (n : nat) : bytes :=
  let paddingLen := (16 - n mod 16)%nat in replicate paddingLen (z2b (Z.of_nat paddingLen - 1)).

(** [rnd] are the 16 bytes of [rand.Read]. *)
Definition CBC_Encrypt c (h : Header) (raw rnd : bytes) : res derr bytes :=
  let size := Header_Size h in
  let! payload := from size raw in
  let! raw := sub 0 size raw in
  let! mac := record_mac h payload (writeMac c) (cbc_h c) in
  let payload := payload ++ mac in
  let payload := payload ++ cbc_padding (length payload) in
  let iv := splice 0 rnd (replicate 16 zero_byte) in
  let! enc := CryptBlocks (fun n => cbc_chain_encrypt n (writeCBC c) iv) payload in
  Ok (fix_length size (raw ++ iv ++ enc)).

(** The part of [Decrypt] after the blocks are decrypted.  [dataEnd] may be
    negative, and slicing with it panics. *)
Definition cbc_check c (h : Header) (head body : bytes) : res derr bytes :=
  let '(paddingLen, paddingGood) := examinePadding body in
  if negb (paddingGood =? 255)%Z then Err errInvalidMAC
  else
    let macSize := hash_Size (cbc_h c) in
    if (length body <? macSize)%nat then Err errInvalidMAC
    else
      let dataEnd := (Z.of_nat (length body) - Z.of_nat macSize - Z.of_nat paddingLen)%Z in
      if (dataEnd <? 0)%Z then Err Panic
      else
        let dataEnd := Z.to_nat dataEnd in
        let! expectedMAC := sub dataEnd (dataEnd + macSize) body in
        match record_mac h (take dataEnd body) (readMac c) (cbc_h c) with
        | Err Panic => Err Panic
        | Err _ => Err errInvalidMAC
        | Ok actualMAC =>
            if negb (bool_decide (actualMAC = expectedMAC)) then Err errInvalidMAC
            else Ok (head ++ take dataEnd body)
        end.

Definition CBC_Decrypt c (h0 : Header) (inp : bytes) : res derr bytes :=
  let! h := Header_Unmarshal h0 inp in
  let size := Header_Size h in
  let! body := from size inp in
  if (ContentType h =? ContentTypeChangeCipherSpec)%Z then Ok inp
  else if negb (length body mod 16 =? 0)%nat
          || (length body <? 16 + Nat.max (hash_Size (cbc_h c) + 1) 16)%nat
  then Err errNotEnoughRoomForNonce
  else
    let iv := take 16 body in
    let! body := CryptBlocks (fun n => cbc_chain_decrypt n (readCBC c) iv) (drop 16 body) in
    cbc_check c h (take size inp) body.
End cbc.

(** ** Key derivation (prf.go) *)

Definition masterSecretLabel : bytes := String.list_byte_of_string "master secret".
Definition extendedMasterSecretLabel : bytes := String.list_byte_of_string "extended master secret".
Definition keyExpansionLabel : bytes := String.list_byte_of_string "key expansion".
Definition verifyDataClientLabel : bytes := String.list_byte_of_string "client finished".
Definition verifyDataServerLabel : bytes := String.list_byte_of_string "server finished".

(** [2+pskLen+2] and [2+pskLen] are [uint16]; [out[2+pskLen:]] needs two
    bytes to be written to. *)
Definition PSKPreMasterSecret (psk : bytes) : res derr bytes :=
  let pskLen := u16 (Z.of_nat (length psk)) in
  let out := replicate (Z.to_nat (u16 (2 + pskLen + 2))) zero_byte ++ psk in
  let off := Z.to_nat (u16 (2 + pskLen)) in
  if (length out <? 2)%nat || (length out <? off + 2)%nat then Err Panic
  else Ok (splice off (be_put 2 pskLen) (splice 0 (be_put 2 pskLen) out)).

Section prf.
Context {H : Type} `{Hash H}.
Implicit Types (h : H) (secret seed : bytes).

Fixpoint phash_loop (iterations : nat) secret seed h (lastRound out : bytes) : bytes :=
  match iterations with
  | O => out
  | S n =>
      let lastRound := hash_HMAC h secret lastRound in
      let withSecret := hash_HMAC h secret (lastRound ++ seed) in
      phash_loop n secret seed h lastRound (out ++ withSecret)
  end.

(** [iterations] is the quotient rounded up. *)
Definition PHash secret seed (requestedLength : nat) h : res derr bytes :=
  let iterations := ((requestedLength + hash_Size h - 1) / hash_Size h)%nat in
  sub 0 requestedLength (phash_loop iterations secret seed h seed []).

Definition ExtendedMasterSecret (preMasterSecret sessionHash : bytes) h : res derr bytes :=
  PHash preMasterSecret (extendedMasterSecretLabel ++ sessionHash) 48 h.

Definition MasterSecret (preMasterSecret clientRandom serverRandom : bytes) h : res derr bytes :=
  PHash preMasterSecret ((masterSecretLabel ++ clientRandom) ++ serverRandom) 48 h.

Record EncryptionKeys := mkKeys {
  MasterSecret_ : bytes;
  ClientMACKey : bytes; ServerMACKey : bytes;
  ClientWriteKey : bytes; ServerWriteKey : bytes;
  ClientWriteIV : bytes; ServerWriteIV : bytes
}.

Definition GenerateEncryptionKeys (masterSecret clientRandom serverRandom : bytes)
    (macLen keyLen ivLen : nat) h : res derr EncryptionKeys :=
  let seed := (keyExpansionLabel ++ serverRandom) ++ clientRandom in
  let! km := PHash masterSecret seed (2 * macLen + 2 * keyLen + 2 * ivLen) h in
  let! clientMACKey := sub 0 macLen km in
  let! km := from macLen km in
  let! serverMACKey := sub 0 macLen km in
  let! km := from macLen km in
  let! clientWriteKey := sub 0 keyLen km in
  let! km := from keyLen km in
  let! serverWriteKey := sub 0 keyLen km in
  let! km := from keyLen km in
  let! clientWriteIV := sub 0 ivLen km in
  let! km := from ivLen km in
  let! serverWriteIV := sub 0 ivLen km in
  Ok (mkKeys masterSecret clientMACKey serverMACKey clientWriteKey serverWriteKey
        clientWriteIV serverWriteIV).

Definition prfVerifyData (masterSecret handshakeBodies label : bytes) h : res derr bytes :=
  PHash masterSecret (label ++ hash_Sum h handshakeBodies) 12 h.

Definition VerifyDataClient (masterSecret handshakeBodies : bytes) h : res derr bytes :=
  prfVerifyData masterSecret handshakeBodies verifyDataClientLabel h.

Definition VerifyDataServer (masterSecret handshakeBodies : bytes) h : res derr bytes :=
  prfVerifyData masterSecret handshakeBodies verifyDataServerLabel h.

(** ** The suites (internal/ciphersuite)

    [newAEAD] is [aes.NewCipher] followed by [cipher.NewGCM] or [ccm.NewCCM];
    [NewGCM] and [NewCCM] make the ciphers of the two directions in turn.  The
    IVs that [NewCBC] gets are replaced before each use. *)
Section init.
Context {K B : Type}.
Variable newAEAD : bytes -> res derr K.
Variable newCipher : bytes -> res derr B.

Definition NewAead (tagLen : nat) (localKey lIV remoteKey rIV : bytes) : res derr (AeadCipher K) :=
  let! l := newAEAD localKey in
  let! r := newAEAD remoteKey in
  Ok (mkAead l r lIV rIV tagLen).

Definition NewCBC (localKey localMac remoteKey remoteMac : bytes) h : res derr (CBC B H) :=
  let! l := newCipher localKey in
  let! r := newCipher remoteKey in
  Ok (mkCBC l r localMac remoteMac h).

Definition aead_Init (tagLen prfKeyLen : nat) h (masterSecret clientRandom serverRandom : bytes)
    (isClient : bool) : res derr (AeadCipher K) :=
  let! keys := GenerateEncryptionKeys masterSecret clientRandom serverRandom 0 prfKeyLen 4 h in
  if isClient
  then NewAead tagLen (ClientWriteKey keys) (ClientWriteIV keys) (ServerWriteKey keys) (ServerWriteIV keys)
  else NewAead tagLen (ServerWriteKey keys) (ServerWriteIV keys) (ClientWriteKey keys) (ClientWriteIV keys).

(** The hash of the derivation, [hPrf], need not be the hash of the record
    MAC, [hMac]. *)
Definition cbc_Init (prfMacLen prfKeyLen : nat) (hPrf hMac : H)
    (masterSecret clientRandom serverRandom : bytes) (isClient : bool) : res derr (CBC B H) :=
  let! keys := GenerateEncryptionKeys masterSecret clientRandom serverRandom prfMacLen prfKeyLen 16 hPrf in
  if isClient
  then NewCBC (ClientWriteKey keys) (ClientMACKey keys) (ServerWriteKey keys) (ServerMACKey keys) hMac
  else NewCBC (ServerWriteKey keys) (ServerMACKey keys) (ClientWriteKey keys) (ClientMACKey keys) hMac.
End init.
End prf.

#[local] Arguments be_put : simpl never.

Lemma Ok_inj {E A} (a b : A) : @Ok E A a = Ok b -> a = b.
Proof. by intros [= ->]. Qed.

(** ** Exclusive or *)

Lemma lxor_byte_range a b : (0 <= a < 256)%Z -> (0 <= b < 256)%Z -> (0 <= Z.lxor a b < 256)%Z.
Proof.
  intros Ha Hb. split; [apply Z.lxor_nonneg; lia|].
  destruct (decide (Z.lxor a b = 0)%Z) as [->|]; [lia|].
  change 256%Z with (2 ^ 8)%Z. apply Z.log2_lt_pow2; [|].
  - pose proof (proj2 (Z.lxor_nonneg a b)). lia.
  - eapply Z.le_lt_trans; [apply Z.log2_lxor; lia|].
    assert (L : forall x, (0 <= x < 256)%Z -> (Z.log2 x < 8)%Z).
    { intros x Hx. destruct (decide (0 < x)%Z); [apply Z.log2_lt_pow2; lia|].
      by replace x with 0%Z by lia. }
    apply Z.max_lub_lt; by apply L.
Qed.

Lemma bxor_involutive a b : bxor (bxor a b) b = a.
Proof.
  unfold bxor. rewrite b2z_z2b_small by (apply lxor_byte_range; apply b2z_range).
  by rewrite Z.lxor_assoc, Z.lxor_nilpotent, Z.lxor_0_r, z2b_b2z.
Qed.

Lemma bxor_comm a b : bxor a b = bxor b a.
Proof. unfold bxor. by rewrite Z.lxor_comm. Qed.

Lemma length_xor_bytes l k : length (xor_bytes l k) = Nat.min (length l) (length k).
Proof. unfold xor_bytes. apply length_zip_with. Qed.

Lemma xor_bytes_involutive l k : (length l <= length k)%nat -> xor_bytes (xor_bytes l k) k = l.
Proof.
  revert k. induction l as [|a l IH]; intros [|b k] Hl; simpl in Hl; try done; try lia.
  cbn. rewrite bxor_involutive. f_equal. apply IH. lia.
Qed.

Lemma xor_bytes_comm l k : xor_bytes l k = xor_bytes k l.
Proof. revert k. induction l as [|a l IH]; intros [|b k]; try done. cbn. by rewrite bxor_comm, IH. Qed.

(** ** Padding *)

Lemma msb_mask_spec z :
  (- 2 ^ 31 <= z < 2 ^ 31)%Z -> msb_mask (u64 z) = (if (0 <=? z)%Z then 255 else 0)%Z.
Proof.
  intros Hz. unfold msb_mask, Z.lnot, wrap.
  assert (E : ((Z.pred (- (z mod 2 ^ 64)) mod 2 ^ 64) mod 2 ^ 32 = (- 1 - z) mod 2 ^ 32)%Z).
  { rewrite Z.mod_mod_divide by (by exists (2 ^ 32)%Z).
    replace (Z.pred (- (z mod 2 ^ 64)))%Z with (-1 - z + (z / 2 ^ 64 * 2 ^ 32) * 2 ^ 32)%Z.
    - by rewrite Z_mod_plus_full.
    - pose proof (Z.div_mod z (2 ^ 64) ltac:(lia)) as D. lia. }
  rewrite E. cbv zeta. clear E. destruct (Z.leb_spec 0 z) as [H0|H0].
  - replace ((-1 - z) mod 2 ^ 32)%Z with (2 ^ 32 - 1 - z)%Z.
    2:{ rewrite <- (Z.mod_small (2 ^ 32 - 1 - z) (2 ^ 32)) by lia.
        rewrite <- (Z_mod_plus_full (-1 - z) 1). f_equal. lia. }
    destruct (Z.ltb_spec (2 ^ 32 - 1 - z) (2 ^ 31)); [lia|].
    replace (2 ^ 32 - 1 - z - 2 ^ 32)%Z with (- 1 - z)%Z by lia.
    rewrite Z.shiftr_div_pow2 by lia. replace ((-1 - z) / 2 ^ 31)%Z with (-1)%Z; [done|].
    apply (Z.div_unique _ _ _ (2 ^ 31 - 1 - z)); lia.
  - rewrite (Z.mod_small (-1 - z)) by lia. destruct (Z.ltb_spec (-1 - z) (2 ^ 31)); [|lia].
    rewrite Z.shiftr_div_pow2, Z.div_small by lia. done.
Qed.

(** A statement on bytes, checked on all of them. *)
Lemma byte_cases (P : Z -> bool) :
  forallb P (map Z.of_nat (seq 0 256)) = true -> forall z, (0 <= z < 256)%Z -> P z = true.
Proof.
  intros H z Hz. rewrite forallb_forall in H. apply H, in_map_iff.
  exists (Z.to_nat z). split; [lia|]. apply in_seq. lia.
Qed.

Lemma replicate_good_spec g :
  (0 <= g < 256)%Z -> replicate_good g = (if (g =? 255)%Z then 255 else 0)%Z.
Proof.
  intros H. apply Z.eqb_eq.
  apply (byte_cases (fun g => replicate_good g =? (if g =? 255 then 255 else 0))%Z); [|done].
  vm_compute. reflexivity.
Qed.

Lemma ldiff_good g x :
  (0 <= g < 256)%Z -> (0 <= x < 256)%Z ->
  (0 <= Z.ldiff g x < 256)%Z /\ (Z.ldiff g x = 255%Z <-> g = 255%Z /\ x = 0%Z).
Proof.
  intros Hg Hx.
  pose proof (byte_cases (fun g => forallb (fun x => ((0 <=? Z.ldiff g x) && (Z.ldiff g x <? 256)
    && Bool.eqb (Z.ldiff g x =? 255) ((g =? 255) && (x =? 0)))%Z) (map Z.of_nat (seq 0 256)))
    ltac:(vm_compute; reflexivity) g Hg) as H.
  pose proof (byte_cases _ H x Hx) as E. cbn beta in E.
  apply andb_prop in E as [E E3]. apply andb_prop in E as [E1 E2]. apply eqb_prop in E3.
  destruct (Z.eqb_spec (Z.ldiff g x) 255), (Z.eqb_spec g 255), (Z.eqb_spec x 0); simpl in E3; lia.
Qed.

(** One turn of the loop keeps [good] iff position [i] from the end is
    outside the padding or holds the padding length. *)
Lemma examine_body_spec payload p i g :
  (0 <= p < 256)%Z -> (i < 256)%nat -> (0 <= g < 256)%Z ->
  (0 <= examine_body payload p i g < 256)%Z /\
  (examine_body payload p i g = 255%Z <->
   g = 255%Z /\ ((Z.of_nat i <= p)%Z -> b2z (payload !!! (length payload - 1 - i)%nat) = p)).
Proof.
  intros Hp Hi Hg. unfold examine_body. rewrite msb_mask_spec by lia. cbv zeta.
  set (b := b2z _). assert (Hb : (0 <= b < 256)%Z) by apply b2z_range.
  assert (L : forall x, (0 <= x < 256)%Z -> Z.land 255 x = x).
  { intros x Hx. rewrite Z.land_comm. change 255%Z with (Z.ones 8).
    rewrite Z.land_ones by lia. apply Z.mod_small. lia. }
  destruct (Z.leb_spec 0 (p - Z.of_nat i)) as [H0|H0].
  - rewrite !L by lia. destruct (ldiff_good g (Z.lxor p b)) as [Hr E]; [done|by apply lxor_byte_range|].
    split; [done|]. rewrite E, Z.lxor_eq_0_iff.
    split; intros [-> H]; (split; [done|]); [done|symmetry; apply H; lia].
  - rewrite !Z.land_0_l. simpl Z.lxor. destruct (ldiff_good g 0) as [Hr E]; [done|lia|].
    split; [done|]. rewrite E. split; intros [-> H]; (split; [done|]); [lia|done].
Qed.

(** The reference: [n+1] bytes of value [n] at the end. *)
Definition padded (payload : bytes) (n : nat) : Prop :=
  (n < 256)%nat /\ exists data, payload = data ++ replicate (S n) (z2b (Z.of_nat n)).

Lemma padded_iff payload p :
  (0 <= p < 256)%Z -> payload <> [] -> b2z (payload !!! (length payload - 1)%nat) = p ->
  padded payload (Z.to_nat p) <->
  (p <= Z.of_nat (length payload - 1))%Z /\
  forall j, (Z.of_nat j <= p)%Z -> b2z (payload !!! (length payload - 1 - j)%nat) = p.
Proof.
  intros Hp Hne Hl. split.
  - intros [_ [data E]]. assert (L : length payload = (length data + S (Z.to_nat p))%nat)
      by (rewrite E; len). split; [lia|]. intros j Hj.
    assert (Hi : (length data <= length payload - 1 - j < length data + S (Z.to_nat p))%nat) by lia.
    revert Hi. generalize (length payload - 1 - j)%nat as i. intros i Hi.
    rewrite E, lookup_total_app_r by lia.
    rewrite lookup_total_replicate_2 by lia. rewrite b2z_z2b_small; lia.
  - intros [Hn Hall]. assert (payload <> [] -> (0 < length payload)%nat) as Hpos
      by (destruct payload; simpl; [done|lia]). specialize (Hpos Hne).
    split; [lia|]. exists (take (length payload - S (Z.to_nat p)) payload).
    rewrite <- (take_drop (length payload - S (Z.to_nat p)) payload) at 1. f_equal.
    symmetry. apply replicate_as_Forall. split; [len|].
    apply Forall_lookup. intros i x Hx. rewrite lookup_drop in Hx.
    pose proof (lookup_lt_Some _ _ _ Hx) as Hi.
    apply list_lookup_total_correct in Hx. apply b2z_inj.
    rewrite b2z_z2b_small by lia. rewrite <- Hx.
    pose proof (Hall (length payload - 1 - (length payload - S (Z.to_nat p) + i))%nat ltac:(lia)) as E.
    rewrite Z2Nat.id by lia. rewrite <- E at 1. do 2 f_equal. lia.
Qed.

Lemma padded_unique payload n :
  padded payload n -> payload <> [] /\ b2z (payload !!! (length payload - 1)%nat) = Z.of_nat n.
Proof.
  intros [Hn [data ->]]. split; [by destruct data|].
  rewrite length_app, length_replicate. rewrite lookup_total_app_r by lia.
  rewrite lookup_total_replicate_2 by lia. apply b2z_z2b_small. lia.
Qed.

(** The check on a payload that is not empty, by its last byte. *)
Lemma examinePadding_cases payload :
  (Z.of_nat (length payload) <= 2 ^ 31)%Z -> payload <> [] ->
  let n := Z.to_nat (b2z (payload !!! (length payload - 1)%nat)) in
  (padded payload n /\ examinePadding payload = (S n, 255%Z)) \/
  (~ padded payload n /\ examinePadding payload = (S n, 0%Z)).
Proof.
  intros Hlen Hne. cbv zeta.
  assert (Hpos : (0 < length payload)%nat) by (destruct payload; simpl; [done|lia]).
  set (p := b2z (payload !!! (length payload - 1)%nat)).
  assert (Hp : (0 <= p < 256)%Z) by apply b2z_range.
  set (toCheck := if (length payload <? 256)%nat then length payload else 256%nat).
  assert (Ht : toCheck = Nat.min (length payload) 256)
    by (unfold toCheck; destruct (Nat.ltb_spec (length payload) 256); lia).
  assert (Hex : examinePadding payload = (S (Z.to_nat p), replicate_good
    (for_up toCheck 0 (examine_body payload p) (msb_mask (u64 (Z.of_nat (length payload - 1) - p)))))).
  { unfold examinePadding. by destruct (Nat.ltb_spec (length payload) 1); [lia|]. }
  set (P := fun (i : nat) (g : Z) => (0 <= g < 256)%Z /\ (g = 255%Z <->
    (p <= Z.of_nat (length payload - 1))%Z /\ forall j, (j < i)%nat -> (Z.of_nat j <= p)%Z ->
      b2z (payload !!! (length payload - 1 - j)%nat) = p)).
  pose proof (for_up_invariant P toCheck 0 (examine_body payload p)
    (msb_mask (u64 (Z.of_nat (length payload - 1) - p)))) as HI.
  destruct HI as [Hr Hg].
  { rewrite msb_mask_spec by lia. split; [case_zb; lia|].
    destruct (Z.leb_spec 0 (Z.of_nat (length payload - 1) - p)); split; try lia; intros; split; lia. }
  { intros i g Hi [Hg0 Hg]. destruct (examine_body_spec payload p i g) as [Hb HB]; [lia|lia|done|].
    split; [done|]. rewrite HB, Hg. clear - Hi. split.
    - intros [[Hn Hj] Hi']. split; [done|]. intros j ? ?.
      destruct (decide (j = i)) as [->|]; [by apply Hi'|]. apply Hj; lia.
    - intros [Hn Hj]. split; [split; [done|]; intros; apply Hj; lia|]. intros. apply Hj; lia. }
  rewrite Nat.add_0_l in Hg. rewrite Hex. cbn [snd]. rewrite replicate_good_spec by done.
  pose proof (padded_iff payload p Hp Hne eq_refl) as HP.
  assert (HG : for_up toCheck 0 (examine_body payload p)
    (msb_mask (u64 (Z.of_nat (length payload - 1) - p))) = 255%Z <-> padded payload (Z.to_nat p)).
  { rewrite Hg, HP. split; intros [Hn Hj]; (split; [done|]); intros; apply Hj; lia. }
  fold p. destruct (Z.eqb_spec (for_up toCheck 0 (examine_body payload p)
    (msb_mask (u64 (Z.of_nat (length payload - 1) - p)))) 255) as [E|E]; [left|right].
  - split; [by apply HG|done].
  - split; [|done]. intros Hpad. by apply E, HG.
Qed.

Lemma padded_not_nil payload n : padded payload n -> payload <> [].
Proof. intros [_ [data ->]]. by destruct data. Qed.

Lemma examinePadding_padded payload n :
  (Z.of_nat (length payload) <= 2 ^ 31)%Z -> padded payload n -> examinePadding payload = (S n, 255%Z).
Proof.
  intros Hlen Hp. destruct (padded_unique _ _ Hp) as [Hne E].
  destruct (examinePadding_cases payload Hlen Hne) as [[_ HE]|[Hno _]].
  - rewrite HE. by rewrite E, Nat2Z.id.
  - rewrite E, Nat2Z.id in Hno. done.
Qed.

(** C35: the constant-time check [examinePadding], which works on the sign
    bits of machine words, decides exactly whether the payload ends in valid
    padding, [n+1] bytes of value [n]: it answers 255 and [n+1] then, and 0
    otherwise, for every payload of at most 2^31 bytes. *)
Theorem examine_padding_exact payload :
  (Z.of_nat (length payload) <= 2 ^ 31)%Z ->
  (snd (examinePadding payload) = 255%Z \/ snd (examinePadding payload) = 0%Z) /\
  forall n, examinePadding payload = (S n, 255%Z) <-> padded payload n.
Proof.
  intros Hlen. destruct (decide (payload = [])) as [->|Hne].
  { split; [by right|]. intros n. split; [discriminate|]. intros Hp. by apply padded_not_nil in Hp. }
  destruct (examinePadding_cases payload Hlen Hne) as [[Hp E]|[Hp E]]; rewrite E.
  - split; [by left|]. intros n. split; [by intros [= <-]|].
    intros Hn. rewrite <- E. by apply examinePadding_padded.
  - split; [by right|]. intros n. split; [discriminate|].
    intros Hn. rewrite (examinePadding_padded _ _ Hlen Hn) in E. discriminate.
Qed.

Lemma examine_padding_exact_witness :
  examinePadding (replicate 5 (z2b 9) ++ replicate 4 (z2b 3)) = (4%nat, 255%Z).
Proof.
  apply (examine_padding_exact (replicate 5 (z2b 9) ++ replicate 4 (z2b 3))).
  - simpl. lia.
  - split; [lia|]. exists (replicate 5 (z2b 9)). reflexivity.
Defined.

(** ** Additional data *)

Lemma generateAEADAdditionalData_eq h n :
  generateAEADAdditionalData h n =
    be_put 2 (Epoch h) ++ be_put 6 (SequenceNumber h)
    ++ [z2b (ContentType h); z2b (Major (HVersion h)); z2b (Minor (HVersion h))]
    ++ be_put 2 (u16 n).
Proof.
  unfold generateAEADAdditionalData. cbv zeta.
  rewrite (splice_app_0 (be_put 8 _)) by (len; lia). rewrite length_be_put, drop_replicate.
  rewrite (splice_app_0 (be_put 2 _)) by (len; lia). rewrite length_be_put.
  rewrite drop_app_le by (len; lia). rewrite (drop_be_put 2 6). simpl replicate.
  rewrite (app_assoc (be_put 2 _)).
  set (pre := be_put 2 (Epoch h) ++ be_put 6 (SequenceNumber h)).
  assert (Hp : length pre = 8%nat) by (unfold pre; len).
  rewrite (splice_at pre _ _ 8) by (len; lia). cbn [drop length].
  rewrite (splice_at (pre ++ _) _ _ 9) by (len; lia). cbn [drop length].
  rewrite (splice_at ((pre ++ _) ++ _) _ _ 10) by (len; lia). cbn [drop length].
  rewrite (splice_at (((pre ++ _) ++ _) ++ _) _ _ (13 - 2)) by (len; lia).
  rewrite length_be_put. cbn [drop]. rewrite app_nil_r. unfold pre. by rewrite <- !app_assoc.
Qed.

Lemma AddUint48_eq v : AddUint48 v = be_put 6 v.
Proof.
  unfold AddUint48, be_put. rewrite !Z.shiftr_div_pow2 by lia. cbn [app].
  rewrite !Zdiv.Zdiv_Zdiv by lia. reflexivity.
Qed.

(** The fields of a header that a record cipher authenticates. *)
Definition same_record (h k : Header) : Prop :=
  Epoch h = Epoch k /\ SequenceNumber h = SequenceNumber k /\
  ContentType h = ContentType k /\ HVersion h = HVersion k /\
  (ContentType h = ContentTypeConnectionID -> ConnectionID h = ConnectionID k).

Lemma app_inj_len {A} (a b c d : list A) : length a = length b -> a ++ c = b ++ d -> a = b /\ c = d.
Proof. intros. by apply app_inj_1. Qed.

Lemma be_put_inj n x y :
  (0 <= x < 2 ^ (8 * Z.of_nat n))%Z -> (0 <= y < 2 ^ (8 * Z.of_nat n))%Z ->
  be_put n x = be_put n y -> x = y.
Proof.
  intros Hx Hy E. rewrite <- (be_get_put_small n x), <- (be_get_put_small n y) by done. by rewrite E.
Qed.

Lemma z2b_inj x y : (0 <= x < 256)%Z -> (0 <= y < 256)%Z -> z2b x = z2b y -> x = y.
Proof. intros Hx Hy E. rewrite <- (b2z_z2b_small x), <- (b2z_z2b_small y) by done. by rewrite E. Qed.

Lemma version_inj v w :
  (v = Version1_0 \/ v = Version1_2) -> (w = Version1_0 \/ w = Version1_2) ->
  z2b (Minor v) = z2b (Minor w) -> v = w.
Proof. intros [-> | ->] [-> | ->] E; try done; apply z2b_inj in E; simpl in *; lia. Qed.

(** the additional data of a record binds its header: two well-formed
    headers whose additional data agree have the same epoch, sequence number,
    content type, version and connection identifier, and the payloads have
    the same length modulo 2^16.  In particular a record with a connection
    identifier is never authenticated as one without. *)
Theorem additional_data_binds h k n m :
  header_wf h -> header_wf k ->
  (length (ConnectionID h) < 256)%nat -> (length (ConnectionID k) < 256)%nat ->
  additionalData h n = additionalData k m -> same_record h k /\ u16 n = u16 m.
Proof.
  intros [Ht Hl Hv He Hs Hc] [Ht' Hl' Hv' He' Hs' Hc'] Hn Hn'. unfold MaxSequenceNumber in *.
  assert (Hu : forall z, (0 <= u16 z < 2 ^ (8 * Z.of_nat 2))%Z) by (intros; by apply wrap_range).
  unfold additionalData. intros E.
  destruct (Z.eqb_spec (ContentType h) ContentTypeConnectionID) as [A|A];
    destruct (Z.eqb_spec (ContentType k) ContentTypeConnectionID) as [A'|A'].
  - unfold generateAEADAdditionalDataCID in E. rewrite !AddUint48_eq in E.
    repeat (apply app_inj_len in E as [? E]; [|by rewrite !length_be_put]).
    match goal with H : be_put 1 (u8 _) = _ |- _ => apply be_put_inj in H; [|by apply wrap_range..] end.
    rewrite !wrap_small in * by lia.
    apply app_inj_len in E as [Ecid E]; [|lia].
    apply be_put_inj in E; [|done..].
    match goal with H : be_put 2 (Epoch _) = _ |- _ => apply be_put_inj in H; [|lia..] end.
    match goal with H : be_put 6 _ = _ |- _ => apply be_put_inj in H; [|lia..] end.
    split; [|done]. split_and!; try done; [by rewrite A, A'|]. apply version_inj; [done..|].
    match goal with H : be_put 1 (Minor _) = _ |- _ => by injection H end.
  - exfalso. apply (f_equal length) in E. rewrite generateAEADAdditionalData_eq in E.
    unfold generateAEADAdditionalDataCID in E. rewrite AddUint48_eq in E. len.
  - exfalso. apply (f_equal length) in E. rewrite generateAEADAdditionalData_eq in E.
    unfold generateAEADAdditionalDataCID in E. rewrite AddUint48_eq in E. len.
  - rewrite !generateAEADAdditionalData_eq in E.
    apply app_inj_len in E as [E1 E]; [|by rewrite !length_be_put].
    apply app_inj_len in E as [E2 E]; [|by rewrite !length_be_put].
    apply app_inj_len in E as [E3 E]; [|done]. injection E3 as E3 _ E4.
    apply be_put_inj in E1; [|lia..]. apply be_put_inj in E2; [|lia..].
    apply z2b_inj in E3; [|lia..]. apply be_put_inj in E; [|done..].
    split; [|done]. split_and!; try done. by apply version_inj.
Qed.

Definition sample_header (cid : bytes) : Header :=
  mkHeader (if is_nil cid then ContentTypeApplicationData else ContentTypeConnectionID) 0 Version1_2 1 7 cid.

Lemma sample_header_wf cid : header_wf (sample_header cid).
Proof.
  unfold sample_header, MaxSequenceNumber, ContentTypeApplicationData, ContentTypeConnectionID.
  split; simpl; destruct cid; simpl; try lia; try done; by right.
Qed.

Lemma additional_data_binds_witness :
  same_record (sample_header [z2b 9]) (sample_header [z2b 9]) /\ u16 5 = u16 (65536 + 5).
Proof.
  apply additional_data_binds; [apply sample_header_wf..| | |reflexivity]; simpl; lia.
Defined.

(** ** Records through the AEAD ciphers *)

Lemma take_header_bytes h p : take (Header_Size h) (header_bytes h ++ p) = header_bytes h.
Proof. rewrite <- length_header_bytes. apply take_app_length. Qed.

Lemma drop_header_bytes h p k : drop (Header_Size h + k) (header_bytes h ++ p) = drop k p.
Proof. rewrite <- length_header_bytes, <- drop_drop. by rewrite drop_app_length. Qed.

Lemma header_split h p :
  from (Header_Size h) (header_bytes h ++ p) = Ok p /\
  sub 0 (Header_Size h) (header_bytes h ++ p) = Ok (header_bytes h).
Proof.
  split.
  - rewrite from_ok by (rewrite length_app, length_header_bytes; lia).
    f_equal. rewrite <- length_header_bytes. apply drop_app_length.
  - rewrite sub_ok by (rewrite length_app, length_header_bytes; lia).
    f_equal. unfold slice. rewrite drop_0, Nat.sub_0_r. apply take_header_bytes.
Qed.

Lemma fix_length_eq h body :
  fix_length (Header_Size h) (header_bytes h ++ body) =
  header_bytes (with_len h (u16 (Z.of_nat (length body)))) ++ body.
Proof.
  unfold fix_length. rewrite length_app, length_header_bytes.
  replace (_ - _)%Z with (Z.of_nat (length body)) by lia.
  set (v := u16 _). unfold header_bytes, with_len.
  cbn [ContentType HVersion Epoch SequenceNumber ConnectionID ContentLen].
  set (pre := [z2b (ContentType h); z2b (Major (HVersion h)); z2b (Minor (HVersion h))]
    ++ be_put 2 (Epoch h) ++ be_put 6 (SequenceNumber h) ++ ConnectionID h).
  assert (Hp : length pre = (Header_Size h - 2)%nat)
    by (unfold pre, Header_Size, FixedHeaderSize; len).
  assert (G : forall k, ([z2b (ContentType h); z2b (Major (HVersion h)); z2b (Minor (HVersion h))]
    ++ be_put 2 (Epoch h) ++ be_put 6 (SequenceNumber h) ++ ConnectionID h ++ be_put 2 k) ++ body
    = pre ++ be_put 2 k ++ body) by (intros; unfold pre; by rewrite <- !app_assoc).
  rewrite !G. rewrite splice_at by (len; lia). rewrite length_be_put.
  rewrite drop_app_length' by len. by rewrite <- app_assoc.
Qed.

Lemma header_wf_with_len h n : header_wf h -> (0 <= n < 65536)%Z -> header_wf (with_len h n).
Proof. intros [] ?. by split. Qed.

(** [protects n enc dec]: a record that [enc] seals with [n] random bytes is
    recovered by [dec] with its header, whatever content it carries; the
    sealed record has the length in its header. *)
Definition max_payload : Z := 65000.

Definition protects (n : nat) (enc : Header -> bytes -> bytes -> res derr bytes)
    (dec : Header -> bytes -> res derr bytes) : Prop :=
  forall h p rnd,
    header_wf h -> (length (ConnectionID h) < 256)%nat ->
    ContentType h <> ContentTypeChangeCipherSpec ->
    (ContentType h = ContentTypeConnectionID -> is_ok (InnerPlaintext_Unmarshal p) = true) ->
    (Z.of_nat (length p) <= max_payload)%Z -> length rnd = n ->
    exists c,
      enc h (header_bytes h ++ p) rnd
        = Ok (header_bytes (with_len h (Z.of_nat (length c))) ++ c) /\
      (0 < length c)%nat /\ (Z.of_nat (length c) < 65536)%Z /\
      forall h0, length (ConnectionID h0) = length (ConnectionID h) ->
        dec h0 (header_bytes (with_len h (Z.of_nat (length c))) ++ c)
        = Ok (header_bytes (with_len h (Z.of_nat (length c))) ++ p).

(** What the connection relies on; [rc_peer a b] says that [b] holds the keys
    for what [a] sends, and [rc_rnd] is how many random bytes a record takes.
    A protected record keeps its header, but for the length. *)
Class RecordCipher (C : Type) := {
  rc_rnd : nat;
  rc_Encrypt : C -> Header -> bytes -> bytes -> res derr bytes;
  rc_Decrypt : C -> Header -> bytes -> res derr bytes;
  rc_peer : C -> C -> Prop;
  rc_roundtrip : forall a b, rc_peer a b -> protects rc_rnd (rc_Encrypt a) (rc_Decrypt b);
  rc_header : forall a h p rnd r, rc_Encrypt a h (header_bytes h ++ p) rnd = Ok r ->
    exists c, r = header_bytes (with_len h (u16 (Z.of_nat (length c)))) ++ c
}.

Definition aead_peer {K} `{AEAD12 K} (a b : AeadCipher K) : Prop :=
  localAEAD a = remoteAEAD b /\ localWriteIV a = remoteWriteIV b /\
  (4 <= length (localWriteIV a))%nat /\
  tagLength b = aead_Overhead (localAEAD a) /\ (0 < aead_Overhead (localAEAD a) <= 16)%nat.

#[export, refine] Instance aead_record_cipher {K} `{AEAD12 K} : RecordCipher (AeadCipher K) := {|
  rc_rnd := 8;
  rc_Encrypt := Aead_Encrypt;
  rc_Decrypt := Aead_Decrypt;
  rc_peer := aead_peer
|}.
Proof.
  2:{ intros a h p rnd r. unfold Aead_Encrypt. destruct (header_split h p) as [-> ->]. cbn [res_bind].
      destruct (sub 0 4 (localWriteIV a)) as [iv|]; [|discriminate]. cbn [res_bind].
      set (nonce := splice 4 rnd _).
      destruct (aead_Seal _ _ _ _) as [e|]; [|discriminate]. cbn [res_bind].
      intros E. apply Ok_inj in E as <-. rewrite fix_length_eq. by eexists. }
  intros a b (Ha & Hiv & Hl & Ht & Ho) h p rnd Hw Hcid Hct _ Hp Hr. unfold max_payload in Hp.
  destruct (header_split h p) as [E1 E2].
  unfold Aead_Encrypt. rewrite E1, E2. cbn [res_bind].
  rewrite (sub_ok _ 0 4) by lia. cbn [res_bind].
  set (iv := slice 0 4 (localWriteIV a)). assert (Hi : length iv = 4%nat) by (apply length_slice; lia).
  assert (Hn : splice 4 rnd (splice 0 iv (replicate gcmNonceLength zero_byte)) = iv ++ rnd).
  { rewrite (splice_app_0 iv) by (rewrite Hi; simpl; lia).
    rewrite Hi, splice_at by (simpl length; lia).
    rewrite Hr, drop_ge by (simpl; lia). by rewrite app_nil_r. }
  rewrite Hn. assert (Hnl : length (iv ++ rnd) = 12%nat) by (rewrite length_app; lia).
  destruct (aead_Seal_ok (localAEAD a) (iv ++ rnd) p (additionalData h (Z.of_nat (length p))) Hnl
    ltac:(lia)) as (s & Hs & Hsl & Ho'). rewrite Hs. cbn [res_bind].
  rewrite drop_app_length' by done. exists (rnd ++ s).
  assert (Hc : length (rnd ++ s) = (8 + length p + aead_Overhead (localAEAD a))%nat)
    by (rewrite length_app; lia).
  rewrite fix_length_eq, Hc, wrap_small by lia.
  split_and!; [done|lia|lia|]. intros h0 H0.
  set (h' := with_len h _). assert (Hw' : header_wf h') by (apply header_wf_with_len; [done|lia]).
  unfold Aead_Decrypt. rewrite Header_roundtrip by done. cbn [res_bind].
  change (ContentType (with_len h' (ContentLen h0))) with (ContentType h).
  change (Header_Size (with_len h' (ContentLen h0))) with (Header_Size h').
  destruct (Z.eqb_spec (ContentType h) ContentTypeChangeCipherSpec); [done|].
  assert (Hin : length (header_bytes h' ++ rnd ++ s) = (Header_Size h' + length (rnd ++ s))%nat)
    by (by rewrite length_app, length_header_bytes).
  destruct (Nat.leb_spec (length (header_bytes h' ++ rnd ++ s)) (8 + Header_Size h')); [lia|].
  rewrite <- Hiv, (sub_ok _ 0 4), (sub_ok _ (Header_Size h')), from_ok by lia. cbn [res_bind].
  fold iv. unfold slice. rewrite !drop_header_bytes.
  replace (drop (Header_Size h') (header_bytes h' ++ rnd ++ s)) with (rnd ++ s)
    by (by rewrite <- (length_header_bytes h'), drop_app_length).
  replace (Header_Size h' + 8 - Header_Size h')%nat with 8%nat by lia.
  rewrite <- Hr, take_app_length, drop_app_length, take_header_bytes.
  replace (additionalData (with_len h' (ContentLen h0)) (Z.of_nat (length s) - Z.of_nat (tagLength b)))
    with (additionalData h (Z.of_nat (length p))).
  - by rewrite <- Ha, Ho'.
  - rewrite Ht. replace (Z.of_nat (length s) - _)%Z with (Z.of_nat (length p)) by lia. reflexivity.
Defined.

(** ** CCM opens what it sealed *)

Section ccm_roundtrip.
Context {B : Type} `{BlockCipher B}.
Implicit Types (c : ccm B) (mac data nonce plaintext adata : bytes).

Record ccm_wf c : Prop := {
  cw_M : (4 <= ccm_M c <= 16)%Z;
  cw_L : (2 <= ccm_L c <= 8)%Z
}.

Lemma NewCCM_wf b bs tagsize noncesize c :
  NewCCM b bs tagsize noncesize = Ok c ->
  ccm_wf c /\ ccm_b c = b /\ ccm_M c = tagsize /\ NonceSize c = noncesize.
Proof.
  unfold NewCCM. case_zb; simpl; try discriminate; intros [= <-].
  unfold NonceSize. simpl. rewrite !wrap_small by lia.
  split_and!; [|done..|lia]. split; simpl; lia.
Qed.

Lemma length_keystream b iv n : length (keystream b iv n) = n.
Proof.
  unfold keystream. rewrite length_take.
  assert (Hc : forall l, length (concat (map (fun i => block_Encrypt b (be_put 16 (be_get iv + Z.of_nat i))) l))
    = (16 * length l)%nat).
  { induction l as [|x l IH]; [done|]. cbn [map concat]. rewrite length_app, length_block_Encrypt, IH. simpl. lia. }
  rewrite Hc, length_seq. unfold ccmBlockSize.
  pose proof (Nat.div_mod n 16 ltac:(lia)). pose proof (Nat.mod_upper_bound n 16 ltac:(lia)). lia.
Qed.

Lemma length_ctr_xor c nonce data : length (ctr_xor c nonce data) = length data.
Proof. unfold ctr_xor. rewrite length_xor_bytes, length_keystream. lia. Qed.

Lemma ctr_xor_involutive c nonce data : ctr_xor c nonce (ctr_xor c nonce data) = data.
Proof.
  unfold ctr_xor at 1. rewrite length_ctr_xor. apply xor_bytes_involutive.
  by rewrite length_keystream.
Qed.

Lemma length_mask_tag c nonce t : (length t <= 16)%nat -> length (mask_tag c nonce t) = length t.
Proof. intros. unfold mask_tag. rewrite length_xor_bytes, length_block_Encrypt. lia. Qed.

Lemma mask_tag_involutive c nonce t : (length t <= 16)%nat -> mask_tag c nonce (mask_tag c nonce t) = t.
Proof. intros. unfold mask_tag. apply xor_bytes_involutive. by rewrite length_block_Encrypt. Qed.

Lemma length_cbcData c mac data : length mac = 16%nat -> length (cbcData c mac data) = 16%nat.
Proof.
  intros Hm. unfold cbcData. generalize (S (length data)) as n. intros n. revert mac data Hm.
  induction n as [|n IH]; intros mac data Hm; cbn [cbcData_loop]; [done|].
  destruct (Nat.leb_spec ccmBlockSize (length data)); [apply IH, length_block_Encrypt|].
  destruct (Nat.ltb_spec 0 (length data)); [apply length_block_Encrypt|done].
Qed.

(** The tag exists exactly for a nonce of the right size and a plaintext that
    is not too long. *)
Lemma tag_ok c nonce plaintext adata :
  ccm_wf c -> Z.of_nat (length nonce) = NonceSize c ->
  (Z.of_nat (length plaintext) <= MaxLength c)%Z ->
  exists t, tag c nonce plaintext adata = Ok t /\ length t = Z.to_nat (ccm_M c).
Proof.
  intros [HM HL] Hn Hp. unfold tag. rewrite Hn, Z.eqb_refl. cbn [negb].
  destruct (Z.ltb_spec (MaxLength c) (Z.of_nat (length plaintext))); [lia|].
  cbv zeta. set (m0 := block_Encrypt _ _).
  set (m1 := if (0 <? length adata)%nat then _ else m0).
  assert (H1 : length m1 = 16%nat).
  { unfold m1. destruct (0 <? length adata)%nat; [|apply length_block_Encrypt].
    destruct (adata_block adata). apply length_cbcData, length_block_Encrypt. }
  set (m2 := if (0 <? length plaintext)%nat then _ else m1).
  assert (H2 : length m2 = 16%nat)
    by (unfold m2; destruct (0 <? length plaintext)%nat; [by apply length_cbcData|done]).
  clearbody m2. exists (slice 0 (Z.to_nat (ccm_M c)) m2).
  split; [apply sub_ok; lia|]. rewrite length_slice; lia.
Qed.

Lemma tag_fails c nonce plaintext adata :
  Z.of_nat (length nonce) <> NonceSize c \/ (MaxLength c < Z.of_nat (length plaintext))%Z ->
  exists e, tag c nonce plaintext adata = Err e.
Proof.
  intros Hbad. unfold tag. cbv zeta. destruct (Z.eqb_spec (Z.of_nat (length nonce)) (NonceSize c)); [|by eexists].
  destruct Hbad; [done|]. rewrite (proj2 (Z.ltb_lt _ _)) by done. by eexists.
Qed.

Lemma ccm_Seal_Open c dst nonce plaintext adata :
  ccm_wf c -> Z.of_nat (length nonce) = NonceSize c ->
  (Z.of_nat (length plaintext) <= MaxLength c)%Z ->
  exists s, ccm_Seal c dst nonce plaintext adata = Ok (dst ++ s) /\
    length s = (length plaintext + Z.to_nat (ccm_M c))%nat /\
    ccm_Open c dst nonce s adata = Ok (dst ++ plaintext).
Proof.
  intros Hw Hn Hp. destruct (tag_ok c nonce plaintext adata Hw Hn Hp) as (t & Ht & Hl).
  pose proof (cw_M _ Hw) as HM. unfold ccm_Seal. rewrite Ht.
  exists (ctr_xor c nonce plaintext ++ mask_tag c nonce t).
  assert (Hs : length (ctr_xor c nonce plaintext ++ mask_tag c nonce t)
    = (length plaintext + Z.to_nat (ccm_M c))%nat).
  { rewrite length_app, length_ctr_xor, length_mask_tag; lia. }
  split_and!; [done|done|]. unfold ccm_Open. rewrite Hs.
  destruct (Nat.ltb_spec (length plaintext + Z.to_nat (ccm_M c)) (Z.to_nat (ccm_M c))); [lia|].
  unfold Overhead. case_zb; [lia|].
  replace (length plaintext + Z.to_nat (ccm_M c) - Z.to_nat (ccm_M c))%nat
    with (length (ctr_xor c nonce plaintext)) by (rewrite length_ctr_xor; lia).
  rewrite drop_app_length, take_app_length, mask_tag_involutive by lia.
  rewrite ctr_xor_involutive, Ht. cbn [res_bind]. by rewrite bool_decide_true.
Qed.
End ccm_roundtrip.

(** CCM as the repository implements it opens what it sealed, for every
    block cipher, every tag and nonce size that [NewCCM] accepts, every
    destination prefix and every plaintext within [MaxLength]; the ciphertext
    is longer by the tag.  A nonce of another size or a longer plaintext makes
    [Seal] panic. *)
Theorem ccm_roundtrip {B} `{BlockCipher B} (b : B) tagsize noncesize c dst nonce plaintext adata :
  NewCCM b 16 tagsize noncesize = Ok c ->
  if decide (Z.of_nat (length nonce) = noncesize /\ (Z.of_nat (length plaintext) <= MaxLength c)%Z)
  then exists s, ccm_Seal c dst nonce plaintext adata = Ok (dst ++ s) /\
         Z.of_nat (length s) = (Z.of_nat (length plaintext) + tagsize)%Z /\
         ccm_Open c dst nonce s adata = Ok (dst ++ plaintext)
  else ccm_Seal c dst nonce plaintext adata = Err Panic.
Proof.
  intros Hc. destruct (NewCCM_wf _ _ _ _ _ Hc) as (Hw & _ & HM & HN). case_decide as Hd.
  - destruct Hd as [Hn Hp]. destruct (ccm_Seal_Open c dst nonce plaintext adata Hw) as (s & H1 & H2 & H3);
      [lia|done|]. exists s. pose proof (cw_M _ Hw). split_and!; [done|lia|done].
  - unfold ccm_Seal. destruct (tag_fails c nonce plaintext adata) as [e ->]; [|done].
    destruct (decide (Z.of_nat (length nonce) = NonceSize c)); [right|by left]. lia.
Qed.

(** A block function to run the definitions: add the key to every byte. *)
Definition toy_pad (l : bytes) : bytes := take 16 (l ++ replicate 16 zero_byte).

#[export, refine] Instance toy_block : BlockCipher Z := {|
  block_Encrypt k l := map (fun b => z2b (b2z b + k)) (toy_pad l);
  block_Decrypt k l := map (fun b => z2b (b2z b - k)) (toy_pad l)
|}.
Proof.
  - intros. rewrite length_map. unfold toy_pad. len.
  - intros. rewrite length_map. unfold toy_pad. len.
  - intros k b Hb. assert (P : forall l, length l = 16%nat -> toy_pad l = l).
    { intros l Hl. unfold toy_pad. rewrite <- Hl. apply take_app_length. }
    rewrite P, (P b) by (rewrite ?length_map; unfold toy_pad; len).
    rewrite map_map. etransitivity; [|apply map_id]. apply map_ext. intros x. apply b2z_inj.
    rewrite !b2z_z2b, Zminus_mod_idemp_l. replace (b2z x + k - k)%Z with (b2z x) by lia.
    apply Z.mod_small, b2z_range.
Defined.

Lemma ccm_roundtrip_witness :
  NewCCM 3%Z 16 8 12 = Ok (mkCcm 3%Z 8 3) /\
  exists s, ccm_Seal (mkCcm 3%Z 8 3) [] (replicate 12 (z2b 1)) [z2b 5; z2b 6] [z2b 2] = Ok ([] ++ s) /\
    Z.of_nat (length s) = (Z.of_nat (length [z2b 5; z2b 6]) + 8)%Z /\
    ccm_Open (mkCcm 3%Z 8 3) [] (replicate 12 (z2b 1)) s [z2b 2] = Ok ([] ++ [z2b 5; z2b 6]).
Proof.
  split; [reflexivity|].
  apply (ccm_roundtrip 3%Z 8 12 (mkCcm 3%Z 8 3) [] (replicate 12 (z2b 1)) [z2b 5; z2b 6] [z2b 2] eq_refl).
Defined.

(** With nonces of 12 bytes a plaintext may have up to 2^24-1 bytes, so CCM
    keeps the promise the record ciphers rely on. *)
Lemma MaxLength_12 {B} (c : ccm B) : ccm_L c = 3%Z -> (4 <= ccm_M c <= 16)%Z -> MaxLength c = (2 ^ 24 - 1)%Z.
Proof.
  intros HL HM. unfold MaxLength, maxlen, Overhead, maxInt. rewrite HL.
  change (u64 (u64 (Z.shiftl 1 (u8 (8 * 3))) - 1)) with (2 ^ 24 - 1)%Z.
  rewrite wrap_small by lia. cbv zeta. case_zb; simpl orb; cbv iota; lia.
Qed.

(** The CCM ciphers of the suites, [ccm.NewCCM(block, tagLen, 12)]. *)
Record ccm12 (B : Type) := mkCcm12 { c12 : ccm B; c12_M : (4 <= ccm_M c12 <= 16)%Z; c12_L : ccm_L c12 = 3%Z }.
Arguments c12 {B}. Arguments c12_M {B}. Arguments c12_L {B}.

#[export, refine] Instance ccm_AEAD12 {B} `{BlockCipher B} : AEAD12 (ccm12 B) := {|
  aead_Overhead c := Z.to_nat (Overhead (c12 c));
  aead_Seal c nonce p a := ccm_Seal (c12 c) [] nonce p a;
  aead_Open c nonce s a := ccm_Open (c12 c) [] nonce s a
|}.
Proof.
  intros c n p a Hn Hp. pose proof (c12_M c). pose proof (c12_L c).
  apply (ccm_Seal_Open (c12 c) [] n p a); [split; lia| |].
  - unfold NonceSize. lia.
  - rewrite MaxLength_12 by done. lia.
Defined.

(** ** Records through CBC *)

Section cbc_roundtrip.
Context {B H : Type} `{BlockCipher B} `{Hash H}.

Lemma length_cbc_chain_encrypt n (k : B) iv data : length (cbc_chain_encrypt n k iv data) = (16 * n)%nat.
Proof.
  revert iv data. induction n as [|n IH]; intros iv data; cbn [cbc_chain_encrypt]; [done|].
  rewrite length_app, length_block_Encrypt, IH. lia.
Qed.

Lemma cbc_chain_roundtrip n (k : B) iv data :
  length iv = 16%nat -> length data = (16 * n)%nat ->
  cbc_chain_decrypt n k iv (cbc_chain_encrypt n k iv data) = data.
Proof.
  revert iv data. induction n as [|n IH]; intros iv data Hiv Hd; cbn [cbc_chain_encrypt cbc_chain_decrypt].
  - by apply nil_length_inv in Hd as ->.
  - set (e := block_Encrypt k _). assert (He : length e = 16%nat) by apply length_block_Encrypt.
    rewrite <- He, take_app_length, drop_app_length, He.
    rewrite IH by (rewrite ?length_drop; lia). unfold e.
    rewrite block_Decrypt_Encrypt by (rewrite length_xor_bytes, length_take; lia).
    rewrite (xor_bytes_comm iv (xor_bytes _ _)), (xor_bytes_comm iv (take 16 data)).
    rewrite xor_bytes_involutive by (rewrite length_take; lia). apply take_drop.
Qed.

Lemma cbc_padding_spec n :
  (length (cbc_padding n) = 16 - n mod 16)%nat /\ ((n + length (cbc_padding n)) mod 16 = 0)%nat /\
  forall data, padded (data ++ cbc_padding n) (15 - n mod 16).
Proof.
  unfold cbc_padding. pose proof (Nat.mod_upper_bound n 16 ltac:(lia)) as Hm. split_and!.
  - apply length_replicate.
  - rewrite length_replicate. pose proof (Nat.div_mod n 16 ltac:(lia)).
    replace (n + (16 - n mod 16))%nat with (0 + (n / 16 + 1) * 16)%nat by lia.
    by rewrite Nat.Div0.mod_add.
  - intros data. split; [lia|]. exists data.
    replace (S (15 - n mod 16)) with (16 - n mod 16)%nat by lia. do 3 f_equal. lia.
Qed.

Lemma length_record_mac h p key (hf : H) m : record_mac h p key hf = Ok m -> length m = hash_Size hf.
Proof.
  unfold record_mac, hmacCID, hmac. case_zb; [|intros [= <-]; apply length_hash_HMAC].
  destruct (InnerPlaintext_Unmarshal p); cbn [res_bind]; [|discriminate].
  intros [= <-]. apply length_hash_HMAC.
Qed.

Definition cbc_peer (a b : CBC B H) : Prop :=
  writeCBC a = readCBC b /\ writeMac a = readMac b /\ cbc_h a = cbc_h b /\
  (hash_Size (cbc_h a) <= 64)%nat.

(** The check accepts a payload followed by its MAC and padding. *)
Lemma cbc_check_ok (c : CBC B H) h head p m pad n :
  record_mac h p (readMac c) (cbc_h c) = Ok m -> padded ((p ++ m) ++ pad) n -> length pad = S n ->
  (Z.of_nat (length ((p ++ m) ++ pad)) <= 2 ^ 31)%Z ->
  cbc_check c h head ((p ++ m) ++ pad) = Ok (head ++ p).
Proof.
  intros Hm Hpad Hn Hlen. pose proof (length_record_mac _ _ _ _ _ Hm) as Hml.
  unfold cbc_check. rewrite (examinePadding_padded _ _ Hlen Hpad).
  assert (L : length ((p ++ m) ++ pad) = (length p + hash_Size (cbc_h c) + S n)%nat) by (rewrite !length_app; lia).
  rewrite L. destruct (Nat.ltb_spec (length p + hash_Size (cbc_h c) + S n) (hash_Size (cbc_h c))); [lia|].
  change (negb (255 =? 255)%Z) with false. cbv iota zeta.
  replace (Z.of_nat _ - _ - _)%Z with (Z.of_nat (length p)) by lia.
  case_zb; [lia|]. rewrite Nat2Z.id, sub_ok by (rewrite L; lia). cbn [res_bind].
  rewrite <- app_assoc. unfold slice. rewrite take_app_length, Hm, drop_app_length.
  replace (length p + hash_Size (cbc_h c) - length p)%nat with (length m) by lia.
  rewrite take_app_length. by rewrite bool_decide_true.
Qed.

#[export, refine] Instance cbc_record_cipher : RecordCipher (CBC B H) := {|
  rc_rnd := 16;
  rc_Encrypt := CBC_Encrypt;
  rc_Decrypt := CBC_Decrypt;
  rc_peer := cbc_peer
|}.
Proof.
  2:{ intros a h p rnd r. unfold CBC_Encrypt. destruct (header_split h p) as [-> ->]. cbn [res_bind].
      destruct (record_mac _ _ _ _) as [m|]; [|discriminate]. cbn [res_bind].
      destruct (CryptBlocks _ _) as [e|]; [|discriminate]. cbn [res_bind].
      intros E. apply Ok_inj in E as <-. rewrite fix_length_eq. by eexists. }
  intros a b (Hk & Hmk & Hh & Hs) h p rnd Hw Hcid Hct Hin Hp Hr. unfold max_payload in Hp.
  destruct (header_split h p) as [E1 E2].
  assert (exists m, record_mac h p (writeMac a) (cbc_h a) = Ok m) as [m Hm].
  { unfold record_mac, hmacCID. destruct (Z.eqb_spec (ContentType h) ContentTypeConnectionID); [|by eexists].
    specialize (Hin ltac:(done)). destruct (InnerPlaintext_Unmarshal p); [by eexists|discriminate]. }
  pose proof (length_record_mac _ _ _ _ _ Hm) as Hml.
  unfold CBC_Encrypt. rewrite E1, E2. cbn [res_bind]. rewrite Hm. cbn [res_bind].
  destruct (cbc_padding_spec (length (p ++ m))) as (Hpl & Hp16 & Hpad).
  specialize (Hpad (p ++ m)). set (pad := cbc_padding (length (p ++ m))) in *.
  pose proof (Nat.mod_upper_bound (length (p ++ m)) 16 ltac:(lia)) as Hmod.
  assert (Hlp : length (p ++ m) = (length p + hash_Size (cbc_h a))%nat) by (rewrite length_app; lia).
  set (data := (p ++ m) ++ pad) in *.
  assert (Hdl : length data = (length (p ++ m) + length pad)%nat) by apply length_app.
  unfold CryptBlocks at 1. rewrite Hdl, Hp16, <- Hdl. cbn [Nat.eqb res_bind].
  rewrite splice_app_0 by (rewrite length_replicate; lia).
  rewrite (drop_ge (replicate 16 zero_byte)), app_nil_r by (rewrite length_replicate; lia).
  set (n := (length data / 16)%nat).
  assert (Hn : length data = (16 * n)%nat).
  { unfold n. pose proof (Nat.div_mod (length data) 16 ltac:(lia)). rewrite Hdl in *. lia. }
  set (enc := cbc_chain_encrypt n (writeCBC a) rnd data).
  assert (He : length enc = length data) by (rewrite Hn; apply length_cbc_chain_encrypt).
  exists (rnd ++ enc).
  assert (Hc : length (rnd ++ enc) = (16 + length data)%nat) by (rewrite length_app, He; lia).
  rewrite fix_length_eq, wrap_small by lia. split_and!; [done|lia|lia|]. intros h0 H0'.
  set (h' := with_len h _). assert (Hw' : header_wf h') by (apply header_wf_with_len; [done|lia]).
  unfold CBC_Decrypt. rewrite Header_roundtrip by done. cbn [res_bind].
  change (ContentType (with_len h' (ContentLen h0))) with (ContentType h).
  change (Header_Size (with_len h' (ContentLen h0))) with (Header_Size h').
  rewrite (proj1 (header_split h' (rnd ++ enc))). cbn [res_bind].
  destruct (Z.eqb_spec (ContentType h) ContentTypeChangeCipherSpec); [done|].
  assert (Hm16 : (length (rnd ++ enc) mod 16 = 0)%nat).
  { rewrite Hc, Hn. replace (16 + 16 * n)%nat with (0 + (n + 1) * 16)%nat by lia. by rewrite Nat.Div0.mod_add. }
  rewrite Hm16. cbn [negb orb Nat.eqb]. rewrite <- Hh.
  destruct (Nat.ltb_spec (length (rnd ++ enc)) (16 + Nat.max (hash_Size (cbc_h a) + 1) 16)); [lia|].
  rewrite take_app_length', drop_app_length' by done. unfold CryptBlocks. rewrite He, Hdl, Hp16, <- Hdl.
  cbn [Nat.eqb res_bind]. fold n. rewrite <- Hk. unfold enc. rewrite cbc_chain_roundtrip by done.
  rewrite take_header_bytes. unfold data.
  apply (cbc_check_ok _ _ _ _ _ _ (15 - length (p ++ m) mod 16)); [|done|lia|fold data; lia].
  rewrite <- Hmk, <- Hh, <- Hm. reflexivity.
Defined.

(** The last block of a chain depends on the block before it only. *)
Lemma cbc_chain_last n (k : B) iv data last :
  length data = (16 * S n)%nat -> length last = 16%nat ->
  exists pre x, length x = 16%nat /\
    cbc_chain_encrypt (S (S n)) k iv (data ++ last) = pre ++ x ++ block_Encrypt k (xor_bytes x last).
Proof.
  revert iv data. induction n as [|n IH]; intros iv data Hd Hl.
  - exists [], (block_Encrypt k (xor_bytes iv data)). split; [apply length_block_Encrypt|].
    cbn [cbc_chain_encrypt app]. rewrite take_app_length', drop_app_length' by lia.
    rewrite (take_ge last) by lia. by rewrite app_nil_r.
  - destruct (IH (block_Encrypt k (xor_bytes iv (take 16 data))) (drop 16 data)) as (pre & x & Hx & E);
      [rewrite length_drop; lia|done|].
    exists (block_Encrypt k (xor_bytes iv (take 16 data)) ++ pre), x. split; [done|].
    rewrite <- app_assoc, <- E. change (cbc_chain_encrypt (S (S (S n))) k iv (data ++ last)) with
      (block_Encrypt k (xor_bytes iv (take 16 (data ++ last))) ++ cbc_chain_encrypt (S (S n)) k
        (block_Encrypt k (xor_bytes iv (take 16 (data ++ last)))) (drop 16 (data ++ last))).
    by rewrite take_app_le, drop_app_le by lia.
Qed.

(** Two blocks of which the second decrypts to padding make a body that is
    shorter than MAC and padding together. *)
Lemma cbc_short_body_panics (b : CBC B H) h h0 iv x y :
  header_wf h -> length (ConnectionID h0) = length (ConnectionID h) ->
  ContentType h <> ContentTypeChangeCipherSpec ->
  length iv = 16%nat -> length x = 16%nat -> length y = 16%nat ->
  (16 < hash_Size (cbc_h b) < 32)%nat ->
  xor_bytes x (block_Decrypt (readCBC b) y) = replicate 16 (z2b 15) ->
  CBC_Decrypt b h0 (header_bytes h ++ iv ++ x ++ y) = Err Panic.
Proof.
  intros Hw Hc Hct Hi Hx Hy Hs Hd. unfold CBC_Decrypt. rewrite Header_roundtrip by done. cbn [res_bind].
  change (ContentType (with_len h (ContentLen h0))) with (ContentType h).
  change (Header_Size (with_len h (ContentLen h0))) with (Header_Size h).
  rewrite (proj1 (header_split h (iv ++ x ++ y))). cbn [res_bind].
  destruct (Z.eqb_spec (ContentType h) ContentTypeChangeCipherSpec); [done|].
  assert (L : length (iv ++ x ++ y) = 48%nat) by (rewrite !length_app; lia). rewrite L.
  change (48 mod 16)%nat with 0%nat. cbn [negb orb Nat.eqb].
  destruct (Nat.ltb_spec 48 (16 + Nat.max (hash_Size (cbc_h b) + 1) 16)); [lia|].
  rewrite take_app_length', drop_app_length' by done. unfold CryptBlocks.
  assert (L2 : length (x ++ y) = 32%nat) by (rewrite length_app; lia). rewrite L2.
  change (32 mod 16)%nat with 0%nat. change (32 / 16)%nat with 2%nat. cbn [Nat.eqb res_bind cbc_chain_decrypt].
  rewrite (take_app_length' x y 16), (drop_app_length' x y 16) by done. rewrite (take_ge y) by lia.
  rewrite Hd, app_nil_r. set (b1 := xor_bytes iv _).
  assert (Hb1 : length b1 = 16%nat) by (unfold b1; rewrite length_xor_bytes, length_block_Decrypt; lia).
  assert (Hp : padded (b1 ++ replicate 16 (z2b 15)) 15) by (split; [lia|]; by exists b1).
  assert (L3 : length (b1 ++ replicate 16 (z2b 15)) = 32%nat) by (rewrite length_app, length_replicate; lia).
  unfold cbc_check. rewrite (examinePadding_padded _ 15) by (rewrite ?L3; done). rewrite L3.
  change (negb (255 =? 255)%Z) with false. cbv iota zeta.
  destruct (Nat.ltb_spec 32 (hash_Size (cbc_h b))); [lia|]. case_zb; [done|lia].
Qed.
End cbc_roundtrip.

(** C40: with a MAC of 17 to 31 bytes (SHA-1 has 20), whoever has seen one
    record whose plaintext and MAC fill whole blocks can make the receiver
    panic, without a key: the last two cipher blocks of that record behind
    any header and any IV decrypt to valid padding that is longer than what
    is left beside the MAC, and [Decrypt] slices with a negative bound before
    it checks the MAC. *)
Theorem cbc_forged_record_panics {B H} `{BlockCipher B} `{Hash H} (a b : CBC B H) h p rnd r forged h0 iv :
  cbc_peer a b -> (16 < hash_Size (cbc_h b) < 32)%nat ->
  ((length p + hash_Size (cbc_h b)) mod 16 = 0)%nat -> length rnd = 16%nat ->
  CBC_Encrypt a h (header_bytes h ++ p) rnd = Ok r ->
  header_wf forged -> length (ConnectionID h0) = length (ConnectionID forged) ->
  ContentType forged <> ContentTypeChangeCipherSpec -> length iv = 16%nat ->
  CBC_Decrypt b h0 (header_bytes forged ++ iv ++ drop (length r - 32) r) = Err Panic.
Proof.
  intros (Hk & _ & Hh & _) Hs Hmod Hr He Hw Hc Hct Hi. rewrite <- Hh in *.
  destruct (header_split h p) as [E1 E2]. unfold CBC_Encrypt in He. rewrite E1, E2 in He. cbn [res_bind] in He.
  destruct (record_mac h p (writeMac a) (cbc_h a)) as [m|] eqn:Hm; [|discriminate]. cbn [res_bind] in He.
  pose proof (length_record_mac _ _ _ _ _ Hm) as Hml.
  assert (Hl : length (p ++ m) = (length p + hash_Size (cbc_h a))%nat) by (rewrite length_app; lia).
  assert (Hpad : cbc_padding (length (p ++ m)) = replicate 16 (z2b 15))
    by (unfold cbc_padding; rewrite Hl, Hmod; reflexivity).
  rewrite Hpad in He. pose proof (Nat.div_mod (length (p ++ m)) 16 ltac:(lia)) as Hdm.
  rewrite Hl, Hmod in Hdm. generalize dependent ((length p + hash_Size (cbc_h a)) / 16)%nat.
  intros [|[|n]] Hdm; [lia|lia|].
  unfold CryptBlocks in He. rewrite length_app, length_replicate, Hl in He.
  replace ((length p + hash_Size (cbc_h a) + 16) mod 16)%nat with 0%nat in He.
  2:{ symmetry. replace (length p + hash_Size (cbc_h a) + 16)%nat with (0 + (S (S (S n))) * 16)%nat by lia.
      by rewrite Nat.Div0.mod_add. }
  replace ((length p + hash_Size (cbc_h a) + 16) / 16)%nat with (S (S (S n))) in He.
  2:{ replace (length p + hash_Size (cbc_h a) + 16)%nat with ((S (S (S n))) * 16)%nat by lia.
      by rewrite Nat.div_mul. }
  cbn [Nat.eqb res_bind] in He. apply Ok_inj in He as <-. rewrite fix_length_eq.
  destruct (cbc_chain_last (S n) (writeCBC a) (splice 0 rnd (replicate 16 zero_byte)) (p ++ m)
    (replicate 16 (z2b 15))) as (pre & x & Hx & ->); [lia|done|].
  set (y := block_Encrypt _ _). assert (Hy : length y = 16%nat) by apply length_block_Encrypt.
  match goal with |- context [drop (length ?w - 32) ?w] => set (whole := w) end.
  replace (drop (length whole - 32) whole) with (x ++ y).
  - apply cbc_short_body_panics; try done; [by rewrite <- Hh|]. unfold y. rewrite <- Hk.
    rewrite block_Decrypt_Encrypt by (rewrite length_xor_bytes, length_replicate; lia).
    rewrite (xor_bytes_comm x (replicate _ _)), xor_bytes_comm.
    apply xor_bytes_involutive. rewrite length_replicate. lia.
  - unfold whole. rewrite !app_assoc. rewrite <- (app_assoc _ x y).
    symmetry. apply drop_app_length'. rewrite !length_app. lia.
Qed.

(** A digest to run the definitions: the low bytes of the message. *)
#[export, refine] Instance toy_hash : Hash nat := {|
  hash_Size n := S n;
  hash_Sum n m := be_put (S n) (be_get m);
  hash_HMAC n k m := be_put (S n) (be_get k + be_get m)
|}.
Proof. all: intros; rewrite ?length_be_put; lia. Defined.

Definition toy_cbc : CBC Z nat := mkCBC 3%Z 3%Z [z2b 1] [z2b 1] 19%nat.

Lemma cbc_forged_record_panics_witness :
  CBC_Decrypt toy_cbc zero_Header (header_bytes (sample_header []) ++ replicate 16 (z2b 0) ++
    (match CBC_Encrypt toy_cbc (sample_header []) (header_bytes (sample_header []) ++ replicate 12 (z2b 7))
       (replicate 16 (z2b 2)) with Ok r => drop (length r - 32) r | Err _ => [] end)) = Err Panic.
Proof.
  destruct (CBC_Encrypt toy_cbc (sample_header []) (header_bytes (sample_header []) ++ replicate 12 (z2b 7))
       (replicate 16 (z2b 2))) as [r|] eqn:E; [|exfalso; vm_compute in E; discriminate].
  apply (cbc_forged_record_panics toy_cbc toy_cbc (sample_header []) (replicate 12 (z2b 7))
    (replicate 16 (z2b 2)) r (sample_header []) zero_Header (replicate 16 (z2b 0))).
  - split_and!; try reflexivity. simpl. lia.
  - simpl. lia.
  - reflexivity.
  - reflexivity.
  - exact E.
  - apply sample_header_wf.
  - reflexivity.
  - discriminate.
  - reflexivity.
Defined.

(** ** The pseudo-random function *)

Section prf_facts.
Context {H : Type} `{Hash H}.
Implicit Types (h : H) (secret seed : bytes).

(** P_hash of RFC 5246: [A 0] is the seed, [A (i+1)] the HMAC of [A i], and
    the output the HMACs of [A (i+1)] followed by the seed. *)
Fixpoint A_round secret seed h (i : nat) : bytes :=
  match i with O => seed | S i => hash_HMAC h secret (A_round secret seed h i) end.

Definition P_hash secret seed h (k : nat) : bytes :=
  concat (map (fun i => hash_HMAC h secret (A_round secret seed h (S i) ++ seed)) (seq 0 k)).

Lemma length_P_hash secret seed h k : length (P_hash secret seed h k) = (k * hash_Size h)%nat.
Proof.
  unfold P_hash. induction k as [|k IH]; [done|].
  rewrite seq_S, map_app, concat_app, length_app, IH. cbn [map concat].
  rewrite app_nil_r, length_hash_HMAC. lia.
Qed.

Lemma P_hash_take secret seed h k j :
  (k <= j)%nat -> take (k * hash_Size h) (P_hash secret seed h j) = P_hash secret seed h k.
Proof.
  intros Hkj. unfold P_hash at 1. replace j with (k + (j - k))%nat by lia.
  rewrite seq_app, map_app, concat_app. apply take_app_length', eq_sym, length_P_hash.
Qed.

Lemma phash_loop_eq secret seed h n i out :
  phash_loop n secret seed h (A_round secret seed h i) out =
  out ++ concat (map (fun i => hash_HMAC h secret (A_round secret seed h (S i) ++ seed)) (seq i n)).
Proof.
  revert i out. induction n as [|n IH]; intros i out; cbn [phash_loop seq map concat]; [by rewrite app_nil_r|].
  change (hash_HMAC h secret (A_round secret seed h i)) with (A_round secret seed h (S i)).
  rewrite IH. by rewrite <- app_assoc.
Qed.

Lemma iterations_enough n m : (0 < m)%nat -> (n <= (n + m - 1) / m * m)%nat /\ ((n + m - 1) / m * m < n + m)%nat.
Proof.
  intros Hm. pose proof (Nat.div_mod (n + m - 1) m ltac:(lia)).
  pose proof (Nat.mod_upper_bound (n + m - 1) m ltac:(lia)). lia.
Qed.

Lemma PHash_eq secret seed n h :
  PHash secret seed n h = Ok (take n (P_hash secret seed h ((n + hash_Size h - 1) / hash_Size h))).
Proof.
  pose proof (hash_Size_pos h) as Hp. destruct (iterations_enough n _ Hp) as [H1 _].
  unfold PHash. generalize dependent ((n + hash_Size h - 1) / hash_Size h)%nat. intros q H1.
  change (phash_loop q secret seed h seed []) with (phash_loop q secret seed h (A_round secret seed h 0) []).
  rewrite phash_loop_eq. change ([] ++ _) with (P_hash secret seed h q).
  rewrite sub_ok by (rewrite length_P_hash; lia). unfold slice. by rewrite drop_0, Nat.sub_0_r.
Qed.

Lemma PHash_length secret seed n h o : PHash secret seed n h = Ok o -> length o = n.
Proof.
  rewrite PHash_eq. intros [= <-]. rewrite length_take, length_P_hash.
  pose proof (iterations_enough n _ (hash_Size_pos h)). lia.
Qed.

(** The key block is cut into the six keys without overlap or gap. *)
Lemma GenerateEncryptionKeys_ok ms cr sr macLen keyLen ivLen h :
  exists keys, GenerateEncryptionKeys ms cr sr macLen keyLen ivLen h = Ok keys /\
    length (ClientMACKey keys) = macLen /\ length (ServerMACKey keys) = macLen /\
    length (ClientWriteKey keys) = keyLen /\ length (ServerWriteKey keys) = keyLen /\
    length (ClientWriteIV keys) = ivLen /\ length (ServerWriteIV keys) = ivLen /\
    PHash ms ((keyExpansionLabel ++ sr) ++ cr) (2 * macLen + 2 * keyLen + 2 * ivLen) h =
      Ok (ClientMACKey keys ++ ServerMACKey keys ++ ClientWriteKey keys ++ ServerWriteKey keys
          ++ ClientWriteIV keys ++ ServerWriteIV keys).
Proof.
  unfold GenerateEncryptionKeys.
  destruct (PHash ms ((keyExpansionLabel ++ sr) ++ cr) (2 * macLen + 2 * keyLen + 2 * ivLen) h) as [km|] eqn:E;
    [|rewrite PHash_eq in E; discriminate].
  pose proof (PHash_length _ _ _ _ _ E) as L. clear E. cbn [res_bind].
  assert (C : forall n (l : bytes), (n <= length l)%nat ->
    sub 0 n l = Ok (take n l) /\ from n l = Ok (drop n l)).
  { intros n l Hn. rewrite sub_ok, from_ok by lia. unfold slice. by rewrite drop_0, Nat.sub_0_r. }
  repeat match goal with
  | |- context [sub 0 ?n ?l] => rewrite (proj1 (C n l ltac:(rewrite ?length_drop; lia))); cbn [res_bind]
  | |- context [from ?n ?l] => rewrite (proj2 (C n l ltac:(rewrite ?length_drop; lia))); cbn [res_bind]
  end.
  eexists. split; [reflexivity|]. cbn.
  repeat (split; [rewrite length_take, ?length_drop; lia|]).
  f_equal. rewrite (take_ge (drop ivLen _)) by (rewrite !length_drop; lia).
  by rewrite !take_drop.
Qed.
End prf_facts.

(** [PHash] computes P_hash of RFC 5246: it returns the first
    [requestedLength] bytes of the stream, for every hash, so that two calls
    with one secret and seed agree as far as both go, and it never slices
    past what it generated. *)
Theorem phash_exact {H} `{Hash H} (h : H) secret seed n k :
  (n <= k * hash_Size h)%nat -> PHash secret seed n h = Ok (take n (P_hash secret seed h k)).
Proof.
  intros Hk. rewrite PHash_eq. f_equal. pose proof (hash_Size_pos h) as Hp.
  destruct (iterations_enough n _ Hp) as [H1 H2]. set (q := ((n + hash_Size h - 1) / hash_Size h)%nat) in *.
  assert (q <= k)%nat as Hq.
  { destruct (decide (q <= k)%nat); [done|]. exfalso.
    assert ((k + 1) * hash_Size h <= q * hash_Size h)%nat by (apply Nat.mul_le_mono_r; lia). lia. }
  rewrite <- (P_hash_take secret seed h q k Hq), take_take. f_equal. lia.
Qed.

Lemma phash_exact_witness :
  PHash [z2b 1] [z2b 2] 5 3%nat = Ok (take 5 (P_hash [z2b 1] [z2b 2] 3%nat 7)).
Proof. apply (phash_exact 3%nat). simpl. lia. Defined.

(** ** Both ends of a session *)

Lemma aead_Init_peers {H K} `{Hash H} `{AEAD12 K} (newAEAD : bytes -> res derr K) tagLen keyLen (h : H) ms cr sr c :
  (0 < tagLen <= 16)%nat -> (forall key k, newAEAD key = Ok k -> aead_Overhead k = tagLen) ->
  aead_Init newAEAD tagLen keyLen h ms cr sr true = Ok c ->
  exists s, aead_Init newAEAD tagLen keyLen h ms cr sr false = Ok s /\ rc_peer c s /\ rc_peer s c.
Proof.
  intros Ht Ho. unfold aead_Init.
  destruct (GenerateEncryptionKeys_ok ms cr sr 0 keyLen 4 h) as (keys & -> & _ & _ & _ & _ & HC & HS & _).
  cbn [res_bind]. unfold NewAead.
  destruct (newAEAD (ClientWriteKey keys)) as [l|] eqn:El; [|discriminate].
  destruct (newAEAD (ServerWriteKey keys)) as [r|] eqn:Er; [|discriminate].
  cbn [res_bind]. intros [= <-]. eexists. split; [reflexivity|].
  pose proof (Ho _ _ El). pose proof (Ho _ _ Er).
  split; (split_and!; simpl; [done|done|lia|done|lia..]).
Qed.

Lemma cbc_Init_peers {H B} `{Hash H} `{BlockCipher B} (newCipher : bytes -> res derr B) macLen keyLen
    (hPrf hMac : H) ms cr sr c :
  (hash_Size hMac <= 64)%nat ->
  cbc_Init newCipher macLen keyLen hPrf hMac ms cr sr true = Ok c ->
  exists s, cbc_Init newCipher macLen keyLen hPrf hMac ms cr sr false = Ok s /\ rc_peer c s /\ rc_peer s c.
Proof.
  intros Hs. unfold cbc_Init.
  destruct (GenerateEncryptionKeys_ok ms cr sr macLen keyLen 16 hPrf) as (keys & -> & _).
  cbn [res_bind]. unfold NewCBC.
  destruct (newCipher (ClientWriteKey keys)) as [l|] eqn:El; [|discriminate].
  destruct (newCipher (ServerWriteKey keys)) as [r|] eqn:Er; [|discriminate].
  cbn [res_bind]. intros [= <-]. eexists. split; [reflexivity|]. by split.
Qed.

(** C34: two ends that derived the same master secret and know both randoms
    understand each other: if the client's suite initialises so does the
    server's, and whatever record either protects the other recovers, with
    the AEAD suites (GCM from the standard library, CCM from the repository)
    and with the CBC suites. *)
Theorem suites_interoperate {H K B} `{Hash H} `{AEAD12 K} `{BlockCipher B}
    (newAEAD : bytes -> res derr K) (newCipher : bytes -> res derr B)
    tagLen keyLen macLen (hPrf hMac : H) ms cr sr :
  (0 < tagLen <= 16)%nat -> (forall key k, newAEAD key = Ok k -> aead_Overhead k = tagLen) ->
  (hash_Size hMac <= 64)%nat ->
  (forall c, aead_Init newAEAD tagLen keyLen hPrf ms cr sr true = Ok c ->
     exists s, aead_Init newAEAD tagLen keyLen hPrf ms cr sr false = Ok s /\
       protects 8 (Aead_Encrypt c) (Aead_Decrypt s) /\ protects 8 (Aead_Encrypt s) (Aead_Decrypt c)) /\
  (forall c, cbc_Init newCipher macLen keyLen hPrf hMac ms cr sr true = Ok c ->
     exists s, cbc_Init newCipher macLen keyLen hPrf hMac ms cr sr false = Ok s /\
       protects 16 (CBC_Encrypt c) (CBC_Decrypt s) /\ protects 16 (CBC_Encrypt s) (CBC_Decrypt c)).
Proof.
  intros Ht Ho Hm. split; intros c Hc.
  - destruct (aead_Init_peers _ _ _ _ _ _ _ _ Ht Ho Hc) as (s & Hs & H1' & H2').
    exists s. split; [done|]. split; [exact (rc_roundtrip _ _ H1')|exact (rc_roundtrip _ _ H2')].
  - destruct (cbc_Init_peers _ _ _ _ _ _ _ _ _ Hm Hc) as (s & Hs & H1' & H2').
    exists s. split; [done|]. split; [exact (rc_roundtrip _ _ H1')|exact (rc_roundtrip _ _ H2')].
Qed.

(** The CCM suites: AES is the block function of [toy_block] here. *)
Definition toy_newCCM (key : bytes) : res derr (ccm12 Z) :=
  Ok (mkCcm12 Z (mkCcm (be_get key) 8 3) ltac:(simpl; lia) eq_refl).

Lemma suites_interoperate_witness :
  exists c s, aead_Init toy_newCCM 8 16 19%nat [z2b 1] [z2b 2] [z2b 3] true = Ok c /\
    aead_Init toy_newCCM 8 16 19%nat [z2b 1] [z2b 2] [z2b 3] false = Ok s /\
    protects 8 (Aead_Encrypt c) (Aead_Decrypt s) /\ protects 8 (Aead_Encrypt s) (Aead_Decrypt c).
Proof.
  eexists.
  destruct (suites_interoperate toy_newCCM (fun k => Ok (be_get k)) 8 16 20 19%nat 19%nat
    [z2b 1] [z2b 2] [z2b 3]) as [HA _].
  - lia.
  - intros key k [= <-]. reflexivity.
  - simpl. lia.
  - destruct (HA _ eq_refl) as (s & Hs & H1 & H2). exists s. split_and!; [reflexivity|exact Hs|exact H1|exact H2].
Defined.

(** The premaster secret of a pre-shared key: the layout of RFC 4279 as long
    as the 16-bit sums do not wrap, and a panic right above. *)
Lemma PSKPreMasterSecret_ok psk :
  (Z.of_nat (length psk) < 65532)%Z ->
  PSKPreMasterSecret psk = Ok (be_put 2 (Z.of_nat (length psk)) ++ replicate (length psk) zero_byte
    ++ be_put 2 (Z.of_nat (length psk)) ++ psk).
Proof.
  intros Hl. unfold PSKPreMasterSecret. rewrite (wrap_small 16 (Z.of_nat (length psk))) by lia. cbv zeta.
  rewrite !wrap_small by lia.
  set (n := length psk) in *. replace (Z.to_nat (2 + Z.of_nat n + 2)) with (2 + (n + 2))%nat by lia.
  replace (Z.to_nat (2 + Z.of_nat n)) with (2 + n)%nat by lia.
  rewrite length_app, length_replicate.
  destruct (Nat.ltb_spec (2 + (n + 2) + length psk) 2); [lia|].
  destruct (Nat.ltb_spec (2 + (n + 2) + length psk) (2 + n + 2)); [lia|]. cbn [orb]. f_equal.
  rewrite replicate_add, <- app_assoc. rewrite splice_app_0 by (len; lia).
  rewrite length_be_put, drop_app_length' by len. rewrite replicate_add, <- app_assoc.
  rewrite app_assoc. rewrite splice_at by (len; lia). rewrite length_be_put, drop_app_length' by len.
  by rewrite <- !app_assoc.
Qed.

Lemma PSKPreMasterSecret_panics psk :
  (65532 <= Z.of_nat (length psk) <= 65533)%Z -> PSKPreMasterSecret psk = Err Panic.
Proof.
  intros Hl. unfold PSKPreMasterSecret. set (n := Z.of_nat (length psk)) in *.
  rewrite (wrap_small 16 n) by lia. cbv zeta.
  assert (E : u16 (2 + n + 2) = (n - 65532)%Z).
  { unfold wrap. symmetry. apply (Z.mod_unique _ _ 1); lia. }
  rewrite E, (wrap_small 16 (2 + n)) by lia.
  rewrite length_app, length_replicate.
  destruct (Nat.ltb_spec (Z.to_nat (n - 65532) + length psk) (Z.to_nat (2 + n) + 2)); [|lia].
  by rewrite orb_true_r.
Qed.
