(* ===== verification/DtlsConn.v ===== *)
(** * DTLS connections: the record path

    conn.go of golib/replace/dtls: how packets are numbered, protected and
    written ([processPacket], [processHandshakePacket], [writePackets],
    [notify], [Write]) and how datagrams are taken apart, checked and
    dispatched ([readAndBuffer], [handleIncomingPacket],
    [handleQueuedPackets]).

    The cipher suite is used through [RecordCipher]; the replay detector of
    pion/transport is the class [ReplayDetector].  Random bytes come from a
    source of the class [Rand].  The reads of [readAndBuffer] share pooled
    buffers and queued packets are slices of them, so that level is modelled
    with a store of buffers. *)

From S2P Require Import Prelude IO DtlsWire DtlsExt DtlsHandshake DtlsFragment DtlsCrypto.
Open Scope np_scope.

(** ** The replay detector

    [Check(seq)] says whether the number is acceptable and gives a function
    that marks it; [rd_accept] is that function, whose result says whether
    the number is the latest.  A number that was marked is not acceptable
    again. *)
Class ReplayDetector (D : Type) := {
  rd_New : Z -> Z -> D;                 (* window size, largest number *)
  rd_ok : D -> Z -> bool;
  rd_accept : D -> Z -> D * bool;
  rd_seen : D -> Z -> Prop;
  rd_seen_accept : forall d s, rd_seen (fst (rd_accept d s)) s;
  rd_seen_mono : forall d s t, rd_seen d t -> rd_seen (fst (rd_accept d s)) t;
  rd_ok_fresh : forall d s, rd_ok d s = true -> ~ rd_seen d s
}.

Definition inboundBufferSize : nat := Z.to_nat 8192.
Lemma inboundBufferSize_eq : Z.of_nat inboundBufferSize = 8192%Z.
Proof. apply Z2Nat.id. lia. Qed.
#[global] Opaque inboundBufferSize.

Definition maxAppDataPacketQueueSize : nat := 100.
Definition defaultReplayProtectionWindow : Z := 64.

(** ** State *)

Definition alert_Warning : Z := 1.
Definition alert_Fatal : Z := 2.
Definition alert_CloseNotify : Z := 0.
Definition alert_UnexpectedMessage : Z := 10.
Definition alert_DecodeError : Z := 50.

(** The errors of the record path: those of the codecs, an alert that was
    received, and application data before encryption. *)
Inductive cerr :=
  | CDerr (e : derr)
  | alertError (a : Alert)
  | errApplicationDataEpochZero
  | errUnhandledContextType (ct : Z)
  | errNet (code : Z).

Definition IsFatalOrCloseNotify (a : Alert) : bool :=
  (Level a =? alert_Fatal)%Z || (Description a =? alert_CloseNotify)%Z.

Record packet := mkPacket {
  pk_record : RecordLayer;
  shouldEncrypt : bool;
  shouldWrapCID : bool
}.

Section conn.
Context {C D G addr : Type} `{Cryptobyte} `{RecordCipher C} `{ReplayDetector D} `{Rand G} `{EqDecision addr}.

(** A slice of a pooled buffer: buffer, offset and length. *)
Record bufref := mkRef { rf_buf : nat; rf_off : nat; rf_len : nat }.

(** [cipherSuite] is [None] before one is chosen, [Some None] before its
    keys are set.  [decrypted] is what was sent into the channel that [Read]
    receives from; [c_sent] what went to the network, and [c_faults] the
    errors the next network writes return. *)
Record Conn := mkConn {
  isClient : bool;
  localEpoch : Z; remoteEpoch : Z;                 (* uint16 *)
  localSequenceNumber : list Z;                    (* uint64 *)
  cipherSuite : option (option C);
  localConnectionID : bytes; remoteConnectionID : bytes;
  replayDetector : list D; replayProtectionWindow : Z;
  fragmentBuf : fragmentBuffer;
  hsCache : handshakeCache;
  encryptedPackets : list (addr * bufref);
  rAddr : addr;
  maximumTransmissionUnit : nat;
  paddingLength : nat -> nat;
  handshakeCompleted : bool;
  decrypted : list bytes;
  c_sent : list (addr * bytes); c_faults : list (option Z);
  c_rand : G
}.

Definition set_seq (l : list Z) (c : Conn) : Conn :=
  mkConn (isClient c) (localEpoch c) (remoteEpoch c) l (cipherSuite c) (localConnectionID c)
    (remoteConnectionID c) (replayDetector c) (replayProtectionWindow c) (fragmentBuf c) (hsCache c)
    (encryptedPackets c) (rAddr c) (maximumTransmissionUnit c) (paddingLength c) (handshakeCompleted c)
    (decrypted c) (c_sent c) (c_faults c) (c_rand c).
Definition set_rand (s : G) (c : Conn) : Conn :=
  mkConn (isClient c) (localEpoch c) (remoteEpoch c) (localSequenceNumber c) (cipherSuite c)
    (localConnectionID c) (remoteConnectionID c) (replayDetector c) (replayProtectionWindow c)
    (fragmentBuf c) (hsCache c) (encryptedPackets c) (rAddr c) (maximumTransmissionUnit c)
    (paddingLength c) (handshakeCompleted c) (decrypted c) (c_sent c) (c_faults c) s.
Definition set_net (sent : list (addr * bytes)) (faults : list (option Z)) (c : Conn) : Conn :=
  mkConn (isClient c) (localEpoch c) (remoteEpoch c) (localSequenceNumber c) (cipherSuite c)
    (localConnectionID c) (remoteConnectionID c) (replayDetector c) (replayProtectionWindow c)
    (fragmentBuf c) (hsCache c) (encryptedPackets c) (rAddr c) (maximumTransmissionUnit c)
    (paddingLength c) (handshakeCompleted c) (decrypted c) sent faults (c_rand c).
Definition set_cache (h : handshakeCache) (c : Conn) : Conn :=
  mkConn (isClient c) (localEpoch c) (remoteEpoch c) (localSequenceNumber c) (cipherSuite c)
    (localConnectionID c) (remoteConnectionID c) (replayDetector c) (replayProtectionWindow c)
    (fragmentBuf c) h (encryptedPackets c) (rAddr c) (maximumTransmissionUnit c)
    (paddingLength c) (handshakeCompleted c) (decrypted c) (c_sent c) (c_faults c) (c_rand c).
Definition set_fragments (f : fragmentBuffer) (c : Conn) : Conn :=
  mkConn (isClient c) (localEpoch c) (remoteEpoch c) (localSequenceNumber c) (cipherSuite c)
    (localConnectionID c) (remoteConnectionID c) (replayDetector c) (replayProtectionWindow c)
    f (hsCache c) (encryptedPackets c) (rAddr c) (maximumTransmissionUnit c)
    (paddingLength c) (handshakeCompleted c) (decrypted c) (c_sent c) (c_faults c) (c_rand c).
Definition set_queue (q : list (addr * bufref)) (c : Conn) : Conn :=
  mkConn (isClient c) (localEpoch c) (remoteEpoch c) (localSequenceNumber c) (cipherSuite c)
    (localConnectionID c) (remoteConnectionID c) (replayDetector c) (replayProtectionWindow c)
    (fragmentBuf c) (hsCache c) q (rAddr c) (maximumTransmissionUnit c)
    (paddingLength c) (handshakeCompleted c) (decrypted c) (c_sent c) (c_faults c) (c_rand c).
Definition set_replay (r : list D) (c : Conn) : Conn :=
  mkConn (isClient c) (localEpoch c) (remoteEpoch c) (localSequenceNumber c) (cipherSuite c)
    (localConnectionID c) (remoteConnectionID c) r (replayProtectionWindow c)
    (fragmentBuf c) (hsCache c) (encryptedPackets c) (rAddr c) (maximumTransmissionUnit c)
    (paddingLength c) (handshakeCompleted c) (decrypted c) (c_sent c) (c_faults c) (c_rand c).
Definition setRemoteEpoch (e : Z) (c : Conn) : Conn :=
  mkConn (isClient c) (localEpoch c) e (localSequenceNumber c) (cipherSuite c)
    (localConnectionID c) (remoteConnectionID c) (replayDetector c) (replayProtectionWindow c)
    (fragmentBuf c) (hsCache c) (encryptedPackets c) (rAddr c) (maximumTransmissionUnit c)
    (paddingLength c) (handshakeCompleted c) (decrypted c) (c_sent c) (c_faults c) (c_rand c).
Definition setLocalEpoch (e : Z) (c : Conn) : Conn :=
  mkConn (isClient c) e (remoteEpoch c) (localSequenceNumber c) (cipherSuite c)
    (localConnectionID c) (remoteConnectionID c) (replayDetector c) (replayProtectionWindow c)
    (fragmentBuf c) (hsCache c) (encryptedPackets c) (rAddr c) (maximumTransmissionUnit c)
    (paddingLength c) (handshakeCompleted c) (decrypted c) (c_sent c) (c_faults c) (c_rand c).
Definition set_rAddr (a : addr) (c : Conn) : Conn :=
  mkConn (isClient c) (localEpoch c) (remoteEpoch c) (localSequenceNumber c) (cipherSuite c)
    (localConnectionID c) (remoteConnectionID c) (replayDetector c) (replayProtectionWindow c)
    (fragmentBuf c) (hsCache c) (encryptedPackets c) a (maximumTransmissionUnit c)
    (paddingLength c) (handshakeCompleted c) (decrypted c) (c_sent c) (c_faults c) (c_rand c).
Definition set_decrypted (d : list bytes) (c : Conn) : Conn :=
  mkConn (isClient c) (localEpoch c) (remoteEpoch c) (localSequenceNumber c) (cipherSuite c)
    (localConnectionID c) (remoteConnectionID c) (replayDetector c) (replayProtectionWindow c)
    (fragmentBuf c) (hsCache c) (encryptedPackets c) (rAddr c) (maximumTransmissionUnit c)
    (paddingLength c) (handshakeCompleted c) d (c_sent c) (c_faults c) (c_rand c).

(** ** Writing *)

(** A computation on the connection that may fail; what it changed before an
    error stays. *)
Definition M (A : Type) : Type := Conn -> res derr A * Conn.
Definition ret {A} (a : A) : M A := fun c => (Ok a, c).
Definition lift {A} (r : res derr A) : M A := fun c => (r, c).
Definition bindM {A B} (m : M A) (f : A -> M B) : M B := fun c =>
  match m c with
  | (Ok a, c') => f a c'
  | (Err e, c') => (Err e, c')
  end.
Notation "'do!' x ':=' m 'in' k" := (bindM m (fun x => k))
  (at level 10, x pattern, m at level 100, k at level 200).

(** The loop that makes room for the epoch, then [atomic.AddUint64] and the
    check for the end of the number space. *)
Definition grow_seq (epoch : Z) (l : list Z) : list Z :=
  l ++ replicate (Z.to_nat epoch + 1 - length l) 0%Z.

Definition next_seq (epoch : Z) : M Z := fun c =>
  let l := grow_seq epoch (localSequenceNumber c) in
  let i := Z.to_nat epoch in
  let v := u64 (l !!! i + 1) in
  let c := set_seq (<[i := v]> l) c in
  let seq := u64 (v - 1) in
  if (MaxSequenceNumber <? seq)%Z then (Err errSequenceNumberOverflow, c) else (Ok seq, c).

(** [c.state.cipherSuite.Encrypt]; without a suite the call panics. *)
Definition encrypt (h : Header) (raw : bytes) : M bytes := fun c =>
  match cipherSuite c with
  | None => (Err Panic, c)
  | Some None => (Err errCipherSuiteNotInit, c)
  | Some (Some k) =>
      let '(rnd, s) := rread rc_rnd (c_rand c) in
      (rc_Encrypt k h raw rnd, set_rand s c)
  end.

(** [pkt.record.Marshal()]: the bytes and the record with the fields it fills
    in, which stay in the packet. *)
Definition record_Marshal (r : RecordLayer) : res derr (RecordLayer * bytes) :=
  let! content :=
    (match r_Content r with
     | CHandshake h => let! (hd, _) := Handshake_Marshal h in
                       Ok (CHandshake (mkHandshake hd (hsk_Message h) (hsk_KeyExchangeAlgorithm h)))
     | x => Ok x
     end) in
  let! body := Content_Marshal (r_Content r) in
  let! raw := RecordLayer_Marshal r in
  let h := r_Header r in
  Ok (mkRecord (mkHeader (Content_Type content) (u16 (Z.of_nat (length body))) (HVersion h) (Epoch h)
                  (SequenceNumber h) (ConnectionID h)) content, raw).

Definition with_seq (h : Header) (s : Z) : Header :=
  mkHeader (ContentType h) (ContentLen h) (HVersion h) (Epoch h) s (ConnectionID h).

Definition cid_Header (h : Header) (len : nat) (cid : bytes) : Header :=
  mkHeader ContentTypeConnectionID (u16 (Z.of_nat len)) (HVersion h) (Epoch h) (SequenceNumber h) cid.

Definition get_conn : M Conn := fun c => (Ok c, c).

(** The result is the raw packet and the packet with the header it has after
    the call. *)
Definition processPacket (pkt : packet) : M (bytes * packet) :=
  let r := pk_record pkt in
  do! seq := next_seq (Epoch (r_Header r)) in
  let r := mkRecord (with_seq (r_Header r) seq) (r_Content r) in
  do! c := get_conn in
  do! (rawPacket, r) :=
    (if shouldWrapCID pkt then
       do! (r, _) := lift (record_Marshal r) in
       do! content := lift (Content_Marshal (r_Content r)) in
       let rawInner := InnerPlaintext_Marshal (mkInner content (ContentType (r_Header r)) 0) in
       let cidHeader := cid_Header (r_Header r) (length rawInner) (remoteConnectionID c) in
       do! rawHeader := lift (Header_Marshal cidHeader) in
       ret (rawHeader ++ rawInner, mkRecord cidHeader (r_Content r))
     else
       do! (r, raw) := lift (record_Marshal r) in ret (raw, r)) in
  do! rawPacket := (if shouldEncrypt pkt then encrypt (r_Header r) rawPacket else ret rawPacket) in
  ret (rawPacket, mkPacket r (shouldEncrypt pkt) (shouldWrapCID pkt)).

(** The loop of [processHandshakePacket] over the fragments.  With a
    connection identifier the header gets the sequence number that is in the
    packet, not the one just drawn. *)
Fixpoint process_fragments (fragments : list bytes) (pkt : packet) : M (list bytes * packet) :=
  match fragments with
  | [] => ret ([], pkt)
  | f :: fs =>
      let h := r_Header (pk_record pkt) in
      do! seq := next_seq (Epoch h) in
      do! c := get_conn in
      do! (rawPacket, h) :=
        (if shouldWrapCID pkt then
           let rawInner := InnerPlaintext_Marshal
             (mkInner f ContentTypeHandshake (paddingLength c (length f))) in
           let cidHeader := cid_Header h (length rawInner) (remoteConnectionID c) in
           do! rawHeader := lift (Header_Marshal cidHeader) in
           ret (rawHeader ++ rawInner, cidHeader)
         else
           let rh := mkHeader (ContentType h) (u16 (Z.of_nat (length f))) (HVersion h) (Epoch h) seq [] in
           do! rawHeader := lift (Header_Marshal rh) in
           ret (rawHeader ++ f, rh)) in
      do! rawPacket := (if shouldEncrypt pkt then encrypt h rawPacket else ret rawPacket) in
      let pkt := mkPacket (mkRecord h (r_Content (pk_record pkt))) (shouldEncrypt pkt) (shouldWrapCID pkt) in
      do! (raws, pkt) := process_fragments fs pkt in
      ret (rawPacket :: raws, pkt)
  end.

Definition processHandshakePacket (pkt : packet) (hs : Handshake) : M (list bytes * packet) :=
  do! c := get_conn in
  do! fragments :=
    (match hsk_Message hs with
     | None => lift (Err Panic)
     | Some m => lift (fragmentHandshake (maximumTransmissionUnit c) (hsk_Header hs) m)
     end) in
  let epoch := Epoch (r_Header (pk_record pkt)) in
  do! _ := (fun c => (Ok tt, set_seq (grow_seq epoch (localSequenceNumber c)) c)) in
  process_fragments fragments pkt.

(** [nextConn.WriteToContext] for each datagram in turn. *)
Fixpoint write_datagrams (ds : list bytes) (c : Conn) : option cerr * Conn :=
  match ds with
  | [] => (None, c)
  | d :: ds =>
      match c_faults c with
      | Some e :: fs => (Some (errNet e), set_net (c_sent c) fs c)
      | fs => write_datagrams ds (set_net (c_sent c ++ [(rAddr c, d)]) (tail fs) c)
      end
  end.

(** The loop over the packets: the raw records and the packets as they are
    afterwards.  A handshake message is put into the cache first. *)
Fixpoint process_packets (pkts : list packet) : M (list bytes * list packet) :=
  match pkts with
  | [] => ret ([], [])
  | pkt :: pkts =>
      do! (raws, pkt) :=
        (match r_Content (pk_record pkt) with
         | CHandshake _ =>
             do! (r, handshakeRaw) := lift (record_Marshal (pk_record pkt)) in
             match r_Content r with
             | CHandshake hs =>
                 do! data := lift (from FixedHeaderSize handshakeRaw) in
                 do! _ := (fun c => (Ok tt, set_cache
                   (cache_push (hsCache c) data (Epoch (r_Header r)) (MessageSequence (hsk_Header hs))
                      (hs_Type (hsk_Header hs)) (isClient c)) c)) in
                 processHandshakePacket (mkPacket r (shouldEncrypt pkt) (shouldWrapCID pkt)) hs
             | _ => lift (Err Panic)
             end
         | _ => do! (raw, pkt) := processPacket pkt in ret ([raw], pkt)
         end) in
      do! (rest, pkts) := process_packets pkts in
      ret (raws ++ rest, pkt :: pkts)
  end.

(** On success the packets are returned with the headers they now have: the
    state machine keeps them for a retransmission. *)
Definition writePackets (pkts : list packet) (c : Conn) : res cerr (list packet) * Conn :=
  match process_packets pkts c with
  | (Err e, c) => (Err (CDerr e), c)
  | (Ok (rawPackets, pkts), c) =>
      if is_nil rawPackets then (Ok pkts, c)
      else match write_datagrams (compactRawPackets (maximumTransmissionUnit c) rawPackets) c with
           | (Some e, c) => (Err e, c)
           | (None, c) => (Ok pkts, c)
           end
  end.

(** The packet [notify] sends.  Its deletion of a stored session on a fatal
    alert is a call to the session store of the application. *)
Definition notify (level desc : Z) (c : Conn) : option cerr * Conn :=
  let pkt := mkPacket (mkRecord (mkHeader 0 0 Version1_2 (localEpoch c) 0 []) (CAlert (mkAlert level desc)))
               (handshakeCompleted c) (0 <? length (remoteConnectionID c))%nat in
  match writePackets [pkt] c with
  | (Err e, c) => (Some e, c)
  | (Ok _, c) => (None, c)
  end.

(** The part of [Write] after the handshake. *)
Definition app_packet (payload : bytes) (c : Conn) : packet :=
  mkPacket (mkRecord (mkHeader 0 0 Version1_2 (localEpoch c) 0 []) (CApplicationData (mkAppData payload)))
    true (0 <? length (remoteConnectionID c))%nat.

Definition conn_Write (payload : bytes) (c : Conn) : nat * option cerr * Conn :=
  match writePackets [app_packet payload c] c with
  | (Err e, c) => (length payload, Some e, c)
  | (Ok _, c) => (length payload, None, c)
  end.

(** ** Reading *)

Record incoming := mkIncoming {
  in_handshake : bool; in_retransmit : bool; in_alert : option Alert; in_err : option cerr
}.
Definition nothing : incoming := mkIncoming false false None None.

Definition enqueueEncryptedPackets (p : addr * bufref) (c : Conn) : Conn :=
  if (length (encryptedPackets c) <? maxAppDataPacketQueueSize)%nat
  then set_queue (encryptedPackets c ++ [p]) c else c.

(** The loop that adds detectors up to the epoch. *)
Definition grow_replay (epoch : Z) (c : Conn) : list D :=
  replayDetector c ++ replicate (Z.to_nat epoch + 1 - length (replayDetector c))
    (rd_New (replayProtectionWindow c) MaxSequenceNumber).

(** [markPacketAsValid()]. *)
Definition mark_valid (epoch seq : Z) (c : Conn) : bool * Conn :=
  match replayDetector c !! Z.to_nat epoch with
  | Some d => let '(d', latest) := rd_accept d seq in
              (latest, set_replay (<[Z.to_nat epoch := d']> (replayDetector c)) c)
  | None => (false, c)
  end.

(** The messages that are complete go to the cache; each [pop] takes one
    sequence number out of the buffer. *)
Fixpoint pop_all (fuel : nat) (c : Conn) : Conn :=
  match fuel with
  | O => c
  | Datatypes.S fuel' =>
      match pop (fragmentBuf c) with
      | (None, _) => c
      | (Some (out, epoch), f) =>
          let c := set_fragments f c in
          match HsHeader_Unmarshal out with
          | Err _ => pop_all fuel' c
          | Ok h => pop_all fuel' (set_cache
                      (cache_push (hsCache c) out epoch (MessageSequence h) (hs_Type h) (negb (isClient c))) c)
          end
      end
  end.

(** Decryption: [None] drops the packet.  A record with a connection
    identifier is rewritten as a plain one. *)
Definition decrypt_record (k : C) (h : Header) (buf : bytes) (localCID : bytes)
    : res derr (option (bytes * bool)) :=
  if (0 <? length localCID)%nat && negb (ContentType h =? ContentTypeConnectionID)%Z then Ok None
  else
    let cid := (ContentType h =? ContentTypeConnectionID)%Z in
    let hdr := mkHeader 0 0 (mkVersion 0 0) 0 0 (if cid then replicate (length localCID) zero_byte else []) in
    match rc_Decrypt k hdr buf with
    | Err Panic => Err Panic
    | Err _ => Ok None
    | Ok buf =>
        let! unwrapped :=
          (if cid then
             let! inner := from (Header_Size h) buf in
             match InnerPlaintext_Unmarshal inner with
             | Err Panic => Err Panic
             | Err _ => Ok None
             | Ok ip =>
                 match Header_Marshal (mkHeader (RealType ip) (u16 (Z.of_nat (length (IContent ip))))
                         (HVersion h) (Epoch h) (SequenceNumber h) []) with
                 | Err _ => Ok None
                 | Ok raw => Ok (Some (raw ++ IContent ip))
                 end
             end
           else Ok (Some buf)) in
        match unwrapped with
        | None => Ok None
        | Some buf =>
            if negb (bool_decide (localCID = ConnectionID h)) then Ok None else Ok (Some (buf, cid))
        end
    end.

(** The content of a record that is not a handshake message.  [sel] is the
    case the [select] takes that hands data to the reader: [false] when the
    connection or the context ended first. *)
Definition dispatch_content (sel : bool) (h : Header) (cid : bool) (content : Content) (a : addr)
    (ref : bufref) (enqueue : bool) (c : Conn) : incoming * Conn :=
  let finish (latest : bool) (c : Conn) :=
    (nothing, if cid && latest then (if decide (a <> rAddr c) then set_rAddr a c else c) else c) in
  match content with
  | CAlert al =>
      let reply := if (Description al =? alert_CloseNotify)%Z
                   then Some (mkAlert alert_Warning alert_CloseNotify) else None in
      let '(_, c) := mark_valid (Epoch h) (SequenceNumber h) c in
      (mkIncoming false false reply (Some (alertError al)), c)
  | CChangeCipherSpec =>
      match cipherSuite c with
      | Some (Some _) =>
          let newRemoteEpoch := u16 (Epoch h + 1) in
          if (u16 (remoteEpoch c + 1) =? newRemoteEpoch)%Z then
            let '(latest, c) := mark_valid (Epoch h) (SequenceNumber h) (setRemoteEpoch newRemoteEpoch c) in
            finish latest c
          else finish false c
      | _ => (nothing, if enqueue then enqueueEncryptedPackets (a, ref) c else c)
      end
  | CApplicationData ad =>
      if (Epoch h =? 0)%Z then
        (mkIncoming false false (Some (mkAlert alert_Fatal alert_UnexpectedMessage))
           (Some errApplicationDataEpochZero), c)
      else
        let '(latest, c) := mark_valid (Epoch h) (SequenceNumber h) c in
        finish latest (if sel then set_decrypted (decrypted c ++ [AData ad]) c else c)
  | CHandshake _ =>
      (mkIncoming false false (Some (mkAlert alert_Fatal alert_UnexpectedMessage))
         (Some (errUnhandledContextType (Content_Type content))), c)
  end.

(** The part after decryption. *)
Definition dispatch_record (sel : bool) (h : Header) (buf : bytes) (cid : bool) (a : addr)
    (ref : bufref) (enqueue : bool) (c : Conn) : res derr incoming * Conn :=
  match push (fragmentBuf c) buf with
  | (Err Panic, f) => (Err Panic, set_fragments f c)
  | (Err Diverges, f) => (Err Diverges, set_fragments f c)
  | (Err _, f) => (Ok nothing, set_fragments f c)
  | (Ok (true, rtx), f) =>
      let '(_, c) := mark_valid (Epoch h) (SequenceNumber h) (set_fragments f c) in
      (Ok (mkIncoming true rtx None None), pop_all (Datatypes.S (size (fcache (fragmentBuf c)))) c)
  | (Ok (false, _), f) =>
      let c := set_fragments f c in
      match RecordLayer_Unmarshal zero_Header buf with
      | Err Panic => (Err Panic, c)
      | Err e => (Ok (mkIncoming false false (Some (mkAlert alert_Fatal alert_DecodeError)) (Some (CDerr e))), c)
      | Ok r => let '(i, c) := dispatch_content sel h cid (r_Content r) a ref enqueue c in (Ok i, c)
      end
  end.

Definition handleIncomingPacket (sel : bool) (ref : bufref) (buf : bytes) (a : addr) (enqueue : bool)
    (c : Conn) : res derr incoming * Conn :=
  let h0 := mkHeader 0 0 (mkVersion 0 0) 0 0 (replicate (length (localConnectionID c)) zero_byte) in
  match Header_Unmarshal h0 buf with
  | Err Panic => (Err Panic, c)
  | Err _ => (Ok nothing, c)
  | Ok h =>
      let queued c := if enqueue then enqueueEncryptedPackets (a, ref) c else c in
      if (remoteEpoch c <? Epoch h)%Z then
        if (u16 (remoteEpoch c + 1) <? Epoch h)%Z then (Ok nothing, c)
        else (Ok nothing, queued c)
      else
        let c := set_replay (grow_replay (Epoch h) c) c in
        match replayDetector c !! Z.to_nat (Epoch h) with
        | None => (Err Panic, c)
        | Some d =>
            if negb (rd_ok d (SequenceNumber h)) then (Ok nothing, c)
            else if (Epoch h =? 0)%Z then dispatch_record sel h buf false a ref enqueue c
            else match cipherSuite c with
                 | Some (Some k) =>
                     match decrypt_record k h buf (localConnectionID c) with
                     | Err e => (Err e, c)
                     | Ok None => (Ok nothing, c)
                     | Ok (Some (buf, cid)) => dispatch_record sel h buf cid a ref enqueue c
                     end
                 | _ => (Ok nothing, queued c)
                 end
        end
  end.

(** ** Datagrams and pooled buffers *)

(** The buffers of [poolReadBuffer] that were used; a new one is
    [inboundBufferSize] zeros. *)
Definition buffer (st : gmap nat bytes) (id : nat) : bytes :=
  default (replicate inboundBufferSize zero_byte) (st !! id).
Definition deref (st : gmap nat bytes) (r : bufref) : bytes :=
  slice (rf_off r) (rf_off r + rf_len r) (buffer st (rf_buf r)).

Inductive outcome :=
  | Handled (hasHandshake isRetransmit : bool)
  | Failed (e : cerr)
  | Crashed.

(** The loop over the records of a datagram or of the queue; [sel] as in
    [dispatch_content]. *)
Fixpoint handle_all (sel enqueue : bool) (pkts : list (bytes * bufref * addr)) (hs rtx : bool) (c : Conn)
    : outcome * Conn :=
  match pkts with
  | [] => (Handled hs rtx, c)
  | (buf, ref, a) :: pkts =>
      match handleIncomingPacket sel ref buf a enqueue c with
      | (Err _, c) => (Crashed, c)
      | (Ok i, c) =>
          let '(err, c) :=
            match in_alert i with
            | None => (in_err i, c)
            | Some al =>
                match notify (Level al) (Description al) c with
                | (Some alertErr, c) => (match in_err i with None => Some alertErr | e => e end, c)
                | (None, c) => (in_err i, c)
                end
            end in
          match err with
          | Some e => (Failed e, c)
          | None => handle_all sel enqueue pkts (hs || in_handshake i) (rtx || in_retransmit i) c
          end
      end
  end.

(** The slices of the buffer the records of a datagram are. *)
Fixpoint refs_of (id off : nat) (pkts : list bytes) : list bufref :=
  match pkts with
  | [] => []
  | p :: ps => mkRef id off (length p) :: refs_of id (off + length p) ps
  end.

(** [poolReadBuffer.Get] gave buffer [id]; [dgram] is what the network read
    returns.  The datagram is cut to the buffer, and what the buffer held
    before stays behind it. *)
Definition readAndBuffer (sel : bool) (id : nat) (dgram : res Z (bytes * addr)) (st : gmap nat bytes) (c : Conn)
    : outcome * gmap nat bytes * Conn :=
  match dgram with
  | Err e => (Failed (errNet e), st, c)
  | Ok (d, a) =>
      let i := Nat.min (length d) inboundBufferSize in
      let b := splice 0 d (buffer st id) in
      let st := <[id := b]> st in
      match ContentAwareUnpackDatagram (take i b) (length (localConnectionID c)) with
      | Err e => (Failed (CDerr e), st, c)
      | Ok pkts =>
          let '(o, c) := handle_all sel true
            (zip (zip pkts (refs_of id 0 pkts)) (replicate (length pkts) a)) false false c in
          (o, st, c)
      end
  end.

(** The queued packets are read out of the buffers as these are now. *)
Definition handleQueuedPackets (sel : bool) (st : gmap nat bytes) (c : Conn) : outcome * Conn :=
  let pkts := encryptedPackets c in
  let c := set_queue [] c in
  handle_all sel false (map (fun p => (deref st (snd p), snd p, fst p)) pkts) false false c.
End conn.

Arguments Conn : clear implicits.

(** ** Record numbers *)

Section numbers.
Context {C D G addr : Type} `{Cryptobyte} `{RecordCipher C} `{ReplayDetector D} `{Rand G} `{EqDecision addr}.
Implicit Types (c : Conn C D G addr) (pkt : packet).

(** The next number of an epoch; [number h] is what identifies a record. *)
Definition counter c (e : Z) : Z := default 0%Z (localSequenceNumber c !! Z.to_nat e).
Definition number (h : Header) : Z * Z := (Epoch h, SequenceNumber h).

(** A counter goes past the last number by one with every call that fails
    because the numbers are used up: [within k] allows for [k] such calls. *)
Definition within (k : Z) c : Prop := Forall (fun s => 0 <= s <= MaxSequenceNumber + 1 + k)%Z (localSequenceNumber c).
Definition counters_ok c : Prop := within 0 c.

Lemma within_range k c e : (0 <= k)%Z -> within k c -> (0 <= counter c e <= MaxSequenceNumber + 1 + k)%Z.
Proof.
  intros Hk Hc. unfold counter. destruct (localSequenceNumber c !! Z.to_nat e) eqn:E; simpl.
  - by apply (Forall_lookup_1 _ _ _ _ Hc) in E.
  - unfold MaxSequenceNumber. lia.
Qed.

Lemma counter_range c e : counters_ok c -> (0 <= counter c e <= MaxSequenceNumber + 1)%Z.
Proof. intros Hc. pose proof (within_range 0 c e ltac:(lia) Hc). lia. Qed.

Lemma within_mono k k' c : (k <= k')%Z -> within k c -> within k' c.
Proof. intros Hk Hc. eapply Forall_impl; [exact Hc|]. cbn beta. lia. Qed.

Lemma grow_seq_spec e l :
  (Z.to_nat e < length (grow_seq e l))%nat /\
  forall i, default 0%Z (grow_seq e l !! i) = default 0%Z (l !! i).
Proof.
  unfold grow_seq. split; [len|]. intros i. destruct (decide (i < length l)%nat).
  - by rewrite lookup_app_l.
  - rewrite lookup_app_r, (lookup_ge_None_2 l) by lia.
    destruct (decide (i - length l < Z.to_nat e + 1 - length l)%nat).
    + by rewrite lookup_replicate_2.
    + by rewrite lookup_ge_None_2 by (rewrite length_replicate; lia).
Qed.

Lemma grow_seq_Forall (P : Z -> Prop) e l : P 0%Z -> Forall P l -> Forall P (grow_seq e l).
Proof. intros. apply Forall_app. split; [done|]. by apply Forall_replicate. Qed.

(** A number is drawn from the counter of its epoch, which moves on by one,
    also when the call fails; the other counters stay. *)
Lemma next_seq_spec k e c r c' :
  (0 <= e)%Z -> (0 <= k < 2 ^ 63)%Z -> within k c -> next_seq e c = (r, c') ->
  match r with Ok s => s = counter c e /\ (s <= MaxSequenceNumber)%Z /\ within k c' | Err _ => within (k + 1) c' end /\
  (forall e', (0 <= e')%Z -> counter c' e' = if decide (e' = e) then counter c e + 1 else counter c e')%Z.
Proof.
  intros He Hk Hc. unfold next_seq. set (l := grow_seq e (localSequenceNumber c)).
  destruct (grow_seq_spec e (localSequenceNumber c)) as [Hl Hg]. fold l in Hl, Hg.
  destruct (lookup_lt_is_Some_2 l (Z.to_nat e) Hl) as [v Hv].
  assert (Ev : v = counter c e) by (unfold counter; by rewrite <- Hg, Hv).
  pose proof (within_range k c e ltac:(lia) Hc) as Hr. unfold MaxSequenceNumber in *.
  rewrite (list_lookup_total_correct _ _ _ Hv), Ev, (wrap_small 64 (_ + 1)) by lia.
  replace (counter c e + 1 - 1)%Z with (counter c e) by lia. rewrite wrap_small by lia. cbv zeta.
  assert (Hw : forall k', (counter c e + 1 <= MaxSequenceNumber + 1 + k')%Z -> (k <= k')%Z ->
    within k' (set_seq (<[Z.to_nat e:=(counter c e + 1)%Z]> l) c)).
  { intros k' Hk1 Hk2. unfold within, MaxSequenceNumber in *. simpl. apply Forall_insert; [|lia].
    apply grow_seq_Forall; [lia|]. eapply Forall_impl; [exact Hc|]. cbn beta. lia. }
  unfold MaxSequenceNumber in Hw.
  intros E. split.
  - revert E. unfold MaxSequenceNumber. case_zb; intros [= <- <-]; [apply Hw; lia|]. split_and!; [done|lia|apply Hw; lia].
  - assert (c' = set_seq (<[Z.to_nat e:=(counter c e + 1)%Z]> l) c) as ->.
    { revert E. case_zb; by intros [= _ <-]. }
    intros e' He'. unfold counter at 1. simpl. case_decide as Hd.
    + subst e'. by rewrite list_lookup_insert_eq.
    + rewrite list_lookup_insert_ne by lia. by rewrite Hg.
Qed.

(** ** Failures

    [tame m]: whatever its result, [m] takes no number back, and if it fails
    the counters are past the last number by at most one more. *)
Definition tame {A} (m : Conn C D G addr -> res derr A * Conn C D G addr) : Prop := forall k c r c',
  (0 <= k < 2 ^ 63)%Z -> within k c -> m c = (r, c') ->
  match r with Ok _ => within k c' | Err _ => within (k + 1) c' end /\ forall e, (0 <= e)%Z -> (counter c e <= counter c' e)%Z.

Lemma tame_same {A} (m : Conn C D G addr -> res derr A * Conn C D G addr) :
  (forall c, localSequenceNumber (m c).2 = localSequenceNumber c) -> tame m.
Proof.
  intros Hm k c r c' Hk Hc E. specialize (Hm c). rewrite E in Hm. cbn in Hm. unfold within, counter in *. rewrite Hm.
  split; [|done]. destruct r; [done|]. by apply (within_mono k (k + 1) c); [lia|].
Qed.

Lemma tame_bind {A B} (m : M A) (f : A -> M B) : tame m -> (forall a, tame (f a)) -> tame (bindM m f).
Proof.
  intros Hm Hf k c r c' Hk Hc. unfold bindM. destruct (m c) as [[a|e] c1] eqn:E.
  - destruct (Hm k c _ _ Hk Hc E) as [Hw Hm1]. intros E2. destruct (Hf a k c1 _ _ Hk Hw E2) as [Hw2 Hm2].
    split; [done|]. intros x Hx. etrans; [by apply Hm1|by apply Hm2].
  - intros [= <- <-]. exact (Hm k c _ _ Hk Hc E).
Qed.

Lemma tame_next_seq e : (0 <= e)%Z -> tame (next_seq e).
Proof.
  intros He k c r c' Hk Hc E. destruct (next_seq_spec k e c r c' He Hk Hc E) as [Hr Hn]. split.
  - destruct r; [by destruct Hr as (_ & _ & Hr)|done].
  - intros x Hx. rewrite Hn by done. case_decide; [subst|]; lia.
Qed.

Lemma tame_grow e c0 k : (0 <= k)%Z -> within k c0 ->
  within k (set_seq (grow_seq e (localSequenceNumber c0)) c0) /\
  forall x, counter (set_seq (grow_seq e (localSequenceNumber c0)) c0) x = counter c0 x.
Proof.
  intros Hk Hc. split; [apply grow_seq_Forall; [unfold MaxSequenceNumber; lia|done]|]. intros x. apply grow_seq_spec.
Qed.

Lemma tame_encrypt h raw : tame (encrypt h raw).
Proof. apply tame_same. intros c. unfold encrypt. destruct (cipherSuite c) as [[x|]|]; [|done..]. by destruct (rread rc_rnd (c_rand c)). Qed.

Lemma bindM_ok {A B} (m : M A) (f : A -> M B) c b c' :
  bindM m f c = (Ok b, c') -> exists a c1, m c = (Ok a, c1) /\ f a c1 = (Ok b, c').
Proof. unfold bindM. destruct (m c) as [[a|e] c1]; [|discriminate]. eauto. Qed.

Lemma lift_ok {A} (r : res derr A) c a c' : lift (C := C) (D := D) (G := G) (addr := addr) r c = (Ok a, c') -> r = Ok a /\ c' = c.
Proof. unfold lift. by intros [= -> ->]. Qed.

Lemma Header_Marshal_inv h raw : Header_Marshal h = Ok raw -> raw = header_bytes h.
Proof.
  intros E. destruct (Z.ltb_spec MaxSequenceNumber (SequenceNumber h)) as [Hl|Hl].
  - unfold Header_Marshal in E. rewrite (proj2 (Z.ltb_lt _ _)) in E by done. discriminate.
  - rewrite Header_Marshal_eq in E by done. by apply Ok_inj in E.
Qed.

(** What was marshalled is the header that is left behind and the content. *)
Lemma record_Marshal_inv r r' raw :
  record_Marshal r = Ok (r', raw) ->
  (exists body, raw = header_bytes (r_Header r') ++ body) /\ number (r_Header r') = number (r_Header r) /\
  ConnectionID (r_Header r') = ConnectionID (r_Header r).
Proof.
  unfold record_Marshal, RecordLayer_Marshal. intros E.
  destruct (match r_Content r with CHandshake _ => _ | _ => _ end) as [ct|] eqn:Ec; [|discriminate].
  assert (Ht : Content_Type ct = Content_Type (r_Content r)).
  { destruct (r_Content r); try (apply Ok_inj in Ec as <-; done).
    destruct (Handshake_Marshal h) as [[hd b]|]; [|discriminate]. cbn [res_bind] in Ec.
    by apply Ok_inj in Ec as <-. }
  cbn [res_bind] in E. destruct (Content_Marshal (r_Content r)) as [body|]; [|discriminate].
  cbn [res_bind] in E. destruct (Header_Marshal _) as [hd|] eqn:Eh; [|discriminate].
  cbn [res_bind] in E. apply Ok_inj in E. injection E as <- <-. apply Header_Marshal_inv in Eh as ->.
  cbn [r_Header ConnectionID]. rewrite Ht. split_and!; [by exists body|done|done].
Qed.

Lemma encrypt_inv h raw c r c' :
  encrypt h raw c = (Ok r, c') -> (exists p, raw = header_bytes h ++ p) ->
  (exists h' body, r = header_bytes h' ++ body /\ number h' = number h) /\
  localSequenceNumber c' = localSequenceNumber c.
Proof.
  unfold encrypt. destruct (cipherSuite c) as [[k|]|]; try discriminate.
  destruct (rread rc_rnd (c_rand c)) as [rnd g]. intros E [p ->].
  assert (Er : rc_Encrypt k h (header_bytes h ++ p) rnd = Ok r) by (by injection E).
  assert (Ec : c' = set_rand g c) by (by injection E). subst c'.
  destruct (rc_header _ _ _ _ _ Er) as [body ->]. split; [|done]. by eexists _, _.
Qed.

Ltac tame_step :=
  lazymatch goal with
  | |- tame (bindM _ _) => apply tame_bind; [|intros ?]
  | |- tame (next_seq _) => apply tame_next_seq; try done
  | |- tame (encrypt _ _) => apply tame_encrypt
  | |- tame (ret _) => by apply tame_same
  | |- tame (lift _) => by apply tame_same
  | |- tame get_conn => by apply tame_same
  | |- tame (if ?b then _ else _) => destruct b
  | |- tame (let '_ := ?x in _) => destruct x
  | |- tame (match ?x with _ => _ end) => destruct x
  end.

Lemma tame_processPacket pkt : (0 <= Epoch (r_Header (pk_record pkt)))%Z -> tame (processPacket pkt).
Proof. intros He. unfold processPacket. cbv zeta. repeat tame_step. Qed.

Lemma tame_fragments fs pkt : (0 <= Epoch (r_Header (pk_record pkt)))%Z -> tame (process_fragments fs pkt).
Proof.
  revert pkt. induction fs as [|f fs IH]; intros pkt He; [by apply tame_same|]. cbn [process_fragments]. cbv zeta.
  apply tame_bind; [by apply tame_next_seq|intros s]. apply tame_bind; [by apply tame_same|intros c0].
  set (e := Epoch (r_Header (pk_record pkt))) in *.
  intros k c r c' Hk Hc E.
  match type of E with bindM ?m ?f c = _ => assert (Hm : tame m) by (repeat tame_step);
    assert (Hh : forall a c1 c2, m c1 = (Ok a, c2) -> Epoch a.2 = e);
    [|change (match m c with (Ok a, c') => f a c' | (Err e, c') => (Err e, c') end = (r, c')) in E;
      destruct (m c) as [[[rawPacket h]|er] c1] eqn:E1] end.
  - intros a c1 c2. destruct (shouldWrapCID pkt); unfold bindM, lift, ret; destruct (Header_Marshal _); intros [= <- _]; done.
  - specialize (Hh _ _ _ E1). cbn in Hh. destruct (Hm k c _ _ Hk Hc E1) as [Hw Hm1].
    assert (Ht : tame (bindM (if shouldEncrypt pkt then encrypt h rawPacket else ret rawPacket) (fun rawPacket =>
      bindM (process_fragments fs (mkPacket (mkRecord h (r_Content (pk_record pkt))) (shouldEncrypt pkt) (shouldWrapCID pkt)))
        (fun '(raws, pkt) => ret (rawPacket :: raws, pkt))))).
    { apply tame_bind; [repeat tame_step|intros ?]. apply tame_bind; [apply IH; cbn; lia|intros []; by apply tame_same]. }
    destruct (Ht k c1 r c' Hk Hw E) as [Hw2 Hm2]. split; [done|]. intros x Hx. etrans; [by apply Hm1|by apply Hm2].
  - injection E as <- <-. exact (Hm k c _ _ Hk Hc E1).
Qed.

Lemma tame_processHandshakePacket pkt hs : (0 <= Epoch (r_Header (pk_record pkt)))%Z -> tame (processHandshakePacket pkt hs).
Proof.
  intros He. unfold processHandshakePacket. apply tame_bind; [by apply tame_same|intros c0]. apply tame_bind; [repeat tame_step|intros frs].
  cbv zeta. apply tame_bind; [|intros _; by apply tame_fragments].
  intros k c r c' Hk Hc [= <- <-]. destruct (tame_grow (Epoch (r_Header (pk_record pkt))) c k ltac:(lia) Hc) as [Hw Hx].
  split; [done|]. intros x _. rewrite Hx. lia.
Qed.

Definition epoch_ok pkt : Prop := (0 <= Epoch (r_Header (pk_record pkt)))%Z.

Lemma tame_process_packets pkts : Forall epoch_ok pkts -> tame (process_packets pkts).
Proof.
  induction 1 as [|pkt pkts He _ IH]; [by apply tame_same|]. cbn [process_packets].
  apply tame_bind; [|intros [raws p]; apply tame_bind; [done|intros []; by apply tame_same]].
  destruct (r_Content (pk_record pkt)).
  1,2,4: apply tame_bind; [by apply tame_processPacket|intros []; by apply tame_same].
  intros k c r c' Hk Hc E. unfold bindM at 1, lift in E. destruct (record_Marshal (pk_record pkt)) as [[rec raw]|er] eqn:Er.
  2:{ injection E as <- <-. split; [by apply (within_mono k); [lia|]|done]. }
  apply record_Marshal_inv in Er as (_ & Hn & _). injection Hn as Hn _. revert k c r c' Hk Hc E.
  change (tame (match r_Content rec with
    | CHandshake hs => bindM (lift (from FixedHeaderSize raw)) (fun data => bindM (fun c => (Ok tt, set_cache
                   (cache_push (hsCache c) data (Epoch (r_Header rec)) (MessageSequence (hsk_Header hs))
                      (hs_Type (hsk_Header hs)) (isClient c)) c)) (fun _ =>
                 processHandshakePacket (mkPacket rec (shouldEncrypt pkt) (shouldWrapCID pkt)) hs))
    | _ => lift (Err Panic) end)).
  destruct (r_Content rec); try by apply tame_same.
  apply tame_bind; [by apply tame_same|intros data]. apply tame_bind; [by apply tame_same|intros _].
  apply tame_processHandshakePacket. cbn. unfold epoch_ok in He. lia.
Qed.

(** What a step that emits the records [hs] does to the counters. *)
Definition advanced c c' (hs : list Header) : Prop :=
  NoDup (map number hs) /\
  Forall (fun h => 0 <= Epoch h /\ counter c (Epoch h) <= SequenceNumber h < counter c' (Epoch h) /\
                   SequenceNumber h <= MaxSequenceNumber)%Z hs /\
  forall e, (0 <= e)%Z -> (counter c e <= counter c' e)%Z.

Lemma advanced_none c c' : (forall e, (0 <= e)%Z -> (counter c e <= counter c' e)%Z) -> advanced c c' [].
Proof. intros E. split_and!; [constructor..|done]. Qed.

Lemma advanced_app c c1 c2 hs ks : advanced c c1 hs -> advanced c1 c2 ks -> advanced c c2 (hs ++ ks).
Proof.
  intros (Hn1 & Hf1 & Hm1) (Hn2 & Hf2 & Hm2). split_and!.
  - rewrite map_app. apply NoDup_app. split_and!; [done| |done].
    intros x Hx Hy. apply list_elem_of_fmap in Hx as (h & -> & Hh).
    apply list_elem_of_fmap in Hy as (k & E & Hk).
    rewrite Forall_forall in Hf1, Hf2. apply Hf1 in Hh. apply Hf2 in Hk. injection E as E1 E2.
    rewrite E1, E2 in Hh. lia.
  - apply Forall_app. split.
    + eapply Forall_impl; [exact Hf1|]. intros h (He & Hh). split; [done|]. specialize (Hm2 _ He). lia.
    + eapply Forall_impl; [exact Hf2|]. intros h (He & Hh). split; [done|]. specialize (Hm1 _ He). lia.
  - intros e He. etrans; [by apply Hm1|by apply Hm2].
Qed.

Lemma advanced_one k c c1 c2 e s h :
  (0 <= e)%Z -> (0 <= k < 2 ^ 63)%Z -> within k c -> next_seq e c = (Ok s, c1) ->
  localSequenceNumber c2 = localSequenceNumber c1 -> number h = (e, s) -> advanced c c2 [h].
Proof.
  intros He Hk Hc Hs E2 Hn. destruct (next_seq_spec _ _ _ _ _ He Hk Hc Hs) as ((-> & Hm & Hc1) & Hcnt).
  injection Hn as E1 E3.
  assert (K : forall x, counter c2 x = counter c1 x) by (intros; unfold counter; by rewrite E2).
  split_and!; [apply NoDup_singleton| |].
  - apply Forall_singleton. rewrite E1, E3, K, Hcnt, decide_True by done. lia.
  - intros x Hx. rewrite K, Hcnt by done. case_decide; [subst; lia|lia].
Qed.

Lemma processPacket_advances k pkt c raw pkt' c' :
  (0 <= Epoch (r_Header (pk_record pkt)))%Z -> (0 <= k < 2 ^ 63)%Z -> within k c ->
  processPacket pkt c = (Ok (raw, pkt'), c') ->
  exists h body, raw = header_bytes h ++ body /\ advanced c c' [h].
Proof.
  intros He Hk Hc E. unfold processPacket in E.
  apply bindM_ok in E as (s & c1 & Hs & E).
  apply bindM_ok in E as (c1' & ? & E1 & E). injection E1 as <- <-.
  apply bindM_ok in E as ([rawP r] & c2 & E2 & E).
  assert (Hmid : (exists p, rawP = header_bytes (r_Header r) ++ p) /\
    number (r_Header r) = (Epoch (r_Header (pk_record pkt)), s) /\ c2 = c1).
  { destruct (shouldWrapCID pkt).
    - apply bindM_ok in E2 as ([r1 raw1] & c3 & E3 & E2). apply lift_ok in E3 as [E3 ->].
      apply record_Marshal_inv in E3 as (_ & Hn & _).
      apply bindM_ok in E2 as (content & c4 & E4 & E2). apply lift_ok in E4 as [_ ->].
      apply bindM_ok in E2 as (hd & c5 & E5 & E2). apply lift_ok in E5 as [E5 ->].
      apply Header_Marshal_inv in E5 as ->. injection E2 as <- <- <-.
      split_and!; [by eexists|exact Hn|done].
    - apply bindM_ok in E2 as ([r1 raw1] & c3 & E3 & E2). apply lift_ok in E3 as [E3 ->].
      apply record_Marshal_inv in E3 as (Hb & Hn & _). injection E2 as <- <- <-.
      split_and!; [exact Hb|exact Hn|done]. }
  destruct Hmid as (Hb & Hn & ->).
  apply bindM_ok in E as (rawE & c3 & E3 & E). injection E as <- _ <-.
  destruct (shouldEncrypt pkt).
  - destruct (encrypt_inv _ _ _ _ _ E3 Hb) as [(h' & body & -> & Hn') Hl].
    exists h', body. split; [done|]. apply (advanced_one k _ _ _ _ _ _ He Hk Hc Hs Hl). by rewrite Hn', Hn.
  - injection E3 as <- <-. destruct Hb as [body ->]. exists (r_Header r), body. split; [done|].
    by eapply (advanced_one k).
Qed.

(** [emits raws hs]: the raw records have these headers. *)
Definition emits (raws : list bytes) (hs : list Header) : Prop :=
  Forall2 (fun r h => exists body, r = header_bytes h ++ body) raws hs.

(** One fragment: the record it becomes, and the header the packet keeps. *)
Lemma fragment_step f fs pkt c raws pkt' c' :
  process_fragments (f :: fs) pkt c = (Ok (raws, pkt'), c') ->
  let h := r_Header (pk_record pkt) in
  exists s c1 c2 raw rest pkt1,
    raws = raw :: rest /\ next_seq (Epoch h) c = (Ok s, c1) /\
    localSequenceNumber c2 = localSequenceNumber c1 /\
    (exists h' body, raw = header_bytes h' ++ body /\
       number h' = (Epoch h, if shouldWrapCID pkt then SequenceNumber h else s)) /\
    Epoch (r_Header (pk_record pkt1)) = Epoch h /\ shouldWrapCID pkt1 = shouldWrapCID pkt /\
    (shouldWrapCID pkt = true -> SequenceNumber (r_Header (pk_record pkt1)) = SequenceNumber h) /\
    process_fragments fs pkt1 c2 = (Ok (rest, pkt'), c').
Proof.
  intros E h. cbn [process_fragments] in E. fold h in E.
  apply bindM_ok in E as (s & c1 & Hs & E).
  apply bindM_ok in E as (c1' & ? & E1 & E). injection E1 as <- <-.
  apply bindM_ok in E as ([rawP h1] & c2 & E2 & E).
  assert (Hmid : (exists p, rawP = header_bytes h1 ++ p) /\ c2 = c1 /\
    number h1 = (Epoch h, if shouldWrapCID pkt then SequenceNumber h else s)).
  { destruct (shouldWrapCID pkt); apply bindM_ok in E2 as (hd & c3 & E3 & E2);
      apply lift_ok in E3 as [E3 ->]; apply Header_Marshal_inv in E3 as ->; injection E2 as <- <- <-;
      (split; [by eexists|]); by split. }
  destruct Hmid as (Hb & -> & Hn).
  apply bindM_ok in E as (raw & c3 & E3 & E).
  assert (Hraw : (exists h' body, raw = header_bytes h' ++ body /\ number h' = number h1) /\
    localSequenceNumber c3 = localSequenceNumber c1).
  { destruct (shouldEncrypt pkt); [by eapply encrypt_inv|]. injection E3 as <- <-.
    destruct Hb as [p ->]. split; [by eexists _, _|done]. }
  destruct Hraw as [(h' & body & -> & Hn') Hl].
  apply bindM_ok in E as ([rest pkt2] & c4 & E4 & E). injection E as <- <- <-.
  exists s, c1, c3, (header_bytes h' ++ body), rest,
    (mkPacket (mkRecord h1 (r_Content (pk_record pkt))) (shouldEncrypt pkt) (shouldWrapCID pkt)).
  split_and!; try done.
  - exists h', body. by rewrite Hn', Hn.
  - simpl. by injection Hn.
  - simpl. intros Hw. rewrite Hw in Hn. by injection Hn.
Qed.

Lemma process_fragments_advances k fs pkt c raws pkt' c' :
  (0 <= Epoch (r_Header (pk_record pkt)))%Z -> shouldWrapCID pkt = false -> (0 <= k < 2 ^ 63)%Z -> within k c ->
  process_fragments fs pkt c = (Ok (raws, pkt'), c') ->
  exists hs, emits raws hs /\ advanced c c' hs.
Proof.
  intros He Hw Hk. revert pkt c raws He Hw. induction fs as [|f fs IH]; intros pkt c raws He Hw Hc E.
  - injection E as <- <- <-. exists []. split; [constructor|by apply advanced_none].
  - apply fragment_step in E as (s & c1 & c2 & raw & rest & pkt1 & -> & Hs & Hl & (h' & body & -> & Hn)
      & E1 & E2 & _ & E). rewrite Hw in *.
    pose proof (advanced_one k _ _ _ _ _ _ He Hk Hc Hs Hl Hn) as HA.
    destruct (next_seq_spec _ _ _ _ _ He Hk Hc Hs) as [(_ & _ & Hc1) _].
    destruct (IH pkt1 c2 rest) as (hs & Hem & HA2); [by rewrite E1|by rewrite E2|unfold within; by rewrite Hl|done|].
    exists (h' :: hs). split; [by constructor; [eexists|]|]. apply (advanced_app _ _ _ [h'] hs HA HA2).
Qed.

(** With a connection identifier every fragment has the packet's number. *)
Lemma wrapped_fragments_number fragments pkt raws pkt' c c' :
  shouldWrapCID pkt = true -> process_fragments fragments pkt c = (Ok (raws, pkt'), c') ->
  exists hs, emits raws hs /\ length hs = length fragments /\
    Forall (fun h => number h = number (r_Header (pk_record pkt))) hs.
Proof.
  revert pkt c raws. induction fragments as [|f fs IH]; intros pkt c raws Hw E.
  - injection E as <- <- <-. exists []. split_and!; [constructor|done|constructor].
  - apply fragment_step in E as (s & c1 & c2 & raw & rest & pkt1 & -> & _ & _ & (h' & body & -> & Hn)
      & E1 & E2 & E3 & E). rewrite Hw in *. specialize (E3 eq_refl).
    destruct (IH pkt1 c2 rest E2 E) as (hs & Hem & Hl & Hf). exists (h' :: hs).
    split_and!; [by constructor; [eexists|]|simpl; lia|]. constructor; [done|].
    eapply Forall_impl; [exact Hf|]. intros h ->. unfold number. by rewrite E1, E3.
Qed.

Definition wraps_handshake pkt : bool :=
  shouldWrapCID pkt && match r_Content (pk_record pkt) with CHandshake _ => true | _ => false end.

Lemma advanced_grow e c c0 c' hs :
  localSequenceNumber c0 = grow_seq e (localSequenceNumber c) -> advanced c0 c' hs -> advanced c c' hs.
Proof.
  intros E0. assert (K : forall x, counter c0 x = counter c x).
  { intros x. unfold counter. rewrite E0. apply grow_seq_spec. }
  intros (? & Hf & Hm). split_and!; [done| |].
  - eapply Forall_impl; [exact Hf|]. intros h Hh. cbn beta in *. by rewrite K in Hh.
  - intros x Hx. rewrite <- K. by apply Hm.
Qed.

(** The records of one packet. *)
Definition numbered_as pkt c c' (hs : list Header) : Prop :=
  if wraps_handshake pkt then Forall (fun h => number h = number (r_Header (pk_record pkt))) hs else advanced c c' hs.

Lemma handshake_numbers k pkt hs c raws pkt' c' :
  (0 <= Epoch (r_Header (pk_record pkt)))%Z -> (0 <= k < 2 ^ 63)%Z -> within k c ->
  processHandshakePacket pkt hs c = (Ok (raws, pkt'), c') ->
  exists hds, emits raws hds /\
    if shouldWrapCID pkt then Forall (fun h => number h = number (r_Header (pk_record pkt))) hds else advanced c c' hds.
Proof.
  intros He Hk Hc E. unfold processHandshakePacket in E.
  apply bindM_ok in E as (c6 & ? & E6 & E). injection E6 as <- <-.
  apply bindM_ok in E as (frs & c7 & E7 & E).
  destruct (hsk_Message hs) as [m|]; [|discriminate]. apply lift_ok in E7 as [_ ->].
  apply bindM_ok in E as (? & c8 & E8 & E). injection E8 as _ <-.
  destruct (shouldWrapCID pkt) eqn:Hw.
  - apply wrapped_fragments_number in E as (hds & Hem & _ & Hf); [|done]. by exists hds.
  - apply (process_fragments_advances k) in E as (hds & Hem & HA); [|done..|apply tame_grow; [lia|done]].
    exists hds. split; [done|]. by eapply advanced_grow, HA.
Qed.

Lemma packet_numbers k pkt c raws pkts' c' :
  epoch_ok pkt -> (0 <= k < 2 ^ 63)%Z -> within k c ->
  process_packets [pkt] c = (Ok (raws, pkts'), c') -> exists hs, emits raws hs /\ numbered_as pkt c c' hs.
Proof.
  intros He Hk Hc E. cbn [process_packets] in E. apply bindM_ok in E as ([raws1 pkt1] & c1 & E1 & E).
  apply bindM_ok in E as ([rest pkts1] & c2 & E2 & E). injection E2 as <- <- <-. injection E as <- _ <-. rewrite app_nil_r.
  unfold numbered_as, wraps_handshake. destruct (r_Content (pk_record pkt)) eqn:Ect.
  1,2,4: rewrite andb_false_r; apply bindM_ok in E1 as ([raw p1] & c3 & E3 & E1); injection E1 as <- <- <-;
    apply (processPacket_advances k) in E3 as (h' & body & -> & HA); [|done..];
    exists [h']; split; [by repeat econstructor|done].
  rewrite andb_true_r. apply bindM_ok in E1 as ([r raw] & c3 & E3 & E1). apply lift_ok in E3 as [E3 ->].
  apply record_Marshal_inv in E3 as (_ & Hn & _).
  destruct (r_Content r) as [| |hs|]; try discriminate.
  apply bindM_ok in E1 as (data & c4 & E4 & E1). apply lift_ok in E4 as [_ ->].
  apply bindM_ok in E1 as (? & c5 & E5 & E1). injection E5 as _ <-.
  apply (handshake_numbers k) in E1 as (hds & Hem & Hd); [|cbn; injection Hn as -> _; done|done|done].
  exists hds. split; [done|]. cbn [shouldWrapCID pk_record] in Hd. by rewrite Hn in Hd.
Qed.

(** What [process_packets] makes of every packet. *)
Fixpoint per_packet (pkts : list packet) c : list (packet * list bytes) :=
  match pkts with
  | [] => []
  | pkt :: pkts => match process_packets [pkt] c with
                   | (Ok (raws, _), c1) => (pkt, raws) :: per_packet pkts c1
                   | (Err _, _) => []
                   end
  end.

Lemma process_packets_cons pkt pkts c raws pkts' c' :
  process_packets (pkt :: pkts) c = (Ok (raws, pkts'), c') ->
  exists raws1 p1 c1 rest ps, process_packets [pkt] c = (Ok (raws1, p1), c1) /\
    process_packets pkts c1 = (Ok (rest, ps), c') /\ raws = raws1 ++ rest.
Proof.
  cbn [process_packets]. intros E. apply bindM_ok in E as ([raws1 p1] & c1 & E1 & E).
  apply bindM_ok in E as ([rest ps] & c2 & E2 & E). injection E as <- _ <-.
  exists (raws1 ++ []), [p1], c1, rest, ps. split_and!; [|done|by rewrite app_nil_r]. unfold bindM at 1. by rewrite E1.
Qed.

Lemma per_packet_raws pkts c raws pkts' c' :
  process_packets pkts c = (Ok (raws, pkts'), c') -> raws = concat (per_packet pkts c).*2 /\ (per_packet pkts c).*1 = pkts.
Proof.
  revert c raws pkts'. induction pkts as [|pkt pkts IH]; intros c raws pkts' E; [by injection E as <- _ _|].
  apply process_packets_cons in E as (raws1 & p1 & c1 & rest & ps & E1 & E2 & ->). cbn [per_packet]. rewrite E1.
  destruct (IH _ _ _ E2) as [-> Hp]. split; [done|]. cbn. by rewrite Hp.
Qed.

(** The headers of the records of packets that draw their own numbers. *)
Definition own (recs : list (packet * list Header)) : list Header :=
  concat (filter (fun r => wraps_handshake r.1 = false) recs).*2.

Definition headers_of (out : list (packet * list bytes)) (recs : list (packet * list Header)) : Prop :=
  Forall2 (fun o r => o.1 = r.1 /\ emits o.2 r.2) out recs.

Definition keeps_number (r : packet * list Header) : Prop :=
  wraps_handshake r.1 = true -> Forall (fun h => number h = number (r_Header (pk_record r.1))) r.2.

Lemma own_cons r recs : own (r :: recs) = if wraps_handshake r.1 then own recs else r.2 ++ own recs.
Proof.
  unfold own. rewrite filter_cons. destruct (wraps_handshake r.1); [rewrite decide_False by done|rewrite decide_True by done]; done.
Qed.

Lemma own_app r1 r2 : own (r1 ++ r2) = own r1 ++ own r2.
Proof. unfold own. by rewrite filter_app, fmap_app, concat_app. Qed.

Lemma process_packets_advances k pkts c raws pkts' c' :
  Forall epoch_ok pkts -> (0 <= k < 2 ^ 63)%Z -> within k c -> process_packets pkts c = (Ok (raws, pkts'), c') ->
  exists recs, headers_of (per_packet pkts c) recs /\ Forall keeps_number recs /\ advanced c c' (own recs).
Proof.
  intros Hall Hk. revert c raws pkts'. induction Hall as [|pkt pkts He Hall IH]; intros c raws pkts' Hc E.
  { injection E as <- <- <-. exists []. split_and!; [constructor..|by apply advanced_none]. }
  apply process_packets_cons in E as (raws1 & p1 & c1 & rest & ps & E1 & E2 & ->). cbn [per_packet]. rewrite E1.
  destruct (tame_process_packets [pkt] ltac:(by constructor) k c _ _ Hk Hc E1) as [Hc1 Hmono].
  destruct (packet_numbers k pkt c raws1 p1 c1 He Hk Hc E1) as (hs & Hem & Hd).
  destruct (IH c1 rest ps Hc1 E2) as (recs & Hr & Hkn & HA). exists ((pkt, hs) :: recs). unfold numbered_as in Hd. split_and!.
  - by constructor.
  - constructor; [|done]. unfold keeps_number. cbn. intros Hw. by rewrite Hw in Hd.
  - rewrite own_cons. cbn [fst snd]. destruct (wraps_handshake pkt); [|by eapply advanced_app].
    exact (advanced_app _ _ _ [] _ (advanced_none c c1 Hmono) HA).
Qed.

(** The records a call of [writePackets] hands to the transport, by packet: a
    call that fails before that drops them, but the numbers are used. *)
Definition records (pkts : list packet) c : list (packet * list bytes) :=
  match process_packets pkts c with (Ok _, _) => per_packet pkts c | (Err _, _) => [] end.

(** A history of [n] calls of [writePackets], of any packets and with any
    outcome.  Whatever else happens to the connection in between, the counters
    are only moved by writing. *)
Inductive written : nat -> Conn C D G addr -> list (packet * list bytes) -> Conn C D G addr -> Prop :=
  | written_nil c : written 0 c [] c
  | written_cons n c pkts r c1 c2 rest c3 :
      Forall epoch_ok pkts -> writePackets pkts c = (r, c1) ->
      localSequenceNumber c2 = localSequenceNumber c1 ->
      written n c2 rest c3 -> written (S n) c (records pkts c ++ rest) c3.

Lemma write_datagrams_seq ds c : localSequenceNumber (write_datagrams ds c).2 = localSequenceNumber c.
Proof.
  revert c. induction ds as [|d ds IH]; intros c; [done|]. cbn [write_datagrams].
  destruct (c_faults c) as [|[e|] fs]; [by rewrite IH|done|by rewrite IH].
Qed.

Lemma writePackets_seq pkts c :
  localSequenceNumber (writePackets pkts c).2 = localSequenceNumber (process_packets pkts c).2.
Proof.
  unfold writePackets. destruct (process_packets pkts c) as [[[raws ps]|e] c1]; [|done]. destruct (is_nil raws); [done|].
  pose proof (write_datagrams_seq (compactRawPackets (maximumTransmissionUnit c1) raws) c1) as Hw.
  by destruct (write_datagrams _ c1) as [[e|] c2].
Qed.

(** One call: the counters and the numbers. *)
Lemma call_advances k pkts c :
  Forall epoch_ok pkts -> (0 <= k < 2 ^ 63)%Z -> within k c ->
  within (k + 1) (writePackets pkts c).2 /\
  exists recs, headers_of (records pkts c) recs /\ Forall keeps_number recs /\ advanced c (writePackets pkts c).2 (own recs).
Proof.
  intros Hall Hk Hc. pose proof (writePackets_seq pkts c) as Hs. unfold records, advanced, within, counter in *. rewrite Hs.
  destruct (process_packets pkts c) as [[[raws ps]|e] c1] eqn:E; cbn [snd].
  - split; [|exact (process_packets_advances k pkts c raws ps c1 Hall Hk Hc E)].
    apply (within_mono k (k + 1) c1); [lia|]. by destruct (tame_process_packets pkts Hall k c _ _ Hk Hc E).
  - destruct (tame_process_packets pkts Hall k c _ _ Hk Hc E) as [Hw Hm]. split; [done|]. exists [].
    split_and!; [constructor..|done].
Qed.

Lemma advanced_seq c c1 c2 hs : localSequenceNumber c2 = localSequenceNumber c1 -> advanced c c1 hs -> advanced c c2 hs.
Proof. intros E HA. unfold advanced, counter in *. by rewrite E. Qed.

Lemma written_advances n k c out c' :
  written n c out c' -> (0 <= k)%Z -> (k + Z.of_nat n <= 2 ^ 63)%Z -> within k c ->
  exists recs, headers_of out recs /\ Forall keeps_number recs /\ advanced c c' (own recs).
Proof.
  intros Hw. revert k. induction Hw as [c|n c pkts r c1 c2 rest c3 Hall E El Hw IH]; intros k Hk Hn Hc.
  - exists []. split_and!; [constructor..|by apply advanced_none].
  - destruct (call_advances k pkts c Hall ltac:(lia) Hc) as (Hc1 & recs & Hr & Hkn & HA). rewrite E in Hc1, HA. cbn [snd] in Hc1, HA.
    destruct (IH (k + 1)%Z) as (recs2 & Hr2 & Hkn2 & HA2); [lia|lia|unfold within; by rewrite El|].
    exists (recs ++ recs2). split_and!; [by apply Forall2_app|by apply Forall_app|]. rewrite own_app.
    eapply advanced_app; [|exact HA2]. by eapply advanced_seq.
Qed.
End numbers.

(** ** Instances to run the definitions *)

(** A detector that remembers every number. *)
#[export, refine] Instance list_detector : ReplayDetector (list Z) := {|
  rd_New _ _ := [];
  rd_ok d s := bool_decide (s ∉ d);
  rd_accept d s := (s :: d, forallb (fun t => (t <? s)%Z) d);
  rd_seen d s := s ∈ d
|}.
Proof.
  - intros. apply list_elem_of_here.
  - intros. by apply list_elem_of_further.
  - intros d s Hs. by apply bool_decide_eq_true in Hs.
Defined.

Definition toy_suite : AeadCipher (ccm12 Z) :=
  let k := mkCcm12 Z (mkCcm 5%Z 8 3) ltac:(simpl; lia) eq_refl in
  mkAead k k (replicate 4 (z2b 1)) (replicate 4 (z2b 1)) 8.

(** A connection in a given epoch, with the suite ready and a connection
    identifier for both directions. *)
Definition toy_conn (epoch : Z) (cid : bytes) : Conn (AeadCipher (ccm12 Z)) (list Z) Z nat :=
  mkConn true epoch epoch [] (Some (Some toy_suite)) cid cid [] 64 newFragmentBuffer [] [] 7%nat 1200
    (fun _ => 0%nat) true [] [] [] 1%Z.


Definition close_packet (e : Z) : packet :=
  mkPacket (mkRecord (mkHeader 0 0 Version1_2 e 0 []) (CAlert (mkAlert alert_Warning alert_CloseNotify))) true false.

Definition finished_packet : packet :=
  mkPacket (mkRecord (mkHeader ContentTypeHandshake 0 Version1_2 1 0 [])
    (CHandshake (mkHandshake (mkHsHeader TypeFinished 12 3 0 12)
       (Some (MFinished (mkFinished (replicate 12 (z2b 4))))) 0))) true true.

(** Two alerts, a write that fails because the message cannot be marshalled,
    and a wrapped handshake message. *)
Definition broken_packet : packet := mkPacket (mkRecord (mkHeader 0 0 Version1_2 1 0 []) (CHandshake (mkHandshake (mkHsHeader 0 0 0 0 0) None 0))) true false.


(** every fragment of a handshake message that is wrapped with a
    connection identifier gets the sequence number the packet already had,
    however many numbers are drawn: fragments of one message share a number,
    and so does a retransmission of it. *)
Theorem cid_fragments_share_number {C D G addr} `{Cryptobyte} `{RecordCipher C} `{ReplayDetector D} `{Rand G}
    `{EqDecision addr} fragments pkt raws pkt' (c c' : Conn C D G addr) :
  shouldWrapCID pkt = true -> process_fragments fragments pkt c = (Ok (raws, pkt'), c') ->
  exists hs, emits raws hs /\ length hs = length fragments /\
    Forall (fun h => number h = number (r_Header (pk_record pkt))) hs.
Proof. apply wrapped_fragments_number. Qed.

Lemma cid_fragments_share_number_witness :
  exists raws pkt' c', process_fragments [[z2b 1]; [z2b 2]] finished_packet (toy_conn 1 [z2b 9])
      = (Ok (raws, pkt'), c') /\
    exists hs, emits raws hs /\ length hs = 2%nat /\ Forall (fun h => number h = (1%Z, 0%Z)) hs.
Proof.
  destruct (process_fragments [[z2b 1]; [z2b 2]] finished_packet (toy_conn 1 [z2b 9]))
    as [[[raws pkt']|e] c'] eqn:E; [|vm_compute in E; discriminate].
  exists raws, pkt', c'. split; [reflexivity|].
  exact (cid_fragments_share_number [[z2b 1]; [z2b 2]] finished_packet raws pkt' _ c' eq_refl E).
Defined.
