(* ===== verification/DtlsSession.v ===== *)
(** * DTLS connections: what is received

    Theorems on the receiving side of [DtlsConn] and on both sides together:
    which datagrams change what, that no input stops the program, that data
    is delivered once and only after decryption, that what one connection
    writes the other reads, and what happens to packets queued across
    datagrams. *)

From S2P Require Import Prelude IO DtlsWire DtlsExt DtlsHandshake DtlsFragment DtlsCrypto DtlsConn.
Open Scope np_scope.

#[local] Arguments be_put : simpl never.

(** ** Decoders on the path *)

Lemma safe_Header h0 data : safe (Header_Unmarshal h0 data).
Proof. unfold Header_Unmarshal, FixedHeaderSize. safe_steps. Qed.

Lemma BigEndianUint24_range l : (0 <= BigEndianUint24 l < 2 ^ 24)%Z.
Proof.
  destruct l as [|a [|b [|c l]]]; [unfold BigEndianUint24; rewrite decide_True by (simpl; lia); lia..|].
  rewrite BigEndianUint24_eq. exact (be_get_range [a; b; c]).
Qed.

Lemma HsHeader_length_range data h : HsHeader_Unmarshal data = Ok h -> (0 <= hs_Length h < 2 ^ 24)%Z.
Proof.
  unfold HsHeader_Unmarshal. intros E.
  repeat (match type of E with context [res_bind ?m _] => destruct m; [|discriminate] end; cbn [res_bind] in E).
  apply Ok_inj in E as <-. apply BigEndianUint24_range.
Qed.

(** [push] neither panics nor loops: every turn consumes a handshake header. *)
Lemma push_loop_safe fuel rh buf rt f :
  (length buf <= fuel)%nat -> safe (fst (push_loop fuel rh buf rt f)).
Proof.
  revert rh buf rt f. induction fuel as [|fuel IH]; intros rh buf rt f Hl.
  - destruct buf; simpl in Hl; [|lia]. simpl. by split.
  - cbn [push_loop]. destruct (is_nil buf); [by split|].
    pose proof (safe_HsHeader buf) as Hs.
    destruct (HsHeader_Unmarshal buf) as [hh|e] eqn:E.
    2:{ simpl. destruct Hs as [H1 H2]. split; intros [= ->]; done. }
    cbv zeta. apply IH. pose proof (HsHeader_Unmarshal_len _ _ E). pose proof (HsHeader_length_range _ _ E).
    unfold HeaderLength. rewrite wrap_small by lia.
    rewrite length_drop. destruct (Nat.ltb_spec (length buf) (Z.to_nat (Z.of_nat 12 + hs_Length hh))); lia.
Qed.

Lemma push_safe f buf : safe (fst (push f buf)).
Proof.
  unfold push. destruct (_ <=? _)%nat; [by split|].
  pose proof (safe_Header zero_Header buf) as Hs.
  destruct (Header_Unmarshal zero_Header buf) as [rh|e] eqn:E.
  - destruct (negb _); [by split|]. apply push_loop_safe. rewrite length_drop. lia.
  - simpl. destruct Hs as [H1 H2]. split; intros [= ->]; done.
Qed.

(** A record that [push] passes on is not a handshake record. *)
Lemma push_passes f buf rtx f' :
  push f buf = (Ok (false, rtx), f') ->
  f' = f /\ exists rh, Header_Unmarshal zero_Header buf = Ok rh /\ ContentType rh <> ContentTypeHandshake.
Proof.
  assert (HL : forall fuel rh b rt g r g', push_loop fuel rh b rt g = (Ok r, g') -> fst r = true).
  { induction fuel as [|fuel IH]; intros rh b rt g r g'; cbn [push_loop];
      (destruct (is_nil b); [by intros [= <- _]|]); [discriminate|].
    destruct (HsHeader_Unmarshal b); [|discriminate]. apply IH. }
  unfold push. destruct (_ <=? _)%nat; [discriminate|].
  destruct (Header_Unmarshal zero_Header buf) as [rh|e]; [|discriminate].
  destruct (Z.eqb_spec (ContentType rh) ContentTypeHandshake) as [E|E]; cbn [negb].
  - intros Hp. apply HL in Hp. discriminate.
  - intros [= _ <-]. split; [done|]. by exists rh.
Qed.

Lemma Header_Unmarshal_len h0 data h :
  Header_Unmarshal h0 data = Ok h -> (13 <= length data)%nat /\ length (ConnectionID h) = length (ConnectionID h0).
Proof.
  unfold Header_Unmarshal, FixedHeaderSize.
  destruct (Nat.ltb_spec (length data) 13) as [Hl|Hl]; [discriminate|]. cbn [negb ensure res_bind].
  destruct (idx 0 data) as [ct|]; [|discriminate]. cbn [res_bind].
  destruct (if (ct =? ContentTypeConnectionID)%Z then _ else _) as [cid|] eqn:Ecid; [|discriminate].
  assert (Hc : length cid = length (ConnectionID h0)).
  { destruct (ct =? ContentTypeConnectionID)%Z; [|by apply Ok_inj in Ecid as <-].
    destruct (Nat.ltb_spec (length data) (13 + length (ConnectionID h0))) as [H2|H2]; [discriminate|].
    cbn [negb ensure res_bind] in Ecid. unfold sub in Ecid. case_decide; [|discriminate].
    apply Ok_inj in Ecid as <-. rewrite length_slice; lia. }
  cbn [res_bind]. intros E.
  repeat (match type of E with context [res_bind ?m _] => destruct m; [|discriminate] end; cbn [res_bind] in E).
  apply Ok_inj in E as <-. done.
Qed.

Lemma RecordLayer_Unmarshal_passes `{Cryptobyte} f buf rtx f' :
  push f buf = (Ok (false, rtx), f') ->
  RecordLayer_Unmarshal zero_Header buf <> Err Panic /\
  forall r, RecordLayer_Unmarshal zero_Header buf = Ok r ->
    match r_Content r with CHandshake _ => False | _ => True end.
Proof.
  intros Hp. apply push_passes in Hp as [_ (rh & Hh & Hne)].
  destruct (Header_Unmarshal_len _ _ _ Hh) as [Hl Hc]. unfold RecordLayer_Unmarshal. rewrite Hh. cbn [res_bind].
  rewrite from_ok by (unfold Header_Size, FixedHeaderSize; rewrite Hc; simpl; lia). cbn [res_bind].
  set (b := drop _ buf).
  destruct (Z.eqb_spec (ContentType rh) ContentTypeChangeCipherSpec) as [E1|E1].
  { assert (Hs : safe (ChangeCipherSpec_Unmarshal b)) by (unfold ChangeCipherSpec_Unmarshal; safe_steps).
    destruct (ChangeCipherSpec_Unmarshal b); cbn [res_bind].
    - split; [done|]. by intros r [= <-].
    - split; [intros [= ->]; by destruct Hs|done]. }
  destruct (Z.eqb_spec (ContentType rh) ContentTypeAlert) as [E2|E2].
  { assert (Hs : safe (Alert_Unmarshal b)).
    { unfold Alert_Unmarshal. destruct (Nat.eqb_spec (length b) 2); simpl; [|by split]. safe_steps. }
    destruct (Alert_Unmarshal b); cbn [res_bind].
    - split; [done|]. by intros r [= <-].
    - split; [intros [= ->]; by destruct Hs|done]. }
  destruct (Z.eqb_spec (ContentType rh) ContentTypeHandshake); [done|].
  destruct (Z.eqb_spec (ContentType rh) ContentTypeApplicationData) as [E4|E4].
  - cbn [ApplicationData_Unmarshal res_bind]. split; [done|]. by intros r [= <-].
  - by split.
Qed.

(** ** What a packet changes *)

Section receive.
Context {C D G addr : Type} `{Cryptobyte} `{RecordCipher C} `{ReplayDetector D} `{Rand G} `{EqDecision addr}.
Implicit Types (c : Conn C D G addr) (h : Header) (ref : bufref).

(** The number [s] of epoch [e] was accepted before. *)
Definition seen c (e s : Z) : Prop := exists d, replayDetector c !! Z.to_nat e = Some d /\ rd_seen d s.

Definition ready c : Prop := exists k, cipherSuite c = Some (Some k).

(** The effects of handling a record with header [h] that came from [a] as
    slice [ref]: the suite stays; at most one payload is delivered, under a
    fresh number that is then taken; the epoch moves by one, from the epoch
    of the record and with keys; at most this packet is queued, within the
    bound; accepted numbers stay accepted. *)
Record effects h (a : addr) ref (enqueue : bool) c c' : Prop := {
  ef_suite : cipherSuite c' = cipherSuite c;
  ef_cid : localConnectionID c' = localConnectionID c;
  ef_data : decrypted c' = decrypted c \/
    ((exists data, decrypted c' = decrypted c ++ [data]) /\ (0 < Epoch h)%Z /\ ready c /\
     ~ seen c (Epoch h) (SequenceNumber h) /\ seen c' (Epoch h) (SequenceNumber h));
  ef_epoch : remoteEpoch c' = remoteEpoch c \/
    (ready c /\ remoteEpoch c' = u16 (remoteEpoch c + 1) /\ u16 (Epoch h + 1) = u16 (remoteEpoch c + 1));
  ef_queue : encryptedPackets c' = encryptedPackets c \/
    (enqueue = true /\ encryptedPackets c' = encryptedPackets c ++ [(a, ref)] /\
     (length (encryptedPackets c) < maxAppDataPacketQueueSize)%nat);
  ef_seen : forall e s, seen c e s -> seen c' e s
}.

Lemma mark_valid_spec e s c d :
  replayDetector c !! Z.to_nat e = Some d ->
  exists b d', mark_valid e s c = (b, set_replay (<[Z.to_nat e := d']> (replayDetector c)) c) /\
    rd_seen d' s /\ forall t, rd_seen d t -> rd_seen d' t.
Proof.
  intros Hd. unfold mark_valid. rewrite Hd.
  pose proof (rd_seen_accept d s) as Ha. pose proof (rd_seen_mono d s) as Hm.
  destruct (rd_accept d s) as [d' b]. exists b, d'. by split_and!.
Qed.

Lemma seen_insert c e s d d' :
  (0 <= e)%Z -> replayDetector c !! Z.to_nat e = Some d -> (forall t, rd_seen d t -> rd_seen d' t) -> rd_seen d' s ->
  let c' := set_replay (<[Z.to_nat e := d']> (replayDetector c)) c in
  seen c' e s /\ forall e' t, seen c e' t -> seen c' e' t.
Proof.
  intros He Hd Hm Hs c'. split.
  - exists d'. split; [|done]. simpl. apply list_lookup_insert_eq. by eapply lookup_lt_Some.
  - intros e' t (x & Hx & Ht). unfold seen, c'. simpl.
    destruct (decide (Z.to_nat e' = Z.to_nat e)) as [Ee|Hne].
    + rewrite Ee in *. exists d'. split; [apply list_lookup_insert_eq; by eapply lookup_lt_Some|].
      apply Hm. rewrite Hd in Hx. by injection Hx as ->.
    + exists x. by rewrite list_lookup_insert_ne.
Qed.

(** The effects only look at some fields. *)
Lemma effects_refl h a ref enqueue c : effects h a ref enqueue c c.
Proof. split; try done; by left. Qed.

Lemma enqueue_effects h a ref c : effects h a ref true c (enqueueEncryptedPackets (a, ref) c).
Proof.
  unfold enqueueEncryptedPackets. destruct (Nat.ltb_spec (length (encryptedPackets c)) maxAppDataPacketQueueSize).
  - split; simpl; try done; [by left..|by right].
  - apply effects_refl.
Qed.

Lemma queued_effects h a ref enqueue c :
  effects h a ref enqueue c (if enqueue then enqueueEncryptedPackets (a, ref) c else c).
Proof. destruct enqueue; [apply enqueue_effects|apply effects_refl]. Qed.

Lemma dispatch_content_effects sel h cid content a ref enqueue c d i c' :
  (0 <= Epoch h)%Z -> (Epoch h <> 0%Z -> ready c) ->
  replayDetector c !! Z.to_nat (Epoch h) = Some d -> rd_ok d (SequenceNumber h) = true ->
  dispatch_content sel h cid content a ref enqueue c = (i, c') ->
  effects h a ref enqueue c c'.
Proof.
  intros He Hk Hd Hok. pose proof (rd_ok_fresh _ _ Hok) as Hfresh.
  assert (Hno : ~ seen c (Epoch h) (SequenceNumber h)) by (intros (x & Hx & Hs); congruence).
  unfold dispatch_content. destruct content as [|al|hs|ad].
  - destruct (cipherSuite c) as [[k|]|] eqn:Es.
    2,3: intros [= _ <-]; apply queued_effects.
    case_zb.
    + destruct (mark_valid_spec (Epoch h) (SequenceNumber h) (setRemoteEpoch (u16 (Epoch h + 1)) c) d Hd)
        as (b & d' & -> & Hs' & Hm).
      destruct (seen_insert (setRemoteEpoch (u16 (Epoch h + 1)) c) (Epoch h) (SequenceNumber h) d d' He Hd Hm Hs')
        as [_ Hmono].
      intros [= _ <-]. destruct (cid && b); [case_decide|]; (split; simpl; [done|done|by left| |by left|exact Hmono]);
        right; (split; [by exists k|]); by split.
    + rewrite andb_false_r. intros [= _ <-]. apply effects_refl.
  - destruct (mark_valid_spec (Epoch h) (SequenceNumber h) c d Hd) as (b & d' & -> & Hs' & Hm).
    destruct (seen_insert c (Epoch h) (SequenceNumber h) d d' He Hd Hm Hs') as [_ Hmono].
    intros [= _ <-]. split; simpl; [done|done|by left..|exact Hmono].
  - intros [= _ <-]. apply effects_refl.
  - destruct (Z.eqb_spec (Epoch h) 0) as [E0|E0]; [intros [= _ <-]; apply effects_refl|].
    destruct (mark_valid_spec (Epoch h) (SequenceNumber h) c d Hd) as (b & d' & -> & Hs' & Hm).
    destruct (seen_insert c (Epoch h) (SequenceNumber h) d d' He Hd Hm Hs') as [Hsn Hmono].
    intros [= _ <-]. destruct sel; (destruct (cid && b); [case_decide|]);
      (split; simpl; [done|done| |by left|by left|exact Hmono]);
      try (by left); right; (split_and!; [by eexists|lia|by apply Hk|done|exact Hsn]).
Qed.

Lemma pop_all_frame n c :
  let c' := pop_all n c in
  cipherSuite c' = cipherSuite c /\ localConnectionID c' = localConnectionID c /\
  decrypted c' = decrypted c /\ remoteEpoch c' = remoteEpoch c /\
  encryptedPackets c' = encryptedPackets c /\ replayDetector c' = replayDetector c.
Proof.
  revert c. induction n as [|n IH]; intros c; cbn [pop_all]; [done|].
  destruct (pop (fragmentBuf c)) as [[[out epoch]|] f]; [|done].
  destruct (HsHeader_Unmarshal out); (match goal with |- context [pop_all n ?x] => specialize (IH x) end);
    cbv zeta in *; naive_solver.
Qed.

(** Effects of what starts from, or ends in, a connection that agrees on the
    fields they look at. *)
Lemma effects_pre h a ref enqueue c c1 c' :
  cipherSuite c1 = cipherSuite c -> localConnectionID c1 = localConnectionID c ->
  decrypted c1 = decrypted c -> remoteEpoch c1 = remoteEpoch c -> encryptedPackets c1 = encryptedPackets c ->
  (forall e s, seen c e s -> seen c1 e s) ->
  effects h a ref enqueue c1 c' -> effects h a ref enqueue c c'.
Proof.
  intros E1 E2 E3 E4 E5 Hs [F1 F2 F3 F4 F5 F6]. split.
  - by rewrite F1.
  - by rewrite F2.
  - rewrite <- E3. destruct F3 as [F3|(Hx & He & Hr & Hn & Hy)]; [by left|right].
    split_and!; [done|done|by unfold ready in *; rewrite <- E1|by intros Hz; apply Hn, Hs|done].
  - rewrite <- E4. destruct F4 as [F4|(Hr & Hx)]; [by left|right]. split; [by unfold ready in *; rewrite <- E1|done].
  - by rewrite <- E5.
  - intros e s Hz. by apply F6, Hs.
Qed.

Lemma effects_post h a ref enqueue c c1 c' :
  effects h a ref enqueue c c1 ->
  cipherSuite c' = cipherSuite c1 -> localConnectionID c' = localConnectionID c1 ->
  decrypted c' = decrypted c1 -> remoteEpoch c' = remoteEpoch c1 -> encryptedPackets c' = encryptedPackets c1 ->
  replayDetector c' = replayDetector c1 -> effects h a ref enqueue c c'.
Proof.
  intros [F1 F2 F3 F4 F5 F6] E1 E2 E3 E4 E5 E6.
  assert (Hs : forall e s, seen c1 e s -> seen c' e s) by (unfold seen; by rewrite E6).
  split; rewrite ?E1, ?E2, ?E3, ?E4, ?E5; try done.
  - destruct F3 as [F3|(Hx & He & Hr & Hn & Hy)]; [by left|right]. split_and!; try done. by apply Hs.
  - intros e s Hz. by apply Hs, F6.
Qed.

Lemma dispatch_record_effects sel h buf cid a ref enqueue c d r c' :
  (0 <= Epoch h)%Z -> (Epoch h <> 0%Z -> ready c) ->
  replayDetector c !! Z.to_nat (Epoch h) = Some d -> rd_ok d (SequenceNumber h) = true ->
  dispatch_record sel h buf cid a ref enqueue c = (r, c') ->
  (exists i, r = Ok i) /\ effects h a ref enqueue c c'.
Proof.
  intros He Hk Hd Hok. unfold dispatch_record. pose proof (push_safe (fragmentBuf c) buf) as Hs.
  destruct (push (fragmentBuf c) buf) as [[[[|] rtx]|e] f] eqn:Ep; cbn [fst] in Hs.
  - destruct (mark_valid_spec (Epoch h) (SequenceNumber h) (set_fragments f c) d Hd) as (b & d' & -> & Hs' & Hm).
    destruct (seen_insert (set_fragments f c) (Epoch h) (SequenceNumber h) d d' He Hd Hm Hs') as [_ Hmono].
    cbv beta iota. match goal with |- context [pop_all ?n ?x] => remember (pop_all n x) as cp eqn:Ecp end.
    intros [= <- <-]. split; [by eexists|]. subst cp.
    match goal with |- context [pop_all ?n ?x] => destruct (pop_all_frame n x) as (P1 & P2 & P3 & P4 & P5 & P6) end.
    eapply effects_post; [|eassumption..]. split; simpl; [done|done|by left..|exact Hmono].
  - destruct (RecordLayer_Unmarshal_passes _ _ _ _ Ep) as [Hnp Hnh].
    destruct (RecordLayer_Unmarshal zero_Header buf) as [rl|e] eqn:Er.
    + destruct (dispatch_content sel h cid (r_Content rl) a ref enqueue (set_fragments f c)) as [i c1] eqn:Ec.
      intros [= <- <-]. split; [by eexists|].
      eapply effects_pre; [..|eapply (dispatch_content_effects _ _ _ _ _ _ _ (set_fragments f c)); eauto];
        try done.
    + destruct e; intros [= <- <-]; try done; (split; [by eexists|]);
        (eapply effects_pre; [..|apply effects_refl]; done).
  - destruct Hs as [Hs1 Hs2]. destruct e; intros [= <- <-]; try done; (split; [by eexists|]);
      (eapply effects_pre; [..|apply effects_refl]; done).
Qed.

Lemma Header_Unmarshal_epoch h0 data h : Header_Unmarshal h0 data = Ok h -> (0 <= Epoch h)%Z.
Proof.
  unfold Header_Unmarshal. intros E.
  repeat (match type of E with context [res_bind ?m _] => destruct m eqn:?; [|discriminate] end; cbn [res_bind] in E).
  apply Ok_inj in E as <-. simpl.
  match goal with H : u16_at 3 data = Ok _ |- _ => unfold u16_at in H; case_decide; [|discriminate];
    apply Ok_inj in H as <- end.
  apply be_get_range.
Qed.

(** The header as the connection reads it. *)
Definition header_of c (buf : bytes) : res derr Header :=
  Header_Unmarshal (mkHeader 0 0 (mkVersion 0 0) 0 0 (replicate (length (localConnectionID c)) zero_byte)) buf.

Lemma grow_replay_seen c e s x : seen c e s -> seen (set_replay (grow_replay x c) c) e s.
Proof.
  intros (d & Hd & Hs). exists d. split; [|done]. simpl. unfold grow_replay. by apply lookup_app_l_Some.
Qed.

Lemma grow_replay_has c e : is_Some (grow_replay e c !! Z.to_nat e).
Proof. apply lookup_lt_is_Some_2. unfold grow_replay. len. Qed.

(** What handling a packet does, and the only way it can end without a
    result: the decryption of a record of an epoch with keys. *)
Lemma handle_effects sel ref buf a enqueue c r c' :
  handleIncomingPacket sel ref buf a enqueue c = (r, c') ->
  match header_of c buf with
  | Err _ => r = Ok nothing /\ c' = c
  | Ok h =>
      effects h a ref enqueue c c' /\
      ((exists i, r = Ok i) \/
       (exists k e, cipherSuite c = Some (Some k) /\ (0 < Epoch h <= remoteEpoch c)%Z /\
          decrypt_record k h buf (localConnectionID c) = Err e /\ r = Err e)) /\
      ((remoteEpoch c < Epoch h)%Z -> r = Ok nothing /\
         c' = if enqueue && (Epoch h <=? u16 (remoteEpoch c + 1))%Z
              then enqueueEncryptedPackets (a, ref) c else c)
  end.
Proof.
  unfold handleIncomingPacket. fold (header_of c buf).
  pose proof (safe_Header (mkHeader 0 0 (mkVersion 0 0) 0 0 (replicate (length (localConnectionID c)) zero_byte)) buf)
    as Hsafe. fold (header_of c buf) in Hsafe.
  destruct (header_of c buf) as [h|e] eqn:Eh.
  2:{ destruct Hsafe as [Hs1 Hs2]. destruct e; intros [= <- <-]; done. }
  pose proof (Header_Unmarshal_epoch _ _ _ Eh) as He.
  destruct (Z.ltb_spec (remoteEpoch c) (Epoch h)) as [Hf|Hf].
  { destruct (Z.ltb_spec (u16 (remoteEpoch c + 1)) (Epoch h)) as [Hf2|Hf2]; intros [= <- <-].
    - rewrite (proj2 (Z.leb_gt _ _)) by lia. rewrite andb_false_r.
      split_and!; [apply effects_refl|left; by eexists|done].
    - rewrite (proj2 (Z.leb_le _ _)) by lia. rewrite andb_true_r.
      split_and!; [apply queued_effects|left; by eexists|done]. }
  set (c1 := set_replay (grow_replay (Epoch h) c) c).
  assert (Pre : forall c2, effects h a ref enqueue c1 c2 -> effects h a ref enqueue c c2).
  { intros c2 Hx. eapply effects_pre; [..|exact Hx]; try done. intros. by apply grow_replay_seen. }
  cbv zeta. fold c1. change (replayDetector c1) with (grow_replay (Epoch h) c).
  destruct (grow_replay_has c (Epoch h)) as [d Hd]. rewrite Hd.
  destruct (rd_ok d (SequenceNumber h)) eqn:Hok; cbn [negb].
  2:{ intros [= <- <-]. split_and!; [apply Pre, effects_refl|left; by eexists|lia]. }
  destruct (Z.eqb_spec (Epoch h) 0) as [E0|E0].
  { intros E. eapply dispatch_record_effects in E as [Hi Hx]; eauto; [|done].
    split_and!; [by apply Pre|by left|lia]. }
  change (cipherSuite c1) with (cipherSuite c).
  destruct (cipherSuite c) as [[k|]|] eqn:Es.
  2,3: intros [= <- <-]; (split_and!; [apply Pre, queued_effects|left; by eexists|lia]).
  change (localConnectionID c1) with (localConnectionID c).
  destruct (decrypt_record k h buf (localConnectionID c)) as [[[b cid]|]|e] eqn:Ed.
  - intros E. eapply dispatch_record_effects in E as [Hi Hx]; eauto; [|by intros _; exists k].
    split_and!; [by apply Pre|by left|lia].
  - intros [= <- <-]. split_and!; [apply Pre, effects_refl|left; by eexists|lia].
  - intros [= <- <-]. split_and!; [apply Pre, effects_refl| |lia].
    right. exists k, e. split_and!; [done|lia|lia|done|done].
Qed.

(** A run of packets, with for each the choice of the [select], its slice,
    its bytes, its sender and whether it may be queued; the log has the
    numbers of the records that delivered data. *)
Record arrival := mkArrival { ar_sel : bool; ar_ref : bufref; ar_buf : bytes; ar_from : addr; ar_enqueue : bool }.

Fixpoint receive_run (ps : list arrival) c : list (Z * Z) * Conn C D G addr :=
  match ps with
  | [] => ([], c)
  | p :: ps =>
      let c1 := snd (handleIncomingPacket (ar_sel p) (ar_ref p) (ar_buf p) (ar_from p) (ar_enqueue p) c) in
      let '(log, c') := receive_run ps c1 in
      match header_of c (ar_buf p) with
      | Ok h => if (length (decrypted c) <? length (decrypted c1))%nat then (number h :: log, c') else (log, c')
      | Err _ => (log, c')
      end
  end.

Lemma handle_step p c :
  let c1 := snd (handleIncomingPacket (ar_sel p) (ar_ref p) (ar_buf p) (ar_from p) (ar_enqueue p) c) in
  match header_of c (ar_buf p) with
  | Err _ => c1 = c
  | Ok h => effects h (ar_from p) (ar_ref p) (ar_enqueue p) c c1
  end.
Proof.
  cbv zeta. destruct (handleIncomingPacket _ _ _ _ _ c) as [r c1] eqn:E. apply handle_effects in E. cbn [snd].
  destruct (header_of c (ar_buf p)); [by destruct E as [? _]|by destruct E as [_ ->]].
Qed.

Lemma receive_run_log ps c log c' :
  receive_run ps c = (log, c') ->
  NoDup log /\ length (decrypted c') = (length (decrypted c) + length log)%nat /\
  Forall (fun n => (0 < fst n)%Z /\ ~ seen c (fst n) (snd n) /\ ready c) log /\
  Forall (fun n => seen c' (fst n) (snd n)) log /\
  (forall e s, seen c e s -> seen c' e s) /\ cipherSuite c' = cipherSuite c.
Proof.
  revert c log c'. induction ps as [|p ps IH]; intros c log c' E.
  { injection E as <- <-. split_and!; try done; simpl; try lia; constructor. }
  cbn [receive_run] in E. pose proof (handle_step p c) as Hs. cbv zeta in Hs, E.
  set (c1 := snd (handleIncomingPacket _ _ _ _ _ c)) in *.
  destruct (receive_run ps c1) as [log1 c2] eqn:Er.
  destruct (IH c1 log1 c2 Er) as (Hn & Hl & Hf & Hs' & Hm & Hc).
  destruct (header_of c (ar_buf p)) as [h|e] eqn:Eh.
  2:{ rewrite Hs in *. injection E as <- <-. done. }
  destruct Hs as [F1 F2 F3 F4 F5 F6].
  assert (Hf' : Forall (fun n => (0 < fst n)%Z /\ ~ seen c (fst n) (snd n) /\ ready c) log1).
  { eapply Forall_impl; [exact Hf|]. intros n (Hp & Hns & Hr). split_and!; [done| |].
    - intros Hx. by apply Hns, F6.
    - unfold ready in *. by rewrite <- F1. }
  destruct F3 as [F3|(Hd & He & Hr & Hns & Hsn)].
  - rewrite F3 in *. rewrite Nat.ltb_irrefl in E. injection E as <- <-.
    split_and!; try done; [intros; by apply Hm, F6|by rewrite Hc].
  - destruct Hd as [data Hd]. assert (Hlen : length (decrypted c1) = Datatypes.S (length (decrypted c)))
      by (rewrite Hd, length_app; simpl; lia).
    rewrite Hlen, (proj2 (Nat.ltb_lt _ _)) in E by lia. injection E as <- <-.
    split_and!.
    + constructor; [|done]. intros Hin. rewrite Forall_forall in Hf. apply Hf in Hin as (_ & Hx & _). by apply Hx.
    + rewrite Hl, Hlen. simpl. lia.
    + by constructor.
    + constructor; [by apply Hm|done].
    + intros. by apply Hm, F6.
    + by rewrite Hc.
Qed.
(** *** Which data *)

(** [x] is the payload of the record [buf], with number [n], as the suite [k]
    opens it: the suite accepts the record, and what it gives back is
    application data, for a connection with an identifier inside the padded
    plaintext of a record with that identifier. *)
Definition opens (k : C) (cid buf : bytes) (n : Z * Z) (x : bytes) : Prop := exists h pt,
  Header_Unmarshal (mkHeader 0 0 (mkVersion 0 0) 0 0 (replicate (length cid) zero_byte)) buf = Ok h /\ number h = n /\
  ConnectionID h = cid /\
  (if decide (ContentType h = ContentTypeConnectionID) then
     rc_Decrypt k (mkHeader 0 0 (mkVersion 0 0) 0 0 (replicate (length cid) zero_byte)) buf = Ok pt /\
     exists pad, InnerPlaintext_Unmarshal (drop (Header_Size h) pt) = Ok (mkInner x ContentTypeApplicationData pad)
   else
     rc_Decrypt k (mkHeader 0 0 (mkVersion 0 0) 0 0 []) buf = Ok pt /\ cid = [] /\
     (exists rh, Header_Unmarshal zero_Header pt = Ok rh /\ ContentType rh = ContentTypeApplicationData) /\
     x = drop FixedHeaderSize pt).

(** [c'] is [c], or has one more payload, which satisfies [P]. *)
Definition delivers (P : bytes -> Prop) c c' : Prop :=
  decrypted c' = decrypted c \/ exists x, decrypted c' = decrypted c ++ [x] /\ P x.

Lemma mark_valid_decrypted e s c : decrypted (mark_valid e s c).2 = decrypted c.
Proof. unfold mark_valid. destruct (replayDetector c !! Z.to_nat e); [|done]. by destruct (rd_accept _ _). Qed.

Lemma dispatch_content_delivers sel h cid content a ref enqueue c :
  delivers (fun x => Epoch h <> 0%Z /\ content = CApplicationData (mkAppData x)) c
    (dispatch_content sel h cid content a ref enqueue c).2.
Proof.
  assert (Ha : forall x c, decrypted (if cid && x then (if decide (a <> rAddr c) then set_rAddr a c else c) else c) = decrypted c).
  { intros x c0. destruct (cid && x); [by case_decide|done]. }
  unfold dispatch_content. destruct content as [|al|hs|[x]].
  - left. destruct (cipherSuite c) as [[k|]|].
    2,3: destruct enqueue; [|done]; unfold enqueueEncryptedPackets; by case_match.
    case_zb; [|cbn; by rewrite Ha]. pose proof (mark_valid_decrypted (Epoch h) (SequenceNumber h) (setRemoteEpoch (u16 (Epoch h + 1)) c)) as Hm.
    destruct (mark_valid _ _ _) as [b c1]. cbn in *. by rewrite Ha.
  - left. pose proof (mark_valid_decrypted (Epoch h) (SequenceNumber h) c) as Hm. by destruct (mark_valid _ _ c).
  - by left.
  - destruct (Z.eqb_spec (Epoch h) 0); [by left|].
    pose proof (mark_valid_decrypted (Epoch h) (SequenceNumber h) c) as Hm. destruct (mark_valid _ _ c) as [b c1]. cbn [snd] in *.
    destruct sel; [right; exists x|left]; rewrite Ha; cbn; by rewrite Hm.
Qed.

(** What [RecordLayer_Unmarshal] takes for application data. *)
Definition holds_data (buf x : bytes) : Prop :=
  (exists rh, Header_Unmarshal zero_Header buf = Ok rh /\ ContentType rh = ContentTypeApplicationData) /\ x = drop FixedHeaderSize buf.

Lemma RecordLayer_data buf r x :
  RecordLayer_Unmarshal zero_Header buf = Ok r -> r_Content r = CApplicationData (mkAppData x) -> holds_data buf x.
Proof.
  unfold RecordLayer_Unmarshal. destruct (Header_Unmarshal zero_Header buf) as [rh|] eqn:Eh; [|discriminate]. cbn [res_bind].
  destruct (Header_Unmarshal_len _ _ _ Eh) as [Hl Hc]. cbn in Hc.
  do 3 (match goal with |- context [Z.eqb ?u ?v] => destruct (Z.eqb_spec u v) end; [destruct (from _ buf); [|discriminate]; cbn [res_bind];
    match goal with |- res_bind ?m _ = _ -> _ => destruct m; [|discriminate] end; cbn [res_bind];
    intros Hr Hx; apply Ok_inj in Hr as <-; discriminate Hx|]).
  case_zb; [|discriminate..]. rewrite from_ok by (unfold Header_Size, FixedHeaderSize; lia). cbn [res_bind ApplicationData_Unmarshal].
  intros [= <-]. cbn. intros [= <-]. split; [by exists rh|]. unfold Header_Size. by rewrite Hc, !Nat.add_0_r.
Qed.

Lemma dispatch_record_delivers sel h buf cid a ref enqueue c :
  delivers (fun x => Epoch h <> 0%Z /\ holds_data buf x) c (dispatch_record sel h buf cid a ref enqueue c).2.
Proof.
  unfold dispatch_record. destruct (push (fragmentBuf c) buf) as [[[[|] rtx]|e] f].
  - left. pose proof (mark_valid_decrypted (Epoch h) (SequenceNumber h) (set_fragments f c)) as Hm.
    destruct (mark_valid _ _ _) as [b c1]. cbn [snd] in *.
    match goal with |- context [pop_all ?n ?x] => destruct (pop_all_frame n x) as (_ & _ & P3 & _) end. by rewrite P3.
  - destruct (RecordLayer_Unmarshal zero_Header buf) as [rl|e] eqn:Er; [|by left; destruct e].
    pose proof (dispatch_content_delivers sel h cid (r_Content rl) a ref enqueue (set_fragments f c)) as Hd.
    destruct (dispatch_content _ _ _ _ _ _ _ _) as [i c1]. cbn [snd] in *.
    destruct Hd as [Hd|(x & Hd & He & Hx)]; [by left|right]. exists x. split_and!; [done|done|]. by eapply RecordLayer_data.
  - by left; destruct e.
Qed.

Lemma RealType_byte data ip : InnerPlaintext_Unmarshal data = Ok ip -> (0 <= RealType ip < 256)%Z.
Proof.
  unfold InnerPlaintext_Unmarshal, idx, sub. destruct (last_nonzero data (length data)) as [[|i]|]; try discriminate.
  destruct (data !! S i) as [b|]; [|discriminate]. cbn [res_bind]. case_decide; [|discriminate].
  intros [= <-]. cbn. apply b2z_range.
Qed.

Lemma header_data h x y : (0 <= ContentType h < 256)%Z -> ConnectionID h = [] ->
  holds_data (header_bytes h ++ y) x -> ContentType h = ContentTypeApplicationData /\ x = y.
Proof.
  intros Ht Hc [(rh & Hh & Hr) ->]. split.
  - rewrite <- Hr. revert Hh. unfold Header_Unmarshal, idx, header_bytes. cbn [app lookup list_lookup]. intros Hh.
    repeat (match type of Hh with context [res_bind ?m _] => destruct m eqn:?; [|discriminate] end; cbn [res_bind] in Hh).
    apply Ok_inj in Hh as <-. cbn. by rewrite b2z_z2b_small.
  - pose proof (drop_header_bytes h y 0) as Hd. unfold Header_Size in Hd. rewrite Hc, !Nat.add_0_r in Hd. exact Hd.
Qed.

Lemma decrypt_record_opens k h buf cid b ci x :
  Header_Unmarshal (mkHeader 0 0 (mkVersion 0 0) 0 0 (replicate (length cid) zero_byte)) buf = Ok h ->
  decrypt_record k h buf cid = Ok (Some (b, ci)) -> holds_data b x -> opens k cid buf (number h) x.
Proof.
  intros Hh. unfold decrypt_record.
  destruct ((0 <? length cid)%nat && negb (ContentType h =? ContentTypeConnectionID)%Z) eqn:Hcid; [discriminate|].
  destruct (rc_Decrypt k _ buf) as [pt|e] eqn:Ed; [|by destruct e].
  destruct (Z.eqb_spec (ContentType h) ContentTypeConnectionID) as [Hct|Hct].
  - destruct (from (Header_Size h) pt) as [inner|] eqn:Ef; [|discriminate]. cbn [res_bind].
    assert (inner = drop (Header_Size h) pt) as -> by (unfold from in Ef; case_decide; [by injection Ef|discriminate]).
    destruct (InnerPlaintext_Unmarshal _) as [ip|e] eqn:Ei; [|by destruct e]. pose proof (RealType_byte _ _ Ei) as Hrt.
    destruct (Header_Marshal _) as [raw|] eqn:Em; [|done]. apply Header_Marshal_inv in Em as ->. cbn [res_bind].
    case_bool_decide as Hl; [|done]. match goal with |- context [header_bytes ?z] => remember (header_bytes z) as hb eqn:Ehb end.
    intros [= <- _] Hx. rewrite Ehb in Hx. apply header_data in Hx as [Hty ->]; [|done..]. cbn in Hty.
    exists h, pt. split_and!; [done|done|done|]. rewrite decide_True by done. split; [done|]. exists (Zeros ip). rewrite Ei, <- Hty.
    by destruct ip.
  - cbn [res_bind]. case_bool_decide as Hl; [|done]. intros [= <- _] [Hx1 Hx2]. rewrite andb_true_r in Hcid.
    exists h, pt. split_and!; [done|done|done|]. rewrite decide_False by done. split_and!; [done| |done|done].
    apply Nat.ltb_ge in Hcid. apply length_zero_iff_nil. lia.
Qed.

Lemma handle_delivers sel ref buf a enqueue c :
  let c' := (handleIncomingPacket sel ref buf a enqueue c).2 in
  decrypted c' = decrypted c \/
  exists k h x, cipherSuite c = Some (Some k) /\ header_of c buf = Ok h /\
    decrypted c' = decrypted c ++ [x] /\ opens k (localConnectionID c) buf (number h) x.
Proof.
  assert (Hq : decrypted (if enqueue then enqueueEncryptedPackets (a, ref) c else c) = decrypted c).
  { destruct enqueue; [|done]. unfold enqueueEncryptedPackets. by case_match. }
  cbv zeta. unfold handleIncomingPacket. fold (header_of c buf). destruct (header_of c buf) as [h|e] eqn:Eh; [|by left; destruct e].
  destruct (remoteEpoch c <? Epoch h)%Z; [by left; destruct (_ <? _)%Z|]. set (c1 := set_replay _ c).
  destruct (replayDetector c1 !! Z.to_nat (Epoch h)) as [d|]; [|by left]. destruct (negb _); [by left|].
  destruct (Z.eqb_spec (Epoch h) 0) as [E0|E0].
  { destruct (dispatch_record_delivers sel h buf false a ref enqueue c1) as [Hd|(x & _ & Hd & _)]; [by left|done]. }
  change (cipherSuite c1) with (cipherSuite c). destruct (cipherSuite c) as [[k|]|].
  2,3: left; destruct enqueue; [|done]; unfold enqueueEncryptedPackets; by case_match.
  change (localConnectionID c1) with (localConnectionID c).
  destruct (decrypt_record k h buf (localConnectionID c)) as [[[b ci]|]|e] eqn:Ed; [|by left..].
  destruct (dispatch_record_delivers sel h b ci a ref enqueue c1) as [Hd|(x & Hd & _ & Hx)]; [by left|right].
  exists k, h, x. split_and!; [done|done|done|]. by eapply decrypt_record_opens.
Qed.

(** The payloads of a run, each opened from a packet of the run. *)
Lemma receive_run_opens ps c log c' :
  receive_run ps c = (log, c') ->
  exists xs, decrypted c' = decrypted c ++ xs /\
    Forall2 (fun n x => exists p k, p ∈ ps /\ cipherSuite c = Some (Some k) /\ opens k (localConnectionID c) (ar_buf p) n x) log xs.
Proof.
  revert c log c'. induction ps as [|p ps IH]; intros c log c' E; cbn [receive_run] in E.
  { injection E as <- <-. exists []. split; [by rewrite app_nil_r|constructor]. }
  pose proof (handle_step p c) as Hs. pose proof (handle_delivers (ar_sel p) (ar_ref p) (ar_buf p) (ar_from p) (ar_enqueue p) c) as Hd.
  cbv zeta in Hs, Hd, E. set (c1 := snd (handleIncomingPacket _ _ _ _ _ c)) in *.
  destruct (receive_run ps c1) as [log1 c2] eqn:Er. destruct (IH c1 log1 c2 Er) as (xs & Hx & Hf).
  assert (Hsame : cipherSuite c1 = cipherSuite c /\ localConnectionID c1 = localConnectionID c).
  { destruct (header_of c (ar_buf p)); [by destruct Hs|by rewrite Hs]. }
  destruct Hsame as [Hsu Hci]. rewrite Hsu, Hci in Hf.
  assert (Hf' : Forall2 (fun n x => exists q k, q ∈ p :: ps /\ cipherSuite c = Some (Some k) /\
    opens k (localConnectionID c) (ar_buf q) n x) log1 xs).
  { eapply Forall2_impl; [exact Hf|]. intros n x (q & k & Hq & Ho). exists q, k. split; [by right|done]. }
  destruct Hd as [Hd|(k & h & x & Hk & Hh & Hd & Ho)].
  - rewrite Hd in *. rewrite Nat.ltb_irrefl in E. exists xs.
    destruct (header_of c (ar_buf p)); injection E as <- <-; by split.
  - rewrite Hh, Hd, length_app, (proj2 (Nat.ltb_lt _ _)) in E by (simpl; lia). injection E as <- <-.
    exists (x :: xs). split; [by rewrite Hx, Hd, <- app_assoc|]. constructor; [|done]. exists p, k. split; [left|done].
Qed.
End receive.

(** C32: no datagram stops a connection or gets data into it before the keys
    are there.  While the suite is not initialised, and for every record of
    epoch 0 at any time, handling returns for all bytes: nothing is
    delivered, the remote epoch stays or moves on by one with keys, and the
    queue grows by at most this packet and never beyond 100. *)
Theorem unprotected_input_safe {C D G addr} `{Cryptobyte} `{RecordCipher C} `{ReplayDetector D} `{Rand G}
    `{EqDecision addr} sel ref buf a enqueue (c : Conn C D G addr) :
  ~ ready c \/ (forall h, header_of c buf = Ok h -> Epoch h = 0%Z) ->
  exists i c', handleIncomingPacket sel ref buf a enqueue c = (Ok i, c') /\
    decrypted c' = decrypted c /\ cipherSuite c' = cipherSuite c /\
    (remoteEpoch c' = remoteEpoch c \/ ready c /\ remoteEpoch c' = u16 (remoteEpoch c + 1)) /\
    (length (encryptedPackets c') <= Nat.max (length (encryptedPackets c)) maxAppDataPacketQueueSize)%nat.
Proof.
  intros Hn. destruct (handleIncomingPacket sel ref buf a enqueue c) as [r c'] eqn:E.
  apply handle_effects in E. destruct (header_of c buf) as [h|e] eqn:Eh.
  2:{ destruct E as [-> ->]. eexists _, c. split_and!; try done; [by left|lia]. }
  destruct E as ([F1 F2 F3 F4 F5 F6] & Hr & _).
  assert (exists i, r = Ok i) as [i ->].
  { destruct Hr as [Hr|(k & e & Hk & He & _)]; [done|]. destruct Hn as [Hn|Hn].
    - destruct Hn. by exists k.
    - specialize (Hn h eq_refl). lia. }
  exists i, c'. split_and!; [done| |done| |].
  - destruct F3 as [F3|(_ & He & Hk & _)]; [done|]. destruct Hn as [Hn|Hn]; [done|].
    specialize (Hn h eq_refl). lia.
  - destruct F4 as [F4|(Hk & Hx & _)]; [by left|by right].
  - destruct F5 as [->|(_ & -> & Hl)]; [lia|]. rewrite length_app. simpl. lia.
Qed.

Lemma unprotected_input_safe_witness :
  exists i c', handleIncomingPacket true (mkRef 0 0 13) (map z2b [22; 254; 253; 0; 0; 0; 0; 0; 0; 0; 1; 0; 0]%Z) 7%nat true
      (toy_conn 0 []) = (Ok i, c') /\
    decrypted c' = decrypted (toy_conn 0 []) /\ cipherSuite c' = cipherSuite (toy_conn 0 []) /\
    (remoteEpoch c' = remoteEpoch (toy_conn 0 []) \/
     ready (toy_conn 0 []) /\ remoteEpoch c' = u16 (remoteEpoch (toy_conn 0 []) + 1)) /\
    (length (encryptedPackets c') <=
       Nat.max (length (encryptedPackets (toy_conn 0 []))) maxAppDataPacketQueueSize)%nat.
Proof.
  apply unprotected_input_safe. right. intros h Hh. vm_compute in Hh. by injection Hh as <-.
Defined.

(** C31: application data is delivered at most once per record and only what
    the suite opened.  Over any sequence of packets, replayed, reordered,
    forged or queued: the records that delivered data have pairwise different
    numbers, not accepted before, and belong to an epoch above 0; and the
    payloads that were added are, one for each of them in order, what the
    cipher suite decrypts a packet of the sequence with that number to. *)
Theorem data_delivered_once {C D G addr} `{Cryptobyte} `{RecordCipher C} `{ReplayDetector D} `{Rand G}
    `{EqDecision addr} ps (c c' : Conn C D G addr) log :
  receive_run ps c = (log, c') ->
  NoDup log /\ Forall (fun n => (0 < fst n)%Z /\ ~ seen c (fst n) (snd n)) log /\
  exists xs, decrypted c' = decrypted c ++ xs /\
    Forall2 (fun n x => exists p k, p ∈ ps /\ cipherSuite c = Some (Some k) /\ opens k (localConnectionID c) (ar_buf p) n x) log xs.
Proof.
  intros E. destruct (receive_run_log _ _ _ _ E) as (Hn & _ & Hf & _).
  split_and!; [done| |by apply receive_run_opens]. eapply Forall_impl; [exact Hf|]. cbn beta. intros n (Hp & Hs & _). done.
Qed.

(** The datagram a connection sends for a payload. *)
Definition sent_by_Write (c : Conn (AeadCipher (ccm12 Z)) (list Z) Z nat) (payload : bytes) : bytes :=
  match c_sent (snd (conn_Write payload c)) with
  | (_, d) :: _ => d
  | [] => []
  end.

Lemma data_delivered_once_witness :
  let d := sent_by_Write (toy_conn 1 []) [z2b 104; z2b 105] in
  let p := mkArrival true (mkRef 0 0 (length d)) d 7%nat true in
  exists c', receive_run [p; p] (toy_conn 1 []) = ([(1, 0)%Z], c') /\
    Forall (fun n => (0 < fst n)%Z /\ ~ seen (toy_conn 1 []) (fst n) (snd n)) [(1, 0)%Z] /\
    exists x, decrypted c' = [x] /\ opens toy_suite [] d (1, 0)%Z x.
Proof.
  set (d := sent_by_Write (toy_conn 1 []) [z2b 104; z2b 105]).
  set (p := mkArrival true (mkRef 0 0 (length d)) d 7%nat true). cbv zeta.
  destruct (receive_run [p; p] (toy_conn 1 [])) as [log c'] eqn:E.
  assert (Hl : log = [(1, 0)%Z]).
  { change log with (fst (log, c')). rewrite <- E. vm_compute. reflexivity. }
  subst log. exists c'. split; [exact E|].
  destruct (data_delivered_once [p; p] (toy_conn 1 []) c' [(1, 0)%Z] E) as (_ & Hf & xs & Hx & Ho). split; [exact Hf|].
  inversion Ho as [|n x ? ? (q & k & Hq & Hk & Hop) Ho2]; subst. inversion Ho2; subst. exists x. split; [exact Hx|].
  injection Hk as <-. apply list_elem_of_In in Hq. destruct Hq as [<-|[<-|[]]]; exact Hop.
Defined.

(** ** Both sides together *)

Section both.
Context {C D G addr : Type} `{Cryptobyte} `{RecordCipher C} `{ReplayDetector D} `{Rand G} `{EqDecision addr}.
Implicit Types (c : Conn C D G addr) (h : Header).

Lemma next_seq_ok e c :
  counters_ok c -> (counter c e <= MaxSequenceNumber)%Z ->
  exists l, next_seq e c = (Ok (counter c e), set_seq l c).
Proof.
  intros Hc Hm. destruct (grow_seq_spec e (localSequenceNumber c)) as [Hl Hg].
  destruct (lookup_lt_is_Some_2 _ _ Hl) as [v Hv].
  assert (Ev : v = counter c e) by (unfold counter; by rewrite <- Hg, Hv).
  pose proof (counter_range c e Hc) as Hr. unfold MaxSequenceNumber in *.
  unfold next_seq. rewrite (list_lookup_total_correct _ _ _ Hv), Ev, (wrap_small 64 (_ + 1)) by lia.
  replace (counter c e + 1 - 1)%Z with (counter c e) by lia. rewrite wrap_small by lia. cbv zeta.
  unfold MaxSequenceNumber. case_zb; [lia|]. by eexists.
Qed.

(** The header and plaintext [Write] protects: a connection identifier makes
    it a record of type 25 around the inner plaintext. *)
Definition app_header (e s : Z) (cid payload : bytes) : Header :=
  if is_nil cid then mkHeader ContentTypeApplicationData (u16 (Z.of_nat (length payload))) Version1_2 e s []
  else mkHeader ContentTypeConnectionID (u16 (Z.of_nat (length payload + 1))) Version1_2 e s cid.

Definition app_plain (cid payload : bytes) : bytes :=
  if is_nil cid then payload else payload ++ [z2b ContentTypeApplicationData].

Lemma app_header_wf e s cid payload :
  (0 <= e < 65536)%Z -> (0 <= s <= MaxSequenceNumber)%Z -> header_wf (app_header e s cid payload).
Proof.
  intros He Hs. unfold app_header, ContentTypeApplicationData, ContentTypeConnectionID.
  destruct cid; split; simpl; try done; try lia; try (by right); apply (wrap_range 16); lia.
Qed.

Lemma processPacket_app payload c k :
  cipherSuite c = Some (Some k) -> counters_ok c -> (counter c (localEpoch c) <= MaxSequenceNumber)%Z ->
  let h := app_header (localEpoch c) (counter c (localEpoch c)) (remoteConnectionID c) payload in
  exists l rnd g pkt', length rnd = rc_rnd /\
    processPacket (app_packet payload c) c =
      match rc_Encrypt k h (header_bytes h ++ app_plain (remoteConnectionID c) payload) rnd with
      | Ok raw => (Ok (raw, pkt'), set_rand g (set_seq l c))
      | Err e => (Err e, set_rand g (set_seq l c))
      end.
Proof.
  intros Hk Hc Hm h. destruct (next_seq_ok (localEpoch c) c Hc Hm) as [l Hl].
  pose proof (length_rread rc_rnd (c_rand c)) as Hr.
  destruct (rread rc_rnd (c_rand c)) as [rnd g] eqn:Er. cbn [fst] in Hr.
  assert (Henc : forall hd raw, encrypt hd raw (set_seq l c) = (rc_Encrypt k hd raw rnd, set_rand g (set_seq l c))).
  { intros hd raw. unfold encrypt. change (cipherSuite (set_seq l c)) with (cipherSuite c).
    change (c_rand (set_seq l c)) with (c_rand c). by rewrite Hk, Er. }
  set (s := counter c (localEpoch c)) in *.
  eexists l, rnd, g, (mkPacket (mkRecord h (CApplicationData (mkAppData payload))) true
    (0 <? length (remoteConnectionID c))%nat). split; [done|].
  unfold processPacket, app_packet, bindM at 1. cbn [pk_record r_Header Epoch shouldWrapCID shouldEncrypt r_Content].
  rewrite Hl. unfold bindM, get_conn, with_seq.
  cbn [ContentType ContentLen HVersion Epoch SequenceNumber ConnectionID].
  change (remoteConnectionID (set_seq l c)) with (remoteConnectionID c).
  unfold h, app_header, app_plain. destruct (remoteConnectionID c) as [|b cid] eqn:Ecid; cbn [is_nil length Nat.ltb Nat.leb].
  - unfold lift, ret, record_Marshal, RecordLayer_Marshal. cbn [r_Content r_Header res_bind Content_Marshal Content_Type
      ApplicationData_Marshal app AData HVersion Epoch SequenceNumber ConnectionID].
    rewrite Header_Marshal_eq by (simpl; lia). cbn [res_bind r_Header]. rewrite Henc.
    destruct (rc_Encrypt _ _ _ rnd); done.
  - unfold lift, ret, record_Marshal, RecordLayer_Marshal. cbn [r_Content r_Header res_bind Content_Marshal Content_Type
      ApplicationData_Marshal app AData HVersion Epoch SequenceNumber ConnectionID].
    rewrite Header_Marshal_eq by (simpl; lia). cbn [res_bind r_Header r_Content Content_Marshal AData ApplicationData_Marshal app ContentType].
    unfold cid_Header, InnerPlaintext_Marshal. cbn [HVersion Epoch SequenceNumber IContent RealType Zeros replicate].
    rewrite app_nil_r, length_app. cbn [length].
    rewrite Header_Marshal_eq by (simpl; lia). cbn [r_Header]. rewrite Henc.
    destruct (rc_Encrypt _ _ _ rnd); done.
Qed.

Lemma conn_Write_app payload c k :
  cipherSuite c = Some (Some k) -> counters_ok c -> (counter c (localEpoch c) <= MaxSequenceNumber)%Z ->
  c_faults c = [] ->
  let h := app_header (localEpoch c) (counter c (localEpoch c)) (remoteConnectionID c) payload in
  exists rnd, length rnd = rc_rnd /\
    forall raw, rc_Encrypt k h (header_bytes h ++ app_plain (remoteConnectionID c) payload) rnd = Ok raw ->
    exists c', conn_Write payload c = (length payload, None, c') /\
      c_sent c' = c_sent c ++ [(rAddr c, raw)].
Proof.
  intros Hk Hc Hm Hf h. destruct (processPacket_app payload c k Hk Hc Hm) as (l & rnd & g & pkt' & Hr & E).
  fold h in E. exists rnd. split; [done|]. intros raw Hraw. rewrite Hraw in E.
  unfold conn_Write, writePackets. cbn [process_packets app_packet pk_record r_Content].
  fold (app_packet payload c). unfold bindM, ret. rewrite E. cbn [app is_nil].
  change (compactRawPackets _ [raw]) with [raw]. cbn [write_datagrams].
  change (c_faults (set_rand g (set_seq l c))) with (c_faults c). rewrite Hf. cbn [tail].
  eexists. split; [reflexivity|]. done.
Qed.

Lemma inner_app payload :
  payload <> [] -> InnerPlaintext_Unmarshal (payload ++ [z2b ContentTypeApplicationData]) =
    Ok (mkInner payload ContentTypeApplicationData 0).
Proof.
  intros Hp. apply (inner_plaintext_roundtrip (mkInner payload ContentTypeApplicationData 0)); [done|].
  unfold ContentTypeApplicationData. simpl. lia.
Qed.

(** After decryption: a plain record of application data is delivered. *)
Lemma dispatch_app h b cid a ref enqueue c d payload v e s :
  (fb_size (fragmentBuf c) + length b < fragmentBufferMaxSize)%nat ->
  replayDetector c !! Z.to_nat (Epoch h) = Some d -> Epoch h <> 0%Z ->
  header_wf (mkHeader ContentTypeApplicationData v Version1_2 e s []) ->
  b = header_bytes (mkHeader ContentTypeApplicationData v Version1_2 e s []) ++ payload ->
  exists c', dispatch_record true h b cid a ref enqueue c = (Ok nothing, c') /\
    decrypted c' = decrypted c ++ [payload].
Proof.
  intros Hroom Hd He Hw Hb. set (hh := mkHeader _ _ _ _ _ _) in *.
  pose proof (Header_roundtrip zero_Header hh payload Hw eq_refl) as Hu. rewrite <- Hb in Hu.
  unfold dispatch_record, push. rewrite (proj2 (Nat.leb_gt _ _)) by lia. rewrite Hu.
  change (ContentType (with_len hh (ContentLen zero_Header))) with ContentTypeApplicationData.
  cbn [negb Z.eqb ContentTypeApplicationData ContentTypeHandshake Pos.eqb].
  unfold RecordLayer_Unmarshal. rewrite Hu. cbn [res_bind].
  assert (Hfrom : from (Header_Size (with_len hh (ContentLen zero_Header))
    + length (ConnectionID (with_len hh (ContentLen zero_Header)))) b = Ok payload).
  { change (Header_Size (with_len hh _) + length (ConnectionID (with_len hh _)))%nat with (Header_Size hh).
    rewrite Hb. apply header_split. }
  rewrite Hfrom. change (ContentType (with_len hh (ContentLen zero_Header))) with ContentTypeApplicationData.
  cbn [Z.eqb ContentTypeApplicationData ContentTypeHandshake ContentTypeAlert ContentTypeChangeCipherSpec Pos.eqb
    res_bind ApplicationData_Unmarshal r_Content].
  unfold dispatch_content. destruct (Z.eqb_spec (Epoch h) 0); [done|].
  destruct (mark_valid_spec (Epoch h) (SequenceNumber h) (set_fragments (fragmentBuf c) c) d Hd)
    as (lt & d' & -> & _). eexists. split; [reflexivity|].
  destruct (cid && lt); [case_decide|]; done.
Qed.

Lemma handle_app payload e s cid n body a ref enqueue c k :
  let h := with_len (app_header e s cid payload) n in
  let d := header_bytes h ++ body in
  cipherSuite c = Some (Some k) -> localConnectionID c = cid ->
  (0 < e <= remoteEpoch c)%Z -> (remoteEpoch c < 65536)%Z -> (0 <= s <= MaxSequenceNumber)%Z -> (0 <= n < 65536)%Z ->
  (Z.of_nat (length payload) <= max_payload)%Z -> (cid <> [] -> payload <> []) ->
  (forall x, grow_replay e c !! Z.to_nat e = Some x -> rd_ok x s = true) ->
  (fb_size (fragmentBuf c) + 14 + length payload < fragmentBufferMaxSize)%nat ->
  (forall h0, length (ConnectionID h0) = length cid -> rc_Decrypt k h0 d = Ok (header_bytes h ++ app_plain cid payload)) ->
  exists c', handleIncomingPacket true ref d a enqueue c = (Ok nothing, c') /\
    decrypted c' = decrypted c ++ [payload].
Proof.
  intros h d Hk Hcid He Hre Hs Hn Hp Hne Hok Hroom Hdec. unfold max_payload in Hp.
  assert (Hw : header_wf h) by (apply header_wf_with_len; [apply app_header_wf; lia|lia]).
  assert (Hcidh : ConnectionID h = cid) by (unfold h, app_header; by destruct cid).
  assert (Hnum : Epoch h = e /\ SequenceNumber h = s) by (unfold h, app_header; by destruct cid).
  destruct Hnum as [Hhe Hhs].
  unfold handleIncomingPacket. rewrite Hcid.
  rewrite (Header_roundtrip _ h body Hw) by (rewrite Hcidh; apply length_replicate).
  cbn [ContentLen]. set (h1 := with_len h 0).
  change (Epoch h1) with (Epoch h). change (SequenceNumber h1) with (SequenceNumber h). rewrite Hhe, Hhs.
  destruct (Z.ltb_spec (remoteEpoch c) e); [lia|]. cbv zeta.
  change (replayDetector (set_replay _ c)) with (grow_replay e c).
  destruct (grow_replay_has c e) as [x Hx]. rewrite Hx, (Hok x Hx). cbn [negb].
  destruct (Z.eqb_spec e 0); [lia|]. change (cipherSuite (set_replay _ c)) with (cipherSuite c). rewrite Hk.
  change (localConnectionID (set_replay _ c)) with (localConnectionID c). rewrite Hcid.
  assert (Hd : decrypt_record k h1 d cid = Ok (Some (
    header_bytes (mkHeader ContentTypeApplicationData
      (if is_nil cid then n else u16 (Z.of_nat (length payload))) Version1_2 e s []) ++ payload, negb (is_nil cid)))).
  { unfold decrypt_record. change (ContentType h1) with (ContentType h).
    change (ConnectionID h1) with (ConnectionID h). rewrite Hcidh.
    destruct cid as [|b cid']; cbn [length Nat.ltb Nat.leb andb is_nil negb].
    - change (ContentType h) with ContentTypeApplicationData.
      cbn [Z.eqb ContentTypeApplicationData ContentTypeConnectionID Pos.eqb].
      rewrite Hdec by done. cbn [res_bind app_plain is_nil]. by rewrite bool_decide_true.
    - change (ContentType h) with ContentTypeConnectionID. rewrite Z.eqb_refl. cbn [negb andb].
      rewrite Hdec by (exact (length_replicate (length (b :: cid')) zero_byte)). cbn [app_plain is_nil].
      change (Header_Size h1) with (Header_Size h). rewrite (proj1 (header_split h _)). cbn [res_bind].
      rewrite inner_app by (by apply Hne).
      cbn [IContent RealType]. change (HVersion h1) with Version1_2.
      rewrite Header_Marshal_eq by (simpl; lia). cbn [res_bind].
      rewrite bool_decide_true by done. change (Epoch h1) with (Epoch h). change (SequenceNumber h1) with (SequenceNumber h).
      by rewrite Hhe, Hhs. }
  rewrite Hd.
  eapply (dispatch_app h1 _ _ a ref enqueue (set_replay (grow_replay e c) c) x payload
    (if is_nil cid then n else u16 (Z.of_nat (length payload))) e s).
  - simpl fragmentBuf. rewrite length_app, length_header_bytes. unfold Header_Size, FixedHeaderSize. simpl. lia.
  - change (Epoch h1) with (Epoch h). rewrite Hhe. exact Hx.
  - change (Epoch h1) with (Epoch h). rewrite Hhe. lia.
  - split; simpl; try done; unfold ContentTypeApplicationData; try lia; try (by right).
    destruct (is_nil cid); [lia|]. apply (wrap_range 16). lia.
  - reflexivity.
Qed.

(** A record that was cut off is refused. *)
Lemma truncated_refused cid d n :
  is_record cid d -> (0 < n < length d)%nat ->
  ContentAwareUnpackDatagram (take n d) cid = Err ErrInvalidPacketLength.
Proof.
  intros [Hd1 Hd2] Hn. unfold ContentAwareUnpackDatagram.
  destruct (cid_unpack_sound (length (take n d)) (take n d) cid 0 (take n d) [] (At_start _) ltac:(lia))
    as [He|(rs & He & [Hrs _] & Hc)]; [done|]. exfalso.
  destruct rs as [|r rs]; [apply (f_equal length) in Hc; rewrite length_take in Hc; simpl in Hc; lia|].
  apply Forall_cons in Hrs as [[Hr1 Hr2] _]. cbn [concat] in Hc.
  assert (Hpre : d = r ++ concat rs ++ drop n d) by (by rewrite app_assoc, Hc, take_drop).
  pose proof (hsize_bound cid r) as Hb. assert (Hne : r <> []) by (intros ->; simpl in *; lia).
  assert (Hh : hsize cid d = hsize cid r) by (rewrite Hpre; by apply hsize_app).
  assert (Ha : announced cid d = announced cid r).
  { unfold announced. rewrite Hh. rewrite Hpre at 1. by rewrite slice_app_l by lia. }
  apply (f_equal length) in Hc. rewrite length_app, length_take in Hc. lia.
Qed.
End both.

(** C30: what one connection writes the other reads.  With matching keys, the
    same connection identifier and an epoch the receiver has reached, [Write]
    succeeds with one datagram, and reading that datagram delivers exactly the
    payload, through numbering, wrapping, encryption, datagram and record
    decoding, replay check, decryption and dispatch.  A datagram longer than
    the 8192-byte read buffer, which [Write] produces without an error, is
    cut and refused. *)
Theorem write_then_read {C D G addr} `{Cryptobyte} `{RecordCipher C} `{ReplayDetector D} `{Rand G}
    `{EqDecision addr} (c1 c2 : Conn C D G addr) k1 k2 payload a id st :
  cipherSuite c1 = Some (Some k1) -> cipherSuite c2 = Some (Some k2) -> rc_peer k1 k2 ->
  counters_ok c1 -> (counter c1 (localEpoch c1) <= MaxSequenceNumber)%Z -> c_faults c1 = [] ->
  localConnectionID c2 = remoteConnectionID c1 -> (length (remoteConnectionID c1) < 256)%nat ->
  (0 < localEpoch c1 <= remoteEpoch c2)%Z -> (remoteEpoch c2 < 65536)%Z ->
  (forall x, grow_replay (localEpoch c1) c2 !! Z.to_nat (localEpoch c1) = Some x ->
     rd_ok x (counter c1 (localEpoch c1)) = true) ->
  (Z.of_nat (length payload) < max_payload)%Z -> (remoteConnectionID c1 <> [] -> payload <> []) ->
  (fb_size (fragmentBuf c2) + 14 + length payload < fragmentBufferMaxSize)%nat ->
  length (buffer st id) = inboundBufferSize ->
  exists d c1', conn_Write payload c1 = (length payload, None, c1') /\
    c_sent c1' = c_sent c1 ++ [(rAddr c1, d)] /\
    if decide (length d <= inboundBufferSize)%nat
    then exists st' c2', readAndBuffer true id (Ok (d, a)) st c2 = (Handled false false, st', c2') /\
           decrypted c2' = decrypted c2 ++ [payload]
    else exists st', readAndBuffer true id (Ok (d, a)) st c2 = (Failed (CDerr ErrInvalidPacketLength), st', c2).
Proof.
  intros Hk1 Hk2 Hpeer Hc Hm Hf Hcid Hcl He Hre Hok Hp Hne Hroom Hbuf.
  destruct (conn_Write_app payload c1 k1 Hk1 Hc Hm Hf) as (rnd & Hr & Hwr).
  set (cid := remoteConnectionID c1) in *. set (e := localEpoch c1) in *. set (s := counter c1 e) in *.
  pose proof (counter_range c1 e Hc) as Hs. fold s in Hs.
  assert (Hw : header_wf (app_header e s cid payload)) by (apply app_header_wf; lia).
  assert (Hhc : ConnectionID (app_header e s cid payload) = cid) by (unfold app_header; by destruct cid).
  destruct (rc_roundtrip k1 k2 Hpeer (app_header e s cid payload) (app_plain cid payload) rnd Hw)
    as (body & Henc & Hb1 & Hb2 & Hdec).
  - by rewrite Hhc.
  - unfold app_header. by destruct cid.
  - unfold app_header, app_plain. destruct cid; [done|]. intros _. cbn [is_nil]. by rewrite inner_app by (by apply Hne).
  - unfold app_plain, max_payload in *. destruct (is_nil cid); rewrite ?length_app; simpl; lia.
  - done.
  - rewrite Hhc in Hdec. set (h := with_len _ _) in *. destruct (Hwr _ Henc) as (c1' & Hwrite & Hsent).
    exists (header_bytes h ++ body), c1'. split_and!; [done|done|]. set (d := header_bytes h ++ body) in *.
    assert (Hwh : header_wf h) by (apply header_wf_with_len; [done|lia]).
    assert (Hch : ContentType h = ContentTypeConnectionID -> length (ConnectionID h) = length cid)
      by (intros _; change (ConnectionID h) with (ConnectionID (app_header e s cid payload)); by rewrite Hhc).
    assert (Hrec : is_record (length cid) d) by (by apply marshalled_is_record).
    assert (Hd0 : length d = (Header_Size h + length body)%nat)
      by (unfold d; by rewrite length_app, length_header_bytes).
    unfold readAndBuffer. rewrite Hcid. fold cid. case_decide as Hl.
    + rewrite (Nat.min_l _ _ Hl).
      rewrite (splice_app_0 d) by (rewrite Hbuf; done). rewrite take_app_length.
      assert (Hu : ContentAwareUnpackDatagram d (length cid) = Ok [d]).
      { unfold ContentAwareUnpackDatagram. rewrite (cid_unpack_complete _ _ _ _ _ [d]); [done|..].
        - simpl. rewrite app_nil_r. apply At_start.
        - simpl. rewrite app_nil_r. done.
        - split; [by constructor|]. intros r [= <-]. unfold d at 1.
          rewrite marshalled_hsize by done. lia. }
      rewrite Hu. cbn [refs_of zip replicate length zip_with handle_all].
      destruct (handle_app payload e s cid (Z.of_nat (length body)) body a (mkRef id 0 (length d)) true c2 k2)
        as (c2' & Hh & Hdel); try done; try lia.
      fold h d in Hh. rewrite Hh. cbn. by eexists _, _.
    + rewrite (Nat.min_r (length d)) by lia.
      assert (Ht : take inboundBufferSize (splice 0 d (buffer st id)) = take inboundBufferSize d).
      { unfold splice. rewrite take_0, Nat.sub_0_r, Hbuf, drop_ge by (rewrite Hbuf; lia).
        cbn [app]. rewrite app_nil_r, take_take. f_equal; lia. }
      rewrite Ht, truncated_refused; [by eexists|done|]. pose proof inboundBufferSize_eq. lia.
Qed.

Lemma write_then_read_witness :
  exists d c1', conn_Write [z2b 104; z2b 105] (toy_conn 1 [z2b 9]) = (2%nat, None, c1') /\
    c_sent c1' = [(7%nat, d)] /\
    if decide (length d <= inboundBufferSize)%nat
    then exists st' c2', readAndBuffer true 0 (Ok (d, 7%nat)) ∅ (toy_conn 1 [z2b 9]) = (Handled false false, st', c2') /\
           decrypted c2' = [[z2b 104; z2b 105]]
    else exists st', readAndBuffer true 0 (Ok (d, 7%nat)) ∅ (toy_conn 1 [z2b 9])
           = (Failed (CDerr ErrInvalidPacketLength), st', toy_conn 1 [z2b 9]).
Proof.
  apply (write_then_read (toy_conn 1 [z2b 9]) (toy_conn 1 [z2b 9]) toy_suite toy_suite [z2b 104; z2b 105] 7%nat 0 ∅).
  - reflexivity.
  - reflexivity.
  - split_and!; try reflexivity; simpl; lia.
  - constructor.
  - discriminate.
  - reflexivity.
  - reflexivity.
  - simpl. lia.
  - simpl. lia.
  - simpl. lia.
  - intros x [= <-]. reflexivity.
  - unfold max_payload. simpl. lia.
  - discriminate.
  - pose proof fragmentBufferMaxSize_eq. change (fb_size (fragmentBuf (toy_conn 1 [z2b 9]))) with 0%nat. simpl. lia.
  - apply (length_replicate inboundBufferSize zero_byte).
Defined.

(** ** Packets queued across datagrams *)

Section queue.
Context {C D G addr : Type} `{Cryptobyte} `{RecordCipher C} `{ReplayDetector D} `{Rand G} `{EqDecision addr}.

Lemma deref_read st id d :
  length (buffer st id) = inboundBufferSize -> (length d <= inboundBufferSize)%nat ->
  forall r, rf_buf r = id -> (rf_off r + rf_len r <= length d)%nat ->
  deref (<[id := splice 0 d (buffer st id)]> st) r = slice (rf_off r) (rf_off r + rf_len r) d.
Proof.
  intros Hb Hd r Hr Hl. unfold deref, buffer at 1. rewrite Hr, lookup_insert_eq. cbn [default].
  rewrite splice_app_0 by lia. by apply slice_app_l.
Qed.

Lemma readAndBuffer_store sel id d a st (c : Conn C D G addr) :
  snd (fst (readAndBuffer sel id (Ok (d, a)) st c)) = <[id := splice 0 d (buffer st id)]> st.
Proof.
  unfold readAndBuffer. destruct (ContentAwareUnpackDatagram _ _); [|done].
  by destruct (handle_all _ _ _ _ _ c).
Qed.
End queue.

(** a packet of the next epoch that is queued until the keys are ready is
    a slice of the pooled read buffer, which is returned to the pool when the
    read ends.  It is intact until then; the next datagram that is read into
    that buffer overwrites it, so that the queue later yields the beginning
    of another datagram in its place. *)
Theorem queued_packet_overwritten {C D G addr} `{Cryptobyte} `{RecordCipher C} `{ReplayDetector D} `{Rand G}
    `{EqDecision addr} sel id st (c : Conn C D G addr) h body d2 a a2 :
  let d1 := header_bytes h ++ body in
  header_wf h -> ContentLen h = Z.of_nat (length body) -> (0 < length body)%nat ->
  Epoch h = (remoteEpoch c + 1)%Z -> (0 <= remoteEpoch c)%Z ->
  localConnectionID c = [] -> ContentType h <> ContentTypeConnectionID -> encryptedPackets c = [] ->
  length (buffer st id) = inboundBufferSize -> (length d1 <= length d2 <= inboundBufferSize)%nat ->
  let '(_, st1, c1) := readAndBuffer sel id (Ok (d1, a)) st c in
  let '(_, st2, _) := readAndBuffer sel id (Ok (d2, a2)) st1 c1 in
  exists r, encryptedPackets c1 = [(a, r)] /\ deref st1 r = d1 /\ deref st2 r = take (length d1) d2.
Proof.
  intros d1 Hw Hlen Hb He Hr Hcid Hct Hq Hbuf Hd.
  pose proof (readAndBuffer_store sel id d1 a st c) as Hst1.
  destruct (readAndBuffer sel id (Ok (d1, a)) st c) as [[o1 st1] c1] eqn:E1. cbn [fst snd] in Hst1.
  pose proof (readAndBuffer_store sel id d2 a2 st1 c1) as Hst2.
  destruct (readAndBuffer sel id (Ok (d2, a2)) st1 c1) as [[o2 st2] c2]. cbn [fst snd] in Hst2.
  exists (mkRef id 0 (length d1)).
  assert (Hb1 : length (buffer st1 id) = inboundBufferSize).
  { rewrite Hst1. unfold buffer at 1. rewrite lookup_insert_eq. simpl. etransitivity; [apply length_splice|done]. }
  split_and!.
  - unfold readAndBuffer in E1. rewrite Hcid in E1. rewrite (Nat.min_l (length d1)) in E1 by lia.
    rewrite (splice_app_0 d1), take_app_length in E1 by lia.
    assert (Hu : ContentAwareUnpackDatagram d1 0 = Ok [d1]).
    { unfold ContentAwareUnpackDatagram. rewrite (cid_unpack_complete _ _ _ _ _ [d1]); [done|..].
      - simpl. rewrite app_nil_r. apply At_start.
      - simpl. rewrite app_nil_r. done.
      - split; [constructor; [by apply marshalled_is_record|constructor]|]. intros x [= <-].
        unfold d1. rewrite marshalled_hsize by done. rewrite length_app, length_header_bytes. lia. }
    simpl length in E1. rewrite Hu in E1. cbn [refs_of zip replicate length zip_with handle_all] in E1.
    destruct (handleIncomingPacket sel (mkRef id 0 (length d1)) d1 a true c) as [r0 c0] eqn:Eh.
    apply handle_effects in Eh. unfold header_of in Eh. rewrite Hcid in Eh.
    rewrite (Header_roundtrip _ h body Hw) in Eh by (simpl; by rewrite (hw_cid _ Hw)).
    destruct Eh as (_ & _ & Hnext).
    change (Epoch (with_len h _)) with (Epoch h) in Hnext. pose proof (hw_epoch _ Hw).
    rewrite (wrap_small 16 (remoteEpoch c + 1)) in Hnext by lia.
    rewrite He, Z.leb_refl in Hnext. cbn [andb] in Hnext. destruct Hnext as [-> ->]; [lia|].
    cbn in E1. injection E1 as _ _ <-. unfold enqueueEncryptedPackets. rewrite Hq. done.
  - rewrite Hst1, deref_read by first [done | cbn [rf_off rf_len]; lia]. unfold slice. cbn [rf_off rf_len]. by rewrite drop_0, Nat.add_0_l, Nat.sub_0_r, firstn_all.
  - rewrite Hst2, deref_read by first [done | cbn [rf_off rf_len]; lia]. unfold slice. cbn [rf_off rf_len]. by rewrite drop_0, Nat.add_0_l, Nat.sub_0_r.
Qed.

(** A record of epoch 1 on a connection in epoch 0, then another datagram. *)
Lemma queued_packet_overwritten_witness :
  let c := set_seq [] (toy_conn 0 []) in
  let h := mkHeader ContentTypeApplicationData 1 Version1_2 1 0 [] in
  let d1 := header_bytes h ++ [z2b 1] in
  let '(_, st1, c1) := readAndBuffer true 0 (Ok (d1, 7%nat)) ∅ c in
  let '(_, st2, _) := readAndBuffer true 0 (Ok (replicate 20 (z2b 0), 8%nat)) st1 c1 in
  exists r, encryptedPackets c1 = [(7%nat, r)] /\ deref st1 r = d1 /\
    deref st2 r = take (length d1) (replicate 20 (z2b 0)).
Proof.
  apply (queued_packet_overwritten true 0 ∅ (set_seq [] (toy_conn 0 []))
    (mkHeader ContentTypeApplicationData 1 Version1_2 1 0 []) [z2b 1]).
  - split; simpl; unfold ContentTypeApplicationData, MaxSequenceNumber; try lia; try done; by right.
  - reflexivity.
  - simpl. lia.
  - reflexivity.
  - simpl. lia.
  - reflexivity.
  - discriminate.
  - reflexivity.
  - apply (length_replicate inboundBufferSize zero_byte).
  - pose proof inboundBufferSize_eq. rewrite length_app, length_header_bytes. unfold Header_Size, FixedHeaderSize. simpl length.
    lia.
Defined.
