(* ===== verification/DtlsSuites.v ===== *)
(** * Cipher suites, signatures and certificates of the DTLS handshake

    Of golib/replace/dtls: cipher_suite.go (the table of suites and the
    selection of the configured ones), util.go, certificate.go, crypto.go
    (signatures of the key exchange and of the transcript), the validation of
    config.go, pkg/crypto/signaturehash, pkg/crypto/hash and the key agreement
    of pkg/crypto/elliptic and pkg/crypto/prf.

    X.509, the signature schemes, the digests and the curve arithmetic of the
    Go libraries are the classes [Pki] and [Curves]. *)

From S2P Require Import Prelude IO GoStr DtlsWire DtlsExt DtlsHandshake DtlsCrypto.
Open Scope Z_scope.

(** Errors: those of the codecs, the error variables of the package by name,
    and errors of the Go libraries and of callbacks. *)
Inductive herr :=
  | HDerr (e : derr)
  | HVar (name : string)
  | HExt (code : Z).

Definition of_derr {A} (r : res derr A) : res herr A := match r with Ok a => Ok a | Err e => Err (HDerr e) end.

(** ** Suites *)

Inductive AuthenticationType := AuthCertificate | AuthPreSharedKey | AuthAnonymous.

#[export] Instance AuthenticationType_eq_dec : EqDecision AuthenticationType.
Proof. solve_decision. Defined.

Inductive hash_kind := SHA256_ | SHA384_.

Record csuite := mkSuite {
  cs_ID : Z;
  cs_CertificateType : Z;
  cs_hash : hash_kind;
  cs_auth : AuthenticationType;
  cs_kx : Z;
  cs_ECC : bool
}.

Definition RSASign : Z := 1.
Definition ECDSASign : Z := 64.

Definition kx_Psk : Z := KeyExchangeAlgorithmPsk.
Definition kx_Ecdhe : Z := KeyExchangeAlgorithmEcdhe.

Definition TLS_ECDHE_ECDSA_WITH_AES_128_CCM := mkSuite 49324 ECDSASign SHA256_ AuthCertificate kx_Ecdhe true.
Definition TLS_ECDHE_ECDSA_WITH_AES_128_CCM_8 := mkSuite 49326 ECDSASign SHA256_ AuthCertificate kx_Ecdhe true.
Definition TLS_ECDHE_ECDSA_WITH_AES_128_GCM_SHA256 := mkSuite 49195 ECDSASign SHA256_ AuthCertificate kx_Ecdhe true.
Definition TLS_ECDHE_RSA_WITH_AES_128_GCM_SHA256 := mkSuite 49199 RSASign SHA256_ AuthCertificate kx_Ecdhe true.
Definition TLS_ECDHE_ECDSA_WITH_AES_256_GCM_SHA384 := mkSuite 49196 ECDSASign SHA384_ AuthCertificate kx_Ecdhe true.
Definition TLS_ECDHE_RSA_WITH_AES_256_GCM_SHA384 := mkSuite 49200 RSASign SHA384_ AuthCertificate kx_Ecdhe true.
Definition TLS_ECDHE_ECDSA_WITH_AES_256_CBC_SHA := mkSuite 49162 ECDSASign SHA256_ AuthCertificate kx_Ecdhe true.
Definition TLS_ECDHE_RSA_WITH_AES_256_CBC_SHA := mkSuite 49172 RSASign SHA256_ AuthCertificate kx_Ecdhe true.
Definition TLS_PSK_WITH_AES_128_CCM := mkSuite 49316 0 SHA256_ AuthPreSharedKey kx_Psk false.
Definition TLS_PSK_WITH_AES_128_CCM_8 := mkSuite 49320 0 SHA256_ AuthPreSharedKey kx_Psk false.
Definition TLS_PSK_WITH_AES_256_CCM_8 := mkSuite 49321 0 SHA256_ AuthPreSharedKey kx_Psk false.
Definition TLS_PSK_WITH_AES_128_GCM_SHA256 := mkSuite 168 0 SHA256_ AuthPreSharedKey kx_Psk true.
Definition TLS_PSK_WITH_AES_128_CBC_SHA256 := mkSuite 174 0 SHA256_ AuthPreSharedKey kx_Psk false.
Definition TLS_ECDHE_PSK_WITH_AES_128_CBC_SHA256 :=
  mkSuite 49207 0 SHA256_ AuthPreSharedKey (Z.lor kx_Psk kx_Ecdhe) true.

Definition known_suites : list csuite :=
  [TLS_ECDHE_ECDSA_WITH_AES_128_CCM; TLS_ECDHE_ECDSA_WITH_AES_128_CCM_8; TLS_ECDHE_ECDSA_WITH_AES_128_GCM_SHA256;
   TLS_ECDHE_RSA_WITH_AES_128_GCM_SHA256; TLS_ECDHE_ECDSA_WITH_AES_256_CBC_SHA; TLS_ECDHE_RSA_WITH_AES_256_CBC_SHA;
   TLS_PSK_WITH_AES_128_CCM; TLS_PSK_WITH_AES_128_CCM_8; TLS_PSK_WITH_AES_256_CCM_8; TLS_PSK_WITH_AES_128_GCM_SHA256;
   TLS_PSK_WITH_AES_128_CBC_SHA256; TLS_ECDHE_ECDSA_WITH_AES_256_GCM_SHA384; TLS_ECDHE_RSA_WITH_AES_256_GCM_SHA384;
   TLS_ECDHE_PSK_WITH_AES_128_CBC_SHA256].

Definition find_suite (id : Z) (l : list csuite) : option csuite := List.find (fun c => cs_ID c =? id) l.

(** [customCiphers] are what the callback returns; none without one. *)
Definition cipherSuiteForID (id : Z) (customCiphers : list csuite) : option csuite :=
  match find_suite id known_suites with
  | Some c => Some c
  | None => find_suite id customCiphers
  end.

Definition defaultCipherSuites : list csuite :=
  [TLS_ECDHE_ECDSA_WITH_AES_128_GCM_SHA256; TLS_ECDHE_RSA_WITH_AES_128_GCM_SHA256;
   TLS_ECDHE_ECDSA_WITH_AES_256_CBC_SHA; TLS_ECDHE_RSA_WITH_AES_256_CBC_SHA;
   TLS_ECDHE_ECDSA_WITH_AES_256_GCM_SHA384; TLS_ECDHE_RSA_WITH_AES_256_GCM_SHA384].

Definition cipherSuiteIDs (l : list csuite) : list Z := map cs_ID l.

Fixpoint cipherSuitesForIDs (ids : list Z) : res herr (list csuite) :=
  match ids with
  | [] => Ok []
  | id :: ids =>
      match cipherSuiteForID id [] with
      | None => Err (HVar "invalidCipherSuiteError")
      | Some c => let! cs := cipherSuitesForIDs ids in Ok (c :: cs)
      end
  end.

(** The loop of [parseCipherSuites] compacts the slice in place: [k] is the
    position read, [i] the position written. *)
Record found := mkFound { f_cert : bool; f_psk : bool; f_anon : bool }.

Definition suite_step (cert psk : bool) (c : csuite) (f : found) : option found :=
  if cert && bool_decide (cs_auth c = AuthCertificate) then Some (mkFound true (f_psk f) (f_anon f))
  else if psk && bool_decide (cs_auth c = AuthPreSharedKey) then Some (mkFound (f_cert f) true (f_anon f))
  else if bool_decide (cs_auth c = AuthAnonymous) then Some (mkFound (f_cert f) (f_psk f) true)
  else None.

Fixpoint compact_suites (cert psk : bool) (n k i : nat) (l : list csuite) (f : found) : nat * list csuite * found :=
  match n with
  | O => (i, l, f)
  | S n =>
      match l !! k with
      | None => (i, l, f)
      | Some c =>
          match suite_step cert psk c f with
          | Some f => compact_suites cert psk n (S k) (S i) (<[i := c]> l) f
          | None => compact_suites cert psk n (S k) i l f
          end
      end
  end.

Definition parseCipherSuites (userSelectedSuites : option (list Z)) (customCipherSuites : list csuite)
    (includeCertificateSuites includePSKSuites : bool) : res herr (list csuite) :=
  let! cipherSuites := match userSelectedSuites with
                       | Some ids => cipherSuitesForIDs ids
                       | None => Ok defaultCipherSuites
                       end in
  let cipherSuites := customCipherSuites ++ cipherSuites in
  let '(i, l, f) := compact_suites includeCertificateSuites includePSKSuites (length cipherSuites) 0 0 cipherSuites
                      (mkFound false false false) in
  if includeCertificateSuites && negb (f_cert f) && negb (f_anon f) then Err (HVar "errNoAvailableCertificateCipherSuite")
  else if includePSKSuites && negb (f_psk f) then Err (HVar "errNoAvailablePSKCipherSuite")
  else if (i =? 0)%nat then Err (HVar "errNoAvailableCipherSuites")
  else Ok (take i l).

(** util.go: the first of [a] that is in [b]. *)
Fixpoint findMatchingSRTPProfile (a b : list Z) : option Z :=
  match a with
  | [] => None
  | p :: a => if existsb (Z.eqb p) b then Some p else findMatchingSRTPProfile a b
  end.

Fixpoint findMatchingCipherSuite (a b : list csuite) : option csuite :=
  match a with
  | [] => None
  | c :: a => if existsb (fun d => cs_ID c =? cs_ID d) b then Some c else findMatchingCipherSuite a b
  end.

(** ** Public keys, signers and certificates *)

Inductive pubkey (P : Type) := PubEd25519 (k : P) | PubEcdsa (k : P) | PubRsa (k : P) | PubOther.
Arguments PubEd25519 {P}. Arguments PubEcdsa {P}. Arguments PubRsa {P}. Arguments PubOther {P}.

Record VerifyOptions (X : Type) := mkVerifyOptions {
  vo_Roots : option (list X); vo_DNSName : string; vo_Intermediates : list X; vo_KeyUsages : list Z
}.
Arguments mkVerifyOptions {X}.

Definition ExtKeyUsageClientAuth : Z := 2.

(** Keys [P], signers [SG], certificates [X], random source [G]. *)
Class Pki (P SG X G : Type) := {
  digest_sum : Z -> bytes -> bytes;                    (* MD5 .. SHA512, by the TLS number *)
  signer_Public : SG -> pubkey P;
  signer_Sign : SG -> bytes -> Z -> G -> res herr bytes * G;
  ed25519_Verify : P -> bytes -> bytes -> bool;
  asn1_ecdsa : bytes -> res herr (Z * Z);
  ecdsa_Verify : P -> bytes -> Z -> Z -> bool;
  rsa_VerifyPKCS1v15 : P -> Z -> bytes -> bytes -> bool;
  x509_Parse : bytes -> res herr X;
  cert_PublicKey : X -> pubkey P;
  cert_RawIssuer : X -> bytes;
  cert_CommonName : X -> string;
  cert_DNSNames : X -> list string;
  cert_Verify : X -> VerifyOptions X -> res herr (list (list X));
  sign_ed25519 : forall s k m g sg g', signer_Public s = PubEd25519 k -> signer_Sign s m 0 g = (Ok sg, g') ->
    ed25519_Verify k m sg = true;
  sign_ecdsa : forall s k d h g sg g', signer_Public s = PubEcdsa k -> signer_Sign s d h g = (Ok sg, g') ->
    exists r t, asn1_ecdsa sg = Ok (r, t) /\ 0 < r /\ 0 < t /\ ecdsa_Verify k d r t = true;
  sign_rsa : forall s k d h g sg g', signer_Public s = PubRsa k -> signer_Sign s d h g = (Ok sg, g') ->
    rsa_VerifyPKCS1v15 k h d sg = true
}.

(** The algorithm numbers of pkg/crypto/hash and pkg/crypto/signature. *)
Definition hash_Ed25519 : Z := 8.
Definition sig_RSA : Z := 1.
Definition sig_ECDSA : Z := 3.
Definition sig_Ed25519 : Z := 7.

(** [signaturehash.Algorithms]: pairs of a hash and a signature algorithm. *)
Definition Algorithms : list (Z * Z) :=
  [(4, sig_ECDSA); (5, sig_ECDSA); (6, sig_ECDSA); (4, sig_RSA); (5, sig_RSA); (6, sig_RSA); (hash_Ed25519, sig_Ed25519)].

Definition hash_algorithms : list Z := [0; 1; 2; 3; 4; 5; 6; 8].
Definition signature_algorithms : list Z := [0; 1; 3; 7].
Definition Insecure (h : Z) : bool := existsb (Z.eqb h) [0; 1; 2].

Fixpoint ParseSignatureSchemes_loop (sigs : list Z) (insecureHashes : bool) : res herr (list (Z * Z)) :=
  match sigs with
  | [] => Ok []
  | ss :: sigs =>
      let sig := Z.land ss 255 in
      if negb (existsb (Z.eqb sig) signature_algorithms) then Err (HVar "errInvalidSignatureAlgorithm")
      else
        let h := Z.shiftr ss 8 in
        if negb (existsb (Z.eqb h) hash_algorithms) || (h =? 0) then Err (HVar "errInvalidHashAlgorithm")
        else
          let! rest := ParseSignatureSchemes_loop sigs insecureHashes in
          Ok (if Insecure h && negb insecureHashes then rest else (h, sig) :: rest)
  end.

Definition ParseSignatureSchemes (sigs : list Z) (insecureHashes : bool) : res herr (list (Z * Z)) :=
  match sigs with
  | [] => Ok Algorithms
  | _ =>
      let! out := ParseSignatureSchemes_loop sigs insecureHashes in
      match out with [] => Err (HVar "errNoAvailableSignatureSchemes") | _ => Ok out end
  end.

(** [CryptoHash]: the numbers of Go's [crypto.Hash]. *)
Definition CryptoHash (a : Z) : Z := if (1 <=? a) && (a <=? 6) then a + 1 else 0.

Section pki.
Context {P SG X G : Type} `{PK : Pki P SG X G}.

Definition Digest (a : Z) (b : bytes) : bytes := if (1 <=? a) && (a <=? 6) then digest_sum a b else [].

Definition isCompatible (a : Z * Z) (signer : SG) : bool :=
  match signer_Public signer with
  | PubEd25519 _ => a.2 =? sig_Ed25519
  | PubEcdsa _ => a.2 =? sig_ECDSA
  | PubRsa _ => a.2 =? sig_RSA
  | PubOther => false
  end.

Definition SelectSignatureScheme (sigs : list (Z * Z)) (signer : SG) : res herr (Z * Z) :=
  match List.find (fun a => isCompatible a signer) sigs with
  | Some a => Ok a
  | None => Err (HVar "errNoAvailableSignatureSchemes")
  end.

(** ** crypto.go *)

Definition valueKeyMessage (clientRandom serverRandom publicKey : bytes) (namedCurve : Z) : bytes :=
  let p := replicate 4 zero_byte in
  let p := <[0%nat := z2b 3]> p in
  let p := splice 1 (be_put 2 namedCurve) p in
  let p := <[3%nat := z2b (Z.of_nat (length publicKey))]> p in
  clientRandom ++ serverRandom ++ p ++ publicKey.

Definition generateKeySignature (clientRandom serverRandom publicKey : bytes) (namedCurve : Z) (signer : SG)
    (hashAlgorithm : Z) (g : G) : res herr bytes * G :=
  let msg := valueKeyMessage clientRandom serverRandom publicKey namedCurve in
  match signer_Public signer with
  | PubEd25519 _ => signer_Sign signer msg 0 g
  | PubEcdsa _ | PubRsa _ => signer_Sign signer (Digest hashAlgorithm msg) (CryptoHash hashAlgorithm) g
  | PubOther => (Err (HVar "errKeySignatureGenerateUnimplemented"), g)
  end.

(** The body that [verifyKeySignature] and [verifyCertificateVerify] share. *)
Definition verify_signature (message remoteKeySignature : bytes) (hashAlgorithm : Z) (rawCertificates : list bytes)
    : res herr unit :=
  match rawCertificates with
  | [] => Err (HVar "errLengthMismatch")
  | raw :: _ =>
      let! certificate := x509_Parse raw in
      match cert_PublicKey certificate with
      | PubEd25519 k =>
          if ed25519_Verify k message remoteKeySignature then Ok tt else Err (HVar "errKeySignatureMismatch")
      | PubEcdsa k =>
          let! sg := asn1_ecdsa remoteKeySignature in
          if (sg.1 <=? 0) || (sg.2 <=? 0) then Err (HVar "errInvalidECDSASignature")
          else if ecdsa_Verify k (Digest hashAlgorithm message) sg.1 sg.2 then Ok tt
          else Err (HVar "errKeySignatureMismatch")
      | PubRsa k =>
          if rsa_VerifyPKCS1v15 k (CryptoHash hashAlgorithm) (Digest hashAlgorithm message) remoteKeySignature then Ok tt
          else Err (HVar "errKeySignatureMismatch")
      | PubOther => Err (HVar "errKeySignatureVerifyUnimplemented")
      end
  end.

Definition verifyKeySignature (message remoteKeySignature : bytes) (hashAlgorithm : Z) (rawCertificates : list bytes)
    : res herr unit :=
  verify_signature message remoteKeySignature hashAlgorithm rawCertificates.

Definition generateCertificateVerify (handshakeBodies : bytes) (signer : SG) (hashAlgorithm : Z) (g : G)
    : res herr bytes * G :=
  match signer_Public signer with
  | PubEd25519 _ => signer_Sign signer handshakeBodies 0 g
  | PubEcdsa _ | PubRsa _ => signer_Sign signer (Digest hashAlgorithm handshakeBodies) (CryptoHash hashAlgorithm) g
  | PubOther => (Err (HVar "errInvalidSignatureAlgorithm"), g)
  end.

Definition verifyCertificateVerify (handshakeBodies : bytes) (hashAlgorithm : Z) (remoteKeySignature : bytes)
    (rawCertificates : list bytes) : res herr unit :=
  verify_signature handshakeBodies remoteKeySignature hashAlgorithm rawCertificates.

Fixpoint load_loop (raw : list bytes) : res herr (list X) :=
  match raw with
  | [] => Ok []
  | r :: raw => let! c := x509_Parse r in let! cs := load_loop raw in Ok (c :: cs)
  end.

Definition loadCerts (rawCertificates : list bytes) : res herr (list X) :=
  match rawCertificates with [] => Err (HVar "errLengthMismatch") | _ => load_loop rawCertificates end.

Definition verify_chain (opts : list X -> VerifyOptions X) (rawCertificates : list bytes) : res herr (list (list X)) :=
  let! certificate := loadCerts rawCertificates in
  match certificate with
  | [] => Err (HDerr Panic)
  | c :: rest => cert_Verify c (opts rest)
  end.

Definition verifyClientCert (rawCertificates : list bytes) (roots : option (list X)) : res herr (list (list X)) :=
  verify_chain (fun inter => mkVerifyOptions roots "" inter [ExtKeyUsageClientAuth]) rawCertificates.

Definition verifyServerCert (rawCertificates : list bytes) (roots : option (list X)) (serverName : string)
    : res herr (list (list X)) :=
  verify_chain (fun inter => mkVerifyOptions roots serverName inter []) rawCertificates.

(** ** certificate.go *)

Inductive privkey := NoKey | KSigner (s : SG) | KOther.

(** [tls.Certificate]; [Certificate] may be nil. *)
Record tlsCert := mkTlsCert { tc_Certificate : option (list bytes); tc_PrivateKey : privkey; tc_Leaf : option X }.

Fixpoint supports_loop (acceptable : list bytes) (j : nat) (leaf : option X) (chain : list bytes) : res herr unit :=
  match chain with
  | [] => Err (HVar "errNotAcceptableCertificateChain")
  | raw :: chain =>
      let! c := match leaf with
                | Some x => if (j =? 0)%nat then Ok x else x509_Parse raw
                | None => x509_Parse raw
                end in
      if existsb (fun ca => bool_decide (cert_RawIssuer c = ca)) acceptable then Ok tt
      else supports_loop acceptable (j + 1) leaf chain
  end.

Definition SupportsCertificate (acceptableCAs : list bytes) (c : tlsCert) : res herr unit :=
  match acceptableCAs with
  | [] => Ok tt
  | _ => supports_loop acceptableCAs 0 (tc_Leaf c) (default [] (tc_Certificate c))
  end.

Variable ToLower : string -> string.

(** The names of one certificate; [cert.Certificate[0]] is read without a
    check of its length. *)
Definition cert_names (cert : tlsCert) : res herr (list string) :=
  let! x := match tc_Leaf cert with
            | Some x => Ok (Some x)
            | None =>
                match default [] (tc_Certificate cert) with
                | [] => Err (HDerr Panic)
                | raw :: _ => match x509_Parse raw with Ok x => Ok (Some x) | Err _ => Ok None end
                end
            end in
  match x with
  | None => Ok []
  | Some x =>
      Ok ((if decide (cert_CommonName x = EmptyString) then [] else [ToLower (cert_CommonName x)]) ++
          map ToLower (cert_DNSNames x))
  end.

Fixpoint setNameToCertificateLocked (certs : list tlsCert) (m : gmap string tlsCert) : res herr (gmap string tlsCert) :=
  match certs with
  | [] => Ok m
  | cert :: certs =>
      let! names := cert_names cert in
      setNameToCertificateLocked certs (foldl (fun m n => <[n := cert]> m) m names)
  end.

(** The labels are replaced by stars from the left, one after the other, and
    stay replaced. *)
Fixpoint wildcard_loop (n i : nat) (labels : list string) (m : gmap string tlsCert) : option tlsCert :=
  match n with
  | O => None
  | S n =>
      let labels := <[i := "*"]> labels in
      match m !! Join "." labels with
      | Some cert => Some cert
      | None => wildcard_loop n (i + 1) labels m
      end
  end.

Definition dot : Ascii.ascii := "."%char.

(** [callback] is what [localGetCertificate] returned, when it is set. *)
Definition getCertificate (localCertificates : list tlsCert) (serverName : string)
    (callback : option (res herr (option tlsCert))) : res herr tlsCert :=
  let rest :=
    let! names := setNameToCertificateLocked localCertificates ∅ in
    match localCertificates with
    | [] => Err (HVar "errNoCertificates")
    | first :: more =>
        match more with
        | [] => Ok first
        | _ =>
            if decide (serverName = EmptyString) then Ok first
            else
              let name := trim_right dot (ToLower serverName) in
              match names !! name with
              | Some cert => Ok cert
              | None =>
                  let labels := split_char dot name in
                  Ok (default first (wildcard_loop (length labels) 0 labels names))
              end
        end
    end in
  match callback with
  | Some r =>
      if bool_decide (localCertificates = []) || negb (bool_decide (serverName = EmptyString)) then
        match r with
        | Err e => Err e
        | Ok (Some cert) => Ok cert
        | Ok None => rest
        end
      else rest
  | None => rest
  end.

Definition no_certificate : tlsCert := mkTlsCert None NoKey None.

Definition getClientCertificate (localCertificates : list tlsCert) (acceptableCAs : list bytes)
    (callback : option (res herr (option tlsCert))) : res herr (option tlsCert) :=
  match callback with
  | Some r => r
  | None =>
      Ok (Some (default no_certificate
        (List.find (fun c => match SupportsCertificate acceptableCAs c with Ok _ => true | Err _ => false end)
           localCertificates)))
  end.

Definition filterCipherSuitesForCertificate (cert : option tlsCert) (cipherSuites : list csuite) : list csuite :=
  match tc_PrivateKey <$> cert with
  | Some (KSigner signer) =>
      let certType := match signer_Public signer with
                      | PubEd25519 _ | PubEcdsa _ => ECDSASign
                      | PubRsa _ => RSASign
                      | PubOther => 0
                      end in
      filter (fun c => cs_auth c <> AuthCertificate \/ certType = cs_CertificateType c) cipherSuites
  | _ => cipherSuites
  end.

(** ** config.go *)

Fixpoint validate_certs (certs : list tlsCert) : res herr unit :=
  match certs with
  | [] => Ok tt
  | cert :: certs =>
      match tc_Certificate cert with
      | None => Err (HVar "errInvalidCertificate")
      | Some _ =>
          match tc_PrivateKey cert with
          | NoKey => validate_certs certs
          | KOther => Err (HVar "errInvalidPrivateKey")
          | KSigner s => match signer_Public s with
                         | PubOther => Err (HVar "errInvalidPrivateKey")
                         | _ => validate_certs certs
                         end
          end
      end
  end.

(** [c.PSK != nil], the certificates and whether the two callbacks are set. *)
Definition includeCertificateSuites (psk : bool) (certs : list tlsCert) (getCert getClientCert : bool) : bool :=
  negb psk || negb (bool_decide (length certs = 0%nat)) || getCert || getClientCert.

Definition validateConfig (identityHint psk : bool) (certs : list tlsCert) (getCert getClientCert : bool)
    (suites : option (list Z)) (custom : list csuite) : res herr unit :=
  if identityHint && negb psk then Err (HVar "errIdentityNoPSK")
  else
    let! _ := validate_certs certs in
    let! _ := parseCipherSuites suites custom (includeCertificateSuites psk certs getCert getClientCert) psk in
    Ok tt.

End pki.

(** ** Key agreement (pkg/crypto/elliptic and prf.go) *)

Definition P256 : Z := 23.
Definition P384 : Z := 24.
Definition X25519 : Z := 29.

Record Keypair := mkKeypair { kp_Curve : Z; kp_PublicKey : bytes; kp_PrivateKey : bytes }.

(** [curve25519], [crypto/elliptic]: a generated private key with the
    marshalled public key, and the abscissa of a product. *)
Class Curves (G : Type) := {
  cv_Read : nat -> G -> res herr bytes * G;
  x25519_Base : bytes -> bytes;
  x25519_Mult : bytes -> bytes -> res herr bytes;            (* scalar, point *)
  nist_GenerateKey : Z -> G -> res herr (bytes * bytes) * G;
  nist_SharedX : Z -> bytes -> bytes -> option Z;            (* curve, point, scalar; None for a bad point *)
  cv_Read_length : forall n g b g', cv_Read n g = (Ok b, g') -> length b = n;
  x25519_agree : forall a b, length a = 32%nat -> length b = 32%nat ->
    exists v, x25519_Mult a (x25519_Base b) = Ok v /\ x25519_Mult b (x25519_Base a) = Ok v;
  nist_agree : forall c g1 k1 q1 g1' g2 k2 q2 g2',
    nist_GenerateKey c g1 = (Ok (k1, q1), g1') -> nist_GenerateKey c g2 = (Ok (k2, q2), g2') ->
    exists x, nist_SharedX c q2 k1 = Some x /\ nist_SharedX c q1 k2 = Some x
}.

Section curves.
Context {G : Type} `{CV : Curves G}.

Definition ellipticCurveKeypair (nc : Z) (g : G) : res herr Keypair * G :=
  match nist_GenerateKey nc g with
  | (Ok (k, q), g) => (Ok (mkKeypair nc q k), g)
  | (Err e, g) => (Err e, g)
  end.

Definition GenerateKeypair (c : Z) (g : G) : res herr Keypair * G :=
  if c =? X25519 then
    match cv_Read 32 g with
    | (Ok tmp, g) => (Ok (mkKeypair X25519 (x25519_Base tmp) tmp), g)
    | (Err e, g) => (Err e, g)
    end
  else if c =? P256 then ellipticCurveKeypair P256 g
  else if c =? P384 then ellipticCurveKeypair P384 g
  else (Err (HVar "errInvalidNamedCurve"), g).

(** The abscissa, padded to the size of the field. *)
Definition ellipticCurvePreMasterSecret (publicKey privateKey : bytes) (c : Z) (size : nat) : res herr bytes :=
  match nist_SharedX c publicKey privateKey with
  | None => Err (HVar "errInvalidNamedCurve")
  | Some x => Ok (be_put size x)
  end.

Definition PreMasterSecret (publicKey privateKey : bytes) (curve : Z) : res herr bytes :=
  if curve =? X25519 then x25519_Mult privateKey publicKey
  else if curve =? P256 then ellipticCurvePreMasterSecret publicKey privateKey P256 32
  else if curve =? P384 then ellipticCurvePreMasterSecret publicKey privateKey P384 48
  else Err (HVar "errInvalidNamedCurve").

Definition EcdhePSKPreMasterSecret (psk publicKey privateKey : bytes) (curve : Z) : res herr bytes :=
  let! preMasterSecret := PreMasterSecret publicKey privateKey curve in
  let n := length preMasterSecret in
  let out := replicate (2 + n + 2 + length psk) zero_byte in
  let out := splice 0 (be_put 2 (Z.of_nat n)) out in
  let out := splice 2 preMasterSecret out in
  let out := splice (2 + n) (be_put 2 (Z.of_nat (length psk))) out in
  Ok (splice (2 + n + 2) psk out).

Lemma nist_keypairs c size g1 a g1' g2 b g2' :
  ellipticCurveKeypair c g1 = (Ok a, g1') -> ellipticCurveKeypair c g2 = (Ok b, g2') ->
  kp_Curve a = c /\ kp_Curve b = c /\
  exists v, ellipticCurvePreMasterSecret (kp_PublicKey b) (kp_PrivateKey a) c size = Ok v /\
    ellipticCurvePreMasterSecret (kp_PublicKey a) (kp_PrivateKey b) c size = Ok v.
Proof.
  unfold ellipticCurveKeypair, ellipticCurvePreMasterSecret.
  destruct (nist_GenerateKey c g1) as [[[k1 q1]|] h1] eqn:E1; [|done].
  destruct (nist_GenerateKey c g2) as [[[k2 q2]|] h2] eqn:E2; [|done]. intros [= <- <-] [= <- <-].
  destruct (nist_agree _ _ _ _ _ _ _ _ _ E1 E2) as (x & Hx & Hy). cbn. rewrite Hx, Hy. split_and!; try done. by eexists.
Qed.

(** Two generated key pairs on one curve give both sides the same secret. *)
Lemma key_agreement c g1 a g1' g2 b g2' :
  GenerateKeypair c g1 = (Ok a, g1') -> GenerateKeypair c g2 = (Ok b, g2') ->
  kp_Curve a = c /\ kp_Curve b = c /\
  exists v, PreMasterSecret (kp_PublicKey b) (kp_PrivateKey a) c = Ok v /\
    PreMasterSecret (kp_PublicKey a) (kp_PrivateKey b) c = Ok v.
Proof.
  unfold GenerateKeypair, PreMasterSecret. destruct (Z.eqb_spec c X25519) as [->|].
  { destruct (cv_Read 32 g1) as [[x|] h1] eqn:E1; [|done]. destruct (cv_Read 32 g2) as [[y|] h2] eqn:E2; [|done].
    intros [= <- <-] [= <- <-]. apply cv_Read_length in E1, E2. cbn. split_and!; try done. by apply x25519_agree. }
  destruct (Z.eqb_spec c P256) as [->|]; [by apply nist_keypairs|].
  destruct (Z.eqb_spec c P384) as [->|]; [by apply nist_keypairs|done].
Qed.

End curves.

(** ** Properties: the selection of suites *)

Definition usable (cert psk : bool) (c : csuite) : bool :=
  match cs_auth c with AuthCertificate => cert | AuthPreSharedKey => psk | AuthAnonymous => true end.

Definition has_auth (a : AuthenticationType) (l : list csuite) : bool := existsb (fun c => bool_decide (cs_auth c = a)) l.

Definition seen_suites (cert psk : bool) (l : list csuite) (f : found) : found :=
  mkFound (f_cert f || cert && has_auth AuthCertificate l) (f_psk f || psk && has_auth AuthPreSharedKey l)
    (f_anon f || has_auth AuthAnonymous l).

Lemma suite_step_spec cert psk c f :
  suite_step cert psk c f = if usable cert psk c then Some (seen_suites cert psk [c] f) else None.
Proof.
  unfold suite_step, usable, seen_suites, has_auth. cbn [existsb].
  destruct (cs_auth c), cert, psk, f as [[] [] []]; reflexivity.
Qed.

Lemma seen_cons cert psk c l f :
  seen_suites cert psk (c :: l) f =
    if usable cert psk c then seen_suites cert psk l (seen_suites cert psk [c] f) else seen_suites cert psk l f.
Proof.
  unfold seen_suites, usable, has_auth. cbn [existsb f_cert f_psk f_anon].
  destruct (cs_auth c), cert, psk, f as [[] [] []]; reflexivity.
Qed.

Lemma compact_suites_spec cert psk n k i l f :
  (i <= k)%nat -> (k + n = length l)%nat ->
  exists j l', compact_suites cert psk n k i l f = (j, l', seen_suites cert psk (drop k l) f) /\
    take j l' = take i l ++ List.filter (usable cert psk) (drop k l) /\
    j = (i + length (List.filter (usable cert psk) (drop k l)))%nat.
Proof.
  revert k i l f. induction n as [|n IH]; intros k i l f Hi Hk; cbn [compact_suites].
  { rewrite (drop_ge l k) by lia. exists i, l. split; [|split; [by rewrite app_nil_r|by rewrite Nat.add_0_r]].
    unfold seen_suites, has_auth. cbn. rewrite !andb_false_r, !orb_false_r. by destruct f. }
  destruct (lookup_lt_is_Some_2 l k ltac:(lia)) as [c Hc]. rewrite Hc, suite_step_spec.
  rewrite (drop_S l c k Hc), (seen_cons cert psk c (drop (S k) l)). cbn [List.filter]. destruct (usable cert psk c) eqn:Hu; cbv iota.
  - destruct (IH (S k) (S i) (<[i := c]> l) (seen_suites cert psk [c] f)) as (j & l' & -> & Ht & Hj);
      [lia|rewrite length_insert; lia|].
    exists j, l'. rewrite drop_insert_lt in Ht, Hj by lia. rewrite drop_insert_lt by lia. split; [done|]. rewrite Ht.
    split; [|cbn [length]; lia].
    rewrite (take_S_r _ _ c) by (apply list_lookup_insert_eq; lia).
    rewrite take_insert_ge by lia. by rewrite <- app_assoc.
  - apply IH; lia.
Qed.

(** The suites a configuration ends up with are exactly the custom and
    selected (or default) ones that fit its authentication, in their order,
    although the loop overwrites the slice it reads; the configuration is
    refused exactly when it has certificates but no suite for them, a
    pre-shared key but no suite for it, or no suite at all. *)
Theorem parse_suites_exact user custom cert psk selected :
  (match user with Some ids => cipherSuitesForIDs ids | None => Ok defaultCipherSuites end) = Ok selected ->
  let l := custom ++ selected in
  parseCipherSuites user custom cert psk =
    if cert && negb (has_auth AuthCertificate l) && negb (has_auth AuthAnonymous l)
    then Err (HVar "errNoAvailableCertificateCipherSuite")
    else if psk && negb (has_auth AuthPreSharedKey l) then Err (HVar "errNoAvailablePSKCipherSuite")
    else match List.filter (usable cert psk) l with
         | [] => Err (HVar "errNoAvailableCipherSuites")
         | r => Ok r
         end.
Proof.
  intros Hs l. unfold parseCipherSuites. rewrite Hs. cbn [res_bind]. fold l.
  destruct (compact_suites_spec cert psk (length l) 0 0 l (mkFound false false false)) as (j & l' & -> & Ht & Hj);
    [lia|lia|]. rewrite drop_0 in *. cbn [take app] in Ht. unfold seen_suites. cbn [f_cert f_psk f_anon orb].
  replace (cert && negb (cert && has_auth AuthCertificate l)) with (cert && negb (has_auth AuthCertificate l))
    by (destruct cert; reflexivity).
  replace (psk && negb (psk && has_auth AuthPreSharedKey l)) with (psk && negb (has_auth AuthPreSharedKey l))
    by (destruct psk; reflexivity).
  destruct (cert && negb _ && negb _) eqn:E1; [done|]. destruct (psk && negb _) eqn:E2; [done|]. rewrite Ht.
  rewrite Hj. by destruct (List.filter (usable cert psk) l).
Qed.

Lemma parse_suites_exact_witness :
  parseCipherSuites (Some [168; 49195]) [] true false = Ok [TLS_ECDHE_ECDSA_WITH_AES_128_GCM_SHA256].
Proof.
  pose proof (parse_suites_exact (Some [168; 49195]) [] true false
    [TLS_PSK_WITH_AES_128_GCM_SHA256; TLS_ECDHE_ECDSA_WITH_AES_128_GCM_SHA256] eq_refl) as Hp.
  exact Hp.
Defined.

(** ** Properties: signatures *)

Section signatures.
Context {P SG X G : Type} `{PK : Pki P SG X G}.

(** What a signer of a certificate signs is verified with the certificate. *)
Lemma verify_signed raw rest x s k msg h g sg g' :
  x509_Parse raw = Ok x -> cert_PublicKey x = signer_Public s -> k = signer_Public s -> k <> PubOther ->
  (match k with PubEd25519 _ => signer_Sign s msg 0 g | _ => signer_Sign s (Digest h msg) (CryptoHash h) g end) = (Ok sg, g') ->
  verify_signature msg sg h (raw :: rest) = Ok tt.
Proof.
  intros Hx Hk Hs Hne Hsign. unfold verify_signature. rewrite Hx. cbn [res_bind]. rewrite Hk, <- Hs. destruct k as [k|k|k|].
  - by rewrite (sign_ed25519 s k msg g sg g').
  - destruct (sign_ecdsa s k _ _ g sg g' (eq_sym Hs) Hsign) as (r & t & -> & Hr & Ht & Hv). cbn [res_bind fst snd].
    rewrite (proj2 (Z.leb_gt _ _) Hr), (proj2 (Z.leb_gt _ _) Ht). cbn [orb]. by rewrite Hv.
  - by rewrite (sign_rsa s k _ _ g sg g').
  - done.
Qed.

(** Signatures of the handshake verify: with a certificate whose key is that
    of the signer, the peer accepts the signature of the key exchange
    parameters and the signature of the transcript, with any hash. *)
Theorem signatures_verify raw rest x s h g sg g' cr sr pub curve bodies :
  x509_Parse raw = Ok x -> cert_PublicKey x = signer_Public s ->
  (generateKeySignature cr sr pub curve s h g = (Ok sg, g') ->
   verifyKeySignature (valueKeyMessage cr sr pub curve) sg h (raw :: rest) = Ok tt) /\
  (generateCertificateVerify bodies s h g = (Ok sg, g') ->
   verifyCertificateVerify bodies h sg (raw :: rest) = Ok tt).
Proof.
  intros Hx Hk. unfold generateKeySignature, generateCertificateVerify, verifyKeySignature, verifyCertificateVerify.
  split; intros Hg; (eapply (verify_signed _ _ _ _ (signer_Public s)); [done|done|done| |]);
    destruct (signer_Public s); done.
Qed.

(** With a hash number that stands for no digest the check of an ECDSA
    signature does not look at the message.  The number 8 (of Ed25519) is such
    a number and its scheme is among the default ones, so that the schemes a
    client allows do not prevent it: whatever was signed, the signature is
    compared with the empty digest, for which ECDSA signatures can be made
    without the private key. *)
Theorem ecdsa_message_unchecked raw rest x k sg :
  x509_Parse raw = Ok x -> cert_PublicKey x = PubEcdsa k ->
  (hash_Ed25519, sig_Ed25519) ∈ Algorithms /\
  forall m1 m2, verifyKeySignature m1 sg hash_Ed25519 (raw :: rest) = verifyKeySignature m2 sg hash_Ed25519 (raw :: rest) /\
    (forall r t, asn1_ecdsa sg = Ok (r, t) -> 0 < r -> 0 < t -> ecdsa_Verify k [] r t = true ->
       verifyKeySignature m1 sg hash_Ed25519 (raw :: rest) = Ok tt).
Proof.
  intros Hx Hk. split; [apply (bool_decide_unpack _); vm_compute; exact I|]. intros m1 m2.
  unfold verifyKeySignature, verify_signature. rewrite Hx. cbn [res_bind]. rewrite Hk. split; [done|].
  intros r t Ha Hr Ht Hv. rewrite Ha. cbn [res_bind fst snd].
  rewrite (proj2 (Z.leb_gt _ _) Hr), (proj2 (Z.leb_gt _ _) Ht). cbn [orb]. change (Digest hash_Ed25519 m1) with (@nil byte).
  by rewrite Hv.
Qed.
End signatures.

(** ** A toy scheme, to run the definitions: keys are numbers, a signature is
    the key in front of what is signed, a certificate is its key. *)

Definition toy_sig (k : Z) (d : bytes) : bytes := z2b k :: d.

#[export, refine] Instance toy_pki : Pki Z Z Z Z := {|
  digest_sum h b := take 4 (z2b h :: b);
  signer_Public s := PubEcdsa s;
  signer_Sign s d _ g := (Ok (toy_sig s d), g + 1);
  ed25519_Verify k m sg := bool_decide (sg = toy_sig k m);
  asn1_ecdsa sg := Ok (1 + be_get sg, 1 + Z.of_nat (length sg));
  ecdsa_Verify k d r t := (r =? 1 + be_get (toy_sig k d)) && (t =? 1 + Z.of_nat (length (toy_sig k d)));
  rsa_VerifyPKCS1v15 k h d sg := bool_decide (sg = toy_sig k d);
  x509_Parse raw := match raw with [b] => Ok (b2z b) | _ => Err (HExt 1) end;
  cert_PublicKey x := PubEcdsa x;
  cert_RawIssuer x := [z2b x];
  cert_CommonName x := EmptyString;
  cert_DNSNames x := [];
  cert_Verify x o := Ok [[x]]
|}.
Proof.
  - done.
  - intros s k d h g sg g' [= ->] [= <- <-]. eexists _, _. split; [done|].
    pose proof (be_get_range (toy_sig k d)). rewrite !Z.eqb_refl. split_and!; [lia|lia|done].
  - done.
Defined.

Lemma signatures_verify_witness :
  verifyKeySignature (valueKeyMessage [x01] [x02] [x03] P256) (toy_sig 7 (Digest 4 (valueKeyMessage [x01] [x02] [x03] P256))) 4
    [[z2b 7]] = Ok tt.
Proof.
  refine (proj1 (signatures_verify (PK:=toy_pki) [z2b 7] [] 7 7 4 0 _ 1 [x01] [x02] [x03] P256 [] _ _) _); reflexivity.
Defined.

Lemma ecdsa_message_unchecked_witness :
  verifyKeySignature (PK:=toy_pki) [x01] (toy_sig 7 []) hash_Ed25519 [[z2b 7]] = Ok tt.
Proof.
  refine (proj2 (proj2 (ecdsa_message_unchecked (PK:=toy_pki) [z2b 7] [] 7 7 (toy_sig 7 []) _ _) [x01] [x02])
    8 2 _ _ _ _); reflexivity.
Defined.
