(* ===== verification/DtlsState.v ===== *)
(** * Handshake state and configuration

    state.go of golib/replace/dtls, the configuration that handshaker.go hands
    to the flights, the interface [flightConn], and the programs that the
    flights are written in.

    A parser of a flight returns a next flight, or none to keep reading, or an
    alert, an error or both; every such return ends the function, so a flight
    is a program with early exits over the state, the configuration (whose
    list of protection profiles one flight shuffles in place), the connection
    and the random source.  Log and key log output are left out. *)

From S2P Require Import Prelude IO GoStr Socks DtlsWire DtlsExt DtlsHandshake DtlsFragment DtlsCrypto DtlsSuites.
Open Scope Z_scope.

(** ** Parameters *)

(** [CipherSuite.Init] of a suite: the record ciphers of both directions. *)
Class SuiteInit (C : Type) :=
  suite_Init : csuite -> bytes -> bytes -> bytes -> bool -> res derr C.   (* master, client, server random, client? *)

Section state.
Context {C : Type}.

(** ** State

    [cipherSuite] is the chosen suite and its ciphers once it is initialised.
    A nil slice is kept apart from an empty one where the code tests it. *)

Record State := mkState {
  s_localEpoch : Z;
  s_remoteEpoch : Z;
  s_localSequenceNumber : list Z;
  s_localRandom : Random;
  s_remoteRandom : Random;
  s_masterSecret : bytes;
  s_preMasterSecret : bytes;
  s_cipherSuite : option (csuite * option C);
  s_srtpProtectionProfile : Z;
  s_remoteSRTPMasterKeyIdentifier : bytes;
  s_PeerCertificates : option (list bytes);
  s_IdentityHint : option bytes;
  s_SessionID : bytes;
  s_localConnectionID : option bytes;
  s_remoteConnectionID : option bytes;
  s_isClient : bool;
  s_extendedMasterSecret : bool;
  s_namedCurve : Z;
  s_localKeypair : option Keypair;
  s_cookie : bytes;
  s_handshakeSendSequence : Z;
  s_handshakeRecvSequence : Z;
  s_serverName : bytes;
  s_remoteCertRequestAlgs : list (Z * Z);
  s_remoteRequestedCertificate : bool;
  s_localCertificatesVerify : bytes;
  s_localVerifyData : bytes;
  s_localKeySignature : bytes;
  s_peerCertificatesVerified : bool;
  s_peerSupportedProtocols : list bytes;
  s_NegotiatedProtocol : bytes
}.

Definition eta_state (s : State) : State :=
  mkState (s_localEpoch s) (s_remoteEpoch s) (s_localSequenceNumber s) (s_localRandom s) (s_remoteRandom s)
      (s_masterSecret s) (s_preMasterSecret s) (s_cipherSuite s) (s_srtpProtectionProfile s)
      (s_remoteSRTPMasterKeyIdentifier s) (s_PeerCertificates s) (s_IdentityHint s) (s_SessionID s)
      (s_localConnectionID s) (s_remoteConnectionID s) (s_isClient s) (s_extendedMasterSecret s)
      (s_namedCurve s) (s_localKeypair s) (s_cookie s) (s_handshakeSendSequence s)
      (s_handshakeRecvSequence s) (s_serverName s) (s_remoteCertRequestAlgs s)
      (s_remoteRequestedCertificate s) (s_localCertificatesVerify s) (s_localVerifyData s)
      (s_localKeySignature s) (s_peerCertificatesVerified s) (s_peerSupportedProtocols s)
      (s_NegotiatedProtocol s).

(** The term [s] with one field replaced. *)
Ltac set_field s f v :=
  let t := eval cbv beta delta [eta_state] in (eta_state s) in
  match t with context T [f s] => let t := context T [v] in exact t end.

Definition set_localEpoch (v : Z) (s : State) : State := ltac:(set_field s s_localEpoch v).
Definition set_remoteEpoch (v : Z) (s : State) : State := ltac:(set_field s s_remoteEpoch v).
Definition set_localSequenceNumber (v : list Z) (s : State) : State := ltac:(set_field s s_localSequenceNumber v).
Definition set_localRandom (v : Random) (s : State) : State := ltac:(set_field s s_localRandom v).
Definition set_remoteRandom (v : Random) (s : State) : State := ltac:(set_field s s_remoteRandom v).
Definition set_masterSecret (v : bytes) (s : State) : State := ltac:(set_field s s_masterSecret v).
Definition set_preMasterSecret (v : bytes) (s : State) : State := ltac:(set_field s s_preMasterSecret v).
Definition set_cipherSuite (v : option (csuite * option C)) (s : State) : State := ltac:(set_field s s_cipherSuite v).
Definition set_srtpProtectionProfile (v : Z) (s : State) : State := ltac:(set_field s s_srtpProtectionProfile v).
Definition set_remoteSRTPMasterKeyIdentifier (v : bytes) (s : State) : State := ltac:(set_field s s_remoteSRTPMasterKeyIdentifier v).
Definition set_PeerCertificates (v : option (list bytes)) (s : State) : State := ltac:(set_field s s_PeerCertificates v).
Definition set_IdentityHint (v : option bytes) (s : State) : State := ltac:(set_field s s_IdentityHint v).
Definition set_SessionID (v : bytes) (s : State) : State := ltac:(set_field s s_SessionID v).
Definition set_localConnectionID (v : option bytes) (s : State) : State := ltac:(set_field s s_localConnectionID v).
Definition set_remoteConnectionID (v : option bytes) (s : State) : State := ltac:(set_field s s_remoteConnectionID v).
Definition set_isClient (v : bool) (s : State) : State := ltac:(set_field s s_isClient v).
Definition set_extendedMasterSecret (v : bool) (s : State) : State := ltac:(set_field s s_extendedMasterSecret v).
Definition set_namedCurve (v : Z) (s : State) : State := ltac:(set_field s s_namedCurve v).
Definition set_localKeypair (v : option Keypair) (s : State) : State := ltac:(set_field s s_localKeypair v).
Definition set_cookie (v : bytes) (s : State) : State := ltac:(set_field s s_cookie v).
Definition set_handshakeSendSequence (v : Z) (s : State) : State := ltac:(set_field s s_handshakeSendSequence v).
Definition set_handshakeRecvSequence (v : Z) (s : State) : State := ltac:(set_field s s_handshakeRecvSequence v).
Definition set_serverName (v : bytes) (s : State) : State := ltac:(set_field s s_serverName v).
Definition set_remoteCertRequestAlgs (v : list (Z * Z)) (s : State) : State := ltac:(set_field s s_remoteCertRequestAlgs v).
Definition set_remoteRequestedCertificate (v : bool) (s : State) : State := ltac:(set_field s s_remoteRequestedCertificate v).
Definition set_localCertificatesVerify (v : bytes) (s : State) : State := ltac:(set_field s s_localCertificatesVerify v).
Definition set_localVerifyData (v : bytes) (s : State) : State := ltac:(set_field s s_localVerifyData v).
Definition set_localKeySignature (v : bytes) (s : State) : State := ltac:(set_field s s_localKeySignature v).
Definition set_peerCertificatesVerified (v : bool) (s : State) : State := ltac:(set_field s s_peerCertificatesVerified v).
Definition set_peerSupportedProtocols (v : list bytes) (s : State) : State := ltac:(set_field s s_peerSupportedProtocols v).
Definition set_NegotiatedProtocol (v : bytes) (s : State) : State := ltac:(set_field s s_NegotiatedProtocol v).
Context `{SI : SuiteInit C} {HH : Hash hash_kind}.

Definition suite_kx (s : State) : option Z := (fun c => cs_kx c.1) <$> s_cipherSuite s.

(** A method call on the suite: panics when none is chosen. *)
Definition the_suite (s : State) : res herr (csuite * option C) :=
  match s_cipherSuite s with Some c => Ok c | None => Err (HDerr Panic) end.

Definition suite_init (c : csuite) (master cr sr : bytes) (client : bool) : res herr (csuite * option C) :=
  let! k := of_derr (suite_Init c master cr sr client) in Ok (c, Some k).

Definition initCipherSuite (s : State) : res herr State :=
  let! c := the_suite s in
  match c.2 with
  | Some _ => Ok s
  | None =>
      let l := Random_MarshalFixed (s_localRandom s) in
      let r := Random_MarshalFixed (s_remoteRandom s) in
      let! c := (if s_isClient s then suite_init c.1 (s_masterSecret s) l r true
                 else suite_init c.1 (s_masterSecret s) r l false) in
      Ok (set_cipherSuite (Some c) s)
  end.

(** ** Serialisation *)

Record serializedState := mkSerialized {
  z_LocalEpoch : Z; z_RemoteEpoch : Z; z_LocalRandom : bytes; z_RemoteRandom : bytes; z_CipherSuiteID : Z;
  z_MasterSecret : bytes; z_SequenceNumber : Z; z_SRTPProtectionProfile : Z; z_PeerCertificates : option (list bytes);
  z_IdentityHint : option bytes; z_SessionID : bytes; z_LocalConnectionID : option bytes;
  z_RemoteConnectionID : option bytes; z_IsClient : bool; z_NegotiatedProtocol : bytes
}.

(** [&s.localSequenceNumber[epoch]] panics when the slice is too short. *)
Definition serialize (s : State) : res herr serializedState :=
  match s_cipherSuite s with
  | None => Err (HVar "errCipherSuiteNotSet")
  | Some c =>
      match s_localSequenceNumber s !! Z.to_nat (s_localEpoch s) with
      | None => Err (HDerr Panic)
      | Some n =>
          Ok (mkSerialized (s_localEpoch s) (s_remoteEpoch s) (Random_MarshalFixed (s_localRandom s))
                (Random_MarshalFixed (s_remoteRandom s)) (u16 (cs_ID c.1)) (s_masterSecret s) n
                (s_srtpProtectionProfile s) (s_PeerCertificates s) (s_IdentityHint s) (s_SessionID s)
                (s_localConnectionID s) (s_remoteConnectionID s) (s_isClient s) (s_NegotiatedProtocol s))
      end
  end.

Definition zero_random : Random := mkRandom 0 (replicate 28 zero_byte).

(** The zero value [&State{}]. *)
Definition zero_state : State :=
  mkState 0 0 [] zero_random zero_random [] [] None 0 [] None None [] None None false false 0 None [] 0 0 [] [] false [] [] []
    false [] [].

(** [UnmarshalFixed] of the 32 bytes. *)
Definition Random_of_fixed (b : bytes) : Random := mkRandom (be_get (take 4 b)) (drop 4 b).

Definition deserialize (z : serializedState) (s : State) : State :=
  let epoch := Z.to_nat (z_LocalEpoch z) in
  let seqs := s_localSequenceNumber s ++ replicate (S epoch - length (s_localSequenceNumber s)) 0 in
  mkState (z_LocalEpoch z) (z_RemoteEpoch z) (<[epoch := z_SequenceNumber z]> seqs)
    (Random_of_fixed (z_LocalRandom z)) (Random_of_fixed (z_RemoteRandom z)) (z_MasterSecret z) (s_preMasterSecret s)
    ((fun c => (c, None)) <$> cipherSuiteForID (z_CipherSuiteID z) []) (z_SRTPProtectionProfile z)
    (s_remoteSRTPMasterKeyIdentifier s) (z_PeerCertificates z) (z_IdentityHint z) (z_SessionID z)
    (z_LocalConnectionID z) (z_RemoteConnectionID z) (z_IsClient z) (s_extendedMasterSecret s) (s_namedCurve s)
    (s_localKeypair s) (s_cookie s) (s_handshakeSendSequence s) (s_handshakeRecvSequence s) (s_serverName s)
    (s_remoteCertRequestAlgs s) (s_remoteRequestedCertificate s) (s_localCertificatesVerify s) (s_localVerifyData s)
    (s_localKeySignature s) (s_peerCertificatesVerified s) (s_peerSupportedProtocols s) (z_NegotiatedProtocol z).

Definition clone (s : State) : res herr State :=
  let! z := serialize s in Ok (deserialize z zero_state).

(** [encoding/gob]. *)
Variables (gob_Encode : serializedState -> res herr bytes) (gob_Decode : bytes -> res herr serializedState).

Definition MarshalBinary (s : State) : res herr bytes :=
  let! z := serialize s in gob_Encode z.

Definition UnmarshalBinary (data : bytes) (s : State) : res herr State :=
  let! z := gob_Decode data in initCipherSuite (deserialize z s).

Definition invalidKeyingLabels : list bytes :=
  map String.list_byte_of_string ["client finished"; "server finished"; "master secret"; "key expansion"].

Definition ExportKeyingMaterial (label context : bytes) (length_ : nat) (s : State) : res herr bytes :=
  if s_localEpoch s =? 0 then Err (HVar "errHandshakeInProgress")
  else if negb (bool_decide (context = [])) then Err (HVar "errContextUnsupported")
  else if bool_decide (label ∈ invalidKeyingLabels) then Err (HVar "errReservedExportKeyingMaterial")
  else
    let l := Random_MarshalFixed (s_localRandom s) in
    let r := Random_MarshalFixed (s_remoteRandom s) in
    let seed := label ++ (if s_isClient s then l ++ r else r ++ l) in
    let! c := the_suite s in
    of_derr (PHash (s_masterSecret s) seed length_ (cs_hash c.1)).

(** ** Properties *)

(** [encoding/gob] leaves out empty slices: they come back as nil. *)
Definition nil_if_empty {A} (o : option (list A)) : option (list A) := match o with Some [] => None | _ => o end.

Definition gob_norm (z : serializedState) : serializedState :=
  mkSerialized (z_LocalEpoch z) (z_RemoteEpoch z) (z_LocalRandom z) (z_RemoteRandom z) (z_CipherSuiteID z) (z_MasterSecret z)
    (z_SequenceNumber z) (z_SRTPProtectionProfile z) (nil_if_empty (z_PeerCertificates z)) (nil_if_empty (z_IdentityHint z))
    (z_SessionID z) (nil_if_empty (z_LocalConnectionID z)) (nil_if_empty (z_RemoteConnectionID z)) (z_IsClient z)
    (z_NegotiatedProtocol z).

Hypothesis gob_roundtrip : forall z b, gob_Encode z = Ok b -> gob_Decode b = Ok (gob_norm z).

Definition wf_random (r : Random) : Prop := 0 <= GMTUnixTime r < 2 ^ 32.

Lemma Random_fixed r : wf_random r -> Random_of_fixed (Random_MarshalFixed r) = r.
Proof.
  intros Hr. unfold Random_of_fixed, Random_MarshalFixed. rewrite take_app_length', drop_app_length' by (by rewrite length_be_put).
  rewrite be_get_put_small by done. by destruct r.
Qed.

(** The fields that a stored session keeps. *)
Definition same_session (s s' : State) : Prop :=
  s_localEpoch s' = s_localEpoch s /\ s_remoteEpoch s' = s_remoteEpoch s /\
  s_localSequenceNumber s' !! Z.to_nat (s_localEpoch s) = s_localSequenceNumber s !! Z.to_nat (s_localEpoch s) /\
  s_localRandom s' = s_localRandom s /\ s_remoteRandom s' = s_remoteRandom s /\ s_masterSecret s' = s_masterSecret s /\
  s_srtpProtectionProfile s' = s_srtpProtectionProfile s /\ s_PeerCertificates s' = nil_if_empty (s_PeerCertificates s) /\
  s_IdentityHint s' = nil_if_empty (s_IdentityHint s) /\ s_SessionID s' = s_SessionID s /\
  s_localConnectionID s' = nil_if_empty (s_localConnectionID s) /\
  s_remoteConnectionID s' = nil_if_empty (s_remoteConnectionID s) /\
  s_isClient s' = s_isClient s /\ s_NegotiatedProtocol s' = s_NegotiatedProtocol s.

Lemma deserialize_session s c z :
  s_cipherSuite s = Some c -> wf_random (s_localRandom s) -> wf_random (s_remoteRandom s) -> serialize s = Ok z ->
  same_session s (deserialize (gob_norm z) zero_state) /\ z_CipherSuiteID z = u16 (cs_ID c.1).
Proof.
  intros Hc Hl Hr. unfold serialize. rewrite Hc. destruct (s_localSequenceNumber s !! _) as [n|] eqn:Hn; [|done].
  intros [= <-]. split; [|done]. unfold same_session. cbn -[Random_of_fixed Random_MarshalFixed]. rewrite !Random_fixed by done. split_and!; try done.
  rewrite Hn. rewrite list_lookup_insert_eq; [done|]. cbn. rewrite length_replicate. lia.
Qed.

Lemma state_roundtrip_ext s c k0 b :
  s_cipherSuite s = Some (c, k0) -> wf_random (s_localRandom s) -> wf_random (s_remoteRandom s) ->
  0 <= cs_ID c < 2 ^ 16 -> MarshalBinary s = Ok b ->
  exists s1, same_session s s1 /\ s_cipherSuite s1 = (fun c => (c, None)) <$> cipherSuiteForID (cs_ID c) [] /\
    UnmarshalBinary b zero_state = initCipherSuite s1.
Proof.
  intros Hc Hl Hr Hid. unfold MarshalBinary, UnmarshalBinary. destruct (serialize s) as [z|] eqn:Hz; [|done]. cbn. intros Hb.
  apply gob_roundtrip in Hb. rewrite Hb. cbn. destruct (deserialize_session s (c, k0) z) as [Hs Hi]; try done.
  eexists. split; [exact Hs|]. split; [|done]. cbn. rewrite Hi. cbn. by rewrite wrap_small.
Qed.

(** The keys that [initCipherSuite] derives for a state. *)
Definition keys_of (c : csuite) (s : State) : res derr C :=
  let l := Random_MarshalFixed (s_localRandom s) in
  let r := Random_MarshalFixed (s_remoteRandom s) in
  if s_isClient s then suite_Init c (s_masterSecret s) l r true else suite_Init c (s_masterSecret s) r l false.

Lemma initCipherSuite_keys s c k :
  s_cipherSuite s = Some (c, None) -> keys_of c s = Ok k -> initCipherSuite s = Ok (set_cipherSuite (Some (c, Some k)) s).
Proof.
  intros Hc Hk. unfold initCipherSuite, the_suite, suite_init. rewrite Hc. cbn [snd fst]. unfold keys_of in Hk.
  cbn -[Random_MarshalFixed]. destruct (s_isClient s); by rewrite Hk.
Qed.

(** A state with a suite of the library that is saved and loaded again has
    the same epochs, counter, randoms, secret, profile, certificates, session
    and connection identifiers, role and protocol, and its keys are derived
    anew. *)
Theorem state_roundtrip s c k0 k b :
  s_cipherSuite s = Some (c, k0) -> cipherSuiteForID (cs_ID c) [] = Some c -> 0 <= cs_ID c < 2 ^ 16 ->
  wf_random (s_localRandom s) -> wf_random (s_remoteRandom s) -> keys_of c s = Ok k -> MarshalBinary s = Ok b ->
  exists s', UnmarshalBinary b zero_state = Ok s' /\ same_session s s' /\ s_cipherSuite s' = Some (c, Some k).
Proof.
  intros Hc Hid Hr Hl Hrr Hk Hb. destruct (state_roundtrip_ext s c k0 b) as (s1 & Hs & Hc1 & Hu); try done.
  rewrite Hid in Hc1. exists (set_cipherSuite (Some (c, Some k)) s1). rewrite Hu. split_and!; [|done|done].
  apply initCipherSuite_keys; [done|]. unfold keys_of in *. destruct Hs as (_ & _ & _ & -> & -> & -> & _ & _ & _ & _ & _ & _ & -> & _).
  done.
Qed.

(** A state whose suite is a custom one can be saved, but loading it
    panics: the suite is looked up among those of the library only, and the
    missing suite is used without a check. *)
Theorem custom_suite_not_restored s c k0 b :
  s_cipherSuite s = Some (c, k0) -> cipherSuiteForID (cs_ID c) [] = None -> 0 <= cs_ID c < 2 ^ 16 ->
  wf_random (s_localRandom s) -> wf_random (s_remoteRandom s) -> MarshalBinary s = Ok b ->
  UnmarshalBinary b zero_state = Err (HDerr Panic).
Proof.
  intros Hc Hid Hr Hl Hrr Hb. destruct (state_roundtrip_ext s c k0 b) as (s1 & _ & Hc1 & ->); try done.
  rewrite Hid in Hc1. unfold initCipherSuite, the_suite. by rewrite Hc1.
Qed.

(** Two ends with the same master secret, suite and randoms export the
    same keying material for every label and length. *)
Theorem exported_keys_agree s1 s2 label context n c k1 k2 :
  s_isClient s1 = true -> s_isClient s2 = false -> s_localRandom s1 = s_remoteRandom s2 ->
  s_remoteRandom s1 = s_localRandom s2 -> s_masterSecret s1 = s_masterSecret s2 ->
  s_cipherSuite s1 = Some (c, k1) -> s_cipherSuite s2 = Some (c, k2) ->
  s_localEpoch s1 <> 0 -> s_localEpoch s2 <> 0 ->
  ExportKeyingMaterial label context n s1 = ExportKeyingMaterial label context n s2 /\
  (context = [] -> label ∉ invalidKeyingLabels ->
   exists v, ExportKeyingMaterial label context n s1 = Ok v /\ length v = n).
Proof.
  intros H1 H2 Hl Hr Hm Hc1 Hc2 He1 He2. unfold ExportKeyingMaterial, the_suite.
  rewrite !(proj2 (Z.eqb_neq _ _)) by done. rewrite H1, H2, Hl, Hr, Hm, Hc1, Hc2. split; [done|].
  intros -> Hn. rewrite bool_decide_true by done. cbn [negb]. rewrite bool_decide_false by done. cbn.
  rewrite PHash_eq. eexists. split; [done|]. eapply PHash_length, PHash_eq.
Qed.

End state.

Arguments State : clear implicits.
