(* ===== verification/DtlsHello.v ===== *)
(** * Flights 0 to 3: hello messages

    handshaker.go (configuration), flight.go and flight0handler.go to
    flight3handler.go of golib/replace/dtls: the two ClientHellos, the cookie,
    the choice of suite, curve, profile and extensions, session resumption and
    the processing of the server's flight by the client. *)

From S2P Require Import Prelude IO GoStr Socks DtlsWire DtlsExt DtlsHandshake DtlsRandom.
From S2P Require Import DtlsFragment DtlsCrypto DtlsConn DtlsSuites DtlsState.
Open Scope Z_scope.

(** ** Flights *)

Inductive flightVal := flight0 | flight1 | flight2 | flight3 | flight4 | flight4b | flight5 | flight5b | flight6.

#[export] Instance flightVal_eq_dec : EqDecision flightVal.
Proof. solve_decision. Defined.

Definition isLastSendFlight (f : flightVal) : bool := bool_decide (f = flight6 \/ f = flight5b).
Definition isLastRecvFlight (f : flightVal) : bool := bool_decide (f = flight5 \/ f = flight4b).

(** ** Alert descriptions *)

Definition alert_HandshakeFailure : Z := 40.
Definition alert_NoCertificate : Z := 41.
Definition alert_BadCertificate : Z := 42.
Definition alert_IllegalParameter : Z := 47.
Definition alert_AccessDenied : Z := 49.
Definition alert_ProtocolVersion : Z := 70.
Definition alert_InsufficientSecurity : Z := 71.
Definition alert_InternalError : Z := 80.
Definition alert_NoApplicationProtocol : Z := 120.

Definition fatal (desc : Z) : Alert := mkAlert alert_Fatal desc.

Inductive ExtendedMasterSecretType := RequestEMS | RequireEMS | DisableEMS.
#[export] Instance EMS_eq_dec : EqDecision ExtendedMasterSecretType.
Proof. solve_decision. Defined.

(** In the order of the constants. *)
Inductive ClientAuthType :=
  NoClientCert | RequestClientCert | RequireAnyClientCert | VerifyClientCertIfGiven | RequireAndVerifyClientCert.
#[export] Instance ClientAuth_eq_dec : EqDecision ClientAuthType.
Proof. solve_decision. Defined.

(** [Session]; an [ID] of nil means that the store has none. *)
Record Session := mkSession { ses_ID : option bytes; ses_Secret : bytes }.

(** [math/rand]: the generator of a seed, and the draw of [Shuffle]; [Intn] is
    that of [Rand]. *)
Class MRand (R : Type) := {
  mr_New : Z -> R;
  mr_int31n : Z -> R -> Z * R;
  mr_range : forall n r, 0 < n -> 0 <= (mr_int31n n r).1 < n
}.

(** ** The connection and the session store, as the flights use them

    The connection works on the same [State]: writing counts its records,
    reading a queued ChangeCipherSpec moves its epoch. *)

Class FlightConn (C W : Type) := {
  fc_cache : W -> handshakeCache;
  fc_notify : Alert -> State C -> W -> option herr * State C * W;
  fc_writePackets : list packet -> State C -> W -> option herr * State C * W;
  fc_handleQueuedPackets : State C -> W -> option herr * State C * W;
  fc_sessionKey : State C -> W -> bytes;
  st_Get : bytes -> W -> res herr Session * W;
  st_Set : bytes -> Session -> W -> option herr * W;
  st_Del : bytes -> W -> option herr * W;
  fc_queue_frame : forall s w e s' w', fc_handleQueuedPackets s w = (e, s', w') ->
    exists epoch seqs, s' = set_remoteEpoch epoch (set_localSequenceNumber seqs s)
}.

Section programs.
Context {SG X G C W : Type} `{CB : Cryptobyte} `{FC : FlightConn C W}.

#[local] Abbreviation State := (State C).

(** ** Configuration *)

Record handshakeConfig := mkConfig {
  c_localPSKCallback : option (option bytes -> res herr bytes);
  c_localPSKIdentityHint : option bytes;
  c_localCipherSuites : list csuite;
  c_localSignatureSchemes : list (Z * Z);
  c_extendedMasterSecret : ExtendedMasterSecretType;
  c_localSRTPProtectionProfiles : list Z;
  c_localSRTPMasterKeyIdentifier : bytes;
  c_serverName : string;
  c_supportedProtocols : list bytes;
  c_clientAuth : ClientAuthType;
  c_localCertificates : list (tlsCert (SG:=SG) (X:=X));
  c_insecureSkipVerify : bool;
  c_verifyPeerCertificate : option (list bytes -> list (list X) -> res herr unit);
  c_verifyConnection : option (State -> res herr unit);
  c_sessionStore : bool;
  c_rootCAs : option (list X);
  c_clientCAs : option (list X);
  c_clientCASubjects : list bytes;
  c_customCipherSuites : list csuite;
  c_ellipticCurves : list Z;
  c_insecureSkipHelloVerify : bool;
  c_connectionIDGenerator : option (G -> option bytes * G);
  c_helloRandomBytesGenerator : option (G -> bytes * G);
  c_localGetCertificate : option (string -> list Z -> bytes -> res herr (option (tlsCert (SG:=SG) (X:=X))));
  c_localGetClientCertificate : option (list bytes -> res herr (option (tlsCert (SG:=SG) (X:=X))));
  c_initialEpoch : Z;
  c_clientHelloMessageHook : option (MessageClientHello -> G -> Message * list Extension * G);   (* and its lists, as they are left *)
  c_serverHelloMessageHook : option (MessageServerHello -> G -> Message * G);
  c_certificateRequestMessageHook : option (MessageCertificateRequest -> G -> Message * G);
  c_randomizationSeed : bytes;
  c_initialRetransmitInterval : Z;
  c_disableRetransmitBackoff : bool
}.

Definition eta_config (c : handshakeConfig) : handshakeConfig :=
    mkConfig (c_localPSKCallback c) (c_localPSKIdentityHint c) (c_localCipherSuites c)
    (c_localSignatureSchemes c) (c_extendedMasterSecret c) (c_localSRTPProtectionProfiles c)
    (c_localSRTPMasterKeyIdentifier c) (c_serverName c) (c_supportedProtocols c) (c_clientAuth c)
    (c_localCertificates c) (c_insecureSkipVerify c) (c_verifyPeerCertificate c) (c_verifyConnection c)
    (c_sessionStore c) (c_rootCAs c) (c_clientCAs c) (c_clientCASubjects c) (c_customCipherSuites c)
    (c_ellipticCurves c) (c_insecureSkipHelloVerify c) (c_connectionIDGenerator c)
    (c_helloRandomBytesGenerator c) (c_localGetCertificate c) (c_localGetClientCertificate c) (c_initialEpoch
    c) (c_clientHelloMessageHook c) (c_serverHelloMessageHook c) (c_certificateRequestMessageHook c)
    (c_randomizationSeed c) (c_initialRetransmitInterval c) (c_disableRetransmitBackoff c).

(** The term [c] with one field replaced. *)
Ltac set_config c f v :=
  let t := eval cbv beta delta [eta_config] in (eta_config c) in
  match t with context T [f c] => let t := context T [v] in exact t end.

Definition set_signatures (v : list (Z * Z)) (c : handshakeConfig) : handshakeConfig := ltac:(set_config c c_localSignatureSchemes v).
Definition set_profiles (v : list Z) (c : handshakeConfig) : handshakeConfig := ltac:(set_config c c_localSRTPProtectionProfiles v).
Definition set_curves (v : list Z) (c : handshakeConfig) : handshakeConfig := ltac:(set_config c c_ellipticCurves v).
Definition set_protocols (v : list bytes) (c : handshakeConfig) : handshakeConfig := ltac:(set_config c c_supportedProtocols v).

(** The extensions of a ClientHello hold the arrays of the configuration, or
    the beginning of them: what a shuffle leaves in a message is in the
    configuration too. *)
Definition write_back (e : Extension) (c : handshakeConfig) : handshakeConfig :=
  match e with
  | SupportedEllipticCurves l => set_curves (l ++ drop (length l) (c_ellipticCurves c)) c
  | SupportedSignatureAlgorithms l => set_signatures (l ++ drop (length l) (c_localSignatureSchemes c)) c
  | UseSRTP l _ => set_profiles (l ++ drop (length l) (c_localSRTPProtectionProfiles c)) c
  | ALPN l => set_protocols (l ++ drop (length l) (c_supportedProtocols c)) c
  | _ => c
  end.

Definition wants_ems (cfg : handshakeConfig) : bool :=
  bool_decide (c_extendedMasterSecret cfg = RequestEMS \/ c_extendedMasterSecret cfg = RequireEMS).

(** ** Programs *)

Record fworld := mkFW { fw_state : State; fw_cfg : handshakeConfig; fw_conn : W; fw_rand : G }.

(** What a flight returns: the next flight (none is zero), an alert to send,
    an error. *)
Record outcome := mkOut { o_flight : option flightVal; o_alert : option Alert; o_err : option herr }.

Definition FP (A : Type) : Type := fworld -> (A + outcome) * fworld.

Definition fret {A} (a : A) : FP A := fun w => (inl a, w).
Definition fexit {A} (o : outcome) : FP A := fun w => (inr o, w).
Definition fbind {A B} (m : FP A) (k : A -> FP B) : FP B :=
  fun w => match m w with (inl a, w) => k a w | (inr o, w) => (inr o, w) end.

#[local] Notation "'let%' x ':=' m 'in' k" := (fbind m (fun x => k)) (at level 10, x pattern, m at level 100, k at level 200).

Definition keep_reading {A} : FP A := fexit (mkOut None None None).
Definition next_flight {A} (f : flightVal) : FP A := fexit (mkOut (Some f) None None).
Definition only_alert {A} (desc : Z) : FP A := fexit (mkOut None (Some (fatal desc)) None).
Definition fail_with {A} (desc : Z) (e : herr) : FP A := fexit (mkOut None (Some (fatal desc)) (Some e)).
Definition fail_plain {A} (e : herr) : FP A := fexit (mkOut None None (Some e)).

Definition getS : FP State := fun w => (inl (fw_state w), w).
Definition getC : FP handshakeConfig := fun w => (inl (fw_cfg w), w).
Definition modS (f : State -> State) : FP unit := fun w => (inl tt, mkFW (f (fw_state w)) (fw_cfg w) (fw_conn w) (fw_rand w)).
Definition getCache : FP handshakeCache := fun w => (inl (fc_cache (fw_conn w)), w).

(** A result, with the alert that goes with its error; a panic is no error. *)
Definition error_exit (desc : Z) (e : herr) : outcome :=
  mkOut None (match e with HDerr Panic => None | _ => Some (fatal desc) end) (Some e).

Definition ok_or {A} (desc : Z) (r : res herr A) : FP A :=
  match r with Ok a => fret a | Err e => fexit (error_exit desc e) end.

(** A step that fails only by a panic. *)
Definition or_panic {A E} (r : res E A) : FP A :=
  match r with Ok a => fret a | Err _ => fail_plain (HDerr Panic) end.

(** The assignment [state.f, err = ...], which stores nil with an error. *)
Definition store_or {A} (desc : Z) (set : option A -> State -> State) (r : res herr A) : FP A :=
  match r with
  | Ok a => fun w => (inl a, mkFW (set (Some a) (fw_state w)) (fw_cfg w) (fw_conn w) (fw_rand w))
  | Err e => fun w => (inr (error_exit desc e), mkFW (set None (fw_state w)) (fw_cfg w) (fw_conn w) (fw_rand w))
  end.

(** An operation of the connection, and one of the session store: a nil
    interface has no methods. *)
Definition conn_op (desc : Z) (op : State -> W -> option herr * State * W) : FP unit :=
  fun w =>
    let '(e, s, c) := op (fw_state w) (fw_conn w) in
    let w := mkFW s (fw_cfg w) c (fw_rand w) in
    match e with Some e => (inr (mkOut None (Some (fatal desc)) (Some e)), w) | None => (inl tt, w) end.

Definition store_op (op : W -> option herr * W) : FP unit :=
  fun w =>
    if c_sessionStore (fw_cfg w) then
      let '(e, c) := op (fw_conn w) in
      let w := mkFW (fw_state w) (fw_cfg w) c (fw_rand w) in
      match e with
      | Some e => (inr (mkOut None (Some (fatal alert_InternalError)) (Some e)), w)
      | None => (inl tt, w)
      end
    else (inr (mkOut None None (Some (HDerr Panic))), w).

Definition conn_get {A} (op : W -> A * W) : FP A :=
  fun w => let '(a, c) := op (fw_conn w) in (inl a, mkFW (fw_state w) (fw_cfg w) c (fw_rand w)).

Definition modC (f : handshakeConfig -> handshakeConfig) : FP unit :=
  fun w => (inl tt, mkFW (fw_state w) (f (fw_cfg w)) (fw_conn w) (fw_rand w)).

Definition with_rand {A} (op : G -> A * G) : FP A :=
  fun w => let '(a, g) := op (fw_rand w) in (inl a, mkFW (fw_state w) (fw_cfg w) (fw_conn w) g).

(** [cache.fullPullMap(seq, state.cipherSuite, rules...)] *)
Definition pull_map (seq : Z) (rules : list pullRule) : FP (Z * option (gmap Z Message)) :=
  let% s := getS in
  let% h := getCache in
  fret (fullPullMap h seq (suite_kx s) rules).

End programs.

Arguments handshakeConfig : clear implicits.
Arguments fworld : clear implicits.
Arguments FP : clear implicits.

Notation "'let%' x ':=' m 'in' k" := (fbind m (fun x => k)) (at level 10, x pattern, m at level 100, k at level 200).

Definition handshake_packet (m : Message) : packet :=
  mkPacket (mkRecord (mkHeader 0 0 Version1_2 0 0 []) (CHandshake (mkHandshake (mkHsHeader 0 0 0 0 0) (Some m) 0))) false false.

Section flights.
Context {P SG X G C W R : Type} `{PK : Pki P SG X G} `{CV : Curves G} `{CB : Cryptobyte} {HH : Hash hash_kind}
  `{SI : SuiteInit C} `{FC : FlightConn C W} `{RG : Rand G} `{RR : Rand R} `{MR : MRand R}.

#[local] Abbreviation State := (State C).
#[local] Abbreviation handshakeConfig := (handshakeConfig SG X G C).
#[local] Abbreviation FP := (FP SG X G C W).

(** ** Flight 0 *)

Definition cookieLength : nat := 20.
Definition sessionLength : nat := 32.
Definition defaultNamedCurve : Z := X25519.
Definition defaultCompressionMethods : list Z := [0].

(** [Populate]: the time and 28 random bytes. *)
Variable populate : G -> res herr Random * G.

Definition flight0Generate : FP (list packet) :=
  let% cfg := getC in
  let% _ := (if c_insecureSkipHelloVerify cfg then fret tt
             else let% cookie := with_rand (rread cookieLength) in modS (set_cookie cookie)) in
  let% _ := modS (fun s => set_namedCurve defaultNamedCurve (set_remoteEpoch 0 (set_localEpoch 0 s))) in
  let% r := with_rand populate in
  match r with
  | Err e => fail_plain e
  | Ok rnd => let% _ := modS (set_localRandom rnd) in fret []
  end.

Definition known_offers (custom : list csuite) (ids : list Z) : list csuite :=
  omap (fun id => cipherSuiteForID id custom) ids.

(** One extension of a ClientHello. *)
Definition client_extension (e : Extension) : FP unit :=
  let% cfg := getC in
  match e with
  | SupportedEllipticCurves curves =>
      match curves with
      | [] => fail_with alert_InsufficientSecurity (HVar "errNoSupportedEllipticCurves")
      | c :: _ => modS (set_namedCurve c)
      end
  | UseSRTP profiles mki =>
      match findMatchingSRTPProfile profiles (c_localSRTPProtectionProfiles cfg) with
      | None => fail_with alert_InsufficientSecurity (HVar "errServerNoMatchingSRTPProfile")
      | Some p => modS (fun s => set_remoteSRTPMasterKeyIdentifier mki (set_srtpProtectionProfile p s))
      end
  | UseExtendedMasterSecret _ =>
      if bool_decide (c_extendedMasterSecret cfg = DisableEMS) then fret tt else modS (set_extendedMasterSecret true)
  | ServerName name => modS (set_serverName name)
  | ALPN protocols => modS (set_peerSupportedProtocols protocols)
  | ConnectionIDExt cid =>
      match c_connectionIDGenerator cfg with
      | Some _ => modS (set_remoteConnectionID (Some cid))
      | None => fret tt
      end
  | _ => fret tt
  end.

Fixpoint for_extensions (body : Extension -> FP unit) (l : list Extension) : FP unit :=
  match l with
  | [] => fret tt
  | e :: l => let% _ := body e in for_extensions body l
  end.

(** The end of both hello loops: no identifier of ours without one of the
    peer. *)
Definition drop_unused_cid : FP unit :=
  modS (fun s => match s_remoteConnectionID s with None => set_localConnectionID None s | Some _ => s end).

Definition handleHelloResume {A} (sessionID : bytes) (next : flightVal) : FP A :=
  let% cfg := getC in
  if negb (bool_decide (sessionID = [])) && c_sessionStore cfg then
    let% r := conn_get (st_Get sessionID) in
    match r with
    | Err e => fail_with alert_InternalError e
    | Ok ses =>
        match ses_ID ses with
        | None => next_flight next
        | Some _ =>
            let% _ := modS (fun s => set_masterSecret (ses_Secret ses) (set_SessionID sessionID s)) in
            let% s := getS in
            let% s := ok_or alert_InternalError (initCipherSuite s) in
            let% _ := modS (fun _ => s) in
            next_flight flight4b
        end
    end
  else next_flight next.

Definition client_hello_rule (epoch : Z) : pullRule := mkRule TypeClientHello epoch true false.

(** The steps of [flight0Parse] that depend on the ClientHello. *)
Definition negotiate (hello : MessageClientHello) : FP unit :=
  let% cfg := getC in
  let% _ := modS (set_remoteRandom (ch_Random hello)) in
  let% _ := (match findMatchingCipherSuite (known_offers (c_customCipherSuites cfg) (ch_CipherSuiteIDs hello))
                     (c_localCipherSuites cfg) with
             | None =>
                 let% _ := modS (set_cipherSuite None) in
                 fail_with alert_InsufficientSecurity (HVar "errCipherSuiteNoIntersection")
             | Some c => modS (set_cipherSuite (Some (c, None)))
             end) in
  let% _ := for_extensions client_extension (ch_Extensions hello) in
  let% _ := drop_unused_cid in
  let% s := getS in
  if bool_decide (c_extendedMasterSecret cfg = RequireEMS) && negb (s_extendedMasterSecret s)
  then fail_with alert_InsufficientSecurity (HVar "errServerRequiredButNoClientEMS")
  else
    match s_localKeypair s with
    | Some _ => fret tt
    | None =>
        let% r := with_rand (GenerateKeypair (s_namedCurve s)) in
        let% kp := ok_or alert_IllegalParameter r in
        modS (set_localKeypair (Some kp))
    end.

Definition flight0Parse : FP unit :=
  let% cfg := getC in
  let% r := pull_map 0 [client_hello_rule (c_initialEpoch cfg)] in
  match r with
  | (_, None) => keep_reading
  | (seq, Some msgs) =>
      let% _ := modS (fun s => set_handshakeRecvSequence seq (set_remoteConnectionID None (set_localConnectionID None s))) in
      match msgs !! TypeClientHello with
      | Some (MClientHello hello) =>
          if negb (Version_Equal (ch_Version hello) Version1_2)
          then fail_with alert_ProtocolVersion (HVar "errUnsupportedProtocolVersion")
          else
            let% _ := negotiate hello in
            handleHelloResume (ch_SessionID hello) (if c_insecureSkipHelloVerify cfg then flight4 else flight2)
      | _ => only_alert alert_InternalError
      end
  end.

(** ** Flight 2 *)

Definition flight2Generate : FP (list packet) :=
  let% _ := modS (set_handshakeSendSequence 0) in
  let% s := getS in
  fret [handshake_packet (MHelloVerifyRequest (mkHelloVerify Version1_2 (s_cookie s)))].

Definition flight2Parse : FP unit :=
  let% cfg := getC in
  let% s := getS in
  let% r := pull_map (s_handshakeRecvSequence s) [client_hello_rule (c_initialEpoch cfg)] in
  match r with
  | (_, None) => flight0Parse
  | (seq, Some msgs) =>
      let% _ := modS (set_handshakeRecvSequence seq) in
      match msgs !! TypeClientHello with
      | Some (MClientHello hello) =>
          if negb (Version_Equal (ch_Version hello) Version1_2)
          then fail_with alert_ProtocolVersion (HVar "errUnsupportedProtocolVersion")
          else if bool_decide (ch_Cookie hello = []) then keep_reading
          else if negb (bool_decide (s_cookie s = ch_Cookie hello))
          then fail_with alert_AccessDenied (HVar "errCookieMismatch")
          else next_flight flight4
      | _ => only_alert alert_InternalError
      end
  end.

(** ** ClientHellos *)

Definition hello_extensions (ecc : bool) (mki : bytes) (cfg : handshakeConfig) : list Extension :=
  [SupportedSignatureAlgorithms (c_localSignatureSchemes cfg); RenegotiationInfo 0]
  ++ (if ecc then [SupportedEllipticCurves (c_ellipticCurves cfg); SupportedPointFormats [0]] else [])
  ++ (if bool_decide (c_localSRTPProtectionProfiles cfg = []) then []
      else [UseSRTP (c_localSRTPProtectionProfiles cfg) mki])
  ++ (if wants_ems cfg then [UseExtendedMasterSecret true] else [])
  ++ (if bool_decide (c_serverName cfg = EmptyString) then []
      else [ServerName (String.list_byte_of_string (c_serverName cfg))])
  ++ (if bool_decide (c_supportedProtocols cfg = []) then [] else [ALPN (c_supportedProtocols cfg)]).

(** The hook, or the message itself. *)
Definition send_hello (hello : MessageClientHello) : FP (list packet) :=
  let% cfg := getC in
  match c_clientHelloMessageHook cfg with
  | None => fret [handshake_packet (MClientHello hello)]
  | Some hook =>
      let% r := with_rand (fun g => let '(m, lists, g) := hook hello g in ((m, lists), g)) in
      let% _ := modC (fun c => foldl (fun c e => write_back e c) c r.2) in
      fret [handshake_packet r.1]
  end.

(** [rng.Shuffle] of the generator of the seed. *)
Fixpoint shuffle_loop {A} (i : nat) (l : list A) (r : R) : list A * R :=
  match i with
  | O => (l, r)
  | S i' => let '(j, r) := mr_int31n (Z.of_nat i + 1) r in shuffle_loop i' (swap i (Z.to_nat j) l) r
  end.

Definition rng_Shuffle {A} (l : list A) (r : R) : list A * R := shuffle_loop (length l - 1) l r.

(** The truncation of a list of more than [above] elements. *)
Definition rng_truncate {A} (above : nat) (l : list A) (r : R) : list A * R :=
  if (above <? length l)%nat then
    let '(x, r) := intn (Z.of_nat (length l)) r in
    let keep := Z.to_nat (1 + x) in
    let keep := if (length l <? keep)%nat then length l else keep in
    (take keep l, r)
  else (l, r).

Definition randomise_field (e : Extension) (r : R) : Extension * R :=
  match e with
  | SupportedEllipticCurves l => let '(l, r) := rng_truncate 1 l r in (SupportedEllipticCurves l, r)
  | SupportedSignatureAlgorithms l => let '(l, r) := rng_truncate 2 l r in (SupportedSignatureAlgorithms l, r)
  | UseSRTP l mki => let '(l, r) := rng_Shuffle l r in (UseSRTP l mki, r)
  | _ => (e, r)
  end.

Fixpoint randomise_fields (l : list Extension) (r : R) : list Extension * R :=
  match l with
  | [] => ([], r)
  | e :: l => let '(e, r) := randomise_field e r in let '(l, r) := randomise_fields l r in (e :: l, r)
  end.

(** The block under [len(cfg.randomizationSeed) >= 8] of flight 1: suites,
    extensions before and after the last shuffle. *)
Definition randomise_hello (seed : bytes) (suites : list Z) (exts : list Extension)
    : list Z * list Extension * list Extension :=
  let r := mr_New (to_int64 (be_get (take 8 seed))) in
  let '(suites, r) := truncateCipherSuites suites r in
  let '(suites, r) := rng_Shuffle suites r in
  let '(exts, r) := randomise_fields exts r in
  (suites, exts, (rng_Shuffle exts r).1).

(** ** Flight 1 *)

Definition populate_random {A} (k : Random -> FP A) : FP A :=
  let% r := with_rand populate in
  match r with Err e => fail_plain e | Ok rnd => k rnd end.

Definition flight1Generate : FP (list packet) :=
  let% cfg := getC in
  let% _ := modS (fun s => set_cookie [] (set_namedCurve defaultNamedCurve (set_remoteEpoch 0 (set_localEpoch 0 s)))) in
  populate_random (fun rnd =>
  let% rnd := (match c_helloRandomBytesGenerator cfg with
               | None => fret rnd
               | Some gen => let% b := with_rand gen in fret (mkRandom (GMTUnixTime rnd) b)
               end) in
  let% _ := modS (set_localRandom rnd) in
  let exts := hello_extensions (existsb cs_ECC (c_localCipherSuites cfg)) (c_localSRTPMasterKeyIdentifier cfg) cfg in
  let% _ := (if c_sessionStore cfg then
               let% s := getS in
               let% r := conn_get (fun w => st_Get (fc_sessionKey s w) w) in
               let% ses := ok_or alert_InternalError r in
               match ses_ID ses with
               | None => fret tt
               | Some id => modS (fun s => set_masterSecret (ses_Secret ses) (set_SessionID id s))
               end
             else fret tt) in
  let% exts := (match c_connectionIDGenerator cfg with
                | None => fret exts
                | Some gen =>
                    let% cid := with_rand gen in
                    let cid := default [] cid in
                    let% _ := modS (set_localConnectionID (Some cid)) in
                    fret (exts ++ [ConnectionIDExt cid])
                end) in
  let suites := cipherSuiteIDs (c_localCipherSuites cfg) in
  let% r := (if (8 <=? length (c_randomizationSeed cfg))%nat then
               let '(suites, fields, exts) := randomise_hello (c_randomizationSeed cfg) suites exts in
               let% _ := modC (fun c => foldl (fun c e => write_back e c) c fields) in
               fret (suites, exts)
             else fret (suites, exts)) in
  let% s := getS in
  send_hello (mkClientHello Version1_2 (s_localRandom s) (s_cookie s) (s_SessionID s) r.1 defaultCompressionMethods r.2)).

(** ** Flight 3 *)

Definition flight3Generate : FP (list packet) :=
  let% cfg := getC in
  let% s := getS in
  let exts := hello_extensions (negb (s_namedCurve s =? 0)) [] cfg
    ++ match s_localConnectionID s with None => [] | Some cid => [ConnectionIDExt cid] end in
  send_hello (mkClientHello Version1_2 (s_localRandom s) (s_cookie s) (s_SessionID s)
                (cipherSuiteIDs (c_localCipherSuites cfg)) defaultCompressionMethods exts).

(** A HelloVerifyRequest: its cookie goes into the next ClientHello. *)
Definition take_cookie {A} (seq : Z) (h : MessageHelloVerifyRequest) : FP A :=
  if negb (Version_Equal (hv_Version h) Version1_0) && negb (Version_Equal (hv_Version h) Version1_2)
  then fail_with alert_ProtocolVersion (HVar "errUnsupportedProtocolVersion")
  else
    let% _ := modS (fun s => set_handshakeRecvSequence seq (set_cookie (hv_Cookie h) s)) in
    next_flight flight3.

Definition set_pms (o : option bytes) : State -> State := set_preMasterSecret (default [] o).

Definition handleServerKeyExchange (m : MessageServerKeyExchange) : FP unit :=
  let% cfg := getC in
  let% s := getS in
  match s_cipherSuite s with
  | None => fail_with alert_InsufficientSecurity (HVar "errInvalidCipherSuite")
  | Some c =>
      let generate := (let% r := with_rand (GenerateKeypair (sk_NamedCurve m)) in
                       store_or alert_InternalError set_localKeypair r) in
      match c_localPSKCallback cfg with
      | Some callback =>
          let% psk := ok_or alert_InternalError (callback (sk_IdentityHint m)) in
          let% _ := modS (set_IdentityHint (sk_IdentityHint m)) in
          if cs_kx c.1 =? kx_Psk then
            let% pms := or_panic (PSKPreMasterSecret psk) in
            modS (set_preMasterSecret pms)
          else if cs_kx c.1 =? Z.lor kx_Ecdhe kx_Psk then
            let% kp := generate in
            let% _ := store_or alert_InternalError set_pms
              (EcdhePSKPreMasterSecret psk (sk_PublicKey m) (kp_PrivateKey kp) (kp_Curve kp)) in
            fret tt
          else fail_with alert_InsufficientSecurity (HVar "errInvalidCipherSuite")
      | None =>
          let% kp := generate in
          let% _ := store_or alert_InternalError set_pms
            (PreMasterSecret (sk_PublicKey m) (kp_PrivateKey kp) (kp_Curve kp)) in
          fret tt
      end
  end.

(** The value of [state.cipherSuite]; a method call on nil panics. *)
Definition suite : FP (csuite * option C) := let% s := getS in or_panic (the_suite s).

Definition resumed_rules (epoch : Z) : list pullRule :=
  [mkRule TypeClientHello epoch true false; mkRule TypeServerHello epoch false false].

Definition finished_rule (epoch : Z) (isClient : bool) : pullRule := mkRule TypeFinished (u16 (epoch + 1)) isClient false.

(** The comparison with the received verify data. *)
Definition check_finished (expected : bytes -> bytes -> hash_kind -> res derr bytes) (rules : list pullRule)
    (finished : MessageFinished) : FP unit :=
  let% h := getCache in
  let% s := getS in
  let% c := suite in
  let% v := ok_or alert_InternalError (of_derr (expected (s_masterSecret s) (pullAndMerge h rules) (cs_hash c.1))) in
  if bool_decide (v = VerifyData finished) then fret tt
  else fail_with alert_HandshakeFailure (HVar "errVerifyDataMismatch").

Definition handleResumption : FP unit :=
  let% cfg := getC in
  let% s := getS in
  let% s := ok_or alert_InternalError (initCipherSuite s) in
  let% _ := modS (fun _ => s) in
  let% _ := conn_op alert_InternalError fc_handleQueuedPackets in
  let% s := getS in
  let% r := pull_map (s_handshakeRecvSequence s + 1) [finished_rule (c_initialEpoch cfg) false] in
  match r with
  | (_, None) => keep_reading
  | (_, Some msgs) =>
      match msgs !! TypeFinished with
      | Some (MFinished finished) =>
          let% _ := check_finished VerifyDataServer (resumed_rules (c_initialEpoch cfg)) finished in
          next_flight flight5b
      | _ => only_alert alert_InternalError
      end
  end.

(** One extension of a ServerHello. *)
Definition server_extension (e : Extension) : FP unit :=
  let% cfg := getC in
  match e with
  | UseSRTP profiles mki =>
      match findMatchingSRTPProfile profiles (c_localSRTPProtectionProfiles cfg) with
      | None => fail_with alert_IllegalParameter (HVar "errClientNoMatchingSRTPProfile")
      | Some p => modS (fun s => set_remoteSRTPMasterKeyIdentifier mki (set_srtpProtectionProfile p s))
      end
  | UseExtendedMasterSecret _ =>
      if bool_decide (c_extendedMasterSecret cfg = DisableEMS) then fret tt else modS (set_extendedMasterSecret true)
  | ALPN [] => fail_plain (HDerr Panic)
  | ALPN [p] => modS (set_NegotiatedProtocol p)
  | ALPN _ => fail_with alert_InternalError (HVar "ErrALPNInvalidFormat")
  | ConnectionIDExt cid =>
      match c_connectionIDGenerator cfg with
      | Some _ => modS (set_remoteConnectionID (Some cid))
      | None => fret tt
      end
  | _ => fret tt
  end.

(** The ServerHello: none of the steps before the session identifiers ends the
    function but with an error. *)
Definition accept_server_hello (hello : MessageServerHello) : FP unit :=
  let% cfg := getC in
  if negb (Version_Equal (sh_Version hello) Version1_2)
  then fail_with alert_ProtocolVersion (HVar "errUnsupportedProtocolVersion")
  else
    let% _ := for_extensions server_extension (sh_Extensions hello) in
    let% _ := drop_unused_cid in
    let% s := getS in
    if bool_decide (c_extendedMasterSecret cfg = RequireEMS) && negb (s_extendedMasterSecret s)
    then fail_with alert_InsufficientSecurity (HVar "errClientRequiredButNoServerEMS")
    else if negb (bool_decide (c_localSRTPProtectionProfiles cfg = [])) && (s_srtpProtectionProfile s =? 0)
    then fail_with alert_InsufficientSecurity (HVar "errRequestedButNoSRTPExtension")
    else
      let% id := (match sh_CipherSuiteID hello with Some id => fret id | None => fail_plain (HDerr Panic) end) in
      match cipherSuiteForID id (c_customCipherSuites cfg) with
      | None => fail_with alert_InsufficientSecurity (HVar "errCipherSuiteNoIntersection")
      | Some remote =>
          match findMatchingCipherSuite [remote] (c_localCipherSuites cfg) with
          | None => fail_with alert_InsufficientSecurity (HVar "errInvalidCipherSuite")
          | Some c => modS (fun s => set_remoteRandom (sh_Random hello) (set_cipherSuite (Some (c, None)) s))
          end
      end.

(** The rest of the ServerHello: resumption, or a new session. *)
Definition accept_session (hello : MessageServerHello) : FP unit :=
  let% cfg := getC in
  let% s := getS in
  if negb (bool_decide (sh_SessionID hello = [])) && bool_decide (s_SessionID s = sh_SessionID hello) then handleResumption
  else
    let% _ := (if bool_decide (s_SessionID s = []) then fret tt else store_op (st_Del (s_SessionID s))) in
    modS (fun s => set_masterSecret [] (set_SessionID (if c_sessionStore cfg then sh_SessionID hello else []) s)).

Definition flight4_rules (epoch : Z) (psk : bool) : list pullRule :=
  if psk then [mkRule TypeServerKeyExchange epoch false true; mkRule TypeServerHelloDone epoch false false]
  else [mkRule TypeCertificate epoch false true; mkRule TypeServerKeyExchange epoch false false;
        mkRule TypeCertificateRequest epoch false true; mkRule TypeServerHelloDone epoch false false].

(** [h.Certificate] of a decoded message: nil when it has none. *)
Definition peer_certificates (m : MessageCertificate) : option (list bytes) :=
  match Certificate m with [] => None | l => Some l end.

(** The other messages of the server's flight. *)
Definition accept_flight4 : FP unit :=
  let% cfg := getC in
  let% s := getS in
  let% r := pull_map (s_handshakeRecvSequence s + 1)
    (flight4_rules (c_initialEpoch cfg) (bool_decide (is_Some (c_localPSKCallback cfg)))) in
  match r with
  | (_, None) => keep_reading
  | (seq, Some msgs) =>
      let% _ := modS (set_handshakeRecvSequence seq) in
      let% _ := (match msgs !! TypeCertificate with
                 | Some (MCertificate m) => modS (set_PeerCertificates (peer_certificates m))
                 | _ =>
                     let% c := suite in
                     if bool_decide (cs_auth c.1 = AuthCertificate)
                     then fail_with alert_NoCertificate (HVar "errInvalidCertificate") else fret tt
                 end) in
      let% _ := (match msgs !! TypeServerKeyExchange with
                 | Some (MServerKeyExchange m) => handleServerKeyExchange m
                 | _ => fret tt
                 end) in
      let% _ := (match msgs !! TypeCertificateRequest with
                 | Some (MCertificateRequest m) =>
                     modS (fun s => set_remoteRequestedCertificate true
                                      (set_remoteCertRequestAlgs (cr_SignatureHashAlgorithms m) s))
                 | _ => fret tt
                 end) in
      next_flight flight5
  end.

Definition flight3Parse : FP unit :=
  let% cfg := getC in
  let% s := getS in
  let% r := pull_map (s_handshakeRecvSequence s) [mkRule TypeHelloVerifyRequest (c_initialEpoch cfg) false true] in
  let rest :=
    let% s := getS in
    let% r := pull_map (s_handshakeRecvSequence s) [mkRule TypeServerHello (c_initialEpoch cfg) false false] in
    match r.2 with
    | None => keep_reading
    | Some msgs =>
        let% _ := (match msgs !! TypeServerHello with
                   | Some (MServerHello hello) => let% _ := accept_server_hello hello in accept_session hello
                   | _ => fret tt
                   end) in
        accept_flight4
    end in
  match r with
  | (seq, Some msgs) =>
      match msgs !! TypeHelloVerifyRequest with
      | Some (MHelloVerifyRequest h) => take_cookie seq h
      | _ => rest
      end
  | (_, None) => rest
  end.

Definition flight1Parse : FP unit :=
  let% cfg := getC in
  let% s := getS in
  let% r := pull_map (s_handshakeRecvSequence s)
    [mkRule TypeHelloVerifyRequest (c_initialEpoch cfg) false true; mkRule TypeServerHello (c_initialEpoch cfg) false true] in
  match r with
  | (_, None) => keep_reading
  | (seq, Some msgs) =>
      match msgs !! TypeServerHello with
      | Some _ => flight3Parse
      | None =>
          match msgs !! TypeHelloVerifyRequest with
          | Some (MHelloVerifyRequest h) => take_cookie seq h
          | _ => only_alert alert_InternalError
          end
      end
  end.

End flights.
