(* ===== verification/DtlsFlights.v ===== *)
(** * Flights 4 to 6: keys, certificates and Finished

    flight4handler.go, flight4bhandler.go, flight5handler.go,
    flight5bhandler.go and flight6handler.go of golib/replace/dtls: the
    server's flight, the key exchange on both sides, client authentication and
    the Finished messages.  Log and key log output are left out. *)

From S2P Require Import Prelude IO GoStr DtlsWire DtlsExt DtlsHandshake DtlsRandom DtlsFragment.
From S2P Require Import DtlsCrypto DtlsConn DtlsSuites DtlsState DtlsHello.
Open Scope Z_scope.

(** ** Packets *)

Definition ccs_packet : packet := mkPacket (mkRecord (mkHeader 0 0 Version1_2 0 0 []) CChangeCipherSpec) false false.

Definition finish_packet (wrap : bool) (data : bytes) : packet :=
  mkPacket (mkRecord (mkHeader 0 0 Version1_2 1 0 [])
              (CHandshake (mkHandshake (mkHsHeader 0 0 0 0 0) (Some (MFinished (mkFinished data))) 0))) true wrap.

(** The same message with its sequence number, as [Marshal] leaves it. *)
Definition numbered (m : Message) (kx seq : Z) : Handshake := mkHandshake (mkHsHeader 0 0 seq 0 0) (Some m) kx.

Definition with_content (p : packet) (h : Handshake) : packet :=
  mkPacket (mkRecord (r_Header (pk_record p)) (CHandshake h)) (shouldEncrypt p) (shouldWrapCID p).

Section flights.
Context {P SG X G C W R : Type} `{PK : Pki P SG X G} `{CV : Curves G} `{CB : Cryptobyte} {HH : Hash hash_kind}
  `{SI : SuiteInit C} `{FC : FlightConn C W} `{RG : Rand G} `{RR : Rand R} `{MR : MRand R}.
Variable ToLower : string -> string.

#[local] Abbreviation State := (State C).
#[local] Abbreviation handshakeConfig := (handshakeConfig SG X G C).
#[local] Abbreviation FP := (FP SG X G C W).

(** ** Secrets *)

Definition set_master (o : option bytes) : State -> State := set_masterSecret (default [] o).

(** The master secret from the premaster secret; [desc] is the alert of the
    extended derivation. *)
Definition derive_master (desc : Z) (cr sr pms : bytes) (additional : list bytes) : FP unit :=
  let% cfg := getC in
  let% s := getS in
  let% c := suite in
  let% h := getCache in
  let% _ := (if s_extendedMasterSecret s then
               let% sh := ok_or alert_InternalError
                 (sessionHash (fun b => Ok (hash_Sum (cs_hash c.1) b)) h (c_initialEpoch cfg) additional) in
               store_or desc set_master (of_derr (ExtendedMasterSecret pms sh (cs_hash c.1)))
             else
               store_or alert_InternalError set_master (of_derr (MasterSecret pms cr sr (cs_hash c.1)))) in
  fret tt.

Definition init_suite (cr sr : bytes) (client : bool) : FP unit :=
  let% s := getS in
  let% c := suite in
  let% c := ok_or alert_InternalError (suite_init c.1 (s_masterSecret s) cr sr client) in
  modS (set_cipherSuite (Some c)).

(** [state.localKeypair], whose fields are read. *)
Definition keypair : FP Keypair :=
  let% s := getS in match s_localKeypair s with Some kp => fret kp | None => fail_plain (HDerr Panic) end.

Definition valid_scheme (schemes : list (Z * Z)) (hash sig : Z) : bool :=
  existsb (fun ss => (ss.1 =? hash) && (ss.2 =? sig)) schemes.

Definition verify_connection : FP unit :=
  let% cfg := getC in
  match c_verifyConnection cfg with
  | None => fret tt
  | Some verify =>
      let% s := getS in
      let% copy := ok_or alert_InternalError (clone s) in
      ok_or alert_BadCertificate (verify copy)
  end.

Definition verify_peer (raw : list bytes) (chains : list (list X)) : FP unit :=
  let% cfg := getC in
  match c_verifyPeerCertificate cfg with
  | None => fret tt
  | Some verify => ok_or alert_BadCertificate (verify raw chains)
  end.

(** ** Flight 4: the server waits for the client's keys *)

Definition auth_rank (a : ClientAuthType) : nat :=
  match a with
  | NoClientCert => 0 | RequestClientCert => 1 | RequireAnyClientCert => 2
  | VerifyClientCertIfGiven => 3 | RequireAndVerifyClientCert => 4
  end%nat.

(** A received CertificateVerify. *)
Definition check_certificate_verify (m : MessageCertificateVerify) : FP unit :=
  let% cfg := getC in
  let% s := getS in
  match s_PeerCertificates s with
  | None => fail_with alert_NoCertificate (HVar "errCertificateVerifyNoCertificate")
  | Some raw =>
      let% h := getCache in
      let plainText := pullAndMerge h (sessionHash_rules (c_initialEpoch cfg)) in
      if negb (valid_scheme (c_localSignatureSchemes cfg) (cv_Hash m) (cv_SignatureAlgorithm m))
      then fail_with alert_InsufficientSecurity (HVar "errNoAvailableSignatureSchemes")
      else
        let% _ := ok_or alert_BadCertificate (verifyCertificateVerify plainText (cv_Hash m) (cv_Signature m) raw) in
        let% r := (if (auth_rank VerifyClientCertIfGiven <=? auth_rank (c_clientAuth cfg))%nat then
                     let% chains := ok_or alert_BadCertificate (verifyClientCert raw (c_clientCAs cfg)) in
                     fret (chains, true)
                   else fret ([], false)) in
        let% _ := verify_peer raw r.1 in
        modS (set_peerCertificatesVerified r.2)
  end.

(** [cfg.localPSKCallback(hint)]; calling a nil function panics. *)
Definition psk_for (hint : option bytes) : FP bytes :=
  let% cfg := getC in
  match c_localPSKCallback cfg with
  | None => fail_plain (HDerr Panic)
  | Some callback => ok_or alert_InternalError (callback hint)
  end.

(** [clientKeyExchange.PublicKey], nil or not. *)
Definition client_key (m : MessageClientKeyExchange) : bytes := default [] (ck_PublicKey m).

Definition server_premaster (m : MessageClientKeyExchange) : FP bytes :=
  let% c := suite in
  if bool_decide (cs_auth c.1 = AuthPreSharedKey) then
    let% psk := psk_for (ck_IdentityHint m) in
    let% _ := modS (set_IdentityHint (ck_IdentityHint m)) in
    if cs_kx c.1 =? kx_Psk then or_panic (PSKPreMasterSecret psk)
    else if cs_kx c.1 =? Z.lor kx_Psk kx_Ecdhe then
      let% kp := keypair in
      ok_or alert_InternalError (EcdhePSKPreMasterSecret psk (client_key m) (kp_PrivateKey kp) (kp_Curve kp))
    else fail_with alert_InternalError (HVar "errInvalidCipherSuite")
  else
    let% kp := keypair in
    ok_or alert_IllegalParameter (PreMasterSecret (client_key m) (kp_PrivateKey kp) (kp_Curve kp)).

(** Under [!state.cipherSuite.IsInitialized()]. *)
Definition server_keys (m : MessageClientKeyExchange) : FP unit :=
  let% c := suite in
  match c.2 with
  | Some _ => fret tt
  | None =>
      let% s := getS in
      let sr := Random_MarshalFixed (s_localRandom s) in
      let cr := Random_MarshalFixed (s_remoteRandom s) in
      let% pms := server_premaster m in
      let% _ := derive_master alert_InternalError cr sr pms [] in
      init_suite cr sr false
  end.

(** The checks of the client's certificate before flight 6. *)
Definition authorise_client : FP unit :=
  let% cfg := getC in
  let% s := getS in
  let given := bool_decide (is_Some (s_PeerCertificates s)) in
  match c_clientAuth cfg with
  | RequireAnyClientCert =>
      if given then fret tt else fail_with alert_NoCertificate (HVar "errClientCertificateRequired")
  | VerifyClientCertIfGiven =>
      if given && negb (s_peerCertificatesVerified s)
      then fail_with alert_BadCertificate (HVar "errClientCertificateNotVerified") else fret tt
  | RequireAndVerifyClientCert =>
      if negb given then fail_with alert_NoCertificate (HVar "errClientCertificateRequired")
      else if negb (s_peerCertificatesVerified s)
      then fail_with alert_BadCertificate (HVar "errClientCertificateNotVerified") else fret tt
  | NoClientCert | RequestClientCert => fret tt
  end.

Definition client_key_rules (epoch : Z) : list pullRule :=
  [mkRule TypeCertificate epoch true true; mkRule TypeClientKeyExchange epoch true false;
   mkRule TypeCertificateVerify epoch true true].

(** The certificate messages of the client. *)
Definition accept_certificate (msgs : gmap Z Message) : FP unit :=
  let% _ := (match msgs !! TypeCertificate with
             | Some (MCertificate m) => modS (fun s => set_SessionID [] (set_PeerCertificates (peer_certificates m) s))
             | _ => fret tt
             end) in
  match msgs !! TypeCertificateVerify with
  | Some (MCertificateVerify m) => check_certificate_verify m
  | _ => let% s := getS in match s_PeerCertificates s with Some _ => keep_reading | None => fret tt end
  end.

Definition save_session (key : bytes) : FP unit :=
  let% s := getS in
  if bool_decide (s_SessionID s = []) then fret tt
  else store_op (st_Set key (mkSession (Some (s_SessionID s)) (s_masterSecret s))).

(** From the client's messages to its queued packets; the result is the
    sequence number of the message that follows. *)
Definition flight4_keys : FP Z :=
  let% cfg := getC in
  let% s := getS in
  let% r := pull_map (s_handshakeRecvSequence s) (client_key_rules (c_initialEpoch cfg)) in
  match r with
  | (_, None) => keep_reading
  | (seq, Some msgs) =>
      match msgs !! TypeClientKeyExchange with
      | Some (MClientKeyExchange m) =>
          let% _ := accept_certificate msgs in
          let% _ := server_keys m in
          let% s := getS in
          let% _ := save_session (s_SessionID s) in
          let% _ := conn_op alert_InternalError fc_handleQueuedPackets in
          fret seq
      | _ => only_alert alert_InternalError
      end
  end.

Definition flight4Parse : FP unit :=
  let% cfg := getC in
  let% seq := flight4_keys in
  let% r := pull_map seq [finished_rule (c_initialEpoch cfg) true] in
  match r with
  | (_, None) => keep_reading
  | (seq, Some msgs) =>
      let% _ := modS (set_handshakeRecvSequence seq) in
      match msgs !! TypeFinished with
      | Some (MFinished _) =>
          let% c := suite in
          let% _ := (if bool_decide (cs_auth c.1 = AuthAnonymous) then fret tt else authorise_client) in
          let% _ := verify_connection in
          next_flight flight6
      | _ => only_alert alert_InternalError
      end
  end.

(** ** Flight 4: the server's flight *)

Definition negotiated_extensions (cfg : handshakeConfig) (s : State) : list Extension :=
  [RenegotiationInfo 0]
  ++ (if wants_ems cfg && s_extendedMasterSecret s then [UseExtendedMasterSecret true] else [])
  ++ (if s_srtpProtectionProfile s =? 0 then []
      else [UseSRTP [s_srtpProtectionProfile s] (c_localSRTPMasterKeyIdentifier cfg)]).

(** The selected protocol, as an extension. *)
Definition select_protocol : FP (list Extension) :=
  let% cfg := getC in
  let% s := getS in
  let% p := ok_or alert_NoApplicationProtocol
    (of_derr (ALPNProtocolSelection (c_supportedProtocols cfg) (s_peerSupportedProtocols s))) in
  if bool_decide (p = []) then fret []
  else let% _ := modS (set_NegotiatedProtocol p) in fret [ALPN [p]].

Definition server_hello (exts : list Extension) : FP Message :=
  let% cfg := getC in
  let% s := getS in
  let% c := suite in
  let hello := mkServerHello Version1_2 (s_localRandom s) (s_SessionID s) (Some (u16 (cs_ID c.1))) (Some 0) exts in
  match c_serverHelloMessageHook cfg with
  | None => fret (MServerHello hello)
  | Some hook => with_rand (hook hello)
  end.

(** The branch of the suites with certificates. *)
Definition certificate_flight : FP (list packet) :=
  let% cfg := getC in
  let% s := getS in
  let% c := suite in
  let name := String.string_of_list_byte (s_serverName s) in
  let% cert := ok_or alert_HandshakeFailure
    (getCertificate ToLower (c_localCertificates cfg) name
       ((fun f => f name [cs_ID c.1] (RandomBytes (s_remoteRandom s))) <$> c_localGetCertificate cfg)) in
  let sr := Random_MarshalFixed (s_localRandom s) in
  let cr := Random_MarshalFixed (s_remoteRandom s) in
  match tc_PrivateKey cert with
  | KSigner signer =>
      let% a := ok_or alert_InsufficientSecurity (SelectSignatureScheme (c_localSignatureSchemes cfg) signer) in
      let% kp := keypair in
      let% r := with_rand (generateKeySignature cr sr (kp_PublicKey kp) (s_namedCurve s) signer a.1) in
      let% sg := ok_or alert_InternalError r in
      let% _ := modS (set_localKeySignature sg) in
      let request := mkCertificateRequest [RSASign; ECDSASign] (c_localSignatureSchemes cfg)
        (match c_clientCAs cfg with Some _ => c_clientCASubjects cfg | None => [] end) in
      let% creq := (match c_clientAuth cfg with
                    | NoClientCert => fret []
                    | _ =>
                        let% m := (match c_certificateRequestMessageHook cfg with
                                   | None => fret (MCertificateRequest request)
                                   | Some hook => with_rand (hook request)
                                   end) in
                        fret [handshake_packet m]
                    end) in
      fret ([handshake_packet (MCertificate (mkCertificate (default [] (tc_Certificate cert))));
             handshake_packet (MServerKeyExchange
               (mkServerKeyExchange None 3 (s_namedCurve s) (kp_PublicKey kp) a.1 a.2 sg))] ++ creq)
  | _ => fail_with alert_InternalError (HVar "errInvalidPrivateKey")
  end.

Definition psk_flight : FP (list packet) :=
  let% cfg := getC in
  let% s := getS in
  let% c := suite in
  let ecdhe := Has (cs_kx c.1) kx_Ecdhe in
  if bool_decide (is_Some (c_localPSKIdentityHint cfg)) || ecdhe then
    let% m := (if ecdhe then
                 let% kp := keypair in
                 fret (mkServerKeyExchange (c_localPSKIdentityHint cfg) 3 (s_namedCurve s) (kp_PublicKey kp) 0 0 [])
               else fret (mkServerKeyExchange (c_localPSKIdentityHint cfg) 0 0 [] 0 0 [])) in
    fret [handshake_packet (MServerKeyExchange m)]
  else fret [].

Definition flight4Generate : FP (list packet) :=
  let% cfg := getC in
  let% s := getS in
  let% c := suite in
  let certified := bool_decide (cs_auth c.1 = AuthCertificate) in
  let exts := negotiated_extensions cfg s ++ (if certified then [SupportedPointFormats [0]] else []) in
  let% alpn := select_protocol in
  let% cid := (match c_connectionIDGenerator cfg, s_remoteConnectionID s with
               | Some gen, Some _ =>
                   let% id := with_rand gen in
                   let% _ := modS (set_localConnectionID id) in
                   fret [ConnectionIDExt (default [] id)]
               | _, _ => fret []
               end) in
  let exts := exts ++ alpn ++ cid in
  let% _ := (if c_sessionStore cfg
             then let% id := with_rand (rread sessionLength) in modS (set_SessionID id)
             else fret tt) in
  let exts := if (8 <=? length (c_randomizationSeed cfg))%nat
              then (rng_Shuffle exts (mr_New (R:=R) (to_int64 (be_get (take 8 (c_randomizationSeed cfg)))))).1
              else exts in
  let% hello := server_hello exts in
  let% body := (if certified then certificate_flight else psk_flight) in
  fret ([handshake_packet hello] ++ body ++ [handshake_packet MServerHelloDone]).

(** ** Finished *)

(** The messages of a whole handshake up to the client's Finished. *)
Definition full_rules (epoch : Z) : list pullRule :=
  sessionHash_rules epoch ++ [mkRule TypeCertificateVerify epoch true false; finished_rule epoch true].

(** Fills in [state.localVerifyData], unless it is there. *)
Definition own_verify_data (f : bytes -> bytes -> hash_kind -> res derr bytes) (plainText : FP bytes) : FP unit :=
  let% s := getS in
  if bool_decide (s_localVerifyData s = []) then
    let% text := plainText in
    let% c := suite in
    let% _ := store_or alert_InternalError (fun o => set_localVerifyData (default [] o))
      (of_derr (f (s_masterSecret s) text (cs_hash c.1))) in
    fret tt
  else fret tt.

Definition merged (rules : Z -> list pullRule) (more : bytes) : FP bytes :=
  let% cfg := getC in let% h := getCache in fret (pullAndMerge h (rules (c_initialEpoch cfg)) ++ more).

(** [len(state.remoteConnectionID) > 0] *)
Definition wraps (s : State) : bool := negb (bool_decide (default [] (s_remoteConnectionID s) = [])).

Definition flight6Generate : FP (list packet) :=
  let% _ := own_verify_data VerifyDataServer (merged full_rules []) in
  let% s := getS in
  fret [ccs_packet; finish_packet (wraps s) (s_localVerifyData s)].

(** A retransmitted Finished of the peer. *)
Definition again (isClient : bool) (f : flightVal) : FP unit :=
  let% cfg := getC in
  let% s := getS in
  let% r := pull_map (s_handshakeRecvSequence s - 1) [finished_rule (c_initialEpoch cfg) isClient] in
  match r with
  | (_, None) => keep_reading
  | (_, Some msgs) =>
      match msgs !! TypeFinished with
      | Some (MFinished _) => next_flight f
      | _ => only_alert alert_InternalError
      end
  end.

Definition flight6Parse : FP unit := again true flight6.

Definition resumed_full_rules (epoch : Z) : list pullRule := resumed_rules epoch ++ [finished_rule epoch false].

Definition flight5bGenerate : FP (list packet) :=
  let% _ := own_verify_data VerifyDataClient (merged resumed_full_rules []) in
  let% s := getS in
  fret [ccs_packet; finish_packet false (s_localVerifyData s)].

Definition flight5bParse : FP unit := again false flight5b.

(** The Finished of the peer, with its verify data. *)
Definition receive_finished (isClient : bool) (expected : bytes -> bytes -> hash_kind -> res derr bytes)
    (rules : Z -> list pullRule) : FP unit :=
  let% cfg := getC in
  let% s := getS in
  let% r := pull_map (s_handshakeRecvSequence s) [finished_rule (c_initialEpoch cfg) isClient] in
  match r with
  | (_, None) => keep_reading
  | (_, Some msgs) =>
      match msgs !! TypeFinished with
      | Some (MFinished finished) => check_finished expected (rules (c_initialEpoch cfg)) finished
      | _ => only_alert alert_InternalError
      end
  end.

Definition flight4bParse : FP unit :=
  let% _ := receive_finished true VerifyDataClient resumed_full_rules in
  next_flight flight4b.

Definition flight4bGenerate : FP (list packet) :=
  let% cfg := getC in
  let% s := getS in
  let% alpn := select_protocol in
  let% hello := server_hello (negotiated_extensions cfg s ++ alpn) in
  let hs := numbered hello 0 (u16 (s_handshakeSendSequence s)) in
  let% hd := (if bool_decide (s_localVerifyData s = [])
              then let% r := ok_or alert_InternalError (of_derr (Handshake_Marshal hs)) in fret r.1
              else fret (hsk_Header hs)) in
  let% _ := own_verify_data VerifyDataServer
    (let% r := ok_or alert_InternalError (of_derr (Handshake_Marshal hs)) in
     merged (fun epoch => [client_hello_rule epoch]) r.2) in
  let% s := getS in
  fret [with_content (handshake_packet hello) (mkHandshake hd (Some hello) 0); ccs_packet;
        finish_packet false (s_localVerifyData s)].

(** ** Flight 5 *)

Definition flight5Parse : FP unit :=
  let% _ := receive_finished false VerifyDataServer full_rules in
  let% s := getS in
  let% key := conn_get (fun w => (fc_sessionKey s w, w)) in
  let% _ := save_session key in
  next_flight flight5.

(** The certificate of the client: the signer, if there is one, and the
    packet. *)
Definition client_certificate : FP (option SG * list packet) :=
  let% cfg := getC in
  let% s := getS in
  let required {A} : FP A := fail_with alert_HandshakeFailure (HVar "errClientCertificateRequired") in
  let% r := pull_map (s_handshakeRecvSequence s - 2) [mkRule TypeCertificateRequest (c_initialEpoch cfg) false false] in
  let% req := (match r.2 with
               | Some msgs => match msgs !! TypeCertificateRequest with
                              | Some (MCertificateRequest req) => fret req
                              | _ => required
                              end
               | None => required
               end) in
  let% cert := ok_or alert_HandshakeFailure
    (getClientCertificate (c_localCertificates cfg) (cr_Names req)
       ((fun f => f (cr_Names req)) <$> c_localGetClientCertificate cfg)) in
  match cert with
  | None => fail_with alert_HandshakeFailure (HVar "errNotAcceptableCertificateChain")
  | Some cert =>
      let% signer := (match tc_Certificate cert, tc_PrivateKey cert with
                      | None, _ => fret None
                      | Some _, KSigner signer => fret (Some signer)
                      | Some _, _ => fail_with alert_HandshakeFailure (HVar "errInvalidPrivateKey")
                      end) in
      fret (signer, [handshake_packet (MCertificate (mkCertificate (default [] (tc_Certificate cert))))])
  end.

Definition client_key_exchange : FP Message :=
  let% cfg := getC in
  let% s := getS in
  let% key := (match c_localPSKCallback cfg with
               | None => let% kp := keypair in fret (Some (kp_PublicKey kp))
               | Some _ => fret None
               end) in
  let hint := match c_localPSKCallback cfg with None => None | Some _ => c_localPSKIdentityHint cfg end in
  let key := match s_localKeypair s with
             | Some kp => if bool_decide (kp_PublicKey kp = []) then key else Some (kp_PublicKey kp)
             | None => key
             end in
  fret (MClientKeyExchange (mkClientKeyExchange hint key)).

Definition no_key_exchange : MessageServerKeyExchange := mkServerKeyExchange None 0 0 [] 0 0 [].

Definition server_key_exchange : FP MessageServerKeyExchange :=
  let% cfg := getC in
  let% h := getCache in
  match pullAndMerge h [mkRule TypeServerKeyExchange (c_initialEpoch cfg) false false] with
  | [] => let% _ := handleServerKeyExchange no_key_exchange in fret no_key_exchange
  | data =>
      let% c := suite in
      let% r := ok_or alert_UnexpectedMessage (of_derr (Handshake_Unmarshal (cs_kx c.1) data)) in
      match hsk_Message r with
      | Some (MServerKeyExchange m) => fret m
      | _ => fail_with alert_UnexpectedMessage (HVar "errInvalidContentType")
      end
  end.

(** The packets with the sequence numbers they are going to get, and their
    bytes. *)
Fixpoint number_packets (seq : Z) (pkts : list packet) : FP (list packet * bytes * Z) :=
  match pkts with
  | [] => fret ([], [], seq)
  | p :: pkts =>
      match r_Content (pk_record p) with
      | CHandshake h =>
          let h := mkHandshake (mkHsHeader (hs_Type (hsk_Header h)) (hs_Length (hsk_Header h)) seq (FragmentOffset (hsk_Header h))
                                  (FragmentLength (hsk_Header h))) (hsk_Message h) (hsk_KeyExchangeAlgorithm h) in
          let% r := ok_or alert_InternalError (of_derr (Handshake_Marshal h)) in
          let% rest := number_packets (u16 (seq + 1)) pkts in
          fret (with_content p (mkHandshake r.1 (hsk_Message h) (hsk_KeyExchangeAlgorithm h)) :: rest.1.1,
                r.2 ++ rest.1.2, rest.2)
      | _ => fail_with alert_InternalError (HVar "errInvalidContentType")
      end
  end.

(** The server's signature and certificate. *)
Definition check_server (m : MessageServerKeyExchange) (cr sr : bytes) : FP unit :=
  let% cfg := getC in
  let% s := getS in
  let raw := default [] (s_PeerCertificates s) in
  if negb (valid_scheme (c_localSignatureSchemes cfg) (sk_Hash m) (sk_SignatureAlgorithm m))
  then fail_with alert_InsufficientSecurity (HVar "errNoAvailableSignatureSchemes")
  else
    let expected := valueKeyMessage cr sr (sk_PublicKey m) (sk_NamedCurve m) in
    let% _ := ok_or alert_BadCertificate (verifyKeySignature expected (sk_Signature m) (sk_Hash m) raw) in
    let% chains := (if c_insecureSkipVerify cfg then fret []
                    else ok_or alert_BadCertificate (verifyServerCert raw (c_rootCAs cfg) (c_serverName cfg))) in
    verify_peer raw chains.

Definition initializeCipherSuite (m : MessageServerKeyExchange) (sendingPlainText : bytes) : FP unit :=
  let% c := suite in
  match c.2 with
  | Some _ => fret tt
  | None =>
      let% s := getS in
      let cr := Random_MarshalFixed (s_localRandom s) in
      let sr := Random_MarshalFixed (s_remoteRandom s) in
      let% _ := derive_master alert_IllegalParameter cr sr (s_preMasterSecret s) [sendingPlainText] in
      let% _ := (if bool_decide (cs_auth c.1 = AuthCertificate) then check_server m cr sr else fret tt) in
      let% _ := verify_connection in
      init_suite cr sr true
  end.

(** The CertificateVerify, when a signer is there. *)
Definition certificate_verify (signer : option SG) (sent : bytes) (seq : Z) : FP (list packet * bytes) :=
  let% s := getS in
  match signer with
  | Some signer =>
      if s_remoteRequestedCertificate s then
        let% text := merged sessionHash_rules sent in
        let% a := ok_or alert_InsufficientSecurity (SelectSignatureScheme (s_remoteCertRequestAlgs s) signer) in
        let% r := with_rand (generateCertificateVerify text signer a.1) in
        let% sg := ok_or alert_InternalError r in
        let% _ := modS (set_localCertificatesVerify sg) in
        let% r := number_packets seq [handshake_packet (MCertificateVerify (mkCertificateVerify a.1 a.2 sg))] in
        fret r.1
      else fret ([], [])
  | None => fret ([], [])
  end.

Definition flight5Generate : FP (list packet) :=
  let% s := getS in
  let% cert := (if s_remoteRequestedCertificate s then client_certificate else fret (None, [])) in
  let% cke := client_key_exchange in
  let% ske := server_key_exchange in
  let% s := getS in
  let% r := number_packets (u16 (s_handshakeSendSequence s)) (cert.2 ++ [handshake_packet cke]) in
  let '(pkts, sent, seq) := r in
  let% _ := initializeCipherSuite ske sent in
  let% cv := certificate_verify cert.1 sent seq in
  let% _ := own_verify_data VerifyDataClient (merged full_rules (sent ++ cv.2)) in
  let% s := getS in
  fret (pkts ++ cv.1 ++ [ccs_packet; finish_packet (wraps s) (s_localVerifyData s)]).

(** ** The table *)

Variable populate : G -> res herr Random * G.

Definition getFlightParser (f : flightVal) : FP unit :=
  match f with
  | flight0 => flight0Parse
  | flight1 => flight1Parse
  | flight2 => flight2Parse
  | flight3 => flight3Parse
  | flight4 => flight4Parse
  | flight4b => flight4bParse
  | flight5 => flight5Parse
  | flight5b => flight5bParse
  | flight6 => flight6Parse
  end.

(** The generator, and whether the flight is sent again when the timer
    expires. *)
Definition getFlightGenerator (f : flightVal) : FP (list packet) * bool :=
  match f with
  | flight0 => (flight0Generate populate, true)
  | flight1 => (flight1Generate (R:=R) populate, true)
  | flight2 => (flight2Generate, false)
  | flight3 => (flight3Generate, true)
  | flight4 => (flight4Generate, true)
  | flight4b => (flight4bGenerate, true)
  | flight5 => (flight5Generate, true)
  | flight5b => (flight5bGenerate, true)
  | flight6 => (flight6Generate, true)
  end.

End flights.
