(* ===== verification/DtlsFsm.v ===== *)
(** * The handshake state machine

    [handshakeFSM] of golib/replace/dtls/handshaker.go: preparing, sending and
    waiting for flights, the retransmission timer, and what a whole run of the
    machine guarantees. *)

From S2P Require Import Prelude IO GoStr DtlsWire DtlsExt DtlsHandshake DtlsRandom DtlsFragment.
From S2P Require Import DtlsCrypto DtlsConn DtlsSuites DtlsState DtlsHello DtlsFlights.
Open Scope Z_scope.

Inductive handshakeState := Errored | Preparing | Sending | Waiting | Finished.

#[export] Instance handshakeState_eq_dec : EqDecision handshakeState.
Proof. solve_decision. Defined.

(** [time.Duration] in nanoseconds. *)
Record handshakeFSM := mkFSM {
  currentFlight : flightVal;
  fsm_flights : list packet;
  retransmit : bool;
  retransmitInterval : Z
}.

Definition maxRetransmitInterval : Z := 60000000000.

(** What the select of [wait] and [finish] sees: a flight of the peer (or a
    packet of an old one), the timer, the end of the context. *)
Inductive event := EvRecv (isRetransmit : bool) | EvTimer | EvCancel.

Definition ctx_err : herr := HVar "ctx.Err()".

Section fsm.
Context {P SG X G C W R : Type} `{PK : Pki P SG X G} `{CV : Curves G} `{CB : Cryptobyte} {HH : Hash hash_kind}
  `{SI : SuiteInit C} `{FC : FlightConn C W} `{RG : Rand G} `{RR : Rand R} `{MR : MRand R}.
Variables (ToLower : string -> string) (populate : G -> res herr Random * G).

#[local] Abbreviation fworld := (fworld SG X G C W).

Definition newHandshakeFSM (cfg : handshakeConfig SG X G C) (initialFlight : flightVal) : handshakeFSM :=
  mkFSM initialFlight [] false (c_initialRetransmitInterval cfg).

(** The alert of a flight; an error of [notify] counts only beside another. *)
Definition send_alert (alert : option Alert) (err : option herr) (w : fworld) : option herr * fworld :=
  match alert with
  | None => (err, w)
  | Some a =>
      let '(e, s, c) := fc_notify a (fw_state w) (fw_conn w) in
      let w := mkFW s (fw_cfg w) c (fw_rand w) in
      (match e, err with Some e, Some _ => Some e | _, _ => err end, w)
  end.

(** The loop over the packets: epochs relative to the initial one, message
    numbers; the result has the highest epoch and the next number. *)
Fixpoint stamp (epoch : Z) (pkts : list packet) (nextEpoch seq : Z) : list packet * Z * Z :=
  match pkts with
  | [] => ([], nextEpoch, seq)
  | p :: pkts =>
      let h := r_Header (pk_record p) in
      let e := u16 (Epoch h + epoch) in
      let h := mkHeader (ContentType h) (ContentLen h) (HVersion h) e (SequenceNumber h) (ConnectionID h) in
      let nextEpoch := if nextEpoch <? e then e else nextEpoch in
      let '(content, seq) :=
        match r_Content (pk_record p) with
        | CHandshake m =>
            let d := hsk_Header m in
            (CHandshake (mkHandshake (mkHsHeader (hs_Type d) (hs_Length d) (u16 seq) (FragmentOffset d) (FragmentLength d))
                           (hsk_Message m) (hsk_KeyExchangeAlgorithm m)), seq + 1)
        | c => (c, seq)
        end in
      let '(rest, nextEpoch, seq) := stamp epoch pkts nextEpoch seq in
      (mkPacket (mkRecord h content) (shouldEncrypt p) (shouldWrapCID p) :: rest, nextEpoch, seq)
  end.

Definition prepare (m : handshakeFSM) (w : fworld) : res herr handshakeState * handshakeFSM * fworld :=
  let '(gen, rt) := getFlightGenerator (R:=R) ToLower populate (currentFlight m) in
  let '(r, w) := gen w in
  let m := mkFSM (currentFlight m) [] rt (retransmitInterval m) in
  let '(pkts, alert, err) := match r with inl pkts => (pkts, None, None) | inr o => ([], o_alert o, o_err o) end in
  let '(err, w) := send_alert alert err w in
  match err with
  | Some e => (Err e, m, w)
  | None =>
      let epoch := c_initialEpoch (fw_cfg w) in
      let '(pkts, nextEpoch, seq) := stamp epoch pkts epoch (s_handshakeSendSequence (fw_state w)) in
      let s := set_handshakeSendSequence seq (fw_state w) in
      let s := if epoch =? nextEpoch then s else set_localEpoch nextEpoch s in
      (Ok Sending, mkFSM (currentFlight m) pkts rt (retransmitInterval m), mkFW s (fw_cfg w) (fw_conn w) (fw_rand w))
  end.

Definition send (m : handshakeFSM) (w : fworld) : res herr handshakeState * handshakeFSM * fworld :=
  let '(e, s, c) := fc_writePackets (fsm_flights m) (fw_state w) (fw_conn w) in
  let w := mkFW s (fw_cfg w) c (fw_rand w) in
  match e with
  | Some e => (Err e, m, w)
  | None => (Ok (if isLastSendFlight (currentFlight m) then Finished else Waiting), m, w)
  end.

Definition set_interval (i : Z) (m : handshakeFSM) : handshakeFSM :=
  mkFSM (currentFlight m) (fsm_flights m) (retransmit m) i.

(** The timer: doubled unless disabled, at most a minute; 64-bit. *)
Definition next_interval (disabled : bool) (i : Z) : Z :=
  let i := if disabled then i else to_int64 ((i * 2) mod 2 ^ 64) in
  if maxRetransmitInterval <? i then maxRetransmitInterval else i.

(** One turn of the loop of [wait]; [None]: the loop goes on with the same
    timer. *)
Definition wait (ev : event) (m : handshakeFSM) (w : fworld)
    : option (res herr handshakeState) * handshakeFSM * fworld :=
  let cfg := fw_cfg w in
  match ev with
  | EvRecv true => (Some (Ok Sending), m, w)
  | EvRecv false =>
      let '(r, w) := getFlightParser (currentFlight m) w in
      let m := set_interval (c_initialRetransmitInterval cfg) m in
      let o := match r with inr o => o | inl _ => mkOut None None None end in
      let '(err, w) := send_alert (o_alert o) (o_err o) w in
      match err with
      | Some e => (Some (Err e), m, w)
      | None =>
          match o_flight o with
          | None => (None, m, w)
          | Some f =>
              if isLastRecvFlight f && bool_decide (currentFlight m = f) then (Some (Ok Finished), m, w)
              else (Some (Ok Preparing), mkFSM f (fsm_flights m) (retransmit m) (retransmitInterval m), w)
          end
      end
  | EvTimer =>
      if retransmit m
      then (Some (Ok Sending), set_interval (next_interval (c_disableRetransmitBackoff cfg) (retransmitInterval m)) m, w)
      else (Some (Ok Waiting), m, w)
  | EvCancel => (Some (Err ctx_err), set_interval (c_initialRetransmitInterval cfg) m, w)
  end.

(** One turn of [finish]; there is no timer. *)
Definition finish (isRetransmit : bool) (cancelled : bool) (w : fworld) : res herr handshakeState :=
  if cancelled then Err ctx_err else Ok (if s_isClient (fw_state w) then Finished else Sending).

(** ** Run

    The steps of [Run] as a relation; between two of them the connection and
    its share of the state (epochs, counters, handshake cache) move on. *)

Definition snapshot : Type := handshakeState * handshakeFSM * fworld.

Inductive fsm_step : snapshot -> snapshot -> Prop :=
  | step_prepare m w st m' w' :
      prepare m w = (Ok st, m', w') -> fsm_step (Preparing, m, w) (st, m', w')
  | step_send m w st m' w' :
      send m w = (Ok st, m', w') -> fsm_step (Sending, m, w) (st, m', w')
  | step_wait ev m w r m' w' :
      wait ev m w = (Some (Ok r), m', w') -> fsm_step (Waiting, m, w) (r, m', w')
  | step_wait_more ev m w m' w' :
      wait ev m w = (None, m', w') -> fsm_step (Waiting, m, w) (Waiting, m', w')
  | step_finish rt m w st :
      finish rt false w = Ok st -> fsm_step (Finished, m, w) (st, m, w)
  | step_env st m s cfg c g e seqs c' :
      fsm_step (st, m, mkFW s cfg c g) (st, m, mkFW (set_remoteEpoch e (set_localSequenceNumber seqs s)) cfg c' g).

(** [HandshakeContext]: the flight and the state that a run begins with. *)
Definition initial (isClient resumed : bool) (cfg : handshakeConfig SG X G C) (w : fworld) : snapshot :=
  if resumed then (Finished, newHandshakeFSM cfg (if isClient then flight5 else flight6), w)
  else (Preparing, newHandshakeFSM cfg (if isClient then flight1 else flight0), w).

End fsm.

(** ** Where a flight leads *)

Section ends.
Context {SG X G C W : Type}.

#[local] Abbreviation FP := (FP SG X G C W).

(** The part of the configuration that the machine itself uses. *)
Definition timing (c : handshakeConfig SG X G C) : Z * bool * Z :=
  (c_initialRetransmitInterval c, c_disableRetransmitBackoff c, c_initialEpoch c).

(** Whenever [m] ends with a next flight, it is one of [l]; and [m] keeps that
    part of the configuration. *)
Definition ends {A} (l : list flightVal) (m : FP A) : Prop :=
  forall w, match (m w).1 with
            | inr o => match o_flight o with Some f => f ∈ l | None => True end
            | inl _ => True
            end /\ timing (fw_cfg (m w).2) = timing (fw_cfg w).

Lemma ends_bind {A B} l (m : FP A) (k : A -> FP B) : ends l m -> (forall a, ends l (k a)) -> ends l (fbind m k).
Proof.
  intros Hm Hk w. specialize (Hm w). unfold fbind. destruct (m w) as [[a|o] w']; cbn [fst snd] in *; [|done].
  destruct (Hk a w') as [H1 H2]. split; [exact H1|]. rewrite H2. apply Hm.
Qed.

Lemma ends_fret {A} l (a : A) : ends l (fret a : FP A).
Proof. done. Qed.

Lemma ends_next {A} l f : f ∈ l -> ends l (next_flight f : FP A).
Proof. by intros ??. Qed.

Lemma ends_ok_or {A} l d (r : res herr A) : ends l (ok_or d r : FP A).
Proof. by destruct r; intros w. Qed.

Lemma ends_or_panic {A E} l (r : res E A) : ends l (or_panic r : FP A).
Proof. by destruct r; intros w. Qed.

Lemma ends_store_or {A} l d set (r : res herr A) : ends l (store_or d set r : FP A).
Proof. by destruct r; intros w. Qed.

Lemma ends_conn_op l d op : ends l (conn_op d op : FP unit).
Proof. intros w. unfold conn_op. by destruct (op _ _) as [[[e|] s] c]. Qed.

Lemma ends_store_op l op : ends l (store_op op : FP unit).
Proof. intros w. unfold store_op. destruct (c_sessionStore _); [|done]. by destruct (op _) as [[e|] c]. Qed.

Lemma ends_with_rand {A} l (op : G -> A * G) : ends l (with_rand op : FP A).
Proof. intros w. unfold with_rand. by destruct (op _). Qed.

Lemma ends_conn_get {A} l (op : W -> A * W) : ends l (conn_get op : FP A).
Proof. intros w. unfold conn_get. by destruct (op _). Qed.

Lemma timing_write_back exts : forall c, timing (foldl (fun c e => write_back e c) c exts) = timing c.
Proof. induction exts as [|e exts IH]; intros c; [done|]. cbn [foldl]. rewrite IH. by destruct e. Qed.

Lemma ends_write_back l exts : ends l (modC (fun c => foldl (fun c e => write_back e c) c exts) : FP unit).
Proof. intros w. split; [done|]. apply timing_write_back. Qed.

Lemma ends_sub {A} l l' (m : FP A) : l' ⊆ l -> ends l' m -> ends l m.
Proof.
  intros Hs Hm w. destruct (Hm w) as [H1 H2]. split; [|done].
  destruct (m w).1 as [|o]; [done|]. destruct (o_flight o); [|done]. by apply Hs.
Qed.

Lemma ends_extensions l body exts :
  (forall e, ends l (body e)) -> ends l (for_extensions body exts : FP unit).
Proof. intros Hb. induction exts as [|e exts IH]; [done|]. apply ends_bind; [done|]. by intros _. Qed.

End ends.

Create HintDb fp discriminated.
#[export] Hint Resolve ends_fret ends_ok_or ends_or_panic ends_store_or ends_conn_op ends_store_op ends_with_rand
  ends_conn_get ends_write_back ends_extensions : fp.

(** Splits a program into its steps. *)
Ltac ends_step :=
  match goal with
  | |- ends _ (fbind _ _) => apply ends_bind; [|intros ?]
  | |- ends _ (next_flight _) => apply ends_next; repeat case_match; set_solver
  | |- ends _ (keep_reading) => done
  | |- ends _ (only_alert _) => done
  | |- ends _ (fail_with _ _) => done
  | |- ends _ (fail_plain _) => done
  | |- ends _ getS => done
  | |- ends _ getC => done
  | |- ends _ getCache => done
  | |- ends _ (modS _) => done
  | |- ends _ (match ?x with _ => _ end) => destruct x
  | |- ends _ (let '(_, _) := ?x in _) => destruct x
  | |- ends _ _ => solve [auto with fp nocore]
  end.

Ltac ends_tac := repeat ends_step.

Section successors.
Context {P SG X G C W R : Type} `{PK : Pki P SG X G} `{CV : Curves G} `{CB : Cryptobyte} {HH : Hash hash_kind}
  `{SI : SuiteInit C} `{FC : FlightConn C W} `{RG : Rand G} `{RR : Rand R} `{MR : MRand R}.

#[local] Abbreviation FP := (FP SG X G C W).

Lemma ends_pull l seq rules : ends l (pull_map seq rules : FP _).
Proof. unfold pull_map. ends_tac. Qed.

Lemma ends_suite l : ends l (suite : FP _).
Proof. unfold suite. ends_tac. Qed.

Lemma ends_keypair l : ends l (keypair : FP _).
Proof. unfold keypair. ends_tac. Qed.

#[local] Hint Resolve ends_pull ends_suite ends_keypair : fp.

Lemma ends_check_finished l f rules m : ends l (check_finished f rules m : FP _).
Proof. unfold check_finished. ends_tac. Qed.

Lemma ends_handleServerKeyExchange l m : ends l (handleServerKeyExchange m : FP _).
Proof. unfold handleServerKeyExchange. ends_tac. Qed.

#[local] Hint Resolve ends_check_finished ends_handleServerKeyExchange : fp.

Lemma ends_take_cookie {A} seq h : ends [flight3] (take_cookie seq h : FP A).
Proof. unfold take_cookie. ends_tac. Qed.

Lemma ends_resumption : ends [flight5b] (handleResumption : FP _).
Proof. unfold handleResumption. ends_tac. Qed.

Lemma ends_negotiate l hello : ends l (negotiate hello : FP _).
Proof. unfold negotiate, client_extension, drop_unused_cid. ends_tac. apply ends_extensions. intros e. ends_tac. Qed.

Lemma ends_flight0 : ends [flight2; flight4; flight4b] (flight0Parse : FP _).
Proof.
  unfold flight0Parse, handleHelloResume. ends_tac. apply ends_negotiate.
Qed.

Lemma ends_flight2 : ends [flight2; flight4; flight4b] (flight2Parse : FP _).
Proof. unfold flight2Parse. ends_tac; apply ends_flight0. Qed.

Lemma ends_server_hello l hello : ends l (accept_server_hello hello : FP _).
Proof.
  unfold accept_server_hello, drop_unused_cid. ends_tac. apply ends_extensions. intros e. unfold server_extension. ends_tac.
Qed.

#[local] Hint Resolve ends_negotiate ends_server_hello : fp.

Lemma ends_session hello : ends [flight5b] (accept_session hello : FP _).
Proof. unfold accept_session. ends_tac. apply ends_resumption. Qed.

Lemma ends_flight4_messages : ends [flight5] (accept_flight4 : FP _).
Proof. unfold accept_flight4. ends_tac. Qed.

Lemma ends_flight3 : ends [flight3; flight5; flight5b] (flight3Parse : FP _).
Proof.
  assert (Hs : forall h : MessageServerHello, ends [flight3; flight5; flight5b] (accept_session h : FP _)).
  { intros h. eapply ends_sub; [|apply ends_session]. set_solver. }
  assert (Hc : forall seq h, ends [flight3; flight5; flight5b] (take_cookie seq h : FP unit)).
  { intros seq h. eapply ends_sub; [|apply ends_take_cookie]. set_solver. }
  assert (H4 : ends [flight3; flight5; flight5b] (accept_flight4 : FP unit)).
  { eapply ends_sub; [|apply ends_flight4_messages]. set_solver. }
  unfold flight3Parse. ends_tac.
Qed.

Lemma ends_flight1 : ends [flight3; flight5; flight5b] (flight1Parse : FP _).
Proof.
  unfold flight1Parse. ends_tac; [apply ends_flight3|]. eapply ends_sub; [|apply ends_take_cookie]. set_solver.
Qed.

Lemma ends_verify_connection l : ends l (verify_connection : FP _).
Proof. unfold verify_connection. ends_tac. Qed.

Lemma ends_certificate l msgs : ends l (accept_certificate msgs : FP _).
Proof. unfold accept_certificate, check_certificate_verify, verify_peer. ends_tac. Qed.

Lemma ends_server_keys l m : ends l (server_keys m : FP _).
Proof. unfold server_keys, server_premaster, psk_for, derive_master, init_suite. ends_tac. Qed.

Lemma ends_save l key : ends l (save_session key : FP _).
Proof. unfold save_session. ends_tac. Qed.

#[local] Hint Resolve ends_verify_connection ends_certificate ends_server_keys ends_save : fp.

Lemma ends_flight4 : ends [flight6] (flight4Parse : FP _).
Proof. unfold flight4Parse, flight4_keys, authorise_client. ends_tac. Qed.

Lemma ends_receive_finished l c f rules : ends l (receive_finished c f rules : FP _).
Proof. unfold receive_finished. ends_tac. Qed.

#[local] Hint Resolve ends_receive_finished : fp.

Lemma ends_again c f : ends [f] (again c f : FP _).
Proof. unfold again. ends_tac. Qed.

(** The flights that may follow each flight. *)
Definition successors (f : flightVal) : list flightVal :=
  match f with
  | flight0 | flight2 => [flight2; flight4; flight4b]
  | flight1 | flight3 => [flight3; flight5; flight5b]
  | flight4 | flight6 => [flight6]
  | flight4b => [flight4b]
  | flight5 => [flight5]
  | flight5b => [flight5b]
  end.

Lemma parser_successors f : ends (successors f) (getFlightParser f : FP _).
Proof.
  destruct f; cbn [successors getFlightParser];
    [apply ends_flight0|apply ends_flight1|apply ends_flight2|apply ends_flight3|apply ends_flight4
    | | |apply ends_again|apply ends_again].
  - unfold flight4bParse. ends_tac.
  - unfold flight5Parse. ends_tac.
Qed.

(** *** Generators *)

Variables (ToLower : string -> string) (populate : G -> res herr Random * G).

Lemma ends_send_hello l hello : ends l (send_hello hello : FP _).
Proof. unfold send_hello. ends_tac. Qed.

Lemma ends_own_verify_data l f text : ends l text -> ends l (own_verify_data f text : FP _).
Proof. intros Ht. unfold own_verify_data. ends_tac. Qed.

Lemma ends_merged l rules more : ends l (merged rules more : FP _).
Proof. unfold merged. ends_tac. Qed.

Lemma ends_select_protocol l : ends l (select_protocol : FP _).
Proof. unfold select_protocol. ends_tac. Qed.

Lemma ends_server_hello_message l exts : ends l (server_hello exts : FP _).
Proof. unfold server_hello. ends_tac. Qed.

Lemma ends_number_packets l pkts : forall seq, ends l (number_packets seq pkts : FP _).
Proof. induction pkts as [|p pkts IH]; intros seq; [done|]. cbn [number_packets]. ends_tac. Qed.

#[local] Hint Resolve ends_send_hello ends_own_verify_data ends_merged ends_select_protocol ends_server_hello_message
  ends_number_packets : fp.

Lemma ends_flight1Generate l : ends l (flight1Generate (R:=R) populate : FP _).
Proof. unfold flight1Generate, populate_random. ends_tac. Qed.

Lemma ends_flight4Generate l : ends l (flight4Generate (R:=R) ToLower : FP _).
Proof. unfold flight4Generate, certificate_flight, psk_flight. ends_tac. Qed.

Lemma ends_flight5Generate l : ends l (flight5Generate : FP _).
Proof.
  unfold flight5Generate, client_certificate, client_key_exchange, server_key_exchange, initializeCipherSuite,
    derive_master, check_server, verify_peer, init_suite, certificate_verify. ends_tac.
Qed.

Lemma generator_keeps f : ends [] (getFlightGenerator (R:=R) ToLower populate f).1.
Proof.
  destruct f; cbn [getFlightGenerator fst]; auto using ends_flight1Generate, ends_flight4Generate, ends_flight5Generate.
  - unfold flight0Generate. ends_tac.
  - unfold flight2Generate. ends_tac.
  - unfold flight3Generate. ends_tac.
  - unfold flight4bGenerate. ends_tac. apply ends_own_verify_data. ends_tac.
  - unfold flight5bGenerate. ends_tac.
  - unfold flight6Generate. ends_tac.
Qed.

End successors.

(** ** Invariants of a run *)

Section run.
Context {P SG X G C W R : Type} `{PK : Pki P SG X G} `{CV : Curves G} `{CB : Cryptobyte} {HH : Hash hash_kind}
  `{SI : SuiteInit C} `{FC : FlightConn C W} `{RG : Rand G} `{RR : Rand R} `{MR : MRand R}.
Variables (ToLower : string -> string) (populate : G -> res herr Random * G).

#[local] Abbreviation fworld := (fworld SG X G C W).
#[local] Abbreviation step := (fsm_step (R:=R) ToLower populate (SG:=SG) (X:=X) (G:=G) (C:=C) (W:=W)).

Definition role_flights (isClient : bool) : list flightVal :=
  if isClient then [flight1; flight3; flight5; flight5b] else [flight0; flight2; flight4; flight4b; flight6].

(** The flights after which an end is done: its own is the last, or the
    peer's last has arrived. *)
Definition last_flights : list flightVal := [flight4b; flight5; flight5b; flight6].

Lemma successors_role isClient f g : f ∈ role_flights isClient -> g ∈ successors f -> g ∈ role_flights isClient.
Proof. destruct isClient, f, g; set_solver. Qed.

(** What every step keeps: the flights of the role, where the machine can be
    done, and the configuration of the timer. *)
Record fsm_ok (isClient : bool) (t : Z * bool * Z) (sn : handshakeState * handshakeFSM * fworld) : Prop := {
  ok_role : currentFlight sn.1.2 ∈ role_flights isClient;
  ok_done : sn.1.1 = Finished -> currentFlight sn.1.2 ∈ last_flights;
  ok_not_errored : sn.1.1 <> Errored;
  ok_timing : timing (fw_cfg sn.2) = t
}.

Lemma send_alert_cfg a e (w : fworld) e' w' : send_alert a e w = (e', w') -> fw_cfg w' = fw_cfg w.
Proof.
  destruct a as [a|]; cbn; [|by intros [= <- <-]].
  destruct (fc_notify a (fw_state w) (fw_conn w)) as [[e1 s1] c1]. by intros [= <- <-].
Qed.

Lemma prepare_ok isClient t m (w : fworld) st m' w' :
  fsm_ok isClient t (Preparing, m, w) -> prepare (R:=R) ToLower populate m w = (Ok st, m', w') ->
  fsm_ok isClient t (st, m', w').
Proof.
  intros [Hr _ _ Ht] Hp. unfold prepare in Hp.
  pose proof (generator_keeps (R:=R) (CB:=CB) (SI:=SI) ToLower populate (currentFlight m) w) as [_ Hk].
  destruct (getFlightGenerator ToLower populate (currentFlight m)) as [gen rt]. cbn [fst] in Hk.
  destruct (gen w) as [r w1]. cbn [snd] in Hk.
  destruct (match r with inl pkts => (pkts, None, None) | inr o => ([], o_alert o, o_err o) end) as [[pkts a] e].
  destruct (send_alert a e w1) as [[e1|] w2] eqn:Ha; [done|]. apply send_alert_cfg in Ha.
  destruct (stamp _ _ _ _) as [[pkts' ne] seq]. injection Hp as <- <- <-.
  constructor; cbn in *; try done. rewrite Ha. congruence.
Qed.

Lemma send_ok isClient t m (w : fworld) st m' w' :
  fsm_ok isClient t (Sending, m, w) -> send m w = (Ok st, m', w') -> fsm_ok isClient t (st, m', w').
Proof.
  intros [Hr _ _ Ht] Hs. unfold send in Hs.
  destruct (fc_writePackets _ _ _) as [[[e|] s] c]; [done|]. injection Hs as <- <- <-.
  constructor; cbn in *; try done; unfold isLastSendFlight; case_bool_decide as Hl; try done.
  intros _. destruct Hl as [-> | ->]; set_solver.
Qed.

Lemma next_interval_spec disabled i : 0 <= i < 2 ^ 62 ->
  next_interval disabled i = Z.min (if disabled then i else i * 2) maxRetransmitInterval.
Proof.
  intros Hi. unfold next_interval. destruct disabled; [destruct (Z.ltb_spec maxRetransmitInterval i); lia|].
  rewrite Z.mod_small by lia. unfold to_int64. destruct (Z.ltb_spec (i * 2) (2 ^ 63)); [|lia].
  destruct (Z.ltb_spec maxRetransmitInterval (i * 2)); lia.
Qed.

Lemma wait_ok isClient t ev m (w : fworld) r m' w' :
  fsm_ok isClient t (Waiting, m, w) -> wait ev m w = (r, m', w') ->
  match r with
  | Some (Ok st) => fsm_ok isClient t (st, m', w')
  | Some (Err _) => True
  | None => fsm_ok isClient t (Waiting, m', w')
  end.
Proof.
  intros [Hr _ _ Ht] Hw. destruct ev as [[]| |]; cbn in Hw.
  - injection Hw as <- <- <-. by constructor.
  - destruct (parser_successors (CB:=CB) (SI:=SI) (currentFlight m) w) as [Hs Hk].
    destruct (getFlightParser (currentFlight m) w) as [q w1]. cbn [fst snd] in Hs, Hk.
    set (o := match q with inr o => o | inl _ => mkOut None None None end) in *.
    assert (Ho : match o_flight o with Some f => f ∈ successors (currentFlight m) | None => True end) by by destruct q.
    destruct (send_alert (o_alert o) (o_err o) w1) as [[e1|] w2] eqn:Ha; [by injection Hw as <- <- <-|].
    apply send_alert_cfg in Ha. rewrite <- Ha in Hk.
    assert (Ht' : timing (fw_cfg w2) = t) by (cbn in Ht; congruence). clear Ha Hk.
    destruct (o_flight o) as [f|]; [|injection Hw as <- <- <-; by constructor].
    unfold isLastRecvFlight in Hw. destruct (bool_decide_reflect (f = flight5 \/ f = flight4b)) as [Hl|Hl]; cbn [andb] in Hw;
      [case_bool_decide as He|]; injection Hw as <- <- <-; constructor; cbn in *; auto; try done.
    + intros _. rewrite He. destruct Hl as [-> | ->]; set_solver.
    + by eapply successors_role.
    + by eapply successors_role.
  - destruct (retransmit m); injection Hw as <- <- <-; by constructor.
  - by injection Hw as <- <- <-.
Qed.

Lemma step_ok isClient t (a b : snapshot) :
  step a b -> fsm_ok isClient t a -> fsm_ok isClient t b.
Proof.
  intros Hs Ha. destruct Hs as [m w st m' w' Hp|m w st m' w' Hp|ev m w r m' w' Hp|ev m w m' w' Hp|rt m w st Hp|st m s cfg c g e seqs c'].
  - by eapply prepare_ok.
  - by eapply send_ok.
  - by apply (wait_ok isClient t) in Hp.
  - by apply (wait_ok isClient t) in Hp.
  - unfold finish in Hp. injection Hp as <-. destruct Ha as [Hr Hd _ Ht'].
    constructor; cbn in *; auto; by destruct (s_isClient _).
  - destruct Ha as [Hr Hd He Ht']. by constructor.
Qed.

Lemma initial_ok isClient resumed (w : fworld) :
  fsm_ok isClient (timing (fw_cfg w)) (initial isClient resumed (fw_cfg w) w).
Proof. destruct isClient, resumed; constructor; cbn; try done; set_solver. Qed.

Lemma reachable_ok isClient resumed (w : fworld) sn :
  rtc step (initial isClient resumed (fw_cfg w) w) sn -> fsm_ok isClient (timing (fw_cfg w)) sn.
Proof.
  intros Hr. remember (initial isClient resumed (fw_cfg w) w) as a eqn:Ea.
  assert (Ha : fsm_ok isClient (timing (fw_cfg w)) a) by (subst a; apply initial_ok). clear Ea.
  induction Hr as [|x y z Hxy _ IH]; [done|]. apply IH. by eapply step_ok.
Qed.

(** C17: In every run of the handshake machine, whatever arrives, expires or is
    retransmitted, each end stays in the flights of its role and the machine
    is done only in a last flight: 5 or 5b for a client, 4b or 6 for a
    server. *)
Theorem roles_kept isClient resumed (w : fworld) st m w' :
  rtc step (initial isClient resumed (fw_cfg w) w) (st, m, w') ->
  currentFlight m ∈ role_flights isClient /\ st <> Errored /\
  (st = Finished -> currentFlight m ∈ (if isClient then [flight5; flight5b] else [flight4b; flight6])).
Proof.
  intros Hr%reachable_ok. destruct Hr as [Hrole Hdone Herr _]. cbn in *. split_and!; [done|done|].
  intros He. specialize (Hdone He). destruct isClient, (currentFlight m); set_solver.
Qed.

(** ** The retransmission timer

    A run together with the number of timer expiries that have led to a
    retransmission since the run began or since the last messages of the peer
    were parsed. *)

Definition expiries (ev : event) (rt : bool) (k : nat) : nat :=
  match ev with EvTimer => if rt then S k else k | EvRecv true => k | EvRecv false | EvCancel => 0 end.

Inductive timed (start : snapshot) : nat -> snapshot -> Prop :=
  | timed_start : timed start 0 start
  | timed_step k st m w st' m' w' :
      timed start k (st, m, w) -> st <> Waiting -> step (st, m, w) (st', m', w') -> timed start k (st', m', w')
  | timed_env k m s cfg c g e seqs c' :
      timed start k (Waiting, m, mkFW s cfg c g) ->
      timed start k (Waiting, m, mkFW (set_remoteEpoch e (set_localSequenceNumber seqs s)) cfg c' g)
  | timed_wait k ev m w r m' w' :
      timed start k (Waiting, m, w) -> wait ev m w = (Some (Ok r), m', w') -> timed start (expiries ev (retransmit m) k) (r, m', w')
  | timed_more k ev m w m' w' :
      timed start k (Waiting, m, w) -> wait ev m w = (None, m', w') -> timed start (expiries ev (retransmit m) k) (Waiting, m', w').

Lemma run_timed start sn : rtc step start sn -> exists k, timed start k sn.
Proof.
  intros Hr. apply rtc_ind_r with (P := fun sn => exists k, timed start k sn) (x := start) in Hr; [done|exists 0%nat; constructor|].
  intros [[st m] w] [[st' m'] w'] _ Hs (k & Hk). destruct (decide (st = Waiting)) as [-> |Hn]; [|exists k; by eapply timed_step].
  inversion Hs; subst; eexists; solve [by eapply timed_wait | by eapply timed_more | by eapply timed_env].
Qed.

Lemma timed_run start k sn : timed start k sn -> rtc step start sn.
Proof.
  induction 1; [done|..]; (eapply rtc_r; [eassumption|]); [done|apply step_env|by eapply step_wait|by eapply step_wait_more].
Qed.

(** The interval after [k] such expiries, in nanoseconds. *)
Definition interval_after (initial : Z) (backoff : bool) (k : nat) : Z :=
  match k with
  | O => initial
  | _ => Z.min (if backoff then initial * 2 ^ Z.of_nat k else initial) (60 * 10 ^ 9)
  end.

Lemma interval_after_next initial backoff k : 0 <= initial < 2 ^ 62 ->
  next_interval (negb backoff) (interval_after initial backoff k) = interval_after initial backoff (S k).
Proof.
  intros Hi. assert (Hb : 0 <= interval_after initial backoff k < 2 ^ 62).
  { unfold interval_after. destruct k; [done|]. destruct backoff; [|lia].
    pose proof (Z.mul_nonneg_nonneg initial (2 ^ Z.of_nat (S k))). lia. }
  rewrite next_interval_spec by done. unfold interval_after, maxRetransmitInterval. destruct backoff; cbn [negb]; [|destruct k; lia].
  destruct k as [|k]; [change (2 ^ Z.of_nat 1) with 2; lia|]. rewrite (Nat2Z.inj_succ (S k)), Z.pow_succ_r by lia.
  set (p := 2 ^ Z.of_nat (S k)). assert (0 <= initial * p) by (apply Z.mul_nonneg_nonneg; lia).
  rewrite Z.mul_assoc, (Z.mul_comm initial 2), <- Z.mul_assoc. lia.
Qed.

Lemma step_interval st m (w : fworld) st' m' w' : st <> Waiting -> step (st, m, w) (st', m', w') -> retransmitInterval m' = retransmitInterval m.
Proof.
  intros Hn Hs. inversion Hs as [? ? ? ? ? Hp|? ? ? ? ? Hp| | |? ? ? ? Hp|]; subst; try done.
  - unfold prepare in Hp. destruct (getFlightGenerator _ _ _) as [gen rt]. destruct (gen w) as [r w1].
    destruct (match r with inl pkts => (pkts, None, None) | inr o => ([], o_alert o, o_err o) end) as [[pkts a] e].
    destruct (send_alert a e w1) as [[e1|] w2]; [done|]. destruct (stamp _ _ _ _) as [[pkts' ne] seq]. by injection Hp as <- <- <-.
  - unfold send in Hp. destruct (fc_writePackets _ _ _) as [[[e|] s] c]; [done|]. by injection Hp as <- <- <-.
Qed.

Lemma wait_interval ev m (w : fworld) r m' w' k initial backoff :
  wait ev m w = (r, m', w') -> match r with Some (Err _) => False | _ => True end ->
  c_initialRetransmitInterval (fw_cfg w) = initial -> c_disableRetransmitBackoff (fw_cfg w) = negb backoff -> 0 <= initial < 2 ^ 62 ->
  retransmitInterval m = interval_after initial backoff k -> retransmitInterval m' = interval_after initial backoff (expiries ev (retransmit m) k).
Proof.
  intros Hw Hok Hi Hd Hr Hk. destruct ev as [[]| |]; cbn [wait expiries] in *.
  - by injection Hw as <- <- <-.
  - destruct (getFlightParser _ w) as [q w1]. destruct (send_alert _ _ w1) as [[e1|] w2]; [by injection Hw as <- <- <-|].
    destruct (o_flight _) as [f|]; [destruct (_ && _)|]; injection Hw as <- <- <-; cbn; done.
  - destruct (retransmit m); injection Hw as <- <- <-; [|done]. cbn. rewrite Hd, Hk. by apply interval_after_next.
  - by injection Hw as <- <- <-.
Qed.

(** C23: The retransmission timer backs off.  In every run of the handshake
    machine the interval of the timer is the configured one until the timer
    first expires; after [k > 0] expiries that led to a retransmission, counted
    since the last parsed messages of the peer, it is the configured interval
    doubled [k] times, at most a minute, or with back-off disabled the
    configured interval, at most a minute.  A retransmission of the peer does
    not reset it.  A configured interval above a minute is used as it is until
    the first expiry. *)
Theorem retransmit_timer isClient resumed (w : fworld) :
  let initial_interval := c_initialRetransmitInterval (fw_cfg w) in
  let backoff := negb (c_disableRetransmitBackoff (fw_cfg w)) in
  let start := initial isClient resumed (fw_cfg w) w in
  0 <= initial_interval < 2 ^ 62 ->
  (forall sn, rtc step start sn <-> exists k, timed start k sn) /\
  (forall k st m w', timed start k (st, m, w') -> retransmitInterval m = interval_after initial_interval backoff k).
Proof.
  intros i0 backoff start Hi. split.
  { intros sn. split; [apply run_timed|]. by intros (k & ?%timed_run). }
  intros k st m w' Ht. remember (st, m, w') as sn eqn:Esn.
  assert (Hg : retransmitInterval sn.1.2 = interval_after i0 backoff k); [clear Esn|by subst sn].
  assert (Hcfg : forall k' sn', timed start k' sn' -> c_initialRetransmitInterval (fw_cfg sn'.2) = i0 /\
    c_disableRetransmitBackoff (fw_cfg sn'.2) = negb backoff).
  { intros k' sn' Hsn%timed_run%reachable_ok. destruct Hsn as [_ _ _ Htm]. unfold timing in Htm. injection Htm as H1 H2 _.
    unfold backoff. rewrite negb_involutive. done. }
  induction Ht as [|k st0 m0 w0 st1 m1 w1 Ht IH Hn Hs|k m0 s cfg c g e seqs c' Ht IH|k ev m0 w0 r m1 w1 Ht IH Hw|k ev m0 w0 m1 w1 Ht IH Hw].
  - by destruct isClient, resumed.
  - cbn in *. by rewrite (step_interval _ _ _ _ _ _ Hn Hs).
  - done.
  - destruct (Hcfg _ _ Ht) as [H1 H2]. by eapply (wait_interval ev m0 w0 (Some (Ok r))).
  - destruct (Hcfg _ _ Ht) as [H1 H2]. by eapply (wait_interval ev m0 w0 None).
Qed.

End run.
