(* ===== verification/DtlsAuth.v ===== *)
(** * What the flights establish

    The cookie exchange, the negotiated parameters, the Finished messages, the
    client's certificate and the agreement on the master secret, as theorems
    about the flights and the state machine. *)

From S2P Require Import Prelude IO GoStr DtlsWire DtlsExt DtlsHandshake DtlsRandom DtlsFragment.
From S2P Require Import DtlsCrypto DtlsConn DtlsSuites DtlsState DtlsHello DtlsFlights DtlsFsm.
Open Scope Z_scope.

(** ** Reasoning about programs *)

Section programs.
Context {SG X G C W : Type}.

#[local] Abbreviation FP := (FP SG X G C W).
#[local] Abbreviation fworld := (fworld SG X G C W).

Lemma fbind_inl {A B} (m : FP A) (k : A -> FP B) w b w' :
  fbind m k w = (inl b, w') -> exists a w1, m w = (inl a, w1) /\ k a w1 = (inl b, w').
Proof. unfold fbind. destruct (m w) as [[a|o] w1]; [|done]. by eexists _, _. Qed.

Lemma fbind_inr {A B} (m : FP A) (k : A -> FP B) w o w' :
  fbind m k w = (inr o, w') -> m w = (inr o, w') \/ exists a w1, m w = (inl a, w1) /\ k a w1 = (inr o, w').
Proof. unfold fbind. destruct (m w) as [[a|o1] w1]; [right; by eexists _, _|left; congruence]. Qed.

(** A step that names no flight was passed. *)
Lemma fbind_flight {A B} (m : FP A) (k : A -> FP B) w o w' f :
  ends [] m -> fbind m k w = (inr o, w') -> o_flight o = Some f ->
  exists a w1, m w = (inl a, w1) /\ k a w1 = (inr o, w').
Proof.
  intros He Hb Hf. apply fbind_inr in Hb as [Hm|?]; [|done]. destruct (He w) as [Hx _].
  rewrite Hm in Hx. cbn in Hx. rewrite Hf in Hx. set_solver.
Qed.

Lemma ends_flight {A} l (m : FP A) w o w' f : ends l m -> m w = (inr o, w') -> o_flight o = Some f -> f ∈ l.
Proof. intros He Hm Hf. destruct (He w) as [Hx _]. rewrite Hm in Hx. cbn in Hx. by rewrite Hf in Hx. Qed.

(** Parts of the world that a program keeps. *)
Definition keeps {A T} (proj : fworld -> T) (m : FP A) : Prop := forall w, proj (m w).2 = proj w.

Lemma keeps_bind {A B T} (proj : fworld -> T) (m : FP A) (k : A -> FP B) :
  keeps proj m -> (forall a, keeps proj (k a)) -> keeps proj (fbind m k).
Proof.
  intros Hm Hk w. specialize (Hm w). unfold fbind. destruct (m w) as [[a|o] w1]; [|done]. rewrite <- Hm. exact (Hk a w1).
Qed.

Lemma keeps_eq {A T} (proj : fworld -> T) (m : FP A) w r w' : keeps proj m -> m w = (r, w') -> proj w' = proj w.
Proof. intros Hk Hm. specialize (Hk w). by rewrite Hm in Hk. Qed.

Lemma keeps_ok_or {A T} (proj : fworld -> T) d (r : res herr A) : keeps proj (ok_or d r).
Proof. by destruct r. Qed.

Lemma keeps_or_panic {A E T} (proj : fworld -> T) (r : res E A) : keeps proj (or_panic r).
Proof. by destruct r. Qed.
End programs.

Create HintDb keeps discriminated.
#[export] Hint Resolve keeps_ok_or keeps_or_panic : keeps.

Ltac keeps_step :=
  match goal with
  | |- keeps _ (fbind _ _) => apply keeps_bind; [|intros ?]
  | |- keeps _ (match ?x with _ => _ end) => destruct x
  | |- keeps _ _ => solve [auto with keeps nocore]
  | |- keeps _ _ => solve [intros ?; reflexivity]
  | |- keeps _ _ => solve [intros ?; cbv [with_rand store_op store_or conn_get conn_op]; repeat case_match; reflexivity]
  end.
Ltac keeps_tac := repeat keeps_step.

(** [H] for [fbind m k w = (inl b, w')] with [m] a getter. *)
Ltac fp_step H :=
  lazymatch type of H with
  | fbind getC _ _ = _ => unfold fbind at 1, getC at 1 in H
  | fbind getS _ _ = _ => unfold fbind at 1, getS at 1 in H
  | fbind getCache _ _ = _ => unfold fbind at 1, getCache at 1 in H
  | fbind (pull_map _ _) _ _ = _ => unfold fbind at 1, pull_map at 1, fbind at 1 2, getS at 1, getCache at 1, fret at 1 in H
  | fbind (modS _) _ _ = _ => unfold fbind at 1, modS at 1 in H
  | fbind (fret _) _ _ = _ => unfold fbind at 1, fret at 1 in H
  end; cbn beta iota in H.

(** A program that has ended. *)
Ltac unfold_fp H :=
  cbv [keep_reading only_alert fail_with fail_plain next_flight fexit fret] in H; simplify_eq/=.

Section finished.
Context {P SG X G C W R : Type} `{PK : Pki P SG X G} `{CV : Curves G} `{CB : Cryptobyte} {HH : Hash hash_kind}
  `{SI : SuiteInit C} `{FC : FlightConn C W} `{RG : Rand G} `{RR : Rand R} `{MR : MRand R}.

#[local] Abbreviation FP := (FP SG X G C W).
#[local] Abbreviation fworld := (fworld SG X G C W).

(** The cache of a world, and what a pull finds in it. *)
Definition cache_of (w : fworld) : handshakeCache := fc_cache (fw_conn w).
Definition pulls (w : fworld) (seq : Z) (rules : list pullRule) (msgs : gmap Z Message) : Prop :=
  exists n, fullPullMap (cache_of w) seq (suite_kx (fw_state w)) rules = (n, Some msgs).

(** A Finished message of the peer is there and its verify data is that of the
    transcript under the master secret. *)
Definition authentic (seq : Z) (isClient : bool) (vd : bytes -> bytes -> hash_kind -> res derr bytes)
    (rules : Z -> list pullRule) (w : fworld) : Prop :=
  exists msgs fin c,
    pulls w seq [finished_rule (c_initialEpoch (fw_cfg w)) isClient] msgs /\
    msgs !! TypeFinished = Some (MFinished fin) /\ s_cipherSuite (fw_state w) = Some c /\
    vd (s_masterSecret (fw_state w)) (pullAndMerge (cache_of w) (rules (c_initialEpoch (fw_cfg w)))) (cs_hash c.1)
      = Ok (VerifyData fin).

Lemma check_finished_ok vd rules fin (w w' : fworld) :
  check_finished vd rules fin w = (inl tt, w') <->
  w' = w /\ exists c, s_cipherSuite (fw_state w) = Some c /\
    vd (s_masterSecret (fw_state w)) (pullAndMerge (cache_of w) rules) (cs_hash c.1) = Ok (VerifyData fin).
Proof.
  unfold check_finished, suite, the_suite, fbind, getCache, getS, or_panic, ok_or, fret, of_derr. cbn.
  destruct (s_cipherSuite (fw_state w)) as [c|]; cbn; [|by split; [|intros (_ & ? & ? & _)]].
  unfold cache_of. destruct (vd _ _ _) as [v|e] eqn:Ev; cbn.
  - case_bool_decide as Hv; cbn.
    + split; [intros [= <-]|intros [-> _]; done]. split; [done|]. exists c. by rewrite Ev, Hv.
    + split; [done|]. intros (_ & c' & [= <-] & Hx). rewrite Ev in Hx. by injection Hx.
  - split; [done|]. intros (_ & c' & [= <-] & Hx). congruence.
Qed.

Lemma receive_finished_ok isClient vd rules (w w' : fworld) :
  receive_finished isClient vd rules w = (inl tt, w') <-> w' = w /\ authentic (s_handshakeRecvSequence (fw_state w)) isClient vd rules w.
Proof.
  unfold authentic, pulls. unfold receive_finished, pull_map, fbind, getC, getS, getCache, fret, cache_of. cbn.
  destruct (fullPullMap _ _ _ _) as [n [msgs|]]; cbn.
  2:{ split; [done|]. by intros (_ & ? & ? & ? & (? & [=]) & _). }
  destruct (msgs !! TypeFinished) as [[]|] eqn:Hm;
    try (split; [done|]; intros (_ & ms & fin & c & (n' & [= <- <-]) & Hm' & _); congruence).
  rewrite check_finished_ok. unfold cache_of. split.
  - intros (-> & c & Hc & Hv). split; [done|]. exists msgs, m, c. split_and!; try done. by eexists.
  - intros (-> & ms & fin & c & (n' & [= <- <-]) & Hm' & Hc & Hv). rewrite Hm in Hm'. injection Hm' as <-.
    split; [done|]. by exists c.
Qed.

Lemma resumption_authentic (w : fworld) o w' f :
  handleResumption w = (inr o, w') -> o_flight o = Some f ->
  authentic (s_handshakeRecvSequence (fw_state w') + 1) false VerifyDataServer resumed_rules w'.
Proof.
  intros Hp Hf. unfold handleResumption in Hp. do 2 fp_step Hp.
  apply (fbind_flight _ _ _ _ _ f) in Hp as (s1 & w1 & H1 & Hp); [|apply ends_ok_or|done]. fp_step Hp.
  assert (Hc : fw_cfg w1 = fw_cfg w) by (refine (keeps_eq fw_cfg _ _ _ _ _ H1); apply keeps_ok_or).
  apply (fbind_flight _ _ _ _ _ f) in Hp as (u & w2 & H2 & Hp); [|apply ends_conn_op|done].
  assert (Hc2 : fw_cfg w2 = fw_cfg w).
  { rewrite <- Hc. unfold conn_op in H2. destruct (fc_handleQueuedPackets _ _) as [[[e|] s2] c2]; [done|]. by injection H2 as _ <-. }
  do 2 fp_step Hp. rewrite <- Hc2 in Hp. unfold authentic, pulls, cache_of.
  destruct (fullPullMap _ _ _ _) as [n [msgs|]] eqn:Em; [|injection Hp as <- <-; done].
  destruct (msgs !! TypeFinished) as [[]|] eqn:Hm; try (injection Hp as <- <-; done).
  apply (fbind_flight _ _ _ _ _ f) in Hp as ([] & w3 & H3 & Hp); [|apply ends_check_finished|done].
  apply check_finished_ok in H3 as (-> & c & Hsu & Hv). injection Hp as _ <-. cbn in Em.
  exists msgs, m, c. split_and!; try done. by exists n.
Qed.

(** C18: Waiting for the peer ends in Finished only in flights 5 and 4b, and
    only when the peer's Finished message carries the verify data of the whole
    transcript under the master secret; a resumed client goes on to flight 5b
    only under the same condition.  For a resuming server this decides it. *)
Theorem finished_authenticated m (w : fworld) m' w' :
  let seq := s_handshakeRecvSequence (fw_state w) in
  (wait (EvRecv false) m w = (Some (Ok Finished), m', w') ->
   (currentFlight m = flight5 /\ authentic seq false VerifyDataServer full_rules w) \/
   (currentFlight m = flight4b /\ authentic seq true VerifyDataClient resumed_full_rules w)) /\
  (flight4bParse w = (inr (mkOut (Some flight4b) None None), w') <->
   w' = w /\ authentic seq true VerifyDataClient resumed_full_rules w) /\
  (handleResumption w = (inr (mkOut (Some flight5b) None None), w') ->
   authentic (s_handshakeRecvSequence (fw_state w') + 1) false VerifyDataServer resumed_rules w').
Proof.
  assert (H4b : forall o w1, flight4bParse w = (inr o, w1) -> o_flight o <> None ->
    authentic (s_handshakeRecvSequence (fw_state w)) true VerifyDataClient resumed_full_rules w).
  { intros o w1 Hp Ho. destruct (o_flight o) as [f|] eqn:Hf; [|done].
    apply (fbind_flight _ _ _ _ _ f) in Hp as ([] & w2 & Hr & _); [|apply ends_receive_finished|done].
    by apply receive_finished_ok in Hr as [_ ?]. }
  cbv zeta. split_and!.
  - intros Hw. cbn in Hw. destruct (parser_successors (CB:=CB) (SI:=SI) (currentFlight m) w) as [Hs _].
    destruct (getFlightParser (currentFlight m) w) as [q w1] eqn:Hp. cbn [fst] in Hs.
    set (o := match q with inr o => o | inl _ => mkOut None None None end) in *.
    destruct (send_alert (o_alert o) (o_err o) w1) as [[e1|] w2]; [done|].
    destruct (o_flight o) as [f|] eqn:Hf; [|done].
    destruct q as [[]|o']; [done|]. subst o. rewrite Hf in Hs.
    unfold isLastRecvFlight in Hw. destruct (bool_decide_reflect (f = flight5 \/ f = flight4b)) as [Hl|Hl]; [|done].
    cbn [andb] in Hw. case_bool_decide as He; [|done]. destruct Hl as [-> | ->]; [left|right]; (split; [done|]); rewrite He in Hp.
    + apply (fbind_flight _ _ _ _ _ flight5) in Hp as ([] & w3 & Hr & _); [|apply ends_receive_finished|done].
      by apply receive_finished_ok in Hr as [_ ?].
    + eapply H4b; [exact Hp|]. by rewrite Hf.
  - split.
    + intros Hp. unfold flight4bParse in Hp. pose proof Hp as Hp'.
      apply (fbind_flight _ _ _ _ _ flight4b) in Hp' as ([] & w3 & Hr & Hk); [|apply ends_receive_finished|done].
      apply receive_finished_ok in Hr as [-> ?]. by injection Hk as ->.
    + intros [-> Ha]. unfold flight4bParse, fbind.
      by rewrite (proj2 (receive_finished_ok true VerifyDataClient resumed_full_rules w w)).
  - intros Hp. by eapply resumption_authentic.
Qed.

(** ** The cookie *)

(** Without the exchange being skipped, the first ClientHello does not lead to
    the server's flight. *)
Lemma flight0_no_flight4 (w : fworld) o w' :
  c_insecureSkipHelloVerify (fw_cfg w) = false -> flight0Parse w = (inr o, w') -> o_flight o <> Some flight4.
Proof.
  intros Hs Hp Hf. unfold flight0Parse in Hp. fp_step Hp. revert Hp. generalize (fw_cfg w), Hs. clear Hs. intros cfg Hs Hp.
  cut (flight4 ∈ [flight2; flight4b]); [set_solver|].
  refine (ends_flight [flight2; flight4b] _ _ _ _ flight4 _ Hp Hf). clear Hp Hf.
  apply ends_bind; [apply ends_pull|intros [seq [msgs|]]; [|done]]. apply ends_bind; [done|intros _].
  destruct (msgs !! TypeClientHello) as [[]|]; try done. destruct (negb _); [done|].
  apply ends_bind; [apply ends_negotiate|intros _]. rewrite Hs. unfold handleHelloResume. ends_tac.
Qed.

(** C19: Unless the exchange is skipped by configuration, a server goes on to
    its flight 4 (certificate, key exchange, signature) only from flight 2 and
    only on a ClientHello that returns its cookie, which is not empty. *)
Theorem cookie_required ev m (w : fworld) st m' w' :
  c_insecureSkipHelloVerify (fw_cfg w) = false -> wait ev m w = (Some (Ok st), m', w') ->
  currentFlight m <> flight4 -> currentFlight m' = flight4 ->
  currentFlight m = flight2 /\
  exists msgs hello,
    pulls w (s_handshakeRecvSequence (fw_state w)) [client_hello_rule (c_initialEpoch (fw_cfg w))] msgs /\
    msgs !! TypeClientHello = Some (MClientHello hello) /\
    ch_Cookie hello = s_cookie (fw_state w) /\ ch_Cookie hello <> [].
Proof.
  intros Hs Hw Hne H4. destruct ev as [[]| |]; cbn in Hw; [congruence| |by destruct (retransmit m); simplify_eq|done].
  destruct (parser_successors (CB:=CB) (SI:=SI) (currentFlight m) w) as [Hsu _].
  destruct (getFlightParser (currentFlight m) w) as [q w1] eqn:Hp. cbn [fst] in Hsu.
  set (o := match q with inr o => o | inl _ => mkOut None None None end) in *.
  destruct (send_alert (o_alert o) (o_err o) w1) as [[e1|] w2]; [done|].
  destruct (o_flight o) as [f|] eqn:Hf; [|done]. destruct q as [[]|o']; [done|]. subst o. rewrite Hf in Hsu.
  assert (f = flight4) as ->.
  { repeat case_match; simplify_eq; cbn in H4; congruence. }
  destruct (currentFlight m) eqn:Hc; cbn [successors] in Hsu; try set_solver; cbn [getFlightParser] in Hp.
  { exfalso. by eapply flight0_no_flight4. }
  split; [done|]. unfold flight2Parse in Hp. do 3 fp_step Hp. unfold pulls, cache_of.
  destruct (fullPullMap _ _ _ _) as [n [msgs|]] eqn:Em; [|exfalso; by eapply flight0_no_flight4].
  fp_step Hp. destruct (msgs !! TypeClientHello) as [[hello| | | | | | | | |]|] eqn:Hm; try (by unfold_fp Hp).
  destruct (negb (Version_Equal _ _)); [by unfold_fp Hp|].
  destruct (bool_decide_reflect (ch_Cookie hello = [])) as [|Hck]; [by unfold_fp Hp|].
  destruct (bool_decide_reflect (s_cookie (fw_state w) = ch_Cookie hello)) as [Heq|]; cbn [negb] in Hp; [|by unfold_fp Hp].
  exists msgs, hello. split_and!; try done. by exists n.
Qed.

(** ** Client authentication *)

(** The server takes any Finished message of the client: when flight 4
    has gone through the client's keys, a decodable Finished leads to flight 6
    whatever verify data it carries. *)
Theorem client_finished_unchecked (w w1 : fworld) seq n msgs fin c :
  flight4_keys w = (inl seq, w1) ->
  fullPullMap (cache_of w1) seq (suite_kx (fw_state w1)) [finished_rule (c_initialEpoch (fw_cfg w)) true] = (n, Some msgs) ->
  msgs !! TypeFinished = Some (MFinished fin) ->
  s_cipherSuite (fw_state w1) = Some c -> c_clientAuth (fw_cfg w1) = NoClientCert -> c_verifyConnection (fw_cfg w1) = None ->
  exists w', flight4Parse w = (inr (mkOut (Some flight6) None None), w').
Proof.
  intros Hk Hp Hm Hc Ha Hv. unfold flight4Parse, fbind, getC at 1, pull_map, getS, getCache. rewrite Hk. cbn.
  unfold cache_of in Hp. unfold fbind, fret. rewrite Hp. cbn. rewrite Hm. unfold suite, the_suite, fbind, getS, or_panic. cbn.
  rewrite Hc. cbn. case_bool_decide; unfold verify_connection, authorise_client, fbind, getC, getS, fret; cbn;
    rewrite ?Ha; cbn; rewrite Hv; by eexists.
Qed.

Lemma ends_flight4_keys l : ends l (flight4_keys : FP Z).
Proof.
  unfold flight4_keys. repeat first [apply ends_pull | apply ends_certificate | apply ends_server_keys | apply ends_save | ends_step].
Qed.

(** What the later steps of flight 4 leave as the certificate step has it. *)
Definition peer_view (w : fworld) := (s_PeerCertificates (fw_state w), fw_cfg w).

Lemma keeps_peer_queue : keeps peer_view (conn_op alert_InternalError fc_handleQueuedPackets : FP unit).
Proof.
  intros w. unfold conn_op. destruct (fc_handleQueuedPackets _ _) as [[e s] c] eqn:Hq.
  apply fc_queue_frame in Hq as (ep & seqs & ->). by destruct e.
Qed.

Lemma keeps_server_keys m : keeps peer_view (server_keys m : FP unit).
Proof. unfold server_keys, server_premaster, psk_for, derive_master, init_suite, keypair, suite. keeps_tac. Qed.

Lemma keeps_save key : keeps peer_view (save_session key : FP unit).
Proof. unfold save_session. keeps_tac. Qed.

(** A signature [sg] of the key of [leaf]: an Ed25519 key signs the message
    [m] itself, the others a digest [d], named by the hash number [h]. *)
Definition signature_checks (leaf : X) (h : Z) (d m sg : bytes) : Prop :=
  match cert_PublicKey leaf with
  | PubEd25519 k => ed25519_Verify k m sg = true
  | PubEcdsa k => exists r t, asn1_ecdsa sg = Ok (r, t) /\ 0 < r /\ 0 < t /\ ecdsa_Verify k d r t = true
  | PubRsa k => rsa_VerifyPKCS1v15 k (CryptoHash h) d sg = true
  | PubOther => False
  end.

(** What a client signs: the messages of the handshake up to its key
    exchange, each with the side that sent it. *)
Definition signed_messages : list (Z * bool) :=
  [(TypeClientHello, true); (TypeServerHello, false); (TypeCertificate, false); (TypeServerKeyExchange, false);
   (TypeCertificateRequest, false); (TypeServerHelloDone, false); (TypeCertificate, true); (TypeClientKeyExchange, true)].

Definition signed_transcript (w : fworld) : bytes :=
  pullAndMerge (cache_of w) (map (fun '(ty, isClient) => mkRule ty (c_initialEpoch (fw_cfg w)) isClient false) signed_messages).

(** The CertificateVerify [m] proves possession of the key of the first of the
    certificates [raw], and that certificate has a chain to the authorities.
    The digest is that of the transcript for the hash numbers 1 to 6. *)
Definition verify_accepted (m : MessageCertificateVerify) (raw : list bytes) (w : fworld) : Prop :=
  exists leaf rest chains,
    (cv_Hash m, cv_SignatureAlgorithm m) ∈ c_localSignatureSchemes (fw_cfg w) /\
    Forall2 (fun r x => x509_Parse r = Ok x) raw (leaf :: rest) /\
    signature_checks leaf (cv_Hash m)
      (if decide (1 <= cv_Hash m <= 6) then digest_sum (cv_Hash m) (signed_transcript w) else []) (signed_transcript w) (cv_Signature m) /\
    cert_Verify leaf (mkVerifyOptions (c_clientCAs (fw_cfg w)) "" rest [ExtKeyUsageClientAuth]) = Ok chains.

Definition certificate_verified (raw : list bytes) (w : fworld) : Prop :=
  exists msgs m,
    pulls w (s_handshakeRecvSequence (fw_state w)) (client_key_rules (c_initialEpoch (fw_cfg w))) msgs /\
    msgs !! TypeCertificateVerify = Some (MCertificateVerify m) /\ verify_accepted m raw w.

Lemma load_loop_Forall2 raw xs : load_loop raw = Ok xs -> Forall2 (fun r x => x509_Parse r = Ok x) raw xs.
Proof.
  revert xs. induction raw as [|r raw IH]; intros xs; cbn [load_loop]; [intros [= <-]; constructor|].
  destruct (x509_Parse r) as [x|] eqn:Hx; [|done]. cbn [res_bind]. destruct (load_loop raw) as [ys|]; [|done]. intros [= <-].
  constructor; auto.
Qed.

Lemma verify_signature_checks m sg h raw rest leaf :
  verify_signature m sg h (raw :: rest) = Ok tt -> x509_Parse raw = Ok leaf ->
  signature_checks leaf h (if decide (1 <= h <= 6) then digest_sum h m else []) m sg.
Proof.
  unfold verify_signature, signature_checks. intros Hv Hl. rewrite Hl in Hv. cbn [res_bind] in Hv.
  assert (Hd : Digest h m = if decide (1 <= h <= 6) then digest_sum h m else []).
  { unfold Digest. destruct (Z.leb_spec 1 h), (Z.leb_spec h 6); cbn [andb]; case_decide; try done; lia. }
  rewrite Hd in Hv. destruct (cert_PublicKey leaf) as [k|k|k|]; [by destruct (ed25519_Verify k m sg)| | |done].
  - destruct (asn1_ecdsa sg) as [[r t]|] eqn:Ha; [|done]. cbn [res_bind fst snd] in Hv. exists r, t.
    destruct (Z.leb_spec r 0), (Z.leb_spec t 0); cbn [orb] in Hv; try done. split_and!; try done. by destruct (ecdsa_Verify _ _ _ _).
  - by destruct (rsa_VerifyPKCS1v15 _ _ _ _).
Qed.

Lemma verify_accepted_intro m raw chains (w : fworld) :
  valid_scheme (c_localSignatureSchemes (fw_cfg w)) (cv_Hash m) (cv_SignatureAlgorithm m) = true ->
  verifyCertificateVerify (pullAndMerge (cache_of w) (sessionHash_rules (c_initialEpoch (fw_cfg w)))) (cv_Hash m) (cv_Signature m) raw = Ok tt ->
  verifyClientCert raw (c_clientCAs (fw_cfg w)) = Ok chains -> verify_accepted m raw w.
Proof.
  intros Hv Hs Hc. unfold verifyClientCert, verify_chain, loadCerts in Hc. destruct raw as [|r0 raw]; [done|].
  destruct (load_loop (r0 :: raw)) as [[|leaf rest]|] eqn:Hl; [done| |done]. cbn [res_bind] in Hc. apply load_loop_Forall2 in Hl.
  exists leaf, rest, chains. split_and!; [|done| |done].
  - unfold valid_scheme in Hv. apply existsb_exists in Hv as ([h sg] & Hin & Hb). cbn [fst snd] in Hb.
    apply andb_true_iff in Hb as [?%Z.eqb_eq ?%Z.eqb_eq]. subst. by apply list_elem_of_In.
  - inversion Hl as [|? ? ? ? Hp _]; subst. exact (verify_signature_checks _ _ _ _ raw _ Hs Hp).
Qed.

Lemma check_verify_inv m (w w' : fworld) raw :
  c_clientAuth (fw_cfg w) = RequireAndVerifyClientCert -> check_certificate_verify m w = (inl tt, w') ->
  s_PeerCertificates (fw_state w') = Some raw -> verify_accepted m raw w /\ fw_cfg w' = fw_cfg w.
Proof.
  intros Ha Hp Hr. unfold check_certificate_verify in Hp. do 2 fp_step Hp.
  destruct (s_PeerCertificates (fw_state w)) as [raw'|] eqn:Hraw; [|by unfold_fp Hp]. fp_step Hp.
  destruct (valid_scheme _ _ _) eqn:Hv; cbn [negb] in Hp; [|by unfold_fp Hp].
  apply fbind_inl in Hp as ([] & w1 & H1 & Hp). rewrite Ha in Hp. cbn [auth_rank Nat.leb] in Hp.
  unfold ok_or in H1. destruct (verifyCertificateVerify _ _ _ _) as [[]|] eqn:Hcv; [|by unfold_fp H1]. unfold_fp H1.
  apply fbind_inl in Hp as ([chains b] & w2 & H2 & Hp). apply fbind_inl in H2 as (ch & w3 & H3 & H2).
  unfold ok_or in H3. destruct (verifyClientCert _ _) as [ch'|] eqn:Hcc; [|by unfold_fp H3]. unfold_fp H3. unfold_fp H2.
  apply fbind_inl in Hp as (u & w4 & H4 & Hp). assert (Hk : keeps (fun w => w) (verify_peer raw' chains : FP unit)).
  { unfold verify_peer. keeps_tac. }
  apply (keeps_eq (fun w => w)) in H4; [|done]. subst w4. unfold modS in Hp. injection Hp as <-. cbn in Hr.
  rewrite Hraw in Hr. injection Hr as <-. split; [|done]. by eapply verify_accepted_intro.
Qed.

Lemma accept_certificate_inv msgs (w w' : fworld) raw :
  c_clientAuth (fw_cfg w) = RequireAndVerifyClientCert -> accept_certificate msgs w = (inl tt, w') ->
  s_PeerCertificates (fw_state w') = Some raw ->
  (exists m, msgs !! TypeCertificateVerify = Some (MCertificateVerify m) /\ verify_accepted m raw w) /\ fw_cfg w' = fw_cfg w.
Proof.
  intros Ha Hp Hr. unfold accept_certificate in Hp. apply fbind_inl in Hp as ([] & w1 & H1 & Hp).
  match type of H1 with ?prog w = _ => assert (Hk : keeps (fun w => (fw_cfg w, fw_conn w)) prog) by keeps_tac end.
  apply (keeps_eq _ _ _ _ _ Hk) in H1. injection H1 as H1 H1'. rewrite <- H1 in Ha.
  assert (Hgo : forall m, verify_accepted m raw w1 /\ fw_cfg w' = fw_cfg w1 -> verify_accepted m raw w /\ fw_cfg w' = fw_cfg w).
  { intros m. unfold verify_accepted, signed_transcript, cache_of. by rewrite H1, H1'. }
  destruct (msgs !! TypeCertificateVerify) as [[| | | | | | |mv| |]|] eqn:Hmv;
    try (fp_step Hp; destruct (s_PeerCertificates (fw_state w1)) eqn:Hn; unfold_fp Hp; congruence).
  destruct (Hgo mv) as [Hv Hc]; [by eapply check_verify_inv|]. split; [|done]. by exists mv.
Qed.

Lemma flight4_keys_inv (w w1 : fworld) seq raw :
  c_clientAuth (fw_cfg w) = RequireAndVerifyClientCert -> flight4_keys w = (inl seq, w1) ->
  s_PeerCertificates (fw_state w1) = Some raw -> certificate_verified raw w /\ fw_cfg w1 = fw_cfg w.
Proof.
  intros Ha Hp Hr. unfold flight4_keys in Hp. do 3 fp_step Hp.
  destruct (fullPullMap _ _ _ _) as [n [msgs|]] eqn:Hpull; [|by unfold_fp Hp].
  destruct (msgs !! TypeClientKeyExchange) as [[]|]; try (by unfold_fp Hp).
  apply fbind_inl in Hp as ([] & wa & Hacc & Hp).
  match type of Hp with ?prog wa = _ => assert (Hk : keeps peer_view prog) end.
  { repeat first [apply keeps_server_keys | apply keeps_save | apply keeps_peer_queue | keeps_step]. }
  apply (keeps_eq _ _ _ _ _ Hk) in Hp. injection Hp as Hp1 Hp2. rewrite Hp1 in Hr. rewrite Hp2.
  destruct (accept_certificate_inv _ _ _ _ Ha Hacc Hr) as [(mv & Hm & Hv) Hc]. split; [|done].
  exists msgs, mv. split_and!; [by exists n|done|done].
Qed.

Lemma keeps_cfg_flight4 : keeps fw_cfg (flight4_keys : FP Z).
Proof.
  unfold flight4_keys, accept_certificate, check_certificate_verify, verify_peer, server_keys, server_premaster, psk_for,
    derive_master, init_suite, keypair, suite, save_session. keeps_tac.
Qed.

(** C20: With certificates required and verified, a suite that is not
    anonymous and whatever the client sends, the server reaches flight 6 only
    if the client has sent a CertificateVerify under an enabled scheme, its
    certificates parse, the first has a chain to the configured authorities
    for client authentication, and the signature checks under that
    certificate's key: over the transcript from ClientHello to
    ClientKeyExchange for an Ed25519 key, and over the transcript's digest for
    an ECDSA or RSA key when the scheme names a hash (1 to 6).  With a scheme
    that names none (8, that of Ed25519) such a key is checked against the
    empty digest, and the transcript is not covered. *)
Theorem client_verified (w : fworld) o w' c :
  c_clientAuth (fw_cfg w) = RequireAndVerifyClientCert -> flight4Parse w = (inr o, w') -> o_flight o = Some flight6 ->
  s_cipherSuite (fw_state w') = Some c -> cs_auth c.1 <> AuthAnonymous ->
  exists raw, s_PeerCertificates (fw_state w') = Some raw /\ certificate_verified raw w.
Proof.
  intros Ha Hp Hf Hc Hn. unfold flight4Parse in Hp. fp_step Hp.
  apply (fbind_flight _ _ _ _ _ flight6) in Hp as (seq & w1 & H1 & Hp); [|apply ends_flight4_keys|done]. fp_step Hp.
  destruct (fullPullMap _ _ _ _) as [n [msgs|]]; [|by unfold_fp Hp]. fp_step Hp.
  destruct (msgs !! TypeFinished) as [[]|]; try (by unfold_fp Hp).
  apply (fbind_flight _ _ _ _ _ flight6) in Hp as (c' & w2 & H2 & Hp); [|apply ends_suite|done].
  unfold suite in H2. fp_step H2. cbn in H2. unfold the_suite in H2.
  destruct (s_cipherSuite (set_handshakeRecvSequence n (fw_state w1))) as [c1|] eqn:Hc1; [|by unfold_fp H2].
  unfold or_panic in H2. unfold_fp H2.
  apply (fbind_flight _ _ _ _ _ flight6) in Hp as (u & w3 & H3 & Hp); [|unfold authorise_client; ends_tac|done].
  apply (fbind_flight _ _ _ _ _ flight6) in Hp as (u' & w4 & H4 & Hp); [|apply ends_verify_connection|done].
  apply (keeps_eq (fun w => w)) in H4; [|unfold verify_connection; keeps_tac]. unfold_fp Hp.
  assert (Hk3 : w' = {| fw_state := set_handshakeRecvSequence n (fw_state w1); fw_cfg := fw_cfg w1;
                        fw_conn := fw_conn w1; fw_rand := fw_rand w1 |}).
  { apply (keeps_eq (fun w => w)) in H3; [done|]. unfold authorise_client. keeps_tac. }
  rewrite Hk3 in H3, Hc |- *. cbn in Hc. cbn in Hc1. rewrite Hc in Hc1. injection Hc1 as <-.
  rewrite bool_decide_false in H3 by done. unfold authorise_client in H3. do 2 fp_step H3. cbn in H3.
  destruct (s_PeerCertificates (fw_state w1)) as [raw|] eqn:Hraw.
  - exists raw. split; [done|]. by eapply flight4_keys_inv.
  - assert (Hcfg : c_clientAuth (fw_cfg w1) = RequireAndVerifyClientCert).
    { by rewrite (keeps_eq fw_cfg _ _ _ _ keeps_cfg_flight4 H1). }
    rewrite Hcfg in H3. by unfold_fp H3.
Qed.
End finished.

(** ** Negotiation *)

Lemma cipherSuiteForID_ID id custom c : cipherSuiteForID id custom = Some c -> cs_ID c = id.
Proof.
  unfold cipherSuiteForID, find_suite. destruct (List.find _ known_suites) as [d|] eqn:Hf.
  - intros [= ->]. apply List.find_some in Hf as [_ Hf]. lia.
  - intros Hf'. apply List.find_some in Hf' as [_ Hf']. lia.
Qed.

Lemma findMatchingCipherSuite_first a b c : findMatchingCipherSuite a b = Some c ->
  cs_ID c ∈ cipherSuiteIDs b /\ exists l1 l2, a = l1 ++ c :: l2 /\ Forall (fun d => cs_ID d ∉ cipherSuiteIDs b) l1.
Proof.
  assert (Hin : forall d, existsb (fun e => cs_ID d =? cs_ID e) b = true <-> cs_ID d ∈ cipherSuiteIDs b).
  { intros d. unfold cipherSuiteIDs. rewrite existsb_exists, list_elem_of_fmap. split.
    - intros (e & He & Hd). exists e. split; [lia|]. by apply list_elem_of_In.
    - intros (e & He & Hd). exists e. split; [by apply list_elem_of_In|lia]. }
  induction a as [|d a IH]; [done|]. cbn. destruct (existsb _ b) eqn:He.
  - intros [= ->]. split; [by apply Hin|]. by exists [], a.
  - intros (Hb & l1 & l2 & -> & Hl)%IH. split; [done|]. exists (d :: l1), l2. split; [done|]. constructor; [|done].
    intros Hd%Hin. congruence.
Qed.

Lemma findMatchingSRTPProfile_find a b : findMatchingSRTPProfile a b = List.find (fun p => bool_decide (p ∈ b)) a.
Proof.
  induction a as [|q a IH]; [done|]. cbn. rewrite IH. replace (existsb (Z.eqb q) b) with (bool_decide (q ∈ b)); [by case_bool_decide|].
  apply eq_true_iff_eq. rewrite bool_decide_eq_true, existsb_exists. split.
  - intros Hq. exists q. split; [by apply list_elem_of_In|lia].
  - intros (x & Hx%list_elem_of_In & He). by assert (x = q) as -> by lia.
Qed.

Section negotiation.
Context {P SG X G C W R : Type} `{PK : Pki P SG X G} `{CV : Curves G} `{CB : Cryptobyte} {HH : Hash hash_kind}
  `{SI : SuiteInit C} `{FC : FlightConn C W} `{RG : Rand G} `{RR : Rand R} `{MR : MRand R}.

#[local] Abbreviation FP := (FP SG X G C W).
#[local] Abbreviation fworld := (fworld SG X G C W).

(** The first curve of the last list of curves. *)
Definition curve_choice (c : Z) (e : Extension) : Z := match e with SupportedEllipticCurves (x :: _) => x | _ => c end.

(** The client's first profile that is enabled here, of its last list. *)
Definition srtp_choice (enabled : list Z) (p : Z) (e : Extension) : Z :=
  match e with UseSRTP l _ => default p (List.find (fun q => bool_decide (q ∈ enabled)) l) | _ => p end.

(** A list of profiles has one that is enabled. *)
Definition srtp_common (enabled : list Z) (e : Extension) : Prop :=
  match e with UseSRTP l _ => exists p, p ∈ l /\ p ∈ enabled | _ => True end.

Definition asks_ems (e : Extension) : bool := if e is UseExtendedMasterSecret _ then true else false.

(** What the extensions of a ClientHello leave alone and what they decide. *)
Definition extension_effect (exts : list Extension) (w w' : fworld) : Prop :=
  let s := fw_state w in let s' := fw_state w' in let enabled := c_localSRTPProtectionProfiles (fw_cfg w) in
  fw_cfg w' = fw_cfg w /\ fw_rand w' = fw_rand w /\ s_cipherSuite s' = s_cipherSuite s /\ s_localKeypair s' = s_localKeypair s /\
  s_remoteRandom s' = s_remoteRandom s /\ s_namedCurve s' = foldl curve_choice (s_namedCurve s) exts /\
  s_srtpProtectionProfile s' = foldl (srtp_choice enabled) (s_srtpProtectionProfile s) exts /\ Forall (srtp_common enabled) exts /\
  s_extendedMasterSecret s' =
    s_extendedMasterSecret s || (negb (bool_decide (c_extendedMasterSecret (fw_cfg w) = DisableEMS)) && existsb asks_ems exts).

Lemma client_extension_effect e (w w' : fworld) :
  client_extension e w = (inl tt, w') -> extension_effect [e] w w'.
Proof.
  unfold client_extension, fbind, getC. cbn.
  assert (Hf : forall b c : bool, b || c && (false || false) = b) by (by intros [] []).
  destruct e as [name|[|c cs]|fs|algs|l mki|ps|b|cid|r]; cbn;
    try (by intros [= <-]; unfold extension_effect; cbn; rewrite ?Hf, ?andb_false_r, ?orb_false_r; split_and!; repeat constructor); try done.
  - rewrite findMatchingSRTPProfile_find. destruct (List.find _ l) as [p|] eqn:Hp; [|done]. intros [= <-].
    unfold extension_effect. cbn. rewrite Hp, andb_false_r, orb_false_r. apply List.find_some in Hp as [H1 H2%bool_decide_eq_true].
    split_and!; try done. repeat constructor. exists p. split; [by apply list_elem_of_In|done].
  - case_bool_decide as Hd; intros [= <-]; unfold extension_effect; cbn.
    + rewrite bool_decide_true by done. rewrite orb_false_r. split_and!; repeat constructor.
    + rewrite bool_decide_false by done. rewrite orb_true_r. split_and!; repeat constructor.
  - destruct (c_connectionIDGenerator _); intros [= <-]; unfold extension_effect; cbn; rewrite andb_false_r, orb_false_r; split_and!; repeat constructor.
Qed.

Lemma extension_effect_app e exts (w w1 w' : fworld) :
  extension_effect [e] w w1 -> extension_effect exts w1 w' -> extension_effect (e :: exts) w w'.
Proof.
  intros (A1 & A2 & A3 & A4 & A5 & A6 & A7 & A8 & A9) (B1 & B2 & B3 & B4 & B5 & B6 & B7 & B8 & B9). rewrite A1 in *. unfold extension_effect. cbn zeta.
  split_and!; try congruence.
  - rewrite B6, A6. done.
  - rewrite B7, A7. done.
  - by apply Forall_cons_1 in A8 as [A8 _]; constructor.
  - rewrite B9, A9. cbn [existsb]. destruct (s_extendedMasterSecret (fw_state w)), (asks_ems e), (bool_decide _); done.
Qed.

Lemma client_extensions_effect exts : forall (w w' : fworld),
  for_extensions client_extension exts w = (inl tt, w') -> extension_effect exts w w'.
Proof.
  induction exts as [|e exts IH]; intros w w' Hp.
  { injection Hp as <-. unfold extension_effect. cbn. rewrite andb_false_r, orb_false_r. split_and!; repeat constructor. }
  cbn [for_extensions] in Hp. apply fbind_inl in Hp as ([] & w1 & H1 & Hp).
  eapply extension_effect_app; [by apply client_extension_effect|by apply IH].
Qed.

Lemma GenerateKeypair_curve c g kp g' : GenerateKeypair c g = (Ok kp, g') -> kp_Curve kp = c.
Proof. intros Hk. by destruct (key_agreement c g kp g' g kp g' Hk Hk). Qed.

(** C21: When a server accepts the parameters of a ClientHello, the suite is
    the first of the offered suites it knows that it has enabled; the curve is
    the first of the client's list (it is not compared with the configured
    curves); the protection profile is the first that the client offers and
    that is enabled here, every offer of profiles has such a one, and without
    an offer the profile is left as it was; the extended master secret is used
    if the client asks for it and it is not disabled, and it is used whenever
    it is required; and there is a key pair: a new one of that curve, or the
    one of an earlier ClientHello, whatever its curve. *)
Theorem negotiation_sound hello (w w' : fworld) :
  negotiate hello w = (inl tt, w') ->
  exists c kp l1 l2,
    s_cipherSuite (fw_state w') = Some (c, None) /\ cs_ID c ∈ ch_CipherSuiteIDs hello /\
    cs_ID c ∈ cipherSuiteIDs (c_localCipherSuites (fw_cfg w)) /\
    known_offers (c_customCipherSuites (fw_cfg w)) (ch_CipherSuiteIDs hello) = l1 ++ c :: l2 /\
    Forall (fun d => cs_ID d ∉ cipherSuiteIDs (c_localCipherSuites (fw_cfg w))) l1 /\
    s_remoteRandom (fw_state w') = ch_Random hello /\
    s_namedCurve (fw_state w') = foldl curve_choice (s_namedCurve (fw_state w)) (ch_Extensions hello) /\
    s_srtpProtectionProfile (fw_state w') =
      foldl (srtp_choice (c_localSRTPProtectionProfiles (fw_cfg w))) (s_srtpProtectionProfile (fw_state w)) (ch_Extensions hello) /\
    Forall (srtp_common (c_localSRTPProtectionProfiles (fw_cfg w))) (ch_Extensions hello) /\
    s_extendedMasterSecret (fw_state w') =
      s_extendedMasterSecret (fw_state w) ||
      (negb (bool_decide (c_extendedMasterSecret (fw_cfg w) = DisableEMS)) && existsb asks_ems (ch_Extensions hello)) /\
    (c_extendedMasterSecret (fw_cfg w) = RequireEMS -> s_extendedMasterSecret (fw_state w') = true) /\
    s_localKeypair (fw_state w') = Some kp /\
    match s_localKeypair (fw_state w) with
    | None => kp_Curve kp = s_namedCurve (fw_state w')
    | Some old => kp = old
    end.
Proof.
  intros Hp. unfold negotiate in Hp. do 2 fp_step Hp.
  destruct (findMatchingCipherSuite _ _) as [c|] eqn:Hc; [|done]. fp_step Hp.
  apply findMatchingCipherSuite_first in Hc as (Hloc & l1 & l2 & Hl & Hall).
  assert (Hoff : cs_ID c ∈ ch_CipherSuiteIDs hello).
  { assert (Hin : c ∈ known_offers (c_customCipherSuites (fw_cfg w)) (ch_CipherSuiteIDs hello)) by (rewrite Hl; set_solver).
    apply list_elem_of_omap in Hin as (id & Hid & Hf). by apply cipherSuiteForID_ID in Hf as ->. }
  apply fbind_inl in Hp as ([] & w1 & H1 & Hp). apply client_extensions_effect in H1 as (A1 & A2 & A3 & A4 & A5 & A6 & A7 & A8 & A9).
  cbn [fw_cfg fw_state fw_rand] in A1, A2, A3, A4, A5, A6, A7, A8, A9. cbn in A3, A4, A5, A6, A7, A9. unfold drop_unused_cid in Hp. fp_step Hp. fp_step Hp. cbn in Hp.
  set (s1 := match s_remoteConnectionID (fw_state w1) with None => _ | Some _ => _ end) in Hp.
  assert (Hs1 : s_extendedMasterSecret s1 = s_extendedMasterSecret (fw_state w1) /\ s_localKeypair s1 = s_localKeypair (fw_state w)
    /\ s_cipherSuite s1 = Some (c, None) /\ s_remoteRandom s1 = ch_Random hello
    /\ s_namedCurve s1 = s_namedCurve (fw_state w1) /\ s_srtpProtectionProfile s1 = s_srtpProtectionProfile (fw_state w1)).
  { unfold s1. destruct (s_remoteConnectionID (fw_state w1)); cbn; split_and!; congruence. }
  destruct Hs1 as (B1 & B2 & B3 & B4 & B5 & B6). clearbody s1.
  destruct (bool_decide (c_extendedMasterSecret (fw_cfg w) = RequireEMS) && negb (s_extendedMasterSecret s1)) eqn:Hems; [done|].
  assert (Hreq : c_extendedMasterSecret (fw_cfg w) = RequireEMS -> s_extendedMasterSecret s1 = true).
  { intros Hr. rewrite bool_decide_true in Hems by done. by destruct (s_extendedMasterSecret s1). }
  rewrite B2 in Hp. destruct (s_localKeypair (fw_state w)) as [old|] eqn:Hold.
  - injection Hp as <-. exists c, old, l1, l2. cbn. split_and!; try done; congruence.
  - apply fbind_inl in Hp as (r & w2 & H2 & Hp). unfold with_rand in H2.
    destruct (GenerateKeypair (s_namedCurve s1) _) as [r' g'] eqn:Hg. injection H2 as -> <-.
    apply fbind_inl in Hp as (kp & w3 & H3 & Hp). unfold ok_or in H3. destruct r as [kp'|]; [|done]. injection H3 as -> <-.
    injection Hp as <-. exists c, kp, l1, l2. apply GenerateKeypair_curve in Hg. cbn. split_and!; try done; congruence.
Qed.
End negotiation.

(** ** Agreement on the master secret *)

Section agreement.
#[local] Arguments pullAndMerge : simpl never.
#[local] Arguments fullPullMap : simpl never.
Context {P SG X G C W R : Type} `{PK : Pki P SG X G} `{CV : Curves G} `{CB : Cryptobyte} {HH : Hash hash_kind}
  `{SI : SuiteInit C} `{FC : FlightConn C W} `{RG : Rand G} `{RR : Rand R} `{MR : MRand R}.

#[local] Abbreviation FP := (FP SG X G C W).
#[local] Abbreviation fworld := (fworld SG X G C W).

(** The secret as a function of what both ends see. *)
Definition master_of (ems : bool) (hash : hash_kind) (pms cr sr transcript : bytes) : res derr bytes :=
  if ems then ExtendedMasterSecret pms (hash_Sum hash transcript) hash else MasterSecret pms cr sr hash.

Lemma master_of_ok ems hash pms cr sr t : exists v, master_of ems hash pms cr sr t = Ok v /\ length v = 48%nat.
Proof.
  unfold master_of, ExtendedMasterSecret, MasterSecret. destruct ems; rewrite PHash_eq; eexists; (split; [done|]);
    eapply PHash_length; apply PHash_eq.
Qed.

Lemma derive_master_spec desc cr sr pms additional (w : fworld) c v :
  s_cipherSuite (fw_state w) = Some c ->
  master_of (s_extendedMasterSecret (fw_state w)) (cs_hash c.1) pms cr sr
    (pullAndMerge (cache_of w) (sessionHash_rules (c_initialEpoch (fw_cfg w))) ++ concat additional) = Ok v ->
  derive_master desc cr sr pms additional w =
    (inl tt, mkFW (set_masterSecret v (fw_state w)) (fw_cfg w) (fw_conn w) (fw_rand w)).
Proof.
  intros Hc Hv. unfold derive_master, suite, the_suite, fbind, getC, getS, getCache, or_panic, fret. cbn. rewrite Hc. cbn.
  unfold master_of, cache_of in Hv. unfold sessionHash, ok_or, fret.
  destruct (s_extendedMasterSecret (fw_state w)); cbn; rewrite Hv; done.
Qed.

(** The client's half: a fresh key pair on the server's curve. *)
Lemma client_exchange m (w w' : fworld) :
  c_localPSKCallback (fw_cfg w) = None -> handleServerKeyExchange m w = (inl tt, w') ->
  exists kp g', GenerateKeypair (sk_NamedCurve m) (fw_rand w) = (Ok kp, g') /\
    PreMasterSecret (sk_PublicKey m) (kp_PrivateKey kp) (kp_Curve kp) = Ok (s_preMasterSecret (fw_state w')) /\
    s_localKeypair (fw_state w') = Some kp /\ s_cipherSuite (fw_state w') = s_cipherSuite (fw_state w) /\
    s_extendedMasterSecret (fw_state w') = s_extendedMasterSecret (fw_state w) /\
    fw_cfg w' = fw_cfg w /\ fw_conn w' = fw_conn w.
Proof.
  intros Hn Hp. unfold handleServerKeyExchange in Hp. do 2 fp_step Hp. destruct (s_cipherSuite (fw_state w)) as [c|] eqn:Hc; [|done].
  rewrite Hn in Hp. apply fbind_inl in Hp as (kp & w1 & H1 & Hp). apply fbind_inl in H1 as (r & w2 & H2 & H1).
  unfold with_rand in H2. destruct (GenerateKeypair _ _) as [r' g'] eqn:Hg. injection H2 as -> <-.
  unfold store_or in H1. destruct r as [kp'|]; [|done]. injection H1 as -> <-.
  apply fbind_inl in Hp as (v & w3 & H3 & Hp). unfold store_or in H3. destruct (PreMasterSecret _ _ _) as [v'|] eqn:Hv; [|done].
  injection H3 as -> <-. injection Hp as <-. exists kp, g'. cbn. split_and!; done.
Qed.

Lemma keeps_check_server m cr sr : keeps (fun w => w) (check_server m cr sr : FP unit).
Proof. unfold check_server, verify_peer. keeps_tac. Qed.

(** The client's derivation: the randoms are its own and the server's. *)
Lemma client_derivation m sent (w w' : fworld) c v :
  s_cipherSuite (fw_state w) = Some (c, None) ->
  master_of (s_extendedMasterSecret (fw_state w)) (cs_hash c) (s_preMasterSecret (fw_state w))
    (Random_MarshalFixed (s_localRandom (fw_state w))) (Random_MarshalFixed (s_remoteRandom (fw_state w)))
    (pullAndMerge (cache_of w) (sessionHash_rules (c_initialEpoch (fw_cfg w))) ++ sent) = Ok v ->
  initializeCipherSuite m sent w = (inl tt, w') ->
  s_masterSecret (fw_state w') = v /\
  exists k, suite_Init c v (Random_MarshalFixed (s_localRandom (fw_state w))) (Random_MarshalFixed (s_remoteRandom (fw_state w))) true = Ok k /\
    s_cipherSuite (fw_state w') = Some (c, Some k).
Proof.
  intros Hc Hv Hp. unfold initializeCipherSuite in Hp. apply fbind_inl in Hp as (c0 & w0 & H0 & Hp).
  assert (Hs : (suite : FP _) w = (inl (c, None), w)) by (unfold suite, the_suite, fbind, getS, or_panic, fret; by rewrite Hc).
  rewrite Hs in H0. injection H0 as <- <-. cbn [snd fst] in Hp. fp_step Hp.
  apply fbind_inl in Hp as (u1 & w1 & H1 & Hp).
  rewrite (derive_master_spec _ _ _ _ _ _ (c, None) v) in H1; [|done|cbn [fst concat]; by rewrite app_nil_r]. injection H1 as _ <-.
  apply fbind_inl in Hp as (u2 & w2 & H2 & Hp).
  assert (Hk2 : w2 = mkFW (set_masterSecret v (fw_state w)) (fw_cfg w) (fw_conn w) (fw_rand w)).
  { apply (keeps_eq (fun w => w)) in H2; [done|]. case_bool_decide; [apply keeps_check_server|by intros ?]. }
  apply fbind_inl in Hp as (u3 & w3 & H3 & Hp).
  apply (keeps_eq (fun w => w)) in H3; [|unfold verify_connection; keeps_tac]. rewrite H3, Hk2 in Hp. clear H2 H3 Hk2.
  unfold init_suite, suite, the_suite, suite_init, fbind, getS, or_panic, fret in Hp. cbn in Hp. rewrite Hc in Hp. cbn in Hp.
  destruct (suite_Init c v _ _ true) as [k|e] eqn:Hk; cbn in Hp; [|done]. injection Hp as <-. cbn. split; [done|]. by exists k.
Qed.

(** The server's: the randoms are the client's and its own. *)
Lemma server_derivation kx (w : fworld) c pms v k :
  s_cipherSuite (fw_state w) = Some (c, None) -> server_premaster kx w = (inl pms, w) ->
  master_of (s_extendedMasterSecret (fw_state w)) (cs_hash c) pms
    (Random_MarshalFixed (s_remoteRandom (fw_state w))) (Random_MarshalFixed (s_localRandom (fw_state w)))
    (pullAndMerge (cache_of w) (sessionHash_rules (c_initialEpoch (fw_cfg w)))) = Ok v ->
  suite_Init c v (Random_MarshalFixed (s_remoteRandom (fw_state w))) (Random_MarshalFixed (s_localRandom (fw_state w))) false = Ok k ->
  exists w', server_keys kx w = (inl tt, w') /\ s_masterSecret (fw_state w') = v /\ s_cipherSuite (fw_state w') = Some (c, Some k).
Proof.
  intros Hc Hp Hv Hk. eexists. split; [|split].
  - assert (Hs : (suite : FP _) w = (inl (c, None), w)) by (unfold suite, the_suite, fbind, getS, or_panic, fret; by rewrite Hc).
    unfold server_keys. unfold fbind at 1. rewrite Hs. cbn [snd]. unfold fbind at 1, getS at 1. unfold fbind at 1. rewrite Hp.
    unfold fbind at 1. rewrite (derive_master_spec _ _ _ _ _ _ (c, None) v); [|done|cbn [fst concat]; by rewrite app_nil_r].
    unfold init_suite, suite, the_suite, suite_init, fbind, getS, or_panic, fret. cbn. rewrite Hc. cbn. pose proof Hk as Hk'. cbn in Hk'. rewrite Hk'. cbn. reflexivity.
  - done.
  - done.
Qed.

(** Client and server after their hellos and key pairs: each has the other's
    random, the same suite, not yet initialised, and the same choice of the
    extended master secret; what the server has of the transcript is what the
    client has and is about to send. *)
Record mirrored (c : csuite) (sent : bytes) (wc ws : fworld) : Prop := {
  mi_client : s_remoteRandom (fw_state ws) = s_localRandom (fw_state wc);
  mi_server : s_remoteRandom (fw_state wc) = s_localRandom (fw_state ws);
  mi_suite_client : s_cipherSuite (fw_state wc) = Some (c, None);
  mi_suite_server : s_cipherSuite (fw_state ws) = Some (c, None);
  mi_ems : s_extendedMasterSecret (fw_state wc) = s_extendedMasterSecret (fw_state ws);
  mi_transcript : pullAndMerge (cache_of wc) (sessionHash_rules (c_initialEpoch (fw_cfg wc))) ++ sent =
    pullAndMerge (cache_of ws) (sessionHash_rules (c_initialEpoch (fw_cfg ws)))
}.

(** C22: When client and server run the elliptic-curve exchange with each
    other's public keys and have taken each other's randoms from the hellos,
    the client's [initializeCipherSuite], if it accepts the server's signature,
    and the server's step on the ClientKeyExchange arrive at the same master
    secret of 48 bytes, from the same transcript if the extended derivation is
    used and else from the same two randoms; and both initialise the suite with
    it and with the client's and the server's random in the same places, each
    in its own role. *)
Theorem master_secrets_agree m (wc wc1 wc2 ws : fworld) kx g ks g' kc c sent :
  c_localPSKCallback (fw_cfg wc) = None -> cs_auth c <> AuthPreSharedKey ->
  GenerateKeypair (sk_NamedCurve m) g = (Ok ks, g') -> s_localKeypair (fw_state ws) = Some ks -> sk_PublicKey m = kp_PublicKey ks ->
  handleServerKeyExchange m wc = (inl tt, wc1) ->
  s_localKeypair (fw_state wc1) = Some kc -> ck_PublicKey kx = Some (kp_PublicKey kc) ->
  mirrored c sent wc1 ws ->
  initializeCipherSuite m sent wc1 = (inl tt, wc2) ->
  let cr := Random_MarshalFixed (s_localRandom (fw_state wc1)) in
  let sr := Random_MarshalFixed (s_localRandom (fw_state ws)) in
  let master := s_masterSecret (fw_state wc2) in
  length master = 48%nat /\
  (exists k, suite_Init c master cr sr true = Ok k /\ s_cipherSuite (fw_state wc2) = Some (c, Some k)) /\
  (forall k, suite_Init c master cr sr false = Ok k ->
    exists ws2, server_keys kx ws = (inl tt, ws2) /\ s_masterSecret (fw_state ws2) = master /\ s_cipherSuite (fw_state ws2) = Some (c, Some k)).
Proof.
  intros Hn Ha Hg Hks Hpub Hp Hkc Hkx [M1 M2 M3 M4 M5 M6] Hi cr sr master.
  destruct (client_exchange m wc wc1 Hn Hp) as (kc' & g1 & Hg1 & Hpms & Hkc' & _).
  rewrite Hkc in Hkc'. injection Hkc' as <-.
  destruct (key_agreement _ _ _ _ _ _ _ Hg1 Hg) as (E1 & E2 & v & V1 & V2).
  rewrite E1, Hpub, V1 in Hpms. injection Hpms as Hpms.
  destruct (master_of_ok (s_extendedMasterSecret (fw_state ws)) (cs_hash c) v cr sr
    (pullAndMerge (cache_of ws) (sessionHash_rules (c_initialEpoch (fw_cfg ws))))) as (mv & Hm & Hl).
  destruct (client_derivation m sent wc1 wc2 c mv M3) as (Hmaster & Hsuite); [|done|].
  { rewrite <- Hpms, M6, M5, M2. exact Hm. }
  subst master. rewrite Hmaster. split; [done|]. rewrite M2 in Hsuite. split; [exact Hsuite|]. intros k Hk.
  apply (server_derivation kx ws c v mv k); [done| |by rewrite M1|by rewrite M1].
  unfold server_premaster, suite, the_suite, keypair, fbind, getS, or_panic, fret. rewrite M4. cbn.
  rewrite bool_decide_false by done. rewrite Hks. cbn. unfold client_key. rewrite Hkx. cbn. by rewrite E2, V2.
Qed.

(** ** A server flight that arrives in parts *)

#[local] Arguments accept_server_hello : simpl never.
#[local] Arguments accept_session : simpl never.

(** The parse of flight 3 finds this ServerHello, and no cookie request. *)
Definition sees_hello (hello : MessageServerHello) (w : fworld) : Prop :=
  let seq := s_handshakeRecvSequence (fw_state w) in
  let kx := suite_kx (fw_state w) in
  let epoch := c_initialEpoch (fw_cfg w) in
  (fullPullMap (cache_of w) seq kx [mkRule TypeHelloVerifyRequest epoch false true]).2 = None /\
  exists msgs, (fullPullMap (cache_of w) seq kx [mkRule TypeServerHello epoch false false]).2 = Some msgs /\
    msgs !! TypeServerHello = Some (MServerHello hello).

Lemma flight3_hello hello (w : fworld) : sees_hello hello w ->
  flight3Parse w = fbind (accept_server_hello hello) (fun _ => fbind (accept_session hello) (fun _ => accept_flight4)) w.
Proof.
  unfold sees_hello, cache_of. intros (Hv & msgs & Hs & Hm). unfold flight3Parse, pull_map, fbind, getC, getS, getCache, fret. cbn.
  destruct (fullPullMap _ _ _ [mkRule TypeHelloVerifyRequest _ _ _]) as [n [?|]]; cbn in Hv; [done|]. cbn.
  destruct (fullPullMap _ _ _ [mkRule TypeServerHello _ _ _]) as [n2 [m2|]]; cbn in Hs; [injection Hs as ->|done].
  cbn. rewrite Hm. destruct (accept_server_hello hello w) as [[u|o] w1]; [|done].
  by destruct (accept_session hello w1) as [[u'|o'] w2].
Qed.

Lemma keeps_session_hello hello : keeps (fun w => (s_SessionID (fw_state w), fw_cfg w)) (accept_server_hello hello : FP unit).
Proof.
  unfold accept_server_hello, drop_unused_cid. keeps_tac.
  - generalize (sh_Extensions hello). intros exts. induction exts as [|e exts IH]; [done|]. cbn [for_extensions].
    apply keeps_bind; [|by intros _]. unfold server_extension. keeps_tac.
  - intros w. cbn. by destruct (s_remoteConnectionID (fw_state w)).
Qed.

(** [handleResumption] always ends the parse. *)
Lemma resumption_exits (w w' : fworld) : handleResumption w <> (inl tt, w').
Proof.
  intros Hp. unfold handleResumption in Hp. do 2 fp_step Hp. apply fbind_inl in Hp as (s1 & w1 & _ & Hp). fp_step Hp.
  apply fbind_inl in Hp as (u & w2 & _ & Hp). do 2 fp_step Hp.
  destruct (fullPullMap _ _ _ _) as [n [msgs|]]; [|by unfold_fp Hp].
  destruct (msgs !! TypeFinished) as [[]|]; try (by unfold_fp Hp).
  apply fbind_inl in Hp as (u' & w3 & _ & Hp). by unfold_fp Hp.
Qed.

(** With the identifier of the ServerHello in the state, the parse takes the
    flight for a resumption. *)
Lemma adopted_session_resumes hello (w : fworld) o w' :
  sees_hello hello w -> sh_SessionID hello <> [] -> s_SessionID (fw_state w) = sh_SessionID hello ->
  flight3Parse w = (inr o, w') -> o_flight o <> Some flight5.
Proof.
  intros Hs Hne Hid Hp Hf. rewrite (flight3_hello hello) in Hp by done.
  apply (fbind_flight _ _ _ _ _ flight5) in Hp as ([] & wa & Ha & Hp); [|apply ends_server_hello|done].
  apply (keeps_eq _ _ _ _ _ (keeps_session_hello hello)) in Ha. injection Ha as Ha _.
  assert (Hr : accept_session hello wa = handleResumption wa).
  { unfold accept_session, fbind, getC, getS. rewrite Ha, Hid, bool_decide_false by done. by rewrite bool_decide_true. }
  apply fbind_inr in Hp as [Hp|([] & w1 & Hp & _)]; rewrite Hr in Hp.
  - apply (ends_flight [flight5b] _ _ _ _ flight5 ends_resumption) in Hp; [set_solver|done].
  - by apply resumption_exits in Hp.
Qed.

(** A client with a session store that finds the ServerHello of a full
    handshake before the rest of the server's flight stores the new session
    identifier; from then on the flight is taken for a resumption, and the
    client never goes on to its flight 5, whatever else arrives. *)
Theorem split_flight_taken_for_resumption hello (w wa : fworld) :
  c_sessionStore (fw_cfg w) = true -> sh_SessionID hello <> [] -> s_SessionID (fw_state w) = [] ->
  sees_hello hello w -> accept_server_hello hello w = (inl tt, wa) ->
  (fullPullMap (cache_of wa) (s_handshakeRecvSequence (fw_state wa) + 1) (suite_kx (fw_state wa))
     (flight4_rules (c_initialEpoch (fw_cfg wa)) (bool_decide (is_Some (c_localPSKCallback (fw_cfg wa)))))).2 = None ->
  exists w1, flight3Parse w = (inr (mkOut None None None), w1) /\ s_masterSecret (fw_state w1) = [] /\
    forall w2 o w3, s_SessionID (fw_state w2) = s_SessionID (fw_state w1) -> sees_hello hello w2 -> flight3Parse w2 = (inr o, w3) ->
      o_flight o <> Some flight5.
Proof.
  intros Hst Hne Hid Hs Ha Hpart. pose proof Ha as Hk. apply (keeps_eq _ _ _ _ _ (keeps_session_hello hello)) in Hk.
  injection Hk as Hk1 Hk2.
  set (w1 := mkFW (set_masterSecret [] (set_SessionID (sh_SessionID hello) (fw_state wa))) (fw_cfg wa) (fw_conn wa) (fw_rand wa)).
  assert (H1 : accept_session hello wa = (inl tt, w1)).
  { unfold accept_session, fbind, getC, getS. rewrite Hk1, Hid. rewrite (bool_decide_false (sh_SessionID hello = [])) by done.
    rewrite (bool_decide_false ([] = sh_SessionID hello)) by done. rewrite bool_decide_true by done. cbn.
    by rewrite Hk2, Hst. }
  exists w1. split; [|split; [done|]].
  - rewrite (flight3_hello hello) by done. unfold fbind at 1. rewrite Ha. unfold fbind at 1. rewrite H1.
    unfold accept_flight4, pull_map, fbind, getC, getS, getCache, fret. cbn. unfold cache_of in Hpart.
    change (suite_kx (set_masterSecret [] _)) with (suite_kx (fw_state wa)).
    destruct (fullPullMap _ _ _ _) as [n [?|]]; cbn in Hpart; [done|]. done.
  - intros w2 o w3 He Hs2 Hp. eapply adopted_session_resumes; [exact Hs2|done| |exact Hp]. by rewrite He.
Qed.
End agreement.
