(* ===== verification/DtlsDemo.v ===== *)
(** * A handshake that runs

    Concrete instances of the interfaces of the flights and a client and a
    server that complete a handshake over them: the machines of handshaker.go
    run as they are, only the datagrams between them are replaced by lists of
    handshake messages.  The worlds along the way are the inputs of the
    witnesses. *)

From S2P Require Import Prelude IO GoStr DtlsWire DtlsExt DtlsHandshake DtlsRandom DtlsFragment.
From S2P Require Import DtlsCrypto DtlsConn DtlsSuites DtlsState DtlsHello DtlsFlights DtlsFsm.
From S2P Require Import DtlsAuth.
Open Scope Z_scope.

(** ** Instances *)

#[export, refine] Instance demo_hash : Hash hash_kind := {|
  hash_Size _ := 4%nat;
  hash_Sum _ m := be_put 4 (be_get m * 7 + Z.of_nat (length m));
  hash_HMAC _ k m := be_put 4 (be_get k * 31 + be_get m)
|}.
Proof. all: intros; rewrite ?length_be_put; lia. Defined.

(** Keys are numbers, a point is its scalar, the product is the sum. *)
Definition demo_add (a b : bytes) : bytes := be_put 32 (be_get a + be_get b).

#[export, refine] Instance demo_curves : Curves Z := {|
  cv_Read n g := (Ok (rread n g).1, (rread n g).2);
  x25519_Base k := k;
  x25519_Mult k p := Ok (demo_add k p);
  nist_GenerateKey c g := (Ok ([z2b g], [z2b g]), g + 1);
  nist_SharedX c q k := Some (be_get q + be_get k)
|}.
Proof.
  - intros n g b g' [= <- _]. exact (length_rread n g).
  - intros a b _ _. eexists. split; [done|]. unfold demo_add. by rewrite Z.add_comm.
  - intros c g1 k1 q1 g1' g2 k2 q2 g2' [= <- <- _] [= <- <- _]. eexists. split; [done|]. by rewrite Z.add_comm.
Defined.

#[export, refine] Instance demo_mrand : MRand Z := {|
  mr_New seed := seed;
  mr_int31n n r := intn n r
|}.
Proof. intros n r Hn. exact (intn_range n r Hn). Defined.

(** The ciphers of a suite: what they were made from. *)
#[export] Instance demo_init : SuiteInit (bytes * bool) := fun c master cr sr client => Ok (master, client).

(** A connection: the cache, the messages sent and not yet taken away, and a
    session store. *)
Record wire := mkWire { wr_cache : handshakeCache; wr_sent : handshakeCache; wr_store : list (bytes * Session) }.

Definition demo_item (client : bool) (p : packet) : handshakeCache :=
  match r_Content (pk_record p) with
  | CHandshake h =>
      match Handshake_Marshal h with
      | Ok (hd, raw) => [mkItem (hs_Type hd) client (Epoch (r_Header (pk_record p))) (MessageSequence hd) raw]
      | Err _ => []
      end
  | _ => []
  end.

Definition store_get (key : bytes) (l : list (bytes * Session)) : Session :=
  match List.find (fun p => bool_decide (p.1 = key)) l with Some p => p.2 | None => mkSession None [] end.

#[export, refine] Instance demo_conn : FlightConn (bytes * bool) wire := {|
  fc_cache := wr_cache;
  fc_notify a s w := (None, s, w);
  fc_writePackets pkts s w :=
    let items := concat (map (demo_item (s_isClient s)) pkts) in
    (None, s, mkWire (wr_cache w ++ items) (wr_sent w ++ items) (wr_store w));
  fc_handleQueuedPackets s w := (None, s, w);
  fc_sessionKey s w := [];
  st_Get key w := (Ok (store_get key (wr_store w)), w);
  st_Set key v w := (None, mkWire (wr_cache w) (wr_sent w) ((key, v) :: wr_store w));
  st_Del key w := (None, mkWire (wr_cache w) (wr_sent w) (List.filter (fun p => negb (bool_decide (p.1 = key))) (wr_store w)))
|}.
Proof. intros s w e s' w' [= <- <- <-]. exists (s_remoteEpoch s), (s_localSequenceNumber s). by destruct s. Defined.

(** ** Two ends *)

Definition demo_populate (g : Z) : res herr Random * Z := let '(b, g) := rread 28 g in (Ok (mkRandom 1 b), g).

Abbreviation demo_config := (handshakeConfig Z Z Z (bytes * bool)).
Abbreviation demo_world := (fworld Z Z Z (bytes * bool) wire).

(** A configuration with a certificate for the server and a policy for the
    client's. *)
Definition demo_cfg (auth : ClientAuthType) (store : bool) (seed : bytes) : demo_config :=
  mkConfig None None defaultCipherSuites [(4, 3)] RequestEMS [7; 1] [] EmptyString [] auth
    [mkTlsCert (Some [[z2b 7]]) (KSigner 7) None] false None None store None (Some []) [] [] [X25519; P256] false None None
    None None 0 None None None seed 1000000000 false.

Definition demo_state (isClient : bool) : State (bytes * bool) := set_isClient isClient zero_state.

Definition demo_start (isClient : bool) (cfg : demo_config) (g : Z) : demo_world :=
  mkFW (demo_state isClient) cfg (mkWire [] [] []) g.

Abbreviation demo_snapshot := (handshakeState * handshakeFSM * demo_world)%type.

Abbreviation demo_prepare := (prepare (R:=Z) (fun s => s) demo_populate).

(** Prepares and sends. *)
Definition settle (sn : demo_snapshot) : demo_snapshot :=
  let '(st, m, w) := sn in
  let '(st, m, w) := match st with
                     | Preparing => match demo_prepare m w with (Ok st, m, w) => (st, m, w) | (Err _, m, w) => (Errored, m, w) end
                     | _ => (st, m, w)
                     end in
  match st with
  | Sending => match send m w with (Ok st, m, w) => (st, m, w) | (Err _, m, w) => (Errored, m, w) end
  | _ => (st, m, w)
  end.

(** Messages of the peer arrive. *)
Definition receive (items : handshakeCache) (sn : demo_snapshot) : demo_snapshot :=
  let '(st, m, w) := sn in
  let c := fw_conn w in
  let w := mkFW (fw_state w) (fw_cfg w) (mkWire (wr_cache c ++ items) (wr_sent c) (wr_store c)) (fw_rand w) in
  match st with
  | Waiting =>
      match wait (EvRecv false) m w with
      | (Some (Ok st), m, w) => settle (st, m, w)
      | (Some (Err _), m, w) => (Errored, m, w)
      | (None, m, w) => (Waiting, m, w)
      end
  | _ => (st, m, w)
  end.

Definition drain (sn : demo_snapshot) : handshakeCache * demo_snapshot :=
  let '(st, m, w) := sn in
  let c := fw_conn w in
  (wr_sent c, (st, m, mkFW (fw_state w) (fw_cfg w) (mkWire (wr_cache c) [] (wr_store c)) (fw_rand w))).

(** A round: what the client has sent, then what the server has. *)
Definition exchange (ends : demo_snapshot * demo_snapshot) : demo_snapshot * demo_snapshot :=
  let '(c, s) := ends in
  let '(items, c) := drain c in
  let s := receive items s in
  let '(items, s) := drain s in
  (receive items c, s).

Definition demo_pair (ccfg scfg : demo_config) : demo_snapshot * demo_snapshot :=
  let wc := demo_start true ccfg 1 in
  let ws := demo_start false scfg 100 in
  (settle (initial true false ccfg wc), settle (initial false false scfg ws)).

Definition demo_run (n : nat) (ccfg scfg : demo_config) := Nat.iter n exchange (demo_pair ccfg scfg).

Definition summary (sn : demo_snapshot) := (sn.1.1, currentFlight sn.1.2, s_masterSecret (fw_state sn.2)).

(** A client and a server that both have a session of the other in store. *)
Definition demo_again (cfg : demo_config) (ends : demo_snapshot * demo_snapshot) : demo_snapshot * demo_snapshot :=
  let '(c, s) := ends in
  let wc := mkFW (demo_state true) cfg (mkWire [] [] (wr_store (fw_conn c.2))) 5 in
  let ws := mkFW (demo_state false) cfg (mkWire [] [] (wr_store (fw_conn s.2))) 500 in
  (settle (initial true false cfg wc), settle (initial false false cfg ws)).

Definition plain_cfg : demo_config := demo_cfg NoClientCert false [].
Definition auth_cfg : demo_config := demo_cfg RequireAndVerifyClientCert false [].
Definition store_cfg : demo_config := demo_cfg NoClientCert true [].
Definition seeded_cfg : demo_config := demo_cfg NoClientCert false (replicate 8 (z2b 3)).

(** Both ends are done, with the same secret of 48 bytes. *)
Definition complete (cf sf : flightVal) (ends : demo_snapshot * demo_snapshot) : bool :=
  let '((cst, cm, cw), (sst, sm, sw)) := ends in
  bool_decide (cst = Finished) && bool_decide (currentFlight cm = cf) &&
  bool_decide (sst = Finished) && bool_decide (currentFlight sm = sf) &&
  bool_decide (s_masterSecret (fw_state cw) = s_masterSecret (fw_state sw)) &&
  (length (s_masterSecret (fw_state cw)) =? 48)%nat.

(** Client and server complete a handshake with each other, in three
    exchanges with a cookie, with and without a certificate of the client,
    with a session store and with a randomisation seed, and in two exchanges
    when they resume a stored session; both have the same master secret. *)
Theorem handshakes_complete :
  complete flight5 flight6 (demo_run 3 plain_cfg plain_cfg) = true /\
  complete flight5 flight6 (demo_run 3 auth_cfg auth_cfg) = true /\
  complete flight5 flight6 (demo_run 3 store_cfg store_cfg) = true /\
  complete flight5 flight6 (demo_run 3 seeded_cfg seeded_cfg) = true /\
  complete flight5b flight4b (Nat.iter 2 exchange (demo_again store_cfg (demo_run 3 store_cfg store_cfg))) = true.
Proof. split_and!; vm_compute; reflexivity. Qed.

(** ** Runs of the machines *)

Abbreviation demo_step := (fsm_step (R:=Z) (SG:=Z) (X:=Z) (G:=Z) (C:=bytes * bool) (W:=wire) (fun s => s) demo_populate).

Lemma env_reach st m (w : demo_world) c' :
  rtc demo_step (st, m, w) (st, m, mkFW (fw_state w) (fw_cfg w) c' (fw_rand w)).
Proof.
  apply rtc_once. destruct w as [s cfg c g].
  pose proof (step_env (R:=Z) (fun s => s) demo_populate st m s cfg c g (s_remoteEpoch s) (s_localSequenceNumber s) c') as He.
  by destruct s.
Qed.

Lemma settle_reach (sn : demo_snapshot) : (settle sn).1.1 <> Errored -> rtc demo_step sn (settle sn).
Proof.
  destruct sn as [[st m] w]. destruct st; try done; cbn [settle].
  - destruct (demo_prepare m w) as [[[st1|e] m1] w1] eqn:Hp; [|done]. intros Hn.
    eapply rtc_l; [by apply step_prepare|]. destruct st1; try done.
    destruct (send m1 w1) as [[[st2|e2] m2] w2] eqn:Hs; [|done]. apply rtc_once. by apply step_send.
  - destruct (send m w) as [[[st2|e2] m2] w2] eqn:Hs; [|done]. intros _. apply rtc_once. by apply step_send.
Qed.

Lemma receive_reach items (sn : demo_snapshot) : (receive items sn).1.1 <> Errored -> rtc demo_step sn (receive items sn).
Proof.
  destruct sn as [[st m] w]. unfold receive. set (w1 := mkFW _ _ _ _). intros Hn.
  assert (He : rtc demo_step (st, m, w) (st, m, w1)) by apply env_reach.
  destruct st; try exact He. etrans; [exact He|].
  destruct (wait (EvRecv false) m w1) as [[[[st2|e]|] m2] w2] eqn:Hw; [|done|].
  - eapply rtc_l; [by eapply step_wait|]. by apply settle_reach.
  - apply rtc_once. by eapply step_wait_more.
Qed.

Lemma drain_reach (sn : demo_snapshot) : rtc demo_step sn (drain sn).2.
Proof. destruct sn as [[st m] w]. apply env_reach. Qed.

Lemma exchange_reach (ends : demo_snapshot * demo_snapshot) :
  (exchange ends).1.1.1 <> Errored -> (exchange ends).2.1.1 <> Errored ->
  rtc demo_step ends.1 (exchange ends).1 /\ rtc demo_step ends.2 (exchange ends).2.
Proof.
  destruct ends as [c s]. unfold exchange. pose proof (drain_reach c) as Hc. destruct (drain c) as [items c1].
  pose proof (drain_reach (receive items s)) as Hs.
  assert (Hd : (drain (receive items s)).2.1.1 = (receive items s).1.1) by by destruct (receive items s) as [[??]?].
  destruct (drain (receive items s)) as [items2 s2]. cbn in *. intros H1 H2. split.
  - etrans; [exact Hc|]. by apply receive_reach.
  - etrans; [|exact Hs]. apply receive_reach. by rewrite <- Hd.
Qed.

(** The plain handshake: both ends are reachable from their start. *)
Definition plain_start (isClient : bool) : demo_world := demo_start isClient plain_cfg (if isClient then 1 else 100).

Definition alive (ends : demo_snapshot * demo_snapshot) : bool :=
  negb (bool_decide (ends.1.1.1 = Errored)) && negb (bool_decide (ends.2.1.1 = Errored)).

Lemma alive_spec ends : alive ends = true -> ends.1.1.1 <> Errored /\ ends.2.1.1 <> Errored.
Proof. unfold alive. intros [H1 H2]%andb_true_iff. split; intros He; by rewrite He in *. Qed.

Lemma iter_reach n ends :
  forallb (fun k => alive (Nat.iter k exchange ends)) (seq 1 n) = true ->
  rtc demo_step ends.1 (Nat.iter n exchange ends).1 /\ rtc demo_step ends.2 (Nat.iter n exchange ends).2.
Proof.
  induction n as [|n IH]; intros Hf; [done|]. rewrite seq_S, forallb_app in Hf. apply andb_true_iff in Hf as [Hf Hn].
  destruct (IH Hf) as [I1 I2]. cbn [forallb] in Hn. rewrite andb_true_r in Hn. apply alive_spec in Hn as [H1 H2].
  destruct (exchange_reach (Nat.iter n exchange ends)) as [E1 E2]; [exact H1|exact H2|].
  split; etrans; [exact I1|exact E1|exact I2|exact E2].
Qed.

Lemma plain_reach_3 :
  rtc demo_step (initial true false plain_cfg (plain_start true)) (demo_run 3 plain_cfg plain_cfg).1 /\
  rtc demo_step (initial false false plain_cfg (plain_start false)) (demo_run 3 plain_cfg plain_cfg).2.
Proof.
  destruct (iter_reach 3 (demo_pair plain_cfg plain_cfg)) as [H1 H2]; [vm_compute; reflexivity|].
  split; (etrans; [apply settle_reach; vm_compute; discriminate|]); [exact H1|exact H2].
Qed.

(** The two ends of the run, taken apart. *)
Definition st_of (sn : demo_snapshot) := sn.1.1.
Definition fsm_of (sn : demo_snapshot) := sn.1.2.
Definition world_of (sn : demo_snapshot) : demo_world := sn.2.

Lemma roles_kept_witness :
  currentFlight (fsm_of (demo_run 3 plain_cfg plain_cfg).1) ∈ [flight5; flight5b].
Proof.
  pose proof (proj1 plain_reach_3) as Hr.
  refine (proj2 (proj2 (roles_kept (R:=Z) (fun s => s) demo_populate true false (plain_start true)
    (st_of (demo_run 3 plain_cfg plain_cfg).1) (fsm_of (demo_run 3 plain_cfg plain_cfg).1)
    (world_of (demo_run 3 plain_cfg plain_cfg).1) _)) _).
  - destruct (demo_run 3 plain_cfg plain_cfg).1 as [[st m] w]. exact Hr.
  - vm_compute. reflexivity.
Defined.

(** The client sends its first flight, nobody answers, and the timer expires
    twice. *)
Definition first_prepared := demo_prepare (newHandshakeFSM plain_cfg flight1) (plain_start true).
Definition first_sent := send first_prepared.1.2 first_prepared.2.
Definition first_expired := wait EvTimer first_sent.1.2 first_sent.2.
Definition second_sent := send first_expired.1.2 first_expired.2.
Definition second_expired := wait EvTimer second_sent.1.2 second_sent.2.

Lemma twice_expired : timed (R:=Z) (fun s => s) demo_populate (initial true false plain_cfg (plain_start true)) 2 (Sending, second_expired.1.2, second_expired.2).
Proof.
  assert (E1 : first_prepared = (Ok Sending, first_prepared.1.2, first_prepared.2)) by (vm_compute; reflexivity).
  assert (E2 : first_sent = (Ok Waiting, first_sent.1.2, first_sent.2)) by (vm_compute; reflexivity).
  assert (E3 : first_expired = (Some (Ok Sending), first_expired.1.2, first_expired.2)) by (vm_compute; reflexivity).
  assert (E4 : second_sent = (Ok Waiting, second_sent.1.2, second_sent.2)) by (vm_compute; reflexivity).
  assert (E5 : second_expired = (Some (Ok Sending), second_expired.1.2, second_expired.2)) by (vm_compute; reflexivity).
  assert (R1 : retransmit first_sent.1.2 = true) by (vm_compute; reflexivity).
  assert (R2 : retransmit second_sent.1.2 = true) by (vm_compute; reflexivity).
  assert (T1 : timed (R:=Z) (fun s => s) demo_populate (initial true false plain_cfg (plain_start true)) 0 (Waiting, first_sent.1.2, first_sent.2)).
  { eapply timed_step; [eapply timed_step; [constructor|discriminate|apply step_prepare; exact E1]|discriminate|apply step_send; exact E2]. }
  pose proof (timed_wait _ _ _ _ EvTimer _ _ _ _ _ T1 E3) as T2. rewrite R1 in T2.
  assert (T3 := timed_step _ _ _ _ _ _ _ _ _ _ T2 ltac:(discriminate) (step_send _ _ _ _ _ _ _ E4)).
  pose proof (timed_wait _ _ _ _ EvTimer _ _ _ _ _ T3 E5) as T4. by rewrite R2 in T4.
Qed.

Lemma retransmit_timer_witness : retransmitInterval second_expired.1.2 = 4000000000.
Proof.
  destruct (retransmit_timer (R:=Z) (fun s => s) demo_populate true false (plain_start true)) as [_ Ht]; [cbn; lia|].
  rewrite (Ht 2%nat _ _ _ twice_expired). reflexivity.
Defined.

(** The world of an end when the messages of the other have just arrived. *)
Definition client_receives (n : nat) (cfg : demo_config) : handshakeFSM * demo_world :=
  let '(c, s) := demo_run n cfg cfg in
  let '(items, c) := drain c in
  let '(items, s) := drain (receive items s) in
  let w := world_of c in
  (fsm_of c, mkFW (fw_state w) (fw_cfg w) (mkWire (wr_cache (fw_conn w) ++ items) [] (wr_store (fw_conn w))) (fw_rand w)).

Definition server_receives (n : nat) (cfg : demo_config) : handshakeFSM * demo_world :=
  let '(c, s) := demo_run n cfg cfg in
  let '(items, c) := drain c in
  let w := world_of s in
  (fsm_of s, mkFW (fw_state w) (fw_cfg w) (mkWire (wr_cache (fw_conn w) ++ items) (wr_sent (fw_conn w)) (wr_store (fw_conn w)))
               (fw_rand w)).

Definition result_of {A B D} (r : A * B * D) : A := r.1.1.

Lemma finished_authenticated_witness :
  let '(m, w) := client_receives 2 plain_cfg in
  (currentFlight m = flight5 /\ authentic (s_handshakeRecvSequence (fw_state w)) false VerifyDataServer full_rules w) \/
  (currentFlight m = flight4b /\ authentic (s_handshakeRecvSequence (fw_state w)) true VerifyDataClient resumed_full_rules w).
Proof.
  assert (Hw : result_of (wait (EvRecv false) (client_receives 2 plain_cfg).1 (client_receives 2 plain_cfg).2)
    = Some (Ok Finished)) by (vm_compute; reflexivity).
  destruct (client_receives 2 plain_cfg) as [m w]. cbn [fst snd] in Hw.
  destruct (wait (EvRecv false) m w) as [[r m'] w'] eqn:He. cbn in Hw. subst r.
  exact (proj1 (finished_authenticated m w m' w') He).
Defined.

Lemma cookie_required_witness :
  let '(m, w) := server_receives 1 plain_cfg in
  currentFlight m = flight2 /\
  exists msgs hello,
    pulls w (s_handshakeRecvSequence (fw_state w)) [client_hello_rule (c_initialEpoch (fw_cfg w))] msgs /\
    msgs !! TypeClientHello = Some (MClientHello hello) /\
    ch_Cookie hello = s_cookie (fw_state w) /\ ch_Cookie hello <> [].
Proof.
  assert (Hw : (fun r => (result_of r, currentFlight r.1.2))
      (wait (EvRecv false) (server_receives 1 plain_cfg).1 (server_receives 1 plain_cfg).2)
    = (Some (Ok Preparing), flight4)) by (vm_compute; reflexivity).
  assert (Hs : c_insecureSkipHelloVerify (fw_cfg (server_receives 1 plain_cfg).2) = false) by (vm_compute; reflexivity).
  assert (Hc : currentFlight (server_receives 1 plain_cfg).1 <> flight4) by (vm_compute; discriminate).
  destruct (server_receives 1 plain_cfg) as [m w]. cbn [fst snd] in *.
  destruct (wait (EvRecv false) m w) as [[r m'] w'] eqn:He. cbn in Hw. injection Hw as -> Hf.
  exact (cookie_required (EvRecv false) m w Preparing m' w' Hs He Hc Hf).
Defined.

Lemma client_verified_witness :
  exists raw, s_PeerCertificates (fw_state (flight4Parse (server_receives 2 auth_cfg).2).2) = Some raw /\
    certificate_verified raw (server_receives 2 auth_cfg).2.
Proof.
  assert (Hp : (fun r : (unit + outcome) * demo_world =>
      (match r.1 with inr o => o_flight o | inl _ => None end, (fun c => cs_auth c.1) <$> s_cipherSuite (fw_state r.2)))
      (flight4Parse (server_receives 2 auth_cfg).2) = (Some flight6, Some AuthCertificate)) by (vm_compute; reflexivity).
  assert (Ha : c_clientAuth (fw_cfg (server_receives 2 auth_cfg).2) = RequireAndVerifyClientCert) by (vm_compute; reflexivity).
  destruct (server_receives 2 auth_cfg) as [m w]. cbn [fst snd] in *.
  destruct (flight4Parse w) as [[[]|o] w'] eqn:He; cbn in Hp; [done|]. injection Hp as Hf Hc.
  destruct (s_cipherSuite (fw_state w')) as [c|] eqn:Hs; [|done]. cbn in Hc. injection Hc as Hc.
  refine (client_verified w o w' c Ha He Hf Hs _). by rewrite Hc.
Defined.

(** The server of the plain handshake when the client's flight arrives with
    other verify data. *)
Definition forged_finished : bytes :=
  match Handshake_Marshal (numbered (MFinished (mkFinished (replicate 12 (z2b 9)))) 0 3) with
  | Ok (_, raw) => raw
  | Err _ => []
  end.

Definition forged_world : demo_world :=
  let w := (server_receives 2 plain_cfg).2 in
  let c := fw_conn w in
  let cache := map (fun i => if (i_typ i =? TypeFinished) then mkItem (i_typ i) (i_isClient i) (i_epoch i) (i_seq i) forged_finished
                             else i) (wr_cache c) in
  mkFW (fw_state w) (fw_cfg w) (mkWire cache (wr_sent c) (wr_store c)) (fw_rand w).

Lemma client_finished_unchecked_witness :
  exists w', flight4Parse forged_world = (inr (mkOut (Some flight6) None None), w').
Proof.
  set (r := flight4_keys forged_world).
  assert (H1 : (match r.1 with inl seq => Some seq | inr _ => None end) = Some 3) by (vm_compute; reflexivity).
  assert (H2 : (fun p : Z * option (gmap Z Message) => (fun m => m !! TypeFinished) <$> p.2)
      (fullPullMap (cache_of r.2) 3 (suite_kx (fw_state r.2)) [finished_rule (c_initialEpoch (fw_cfg forged_world)) true])
    = Some (Some (MFinished (mkFinished (replicate 12 (z2b 9)))))) by (vm_compute; reflexivity).
  assert (H3 : cs_ID <$> (fst <$> s_cipherSuite (fw_state r.2)) = Some 49195) by (vm_compute; reflexivity).
  assert (H4 : c_clientAuth (fw_cfg r.2) = NoClientCert) by (vm_compute; reflexivity).
  assert (H5 : c_verifyConnection (fw_cfg r.2) = None) by (vm_compute; reflexivity).
  destruct r as [[seq|] w1] eqn:Hr; cbn in H1; [|done]. injection H1 as ->. cbn [snd] in *.
  destruct (s_cipherSuite (fw_state w1)) as [c|] eqn:Hc; [|done].
  destruct (fullPullMap (cache_of w1) 3 _ _) as [n [msgs|]] eqn:Hm; [|done]. cbn in H2. injection H2 as H2.
  exact (client_finished_unchecked forged_world w1 3 n msgs _ c Hr Hm H2 Hc H4 H5).
Defined.

(** The ClientHello that the server of the plain handshake finds first. *)
Definition first_hello : MessageClientHello :=
  mkClientHello Version1_2 (mkRandom 1 (replicate 28 (z2b 2))) [] [] [49195; 49199] [0]
    [SupportedEllipticCurves [P256; X25519]; UseSRTP [1] []].

Lemma negotiation_sound_witness :
  exists kp, s_localKeypair (fw_state (negotiate first_hello (plain_start false)).2) = Some kp /\ kp_Curve kp = P256.
Proof.
  assert (Hp : (negotiate first_hello (plain_start false)).1 = inl tt) by (vm_compute; reflexivity).
  assert (Hc : s_namedCurve (fw_state (negotiate first_hello (plain_start false)).2) = P256) by (vm_compute; reflexivity).
  destruct (negotiate first_hello (plain_start false)) as [r w'] eqn:He. cbn [fst snd] in *. subst r.
  destruct (negotiation_sound first_hello (plain_start false) w' He) as (c & kp & l1 & l2 & Hn).
  exists kp. split; [apply Hn|]. rewrite <- Hc. apply Hn.
Defined.

(** Two ends with the keys and the randoms of each other, and the server's
    signature of its key. *)
Definition key_suite : csuite := TLS_ECDHE_ECDSA_WITH_AES_128_GCM_SHA256.
Definition server_pair : Keypair := match GenerateKeypair P256 9 with (Ok kp, _) => kp | _ => mkKeypair 0 [] [] end.
Definition random_c : Random := mkRandom 1 (replicate 28 x01).
Definition random_s : Random := mkRandom 2 (replicate 28 x02).
Definition key_message : MessageServerKeyExchange :=
  mkServerKeyExchange None 3 P256 (kp_PublicKey server_pair) 4 3
    (toy_sig 7 (Digest 4 (valueKeyMessage (Random_MarshalFixed random_c) (Random_MarshalFixed random_s) (kp_PublicKey server_pair) P256))).
Definition key_state (isClient : bool) (l r : Random) : State (bytes * bool) :=
  set_localRandom l (set_remoteRandom r (set_cipherSuite (Some (key_suite, None)) (demo_state isClient))).
Definition key_client : demo_world :=
  mkFW (set_PeerCertificates (Some [[z2b 7]]) (key_state true random_c random_s)) plain_cfg (mkWire [] [] []) 5.
Definition key_server : demo_world :=
  mkFW (set_localKeypair (Some server_pair) (key_state false random_s random_c)) plain_cfg (mkWire [] [] []) 6.
Definition client_ready : demo_world := (handleServerKeyExchange key_message key_client).2.
Definition client_keyed : demo_world := (initializeCipherSuite key_message [] client_ready).2.

Lemma master_secrets_agree_witness :
  let master := s_masterSecret (fw_state client_keyed) in
  length master = 48%nat /\
  exists ws2, server_keys (mkClientKeyExchange None (Some [z2b 5])) key_server = (inl tt, ws2) /\ s_masterSecret (fw_state ws2) = master.
Proof.
  destruct (master_secrets_agree key_message key_client client_ready client_keyed key_server
    (mkClientKeyExchange None (Some [z2b 5])) 9 server_pair 10 (mkKeypair P256 [z2b 5] [z2b 5]) key_suite []) as (Hl & _ & Hs);
    [reflexivity|discriminate|vm_compute; reflexivity|reflexivity|vm_compute; reflexivity|vm_compute; reflexivity|vm_compute; reflexivity|reflexivity
    |constructor; vm_compute; reflexivity|vm_compute; reflexivity|].
  split; [exact Hl|]. destruct (Hs (s_masterSecret (fw_state client_keyed), false) eq_refl) as (ws2 & H1 & H2 & _). by exists ws2.
Defined.

(** The client of the handshake with a session store when only the ServerHello
    has arrived. *)
Definition split_world : demo_world :=
  let '(c, s) := demo_run 1 store_cfg store_cfg in
  let '(items, c) := drain c in
  let '(items, s) := drain (receive items s) in
  let w := world_of c in
  mkFW (fw_state w) (fw_cfg w) (mkWire (wr_cache (fw_conn w) ++ take 1 items) [] []) (fw_rand w).

Definition split_hello : MessageServerHello :=
  match (fullPullMap (cache_of split_world) (s_handshakeRecvSequence (fw_state split_world)) (suite_kx (fw_state split_world))
           [mkRule TypeServerHello 0 false false]).2 with
  | Some msgs => match msgs !! TypeServerHello with
                 | Some (MServerHello h) => h
                 | _ => mkServerHello Version1_0 zero_random [] None None []
                 end
  | None => mkServerHello Version1_0 zero_random [] None None []
  end.

Lemma split_flight_taken_for_resumption_witness :
  exists w1, flight3Parse split_world = (inr (mkOut None None None), w1) /\ s_masterSecret (fw_state w1) = [] /\
    forall (w2 : demo_world) o w3, s_SessionID (fw_state w2) = s_SessionID (fw_state w1) -> sees_hello split_hello w2 ->
      flight3Parse w2 = (inr o, w3) -> o_flight o <> Some flight5.
Proof.
  refine (split_flight_taken_for_resumption split_hello split_world (accept_server_hello split_hello split_world).2 _ _ _ _ _ _).
  - vm_compute. reflexivity.
  - vm_compute. discriminate.
  - vm_compute. reflexivity.
  - split; [vm_compute; reflexivity|]. eexists. split; vm_compute; reflexivity.
  - vm_compute. reflexivity.
  - vm_compute. reflexivity.
Defined.

(** ** A stored state *)

#[export] Instance serialized_eq_dec : EqDecision serializedState.
Proof. solve_decision. Defined.

Definition saved_state (id : Z) : State (bytes * bool) :=
  set_localEpoch 1 (set_localSequenceNumber [3; 5] (set_masterSecret [x07]
    (set_cipherSuite (Some (mkSuite id ECDSASign SHA256_ AuthCertificate kx_Ecdhe true, None)) (demo_state true)))).

Definition saved (id : Z) : option serializedState := match serialize (saved_state id) with Ok z => Some z | Err _ => None end.

(** An encoder of one value. *)
Definition demo_encode (id : Z) (z : serializedState) : res herr bytes :=
  if bool_decide (saved id = Some z) then Ok [x01] else Err (HExt 1).
Definition demo_decode (id : Z) (b : bytes) : res herr serializedState :=
  match saved id with Some z => Ok (gob_norm z) | None => Err (HExt 1) end.

Lemma demo_gob id z b : demo_encode id z = Ok b -> demo_decode id b = Ok (gob_norm z).
Proof. unfold demo_encode, demo_decode. case_bool_decide as Hz; [|done]. by rewrite Hz. Qed.

Lemma state_roundtrip_witness :
  exists s', UnmarshalBinary (demo_decode 49195) [x01] zero_state = Ok s' /\ same_session (saved_state 49195) s' /\
    s_cipherSuite s' = Some (mkSuite 49195 ECDSASign SHA256_ AuthCertificate kx_Ecdhe true, Some ([x07], true)).
Proof.
  refine (state_roundtrip (demo_encode 49195) (demo_decode 49195) (demo_gob 49195) (saved_state 49195)
    (mkSuite 49195 ECDSASign SHA256_ AuthCertificate kx_Ecdhe true) None ([x07], true) [x01] _ _ _ _ _ _ _);
    try reflexivity; try (vm_compute; reflexivity); unfold wf_random; cbn; lia.
Defined.

Lemma custom_suite_not_restored_witness :
  UnmarshalBinary (C:=bytes * bool) (demo_decode 65280) [x01] zero_state = Err (HDerr Panic).
Proof.
  refine (custom_suite_not_restored (demo_encode 65280) (demo_decode 65280) (demo_gob 65280) (saved_state 65280)
    (mkSuite 65280 ECDSASign SHA256_ AuthCertificate kx_Ecdhe true) None [x01] _ _ _ _ _ _);
    try reflexivity; try (vm_compute; reflexivity); unfold wf_random; cbn; lia.
Defined.

Lemma exported_keys_agree_witness :
  ExportKeyingMaterial [x05] [] 60 (saved_state 49195) = ExportKeyingMaterial [x05] [] 60 (set_isClient false (saved_state 49195)).
Proof.
  refine (proj1 (exported_keys_agree (saved_state 49195) (set_isClient false (saved_state 49195)) [x05] [] 60
    (mkSuite 49195 ECDSASign SHA256_ AuthCertificate kx_Ecdhe true) None None _ _ _ _ _ _ _ _ _)); try reflexivity; discriminate.
Defined.
