(* ===== verification/PeerIce.v ===== *)
(** * The setup of a peer connection: settings, STUN servers, discovery

    The part of [golib/webrtc/peer.go] before the session description: the
    jittered settings that are passed to pion, the resolution of the STUN
    servers and of the fallback servers, the discovery of the public address
    on the raw socket, the registration with the relay and the diagnostic
    wrapper of the socket.  The name server, the socket and the random source
    are parameters; the STUN codec is the interface of [Nat.v]. *)

From S2P Require Import Prelude IO GoStr Sdp Peer Nat SignalServer.
From Stdlib Require Import QArith Qround Lqa.

Import Sdp Peer SignalServer.

Open Scope Z_scope.

Module PeerIce.

(** ** Settings *)

(** [time.Duration(f)]: the fraction is dropped. *)
Definition truncQ (q : Q) : Z := Z.quot (Qnum q) (Zpos (Qden q)).

(** [r] is [rand.Float64()], a number of [0,1); float64 is modelled by the
    rationals. *)
Definition jitter (base : Z) (pct r : Q) : Z := base + truncQ (inject_Z base * pct * (2 * r - 1))%Q.

Record SettingEngine := mkSettings {
  se_SkipHelloVerify : bool; se_ZeroChecksum : bool; se_mDNS : bool; se_MaxBindingRequests : Z;
  se_SCTPMaxReceiveBufferSize : Z; se_Disconnected : Z; se_Failed : Z; se_KeepAlive : Z;
  se_DTLSRetransmission : Z; se_DisableCloseByDTLS : bool; se_SCTPRTOMax : Z; se_STUNGather : Z }.

Definition ms (n : Z) : Z := n * 10 ^ 6.

(** The settings of a configuration after [applyPeerDefaults], whose three
    flags are then set, with the random numbers in the order of the calls.
    [None] is the dereference of a flag that is not set. *)
Definition settings (c : PeerConfig) (r : nat -> Q) : option SettingEngine :=
  let c := applyPeerDefaults c in
  skip ← DTLSSkipVerify c;
  zero ← SCTPZeroChecksum c;
  noclose ← DisableCloseByDTLS c;
  Some (mkSettings skip zero false 16 (u32 (u32 (SCTPRecvBuffer c) * 1024))
    (jitter (ms (ICEDisconnTimeout c)) (15 # 100) (r 0%nat)) (jitter (ms (ICEFailedTimeout c)) (15 # 100) (r 1%nat))
    (jitter (ms (ICEKeepalive c)) (20 # 100) (r 2%nat)) (jitter (ms (DTLSRetransmit c)) (10 # 100) (r 3%nat))
    noclose (jitter (ms (SCTPRTOMax c)) (15 # 100) (r 4%nat)) (jitter (ms 1000) (15 # 100) (r 5%nat))).

(** The filters of the client: no tunnel interfaces, no addresses of the
    tunnel's network. *)
Definition interface_filter (iface : string) : bool := negb (HasPrefix iface "tun") && negb (HasPrefix iface "vpn").
Definition ip_filter (ip : list Z) : bool := negb (net_contains ([10; 0; 0; 0], 24) ip).

(** ** STUN servers *)

Definition defaultICEServers : list string := ["stun:stun.l.google.com:19302"; "stun:stun1.l.google.com:19302"]%string.

Definition CutPrefix (s p : string) : option string :=
  if HasPrefix s p then Some (sdrop (String.length p) s) else None.

Definition is_v4 (ip : string) : bool := match ParseIP ip with Some p => bool_decide (is_Some (To4 p)) | None => false end.

(** The first IPv4 address, or the first address. *)
Definition choose_ip (ips : list string) : option string :=
  match ips with
  | [] => None
  | ip :: _ => Some (default ip (List.find is_v4 ips))
  end.

(** [lookup i host] is what the [i]-th call of [LookupHost] returns; a call
    after the ten seconds of the context returns an error. *)
Definition resolve_server (lookup : string -> res string (list string)) (s : string) : string :=
  match CutPrefix s "stun:" with
  | None => s
  | Some addr =>
      match SplitHostPort addr with
      | None => s
      | Some (host, port) =>
          if bool_decide (is_Some (ParseIP host)) then s
          else match lookup host with
               | Err _ => s
               | Ok ips => match choose_ip ips with
                           | None => s
                           | Some ip => ("stun:" +:+ JoinHostPort ip port)%string
                           end
               end
      end
  end.

Definition resolveICEServers (lookup : nat -> string -> res string (list string)) (iceServers : list string) : list string :=
  imap (fun i => resolve_server (lookup i)) iceServers.

(** The two name servers that the protected resolver tries over TCP:
    [dial_tcp dns] is the descriptor and the outcome of the connection, which
    is given up when the socket cannot be protected. *)
Definition protectedDNS : list string := ["8.8.8.8:53"; "1.1.1.1:53"]%string.

Fixpoint protected_dial {C} (protectFn : Z -> bool) (dial_tcp : string -> Z * option C) (dns : list string) : res string C :=
  match dns with
  | [] => Err "all protected DNS servers unreachable"%string
  | d :: dns =>
      let '(fd, conn) := dial_tcp d in
      match (if protectFn fd then conn else None) with
      | Some c => Ok c
      | None => protected_dial protectFn dial_tcp dns
      end
  end.

(** [seen] is the map of the addresses already taken. *)
Fixpoint extract_loop (seen : gset string) (iceServers : list string) : list string :=
  match iceServers with
  | [] => []
  | s :: l =>
      match CutPrefix s "stun:" with
      | Some addr => if decide (addr ∈ seen) then extract_loop seen l else addr :: extract_loop ({[addr]} ∪ seen) l
      | None => extract_loop seen l
      end
  end.

Definition extractAllSTUNAddrs (iceServers : list string) : list string := extract_loop ∅ iceServers.

Definition fallbackSTUNServers : list string :=
  ["stun.cloudflare.com:3478"; "stun.nextcloud.com:443"; "stun.sipnet.ru:3478"]%string.

(** What the goroutine of a fallback server sends on the channel, if anything. *)
Definition fallback_one (lookup : string -> res string (list string)) (server : string) : option string :=
  '(host, port) ← SplitHostPort server;
  if bool_decide (is_Some (ParseIP host)) then Some server
  else match lookup host with
       | Err _ => None
       | Ok ips => ip ← choose_ip ips; Some (JoinHostPort ip port)
       end.

(** The collecting loop: the addresses in the order of their arrival before
    the timer, and whether the loop ended with the timer. *)
Fixpoint collect_fallback (want : nat) (arrived : list string) : list string * bool :=
  match want, arrived with
  | O, _ => ([], false)
  | S _, [] => ([], true)
  | S want, a :: arrived => let '(l, t) := collect_fallback want arrived in (a :: l, t)
  end.

(** [order] is the order in which the goroutines get to the channel before
    the timer fires. *)
Definition resolveFallbackSTUN (lookup : string -> res string (list string)) (order : list nat) : list string * bool :=
  collect_fallback (length fallbackSTUNServers) (omap (fun i => s ← fallbackSTUNServers !! i; fallback_one lookup s) order).

(** The loop that adds the fallback servers that are not yet in the list. *)
Fixpoint add_fallback (stunAddrs fallbackResolved : list string) : list string :=
  match fallbackResolved with
  | [] => stunAddrs
  | fb :: l => add_fallback (if decide (fb ∈ stunAddrs) then stunAddrs else stunAddrs ++ [fb]) l
  end.

(** ** Discovery *)

Section discovery.
Context `{StunCodec}.

Record stunResult := mkStun { sr_IP : string; sr_Port : Z }.

(** What happens at the socket and at the list of requests, in order: a
    goroutine has sent its request and adds it to the list, or a datagram is
    read.  The end of the list is the read deadline, or another error of the
    socket. *)
Inductive ice_event := Probe (tx : TxID) (server : string) | Datagram (d : bytes).

Definition find_txn (tx : TxID) (txns : list (TxID * string)) : string :=
  match List.find (fun p => bool_decide (p.1 = tx)) txns with Some p => p.2 | None => EmptyString end.

(** The result that a datagram gives, with the requests listed so far. *)
Definition stun_answer (txns : list (TxID * string)) (d : bytes) : option stunResult :=
  resp ← stun_Decode (take stunBufSize d);
  if bool_decide (find_txn (TransactionID resp) txns = EmptyString) then None
  else '(ip, port) ← XORMappedAddress_GetFrom resp; Some (mkStun (IP_String ip) port).

Fixpoint discover_loop (readErr : string) (txns : list (TxID * string)) (evs : list ice_event) : res string stunResult :=
  match evs with
  | [] => Err ("STUN recv (sent to " +:+ itoa (Z.of_nat (length txns)) +:+ " servers): " +:+ readErr)%string
  | Probe tx s :: evs => discover_loop readErr (txns ++ [(tx, s)]) evs
  | Datagram d :: evs =>
      match stun_answer txns d with
      | Some r => Ok r
      | None => discover_loop readErr txns evs
      end
  end.

(** [deadline] is the error of [SetReadDeadline]. *)
Definition discoverReflexiveAddrMulti (deadline : option string) (readErr : string) (stunServers : list string) (evs : list ice_event)
    : res string stunResult :=
  if bool_decide (stunServers = []) then Err "no STUN servers configured"%string
  else match deadline with
       | Some m => Err ("set deadline: " +:+ m)%string
       | None => discover_loop readErr [] evs
       end.

(** The part of [newPeerConnection] that finds the public address: [net] is
    what the network does after requests to the given servers. *)
Definition discover_public (lookup : nat -> string -> res string (list string)) (fb_lookup : string -> res string (list string))
    (order : list nat) (deadline : option string) (readErr : string) (net : list string -> list ice_event) (iceServers : list string)
    : res string stunResult :=
  let iceServers := if bool_decide (iceServers = []) then defaultICEServers else iceServers in
  let resolved := resolveICEServers lookup iceServers in
  let stunAddrs := add_fallback (extractAllSTUNAddrs resolved) (resolveFallbackSTUN fb_lookup order).1 in
  discoverReflexiveAddrMulti deadline readErr stunAddrs (net stunAddrs).

End discovery.

(** ** Relay registration and diagnostics *)

(** The packets that [registerRelay] writes: three times the same one, whether
    or not a write fails; [hash] is the first half of the SHA-256 of the
    session identifier. *)
Definition registerRelay {A} (resolve : string -> option A) (relayAddr : string) (hash : bytes) (isServer : bool) : list (bytes * A) :=
  match resolve relayAddr with
  | None => []
  | Some addr => replicate 3 (registration hash isServer, addr)
  end.

Definition roleLabel (isServer : bool) : string := if isServer then "server" else "client".

Record diagPacketConn := mkDiag { label : string; rawRecv : Z; rawSent : Z }.

(** A read or write of the wrapped socket; the lines of the log are the
    number of the packet, its size and, for reads, its first bytes. *)
Definition diag_ReadFrom (p : bytes) (d : diagPacketConn) : list (Z * Z * bytes) * diagPacketConn :=
  let count := u64 (rawRecv d + 1) in
  (if count <=? 10 then [(count, Z.of_nat (length p), take (min 4 (length p)) p)] else [], mkDiag (label d) count (rawSent d)).

Definition diag_WriteTo (p : bytes) (d : diagPacketConn) : list (Z * Z) * diagPacketConn :=
  let count := u64 (rawSent d + 1) in
  (if count <=? 10 then [(count, Z.of_nat (length p))] else [], mkDiag (label d) (rawRecv d) count).

(** ** Jitter and settings *)

Lemma truncQ_range q : (0 <= q -> 0 <= inject_Z (truncQ q) <= q)%Q /\ (q <= 0 -> q <= inject_Z (truncQ q) <= 0)%Q.
Proof.
  destruct q as [n d]. unfold truncQ, Qle, inject_Z. cbn. split; intros Hn.
  - pose proof (Z.quot_pos n (Zpos d)). pose proof (Z.mul_quot_le n (Zpos d)). nia.
  - pose proof (Z.quot_opp_l n (Zpos d)). pose proof (Z.quot_pos (- n) (Zpos d)). pose proof (Z.mul_quot_le (- n) (Zpos d)). nia.
Qed.

(** A jittered duration differs from its base by at most the given part. *)
Lemma jitter_range base pct r : 0 <= base -> (0 <= pct -> 0 <= r -> r < 1 ->
  inject_Z base * (1 - pct) <= inject_Z (jitter base pct r) <= inject_Z base * (1 + pct))%Q.
Proof.
  intros Hb Hp Hr0 Hr1. unfold jitter. rewrite inject_Z_plus.
  assert (HB : (0 <= inject_Z base)%Q) by (change 0%Q with (inject_Z 0); rewrite <- Zle_Qle; done).
  assert (Hbp : (0 <= inject_Z base * pct)%Q) by (by apply Qmult_le_0_compat).
  set (x := (inject_Z base * pct)%Q) in *. set (q := (x * (2 * r - 1))%Q).
  assert (Hq : (- x <= q <= x)%Q) by (unfold q; split; nra).
  destruct (truncQ_range q) as [Hpos Hneg].
  assert (He : forall y z : Q, (inject_Z base * (1 + y) == inject_Z base + inject_Z base * y)%Q) by (intros; ring).
  assert (E1 : (inject_Z base * (1 - pct) == inject_Z base - x)%Q) by (unfold x; ring).
  assert (E2 : (inject_Z base * (1 + pct) == inject_Z base + x)%Q) by (unfold x; ring).
  rewrite E1, E2. destruct (Qlt_le_dec q 0) as [Hl|Hl].
  - specialize (Hneg (Qlt_le_weak _ _ Hl)). lra.
  - specialize (Hpos Hl). lra.
Qed.

Definition random (r : nat -> Q) : Prop := forall i, (0 <= r i < 1)%Q.

Lemma jitter_Z base pct r lo hi : 0 <= base -> (0 <= pct)%Q -> (0 <= r < 1)%Q ->
  (inject_Z lo <= inject_Z base * (1 - pct))%Q -> (inject_Z base * (1 + pct) <= inject_Z hi)%Q -> lo <= jitter base pct r <= hi.
Proof.
  intros Hb Hp [Hr0 Hr1] Hlo Hhi. destruct (jitter_range base pct r Hb Hp Hr0 Hr1) as [Hl Hh].
  split; rewrite Zle_Qle; lra.
Qed.

(** A configuration that leaves the times to their defaults. *)
Definition default_times (c : PeerConfig) : Prop :=
  ICEDisconnTimeout c = 0 /\ ICEFailedTimeout c = 0 /\ ICEKeepalive c = 0 /\ DTLSRetransmit c = 0 /\ SCTPRTOMax c = 0.

(** The settings can always be made, and whatever the random numbers, the
    default times keep their order: several keep-alives fit before an agent is
    disconnected, which comes before it has failed. *)
Lemma default_times_ordered c r : random r -> default_times c ->
  exists se, settings c r = Some se /\ 0 < se_KeepAlive se /\ 5 * se_KeepAlive se < se_Disconnected se < se_Failed se /\
    ms 90 <= se_DTLSRetransmission se <= ms 110 /\ 10 * se_DTLSRetransmission se < se_SCTPRTOMax se /\
    se_STUNGather se <= ms 1150.
Proof.
  intros Hr (H1 & H2 & H3 & H4 & H5).
  assert (J1 : ms 12750 <= jitter (ms 15000) (15 # 100) (r 0%nat) <= ms 17250) by (by apply jitter_Z).
  assert (J2 : ms 21250 <= jitter (ms 25000) (15 # 100) (r 1%nat) <= ms 28750) by (by apply jitter_Z).
  assert (J3 : ms 1600 <= jitter (ms 2000) (20 # 100) (r 2%nat) <= ms 2400) by (by apply jitter_Z).
  assert (J4 : ms 90 <= jitter (ms 100) (10 # 100) (r 3%nat) <= ms 110) by (by apply jitter_Z).
  assert (J5 : ms 2125 <= jitter (ms 2500) (15 # 100) (r 4%nat) <= ms 2875) by (by apply jitter_Z).
  assert (J6 : ms 850 <= jitter (ms 1000) (15 # 100) (r 5%nat) <= ms 1150) by (by apply jitter_Z).
  unfold settings, applyPeerDefaults. rewrite H1, H2, H3, H4, H5. cbn [DTLSSkipVerify SCTPZeroChecksum DisableCloseByDTLS].
  destruct (DTLSSkipVerify c), (SCTPZeroChecksum c), (DisableCloseByDTLS c); cbn [or_true mbind option_bind];
    (eexists; split; [reflexivity|]); cbn [se_KeepAlive se_Disconnected se_Failed se_DTLSRetransmission se_SCTPRTOMax se_STUNGather
      ICEDisconnTimeout ICEFailedTimeout ICEKeepalive DTLSRetransmit SCTPRTOMax or_default Z.eqb]; unfold ms in *; lia.
Qed.

(** ** Servers *)

Lemma choose_ip_spec ips : match choose_ip ips with
  | None => ips = []
  | Some ip => ip ∈ ips /\ (is_v4 ip = true \/ Forall (fun x => is_v4 x = false) ips)
  end.
Proof.
  destruct ips as [|ip ips]; [done|]. unfold choose_ip. destruct (List.find is_v4 (ip :: ips)) as [x|] eqn:Hf; cbn [default].
  - apply List.find_some in Hf as [Hin Hv]. split; [by apply list_elem_of_In|by left].
  - split; [constructor|]. right. apply Forall_forall. intros x Hx. by apply (List.find_none _ _ Hf), list_elem_of_In.
Qed.

(** Every setting stays at its place, and is only replaced by an address that
    the name server gave for its host, an IPv4 address if there is one, with
    the same port. *)
Lemma resolved_servers lookup l i s : resolveICEServers lookup l !! i = Some s ->
  l !! i = Some s \/
  exists host port ips ip, l !! i = Some ("stun:" +:+ host)%string /\ (exists h, SplitHostPort host = Some (h, port) /\ lookup i h = Ok ips) /\
    s = ("stun:" +:+ JoinHostPort ip port)%string /\ ip ∈ ips /\ (is_v4 ip = true \/ Forall (fun x => is_v4 x = false) ips).
Proof.
  unfold resolveICEServers. rewrite list_lookup_imap. intros Hs. apply fmap_Some in Hs as (s0 & Hl & ->). rewrite Hl. unfold resolve_server, CutPrefix.
  destruct (HasPrefix s0 "stun:") eqn:Hp; [|by left]. destruct (SplitHostPort _) as [[h port]|] eqn:Hsp; [|by left].
  case_bool_decide; [by left|]. destruct (lookup i h) as [ips|] eqn:Hlk; [|by left].
  pose proof (choose_ip_spec ips) as Hc. destruct (choose_ip ips) as [ip|]; [|by left]. destruct Hc as [Hin Hv].
  right. exists (sdrop 5 s0), port, ips, ip. split; [|split; [by exists h|done]].
  apply HasPrefix_spec in Hp as (u & ->). done.
Qed.

Lemma extract_loop_spec seen l : NoDup (extract_loop seen l) /\
  forall a, a ∈ extract_loop seen l <-> (a ∉ seen) /\ (exists s, s ∈ l /\ CutPrefix s "stun:" = Some a).
Proof.
  revert seen. induction l as [|s l IH]; intros seen; [cbn; split; [constructor|]; intros a; rewrite elem_of_nil; naive_solver set_solver|].
  cbn [extract_loop]. setoid_rewrite elem_of_cons. destruct (CutPrefix s "stun:") as [addr|] eqn:Hc.
  - case_decide as Hd; [destruct (IH seen) as [Hn Hi]|destruct (IH ({[addr]} ∪ seen)) as [Hn Hi]].
    + split; [done|]. intros a. rewrite Hi. split; intros [Ha (s' & Hs & He)]; (split; [done|]); exists s'; [auto|].
      destruct Hs as [->|Hs]; [|done]. congruence.
    + split; [constructor; [rewrite Hi; set_solver|done]|]. intros a. rewrite elem_of_cons, Hi. split.
      * intros [->|[Ha (s' & Hs & He)]]; [split; [done|]; exists s; auto|]. split; [set_solver|]. exists s'. auto.
      * intros [Ha (s' & [->|Hs] & He)]; [left; congruence|]. destruct (decide (a = addr)) as [|Hne]; [by left|]. right. split; [set_solver|]. by exists s'.
  - destruct (IH seen) as [Hn Hi]. split; [done|]. intros a. rewrite Hi. split; intros [Ha (s' & Hs & He)]; (split; [done|]); exists s'; [auto|].
    destruct Hs as [->|Hs]; [congruence|done].
Qed.

Lemma add_fallback_spec l fbs : NoDup l -> NoDup (add_fallback l fbs) /\ forall a, a ∈ add_fallback l fbs <-> a ∈ l \/ a ∈ fbs.
Proof.
  revert l. induction fbs as [|fb fbs IH]; intros l Hl; [split; [done|]; intros a; cbn; rewrite elem_of_nil; tauto|]. cbn [add_fallback].
  setoid_rewrite elem_of_cons. case_decide as Hd.
  - destruct (IH l Hl) as [Hn Hi]. split; [done|]. intros a. rewrite Hi. split; [tauto|]. intros [|[->|]]; auto.
  - destruct (IH (l ++ [fb])) as [Hn Hi]; [apply NoDup_app; split; [done|]; split; [|apply NoDup_singleton]; intros x Hx; rewrite list_elem_of_singleton; congruence|].
    split; [done|]. intros a. rewrite Hi, elem_of_app, list_elem_of_singleton. tauto.
Qed.

(** No server is asked twice, and every configured and every fallback server
    that could be resolved is asked. *)
Lemma servers_asked l fbs : NoDup (add_fallback (extractAllSTUNAddrs l) fbs) /\
  forall a, a ∈ add_fallback (extractAllSTUNAddrs l) fbs <-> (exists s, s ∈ l /\ CutPrefix s "stun:" = Some a) \/ a ∈ fbs.
Proof.
  destruct (extract_loop_spec ∅ l) as [Hn Hi]. destruct (add_fallback_spec (extractAllSTUNAddrs l) fbs Hn) as [Hn' Hi'].
  split; [done|]. intros a. rewrite Hi'. unfold extractAllSTUNAddrs. rewrite Hi. set_solver.
Qed.

(** The fallback servers are awaited for the whole two seconds as soon as one
    of them gives no address. *)
Lemma collect_fallback_spec want arrived : collect_fallback want arrived = (take want arrived, bool_decide (length arrived < want)%nat).
Proof.
  revert arrived. induction want as [|want IH]; intros arrived; cbn [collect_fallback]; [by case_bool_decide; [lia|]|].
  destruct arrived as [|a arrived]; [by rewrite bool_decide_eq_true_2 by (cbn; lia)|]. rewrite IH. cbn [take length]. f_equal.
  apply bool_decide_ext. lia.
Qed.

Lemma one_failure_waits lookup order i s : NoDup order -> fallbackSTUNServers !! i = Some s -> fallback_one lookup s = None ->
  (resolveFallbackSTUN lookup order).2 = true.
Proof.
  intros Hn Hs Hf. unfold resolveFallbackSTUN. rewrite collect_fallback_spec. cbn [snd]. apply bool_decide_eq_true.
  set (f := fun j => s ← fallbackSTUNServers !! j; fallback_one lookup s).
  assert (Hle : forall l, (length (omap f l) <= length l)%nat).
  { clear. induction l as [|j l IH]; [done|]. cbn [omap list_omap]. change (list_omap nat string f l) with (omap f l).
    destruct (f j); cbn [length]; lia. }
  assert (Hsub : length (omap f order) = length (omap f (filter (fun j => is_Some (f j)) order))).
  { clear. induction order as [|j l IH]; [done|]. rewrite filter_cons. cbn [omap list_omap]. destruct (f j) as [x|] eqn:E.
    - rewrite decide_True by done. cbn [omap list_omap]. rewrite E. cbn [length]. f_equal. apply IH.
    - rewrite decide_False by (intros [? ?]; done). apply IH. }
  rewrite Hsub. set (l := filter (fun j => is_Some (f j)) order).
  assert (Hl : NoDup l) by (by apply NoDup_filter). specialize (Hle l).
  assert (Hin : l ⊆ filter (fun j => j <> i) (seq 0 3)).
  { intros j Hj. apply list_elem_of_filter in Hj as [[x Hx] _]. apply list_elem_of_filter. split.
    - intros ->. unfold f in Hx. rewrite Hs in Hx. cbn in Hx. congruence.
    - apply elem_of_seq. unfold f in Hx. apply bind_Some in Hx as (y & Hy & _). apply lookup_lt_Some in Hy. cbn in Hy. lia. }
  assert (Hlen : (length l <= 2)%nat).
  { etrans; [apply submseteq_length, NoDup_submseteq; [done|apply Hin]|]. apply lookup_lt_Some in Hs.
    change (length fallbackSTUNServers) with 3%nat in Hs. destruct i as [|[|[|i]]]; [apply Nat.leb_le; vm_compute; reflexivity..|lia]. }
  change (length fallbackSTUNServers) with 3%nat. lia.
Qed.

(** ** Discovery *)

Section discovery_facts.
Context `{StunCodec}.

(** The requests that are listed after some events. *)
Definition probes (evs : list ice_event) : list (TxID * string) := omap (fun e => match e with Probe tx s => Some (tx, s) | _ => None end) evs.

(** Discovery ends, with the address of the first datagram that answers a
    request that was listed before it, and with an error exactly when no
    datagram does. *)
Lemma discover_exact readErr evs r :
  discover_loop readErr [] evs = Ok r <->
  exists pre d post, evs = pre ++ Datagram d :: post /\ stun_answer (probes pre) d = Some r /\
    forall pre' d' post', pre = pre' ++ Datagram d' :: post' -> stun_answer (probes pre') d' = None.
Proof.
  change (@nil (TxID * string)) with ([] ++ probes []).
  enough (Hg : forall txns, discover_loop readErr txns evs = Ok r <->
    exists pre d post, evs = pre ++ Datagram d :: post /\ stun_answer (txns ++ probes pre) d = Some r /\
      forall pre' d' post', pre = pre' ++ Datagram d' :: post' -> stun_answer (txns ++ probes pre') d' = None) by apply (Hg []).
  induction evs as [|e evs IH]; intros txns; [cbn; split; [done|]; by intros ([|??] & ? & ? & ? & _)|]. destruct e as [tx s|d]; cbn [discover_loop].
  - rewrite IH. split.
    + intros (pre & d & post & -> & Ha & Hb). exists (Probe tx s :: pre), d, post. split; [done|]. rewrite <- app_assoc in Ha. split; [done|].
      intros [|e pre'] d' post' He; [done|]. injection He as <- He. specialize (Hb _ _ _ He). by rewrite <- app_assoc in Hb.
    + intros ([|e pre] & d & post & He & Ha & Hb); [done|]. injection He as <- ->. exists pre, d, post. split; [done|]. rewrite <- app_assoc. split; [done|].
      intros pre' d' post' ->. rewrite <- app_assoc. by apply (Hb (Probe tx s :: pre') d' post').
  - destruct (stun_answer txns d) as [r0|] eqn:Hd.
    + split.
      * intros [= <-]. exists [], d, evs. rewrite app_nil_r. split; [done|]. split; [done|]. by intros [|??] ??.
      * intros ([|e pre] & d1 & post & He & Ha & Hb); [injection He as -> ->; rewrite app_nil_r in Ha; congruence|].
        injection He as <- ->. specialize (Hb [] d pre eq_refl). rewrite app_nil_r in Hb. congruence.
    + rewrite IH. split.
      * intros (pre & d1 & post & -> & Ha & Hb). exists (Datagram d :: pre), d1, post. split; [done|]. split; [done|].
        intros [|e pre'] d' post' He; [injection He as <- <-; by rewrite app_nil_r|]. injection He as <- He. by apply (Hb _ _ _ He).
      * intros ([|e pre] & d1 & post & He & Ha & Hb); [injection He as -> ->; rewrite app_nil_r in Ha; congruence|].
        injection He as <- ->. exists pre, d1, post. split; [done|]. split; [done|]. intros pre' d' post' ->. by apply (Hb (Datagram d :: pre') d' post').
Qed.

(** Any sender that knows an identifier answers for the server: the source of
    a datagram is not looked at, only the identifier. *)
Lemma answer_by_identifier txns d resp s ip port :
  stun_Decode (take stunBufSize d) = Some resp -> find_txn (TransactionID resp) txns = s -> s <> EmptyString ->
  XORMappedAddress_GetFrom resp = Some (ip, port) -> stun_answer txns d = Some (mkStun (IP_String ip) port).
Proof. intros Hd Hs Hne Hx. unfold stun_answer. rewrite Hd. cbn. rewrite Hs, bool_decide_eq_false_2 by done. by rewrite Hx. Qed.

End discovery_facts.

(** ** The protected resolver *)

Lemma protected_dial_protected {C} (protectFn : Z -> bool) (dial_tcp : string -> Z * option C) dns c :
  protected_dial protectFn dial_tcp dns = Ok c -> exists d, d ∈ dns /\ (dial_tcp d).2 = Some c /\ protectFn (dial_tcp d).1 = true.
Proof.
  induction dns as [|d dns IH]; [done|]. cbn [protected_dial]. destruct (dial_tcp d) as [fd conn] eqn:Hd. destruct (protectFn fd) eqn:Hp.
  - destruct conn as [c'|]; [intros [= ->]; exists d; rewrite Hd; repeat constructor; done|]. intros Hc. destruct (IH Hc) as (d' & Hin & Hx). exists d'. split; [by constructor|done].
  - intros Hc. destruct (IH Hc) as (d' & Hin & Hx). exists d'. split; [by constructor|done].
Qed.

(** ** The diagnostic wrapper logs the first ten packets of a direction *)

Fixpoint diag_reads (ps : list bytes) (d : diagPacketConn) : list (Z * Z * bytes) :=
  match ps with [] => [] | p :: ps => let '(l, d) := diag_ReadFrom p d in l ++ diag_reads ps d end.

Lemma diag_log_bounded ps d : 0 <= rawRecv d -> rawRecv d + Z.of_nat (length ps) < 2 ^ 64 ->
  Z.of_nat (length (diag_reads ps d)) = Z.min (Z.of_nat (length ps)) (Z.max 0 (10 - rawRecv d)).
Proof.
  revert d. induction ps as [|p ps IH]; intros d H0 H1; [cbn; lia|]. cbn [diag_reads length] in *. unfold diag_ReadFrom.
  assert (Hu : u64 (rawRecv d + 1) = rawRecv d + 1) by (apply Z.mod_small; lia). rewrite Hu, length_app.
  specialize (IH (mkDiag (label d) (rawRecv d + 1) (rawSent d))). cbn [rawRecv] in IH. rewrite Nat2Z.inj_add, IH by lia.
  destruct (Z.leb_spec (rawRecv d + 1) 10); cbn [length]; lia.
Qed.

End PeerIce.
