(* ===== verification/Relay.v ===== *)
(** * Two-way relays and the life of the tunnel

    [handleTCP] of [golib/tunnel/tun.go] and [relay] of
    [golib/webrtc/socks5.go] copy bytes both ways between two connections.
    A relay is a machine whose steps are those of its two copying goroutines
    and of the network; the theorems hold for every interleaving.  The end of
    the file is the life of the tunnel itself: [StartTunnelWithOptions],
    [Stop] and [SwapDialStream], with what is acquired and released on every
    path.  The TUN device, the network stack and the dialers are parameters. *)

From S2P Require Import Prelude IO GoStr DnsCache Tunnel.

Open Scope Z_scope.

Module Relay.

(** ** One relay *)

(** A connection as the relay sees it: everything that has arrived ([arrived],
    for the statements), what of it has not been read, whether its peer has
    ended its direction, whether this side has closed it or ended its own
    direction, and what was written to it. *)
Record side := mkSide { arrived : bytes; inq : bytes; eof : bool; closed : bool; wclosed : bool; outd : bytes }.

Definition newSide : side := mkSide [] [] false false false [].

Definition side_data (d : bytes) (s : side) : side :=
  if eof s then s else mkSide (arrived s ++ d) (inq s ++ d) (eof s) (closed s) (wclosed s) (outd s).
Definition side_eof (s : side) : side := mkSide (arrived s) (inq s) true (closed s) (wclosed s) (outd s).
Definition side_close (s : side) : side := mkSide (arrived s) (inq s) (eof s) true (wclosed s) (outd s).
(** [CloseWrite]. *)
Definition side_half (s : side) : side := mkSide (arrived s) (inq s) (eof s) (closed s) true (outd s).
Definition side_read (n : nat) (s : side) : side := mkSide (arrived s) (drop n (inq s)) (eof s) (closed s) (wclosed s) (outd s).
Definition side_write (d : bytes) (s : side) : side := mkSide (arrived s) (inq s) (eof s) (closed s) (wclosed s) (outd s ++ d).

(** One turn of [io.CopyBuffer] from [x] to [y] with a read of at most [S n]
    bytes: blocked ([None]), or the new sides and whether the copy ends.  What
    was read when a write fails is lost. *)
Definition copy_turn (n : nat) (x y : side) : option (side * side * bool) :=
  if closed x then Some (x, y, true)
  else if bool_decide (inq x = []) then if eof x then Some (x, y, true) else None
  else let d := take (S n) (inq x) in
       if closed y then Some (side_read (S n) x, y, true) else Some (side_read (S n) x, side_write d y, false).

(** The state of a relay between [a] and [b]: [up] copies from [a] to [b].
    The counters are those of [handleTCP]; [killed] records that a connection
    was closed from outside the relay. *)
Record relay_st := mkRelay {
  sa : side; sb : side; up_done : bool; down_done : bool; bytesUp : Z; bytesDown : Z; returned : bool; killed : bool }.

Definition initRelay : relay_st := mkRelay newSide newSide false false 0 0 false false.

Inductive event := AData (d : bytes) | AEof | BData (d : bytes) | BEof | CloseA | CloseB.
Inductive action := Env (e : event) | CopyUp (n : nat) | CopyDown (n : nat) | Return.

Definition on_env (e : event) (r : relay_st) : relay_st :=
  let '(a, b, k) := match e with
    | AData d => (side_data d (sa r), sb r, killed r)
    | AEof => (side_eof (sa r), sb r, killed r)
    | BData d => (sa r, side_data d (sb r), killed r)
    | BEof => (sa r, side_eof (sb r), killed r)
    | CloseA => (side_close (sa r), sb r, true)
    | CloseB => (sa r, side_close (sb r), true)
    end in
  mkRelay a b (up_done r) (down_done r) (bytesUp r) (bytesDown r) (returned r) k.

Section relay.
(** Whether the end of a copy ends the direction of the other connection: it
    has [CloseWrite] and the code calls it. *)
Context (halfA halfB : bool).

Definition end_half (half ended : bool) (y : side) : side := if half && ended then side_half y else y.

Definition step (a : action) (r : relay_st) : option relay_st :=
  match a with
  | Env e => Some (on_env e r)
  | CopyUp n =>
      if up_done r then None
      else '(x, y, e) ← copy_turn n (sa r) (sb r);
           Some (mkRelay x (end_half halfB e y) e (down_done r) (if e : bool then bytesUp r + Z.of_nat (length (outd y)) else bytesUp r)
                   (bytesDown r) (returned r) (killed r))
  | CopyDown n =>
      if down_done r then None
      else '(x, y, e) ← copy_turn n (sb r) (sa r);
           Some (mkRelay (end_half halfA e y) x (up_done r) e (bytesUp r)
                   (if e : bool then bytesDown r + Z.of_nat (length (outd y)) else bytesDown r) (returned r) (killed r))
  | Return =>
      if up_done r && down_done r && negb (returned r) then
        Some (mkRelay (side_close (sa r)) (side_close (sb r)) true true (bytesUp r) (bytesDown r) true (killed r))
      else None
  end.

Definition run (l : list action) (r : relay_st) : relay_st := foldl (fun r a => default r (step a r)) r l.

Definition internal (a : action) : bool := match a with Env _ => false | _ => true end.

(** No goroutine of the relay can move. *)
Definition settled (r : relay_st) : bool :=
  bool_decide (step (CopyUp 0) r = None) && bool_decide (step (CopyDown 0) r = None) && bool_decide (step Return r = None).

End relay.

(** ** The users of a relay *)

(** [handleTCP] dials the stream of the current dialer, or through SOCKS5. *)
Definition tcp_dial (E : Tunnel.env) (dstAddr : string) : res goerr Tunnel.conn :=
  match Tunnel.dialStream E with
  | Some ds => ds dstAddr
  | None => match Tunnel.socksDialer E with
            | Err e => Err e
            | Ok d => d dstAddr
            end
  end.

(** [None]: the dial failed and the connection of the application is closed at
    once.  Otherwise the relay runs; the connection of the application is never
    half-closed, the stream is when its type has [CloseWrite]. *)
Definition handleTCP (E : Tunnel.env) (streamCloseWrite : bool) (dstAddr : string) (l : list action) : option relay_st :=
  match tcp_dial E dstAddr with
  | Err _ => None
  | Ok _ => Some (run false streamCloseWrite l initRelay)
  end.

(** The goroutine that waits for the end of the tunnel. *)
Definition watch_done : list action := [Env CloseA; Env CloseB].

(** [relay] of the server and of the SOCKS5 front end; the time-outs of the
    two [activityConn] are the events [CloseA] and [CloseB]. *)
Definition relay (aCloseWrite bCloseWrite : bool) (l : list action) : relay_st := run aCloseWrite bCloseWrite l initRelay.

(** What [handleStream] does with a stream after it has read the target: the
    stream is drained and closed, unless it was relayed.  The stream is behind a
    [countingRWC], which has no [CloseWrite]; neither has a [throttledConn]. *)
Inductive stream_outcome := StreamDNS | StreamDialFailed | StreamRelayed (r : relay_st).

Definition DNSChannelTarget : string := "__dns__".

Definition handleStream (dial : string -> res goerr unit) (rateLimitUp rateLimitDown : Z) (target : string) (l : list action) : stream_outcome :=
  if bool_decide (target = DNSChannelTarget) then StreamDNS
  else match dial target with
       | Err _ => StreamDialFailed
       | Ok _ => StreamRelayed (relay false (negb ((0 <? rateLimitUp) || (0 <? rateLimitDown))) l)
       end.

(** [serveSocks5]: the connections that are handled, until [Accept] fails. *)
Fixpoint serveSocks5 {C} (accepted : list (res goerr C)) : list C :=
  match accepted with
  | Ok c :: l => c :: serveSocks5 l
  | _ => []
  end.

(** ** The tunnel *)

(** What is acquired and released.  The device takes over the duplicated
    descriptor. *)
Inductive tun_event := FdDup | FdClose | DevOpen | DevClose | CtxNew | CtxCancel | StackClose | PoolClose.

(** Where the channels of a DNS pool are dialed: the number of the dialer, or
    the target behind SOCKS5. *)
Inductive pool := PoolStream (dialer : nat) | PoolSocks (target : string).

Record TunnelOptions := mkTunnelOptions { DNS2Addr : string; AllowDirectDNS : bool; DialStream : option nat }.

Record Tunnel := mkTun {
  t_stack : string; t_done : bool; t_stopped : bool; t_stopErr : res goerr unit; t_socksAddr : string; t_dnsAddr : string;
  t_dns2Addr : string; t_allowDirectDNS : bool; t_dnsPool : option pool; t_dialStream : option nat }.

(** The outcomes of the calls of [StartTunnelWithOptions], in their order. *)
Record tun_env := mkTunEnv {
  te_dup : res goerr unit; te_parse : res goerr unit; te_new : res goerr unit;
  te_system : res goerr unit; te_gvisor : res goerr unit; te_start : res goerr unit }.

Definition new_pool (dialStream : option nat) (socksAddr dnsAddr : string) : option pool :=
  match dialStream with
  | Some d => Some (PoolStream d)
  | None => if bool_decide (socksAddr = EmptyString) then None else Some (PoolSocks (JoinHostPort dnsAddr (itoa Tunnel.dnsPort)))
  end.

Definition StartTunnelWithOptions (te : tun_env) (socksAddr dnsAddr : string) (opts : TunnelOptions) : res goerr Tunnel * list tun_event :=
  match te_dup te with
  | Err e => (Err (EWrap "dup tun fd" e), [])
  | Ok _ =>
  match te_parse te with
  | Err e => (Err (EWrap "parse tun addr" e), [FdDup; FdClose])
  | Ok _ =>
  match te_new te with
  | Err e => (Err (EWrap "create tun device" e), [FdDup; FdClose])
  | Ok _ =>
      let t stack := mkTun stack false false (Ok tt) socksAddr dnsAddr (DNS2Addr opts) (AllowDirectDNS opts)
                       (new_pool (DialStream opts) socksAddr dnsAddr) (DialStream opts) in
      let stack := match te_system te with
                   | Ok _ => Ok "system"%string
                   | Err _ => match te_gvisor te with Ok _ => Ok "gvisor"%string | Err e => Err e end
                   end in
      match stack with
      | Err e => (Err (EWrap "create stack" e), [FdDup; DevOpen; CtxNew; CtxCancel; DevClose])
      | Ok name =>
          match te_start te with
          | Err e => (Err (EWrap "start stack" e), [FdDup; DevOpen; CtxNew; CtxCancel; DevClose])
          | Ok _ => (Ok (t name), [FdDup; DevOpen; CtxNew])
          end
      end
  end
  end
  end.

(** [StartTunnel]: the first of its optional arguments is the dialer. *)
Definition StartTunnel (te : tun_env) (socksAddr dnsAddr : string) (dialStream : list (option nat)) : res goerr Tunnel * list tun_event :=
  StartTunnelWithOptions te socksAddr dnsAddr (mkTunnelOptions EmptyString false (default None (head dialStream))).

(** [closeErr] is what closing the device returns. *)
Definition Stop (closeErr : res goerr unit) (t : Tunnel) : res goerr unit * list tun_event * Tunnel :=
  if t_stopped t then (t_stopErr t, [], t)
  else (closeErr, (if t_dnsPool t is Some _ then [PoolClose] else []) ++ [CtxCancel; StackClose; DevClose],
        mkTun (t_stack t) true true closeErr (t_socksAddr t) (t_dnsAddr t) (t_dns2Addr t) (t_allowDirectDNS t) (t_dnsPool t) (t_dialStream t)).

Definition SwapDialStream (fn : nat) (t : Tunnel) : list tun_event * Tunnel :=
  let '(evs, p) := match t_dnsPool t with Some _ => ([PoolClose], Some (PoolStream fn)) | None => ([], None) end in
  (evs, mkTun (t_stack t) (t_done t) (t_stopped t) (t_stopErr t) (t_socksAddr t) (t_dnsAddr t) (t_dns2Addr t) (t_allowDirectDNS t) p (Some fn)).


(** ** What every interleaving keeps *)

(** One direction: from [x] to [y]. *)
Definition dir_inv (half : bool) (x y : side) (ended killed : bool) (count : Z) : Prop :=
  outd y `prefix_of` arrived x /\
  (ended = false -> outd y ++ inq x = arrived x /\ count = 0) /\
  (ended = true -> count = Z.of_nat (length (outd y)) /\ (half = true -> wclosed y = true)) /\
  (killed = false -> ended = true -> eof x = true /\ outd y = arrived x).

Lemma dir_x half x x' y ended k k' count : dir_inv half x y ended k count ->
  (k' = false -> k = false) -> arrived x' = arrived x -> inq x' = inq x -> (eof x = true -> eof x' = true) -> dir_inv half x' y ended k' count.
Proof. unfold dir_inv. intros (Hp & H0 & H1 & H2) Hk -> -> He. naive_solver. Qed.

Lemma dir_y half x y y' ended k k' count : dir_inv half x y ended k count ->
  (k' = false -> k = false) -> outd y' = outd y -> (wclosed y = true -> wclosed y' = true) -> dir_inv half x y' ended k' count.
Proof. unfold dir_inv. intros (Hp & H0 & H1 & H2) Hk -> Hw. naive_solver. Qed.

Lemma dir_data half x y ended k count d : dir_inv half x y ended k count -> dir_inv half (side_data d x) y ended k count.
Proof.
  unfold dir_inv, side_data. intros (Hp & H0 & H1 & H2). destruct (eof x) eqn:He; [naive_solver|]. cbn. split; [by apply prefix_app_r|].
  split; [intros Hf; destruct (H0 Hf) as [<- ?]; by rewrite app_assoc|]. split; [done|]. intros Hk Hd. by destruct (H2 Hk Hd).
Qed.

(** One turn of a copy; [x] and [y] are open unless something was killed. *)
Lemma dir_turn half n x y k count x' y' e :
  dir_inv half x y false k count -> (k = false -> closed x = false /\ closed y = false) -> copy_turn n x y = Some (x', y', e) ->
  dir_inv half x' (end_half half e y') e k (if e then count + Z.of_nat (length (outd y')) else count).
Proof.
  unfold dir_inv, copy_turn, end_half. intros (Hp & H0 & _ & _) Ho Ht. destruct (H0 eq_refl) as [Hx ->].
  assert (Hend : forall x0, arrived x0 = arrived x -> outd y `prefix_of` arrived x0 /\ (true = false -> outd y ++ inq x0 = arrived x0 /\ 0 + Z.of_nat (length (outd y)) = 0) /\
    (true = true -> 0 + Z.of_nat (length (outd y)) = Z.of_nat (length (outd y)) /\ (half = true -> true = true))) by (intros x0 ->; naive_solver lia).
  destruct (closed x) eqn:Hcx; [|case_bool_decide as Hi; [destruct (eof x) eqn:He; [|done]|destruct (closed y) eqn:Hcy]]; injection Ht as <- <- <-.
  - specialize (Hend x eq_refl). destruct half; cbn; naive_solver.
  - rewrite Hi, app_nil_r in Hx. destruct half; cbn; repeat split; try done; lia.
  - specialize (Hend (side_read (S n) x) eq_refl). destruct half; cbn in *; naive_solver.
  - rewrite andb_false_r. cbn [outd arrived inq side_read side_write].
    split; [rewrite <- Hx; apply prefix_app; exists (drop (S n) (inq x)); by rewrite take_drop|].
    split; [intros _; split; [|done]; by rewrite <- app_assoc, take_drop|done].
Qed.

Section relay_facts.
Context (halfA halfB : bool).

Definition relay_inv (r : relay_st) : Prop :=
  dir_inv halfB (sa r) (sb r) (up_done r) (killed r) (bytesUp r) /\
  dir_inv halfA (sb r) (sa r) (down_done r) (killed r) (bytesDown r) /\
  (returned r = true -> up_done r = true /\ down_done r = true /\ closed (sa r) = true /\ closed (sb r) = true) /\
  (killed r = false -> returned r = false -> closed (sa r) = false /\ closed (sb r) = false).

Lemma turn_frame n x y x' y' e : copy_turn n x y = Some (x', y', e) ->
  closed x' = closed x /\ closed y' = closed y /\ outd x' = outd x /\ wclosed x' = wclosed x /\
  arrived y' = arrived y /\ inq y' = inq y /\ eof y' = eof y.
Proof. unfold copy_turn. intros Ht. repeat case_match; simplify_eq; done. Qed.

Lemma half_frame half e y : closed (end_half half e y) = closed y /\ arrived (end_half half e y) = arrived y /\
  inq (end_half half e y) = inq y /\ eof (end_half half e y) = eof y.
Proof. unfold end_half. by destruct (half && e). Qed.

Lemma env_inv e r : relay_inv r -> relay_inv (on_env e r).
Proof.
  intros (Hu & Hd & Hr & Ho). destruct e as [d| |d| | |]; unfold relay_inv; cbn.
  - split; [by apply dir_data|]. split; [eapply dir_y; [exact Hd|done|by unfold side_data; destruct (eof _)..]|]. unfold side_data. by destruct (eof _).
  - split; [by eapply dir_x|]. by split; [eapply dir_y|].
  - split; [eapply dir_y; [exact Hu|done|by unfold side_data; destruct (eof _)..]|]. split; [by apply dir_data|]. unfold side_data. by destruct (eof _).
  - split; [by eapply dir_y|]. by split; [eapply dir_x|].
  - split; [by eapply dir_x|]. split; [by eapply dir_y|]. split; [naive_solver|done].
  - split; [by eapply dir_y|]. split; [by eapply dir_x|]. split; [naive_solver|done].
Qed.

Lemma relay_step_inv a r r' : relay_inv r -> step halfA halfB a r = Some r' -> relay_inv r'.
Proof.
  intros Hinv Hs. destruct a as [e|n|n|]; cbn [step] in Hs; [injection Hs as <-; by apply env_inv| | |]; destruct Hinv as (Hu & Hd & Hr & Ho).
  - destruct (up_done r) eqn:Hup; [done|]. apply bind_Some in Hs as ([[x y] e] & Ht & Hs). injection Hs as <-.
    destruct (returned r) eqn:Hret; [destruct (Hr eq_refl); congruence|].
    destruct (turn_frame _ _ _ _ _ _ Ht) as (Hc1 & Hc2 & Ho1 & Hw1 & Ha2 & Hi2 & He2). destruct (half_frame halfB e y) as (Fc & Fa & Fi & Fe).
    unfold relay_inv. cbn. split; [by eapply dir_turn; [exact Hu|auto|exact Ht]|].
    split; [eapply dir_x; [eapply dir_y; [exact Hd|done|done|by rewrite Hw1]|done|congruence|congruence|congruence]|]. split; [done|]. intros Hk _. rewrite Fc, Hc1, Hc2. auto.
  - destruct (down_done r) eqn:Hup; [done|]. apply bind_Some in Hs as ([[x y] e] & Ht & Hs). injection Hs as <-.
    destruct (returned r) eqn:Hret; [destruct (Hr eq_refl) as (_ & ? & _); congruence|].
    destruct (turn_frame _ _ _ _ _ _ Ht) as (Hc1 & Hc2 & Ho1 & Hw1 & Ha2 & Hi2 & He2). destruct (half_frame halfA e y) as (Fc & Fa & Fi & Fe).
    unfold relay_inv. cbn. split; [eapply dir_x; [eapply dir_y; [exact Hu|done|done|by rewrite Hw1]|done|congruence|congruence|congruence]|].
    split; [eapply dir_turn; [exact Hd| |exact Ht]; intros Hk; destruct (Ho Hk eq_refl); done|]. split; [done|]. intros Hk _. rewrite Fc, Hc1, Hc2. destruct (Ho Hk eq_refl); done.
  - destruct (up_done r) eqn:Hup, (down_done r) eqn:Hdn; try done. destruct (returned r) eqn:Hret; [done|]. injection Hs as <-. unfold relay_inv. cbn.
    split; [eapply dir_x; [eapply dir_y; [exact Hu|done..]|done..]|]. split; [eapply dir_x; [eapply dir_y; [exact Hd|done..]|done..]|]. done.
Qed.

Lemma relay_run_inv l r : relay_inv r -> relay_inv (run halfA halfB l r).
Proof.
  revert r. induction l as [|a l IH]; intros r Hr; [done|]. cbn. apply IH. destruct (step halfA halfB a r) as [r'|] eqn:Hs; [|done]. by eapply relay_step_inv.
Qed.

Lemma init_inv : relay_inv initRelay.
Proof. unfold relay_inv, dir_inv. cbn. naive_solver. Qed.

(** ** Progress *)

Definition load (s : side) : nat := length (inq s).

(** How many turns the goroutines of a relay can still take when nothing
    arrives. *)
Definition work (r : relay_st) : nat :=
  load (sa r) + load (sb r) + (if up_done r then 0 else 1) + (if down_done r then 0 else 1) + (if returned r then 0 else 1).

Lemma turn_load n x y x' y' e : copy_turn n x y = Some (x', y', e) ->
  load y' = load y /\ (load x' + (if e then 0 else 1) <= load x)%nat.
Proof.
  unfold copy_turn, load. intros Ht. destruct (closed x); [simplify_eq; lia|]. case_bool_decide as Hi; [destruct (eof x); simplify_eq; lia|].
  assert (Hl : (0 < length (inq x))%nat) by (destruct (inq x); [done|cbn; lia]).
  destruct (closed y); injection Ht as <- <- <-; cbn [inq side_read side_write]; rewrite length_drop; split; (done || lia).
Qed.

Lemma half_load half e y : load (end_half half e y) = load y.
Proof. unfold load. by destruct (half_frame half e y) as (_ & _ & -> & _). Qed.

Lemma relay_work_decreases a r r' : internal a = true -> step halfA halfB a r = Some r' -> (work r' < work r)%nat.
Proof.
  intros Hi Hs. destruct a as [e|n|n|]; [done|..]; cbn [step] in Hs; unfold work.
  - destruct (up_done r); [done|]. apply bind_Some in Hs as ([[x y] e] & Ht & Hs). injection Hs as <-. cbn. rewrite half_load.
    destruct (turn_load _ _ _ _ _ _ Ht) as [-> Hl]. destruct e; lia.
  - destruct (down_done r); [done|]. apply bind_Some in Hs as ([[x y] e] & Ht & Hs). injection Hs as <-. cbn. rewrite half_load.
    destruct (turn_load _ _ _ _ _ _ Ht) as [-> Hl]. destruct e; lia.
  - destruct (up_done r), (down_done r), (returned r); try done. injection Hs as <-. unfold load. cbn. lia.
Qed.

(** A sequence of turns of the goroutines, each of which can be taken. *)
Fixpoint turns (l : list action) (r : relay_st) : Prop :=
  match l with [] => True | a :: l => internal a = true /\ exists r', step halfA halfB a r = Some r' /\ turns l r' end.

Lemma turns_bounded l r : turns l r -> (length l <= work r)%nat.
Proof.
  revert r. induction l as [|a l IH]; intros r; [cbn; lia|]. intros (Hi & r' & Hs & Hl). pose proof (relay_work_decreases a r r' Hi Hs). specialize (IH r' Hl). cbn. lia.
Qed.

Lemma turn_blocked x y : copy_turn 0 x y = None -> closed x = false /\ eof x = false.
Proof. unfold copy_turn. repeat case_match; done. Qed.

Lemma settled_ended r : settled halfA halfB r = true ->
  (closed (sa r) = true \/ eof (sa r) = true -> up_done r = true) /\ (closed (sb r) = true \/ eof (sb r) = true -> down_done r = true) /\
  (up_done r = true -> down_done r = true -> returned r = true).
Proof.
  unfold settled. intros [[Hu Hd]%andb_true_iff Hr]%andb_true_iff. apply bool_decide_eq_true in Hu, Hd, Hr. cbn [step] in Hu, Hd, Hr. split; [|split].
  - intros He. destruct (up_done r); [done|]. apply bind_None in Hu as [Hu|([[x y] e] & _ & ?)]; [|done]. apply turn_blocked in Hu as [? ?]. destruct He; congruence.
  - intros He. destruct (down_done r); [done|]. apply bind_None in Hd as [Hd|([[x y] e] & _ & ?)]; [|done]. apply turn_blocked in Hd as [? ?]. destruct He; congruence.
  - intros H1 H2. rewrite H1, H2 in Hr. by destruct (returned r).
Qed.

End relay_facts.

(** C28: a relay under every interleaving of its two copying goroutines, the
    arrival of data, the ends of the two connections and closes from outside.
    What it writes to one side is always a prefix of what arrived from the
    other; its goroutines take only finitely many turns between two events;
    and when they can no longer move: if both sides have ended, or both were
    closed, the relay has returned and closed both; and if no connection was
    closed from outside, everything that arrived from a side that has ended was
    written to the other side, which was half-closed if it can be, and the
    counters are the lengths of what was written. *)
Theorem relay_delivers (halfA halfB : bool) (l : list action) :
  let r := run halfA halfB l initRelay in
  let ended x := closed x = true \/ eof x = true in
  outd (sb r) `prefix_of` arrived (sa r) /\ outd (sa r) `prefix_of` arrived (sb r) /\
  (forall l', turns halfA halfB l' r -> (length l' <= work r)%nat) /\
  (settled halfA halfB r = true ->
    (ended (sa r) -> ended (sb r) -> returned r = true /\ closed (sa r) = true /\ closed (sb r) = true) /\
    (killed r = false ->
      (eof (sa r) = true -> outd (sb r) = arrived (sa r) /\ bytesUp r = Z.of_nat (length (arrived (sa r))) /\ (halfB = true -> wclosed (sb r) = true)) /\
      (eof (sb r) = true -> outd (sa r) = arrived (sb r) /\ bytesDown r = Z.of_nat (length (arrived (sb r))) /\ (halfA = true -> wclosed (sa r) = true)))).
Proof.
  intros r ended. destruct (relay_run_inv halfA halfB l initRelay (init_inv halfA halfB)) as (Hu & Hd & Hr & Ho). fold r in Hu, Hd, Hr, Ho. clearbody r.
  destruct Hu as (Pu & _ & Cu & Ku), Hd as (Pd & _ & Cd & Kd). split; [done|]. split; [done|]. split; [intros l'; apply turns_bounded|]. intros Hs.
  destruct (settled_ended halfA halfB r Hs) as (Eu & Ed & Er). split.
  - intros Ha Hb. specialize (Er (Eu Ha) (Ed Hb)). specialize (Hr Er). tauto.
  - intros Hk. split; intros He.
    + specialize (Eu (or_intror He)). destruct (Ku Hk Eu) as [_ Hou], (Cu Eu) as [-> Hw]. rewrite Hou. auto.
    + specialize (Ed (or_intror He)). destruct (Kd Hk Ed) as [_ Hod], (Cd Ed) as [-> Hw]. rewrite Hod. auto.
Qed.

(** ** An end that is not passed on *)

Definition quiet (a : action) : bool := match a with Env (AData _) | Env AEof | Env CloseA => false | _ => true end.

(** Without [CloseWrite] on its side, an application that waits is never told
    that the other end has closed the connection: as long as the application
    sends nothing and does not close, whatever the other side, the stream and
    the goroutines do, its connection is neither closed nor half-closed. *)
Lemma remote_close_not_told halfB l r :
  forallb quiet l = true -> inq (sa r) = [] -> eof (sa r) = false -> closed (sa r) = false -> wclosed (sa r) = false -> up_done r = false ->
  let r' := run false halfB l r in closed (sa r') = false /\ wclosed (sa r') = false /\ returned r' = returned r.
Proof.
  revert r. induction l as [|a l IH]; intros r Hq Hi He Hc Hw Hu; [done|]. cbn [forallb] in Hq. apply andb_true_iff in Hq as [Ha Hl].
  assert (Hkeep : let r1 := default r (step false halfB a r) in inq (sa r1) = [] /\ eof (sa r1) = false /\ closed (sa r1) = false /\ wclosed (sa r1) = false /\
    up_done r1 = false /\ returned r1 = returned r).
  { destruct a as [[d| |d| | |]|n|n|]; try done; cbn [step default on_env sa sb up_done returned].
    - unfold copy_turn. by rewrite Hu, Hc, Hi, bool_decide_eq_true_2, He by done.
    - destruct (down_done r); [done|]. unfold copy_turn. destruct (closed (sb r)); [done|]. case_bool_decide; [by destruct (eof (sb r))|]. rewrite Hc. done.
    - by rewrite Hu. }
  destruct Hkeep as (Ki & Ke & Kc & Kw & Ku & <-). cbn [run foldl]. by apply IH.
Qed.

(** A request, an answer, and the end of the server's connection: everything
    was delivered and counted on the way, and the application still waits. *)
Lemma answer_without_end :
  let l := [Env (AData [x47]); CopyUp 0; Env (BData [x32; x30]); Env BEof; CopyDown 9; CopyDown 0] in
  let r := run false true l initRelay in
  outd (sb r) = [x47] /\ outd (sa r) = [x32; x30] /\ bytesDown r = 2 /\ settled false true r = true /\ closed (sa r) = false /\ wclosed (sa r) = false.
Proof. vm_compute. done. Qed.

Lemma run_app halfA halfB l1 l2 r : run halfA halfB (l1 ++ l2) r = run halfA halfB l2 (run halfA halfB l1 r).
Proof. apply foldl_app. Qed.

Lemma closed_kept halfA halfB l r : closed (sa r) = true /\ closed (sb r) = true ->
  closed (sa (run halfA halfB l r)) = true /\ closed (sb (run halfA halfB l r)) = true.
Proof.
  revert r. induction l as [|a l IH]; intros r [Ha Hb]; [done|]. cbn [run foldl]. apply IH.
  destruct a as [[d| |d| | |]|n|n|]; cbn [step default on_env sa sb].
  all: try (unfold side_data, side_eof, side_close; repeat case_match; done).
  - destruct (up_done r); [done|]. unfold copy_turn. rewrite Ha. cbn. by destruct (half_frame halfB true (sb r)) as (-> & _).
  - destruct (down_done r); [done|]. unfold copy_turn. rewrite Hb. cbn. by destruct (half_frame halfA true (sa r)) as (-> & _).
Qed.

(** Once the tunnel is stopped a relay has only to finish its turns: when its
    goroutines can no longer move, it has returned. *)
Lemma stopped_relay_returns halfA halfB l l' :
  let r := run halfA halfB (l ++ watch_done ++ l') initRelay in settled halfA halfB r = true -> returned r = true.
Proof.
  intros r Hs. destruct (settled_ended halfA halfB r Hs) as (Hu & Hd & Hr).
  assert (Hc : closed (sa r) = true /\ closed (sb r) = true) by (subst r; rewrite !run_app; by apply closed_kept).
  apply Hr; [apply Hu|apply Hd]; tauto.
Qed.

(** ** What the tunnel holds *)

Record held := mkHeld { h_fd : Z; h_dev : Z; h_ctx : Z }.

Definition hold (h : held) (e : tun_event) : held :=
  match e with
  | FdDup => mkHeld (h_fd h + 1) (h_dev h) (h_ctx h)
  | FdClose => mkHeld (h_fd h - 1) (h_dev h) (h_ctx h)
  | DevOpen => mkHeld (h_fd h - 1) (h_dev h + 1) (h_ctx h)
  | DevClose => mkHeld (h_fd h) (h_dev h - 1) (h_ctx h)
  | CtxNew => mkHeld (h_fd h) (h_dev h) (h_ctx h + 1)
  | CtxCancel => mkHeld (h_fd h) (h_dev h) (h_ctx h - 1)
  | StackClose | PoolClose => h
  end.

Inductive tun_op := OStop (closeErr : res goerr unit) | OSwap (fn : nat).

Definition tun_step (s : list tun_event * Tunnel) (o : tun_op) : list tun_event * Tunnel :=
  match o with
  | OStop e => let '(_, evs, t) := Stop e s.2 in (s.1 ++ evs, t)
  | OSwap fn => let '(evs, t) := SwapDialStream fn s.2 in (s.1 ++ evs, t)
  end.

Definition is_stop (o : tun_op) : bool := match o with OStop _ => true | _ => false end.

(** A tunnel that could not be started leaves nothing open.  One that was
    holds the device and the context until the first [Stop], whatever is
    called in between and afterwards, and after it nothing; and the DNS
    channels go to the last dialer. *)
Lemma tunnel_resources te socksAddr dnsAddr opts l :
  match StartTunnelWithOptions te socksAddr dnsAddr opts with
  | (Err _, evs) => foldl hold (mkHeld 0 0 0) evs = mkHeld 0 0 0
  | (Ok t, evs) =>
      let s := foldl tun_step (evs, t) l in
      foldl hold (mkHeld 0 0 0) s.1 = (if existsb is_stop l then mkHeld 0 0 0 else mkHeld 0 1 1) /\
      t_done s.2 = existsb is_stop l /\
      (forall d, t_dialStream s.2 = Some d -> t_dnsPool s.2 = Some (PoolStream d) \/ t_dnsPool s.2 = None)
  end.
Proof.
  unfold StartTunnelWithOptions. destruct (te_dup te); [|done]. destruct (te_parse te); [|done]. destruct (te_new te); [|done].
  set (k := match te_system te with Ok _ => _ | Err _ => _ end). destruct k as [name|]; [|done]. destruct (te_start te); [|done].
  set (t0 := mkTun _ _ _ _ _ _ _ _ _ _). cbn zeta.
  assert (Hg : forall l evs t b, foldl hold (mkHeld 0 0 0) evs = (if b : bool then mkHeld 0 0 0 else mkHeld 0 1 1) -> t_done t = b -> t_stopped t = b ->
    (forall d, t_dialStream t = Some d -> t_dnsPool t = Some (PoolStream d) \/ t_dnsPool t = None) ->
    let s := foldl tun_step (evs, t) l in foldl hold (mkHeld 0 0 0) s.1 = (if b || existsb is_stop l then mkHeld 0 0 0 else mkHeld 0 1 1) /\
      t_done s.2 = b || existsb is_stop l /\ (forall d, t_dialStream s.2 = Some d -> t_dnsPool s.2 = Some (PoolStream d) \/ t_dnsPool s.2 = None)).
  { clear. induction l as [|o l IH]; intros evs t b Hh Hd Hst Hp; [by rewrite orb_false_r|]. destruct o as [e|fn]; cbn [foldl tun_step existsb is_stop].
    - unfold Stop. cbn [snd fst]. rewrite Hst. destruct b; [rewrite app_nil_r; by apply (IH _ _ true)|]. cbn [orb].
      apply (IH _ _ true); [|done..|done]. rewrite foldl_app, Hh. by destruct (t_dnsPool t).
    - unfold SwapDialStream. cbn [snd fst orb]. destruct (t_dnsPool t); apply IH; try done.
      + by rewrite foldl_app, Hh; destruct b.
      + cbn. intros d [= ->]. by left.
      + by rewrite app_nil_r.
      + cbn. by right. }
  apply (Hg l _ t0 false); [done..|]. cbn. unfold new_pool. intros d ->. by left.
Qed.
End Relay.
