(* ===== verification/DtlsConfig.v ===== *)
(** * The configuration of a DTLS connection

    [Config] of [golib/replace/dtls/config.go] and what becomes of it:
    [createConn], [Client], [Server], [Dial] of [conn.go], [Resume] of
    [resume.go], and the listener of [listener.go].  Certificates, keys and
    the random source are those of [DtlsSuites.v]; loggers and the writer of
    the key log, which decide nothing, are left out. *)

From S2P Require Import Prelude IO GoStr Sdp DtlsWire DtlsExt DtlsHandshake DtlsConn DtlsSuites DtlsState DtlsHello.
Import Sdp.

Open Scope Z_scope.

Module DtlsConfig.

Definition defaultMTU : Z := 1200.
Definition initialTickerInterval : Z := 10 ^ 9.
Definition defaultCurves : list Z := [X25519; P256; P384].

Lemma parsed_not_nil user custom cert psk l : parseCipherSuites user custom cert psk = Ok l -> l <> [].
Proof.
  intros Hp ->. destruct (match user with Some ids => cipherSuitesForIDs ids | None => Ok defaultCipherSuites end) as [sel|e] eqn:Hs.
  - rewrite (parse_suites_exact user custom cert psk sel Hs) in Hp. cbn zeta in Hp. repeat case_match; done.
  - unfold parseCipherSuites in Hp. by rewrite Hs in Hp.
Qed.

Section config.
Context {P SG X G C : Type} `{PK : Pki P SG X G}.

#[local] Abbreviation cert := (tlsCert (SG:=SG) (X:=X)).

(** A nil function, pool or slice that the code compares with nil is [None]. *)
Record Config := mkCfg {
  Certificates : list cert;
  CipherSuites : option (list Z);
  CustomCipherSuites : list csuite;
  SignatureSchemes : list Z;
  SRTPProtectionProfiles : list Z;
  SRTPMasterKeyIdentifier : bytes;
  ClientAuth : ClientAuthType;
  ExtendedMasterSecret : ExtendedMasterSecretType;
  FlightInterval : Z;
  DisableRetransmitBackoff : bool;
  PSK : option (option bytes -> res herr bytes);
  PSKIdentityHint : option bytes;
  InsecureSkipVerify : bool;
  InsecureHashes : bool;
  VerifyPeerCertificate : option (list bytes -> list (list X) -> res herr unit);
  VerifyConnection : option (State C -> res herr unit);
  RootCAs : option (list X);
  ClientCAs : option (list X);
  ClientCASubjects : list bytes;          (* ClientCAs.Subjects() *)
  ServerName : string;
  MTU : Z;
  ReplayProtectionWindow : Z;
  SessionStore : bool;
  SupportedProtocols : list bytes;
  EllipticCurves : list Z;
  GetCertificate : option (string -> list Z -> bytes -> res herr (option cert));
  GetClientCertificate : option (list bytes -> res herr (option cert));
  InsecureSkipVerifyHello : bool;
  ConnectionIDGenerator : option (G -> option bytes * G);
  HelloRandomBytesGenerator : option (G -> bytes * G);
  ClientHelloMessageHook : option (MessageClientHello -> G -> Message * list Extension * G);
  ServerHelloMessageHook : option (MessageServerHello -> G -> Message * G);
  CertificateRequestMessageHook : option (MessageCertificateRequest -> G -> Message * G);
  RandomizationSeed : bytes;
  OnConnectionAttempt : option (string -> option herr) }.

Definition isSome {A} (o : option A) : bool := if o is Some _ then true else false.

Definition with_certificates (c : Config) : bool :=
  includeCertificateSuites (isSome (PSK c)) (Certificates c) (isSome (GetCertificate c)) (isSome (GetClientCertificate c)).

Definition config_valid (c : Config) : res herr unit :=
  validateConfig (isSome (PSKIdentityHint c)) (isSome (PSK c)) (Certificates c) (isSome (GetCertificate c))
    (isSome (GetClientCertificate c)) (CipherSuites c) (CustomCipherSuites c).

(** What [createConn] puts into a connection. *)
Record created := mkCreated {
  cr_config : handshakeConfig SG X G C; cr_mtu : Z; cr_window : Z; cr_isClient : bool; cr_resumed : bool }.

Definition handshake_config (c : Config) (suites : list csuite) (schemes : list (Z * Z)) : handshakeConfig SG X G C :=
  mkConfig (PSK c) (PSKIdentityHint c) suites schemes (ExtendedMasterSecret c) (SRTPProtectionProfiles c) (SRTPMasterKeyIdentifier c)
    (if ParseIP (ServerName c) is Some _ then EmptyString else ServerName c) (SupportedProtocols c) (ClientAuth c) (Certificates c)
    (InsecureSkipVerify c) (VerifyPeerCertificate c) (VerifyConnection c) (SessionStore c) (RootCAs c) (ClientCAs c) (ClientCASubjects c)
    (CustomCipherSuites c) (match EllipticCurves c with [] => defaultCurves | l => l end) (InsecureSkipVerifyHello c)
    (ConnectionIDGenerator c) (HelloRandomBytesGenerator c) (GetCertificate c) (GetClientCertificate c) 0
    (ClientHelloMessageHook c) (ServerHelloMessageHook c) (CertificateRequestMessageHook c) (RandomizationSeed c)
    (if FlightInterval c =? 0 then initialTickerInterval else FlightInterval c) (DisableRetransmitBackoff c).

(** [nextConn] tells whether the transport is not nil. *)
Definition createConn (nextConn : bool) (config : option Config) (isClient resumed : bool) : res herr created :=
  match config with
  | None => Err (HVar "errNoConfigProvided")
  | Some c =>
      let! _ := config_valid c in
      if negb nextConn then Err (HVar "errNilNextConn")
      else
        let! suites := parseCipherSuites (CipherSuites c) (CustomCipherSuites c) (with_certificates c) (isSome (PSK c)) in
        let! schemes := ParseSignatureSchemes (SignatureSchemes c) (InsecureHashes c) in
        Ok (mkCreated (handshake_config c suites schemes) (if MTU c <=? 0 then defaultMTU else MTU c)
              (if ReplayProtectionWindow c <=? 0 then defaultReplayProtectionWindow else ReplayProtectionWindow c) isClient resumed)
  end.

Definition Client (nextConn : bool) (config : option Config) : res herr created :=
  match config with
  | None => Err (HVar "errNoConfigProvided")
  | Some c =>
      if isSome (PSK c) && negb (isSome (PSKIdentityHint c)) then Err (HVar "errPSKAndIdentityMustBeSetForClient")
      else createConn nextConn config true false
  end.

Definition Server (nextConn : bool) (rAddr : string) (config : option Config) : res herr created :=
  match config with
  | None => Err (HVar "errNoConfigProvided")
  | Some c =>
      match (f ← OnConnectionAttempt c; f rAddr) with
      | Some e => Err e
      | None => createConn nextConn config false false
      end
  end.

(** [initCipherSuite] restores the suite of a state; [None] is an error. *)
Definition Resume (initCipherSuite : State C -> option herr) (state : State C) (nextConn : bool) (config : option Config) : res herr created :=
  match initCipherSuite state with
  | Some e => Err e
  | None => createConn nextConn config (s_isClient state) true
  end.

(** [HandshakeContext] of a server keeps the suites that fit the certificate it
    would send without a name; [getCert] is that certificate, and having none
    is not an error. *)
Definition handshake_suites (isClient : bool) (getCert : res herr cert) (suites : list csuite) : res herr (list csuite) :=
  if isClient then Ok suites
  else match getCert with
       | Ok c => Ok (filterCipherSuitesForCertificate (Some c) suites)
       | Err (HVar n) => if decide (n = "errNoCertificates"%string) then Ok (filterCipherSuitesForCertificate None suites) else Err (HVar n)
       | Err e => Err e
       end.

(** A socket that a call opened or was handed, and whether it is still open
    when the call returns. *)
Definition Dial (listen : res herr unit) (config : option Config) : res herr created * bool :=
  match listen with
  | Err e => (Err e, false)
  | Ok _ => (Client true config, true)
  end.

Definition Accept (parent : res herr string) (config : Config) : res herr created * bool :=
  match parent with
  | Err e => (Err e, false)
  | Ok rAddr => (Server true rAddr (Some config), true)
  end.

(** [NewListener] and the first check of [Listen]; identifiers are routed when
    there is a generator, by the length of one of its identifiers. *)
Definition NewListener (config : option Config) : res herr unit :=
  match config with
  | None => Err (HVar "errNoConfigProvided")
  | Some c => config_valid c
  end.

Definition Listen (lc_listen : res herr unit) (g : G) (config : option Config) : res herr (option Z) * G :=
  match config with
  | None => (Err (HVar "errNoConfigProvided"), g)
  | Some c =>
      match config_valid c with
      | Err e => (Err e, g)
      | Ok _ =>
          let '(router, g) := match ConnectionIDGenerator c with
                              | Some f => let '(id, g) := f g in (Some (Z.of_nat (length (default [] id))), g)
                              | None => (None, g)
                              end in
          (match lc_listen with Ok _ => Ok router | Err e => Err e end, g)
      end
  end.

(** ** What a created connection has *)

(** A configuration that was accepted gives a connection unless the transport
    is nil or no signature scheme is left, and the second search for suites
    cannot fail: what a connection is made with has suites and curves, a
    positive size, window and interval, and a server name that is not an
    address; a pre-shared key or certificates come with suites for them. *)
Lemma created_sound nextConn c isClient resumed : 0 <= FlightInterval c -> config_valid c = Ok tt ->
  match createConn nextConn (Some c) isClient resumed with
  | Err e => nextConn = false \/ ParseSignatureSchemes (SignatureSchemes c) (InsecureHashes c) = Err e
  | Ok cr =>
      nextConn = true /\ parseCipherSuites (CipherSuites c) (CustomCipherSuites c) (with_certificates c) (isSome (PSK c)) = Ok (c_localCipherSuites (cr_config cr)) /\
      c_localCipherSuites (cr_config cr) <> [] /\ c_ellipticCurves (cr_config cr) <> [] /\ ParseIP (c_serverName (cr_config cr)) = None /\
      0 < cr_mtu cr /\ 0 < cr_window cr /\ 0 < c_initialRetransmitInterval (cr_config cr) /\ c_initialEpoch (cr_config cr) = 0
  end.
Proof.
  intros Hf Hv. unfold createConn. rewrite Hv. cbn. destruct nextConn; cbn; [|by left]. unfold config_valid, validateConfig in Hv.
  destruct (isSome (PSKIdentityHint c) && negb (isSome (PSK c))); [done|]. destruct (validate_certs (Certificates c)); [|done]. cbn in Hv.
  fold (with_certificates c) in Hv. destruct (parseCipherSuites (CipherSuites c) (CustomCipherSuites c) (with_certificates c) (isSome (PSK c))) as [suites|] eqn:Hs; [|done].
  cbn. destruct (ParseSignatureSchemes _ _) as [schemes|e]; [|by right]. cbn. split; [done|]. split; [done|].
  split; [|split; [|split; [|split; [|split; [|split; [|done]]]]]].
  - by apply parsed_not_nil in Hs.
  - by destruct (EllipticCurves c).
  - destruct (ParseIP (ServerName c)) eqn:Hip; [reflexivity|exact Hip].
  - unfold defaultMTU. destruct (Z.leb_spec (MTU c) 0); lia.
  - unfold defaultReplayProtectionWindow. destruct (Z.leb_spec (ReplayProtectionWindow c) 0); lia.
  - destruct (Z.eqb_spec (FlightInterval c) 0); [done|lia].
Qed.

(** A connection that [OnConnectionAttempt] refuses, or whose configuration is
    refused, is not closed by [Accept], nor is the socket of a [Dial] whose
    configuration is refused. *)
Lemma refused_left_open c rAddr e f : OnConnectionAttempt c = Some f -> f rAddr = Some e -> Accept (Ok rAddr) c = (Err e, true).
Proof. intros Hf He. unfold Accept, Server. by rewrite Hf; cbn; rewrite He. Qed.

Lemma dial_left_open c e : config_valid c = Err e -> (isSome (PSK c) && negb (isSome (PSKIdentityHint c))) = false -> Dial (Ok tt) (Some c) = (Err e, true).
Proof. intros Hc Hp. unfold Dial, Client. rewrite Hp. unfold createConn. by rewrite Hc. Qed.

End config.
End DtlsConfig.
