(* ===== verification/DtlsLife.v ===== *)
(** * The life of a DTLS connection

    [handshake], [Read], [Close] and [close] of
    [golib/replace/dtls/conn.go].  The handshake call, the goroutine of the state machine,
    the reading goroutine and any number of [Close] calls are threads of one
    machine; each of its steps is a critical section or one operation on a
    channel or context, so that the theorems hold for every interleaving.
    What the state machine does is in [DtlsFsm.v], what a read does in
    [DtlsConn.v]; here a read is one of its outcomes. *)

From S2P Require Import Prelude.

Open Scope Z_scope.

Module DtlsLife.

(** ** States *)

(** Errors as the read loop tells them apart. *)
Inductive lerr := LAlert (fatalOrCloseNotify : bool) | LCanceled | LDeadline | LEOF | LNetClosed | LInvalidLength | LOther (code : Z).

#[export] Instance lerr_eq_dec : EqDecision lerr.
Proof. solve_decision. Defined.

(** What the channel [decrypted] carries. *)
Inductive item := IData (d : bytes) | IErr (e : lerr).

#[export] Instance item_eq_dec : EqDecision item.
Proof. solve_decision. Defined.

(** The points of the reading goroutine: reading; passing something to
    [decrypted]; leaving with an error; past the report to [firstErr]; inside
    [close(false)] after the contexts were cancelled; in the deferred calls;
    ended. *)
Inductive reader_pc := RReading | RPush (it : item) | REnd (e : lerr) | RReported (e : lerr) | RClosing | RNextClose | RLeave | RDefer | RDone.

(** The handshake call: waiting, waiting for the goroutines after an error,
    returned. *)
Inductive caller_pc := CWait | CJoin (e : lerr) | CReturned (r : option lerr).

(** A call of [Close]: its start, after the contexts were cancelled, after the
    notification, before the close of the transport, waiting for the
    handshake, returned. *)
Inductive close_res := KNil | KErrConnClosed | KNext.
Inductive closer_pc := KStart | KCancelled | KNotified | KNextClose | KWait (r : close_res) | KReturned (r : close_res).

#[export] Instance reader_pc_eq_dec : EqDecision reader_pc.
Proof. solve_decision. Defined.
#[export] Instance caller_pc_eq_dec : EqDecision caller_pc.
Proof. solve_decision. Defined.

Record life := mkLife {
  completed : bool; l_closed : bool; closedByUser : bool;
  cancelHs : bool; cancelRd : bool;
  firstErr : option lerr; fsm_done : bool; reader : reader_pc; caller : caller_pc; closers : list closer_pc;
  decrypted : option item; dec_closed : bool;
  nextCloses : nat; notifies : nat; panicked : bool }.

Definition newLife : life := mkLife false false false false false None false RReading CWait [] None false 0 0 false.

Definition set_reader (p : reader_pc) (s : life) : life :=
  mkLife (completed s) (l_closed s) (closedByUser s) (cancelHs s) (cancelRd s) (firstErr s) (fsm_done s) p (caller s) (closers s) (decrypted s) (dec_closed s) (nextCloses s) (notifies s) (panicked s).
Definition set_caller (p : caller_pc) (s : life) : life :=
  mkLife (completed s) (l_closed s) (closedByUser s) (cancelHs s) (cancelRd s) (firstErr s) (fsm_done s) (reader s) p (closers s) (decrypted s) (dec_closed s) (nextCloses s) (notifies s) (panicked s).
Definition set_closer (i : nat) (p : closer_pc) (s : life) : life :=
  mkLife (completed s) (l_closed s) (closedByUser s) (cancelHs s) (cancelRd s) (firstErr s) (fsm_done s) (reader s) (caller s) (<[i := p]> (closers s)) (decrypted s) (dec_closed s) (nextCloses s) (notifies s) (panicked s).
Definition set_cancel (hs rd : bool) (s : life) : life :=
  mkLife (completed s) (l_closed s) (closedByUser s) (cancelHs s || hs) (cancelRd s || rd) (firstErr s) (fsm_done s) (reader s) (caller s) (closers s) (decrypted s) (dec_closed s) (nextCloses s) (notifies s) (panicked s).
(** A send to [firstErr] that does not block. *)
Definition report (e : lerr) (s : life) : life :=
  mkLife (completed s) (l_closed s) (closedByUser s) (cancelHs s) (cancelRd s) (Some (default e (firstErr s))) (fsm_done s) (reader s) (caller s) (closers s) (decrypted s) (dec_closed s) (nextCloses s) (notifies s) (panicked s).
Definition take_err (s : life) : life :=
  mkLife (completed s) (l_closed s) (closedByUser s) (cancelHs s) (cancelRd s) None (fsm_done s) (reader s) (caller s) (closers s) (decrypted s) (dec_closed s) (nextCloses s) (notifies s) (panicked s).
Definition set_fsm_done (s : life) : life :=
  mkLife (completed s) (l_closed s) (closedByUser s) (cancelHs s) (cancelRd s) (firstErr s) true (reader s) (caller s) (closers s) (decrypted s) (dec_closed s) (nextCloses s) (notifies s) (panicked s).
Definition set_completed (s : life) : life :=
  mkLife true (l_closed s) (closedByUser s) (cancelHs s) (cancelRd s) (firstErr s) (fsm_done s) (reader s) (caller s) (closers s) (decrypted s) (dec_closed s) (nextCloses s) (notifies s) (panicked s).
Definition set_decrypted (it : option item) (s : life) : life :=
  mkLife (completed s) (l_closed s) (closedByUser s) (cancelHs s) (cancelRd s) (firstErr s) (fsm_done s) (reader s) (caller s) (closers s) it (dec_closed s) (nextCloses s) (notifies s)
    (panicked s || (dec_closed s && bool_decide (is_Some it))).
(** Closing [decrypted] a second time panics. *)
Definition close_decrypted (s : life) : life :=
  mkLife (completed s) (l_closed s) (closedByUser s) (cancelHs s) (cancelRd s) (firstErr s) (fsm_done s) (reader s) (caller s) (closers s) (decrypted s) true (nextCloses s) (notifies s) (panicked s || dec_closed s).
(** The section of [close] under [closeLock]. *)
Definition close_section (byUser : bool) (s : life) : life :=
  mkLife (completed s) true (closedByUser s || byUser) (cancelHs s) (cancelRd s) (firstErr s) (fsm_done s) (reader s) (caller s) (closers s) (decrypted s) (dec_closed s) (nextCloses s) (notifies s) (panicked s).
Definition next_close (s : life) : life :=
  mkLife (completed s) (l_closed s) (closedByUser s) (cancelHs s) (cancelRd s) (firstErr s) (fsm_done s) (reader s) (caller s) (closers s) (decrypted s) (dec_closed s) (S (nextCloses s)) (notifies s) (panicked s).
Definition notify (s : life) : life :=
  mkLife (completed s) (l_closed s) (closedByUser s) (cancelHs s) (cancelRd s) (firstErr s) (fsm_done s) (reader s) (caller s) (closers s) (decrypted s) (dec_closed s) (nextCloses s) (S (notifies s)) (panicked s).
Definition add_closer (s : life) : life :=
  mkLife (completed s) (l_closed s) (closedByUser s) (cancelHs s) (cancelRd s) (firstErr s) (fsm_done s) (reader s) (caller s) (closers s ++ [KStart]) (decrypted s) (dec_closed s) (nextCloses s) (notifies s) (panicked s).

(** ** Steps *)

(** What [readAndBuffer] does: nothing for the application, application data
    for [decrypted], or an error. *)
Inductive outcome := OOk | OData (d : bytes) | OErr (e : lerr).

(** [readAndBuffer] returns [Canceled] only after its context was cancelled. *)
Definition read_turn (o : outcome) (s : life) : option life :=
  match o with
  | OOk => Some s
  | OData d => Some (set_reader (RPush (IData d)) s)
  | OErr e =>
      if bool_decide (e = LCanceled) && negb (cancelRd s) then None
      else Some match e with
        | LAlert false => if completed s then set_reader (RPush (IErr e)) s else s
        | LInvalidLength => s
        | LOther _ => if completed s then set_reader (RPush (IErr e)) s else set_reader (REnd e) s
        | _ => set_reader (REnd e) s
        end
  end.

(** After the report: close on a fatal alert, and on a cancelled read of a
    connection that is still open. *)
Definition after_report (e : lerr) (s : life) : life :=
  match e with
  | LAlert true => set_reader RClosing (set_cancel true true s)
  | LCanceled => if l_closed s then set_reader RLeave s else set_reader RClosing (set_cancel true true s)
  | _ => set_reader RLeave s
  end.

Definition reader_step (s : life) : option life :=
  match reader s with
  | REnd e => Some (set_reader (RReported e) (report e s))
  | RReported e => Some (after_report e s)
  | RClosing => Some (if l_closed s || closedByUser s then set_reader RLeave (close_section false s) else set_reader RNextClose (close_section false s))
  | RNextClose => Some (set_reader RLeave (next_close s))
  | RLeave => Some (set_reader RDefer s)
  | RDefer => Some (set_reader RDone (set_cancel true false (if completed s then close_decrypted s else s)))
  | _ => None
  end.

(** [WaitGroup.Done] of the reader comes before the deferred function. *)
Definition reader_left (p : reader_pc) : bool := match p with RDefer | RDone => true | _ => false end.

Definition closer_step (p : closer_pc) (i : nat) (s : life) : option life :=
  match p with
  | KStart => Some (set_closer i KCancelled (set_cancel true true s))
  | KCancelled => Some (set_closer i KNotified (if completed s then notify s else s))
  | KNotified =>
      Some (if closedByUser s then set_closer i (KWait KErrConnClosed) (close_section true s)
            else if l_closed s then set_closer i (KWait KNil) (close_section true s)
            else set_closer i KNextClose (close_section true s))
  | KNextClose => Some (set_closer i (KWait KNext) (next_close s))
  | KWait r => match caller s with CReturned _ => Some (set_closer i (KReturned r) s) | _ => None end
  | KReturned _ => None
  end.

(** [translateHandshakeCtxError]; [None] is nil. *)
Definition translate (e : lerr) (s : life) : option lerr := if bool_decide (e = LCanceled) && completed s then None else Some e.

Inductive action :=
| ReadTurn (o : outcome) | PushSend | PushDrop | ReaderStep
| FsmFinished | FsmEnd (e : lerr)
| CallerErr | CallerCtx (e : lerr) | CallerDone | CallerJoin
| UserClose | CloseStep (i : nat) | UserRead.

Definition step (a : action) (s : life) : option life :=
  match a with
  | ReadTurn o => match reader s with RReading => read_turn o s | _ => None end
  | PushSend => match reader s, decrypted s with RPush it, None => Some (set_reader RReading (set_decrypted (Some it) s)) | _, _ => None end
  | PushDrop => match reader s with RPush _ => if l_closed s || cancelRd s then Some (set_reader RReading s) else None | _ => None end
  | ReaderStep => reader_step s
  | FsmFinished => if fsm_done s then None else Some (set_completed s)
  | FsmEnd e =>
      if fsm_done s || (bool_decide (e = LCanceled) && negb (cancelHs s)) then None
      else Some (set_fsm_done (if bool_decide (e = LCanceled) then s else report e s))
  | CallerErr => match caller s, firstErr s with CWait, Some e => Some (set_caller (CJoin e) (set_cancel true true (take_err s))) | _, _ => None end
  | CallerCtx e => match caller s with CWait => Some (set_caller (CJoin e) (set_cancel true true s)) | _ => None end
  | CallerDone => match caller s with CWait => if completed s then Some (set_caller (CReturned None) s) else None | _ => None end
  | CallerJoin => match caller s with CJoin e => if fsm_done s && reader_left (reader s) then Some (set_caller (CReturned (translate e s)) s) else None | _ => None end
  | UserClose => Some (add_closer s)
  | CloseStep i => p ← closers s !! i; closer_step p i s
  | UserRead => match decrypted s with Some _ => Some (set_decrypted None s) | None => if dec_closed s then Some s else None end
  end.

Definition run (l : list action) (s : life) : life := foldl (fun s a => default s (step a s)) s l.

(** What a call of [Read] with a buffer of [n] bytes returns when the handshake
    has been completed; [None] while it waits. *)
Inductive read_result := RdData (d : bytes) | RdErr (e : lerr) | RdTooSmall | RdEOF | RdDeadline.

Definition Read (n : nat) (deadline : bool) (s : life) : option (read_result * life) :=
  if deadline then Some (RdDeadline, s)
  else match decrypted s with
       | Some (IData d) => Some (if (n <? length d)%nat then RdTooSmall else RdData d, set_decrypted None s)
       | Some (IErr e) => Some (RdErr e, set_decrypted None s)
       | None => if dec_closed s then Some (RdEOF, s) else None
       end.


(** ** What every interleaving keeps *)

Definition weight (p : closer_pc) : nat := match p with KNextClose => 1 | _ => 0 end.
Definition pending_closes (l : list closer_pc) : nat := sum_list_with weight l.

Lemma sum_insert {A} (f : A -> nat) l i p q : l !! i = Some p -> (sum_list_with f (<[i := q]> l) + f p = sum_list_with f l + f q)%nat.
Proof.
  revert i. induction l as [|x l IH]; intros [|i]; [done|done| |]; cbn [lookup list_lookup].
  - intros [= ->]. cbn. lia.
  - intros Hi. specialize (IH i Hi). change (<[S i := q]> (x :: l)) with (x :: <[i := q]> l). cbn [sum_list_with]. lia.
Qed.

Definition past_report (p : reader_pc) : bool := match p with RReading | RPush _ | REnd _ => false | _ => true end.

(** A call of [Close] that has passed its critical section has closed the
    connection. *)
Definition section_passed (p : closer_pc) : bool := match p with KNextClose | KWait _ | KReturned _ => true | _ => false end.

(** The transport is closed, or about to be, by exactly the one who closed the
    connection; [decrypted] is closed by the reader at its end. *)
Definition channels_ok (s : life) : Prop :=
  panicked s = false /\ (dec_closed s = true -> reader s = RDone /\ completed s = true).
Definition close_ok (s : life) : Prop :=
  (nextCloses s + (if bool_decide (reader s = RNextClose) then 1 else 0) + pending_closes (closers s) = if l_closed s then 1 else 0)%nat /\
  (closedByUser s = true -> l_closed s = true) /\
  (existsb section_passed (closers s) = true -> l_closed s = true).
Definition caller_ok (s : life) : Prop :=
  match caller s with
  | CWait => past_report (reader s) = true -> is_Some (firstErr s)
  | CJoin e => cancelHs s = true /\ cancelRd s = true
  | CReturned None => completed s = true
  | CReturned (Some _) => fsm_done s = true /\ reader_left (reader s) = true
  end.
Definition begun (p : closer_pc) : bool := match p with KStart => false | _ => true end.
Definition cancel_ok (s : life) : Prop := existsb begun (closers s) = true -> cancelHs s = true /\ cancelRd s = true.

Definition life_inv (s : life) : Prop := channels_ok s /\ close_ok s /\ caller_ok s /\ cancel_ok s.

Lemma begun_insert i p l : begun p = true -> (i < length l)%nat -> existsb begun (<[i := p]> l) = true.
Proof. intros Hp Hi. apply existsb_exists. exists p. split; [|done]. apply list_elem_of_In, list_elem_of_insert. done. Qed.

Lemma begun_lookup i p l : begun p = true -> l !! i = Some p -> existsb begun l = true.
Proof. intros Hp Hi. apply existsb_exists. exists p. split; [|done]. apply list_elem_of_In. by eapply list_elem_of_lookup_2. Qed.

Lemma existsb_insert {A} (f : A -> bool) i q l : existsb f (<[i := q]> l) = true -> f q = true \/ existsb f l = true.
Proof.
  intros (x & Hx & Hf)%existsb_exists. apply list_elem_of_In, list_elem_of_lookup in Hx as (j & Hj).
  apply list_lookup_insert_Some in Hj as [(_ & <- & _)|[_ Hj]]; [by left|right]. apply existsb_exists. exists x. split; [|done].
  apply list_elem_of_In. by eapply list_elem_of_lookup_2.
Qed.

Ltac life := unfold life_inv, channels_ok, close_ok, caller_ok, cancel_ok, pending_closes in *; cbn in *.

Lemma reader_inv s s' : life_inv s -> reader_step s = Some s' -> life_inv s'.
Proof.
  intros Hi Hs. unfold reader_step in Hs. destruct (reader s) as [|it|e|e| | | | |] eqn:Hr; try done; injection Hs as <-.
  - life. rewrite Hr in Hi. repeat case_match; naive_solver.
  - unfold after_report. life. rewrite Hr in Hi. destruct e as [[]| | | | | |]; try destruct (l_closed s) eqn:Hc; cbn; rewrite ?Hc in *; repeat case_match; rewrite ?orb_true_r in *; naive_solver.
  - destruct Hi as (Hch & (Hn & Hu & Hx) & Hca & Hcn). assert (Hc : l_closed s || closedByUser s = l_closed s) by (destruct (closedByUser s); [rewrite Hu by done|]; by destruct (l_closed s)).
    rewrite Hc. destruct (l_closed s) eqn:Hcl; life; rewrite Hr in *; cbn in *; rewrite ?orb_false_r; repeat case_match; naive_solver lia.
  - life. rewrite Hr in Hi. cbn in *. repeat case_match; naive_solver lia.
  - life. rewrite Hr in Hi. cbn in *. repeat case_match; naive_solver.
  - life. rewrite Hr in Hi. destruct Hi as ((Hp & Hd) & Hrest). cbn in *. destruct (dec_closed s) eqn:Hdc; [destruct (Hd eq_refl); done|].
    destruct (completed s) eqn:Hcm; cbn; rewrite ?Hdc, ?Hp, ?Hcm, ?orb_true_r, ?orb_false_r; repeat case_match; naive_solver.
Qed.

Lemma closer_inv p i s s' : life_inv s -> closers s !! i = Some p -> closer_step p i s = Some s' -> life_inv s'.
Proof.
  intros (Hch & (Hn & Hu & Hx) & Hca & Hcn) Hp Hs. pose proof (lookup_lt_Some _ _ _ Hp) as Hlt.
  assert (Hw : forall q, (pending_closes (<[i := q]> (closers s)) + weight p = pending_closes (closers s) + weight q)%nat) by (intros q; by apply sum_insert).
  assert (Hi : forall q, existsb section_passed (<[i := q]> (closers s)) = true -> section_passed q = true \/ existsb section_passed (closers s) = true)
    by (intros q; apply existsb_insert).
  assert (Hsp : section_passed p = true -> l_closed s = true).
  { intros Hsp. apply Hx. apply existsb_exists. exists p. split; [|done]. apply list_elem_of_In. by eapply list_elem_of_lookup_2. }
  assert (Hb : begun p = true -> cancelHs s = true /\ cancelRd s = true) by (intros Hbp; apply Hcn; by eapply begun_lookup).
  destruct p as [| | | |r|r]; cbn in Hs.
  - injection Hs as <-. specialize (Hw KCancelled). specialize (Hi KCancelled). life. rewrite !orb_true_r. repeat case_match; naive_solver lia.
  - injection Hs as <-. specialize (Hw KNotified). specialize (Hi KNotified). specialize (Hb eq_refl).
    assert (Hq : life_inv (set_closer i KNotified s)) by (life; repeat case_match; naive_solver lia). by destruct (completed s).
  - specialize (Hb eq_refl). destruct (closedByUser s) eqn:Hcu; [|destruct (l_closed s) eqn:Hcl]; injection Hs as <-.
    + specialize (Hw (KWait KErrConnClosed)). specialize (Hi (KWait KErrConnClosed)). rewrite (Hu eq_refl) in Hn. life. rewrite ?orb_true_r. repeat case_match; naive_solver lia.
    + specialize (Hw (KWait KNil)). specialize (Hi (KWait KNil)). life. rewrite ?orb_true_r. repeat case_match; naive_solver lia.
    + specialize (Hw KNextClose). specialize (Hi KNextClose). life. rewrite ?orb_true_r. repeat case_match; naive_solver lia.
  - injection Hs as <-. specialize (Hb eq_refl). specialize (Hw (KWait KNext)). specialize (Hi (KWait KNext)). life. repeat case_match; naive_solver lia.
  - destruct (caller s) eqn:Hc; try done. injection Hs as <-. specialize (Hb eq_refl). specialize (Hw (KReturned r)). specialize (Hi (KReturned r)). life. rewrite Hc in *. repeat case_match; naive_solver lia.
  - done.
Qed.

Lemma life_step_inv a s s' : life_inv s -> step a s = Some s' -> life_inv s'.
Proof.
  intros Hi Hs. destruct a as [o| | | | |e| |e| | | |i|]; cbn [step] in Hs.
  - destruct (reader s) eqn:Hr; try done. destruct o as [|d|e]; cbn in Hs; [by injection Hs as <-| |].
    + injection Hs as <-. life. rewrite Hr in Hi. repeat case_match; naive_solver.
    + destruct (_ && _); [done|]. injection Hs as <-. destruct e as [[]| | | | | |]; try destruct (completed s) eqn:Hcm; try done; life; rewrite Hr in Hi; repeat case_match; naive_solver.
  - destruct (reader s) as [|it| | | | | | |] eqn:Hr; try done. destruct (decrypted s); [done|]. injection Hs as <-. life. rewrite Hr in Hi.
    destruct Hi as ((Hp & Hd) & Hrest). destruct (dec_closed s) eqn:Hdc; [by destruct (Hd eq_refl)|]. rewrite Hp. cbn. repeat case_match; naive_solver.
  - destruct (reader s) as [|it| | | | | | |] eqn:Hr; try done. destruct (_ || _); [|done]. injection Hs as <-. life. rewrite Hr in Hi. repeat case_match; naive_solver.
  - by eapply reader_inv.
  - destruct (fsm_done s) eqn:Hf; [done|]. injection Hs as <-. life. repeat case_match; naive_solver.
  - destruct (fsm_done s) eqn:Hf; [done|]. cbn in Hs. destruct (_ && _); [done|]. injection Hs as <-. case_bool_decide; life; repeat case_match; naive_solver.
  - destruct (caller s) eqn:Hc; try done. destruct (firstErr s) eqn:Hf; [|done]. injection Hs as <-. life. rewrite !orb_true_r. naive_solver.
  - destruct (caller s) eqn:Hc; try done. injection Hs as <-. life. rewrite !orb_true_r. naive_solver.
  - destruct (caller s) eqn:Hc; try done. destruct (completed s) eqn:Hcm; [|done]. injection Hs as <-. life. rewrite Hcm. naive_solver.
  - destruct (caller s) eqn:Hc; try done. destruct (fsm_done s && reader_left (reader s)) eqn:Hd; [|done]. injection Hs as <-. apply andb_true_iff in Hd as [Hd1 Hd2].
    life. unfold translate. destruct (bool_decide (e = LCanceled)), (completed s) eqn:Hcm; cbn; rewrite ?Hcm; naive_solver.
  - injection Hs as <-. life. rewrite sum_list_with_app, !existsb_app. cbn. rewrite !Nat.add_0_r, !orb_false_r. done.
  - apply bind_Some in Hs as (p & Hp & Hs). by eapply closer_inv.
  - destruct (decrypted s); [|destruct (dec_closed s); simplify_eq; done]. injection Hs as <-. life. rewrite ?andb_false_r, ?orb_false_r. done.
Qed.

Lemma life_run_inv l s : life_inv s -> life_inv (run l s).
Proof.
  revert s. induction l as [|a l IH]; intros s Hs; [done|]. cbn. apply IH. destruct (step a s) as [s'|] eqn:He; [|done]. by eapply life_step_inv.
Qed.

Lemma new_inv : life_inv newLife.
Proof. life. repeat split; done. Qed.

(** ** Ends *)

(** The steps that the threads make on their own once the contexts have been
    cancelled: no data arrives, the state machine and the read return
    [Canceled]. *)
Definition internal (a : action) : bool :=
  match a with
  | ReadTurn (OErr LCanceled) | PushDrop | ReaderStep | FsmEnd LCanceled | CallerErr | CallerDone | CallerJoin | CloseStep _ => true
  | _ => false
  end.

Definition reader_rank (p : reader_pc) : nat :=
  match p with RPush _ => 8 | RReading => 7 | REnd _ => 6 | RReported _ => 5 | RClosing => 4 | RNextClose => 3 | RLeave => 2 | RDefer => 1 | RDone => 0 end.
Definition caller_rank (p : caller_pc) : nat := match p with CWait => 2 | CJoin _ => 1 | CReturned _ => 0 end.
Definition closer_rank (p : closer_pc) : nat :=
  match p with KStart => 5 | KCancelled => 4 | KNotified => 3 | KNextClose => 2 | KWait _ => 1 | KReturned _ => 0 end.

(** How many steps the threads can still make on their own. *)
Definition work (s : life) : nat :=
  reader_rank (reader s) + (if fsm_done s then 0 else 1) + caller_rank (caller s) + sum_list_with closer_rank (closers s).

Lemma closer_work p i s s' : closers s !! i = Some p -> closer_step p i s = Some s' -> (work s' < work s)%nat.
Proof.
  intros Hp Hs. assert (Hw : forall q, (sum_list_with closer_rank (<[i := q]> (closers s)) + closer_rank p = sum_list_with closer_rank (closers s) + closer_rank q)%nat)
    by (intros q; by apply sum_insert).
  destruct p as [| | | |r|r]; cbn in Hs; [| | | | |done].
  - injection Hs as <-. specialize (Hw KCancelled). unfold work. cbn in *. lia.
  - injection Hs as <-. specialize (Hw KNotified). unfold work. destruct (completed s); cbn in *; lia.
  - destruct (closedByUser s); [|destruct (l_closed s)]; injection Hs as <-; [specialize (Hw (KWait KErrConnClosed))|specialize (Hw (KWait KNil))|specialize (Hw KNextClose)]; unfold work; cbn in *; lia.
  - injection Hs as <-. specialize (Hw (KWait KNext)). unfold work. cbn in *. lia.
  - destruct (caller s) eqn:Hc; try done. injection Hs as <-. specialize (Hw (KReturned r)). unfold work. cbn in *. lia.
Qed.

Lemma life_work_decreases a s s' : internal a = true -> step a s = Some s' -> (work s' < work s)%nat.
Proof.
  intros Hi Hs. destruct a as [o| | | | |e| |e| | | |i|]; try done; cbn [step] in Hs.
  - destruct o as [| |e]; try done. destruct e; try done. destruct (reader s) eqn:Hr; try done. cbn in Hs. destruct (cancelRd s); [|done]. injection Hs as <-. unfold work. cbn. rewrite Hr. cbn. lia.
  - destruct (reader s) eqn:Hr; try done. destruct (_ || _); [|done]. injection Hs as <-. unfold work. cbn. rewrite Hr. cbn. lia.
  - unfold reader_step in Hs. destruct (reader s) as [|it|e|e| | | | |] eqn:Hr; try done; injection Hs as <-; unfold work; rewrite Hr.
    + cbn. lia.
    + unfold after_report. destruct e as [[]| | | | | |]; try destruct (l_closed s); cbn; lia.
    + destruct (_ || _); cbn; lia.
    + cbn. lia.
    + cbn. lia.
    + destruct (completed s); cbn; lia.
  - destruct e; try done. destruct (fsm_done s) eqn:Hf; [done|]. cbn in Hs. destruct (cancelHs s); [|done]. injection Hs as <-. unfold work. cbn. rewrite Hf. lia.
  - destruct (caller s) eqn:Hc; try done. destruct (firstErr s); [|done]. injection Hs as <-. unfold work. cbn. rewrite Hc. cbn. lia.
  - destruct (caller s) eqn:Hc; try done. destruct (completed s); [|done]. injection Hs as <-. unfold work. cbn. rewrite Hc. cbn. lia.
  - destruct (caller s) eqn:Hc; try done. destruct (_ && _); [|done]. injection Hs as <-. unfold work. cbn. rewrite Hc. cbn. lia.
  - apply bind_Some in Hs as (p & Hp & Hs). by eapply closer_work.
Qed.

Fixpoint turns (l : list action) (s : life) : Prop :=
  match l with [] => True | a :: l => internal a = true /\ exists s', step a s = Some s' /\ turns l s' end.

Lemma life_turns_bounded l s : turns l s -> (length l <= work s)%nat.
Proof.
  revert s. induction l as [|a l IH]; intros s; [cbn; lia|]. intros (Hi & s' & Hs & Hl). pose proof (life_work_decreases a s s' Hi Hs). specialize (IH s' Hl). cbn. lia.
Qed.

(** None of these steps can be made. *)
Definition settled (s : life) : Prop := forall a, internal a = true -> step a s = None.

Lemma settled_reader s : settled s -> cancelRd s = true -> reader s = RDone.
Proof.
  intros Hs Hc. pose proof (Hs (ReadTurn (OErr LCanceled)) eq_refl) as H1. pose proof (Hs PushDrop eq_refl) as H2. pose proof (Hs ReaderStep eq_refl) as H3.
  cbn in *. unfold reader_step in H3. destruct (reader s); try done; rewrite Hc in *; [done|]. by rewrite orb_true_r in H2.
Qed.

Lemma settled_fsm s : settled s -> cancelHs s = true -> fsm_done s = true.
Proof. intros Hs Hc. pose proof (Hs (FsmEnd LCanceled) eq_refl) as H1. cbn in H1. rewrite Hc in H1. by destruct (fsm_done s). Qed.

Lemma settled_caller s : settled s -> caller_ok s -> fsm_done s = true -> reader s = RDone -> exists r, caller s = CReturned r.
Proof.
  intros Hs Hc Hf Hr. pose proof (Hs CallerErr eq_refl) as H1. pose proof (Hs CallerJoin eq_refl) as H2. cbn in *. unfold caller_ok in Hc. rewrite Hr in *.
  destruct (caller s) as [|e|r]; [|by rewrite Hf in H2|by eexists]. destruct (Hc eq_refl) as [e He]. by rewrite He in H1.
Qed.

Lemma settled_closers s r : settled s -> caller s = CReturned r -> Forall (fun p => exists r, p = KReturned r) (closers s).
Proof.
  intros Hs Hc. apply Forall_lookup_2. intros i p Hp. pose proof (Hs (CloseStep i) eq_refl) as H1. cbn in H1. rewrite Hp in H1. cbn in H1.
  destruct p; cbn in H1; try done; [by rewrite Hc in H1|by eexists].
Qed.


Lemma returned_no_pending l : Forall (fun p => exists r, p = KReturned r) l -> pending_closes l = 0%nat.
Proof. induction 1 as [|p l (r & ->) _ IH]; [done|]. exact IH. Qed.

(** C29: a DTLS connection under every interleaving of the handshake call, its
    two goroutines, calls of [Close] and [Read], and the network: no channel
    is closed twice or used after it was closed; the transport is closed at
    most once; the handshake call reports success only when the handshake was
    completed, and a failure only after both goroutines have left their loops;
    and the threads can make only finitely many steps on their own.  Once a
    [Close] has begun and they can make no more, both goroutines have ended,
    the handshake call and every [Close] have returned, and the transport was
    closed exactly once. *)
Theorem close_ends_everything (l : list action) :
  let s := run l newLife in
  panicked s = false /\ (nextCloses s <= 1)%nat /\
  (caller s = CReturned None -> completed s = true) /\
  (forall e, caller s = CReturned (Some e) -> fsm_done s = true /\ reader_left (reader s) = true) /\
  (forall l', turns l' s -> (length l' <= work s)%nat) /\
  (existsb begun (closers s) = true -> settled s ->
    fsm_done s = true /\ reader s = RDone /\ (exists r, caller s = CReturned r) /\
    Forall (fun p => exists r, p = KReturned r) (closers s) /\ l_closed s = true /\ nextCloses s = 1%nat).
Proof.
  intros s. destruct (life_run_inv l newLife new_inv) as ([Hp Hd] & (Hn & Hu & Hx) & Hca & Hcn). fold s in Hp, Hd, Hn, Hu, Hx, Hca, Hcn. clearbody s.
  split; [done|]. split; [destruct (l_closed s); lia|]. split; [unfold caller_ok in Hca; by intros Hc; rewrite Hc in Hca|].
  split; [unfold caller_ok in Hca; by intros e Hc; rewrite Hc in Hca|]. split; [intros l'; apply life_turns_bounded|]. intros Hb Hs.
  destruct (Hcn Hb) as [Hch Hcr]. pose proof (settled_reader s Hs Hcr) as Hr. pose proof (settled_fsm s Hs Hch) as Hf.
  destruct (settled_caller s Hs Hca Hf Hr) as [r Hret]. pose proof (settled_closers s r Hs Hret) as Hcl.
  assert (Hlc : l_closed s = true).
  { apply Hx. destruct (closers s) as [|p l0]; [done|]. apply Forall_cons in Hcl as [(r0 & ->) _]. done. }
  split; [done|]. split; [done|]. split; [by eexists|]. split; [done|]. split; [done|]. rewrite (returned_no_pending _ Hcl), Hlc, Hr, bool_decide_eq_false_2 in Hn by done. lia.
Qed.

(** ** A read that never ends *)

(** The reader leaves because of a [Close] before the handshake is completed,
    and the state machine completes it afterwards: the handshake call reports
    success, and [Read] waits for a channel that nobody closes. *)
Definition late_completion : list action :=
  [UserClose; CloseStep 0; ReadTurn (OErr LCanceled); ReaderStep; ReaderStep; ReaderStep; ReaderStep; ReaderStep; ReaderStep;
   FsmFinished; FsmEnd LCanceled; CallerDone; CloseStep 0; CloseStep 0; CloseStep 0; CloseStep 0].

Lemma late_completion_state : run late_completion newLife =
  mkLife true true true true true (Some LCanceled) true RDone (CReturned None) [KReturned KNil] None false 1 1 false.
Proof. vm_compute. reflexivity. Qed.

(** Nothing that can still happen gives that reader anything. *)
Lemma late_completion_read_hangs l n : Read n false (run l (run late_completion newLife)) = None.
Proof.
  enough (Hg : forall s, reader s = RDone -> decrypted s = None -> dec_closed s = false -> Read n false (run l s) = None) by (rewrite late_completion_state; by apply Hg).
  induction l as [|a l IH]; intros s Hr Hd Hc; [cbn; unfold Read; by rewrite Hd, Hc|]. cbn [run foldl]. apply IH.
  all: destruct a as [o| | | | |e| |e| | | |i|]; cbn [step]; unfold reader_step; rewrite ?Hr; try done; try (by rewrite Hd, Hc).
  all: try (destruct (closers s !! i) as [[]|]; cbn; repeat case_match; done).
  all: repeat case_match; simplify_eq/=; try done; unfold report; cbn; repeat case_match; try done.
Qed.

(** A handshake, data, and an orderly close: the data is read, then the end. *)
Definition orderly : list action :=
  [ReadTurn OOk; FsmFinished; CallerDone; ReadTurn (OData [x41]); PushSend; UserClose; CloseStep 0; CloseStep 0;
   ReadTurn (OErr LCanceled); ReaderStep; ReaderStep; CloseStep 0; CloseStep 0; ReaderStep; ReaderStep; ReaderStep; FsmEnd LCanceled; CloseStep 0].

Lemma orderly_close :
  let s := run orderly newLife in
  closers s = [KReturned KNext] /\ notifies s = 1%nat /\ nextCloses s = 1%nat /\ dec_closed s = true /\
  match Read 8 false s with Some (RdData d, s) => d = [x41] /\ exists s', Read 8 false s = Some (RdEOF, s') | _ => False end.
Proof. vm_compute. repeat split; try reflexivity. eexists. reflexivity. Qed.

(** Data that does not fit the buffer of a [Read] is lost. *)
Lemma short_read_loses d s n : decrypted s = Some (IData d) -> (n < length d)%nat ->
  exists s', Read n false s = Some (RdTooSmall, s') /\ decrypted s' = None.
Proof. intros Hd Hn. unfold Read. rewrite Hd, (proj2 (Nat.ltb_lt _ _) Hn). eexists. split; [reflexivity|]. done. Qed.
End DtlsLife.
