(* ===== verification/SignalPoll.v ===== *)
(** * Waiting for the answers of a client

    [pollForSDPAnswers] of [golib/api.go]: the server that has offered its
    descriptions asks the signalling server for the list of answers until the
    deadline, with the back-off and the network of [Signal.v]. *)

From S2P Require Import Prelude IO GoStr Obfs Codes Signal.

Open Scope Z_scope.

Module SignalPoll.

(** Milliseconds. *)
Definition sdpPollTimeout : Z := 25 * second.

Definition answers_backoff : Backoff := NewBackoff second (5 * second) 50.

Section answers.
Context {K R E : Type} `{AE : AEAD K} `{RA : Rand R} `{JS : Json} `{HE : Http E}.

#[local] Abbreviation sworld := (sworld (R:=R) (E:=E)).

(** The answers in a response, if it has any: every other response, and one
    that cannot be read, means to try again. *)
Definition answers_of (resp : httpResp) : option (list string) :=
  if StatusCode resp =? 404 then None
  else match Body resp with
       | Err _ => None
       | Ok body =>
           sdp ← json_get_sdp body;
           if decide (sdp = EmptyString) then None
           else match sdp_list sdp with [] => None | l => Some l end
       end.

Definition answers_attempt (url : string) : Prog sworld (option (list string)) :=
  fun w =>
    match ctx_Err (sw_env w) with
    | Some e => (Err e, w)
    | None =>
        match http_NewRequest "GET" url with
        | Err e => (Err (EWrap "create request" e), w)
        | Ok _ =>
            let '(r, w) := on_env (http_Get url) w in
            match r with
            | Err _ => match ctx_Err (sw_env w) with Some e => (Err e, w) | None => (Ok None, w) end
            | Ok resp => (Ok (answers_of resp), w)
            end
        end
    end.

Definition answer_url (signalingURL sessionID : string) : string := cat [signalingURL; "/session/"; sessionID; "/answer"].

Definition pollForSDPAnswers (signalingURL sessionID : string) (timeout : Z) : Prog sworld (list string) :=
  fun w =>
    match poll poll_fuel (http_now (sw_env w) + timeout) answers_backoff (EMsg "no SDP answers within timeout" [timeout])
            (answers_attempt (answer_url signalingURL sessionID)) w with
    | Some r => r
    | None => (Err out_of_fuel, w)
    end.

(** The fuel is enough for the time-out of the accept loop, whatever the
    signalling server answers. *)
Lemma answers_poll_ends `{HT : !HttpTime E} url timeout (w : sworld) : timeout <= sdpPollTimeout ->
  exists r, poll poll_fuel (http_now (sw_env w) + timeout) answers_backoff (EMsg "no SDP answers within timeout" [timeout]) (answers_attempt url) w = Some r.
Proof.
  intros Ht. unfold poll_fuel. apply (poll_total 249); [done| |].
  - intros w0. unfold answers_attempt. destruct (ctx_Err _); [cbn; lia|]. destruct (http_NewRequest _ _); [|cbn; lia].
    pose proof (forward_Get url w0) as Hw. destruct (on_env (http_Get url) w0) as [[resp|e] w1]; cbn [snd] in *; [done|]. by destruct (ctx_Err _).
  - unfold sdpPollTimeout, answers_backoff, NewBackoff, second in *. cbn [bo_Base]. Z.to_euclidean_division_equations. lia.
Qed.

(** Answers that are returned came in a response, and there is at least one. *)
Lemma poll_answer fuel deadline b e url (w w' : sworld) l :
  poll fuel deadline b e (answers_attempt url) w = Some (Ok l, w') -> l <> [] /\ exists resp, answers_of resp = Some l.
Proof.
  revert b w. induction fuel as [|fuel IH]; intros b w; cbn [poll]; [done|]. destruct (_ <? _); [|done].
  destruct (answers_attempt url w) as [[[a|]|e0] w1] eqn:Ha; [|destruct (backoff_Next b (sw_env w1)) as [[d b'] e1]; apply IH|done].
  intros [= -> ->]. unfold answers_attempt in Ha. destruct (ctx_Err (sw_env w)); [done|]. destruct (http_NewRequest _ _); [|done].
  destruct (on_env (http_Get url) w) as [[resp|e0] w2]; [|by destruct (ctx_Err _)]. injection Ha as Ha _.
  split; [|by exists resp]. unfold answers_of in Ha. repeat case_match; simplify_eq/=; try done.
  apply bind_Some in Ha as (sdp & _ & Ha). repeat case_match; simplify_eq/=; done.
Qed.

Lemma answers_not_empty signalingURL sessionID timeout (w w' : sworld) l :
  pollForSDPAnswers signalingURL sessionID timeout w = (Ok l, w') -> l <> [] /\ exists resp, answers_of resp = Some l.
Proof.
  unfold pollForSDPAnswers. destruct (poll _ _ _ _ _ w) as [[r w1]|] eqn:Hp; [|done]. intros [= -> ->]. by eapply poll_answer.
Qed.

End answers.
End SignalPoll.
