(* ===== verification/SignalRoutes.v ===== *)
(** * Routes and discovery streams of the signalling server

    The rest of [signalserver/cmd/signalserver/main.go]: which handler a path
    belongs to, and the streams of [handleDiscoveryStream], which send the list
    of servers again whenever they are notified.  A request runs without
    another one in between here; the interleaving of [notifyAll] with the end
    of a stream is in [SignalServer.v]. *)

From S2P Require Import Prelude IO GoStr Sdp SignalServer.
Import Sdp SignalServer.

Open Scope Z_scope.

Module SignalRoutes.

(** ** Routes *)

Inductive handler := HHealth | HSession | HRegister | HServers | HStream | HItem | HRedirect (to : string) | HNotFound.

(** [http.ServeMux] for a path without empty or dot segments: a pattern that
    ends in a slash matches everything below it, the longest pattern wins, and
    such a pattern without its slash is redirected. *)
Definition route (path : string) : handler :=
  if bool_decide (path = "/health") then HHealth
  else if bool_decide (path = "/discovery/register") then HRegister
  else if bool_decide (path = "/discovery/servers") then HServers
  else if bool_decide (path = "/discovery/stream") then HStream
  else if HasPrefix path "/discovery/" then HItem
  else if HasPrefix path "/session/" then HSession
  else if bool_decide (path = "/discovery") then HRedirect "/discovery/"
  else if bool_decide (path = "/session") then HRedirect "/session/"
  else HNotFound.

(** ** Streams *)

Record dstream := mkStream { ds_room : string; ds_sent : list listing }.

Record world := mkWorld { w_disc : discoveryHub; w_chans : list chan; w_streams : gmap nat dstream }.

Definition newWorld : world := mkWorld newDiscoveryHub [] ∅.

Section streams.
(** The order in which a map is iterated, and the random source. *)
Context (iter : list listing -> list listing) (iter_perm : forall l, iter l ≡ₚ l) {G : Type} `{RG : Rand G}.

(** The event that [sendDiscoveryServersSSE] writes. *)
Definition sendDiscoveryServersSSE (room : string) (d : discoveryHub) : list listing :=
  sortByUpdatedDesc (list_room room (iter (snd <$> map_to_list (listings d)))).

(** [handleDiscoveryStream] up to its loop, its [notify] arm and its end. *)
Definition stream_start (room : string) (w : world) : world :=
  let '(d, c, i) := watch (w_disc w) (w_chans w) in
  mkWorld d c (<[i := mkStream room (sendDiscoveryServersSSE room d)]> (w_streams w)).

Definition stream_turn (i : nat) (w : world) : world :=
  match w_streams w !! i, w_chans w !! i with
  | Some st, Some (mkChan true cl) =>
      mkWorld (w_disc w) (<[i := mkChan false cl]> (w_chans w))
        (<[i := mkStream (ds_room st) (sendDiscoveryServersSSE (ds_room st) (w_disc w))]> (w_streams w))
  | _, _ => w
  end.

Definition stream_end (i : nat) (w : world) : option world :=
  match w_streams w !! i with
  | None => Some w
  | Some _ => '(d, c) ← stop i (w_disc w) (w_chans w); Some (mkWorld d c (delete i (w_streams w)))
  end.

(** The requests and the clean-up, with the notification that they end with. *)
Definition notify_world (d : discoveryHub) (w : world) : option world :=
  c ← notifyAll d (w_chans w); Some (mkWorld d c (w_streams w)).

Inductive event :=
| WRegister (l : listing) (now : Z) (g : G) | WRemove (id : string) | WHeartbeat (id : string) (now : Z)
| WGc (now ttl : Z) | WOpen (room : string) | WNotify (i : nat) | WEnd (i : nat).

(** [None] is a panic. *)
Definition serve (e : event) (w : world) : option world :=
  match e with
  | WRegister l now g => notify_world (register l now (w_disc w) g).1.2 w
  | WRemove id => notify_world (remove id (w_disc w)) w
  | WHeartbeat id now => Some (mkWorld (heartbeat id now (w_disc w)).2 (w_chans w) (w_streams w))
  | WGc now ttl =>
      let '(d, changed) := discovery_gc now ttl (w_disc w) in
      if changed then notify_world d w else Some (mkWorld d (w_chans w) (w_streams w))
  | WOpen room => Some (stream_start room w)
  | WNotify i => Some (stream_turn i w)
  | WEnd i => stream_end i w
  end.

Fixpoint serve_all (es : list event) (w : world) : option world :=
  match es with [] => Some w | e :: es => w ← serve e w; serve_all es w end.

(** ** Subscribers are up to date *)

(** A listing without its time. *)
Definition strip (l : listing) : listing := set_id (l_ID l) 0 l.

Definition current (room : string) (d : discoveryHub) : list listing :=
  list_room room (snd <$> map_to_list (strip <$> listings d)).

(** A stream has sent the servers that are registered now. *)
Definition fresh (st : dstream) (d : discoveryHub) : Prop := strip <$> ds_sent st ≡ₚ current (ds_room st) d.

Definition streams_ok (w : world) : Prop :=
  dom (w_streams w) = watchers (w_disc w) /\
  forall i st, w_streams w !! i = Some st ->
    exists t, w_chans w !! i = Some (mkChan t false) /\ (t = true \/ fresh st (w_disc w)).

Lemma strip_filter room l : strip <$> list_room room l = list_room room (strip <$> l).
Proof.
  unfold list_room. induction l as [|x l IH]; [done|]. change (strip <$> x :: l) with (strip x :: (strip <$> l)). rewrite !filter_cons.
  change (l_Room (strip x)) with (l_Room x). destruct (decide (room = EmptyString \/ l_Room x = room)); [|exact IH]. cbn. f_equal. exact IH.
Qed.

Lemma sent_fresh room d : fresh (mkStream room (sendDiscoveryServersSSE room d)) d.
Proof.
  unfold fresh, current, sendDiscoveryServersSSE. cbn [ds_sent ds_room].
  pose proof (proj1 (sort_spec (list_room room (iter (snd <$> map_to_list (listings d)))))) as Hp.
  etrans; [apply fmap_Permutation, Hp|]. rewrite strip_filter. unfold list_room. apply filter_Permutation.
  etrans; [apply fmap_Permutation, iter_perm|]. rewrite map_to_list_fmap, <- !list_fmap_compose. done.
Qed.

(** All subscribers are notified, whatever the new state of the directory. *)
Lemma notify_ok d w : streams_ok w -> watchers d = watchers (w_disc w) -> exists w', notify_world d w = Some w' /\ streams_ok w'.
Proof.
  intros [Hd Hs] Hw. unfold notify_world, notifyAll, notify_snapshot. rewrite Hw.
  destruct (send_all_spec (elements (watchers (w_disc w))) (w_chans w)) as (c & -> & Hc).
  { apply Forall_forall. intros i Hi. rewrite elem_of_elements, <- Hd in Hi. apply elem_of_dom in Hi as [st Hi]. destruct (Hs i st Hi) as (t & Ht & _). by exists t. }
  eexists. split; [reflexivity|]. split; cbn; [by rewrite Hw|]. intros i st Hi. exists true. split; [|by left]. rewrite Hc.
  rewrite decide_True; [done|]. rewrite elem_of_elements, <- Hd. by apply elem_of_dom_2 in Hi.
Qed.

Lemma same_fresh d d' st : strip <$> listings d = strip <$> listings d' -> fresh st d -> fresh st d'.
Proof. unfold fresh, current. by intros ->. Qed.

Lemma heartbeat_strip id now d : strip <$> listings (heartbeat id now d).2 = strip <$> listings d /\ watchers (heartbeat id now d).2 = watchers d.
Proof.
  unfold heartbeat. destruct (listings d !! id) as [l|] eqn:Hl; [|done]. cbn. split; [|done]. rewrite fmap_insert. apply insert_id. by rewrite lookup_fmap, Hl.
Qed.

(** A clean-up that removes nothing leaves everything. *)
Lemma gc_unchanged now ttl d : (discovery_gc now ttl d).2 = false -> listings (discovery_gc now ttl d).1 = listings d.
Proof.
  unfold discovery_gc. cbn. intros Hc. apply map_filter_id. intros i l Hl. cbn.
  destruct (l_UpdatedAt l <? now - ttl) eqn:Ho; [|done]. enough (Ht : existsb (fun kv : string * listing => l_UpdatedAt kv.2 <? now - ttl) (map_to_list (listings d)) = true) by congruence.
  apply existsb_exists. exists (i, l). split; [|done]. by apply list_elem_of_In, elem_of_map_to_list.
Qed.

Lemma open_ok room w : streams_ok w -> streams_ok (stream_start room w).
Proof.
  intros [Hd Hs]. unfold stream_start, watch. split; cbn [w_streams w_disc watchers]; [rewrite dom_insert_L; by rewrite Hd|].
  intros i st. rewrite lookup_insert_Some. intros [[<- <-]|[Hne Hi]].
  - exists false. cbn [w_chans]. rewrite lookup_app_r, Nat.sub_diag by lia. split; [done|]. right. apply sent_fresh.
  - destruct (Hs i st Hi) as (t & Ht & Hf). exists t. cbn [w_chans]. split; [by apply lookup_app_l_Some|]. destruct Hf as [->|Hf]; [by left|right]. done.
Qed.

Lemma turn_ok i w : streams_ok w -> streams_ok (stream_turn i w).
Proof.
  intros [Hd Hs]. unfold stream_turn. destruct (w_streams w !! i) as [st|] eqn:Hi; [|done]. destruct (Hs i st Hi) as (t & Ht & Hf). rewrite Ht.
  destruct t; [|done]. split; cbn [w_streams w_disc w_chans]; [rewrite dom_insert_L, Hd; apply elem_of_dom_2 in Hi; rewrite Hd in Hi; set_solver|].
  intros j sj. rewrite lookup_insert_Some. intros [[<- <-]|[Hne Hj]].
  - exists false. rewrite list_lookup_insert_eq by (by eapply lookup_lt_Some). split; [done|]. right. apply sent_fresh.
  - destruct (Hs j sj Hj) as (t & Htj & Hfj). exists t. by rewrite list_lookup_insert_ne.
Qed.

Lemma end_ok i w : streams_ok w -> exists w', stream_end i w = Some w' /\ streams_ok w'.
Proof.
  intros [Hd Hs]. unfold stream_end. destruct (w_streams w !! i) as [st|] eqn:Hi; [|by exists w]. destruct (Hs i st Hi) as (t & Ht & _).
  unfold stop, close_chan. rewrite Ht. cbn. eexists. split; [reflexivity|]. split; cbn; [by rewrite dom_delete_L, Hd|].
  intros j sj. rewrite lookup_delete_Some. intros [Hne Hj]. destruct (Hs j sj Hj) as (tj & Htj & Hfj). exists tj. rewrite list_lookup_insert_ne by done. auto.
Qed.

Lemma serve_ok e w : streams_ok w -> exists w', serve e w = Some w' /\ streams_ok w'.
Proof.
  intros Hw. destruct e as [l now g|id|id now|now ttl|room|i|i]; cbn [serve].
  - apply notify_ok; [done|]. unfold register. by destruct (if decide (l_ID l = EmptyString) then randomID 12 g else (l_ID l, g)).
  - by apply notify_ok.
  - eexists. split; [reflexivity|]. destruct Hw as [Hd Hs], (heartbeat_strip id now (w_disc w)) as [He Hwt]. split; cbn; [by rewrite Hwt|].
    intros i st Hi. destruct (Hs i st Hi) as (t & Ht & Hf). exists t. split; [done|]. destruct Hf as [|Hf]; [by left|right]. by eapply same_fresh.
  - destruct (discovery_gc now ttl (w_disc w)) as [d changed] eqn:Hg. assert (Hwd : watchers d = watchers (w_disc w)) by (by injection Hg as <- _).
    destruct changed; [by apply notify_ok|]. eexists. split; [reflexivity|].
    assert (Hl : listings d = listings (w_disc w)) by (pose proof (gc_unchanged now ttl (w_disc w)) as Hu; rewrite Hg in Hu; by apply Hu).
    destruct Hw as [Hd Hs]. split; cbn; [by rewrite Hwd|]. intros i st Hi. destruct (Hs i st Hi) as (t & Ht & Hf). exists t. split; [done|].
    destruct Hf as [|Hf]; [by left|right]. eapply same_fresh; [|exact Hf]. by rewrite Hl.
  - eexists. split; [reflexivity|]. by apply open_ok.
  - eexists. split; [reflexivity|]. by apply turn_ok.
  - by apply end_ok.
Qed.

(** Over any sequence of requests, clean-ups and streams that come and go the
    server does not panic, and every open stream has a notification waiting or
    has sent exactly the servers of its room that are registered. *)
Lemma subscribers_up_to_date es : exists w, serve_all es newWorld = Some w /\ streams_ok w.
Proof.
  assert (H0 : streams_ok newWorld) by (split; [done|]; intros i st; cbn; by rewrite lookup_empty).
  revert H0. generalize newWorld. induction es as [|e es IH]; intros w Hw; [by exists w|]. destruct (serve_ok e w Hw) as (w' & Hs & Hw'). cbn. rewrite Hs. by apply IH.
Qed.

End streams.

(** A request for a listing reaches [handleDiscoveryItem]. *)
Lemma item_route id : id <> "register" -> id <> "servers" -> id <> "stream" -> route ("/discovery/" +:+ id) = HItem.
Proof.
  intros H1 H2 H3. unfold route. rewrite HasPrefix_app. rewrite !bool_decide_eq_false_2; [done|..].
  all: intros He; rewrite !append_cons in He; change (String.append EmptyString id) with id in He; first [discriminate He|injection He as He; congruence].
Qed.

End SignalRoutes.
