(* ===== verification/DtlsCcm.v ===== *)
(** * The CCM record cipher and the suites that hold a cipher

    [pkg/crypto/ciphersuite/ccm.go] of [golib/replace/dtls], the record cipher
    that builds its packets by appending, where that of [gcm.go] copies into a
    new slice, and the suites of [internal/ciphersuite], which hold their cipher
    in an atomic value: the CCM suites with their constructors and methods, the
    GCM suites and the CBC suites. *)

From S2P Require Import Prelude IO GoStr DtlsWire DtlsCrypto DtlsHandshake DtlsSuites.

Open Scope Z_scope.

Module DtlsCcm.

Section record.
Context {K : Type} `{A12 : AEAD12 K}.

Definition CCM_Encrypt (c : AeadCipher K) (h : Header) (raw rnd : bytes) : res derr bytes :=
  let size := Header_Size h in
  let! payload := from size raw in
  let! raw := sub 0 size raw in
  let! iv := sub 0 4 (localWriteIV c) in
  let nonce := [] ++ iv ++ replicate 8 zero_byte in
  let nonce := splice 4 rnd nonce in
  let! encryptedPayload := aead_Seal (localAEAD c) nonce payload (additionalData h (Z.of_nat (length payload))) in
  let encryptedPayload := drop 4 nonce ++ encryptedPayload in
  Ok (fix_length size (raw ++ encryptedPayload)).

Definition CCM_Decrypt (c : AeadCipher K) (h0 : Header) (inp : bytes) : res derr bytes :=
  let! h := Header_Unmarshal h0 inp in
  if ContentType h =? ContentTypeChangeCipherSpec then Ok inp
  else if (length inp <=? 8 + Header_Size h)%nat then Err errNotEnoughRoomForNonce
  else
    let! iv := sub 0 4 (remoteWriteIV c) in
    let! explicit := sub (Header_Size h) (Header_Size h + 8) inp in
    let! out := from (Header_Size h + 8) inp in
    match aead_Open (remoteAEAD c) (([] ++ iv) ++ explicit) out (additionalData h (Z.of_nat (length out) - Z.of_nat (tagLength c))) with
    | Err _ => Err errDecryptPacket
    | Ok out => Ok (take (Header_Size h) inp ++ out)
    end.

(** Both are the cipher of [gcm.go] over another AEAD. *)
Lemma CCM_Encrypt_aead c h raw rnd : length rnd = 8%nat -> CCM_Encrypt c h raw rnd = Aead_Encrypt c h raw rnd.
Proof.
  intros Hr. unfold CCM_Encrypt, Aead_Encrypt. destruct (from (Header_Size h) raw) as [payload|]; [|done]. cbn [res_bind].
  destruct (sub 0 (Header_Size h) raw) as [raw'|]; [|done]. cbn [res_bind]. destruct (sub 0 4 (localWriteIV c)) as [iv|] eqn:Hs; [|done]. cbn [res_bind].
  assert (Hl : length iv = 4%nat).
  { unfold sub in Hs. case_decide as Hd; [|done]. injection Hs as <-. unfold slice. rewrite length_take, length_drop. lia. }
  assert (Hn : splice 4 rnd ([] ++ iv ++ replicate 8 zero_byte) = splice 4 rnd (splice 0 iv (replicate gcmNonceLength zero_byte))).
  { destruct iv as [|a [|b [|d [|e [|]]]]]; try done. }
  by rewrite Hn.
Qed.

Lemma CCM_Decrypt_aead c h inp : CCM_Decrypt c h inp = Aead_Decrypt c h inp.
Proof.
  unfold CCM_Decrypt, Aead_Decrypt. destruct (Header_Unmarshal h inp) as [h'|]; [|done]. cbn [res_bind]. destruct (_ =? _); [done|]. destruct (_ <=? _)%nat; [done|].
  destruct (sub 0 4 _) as [iv|]; [|done]. cbn [res_bind]. destruct (sub _ _ inp) as [ex|]; [|done]. cbn [res_bind]. destruct (from _ inp) as [out|]; [|done]. cbn [res_bind]. by destruct (aead_Open _ _ _ _).
Qed.

End record.

(** ** Suites *)

(** The atomic value of a suite: nothing was stored, a nil pointer was, or a
    cipher. *)
Definition slot (C : Type) : Type := option (option C).

Definition IsInitialized {C} (v : slot C) : bool := if v is Some _ then true else false.

(** [Store] of what the constructor returned, error or not. *)
Definition store_made {C} (r : res derr C) : res derr unit * slot C :=
  match r with Ok c => (Ok tt, Some (Some c)) | Err e => (Err e, Some None) end.

(** A call through the value: the type assertion fails when nothing was stored,
    and [onNil] is what the method does with a nil receiver. *)
Definition through {C A} (v : slot C) (onNil : res derr A) (f : C -> res derr A) : res derr A :=
  match v with None => Err errCipherSuiteNotInit | Some None => onNil | Some (Some c) => f c end.

(** [Decrypt] of the AEAD ciphers looks at the packet before it reads a field of
    its receiver. *)
Definition Decrypt_nil (h0 : Header) (inp : bytes) : res derr bytes :=
  let! h := Header_Unmarshal h0 inp in
  if ContentType h =? ContentTypeChangeCipherSpec then Ok inp
  else if (length inp <=? 8 + Header_Size h)%nat then Err errNotEnoughRoomForNonce
  else Err Panic.

(** The names of the suites, and what is printed for another number. *)
Definition ID_String (i : Z) : string :=
  if i =? cs_ID TLS_ECDHE_ECDSA_WITH_AES_128_CCM then "TLS_ECDHE_ECDSA_WITH_AES_128_CCM" else
  if i =? cs_ID TLS_ECDHE_ECDSA_WITH_AES_128_CCM_8 then "TLS_ECDHE_ECDSA_WITH_AES_128_CCM_8" else
  if i =? cs_ID TLS_ECDHE_ECDSA_WITH_AES_128_GCM_SHA256 then "TLS_ECDHE_ECDSA_WITH_AES_128_GCM_SHA256" else
  if i =? cs_ID TLS_ECDHE_RSA_WITH_AES_128_GCM_SHA256 then "TLS_ECDHE_RSA_WITH_AES_128_GCM_SHA256" else
  if i =? cs_ID TLS_ECDHE_ECDSA_WITH_AES_256_CBC_SHA then "TLS_ECDHE_ECDSA_WITH_AES_256_CBC_SHA" else
  if i =? cs_ID TLS_ECDHE_RSA_WITH_AES_256_CBC_SHA then "TLS_ECDHE_RSA_WITH_AES_256_CBC_SHA" else
  if i =? cs_ID TLS_PSK_WITH_AES_128_CCM then "TLS_PSK_WITH_AES_128_CCM" else
  if i =? cs_ID TLS_PSK_WITH_AES_128_CCM_8 then "TLS_PSK_WITH_AES_128_CCM_8" else
  if i =? cs_ID TLS_PSK_WITH_AES_256_CCM_8 then "TLS_PSK_WITH_AES_256_CCM_8" else
  if i =? cs_ID TLS_PSK_WITH_AES_128_GCM_SHA256 then "TLS_PSK_WITH_AES_128_GCM_SHA256" else
  if i =? cs_ID TLS_PSK_WITH_AES_128_CBC_SHA256 then "TLS_PSK_WITH_AES_128_CBC_SHA256" else
  if i =? cs_ID TLS_ECDHE_ECDSA_WITH_AES_256_GCM_SHA384 then "TLS_ECDHE_ECDSA_WITH_AES_256_GCM_SHA384" else
  if i =? cs_ID TLS_ECDHE_RSA_WITH_AES_256_GCM_SHA384 then "TLS_ECDHE_RSA_WITH_AES_256_GCM_SHA384" else
  if i =? cs_ID TLS_ECDHE_PSK_WITH_AES_128_CBC_SHA256 then "TLS_ECDHE_PSK_WITH_AES_128_CBC_SHA256" else
  String.append "unknown(" (String.append (itoa i) ")").

Lemma ID_String_known a b : In a known_suites -> In b known_suites -> ID_String (cs_ID a) = ID_String (cs_ID b) -> a = b.
Proof.
  intros Ha Hb. repeat (destruct Ha as [<-|Ha]; [repeat (destruct Hb as [<-|Hb]; [by vm_compute|]); by destruct Hb|]). by destruct Ha.
Qed.

Lemma protects_ext n enc enc' dec dec' :
  (forall h raw rnd, length rnd = n -> enc' h raw rnd = enc h raw rnd) -> (forall h inp, dec' h inp = dec h inp) -> protects n enc dec -> protects n enc' dec'.
Proof.
  intros He Hd Hp h p rnd H1 H2 H3 H4 H5 H6. destruct (Hp h p rnd H1 H2 H3 H4 H5 H6) as (c & Ec & Hc1 & Hc2 & Ed). exists c.
  rewrite He by done. split; [done|]. split; [done|]. split; [done|]. intros h0 Hh. rewrite Hd. by apply Ed.
Qed.

Section suites.
Context {H K B : Type} `{HH : Hash H} `{A12 : AEAD12 K} `{BC : BlockCipher B}.
Variables (newAEAD : bytes -> res derr K) (newCipher : bytes -> res derr B).

(** *** CCM *)

(** The struct without its cipher, which is the [slot] beside it. *)
Record AesCcm := mkAesCcm {
  clientCertificateType : Z;
  id : Z;
  psk : bool;
  keyExchangeAlgorithm : Z;
  cryptoCCMTagLen : nat;
  ecc : bool
}.

(** [Aes128Ccm] and [Aes256Ccm] embed it, and differ in the length of the key. *)
Inductive CcmSuite := Aes128Ccm (c : AesCcm) | Aes256Ccm (c : AesCcm).

Definition AesCcm_of (s : CcmSuite) : AesCcm := match s with Aes128Ccm c | Aes256Ccm c => c end.

Definition newAes128Ccm (cert i : Z) (p : bool) (tagLen : nat) (kx : Z) (e : bool) : CcmSuite := Aes128Ccm (mkAesCcm cert i p kx tagLen e).
Definition newAes256Ccm (cert i : Z) (p : bool) (tagLen : nat) (kx : Z) (e : bool) : CcmSuite := Aes256Ccm (mkAesCcm cert i p kx tagLen e).

Definition CCMTagLength8 : nat := 8.
Definition CCMTagLength : nat := 16.

Definition NewTLSEcdheEcdsaWithAes128Ccm : CcmSuite := newAes128Ccm ECDSASign 49324 false CCMTagLength KeyExchangeAlgorithmEcdhe true.
Definition NewTLSEcdheEcdsaWithAes128Ccm8 : CcmSuite := newAes128Ccm ECDSASign 49326 false CCMTagLength8 KeyExchangeAlgorithmEcdhe true.
Definition NewTLSPskWithAes128Ccm : CcmSuite := newAes128Ccm 0 49316 true CCMTagLength KeyExchangeAlgorithmPsk false.
Definition NewTLSPskWithAes128Ccm8 : CcmSuite := newAes128Ccm 0 49320 true CCMTagLength8 KeyExchangeAlgorithmPsk false.
Definition NewTLSPskWithAes256Ccm8 : CcmSuite := newAes256Ccm 0 49321 true CCMTagLength8 KeyExchangeAlgorithmPsk false.

Definition AesCcm_AuthenticationType (c : AesCcm) : AuthenticationType := if psk c then AuthPreSharedKey else AuthCertificate.

(** What the handshake asks a CCM suite: its methods, as the record of
    [DtlsSuites]. *)
Definition AesCcm_methods (c : AesCcm) : csuite :=
  mkSuite (id c) (clientCertificateType c) SHA256_ (AesCcm_AuthenticationType c) (keyExchangeAlgorithm c) (ecc c).

Definition AesCcm_Init (tagLen prfKeyLen : nat) (h : H) (ms cr sr : bytes) (isClient : bool) (v : slot (AeadCipher K))
    : res derr unit * slot (AeadCipher K) :=
  match GenerateEncryptionKeys ms cr sr 0 prfKeyLen 4 h with
  | Err e => (Err e, v)
  | Ok keys =>
      store_made (if isClient
             then NewAead newAEAD tagLen (ClientWriteKey keys) (ClientWriteIV keys) (ServerWriteKey keys) (ServerWriteIV keys)
             else NewAead newAEAD tagLen (ServerWriteKey keys) (ServerWriteIV keys) (ClientWriteKey keys) (ClientWriteIV keys))
  end.

Definition prfKeyLen_of (s : CcmSuite) : nat := match s with Aes128Ccm _ => 16 | Aes256Ccm _ => 32 end.

Definition CcmSuite_Init (s : CcmSuite) (h : H) (ms cr sr : bytes) (isClient : bool) (v : slot (AeadCipher K)) : res derr unit * slot (AeadCipher K) :=
  AesCcm_Init (cryptoCCMTagLen (AesCcm_of s)) (prfKeyLen_of s) h ms cr sr isClient v.

Definition AesCcm_Encrypt (v : slot (AeadCipher K)) (h : Header) (raw rnd : bytes) : res derr bytes :=
  through v (Err Panic) (fun c => CCM_Encrypt c h raw rnd).
Definition AesCcm_Decrypt (v : slot (AeadCipher K)) (h : Header) (raw : bytes) : res derr bytes :=
  through v (Decrypt_nil h raw) (fun c => CCM_Decrypt c h raw).

(** *** GCM: [init] is shared, the suites pass the lengths and the hash. *)
Definition Gcm_init (h : H) (ms cr sr : bytes) (isClient : bool) (prfMacLen prfKeyLen prfIvLen : nat) (v : slot (AeadCipher K))
    : res derr unit * slot (AeadCipher K) :=
  match GenerateEncryptionKeys ms cr sr prfMacLen prfKeyLen prfIvLen h with
  | Err e => (Err e, v)
  | Ok keys =>
      store_made (if isClient
             then NewAead newAEAD gcmTagLength (ClientWriteKey keys) (ClientWriteIV keys) (ServerWriteKey keys) (ServerWriteIV keys)
             else NewAead newAEAD gcmTagLength (ServerWriteKey keys) (ServerWriteIV keys) (ClientWriteKey keys) (ClientWriteIV keys))
  end.

Definition Aes128Gcm_Init (sha256 : H) (ms cr sr : bytes) (isClient : bool) (v : slot (AeadCipher K)) := Gcm_init sha256 ms cr sr isClient 0 16 4 v.
Definition Aes256Gcm_Init (sha384 : H) (ms cr sr : bytes) (isClient : bool) (v : slot (AeadCipher K)) := Gcm_init sha384 ms cr sr isClient 0 32 4 v.

Definition Gcm_Encrypt (v : slot (AeadCipher K)) (h : Header) (raw rnd : bytes) : res derr bytes :=
  through v (Err Panic) (fun c => Aead_Encrypt c h raw rnd).
Definition Gcm_Decrypt (v : slot (AeadCipher K)) (h : Header) (raw : bytes) : res derr bytes :=
  through v (Decrypt_nil h raw) (fun c => Aead_Decrypt c h raw).

(** *** CBC: the hash of the derivation, [hPrf], is that of the suite; the
    records are authenticated with [hMac]. *)
Definition Cbc_Init (prfMacLen prfKeyLen : nat) (hPrf hMac : H) (ms cr sr : bytes) (isClient : bool) (v : slot (CBC B H)) : res derr unit * slot (CBC B H) :=
  match GenerateEncryptionKeys ms cr sr prfMacLen prfKeyLen 16 hPrf with
  | Err e => (Err e, v)
  | Ok keys =>
      store_made (if isClient
             then NewCBC newCipher (ClientWriteKey keys) (ClientMACKey keys) (ServerWriteKey keys) (ServerMACKey keys) hMac
             else NewCBC newCipher (ServerWriteKey keys) (ServerMACKey keys) (ClientWriteKey keys) (ClientMACKey keys) hMac)
  end.

Definition Aes256CbcSha_Init (sha256 sha1 : H) (ms cr sr : bytes) (isClient : bool) (v : slot (CBC B H)) := Cbc_Init 20 32 sha256 sha1 ms cr sr isClient v.
Definition PskAes128Cbc_Init (sha256 : H) (ms cr sr : bytes) (isClient : bool) (v : slot (CBC B H)) := Cbc_Init 32 16 sha256 sha256 ms cr sr isClient v.
Definition EcdhePskAes128Cbc_Init (sha256 : H) (ms cr sr : bytes) (isClient : bool) (v : slot (CBC B H)) := Cbc_Init 32 16 sha256 sha256 ms cr sr isClient v.

Definition Cbc_Encrypt (v : slot (CBC B H)) (h : Header) (raw rnd : bytes) : res derr bytes := through v (Err Panic) (fun c => CBC_Encrypt c h raw rnd).
Definition Cbc_Decrypt (v : slot (CBC B H)) (h : Header) (raw : bytes) : res derr bytes := through v (Err Panic) (fun c => CBC_Decrypt c h raw).

(** The constructors make the suites of the table of [DtlsSuites]. *)
Lemma ccm_constructors :
  map (fun s => AesCcm_methods (AesCcm_of s))
    [NewTLSEcdheEcdsaWithAes128Ccm; NewTLSEcdheEcdsaWithAes128Ccm8; NewTLSPskWithAes128Ccm; NewTLSPskWithAes128Ccm8; NewTLSPskWithAes256Ccm8] =
  [TLS_ECDHE_ECDSA_WITH_AES_128_CCM; TLS_ECDHE_ECDSA_WITH_AES_128_CCM_8; TLS_PSK_WITH_AES_128_CCM; TLS_PSK_WITH_AES_128_CCM_8; TLS_PSK_WITH_AES_256_CCM_8].
Proof. reflexivity. Qed.

Lemma AesCcm_Init_aead tagLen keyLen h ms cr sr isClient v :
  AesCcm_Init tagLen keyLen h ms cr sr isClient v = store_made (aead_Init newAEAD tagLen keyLen h ms cr sr isClient).
Proof.
  unfold AesCcm_Init, aead_Init. destruct (GenerateEncryptionKeys_ok ms cr sr 0 keyLen 4 h) as (keys & -> & _). cbn [res_bind]. by destruct isClient.
Qed.

Lemma Gcm_init_aead keyLen h ms cr sr isClient v :
  Gcm_init h ms cr sr isClient 0 keyLen 4 v = store_made (aead_Init newAEAD gcmTagLength keyLen h ms cr sr isClient).
Proof.
  unfold Gcm_init, aead_Init. destruct (GenerateEncryptionKeys_ok ms cr sr 0 keyLen 4 h) as (keys & -> & _). cbn [res_bind]. by destruct isClient.
Qed.

Lemma Cbc_Init_cbc macLen keyLen hPrf hMac ms cr sr isClient v :
  Cbc_Init macLen keyLen hPrf hMac ms cr sr isClient v = store_made (cbc_Init newCipher macLen keyLen hPrf hMac ms cr sr isClient).
Proof.
  unfold Cbc_Init, cbc_Init. destruct (GenerateEncryptionKeys_ok ms cr sr macLen keyLen 16 hPrf) as (keys & -> & _). cbn [res_bind]. by destruct isClient.
Qed.

(** Two ends that initialised their slots understand each other, whichever slot
    the ciphers are in. *)
Definition slots_understand {C} (n : nat) (enc : slot C -> Header -> bytes -> bytes -> res derr bytes) (dec : slot C -> Header -> bytes -> res derr bytes)
    (init : bool -> res derr unit * slot C) : Prop :=
  forall vc, init true = (Ok tt, vc) ->
    exists vs, init false = (Ok tt, vs) /\ IsInitialized vc = true /\ IsInitialized vs = true /\ protects n (enc vc) (dec vs) /\ protects n (enc vs) (dec vc).

Lemma ccm_slots_understand s h ms cr sr v :
  (0 < cryptoCCMTagLen (AesCcm_of s) <= 16)%nat -> (forall key k, newAEAD key = Ok k -> aead_Overhead k = cryptoCCMTagLen (AesCcm_of s)) ->
  slots_understand 8 AesCcm_Encrypt AesCcm_Decrypt (fun isClient => CcmSuite_Init s h ms cr sr isClient (v isClient)).
Proof.
  intros Ht Ho vc. unfold CcmSuite_Init. rewrite !AesCcm_Init_aead. destruct (aead_Init newAEAD _ _ h ms cr sr true) as [c|] eqn:Hc; [|done]. intros [= <-].
  destruct (aead_Init_peers newAEAD _ _ h ms cr sr c Ht Ho Hc) as (p & Hs & H1 & H2). rewrite Hs. eexists. split; [reflexivity|]. do 2 (split; [done|]).
  pose proof (rc_roundtrip _ _ H1) as R1. pose proof (rc_roundtrip _ _ H2) as R2. cbn [rc_rnd rc_Encrypt rc_Decrypt aead_record_cipher] in R1, R2.
  split; [refine (protects_ext 8 _ _ _ _ _ _ R1)|refine (protects_ext 8 _ _ _ _ _ _ R2)]; intros; cbn [AesCcm_Encrypt AesCcm_Decrypt through];
    solve [by apply CCM_Encrypt_aead|apply CCM_Decrypt_aead].
Qed.

Lemma gcm_slots_understand keyLen h ms cr sr v :
  (forall key k, newAEAD key = Ok k -> aead_Overhead k = gcmTagLength) ->
  slots_understand 8 Gcm_Encrypt Gcm_Decrypt (fun isClient => Gcm_init h ms cr sr isClient 0 keyLen 4 (v isClient)).
Proof.
  intros Ho vc. rewrite !Gcm_init_aead. destruct (aead_Init newAEAD _ _ h ms cr sr true) as [c|] eqn:Hc; [|done]. intros [= <-].
  assert (Ht : (0 < gcmTagLength <= 16)%nat) by (unfold gcmTagLength; lia).
  destruct (aead_Init_peers newAEAD _ _ h ms cr sr c Ht Ho Hc) as (p & Hs & H1 & H2). rewrite Hs. eexists. split; [reflexivity|]. do 2 (split; [done|]).
  split; [exact (rc_roundtrip _ _ H1)|exact (rc_roundtrip _ _ H2)].
Qed.

Lemma cbc_slots_understand macLen keyLen hPrf hMac ms cr sr v :
  (hash_Size hMac <= 64)%nat ->
  slots_understand 16 Cbc_Encrypt Cbc_Decrypt (fun isClient => Cbc_Init macLen keyLen hPrf hMac ms cr sr isClient (v isClient)).
Proof.
  intros Hh vc. rewrite !Cbc_Init_cbc. destruct (cbc_Init newCipher macLen keyLen hPrf hMac ms cr sr true) as [c|] eqn:Hc; [|done]. intros [= <-].
  destruct (cbc_Init_peers newCipher macLen keyLen hPrf hMac ms cr sr c Hh Hc) as (p & Hs & H1 & H2). rewrite Hs. eexists. split; [reflexivity|]. do 2 (split; [done|]).
  split; [exact (rc_roundtrip _ _ H1)|exact (rc_roundtrip _ _ H2)].
Qed.

(** A suite whose initialisation failed looks initialised and panics when it is
    used. *)
Lemma failed_init_looks_ready s h ms cr sr isClient v e :
  (forall key, newAEAD key = Err e) ->
  exists w, CcmSuite_Init s h ms cr sr isClient v = (Err e, w) /\ IsInitialized w = true /\ forall hd raw rnd, AesCcm_Encrypt w hd raw rnd = Err Panic.
Proof.
  intros He. unfold CcmSuite_Init. rewrite AesCcm_Init_aead. unfold aead_Init, NewAead. destruct (GenerateEncryptionKeys_ok ms cr sr 0 (prfKeyLen_of s) 4 h) as (keys & -> & _). cbn [res_bind].
  destruct isClient; rewrite He; cbn; eexists; done.
Qed.

End suites.
End DtlsCcm.
