(* ===== verification/Helpers.v ===== *)
(** * Logs, quality scores, network changes, keep-alive and RTCP

    The helpers that run beside the connections: the ring buffer of log
    entries with its cursors and the masking of addresses
    ([golib/applog/applog.go]), the scores of peers ([quality.go]), the
    callbacks for network changes ([netmon.go]), the STUN keep-alive
    ([keepalive.go]) and the simulated RTCP reports ([media_rtcp.go]). *)

From S2P Require Import Prelude IO GoStr.
From Stdlib Require Import QArith Lqa.

Open Scope Z_scope.

Module Helpers.

(** ** The log *)

Definition maxEntries : Z := 500.

Record entry := mkEntry { e_Time : string; e_Level : string; e_Message : string }.

(** The package variables; [buf] always has [maxEntries] entries. *)
Record logst := mkLog { lg_buf : list entry; lg_head : Z; lg_count : Z; lg_maskIPs : bool }.

Definition noEntry : entry := mkEntry "" "" "".
Definition initLog : logst := mkLog (replicate (Z.to_nat maxEntries) noEntry) 0 0 false.

Definition SetMaskIPs (enabled : bool) (g : logst) : logst := mkLog (lg_buf g) (lg_head g) (lg_count g) enabled.

(** *** Masking

    [ipv4Re] is three groups of one to three digits and a dot, and a fourth
    group.  A group of digits must end at its dot, so it never backtracks. *)

Definition dot : Ascii.ascii := "."%char.
Definition star : Ascii.ascii := "*"%char.
Definition isDigit (c : Ascii.ascii) : bool :=
  let n := Ascii.nat_of_ascii c in (48 <=? n)%nat && (n <=? 57)%nat.

(** One to [n] digits and a dot: what was read, with the dot, and the rest. *)
Fixpoint octet_dot (n : nat) (s : string) : option (string * string) :=
  match s, n with
  | String c r, S n =>
      if isDigit c then
        match r with
        | String d r' => if decide (d = dot) then Some (String c (String dot EmptyString), r')
                         else '(p, q) ← octet_dot n r; Some (String c p, q)
        | EmptyString => None
        end
      else None
  | _, _ => None
  end.

(** Up to [n] digits are dropped. *)
Fixpoint drop_digits (n : nat) (s : string) : string :=
  match s, n with
  | String c r, S n => if isDigit c then drop_digits n r else s
  | _, _ => s
  end.

Definition starts_digit (s : string) : bool := match s with String c _ => isDigit c | EmptyString => false end.

(** A match at the start: the first three groups with their dots, and what
    follows the fourth. *)
Definition match_ipv4 (s : string) : option (string * string) :=
  '(a, s) ← octet_dot 3 s;
  '(b, s) ← octet_dot 3 s;
  '(c, s) ← octet_dot 3 s;
  if starts_digit s then Some (String.append a (String.append b c), drop_digits 3 s) else None.

(** [ReplaceAllString]; a match is at least seven characters long, so the
    length of the text is enough fuel. *)
Fixpoint mask_loop (fuel : nat) (s : string) : string :=
  match fuel, s with
  | S fuel, String c r =>
      match match_ipv4 s with
      | Some (g, rest) => String.append g (String star (mask_loop fuel rest))
      | None => String c (mask_loop fuel r)
      end
  | _, _ => s
  end.

Definition maskIPAddresses (msg : string) : string := mask_loop (String.length msg) msg.

(** *** Writing and reading *)

Definition log_add (now level msg : string) (g : logst) : logst :=
  let msg := if lg_maskIPs g then maskIPAddresses msg else msg in
  mkLog (<[Z.to_nat (lg_head g mod maxEntries) := mkEntry now level msg]> (lg_buf g)) (lg_head g + 1) (lg_count g + 1)
    (lg_maskIPs g).

Definition Info (now msg : string) : logst -> logst := log_add now "info" msg.
Definition Warn (now msg : string) : logst -> logst := log_add now "warn" msg.
Definition Error_ (now msg : string) : logst -> logst := log_add now "error" msg.
Definition Success (now msg : string) : logst -> logst := log_add now "success" msg.

(** The new cursor and the entries; [None] is the panic of [make] with a
    negative capacity. *)
Definition GetLogs (cursor : Z) (g : logst) : option (Z * list entry) :=
  let oldest := Z.max (lg_count g - maxEntries) 0 in
  let cursor := Z.max cursor oldest in
  let n := lg_count g - cursor in
  if n <? 0 then None
  else Some (lg_count g, (fun i => nth (Z.to_nat (i mod maxEntries)) (lg_buf g) noEntry) <$> seqZ cursor n).

Definition ClearLogs (g : logst) : logst := mkLog (lg_buf g) 0 0 (lg_maskIPs g).

(** What the application can do between two reads. *)
Inductive log_op := LAdd (now level msg : string) | LClear | LMask (b : bool).

Definition log_step (g : logst) (o : log_op) : logst :=
  match o with
  | LAdd now level msg => log_add now level msg g
  | LClear => ClearLogs g
  | LMask b => SetMaskIPs b g
  end.

(** The reference: everything that was written since the last [ClearLogs]. *)
Record logbook := mkBook { bk_all : list entry; bk_mask : bool }.

Definition book_step (b : logbook) (o : log_op) : logbook :=
  match o with
  | LAdd now level msg => mkBook (bk_all b ++ [mkEntry now level (if bk_mask b then maskIPAddresses msg else msg)]) (bk_mask b)
  | LClear => mkBook [] (bk_mask b)
  | LMask m => mkBook (bk_all b) m
  end.

Definition represents (g : logst) (b : logbook) : Prop :=
  length (lg_buf g) = Z.to_nat maxEntries /\ lg_head g = Z.of_nat (length (bk_all b)) /\ lg_count g = lg_head g /\
  lg_maskIPs g = bk_mask b /\
  forall i e, bk_all b !! i = Some e -> (length (bk_all b) <= i + Z.to_nat maxEntries)%nat ->
    lg_buf g !! (i mod Z.to_nat maxEntries)%nat = Some e.

Lemma mod_max (n : nat) : Z.to_nat (Z.of_nat n mod maxEntries) = (n mod Z.to_nat maxEntries)%nat.
Proof. unfold maxEntries. rewrite <- (Nat2Z.id (n mod Z.to_nat 500)). f_equal. rewrite Nat2Z.inj_mod. done. Qed.

Lemma mod_neq (i n m : nat) : (0 < m)%nat -> (i < n)%nat -> (n < i + m)%nat -> (i mod m <> n mod m)%nat.
Proof.
  intros Hm Hi Hn Heq.
  pose proof (Nat.div_mod i m ltac:(lia)) as H1. pose proof (Nat.div_mod n m ltac:(lia)) as H2.
  pose proof (Nat.mod_upper_bound i m ltac:(lia)). pose proof (Nat.mod_upper_bound n m ltac:(lia)).
  assert (Hd : (m * (n / m) = m * (i / m) + (n - i))%nat) by lia.
  assert ((n / m <= i / m)%nat \/ (i / m + 1 <= n / m)%nat) as [Hle|Hge] by lia.
  - assert ((m * (n / m) <= m * (i / m))%nat) by (apply Nat.mul_le_mono_l; lia). lia.
  - assert ((m * (i / m + 1) <= m * (n / m))%nat) by (apply Nat.mul_le_mono_l; lia). lia.
Qed.

Lemma represents_init : represents initLog (mkBook [] false).
Proof. split_and!; [apply length_replicate|done..]. Qed.

Lemma represents_step g b o : represents g b -> represents (log_step g o) (book_step b o).
Proof.
  intros (Hl & Hh & Hc & Hm & Hb). destruct o as [now level msg| |mask]; [|by split_and!..].
  unfold log_step, log_add, book_step. rewrite Hm.
  split_and!; cbn [lg_buf lg_head lg_count lg_maskIPs bk_all bk_mask]; [by rewrite length_insert|rewrite length_app; cbn; lia|lia|done|].
  intros i e Hi Hlen. rewrite length_app in Hlen. cbn in Hlen. rewrite Hh, mod_max.
  apply lookup_app_Some in Hi as [Hi|[Hge Hi]].
  - rewrite list_lookup_insert_ne; [apply Hb; [done|lia]|]. apply lookup_lt_Some in Hi.
    intros Heq. symmetry in Heq. revert Heq. apply mod_neq; unfold maxEntries in *; lia.
  - destruct (i - length (bk_all b))%nat eqn:Hd; [|by destruct n]. injection Hi as <-. replace i with (length (bk_all b)) by lia.
    rewrite list_lookup_insert_eq; [done|]. rewrite Hl. apply Nat.mod_upper_bound. unfold maxEntries. lia.
Qed.

(** Reading entry by entry what the buffer represents. *)
Lemma ring_slice g b (k n : nat) : represents g b -> (k + n = length (bk_all b))%nat -> (n <= Z.to_nat maxEntries)%nat ->
  (fun i => nth (Z.to_nat (i mod maxEntries)) (lg_buf g) noEntry) <$> seqZ (Z.of_nat k) (Z.of_nat n) = drop k (bk_all b).
Proof.
  intros (Hl & _ & _ & _ & Hb). revert k. induction n as [|n IH]; intros k Hk Hn.
  { cbn. symmetry. apply drop_ge. lia. }
  rewrite seqZ_cons by lia. cbn [fmap list_fmap]. rewrite mod_max.
  destruct (lookup_lt_is_Some_2 (bk_all b) k) as [e He]; [lia|]. rewrite (drop_S _ e) by done. f_equal.
  - pose proof (Hb k e He ltac:(lia)) as Hr. by apply nth_lookup_Some.
  - replace (Z.succ (Z.of_nat k)) with (Z.of_nat (S k)) by lia. replace (Z.pred (Z.of_nat (S n))) with (Z.of_nat n) by lia.
    apply IH; lia.
Qed.

Definition after (l : list log_op) : logst := foldl log_step initLog l.
Definition written (l : list log_op) : list entry := bk_all (foldl book_step (mkBook [] false) l).

Lemma represents_after l : represents (after l) (foldl book_step (mkBook [] false) l).
Proof.
  unfold after. generalize represents_init. generalize initLog, (mkBook [] false). induction l as [|o l IH]; intros g b Hr; [done|].
  apply IH. by apply represents_step.
Qed.

(** *** Masked text has no address *)

(** [agree s t]: [t] is [s] up to the first star of [t]. *)
Inductive agree : string -> string -> Prop :=
| ag_nil : agree EmptyString EmptyString
| ag_star s t : agree s (String star t)
| ag_cons c s t : agree s t -> agree (String c s) (String c t).

Lemma agree_refl s : agree s s.
Proof. induction s; by constructor. Qed.

Lemma agree_app u s t : agree s t -> agree (String.append u s) (String.append u t).
Proof. intros Hs. induction u; [done|]. by constructor. Qed.

Lemma octet_dot_agree n s t p q : agree s t -> octet_dot n t = Some (p, q) -> exists q', octet_dot n s = Some (p, q') /\ agree q' q.
Proof.
  revert s t p q. induction n as [|n IH]; intros s t p q Ha Ht; [by destruct t|].
  destruct Ha as [|s t|c s t Ha]; [done|done|]. cbn [octet_dot] in *. destruct (isDigit c) eqn:Hc; [|done].
  destruct t as [|d t']; [done|]. case_decide as Hd.
  - subst d. inversion Ha as [|? ? Heq|? s' ? Ha']; subst. injection Ht as <- <-. rewrite decide_True by done. eauto.
  - destruct (octet_dot n (String d t')) as [[p' q0]|] eqn:Hn; [|done]. cbn in Ht. injection Ht as <- <-.
    destruct (IH s _ _ _ Ha Hn) as (q' & Hs & Hq).
    destruct s as [|d' s']; [by destruct n|]. inversion Ha; subst; [by destruct n|]. rewrite decide_False by done. rewrite Hs. cbn. eauto.
Qed.

Lemma match_agree s t : agree s t -> match_ipv4 s = None -> match_ipv4 t = None.
Proof.
  intros Ha Hs. destruct (match_ipv4 t) as [[g r]|] eqn:Ht; [|done]. exfalso. unfold match_ipv4 in *.
  apply bind_Some in Ht as ([a t1] & H1 & Ht). destruct (octet_dot_agree _ _ _ _ _ Ha H1) as (s1 & Hs1 & Ha1).
  apply bind_Some in Ht as ([b t2] & H2 & Ht). destruct (octet_dot_agree _ _ _ _ _ Ha1 H2) as (s2 & Hs2 & Ha2).
  apply bind_Some in Ht as ([c t3] & H3 & Ht). destruct (octet_dot_agree _ _ _ _ _ Ha2 H3) as (s3 & Hs3 & Ha3).
  assert (Hd : starts_digit t3 = true) by (by destruct (starts_digit t3)).
  assert (Hd' : starts_digit s3 = true) by (by destruct Ha3).
  rewrite Hs1 in Hs. cbn [mbind option_bind] in Hs. rewrite Hs2 in Hs. cbn [mbind option_bind] in Hs. rewrite Hs3 in Hs.
  cbn [mbind option_bind] in Hs. by rewrite Hd' in Hs.
Qed.

(** What a match reads. *)
Lemma octet_dot_text n s p q : octet_dot n s = Some (p, q) -> s = String.append p q.
Proof.
  revert s p q. induction n as [|n IH]; intros s p q Hs; [by destruct s|]. destruct s as [|c r]; [done|]. cbn in Hs.
  destruct (isDigit c); [|done]. destruct r as [|d r']; [done|]. case_decide; [by subst; injection Hs as <- <-|].
  destruct (octet_dot n (String d r')) as [[p' q']|] eqn:Hn; [|done]. cbn in Hs. injection Hs as <- <-. apply IH in Hn. exact (f_equal (String c) Hn).
Qed.

Lemma text_length a b : String.length (String.append a b) = (String.length a + String.length b)%nat.
Proof. induction a as [|x a IH]; [done|]. exact (f_equal S IH). Qed.

Lemma drop_digits_shorter n s : (String.length (drop_digits n s) <= String.length s)%nat.
Proof. revert s. induction n as [|n IH]; intros [|c s]; cbn; [done..|]. destruct (isDigit c); [|done]. specialize (IH s). lia. Qed.

Lemma match_text s g r : match_ipv4 s = Some (g, r) ->
  exists t, s = String.append g t /\ starts_digit t = true /\ r = drop_digits 3 t /\ (String.length r < String.length s)%nat.
Proof.
  unfold match_ipv4. intros Hm.
  apply bind_Some in Hm as ([a s1] & H1 & Hm). apply bind_Some in Hm as ([b s2] & H2 & Hm). apply bind_Some in Hm as ([c s3] & H3 & Hr).
  destruct (starts_digit s3) eqn:Hd; [|done]. injection Hr as <- <-. apply octet_dot_text in H1, H2, H3. exists s3.
  assert (Hs : s = String.append (String.append a (String.append b c)) s3) by (by rewrite !append_assoc, <- H3, <- H2, <- H1).
  split_and!; try done. destruct s3 as [|x s3]; [done|]. rewrite Hs, text_length.
  pose proof (drop_digits_shorter 2 s3). cbn in *. rewrite Hd. lia.
Qed.

(** An address somewhere in a text. *)
Fixpoint has_ipv4 (s : string) : bool :=
  match match_ipv4 s with
  | Some _ => true
  | None => match s with String _ r => has_ipv4 r | EmptyString => false end
  end.

Fixpoint dots (s : string) : nat :=
  match s with String c r => ((if decide (c = dot) then 1 else 0) + dots r)%nat | EmptyString => 0%nat end.
Fixpoint dot_end (s : string) : bool :=
  match s with EmptyString => true | String c EmptyString => bool_decide (c = dot) | String _ r => dot_end r end.

Lemma dots_app a b : dots (String.append a b) = (dots a + dots b)%nat.
Proof. induction a as [|c a IH]; [done|]. change (dots (String.append (String c a) b)) with ((if decide (c = dot) then 1 else 0) + dots (String.append a b))%nat.
  rewrite IH. cbn. lia. Qed.

Lemma dot_end_tail c u : dot_end (String c u) = true -> dot_end u = true.
Proof. by destruct u. Qed.

Lemma dot_end_app p u : dot_end (String.append p u) = true -> dot_end u = true.
Proof. induction p as [|c p IH]; [done|]. intros Hd. apply IH. by eapply dot_end_tail. Qed.

Lemma dot_end_app_2 p u : dot_end p = true -> dot_end u = true -> dot_end (String.append p u) = true.
Proof.
  intros Hp Hu. induction p as [|c p IH]; [done|]. destruct p as [|d p]; [by destruct u|]. apply IH. by eapply dot_end_tail.
Qed.

Lemma dot_end_dots u : dot_end u = true -> starts_digit u = true -> (0 < dots u)%nat.
Proof.
  destruct u as [|c u]; [done|]. intros Hd _. revert c Hd. induction u as [|d u IH]; intros c Hd.
  - cbn in *. apply bool_decide_eq_true in Hd. rewrite decide_True by done. lia.
  - specialize (IH d Hd). cbn in *. lia.
Qed.

Lemma octet_dot_dots n s p q : octet_dot n s = Some (p, q) -> dots p = 1%nat /\ dot_end p = true.
Proof.
  revert s p q. induction n as [|n IH]; intros s p q Hs; [by destruct s|]. destruct s as [|c r]; [done|]. cbn in Hs.
  destruct (isDigit c) eqn:Hc; [|done]. assert (Hne : c <> dot) by (by intros ->). destruct r as [|d r']; [done|]. case_decide.
  - injection Hs as <- <-. cbn. by rewrite (decide_False (P := c = dot)) by done.
  - destruct (octet_dot n (String d r')) as [[p' q']|] eqn:Hn; [|done]. cbn in Hs. injection Hs as <- <-.
    destruct (IH _ _ _ Hn) as [Hd He]. split; [cbn; by rewrite decide_False by done|]. by destruct p'.
Qed.

(** Before a star a group is read from the text before it. *)
Lemma octet_dot_star n u m p q : octet_dot n (String.append u (String star m)) = Some (p, q) ->
  exists u', u = String.append p u' /\ q = String.append u' (String star m).
Proof.
  revert u p q. induction n as [|n IH]; intros u p q Hs; [by destruct u|]. destruct u as [|c u]; [done|].
  change (String.append (String c u) (String star m)) with (String c (String.append u (String star m))) in Hs. cbn [octet_dot] in Hs.
  destruct (isDigit c); [|done]. destruct u as [|d u].
  - destruct n; cbn in Hs; done.
  - change (String.append (String d u) (String star m)) with (String d (String.append u (String star m))) in Hs. cbv beta iota in Hs. case_decide.
    + subst. injection Hs as <- <-. by exists u.
    + destruct (octet_dot n _) as [[p' q']|] eqn:Hn; [|done]. cbn in Hs. injection Hs as <- <-.
      destruct (IH (String d u) _ _ Hn) as (u' & Hu & Hq). exists u'. split; [exact (f_equal (String c) Hu)|done].
Qed.

Lemma no_match_before_star u m : (dots u <= 3)%nat -> dot_end u = true -> match_ipv4 (String.append u (String star m)) = None.
Proof.
  intros Hd He. destruct (match_ipv4 _) as [[g r]|] eqn:Hm; [exfalso|done]. unfold match_ipv4 in Hm.
  apply bind_Some in Hm as ([a s1] & H1 & Hm). apply bind_Some in Hm as ([b s2] & H2 & Hm). apply bind_Some in Hm as ([c s3] & H3 & Hm).
  pose proof (octet_dot_dots _ _ _ _ H1) as [D1 _]. pose proof (octet_dot_dots _ _ _ _ H2) as [D2 _]. pose proof (octet_dot_dots _ _ _ _ H3) as [D3 _].
  apply octet_dot_star in H1 as (u1 & -> & ->). apply octet_dot_star in H2 as (u2 & -> & ->). apply octet_dot_star in H3 as (u3 & -> & ->).
  rewrite !dots_app in Hd. apply dot_end_app, dot_end_app, dot_end_app in He.
  destruct (starts_digit (String.append u3 (String star m))) eqn:Hs; [|done].
  assert (Hu : starts_digit u3 = true) by (by destruct u3). pose proof (dot_end_dots u3 He Hu). lia.
Qed.

Lemma has_ipv4_star u m : (dots u <= 3)%nat -> dot_end u = true -> has_ipv4 (String.append u (String star m)) = has_ipv4 m.
Proof.
  induction u as [|c u IH]; intros Hd He; [done|]. pose proof (no_match_before_star (String c u) m Hd He) as Hm.
  change (String.append (String c u) (String star m)) with (String c (String.append u (String star m))) in *. cbn [has_ipv4]. rewrite Hm.
  apply IH; [cbn in Hd; lia|by eapply dot_end_tail].
Qed.

Lemma mask_agree fuel s : agree s (mask_loop fuel s).
Proof.
  revert s. induction fuel as [|fuel IH]; intros s; [apply agree_refl|]. destruct s as [|c r]; [apply agree_refl|]. cbn [mask_loop].
  destruct (match_ipv4 (String c r)) as [[g rest]|] eqn:Hm; [|constructor; apply IH].
  destruct (match_text _ _ _ Hm) as (t & -> & _). apply agree_app. constructor.
Qed.

Lemma match_dots s g r : match_ipv4 s = Some (g, r) -> dots g = 3%nat /\ dot_end g = true.
Proof.
  unfold match_ipv4. intros Hm.
  apply bind_Some in Hm as ([a s1] & H1 & Hm). apply bind_Some in Hm as ([b s2] & H2 & Hm). apply bind_Some in Hm as ([c s3] & H3 & Hr).
  destruct (starts_digit s3); [|done]. injection Hr as <- <-. apply octet_dot_dots in H1 as [D1 E1], H2 as [D2 E2], H3 as [D3 E3].
  rewrite !dots_app. split; [lia|]. by repeat apply dot_end_app_2.
Qed.

Lemma mask_loop_clean fuel s : (String.length s <= fuel)%nat -> has_ipv4 (mask_loop fuel s) = false.
Proof.
  revert s. induction fuel as [|fuel IH]; intros s Hl; [by destruct s; [|cbn in Hl; lia]|]. destruct s as [|c r]; [done|]. cbn [mask_loop].
  destruct (match_ipv4 (String c r)) as [[g rest]|] eqn:Hm.
  - destruct (match_dots _ _ _ Hm) as [Hd He]. rewrite has_ipv4_star by (lia || done). apply IH.
    destruct (match_text _ _ _ Hm) as (t & _ & _ & _ & Hlt). lia.
  - cbn [has_ipv4]. rewrite (match_agree (String c r)); [apply IH; cbn in Hl; lia|constructor; apply mask_agree|done].
Qed.

(** Masked messages contain no IPv4 address, and masking again changes
    nothing. *)
Lemma mask_clean msg : has_ipv4 (maskIPAddresses msg) = false.
Proof. by apply mask_loop_clean. Qed.

Lemma mask_no_ipv4 fuel s : has_ipv4 s = false -> mask_loop fuel s = s.
Proof.
  revert s. induction fuel as [|fuel IH]; intros s Hs; [done|]. destruct s as [|c r]; [done|]. cbn [mask_loop has_ipv4] in *.
  destruct (match_ipv4 (String c r)); [done|]. f_equal. by apply IH.
Qed.

Lemma mask_idempotent msg : maskIPAddresses (maskIPAddresses msg) = maskIPAddresses msg.
Proof. apply mask_no_ipv4, mask_clean. Qed.

(** *** Cursors *)

(** C27: reading the log is reading the list of what was written since the last
    clear: from the cursor on, at most the last 500 entries, with the length
    of the list as the new cursor, so that a reader who comes back in time
    gets every entry once.  A cursor that is larger than the length, such as
    one from before a clear, makes the call panic. *)
Theorem logs_since (l : list log_op) (cursor : Z) :
  let w := written l in
  let len := Z.of_nat (length w) in
  GetLogs cursor (after l) =
    if len <? cursor then None
    else Some (len, drop (Z.to_nat (Z.max cursor (len - maxEntries))) w).
Proof.
  intros w len. pose proof (represents_after l) as Hr. set (b := foldl book_step (mkBook [] false) l) in *.
  change w with (bk_all b) in *. pose proof Hr as (_ & Hh & Hc & _). clearbody b. clear w.
  unfold GetLogs. rewrite Hc, Hh. fold len. set (k := Z.max cursor (Z.max (len - maxEntries) 0)).
  assert (Hk : 0 <= k /\ len - k <= maxEntries) by (unfold maxEntries in *; lia).
  destruct (Z.ltb_spec len cursor) as [Hlt|Hge]; [rewrite (proj2 (Z.ltb_lt _ _)) by lia; done|].
  assert (Hkl : k <= len) by (unfold maxEntries in *; lia). rewrite (proj2 (Z.ltb_ge _ _)) by lia. do 2 f_equal.
  assert (Hd : Z.max cursor (len - maxEntries) = k \/ (Z.max cursor (len - maxEntries) <= 0 /\ k = 0)) by (unfold maxEntries in *; lia).
  replace (drop (Z.to_nat (Z.max cursor (len - maxEntries))) (bk_all b)) with (drop (Z.to_nat k) (bk_all b)) by (f_equal; lia).
  rewrite <- (ring_slice (after l) b (Z.to_nat k) (Z.to_nat (len - k)) Hr) by lia. by rewrite !Z2Nat.id by lia.
Qed.

(** A clear from one screen and a read with the cursor of the other. *)
Lemma stale_cursor_panics : GetLogs 1 (after [LAdd "t" "info" "10.0.0.1"; LClear]) = None.
Proof. reflexivity. Qed.

(** ** Quality of peers *)

Open Scope Q_scope.

Record peerRecord := mkPeer { Successes : Z; Failures : Z; LastAttempt : Z; AvgRTTMs : Q }.

Definition QualityTracker := gmap string peerRecord.

Definition newPeer : peerRecord := mkPeer 0 0 0 0.

Definition RecordSuccess (now : Z) (peer : string) (rttMs : Q) (qt : QualityTracker) : QualityTracker :=
  let r := default newPeer (qt !! peer) in
  let rtt := if Qeq_bool (AvgRTTMs r) 0 then rttMs else AvgRTTMs r * (7 # 10) + rttMs * (3 # 10) in
  <[peer := mkPeer (Successes r + 1) (Failures r) now rtt]> qt.

Definition RecordFailure (now : Z) (peer : string) (qt : QualityTracker) : QualityTracker :=
  let r := default newPeer (qt !! peer) in
  <[peer := mkPeer (Successes r) (Failures r + 1) now (AvgRTTMs r)]> qt.

(** Nanoseconds as hours. *)
Definition hours (ns : Z) : Q := inject_Z ns / inject_Z (3600 * 10 ^ 9).

Definition decay (age : Q) : Q := 1 / (1 + age / 24).

Definition Score (now : Z) (peer : string) (qt : QualityTracker) : Q :=
  match qt !! peer with
  | None => 1 # 2
  | Some r =>
      let total := (Successes r + Failures r)%Z in
      if bool_decide (total = 0%Z) then 1 # 2
      else
        let score := inject_Z (Successes r) / inject_Z total in
        let age := hours (now - LastAttempt r) in
        if negb (Qle_bool age 0) then (1 # 2) + (score - (1 # 2)) * decay age else score
  end.

Inductive quality_op := QSuccess (now : Z) (peer : string) (rtt : Q) | QFailure (now : Z) (peer : string).

Definition quality_step (qt : QualityTracker) (o : quality_op) : QualityTracker :=
  match o with
  | QSuccess now peer rtt => RecordSuccess now peer rtt qt
  | QFailure now peer => RecordFailure now peer qt
  end.

Definition counts_ok (qt : QualityTracker) : Prop := map_Forall (fun _ r => (0 <= Successes r /\ 0 <= Failures r)%Z) qt.

Lemma counts_step qt o : counts_ok qt -> counts_ok (quality_step qt o).
Proof.
  intros Hq. assert (Hd : forall p, (0 <= Successes (default newPeer (qt !! p)) /\ 0 <= Failures (default newPeer (qt !! p)))%Z).
  { intros p. destruct (qt !! p) as [r|] eqn:Hp; [by apply (Hq p)|done]. }
  destruct o as [now p rtt|now p]; cbn; (apply map_Forall_insert_2; [|done]); cbn; specialize (Hd p); lia.
Qed.

Lemma decay_range age : 0 < age -> 0 < decay age <= 1.
Proof.
  intros Ha. unfold decay. assert (Hq : 0 < age / 24) by (apply Qlt_shift_div_l; lra). assert (Hd : 1 <= 1 + age / 24) by lra. split.
  - apply Qlt_shift_div_l; lra.
  - apply Qle_shift_div_r; lra.
Qed.

Lemma ratio_range s t : (0 <= s <= t)%Z -> (0 < t)%Z -> 0 <= inject_Z s / inject_Z t <= 1.
Proof.
  intros Hs Ht. assert (H0 : 0 < inject_Z t) by (change 0 with (inject_Z 0); rewrite <- Zlt_Qlt; lia). split.
  - apply Qle_shift_div_l; [done|]. rewrite Qmult_0_l. change 0 with (inject_Z 0). rewrite <- Zle_Qle. lia.
  - apply Qle_shift_div_r; [done|]. rewrite Qmult_1_l. rewrite <- Zle_Qle. lia.
Qed.

(** Moving a number of the unit interval towards one half keeps it there. *)
Lemma toward_half x d : 0 <= x <= 1 -> 0 < d <= 1 -> 0 <= (1 # 2) + (x - (1 # 2)) * d <= 1.
Proof. intros [Hx0 Hx1] [Hd0 Hd1]. split; nra. Qed.

Lemma score_range l now peer : 0 <= Score now peer (foldl quality_step ∅ l) <= 1.
Proof.
  assert (Hok : counts_ok (foldl quality_step ∅ l)).
  { assert (H0 : counts_ok ∅) by apply map_Forall_empty. revert H0. generalize (∅ : QualityTracker).
    induction l as [|o l IH]; intros qt Hq; [done|]. by apply IH, counts_step. }
  unfold Score. destruct (_ !! peer) as [r|] eqn:Hr; [|lra]. specialize (Hok peer r Hr) as [Hs Hf]. case_bool_decide as Ht; [lra|].
  assert (Hx : 0 <= inject_Z (Successes r) / inject_Z (Successes r + Failures r) <= 1) by (apply ratio_range; lia).
  destruct (Qle_bool _ 0) eqn:Ha; cbn [negb]; [done|]. apply toward_half; [done|]. apply decay_range.
  apply Qnot_le_lt. intros Hle. apply Qle_bool_iff in Hle. congruence.
Qed.

Close Scope Q_scope.

(** ** Network changes *)

Record networkMonitor := mkNetMon { nm_callbacks : list nat; nm_lastNet : string }.

Definition OnNetworkChanged (cb : nat) (m : networkMonitor) : networkMonitor := mkNetMon (nm_callbacks m ++ [cb]) (nm_lastNet m).
Definition ClearNetworkCallbacks (m : networkMonitor) : networkMonitor := mkNetMon [] (nm_lastNet m).

(** The callbacks that are started, and the new state. *)
Definition NotifyNetworkChange (networkType : string) (m : networkMonitor) : list nat * networkMonitor :=
  if bool_decide (networkType = nm_lastNet m) then ([], m) else (nm_callbacks m, mkNetMon (nm_callbacks m) networkType).

(** Over a sequence of notifications every callback is started once for every
    change, not for repeated notifications. *)
Fixpoint changes (last : string) (l : list string) : nat :=
  match l with [] => 0%nat | x :: l => ((if decide (x = last) then 0 else 1) + changes x l)%nat end.

Fixpoint notify_all (l : list string) (m : networkMonitor) : list nat :=
  match l with [] => [] | x :: l => let '(fired, m) := NotifyNetworkChange x m in fired ++ notify_all l m end.

Lemma notify_once_per_change l cb last : notify_all l (mkNetMon [cb] last) = replicate (changes last l) cb.
Proof.
  revert last. induction l as [|x l IH]; intros last; [done|]. cbn [notify_all changes]. unfold NotifyNetworkChange. cbn.
  case_bool_decide as Hx; [rewrite decide_True by done; subst; apply IH|]. rewrite decide_False by done. cbn. f_equal. apply IH.
Qed.

(** ** STUN keep-alive *)

Inductive ka_event := KTick (sent : bool) | KStop.

(** Where the requests go; a failed send does not end the loop. *)
Fixpoint keepalive_loop {A} (addr : A) (l : list ka_event) : list A :=
  match l with
  | [] | KStop :: _ => []
  | KTick _ :: l => addr :: keepalive_loop addr l
  end.

Definition stun_keepalive {A} (resolve : string -> option A) (servers : list string) (l : list ka_event) : list A :=
  match omap resolve servers with
  | [] => []
  | addr :: _ => keepalive_loop addr l
  end.

(** Requests go to the first server that was resolved, one for every tick
    before the stop; with the [stun:] prefix that the ICE settings allow, no
    server is resolved and nothing is sent. *)
Lemma keepalive_first {A} (resolve : string -> option A) bad s good addr ticks l :
  Forall (fun s => resolve s = None) bad -> resolve s = Some addr ->
  stun_keepalive resolve (bad ++ s :: good) ((KTick <$> ticks) ++ KStop :: l) = replicate (length ticks) addr.
Proof.
  intros Hbad Hs. unfold stun_keepalive. rewrite omap_app.
  replace (omap resolve bad) with (@nil A) by (induction Hbad as [|x bad Hx _ IH]; [done|]; cbn; by rewrite Hx).
  cbn. rewrite Hs. induction ticks as [|t ticks IH]; [done|]. cbn. by f_equal.
Qed.

(** ** RTCP reports *)

Record SenderReport := mkSR { sr_SSRC : Z; sr_NTPTime : Z; sr_RTPTime : Z; sr_PacketCount : Z; sr_OctetCount : Z }.

(** A tick: the time in nanoseconds, the two random numbers, and whether the
    report could be sent. *)
Record rtcp_tick := mkTick { tk_now : Z; tk_packets : Z; tk_octets : Z; tk_sent : bool }.

Definition ntp_time (now : Z) : Z :=
  let ntpSec := u32 (u32 (now / 10 ^ 9) + 2208988800) in
  let ntpFrac := u32 (u32 (now mod 10 ^ 9) * 4) in
  Z.lor (Z.shiftl ntpSec 32) ntpFrac.

(** [None] is the panic of a division by zero. *)
Definition rtp_time (now clockRate : Z) : option Z :=
  if clockRate =? 0 then None
  else let d := 10 ^ 9 / clockRate in if d =? 0 then None else Some (u32 (Z.quot now d)).

Definition packet_step (r : Z) : Z := u32 (150 + r).
Definition octet_step (r : Z) : Z := u32 (750000 + r).

(** The reports of [startRTCPSender] until a tick fails. *)
Fixpoint rtcp_sender (ssrc clockRate packets octets : Z) (l : list rtcp_tick) : option (list SenderReport) :=
  match l with
  | [] => Some []
  | t :: l =>
      let packets := u32 (packets + packet_step (tk_packets t)) in
      let octets := u32 (octets + octet_step (tk_octets t)) in
      rtp ← rtp_time (tk_now t) clockRate;
      let sr := mkSR ssrc (ntp_time (tk_now t)) rtp packets octets in
      if tk_sent t then rest ← rtcp_sender ssrc clockRate packets octets l; Some (sr :: rest) else Some [sr]
  end.

Record ReceptionReport := mkRR { rr_SSRC : Z; rr_FractionLost : Z; rr_TotalLost : Z; rr_LastSequenceNumber : Z; rr_Jitter : Z }.

Fixpoint rtcp_receiver (ssrc : Z) (l : list (Z * bool)) : list ReceptionReport :=
  match l with
  | [] => []
  | (r, sent) :: l => mkRR ssrc 0 0 0 (u32 r) :: if sent : bool then rtcp_receiver ssrc l else []
  end.

(** With the clock rates of the codecs the sender never divides by zero, and
    its counters are the sums of the steps modulo 2^32. *)
Lemma rtcp_sender_counts ssrc clockRate p o l :
  0 < clockRate <= 10 ^ 9 -> Forall (fun t => tk_sent t = true) l ->
  exists srs, rtcp_sender ssrc clockRate p o l = Some srs /\ length srs = length l /\
    forall i sr, srs !! i = Some sr ->
      sr_PacketCount sr = u32 (p + foldr (fun t n => packet_step (tk_packets t) + n) 0 (take (S i) l)) /\
      sr_OctetCount sr = u32 (o + foldr (fun t n => octet_step (tk_octets t) + n) 0 (take (S i) l)).
Proof.
  intros Hc Hl. revert p o. induction Hl as [|t l Ht _ IH]; intros p o; [by exists []|]. cbn [rtcp_sender].
  unfold rtp_time. rewrite (proj2 (Z.eqb_neq clockRate 0)) by lia.
  assert (Hd : 0 < 10 ^ 9 / clockRate) by (apply Z.div_str_pos; lia). rewrite (proj2 (Z.eqb_neq _ 0)) by lia. cbn [mbind option_bind].
  rewrite Ht. destruct (IH (u32 (p + packet_step (tk_packets t))) (u32 (o + octet_step (tk_octets t)))) as (srs & -> & Hn & Hs).
  eexists. split; [reflexivity|]. split; [cbn; by rewrite Hn|]. intros [|i] sr; cbn [lookup list_lookup].
  - intros [= <-]. cbn [sr_PacketCount sr_OctetCount take foldr]. rewrite !Z.add_0_r. done.
  - intros Hi. destruct (Hs i sr Hi) as [-> ->]. cbn [take foldr]. unfold u32, wrap. rewrite !Zplus_mod_idemp_l. split; f_equal; lia.
Qed.

End Helpers.
