(* ===== verification/Threads.v ===== *)
(** * Programs with goroutines

    The public functions of the library run at the same time: the application
    calls them from several threads, and they start goroutines of their own.
    All of them work on package variables.  A program here is a tree of atomic
    steps on a shared state: a critical section, or one call of another
    component.  A pool of programs runs by interleaving these steps.  The file
    also has the two rules that the proofs use: [safe], for invariants that
    hold under every interleaving, and [wp], for a call that runs alone and
    comes to an end. *)

From S2P Require Import Prelude.

Section programs.
Context {G : Type}.

(** [Atom] is an atomic step, [Iter] a loop that ends when its body gives
    [inr], [Go] the statement [go]. *)
Inductive prog (A : Type) : Type :=
| Ret (a : A)
| Atom {X : Type} (f : G -> X * G) (k : X -> prog A)
| Iter {L X : Type} (body : L -> prog (L + X)) (l : L) (k : X -> prog A)
| Go (t : prog unit) (k : prog A).

Arguments Ret {A} a.
Arguments Atom {A X} f k.
Arguments Iter {A L X} body l k.
Arguments Go {A} t k.

Fixpoint pbind {A B} (p : prog A) (f : A -> prog B) : prog B :=
  match p with
  | Ret a => f a
  | Atom g k => Atom g (fun x => pbind (k x) f)
  | Iter body l k => Iter body l (fun x => pbind (k x) f)
  | Go t k => Go t (pbind k f)
  end.

Definition atom {X} (f : G -> X * G) : prog X := Atom f Ret.
Definition modify (f : G -> G) : prog unit := atom (fun g => (tt, f g)).
Definition reads {X} (f : G -> X) : prog X := atom (fun g => (f g, g)).
Definition loop {L X} (body : L -> prog (L + X)) (l : L) : prog X := Iter body l Ret.
Definition go (t : prog unit) : prog unit := Go t (Ret tt).

(** ** Interleaving *)

(** One step of a program: what is left of it, the goroutines it starts and
    the new state; [None] when it has ended. *)
Definition pstep {A} (p : prog A) (g : G) : option (prog A * list (prog unit) * G) :=
  match p with
  | Ret _ => None
  | Atom f k => let '(x, g) := f g in Some (k x, [], g)
  | Iter body l k =>
      Some (pbind (body l) (fun r => match r with inl l => Iter body l k | inr x => k x end), [], g)
  | Go t k => Some (k, [t], g)
  end.

Record pool := mkPool { shared : G; threads : list (prog unit) }.

(** What happens next: a thread makes a step, or a new call comes in. *)
Inductive event := Run (i : nat) | Call (p : prog unit).

Definition pool_step (e : event) (s : pool) : option pool :=
  match e with
  | Call p => Some (mkPool (shared s) (threads s ++ [p]))
  | Run i =>
      p ← threads s !! i;
      '(p, ts, g) ← pstep p (shared s);
      Some (mkPool g (<[i := p]> (threads s) ++ ts))
  end.

Fixpoint pool_run (es : list event) (s : pool) : option pool :=
  match es with
  | [] => Some s
  | e :: es => s ← pool_step e s; pool_run es s
  end.

(** The pools that can be reached when the calls that come in satisfy
    [entry] in the state in which they come in. *)
Inductive reachable (init : G -> Prop) (entry : G -> prog unit -> Prop) : pool -> Prop :=
| reach_init g : init g -> reachable init entry (mkPool g [])
| reach_run i s s' : reachable init entry s -> pool_step (Run i) s = Some s' -> reachable init entry s'
| reach_call p s : reachable init entry s -> entry (shared s) p ->
    reachable init entry (mkPool (shared s) (threads s ++ [p])).

(** ** Invariants under every interleaving *)

Section safety.
Context (I : G -> Prop).

(** Every atomic step keeps [I], whatever state satisfying [I] it finds. *)
Fixpoint safe {A} (Q : A -> Prop) (p : prog A) : Prop :=
  match p with
  | Ret a => Q a
  | Atom f k => forall g, I g -> I (f g).2 /\ safe Q (k (f g).1)
  | @Iter _ L X body l k =>
      exists J : L -> Prop, J l /\
        forall l, J l -> safe (fun r : L + X => match r with inl l => J l | inr x => safe Q (k x) end) (body l)
  | Go t k => safe (fun _ => True) t /\ safe Q k
  end.

Lemma safe_mono {A} (Q R : A -> Prop) p : (forall a, Q a -> R a) -> safe Q p -> safe R p.
Proof.
  intros HQR. revert Q R HQR. induction p as [A a|A X f k IH|A L X body IHb l k IHk|A t IHt k IHk];
    simpl; intros Q R HQR; [by auto| | |].
  - intros Hp g Hg. destruct (Hp g Hg) as [HI Hk]. split; [done|]. by eapply IH.
  - intros (J & HJ & Hb). exists J. split; [done|]. intros l' HJ'. eapply IHb; [|by apply Hb].
    intros [l''|x]; simpl; [done|]. by apply IHk.
  - intros [Ht Hk]. split; [done|]. by eapply IHk.
Qed.

Lemma safe_pbind {A B} (p : prog A) (f : A -> prog B) Q : safe (fun a => safe Q (f a)) p -> safe Q (pbind p f).
Proof.
  revert B f Q. induction p as [A a|A X h k IH|A L X body IHb l k IHk|A t IHt k IHk]; simpl; intros B f Q; [done| | |].
  - intros Hp g Hg. destruct (Hp g Hg) as [HI Hk]. split; [done|]. by apply IH.
  - intros (J & HJ & Hb). exists J. split; [done|]. intros l' HJ'. eapply safe_mono; [|by apply Hb].
    intros [l''|x]; simpl; [done|]. by apply IHk.
  - intros [Ht Hk]. split; [done|]. by apply IHk.
Qed.

Lemma safe_loop {L X} (J : L -> Prop) (Q : X -> Prop) (body : L -> prog (L + X)) l :
  J l -> (forall l, J l -> safe (fun r => match r with inl l => J l | inr x => Q x end) (body l)) ->
  safe Q (loop body l).
Proof. intros HJ Hb. exists J. split; [done|]. intros l' HJ'. simpl. by apply Hb. Qed.

Lemma safe_step {A} (p p' : prog A) ts g g' Q : safe Q p -> I g -> pstep p g = Some (p', ts, g') ->
  safe Q p' /\ Forall (safe (fun _ => True)) ts /\ I g'.
Proof.
  destruct p as [a|X f k|L X body l k|t k]; simpl; [done| | |].
  - intros Hp Hg. destruct (Hp g Hg) as [HI Hk]. destruct (f g) as [x g1]. intros [= <- <- <-]. auto.
  - intros (J & HJ & Hb) Hg [= <- <- <-]. split; [|auto]. apply safe_pbind. eapply safe_mono; [|by apply Hb].
    intros [l'|x]; simpl; [|done]. intros HJ'. by exists J.
  - intros [Ht Hk] Hg [= <- <- <-]. auto.
Qed.

(** An invariant that every call keeps holds in every reachable state. *)
Lemma safe_reachable (init : G -> Prop) (entry : G -> prog unit -> Prop) s :
  (forall g, init g -> I g) ->
  (forall g p, I g -> entry g p -> safe (fun _ => True) p) ->
  reachable init entry s -> I (shared s).
Proof.
  intros Hi He Hr.
  enough (Hboth : I (shared s) /\ Forall (safe (fun _ => True)) (threads s)) by apply Hboth.
  induction Hr as [g Hg|i s s' _ [IHI IHt] Hs|p s _ [IHI IHt] Hp]; simpl; [by auto| |].
  - simpl in Hs. destruct (threads s !! i) as [p|] eqn:Hp; simplify_eq/=.
    destruct (pstep p (shared s)) as [[[p' ts] g']|] eqn:Hstep; simplify_eq/=.
    destruct (safe_step p p' ts (shared s) g' (fun _ => True)) as (Hp' & Hts & HI');
      [by eapply Forall_lookup_1|done|done|].
    split; [done|]. apply Forall_app. split; [|done]. by apply Forall_insert.
  - split; [done|]. apply Forall_app. split; [done|]. constructor; [|done]. by eapply He.
Qed.

(** The same without a result. *)
Definition psafe {A} (p : prog A) : Prop := safe (fun _ => True) p.

Lemma psafe_ret {A} (a : A) : psafe (Ret a).
Proof. done. Qed.

Lemma psafe_bind {A B} (p : prog A) (f : A -> prog B) : psafe p -> (forall a, psafe (f a)) -> psafe (pbind p f).
Proof. intros Hp Hf. apply safe_pbind. eapply safe_mono; [|exact Hp]. intros a _. apply Hf. Qed.

Lemma psafe_atom {X} (f : G -> X * G) : (forall g, I g -> I (f g).2) -> psafe (atom f).
Proof. intros Hf g Hg. split; [by apply Hf|done]. Qed.

Lemma psafe_modify (f : G -> G) : (forall g, I g -> I (f g)) -> psafe (modify f).
Proof. intros Hf. by apply psafe_atom. Qed.

Lemma psafe_reads {X} (f : G -> X) : psafe (reads f).
Proof. by apply psafe_atom. Qed.

Lemma psafe_loop {L X} (body : L -> prog (L + X)) l : (forall l, psafe (body l)) -> psafe (loop body l).
Proof.
  intros Hb. apply safe_loop with (fun _ => True); [done|]. intros l' _. eapply safe_mono; [|apply Hb]. by intros [].
Qed.

Lemma psafe_go t : psafe t -> psafe (go t).
Proof. intros Ht. split; [exact Ht|done]. Qed.

End safety.

(** [ignore p]: the result is dropped. *)
Definition ignore {A} (p : prog A) : prog unit := pbind p (fun _ => Ret tt).

(** ** A call that runs alone *)

(** The call runs from start to end without another step in between; the
    goroutines it starts are collected. *)
Inductive runs {A : Type} : prog A -> G -> A -> list (prog unit) -> G -> Prop :=
| runs_ret a g : runs (Ret a) g a [] g
| runs_step p p' g g' ts a ts' g'' :
    pstep p g = Some (p', ts, g') -> runs p' g' a ts' g'' -> runs p g a (ts ++ ts') g''.

(** Weakest preconditions for total correctness: the call ends, in a state
    and with a result that satisfy [Q].  A loop has an invariant with a bound
    on the turns that are left. *)
Fixpoint wp {A} (Q : A -> G -> Prop) (p : prog A) (g : G) : Prop :=
  match p with
  | Ret a => Q a g
  | Atom f k => wp Q (k (f g).1) (f g).2
  | @Iter _ L X body l k =>
      exists (J : nat -> L -> G -> Prop) (n : nat), J n l g /\
        forall n l g, J n l g ->
          wp (fun (r : L + X) g => match r with
                                   | inl l => exists m, (m < n)%nat /\ J m l g
                                   | inr x => wp Q (k x) g
                                   end) (body l) g
  | Go t k => wp Q k g
  end.

Lemma wp_mono {A} (Q R : A -> G -> Prop) p g : (forall a g, Q a g -> R a g) -> wp Q p g -> wp R p g.
Proof.
  revert Q R g. induction p as [A a|A X f k IH|A L X body IHb l k IHk|A t IHt k IHk]; simpl; intros Q R g HQR.
  - auto.
  - by apply IH.
  - intros (J & n & HJ & Hb). exists J, n. split; [done|]. intros n' l' g' HJ'. eapply IHb; [|by apply Hb].
    intros [l''|x] g''; simpl; [done|]. by apply IHk.
  - by apply IHk.
Qed.

Lemma wp_bind {A B} (p : prog A) (f : A -> prog B) Q g : wp (fun a g => wp Q (f a) g) p g -> wp Q (pbind p f) g.
Proof.
  revert B f Q g. induction p as [A a|A X h k IH|A L X body IHb l k IHk|A t IHt k IHk]; simpl; intros B f Q g.
  - done.
  - by apply IH.
  - intros (J & n & HJ & Hb). exists J, n. split; [done|]. intros n' l' g' HJ'. eapply wp_mono; [|by apply Hb].
    intros [l''|x] g''; simpl; [done|]. by apply IHk.
  - by apply IHk.
Qed.

Lemma wp_loop {L X} (J : nat -> L -> G -> Prop) n (Q : X -> G -> Prop) (body : L -> prog (L + X)) l g :
  J n l g ->
  (forall n l g, J n l g ->
     wp (fun r g => match r with inl l => exists m, (m < n)%nat /\ J m l g | inr x => Q x g end) (body l) g) ->
  wp Q (loop body l) g.
Proof. intros HJ Hb. exists J, n. split; [done|]. intros n' l' g' HJ'. simpl. by apply Hb. Qed.

Lemma wp_pstep {A} (p p' : prog A) g g' ts Q : wp Q p g -> pstep p g = Some (p', ts, g') -> wp Q p' g'.
Proof.
  destruct p as [a|X f k|L X body l k|t k]; simpl; [done| | |].
  - destruct (f g) as [x g1]. intros Hp [= <- <- <-]. done.
  - intros (J & n & HJ & Hb) [= <- <- <-]. apply wp_bind. eapply wp_mono; [|by apply (Hb n)].
    intros [l'|x] g''; simpl; [|done]. intros (m & _ & HJ'). by exists J, m.
  - intros Hp [= <- <- <-]. done.
Qed.

(** What [wp] says holds of every run. *)
Lemma wp_runs {A} (p : prog A) g a ts g' Q : runs p g a ts g' -> wp Q p g -> Q a g'.
Proof. induction 1 as [|p p' g g' ts a ts' g'' Hs _ IH]; [done|]. intros Hp. apply IH. by eapply wp_pstep. Qed.

(** A call that has an end. *)
Definition ends {A} (p : prog A) (g : G) : Prop := exists a ts g', runs p g a ts g'.

Lemma ends_step {A} (p p' : prog A) g ts g' : pstep p g = Some (p', ts, g') -> ends p' g' -> ends p g.
Proof. intros Hs (a & ts' & g'' & Hr). exists a, (ts ++ ts'), g''. by eapply runs_step. Qed.

Lemma wp_ends_bind {A B} (p : prog A) (f : A -> prog B) g : wp (fun a g => ends (f a) g) p g -> ends (pbind p f) g.
Proof.
  revert B f g. induction p as [A a|A X h k IH|A L X body IHb l k IHk|A t IHt k IHk]; simpl; intros B f g.
  - done.
  - intros Hp. eapply ends_step; [|by apply IH]. simpl. by destruct (h g).
  - intros (J & n & HJ & Hb). revert l g HJ. induction (lt_wf n) as [n _ IHn]. intros l g HJ.
    eapply ends_step; [reflexivity|]. apply IHb. eapply wp_mono; [|by apply (Hb n)].
    intros [l'|x] g'; simpl; [|by apply IHk]. intros (m & Hm & HJ'). by apply (IHn m).
  - intros Hp. eapply ends_step; [reflexivity|]. by apply IHk.
Qed.

Lemma wp_ends {A} (p : prog A) g Q : wp Q p g -> ends p g.
Proof.
  revert Q g. induction p as [A a|A X h k IH|A L X body _ l k IHk|A t IHt k IHk]; simpl; intros Q g.
  - intros _. exists a, [], g. constructor.
  - intros Hp. eapply ends_step; [|by eapply IH]. simpl. by destruct (h g).
  - intros (J & n & HJ & Hb). revert l g HJ. induction (lt_wf n) as [n _ IHn]. intros l g HJ.
    eapply ends_step; [reflexivity|]. apply wp_ends_bind. eapply wp_mono; [|by apply (Hb n)].
    intros [l'|x] g'; simpl; [|by apply IHk]. intros (m & Hm & HJ'). by apply (IHn m).
  - intros Hp. eapply ends_step; [reflexivity|]. by eapply IHk.
Qed.

(** [n] steps of a call that runs alone, to execute it. *)
Fixpoint run_alone {A} (n : nat) (p : prog A) (g : G) : option (A * list (prog unit) * G) :=
  match p, n with
  | Ret a, _ => Some (a, [], g)
  | _, O => None
  | _, S n =>
      '(p, ts, g) ← pstep p g;
      '(a, ts', g) ← run_alone n p g;
      Some (a, ts ++ ts', g)
  end.

Lemma run_alone_runs {A} n (p : prog A) g a ts g' : run_alone n p g = Some (a, ts, g') -> runs p g a ts g'.
Proof.
  revert p g ts. induction n as [|n IH]; intros p g ts Hr.
  { destruct p; simplify_eq/=. constructor. }
  assert (Hcase : (exists x, p = Ret x) \/
    ('(p, ts, g) ← pstep p g; '(a, ts', g) ← run_alone n p g; Some (a, ts ++ ts', g)) = Some (a, ts, g'))
    by (destruct p; eauto).
  destruct Hcase as [[x ->]|Hstep]; [simplify_eq/=; constructor|].
  destruct (pstep p g) as [[[p1 ts1] g1]|] eqn:Hs; simplify_eq/=.
  destruct (run_alone n p1 g1) as [[[a1 ts2] g2]|] eqn:Hn; simplify_eq/=. econstructor; eauto.
Qed.

End programs.

Arguments prog G A : clear implicits.
Arguments Ret {G A} a.
Arguments Atom {G A X} f k.
Arguments Iter {G A L X} body l k.
Arguments Go {G A} t k.
Arguments Run {G} i.
Arguments Call {G} p.
Arguments pool G : clear implicits.
Arguments event G : clear implicits.

Notation "'do' x ':=' m 'in' k" := (pbind m (fun x => k))
  (at level 10, x pattern, m at level 100, k at level 200).

Create HintDb psafe.
#[export] Hint Resolve psafe_ret psafe_reads : psafe.

(** Walks through a program to the atomic steps that change the state. *)
Ltac psafe_step :=
  cbv beta zeta;
  lazymatch goal with
  | |- psafe _ (Ret _) => apply psafe_ret
  | |- psafe _ (reads _) => apply psafe_reads
  | |- psafe _ (pbind _ _) => apply psafe_bind; [|intros ?]
  | |- psafe _ (go _) => apply psafe_go
  | |- psafe _ (loop _ _) => apply psafe_loop; intros ?
  | |- psafe _ (match ?x with _ => _ end) => destruct x
  | |- psafe _ _ => first [ solve [eauto with psafe] | apply psafe_modify; intros ? ? | apply psafe_atom; intros ? ? ]
  end.
Ltac psafe_walk := repeat psafe_step.
