(* ===== verification/Url.v ===== *)
(** * URLs

    [net/url] as far as the library uses it: escaping in its modes, [Parse],
    [String], query values, and the two normalisers of
    [golib/util/url_normalize.go] on top.  The branch of [url.parseHost] for a
    host in brackets differs between Go releases; it is the parameter
    [ip_literal]. *)

From S2P Require Import Prelude IO GoStr Socks Sdp Codes.

Open Scope Z_scope.

Module Url.

Import Sdp Codes.

(** ** Escaping *)

Inductive encoding := encodePath | encodeUserPassword | encodeHost | encodeQueryComponent | encodeFragment.
#[export] Instance encoding_eq_dec : EqDecision encoding.
Proof. solve_decision. Defined.

Definition alphanum (c : Ascii.ascii) : bool :=
  let z := code c in
  ((48 <=? z) && (z <=? 57)) || ((65 <=? z) && (z <=? 90)) || ((97 <=? z) && (z <=? 122)).

Definition mem (c : Ascii.ascii) (s : string) : bool := has_char c s.

(** The double quote, which is left alone in hosts. *)
Definition dquote : Ascii.ascii := "034"%char.

Definition shouldEscape (c : Ascii.ascii) (mode : encoding) : bool :=
  if alphanum c then false
  else if bool_decide (mode = encodeHost) && (mem c "!$&'()*+,;=:[]<>" || bool_decide (c = dquote)) then false
  else if mem c "-_.~" then false
  else if mem c "$&+,/:;=?@" && negb (bool_decide (mode = encodeHost)) then
    match mode with
    | encodePath => bool_decide (c = "?"%char)
    | encodeUserPassword => mem c "@/?:"
    | encodeQueryComponent => true
    | _ => false
    end
  else if bool_decide (mode = encodeFragment) && mem c "!()*" then false
  else true.

Definition hex_upper (d : Z) : Ascii.ascii := Ascii.ascii_of_N (Z.to_N (if d <? 10 then 48 + d else 55 + d)).

Fixpoint escape (mode : encoding) (s : string) : string :=
  match s with
  | EmptyString => EmptyString
  | String c s =>
      if shouldEscape c mode then
        if bool_decide (c = " "%char) && bool_decide (mode = encodeQueryComponent) then String "+"%char (escape mode s)
        else String "%"%char (String (hex_upper (code c / 16)) (String (hex_upper (code c mod 16)) (escape mode s)))
      else String c (escape mode s)
  end.

(** [unescape]; [None] is an error.  In a host only [%25] and bytes outside
    ASCII may be escaped, and characters that need escaping are refused. *)
Fixpoint unescape (mode : encoding) (s : string) : option string :=
  match s with
  | EmptyString => Some EmptyString
  | String c s =>
      if bool_decide (c = "%"%char) then
        match s with
        | String a (String b s) =>
            x ← hex a; y ← hex b;
            if bool_decide (mode = encodeHost) && (x <? 8) && negb ((x =? 2) && (y =? 5)) then None
            else String (Ascii.ascii_of_N (Z.to_N (x * 16 + y))) <$> unescape mode s
        | _ => None
        end
      else if bool_decide (c = "+"%char) then
        String (if bool_decide (mode = encodeQueryComponent) then " "%char else c) <$> unescape mode s
      else if bool_decide (mode = encodeHost) && (code c <? 128) && shouldEscape c mode then None
      else String c <$> unescape mode s
  end.

(** ** URLs *)

(** [User] is the user name and, if there is one, the password. *)
Record URL := mkURL {
  Scheme : string; Opaque : string; User : option (string * option string); Host : string;
  Path : string; RawPath : string; OmitHost : bool; ForceQuery : bool; RawQuery : string;
  Fragment : string; RawFragment : string }.

Definition emptyURL : URL := mkURL "" "" None "" "" "" false false "" "" "".

(** [validEncoded]. *)
Definition valid_char (mode : encoding) (c : Ascii.ascii) : bool :=
  mem c "!$&'()*+,;=:@[]%" || negb (shouldEscape c mode).

Fixpoint validEncoded (mode : encoding) (s : string) : bool :=
  match s with EmptyString => true | String c s => valid_char mode c && validEncoded mode s end.

Definition escaped_of (mode : encoding) (raw plain : string) : option string :=
  if negb (bool_decide (raw = EmptyString)) && validEncoded mode raw && bool_decide (unescape mode raw = Some plain)
  then Some raw else None.

Definition EscapedPath (u : URL) : string :=
  match escaped_of encodePath (RawPath u) (Path u) with
  | Some p => p
  | None => if bool_decide (Path u = "*") then "*" else escape encodePath (Path u)
  end.

Definition EscapedFragment (u : URL) : string :=
  default (escape encodeFragment (Fragment u)) (escaped_of encodeFragment (RawFragment u) (Fragment u)).

Definition nonempty (s : string) : bool := negb (bool_decide (s = EmptyString)).

Definition user_string (user : string * option string) : string :=
  escape encodeUserPassword user.1 +:+
  match user.2 with Some p => ":" +:+ escape encodeUserPassword p | None => EmptyString end.

(** [strings.Cut(s, c)] for a one-byte separator. *)
Definition Cut (c : Ascii.ascii) (s : string) : string * string :=
  match index_char c s with Some i => (stake i s, sdrop (S i) s) | None => (s, EmptyString) end.

Definition is_some {A} (o : option A) : bool := if o is Some _ then true else false.

(** [URL.String], piece by piece. *)
Definition url_authority (u : URL) : string :=
  if nonempty (Scheme u) || nonempty (Host u) || is_some (User u) then
    if OmitHost u && negb (nonempty (Host u)) && negb (is_some (User u)) then EmptyString
    else (if nonempty (Host u) || nonempty (Path u) || is_some (User u) then "//" else EmptyString) +:+
         (match User u with Some ui => user_string ui +:+ "@" | None => EmptyString end) +:+
         escape encodeHost (Host u)
  else EmptyString.

Definition url_path (before : string) (u : URL) : string :=
  let path := EscapedPath u in
  let sep := if nonempty path && negb (HasPrefix path "/") && nonempty (Host u) then "/" else EmptyString in
  let dot := if bool_decide (before +:+ sep = EmptyString) && has_char colon (Cut slash path).1 then "./" else EmptyString in
  sep +:+ dot +:+ path.

Definition url_String (u : URL) : string :=
  let scheme := if nonempty (Scheme u) then Scheme u +:+ ":" else EmptyString in
  let middle := if nonempty (Opaque u) then Opaque u
                else let a := url_authority u in a +:+ url_path (scheme +:+ a) u in
  scheme +:+ middle +:+
  (if ForceQuery u || nonempty (RawQuery u) then "?" +:+ RawQuery u else EmptyString) +:+
  (if nonempty (Fragment u) then "#" +:+ EscapedFragment u else EmptyString).

(** ** Parsing *)

(** [stringContainsCTLByte]. *)
Fixpoint has_ctl (s : string) : bool :=
  match s with EmptyString => false | String c s => (code c <? 32) || (code c =? 127) || has_ctl s end.

Definition letter (c : Ascii.ascii) : bool :=
  let z := code c in ((65 <=? z) && (z <=? 90)) || ((97 <=? z) && (z <=? 122)).

(** [getScheme]: the scheme and the rest, [None] for a missing scheme. *)
Fixpoint scheme_loop (i : nat) (all : string) (acc : string) (s : string) : option (string * string) :=
  match s with
  | EmptyString => Some (EmptyString, all)
  | String c s =>
      if letter c then scheme_loop (S i) all (acc +:+ String c EmptyString) s
      else if alphanum c || mem c "+-." then
        if Nat.eqb i 0 then Some (EmptyString, all) else scheme_loop (S i) all (acc +:+ String c EmptyString) s
      else if bool_decide (c = colon) then
        if Nat.eqb i 0 then None else Some (acc, s)
      else Some (EmptyString, all)
  end.

Definition getScheme (s : string) : option (string * string) := scheme_loop 0 s EmptyString s.

Definition lower (c : Ascii.ascii) : Ascii.ascii :=
  if (65 <=? code c) && (code c <=? 90) then Ascii.ascii_of_N (Z.to_N (code c + 32)) else c.

(** [strings.ToLower] of ASCII text. *)
Fixpoint ToLower (s : string) : string :=
  match s with EmptyString => EmptyString | String c s => String (lower c) (ToLower s) end.

Fixpoint all_digits (s : string) : bool :=
  match s with EmptyString => true | String c s => is_some (digit c) && all_digits s end.

Definition validOptionalPort (s : string) : bool :=
  match s with EmptyString => true | String c s => bool_decide (c = colon) && all_digits s end.

Fixpoint validUserinfo (s : string) : bool :=
  match s with
  | EmptyString => true
  | String c s => (alphanum c || mem c "-._:~!$&'()*+,;=%@") && validUserinfo s
  end.

Fixpoint count_char (c : Ascii.ascii) (s : string) : nat :=
  match s with EmptyString => O | String a s => ((if decide (a = c) then 1 else 0) + count_char c s)%nat end.

Definition HasSuffix (s p : string) : bool :=
  (String.length p <=? String.length s)%nat && bool_decide (sdrop (String.length s - String.length p) s = p).

Section parsing.
Variable ip_literal : string -> option string.

Definition parseHost (host : string) : option string :=
  if has_char lbr host then ip_literal host
  else
    match last_char colon host with
    | Some i => if validOptionalPort (sdrop i host) then unescape encodeHost host else None
    | None => unescape encodeHost host
    end.

Definition parseUser (userinfo : string) : option (string * option string) :=
  if negb (validUserinfo userinfo) then None
  else if has_char colon userinfo then
    let '(name, pass) := Cut colon userinfo in
    name ← unescape encodeUserPassword name;
    pass ← unescape encodeUserPassword pass;
    Some (name, Some pass)
  else name ← unescape encodeUserPassword userinfo; Some (name, None).

Definition parseAuthority (authority : string) : option (option (string * option string) * string) :=
  match last_char "@"%char authority with
  | None => host ← parseHost authority; Some (None, host)
  | Some i =>
      host ← parseHost (sdrop (S i) authority);
      user ← parseUser (stake i authority);
      Some (Some user, host)
  end.

Definition setPath (p : string) : option (string * string) :=
  path ← unescape encodePath p;
  Some (path, if bool_decide (p = escape encodePath path) then EmptyString else p).

Definition setFragment (f : string) (u : URL) : option URL :=
  frag ← unescape encodeFragment f;
  Some (mkURL (Scheme u) (Opaque u) (User u) (Host u) (Path u) (RawPath u) (OmitHost u) (ForceQuery u) (RawQuery u)
          frag (if bool_decide (f = escape encodeFragment frag) then EmptyString else f)).

(** The query is cut off; a lone final question mark only sets [ForceQuery]. *)
Definition split_query (rest : string) : string * bool * string :=
  if HasSuffix rest "?" && (count_char "?"%char rest =? 1)%nat then (stake (String.length rest - 1) rest, true, EmptyString)
  else let '(rest, query) := Cut "?"%char rest in (rest, false, query).

Definition parse (rawURL : string) : option URL :=
  if has_ctl rawURL then None
  else if bool_decide (rawURL = "*") then Some (mkURL "" "" None "" "*" "" false false "" "" "")
  else
    '(scheme, rest) ← getScheme rawURL;
    let scheme := ToLower scheme in
    let '(rest, force, query) := split_query rest in
    if negb (HasPrefix rest "/") && nonempty scheme then
      Some (mkURL scheme rest None "" "" "" false force query "" "")
    else if negb (HasPrefix rest "/") && has_char colon (Cut slash rest).1 then None
    else
      let has_authority := (nonempty scheme || negb (HasPrefix rest "///")) && HasPrefix rest "//" in
      if has_authority then
        let '(authority, path) :=
          match index_char slash (sdrop 2 rest) with
          | Some i => (stake i (sdrop 2 rest), sdrop i (sdrop 2 rest))
          | None => (sdrop 2 rest, EmptyString)
          end in
        '(user, host) ← parseAuthority authority;
        '(path, raw) ← setPath path;
        Some (mkURL scheme "" user host path raw false force query "" "")
      else
        '(path, raw) ← setPath rest;
        Some (mkURL scheme "" None "" path raw (nonempty scheme && HasPrefix rest "/") force query "" "").

Definition Parse (rawURL : string) : option URL :=
  let '(u, frag) := Cut "#"%char rawURL in
  url ← parse u;
  if bool_decide (frag = EmptyString) then Some url else setFragment frag url.

End parsing.

Definition Username (user : option (string * option string)) : string :=
  match user with Some (n, _) => n | None => EmptyString end.

(** [URL.Hostname]: the host without its port and brackets. *)
Definition Hostname (u : URL) : string :=
  let hostPort := Host u in
  let host := match last_char colon hostPort with
              | Some i => if validOptionalPort (sdrop i hostPort) then stake i hostPort else hostPort
              | None => hostPort
              end in
  if HasPrefix host "[" && HasSuffix host "]" then stake (String.length host - 2) (sdrop 1 host) else host.

(** ** Query values *)

(** [url.Values] as a map; the library only sets single values. *)
Abbreviation Values := (list (string * string)).

(** [Values.Set]. *)
Definition vset (k v : string) (q : Values) : Values := filter (fun kv => kv.1 <> k) q ++ [(k, v)].

(** [Values.Get]: the first value. *)
Fixpoint vget (k : string) (q : Values) : string :=
  match q with [] => EmptyString | (k', v) :: q => if decide (k' = k) then v else vget k q end.

(** Keys in increasing order of their bytes. *)
Fixpoint vinsert (kv : string * string) (q : Values) : Values :=
  match q with
  | [] => [kv]
  | kv' :: q' => if String.leb kv.1 kv'.1 then kv :: q else kv' :: vinsert kv q'
  end.

Definition vsort (q : Values) : Values := foldr vinsert [] q.

Definition encode_pair (kv : string * string) : string :=
  escape encodeQueryComponent kv.1 +:+ "=" +:+ escape encodeQueryComponent kv.2.

(** [Values.Encode]. *)
Definition Encode (q : Values) : string := Join "&" (encode_pair <$> vsort q).

(** One key and value of [parseQuery]; what is malformed is left out. *)
Definition parse_pair (s : string) : Values :=
  if has_char ";"%char s then []
  else if bool_decide (s = EmptyString) then []
  else
    let '(k, v) := Cut "="%char s in
    match unescape encodeQueryComponent k, unescape encodeQueryComponent v with
    | Some k, Some v => [(k, v)]
    | _, _ => []
    end.

(** [URL.Query]. *)
Definition Query (rawQuery : string) : Values := concat (parse_pair <$> split_char "&"%char rawQuery).

(** ** util/url_normalize.go *)

Section normalize.
Variable ip_literal : string -> option string.

Definition set_base (u : URL) : URL :=
  mkURL (Scheme u) (Opaque u) (User u) (Host u) (trim_right slash (Path u)) (RawPath u) (OmitHost u) (ForceQuery u)
    "" "" (RawFragment u).

Definition with_scheme (s : string) : string :=
  let s := if HasPrefix s "//" then "http:" +:+ s else s in
  if negb (Contains s "://") then "http://" +:+ s else s.

Definition NormalizeHTTPBase (raw : string) : res goerr string :=
  let s := TrimSpace raw in
  if bool_decide (s = EmptyString) then Err (EMsg "empty URL" [])
  else if Contains s "[IP]" then Err (EMsg "unresolved placeholder in URL" [])
  else
    match Parse ip_literal (with_scheme s) with
    | None => Err (EMsg "invalid URL" [])
    | Some u =>
        if negb (bool_decide (Scheme u = "http") || bool_decide (Scheme u = "https")) then
          Err (EMsg "unsupported scheme" [])
        else if bool_decide (Host u = EmptyString) then Err (EMsg "invalid URL: missing host" [])
        else Ok (trim_right slash (url_String (set_base u)))
    end.

End normalize.

Definition NormalizeICEServer (raw : string) : string :=
  let s := TrimSpace raw in
  if bool_decide (s = EmptyString) then s
  else
    let l := ToLower s in
    if HasPrefix l "stun:" || HasPrefix l "turn:" || HasPrefix l "turns:" then s else "stun:" +:+ s.

(** ** Laws *)

(** A fact about characters, by computing it for all of them. *)
Ltac all_chars := intros [[] [] [] [] [] [] [] []]; vm_compute; try done; intros; done.

Lemma hex_escape c : hex (hex_upper (code c / 16)) = Some (code c / 16) /\
  hex (hex_upper (code c mod 16)) = Some (code c mod 16) /\
  Ascii.ascii_of_N (Z.to_N (code c / 16 * 16 + code c mod 16)) = c.
Proof. revert c. all_chars. Qed.

Lemma kept_char mode c : mode <> encodeHost -> shouldEscape c mode = false ->
  c <> "%"%char /\ (c = "+"%char -> mode <> encodeQueryComponent).
Proof.
  destruct mode; intros Hm; try done; clear Hm; revert c; all_chars.
Qed.

(** Outside hosts, what is escaped is read back. *)
Lemma unescape_escape mode s : mode <> encodeHost -> unescape mode (escape mode s) = Some s.
Proof.
  intros Hm. induction s as [|c s IH]; [done|]. cbn [escape]. destruct (shouldEscape c mode) eqn:He.
  - case_match eqn:Hsp.
    + apply andb_true_iff in Hsp as [Hc Hq]. apply bool_decide_eq_true in Hc, Hq. subst. cbn [unescape].
      rewrite !bool_decide_eq_false_2, !bool_decide_eq_true_2, IH by done. done.
    + cbn [unescape]. destruct (hex_escape c) as (Hx & Hy & Hc).
      rewrite bool_decide_eq_true_2, Hx, Hy by done. cbn [mbind option_bind].
      rewrite (bool_decide_eq_false_2 (mode = encodeHost)), IH by done. cbn. by rewrite Hc.
  - destruct (kept_char mode c Hm He) as [Hp Hplus]. cbn [unescape].
    rewrite (bool_decide_eq_false_2 (c = "%"%char)), (bool_decide_eq_false_2 (mode = encodeHost)) by done.
    rewrite IH. cbn. destruct (decide (c = "+"%char)) as [Hc|Hc].
    + rewrite bool_decide_eq_true_2, bool_decide_eq_false_2 by auto. done.
    + by rewrite bool_decide_eq_false_2.
Qed.

(** [every P s]: all characters of [s] satisfy [P]. *)
Fixpoint every (P : Ascii.ascii -> bool) (s : string) : bool :=
  match s with EmptyString => true | String c s => P c && every P s end.

Lemma every_app P a b : every P (a +:+ b) = every P a && every P b.
Proof. induction a as [|c a IH]; [done|]. rewrite append_cons. cbn [every]. by rewrite IH, andb_assoc. Qed.

Lemma every_impl (P Q : Ascii.ascii -> bool) s : (forall c, P c = true -> Q c = true) -> every P s = true -> every Q s = true.
Proof.
  intros HPQ. induction s as [|c s IH]; [done|]. cbn [every]. intros [Hc Hs]%andb_true_iff.
  by rewrite HPQ, IH.
Qed.

Lemma every_no_char P c s : P c = false -> every P s = true -> has_char c s = false.
Proof.
  intros Hc. induction s as [|a s IH]; [done|]. cbn [every has_char]. intros [Ha Hs]%andb_true_iff.
  rewrite IH by done. rewrite bool_decide_eq_false_2; [done|]. intros ->. congruence.
Qed.

(** What escaping produces: characters it keeps, per cent signs and, in a
    query, plus signs. *)
Definition escape_out (mode : encoding) (c : Ascii.ascii) : bool :=
  negb (shouldEscape c mode) || bool_decide (c = "%"%char) ||
  (bool_decide (mode = encodeQueryComponent) && bool_decide (c = "+"%char)).

Lemma escape_hex_out mode c : escape_out mode (hex_upper (code c / 16)) && escape_out mode (hex_upper (code c mod 16)) = true.
Proof. destruct mode; revert c; all_chars. Qed.

Lemma every_escape mode s : every (escape_out mode) (escape mode s) = true.
Proof.
  induction s as [|c s IH]; [done|]. cbn [escape]. destruct (shouldEscape c mode) eqn:He.
  - case_match eqn:Hsp; cbn [every]; rewrite IH.
    + apply andb_true_iff in Hsp as [_ Hq]. apply bool_decide_eq_true in Hq. by subst.
    + pose proof (escape_hex_out mode c) as Hh. apply andb_true_iff in Hh as [-> ->]. by destruct mode.
  - cbn [every]. rewrite IH. unfold escape_out at 1. by rewrite He.
Qed.

(** Characters that a host keeps as they are, outside brackets. *)
Definition host_char (c : Ascii.ascii) : bool := negb (shouldEscape c encodeHost) && negb (mem c "[]:").

Lemma escape_kept mode s : every (fun c => negb (shouldEscape c mode)) s = true -> escape mode s = s.
Proof.
  induction s as [|c s IH]; [done|]. cbn [every escape]. intros [Hc Hs]%andb_true_iff.
  apply negb_true_iff in Hc. by rewrite Hc, IH.
Qed.

Lemma host_kept c : shouldEscape c encodeHost = false -> c <> "%"%char.
Proof. revert c. all_chars. Qed.

Lemma unescape_host s : every (fun c => negb (shouldEscape c encodeHost)) s = true -> unescape encodeHost s = Some s.
Proof.
  induction s as [|c s IH]; [done|]. cbn [every unescape]. intros [Hc Hs]%andb_true_iff. apply negb_true_iff in Hc.
  rewrite (bool_decide_eq_false_2 (c = "%"%char)) by (by apply host_kept). rewrite IH, Hc, andb_false_r by done.
  cbn. by case_bool_decide.
Qed.

(** *** Query values *)

Lemma vget_map k (q : Values) : vget k q = default EmptyString ((list_to_map q : gmap string string) !! k).
Proof.
  induction q as [|[k' v] q IH]; [done|]. cbn [vget list_to_map foldr uncurry]. case_decide as Hk.
  - subst. by rewrite lookup_insert_eq.
  - by rewrite lookup_insert_ne.
Qed.

Lemma vget_perm k (p q : Values) : NoDup p.*1 -> p ≡ₚ q -> vget k p = vget k q.
Proof. intros Hn Hp. rewrite !vget_map. by rewrite (list_to_map_proper p q). Qed.

Lemma vinsert_perm kv q : vinsert kv q ≡ₚ kv :: q.
Proof.
  induction q as [|x q IH]; [done|]. cbn [vinsert]. case_match; [done|].
  rewrite IH. by constructor.
Qed.

Lemma vsort_perm q : vsort q ≡ₚ q.
Proof. induction q as [|x q IH]; [done|]. cbn [vsort foldr]. rewrite vinsert_perm. by constructor. Qed.

Lemma vget_vset k v q : vget k (vset k v q) = v.
Proof.
  unfold vset. induction q as [|[k' w] q IH]; [cbn; by rewrite decide_True|].
  rewrite filter_cons. cbn [fst]. destruct (decide (k' <> k)) as [Hk|Hk]; [|done].
  cbn [app vget]. by rewrite decide_False.
Qed.

Lemma vget_vset_ne k k' v q : k' <> k -> vget k' (vset k v q) = vget k' q.
Proof.
  intros Hk. unfold vset. induction q as [|[k0 w] q IH]; [cbn; by rewrite decide_False|].
  rewrite filter_cons. cbn [fst vget]. destruct (decide (k0 <> k)) as [H0|H0].
  - cbn [app vget]. case_decide; [done|]. apply IH.
  - rewrite IH. apply dec_stable in H0 as ->. by rewrite decide_False.
Qed.

Lemma vset_keys k v q : NoDup q.*1 -> NoDup (vset k v q).*1.
Proof.
  intros Hq. unfold vset. rewrite fmap_app. apply NoDup_app. split; [|split].
  - induction q as [|[k' w] q IH]; [constructor|]. rewrite fmap_cons in Hq. apply NoDup_cons in Hq as [Hn Hq].
    rewrite filter_cons. destruct (decide _); [|by apply IH]. rewrite fmap_cons. apply NoDup_cons. split; [|by apply IH].
    intros (kw & Heq & [_ Hin]%list_elem_of_filter)%list_elem_of_fmap. apply Hn.
    apply list_elem_of_fmap. by exists kw.
  - intros x ([k2 w2] & -> & [Hne _]%list_elem_of_filter)%list_elem_of_fmap. cbn. intros ->%list_elem_of_singleton. done.
  - apply NoDup_singleton.
Qed.

Lemma split_char_Join c ps : ps <> [] -> Forall (fun p => has_char c p = false) ps ->
  split_char c (Join (String c EmptyString) ps) = ps.
Proof.
  induction ps as [|p ps IH]; [done|]. intros _ Hps. apply Forall_cons in Hps as [Hp Hps]. cbn [Join].
  destruct ps as [|p' ps]; [by apply split_char_single|].
  change (String.append (String c EmptyString) ?x) with (String c x). rewrite split_char_app by done.
  f_equal. by apply IH.
Qed.

Lemma query_out_no c s : escape_out encodeQueryComponent c = false -> has_char c (escape encodeQueryComponent s) = false.
Proof. intros Hc. eapply every_no_char; [exact Hc|apply every_escape]. Qed.

Lemma Cut_app c a b : has_char c a = false -> Cut c (a +:+ String c b) = (a, b).
Proof.
  intros Ha. unfold Cut. rewrite index_char_app by done.
  rewrite stake_app. f_equal. clear Ha. induction a as [|x a IH]; [done|]. by rewrite append_cons.
Qed.

Lemma Cut_none c a : has_char c a = false -> Cut c a = (a, EmptyString).
Proof.
  intros Ha. unfold Cut. enough (index_char c a = None) as -> by done.
  induction a as [|x a IH]; [done|]. cbn in *. apply orb_false_iff in Ha as [Hx Ha].
  apply bool_decide_eq_false in Hx. by rewrite decide_False, IH.
Qed.

Lemma parse_encode_pair kv : parse_pair (encode_pair kv) = [kv].
Proof.
  destruct kv as [k v]. unfold parse_pair, encode_pair. cbn [fst snd].
  rewrite !has_char_app, !query_out_no by done. change (has_char ";"%char "=") with false. cbn [orb].
  rewrite bool_decide_eq_false_2 by (by destruct (escape encodeQueryComponent k)).
  change ("=" +:+ ?x) with (String "="%char x). rewrite Cut_app by (by apply query_out_no).
  by rewrite !unescape_escape.
Qed.

Lemma encode_pair_amp kv : has_char "&"%char (encode_pair kv) = false.
Proof. unfold encode_pair. by rewrite !has_char_app, !query_out_no. Qed.

(** Encoded values are read back, sorted by key. *)
Lemma Query_Encode q : Query (Encode q) = vsort q.
Proof.
  unfold Query, Encode. destruct (vsort q) as [|kv l] eqn:E; [done|]. rewrite split_char_Join; [|done|].
  - rewrite <- list_fmap_compose. generalize (kv :: l). intros l'. clear E. induction l' as [|x l' IH]; [done|].
    rewrite fmap_cons. cbn [concat]. unfold compose. rewrite parse_encode_pair. cbn. f_equal. apply IH.
  - apply Forall_fmap, Forall_true. intros x. apply encode_pair_amp.
Qed.

Lemma vget_Query_Encode k q : NoDup q.*1 -> vget k (Query (Encode q)) = vget k q.
Proof. intros Hq. rewrite Query_Encode. symmetry. apply vget_perm; [done|]. symmetry. apply vsort_perm. Qed.

Lemma Join_cons2 sep a b l : Join sep (a :: b :: l) = a +:+ sep +:+ Join sep (b :: l).
Proof. done. Qed.

(** What an encoded query is made of. *)
Definition query_char (c : Ascii.ascii) : bool := escape_out encodeQueryComponent c || mem c "=&".

Lemma every_Encode q : every query_char (Encode q) = true.
Proof.
  assert (Hp : forall kv, every query_char (encode_pair kv) = true).
  { intros kv. unfold encode_pair. rewrite !every_app. cbn [every andb].
    rewrite !(every_impl _ query_char _ (fun c Hc => proj2 (orb_true_iff _ _) (or_introl Hc)) (every_escape _ _)).
    done. }
  unfold Encode. generalize (vsort q). intros l. induction l as [|kv l IH]; [done|].
  destruct l as [|kv' l]; [apply Hp|]. rewrite !fmap_cons, Join_cons2, <- fmap_cons, !every_app, Hp, IH. done.
Qed.

(** *** Normalised bases *)

Lemma trim_right_end c s : HasSuffix (trim_right c s) (String c EmptyString) = false.
Proof.
  unfold HasSuffix. induction s as [|a s IH]; [done|]. cbn [trim_right].
  destruct (trim_right c s) as [|b t] eqn:E.
  - destruct (decide (a = c)) as [Ha|Ha]; [done|]. cbn. apply bool_decide_eq_false_2. congruence.
  - cbn [String.length] in *. destruct t as [|b' t]; [done|]. cbn [String.length] in *. apply IH.
Qed.

Lemma trim_right_prefix c a b : every (fun x => negb (bool_decide (x = c))) b = true -> b <> EmptyString ->
  forall r, exists r', trim_right c (a +:+ b +:+ r) = a +:+ b +:+ r'.
Proof.
  intros Hb Hne r. destruct (trim_right c r) as [|x t] eqn:E.
  - exists EmptyString. rewrite !append_nil_r. induction a as [|y a IH].
    + change (trim_right c (b +:+ r) = b). clear Hne. revert Hb. induction b as [|y b IH]; intros Hb; [exact E|].
      cbn [every] in Hb. apply andb_true_iff in Hb as [Hy Hb]. apply negb_true_iff, bool_decide_eq_false in Hy.
      rewrite !append_cons. cbn [trim_right]. rewrite IH by done. destruct b; [by rewrite decide_False|done].
    + rewrite !append_cons. cbn [trim_right]. rewrite IH. destruct a; [|done]. by destruct b.
  - exists (String x t). rewrite <- !append_assoc. generalize (a +:+ b). intros p. clear -E.
    induction p as [|y p IH]; [done|]. rewrite !append_cons. cbn [trim_right]. rewrite IH.
    destruct p; [|done]. done.
Qed.

Lemma escape_host_nonempty s : s <> EmptyString -> escape encodeHost s <> EmptyString.
Proof. destruct s as [|c s]; [done|]. intros _. cbn [escape]. repeat case_match; done. Qed.

Lemma escape_host_no_slash s : every (fun x => negb (bool_decide (x = slash))) (escape encodeHost s) = true.
Proof.
  eapply every_impl; [|apply (every_escape encodeHost)]. all_chars.
Qed.

Lemma trim_right_no_char c d s : has_char c s = false -> has_char c (trim_right d s) = false.
Proof.
  induction s as [|a s IH]; [done|]. cbn [has_char trim_right]. intros [Ha Hs]%orb_false_iff. specialize (IH Hs).
  destruct (trim_right d s) as [|b t]; [|cbn [has_char] in *; by rewrite Ha].
  destruct (decide (a = d)); [done|]. cbn [has_char]. by rewrite Ha.
Qed.

Lemma parse_host ip s u : parse ip s = Some u -> Host u <> EmptyString -> Opaque u = EmptyString /\ OmitHost u = false.
Proof.
  unfold parse. destruct (has_ctl s); [done|]. destruct (bool_decide (s = "*")); [by intros [= <-]|].
  destruct (getScheme s) as [[sch rest]|]; [|done]. cbn [mbind option_bind].
  destruct (split_query rest) as [[rest' force] query].
  destruct (_ && nonempty _); [by intros [= <-]|]. destruct (_ && has_char _ _); [done|].
  destruct (_ && HasPrefix _ _).
  - destruct (match index_char _ _ with Some _ => _ | None => _ end) as [authority path].
    destruct (parseAuthority ip authority) as [[user host]|]; [|done]. cbn [mbind option_bind].
    destruct (setPath path) as [[p raw]|]; [|done]. by intros [= <-].
  - destruct (setPath rest') as [[p raw]|]; [|done]. by intros [= <-].
Qed.

Lemma Parse_host ip s u : Parse ip s = Some u -> Host u <> EmptyString -> Opaque u = EmptyString /\ OmitHost u = false.
Proof.
  unfold Parse, setFragment. destruct (Cut _ s) as [a frag]. destruct (parse ip a) as [v|] eqn:E; [|done]. cbn.
  case_match; [intros [= <-]; by eapply parse_host|].
  destruct (unescape encodeFragment frag); [|done]. cbn. intros [= <-]. cbn. by eapply parse_host.
Qed.

Lemma no_hash_escape mode s : has_char "#"%char (escape mode s) = false.
Proof. eapply every_no_char; [|apply (every_escape mode)]. by destruct mode. Qed.

Lemma no_hash_valid s : validEncoded encodePath s = true -> has_char "#"%char s = false.
Proof.
  induction s as [|c s IH]; [done|]. cbn [validEncoded has_char]. intros [Hc Hs]%andb_true_iff. rewrite IH by done.
  rewrite bool_decide_eq_false_2; [done|]. by intros ->.
Qed.

Lemma no_hash_path before u : has_char "#"%char (url_path before u) = false.
Proof.
  assert (Hp : has_char "#"%char (EscapedPath u) = false).
  { unfold EscapedPath, escaped_of. destruct (_ && _ && bool_decide _) eqn:Hv.
    - apply andb_true_iff in Hv as [[_ Hv]%andb_true_iff _]. by apply no_hash_valid.
    - destruct (bool_decide (Path u = "*")); [reflexivity|]. apply no_hash_escape. }
  unfold url_path. rewrite !has_char_app, Hp. repeat case_match; done.
Qed.

Lemma no_hash_user ui : has_char "#"%char (user_string ui) = false.
Proof. unfold user_string. rewrite has_char_app, no_hash_escape. case_match; [|done]. by rewrite has_char_app, no_hash_escape. Qed.

(** A URL with a scheme and a host, after its query and fragment were cut. *)
Lemma url_String_base u : nonempty (Scheme u) = true -> Opaque u = EmptyString -> Host u <> EmptyString ->
  exists user rest, url_String (set_base u) = (Scheme u +:+ "://" +:+ user) +:+ escape encodeHost (Host u) +:+ rest /\
    has_char "#"%char user = false /\ has_char "#"%char rest = false.
Proof.
  intros Hs Ho Hh. unfold url_String, url_authority. cbn [Scheme Opaque Host User OmitHost ForceQuery RawQuery Fragment set_base].
  rewrite Hs, Ho. assert (Hn : nonempty (Host u) = true) by (by apply negb_true_iff, bool_decide_eq_false_2).
  rewrite Hn, andb_false_r. change (nonempty "") with false. cbn [orb andb negb]. rewrite orb_false_r.
  eexists (match User u with Some ui => user_string ui +:+ "@" | None => "" end),
    (url_path _ (set_base u) +:+ (if ForceQuery u then "?" else "") +:+ "").
  split; [|split].
  - rewrite !append_assoc. reflexivity.
  - case_match; [|done]. by rewrite has_char_app, no_hash_user.
  - rewrite !has_char_app, no_hash_path. by case_match.
Qed.

(** What [NormalizeHTTPBase] returns has an HTTP scheme, no final slash and no
    fragment, and the raw text had no placeholder. *)
Lemma normalized_base ip raw out : NormalizeHTTPBase ip raw = Ok out ->
  (HasPrefix out "http://" = true \/ HasPrefix out "https://" = true) /\
  HasSuffix out "/" = false /\ has_char "#"%char out = false /\ Contains (TrimSpace raw) "[IP]" = false.
Proof.
  unfold NormalizeHTTPBase. case_match; [done|]. destruct (Contains _ _) eqn:Hip; [done|].
  destruct (Parse ip _) as [u|] eqn:Hp; [|done].
  destruct (negb _) eqn:Hsch; [done|]. case_match eqn:Hh; [done|]. intros [= <-].
  apply bool_decide_eq_false in Hh. apply negb_false_iff, orb_true_iff in Hsch.
  destruct (Parse_host ip _ _ Hp Hh) as [Ho _].
  assert (Hs : nonempty (Scheme u) = true) by (destruct Hsch as [Hs|Hs]; apply bool_decide_eq_true in Hs; by rewrite Hs).
  destruct (url_String_base u Hs Ho Hh) as (user & rest & Hu & Hnu & Hnr).
  split; [|split; [apply trim_right_end|split; [|done]]].
  - rewrite Hu. destruct (trim_right_prefix slash (Scheme u +:+ "://" +:+ user) (escape encodeHost (Host u))
      (escape_host_no_slash _) (escape_host_nonempty _ Hh) rest) as [r' ->].
    rewrite !append_assoc.
    destruct Hsch as [Hh'|Hh']; apply bool_decide_eq_true in Hh'; rewrite Hh'; [left|right];
      [apply (HasPrefix_append "http://")|apply (HasPrefix_append "https://")].
  - apply trim_right_no_char. rewrite Hu, !has_char_app, Hnu, Hnr, no_hash_escape.
    destruct Hsch as [Hh'|Hh']; apply bool_decide_eq_true in Hh'; by rewrite Hh'.
Qed.

(** *** Numbers *)

Definition is_digit (c : Ascii.ascii) : bool := is_some (digit c).

Lemma pretty_digit (x : N) : (x < 10)%N -> digit (pretty_N_char x) = Some (Z.of_N x).
Proof.
  intros Hx. assert (Hn : (N.to_nat x < 10)%nat) by lia. rewrite <- (N2Nat.id x). revert Hn.
  generalize (N.to_nat x). intros n Hn. do 10 (destruct n as [|n]; [reflexivity|]). lia.
Qed.

Lemma digits_pretty x s : digits_val 0 (pretty_N_go x s) = digits_val (Z.of_N x) s /\
  every is_digit (pretty_N_go x s) = every is_digit s.
Proof.
  revert s. induction (N.lt_wf_0 x) as [x _ IH]; intros s.
  destruct (decide (x = 0%N)) as [->|Hx]; [by rewrite pretty_N_go_0|].
  rewrite pretty_N_go_step by lia. destruct (IH (x `div` 10)%N) with (s := String (pretty_N_char (x `mod` 10)) s) as [-> ->];
    [apply N.div_lt; lia|].
  assert (Hd : digit (pretty_N_char (x `mod` 10)) = Some (Z.of_N (x `mod` 10))) by (apply pretty_digit, N.mod_lt; lia).
  cbn [digits_val every]. unfold is_digit at 1. rewrite Hd. cbn [mbind option_bind is_some andb]. split; [|done]. f_equal.
  rewrite N2Z.inj_div, N2Z.inj_mod by lia. rewrite (Z.div_mod (Z.of_N x) 10) at 3 by lia. lia.
Qed.

Lemma itoa_digits z : 0 <= z -> every is_digit (itoa z) = true /\ digits_val 0 (itoa z) = Some z /\ itoa z <> EmptyString.
Proof.
  intros Hz. split; [|split; [|apply itoa_word]]; unfold itoa; destruct z as [|p|p]; try done; try lia;
    change (pretty (Z.pos p)) with (pretty_N_go (N.pos p) EmptyString); by rewrite (proj1 (digits_pretty _ _)) || by rewrite (proj2 (digits_pretty _ _)).
Qed.

(** [strconv.Atoi] reads back what [strconv.Itoa] wrote. *)
Lemma Atoi_itoa z : 0 <= z < 2 ^ 63 -> Atoi (itoa z) = Some z.
Proof.
  intros Hz. destruct (itoa_digits z) as (Hd & Hv & Hne); [lia|]. unfold Atoi.
  destruct (itoa z) as [|c s]; [done|]. cbn [every] in Hd. apply andb_true_iff in Hd as [Hc _].
  assert (Hs : (match c with "-"%char => (true, s) | "+"%char => (false, s) | _ => (false, String c s) end) = (false, String c s)).
  { destruct c as [[] [] [] [] [] [] [] []]; done. }
  rewrite Hs. rewrite Hv. cbn [mbind option_bind].
  rewrite (proj2 (Z.leb_le _ _)), (proj2 (Z.ltb_lt _ _)) by lia. done.
Qed.

(** *** Suffixes *)

Lemma has_char_sdrop c n s : has_char c s = false -> has_char c (sdrop n s) = false.
Proof.
  revert s. induction n as [|n IH]; intros [|a s]; cbn [sdrop has_char]; try done.
  intros [_ Hs]%orb_false_iff. by apply IH.
Qed.

Lemma no_suffix c a b : b <> EmptyString -> has_char c b = false -> HasSuffix (a +:+ b) (String c EmptyString) = false.
Proof.
  intros Hne Hb. unfold HasSuffix. rewrite length_append.
  replace (String.length a + String.length b - String.length (String c EmptyString))%nat
    with (String.length a + (String.length b - 1))%nat by (destruct b; [done|]; cbn; lia).
  rewrite sdrop_app_plus, bool_decide_eq_false_2, andb_false_r; [done|].
  intros Heq. apply (has_char_sdrop _ (String.length b - 1)) in Hb. rewrite Heq in Hb. cbn in Hb.
  by rewrite bool_decide_eq_true_2 in Hb.
Qed.

End Url.
