(* ===== verification/Fingerprint.v ===== *)
(** * Certificate fingerprints

    [golib/replace/dtls/pkg/crypto/fingerprint]: the fingerprint that a session
    description carries, the digest of the certificate in hexadecimal with a
    colon after every second digit, and the names of the hash functions.

    The hash functions of the Go library are a parameter: which are linked in,
    and the three methods of [hash.Hash] that are called. *)

From S2P Require Import Prelude IO GoStr Socks Url.

Open Scope np_scope.
Open Scope Z_scope.

Module Fingerprint.

Inductive fp_err := errHashUnavailable | errInvalidFingerprintLength | errInvalidHashAlgorithm | fp_panic.

(** ** The text *)

(** [Sprintf] with [%x] of a slice. *)
Definition hex_pair (b : byte) : list Ascii.ascii := [Socks.hex_digit (b2z b / 16); Socks.hex_digit (b2z b mod 16)].
Definition hex_text (d : bytes) : list Ascii.ascii := concat (map hex_pair d).

(** [res[pos] = c], which panics outside of the slice. *)
Definition put_char (pos : nat) (c : Ascii.ascii) (l : list Ascii.ascii) : res fp_err (list Ascii.ascii) :=
  if (pos <? length l)%nat then Ok (<[pos := c]> l) else Err fp_panic.

Fixpoint fill (digestlen : nat) (digest : list Ascii.ascii) (i pos : nat) (l : list Ascii.ascii) : res fp_err (list Ascii.ascii) :=
  match digest with
  | [] => Ok l
  | c :: digest =>
      let! l := put_char pos c l in
      let pos := S pos in
      if negb (Z.of_nat i mod 2 =? 0) && (Z.of_nat i <? Z.of_nat digestlen - 1)
      then let! l := put_char pos ":"%char l in fill digestlen digest (S i) (S pos) l
      else fill digestlen digest (S i) pos l
  end.

(** What [Fingerprint] makes of the digest. *)
Definition colons (digest : list Ascii.ascii) : res fp_err (list Ascii.ascii) :=
  let digestlen := length digest in
  if (digestlen =? 0)%nat then Ok []
  else if negb (Z.of_nat digestlen mod 2 =? 0) then Err errInvalidFingerprintLength
  else fill digestlen digest 0 0 (replicate (Z.to_nat (Z.shiftr (Z.of_nat digestlen) 1 + Z.of_nat digestlen - 1)) zero).

Section fingerprint.
Context {St : Type}.
Variables (Available : Z -> bool) (New : Z -> St) (Write : St -> bytes -> St * nat) (Sum : St -> bytes).

(** The loop writes what is left until nothing is; [n] bounds its turns. *)
Fixpoint write_loop (n : nat) (h : St) (raw : bytes) (i : nat) : St :=
  match n with
  | O => h
  | S n => if (i <? length raw)%nat then let '(h, k) := Write h (drop i raw) in write_loop n h raw (i + k) else h
  end.

Definition Fingerprint (raw : bytes) (algo : Z) : res fp_err string :=
  if negb (Available algo) then Err errHashUnavailable
  else
    let h := write_loop (length raw) (New algo) raw 0 in
    let! l := colons (hex_text (Sum h)) in
    Ok (string_of_list_ascii l).
End fingerprint.

(** ** The names *)

Definition nameToHash : list (string * Z) := [("md5", 2); ("sha-1", 3); ("sha-224", 4); ("sha-256", 5); ("sha-384", 6); ("sha-512", 7)].

Definition HashFromString (s : string) : res fp_err Z :=
  match List.find (fun p => String.eqb (fst p) (Url.ToLower s)) nameToHash with
  | Some (_, h) => Ok h
  | None => Err errInvalidHashAlgorithm
  end.

Definition StringFromHash (hash : Z) : res fp_err string :=
  match List.find (fun p => snd p =? hash) nameToHash with
  | Some (s, _) => Ok s
  | None => Err errInvalidHashAlgorithm
  end.

(** ** The loop is the text that was meant *)

(** The reference: the pairs of digits with colons between them. *)
Fixpoint colon_hex (d : bytes) : list Ascii.ascii :=
  match d with
  | [] => []
  | b :: d' => hex_pair b ++ match d' with [] => [] | _ => ":"%char :: colon_hex d' end
  end.

Lemma length_hex d : length (hex_text d) = (2 * length d)%nat.
Proof. induction d as [|b d IH]; [done|]. unfold hex_text in *. simpl. lia. Qed.

Lemma length_colon_hex d : d <> [] -> (length (colon_hex d) + 1 = 3 * length d)%nat.
Proof. induction d as [|b [|b' d] IH]; [done|done|]. intros _. specialize (IH ltac:(done)). cbn [colon_hex length app hex_pair] in *. lia. Qed.

Lemma put_at pre x c rest : put_char (length pre) c (pre ++ x :: rest) = Ok (pre ++ c :: rest).
Proof.
  unfold put_char. rewrite (proj2 (Nat.ltb_lt _ _)) by (rewrite length_app; simpl; lia). by rewrite insert_app_r_alt, Nat.sub_diag by lia.
Qed.

Lemma put_next pre a x c rest : put_char (S (length pre)) c (pre ++ a :: x :: rest) = Ok (pre ++ a :: c :: rest).
Proof. pose proof (put_at (pre ++ [a]) x c rest) as Hp. rewrite length_app, Nat.add_1_r in Hp. by rewrite <- !app_assoc in Hp. Qed.

Lemma even_position k : (Z.of_nat (2 * k) mod 2 =? 0) = true.
Proof. apply Z.eqb_eq. rewrite Nat2Z.inj_mul, Z.mul_comm. by apply Z_mod_mult. Qed.

Lemma odd_position k : (Z.of_nat (S (2 * k)) mod 2 =? 0) = false.
Proof. apply Z.eqb_neq. replace (Z.of_nat (S (2 * k))) with (1 + Z.of_nat k * 2) by lia. by rewrite Z_mod_plus_full. Qed.

Lemma fill_correct L d : forall k pre rest,
  L = (2 * k + 2 * length d)%nat -> d <> [] -> length rest = length (colon_hex d) ->
  fill L (hex_text d) (2 * k) (length pre) (pre ++ rest) = Ok (pre ++ colon_hex d).
Proof.
  induction d as [|b d IH]; intros k pre rest HL Hne Hr; [done|]. pose proof (length_colon_hex (b :: d) Hne) as Hlen. simpl length in Hlen.
  destruct rest as [|x [|y rest]]; [simpl in *; lia|simpl in *; lia|].
  change (hex_text (b :: d)) with (Socks.hex_digit (b2z b / 16) :: Socks.hex_digit (b2z b mod 16) :: hex_text d). cbn [fill]. rewrite put_at. cbn [res_bind].
  rewrite even_position. cbn [negb andb]. rewrite put_next. cbn [res_bind].
  rewrite odd_position. cbn [negb andb].
  destruct d as [|b' d].
  - rewrite (proj2 (Z.ltb_ge _ _)) by (simpl in *; lia). cbn [hex_text map concat fill]. simpl in Hr. by destruct rest.
  - rewrite (proj2 (Z.ltb_lt _ _)) by (simpl in *; lia). destruct rest as [|z rest]; [simpl in *; lia|].
    pose proof (put_next (pre ++ [Socks.hex_digit (b2z b / 16)]) (Socks.hex_digit (b2z b mod 16)) z ":"%char rest) as Hp.
    rewrite length_app, Nat.add_1_r, <- !app_assoc in Hp. cbn [app] in Hp. rewrite Hp. cbn [res_bind].
    specialize (IH (S k) (pre ++ [Socks.hex_digit (b2z b / 16); Socks.hex_digit (b2z b mod 16); ":"%char]) rest).
    rewrite length_app, <- !app_assoc in IH. cbn [app length] in IH. replace (2 * S k)%nat with (S (S (2 * k))) in IH by lia.
    replace (length pre + 3)%nat with (S (S (S (length pre)))) in IH by lia. rewrite IH; [done|simpl in *; lia|done|].
    cbn [colon_hex length app hex_pair] in Hr |- *. lia.
Qed.

Lemma colons_hex d : colons (hex_text d) = Ok (colon_hex d).
Proof.
  unfold colons. rewrite length_hex. destruct d as [|b d]; [done|]. rewrite (proj2 (Nat.eqb_neq _ _)) by (simpl; lia).
  rewrite even_position. cbn [negb]. pose proof (length_colon_hex (b :: d) ltac:(done)) as Hl.
  rewrite Z.shiftr_div_pow2 by lia. apply (fill_correct _ (b :: d) 0 [] (replicate _ _)); [lia|done|]. rewrite length_replicate.
  rewrite Nat2Z.inj_mul, Z.mul_comm, Z.div_mul by done. lia.
Qed.

(** A digest can be read back from its fingerprint. *)
Lemma hex_pair_inj a b : hex_pair a = hex_pair b -> a = b.
Proof.
  assert (Hd : forall c, List.find (fun x => bool_decide (hex_pair x = hex_pair c)) (map (fun n => z2b (Z.of_nat n)) (seq 0 256)) = Some c)
    by (intros []; vm_compute; reflexivity).
  intros He. pose proof (Hd a) as Ha. rewrite He, (Hd b) in Ha. by injection Ha.
Qed.

Lemma colon_hex_inj d e : colon_hex d = colon_hex e -> d = e.
Proof.
  revert e. induction d as [|b d IH]; intros [|c e] He; [done|done|done|]. cbn [colon_hex hex_pair app] in He. injection He as H1 H2 H3.
  f_equal; [apply hex_pair_inj; unfold hex_pair; congruence|]. destruct d, e; try done. apply IH. congruence.
Qed.

Section certificate.
Context {St : Type}.
Variables (Available : Z -> bool) (New : Z -> St) (Write : St -> bytes -> St * nat) (Sum : St -> bytes).

(** [Write] of a hash takes all it is given. *)
Hypothesis Write_all : forall h b, snd (Write h b) = length b.

Definition digest_of (raw : bytes) (algo : Z) : bytes := Sum (match raw with [] => New algo | _ => fst (Write (New algo) raw) end).

(** The loop ends, in one turn, and the fingerprint is the digest with colons;
    certificates with different digests have different ones. *)
Lemma fingerprint_correct raw algo :
  Fingerprint Available New Write Sum raw algo =
    if Available algo then Ok (string_of_list_ascii (colon_hex (digest_of raw algo))) else Err errHashUnavailable.
Proof.
  unfold Fingerprint, digest_of. destruct (Available algo); [|done]. cbn [negb].
  assert (Hw : write_loop Write (length raw) (New algo) raw 0 = match raw with [] => New algo | _ => fst (Write (New algo) raw) end).
  { destruct raw as [|b raw]; [done|]. cbn [write_loop length]. cbn [Nat.ltb Nat.leb drop]. pose proof (Write_all (New algo) (b :: raw)) as Ha.
    destruct (Write (New algo) (b :: raw)) as [h k]. cbn [fst snd] in *. subst k. destruct (length raw) eqn:El; [done|]. cbn [write_loop].
    by rewrite (proj2 (Nat.ltb_ge _ _)) by (simpl; lia). }
  by rewrite Hw, colons_hex.
Qed.

Lemma fingerprint_inj raw raw' algo : Available algo = true ->
  Fingerprint Available New Write Sum raw algo = Fingerprint Available New Write Sum raw' algo <-> digest_of raw algo = digest_of raw' algo.
Proof.
  intros Ha. rewrite !fingerprint_correct, Ha. split; [|by intros ->]. intros [= He]. apply colon_hex_inj.
  rewrite <- (list_ascii_of_string_of_list_ascii (colon_hex (digest_of raw algo))), He. apply list_ascii_of_string_of_list_ascii.
Qed.
End certificate.

(** A name that is printed is read back, in any case of its letters. *)
Lemma hash_names hash s t : StringFromHash hash = Ok s -> Url.ToLower t = s -> HashFromString t = Ok hash.
Proof.
  unfold StringFromHash, HashFromString, nameToHash. cbn [List.find fst snd].
  repeat (match goal with |- context [Z.eqb ?k hash] => destruct (Z.eqb_spec k hash) as [<-|?] end; [by intros [= <-] ->|]). done.
Qed.

End Fingerprint.
