(* ===== verification/Xray.v ===== *)
(** * The xray back end

    [golib/xray]: the proxy settings that both sides share, the configurations
    built from them for the third-party [xray-core], the single instance of it
    that the process runs, the tracker of client addresses, and VLESS links.
    [xray-core] is the class [XrayCore], JSON text the class [ProxyJson]. *)

From S2P Require Import Prelude IO GoStr Socks Sdp Codes Url.

Open Scope Z_scope.

Module Xray.

Import Sdp Codes Url.

(** ** Settings ([server.go]) *)

Record proxySettings := mkProxy {
  Protocol : string; Transport : string;
  SocksAuth : string; SocksUsername : string; SocksPassword : string; SocksUDP : bool;
  KcpMTU : Z; KcpTTI : Z; KcpUplinkCapacity : Z; KcpDownlinkCapacity : Z; KcpCongestion : bool;
  KcpReadBufferSize : Z; KcpWriteBufferSize : Z;
  XhttpPath : string; XhttpHost : string; XhttpMode : string;
  FinalMaskType : string; FinalMaskPassword : string; FinalMaskDomain : string }.

Definition defaultProxySettings : proxySettings :=
  mkProxy "socks" "kcp" "noauth" "" "" true 1350 20 12 100 true 4 4 "/" "" "auto" "header-dtls" "" "".

(** Settings as the JSON object of their fields.  [proxy_parse] is
    [json.Unmarshal] into settings that hold defaults, its error ignored. *)
Class ProxyJson `{Json} := {
  proxy_text : proxySettings -> string;
  proxy_parse : string -> proxySettings -> proxySettings;
  proxy_text_nonempty : forall p, proxy_text p <> EmptyString;
  proxy_roundtrip : forall p d,
    forallb utf8 [Protocol p; Transport p; SocksAuth p; SocksUsername p; SocksPassword p; XhttpPath p; XhttpHost p;
                  XhttpMode p; FinalMaskType p; FinalMaskPassword p; FinalMaskDomain p] = true ->
    proxy_parse (proxy_text p) d = p
}.

Definition parseProxySettings `{ProxyJson} (settingsJSON : string) : proxySettings :=
  if bool_decide (settingsJSON = EmptyString) then defaultProxySettings
  else proxy_parse settingsJSON defaultProxySettings.

(** ** Configurations ([server.go], [client.go]) *)

(** What [json.Marshal] is given: maps, arrays and atoms. *)
#[warnings="-register-all"]
Inductive jval :=
| JStr (s : string)
| JNum (z : Z)
| JBool (b : bool)
| JArr (l : list jval)
| JObj (l : list (string * jval)).

Section configs.
Context `{ProxyJson}.

Definition BuildServerConfig (listenAddr : string) (listenPort : Z) (uuid settingsJSON : string) : jval :=
  let ps := parseProxySettings settingsJSON in
  let inbound :=
    if bool_decide (Protocol ps = "socks") then
      let settings := [("auth", JStr (SocksAuth ps)); ("udp", JBool (SocksUDP ps))] ++
        (if bool_decide (SocksAuth ps = "password") then
           [("accounts", JArr [JObj [("user", JStr (SocksUsername ps)); ("pass", JStr (SocksPassword ps))]])]
         else []) in
      JObj [("tag", JStr "proxy-in"); ("port", JNum listenPort); ("listen", JStr listenAddr);
            ("protocol", JStr "socks"); ("settings", JObj settings)]
    else
      let streamSettings := ("security", JStr "none") ::
        (if bool_decide (Transport ps = "xhttp") then
           [("network", JStr "xhttp");
            ("xhttpSettings", JObj ([("path", JStr (XhttpPath ps)); ("mode", JStr (XhttpMode ps))] ++
               (if nonempty (XhttpHost ps) then [("host", JStr (XhttpHost ps))] else [])))]
         else
           [("network", JStr "kcp");
            ("kcpSettings", JObj [("mtu", JNum (KcpMTU ps)); ("tti", JNum (KcpTTI ps));
               ("uplinkCapacity", JNum (KcpUplinkCapacity ps)); ("downlinkCapacity", JNum (KcpDownlinkCapacity ps));
               ("congestion", JBool (KcpCongestion ps)); ("readBufferSize", JNum (KcpReadBufferSize ps));
               ("writeBufferSize", JNum (KcpWriteBufferSize ps))])] ++
           (if nonempty (FinalMaskType ps) && negb (bool_decide (FinalMaskType ps = "none")) then
              let mask := ("type", JStr (FinalMaskType ps)) ::
                (if bool_decide (FinalMaskType ps = "mkcp-aes128gcm") then
                   [("settings", JObj [("password", JStr (FinalMaskPassword ps))])]
                 else if bool_decide (FinalMaskType ps = "header-dns") then
                   [("settings", JObj [("domain", JStr (FinalMaskDomain ps))])]
                 else []) in
              [("finalmask", JObj [("udp", JArr [JObj mask])])]
            else [])) in
      JObj [("tag", JStr "proxy-in"); ("port", JNum listenPort); ("listen", JStr listenAddr);
            ("protocol", JStr "vless");
            ("settings", JObj [("clients", JArr [JObj [("id", JStr uuid)]]); ("decryption", JStr "none")]);
            ("streamSettings", JObj streamSettings)] in
  JObj [("log", JObj [("loglevel", JStr "info")]);
        ("dns", JObj [("servers", JArr [JStr "https+local://1.1.1.1/dns-query"; JStr "https+local://8.8.8.8/dns-query"])]);
        ("inbounds", JArr [inbound]);
        ("outbounds", JArr [JObj [("tag", JStr "direct"); ("protocol", JStr "freedom"); ("settings", JObj [])];
                            JObj [("tag", JStr "dns-out"); ("protocol", JStr "dns")]]);
        ("routing", JObj [("rules", JArr [JObj [("type", JStr "field"); ("port", JNum 53); ("outboundTag", JStr "dns-out")]])])].

Definition BuildClientConfig (serverIP : string) (serverPort : Z) (uuid : string) (socksPort : Z) (settingsJSON : string) : jval :=
  let ps := parseProxySettings settingsJSON in
  let outbound :=
    if bool_decide (Protocol ps = "socks") then
      let server := [("address", JStr serverIP); ("port", JNum serverPort)] ++
        (if bool_decide (SocksAuth ps = "password") then
           [("users", JArr [JObj [("user", JStr (SocksUsername ps)); ("pass", JStr (SocksPassword ps))]])]
         else []) in
      JObj [("tag", JStr "proxy-out"); ("protocol", JStr "socks");
            ("settings", JObj [("servers", JArr [JObj server])])]
    else
      let streamSettings := ("security", JStr "none") ::
        (if bool_decide (Transport ps = "xhttp") then
           [("network", JStr "xhttp");
            ("xhttpSettings", JObj ([("path", JStr (XhttpPath ps)); ("mode", JStr (XhttpMode ps))] ++
               (if nonempty (XhttpHost ps) then [("host", JStr (XhttpHost ps))] else [])))]
         else
           [("network", JStr "kcp");
            ("kcpSettings", JObj [("mtu", JNum (KcpMTU ps)); ("tti", JNum (KcpTTI ps));
               ("uplinkCapacity", JNum (KcpUplinkCapacity ps)); ("downlinkCapacity", JNum (KcpDownlinkCapacity ps));
               ("congestion", JBool (KcpCongestion ps)); ("readBufferSize", JNum (KcpReadBufferSize ps));
               ("writeBufferSize", JNum (KcpWriteBufferSize ps))])] ++
           (if nonempty (FinalMaskType ps) && negb (bool_decide (FinalMaskType ps = "none")) then
              let mask := ("type", JStr (FinalMaskType ps)) ::
                (if bool_decide (FinalMaskType ps = "mkcp-aes128gcm") then
                   [("settings", JObj [("password", JStr (FinalMaskPassword ps))])]
                 else if bool_decide (FinalMaskType ps = "header-dns") then
                   [("settings", JObj [("domain", JStr (FinalMaskDomain ps))])]
                 else []) in
              [("finalmask", JObj [("udp", JArr [JObj mask])])]
            else [])) in
      JObj [("tag", JStr "proxy-out"); ("protocol", JStr "vless");
            ("settings", JObj [("vnext", JArr [JObj [("address", JStr serverIP); ("port", JNum serverPort);
               ("users", JArr [JObj [("id", JStr uuid); ("encryption", JStr "none")]])]])]);
            ("streamSettings", JObj streamSettings)] in
  JObj [("log", JObj [("loglevel", JStr "info")]);
        ("inbounds", JArr [JObj [("tag", JStr "socks-in"); ("port", JNum socksPort); ("listen", JStr "127.0.0.1");
           ("protocol", JStr "socks"); ("settings", JObj [("udp", JBool true)])]]);
        ("outbounds", JArr [outbound])].

End configs.

(** Walking a configuration. *)
Fixpoint lookup_field (k : string) (l : list (string * jval)) : option jval :=
  match l with [] => None | (k', v) :: l => if decide (k' = k) then Some v else lookup_field k l end.
Definition jfield (k : string) (v : jval) : option jval := match v with JObj l => lookup_field k l | _ => None end.
Definition jindex (i : nat) (v : jval) : option jval := match v with JArr l => l !! i | _ => None end.

(** A path of field names and array positions. *)
Fixpoint jpath (p : list (string + nat)) (v : jval) : option jval :=
  match p with
  | [] => Some v
  | inl k :: p => v ← jfield k v; jpath p v
  | inr i :: p => v ← jindex i v; jpath p v
  end.

Definition inbound : list (string + nat) := [inl "inbounds"; inr 0%nat].
Definition outbound : list (string + nat) := [inl "outbounds"; inr 0%nat].

(** The two configurations for the same settings agree on everything that
    travels: protocol, transport settings and credentials. *)
Lemma configs_agree `{ProxyJson} listenAddr listenPort uuid serverIP serverPort socksPort settings :
  let s := BuildServerConfig listenAddr listenPort uuid settings in
  let c := BuildClientConfig serverIP serverPort uuid socksPort settings in
  jpath (inbound ++ [inl "protocol"]) s = jpath (outbound ++ [inl "protocol"]) c /\
  jpath (inbound ++ [inl "streamSettings"]) s = jpath (outbound ++ [inl "streamSettings"]) c /\
  jpath (inbound ++ [inl "settings"; inl "accounts"]) s =
    jpath (outbound ++ [inl "settings"; inl "servers"; inr 0%nat; inl "users"]) c /\
  jpath (inbound ++ [inl "settings"; inl "clients"; inr 0%nat; inl "id"]) s =
    jpath (outbound ++ [inl "settings"; inl "vnext"; inr 0%nat; inl "users"; inr 0%nat; inl "id"]) c.
Proof.
  intros s c. subst s c. unfold BuildServerConfig, BuildClientConfig. set (ps := parseProxySettings settings).
  destruct (bool_decide (Protocol ps = "socks")); [|done].
  destruct (bool_decide (SocksAuth ps = "password")); done.
Qed.

(** ** The instance ([engine.go]) *)

(** [core_new] is loading a configuration, creating an instance and starting
    it; [core_close] is [Close] of an instance. *)
Class XrayCore (I E : Type) := {
  core_new : jval -> Prog E I;
  core_close : I -> Prog E unit
}.

Section engine.
Context {I E : Type} `{XrayCore I E}.

(** The package variables, next to the environment. *)
Record engine := mkEngine { instance : option I; eng_env : E }.

Definition StartXray (config : jval) : Prog engine unit :=
  fun g =>
    match instance g with
    | Some _ => (Err (EMsg "xray already running" []), g)
    | None =>
        match core_new config (eng_env g) with
        | (Err e, w) => (Err e, mkEngine None w)
        | (Ok inst, w) => (Ok tt, mkEngine (Some inst) w)
        end
    end.

Definition StopXray : Prog engine unit :=
  fun g =>
    match instance g with
    | None => (Ok tt, g)
    | Some inst => let '(r, w) := core_close inst (eng_env g) in (r, mkEngine None w)
    end.

End engine.

Arguments engine I E : clear implicits.

(** The addresses of clients, with the time of their last accepted access. *)
Definition tracker := gmap string Z.

Definition extractIP (addr : string) : string :=
  let addr := if HasPrefix addr "tcp:" || HasPrefix addr "udp:" then sdrop 4 addr else addr in
  match last_char colon addr with Some i => stake i addr | None => addr end.

(** [from] is the printed source of an accepted access. *)
Definition trackClientFromAccess (accepted : bool) (from : option string) (now : Z) (t : tracker) : tracker :=
  match accepted, from with
  | true, Some from =>
      let ip := extractIP from in
      if bool_decide (ip = EmptyString) || bool_decide (ip = "127.0.0.1") || bool_decide (ip = "::1") then t
      else <[ip := now]> t
  | _, _ => t
  end.

(** In nanoseconds. *)
Definition client_window : Z := 10 * 10 ^ 9.

Definition GetClientCount (now : Z) (t : tracker) : Z * tracker :=
  let t := filter (fun kv => ~ kv.2 < now - client_window) t in (Z.of_nat (size t), t).

Definition ResetClientTracker (t : tracker) : tracker := ∅.

(** ** Links ([vlesslink.go]) *)

Record VLESSLink := mkLink {
  UUID : string; Address : string; Port : Z; Encryption : string; Security : string; LinkTransport : string;
  HeaderType : string; Seed : string; LinkPath : string; LinkHost : string; LinkMode : string; Remark : string }.

Definition finalMaskToHeaderType : list (string * string) :=
  [("header-srtp", "srtp"); ("header-dtls", "dtls"); ("header-wechat", "wechat-video"); ("header-utp", "utp");
   ("header-wireguard", "wireguard"); ("header-dns", "dns"); ("mkcp-original", "none"); ("mkcp-aes128gcm", "none")].

Definition headerTypeToFinalMask : list (string * string) :=
  [("srtp", "header-srtp"); ("dtls", "header-dtls"); ("wechat-video", "header-wechat"); ("utp", "header-utp");
   ("wireguard", "header-wireguard"); ("dns", "header-dns"); ("none", "mkcp-original")].

Definition map_or_none (m : list (string * string)) (k : string) : string :=
  default "none" ((list_to_map m : gmap string string) !! k).

Definition MapFinalMaskToHeaderType : string -> string := map_or_none finalMaskToHeaderType.
Definition MapHeaderTypeToFinalMask : string -> string := map_or_none headerTypeToFinalMask.

Definition link_query (ps : proxySettings) : Values :=
  let q := vset "security" "none" (vset "encryption" "none" []) in
  if bool_decide (Transport ps = "xhttp") then
    let q := vset "type" "xhttp" q in
    let q := if nonempty (XhttpPath ps) then vset "path" (XhttpPath ps) q else q in
    let q := if nonempty (XhttpHost ps) then vset "host" (XhttpHost ps) q else q in
    if nonempty (XhttpMode ps) then vset "mode" (XhttpMode ps) q else q
  else
    let q := vset "headerType" (MapFinalMaskToHeaderType (FinalMaskType ps)) (vset "type" "kcp" q) in
    if nonempty (FinalMaskPassword ps) then vset "seed" (FinalMaskPassword ps) q else q.

Definition link_host (address : string) : string :=
  if is_some (ParseIP address) && Contains address ":" then "[" +:+ address +:+ "]" else address.

Definition GenerateVLESSLink `{ProxyJson} (uuid address : string) (port : Z) (proxySettingsJSON remark : string) : string :=
  let ps := parseProxySettings proxySettingsJSON in
  if negb (bool_decide (Protocol ps = "vless")) then EmptyString
  else
    url_String (mkURL "vless" "" (Some (uuid, None)) (JoinHostPort (link_host address) (itoa port)) "" "" false false
      (Encode (link_query ps)) remark "").

(** [strings.Trim(s, "[]")]. *)
Definition bracket (c : Ascii.ascii) : bool := mem c "[]".

Fixpoint trim_left_by (P : Ascii.ascii -> bool) (s : string) : string :=
  match s with EmptyString => EmptyString | String c s' => if P c then trim_left_by P s' else s end.
Fixpoint trim_right_by (P : Ascii.ascii -> bool) (s : string) : string :=
  match s with
  | EmptyString => EmptyString
  | String c s => match trim_right_by P s with
                  | EmptyString => if P c then EmptyString else String c EmptyString
                  | t => String c t
                  end
  end.

Definition TrimBrackets (s : string) : string := trim_right_by bracket (trim_left_by bracket s).

Definition ParseVLESSLink (ip_literal : string -> option string) (link : string) : res goerr VLESSLink :=
  if negb (HasPrefix link "vless://") then Err (EMsg "not a vless:// link" [])
  else
    match Parse ip_literal link with
    | None => Err (EMsg "invalid URL" [])
    | Some u =>
        let uuid := Username (Url.User u) in
        if bool_decide (uuid = EmptyString) then Err (EMsg "missing UUID in link" [])
        else
          match SplitHostPort (Url.Host u) with
          | None => Err (EMsg "invalid host:port" [])
          | Some (hostRaw, portStr) =>
              match Atoi portStr with
              | None => Err (EMsg "invalid port" [])
              | Some port =>
                  let address := TrimBrackets hostRaw in
                  let q := Query (RawQuery u) in
                  let transport := vget "type" q in
                  let kcp := bool_decide (transport = "kcp") in
                  let xhttp := bool_decide (transport = "xhttp") in
                  let when (b : bool) (k : string) := if b then vget k q else EmptyString in
                  Ok (mkLink uuid address port (vget "encryption" q) (vget "security" q) transport
                        (when kcp "headerType") (when kcp "seed") (when xhttp "path") (when xhttp "host")
                        (when xhttp "mode") (Url.Fragment u))
              end
          end
    end.

(** ** Links are read back *)

(** A host name or IPv4 address: characters that a host keeps, outside
    brackets and without a colon. *)
Definition plain_host (s : string) : bool := nonempty s && every host_char s.

Lemma host_part_no c s : host_char c = false -> every host_char s = true -> has_char c s = false.
Proof. apply every_no_char. Qed.

Lemma digits_no c s : is_digit c = false -> every is_digit s = true -> has_char c s = false.
Proof. apply every_no_char. Qed.

Lemma digit_host c : is_digit c = true -> negb (shouldEscape c encodeHost) = true.
Proof. revert c. all_chars. Qed.

Lemma host_char_kept c : host_char c = true -> negb (shouldEscape c encodeHost) = true.
Proof. unfold host_char. by intros [Hc _]%andb_true_iff. Qed.

Lemma has_char_Contains c s : has_char c s = false -> Contains s (String c EmptyString) = false.
Proof.
  induction s as [|a s IH]; [done|]. cbn [has_char Contains]. intros [Ha Hs]%orb_false_iff. rewrite IH by done.
  unfold HasPrefix. cbn. apply bool_decide_eq_false in Ha. by destruct (Ascii.ascii_dec c a) as [->|].
Qed.

Lemma all_digits_every s : all_digits s = every is_digit s.
Proof. induction s as [|c s IH]; [done|]. cbn. by rewrite IH. Qed.

Section host.
Variables (address : string) (port : Z).
Hypothesis Haddr : plain_host address = true.
Hypothesis Hport : 0 <= port < 2 ^ 63.

Let hp : string := address +:+ String colon (itoa port).

Lemma addr_chars : every host_char address = true.
Proof. by apply andb_true_iff in Haddr as [_ ?]. Qed.
Lemma port_chars : every is_digit (itoa port) = true.
Proof. apply itoa_digits. lia. Qed.

Lemma link_hostport : JoinHostPort (link_host address) (itoa port) = hp.
Proof.
  unfold link_host. pose proof addr_chars as Ha.
  assert (Hc : has_char ":"%char address = false) by (by apply host_part_no).
  rewrite (has_char_Contains ":"%char) by done. rewrite andb_false_r. unfold JoinHostPort. by rewrite Hc.
Qed.

Lemma hp_kept : every (fun c => negb (shouldEscape c encodeHost)) hp = true.
Proof.
  unfold hp. rewrite every_app. cbn [every].
  rewrite (every_impl _ _ _ host_char_kept addr_chars), (every_impl _ _ _ digit_host port_chars). done.
Qed.

Lemma hp_no c : host_char c = false -> is_digit c = false -> c <> colon -> has_char c hp = false.
Proof.
  intros Hh Hd Hc. unfold hp. rewrite has_char_app. cbn [has_char].
  rewrite host_part_no, digits_no by (done || apply addr_chars || apply port_chars).
  by rewrite bool_decide_eq_false_2.
Qed.

Lemma hp_last : last_char colon hp = Some (String.length address).
Proof. apply last_char_app, digits_no; [done|apply port_chars]. Qed.

Lemma hp_parse ip : parseHost ip hp = Some hp.
Proof.
  unfold parseHost. rewrite hp_no, hp_last by done. unfold hp at 1. rewrite sdrop_app. cbn [validOptionalPort].
  rewrite bool_decide_eq_true_2 by done. cbn [andb].
  rewrite all_digits_every, port_chars. apply unescape_host, hp_kept.
Qed.

Lemma hp_split : SplitHostPort hp = Some (address, itoa port).
Proof.
  unfold SplitHostPort. rewrite hp_last. cbn [mbind option_bind].
  rewrite (hp_no lbr), (hp_no rbr) by done.
  assert (Hhd : exists a s, hp = String a s /\ a <> lbr).
  { pose proof addr_chars as Ha. assert (Hne : nonempty address = true) by (by apply andb_true_iff in Haddr as [? _]).
    unfold hp. destruct address as [|a s]; [done|]. exists a, (s +:+ String colon (itoa port)). split; [done|].
    intros ->. done. }
  destruct Hhd as (a & s & Hs & Hne). rewrite Hs at 1. rewrite decide_False by done.
  unfold hp. rewrite stake_app, host_part_no by (done || apply addr_chars). cbn [orb].
  replace (S (String.length address)) with (String.length address + 1)%nat by lia. by rewrite sdrop_app_plus.
Qed.

End host.

(** *** Addresses with a colon *)

Definition v6_char (c : Ascii.ascii) : bool := is_some (hex c) || mem c ":.".

(** An IPv6 address as [net.ParseIP] reads it, in hexadecimal digits, colons
    and dots. *)
Definition ipv6_text (s : string) : bool := is_some (ParseIP s) && Contains s ":" && every v6_char s.

Section host6.
Variables (address : string) (port : Z).
Hypothesis Haddr : ipv6_text address = true.
Hypothesis Hport : 0 <= port < 2 ^ 63.

Definition hp6 : string := String lbr (String lbr (address +:+ String rbr (String rbr (String colon (itoa port))))).

Lemma v6_chars : every v6_char address = true.
Proof. by apply andb_true_iff in Haddr as [_ ?]. Qed.

Lemma v6_char_kept c : v6_char c = true -> negb (shouldEscape c encodeHost) = true.
Proof. revert c. all_chars. Qed.

(** The brackets are put twice. *)
Lemma link_hostport6 : JoinHostPort (link_host address) (itoa port) = hp6.
Proof.
  apply andb_true_iff in Haddr as [Hb _]. unfold link_host. rewrite Hb. unfold JoinHostPort, hp6.
  assert (Hc : has_char ":"%char ("[" +:+ address +:+ "]") = true).
  { apply andb_true_iff in Hb as [_ Hb]. destruct (has_char ":"%char ("[" +:+ address +:+ "]")) eqn:E; [done|].
    rewrite !has_char_app in E. apply orb_false_iff in E as [_ [E _]%orb_false_iff]. by rewrite has_char_Contains in Hb. }
  rewrite Hc. cbn. by rewrite !append_assoc.
Qed.

Lemma hp6_kept : every (fun c => negb (shouldEscape c encodeHost)) hp6 = true.
Proof.
  unfold hp6. cbn [every]. rewrite every_app. cbn [every].
  rewrite (every_impl _ _ _ v6_char_kept v6_chars), (every_impl _ _ _ digit_host (port_chars port Hport)). done.
Qed.

Lemma hp6_percent : has_char "%"%char hp6 = false.
Proof. by apply (every_no_char (fun c => negb (shouldEscape c encodeHost))); [|apply hp6_kept]. Qed.

(** What is left after the first bracket that closes is no port. *)
Lemma hp6_split : SplitHostPort hp6 = None.
Proof.
  set (pre := String lbr (String lbr (address +:+ String rbr (String rbr EmptyString)))).
  assert (Ht : hp6 = pre +:+ String colon (itoa port)) by (unfold hp6, pre; rewrite !append_cons, append_assoc; reflexivity).
  assert (Hl : last_char colon hp6 = Some (String.length address + 4)%nat).
  { rewrite Ht, last_char_app by (apply digits_no; [done|by apply port_chars]). f_equal. unfold pre. cbn.
    rewrite length_append. cbn. lia. }
  assert (Hi : index_char rbr hp6 = Some (String.length address + 2)%nat).
  { change hp6 with (("[[" +:+ address) +:+ String rbr (String rbr (String colon (itoa port)))). rewrite index_char_app.
    - rewrite length_append. f_equal. change (String.length "[[") with 2%nat. lia.
    - rewrite has_char_app. by apply (every_no_char v6_char); [|apply v6_chars]. }
  unfold SplitHostPort. rewrite Hl. cbn [mbind option_bind]. unfold hp6 at 1. rewrite decide_True by done.
  rewrite Hi. cbn [mbind option_bind]. by rewrite decide_False by lia.
Qed.
End host6.

(** *** The text of a link *)

Section link.
Variable hp : string.
Hypothesis Hne : nonempty hp = true.
Hypothesis hp_kept : every (fun c => negb (shouldEscape c encodeHost)) hp = true.

Lemma url_path_empty before u : RawPath u = "" -> Path u = "" -> url_path before u = "".
Proof.
  intros Hr Hp. unfold url_path, EscapedPath, escaped_of. rewrite Hr, Hp. cbn.
  by rewrite andb_false_r.
Qed.

(** The text of a link before its fragment, and what is read from it. *)
Let authority (uuid : string) : string := escape encodeUserPassword uuid +:+ String "@"%char hp.
Let base (uuid query : string) : string := "vless:" +:+ ("//" +:+ authority uuid) +:+ String "?"%char query.

Lemma link_text uuid query remark : nonempty query = true ->
  url_String (mkURL "vless" "" (Some (uuid, None)) hp "" "" false false query remark "") =
  base uuid query +:+ (if nonempty remark then "#" +:+ escape encodeFragment remark else "").
Proof.
  intros Hq. unfold url_String, url_authority, base, authority. cbn [Scheme Opaque Url.User Url.Host Path OmitHost ForceQuery RawQuery Fragment].
  rewrite Hq, Hne, (escape_kept _ _ hp_kept), url_path_empty by done. unfold user_string.
  change (nonempty "vless") with true. change (nonempty "") with false. cbn [fst snd is_some orb andb negb].
  rewrite !append_nil_r, !append_assoc. reflexivity.
Qed.

Definition safe_char (c : Ascii.ascii) : bool := negb ((code c <? 32) || (code c =? 127)).

Lemma has_ctl_every s : every safe_char s = true -> has_ctl s = false.
Proof.
  induction s as [|c s IH]; [done|]. cbn [every has_ctl]. intros [Hc Hs]%andb_true_iff. rewrite IH by done.
  apply negb_true_iff in Hc. by rewrite Hc.
Qed.

(** A character that none of the three parts of a link has. *)
Definition not_in_link (c : Ascii.ascii) : bool :=
  negb (escape_out encodeUserPassword c) && shouldEscape c encodeHost && negb (query_char c).

Lemma user_out_safe c : escape_out encodeUserPassword c = true -> safe_char c = true.
Proof. revert c. all_chars. Qed.
Lemma host_kept_safe c : negb (shouldEscape c encodeHost) = true -> safe_char c = true.
Proof. revert c. all_chars. Qed.
Lemma query_char_safe c : query_char c = true -> safe_char c = true.
Proof. revert c. all_chars. Qed.

Lemma base_safe uuid query : every query_char query = true -> every safe_char (base uuid query) = true.
Proof.
  intros Hq. unfold base, authority. rewrite !every_app. cbn [every].
  rewrite (every_impl _ _ _ user_out_safe (every_escape _ uuid)), (every_impl _ _ _ host_kept_safe hp_kept).
  by rewrite (every_impl _ _ _ query_char_safe Hq).
Qed.

Lemma authority_no c uuid : escape_out encodeUserPassword c = false -> shouldEscape c encodeHost = true -> c <> "@"%char ->
  has_char c (authority uuid) = false.
Proof.
  intros Hu Hh Hc. unfold authority. rewrite has_char_app. cbn [has_char].
  rewrite (every_no_char _ _ _ Hu (every_escape _ uuid)).
  rewrite (every_no_char (fun c => negb (shouldEscape c encodeHost)) c hp) by (by rewrite ?Hh || apply hp_kept).
  by rewrite bool_decide_eq_false_2.
Qed.

Lemma user_out_valid c : escape_out encodeUserPassword c = true -> alphanum c || mem c "-._:~!$&'()*+,;=%@" = true.
Proof. revert c. all_chars. Qed.

Lemma validUserinfo_every s : every (fun c => alphanum c || mem c "-._:~!$&'()*+,;=%@") s = true -> validUserinfo s = true.
Proof.
  induction s as [|c s IH]; [done|]. cbn [every validUserinfo]. intros [Hc Hs]%andb_true_iff. by rewrite Hc, IH.
Qed.

Lemma link_authority ip uuid : parseAuthority ip (authority uuid) = h ← parseHost ip hp; Some (Some (uuid, None), h).
Proof.
  unfold parseAuthority, authority.
  rewrite last_char_app by (by apply (every_no_char (fun c => negb (shouldEscape c encodeHost)))).
  replace (S (String.length (escape encodeUserPassword uuid))) with (String.length (escape encodeUserPassword uuid) + 1)%nat by lia.
  rewrite sdrop_app_plus, stake_app. cbn [sdrop]. destruct (parseHost ip hp) as [h|]; [|done]. cbn [mbind option_bind]. unfold parseUser.
  rewrite validUserinfo_every by (exact (every_impl _ _ _ user_out_valid (every_escape _ uuid))). cbn [negb].
  rewrite (every_no_char (escape_out encodeUserPassword) colon) by (done || apply every_escape).
  by rewrite unescape_escape.
Qed.

Lemma link_base ip uuid query : nonempty query = true -> every query_char query = true ->
  parse ip (base uuid query) = h ← parseHost ip hp; Some (mkURL "vless" "" (Some (uuid, None)) h "" "" false false query "" "").
Proof.
  intros Hn Hq. unfold parse. rewrite has_ctl_every by (by apply base_safe).
  change (bool_decide (base uuid query = "*")) with false.
  change (getScheme (base uuid query)) with (Some ("vless", ("//" +:+ authority uuid) +:+ String "?"%char query)).
  cbn [mbind option_bind]. change (ToLower "vless") with "vless". unfold split_query.
  assert (Hs : HasSuffix (("//" +:+ authority uuid) +:+ String "?"%char query) "?" = false).
  { change (String "?"%char query) with ("?" +:+ query). rewrite <- append_assoc. apply no_suffix.
    - by destruct query.
    - by apply (every_no_char query_char). }
  rewrite Hs. cbn [andb]. rewrite Cut_app by (rewrite has_char_app, authority_no; done).
  change (HasPrefix ("//" +:+ authority uuid) "/") with true. rewrite HasPrefix_append.
  cbn [negb andb]. change (nonempty "vless") with true. cbn [orb andb].
  change (sdrop 2 ("//" +:+ authority uuid)) with (authority uuid).
  assert (Hi : index_char slash (authority uuid) = None).
  { assert (Hno : has_char slash (authority uuid) = false) by (by apply authority_no).
    revert Hno. generalize (authority uuid). intros s. induction s as [|c s IH]; [done|]. cbn [has_char index_char].
    intros [Hc Hs']%orb_false_iff. apply bool_decide_eq_false in Hc. by rewrite decide_False, IH. }
  rewrite Hi, link_authority. by destruct (parseHost ip hp).
Qed.

Lemma link_Parse ip uuid query remark : nonempty query = true -> every query_char query = true ->
  Parse ip (url_String (mkURL "vless" "" (Some (uuid, None)) hp "" "" false false query remark "")) =
  h ← parseHost ip hp; Some (mkURL "vless" "" (Some (uuid, None)) h "" "" false false query remark "").
Proof.
  intros Hn Hq. rewrite link_text by done. unfold Parse.
  assert (Hh : has_char "#"%char (base uuid query) = false).
  { unfold base. rewrite !has_char_app, authority_no by done. cbn [has_char].
    rewrite (every_no_char query_char) by done. done. }
  destruct (nonempty remark) eqn:Hr.
  - change ("#" +:+ ?x) with (String "#"%char x). rewrite Cut_app, link_base by done. cbn [mbind option_bind].
    destruct (parseHost ip hp) as [h|]; [|done]. cbn [mbind option_bind]. rewrite bool_decide_eq_false_2.
    + unfold setFragment. rewrite unescape_escape by done. cbn [mbind option_bind].
      by rewrite bool_decide_eq_true_2.
    + destruct remark as [|c r]; [done|]. cbn [escape]. repeat case_match; done.
  - rewrite append_nil_r, Cut_none, link_base by done. cbn [mbind option_bind].
    destruct (parseHost ip hp) as [h|]; [|done]. cbn [mbind option_bind].
    rewrite bool_decide_eq_true_2 by done. destruct remark; [done|]. done.
Qed.

End link.

Lemma trim_left_by_id P s : (forall c s', s = String c s' -> P c = false) -> trim_left_by P s = s.
Proof. destruct s as [|c s]; [done|]. intros HP. cbn. by rewrite (HP c s). Qed.

Lemma trim_right_by_id P s : every (fun c => negb (P c)) s = true -> trim_right_by P s = s.
Proof.
  induction s as [|c s IH]; [done|]. cbn [every trim_right_by]. intros [Hc Hs]%andb_true_iff.
  rewrite IH by done. apply negb_true_iff in Hc. by destruct s; [rewrite Hc|].
Qed.

Lemma TrimBrackets_id s : every host_char s = true -> TrimBrackets s = s.
Proof.
  intros Hs. assert (Hb : every (fun c => negb (bracket c)) s = true) by (eapply every_impl; [|exact Hs]; all_chars).
  unfold TrimBrackets. rewrite trim_left_by_id; [by apply trim_right_by_id|].
  intros c s' ->. cbn [every] in Hb. apply andb_true_iff in Hb as [Hc _]. by apply negb_true_iff.
Qed.

Ltac keys := repeat first [rewrite vget_vset | rewrite vget_vset_ne by done]; try done.

Lemma link_query_nodup ps : NoDup (link_query ps).*1.
Proof. unfold link_query. repeat case_match; repeat apply vset_keys; constructor. Qed.

Lemma link_query_nonempty ps : nonempty (Encode (link_query ps)) = true.
Proof.
  destruct (nonempty (Encode (link_query ps))) eqn:E; [done|].
  assert (Hg : vget "encryption" (Query (Encode (link_query ps))) = "none").
  { rewrite vget_Query_Encode by apply link_query_nodup. unfold link_query. repeat case_match; keys. }
  assert (He : Encode (link_query ps) = EmptyString) by (by destruct (Encode (link_query ps))). by rewrite He in Hg.
Qed.

(** Reading the values of a link's query. *)
Lemma link_query_values ps :
  let q := link_query ps in
  let xhttp := bool_decide (Transport ps = "xhttp") in
  vget "encryption" q = "none" /\ vget "security" q = "none" /\
  vget "type" q = (if xhttp then "xhttp" else "kcp") /\
  (xhttp = false -> vget "headerType" q = MapFinalMaskToHeaderType (FinalMaskType ps) /\ vget "seed" q = FinalMaskPassword ps) /\
  (xhttp = true -> vget "path" q = XhttpPath ps /\ vget "host" q = XhttpHost ps /\ vget "mode" q = XhttpMode ps).
Proof.
  cbn zeta. unfold link_query.
  assert (He : forall s, nonempty s = false -> s = EmptyString) by (by intros []).
  destruct (bool_decide (Transport ps = "xhttp")).
  - destruct (nonempty (XhttpPath ps)) eqn:E1, (nonempty (XhttpHost ps)) eqn:E2, (nonempty (XhttpMode ps)) eqn:E3;
      split_and!; intros; try done; rewrite ?(He _ E1), ?(He _ E2), ?(He _ E3); split_and?; keys.
  - destruct (nonempty (FinalMaskPassword ps)) eqn:E1; split_and!; intros; try done; rewrite ?(He _ E1); split_and?; keys.
Qed.

(** Six of the eight masks come back from their header type; the others are
    mapped to [none], which is read as [mkcp-original]. *)
Lemma mask_roundtrip m :
  MapHeaderTypeToFinalMask (MapFinalMaskToHeaderType m) =
    if bool_decide (m ∈ ["header-srtp"; "header-dtls"; "header-wechat"; "header-utp"; "header-wireguard"; "header-dns"])
    then m else "mkcp-original".
Proof.
  unfold MapFinalMaskToHeaderType, MapHeaderTypeToFinalMask, map_or_none.
  destruct (decide (m ∈ finalMaskToHeaderType.*1)) as [Hin|Hin].
  - cbn in Hin. repeat (apply elem_of_cons in Hin as [->|Hin]; [vm_compute; reflexivity|]). by apply elem_of_nil in Hin.
  - rewrite (not_elem_of_list_to_map_1 finalMaskToHeaderType m) by done. rewrite bool_decide_eq_false_2; [vm_compute; reflexivity|].
    intros Hm. apply Hin. cbn. repeat (apply elem_of_cons in Hm as [->|Hm]; [set_solver|]). by apply elem_of_nil in Hm.
Qed.

(** What is read of a link: nothing when [Parse] refuses the host, otherwise
    the parts around it as they were. *)
Lemma link_read `{ProxyJson} ip uuid settings remark hp :
  let ps := parseProxySettings settings in
  let xhttp := bool_decide (Transport ps = "xhttp") in
  uuid <> EmptyString -> nonempty hp = true -> every (fun c => negb (shouldEscape c encodeHost)) hp = true ->
  ParseVLESSLink ip (url_String (mkURL "vless" "" (Some (uuid, None)) hp "" "" false false (Encode (link_query ps)) remark "")) =
  match parseHost ip hp with
  | None => Err (EMsg "invalid URL" [])
  | Some h =>
      match SplitHostPort h with
      | None => Err (EMsg "invalid host:port" [])
      | Some (host, portStr) =>
          match Atoi portStr with
          | None => Err (EMsg "invalid port" [])
          | Some port =>
              Ok (mkLink uuid (TrimBrackets host) port "none" "none" (if xhttp then "xhttp" else "kcp")
                    (if xhttp then "" else MapFinalMaskToHeaderType (FinalMaskType ps))
                    (if xhttp then "" else FinalMaskPassword ps)
                    (if xhttp then XhttpPath ps else "") (if xhttp then XhttpHost ps else "")
                    (if xhttp then XhttpMode ps else "") remark)
          end
      end
  end.
Proof.
  intros ps xhttp Hu Hn Hk. unfold ParseVLESSLink.
  pose proof (link_query_nonempty ps) as Hq. pose proof (every_Encode (link_query ps)) as Hc.
  rewrite link_Parse by done. rewrite link_text, !append_assoc by done.
  change ("vless:" +:+ "//" +:+ ?r) with ("vless://" +:+ r). rewrite HasPrefix_append. cbn [negb].
  destruct (parseHost ip hp) as [h|]; [|done]. cbn [mbind option_bind Url.User Url.Host RawQuery Fragment Username].
  rewrite bool_decide_eq_false_2 by done. destruct (SplitHostPort h) as [[host portStr]|]; [|done].
  destruct (Atoi portStr) as [port|]; [|done]. rewrite !vget_Query_Encode by apply link_query_nodup.
  destruct (link_query_values ps) as (-> & -> & -> & Hkc & Hx). fold xhttp in Hkc, Hx |- *.
  destruct xhttp; [destruct Hx as (-> & -> & ->)|destruct Hkc as [-> ->]]; done.
Qed.

(** C26: what [ParseVLESSLink] makes of a link [GenerateVLESSLink] wrote.  For a
    server given by host name or IPv4 address every part of the link comes back
    unchanged: user identifier, address, port, seed, path, host header, mode
    and remark survive the escaping.  For one given by an IPv6 address the link
    cannot be read: the address is bracketed twice.  The link has no other
    setting of KCP than the seed and the type of the header, from which six of
    the eight masks come back and the others as [mkcp-original]. *)
Theorem vless_link_roundtrip `{ProxyJson} (ip : string -> option string) (uuid address remark settings : string) (port : Z) :
  let ps := parseProxySettings settings in
  let xhttp := bool_decide (Transport ps = "xhttp") in
  let link := GenerateVLESSLink uuid address port settings remark in
  Protocol ps = "vless" -> uuid <> EmptyString -> 0 <= port < 2 ^ 63 ->
  (plain_host address = true ->
     ParseVLESSLink ip link =
     Ok (mkLink uuid address port "none" "none" (if xhttp then "xhttp" else "kcp")
           (if xhttp then "" else MapFinalMaskToHeaderType (FinalMaskType ps))
           (if xhttp then "" else FinalMaskPassword ps)
           (if xhttp then XhttpPath ps else "") (if xhttp then XhttpHost ps else "")
           (if xhttp then XhttpMode ps else "") remark)) /\
  (ipv6_text address = true -> (forall h h', has_char "%"%char h = false -> ip h = Some h' -> h' = h) ->
     exists e, ParseVLESSLink ip link = Err e) /\
  MapHeaderTypeToFinalMask (MapFinalMaskToHeaderType (FinalMaskType ps)) =
    if bool_decide (FinalMaskType ps ∈ ["header-srtp"; "header-dtls"; "header-wechat"; "header-utp"; "header-wireguard"; "header-dns"])
    then FinalMaskType ps else "mkcp-original".
Proof.
  intros ps xhttp link Hv Hu Hp. subst link. unfold GenerateVLESSLink. fold ps. rewrite Hv, bool_decide_eq_true_2 by done. cbn [negb].
  split_and!; [| |apply mask_roundtrip]; subst xhttp ps.
  - intros Ha. rewrite link_hostport, link_read by (done || (by destruct address) || by apply hp_kept).
    rewrite hp_parse, hp_split, Atoi_itoa, TrimBrackets_id by (done || by apply addr_chars). done.
  - intros Ha Hip. rewrite link_hostport6, link_read by (done || by apply hp6_kept). unfold parseHost.
    change (has_char lbr (hp6 address port)) with true. cbn iota. destruct (ip (hp6 address port)) as [h|] eqn:Eh; [|by eexists].
    apply Hip in Eh as ->; [|by apply hp6_percent]. rewrite hp6_split by done. by eexists.
Qed.

(** *** Clients seen lately *)

Lemma tracker_count now t :
  (forall ip, is_Some ((GetClientCount now t).2 !! ip) <-> exists seen, t !! ip = Some seen /\ now - client_window <= seen) /\
  (GetClientCount now t).1 = Z.of_nat (size (GetClientCount now t).2).
Proof.
  split; [|done]. intros ip. cbn [GetClientCount snd]. split.
  - intros [seen [Ht Hs]%map_lookup_filter_Some]. exists seen. split; [done|]. cbn in Hs. lia.
  - intros (seen & Ht & Hs). exists seen. apply map_lookup_filter_Some. split; [done|]. cbn. lia.
Qed.

(** ** Running the definitions *)

#[export] Instance proxySettings_eq_dec : EqDecision proxySettings.
Proof. solve_decision. Defined.

#[export, refine] Instance proxySettings_countable : Countable proxySettings :=
  inj_countable' (fun p => ((Protocol p, Transport p, SocksAuth p, SocksUsername p, SocksPassword p, SocksUDP p),
      (KcpMTU p, KcpTTI p, KcpUplinkCapacity p, KcpDownlinkCapacity p, KcpCongestion p, KcpReadBufferSize p, KcpWriteBufferSize p),
      (XhttpPath p, XhttpHost p, XhttpMode p, FinalMaskType p, FinalMaskPassword p, FinalMaskDomain p)))
    (fun '((a, b, c, d, e, f), (g, h, i, j, k, l, m), (n, o, p, q, r, s)) => mkProxy a b c d e f g h i j k l m n o p q r s) _.
Proof. by intros []. Defined.

#[export, refine] Instance toy_proxy_json : ProxyJson := {|
  proxy_text p := Socks.of_bytes (toy_write p);
  proxy_parse s d := default d (toy_read (Socks.to_bytes s))
|}.
Proof.
  - done.
  - intros p d _. by rewrite to_of_bytes, toy_roundtrip.
Defined.

Definition demo_settings (transport : string) : proxySettings :=
  mkProxy "vless" transport "noauth" "" "" true 1350 20 12 100 true 4 4 "/a b?#" "h&=;" "auto" "mkcp-aes128gcm" "p%+@/" "".

Lemma vless_link_roundtrip_witness :
  ParseVLESSLink (fun _ => None) (GenerateVLESSLink "u:id/@" "proxy.example.org" 443 (proxy_text (demo_settings "kcp")) "my #1") =
    Ok (mkLink "u:id/@" "proxy.example.org" 443 "none" "none" "kcp" "none" "p%+@/" "" "" "" "my #1") /\
  ParseVLESSLink (fun _ => None) (GenerateVLESSLink "u" "10.0.0.1" 80 (proxy_text (demo_settings "xhttp")) "") =
    Ok (mkLink "u" "10.0.0.1" 80 "none" "none" "xhttp" "" "" "/a b?#" "h&=;" "auto" "") /\
  exists e, ParseVLESSLink Some (GenerateVLESSLink "u" "2001:db8::1" 443 (proxy_text (demo_settings "kcp")) "") = Err e.
Proof.
  split_and!.
  - destruct (vless_link_roundtrip (fun _ => None) "u:id/@" "proxy.example.org" "my #1" (proxy_text (demo_settings "kcp")) 443) as (Hr & _);
      [vm_compute; reflexivity|discriminate|lia|]. rewrite Hr; vm_compute; reflexivity.
  - destruct (vless_link_roundtrip (fun _ => None) "u" "10.0.0.1" "" (proxy_text (demo_settings "xhttp")) 80) as (Hr & _);
      [vm_compute; reflexivity|discriminate|lia|]. rewrite Hr; vm_compute; reflexivity.
  - destruct (vless_link_roundtrip Some "u" "2001:db8::1" "" (proxy_text (demo_settings "kcp")) 443) as (_ & Hr & _);
      [vm_compute; reflexivity|discriminate|lia|]. apply Hr; [vm_compute; reflexivity|congruence].
Defined.

(** An IPv6 address is put in brackets twice, and the link cannot be read,
    whether [url.Parse] refuses the host or leaves it as it is. *)
Lemma ipv6_link_unreadable :
  let link := GenerateVLESSLink "u" "2001:db8::1" 443 (proxy_text (demo_settings "kcp")) "" in
  HasPrefix link "vless://u@[[2001:db8::1]]:443?" = true /\
  is_ok (ParseVLESSLink (fun _ => None) link) = false /\ is_ok (ParseVLESSLink Some link) = false.
Proof. vm_compute. auto. Qed.

End Xray.
