(* ===== verification/Api.v ===== *)
(** * Settings and connection codes of the public API

    The data of [golib/api.go]: the settings of server and client with their
    defaults, the connection code that a server hands to its clients, the
    options that both sides compute from them, identifiers, bandwidth rates and
    the label of a NAT type.  The stateful functions are in [ApiServer] and
    [ApiClient]. *)

From Stdlib Require Import QArith.
From S2P Require Import Prelude IO GoStr Socks Sdp Codes Url Xray Peer Group Nat.

Open Scope Z_scope.

Module Api.

Import Sdp Codes Url Xray.

(** ** Constants *)

Definition maxReconnects : Z := 2.
Definition defaultSignalingURL : string := "http://[IP]:5601".
Definition defaultStunServer1 : string := "stun.l.google.com:19302".
Definition defaultStunServer2 : string := "stun1.l.google.com:19302".
Definition second : Z := 10 ^ 9.

(** ** Hexadecimal text ([encoding/hex]) and identifiers ([util.go]) *)

Definition hex_byte (b : byte) : string :=
  String (Socks.hex_digit (b2z b / 16)) (String (Socks.hex_digit (b2z b mod 16)) EmptyString).

Definition hex_EncodeToString (l : bytes) : string := foldr (fun b s => hex_byte b +:+ s) EmptyString l.

(** The bytes decoded before the first error. *)
Fixpoint hex_DecodeString (s : string) : bytes :=
  match s with
  | String a (String b s) =>
      match hex a, hex b with
      | Some x, Some y => z2b (x * 16 + y) :: hex_DecodeString s
      | _, _ => []
      end
  | _ => []
  end.

(** A version 4 UUID from 16 random bytes. *)
Definition uuid_bits (l : bytes) : bytes :=
  <[6%nat := z2b (Z.lor (Z.land (b2z (nth 6 l x00)) 15) 64)]>
    (<[8%nat := z2b (Z.lor (Z.land (b2z (nth 8 l x00)) 63) 128)]> l).

Definition uuid_text (l : bytes) : string :=
  let l := uuid_bits l in
  let part (lo hi : nat) := hex_EncodeToString (slice lo hi l) in
  Join "-" [part 0 4; part 4 6; part 6 8; part 8 10; part 10 16]%nat.

Definition encodeBase64 (data : bytes) : string := EncodeToString StdEncoding data.
Definition decodeBase64 (s : string) : option bytes := DecodeString StdEncoding s.

(** ** Settings *)

(** The fields that [serverConfig] has in common with the proxy settings and
    with the options of a peer connection are kept as those records. *)
Record serverConfig := mkServerConfig {
  sc_ListenPort : Z; sc_StunServer : string; sc_SignalingURL : string; sc_DiscoveryURL : string;
  sc_NatMethod : string; sc_UseRelay : bool; sc_proxy : proxySettings;
  sc_UpnpLeaseDuration : Z; sc_UpnpRetries : Z; sc_SsdpTimeout : Z;
  sc_RateLimitUp : Z; sc_RateLimitDown : Z;
  sc_NumPeerConnections : Z; sc_TransportMode : string; sc_DisableIPv6 : bool;
  sc_NumChannels : Z; sc_SmuxStreamBuffer : Z; sc_SmuxSessionBuffer : Z; sc_SmuxFrameSize : Z;
  sc_SmuxKeepAlive : Z; sc_SmuxKeepAliveTimeout : Z; sc_DCMaxBuffered : Z; sc_DCLowMark : Z;
  sc_PaddingEnabled : bool; sc_PaddingMax : Z; sc_peer : Peer.PeerConfig; sc_MaskIPs : bool; sc_UUID : string }.

Definition noPeerConfig : Peer.PeerConfig := Peer.mkPeerConfig 0 0 0 0 0 0 0 0 None None None.

(** The defaults of [StartServer]. *)
Definition defaultServerConfig : serverConfig :=
  mkServerConfig 10853 defaultStunServer1 defaultSignalingURL "" "auto" false defaultProxySettings
    3600 3 3 0 0 0 "" false 0 0 0 0 0 0 0 0 false 0 noPeerConfig false "".

(** The defaults of [StartServerManual]. *)
Definition defaultManualConfig : serverConfig :=
  mkServerConfig 10853 defaultStunServer1 defaultSignalingURL "" "holepunch" false defaultProxySettings
    0 0 0 0 0 0 "" false 0 0 0 0 0 0 0 0 false 0 noPeerConfig false "".

Record clientConfig := mkClientConfig {
  cc_SocksPort : Z; cc_TunAddress : string; cc_MTU : Z; cc_DNS1 : string; cc_DNS2 : string;
  cc_StunServer : string; cc_SignalingURL : string; cc_AllowDirectDNS : bool; cc_peer : Peer.PeerConfig;
  cc_MaskIPs : bool }.

Definition defaultClientConfig : clientConfig :=
  mkClientConfig 10808 "10.0.0.2" 1400 "8.8.8.8" "1.1.1.1" defaultStunServer1 defaultSignalingURL false noPeerConfig false.

Record connectionInfo := mkInfo {
  ci_PublicIP : string; ci_Port : Z; ci_UUID : string; ci_Transport : string; ci_Method : string; ci_StunPort : Z;
  ci_SessionID : string; ci_Protocol : string; ci_ProxySettings : string; ci_ObfsKey : string; ci_RelayAddr : string;
  ci_Padding : bool; ci_Version : Z; ci_SigV : Z; ci_TransportV : Z;
  ci_NumPeerConns : Z; ci_NumChannels : Z; ci_SmuxStreamBuffer : Z; ci_SmuxSessionBuffer : Z; ci_SmuxFrameSize : Z;
  ci_DCMaxBuffered : Z; ci_DCLowMark : Z; ci_PaddingMax : Z; ci_SmuxKeepAlive : Z; ci_SmuxKeepAliveTimeout : Z }.

Definition info_strings (i : connectionInfo) : list string :=
  [ci_PublicIP i; ci_UUID i; ci_Transport i; ci_Method i; ci_SessionID i; ci_Protocol i; ci_ProxySettings i; ci_ObfsKey i;
   ci_RelayAddr i].

(** JSON at the types of the API.  Settings are read into a value that holds
    the defaults; [None] is an error of [json.Unmarshal]. *)
Class ApiJson `{ProxyJson} := {
  server_settings : string -> serverConfig -> option serverConfig;
  client_settings : string -> clientConfig -> option clientConfig;
  info_text : connectionInfo -> bytes;
  info_parse : bytes -> option connectionInfo;
  info_roundtrip : forall i, forallb utf8 (info_strings i) = true -> info_parse (info_text i) = Some i;
  proxy_text_utf8 : forall p, utf8 (proxy_text p) = true
}.

Section settings.
Context `{ApiJson}.

(** The optional settings of an entry point. *)
Definition read_settings {A} (unmarshal : string -> A -> option A) (settingsJSON : string) (defaults : A) : res goerr A :=
  if bool_decide (settingsJSON = EmptyString) then Ok defaults
  else match unmarshal settingsJSON defaults with
       | Some cfg => Ok cfg
       | None => Err (EMsg "parse settings" [])
       end.

Definition buildProxySettingsJSON (cfg : serverConfig) : string := proxy_text (sc_proxy cfg).

Definition encode_info (i : connectionInfo) : string := encodeBase64 (info_text i).

Definition decode_info (code : string) : res goerr connectionInfo :=
  match decodeBase64 code with
  | None => Err (EMsg "invalid connection code" [])
  | Some b => match info_parse b with
              | None => Err (EMsg "parse connection info" [])
              | Some i => Ok i
              end
  end.

End settings.

Definition set_urls (sig disc stun : string) (c : serverConfig) : serverConfig :=
  mkServerConfig (sc_ListenPort c) stun sig disc (sc_NatMethod c) (sc_UseRelay c) (sc_proxy c) (sc_UpnpLeaseDuration c)
    (sc_UpnpRetries c) (sc_SsdpTimeout c) (sc_RateLimitUp c) (sc_RateLimitDown c) (sc_NumPeerConnections c)
    (sc_TransportMode c) (sc_DisableIPv6 c) (sc_NumChannels c) (sc_SmuxStreamBuffer c) (sc_SmuxSessionBuffer c)
    (sc_SmuxFrameSize c) (sc_SmuxKeepAlive c) (sc_SmuxKeepAliveTimeout c) (sc_DCMaxBuffered c) (sc_DCLowMark c)
    (sc_PaddingEnabled c) (sc_PaddingMax c) (sc_peer c) (sc_MaskIPs c) (sc_UUID c).

(** The normalisation at the start of [StartServer]. *)
Definition normalize_server (ip : string -> option string) (c : serverConfig) : res goerr serverConfig :=
  match NormalizeHTTPBase ip (sc_SignalingURL c) with
  | Err e => Err (EWrap "invalid signalingUrl" e)
  | Ok sig =>
      let disc := if bool_decide (sc_DiscoveryURL c = EmptyString) then sig else sc_DiscoveryURL c in
      match NormalizeHTTPBase ip disc with
      | Err e => Err (EWrap "invalid discoveryUrl" e)
      | Ok disc => Ok (set_urls sig disc (TrimSpace (sc_StunServer c)) c)
      end
  end.

(** The normalisation at the start of [StartClient]. *)
Definition normalize_client (ip : string -> option string) (c : clientConfig) : res goerr clientConfig :=
  match NormalizeHTTPBase ip (cc_SignalingURL c) with
  | Err e => Err (EWrap "invalid signalingUrl" e)
  | Ok sig =>
      Ok (mkClientConfig (cc_SocksPort c) (cc_TunAddress c) (cc_MTU c) (cc_DNS1 c) (cc_DNS2 c)
            (TrimSpace (cc_StunServer c)) sig (cc_AllowDirectDNS c) (cc_peer c) (cc_MaskIPs c))
  end.

(** [deriveRelayAddr]: the host of the signalling URL with the relay port. *)
Definition relay_addr (ip : string -> option string) (signalingURL : string) : string :=
  deriveRelayAddr (Hostname <$> Parse ip signalingURL).

(** ** Options of the two sides *)

Definition transport_mode (cfg : serverConfig) : Peer.TransportMode :=
  if bool_decide (sc_TransportMode cfg = "media") then Peer.TransportMediaStream else Peer.TransportDataChannels.

Definition is_media (m : Peer.TransportMode) : bool :=
  match m with Peer.TransportMediaStream => true | Peer.TransportDataChannels => false end.

Definition server_options (cfg : serverConfig) (obfsKey : bytes) : Peer.ServerOptions :=
  let mode := transport_mode cfg in
  Peer.mkServerOptions
    (Peer.mkOptions (sc_PaddingEnabled cfg) (sc_PaddingMax cfg) mode (if is_media mode then obfsKey else []) 0
       (sc_NumChannels cfg) (sc_SmuxStreamBuffer cfg) (sc_SmuxSessionBuffer cfg) (sc_SmuxFrameSize cfg)
       (sc_SmuxKeepAlive cfg) (sc_SmuxKeepAliveTimeout cfg) (sc_DCMaxBuffered cfg) (sc_DCLowMark cfg) (sc_peer cfg))
    (sc_RateLimitUp cfg) (sc_RateLimitDown cfg) (sc_DisableIPv6 cfg) 0.

Definition positive_or_one (n : Z) : Z := if n <=? 0 then 1 else n.

Definition transport_version (cfg : serverConfig) : Z := if is_media (transport_mode cfg) then 2 else 0.

(** What a hole-punching server tells its clients. *)
Definition holepunch_info (cfg : serverConfig) (sessionID relayAddr : string) (obfsKey : bytes) : connectionInfo :=
  mkInfo "" 0 "" "webrtc" "holepunch" 0 sessionID "webrtc" "" (hex_EncodeToString obfsKey) relayAddr
    (sc_PaddingEnabled cfg) 2 2 (transport_version cfg) (positive_or_one (sc_NumPeerConnections cfg)) (sc_NumChannels cfg)
    (sc_SmuxStreamBuffer cfg) (sc_SmuxSessionBuffer cfg) (sc_SmuxFrameSize cfg) (sc_DCMaxBuffered cfg) (sc_DCLowMark cfg)
    (sc_PaddingMax cfg) (sc_SmuxKeepAlive cfg) (sc_SmuxKeepAliveTimeout cfg).

(** What a server behind a port mapping tells its clients. *)
Definition mapped_info (ip : string) (port : Z) (uuid method proxy : string) (cfg : serverConfig) : connectionInfo :=
  mkInfo ip port uuid (Transport (sc_proxy cfg)) method 0 "" (Protocol (sc_proxy cfg)) proxy "" "" false 0 0 0
    0 0 0 0 0 0 0 0 0 0.

(** The options of a client, from the code and its own settings. *)
Definition client_options (info : connectionInfo) (cfg : clientConfig) : Peer.ClientOptions :=
  let media := ci_TransportV info =? 2 in
  Peer.mkOptions (ci_Padding info) (ci_PaddingMax info)
    (if media then Peer.TransportMediaStream else Peer.TransportDataChannels)
    (if media then hex_DecodeString (ci_ObfsKey info) else []) 0 (ci_NumChannels info) (ci_SmuxStreamBuffer info)
    (ci_SmuxSessionBuffer info) (ci_SmuxFrameSize info) (ci_SmuxKeepAlive info) (ci_SmuxKeepAliveTimeout info)
    (ci_DCMaxBuffered info) (ci_DCLowMark info) (cc_peer cfg).

(** *** Manual codes *)

Definition manual_offer (cfg : serverConfig) (sessionID relayAddr : string) (obfsKey : bytes) (compressedSDP : string) : ManualOffer :=
  mkManualOffer 4 sessionID (hex_EncodeToString obfsKey) relayAddr (sc_NumChannels cfg) (sc_SmuxStreamBuffer cfg)
    (sc_SmuxSessionBuffer cfg) (sc_SmuxFrameSize cfg) (sc_DCMaxBuffered cfg) (sc_DCLowMark cfg) (sc_PaddingMax cfg)
    (sc_PaddingEnabled cfg) (transport_version cfg) (sc_SmuxKeepAlive cfg) (sc_SmuxKeepAliveTimeout cfg) compressedSDP.

Definition manual_options (offer : ManualOffer) (cfg : clientConfig) : Peer.ClientOptions :=
  let media := mo_TransportV offer =? 2 in
  Peer.mkOptions (mo_Padding offer) (mo_PaddingMax offer)
    (if media then Peer.TransportMediaStream else Peer.TransportDataChannels)
    (if media then hex_DecodeString (mo_ObfsKey offer) else []) 0 (mo_NumChannels offer) (mo_SmuxStreamBuffer offer)
    (mo_SmuxSessionBuffer offer) (mo_SmuxFrameSize offer) (mo_SmuxKeepAlive offer) (mo_SmuxKeepAliveTimeout offer)
    (mo_DCMaxBuffered offer) (mo_DCLowMark offer) (cc_peer cfg).

(** What [ProcessManualOffer] keeps for [StartTunnel]. *)
Definition manual_info (offer : ManualOffer) (sessionID : string) : connectionInfo :=
  mkInfo "" 0 "" "webrtc" "holepunch" 0 sessionID "webrtc" "" (mo_ObfsKey offer) (mo_RelayAddr offer) (mo_Padding offer)
    4 0 (mo_TransportV offer) 1 (mo_NumChannels offer) (mo_SmuxStreamBuffer offer) (mo_SmuxSessionBuffer offer)
    (mo_SmuxFrameSize offer) (mo_DCMaxBuffered offer) (mo_DCLowMark offer) (mo_PaddingMax offer) (mo_SmuxKeepAlive offer)
    (mo_SmuxKeepAliveTimeout offer).

Definition ice_servers (stun : string) : list string := [NormalizeICEServer stun; NormalizeICEServer defaultStunServer2].

(** 65 seconds and 15 for every connection after the first. *)
Definition connect_timeout (npc : Z) : Z := 65 * second + (npc - 1) * (15 * second).

(** ** Rates *)

(** [prevTime] is [None] for the zero time; rates are exact quotients of
    bytes and seconds, where the code rounds to [float64]. *)
Record rateTracker := mkRate { prevUp : Z; prevDown : Z; prevTime : option Z; rateUp : Q; rateDown : Q }.

Definition rate_of (bytes dt : Z) : Q := let q := (inject_Z bytes / (inject_Z dt / inject_Z second))%Q in
  if Qle_bool 0 q then q else 0%Q.

Definition rate_update (now up down : Z) (rt : rateTracker) : Q * Q * rateTracker :=
  let '(ru, rd) :=
    match prevTime rt with
    | Some t => let dt := now - t in
                if 0 <? dt then (rate_of (up - prevUp rt) dt, rate_of (down - prevDown rt) dt)
                else (rateUp rt, rateDown rt)
    | None => (rateUp rt, rateDown rt)
    end in
  (ru, rd, mkRate up down (Some now) ru rd).

Definition rate_reset : rateTracker := mkRate 0 0 None 0%Q 0%Q.

(** ** NAT label *)

Definition natTypeLabel (m : Nat.NATMapping) (f : Nat.NATFiltering) : string :=
  match m, f with
  | Nat.MappingEndpointIndependent, Nat.FilteringEndpointIndependent => "full_cone"
  | Nat.MappingEndpointIndependent, Nat.FilteringAddressDependent => "restricted_cone"
  | Nat.MappingEndpointIndependent, Nat.FilteringAddressPortDependent => "port_restricted"
  | Nat.MappingAddressPortDependent, _ | Nat.MappingAddressDependent, _ => "symmetric"
  | Nat.MappingEndpointIndependent, Nat.FilteringUnknown => "cone"
  | _, _ => "unknown"
  end.

(** ** Speed test *)

(** The probes: size and, when the request succeeded, its milliseconds. *)
Definition speed (sz ms : Z) : Q := ((inject_Z sz * 8) / (inject_Z ms / 1000) / 1000000)%Q.

Definition speed_step (best : Q * Z * Z) (probe : Z * option Z) : Q * Z * Z :=
  match probe.2 with
  | None => best
  | Some ms =>
      if ms <=? 0 then best
      else let mbps := speed probe.1 ms in
           if negb (Qle_bool mbps best.1.1) then (mbps, probe.1, ms) else best
  end.

Definition best_probe (probes : list (Z * option Z)) : Q * Z * Z := foldl speed_step (0%Q, 0, 0) probes.

Definition downloadSizes : list Z := [5000000; 15000000; 25000000].
Definition uploadSizes : list Z := [3000000; 7000000].

(** [SpeedTestDirect]: [None] is the error object. *)
Definition SpeedTestDirect (down up : list (option Z)) : option ((Q * Z * Z) * (Q * Z * Z)) :=
  let d := best_probe (zip downloadSizes down) in
  let u := best_probe (zip uploadSizes up) in
  if Qeq_bool d.1.1 0 then None else Some (d, u).

(** ** Hexadecimal text is read back *)

Lemma hex_digits z : 0 <= z < 16 -> hex (Socks.hex_digit z) = Some z /\ code (Socks.hex_digit z) < 128.
Proof.
  intros Hz. assert (Hn : (Z.to_nat z < 16)%nat) by lia. rewrite <- (Z2Nat.id z) by lia. revert Hn.
  generalize (Z.to_nat z). intros n Hn. do 16 (destruct n as [|n]; [done|]). lia.
Qed.

Lemma hex_roundtrip l : hex_DecodeString (hex_EncodeToString l) = l.
Proof.
  induction l as [|b l IH]; [done|]. cbn [hex_EncodeToString foldr]. unfold hex_byte.
  change (String ?x (String ?y EmptyString) +:+ ?s) with (String x (String y s)). cbn [hex_DecodeString].
  pose proof (b2z_range b) as Hb.
  destruct (hex_digits (b2z b / 16)) as [-> _]; [split; [apply Z.div_pos; lia|apply Z.div_lt_upper_bound; lia]|].
  destruct (hex_digits (b2z b mod 16)) as [-> _]; [apply Z.mod_pos_bound; lia|].
  f_equal; [|apply IH]. rewrite (Z.mul_comm _ 16), <- Z.div_mod by lia. apply z2b_b2z.
Qed.

Lemma hex_ascii l : Forall (fun b => b2z b < 128) (Socks.to_bytes (hex_EncodeToString l)).
Proof.
  induction l as [|b l IH]; [constructor|]. cbn [hex_EncodeToString foldr]. rewrite to_bytes_app. apply Forall_app. split; [|apply IH].
  pose proof (b2z_range b) as Hb.
  assert (Hd : forall z, 0 <= z < 16 -> b2z (Ascii.byte_of_ascii (Socks.hex_digit z)) < 128).
  { intros z Hz. assert (Hn : (Z.to_nat z < 16)%nat) by lia. rewrite <- (Z2Nat.id z) by lia. revert Hn.
    generalize (Z.to_nat z). intros n Hn. do 16 (destruct n as [|n]; [done|]). lia. }
  repeat constructor; apply Hd; [split; [apply Z.div_pos; lia|apply Z.div_lt_upper_bound; lia]|apply Z.mod_pos_bound; lia].
Qed.

(** ** Both sides use the same settings *)

Section agreement.
Context `{ApiJson}.

Definition set_config (p : Peer.PeerConfig) (o : Peer.ClientOptions) : Peer.ClientOptions :=
  Peer.mkOptions (Peer.Padding o) (Peer.PaddingMax o) (Peer.Mode o) (Peer.ObfsKey o) (Peer.NumPeerConnections o)
    (Peer.NumChannels o) (Peer.SmuxStreamBuffer o) (Peer.SmuxSessionBuffer o) (Peer.SmuxFrameSize o) (Peer.SmuxKeepAlive o)
    (Peer.SmuxKeepAliveTimeout o) (Peer.DCMaxBuffered o) (Peer.DCLowMark o) p.

Lemma decode_encode_info i : forallb utf8 (info_strings i) = true -> decode_info (encode_info i) = Ok i.
Proof.
  intros Hi. unfold decode_info, encode_info, decodeBase64, encodeBase64. rewrite base64_roundtrip by by left.
  by rewrite info_roundtrip.
Qed.

Lemma holepunch_options cfg ccfg sid relay key :
  client_options (holepunch_info cfg sid relay key) ccfg = set_config (cc_peer ccfg) (Peer.shared (server_options cfg key)).
Proof.
  unfold client_options, server_options, holepunch_info, transport_version, set_config. cbn [ci_TransportV ci_ObfsKey].
  destruct (transport_mode cfg); cbn [is_media Z.eqb]; [done|]. change (2 =? 2) with true. cbv iota.
  by rewrite hex_roundtrip.
Qed.

Lemma manual_options_agree cfg ccfg sid relay key sdp :
  manual_options (manual_offer cfg sid relay key sdp) ccfg = set_config (cc_peer ccfg) (Peer.shared (server_options cfg key)).
Proof.
  unfold manual_options, server_options, manual_offer, transport_version, set_config. cbn [mo_TransportV mo_ObfsKey].
  destruct (transport_mode cfg); cbn [is_media Z.eqb]; [done|]. change (2 =? 2) with true. cbv iota.
  by rewrite hex_roundtrip.
Qed.

(** C25: a client that reads the code of a hole-punching server uses, in every
    field that is marked as synced (padding, transport, key, channels, smux
    and back-pressure), the options the server uses, also after both sides
    have filled in their defaults, and the same number of peer connections;
    the tuning of its own sockets stays its own. *)
Theorem code_carries_settings (cfg : serverConfig) (ccfg : clientConfig) (sid relay : string) (key : bytes) :
  utf8 sid = true -> utf8 relay = true ->
  let code := encode_info (holepunch_info cfg sid relay key) in
  exists info, decode_info code = Ok info /\
    ci_SessionID info = sid /\ ci_RelayAddr info = relay /\ hex_DecodeString (ci_ObfsKey info) = key /\
    client_options info ccfg = set_config (cc_peer ccfg) (Peer.shared (server_options cfg key)) /\
    Peer.applyClientDefaults (client_options info ccfg) =
      set_config (Peer.applyPeerDefaults (cc_peer ccfg)) (Peer.shared (Peer.applyServerDefaults (server_options cfg key))) /\
    Group.cap_npc (positive_or_one (ci_NumPeerConns info)) = Group.cap_npc (sc_NumPeerConnections cfg).
Proof.
  intros Hs Hr code. exists (holepunch_info cfg sid relay key). subst code.
  rewrite decode_encode_info, !holepunch_options.
  - split_and!; try done; [apply hex_roundtrip|]. cbn [holepunch_info ci_NumPeerConns]. unfold Group.cap_npc, positive_or_one.
    destruct (sc_NumPeerConnections cfg <=? 0) eqn:E; cbn; [done|]. by rewrite E, E.
  - cbn. rewrite Hs, Hr, (utf8_ascii _ (hex_ascii key)). cbn.
    repeat (rewrite utf8_ascii by (apply (bool_decide_unpack _); vm_compute; exact I)). done.
Qed.

End agreement.

(** Without settings both entry points refuse their own default URL, whatever
    [url.Parse] does with brackets. *)
Lemma default_urls_refused ip :
  normalize_server ip defaultServerConfig = Err (EWrap "invalid signalingUrl" (EMsg "unresolved placeholder in URL" [])) /\
  normalize_client ip defaultClientConfig = Err (EWrap "invalid signalingUrl" (EMsg "unresolved placeholder in URL" [])).
Proof. split; vm_compute; reflexivity. Qed.

(** ** Rates *)

Lemma rate_of_nonneg b dt : (0 <= rate_of b dt)%Q.
Proof. unfold rate_of. destruct (Qle_bool 0 _) eqn:E; [by apply Qle_bool_iff|]. apply Qle_refl. Qed.

(** Rates are never negative, also when a counter starts over. *)
Lemma rates_nonneg now up down rt : (0 <= rateUp rt)%Q -> (0 <= rateDown rt)%Q ->
  let '(ru, rd, rt') := rate_update now up down rt in
  (0 <= ru)%Q /\ (0 <= rd)%Q /\ rateUp rt' = ru /\ rateDown rt' = rd /\ prevTime rt' = Some now.
Proof.
  intros Hu Hd. unfold rate_update. destruct (prevTime rt) as [t|]; [|by split_and!].
  destruct (0 <? now - t); split_and!; try done; apply rate_of_nonneg.
Qed.

(** ** Speed *)

Lemma best_probe_spec probes best : let r := foldl speed_step best probes in
  (best.1.1 <= r.1.1)%Q /\
  (r = best \/ exists sz ms, (sz, Some ms) ∈ probes /\ 0 < ms /\ r = (speed sz ms, sz, ms)) /\
  forall sz ms, (sz, Some ms) ∈ probes -> 0 < ms -> (speed sz ms <= r.1.1)%Q.
Proof.
  revert best. induction probes as [|[sz o] probes IH]; intros best; cbn [foldl].
  { split; [apply Qle_refl|]. split; [by left|]. by intros ? ? ?%elem_of_nil. }
  destruct (IH (speed_step best (sz, o))) as (Hle & Hfrom & Hall). set (r := foldl _ _ _) in *.
  assert (Hstep : (best.1.1 <= (speed_step best (sz, o)).1.1)%Q /\
    (speed_step best (sz, o) = best \/ exists ms, o = Some ms /\ 0 < ms /\ speed_step best (sz, o) = (speed sz ms, sz, ms)) /\
    forall ms, o = Some ms -> 0 < ms -> (speed sz ms <= (speed_step best (sz, o)).1.1)%Q).
  { unfold speed_step. cbn [fst snd]. destruct o as [ms|]; [|split; [apply Qle_refl|]; split; [by left|done]].
    destruct (ms <=? 0) eqn:Hms; [split; [apply Qle_refl|]; split; [by left|]; intros ms' [= <-]; lia|].
    destruct (Qle_bool (speed sz ms) best.1.1) eqn:Hq; cbn [negb].
    - split; [apply Qle_refl|]. split; [by left|]. intros ms' [= <-] _. by apply Qle_bool_iff.
    - assert (Hlt : (best.1.1 < speed sz ms)%Q).
      { destruct (Qlt_le_dec best.1.1 (speed sz ms)) as [|Hc]; [done|]. apply Qle_bool_iff in Hc. congruence. }
      split; [by apply Qlt_le_weak|]. split; [right; exists ms; split_and!; [done|lia|done]|].
      intros ms' [= <-] _. apply Qle_refl. }
  destruct Hstep as (Hs1 & Hs2 & Hs3). split; [by eapply Qle_trans|]. split.
  - destruct Hfrom as [->|(sz' & ms' & Hin & Hp & Hr)].
    + destruct Hs2 as [->|(ms & -> & Hp & ->)]; [by left|]. right. exists sz, ms. split_and!; [constructor|done|done].
    + right. exists sz', ms'. split_and!; [by constructor|done|done].
  - intros sz' ms' [[= <- <-]|Hin]%elem_of_cons Hp; [|by apply Hall].
    eapply Qle_trans; [by apply Hs3|done].
Qed.

(** ** Identifiers *)

Lemma uuid_version (b : byte) : Socks.hex_digit (b2z (z2b (Z.lor (Z.land (b2z b) 15) 64)) / 16) = "4"%char.
Proof. by destruct b. Qed.

Lemma uuid_variant (b : byte) :
  has_char (Socks.hex_digit (b2z (z2b (Z.lor (Z.land (b2z b) 63) 128)) / 16)) "89ab" = true.
Proof. by destruct b. Qed.

(** 36 characters, with the version and the variant of RFC 4122. *)
Lemma uuid_shape l : length l = 16%nat ->
  String.length (uuid_text l) = 36%nat /\ String.get 14 (uuid_text l) = Some "4"%char /\
  exists c, String.get 19 (uuid_text l) = Some c /\ has_char c "89ab" = true.
Proof.
  intros Hl. do 16 (destruct l as [|? l]; [done|]). destruct l; [|done]. clear Hl.
  split; [done|]. split; [apply (f_equal Some), uuid_version|]. eexists. split; [reflexivity|]. apply uuid_variant.
Qed.

(** ** Running the definitions *)

#[export] Instance PeerConfig_eq_dec : EqDecision Peer.PeerConfig.
Proof. solve_decision. Defined.
#[export] Instance connectionInfo_eq_dec : EqDecision connectionInfo.
Proof. solve_decision. Defined.
#[export, refine] Instance connectionInfo_countable : Countable connectionInfo :=
  inj_countable' (fun i => ((ci_PublicIP i, ci_Port i, ci_UUID i, ci_Transport i, ci_Method i, ci_StunPort i),
      (ci_SessionID i, ci_Protocol i, ci_ProxySettings i, ci_ObfsKey i, ci_RelayAddr i),
      (ci_Padding i, ci_Version i, ci_SigV i, ci_TransportV i),
      (ci_NumPeerConns i, ci_NumChannels i, ci_SmuxStreamBuffer i, ci_SmuxSessionBuffer i, ci_SmuxFrameSize i),
      (ci_DCMaxBuffered i, ci_DCLowMark i, ci_PaddingMax i, ci_SmuxKeepAlive i, ci_SmuxKeepAliveTimeout i)))
    (fun '((a, b, c, d, e, f), (g, h, i, j, k), (l, m, n, o), (p, q, r, s, t), (u, v, w, x, y)) =>
       mkInfo a b c d e f g h i j k l m n o p q r s t u v w x y) _.
Proof. by intros []. Defined.

(** Settings are kept as they are or replaced by one of a few texts. *)
Definition demo_server (method : string) : serverConfig :=
  set_urls "http://sig.example.org:5601" "" defaultStunServer1
    (mkServerConfig 10853 defaultStunServer1 "" "" method false (demo_settings "kcp") 3600 3 3 0 0 2 "media" false
       4 0 0 0 0 0 0 0 true 0 noPeerConfig false "").
Definition demo_client : clientConfig :=
  mkClientConfig 10808 "10.0.0.2" 1400 "8.8.8.8" "1.1.1.1" defaultStunServer1 "http://sig.example.org:5601" false noPeerConfig false.

#[export, refine] Instance toy_api_json : ApiJson := {|
  server_settings s d := if bool_decide (s = "bad") then None else Some (demo_server s);
  client_settings s d := if bool_decide (s = "bad") then None else Some demo_client;
  info_text := toy_write; info_parse := toy_read
|}.
Proof.
  - intros i _. apply toy_roundtrip.
  - intros p. unfold proxy_text, toy_proxy_json. apply utf8_ascii. rewrite to_of_bytes.
    eapply Forall_impl; [apply toy_write_ascii|]. cbn. intros b Hb. lia.
Defined.

Lemma code_carries_settings_witness :
  exists info, decode_info (encode_info (holepunch_info (demo_server "auto") "sid" "" [x01; xff])) = Ok info /\
    Peer.NumChannels (client_options info demo_client) = 4 /\ Peer.ObfsKey (client_options info demo_client) = [x01; xff] /\
    ci_NumPeerConns info = 2.
Proof.
  destruct (code_carries_settings (demo_server "auto") demo_client "sid" "" [x01; xff]) as (info & Hd & _ & _ & _ & Ho & _);
    [reflexivity|reflexivity|].
  exists info. rewrite Ho. split; [exact Hd|]. split; [reflexivity|]. split; [reflexivity|].
  assert (Hi : decode_info (encode_info (holepunch_info (demo_server "auto") "sid" "" [x01; xff]))
    = Ok (holepunch_info (demo_server "auto") "sid" "" [x01; xff])) by (apply decode_encode_info; reflexivity).
  rewrite Hi in Hd. injection Hd as <-. reflexivity.
Defined.

End Api.
