(* ===== verification/ApiState.v ===== *)
(** * The shared state of the public API

    The package variables of [golib/api.go], the resources that the functions
    create and release (groups of peer connections, tunnels, channels and
    contexts, each with a number), and the interface [ApiEnv] of the components
    that the functions call.  The second half are the basic steps of programs
    over this state. *)

From S2P Require Import Prelude IO GoStr Codes Url Xray Peer PortMap Api Threads.

Open Scope Z_scope.

Module ApiState.

Import Xray Api.

(** ** Other components

    What a call answers is up to the environment; the number of a group is
    given by the state below.  A group that is stopped stays stopped. *)

Record groupStats := mkStats {
  st_clients : Z; st_up : Z; st_down : Z; st_channels : Z; st_count : Z; st_dist : list Z; st_usage : Z * Z * Z }.

(** What a receive without waiting finds in the channel of new offers. *)
Inductive offer_poll := Newer (offers : list string) | Closed | Empty.

Record tunnelArgs := mkTunArgs {
  ta_fd : Z; ta_socks : string; ta_addr : string; ta_mtu : Z; ta_dns1 : string; ta_dns2 : string; ta_direct : bool;
  ta_dial : option nat }.

Class ApiEnv (E : Type) := {
  env_now : E -> Z;
  env_sleep : Z -> E -> E;
  env_backoff : nat -> E -> E;                           (* sleeping after a failed attempt *)
  env_choose : E -> bool * E;                            (* which of two ready cases [select] takes *)
  env_random : nat -> Prog E bytes;
  (* nat *)
  nat_TryPortMapping : Z -> Z -> string -> PortMap.UPnPOptions -> Prog E (string * Z * string);
  nat_RemoveUPnPMapping : Z -> string -> E -> E;
  (* webrtc: groups of the server *)
  sg_Start : Z -> list string -> bytes -> string -> string -> Peer.ServerOptions -> Prog E (list string);
  sg_AcceptAnswers : nat -> list string -> Prog E unit;
  sg_WaitConnected : nat -> Z -> Prog E unit;
  sg_IsAlive : nat -> E -> bool;
  sg_GetRawConn : nat -> E -> bool;
  sg_stats : nat -> E -> groupStats;
  sg_Stop : nat -> E -> E;
  (* webrtc: groups of the client; the flag says whether sockets are protected *)
  cg_Start : Z -> list string -> list string -> bool -> bytes -> string -> string -> Peer.ClientOptions -> Prog E (list string);
  cg_WaitConnected : nat -> Z -> Prog E unit;
  cg_ProtectSockets : nat -> Prog E unit;
  cg_IsAlive : nat -> E -> bool;
  cg_stats : nat -> E -> Z * Z * Z;                     (* streams, channels, connections *)
  cg_Stop : nat -> E -> E;
  (* xray *)
  xray_RegisterProtectFunc : E -> E;
  (* tunnel *)
  tun_Start : tunnelArgs -> Prog E unit;
  tun_GetStats : nat -> E -> Z * Z;
  tun_Stop : nat -> E -> E;
  (* signaling; the payloads are never encrypted, no key is passed *)
  sig_PostSDPOffers : string -> string -> list string -> Prog E unit;
  sig_PostSDPAnswers : string -> string -> option (list string) -> Prog E unit;
  sig_WaitSDPAnswersSSE : string -> string -> Prog E (list string);
  sig_pollForSDPAnswers : string -> string -> Prog E (list string);
  sig_GetSDPOffersCtx : string -> string -> Prog E (list string);
  sig_PostSDPAnswersCtx : string -> string -> list string -> Prog E unit;
  sig_StreamSDPOffers : string -> string -> Prog E unit;
  sig_recv_offers : E -> option (list string) * E;       (* [None]: the stream was closed *)
  sig_poll_offers : E -> offer_poll * E;
  sig_RegisterServer : string -> list string -> Prog E string;
  sig_DeregisterServer : string -> string -> Prog E unit;
  sig_HeartbeatServer : string -> string -> Prog E bool  (* [Ok false]: the listing has expired *)
}.

(** ** Package variables

    Groups, tunnels, channels and contexts are numbers; [None] is [nil].
    Channels are told apart by what they are for: the end of a client
    connection, stopping a STUN keep-alive, stopping a heartbeat. *)

Inductive chan_kind := DoneCh | StunCh | BeatCh.
#[export] Instance chan_kind_eq_dec : EqDecision chan_kind.
Proof. solve_decision. Defined.
#[export, refine] Instance chan_kind_countable : Countable chan_kind :=
  inj_countable' (fun k => match k with DoneCh => 0 | StunCh => 1 | BeatCh => 2 end%nat)
    (fun n => match n with 0 => DoneCh | 1 => StunCh | _ => BeatCh end%nat) _.
Proof. by intros []. Defined.

(** *** The client *)

Record clientst := mkClientSt {
  clientRunning : bool; clientConnecting : bool; clientSocksPort : Z; activeTunnel : option nat;
  activeWebRTCClientGroup : option nat; pendingWebRTCClientGroup : option nat; clientDoneCh : option nat;
  clientConnectCtx : option nat; clientConnectCancel : option nat; savedConnInfo : connectionInfo;
  savedClientCfg : clientConfig; savedProtectFn : bool; savedICEServers : list string;
  savedClientOpts : Peer.ClientOptions; reconnectCount : Z; clientStartTime : option Z;
  clientRateTracker : rateTracker }.

Definition set_clientRunning (x : bool) (c : clientst) : clientst :=
  mkClientSt x (clientConnecting c) (clientSocksPort c) (activeTunnel c) (activeWebRTCClientGroup c)
    (pendingWebRTCClientGroup c) (clientDoneCh c) (clientConnectCtx c) (clientConnectCancel c) (savedConnInfo c)
    (savedClientCfg c) (savedProtectFn c) (savedICEServers c) (savedClientOpts c) (reconnectCount c)
    (clientStartTime c) (clientRateTracker c).
Definition set_clientConnecting (x : bool) (c : clientst) : clientst :=
  mkClientSt (clientRunning c) x (clientSocksPort c) (activeTunnel c) (activeWebRTCClientGroup c)
    (pendingWebRTCClientGroup c) (clientDoneCh c) (clientConnectCtx c) (clientConnectCancel c) (savedConnInfo c)
    (savedClientCfg c) (savedProtectFn c) (savedICEServers c) (savedClientOpts c) (reconnectCount c)
    (clientStartTime c) (clientRateTracker c).
Definition set_clientSocksPort (x : Z) (c : clientst) : clientst :=
  mkClientSt (clientRunning c) (clientConnecting c) x (activeTunnel c) (activeWebRTCClientGroup c)
    (pendingWebRTCClientGroup c) (clientDoneCh c) (clientConnectCtx c) (clientConnectCancel c) (savedConnInfo c)
    (savedClientCfg c) (savedProtectFn c) (savedICEServers c) (savedClientOpts c) (reconnectCount c)
    (clientStartTime c) (clientRateTracker c).
Definition set_activeTunnel (x : option nat) (c : clientst) : clientst :=
  mkClientSt (clientRunning c) (clientConnecting c) (clientSocksPort c) x (activeWebRTCClientGroup c)
    (pendingWebRTCClientGroup c) (clientDoneCh c) (clientConnectCtx c) (clientConnectCancel c) (savedConnInfo c)
    (savedClientCfg c) (savedProtectFn c) (savedICEServers c) (savedClientOpts c) (reconnectCount c)
    (clientStartTime c) (clientRateTracker c).
Definition set_activeWebRTCClientGroup (x : option nat) (c : clientst) : clientst :=
  mkClientSt (clientRunning c) (clientConnecting c) (clientSocksPort c) (activeTunnel c) x
    (pendingWebRTCClientGroup c) (clientDoneCh c) (clientConnectCtx c) (clientConnectCancel c) (savedConnInfo c)
    (savedClientCfg c) (savedProtectFn c) (savedICEServers c) (savedClientOpts c) (reconnectCount c)
    (clientStartTime c) (clientRateTracker c).
Definition set_pendingWebRTCClientGroup (x : option nat) (c : clientst) : clientst :=
  mkClientSt (clientRunning c) (clientConnecting c) (clientSocksPort c) (activeTunnel c) (activeWebRTCClientGroup c) x
    (clientDoneCh c) (clientConnectCtx c) (clientConnectCancel c) (savedConnInfo c) (savedClientCfg c)
    (savedProtectFn c) (savedICEServers c) (savedClientOpts c) (reconnectCount c) (clientStartTime c)
    (clientRateTracker c).
Definition set_clientDoneCh (x : option nat) (c : clientst) : clientst :=
  mkClientSt (clientRunning c) (clientConnecting c) (clientSocksPort c) (activeTunnel c) (activeWebRTCClientGroup c)
    (pendingWebRTCClientGroup c) x (clientConnectCtx c) (clientConnectCancel c) (savedConnInfo c) (savedClientCfg c)
    (savedProtectFn c) (savedICEServers c) (savedClientOpts c) (reconnectCount c) (clientStartTime c)
    (clientRateTracker c).
Definition set_clientConnectCtx (x : option nat) (c : clientst) : clientst :=
  mkClientSt (clientRunning c) (clientConnecting c) (clientSocksPort c) (activeTunnel c) (activeWebRTCClientGroup c)
    (pendingWebRTCClientGroup c) (clientDoneCh c) x (clientConnectCancel c) (savedConnInfo c) (savedClientCfg c)
    (savedProtectFn c) (savedICEServers c) (savedClientOpts c) (reconnectCount c) (clientStartTime c)
    (clientRateTracker c).
Definition set_clientConnectCancel (x : option nat) (c : clientst) : clientst :=
  mkClientSt (clientRunning c) (clientConnecting c) (clientSocksPort c) (activeTunnel c) (activeWebRTCClientGroup c)
    (pendingWebRTCClientGroup c) (clientDoneCh c) (clientConnectCtx c) x (savedConnInfo c) (savedClientCfg c)
    (savedProtectFn c) (savedICEServers c) (savedClientOpts c) (reconnectCount c) (clientStartTime c)
    (clientRateTracker c).
Definition set_savedConnInfo (x : connectionInfo) (c : clientst) : clientst :=
  mkClientSt (clientRunning c) (clientConnecting c) (clientSocksPort c) (activeTunnel c) (activeWebRTCClientGroup c)
    (pendingWebRTCClientGroup c) (clientDoneCh c) (clientConnectCtx c) (clientConnectCancel c) x (savedClientCfg c)
    (savedProtectFn c) (savedICEServers c) (savedClientOpts c) (reconnectCount c) (clientStartTime c)
    (clientRateTracker c).
Definition set_savedClientCfg (x : clientConfig) (c : clientst) : clientst :=
  mkClientSt (clientRunning c) (clientConnecting c) (clientSocksPort c) (activeTunnel c) (activeWebRTCClientGroup c)
    (pendingWebRTCClientGroup c) (clientDoneCh c) (clientConnectCtx c) (clientConnectCancel c) (savedConnInfo c) x
    (savedProtectFn c) (savedICEServers c) (savedClientOpts c) (reconnectCount c) (clientStartTime c)
    (clientRateTracker c).
Definition set_savedProtectFn (x : bool) (c : clientst) : clientst :=
  mkClientSt (clientRunning c) (clientConnecting c) (clientSocksPort c) (activeTunnel c) (activeWebRTCClientGroup c)
    (pendingWebRTCClientGroup c) (clientDoneCh c) (clientConnectCtx c) (clientConnectCancel c) (savedConnInfo c)
    (savedClientCfg c) x (savedICEServers c) (savedClientOpts c) (reconnectCount c) (clientStartTime c)
    (clientRateTracker c).
Definition set_savedICEServers (x : list string) (c : clientst) : clientst :=
  mkClientSt (clientRunning c) (clientConnecting c) (clientSocksPort c) (activeTunnel c) (activeWebRTCClientGroup c)
    (pendingWebRTCClientGroup c) (clientDoneCh c) (clientConnectCtx c) (clientConnectCancel c) (savedConnInfo c)
    (savedClientCfg c) (savedProtectFn c) x (savedClientOpts c) (reconnectCount c) (clientStartTime c)
    (clientRateTracker c).
Definition set_savedClientOpts (x : Peer.ClientOptions) (c : clientst) : clientst :=
  mkClientSt (clientRunning c) (clientConnecting c) (clientSocksPort c) (activeTunnel c) (activeWebRTCClientGroup c)
    (pendingWebRTCClientGroup c) (clientDoneCh c) (clientConnectCtx c) (clientConnectCancel c) (savedConnInfo c)
    (savedClientCfg c) (savedProtectFn c) (savedICEServers c) x (reconnectCount c) (clientStartTime c)
    (clientRateTracker c).
Definition set_reconnectCount (x : Z) (c : clientst) : clientst :=
  mkClientSt (clientRunning c) (clientConnecting c) (clientSocksPort c) (activeTunnel c) (activeWebRTCClientGroup c)
    (pendingWebRTCClientGroup c) (clientDoneCh c) (clientConnectCtx c) (clientConnectCancel c) (savedConnInfo c)
    (savedClientCfg c) (savedProtectFn c) (savedICEServers c) (savedClientOpts c) x (clientStartTime c)
    (clientRateTracker c).
Definition set_clientStartTime (x : option Z) (c : clientst) : clientst :=
  mkClientSt (clientRunning c) (clientConnecting c) (clientSocksPort c) (activeTunnel c) (activeWebRTCClientGroup c)
    (pendingWebRTCClientGroup c) (clientDoneCh c) (clientConnectCtx c) (clientConnectCancel c) (savedConnInfo c)
    (savedClientCfg c) (savedProtectFn c) (savedICEServers c) (savedClientOpts c) (reconnectCount c) x
    (clientRateTracker c).
Definition set_clientRateTracker (x : rateTracker) (c : clientst) : clientst :=
  mkClientSt (clientRunning c) (clientConnecting c) (clientSocksPort c) (activeTunnel c) (activeWebRTCClientGroup c)
    (pendingWebRTCClientGroup c) (clientDoneCh c) (clientConnectCtx c) (clientConnectCancel c) (savedConnInfo c)
    (savedClientCfg c) (savedProtectFn c) (savedICEServers c) (savedClientOpts c) (reconnectCount c)
    (clientStartTime c) x.

(** *** The server *)

Record serverst := mkServerSt {
  serverRunning : bool; serverInfo : option connectionInfo; activeWebRTCServerGroup : option nat;
  drainingWebRTCServerGroups : list nat; serverMethod : string; serverCancel : option nat;
  discoveryListingID : string; discoverySignalingURL : string; heartbeatStop : option nat; manualMode : bool;
  manualOfferCode : string; stunKeepaliveDone : option nat; serverStartTime : option Z; totalPeersEver : Z;
  serverRateTracker : rateTracker }.

Definition set_serverRunning (x : bool) (s : serverst) : serverst :=
  mkServerSt x (serverInfo s) (activeWebRTCServerGroup s) (drainingWebRTCServerGroups s) (serverMethod s)
    (serverCancel s) (discoveryListingID s) (discoverySignalingURL s) (heartbeatStop s) (manualMode s)
    (manualOfferCode s) (stunKeepaliveDone s) (serverStartTime s) (totalPeersEver s) (serverRateTracker s).
Definition set_serverInfo (x : option connectionInfo) (s : serverst) : serverst :=
  mkServerSt (serverRunning s) x (activeWebRTCServerGroup s) (drainingWebRTCServerGroups s) (serverMethod s)
    (serverCancel s) (discoveryListingID s) (discoverySignalingURL s) (heartbeatStop s) (manualMode s)
    (manualOfferCode s) (stunKeepaliveDone s) (serverStartTime s) (totalPeersEver s) (serverRateTracker s).
Definition set_activeWebRTCServerGroup (x : option nat) (s : serverst) : serverst :=
  mkServerSt (serverRunning s) (serverInfo s) x (drainingWebRTCServerGroups s) (serverMethod s) (serverCancel s)
    (discoveryListingID s) (discoverySignalingURL s) (heartbeatStop s) (manualMode s) (manualOfferCode s)
    (stunKeepaliveDone s) (serverStartTime s) (totalPeersEver s) (serverRateTracker s).
Definition set_drainingWebRTCServerGroups (x : list nat) (s : serverst) : serverst :=
  mkServerSt (serverRunning s) (serverInfo s) (activeWebRTCServerGroup s) x (serverMethod s) (serverCancel s)
    (discoveryListingID s) (discoverySignalingURL s) (heartbeatStop s) (manualMode s) (manualOfferCode s)
    (stunKeepaliveDone s) (serverStartTime s) (totalPeersEver s) (serverRateTracker s).
Definition set_serverMethod (x : string) (s : serverst) : serverst :=
  mkServerSt (serverRunning s) (serverInfo s) (activeWebRTCServerGroup s) (drainingWebRTCServerGroups s) x
    (serverCancel s) (discoveryListingID s) (discoverySignalingURL s) (heartbeatStop s) (manualMode s)
    (manualOfferCode s) (stunKeepaliveDone s) (serverStartTime s) (totalPeersEver s) (serverRateTracker s).
Definition set_serverCancel (x : option nat) (s : serverst) : serverst :=
  mkServerSt (serverRunning s) (serverInfo s) (activeWebRTCServerGroup s) (drainingWebRTCServerGroups s)
    (serverMethod s) x (discoveryListingID s) (discoverySignalingURL s) (heartbeatStop s) (manualMode s)
    (manualOfferCode s) (stunKeepaliveDone s) (serverStartTime s) (totalPeersEver s) (serverRateTracker s).
Definition set_discoveryListingID (x : string) (s : serverst) : serverst :=
  mkServerSt (serverRunning s) (serverInfo s) (activeWebRTCServerGroup s) (drainingWebRTCServerGroups s)
    (serverMethod s) (serverCancel s) x (discoverySignalingURL s) (heartbeatStop s) (manualMode s) (manualOfferCode s)
    (stunKeepaliveDone s) (serverStartTime s) (totalPeersEver s) (serverRateTracker s).
Definition set_discoverySignalingURL (x : string) (s : serverst) : serverst :=
  mkServerSt (serverRunning s) (serverInfo s) (activeWebRTCServerGroup s) (drainingWebRTCServerGroups s)
    (serverMethod s) (serverCancel s) (discoveryListingID s) x (heartbeatStop s) (manualMode s) (manualOfferCode s)
    (stunKeepaliveDone s) (serverStartTime s) (totalPeersEver s) (serverRateTracker s).
Definition set_heartbeatStop (x : option nat) (s : serverst) : serverst :=
  mkServerSt (serverRunning s) (serverInfo s) (activeWebRTCServerGroup s) (drainingWebRTCServerGroups s)
    (serverMethod s) (serverCancel s) (discoveryListingID s) (discoverySignalingURL s) x (manualMode s)
    (manualOfferCode s) (stunKeepaliveDone s) (serverStartTime s) (totalPeersEver s) (serverRateTracker s).
Definition set_manualMode (x : bool) (s : serverst) : serverst :=
  mkServerSt (serverRunning s) (serverInfo s) (activeWebRTCServerGroup s) (drainingWebRTCServerGroups s)
    (serverMethod s) (serverCancel s) (discoveryListingID s) (discoverySignalingURL s) (heartbeatStop s) x
    (manualOfferCode s) (stunKeepaliveDone s) (serverStartTime s) (totalPeersEver s) (serverRateTracker s).
Definition set_manualOfferCode (x : string) (s : serverst) : serverst :=
  mkServerSt (serverRunning s) (serverInfo s) (activeWebRTCServerGroup s) (drainingWebRTCServerGroups s)
    (serverMethod s) (serverCancel s) (discoveryListingID s) (discoverySignalingURL s) (heartbeatStop s)
    (manualMode s) x (stunKeepaliveDone s) (serverStartTime s) (totalPeersEver s) (serverRateTracker s).
Definition set_stunKeepaliveDone (x : option nat) (s : serverst) : serverst :=
  mkServerSt (serverRunning s) (serverInfo s) (activeWebRTCServerGroup s) (drainingWebRTCServerGroups s)
    (serverMethod s) (serverCancel s) (discoveryListingID s) (discoverySignalingURL s) (heartbeatStop s)
    (manualMode s) (manualOfferCode s) x (serverStartTime s) (totalPeersEver s) (serverRateTracker s).
Definition set_serverStartTime (x : option Z) (s : serverst) : serverst :=
  mkServerSt (serverRunning s) (serverInfo s) (activeWebRTCServerGroup s) (drainingWebRTCServerGroups s)
    (serverMethod s) (serverCancel s) (discoveryListingID s) (discoverySignalingURL s) (heartbeatStop s)
    (manualMode s) (manualOfferCode s) (stunKeepaliveDone s) x (totalPeersEver s) (serverRateTracker s).
Definition set_totalPeersEver (x : Z) (s : serverst) : serverst :=
  mkServerSt (serverRunning s) (serverInfo s) (activeWebRTCServerGroup s) (drainingWebRTCServerGroups s)
    (serverMethod s) (serverCancel s) (discoveryListingID s) (discoverySignalingURL s) (heartbeatStop s)
    (manualMode s) (manualOfferCode s) (stunKeepaliveDone s) (serverStartTime s) x (serverRateTracker s).
Definition set_serverRateTracker (x : rateTracker) (s : serverst) : serverst :=
  mkServerSt (serverRunning s) (serverInfo s) (activeWebRTCServerGroup s) (drainingWebRTCServerGroups s)
    (serverMethod s) (serverCancel s) (discoveryListingID s) (discoverySignalingURL s) (heartbeatStop s)
    (manualMode s) (manualOfferCode s) (stunKeepaliveDone s) (serverStartTime s) (totalPeersEver s) x.

(** *** Resources *)

Record resources := mkRes {
  next_id : nat; live_sgs : gset nat; live_cgs : gset nat; wired : gset nat; live_tuns : gset nat;
  dials : gmap nat (option nat); open_chans : gset (chan_kind * nat); live_ctxs : gset nat; callbacks : nat;
  panicked : bool }.

Definition set_next_id (x : nat) (r : resources) : resources :=
  mkRes x (live_sgs r) (live_cgs r) (wired r) (live_tuns r) (dials r) (open_chans r) (live_ctxs r) (callbacks r)
    (panicked r).
Definition set_live_sgs (x : gset nat) (r : resources) : resources :=
  mkRes (next_id r) x (live_cgs r) (wired r) (live_tuns r) (dials r) (open_chans r) (live_ctxs r) (callbacks r)
    (panicked r).
Definition set_live_cgs (x : gset nat) (r : resources) : resources :=
  mkRes (next_id r) (live_sgs r) x (wired r) (live_tuns r) (dials r) (open_chans r) (live_ctxs r) (callbacks r)
    (panicked r).
Definition set_wired (x : gset nat) (r : resources) : resources :=
  mkRes (next_id r) (live_sgs r) (live_cgs r) x (live_tuns r) (dials r) (open_chans r) (live_ctxs r) (callbacks r)
    (panicked r).
Definition set_live_tuns (x : gset nat) (r : resources) : resources :=
  mkRes (next_id r) (live_sgs r) (live_cgs r) (wired r) x (dials r) (open_chans r) (live_ctxs r) (callbacks r)
    (panicked r).
Definition set_dials (x : gmap nat (option nat)) (r : resources) : resources :=
  mkRes (next_id r) (live_sgs r) (live_cgs r) (wired r) (live_tuns r) x (open_chans r) (live_ctxs r) (callbacks r)
    (panicked r).
Definition set_open_chans (x : gset (chan_kind * nat)) (r : resources) : resources :=
  mkRes (next_id r) (live_sgs r) (live_cgs r) (wired r) (live_tuns r) (dials r) x (live_ctxs r) (callbacks r)
    (panicked r).
Definition set_live_ctxs (x : gset nat) (r : resources) : resources :=
  mkRes (next_id r) (live_sgs r) (live_cgs r) (wired r) (live_tuns r) (dials r) (open_chans r) x (callbacks r)
    (panicked r).
Definition set_callbacks (x : nat) (r : resources) : resources :=
  mkRes (next_id r) (live_sgs r) (live_cgs r) (wired r) (live_tuns r) (dials r) (open_chans r) (live_ctxs r) x
    (panicked r).
Definition set_panicked (x : bool) (r : resources) : resources :=
  mkRes (next_id r) (live_sgs r) (live_cgs r) (wired r) (live_tuns r) (dials r) (open_chans r) (live_ctxs r)
    (callbacks r) x.

Definition noOptions : Peer.ClientOptions :=
  Peer.mkOptions false 0 Peer.TransportDataChannels [] 0 0 0 0 0 0 0 0 0 noPeerConfig.
Definition noInfo : connectionInfo := mkInfo "" 0 "" "" "" 0 "" "" "" "" "" false 0 0 0 0 0 0 0 0 0 0 0 0 0.
Definition noClientConfig : clientConfig := mkClientConfig 0 "" 0 "" "" "" "" false noPeerConfig false.

Definition initClient : clientst :=
  mkClientSt false false 0 None None None None None None noInfo noClientConfig false [] noOptions 0 None rate_reset.
Definition initServer : serverst := mkServerSt false None None [] "" None "" "" None false "" None None 0 rate_reset.
Definition initResources : resources := mkRes 0 ∅ ∅ ∅ ∅ ∅ ∅ ∅ 0 false.

Section state.
Context {I E : Type} `{ApiEnv E} `{XrayCore I E}.

Record api := mkApi { cl : clientst; sv : serverst; rs : resources; xi : option I; seen : tracker; env : E }.

Definition on_cl (f : clientst -> clientst) (g : api) : api := mkApi (f (cl g)) (sv g) (rs g) (xi g) (seen g) (env g).
Definition on_sv (f : serverst -> serverst) (g : api) : api := mkApi (cl g) (f (sv g)) (rs g) (xi g) (seen g) (env g).
Definition on_rs (f : resources -> resources) (g : api) : api := mkApi (cl g) (sv g) (f (rs g)) (xi g) (seen g) (env g).
Definition on_env (f : E -> E) (g : api) : api := mkApi (cl g) (sv g) (rs g) (xi g) (seen g) (f (env g)).
Definition on_seen (f : tracker -> tracker) (g : api) : api := mkApi (cl g) (sv g) (rs g) (xi g) (f (seen g)) (env g).

Definition init_api (e : E) : api := mkApi initClient initServer initResources None ∅ e.

(** ** Basic steps *)

Definition panic (g : api) : api := on_rs (set_panicked true) g.

(** A new number. *)
Definition fresh (g : api) : nat * api := (next_id (rs g), on_rs (set_next_id (S (next_id (rs g)))) g).

Definition make_chan (k : chan_kind) (g : api) : nat * api :=
  let '(i, g) := fresh g in (i, on_rs (fun r => set_open_chans ({[(k, i)]} ∪ open_chans r) r) g).

Definition is_open (k : chan_kind) (i : nat) (g : api) : bool := bool_decide ((k, i) ∈ open_chans (rs g)).

(** Closing a channel twice panics. *)
Definition close_chan (k : chan_kind) (i : nat) (g : api) : api :=
  if is_open k i g then on_rs (fun r => set_open_chans (open_chans r ∖ {[(k, i)]}) r) g else panic g.

Definition WithCancel (g : api) : nat * api :=
  let '(i, g) := fresh g in (i, on_rs (fun r => set_live_ctxs ({[i]} ∪ live_ctxs r) r) g).
Definition cancel (i : nat) (g : api) : api := on_rs (fun r => set_live_ctxs (live_ctxs r ∖ {[i]}) r) g.
Definition cancelled (i : nat) (g : api) : bool := negb (bool_decide (i ∈ live_ctxs (rs g))).

(** A call into another component. *)
Definition ext {A} (f : Prog E A) (g : api) : res goerr A * api :=
  let '(r, e) := f (env g) in (r, mkApi (cl g) (sv g) (rs g) (xi g) (seen g) e).

Definition call {A} (f : Prog E A) : prog api (res goerr A) := atom (ext f).
Definition ask {A} (f : E -> A) : prog api A := reads (fun g => f (env g)).

(** A group or a tunnel that starts gets a number and is live. *)
Definition started {A} (add : nat -> resources -> resources) (f : Prog E A) (g : api) : res goerr (nat * A) * api :=
  match ext f g with
  | (Err e, g) => (Err e, g)
  | (Ok a, g) => let '(i, g) := fresh g in (Ok (i, a), on_rs (add i) g)
  end.

Definition add_sg (i : nat) (r : resources) : resources := set_live_sgs ({[i]} ∪ live_sgs r) r.
Definition add_cg (i : nat) (r : resources) : resources := set_live_cgs ({[i]} ∪ live_cgs r) r.
Definition add_tun (dial : option nat) (i : nat) (r : resources) : resources :=
  set_dials (<[i := dial]> (dials r)) (set_live_tuns ({[i]} ∪ live_tuns r) r).

Definition stop_sg (i : nat) (g : api) : api :=
  on_env (sg_Stop i) (on_rs (fun r => set_live_sgs (live_sgs r ∖ {[i]}) r) g).
Definition stop_cg (i : nat) (g : api) : api :=
  on_env (cg_Stop i) (on_rs (fun r => set_live_cgs (live_cgs r ∖ {[i]}) r) g).
Definition stop_tun (i : nat) (g : api) : api :=
  on_env (tun_Stop i) (on_rs (fun r => set_live_tuns (live_tuns r ∖ {[i]}) r) g).

(** The xray instance is shared by server and client. *)
Definition with_engine {A} (f : Prog (engine I E) A) (g : api) : res goerr A * api :=
  let '(r, en) := f (mkEngine (xi g) (env g)) in (r, mkApi (cl g) (sv g) (rs g) (instance en) (seen g) (eng_env en)).

Definition start_xray (config : jval) : api -> res goerr unit * api := with_engine (StartXray config).
Definition stop_xray : api -> res goerr unit * api := with_engine StopXray.

Definition now (g : api) : Z := env_now (env g).

(** [f] on the value of an optional resource. *)
Definition when_some {A} (o : option A) (f : A -> api -> api) (g : api) : api :=
  match o with Some a => f a g | None => g end.

(** A new UUID. *)
Definition generateUUID : Prog E string :=
  fun e => match env_random 16 e with (Ok b, e) => (Ok (uuid_text b), e) | (Err _, e) => (Ok (uuid_text (replicate 16 x00)), e) end.

End state.

Arguments api I E : clear implicits.

End ApiState.
