(* ===== verification/ApiServer.v ===== *)
(** * The server side of the public API

    [StartServer], [StopServer], the manual and the discovery functions of
    [golib/api.go], and the goroutines they start: the accept loop, which
    waits for the answers of clients and prepares a new group for the next
    one, and the heartbeat of a discovery listing.  A stretch of code that
    holds the mutex, or that touches no package variable, is one atomic
    step. *)

From S2P Require Import Prelude IO GoStr Sdp Codes Url Xray Peer PortMap Api Threads ApiState.

Open Scope Z_scope.

Module ApiServer.

Import Xray Api ApiState.

Section server.
Context {I E : Type} `{AE : ApiEnv E} `{XC : XrayCore I E} `{AJ : ApiJson} `{FL : Flate}.
Variable ip_literal : string -> option string.

Abbreviation G := (api I E).

(** ** Groups with a reflexive candidate *)

Definition stunRetryMax : nat := 10.

Definition has_srflx (sdps : list string) : bool := existsb (fun sdp => Contains sdp "typ srflx") sdps.

Record groupArgs := mkGroupArgs {
  ga_npc : Z; ga_ice : list string; ga_key : bytes; ga_relay : string; ga_session : string; ga_opts : Peer.ServerOptions }.

Definition StartServerGroup (a : groupArgs) : Prog G (nat * list string) :=
  started add_sg (sg_Start (ga_npc a) (ga_ice a) (ga_key a) (ga_relay a) (ga_session a) (ga_opts a)).

(** [startServerGroupWithSrflx]: [n] attempts are left. *)
Fixpoint start_with_srflx (n : nat) (a : groupArgs) : Prog G (nat * list string) :=
  match n with
  | O => nfail (EMsg "STUN discovery failed after %d attempts" [Z.of_nat stunRetryMax])
  | S n => fun g =>
      match StartServerGroup a g with
      | (Err e, g) => (Err e, g)
      | (Ok (i, sdps), g) =>
          if has_srflx sdps then (Ok (i, sdps), g)
          else start_with_srflx n a (on_env (env_backoff (stunRetryMax - n)) (stop_sg i g))
      end
  end.

Definition startServerGroupWithSrflx (a : groupArgs) : Prog G (nat * list string) := start_with_srflx stunRetryMax a.

(** ** Starting *)

(** What [StartServer] returns: the code and, for a port mapping, a link. *)
Inductive started_code := Mapped (code vless : string) | Punched (code : string).

(** The variables that the accept loop captures. *)
Record loopArgs := mkLoop { lp_ctx : nat; lp_url : string; lp_group : groupArgs }.

Definition upnp_proto (protocol transport : string) : string :=
  if bool_decide (protocol = "vless") && bool_decide (transport = "kcp") then "UDP" else "TCP".

Definition try_mapping (cfg : serverConfig) (g : G) : option (string * Z * string) * G :=
  if bool_decide (sc_NatMethod cfg = "holepunch") then (None, g)
  else
    let proto := upnp_proto (Protocol (sc_proxy cfg)) (Transport (sc_proxy cfg)) in
    match ext (nat_TryPortMapping (sc_ListenPort cfg) (sc_ListenPort cfg) proto
                 (PortMap.mkUPnPOptions (sc_UpnpLeaseDuration cfg) (sc_UpnpRetries cfg) (sc_SsdpTimeout cfg * second))) g with
    | (Ok (ip, port, method), g) => (if bool_decide (method = EmptyString) then None else Some (ip, port, method), g)
    | (Err _, g) => (None, g)
    end.

(** The assignments at the end of both paths. *)
Definition set_started (info : option connectionInfo) (method : string) (g : G) : G :=
  on_sv (fun s => set_serverStartTime (Some (now g)) (set_serverRunning true (set_serverMethod method (set_serverInfo info s)))) g.

Definition start_mapped (cfg : serverConfig) (uuid ip : string) (port : Z) (method : string) : Prog G started_code :=
  fun g =>
    let proxy := buildProxySettingsJSON cfg in
    match start_xray (BuildServerConfig "0.0.0.0" (sc_ListenPort cfg) uuid proxy) g with
    | (Err e, g) => (Err (EWrap "start xray" e), g)
    | (Ok _, g) =>
        let info := mapped_info ip port uuid method proxy cfg in
        (Ok (Mapped (encode_info info) (GenerateVLESSLink uuid ip port proxy "natproxy")), set_started (Some info) method g)
    end.

Definition group_args (cfg : serverConfig) (npc : Z) (key : bytes) (relay sid : string) : groupArgs :=
  mkGroupArgs npc (ice_servers (sc_StunServer cfg)) key relay sid (server_options cfg key).

Definition start_punched (cfg : serverConfig) : Prog G (started_code * (loopArgs * nat * list string)) :=
  let* key := nwrap "generate obfs key" (ext (env_random 32)) in
  let* sid := ext generateUUID in
  let relay := if sc_UseRelay cfg then relay_addr ip_literal (sc_SignalingURL cfg) else EmptyString in
  let a := group_args cfg (positive_or_one (sc_NumPeerConnections cfg)) key relay sid in
  let* grp := nwrap "start WebRTC server group" (startServerGroupWithSrflx a) in
  fun g =>
    match ext (sig_PostSDPOffers (sc_SignalingURL cfg) sid grp.2) g with
    | (Err e, g) => (Err (EWrap "post SDP offers" e), stop_sg grp.1 g)
    | (Ok _, g) =>
        let '(ctx, g) := WithCancel g in
        let g := on_sv (fun s => set_serverCancel (Some ctx) (set_activeWebRTCServerGroup (Some grp.1) s)) g in
        let info := holepunch_info cfg sid relay key in
        (Ok (Punched (encode_info info), (mkLoop ctx (sc_SignalingURL cfg) a, grp.1, grp.2)), set_started (Some info) "holepunch" g)
    end.

(** The result carries the group and offers of the accept loop, if one is to
    be started. *)
Definition start_server (settingsJSON : string) : Prog G (started_code * option (loopArgs * nat * list string)) :=
  fun g =>
    if serverRunning (sv g) then (Err (EMsg "server already running" []), g)
    else
      match read_settings server_settings settingsJSON defaultServerConfig with
      | Err e => (Err e, g)
      | Ok cfg =>
          match normalize_server ip_literal cfg with
          | Err e => (Err e, g)
          | Ok cfg =>
              let '(uuid, g) := if bool_decide (sc_UUID cfg = EmptyString) then ext generateUUID g else (Ok (sc_UUID cfg), g) in
              match uuid with
              | Err e => (Err e, g)
              | Ok uuid =>
                  match try_mapping cfg g with
                  | (Some (ip, port, method), g) =>
                      (let* code := start_mapped cfg uuid ip port method in nret (code, None)) g
                  | (None, g) =>
                      if bool_decide (sc_NatMethod cfg = "upnp") then
                        (Err (EMsg "NAT traversal failed: port mapping mode selected but all methods failed" []), g)
                      else
                        match start_punched cfg g with
                        | (Err e, g) => (Err e, g)
                        | (Ok (code, lp), g) => (Ok (code, Some lp), g)
                        end
                  end
              end
          end
      end.

(** ** The accept loop *)

(** [wrtcGroup], [prevWrtcGroup], [currentOffers] and [stunStop]. *)
Record loopst := mkLoopSt { al_group : nat; al_prev : option nat; al_offers : list string; al_stun : option nat }.

Definition StartSTUNKeepalive (grp : nat) (g : G) : option nat * G :=
  if sg_GetRawConn grp (env g) then let '(c, g) := make_chan StunCh g in (Some c, g) else (None, g).

Definition cleanupDrainingServerGroups (g : G) : G :=
  let gs := drainingWebRTCServerGroups (sv g) in
  let alive := filter (fun i => sg_IsAlive i (env g) = true) gs in
  let dead := filter (fun i => sg_IsAlive i (env g) = false) gs in
  foldl (fun g i => stop_sg i g) (on_sv (set_drainingWebRTCServerGroups alive) g) dead.

(** The deferred function. *)
Definition accept_exit (l : loopst) : prog G (loopst + unit) :=
  do _ := modify (fun g => when_some (al_prev l) stop_sg (when_some (al_stun l) (close_chan StunCh) g)) in Ret (inr tt).

Definition is_running : prog G bool := reads (fun g => serverRunning (sv g)).

(** Waiting for the first of the groups that accepted the answers: [None]
    when all of them failed.  Which result arrives first is up to the
    environment. *)
Definition race (timeout : Z) (groups : list nat) : prog G (option nat) :=
  let wait (i : nat) (k : prog G (option nat)) : prog G (option nat) :=
    do r := call (sg_WaitConnected i timeout) in
    match r with Ok _ => Ret (Some i) | Err _ => k end in
  match groups with
  | [] => Ret None
  | [i] => wait i (Ret None)
  | i :: j :: _ =>
      do first := atom (fun g => let '(b, e) := env_choose (env g) in (b, on_env (fun _ => e) g)) in
      if first : bool then wait i (wait j (Ret None)) else wait j (wait i (Ret None))
  end.

Definition ok_unit (r : res goerr unit) : bool := is_ok r.

Section accept.
Variable p : loopArgs.
Let url : string := lp_url p.
Let sid : string := ga_session (lp_group p).

(** Swapping in the group for the next client. *)
Definition swap_group (old new : nat) (g : G) : G :=
  let g := if sg_IsAlive old (env g)
           then on_sv (fun s => set_drainingWebRTCServerGroups (drainingWebRTCServerGroups s ++ [old]) s) g
           else stop_sg old g in
  on_sv (set_activeWebRTCServerGroup (Some new)) g.

(** The group for the next client, from the check of [serverRunning] on. *)
Definition next_client (l : loopst) : prog G (loopst + unit) :=
  do running := is_running in
  if negb running then accept_exit l
  else
    do _ := modify (when_some (al_stun l) (close_chan StunCh)) in
    let l := mkLoopSt (al_group l) (al_prev l) (al_offers l) None in
    do r := atom (startServerGroupWithSrflx (lp_group p)) in
    match r with
    | Err _ => do _ := modify (on_env (env_sleep (2 * second))) in Ret (inl l)
    | Ok (new, offers) =>
        do _ := call (sig_PostSDPAnswers url sid None) in
        do posted := call (sig_PostSDPOffers url sid offers) in
        match posted with
        | Err _ =>
            do _ := modify (fun g => on_env (env_sleep (2 * second)) (stop_sg new g)) in Ret (inl l)
        | Ok _ =>
            do _ := modify (swap_group (al_group l) new) in
            do stun := atom (StartSTUNKeepalive new) in
            do _ := modify cleanupDrainingServerGroups in
            Ret (inl (mkLoopSt new (al_prev l) offers stun))
        end
    end.

Definition connect_client (l : loopst) (answers : list string) : prog G (loopst + unit) :=
  do _ := call (sig_PostSDPAnswers url sid None) in
  do curr := call (sg_AcceptAnswers (al_group l) answers) in
  do prev := match al_prev l with
             | Some j => do r := call (sg_AcceptAnswers j answers) in Ret (if ok_unit r then Some j else None)
             | None => Ret None
             end in
  if negb (ok_unit curr) && negb (Url.is_some prev) then Ret (inl l)
  else
    let groups := (if ok_unit curr then [al_group l] else []) ++ match prev with Some j => [j] | None => [] end in
    do winner := race (connect_timeout (ga_npc (lp_group p))) groups in
    match winner with
    | Some w =>
        do _ := modify (on_sv (fun s => set_totalPeersEver (totalPeersEver s + 1) s)) in
        do _ := modify (fun g => foldl (fun g i => if decide (i = w) then g else stop_sg i g) g groups) in
        do _ := modify (if decide (w = al_group l) then (fun g => g) else on_sv (set_activeWebRTCServerGroup (Some w))) in
        next_client (mkLoopSt w None (al_offers l) (al_stun l))
    | None =>
        do _ := modify (when_some (al_prev l) stop_sg) in
        next_client (mkLoopSt (al_group l) None (al_offers l) (al_stun l))
    end.

(** One turn of the loop. *)
Definition accept_turn (l : loopst) : prog G (loopst + unit) :=
  do stop := reads (cancelled (lp_ctx p)) in
  if stop : bool then accept_exit l
  else
    do running := is_running in
    if negb running then accept_exit l
    else
      do r := call (sig_WaitSDPAnswersSSE url sid) in
      do r := match r with Ok a => Ret (Ok a) | Err _ => call (sig_pollForSDPAnswers url sid) end in
      match r with
      | Ok answers => connect_client l answers
      | Err _ =>
          do running := is_running in
          if negb running then accept_exit l
          else
            do _ := call (sig_PostSDPOffers url sid (al_offers l)) in
            do _ := modify cleanupDrainingServerGroups in
            Ret (inl l)
      end.

Definition accept_loop (grp : nat) (offers : list string) : prog G unit :=
  do stun := atom (StartSTUNKeepalive grp) in
  loop accept_turn (mkLoopSt grp None offers stun).

End accept.

Definition StartServer (settingsJSON : string) : prog G (res goerr started_code) :=
  do r := atom (start_server settingsJSON) in
  match r with
  | Ok (code, Some (lp, grp, offers)) => do _ := go (accept_loop lp grp offers) in Ret (Ok code)
  | Ok (code, None) => Ret (Ok code)
  | Err e => Ret (Err e)
  end.

(** ** Stopping *)

Definition stop_listing (g : G) : G :=
  if bool_decide (discoveryListingID (sv g) = EmptyString) then g
  else
    let g := match heartbeatStop (sv g) with
             | Some c => on_sv (set_heartbeatStop None) (close_chan BeatCh c g)
             | None => g
             end in
    let '(_, g) := ext (sig_DeregisterServer (discoverySignalingURL (sv g)) (discoveryListingID (sv g))) g in
    on_sv (fun s => set_discoverySignalingURL "" (set_discoveryListingID "" s)) g.

Definition stop_groups (g : G) : G :=
  let g := match activeWebRTCServerGroup (sv g) with
           | Some i => on_sv (set_activeWebRTCServerGroup None) (stop_sg i g)
           | None => g
           end in
  on_sv (set_drainingWebRTCServerGroups []) (foldl (fun g i => stop_sg i g) g (drainingWebRTCServerGroups (sv g))).

Definition remove_mapping (g : G) : G :=
  match serverInfo (sv g) with
  | Some info =>
      if bool_decide (ci_Method info = "upnp") then
        on_env (nat_RemoveUPnPMapping (ci_Port info) (upnp_proto (ci_Protocol info) (ci_Transport info))) g
      else g
  | None => g
  end.

Definition close_keepalive (g : G) : G :=
  match stunKeepaliveDone (sv g) with
  | Some c => on_sv (set_stunKeepaliveDone None) (close_chan StunCh c g)
  | None => g
  end.

Definition server_stopped (s : serverst) : serverst :=
  set_serverRateTracker rate_reset (set_totalPeersEver 0 (set_serverStartTime None (set_serverMethod ""
    (set_serverInfo None (set_serverRunning false (set_manualOfferCode "" (set_manualMode false s))))))).

Definition stop_server (g : G) : res goerr unit * G :=
  if negb (serverRunning (sv g)) then (Ok tt, g)
  else
    let g := stop_listing g in
    let g := match serverCancel (sv g) with
             | Some c => on_sv (set_serverCancel None) (cancel c g)
             | None => g
             end in
    let '(r, g) :=
      if bool_decide (serverMethod (sv g) = "holepunch") then (Ok tt, stop_groups g)
      else match stop_xray g with
           | (Err e, g) => (Err (EWrap "stop xray" e), g)
           | (Ok _, g) => (Ok tt, on_seen ResetClientTracker (remove_mapping g))
           end in
    match r with
    | Err e => (Err e, g)
    | Ok _ => (Ok tt, on_sv server_stopped (close_keepalive g))
    end.

Definition StopServer : prog G (res goerr unit) := atom stop_server.

(** ** Manual signalling *)

Definition start_manual (settingsJSON : string) : Prog G string :=
  fun g =>
    if serverRunning (sv g) then (Err (EMsg "server already running" []), g)
    else
      match read_settings server_settings settingsJSON defaultManualConfig with
      | Err e => (Err e, g)
      | Ok cfg =>
          (let* key := nwrap "generate obfs key" (ext (env_random 32)) in
           let* sid := ext generateUUID in
           let relay := if sc_UseRelay cfg then relay_addr ip_literal (sc_SignalingURL cfg) else EmptyString in
           let* grp := nwrap "start WebRTC server group" (startServerGroupWithSrflx (group_args cfg 1 key relay sid)) in
           fun g =>
             match grp.2 with
             | [] => (Err (EMsg "index out of range" []), panic g)
             | sdp :: _ =>
                 match CompressSDP sdp with
                 | Err e => (Err (EWrap "compress SDP" e), stop_sg grp.1 g)
                 | Ok compressed =>
                     match EncodeManualOffer (manual_offer cfg sid relay key compressed) with
                     | Err e => (Err (EWrap "encode manual offer" e), stop_sg grp.1 g)
                     | Ok code =>
                         let '(stun, g) := StartSTUNKeepalive grp.1 g in
                         let g := match stun with Some c => on_sv (set_stunKeepaliveDone (Some c)) g | None => g end in
                         let g := on_sv (fun s => set_serverStartTime (Some (now g)) (set_serverRunning true
                                    (set_manualOfferCode code (set_manualMode true (set_serverMethod "holepunch"
                                       (set_activeWebRTCServerGroup (Some grp.1) s)))))) g in
                         (Ok code, g)
                     end
                 end
             end) g
      end.

Definition StartServerManual (settingsJSON : string) : prog G (res goerr string) := atom (start_manual settingsJSON).

Definition AcceptManualAnswer (answerCode : string) : prog G (res goerr unit) :=
  do grp := reads (fun g => if serverRunning (sv g) && manualMode (sv g) then activeWebRTCServerGroup (sv g) else None) in
  match grp with
  | None => Ret (Err (EMsg "no manual server running" []))
  | Some i =>
      match DecodeManualAnswer (TrimSpace answerCode) with
      | Err e => Ret (Err (EWrap "decode manual answer" e))
      | Ok answer =>
          match DecompressSDP (ma_CompressedSDP answer) with
          | Err e => Ret (Err (EWrap "decompress SDP" e))
          | Ok sdp =>
              do r := call (sg_AcceptAnswers i [sdp]) in
              match r with
              | Err e => Ret (Err (EWrap "accept SDP answer" e))
              | Ok _ =>
                  do _ := modify close_keepalive in
                  do r := call (sg_WaitConnected i (120 * second)) in
                  match r with
                  | Err e => Ret (Err (EWrap "WebRTC connection" e))
                  | Ok _ =>
                      do _ := modify (on_sv (fun s => set_totalPeersEver (totalPeersEver s + 1) s)) in
                      Ret (Ok tt)
                  end
              end
          end
      end
  end.

Definition GetManualOfferCode : prog G string := reads (fun g => manualOfferCode (sv g)).

(** ** Discovery *)

(** What [Register] and [Unregister] take out of the variables. *)
Definition take_listing (g : G) : (string * string * option nat) * G :=
  ((discoveryListingID (sv g), discoverySignalingURL (sv g), heartbeatStop (sv g)),
   on_sv (fun s => set_heartbeatStop None (set_discoverySignalingURL "" (set_discoveryListingID "" s))) g).

(** A new listing and the channel that stops its heartbeat. *)
Definition new_listing (url id : string) (g : G) : nat * G :=
  let '(c, g) := make_chan BeatCh g in
  (c, on_sv (fun s => set_heartbeatStop (Some c) (set_discoverySignalingURL url (set_discoveryListingID id s))) g).

(** One tick of the heartbeat; [fields] is what the server registers with. *)
Definition heartbeat_turn (stop : nat) (url : string) (fields : list string) (id : string) : prog G (string + unit) :=
  do tick := atom (fun g => let '(b, e) := env_choose (env g) in
                            (b || is_open BeatCh stop g, on_env (fun _ => e) g)) in
  if negb tick then Ret (inr tt)
  else
    do r := call (sig_HeartbeatServer url id) in
    match r with
    | Ok false =>
        do r := call (sig_RegisterServer url fields) in
        match r with
        | Err _ => Ret (inl id)
        | Ok new => do _ := modify (on_sv (set_discoveryListingID new)) in Ret (inl new)
        end
    | _ => Ret (inl id)
    end.

Record discoveryConfig := mkDisc { dc_SignalingURL : string; dc_DiscoveryURL : string; dc_DisplayName : string; dc_Room : string }.

Definition discovery_url (c : discoveryConfig) : string :=
  let sig := if bool_decide (dc_SignalingURL c = EmptyString) then defaultSignalingURL else dc_SignalingURL c in
  if bool_decide (dc_DiscoveryURL c = EmptyString) then sig else dc_DiscoveryURL c.

(** [settings] is the parsed JSON, [None] when it cannot be parsed. *)
Definition RegisterServerDiscovery (connectionCode : string) (settings : option discoveryConfig) : prog G (res goerr string) :=
  match settings with
  | None => Ret (Err (EMsg "parse settings" []))
  | Some c =>
      let url := discovery_url c in
      do old := atom take_listing in
      let '(oldID, oldURL, oldStop) := old in
      do _ := modify (when_some oldStop (close_chan BeatCh)) in
      do _ := (if bool_decide (oldID = EmptyString) then Ret (Ok tt) else call (sig_DeregisterServer oldURL oldID)) in
      do info := reads (fun g => match serverInfo (sv g) with
                                 | Some i => [ci_Method i; ci_Transport i; ci_Protocol i]
                                 | None => [""; ""; ""]
                                 end) in
      let fields := [dc_DisplayName c; dc_Room c; connectionCode] ++ info in
      do r := call (sig_RegisterServer url fields) in
      match r with
      | Err e => Ret (Err e)
      | Ok id =>
          do stop := atom (new_listing url id) in
          do _ := go (loop (heartbeat_turn stop url fields) id) in
          Ret (Ok id)
      end
  end.

Definition UnregisterServerDiscovery : prog G (res goerr unit) :=
  do old := atom take_listing in
  let '(id, url, stop) := old in
  do _ := modify (when_some stop (close_chan BeatCh)) in
  if bool_decide (id = EmptyString) then Ret (Ok tt) else call (sig_DeregisterServer url id).

(** ** Status *)

Record serverStatus := mkServerStatus {
  ss_running : bool; ss_clients : Z; ss_upnp : bool; ss_publicIP : string; ss_protocol : string; ss_transport : string;
  ss_totalPeers : Z; ss_bytesUp : Z; ss_bytesDown : Z; ss_rates : QArith_base.Q * QArith_base.Q; ss_uptime : Z;
  ss_channels : Z; ss_conns : Z; ss_dist : list Z; ss_usage : Z * Z * Z; ss_code : string; ss_vless : string;
  ss_manual : bool; ss_offer : string }.

Definition add_usage (a b : Z * Z * Z) : Z * Z * Z := (a.1.1 + b.1.1, a.1.2 + b.1.2, a.2 + b.2).

Definition server_status (g : G) : serverStatus * G :=
  let s := sv g in
  let punched := bool_decide (serverMethod s = "holepunch") in
  let act := if punched then match activeWebRTCServerGroup s with Some i => [sg_stats i (env g)] | None => [] end else [] in
  let all := if punched then act ++ ((fun i => sg_stats i (env g)) <$> drainingWebRTCServerGroups s) else [] in
  let '(tracked, t) := if punched then (0, seen g) else GetClientCount (now g) (seen g) in
  let sum (f : groupStats -> Z) := foldl (fun n x => n + f x) 0 all in
  let up := sum st_up in
  let down := sum st_down in
  let '(ru, rd, rt) := rate_update (now g) up down (serverRateTracker s) in
  let info := serverInfo s in
  let field (f : connectionInfo -> string) := match info with Some i => f i | None => EmptyString end in
  (mkServerStatus (serverRunning s) (sum st_clients + tracked)
     (match info with Some i => bool_decide (ci_Method i = "upnp") | None => false end)
     (field ci_PublicIP) (field ci_Protocol) (field ci_Transport) (totalPeersEver s) up down (ru, rd)
     (if serverRunning s then match serverStartTime s with Some t0 => now g - t0 | None => 0 end else 0)
     (match act with x :: _ => st_channels x | [] => 0 end) (match act with x :: _ => st_count x | [] => 0 end)
     (match act with x :: _ => st_dist x | [] => [] end)
     (foldl (fun u x => add_usage u (st_usage x)) (0, 0, 0) all)
     (match info with Some i => encode_info i | None => EmptyString end)
     (match info with Some i => GenerateVLESSLink (ci_UUID i) (ci_PublicIP i) (ci_Port i) (ci_ProxySettings i) "natproxy"
                    | None => EmptyString end)
     (manualMode s) (if manualMode s then manualOfferCode s else EmptyString),
   on_seen (fun _ => t) (on_sv (set_serverRateTracker rt) g)).

Definition GetServerStatus : prog G serverStatus := atom server_status.

(** What can come in. *)
Inductive server_entry : prog G unit -> Prop :=
| ent_server settings : server_entry (ignore (StartServer settings))
| ent_manual settings : server_entry (ignore (StartServerManual settings))
| ent_answer code : server_entry (ignore (AcceptManualAnswer code))
| ent_code : server_entry (ignore GetManualOfferCode)
| ent_register code settings : server_entry (ignore (RegisterServerDiscovery code settings))
| ent_unregister : server_entry (ignore UnregisterServerDiscovery)
| ent_stop_server : server_entry (ignore StopServer)
| ent_server_status : server_entry (ignore GetServerStatus).

End server.
End ApiServer.
