(* ===== verification/ApiClient.v ===== *)
(** * The client side of the public API

    [StartClient], [ConnectWebRTC] with [StartTunnel], the manual functions,
    [StopClient], and the goroutines of a connection: the health monitor and
    the fast reconnect that a failed ICE connection triggers.  The slow calls
    run without the mutex, so other calls can come in between; a stretch of
    code under the mutex is one atomic step, and so is a read or a group of
    assignments outside it. *)

From S2P Require Import Prelude IO GoStr Codes Url Xray Peer Api Threads ApiState.

Open Scope Z_scope.

Module ApiClient.

Import Xray Api ApiState.

Section client.
Context {I E : Type} `{AE : ApiEnv E} `{XC : XrayCore I E} `{AJ : ApiJson} `{FL : Flate}.
Variable ip_literal : string -> option string.

Abbreviation G := (api I E).

Definition cancelled_err : goerr := EMsg "connection cancelled" [].

(** A step of the environment that also answers. *)
Definition choose {A} (f : E -> A * E) : prog G A :=
  atom (fun g => let '(a, e) := f (env g) in (a, on_env (fun _ => e) g)).

(** ** Stopping *)

Definition cancel_connect (g : G) : G :=
  match clientConnectCancel (cl g) with
  | Some c => on_cl (set_clientConnectCancel None) (cancel c g)
  | None => g
  end.

Definition stop_pending (g : G) : G :=
  match pendingWebRTCClientGroup (cl g) with
  | Some i => on_cl (set_pendingWebRTCClientGroup None) (stop_cg i g)
  | None => g
  end.

Definition cancel_connecting (g : G) : G :=
  if clientConnecting (cl g) then stop_pending (cancel_connect (on_cl (set_clientConnecting false) g)) else g.

Definition signal_done (g : G) : G :=
  match clientDoneCh (cl g) with
  | Some c =>
      on_cl (set_clientDoneCh None) (if is_open DoneCh c g then close_chan DoneCh c g else g)
  | None => g
  end.

Definition stop_tunnel (g : G) : G :=
  match activeTunnel (cl g) with
  | Some i => on_cl (set_activeTunnel None) (stop_tun i g)
  | None => g
  end.

Definition client_stopped (c : clientst) : clientst :=
  set_clientRateTracker rate_reset (set_clientStartTime None (set_clientSocksPort 0 (set_clientRunning false c))).

Definition stop_engine (g : G) : res goerr unit * G :=
  match activeWebRTCClientGroup (cl g) with
  | Some i => (Ok tt, on_cl (set_activeWebRTCClientGroup None) (stop_cg i g))
  | None => match stop_xray g with
            | (Err e, g) => (Err (EWrap "stop xray" e), g)
            | (Ok _, g) => (Ok tt, g)
            end
  end.

Definition stop_client (g : G) : res goerr unit * G :=
  let g := cancel_connecting g in
  if negb (clientRunning (cl g)) then (Ok tt, g)
  else
    let g := on_rs (set_callbacks 0) (stop_tunnel (signal_done g)) in
    match stop_engine g with
    | (Err e, g) => (Err e, g)
    | (Ok _, g) =>
        let g := cancel_connect (on_cl client_stopped g) in
        (Ok tt, on_cl (fun c => set_reconnectCount 0 (set_savedProtectFn false c)) g)
    end.

Definition StopClient : prog G (res goerr unit) := atom stop_client.

(** ** Beginning and giving up *)

(** The guard of every entry point: the new context, [None] when a client is
    running or connecting. *)
Definition begin_connect (g : G) : option nat * G :=
  if clientRunning (cl g) || clientConnecting (cl g) then (None, g)
  else
    let '(ctx, g) := WithCancel g in
    (Some ctx, on_cl (fun c => set_clientConnectCancel (Some ctx) (set_clientConnectCtx (Some ctx) (set_clientConnecting true c))) g).

(** The deferred functions of [StartClient], and of [ConnectWebRTC] and
    [ProcessManualOffer]. *)
Definition abort_start (g : G) : G := cancel_connect (on_cl (set_clientConnecting false) g).
Definition abort_connect (g : G) : G := cancel_connect (stop_pending (on_cl (set_clientConnecting false) g)).

Definition already_running : goerr := EMsg "client already running" [].

Definition guarded {A} (abort : G -> G) (body : nat -> prog G (res goerr A)) : prog G (res goerr A) :=
  do c := atom begin_connect in
  match c with
  | None => Ret (Err already_running)
  | Some ctx =>
      do r := body ctx in
      match r with
      | Ok a => Ret (Ok a)
      | Err e => do _ := modify abort in Ret (Err e)
      end
  end.

(** ** Negotiation

    The code that [ConnectWebRTC] and [startClientWebRTC] have in common;
    [protected] says whether sockets are protected from the tunnel. *)

(** A context that is [nil] is never cancelled; using it panics in Go, but
    entry points set it before it is read. *)
Definition ctx_cancelled (ctx : option nat) (g : G) : bool := match ctx with Some c => cancelled c g | None => false end.

(** Emptying the channel of new offers: the last one. *)
Definition drain (latest : option (list string)) : prog G (option (list string) + option (list string)) :=
  do p := choose sig_poll_offers in
  Ret (match p with Newer l => inl (Some l) | _ => inr latest end).

Definition start_group (info : connectionInfo) (opts : Peer.ClientOptions) (ice : list string) (protected : bool)
    (offers : list string) : Prog G (nat * list string) :=
  started add_cg (cg_Start (positive_or_one (ci_NumPeerConns info)) offers ice protected
                    (hex_DecodeString (ci_ObfsKey info)) (ci_RelayAddr info) (ci_SessionID info) opts).

(** One turn of the loop that starts again when the server refreshes its
    offers; [stream] says whether new offers can arrive. *)
Definition refresh_turn (ctx : option nat) (info : connectionInfo) (cfg : clientConfig) (protected stream : bool)
    (offers : list string) : prog G (list string + res goerr (nat * list string)) :=
  do r := atom (start_group info (client_options info cfg) (ice_servers (cc_StunServer cfg)) protected offers) in
  match r with
  | Err e => Ret (inr (Err (EWrap "start WebRTC client group" e)))
  | Ok (grp, answers) =>
      do c := reads (ctx_cancelled ctx) in
      if c : bool then do _ := modify (stop_cg grp) in Ret (inr (Err cancelled_err))
      else if stream then
        do latest := loop drain None in
        match latest with
        | Some offers => do _ := modify (stop_cg grp) in Ret (inl offers)
        | None => Ret (inr (Ok (grp, answers)))
        end
      else Ret (inr (Ok (grp, answers)))
  end.

Definition negotiate (ctx : option nat) (info : connectionInfo) (cfg : clientConfig) (protected : bool)
    : prog G (res goerr nat) :=
  let url := cc_SignalingURL cfg in
  let sid := ci_SessionID info in
  do sse := call (sig_StreamSDPOffers url sid) in
  do offers := match sse with
               | Err _ => call (sig_GetSDPOffersCtx url sid)
               | Ok _ => do o := choose sig_recv_offers in
                         match o with Some l => Ret (Ok l) | None => call (sig_GetSDPOffersCtx url sid) end
               end in
  match offers with
  | Err e => Ret (Err (EWrap "get SDP offers" e))
  | Ok offers =>
      do c := reads (ctx_cancelled ctx) in
      if c : bool then Ret (Err cancelled_err)
      else
        do r := loop (refresh_turn ctx info cfg protected (is_ok sse)) offers in
        match r with
        | Err e => Ret (Err e)
        | Ok (grp, answers) =>
            do posted := call (sig_PostSDPAnswersCtx url sid answers) in
            match posted with
            | Err e => do _ := modify (stop_cg grp) in Ret (Err (EWrap "post SDP answers" e))
            | Ok _ =>
                do w := call (cg_WaitConnected grp (connect_timeout (positive_or_one (ci_NumPeerConns info)))) in
                match w with
                | Err e => do _ := modify (stop_cg grp) in Ret (Err (EWrap "WebRTC connection" e))
                | Ok _ => Ret (Ok grp)
                end
            end
        end
  end.

Definition save (info : connectionInfo) (cfg : clientConfig) (opts : Peer.ClientOptions) (c : clientst) : clientst :=
  set_savedClientOpts opts (set_savedICEServers (ice_servers (cc_StunServer cfg)) (set_savedClientCfg cfg
    (set_savedConnInfo info c))).

(** The assignments that make the client running. *)
Definition set_running (tun : nat) (g : G) : G :=
  let t := now g in
  let '(ch, g) := make_chan DoneCh g in
  on_cl (fun c => set_clientDoneCh (Some ch) (set_clientStartTime (Some t) (set_clientRunning true
    (set_clientConnecting false (set_activeTunnel (Some tun) c))))) g.

Definition tunnel_args (fd : Z) (socks : string) (direct : bool) (cfg : clientConfig) (dial : option nat) : tunnelArgs :=
  mkTunArgs fd socks (cc_TunAddress cfg) (cc_MTU cfg) (cc_DNS1 cfg) (cc_DNS2 cfg) direct dial.

Definition wire (grp : nat) (g : G) : G := on_rs (fun r => set_wired ({[grp]} ∪ wired r) r) g.
Definition add_callback (g : G) : G := on_rs (fun r => set_callbacks (S (callbacks r)) r) g.

(** ** The health monitor *)

(** One tick; a [nil] channel never becomes ready. *)
Definition monitor_turn (doneCh : option nat) (grp : nat) : prog G (nat + unit) :=
  do tick := atom (fun g => let '(b, e) := env_choose (env g) in
      (b || match doneCh with Some c => is_open DoneCh c g | None => true end, on_env (fun _ => e) g)) in
  if negb tick then Ret (inr tt)
  else
    do alive := ask (cg_IsAlive grp) in
    if negb alive then Ret (inl grp)
    else
      do grp := atom (fun g => (default grp (activeWebRTCClientGroup (cl g)), on_cl (set_reconnectCount 0) g)) in
      Ret (inl grp).

Definition monitorClientHealth (grp : nat) (doneCh : option nat) : prog G unit := loop (monitor_turn doneCh) grp.

(** What is left after the client became running with a group: the callback
    for ICE failures, the monitor, and the callback for network changes. *)
Definition after_running (grp : nat) : prog G (res goerr unit) :=
  do _ := modify (wire grp) in
  do ch := reads (fun g => clientDoneCh (cl g)) in
  do _ := go (monitorClientHealth grp ch) in
  do _ := modify add_callback in
  Ret (Ok tt).

(** ** StartClient *)

Definition start_client_webrtc (ctx : option nat) (info : connectionInfo) (cfg : clientConfig) (fd : Z) : prog G (res goerr unit) :=
  do r := negotiate ctx info cfg true in
  match r with
  | Err e => Ret (Err e)
  | Ok grp =>
      do t := atom (started (add_tun (Some grp)) (tun_Start (tunnel_args fd "" (cc_AllowDirectDNS cfg) cfg (Some grp)))) in
      match t with
      | Err e => do _ := modify (stop_cg grp) in Ret (Err (EWrap "start tunnel" e))
      | Ok (tun, _) =>
          do _ := modify (on_cl (fun c => set_savedProtectFn true (save info cfg (client_options info cfg) c))) in
          do ok := atom (fun g => if ctx_cancelled ctx g then (false, g)
                                  else (true, on_cl (set_activeWebRTCClientGroup (Some grp)) (set_running tun g))) in
          if negb ok then do _ := modify (fun g => stop_cg grp (stop_tun tun g)) in Ret (Err cancelled_err)
          else after_running grp
      end
  end.

Definition start_client_xray (info : connectionInfo) (cfg : clientConfig) (fd : Z) : prog G (res goerr unit) :=
  do connecting := reads (fun g => clientConnecting (cl g)) in
  if negb connecting then Ret (Err cancelled_err)
  else
    do _ := modify (on_env xray_RegisterProtectFunc) in
    do x := atom (start_xray (BuildClientConfig (ci_PublicIP info) (ci_Port info) (ci_UUID info) (cc_SocksPort cfg)
                                (ci_ProxySettings info))) in
    match x with
    | Err e => Ret (Err (EWrap "start xray" e))
    | Ok _ =>
        let socks := String.append "127.0.0.1:" (itoa (cc_SocksPort cfg)) in
        do t := atom (started (add_tun None) (tun_Start (tunnel_args fd socks (cc_AllowDirectDNS cfg) cfg None))) in
        match t with
        | Err e => do _ := atom stop_xray in Ret (Err (EWrap "start tunnel" e))
        | Ok (tun, _) =>
            do ok := atom (fun g => if negb (clientConnecting (cl g)) then (false, g)
                                    else (true, on_cl (set_clientSocksPort (cc_SocksPort cfg)) (set_running tun g))) in
            if negb ok then
              do _ := modify (stop_tun tun) in
              do _ := atom stop_xray in
              Ret (Err cancelled_err)
            else Ret (Ok tt)
        end
    end.

Definition is_holepunch (info : connectionInfo) : bool :=
  bool_decide (ci_Method info = "holepunch") && bool_decide (ci_Transport info = "webrtc") &&
  negb (bool_decide (ci_SessionID info = EmptyString)).

Definition StartClient (code settingsJSON : string) (fd : Z) : prog G (res goerr unit) :=
  guarded abort_start (fun _ =>
    match read_settings client_settings settingsJSON defaultClientConfig with
    | Err e => Ret (Err e)
    | Ok cfg =>
        match normalize_client ip_literal cfg with
        | Err e => Ret (Err e)
        | Ok cfg =>
            match decode_info code with
            | Err e => Ret (Err e)
            | Ok info =>
                if is_holepunch info then
                  do ctx := reads (fun g => clientConnectCtx (cl g)) in
                  start_client_webrtc ctx info cfg fd
                else start_client_xray info cfg fd
            end
        end
    end).

(** ** ConnectWebRTC and StartTunnel *)

Definition set_pending (grp : nat) (info : connectionInfo) (cfg : clientConfig) (opts : Peer.ClientOptions) (g : G) : G :=
  on_cl (fun c => save info cfg opts (set_pendingWebRTCClientGroup (Some grp) c)) g.

Definition ConnectWebRTC (code settingsJSON : string) : prog G (res goerr unit) :=
  guarded abort_connect (fun ctx =>
    match read_settings client_settings settingsJSON defaultClientConfig with
    | Err e => Ret (Err e)
    | Ok cfg =>
        match decode_info code with
        | Err e => Ret (Err e)
        | Ok info =>
            if negb (is_holepunch info) then Ret (Err (EMsg "ConnectWebRTC only supports WebRTC holepunch connections" []))
            else
              do r := negotiate (Some ctx) info cfg false in
              match r with
              | Err e => Ret (Err e)
              | Ok grp => do _ := modify (set_pending grp info cfg (client_options info cfg)) in Ret (Ok tt)
              end
        end
    end).

(** Taking the pending group. *)
Definition take_pending (g : G) : option (nat * clientConfig) * G :=
  match clientConnecting (cl g), pendingWebRTCClientGroup (cl g) with
  | true, Some grp => (Some (grp, savedClientCfg (cl g)), on_cl (set_pendingWebRTCClientGroup None) g)
  | _, _ => (None, g)
  end.

Definition not_connecting (g : G) : G := on_cl (set_clientConnecting false) g.

Definition StartTunnel (fd : Z) : prog G (res goerr unit) :=
  do p := atom take_pending in
  match p with
  | None => Ret (Err (EMsg "no pending WebRTC connection (call ConnectWebRTC first)" []))
  | Some (grp, cfg) =>
      do r := call (cg_ProtectSockets grp) in
      match r with
      | Err e =>
          do _ := modify (stop_cg grp) in
          do _ := modify not_connecting in
          Ret (Err (EWrap "protect sockets" e))
      | Ok _ =>
          do t := atom (started (add_tun (Some grp)) (tun_Start (tunnel_args fd "" false cfg (Some grp)))) in
          match t with
          | Err e =>
              do _ := modify (stop_cg grp) in
              do _ := modify not_connecting in
              Ret (Err (EWrap "start tunnel" e))
          | Ok (tun, _) =>
              do _ := modify (on_cl (set_savedProtectFn true)) in
              do _ := modify (fun g => on_cl (set_activeWebRTCClientGroup (Some grp)) (set_running tun g)) in
              after_running grp
          end
      end
  end.

(** ** Manual signalling *)

Definition ProcessManualOffer (offerCode settingsJSON : string) : prog G (res goerr string) :=
  guarded abort_connect (fun _ =>
    match read_settings client_settings settingsJSON defaultClientConfig with
    | Err e => Ret (Err e)
    | Ok cfg =>
        match DecodeManualOffer (TrimSpace offerCode) with
        | Err e => Ret (Err (EWrap "decode manual offer" e))
        | Ok offer =>
            match DecompressSDP (mo_CompressedSDP offer) with
            | Err e => Ret (Err (EWrap "decompress SDP" e))
            | Ok sdp =>
                do sid := call generateUUID in
                let info := manual_info offer (match sid with Ok s => s | Err _ => EmptyString end) in
                let opts := manual_options offer cfg in
                do r := atom (start_group info opts (ice_servers (cc_StunServer cfg)) false [sdp]) in
                match r with
                | Err e => Ret (Err (EWrap "start WebRTC client group" e))
                | Ok (grp, answers) =>
                    match answers with
                    | [] => do _ := modify panic in Ret (Err (EMsg "index out of range" []))
                    | answer :: _ =>
                        match CompressSDP answer with
                        | Err e => do _ := modify (stop_cg grp) in Ret (Err (EWrap "compress answer SDP" e))
                        | Ok compressed =>
                            match EncodeManualAnswer (mkManualAnswer 4 compressed) with
                            | Err e => do _ := modify (stop_cg grp) in Ret (Err (EWrap "encode manual answer" e))
                            | Ok code => do _ := modify (set_pending grp info cfg opts) in Ret (Ok code)
                            end
                        end
                    end
                end
            end
        end
    end).

Definition WaitManualConnection (timeoutSec : Z) : prog G (res goerr unit) :=
  do grp := reads (fun g => if clientConnecting (cl g) then pendingWebRTCClientGroup (cl g) else None) in
  match grp with
  | None => Ret (Err (EMsg "no pending manual connection" []))
  | Some grp =>
      do r := call (cg_WaitConnected grp (timeoutSec * second)) in
      match r with Err e => Ret (Err (EWrap "WebRTC connection" e)) | Ok _ => Ret (Ok tt) end
  end.

(** ** Fast reconnect *)

Record reconnectArgs := mkReconnect {
  ra_old : option nat; ra_info : connectionInfo; ra_cfg : clientConfig; ra_protect : bool; ra_ice : list string;
  ra_opts : Peer.ClientOptions }.

(** The first critical section: [None] when there is nothing to reconnect or
    the attempts are used up. *)
Definition begin_reconnect (g : G) : option reconnectArgs * G :=
  let c := cl g in
  if negb (clientRunning c) || (maxReconnects <=? reconnectCount c) then (None, g)
  else (Some (mkReconnect (activeWebRTCClientGroup c) (savedConnInfo c) (savedClientCfg c) (savedProtectFn c)
                (savedICEServers c) (savedClientOpts c)),
        on_cl (set_reconnectCount (reconnectCount c + 1)) g).

(** The hot swap: [false] when the client was stopped in between. *)
Definition swap_client (new : nat) (g : G) : bool * G :=
  match clientRunning (cl g), activeTunnel (cl g) with
  | true, Some tun =>
      (true, wire new (on_cl (set_activeWebRTCClientGroup (Some new))
               (on_rs (fun r => set_dials (<[tun := Some new]> (dials r)) r) g)))
  | _, _ => (false, g)
  end.

Definition stop_and_end : prog G unit := do _ := StopClient in Ret tt.

(** The signalling request of a reconnect dials through the saved callback,
    and calling a [nil] function panics. *)
Definition reconnect_offers (a : reconnectArgs) : prog G (res goerr (list string)) :=
  do dials := choose env_choose in
  if dials && negb (ra_protect a) then do _ := modify panic in Ret (Err (EMsg "nil function" []))
  else call (sig_GetSDPOffersCtx (cc_SignalingURL (ra_cfg a)) (ci_SessionID (ra_info a))).

Definition attemptFastReconnect : prog G unit :=
  do a := atom begin_reconnect in
  match a with
  | None =>
      do used := reads (fun g => maxReconnects <=? reconnectCount (cl g)) in
      if used : bool then stop_and_end else Ret tt
  | Some a =>
      let url := cc_SignalingURL (ra_cfg a) in
      let sid := ci_SessionID (ra_info a) in
      do offers := reconnect_offers a in
      match offers with
      | Err _ => stop_and_end
      | Ok offers =>
          do r := atom (start_group (ra_info a) (ra_opts a) (ra_ice a) (ra_protect a) offers) in
          match r with
          | Err _ => stop_and_end
          | Ok (new, answers) =>
              do posted := call (sig_PostSDPAnswersCtx url sid answers) in
              match posted with
              | Err _ => do _ := modify (stop_cg new) in stop_and_end
              | Ok _ =>
                  do w := call (cg_WaitConnected new (connect_timeout (positive_or_one (ci_NumPeerConns (ra_info a))))) in
                  match w with
                  | Err _ => do _ := modify (stop_cg new) in stop_and_end
                  | Ok _ =>
                      do ok := atom (swap_client new) in
                      if negb ok then modify (stop_cg new)
                      else modify (match ra_old a with Some old => stop_cg old | None => panic end)
                  end
              end
          end
      end
  end.

(** ** Waiting and status *)

(** [WaitClientDisconnect] waits for the channel that it finds. *)
Definition WaitClientDisconnect : prog G string :=
  do ch := reads (fun g => clientDoneCh (cl g)) in
  match ch with
  | None => Ret "not_connected"
  | Some c =>
      loop (fun _ : unit => do waiting := reads (is_open DoneCh c) in
                            Ret (if waiting : bool then inl tt else inr "disconnected")) tt
  end.

Record clientStatus := mkClientStatus {
  cs_connected : bool; cs_connecting : bool; cs_bytesUp : Z; cs_bytesDown : Z; cs_rates : QArith_base.Q * QArith_base.Q;
  cs_uptime : Z; cs_streams : Z; cs_channels : Z; cs_conns : Z }.

Definition client_status (g : G) : clientStatus * G :=
  let c := cl g in
  let '(up, down) := match activeTunnel c with Some i => tun_GetStats i (env g) | None => (0, 0) end in
  let '(ru, rd, rt) := rate_update (now g) up down (clientRateTracker c) in
  let '(streams, channels, conns) := match activeWebRTCClientGroup c with Some i => cg_stats i (env g) | None => (0, 0, 0) end in
  (mkClientStatus (clientRunning c) (clientConnecting c) up down (ru, rd)
     (if clientRunning c then match clientStartTime c with Some t => now g - t | None => 0 end else 0)
     streams channels conns,
   on_cl (set_clientRateTracker rt) g).

Definition GetClientStatus : prog G clientStatus := atom client_status.

(** The callback of a group whose ICE connection failed; [reconnectOnce] lets
    it through once. *)
Definition ice_failure (grp : nat) : prog G unit :=
  do first := atom (fun g => (bool_decide (grp ∈ wired (rs g)), on_rs (fun r => set_wired (wired r ∖ {[grp]}) r) g)) in
  if first : bool then attemptFastReconnect else Ret tt.

(** What can come in: a call of the application, or the failure of a group. *)
Inductive client_entry : prog G unit -> Prop :=
| ent_start code settings fd : client_entry (ignore (StartClient code settings fd))
| ent_connect code settings : client_entry (ignore (ConnectWebRTC code settings))
| ent_tunnel fd : client_entry (ignore (StartTunnel fd))
| ent_offer code settings : client_entry (ignore (ProcessManualOffer code settings))
| ent_wait secs : client_entry (ignore (WaitManualConnection secs))
| ent_stop : client_entry (ignore StopClient)
| ent_disconnect : client_entry (ignore WaitClientDisconnect)
| ent_status : client_entry (ignore GetClientStatus)
| ent_ice grp : client_entry (ice_failure grp).

End client.
End ApiClient.
