(* ===== verification/ApiSafety.v ===== *)
(** * What holds whatever calls come in

    The public functions may be called at any time and from any thread.  The
    invariant of the client variables here holds in every state that any
    interleaving of client and server calls, goroutines and ICE failures can
    reach. *)

From S2P Require Import Prelude IO GoStr Codes Url Xray Peer Api Threads ApiState ApiServer ApiClient.

Open Scope Z_scope.

Module ApiSafety.

Import Xray Api ApiState ApiServer ApiClient.

Create HintDb frame.

Section safety.
Context {I E : Type} `{AE : ApiEnv E} `{XC : XrayCore I E} `{AJ : ApiJson} `{FL : Flate}.
Variable ip_literal : string -> option string.

Abbreviation G := (api I E).

Record client_inv (g : G) : Prop := {
  inv_excl : clientRunning (cl g) = true -> clientConnecting (cl g) = false;
  inv_idle : clientRunning (cl g) = false ->
    activeTunnel (cl g) = None /\ activeWebRTCClientGroup (cl g) = None /\ clientDoneCh (cl g) = None;
  inv_done : forall c, clientDoneCh (cl g) = Some c -> is_open DoneCh c g = true;
  inv_count : 0 <= reconnectCount (cl g) <= maxReconnects
}.

(** ** Steps that leave the client alone *)

Definition frame (g g' : G) : Prop :=
  cl g' = cl g /\ forall c, is_open DoneCh c g = true -> is_open DoneCh c g' = true.

Lemma frame_refl g : frame g g.
Proof. by split. Qed.

Lemma frame_trans g1 g2 g3 : frame g1 g2 -> frame g2 g3 -> frame g1 g3.
Proof. intros [H1 H2] [H3 H4]. split; [congruence|auto]. Qed.

Lemma frame_inv g g' : frame g g' -> client_inv g -> client_inv g'.
Proof. intros [Hc Ho] [H1 H2 H3 H4]. split; rewrite Hc; auto. Qed.

Lemma frame_on_sv f g : frame g (on_sv f g).
Proof. by split. Qed.
Lemma frame_on_env f g : frame g (on_env f g).
Proof. by split. Qed.
Lemma frame_on_seen f g : frame g (on_seen f g).
Proof. by split. Qed.

(** A change of the resources that keeps the channels of clients open. *)
Lemma frame_on_rs f g :
  (forall c, (DoneCh, c) ∈ open_chans (rs g) -> (DoneCh, c) ∈ open_chans (f (rs g))) -> frame g (on_rs f g).
Proof. intros Hf. split; [done|]. intros c. unfold is_open. rewrite !bool_decide_eq_true. apply Hf. Qed.

Lemma frame_panic g : frame g (panic g).
Proof. by apply frame_on_rs. Qed.
Lemma frame_fresh g : frame g (fresh g).2.
Proof. by apply frame_on_rs. Qed.
Lemma frame_make_chan k g : frame g (make_chan k g).2.
Proof. eapply frame_trans; [apply frame_fresh|]. apply frame_on_rs. intros c Hc. cbn. set_solver. Qed.
Lemma frame_close k c g : k <> DoneCh -> frame g (close_chan k c g).
Proof.
  intros Hk. unfold close_chan. case_match; [|apply frame_panic]. apply frame_on_rs. cbn. intros c' Hc'. set_solver.
Qed.
Lemma frame_WithCancel g : frame g (WithCancel g).2.
Proof. eapply frame_trans; [apply frame_fresh|]. by apply frame_on_rs. Qed.
Lemma frame_cancel c g : frame g (cancel c g).
Proof. by apply frame_on_rs. Qed.
Lemma frame_ext {A} (f : Prog E A) g : frame g (ext f g).2.
Proof. unfold ext. by destruct (f (env g)). Qed.
Lemma frame_started {A} add (f : Prog E A) g : (forall i r, open_chans (add i r) = open_chans r) -> frame g (started add f g).2.
Proof.
  intros Ha. unfold started. pose proof (frame_ext f g) as He. destruct (ext f g) as [[a|e] g']; cbn [snd] in *; [|done].
  eapply frame_trans; [exact He|]. eapply frame_trans; [apply frame_fresh|]. cbn [fresh snd].
  apply frame_on_rs. intros c. by rewrite Ha.
Qed.
Lemma frame_stop_sg i g : frame g (stop_sg i g).
Proof. eapply frame_trans; [|apply frame_on_env]. by apply frame_on_rs. Qed.
Lemma frame_stop_cg i g : frame g (stop_cg i g).
Proof. eapply frame_trans; [|apply frame_on_env]. by apply frame_on_rs. Qed.
Lemma frame_stop_tun i g : frame g (stop_tun i g).
Proof. eapply frame_trans; [|apply frame_on_env]. by apply frame_on_rs. Qed.
Lemma frame_engine {A} (f : Prog (engine I E) A) g : frame g (with_engine f g).2.
Proof. unfold with_engine. by destruct (f _). Qed.
Lemma frame_when {A} (o : option A) f g : (forall a g, frame g (f a g)) -> frame g (when_some o f g).
Proof. intros Hf. destruct o; [apply Hf|apply frame_refl]. Qed.
Lemma frame_foldl {A} (f : G -> A -> G) l g : (forall g a, frame g (f g a)) -> frame g (foldl f g l).
Proof. intros Hf. revert g. induction l as [|a l IH]; intros g; [apply frame_refl|]. cbn. eapply frame_trans; [apply Hf|apply IH]. Qed.

(** Peels the outermost step off a state. *)
Ltac frame_peel :=
  lazymatch goal with
  | |- frame ?g ?g => apply frame_refl
  | |- frame _ (on_sv _ _) => eapply frame_trans; [|apply frame_on_sv]
  | |- frame _ (on_env _ _) => eapply frame_trans; [|apply frame_on_env]
  | |- frame _ (on_seen _ _) => eapply frame_trans; [|apply frame_on_seen]
  | |- frame _ (panic _) => eapply frame_trans; [|apply frame_panic]
  | |- frame _ (stop_sg _ _) => eapply frame_trans; [|apply frame_stop_sg]
  | |- frame _ (stop_cg _ _) => eapply frame_trans; [|apply frame_stop_cg]
  | |- frame _ (stop_tun _ _) => eapply frame_trans; [|apply frame_stop_tun]
  | |- frame _ (cancel _ _) => eapply frame_trans; [|apply frame_cancel]
  | |- frame _ (close_chan _ _ _) => eapply frame_trans; [|by apply frame_close]
  | |- frame _ (when_some _ _ _) => eapply frame_trans; [|apply frame_when; intros ? ?]
  | |- frame _ (foldl _ _ _) => eapply frame_trans; [|apply frame_foldl; intros ? ?]
  | |- frame _ (match ?x with _ => _ end) => destruct x
  | |- frame _ (if ?x then _ else _) => destruct x
  end.
Ltac frames := repeat (progress cbn beta iota zeta delta [fst snd] || frame_peel); try done.

(** Programs over the state that may fail. *)
Definition pframe {A} (m : Prog G A) : Prop := forall g, frame g (m g).2.

Lemma pframe_bind {A B} (m : Prog G A) (k : A -> Prog G B) : pframe m -> (forall a, pframe (k a)) -> pframe (nbind m k).
Proof.
  intros Hm Hk g. unfold nbind. specialize (Hm g). destruct (m g) as [[a|e] g']; [|done].
  eapply frame_trans; [exact Hm|apply Hk].
Qed.
Lemma pframe_wrap {A} c (m : Prog G A) : pframe m -> pframe (nwrap c m).
Proof. intros Hm g. unfold nwrap. specialize (Hm g). by destruct (m g) as [[a|e] g']. Qed.
Lemma pframe_ext {A} (f : Prog E A) : pframe (ext f).
Proof. intros g. apply frame_ext. Qed.

(** ** The server leaves the client alone *)

Lemma frame_start_group a : pframe (StartServerGroup a).
Proof. intros g. by apply frame_started. Qed.

Lemma frame_srflx n a : pframe (start_with_srflx n a).
Proof.
  induction n as [|n IH]; intros g; [apply frame_refl|]. cbn [start_with_srflx].
  pose proof (frame_start_group a g) as Hs. destruct (StartServerGroup a g) as [[[i sdps]|e] g1]; [|done].
  destruct (has_srflx sdps); [done|]. eapply frame_trans; [exact Hs|]. eapply frame_trans; [|apply IH].
  frames.
Qed.

Lemma frame_set_started info m g : frame g (set_started info m g).
Proof. apply frame_on_sv. Qed.

Lemma frame_try_mapping cfg g : frame g (try_mapping cfg g).2.
Proof.
  unfold try_mapping. destruct (bool_decide _); [apply frame_refl|].
  match goal with |- context [ext ?f g] => pose proof (frame_ext f g) as He; destruct (ext f g) as [[[[ip port] m]|e] g1] end; done.
Qed.

Lemma frame_start_mapped cfg uuid ip port m : pframe (start_mapped cfg uuid ip port m).
Proof.
  intros g. unfold start_mapped, start_xray.
  match goal with |- context [with_engine ?f g] => pose proof (frame_engine f g) as He; destruct (with_engine f g) as [[u|e] g1] end;
    cbn [snd] in *; [|done]. eapply frame_trans; [exact He|apply frame_set_started].
Qed.

Lemma frame_start_punched cfg : pframe (start_punched ip_literal cfg).
Proof.
  unfold start_punched. apply pframe_bind; [apply pframe_wrap, pframe_ext|]. intros key.
  apply pframe_bind; [apply pframe_ext|]. intros sid. cbv zeta.
  apply pframe_bind; [apply pframe_wrap, frame_srflx|]. intros [i offers] g. cbn [fst snd].
  match goal with |- context [ext ?f g] => pose proof (frame_ext f g) as He; destruct (ext f g) as [[u|e] g1] end; cbn [snd] in He.
  - pose proof (frame_WithCancel g1) as Hw. destruct (WithCancel g1) as [ctx g2]. cbn [snd] in Hw |- *.
    eapply frame_trans; [exact He|]. eapply frame_trans; [exact Hw|]. unfold set_started. frames.
  - eapply frame_trans; [exact He|]. frames.
Qed.

Lemma frame_start_server settings : pframe (start_server ip_literal settings).
Proof.
  intros g. unfold start_server. destruct (serverRunning (sv g)); [apply frame_refl|].
  destruct (read_settings _ _ _) as [cfg|e]; [|apply frame_refl].
  destruct (normalize_server ip_literal cfg) as [c|e]; [|apply frame_refl].
  assert (Hu : forall r g1, (if bool_decide (sc_UUID c = EmptyString) then ext generateUUID g else (Ok (sc_UUID c), g)) = (r, g1) ->
    frame g g1).
  { intros r g1. destruct (bool_decide _); intros Heq; [|injection Heq as _ <-; apply frame_refl].
    pose proof (frame_ext generateUUID g) as He. by rewrite Heq in He. }
  destruct (if bool_decide (sc_UUID c = EmptyString) then _ else _) as [[uuid|e] g1] eqn:Eu; [|by eapply Hu].
  eapply frame_trans; [by eapply Hu|]. pose proof (frame_try_mapping c g1) as Hm.
  destruct (try_mapping c g1) as [[[[ip port] method]|] g2]; cbn [snd] in Hm.
  - eapply frame_trans; [exact Hm|]. apply (pframe_bind _ _ (frame_start_mapped _ _ _ _ _)). intros code g3. apply frame_refl.
  - eapply frame_trans; [exact Hm|]. destruct (bool_decide (sc_NatMethod c = "upnp")); [apply frame_refl|].
    pose proof (frame_start_punched c g2) as Hp. by destruct (start_punched ip_literal c g2) as [[[code lp]|e] g3].
Qed.

Lemma frame_keepalive grp g : frame g (StartSTUNKeepalive grp g).2.
Proof.
  unfold StartSTUNKeepalive. destruct (sg_GetRawConn _ _); [|apply frame_refl].
  pose proof (frame_make_chan StunCh g) as Hm. by destruct (make_chan StunCh g).
Qed.

Lemma frame_start_manual settings : pframe (start_manual ip_literal settings).
Proof.
  intros g. unfold start_manual. destruct (serverRunning (sv g)); [apply frame_refl|].
  destruct (read_settings _ _ _) as [cfg|e]; [|apply frame_refl].
  revert g. apply pframe_bind; [apply pframe_wrap, pframe_ext|]. intros key.
  apply pframe_bind; [apply pframe_ext|]. intros sid. cbv zeta.
  apply pframe_bind; [apply pframe_wrap, frame_srflx|]. intros [i offers] g. cbn [fst snd].
  destruct offers as [|sdp offers]; [apply frame_panic|].
  destruct (CompressSDP sdp) as [c|e]; [|apply frame_stop_sg].
  destruct (EncodeManualOffer _) as [code|e]; [|apply frame_stop_sg].
  pose proof (frame_keepalive i g) as Hk. destruct (StartSTUNKeepalive i g) as [stun g1]. cbn [snd] in Hk |- *.
  eapply frame_trans; [exact Hk|]. frames.
Qed.

Lemma frame_cleanup g : frame g (cleanupDrainingServerGroups g).
Proof. unfold cleanupDrainingServerGroups. frames. Qed.

Lemma frame_swap old new g : frame g (swap_group old new g).
Proof. unfold swap_group. frames. Qed.

Lemma frame_stop_listing g : frame g (stop_listing g).
Proof.
  unfold stop_listing. destruct (bool_decide _); [apply frame_refl|].
  match goal with |- context [ext ?f ?h] => pose proof (frame_ext f h) as He; destruct (ext f h) as [r g1] end.
  cbn [snd] in He. frames. eapply frame_trans; [|exact He]. frames.
Qed.

Lemma frame_close_keepalive g : frame g (close_keepalive g).
Proof. unfold close_keepalive. frames. Qed.

Lemma frame_stop_server g : frame g (stop_server g).2.
Proof.
  unfold stop_server. destruct (negb _); [apply frame_refl|].
  eapply frame_trans; [apply frame_stop_listing|]. generalize (stop_listing g). intros g1.
  set (g2 := match serverCancel (sv g1) with Some c => _ | None => _ end).
  assert (H2 : frame g1 g2) by (subst g2; frames). eapply frame_trans; [exact H2|]. generalize g2. clear. intros g.
  destruct (bool_decide _).
  - unfold stop_groups, close_keepalive. frames.
  - unfold stop_xray. pose proof (frame_engine StopXray g) as He. destruct (with_engine StopXray g) as [[u|e] g1]; cbn [snd] in *; [|done].
    eapply frame_trans; [exact He|]. unfold remove_mapping, close_keepalive. frames.
Qed.

Lemma frame_server_status g : frame g (server_status g).2.
Proof.
  unfold server_status. destruct (if bool_decide _ then _ else _) as [n t].
  destruct (rate_update _ _ _ _) as [[ru rd] rt]. frames.
Qed.

(** ** The steps of the client keep its invariant *)

(** Assignments to variables that the invariant does not mention; connecting
    may be given up. *)
Definition benign (f : clientst -> clientst) : Prop := forall c,
  clientRunning (f c) = clientRunning c /\ (clientConnecting (f c) = true -> clientConnecting c = true) /\
  activeTunnel (f c) = activeTunnel c /\ activeWebRTCClientGroup (f c) = activeWebRTCClientGroup c /\
  clientDoneCh (f c) = clientDoneCh c /\ reconnectCount (f c) = reconnectCount c.

Lemma benign_inv f g : benign f -> client_inv g -> client_inv (on_cl f g).
Proof.
  intros Hf [H1 H2 H3 H4]. destruct (Hf (cl g)) as (Er & Ec & Et & Eg & Ed & En).
  split; cbn [cl on_cl]; rewrite ?Er, ?Et, ?Eg, ?Ed, ?En; auto.
  intros Hr. specialize (H1 Hr). destruct (clientConnecting (f (cl g))); [|done]. rewrite Ec in H1; done.
Qed.

Ltac benign := apply benign_inv; [intros ?; cbn; split_and!; done|].

Lemma inv_cancel_connect g : client_inv g -> client_inv (cancel_connect g).
Proof.
  intros Hg. unfold cancel_connect. destruct (clientConnectCancel (cl g)); [|done]. benign.
  eapply frame_inv; [apply frame_cancel|done].
Qed.

Lemma inv_stop_pending g : client_inv g -> client_inv (stop_pending g).
Proof.
  intros Hg. unfold stop_pending. destruct (pendingWebRTCClientGroup (cl g)); [|done]. benign.
  eapply frame_inv; [apply frame_stop_cg|done].
Qed.

Lemma inv_not_connecting g : client_inv g -> client_inv (on_cl (set_clientConnecting false) g).
Proof. intros Hg. by benign. Qed.

Lemma inv_cancel_connecting g : client_inv g -> client_inv (cancel_connecting g).
Proof.
  intros Hg. unfold cancel_connecting. destruct (clientConnecting (cl g)); [|done].
  by apply inv_stop_pending, inv_cancel_connect, inv_not_connecting.
Qed.

Lemma inv_abort_start g : client_inv g -> client_inv (abort_start g).
Proof. intros Hg. by apply inv_cancel_connect, inv_not_connecting. Qed.

Lemma inv_abort_connect g : client_inv g -> client_inv (abort_connect g).
Proof. intros Hg. by apply inv_cancel_connect, inv_stop_pending, inv_not_connecting. Qed.

Lemma inv_begin_connect g : client_inv g -> client_inv (begin_connect g).2.
Proof.
  intros Hg. unfold begin_connect. destruct (clientRunning (cl g)) eqn:Hr; [done|].
  destruct (clientConnecting (cl g)) eqn:Hc; [done|]. cbn [orb].
  pose proof (frame_WithCancel g) as Hf. destruct (WithCancel g) as [ctx g1]. cbn [snd] in *.
  destruct (frame_inv _ _ Hf Hg) as [H1 H2 H3 H4]. destruct Hf as [Hcl _].
  split; cbn; [rewrite Hcl, Hr; done|exact H2|exact H3|exact H4].
Qed.

(** [stop_client] up to the point where the engine is stopped. *)
Lemma signal_done_spec g : client_inv g ->
  clientDoneCh (cl (signal_done g)) = None /\ clientRunning (cl (signal_done g)) = clientRunning (cl g) /\
  clientConnecting (cl (signal_done g)) = clientConnecting (cl g) /\
  activeTunnel (cl (signal_done g)) = activeTunnel (cl g) /\
  activeWebRTCClientGroup (cl (signal_done g)) = activeWebRTCClientGroup (cl g) /\
  reconnectCount (cl (signal_done g)) = reconnectCount (cl g).
Proof.
  intros Hg. unfold signal_done. destruct (clientDoneCh (cl g)) as [c|] eqn:Ed; [|by split_and!].
  pose proof (inv_done g Hg c Ed) as Ho. rewrite Ho. unfold close_chan. rewrite Ho. by split_and!.
Qed.

Lemma inv_stop_client g : client_inv g -> client_inv (stop_client g).2.
Proof.
  intros Hg. unfold stop_client. apply inv_cancel_connecting in Hg. revert Hg.
  generalize (cancel_connecting g). clear g. intros g Hg.
  destruct (clientRunning (cl g)) eqn:Hr; cbn [negb]; [|done].
  destruct (signal_done_spec g Hg) as (Ed & Er & Ec & Et & Eg & En).
  set (g1 := signal_done g) in *. pose proof (inv_excl g Hg Hr) as Hcon. pose proof (inv_count g Hg) as Hn.
  set (g2 := on_rs (set_callbacks 0) (stop_tunnel g1)).
  assert (H2 : activeTunnel (cl g2) = None /\ clientDoneCh (cl g2) = None /\ clientRunning (cl g2) = true /\
    clientConnecting (cl g2) = false /\ reconnectCount (cl g2) = reconnectCount (cl g)).
  { subst g2. unfold stop_tunnel. destruct (activeTunnel (cl g1)) eqn:E1; cbn; rewrite ?E1, ?Ed, ?Er, ?Ec, ?En; auto. }
  destruct H2 as (T2 & D2 & R2 & C2 & N2). clearbody g2. unfold stop_engine.
  destruct (activeWebRTCClientGroup (cl g2)) as [i|] eqn:A2.
  - cbn [snd]. unfold cancel_connect. cbn.
    destruct (clientConnectCancel (cl g2)); split; cbn; rewrite ?T2, ?D2, ?C2; try done; unfold maxReconnects; lia.
  - pose proof (frame_engine StopXray g2) as [Hcl Ho]. unfold stop_xray.
    destruct (with_engine StopXray g2) as [[u|e] g3]; cbn [snd] in *.
    + unfold cancel_connect. cbn. destruct (clientConnectCancel (cl g3)); split; cbn; rewrite ?Hcl, ?T2, ?D2, ?C2, ?A2; try done; unfold maxReconnects; lia.
    + split; rewrite Hcl, ?T2, ?D2, ?C2, ?A2, ?R2, ?N2; done.
Qed.

Lemma inv_set_running tun g : client_inv g -> client_inv (set_running tun g).
Proof.
  intros Hg. unfold set_running. destruct (frame_make_chan DoneCh g) as [Hcl _].
  assert (Ho : is_open DoneCh (make_chan DoneCh g).1 (make_chan DoneCh g).2 = true)
    by (cbn; apply bool_decide_eq_true_2; cbn; set_solver).
  destruct (make_chan DoneCh g) as [ch g1]. cbn [fst snd] in *.
  split; cbn; [done|done| |rewrite Hcl; apply Hg]. intros c [= <-]. exact Ho.
Qed.

Lemma inv_set_group grp g : clientRunning (cl g) = true -> client_inv g ->
  client_inv (on_cl (set_activeWebRTCClientGroup (Some grp)) g).
Proof. intros Hr [H1 H2 H3 H4]. split; cbn; [done|congruence|exact H3|exact H4]. Qed.

Lemma set_running_running tun (g : G) : clientRunning (cl (set_running tun g)) = true.
Proof. done. Qed.

Lemma inv_swap_client new g : client_inv g -> client_inv (swap_client new g).2.
Proof.
  intros Hg. unfold swap_client. destruct (clientRunning (cl g)) eqn:Hr; [|done].
  destruct (activeTunnel (cl g)); [|done]. cbn [snd]. unfold wire.
  eapply frame_inv; [by apply frame_on_rs|]. apply inv_set_group; [done|].
  eapply frame_inv; [|exact Hg]. by apply frame_on_rs.
Qed.

Lemma inv_begin_reconnect g : client_inv g -> client_inv (begin_reconnect g).2.
Proof.
  intros Hg. pose proof Hg as [H1 H2 H3 H4]. unfold begin_reconnect. destruct (clientRunning (cl g)) eqn:Hr; cbn [negb orb]; [|done].
  destruct (maxReconnects <=? reconnectCount (cl g)) eqn:Hn; [done|]. cbn [snd].
  split; cbn; [auto|congruence|exact H3|lia].
Qed.

Lemma inv_client_status g : client_inv g -> client_inv (client_status g).2.
Proof.
  intros Hg. unfold client_status. destruct (match activeTunnel _ with Some _ => _ | None => _ end) as [up down].
  destruct (rate_update _ _ _ _) as [[ru rd] rt].
  destruct (match activeWebRTCClientGroup _ with Some _ => _ | None => _ end) as [[s c] n]. cbn [snd]. by benign.
Qed.

(** ** Every call keeps the invariant *)

Abbreviation ok := (psafe client_inv).

Lemma ok_frame {X} (f : G -> X * G) : (forall g, frame g (f g).2) -> ok (atom f).
Proof. intros Hf. apply psafe_atom. intros g Hg. by eapply frame_inv. Qed.
Lemma ok_modify (f : G -> G) : (forall g, frame g (f g)) -> ok (modify f).
Proof. intros Hf. apply psafe_modify. intros g Hg. by eapply frame_inv. Qed.
Lemma ok_call {A} (f : Prog E A) : ok (call f).
Proof. apply ok_frame. intros g. apply frame_ext. Qed.
Lemma ok_choose {A} (f : E -> A * E) : ok (choose f).
Proof. apply ok_frame. intros g. destruct (f (env g)). apply frame_on_env. Qed.
Lemma ok_started {A} add (f : Prog E A) : (forall i r, open_chans (add i r) = open_chans r) -> ok (atom (started add f)).
Proof. intros Ha. apply ok_frame. intros g. by apply frame_started. Qed.
Lemma ok_stop_cg i : ok (modify (stop_cg i)).
Proof. apply ok_modify. intros g. apply frame_stop_cg. Qed.
Lemma ok_stop : ok StopClient.
Proof. apply psafe_atom. intros g. apply inv_stop_client. Qed.

Hint Resolve ok_call ok_choose ok_stop_cg ok_stop : psafe.
Hint Extern 1 (psafe _ (atom (started _ _))) => apply ok_started; reflexivity : psafe.
Hint Extern 1 (psafe _ (atom (start_group _ _ _ _ _))) => apply ok_started; reflexivity : psafe.
Hint Extern 1 (psafe _ (modify abort_start)) => apply psafe_modify; apply inv_abort_start : psafe.
Hint Extern 1 (psafe _ (modify abort_connect)) => apply psafe_modify; apply inv_abort_connect : psafe.

Lemma ok_guarded {A} abort (body : nat -> prog G (res goerr A)) :
  ok (modify abort) -> (forall ctx, ok (body ctx)) -> ok (guarded abort body).
Proof.
  intros Ha Hb. unfold guarded. apply psafe_bind; [apply psafe_atom; apply inv_begin_connect|]. intros [ctx|]; [|done].
  apply psafe_bind; [apply Hb|]. intros [a|e]; [done|]. apply psafe_bind; [done|]. done.
Qed.

Lemma ok_drain latest : ok (drain latest).
Proof. unfold drain. psafe_walk. Qed.
Hint Resolve ok_drain : psafe.

Lemma ok_negotiate ctx info cfg protected : ok (negotiate ctx info cfg protected).
Proof. unfold negotiate, refresh_turn. psafe_walk. Qed.
Hint Resolve ok_negotiate : psafe.

Lemma ok_monitor grp ch : ok (monitorClientHealth grp ch).
Proof.
  unfold monitorClientHealth, monitor_turn. psafe_walk.
  - eapply frame_inv; [|eassumption]. cbn. destruct (env_choose _). apply frame_on_env.
  - match goal with Hg : client_inv _ |- _ => destruct Hg as [H1 H2 H3 H4] end.
    split; cbn; auto. unfold maxReconnects. lia.
Qed.
Hint Resolve ok_monitor : psafe.

Lemma ok_after_running grp : ok (after_running grp).
Proof.
  unfold after_running. psafe_walk.
  - eapply frame_inv; [|eassumption]. by apply frame_on_rs.
  - eapply frame_inv; [|eassumption]. by apply frame_on_rs.
Qed.
Hint Resolve ok_after_running : psafe.

Lemma ok_start_webrtc ctx info cfg fd : ok (start_client_webrtc ctx info cfg fd).
Proof.
  unfold start_client_webrtc. psafe_walk.
  - by benign.
  - cbn. destruct (ctx_cancelled _ _); [done|]. cbn [snd]. apply inv_set_group; [done|]. by apply inv_set_running.
  - eapply frame_inv; [|eassumption]. frames.
Qed.
Hint Resolve ok_start_webrtc : psafe.

Lemma ok_stop_xray : ok (atom stop_xray).
Proof. apply ok_frame. intros g. apply frame_engine. Qed.
Lemma ok_start_xray c : ok (atom (start_xray c)).
Proof. apply ok_frame. intros g. apply frame_engine. Qed.
Hint Resolve ok_stop_xray ok_start_xray : psafe.

Lemma ok_start_client_xray info cfg fd : ok (start_client_xray info cfg fd).
Proof.
  unfold start_client_xray. psafe_walk.
  - eapply frame_inv; [|eassumption]. apply frame_on_env.
  - cbn. destruct (negb _); [done|]. cbn [snd]. benign. by apply inv_set_running.
  - eapply frame_inv; [|eassumption]. frames.
Qed.
Hint Resolve ok_start_client_xray : psafe.

Lemma ok_set_pending grp info cfg opts : ok (modify (set_pending grp info cfg opts)).
Proof. apply psafe_modify. intros g Hg. by benign. Qed.
Hint Resolve ok_set_pending : psafe.

Lemma ok_StartTunnel fd : ok (StartTunnel fd).
Proof.
  unfold StartTunnel. psafe_walk.
  - unfold take_pending. destruct (clientConnecting (cl g)); [|done]. destruct (pendingWebRTCClientGroup (cl g)); [|done]. by benign.
  - by benign.
  - cbn. apply inv_set_group; [done|]. by apply inv_set_running.
  - by apply inv_not_connecting.
  - by apply inv_not_connecting.
Qed.

Lemma ok_reconnect : ok attemptFastReconnect.
Proof.
  unfold attemptFastReconnect, stop_and_end, reconnect_offers. psafe_walk.
  - by apply inv_begin_reconnect.
  - eapply frame_inv; [|eassumption]. frames.
  - by apply inv_swap_client.
  - eapply frame_inv; [|eassumption]. destruct (ra_old _); [apply frame_stop_cg|apply frame_panic].
Qed.

Lemma ok_client p : client_entry ip_literal p -> ok p.
Proof.
  intros []; unfold ignore.
  - apply psafe_bind; [|done]. apply ok_guarded; [auto with psafe|]. intros ctx. psafe_walk.
  - apply psafe_bind; [|done]. apply ok_guarded; [auto with psafe|]. intros ctx. psafe_walk.
  - apply psafe_bind; [apply ok_StartTunnel|done].
  - apply psafe_bind; [|done]. apply ok_guarded; [auto with psafe|]. intros ctx. psafe_walk.
    eapply frame_inv; [|eassumption]. apply frame_panic.
  - unfold WaitManualConnection. psafe_walk.
  - psafe_walk.
  - unfold WaitClientDisconnect. psafe_walk.
  - unfold GetClientStatus. psafe_walk. by apply inv_client_status.
  - unfold ice_failure. psafe_walk; [|apply ok_reconnect].
    eapply frame_inv; [|eassumption]. by apply frame_on_rs.
Qed.

Ltac by_frame := eapply frame_inv; [|eassumption].

Lemma ok_accept_exit l : ok (accept_exit l).
Proof. unfold accept_exit. psafe_walk. by_frame. frames. Qed.
Hint Resolve ok_accept_exit : psafe.

Lemma ok_next_client p l : ok (next_client p l).
Proof.
  unfold next_client, is_running. psafe_walk; by_frame; try solve [frames].
  - apply frame_srflx.
  - apply frame_swap.
  - apply frame_keepalive.
  - apply frame_cleanup.
Qed.
Hint Resolve ok_next_client : psafe.

Lemma ok_race timeout groups : ok (race timeout groups).
Proof. unfold race. psafe_walk; by_frame; destruct (env_choose _); frames. Qed.
Hint Resolve ok_race : psafe.

Lemma ok_accept_turn p l : ok (accept_turn p l).
Proof.
  unfold accept_turn, connect_client, is_running. psafe_walk; by_frame; try solve [frames].
  - destruct (decide _); frames.
  - apply frame_cleanup.
Qed.

Lemma ok_accept_loop p grp offers : ok (accept_loop p grp offers).
Proof.
  unfold accept_loop. apply psafe_bind; [apply ok_frame; intros g; apply frame_keepalive|]. intros stun.
  apply psafe_loop. intros l. apply ok_accept_turn.
Qed.
Hint Resolve ok_accept_loop : psafe.

Lemma ok_heartbeat stop url fields id : ok (heartbeat_turn stop url fields id).
Proof. unfold heartbeat_turn. psafe_walk; by_frame; [|frames]. cbn. destruct (env_choose (env g)). frames. Qed.

Lemma frame_take_listing g : frame g (take_listing g).2.
Proof. apply frame_on_sv. Qed.

Lemma frame_new_listing url id g : frame g (new_listing url id g).2.
Proof.
  unfold new_listing. pose proof (frame_make_chan BeatCh g) as Hm. destruct (make_chan BeatCh g) as [c g1].
  eapply frame_trans; [exact Hm|]. frames.
Qed.

Lemma ok_server p : server_entry ip_literal p -> ok p.
Proof.
  intros []; unfold ignore.
  - unfold StartServer. psafe_walk. by_frame. apply frame_start_server.
  - unfold StartServerManual. psafe_walk. by_frame. apply frame_start_manual.
  - unfold AcceptManualAnswer. psafe_walk; by_frame; [apply frame_close_keepalive|frames].
  - unfold GetManualOfferCode. psafe_walk.
  - unfold RegisterServerDiscovery. psafe_walk; try by_frame;
      [apply frame_take_listing|frames|apply frame_new_listing|apply ok_heartbeat].
  - unfold UnregisterServerDiscovery. psafe_walk; by_frame; [apply frame_take_listing|frames].
  - unfold StopServer. psafe_walk. by_frame. apply frame_stop_server.
  - unfold GetServerStatus. psafe_walk. by_frame. apply frame_server_status.
Qed.

Definition any_entry (g : G) (p : prog G unit) : Prop := client_entry ip_literal p \/ server_entry ip_literal p.

Lemma client_inv_init e : client_inv (init_api e).
Proof. by split. Qed.

End safety.

(** C2: whatever client and server calls, goroutines and ICE failures are
    interleaved, the client is never running and connecting at once; when it
    is not running it has no tunnel, no group and no end channel; the end
    channel is open, so waiters block until the end and it is closed once;
    and at most two reconnects are counted. *)
Theorem client_state_consistent {I E : Type} `{ApiEnv E} `{XrayCore I E} `{ApiJson} `{Flate}
    (ip_literal : string -> option string) (e0 : E) (s : pool (api I E)) :
  reachable (fun g => g = init_api e0) (any_entry ip_literal) s ->
  client_inv (shared s).
Proof.
  apply safe_reachable.
  - intros g ->. apply client_inv_init.
  - intros g p _ [Hp|Hp]; [by eapply ok_client|by eapply ok_server].
Qed.

End ApiSafety.
