(* ===== verification/ApiSpec.v ===== *)
(** * The contract of the client functions

    Calls that do not overlap follow a simple automaton: a client is idle,
    has a pending connection, or runs over WebRTC or over xray.  The file
    proves that the functions of [ApiClient] refine it, and that the groups
    and tunnels that are alive are exactly those of the phase, so nothing is
    left behind on any path, failures included. *)

From S2P Require Import Prelude IO GoStr Codes Url Xray Peer Api Threads ApiState ApiClient.

Open Scope Z_scope.

Module ApiSpec.

Import Xray Api ApiState ApiClient.

(** What the client relies on: [webrtc.StartClientGroup] gives an answer for
    every peer, and the server refreshes its offers finitely often while the
    client starts and stops groups. *)
Class ClientEnv (E : Type) `{ApiEnv E} := {
  answers_given : forall npc offers ice prot key relay sid opts e answers e',
    cg_Start npc offers ice prot key relay sid opts e = (Ok answers, e') -> answers <> [];
  offers_left : E -> nat;
  poll_left : forall e p e', sig_poll_offers e = (p, e') ->
    match p with Newer _ => (offers_left e' < offers_left e)%nat | _ => (offers_left e' <= offers_left e)%nat end;
  start_left : forall npc offers ice prot key relay sid opts e,
    (offers_left (cg_Start npc offers ice prot key relay sid opts e).2 <= offers_left e)%nat;
  stop_left : forall i e, (offers_left (cg_Stop i e) <= offers_left e)%nat
}.

Section spec.
Context {I E : Type} `{AE : ApiEnv E} `{AG : !ClientEnv E} `{XC : XrayCore I E} `{AJ : ApiJson} `{FL : Flate}.
Variable ip_literal : string -> option string.

Abbreviation G := (api I E).

(** ** What the contract talks about *)

Record view := mkView {
  v_running : bool; v_connecting : bool; v_pending : option nat; v_tunnel : option nat; v_group : option nat;
  v_done : bool; v_cgs : gset nat; v_tuns : gset nat; v_dial : option (option nat); v_xray : option I; v_protect : bool; v_panic : bool }.

(** [v_done] says whether there is an end channel, [v_dial] where the active
    tunnel sends its streams. *)
Definition view_of (g : G) : view :=
  let c := cl g in
  mkView (clientRunning c) (clientConnecting c) (pendingWebRTCClientGroup c) (activeTunnel c) (activeWebRTCClientGroup c)
    (Url.is_some (clientDoneCh c)) (live_cgs (rs g)) (live_tuns (rs g)) (t ← activeTunnel c; dials (rs g) !! t) (xi g)
    (savedProtectFn c) (panicked (rs g)).

(** Numbers that are in use are smaller than the next one. *)
Definition bounded (g : G) : Prop := forall i, i ∈ live_cgs (rs g) ∪ live_tuns (rs g) -> (i < next_id (rs g))%nat.

Definition st (v : view) (g : G) : Prop := view_of g = v /\ bounded g.

Definition set_cgs (l : gset nat) (v : view) : view :=
  mkView (v_running v) (v_connecting v) (v_pending v) (v_tunnel v) (v_group v) (v_done v) l (v_tuns v) (v_dial v) (v_xray v) (v_protect v) (v_panic v).
Definition set_tuns (l : gset nat) (v : view) : view :=
  mkView (v_running v) (v_connecting v) (v_pending v) (v_tunnel v) (v_group v) (v_done v) (v_cgs v) l (v_dial v) (v_xray v) (v_protect v) (v_panic v).
Definition set_xray (x : option I) (v : view) : view :=
  mkView (v_running v) (v_connecting v) (v_pending v) (v_tunnel v) (v_group v) (v_done v) (v_cgs v) (v_tuns v) (v_dial v) x (v_protect v) (v_panic v).

(** ** Rules for the steps *)

(** A step that changes nothing the contract talks about. *)
Definition silent (g g' : G) : Prop :=
  view_of g' = view_of g /\ live_cgs (rs g') = live_cgs (rs g) /\ live_tuns (rs g') = live_tuns (rs g) /\
  (next_id (rs g) <= next_id (rs g'))%nat.

Lemma silent_st v g g' : silent g g' -> st v g -> st v g'.
Proof.
  intros (Hv & Hc & Ht & Hn) [Hg Hb]. split; [congruence|]. intros i. rewrite Hc, Ht. intros Hi. specialize (Hb i Hi). lia.
Qed.

Lemma silent_env f g : silent g (on_env f g).
Proof. by split_and!. Qed.

Lemma silent_ext {A} (f : Prog E A) g : silent g (ext f g).2.
Proof. unfold ext. by destruct (f (env g)). Qed.

Lemma wp_silent {X A} (f : G -> X * G) (k : X -> prog G A) Q v g :
  (forall g, silent g (f g).2) -> st v g -> (forall x g', st v g' -> wp Q (k x) g') -> wp Q (pbind (atom f) k) g.
Proof. intros Hf Hg Hk. apply wp_bind. cbn. apply Hk. by eapply silent_st. Qed.

Lemma wp_call {X A} (f : Prog E X) (k : res goerr X -> prog G A) Q v g :
  st v g -> (forall r g', st v g' -> wp Q (k r) g') -> wp Q (pbind (call f) k) g.
Proof. apply wp_silent. intros g'. apply silent_ext. Qed.

Lemma wp_choose {X A} (f : E -> X * E) (k : X -> prog G A) Q v g :
  st v g -> (forall r g', st v g' -> wp Q (k r) g') -> wp Q (pbind (choose f) k) g.
Proof. apply wp_silent. intros g'. destruct (f (env g')). apply silent_env. Qed.

Lemma wp_reads {X A} (f : G -> X) (k : X -> prog G A) Q v g :
  st v g -> (forall x, x = f g -> wp Q (k x) g) -> wp Q (pbind (reads f) k) g.
Proof. intros Hg Hk. apply wp_bind. cbn. by apply Hk. Qed.

Lemma wp_quiet {A} (f : G -> G) (k : unit -> prog G A) Q v g :
  (forall g, silent g (f g)) -> st v g -> (forall g', st v g' -> wp Q (k tt) g') -> wp Q (pbind (modify f) k) g.
Proof. intros Hf Hg Hk. apply wp_bind. cbn. apply Hk. by eapply silent_st. Qed.

(** A group that starts is new and alive. *)
Lemma start_cg_spec {X} (f : Prog E X) v g : st v g ->
  match started add_cg f g with
  | (Err _, g') => st v g'
  | (Ok (i, _), g') => (i ∉ v_cgs v) /\ (i ∉ v_tuns v) /\ st (set_cgs ({[i]} ∪ v_cgs v) v) g'
  end.
Proof.
  intros Hg. unfold started. pose proof (silent_st v _ _ (silent_ext f g) Hg) as H1. destruct (ext f g) as [[a|e] g1]; [|done].
  cbn [snd fresh] in *. destruct H1 as [<- Hb]. cbn [v_cgs v_tuns view_of].
  assert (Hn : forall j, j ∈ live_cgs (rs g1) ∪ live_tuns (rs g1) -> j <> next_id (rs g1)) by (intros j Hj%Hb; lia).
  split; [intros Hi; eapply Hn; [|reflexivity]; set_solver|]. split; [intros Hi; eapply Hn; [|reflexivity]; set_solver|].
  split; [done|]. intros i. cbn. intros Hi.
  assert (Hi' : i = next_id (rs g1) \/ i ∈ live_cgs (rs g1) ∪ live_tuns (rs g1)) by set_solver.
  destruct Hi' as [->|Hi']; [lia|]. specialize (Hb i Hi'). lia.
Qed.

Lemma wp_start_cg {X A} (f : Prog E X) (k : res goerr (nat * X) -> prog G A) Q v g :
  st v g ->
  (forall e g', st v g' -> wp Q (k (Err e)) g') ->
  (forall i a g', i ∉ v_cgs v -> st (set_cgs ({[i]} ∪ v_cgs v) v) g' -> wp Q (k (Ok (i, a))) g') ->
  wp Q (pbind (atom (started add_cg f)) k) g.
Proof.
  intros Hg He Ho. apply wp_bind. cbn. pose proof (start_cg_spec f v g Hg) as Hs.
  destruct (started add_cg f g) as [[[i a]|e] g']; cbn; [destruct Hs as (Hi & _ & Hs); by apply Ho|by apply He].
Qed.

Lemma stop_cg_st i v g : st v g -> st (set_cgs (v_cgs v ∖ {[i]}) v) (stop_cg i g).
Proof. intros [<- Hb]. split; [done|]. intros j Hj. apply Hb. cbn in Hj. set_solver. Qed.

Lemma wp_stop_cg {A} i (k : unit -> prog G A) Q v g :
  st v g -> (forall g', st (set_cgs (v_cgs v ∖ {[i]}) v) g' -> wp Q (k tt) g') -> wp Q (pbind (modify (stop_cg i)) k) g.
Proof. intros Hg Hk. apply wp_bind. cbn. by apply Hk, stop_cg_st. Qed.

Lemma st_eq v v' g : st v g -> v = v' -> st v' g.
Proof. by intros ? <-. Qed.

(** Stopping the group that was just started. *)
Lemma undo_cg i v : i ∉ v_cgs v -> set_cgs (({[i]} ∪ v_cgs v) ∖ {[i]}) (set_cgs ({[i]} ∪ v_cgs v) v) = v.
Proof. intros Hi. destruct v; cbn in *. unfold set_cgs; cbn. f_equal. set_solver. Qed.

Lemma wp_undo_cg {A} i (k : unit -> prog G A) Q v g :
  i ∉ v_cgs v -> st (set_cgs ({[i]} ∪ v_cgs v) v) g -> (forall g', st v g' -> wp Q (k tt) g') ->
  wp Q (pbind (modify (stop_cg i)) k) g.
Proof.
  intros Hi Hg Hk. eapply wp_stop_cg; [exact Hg|]. intros g' Hg'. apply Hk. cbn [v_cgs set_cgs] in Hg'.
  by rewrite undo_cg in Hg'.
Qed.

(** ** Negotiation leaves one new group, or nothing *)

Definition new_group (v : view) (r : res goerr nat) (g : G) : Prop :=
  match r with
  | Ok i => (i ∉ v_cgs v) /\ st (set_cgs ({[i]} ∪ v_cgs v) v) g
  | Err _ => st v g
  end.

Definition left (g : G) : nat := offers_left (env g).

Lemma start_group_spec info opts ice prot offers v g : st v g ->
  match start_group info opts ice prot offers g with
  | (Err _, g') => st v g'
  | (Ok (i, answers), g') =>
      (i ∉ v_cgs v) /\ st (set_cgs ({[i]} ∪ v_cgs v) v) g' /\ answers <> [] /\ (left g' <= left g)%nat
  end.
Proof.
  intros Hg. unfold start_group.
  match goal with |- context [cg_Start ?a ?b ?c ?d ?e ?f ?h ?k] =>
    pose proof (start_cg_spec (cg_Start a b c d e f h k) v g Hg) as Hs;
    pose proof (start_left a b c d e f h k (env g)) as Hl; pose proof (answers_given a b c d e f h k (env g)) as Ha;
    revert Hs; unfold started, ext; destruct (cg_Start a b c d e f h k (env g)) as [[answers|er] e']
  end; cbn in *; [|done]. intros (Hi & _ & Hs). by specialize (Ha answers e' eq_refl).
Qed.

(** Emptying the channel, when the group [i] has been started. *)
Lemma drain_spec v g : st v g ->
  wp (fun r g' => st v g' /\ (left g' <= left g)%nat /\ (r <> None -> (left g' < left g)%nat)) (loop drain None) g.
Proof.
  intros Hg. apply wp_loop with (n := left g)
    (J := fun n r g' => st v g' /\ left g' = n /\ (left g' <= left g)%nat /\ (r <> None -> (left g' < left g)%nat));
    [by split_and!|].
  intros n r g' (Hg' & Hn & Hle & Hlt). unfold drain. apply wp_bind. cbn. destruct (sig_poll_offers (env g')) as [pl e'] eqn:Hp.
  pose proof (poll_left _ _ _ Hp) as Hl. cbn. unfold left in *.
  assert (Hs : st v (on_env (fun _ => e') g')) by (eapply silent_st; [apply silent_env|done]).
  destruct pl as [l| |]; cbn.
  - exists (offers_left e'). split_and!; [lia|done|done|lia|intros _; cbn; lia].
  - split_and!; [done|lia|]. intros Hr. specialize (Hlt Hr). lia.
  - split_and!; [done|lia|]. intros Hr. specialize (Hlt Hr). lia.
Qed.

Lemma refresh_spec ctx info cfg prot stream offers v g : st v g ->
  wp (fun r g => new_group v (match r with Ok (i, _) => Ok i | Err e => Err e end) g)
    (loop (refresh_turn ctx info cfg prot stream) offers) g.
Proof.
  intros Hg. apply wp_loop with (n := left g) (J := fun n _ g => st v g /\ left g = n); [done|]. clear g Hg.
  intros n l g [Hg <-]. unfold refresh_turn. apply wp_bind. cbn [wp atom fst snd].
  match goal with |- context [start_group ?a ?b ?c ?d ?e g] =>
    pose proof (start_group_spec a b c d e v g Hg) as Hs; destruct (start_group a b c d e g) as [[[i answers]|er] g1]
  end; cbn [fst snd]; [|done]. destruct Hs as (Hi & H1 & _ & Hl1).
  eapply wp_reads; [exact H1|]. intros c _. destruct c; [by eapply wp_undo_cg|].
  destruct stream; [|by split]. apply wp_bind. eapply wp_mono; [|by apply drain_spec].
  intros [latest|] g2 (H2 & Hl2 & Hlt); [|by split].
  apply wp_bind. cbn. exists (left (stop_cg i g2)). split.
  - specialize (Hlt ltac:(done)). pose proof (stop_left i (env g2)). unfold left in *. cbn. lia.
  - split; [|done]. apply (stop_cg_st i) in H2. cbn [v_cgs set_cgs] in H2. by rewrite undo_cg in H2.
Qed.

Lemma negotiate_spec ctx info cfg prot v g : st v g -> wp (new_group v) (negotiate ctx info cfg prot) g.
Proof.
  intros Hg. unfold negotiate. eapply wp_call; [exact Hg|]. clear g Hg. intros sse g Hg.
  apply wp_bind. apply wp_mono with (fun _ g => st v g).
  2:{ destruct sse; [|eapply wp_call with (k := Ret); [exact Hg|done]].
      eapply wp_choose; [exact Hg|]. intros [l|] g' Hg'; [done|]. by eapply wp_call with (k := Ret). }
  clear g Hg. intros [offers|e] g Hg; [|done].
  eapply wp_reads; [exact Hg|]. intros c _. destruct c; [done|].
  apply wp_bind. apply wp_mono with (fun r g => new_group v (match r with Ok (i, _) => Ok i | Err e => Err e end) g).
  - clear g Hg. intros [[i answers]|e] g Hr; [|done]. destruct Hr as [Hi Hr].
    eapply wp_call; [exact Hr|]. intros [u|e] g1 H1; [|by eapply wp_undo_cg].
    eapply wp_call; [exact H1|]. intros [u'|e] g2 H2; [done|by eapply wp_undo_cg].
  - by apply refresh_spec.
Qed.

(** ** Phases *)

Inductive phase := Idle | Pending (i : nat) | Web (i t : nat) | Xr (t : nat) | Half.

(** [x0] is the xray instance of the server, if it has one.  [Half] is a
    client whose xray instance reported an error when it was closed: it still
    counts as running, but has nothing left. *)
Definition view_at (x0 : option I) (ph : phase) (v : view) : Prop :=
  match ph with
  | Idle => exists p, v = mkView false false None None None false ∅ ∅ None x0 p false
  | Pending i => exists p, v = mkView false true (Some i) None None false {[i]} ∅ None x0 p false
  | Web i t => v = mkView true false None (Some t) (Some i) true {[i]} {[t]} (Some (Some i)) x0 true false
  | Xr t => x0 = None /\ exists p inst, v = mkView true false None (Some t) None true ∅ {[t]} (Some None) (Some inst) p false
  | Half => x0 = None /\ exists p, v = mkView true false None None None false ∅ ∅ None None p false
  end.

Definition at_phase (x0 : option I) (ph : phase) (g : G) : Prop := view_at x0 ph (view_of g) /\ bounded g.

Lemma at_phase_st x0 ph v g : st v g -> view_at x0 ph v -> at_phase x0 ph g.
Proof. intros [<- Hb] Hv. by split. Qed.

(** A client that is connecting, inside one of the entry points. *)
Definition connecting (x0 : option I) (p : bool) : view := mkView false true None None None false ∅ ∅ None x0 p false.

(** What a call may answer and where it may lead.  [CStart], [CConnect] and
    [CTunnel] are refused in other phases; [CFail i] is the failure of the
    active group, [CAsk] a call that only asks. *)
Inductive client_call := CStart | CConnect | CTunnel | CStop | CFail (i : nat) | CAsk.

Definition spec_step (c : client_call) (ph : phase) (ok : bool) (ph' : phase) : Prop :=
  match c, ph with
  | CStart, Idle => if ok then exists t, ph' = Xr t \/ exists i, ph' = Web i t else ph' = Idle
  | CConnect, Idle => if ok then exists i, ph' = Pending i else ph' = Idle
  | CTunnel, Pending i => if ok then exists t, ph' = Web i t else ph' = Idle
  | CStop, Xr _ => if ok then ph' = Idle else ph' = Half
  | CStop, _ => ok = true /\ ph' = Idle
  | CFail i, Web j t => i = j /\ ok = true /\ (ph' = Idle \/ exists k, ph' = Web k t)
  | CAsk, _ => ph' = ph
  | _, _ => ok = false /\ ph' = ph
  end.

(** *** Stopping *)

Lemma view_fields v g : view_of g = v ->
  clientRunning (cl g) = v_running v /\ clientConnecting (cl g) = v_connecting v /\
  pendingWebRTCClientGroup (cl g) = v_pending v /\ activeTunnel (cl g) = v_tunnel v /\
  activeWebRTCClientGroup (cl g) = v_group v /\ Url.is_some (clientDoneCh (cl g)) = v_done v /\
  live_cgs (rs g) = v_cgs v /\ live_tuns (rs g) = v_tuns v /\ xi g = v_xray v /\ savedProtectFn (cl g) = v_protect v /\
  panicked (rs g) = v_panic v.
Proof. intros <-. by split_and!. Qed.

Lemma cancel_connect_st v g : st v g -> st v (cancel_connect g).
Proof. intros Hg. unfold cancel_connect. destruct (clientConnectCancel (cl g)); [|done]. by eapply silent_st. Qed.

Lemma signal_done_st v g : st v g ->
  st (mkView (v_running v) (v_connecting v) (v_pending v) (v_tunnel v) (v_group v) false (v_cgs v) (v_tuns v) (v_dial v)
        (v_xray v) (v_protect v) (v_panic v)) (signal_done g).
Proof.
  intros [<- Hb]. unfold signal_done. destruct (clientDoneCh (cl g)) as [c|] eqn:Ed; [|by split; [unfold view_of; rewrite Ed|]].
  destruct (is_open DoneCh c g) eqn:Eo; [unfold close_chan; rewrite Eo|]; by split.
Qed.

Lemma stop_xray_st v g : st v g ->
  match stop_xray g with
  | (Ok _, g') => st (set_xray None v) g'
  | (Err _, g') => v_xray v <> None /\ st (set_xray None v) g'
  end.
Proof.
  intros [<- Hb]. unfold stop_xray, with_engine, StopXray. cbn [instance eng_env]. destruct (xi g) as [inst|] eqn:Ex.
  - destruct (core_close inst (env g)) as [[u|e] e'] eqn:Ec; cbn; [by split|]. rewrite Ex. split; [done|by split].
  - cbn. split; [|done]. unfold view_of, set_xray. done.
Qed.

Lemma stop_tunnel_st v g : st v g -> v_tuns v = match v_tunnel v with Some t => {[t]} | None => ∅ end ->
  st (mkView (v_running v) (v_connecting v) (v_pending v) None (v_group v) (v_done v) (v_cgs v) ∅ None
        (v_xray v) (v_protect v) (v_panic v)) (stop_tunnel g).
Proof.
  intros [<- Hb] Ht. unfold stop_tunnel. cbn in Ht. destruct (activeTunnel (cl g)) as [t|] eqn:Et.
  - split; [unfold view_of; cbn; f_equal; set_solver|]. intros j Hj. apply Hb. cbn in Hj. set_solver.
  - split; [|done]. unfold view_of. cbn. by rewrite Et, Ht.
Qed.

Lemma cancel_connecting_st x0 i p g :
  st (mkView false true i None None false (match i with Some i => {[i]} | None => ∅ end) ∅ None x0 p false) g ->
  st (mkView false false None None None false ∅ ∅ None x0 p false) (cancel_connecting g).
Proof.
  intros Hg. destruct (view_fields _ _ (proj1 Hg)) as (_ & Hc & _). cbn in Hc. unfold cancel_connecting. rewrite Hc.
  set (g1 := on_cl (set_clientConnecting false) g).
  assert (H1 : st (mkView false false i None None false (match i with Some i => {[i]} | None => ∅ end) ∅ None x0 p false) g1).
  { destruct Hg as [Hv Hb]. split; [|done]. subst g1. unfold view_of in *. cbn in *. congruence. }
  apply cancel_connect_st in H1. revert H1. generalize (cancel_connect g1). clear -AG. intros g Hg. unfold stop_pending.
  destruct (view_fields _ _ (proj1 Hg)) as (_ & _ & Hp & _). cbn in Hp. rewrite Hp.
  destruct i as [i|]; [|done]. apply (stop_cg_st i) in Hg. destruct Hg as [Hv Hb]. split; [|done].
  unfold view_of, set_cgs in *. cbn in *. injection Hv; intros; f_equal; try done. set_solver.
Qed.

(** The end of [stop_client], when the engine has been stopped. *)
Lemma stopped_st v g : st v g ->
  st (mkView false (v_connecting v) (v_pending v) (v_tunnel v) (v_group v) (v_done v) (v_cgs v) (v_tuns v) (v_dial v)
        (v_xray v) false (v_panic v))
    (on_cl (fun c => set_reconnectCount 0 (set_savedProtectFn false c)) (cancel_connect (on_cl client_stopped g))).
Proof.
  intros [<- Hb]. unfold cancel_connect. cbn. destruct (clientConnectCancel (cl g)); by split.
Qed.

Lemma stop_active_st v i g : st v g -> v_cgs v = {[i]} ->
  st (mkView (v_running v) (v_connecting v) (v_pending v) (v_tunnel v) None (v_done v) ∅ (v_tuns v) (v_dial v)
        (v_xray v) (v_protect v) (v_panic v)) (on_cl (set_activeWebRTCClientGroup None) (stop_cg i g)).
Proof.
  intros Hg Hc. pose proof (stop_cg_st i v g Hg) as [Hv Hb]. split; [|done]. rewrite Hc in Hv.
  replace ({[i]} ∖ {[i]} : gset nat) with (∅ : gset nat) in Hv by set_solver.
  unfold view_of, set_cgs in *. cbn in *. congruence.
Qed.

(** [stop_client] of a running client, up to the engine. *)
Lemma stop_half_st v g : st v g -> v_running v = true -> v_connecting v = false ->
  v_tuns v = match v_tunnel v with Some t => {[t]} | None => ∅ end ->
  let g1 := on_rs (set_callbacks 0) (stop_tunnel (signal_done (cancel_connecting g))) in
  clientRunning (cl (cancel_connecting g)) = true /\
  st (mkView true false (v_pending v) None (v_group v) false (v_cgs v) ∅ None (v_xray v) (v_protect v) (v_panic v)) g1.
Proof.
  intros Hg Hr Hc Ht. destruct (view_fields _ _ (proj1 Hg)) as (Er & Ec & _).
  unfold cancel_connecting. rewrite Ec, Hc. split; [congruence|].
  apply signal_done_st in Hg. apply stop_tunnel_st in Hg; [|done]. cbn in Hg. rewrite Hr, Hc in Hg.
  eapply silent_st; [|exact Hg]. by split_and!.
Qed.

Lemma stop_client_spec x0 ph g : at_phase x0 ph g ->
  exists ph', spec_step CStop ph (is_ok (stop_client g).1) ph' /\ at_phase x0 ph' (stop_client g).2.
Proof.
  intros [Hv Hb]. unfold stop_client. destruct ph as [|i|i t|t|]; cbn [view_at] in Hv.
  - destruct Hv as [p Hv]. destruct (view_fields _ _ Hv) as (Hr & Hc & _). cbn in Hr, Hc.
    unfold cancel_connecting. rewrite Hc, Hr. exists Idle. split; [done|]. split; [by exists p|done].
  - destruct Hv as [p Hv]. pose proof (cancel_connecting_st x0 (Some i) p g (conj Hv Hb)) as Hg.
    destruct (view_fields _ _ (proj1 Hg)) as (Hr & _). cbn in Hr. rewrite Hr. exists Idle. split; [done|].
    eapply at_phase_st; [exact Hg|]. by exists p.
  - destruct (stop_half_st _ g (conj Hv Hb)) as [Hr Hg]; [done..|]. rewrite Hr. cbn [negb]. cbv zeta in Hg. unfold stop_engine.
    destruct (view_fields _ _ (proj1 Hg)) as (_ & _ & _ & _ & Ha & _). cbn [v_group] in Ha. rewrite Ha.
    apply (stop_active_st _ i) in Hg; [|done]. exists Idle. split; [done|].
    eapply at_phase_st; [apply stopped_st; exact Hg|]. by exists false.
  - destruct Hv as (-> & p & inst & Hv). destruct (stop_half_st _ g (conj Hv Hb)) as [Hr Hg]; [done..|]. rewrite Hr. cbn [negb].
    cbv zeta in Hg. unfold stop_engine. destruct (view_fields _ _ (proj1 Hg)) as (_ & _ & _ & _ & Ha & _). cbn [v_group] in Ha. rewrite Ha.
    apply stop_xray_st in Hg. destruct (stop_xray _) as [[u|e] g'].
    + exists Idle. split; [done|]. eapply at_phase_st; [apply stopped_st; exact Hg|]. by exists false.
    + exists Half. split; [done|]. eapply at_phase_st; [exact (proj2 Hg)|]. split; [done|]. by exists p.
  - destruct Hv as (-> & p & Hv). destruct (stop_half_st _ g (conj Hv Hb)) as [Hr Hg]; [done..|]. rewrite Hr. cbn [negb].
    cbv zeta in Hg. unfold stop_engine. destruct (view_fields _ _ (proj1 Hg)) as (_ & _ & _ & _ & Ha & _). cbn [v_group] in Ha. rewrite Ha.
    apply stop_xray_st in Hg. destruct (stop_xray _) as [[u|e] g'].
    + exists Idle. split; [done|]. eapply at_phase_st; [apply stopped_st; exact Hg|]. by exists false.
    + by destruct Hg as [Hx _].
Qed.

(** *** Connecting *)

Lemma begin_connect_spec x0 ph g : at_phase x0 ph g ->
  match begin_connect g with
  | (None, g') => ph <> Idle /\ g' = g
  | (Some _, g') => ph = Idle /\ exists p, st (connecting x0 p) g'
  end.
Proof.
  intros [Hv Hb]. unfold begin_connect. destruct ph as [|i|i t|t|]; cbn [view_at] in Hv.
  - destruct Hv as [p Hv]. destruct (view_fields _ _ Hv) as (Hr & Hc & _). cbn in Hr, Hc. rewrite Hr, Hc. cbn [orb WithCancel fresh].
    split; [done|]. exists p. split; [|intros i Hi; specialize (Hb i Hi); cbn; lia].
    unfold view_of, connecting in *. cbn in *. congruence.
  - destruct Hv as [p Hv]. destruct (view_fields _ _ Hv) as (Hr & Hc & _). cbn in Hr, Hc. by rewrite Hr, Hc.
  - destruct (view_fields _ _ Hv) as (Hr & _). cbn in Hr. by rewrite Hr.
  - destruct Hv as (_ & p & inst & Hv). destruct (view_fields _ _ Hv) as (Hr & _). cbn in Hr. by rewrite Hr.
  - destruct Hv as (_ & p & Hv). destruct (view_fields _ _ Hv) as (Hr & _). cbn in Hr. by rewrite Hr.
Qed.

Lemma not_connecting_st x0 p g : st (connecting x0 p) g ->
  st (mkView false false None None None false ∅ ∅ None x0 p false) (on_cl (set_clientConnecting false) g).
Proof. intros [Hv Hb]. split; [|done]. unfold view_of, connecting in *. cbn in *. congruence. Qed.

Lemma abort_idle x0 p g : st (connecting x0 p) g -> at_phase x0 Idle (abort_start g) /\ at_phase x0 Idle (abort_connect g).
Proof.
  intros Hg. apply not_connecting_st in Hg. split.
  - eapply at_phase_st; [apply cancel_connect_st; exact Hg|]. by exists p.
  - unfold abort_connect, stop_pending. destruct (view_fields _ _ (proj1 Hg)) as (_ & _ & Hp & _). cbn [v_pending] in Hp.
    rewrite Hp. eapply at_phase_st; [apply cancel_connect_st; exact Hg|]. by exists p.
Qed.

(** An entry point refines its step when its body, started in the connecting
    state, reaches a good phase or leaves that state as it was. *)
Lemma guarded_spec {A} c abort (body : nat -> prog G (res goerr A)) x0 ph g :
  abort = abort_start \/ abort = abort_connect ->
  (forall ph' ok, ph <> Idle -> spec_step c ph ok ph' <-> ok = false /\ ph' = ph) ->
  spec_step c Idle false Idle ->
  (forall p ctx g, st (connecting x0 p) g ->
     wp (fun r g => match r with
                    | Ok _ => exists ph', spec_step c Idle true ph' /\ at_phase x0 ph' g
                    | Err _ => exists p, st (connecting x0 p) g
                    end) (body ctx) g) ->
  at_phase x0 ph g ->
  wp (fun r g => exists ph', spec_step c ph (is_ok r) ph' /\ at_phase x0 ph' g) (guarded abort body) g.
Proof.
  intros Hab Hbusy Hidle Hbody Hg. unfold guarded. apply wp_bind. cbn. pose proof (begin_connect_spec x0 ph g Hg) as Hs.
  destruct (begin_connect g) as [[ctx|] g1]; cbn.
  - destruct Hs as [-> [p Hs]]. apply wp_bind. eapply wp_mono; [|by apply (Hbody p)].
    intros [a|e] g2; cbn; [by intros (ph' & Hp & Hg2); exists ph'|].
    intros (p' & [H1 H2]%abort_idle). exists Idle. split; [done|]. by destruct Hab as [-> | ->].
  - destruct Hs as [Hne ->]. exists ph. split; [|done]. by apply Hbusy.
Qed.

(** *** Tunnels *)

Lemma start_tun_spec {X} d (f : Prog E X) v g : st v g -> v_tunnel v = None ->
  match started (add_tun d) f g with
  | (Err _, g') => st v g'
  | (Ok (t, _), g') => (t ∉ v_tuns v) /\ st (set_tuns ({[t]} ∪ v_tuns v) v) g' /\ dials (rs g') !! t = Some d
  end.
Proof.
  intros Hg Hno. unfold started. pose proof (silent_st v _ _ (silent_ext f g) Hg) as H1. destruct (ext f g) as [[a|e] g1]; [|done].
  cbn [snd fresh] in *. destruct H1 as [<- Hb]. cbn [v_cgs v_tuns v_tunnel view_of] in *.
  assert (Hn : forall j, j ∈ live_cgs (rs g1) ∪ live_tuns (rs g1) -> j <> next_id (rs g1)) by (intros j Hj%Hb; lia).
  split; [intros Hi; eapply Hn; [|reflexivity]; set_solver|]. split; [|cbn; by rewrite lookup_insert_eq].
  split; [unfold view_of, set_tuns; cbn; by rewrite Hno|]. intros i. cbn. intros Hi.
  assert (Hi' : i = next_id (rs g1) \/ i ∈ live_cgs (rs g1) ∪ live_tuns (rs g1)) by set_solver.
  destruct Hi' as [->|Hi']; [lia|]. specialize (Hb i Hi'). lia.
Qed.

Lemma wp_start_tun {X A} d (f : Prog E X) (k : res goerr (nat * X) -> prog G A) Q v g :
  st v g -> v_tunnel v = None ->
  (forall e g', st v g' -> wp Q (k (Err e)) g') ->
  (forall t a g', t ∉ v_tuns v -> st (set_tuns ({[t]} ∪ v_tuns v) v) g' -> dials (rs g') !! t = Some d -> wp Q (k (Ok (t, a))) g') ->
  wp Q (pbind (atom (started (add_tun d) f)) k) g.
Proof.
  intros Hg Hno He Ho. apply wp_bind. cbn. pose proof (start_tun_spec d f v g Hg Hno) as Hs.
  destruct (started (add_tun d) f g) as [[[t a]|e] g']; cbn; [destruct Hs as (Hi & Hs & Hd); by apply Ho|by apply He].
Qed.

Lemma stop_tun_st t v g : st v g -> st (set_tuns (v_tuns v ∖ {[t]}) v) (stop_tun t g).
Proof. intros [<- Hb]. split; [done|]. intros j Hj. apply Hb. cbn in Hj. set_solver. Qed.

Lemma set_running_st tun d v g : st v g -> dials (rs g) !! tun = Some d ->
  st (mkView true false (v_pending v) (Some tun) (v_group v) true (v_cgs v) (v_tuns v) (Some d) (v_xray v) (v_protect v) (v_panic v))
    (set_running tun g).
Proof.
  intros [<- Hb] Hd. split; [unfold view_of; cbn; by rewrite Hd|]. intros i Hi. specialize (Hb i Hi). cbn. lia.
Qed.

Lemma set_group_st grp v g : st v g ->
  st (mkView (v_running v) (v_connecting v) (v_pending v) (v_tunnel v) (Some grp) (v_done v) (v_cgs v) (v_tuns v) (v_dial v)
        (v_xray v) (v_protect v) (v_panic v)) (on_cl (set_activeWebRTCClientGroup (Some grp)) g).
Proof. intros [<- Hb]. by split. Qed.

Lemma after_running_spec grp v g : st v g -> wp (fun r g => r = Ok tt /\ st v g) (after_running grp) g.
Proof.
  intros Hg. unfold after_running. eapply wp_quiet; [intros ?; by split_and!|exact Hg|]. clear g Hg. intros g Hg.
  eapply wp_reads; [exact Hg|]. intros ch _. cbn. split; [done|]. eapply silent_st; [|exact Hg]. by split_and!.
Qed.

(** *** StartClient *)

(** The result of a body that runs inside [guarded]. *)
Definition body_post (x0 : option I) (c : client_call) {A} (r : res goerr A) (g : G) : Prop :=
  match r with
  | Ok _ => exists ph', spec_step c Idle true ph' /\ at_phase x0 ph' g
  | Err _ => exists p, st (connecting x0 p) g
  end.

Lemma set_cgs_empty i v : v_cgs v = ∅ -> set_cgs ({[i]} ∪ v_cgs v) v = set_cgs {[i]} v.
Proof. intros ->. f_equal. set_solver. Qed.

Lemma start_webrtc_spec x0 ctx info cfg fd p g : st (connecting x0 p) g ->
  wp (body_post x0 CStart) (start_client_webrtc ctx info cfg fd) g.
Proof.
  intros Hg. unfold start_client_webrtc. apply wp_bind. eapply wp_mono; [|by apply negotiate_spec].
  clear g Hg. intros [i|e] g Hg; [|by exists p]. destruct Hg as [Hi Hg].
  eapply wp_start_tun; [exact Hg|done| |].
  - intros e g' Hg'. eapply wp_undo_cg; [exact Hi|exact Hg'|]. intros g2 H2. by exists p.
  - intros t a g1 Ht H1 Hd. apply wp_bind. cbn [wp atom modify fst snd].
    set (g2 := on_cl _ g1).
    assert (H2 : st (mkView false true None None None false {[i]} {[t]} None x0 true false) g2 /\ dials (rs g2) !! t = Some (Some i)).
    { split; [|done]. destruct H1 as [Hv Hb]. split; [|exact Hb]. unfold view_of, set_tuns, set_cgs, connecting in *. cbn in *.
      injection Hv; intros; f_equal; try done; set_solver. }
    clearbody g2. destruct H2 as [H2 Hd2]. apply wp_bind. cbn. destruct (ctx_cancelled ctx g2); cbn [negb fst snd].
    + cbn. exists true. apply (stop_tun_st t), (stop_cg_st i) in H2. eapply st_eq; [exact H2|].
      unfold set_cgs, set_tuns, connecting. cbn. f_equal; set_solver.
    + apply (set_running_st t _ _ _ H2) in Hd2. apply (set_group_st i) in Hd2.
      eapply wp_mono; [|by eapply after_running_spec].
      intros r g3 [-> H3]. exists (Web i t). split; [by exists t; right; exists i|]. by eapply at_phase_st.
Qed.

Lemma start_client_xray_spec x0 info cfg fd p g : st (connecting x0 p) g ->
  wp (body_post x0 CStart) (start_client_xray info cfg fd) g.
Proof.
  intros Hg. unfold start_client_xray. eapply wp_reads; [exact Hg|]. intros c ->.
  destruct (view_fields _ _ (proj1 Hg)) as (_ & Hc & _). cbn [v_connecting connecting] in Hc. rewrite Hc. cbn [negb].
  eapply wp_quiet; [intros ?; apply silent_env|exact Hg|]. clear g Hg Hc. intros g Hg.
  apply wp_bind. cbn [wp atom fst snd].
  assert (Hx : match start_xray (BuildClientConfig (ci_PublicIP info) (ci_Port info) (ci_UUID info) (cc_SocksPort cfg)
                 (ci_ProxySettings info)) g with
    | (Ok _, g') => x0 = None /\ exists inst, st (set_xray (Some inst) (connecting x0 p)) g'
    | (Err _, g') => st (connecting x0 p) g'
    end).
  { destruct Hg as [Hv Hb]. assert (Hxi : xi g = x0) by (by apply view_fields in Hv as (_ & _ & _ & _ & _ & _ & _ & _ & ? & _)).
    unfold start_xray, with_engine, StartXray. cbn [instance eng_env]. rewrite Hxi. destruct x0 as [inst|]; cbn.
    - split; [|done]. rewrite <- Hv. unfold view_of. cbn. by rewrite Hxi.
    - destruct (core_new _ (env g)) as [[inst|e] e']; cbn.
      + split; [done|]. exists inst. split; [|done]. unfold view_of, set_xray, connecting in *. cbn in *. congruence.
      + split; [|done]. unfold view_of, connecting in *. cbn in *. congruence. }
  destruct (start_xray _ g) as [[u|e] g1]; cbn [fst snd]; [|by exists p]. clear g Hg. destruct Hx as [-> [inst H1]].
  eapply wp_start_tun; [exact H1|done| |].
  - intros e g2 H2. cbn. apply stop_xray_st in H2. exists p. destruct (stop_xray g2) as [[u'|e'] g3]; [exact H2|exact (proj2 H2)].
  - intros t a g2 Ht H2 Hd. apply wp_bind. cbn [wp atom fst snd].
    destruct (view_fields _ _ (proj1 H2)) as (_ & Hc & _). cbn [v_connecting set_tuns set_xray connecting] in Hc.
    rewrite Hc. cbn [negb fst snd wp]. exists (Xr t). split; [exists t; by left|].
    apply (set_running_st t _ _ _ H2) in Hd. destruct Hd as [Hv Hb].
    split; [|exact Hb]. split; [done|]. exists p, inst. unfold view_of, set_tuns, set_xray, connecting in *. cbn in *.
    injection Hv; intros; f_equal; try done. set_solver.
Qed.

Lemma busy_start ph ph' ok : ph <> Idle -> spec_step CStart ph ok ph' <-> ok = false /\ ph' = ph.
Proof. by destruct ph. Qed.
Lemma busy_connect ph ph' ok : ph <> Idle -> spec_step CConnect ph ok ph' <-> ok = false /\ ph' = ph.
Proof. by destruct ph. Qed.

Definition refines {A} (x0 : option I) (c : client_call) (ok : A -> bool) (p : prog G A) : Prop :=
  forall ph g, at_phase x0 ph g -> wp (fun r g => exists ph', spec_step c ph (ok r) ph' /\ at_phase x0 ph' g) p g.

Lemma StartClient_refines x0 code settings fd : refines x0 CStart is_ok (StartClient ip_literal code settings fd).
Proof.
  intros ph g Hg. unfold StartClient. eapply guarded_spec; [by left|intros; by apply busy_start|done| |exact Hg].
  clear -AG. intros p ctx g Hg.
  destruct (read_settings _ _ _) as [cfg|e]; [|by exists p]. destruct (normalize_client _ cfg) as [c|e]; [|by exists p].
  destruct (decode_info code) as [info|e]; [|by exists p]. destruct (is_holepunch info).
  - eapply wp_reads; [exact Hg|]. intros ctx' _. by eapply start_webrtc_spec.
  - by eapply start_client_xray_spec.
Qed.

Lemma pending_st x0 p i info cfg opts g : st (set_cgs ({[i]} ∪ ∅) (connecting x0 p)) g ->
  at_phase x0 (Pending i) (set_pending i info cfg opts g).
Proof.
  intros [Hv Hb]. split; [|exact Hb]. exists p. unfold view_of, set_cgs, connecting in *. cbn in *.
  injection Hv; intros; f_equal; try done. set_solver.
Qed.

Lemma ConnectWebRTC_refines x0 code settings : refines x0 CConnect is_ok (ConnectWebRTC code settings).
Proof.
  intros ph g Hg. unfold ConnectWebRTC. eapply guarded_spec; [by right|intros; by apply busy_connect|done| |exact Hg].
  clear -AG. intros p ctx g Hg.
  destruct (read_settings _ _ _) as [cfg|e]; [|by exists p]. destruct (decode_info code) as [info|e]; [|by exists p].
  destruct (negb _); [by exists p|]. apply wp_bind. eapply wp_mono; [|by apply negotiate_spec].
  clear g Hg. intros [i|e] g Hg; [|by exists p]. destruct Hg as [Hi Hg]. cbn.
  exists (Pending i). split; [by exists i|]. by apply pending_st with p.
Qed.

Lemma ProcessManualOffer_refines x0 code settings : refines x0 CConnect is_ok (ProcessManualOffer code settings).
Proof.
  intros ph g Hg. unfold ProcessManualOffer. eapply guarded_spec; [by right|intros; by apply busy_connect|done| |exact Hg].
  clear -AG. intros p ctx g Hg.
  destruct (read_settings _ _ _) as [cfg|e]; [|by exists p]. destruct (DecodeManualOffer _) as [offer|e]; [|by exists p].
  destruct (DecompressSDP _) as [sdp|e]; [|by exists p].
  eapply wp_call; [exact Hg|]. clear g Hg. intros sid g Hg. cbv zeta. apply wp_bind. cbn [wp atom fst snd].
  match goal with |- context [start_group ?a ?b ?c ?d ?e g] =>
    pose proof (start_group_spec a b c d e _ g Hg) as Hs; destruct (start_group a b c d e g) as [[[i answers]|er] g1]
  end; cbn [fst snd]; [|by exists p]. destruct Hs as (Hi & H1 & Ha & _).
  destruct answers as [|answer answers]; [done|].
  destruct (CompressSDP answer) as [c|e]; [|eapply wp_undo_cg; [exact Hi|exact H1|]; intros; by exists p].
  destruct (EncodeManualAnswer _) as [code'|e]; [|eapply wp_undo_cg; [exact Hi|exact H1|]; intros; by exists p].
  cbn. exists (Pending i). split; [by exists i|]. by apply pending_st with p.
Qed.

Lemma StartTunnel_refines x0 fd : refines x0 CTunnel is_ok (StartTunnel fd).
Proof.
  intros ph g [Hv Hb]. unfold StartTunnel. apply wp_bind. cbn [wp atom fst snd]. unfold take_pending.
  assert (Hno : forall b, clientConnecting (cl g) = b -> b = false ->
    (match clientConnecting (cl g), pendingWebRTCClientGroup (cl g) with
     | true, Some grp => (Some (grp, savedClientCfg (cl g)), on_cl (set_pendingWebRTCClientGroup None) g)
     | _, _ => (None, g) end) = (None, g)) by (intros b -> ->; done).
  destruct ph as [|i|i t|t|]; cbn [view_at] in Hv.
  - destruct Hv as [p Hv]. rewrite (Hno false) by (by destruct (view_fields _ _ Hv) as (_ & Hc & _)).
    exists Idle. split; [done|]. split; [by exists p|done].
  - destruct Hv as [p Hv]. destruct (view_fields _ _ Hv) as (_ & Hc & Hp & _). cbn [v_connecting v_pending] in Hc, Hp.
    rewrite Hc, Hp. cbn [fst snd]. set (g1 := on_cl _ g).
    assert (H1 : st (set_cgs ({[i]} ∪ ∅) (connecting x0 p)) g1).
    { split; [|exact Hb]. subst g1. unfold view_of, set_cgs, connecting in *. cbn in *. injection Hv; intros; f_equal; try done. set_solver. }
    clearbody g1. clear Hno Hv Hb Hc Hp.
    assert (Hi : i ∉ v_cgs (connecting x0 p)) by set_solver.
    assert (Hend : forall (e : goerr) g', st (set_cgs ({[i]} ∪ v_cgs (connecting x0 p)) (connecting x0 p)) g' ->
      wp (fun (r : res goerr unit) g => exists ph', spec_step CTunnel (Pending i) (is_ok r) ph' /\ at_phase x0 ph' g)
        (do _ := modify (stop_cg i) in do _ := modify not_connecting in Ret (Err e)) g').
    { intros e g' Hg'. eapply wp_undo_cg; [exact Hi|exact Hg'|]. intros g2 H2. cbn. exists Idle. split; [done|].
      eapply at_phase_st; [apply not_connecting_st; exact H2|]. by exists p. }
    eapply wp_call; [exact H1|]. intros [u|e] g2 H2; [|by apply Hend].
    eapply wp_start_tun; [exact H2|done|intros e g3 H3; by apply Hend|]. intros t a g3 Ht H3 Hd.
    apply wp_bind. cbn [wp atom modify fst snd]. set (g4 := on_cl (set_savedProtectFn true) g3).
    assert (H4 : st (mkView false true None None None false {[i]} {[t]} None x0 true false) g4 /\ dials (rs g4) !! t = Some (Some i)).
    { split; [|done]. destruct H3 as [Hv Hb]. split; [|exact Hb]. unfold view_of, set_tuns, set_cgs, connecting in *. cbn in *.
      injection Hv; intros; f_equal; try done; set_solver. }
    clearbody g4. destruct H4 as [H4 Hd4]. apply (set_running_st t _ _ _ H4), (set_group_st i) in Hd4.
    apply wp_bind. cbn [wp atom modify fst snd]. eapply wp_mono; [|by eapply after_running_spec].
    intros r g5 [-> H5]. exists (Web i t). split; [by exists t|]. by eapply at_phase_st.
  - rewrite (Hno false) by (by destruct (view_fields _ _ Hv) as (_ & Hc & _)). exists (Web i t). split; [done|]. by split.
  - pose proof Hv as (_ & p & inst & Hv'). rewrite (Hno false) by (by destruct (view_fields _ _ Hv') as (_ & Hc & _)).
    exists (Xr t). split; [done|]. by split.
  - pose proof Hv as (_ & p & Hv'). rewrite (Hno false) by (by destruct (view_fields _ _ Hv') as (_ & Hc & _)).
    exists Half. split; [done|]. by split.
Qed.

Lemma StopClient_refines x0 : refines x0 CStop is_ok StopClient.
Proof. intros ph g Hg. by apply stop_client_spec. Qed.

(** *** A failed connection *)

Lemma stop_and_end_idle x0 i t g : at_phase x0 (Web i t) g -> wp (fun _ g => at_phase x0 Idle g) stop_and_end g.
Proof.
  intros Hg. unfold stop_and_end. apply wp_bind. cbn. destruct (stop_client_spec x0 (Web i t) g Hg) as (ph' & Hs & Hp).
  by destruct Hs as [_ ->].
Qed.

Definition web (x0 : option I) (i t : nat) : view :=
  mkView true false None (Some t) (Some i) true {[i]} {[t]} (Some (Some i)) x0 true false.

Lemma swap_st x0 i j t g : st (set_cgs ({[j]} ∪ {[i]}) (web x0 i t)) g ->
  (swap_client j g).1 = true /\
  st (mkView true false None (Some t) (Some j) true ({[j]} ∪ {[i]}) {[t]} (Some (Some j)) x0 true false) (swap_client j g).2.
Proof.
  intros [Hv Hb]. unfold swap_client. destruct (view_fields _ _ Hv) as (Hr & _ & _ & Ht & _).
  cbn [v_running v_tunnel set_cgs web] in Hr, Ht. rewrite Hr, Ht. split; [done|]. split; [|exact Hb].
  unfold view_of, set_cgs, web in *. cbn in *. rewrite Ht in Hv |- *. cbn in *. rewrite lookup_insert_eq.
  injection Hv; intros; f_equal; done.
Qed.

Lemma reconnect_spec x0 i t g : at_phase x0 (Web i t) g ->
  wp (fun _ g => at_phase x0 Idle g \/ exists j, at_phase x0 (Web j t) g) attemptFastReconnect g.
Proof.
  intros [Hv Hb]. assert (Hg : st (web x0 i t) g) by by split. clear Hv Hb.
  assert (Hstop : forall g, st (web x0 i t) g ->
    wp (fun _ g => at_phase x0 Idle g \/ exists j, at_phase x0 (Web j t) g) stop_and_end g).
  { intros g' [Hv' Hb']. eapply wp_mono; [|apply (stop_and_end_idle x0 i t); by split]. by left. }
  unfold attemptFastReconnect. apply wp_bind. cbn [wp atom fst snd]. unfold begin_reconnect.
  destruct (view_fields _ _ (proj1 Hg)) as (Hr & _ & _ & _ & Ha & _ & _ & _ & _ & Hp & _).
  cbn [v_running v_group v_protect web] in Hr, Ha, Hp.
  destruct (negb _ || _).
  { cbn [fst snd]. eapply wp_reads; [exact Hg|]. intros used _. destruct used; [by apply Hstop|].
    right. exists i. by eapply at_phase_st. }
  cbn [fst snd]. set (g1 := on_cl _ g). assert (H1 : st (web x0 i t) g1) by (eapply silent_st; [|exact Hg]; by split_and!).
  set (a := mkReconnect _ _ _ _ _ _). assert (Hold : ra_old a = Some i) by done. assert (Hprot : ra_protect a = true) by done.
  clearbody g1 a. clear g Hg Hr Ha Hp. cbv zeta.
  unfold reconnect_offers. apply wp_bind.
  eapply wp_choose; [exact H1|]. clear g1 H1. intros d g Hg. rewrite Hprot, andb_false_r.
  apply wp_mono with (fun _ g => st (web x0 i t) g); [|eapply wp_call with (k := Ret); [exact Hg|done]].
  clear g Hg. intros [offers|e] g Hg; [|by apply Hstop]. unfold start_group.
  eapply wp_start_cg; [exact Hg|intros e g' Hg'; by apply Hstop|]. clear g Hg. intros j answers g Hj Hg.
  eapply wp_call; [exact Hg|]. clear g Hg. intros [u|e] g Hg; [|eapply wp_undo_cg; [exact Hj|exact Hg|]; intros g' Hg'; by apply Hstop].
  eapply wp_call; [exact Hg|]. clear g Hg. intros [u'|e] g Hg; [|eapply wp_undo_cg; [exact Hj|exact Hg|]; intros g' Hg'; by apply Hstop].
  apply wp_bind. cbn [wp atom fst snd]. destruct (swap_st _ _ _ _ _ Hg) as [Hok H1].
  destruct (swap_client j g) as [ok g1]. cbn [fst snd] in *. subst ok. cbn [negb]. rewrite Hold. cbn.
  right. exists j. apply (stop_cg_st i) in H1. eapply at_phase_st; [exact H1|]. cbn [view_at]. unfold set_cgs. cbn. f_equal.
  cbn in Hj. set_solver.
Qed.

Lemma ice_failure_spec x0 i t g : at_phase x0 (Web i t) g ->
  wp (fun _ g => exists ph', spec_step (CFail i) (Web i t) true ph' /\ at_phase x0 ph' g) (ice_failure i) g.
Proof.
  intros Hg. unfold ice_failure. apply wp_bind. cbn. set (g1 := on_rs _ g).
  assert (H1 : at_phase x0 (Web i t) g1) by exact Hg. clearbody g1. case_bool_decide.
  - eapply wp_mono; [|by apply (reconnect_spec x0 i t)]. intros _ g2 [Hi|[j Hj]]; [by exists Idle; auto|].
    exists (Web j t). eauto 6.
  - exists (Web i t). eauto 7.
Qed.

Lemma ask_refines {A} x0 (p : prog G A) ok :
  (forall v g, st v g -> wp (fun _ g => st v g) p g) -> refines x0 CAsk ok p.
Proof.
  intros Hp ph g [Hv Hb]. eapply wp_mono; [|by apply (Hp (view_of g) g)]. intros r g' Hg'. exists ph. split; [done|].
  eapply at_phase_st; [exact Hg'|exact Hv].
Qed.

Lemma WaitManualConnection_refines x0 secs ok : refines x0 CAsk ok (WaitManualConnection secs).
Proof.
  apply ask_refines. intros v g Hg. unfold WaitManualConnection. eapply wp_reads; [exact Hg|]. intros [grp|] _; [|done].
  eapply wp_call; [exact Hg|]. by intros [].
Qed.

Lemma GetClientStatus_refines x0 ok : refines x0 CAsk ok GetClientStatus.
Proof.
  apply ask_refines. intros v g Hg. cbn. eapply silent_st; [|exact Hg]. unfold client_status.
  destruct (match activeTunnel _ with Some _ => _ | None => _ end) as [up down].
  destruct (rate_update _ _ _ _) as [[ru rd] rt]. destruct (match activeWebRTCClientGroup _ with Some _ => _ | None => _ end) as [[x y] z].
  by split_and!.
Qed.

(** ** Calls one after another *)

Inductive op :=
| OStart (code settings : string) (fd : Z) | OConnect (code settings : string) | OOffer (code settings : string)
| OTunnel (fd : Z) | OStop | OFail (grp : nat) | OWait (secs : Z) | OStatus.

(** The call, with whether it succeeded. *)
Definition op_prog (o : op) : prog G bool :=
  match o with
  | OStart code settings fd => do r := StartClient ip_literal code settings fd in Ret (is_ok r)
  | OConnect code settings => do r := ConnectWebRTC code settings in Ret (is_ok r)
  | OOffer code settings => do r := ProcessManualOffer code settings in Ret (is_ok r)
  | OTunnel fd => do r := StartTunnel fd in Ret (is_ok r)
  | OStop => do r := StopClient in Ret (is_ok r)
  | OFail grp => do _ := ice_failure grp in Ret true
  | OWait secs => do r := WaitManualConnection secs in Ret (is_ok r)
  | OStatus => do _ := GetClientStatus in Ret true
  end.

Definition op_call (o : op) : client_call :=
  match o with
  | OStart _ _ _ => CStart
  | OConnect _ _ | OOffer _ _ => CConnect
  | OTunnel _ => CTunnel
  | OStop => CStop
  | OFail grp => CFail grp
  | OWait _ | OStatus => CAsk
  end.

(** Only the connection of the running client fails. *)
Definition enabled (o : op) (g : G) : Prop :=
  match o with OFail grp => activeWebRTCClientGroup (cl g) = Some grp | _ => True end.

(** Calls that do not overlap, with their answers. *)
Inductive serial : list (op * bool) -> G -> G -> Prop :=
| serial_nil g : serial [] g g
| serial_cons o r ts l g g1 g2 :
    enabled o g -> runs (op_prog o) g r ts g1 -> serial l g1 g2 -> serial ((o, r) :: l) g g2.

Inductive spec_run : list (op * bool) -> phase -> phase -> Prop :=
| spec_nil ph : spec_run [] ph ph
| spec_cons o r l ph ph1 ph2 : spec_step (op_call o) ph r ph1 -> spec_run l ph1 ph2 -> spec_run ((o, r) :: l) ph ph2.

Definition op_post (x0 : option I) (o : op) (ph : phase) (r : bool) (g : G) : Prop :=
  exists ph', spec_step (op_call o) ph r ph' /\ at_phase x0 ph' g.

Lemma op_of_refines {A} x0 c ok (p : prog G A) ph g : refines x0 c ok p -> at_phase x0 ph g ->
  wp (fun r g => exists ph', spec_step c ph r ph' /\ at_phase x0 ph' g) (do a := p in Ret (ok a)) g.
Proof. intros Hp Hg. apply wp_bind. eapply wp_mono; [|by apply Hp]. done. Qed.

Lemma op_refines x0 o ph g : at_phase x0 ph g -> enabled o g -> wp (op_post x0 o ph) (op_prog o) g.
Proof.
  intros Hg He. destruct o as [code settings fd|code settings|code settings|fd| |grp|secs|]; unfold op_post; cbn [op_prog op_call].
  - eapply op_of_refines; [apply StartClient_refines|done].
  - eapply op_of_refines; [apply ConnectWebRTC_refines|done].
  - eapply op_of_refines; [apply ProcessManualOffer_refines|done].
  - eapply op_of_refines; [apply StartTunnel_refines|done].
  - eapply op_of_refines; [apply StopClient_refines|done].
  - cbn in He. assert (Hph : exists t, ph = Web grp t).
    { destruct Hg as [Hv _]. destruct ph as [|i|i t|t|]; cbn [view_at] in Hv; [destruct Hv as [p Hv]|destruct Hv as [p Hv]| |
        destruct Hv as (_ & p & inst & Hv)|destruct Hv as (_ & p & Hv)]; apply view_fields in Hv as (_ & _ & _ & _ & Ha & _);
        cbn in Ha; rewrite Ha in He; simplify_eq. by exists t. }
    destruct Hph as [t ->]. apply wp_bind. eapply wp_mono; [|by apply (ice_failure_spec x0 grp t)]. done.
  - by eapply op_of_refines; [apply WaitManualConnection_refines|].
  - by eapply (op_of_refines x0 CAsk (fun _ => true)); [apply GetClientStatus_refines|].
Qed.

Lemma serial_refines x0 l ph g g' : serial l g g' -> at_phase x0 ph g ->
  exists ph', spec_run l ph ph' /\ at_phase x0 ph' g'.
Proof.
  intros Hs. revert ph. induction Hs as [g|o r ts l g g1 g2 He Hr _ IH]; intros ph Hg; [exists ph; split; [constructor|done]|].
  destruct (wp_runs _ _ _ _ _ _ Hr (op_refines x0 o ph g Hg He)) as (ph1 & Hs1 & Hg1).
  destruct (IH ph1 Hg1) as (ph2 & Hs2 & Hg2). exists ph2. split; [by econstructor|done].
Qed.

End spec.

(** C1: client calls that do not overlap refine the automaton of phases:
    whatever the other components answer, every answer and every change of
    phase is one that [spec_step] allows, and the groups and tunnels that are
    alive, where the tunnel sends its streams, the xray instance and the
    variables are exactly those of the phase, so a failure on any path leaves
    nothing behind and nothing panics.  The next call comes to an end, if the
    server refreshes its offers finitely often. *)
Theorem client_calls_refine {I E : Type} `{ApiEnv E} `{!ClientEnv E} `{XrayCore I E} `{ApiJson} `{Flate}
    (ip_literal : string -> option string) (x0 : option I) (l : list (op * bool)) (g0 g : api I E) :
  at_phase x0 Idle g0 -> serial ip_literal l g0 g ->
  exists ph, spec_run l Idle ph /\ at_phase x0 ph g /\
    forall o, enabled o g -> ends (op_prog ip_literal o) g.
Proof.
  intros Hidle Hs. destruct (serial_refines ip_literal x0 l Idle g0 g Hs Hidle) as (ph & Hr & Hg). exists ph.
  split_and!; [done..|]. intros o He. eapply wp_ends. by apply (op_refines ip_literal x0 o ph).
Qed.

End ApiSpec.
