(* ===== verification/ApiServing.v ===== *)
(** * The contract of starting and stopping a server

    A group is only used when one of its offers has a reflexive candidate;
    groups without one are stopped, and after ten of them the start fails.  A
    start that fails leaves no group and no xray instance behind, and a stop
    releases what the start acquired.  Port mappings are accounted for by what
    the [nat] package is asked: a mapping stays when xray cannot be started
    ([ApiDemo] has such a run), and a stop withdraws it only if it was made
    over UPnP. *)

From S2P Require Import Prelude IO GoStr Codes Url Xray Peer Api Threads ApiState ApiServer.

Open Scope Z_scope.

Module ApiServing.

Import Xray Api ApiState ApiServer.

(** What the [nat] package has done for the server: mappings it has made, with
    the external port, the protocol and the method, and mappings it has been
    asked to remove. *)
Inductive lease_event := Lease (port : Z) (proto method : string) | Unlease (port : Z) (proto : string).

#[export] Instance lease_event_eq_dec : EqDecision lease_event.
Proof. solve_decision. Defined.

(** The names of the methods are those of [PortMap]; nothing but
    [nat.TryPortMapping] and [nat.RemoveUPnPMapping] touches the mappings. *)
Class MappingEnv (I E : Type) `{ApiEnv E} `{XrayCore I E} := {
  leases : E -> list lease_event;                                     (* newest first *)
  lease_made : forall i x proto opts e ip port method e',
    nat_TryPortMapping i x proto opts e = (Ok (ip, port, method), e') ->
    method <> "holepunch" /\ method <> "" /\ leases e' = Lease port proto method :: leases e;
  lease_refused : forall i x proto opts e er e', nat_TryPortMapping i x proto opts e = (Err er, e') -> leases e' = leases e;
  lease_removed : forall port proto e, leases (nat_RemoveUPnPMapping port proto e) = Unlease port proto :: leases e;
  leases_random : forall n e, leases (env_random n e).2 = leases e;
  leases_backoff : forall n e, leases (env_backoff n e) = leases e;
  leases_sg_Start : forall n ice key relay sid o e, leases (sg_Start n ice key relay sid o e).2 = leases e;
  leases_sg_Stop : forall i e, leases (sg_Stop i e) = leases e;
  leases_PostSDPOffers : forall url sid sdps e, leases (sig_PostSDPOffers url sid sdps e).2 = leases e;
  leases_DeregisterServer : forall url id e, leases (sig_DeregisterServer url id e).2 = leases e;
  leases_core_new : forall c e, leases (core_new c e).2 = leases e;
  leases_core_close : forall i e, leases (core_close i e).2 = leases e
}.

Section serving.
Context {I E : Type} `{AE : ApiEnv E} `{XC : XrayCore I E} `{ME : !MappingEnv I E} `{AJ : ApiJson} `{FL : Flate}.
Variable ip_literal : string -> option string.

Abbreviation G := (api I E).

(** What the contract talks about: live groups, the xray instance, the
    variables of the server that refer to them, and the port mappings. *)
Definition holds (g : G) : gset nat * option I * (bool * option nat * list nat * string) * list lease_event :=
  (live_sgs (rs g), xi g,
   (serverRunning (sv g), activeWebRTCServerGroup (sv g), drainingWebRTCServerGroups (sv g), serverMethod (sv g)),
   leases (env g)).

Definition numbered (g : G) : Prop := forall i, i ∈ live_sgs (rs g) -> (i < next_id (rs g))%nat.

(** A step that changes none of it. *)
Definition quiet (g g' : G) : Prop := holds g' = holds g /\ (next_id (rs g) <= next_id (rs g'))%nat.

Lemma quiet_refl g : quiet g g.
Proof. by split. Qed.
Lemma quiet_trans g1 g2 g3 : quiet g1 g2 -> quiet g2 g3 -> quiet g1 g3.
Proof. intros [Q1 M1] [Q2 N2]. split; [congruence|lia]. Qed.
Lemma quiet_numbered g g' : quiet g g' -> numbered g -> numbered g'.
Proof. intros [Hh Hn] Hg i. injection Hh as Hl _ _ _ _ _ _. rewrite Hl. intros Hi. specialize (Hg i Hi). lia. Qed.
Lemma quiet_ext {A} (f : Prog E A) g : (forall e, leases (f e).2 = leases e) -> quiet g (ext f g).2.
Proof. intros Hf. specialize (Hf (env g)). unfold ext. destruct (f (env g)) as [r e]. split; [|done]. unfold holds. cbn in *. by rewrite Hf. Qed.
Lemma quiet_on_env f g : (forall e, leases (f e) = leases e) -> quiet g (on_env f g).
Proof. intros Hf. split; [|done]. unfold holds. cbn. by rewrite Hf. Qed.
Lemma leases_generateUUID e : leases (generateUUID e).2 = leases e.
Proof. unfold generateUUID. pose proof (leases_random 16 e) as Hr. by destruct (env_random 16 e) as [[b|er] e']. Qed.
Lemma quiet_cancel c g : quiet g (cancel c g).
Proof. by split. Qed.
Lemma quiet_close k c g : quiet g (close_chan k c g).
Proof. unfold close_chan. by case_match. Qed.

Lemma quiet_listing g : quiet g (stop_listing g).
Proof.
  unfold stop_listing. case_bool_decide; [apply quiet_refl|].
  set (g1 := match heartbeatStop (sv g) with Some _ => _ | None => _ end).
  assert (Q1 : quiet g g1).
  { subst g1. destruct (heartbeatStop (sv g)) as [c|]; [|apply quiet_refl]. exact (quiet_close BeatCh c g). }
  pose proof (quiet_ext (sig_DeregisterServer (discoverySignalingURL (sv g1)) (discoveryListingID (sv g1))) g1 (leases_DeregisterServer _ _)) as Q2.
  destruct (ext _ g1) as [r g2]. cbn [snd] in Q2. exact (quiet_trans _ _ _ Q1 Q2).
Qed.

Lemma quiet_keepalive g : quiet g (close_keepalive g).
Proof. unfold close_keepalive. destruct (stunKeepaliveDone (sv g)) as [c|]; [|apply quiet_refl]. exact (quiet_close StunCh c g). Qed.

(** ** Groups with a reflexive candidate *)

(** [g'] is [g] with one more live group. *)
Definition one_more (g g' : G) (i : nat) : Prop :=
  (i ∉ live_sgs (rs g)) /\ live_sgs (rs g') = {[i]} ∪ live_sgs (rs g) /\ xi g' = xi g /\ sv g' = sv g /\
  leases (env g') = leases (env g).

Lemma StartServerGroup_spec a g : numbered g ->
  match StartServerGroup a g with
  | (Err _, g') => quiet g g' /\ sv g' = sv g
  | (Ok (i, _), g') => one_more g g' i /\ numbered g' /\ (next_id (rs g) <= next_id (rs g'))%nat
  end.
Proof.
  intros Hg. unfold StartServerGroup, started, ext.
  match goal with |- context [sg_Start ?n ?i ?k ?r ?s ?o (env g)] => pose proof (leases_sg_Start n i k r s o (env g)) as Hl end.
  destruct (sg_Start _ _ _ _ _ _ (env g)) as [[sdps|e] e']; cbn in *; [|split; [split; [unfold holds; cbn; by rewrite Hl|done]|done]].
  split; [split_and!; [|done..]; intros Hi%Hg; lia|]. split; [|lia]. intros i. cbn. intros [->%elem_of_singleton|Hi%Hg]%elem_of_union; lia.
Qed.

Lemma stop_one_more g g' i : one_more g g' i -> (next_id (rs g) <= next_id (rs g'))%nat ->
  quiet g (stop_sg i g') /\ sv (stop_sg i g') = sv g.
Proof.
  intros (Hi & Hl & Hx & Hs & Hle) Hn. split; [|done]. split; [|done]. unfold holds. cbn. rewrite Hl, Hx, Hs, leases_sg_Stop, Hle. do 3 f_equal. set_solver.
Qed.

Lemma start_with_srflx_spec n a g : numbered g ->
  match start_with_srflx n a g with
  | (Err _, g') => quiet g g' /\ sv g' = sv g
  | (Ok (i, sdps), g') => one_more g g' i /\ (next_id (rs g) <= next_id (rs g'))%nat /\ has_srflx sdps = true
  end.
Proof.
  revert g. induction n as [|n IH]; intros g Hg; [by split; [apply quiet_refl|]|]. cbn [start_with_srflx].
  pose proof (StartServerGroup_spec a g Hg) as Hs. destruct (StartServerGroup a g) as [[[i sdps]|e] g1]; [|done].
  destruct Hs as (Q1 & _ & Hn). destruct (has_srflx sdps) eqn:Hsr; [by split_and!|].
  destruct (stop_one_more g g1 i Q1 Hn) as [Hq Hsv]. set (g2 := on_env _ (stop_sg i g1)).
  assert (Q2 : quiet g g2) by (eapply quiet_trans; [exact Hq|apply quiet_on_env, leases_backoff]). assert (Hsv2 : sv g2 = sv g) by exact Hsv. clearbody g2. clear g1 Q1 Hn Hq Hsv Hsr.
  specialize (IH g2 (quiet_numbered _ _ Q2 Hg)). destruct (start_with_srflx n a g2) as [[[j sdps']|e] g3].
  - destruct IH as [(Hj & Hl & Hx & Hs & Hle) [Hn Hr]]. destruct Q2 as [Hh Hn2]. injection Hh as Hh1 Hh2 _ _ _ _ Hh3.
    split; [split_and!; congruence|]. split; [lia|done].
  - destruct IH as [Hq Hs]. split; [by eapply quiet_trans|congruence].
Qed.

(** ** Starting *)

Lemma start_mapped_spec cfg uuid ip port method g :
  match start_mapped cfg uuid ip port method g with
  | (Err e, g') => quiet g g' /\ exists e0, e = EWrap "start xray" e0
  | (Ok c, g') => xi g = None /\ exists inst info,
      holds g' = (live_sgs (rs g), Some inst, (true, activeWebRTCServerGroup (sv g), drainingWebRTCServerGroups (sv g), method), leases (env g)) /\
      serverInfo (sv g') = Some info /\ ci_Method info = method /\
      ci_Protocol info = Protocol (sc_proxy cfg) /\ ci_Transport info = Transport (sc_proxy cfg) /\
      c = Mapped (encode_info info) (GenerateVLESSLink uuid ip port (ci_ProxySettings info) "natproxy") /\
      ci_PublicIP info = ip /\ ci_Port info = port
  end.
Proof.
  unfold start_mapped, start_xray, with_engine, StartXray. cbn [instance eng_env]. destruct (xi g) as [inst|] eqn:Hx; cbn.
  - split; [|by eexists]. split; [|done]. unfold holds. cbn. by rewrite Hx.
  - match goal with |- context [core_new ?c (env g)] => pose proof (leases_core_new c (env g)) as Hl end.
    destruct (core_new _ (env g)) as [[inst|e] e']; cbn in *.
    + split; [done|]. exists inst, (mapped_info ip port uuid method (buildProxySettingsJSON cfg) cfg). split_and!; try done. unfold holds. cbn. by rewrite Hl.
    + split; [|by eexists]. split; [|done]. unfold holds. cbn. by rewrite Hx, Hl.
Qed.

Lemma nbind_inv {W A B} (m : Prog W A) (f : A -> Prog W B) w :
  (let* x := m in f x) w = match m w with (Ok a, w) => f a w | (Err e, w) => (Err e, w) end.
Proof. reflexivity. Qed.

(** The group of the accept loop is the active one, and it can be reached. *)
Definition punched (g g' : G) (lp : loopArgs * nat * list string) : Prop :=
  let '(p, i, offers) := lp in
  (i ∉ live_sgs (rs g)) /\ has_srflx offers = true /\
  holds g' = ({[i]} ∪ live_sgs (rs g), xi g, (true, Some i, drainingWebRTCServerGroups (sv g), "holepunch"), leases (env g)) /\
  serverCancel (sv g') = Some (lp_ctx p) /\ cancelled (lp_ctx p) g' = false.

(** A quiet first half. *)
Lemma bind_quiet {A B} (m : Prog G A) (f : A -> Prog G B) (P : res goerr B -> G -> Prop) g :
  quiet g (m g).2 ->
  (forall e g', quiet g g' -> P (Err e) g') ->
  (forall a g', quiet g g' -> P (f a g').1 (f a g').2) ->
  P ((let* x := m in f x) g).1 ((let* x := m in f x) g).2.
Proof. intros Hq He Ha. rewrite nbind_inv. destruct (m g) as [[a|e] g']; [by apply Ha|by apply He]. Qed.

Lemma quiet_wrap {A} c (f : Prog G A) g : quiet g (f g).2 -> quiet g (nwrap c f g).2.
Proof. unfold nwrap. by destruct (f g) as [[a|e] g']. Qed.

Definition punched_post (g : G) (r : res goerr (started_code * (loopArgs * nat * list string))) (g' : G) : Prop :=
  match r with
  | Err _ => quiet g g'
  | Ok (c, lp) => punched g g' lp /\ exists info, serverInfo (sv g') = Some info /\ c = Punched (encode_info info)
  end.

Lemma punched_trans g g1 r g' : quiet g g1 -> punched_post g1 r g' -> punched_post g r g'.
Proof.
  intros Hq. destruct r as [[c [[p i] offers]]|e]; cbn; [|by apply quiet_trans].
  destruct Hq as [Hh _]. injection Hh as -> -> _ _ -> _ ->. done.
Qed.

(** Posting the offers of the group [i]. *)
Lemma post_offers_spec cfg a key relay sid i sdps g g1 :
  one_more g g1 i -> (next_id (rs g) <= next_id (rs g1))%nat -> has_srflx sdps = true ->
  let r := match ext (sig_PostSDPOffers (sc_SignalingURL cfg) sid sdps) g1 with
    | (Err e, g) => (Err (EWrap "post SDP offers" e), stop_sg i g)
    | (Ok _, g) =>
        let '(ctx, g) := WithCancel g in
        let g := on_sv (fun s => set_serverCancel (Some ctx) (set_activeWebRTCServerGroup (Some i) s)) g in
        let info := holepunch_info cfg sid relay key in
        (Ok (Punched (encode_info info), (mkLoop ctx (sc_SignalingURL cfg) a, i, sdps)), set_started (Some info) "holepunch" g)
    end in
  punched_post g r.1 r.2.
Proof.
  intros (Hi & Hl & Hx & Hs & Hle) Hn Hsr. unfold ext. pose proof (leases_PostSDPOffers (sc_SignalingURL cfg) sid sdps (env g1)) as Hp.
  destruct (sig_PostSDPOffers _ _ _ (env g1)) as [[u|e] e']; cbn in *.
  - split; [|by eexists]. split_and!; [done..| |done|].
    + unfold holds. cbn. by rewrite Hl, Hx, Hs, Hp, Hle.
    + unfold cancelled. rewrite bool_decide_true; [done|]. cbn. set_solver.
  - apply (stop_one_more g (mkApi (cl g1) (sv g1) (rs g1) (xi g1) (seen g1) e')); [split_and!; [done..|]; cbn; congruence|done].
Qed.

Lemma start_punched_spec cfg g : numbered g ->
  punched_post g (start_punched ip_literal cfg g).1 (start_punched ip_literal cfg g).2.
Proof.
  intros Hg. unfold start_punched. apply bind_quiet; [apply quiet_wrap, quiet_ext, leases_random|by auto|].
  intros key g1 Q1. apply bind_quiet; [apply quiet_ext, leases_generateUUID|intros e g2 Q2; by eapply quiet_trans|].
  intros sid g2 Q2. cbv zeta. assert (Q12 := quiet_trans _ _ _ Q1 Q2). eapply punched_trans; [exact Q12|].
  apply (quiet_numbered _ _ Q12) in Hg. clear g g1 Q1 Q2 Q12. rename g2 into g. rewrite nbind_inv. unfold nwrap, startServerGroupWithSrflx.
  match goal with |- context [start_with_srflx ?n ?a g] => pose proof (start_with_srflx_spec n a g Hg) as Hs;
    destruct (start_with_srflx n a g) as [[[i sdps]|e] g3] end; [|by destruct Hs].
  destruct Hs as (Hone & Hn & Hsr). by apply post_offers_spec.
Qed.

(** The mapping that a stored connection info speaks of. *)
Definition lease_of (info : connectionInfo) : lease_event :=
  Lease (ci_Port info) (upnp_proto (ci_Protocol info) (ci_Transport info)) (ci_Method info).

(** [g'] is [g] with one more mapping. *)
Definition leased (g g' : G) (l : lease_event) : Prop :=
  holds g' = ((holds g).1, l :: (holds g).2) /\ (next_id (rs g) <= next_id (rs g'))%nat.

Lemma try_mapping_spec cfg (g : G) :
  match try_mapping cfg g with
  | (None, g') => quiet g g'
  | (Some (ip, port, method), g') =>
      method <> "holepunch" /\ leased g g' (Lease port (upnp_proto (Protocol (sc_proxy cfg)) (Transport (sc_proxy cfg))) method)
  end.
Proof.
  unfold try_mapping, ext. case_bool_decide; [apply quiet_refl|].
  destruct (nat_TryPortMapping _ _ _ _ (env g)) as [[[[ip port] method]|e] e'] eqn:Hm; cbn.
  - apply lease_made in Hm as (Hp & Hne & Hl). rewrite bool_decide_false by done. split; [done|]. split; [|done]. unfold holds. cbn. by rewrite Hl.
  - apply lease_refused in Hm. split; [|done]. unfold holds. cbn. by rewrite Hm.
Qed.

Definition mapped (g g' : G) (c : started_code) : Prop :=
  xi g = None /\ exists inst info uuid,
    holds g' = (live_sgs (rs g), Some inst, (true, activeWebRTCServerGroup (sv g), drainingWebRTCServerGroups (sv g), ci_Method info),
                lease_of info :: leases (env g)) /\
    ci_Method info <> "holepunch" /\ serverInfo (sv g') = Some info /\
    c = Mapped (encode_info info) (GenerateVLESSLink uuid (ci_PublicIP info) (ci_Port info) (ci_ProxySettings info) "natproxy").

(** A start that failed: nothing is held, but for a mapping that was made when
    xray could not be started. *)
Definition failed (g g' : G) (e : goerr) : Prop :=
  quiet g g' \/ exists e0 port proto method, e = EWrap "start xray" e0 /\ leased g g' (Lease port proto method).

Definition started_post (g : G) (r : res goerr (started_code * option (loopArgs * nat * list string))) (g' : G) : Prop :=
  match r with
  | Err e => failed g g' e
  | Ok (c, Some lp) => punched_post g (Ok (c, lp)) g'
  | Ok (c, None) => mapped g g' c
  end.

Lemma start_server_spec settings g : numbered g -> started_post g (start_server ip_literal settings g).1 (start_server ip_literal settings g).2.
Proof.
  intros Hg. unfold start_server. destruct (serverRunning (sv g)); [left; apply quiet_refl|].
  destruct (read_settings _ _ _) as [cfg|e]; [|left; apply quiet_refl]. destruct (normalize_server _ _) as [c|e]; [|left; apply quiet_refl].
  set (u := if bool_decide _ then _ else _).
  assert (Q1 : quiet g u.2) by (subst u; case_bool_decide; [apply quiet_ext, leases_generateUUID|apply quiet_refl]).
  destruct u as [[uuid|e] g1]; cbn [snd] in Q1; [|by left]. pose proof (try_mapping_spec c g1) as Q2.
  destruct (try_mapping c g1) as [[[[ip port] method]|] g2].
  - destruct Q2 as [Hm [Hl Hn2]]. rewrite nbind_inv. pose proof (start_mapped_spec c uuid ip port method g2) as Hs.
    destruct Q1 as [Hq Hn1]. rewrite Hq in Hl. injection Hl as L1 L2 L3 L4 L5 L6 L7.
    destruct (start_mapped c uuid ip port method g2) as [[code|e] g3]; cbn.
    + destruct Hs as (Hx & inst & info & Hh & Hinfo & Hme & Hpr & Htr & -> & Hip & Hport).
      rewrite L1, L4, L5, L7 in Hh. split; [congruence|]. exists inst, info, uuid. unfold lease_of. rewrite Hpr, Htr, Hme, Hip, Hport. done.
    + destruct Hs as ([Hh Hn3] & e0 & ->). right. exists e0, port, (upnp_proto (Protocol (sc_proxy c)) (Transport (sc_proxy c))), method.
      split; [done|]. split; [|lia]. rewrite Hh. unfold holds. cbn. congruence.
  - assert (Q12 := quiet_trans _ _ _ Q1 Q2). case_bool_decide; [by left|].
    pose proof (start_punched_spec c g2 (quiet_numbered _ _ Q12 Hg)) as Hs.
    apply (punched_trans g) in Hs; [|done]. destruct (start_punched ip_literal c g2) as [[[code lp]|e] g3]; [exact Hs|by left].
Qed.

(** ** Stopping *)

Lemma stop_all l (g : G) : live_sgs (rs (foldl (fun g i => stop_sg i g) g l)) = live_sgs (rs g) ∖ list_to_set l /\
  xi (foldl (fun g i => stop_sg i g) g l) = xi g /\ sv (foldl (fun g i => stop_sg i g) g l) = sv g /\
  leases (env (foldl (fun g i => stop_sg i g) g l)) = leases (env g).
Proof.
  revert g. induction l as [|i l IH]; intros g; cbn [foldl]; [split; [set_solver|done]|].
  destruct (IH (stop_sg i g)) as (-> & -> & -> & ->). split; [cbn; set_solver|]. cbn. by rewrite leases_sg_Stop.
Qed.

Lemma stop_groups_spec (g : G) :
  holds (stop_groups g) = (live_sgs (rs g) ∖ (list_to_set (option_list (activeWebRTCServerGroup (sv g))) ∪ list_to_set (drainingWebRTCServerGroups (sv g))),
    xi g, (serverRunning (sv g), None, [], serverMethod (sv g)), leases (env g)).
Proof.
  unfold stop_groups. set (g1 := match activeWebRTCServerGroup (sv g) with Some _ => _ | None => _ end).
  assert (Q1 : holds g1 = (live_sgs (rs g) ∖ list_to_set (option_list (activeWebRTCServerGroup (sv g))), xi g,
    (serverRunning (sv g), None, drainingWebRTCServerGroups (sv g), serverMethod (sv g)), leases (env g))).
  { subst g1. unfold holds. destruct (activeWebRTCServerGroup (sv g)) as [i|] eqn:Ha; cbn.
    - rewrite leases_sg_Stop. do 3 f_equal. set_solver.
    - rewrite Ha. do 3 f_equal. set_solver. }
  clearbody g1. injection Q1 as Q1 Q2 Q3 Q4 Q5 Q6 Q7. destruct (stop_all (drainingWebRTCServerGroups (sv g1)) g1) as (Ql & Qx & Qs & Qe).
  unfold holds. cbn. rewrite Ql, Qx, Qs, Qe, Q1, Q2, Q3, Q4, Q5, Q6, Q7. do 3 f_equal. set_solver.
Qed.

(** The mappings after a stop: one more request, if the stored info is that of
    a UPnP mapping. *)
Definition unleased (info : option connectionInfo) (l : list lease_event) : list lease_event :=
  match info with
  | Some info => if decide (ci_Method info = "upnp")
                 then Unlease (ci_Port info) (upnp_proto (ci_Protocol info) (ci_Transport info)) :: l else l
  | None => l
  end.

Lemma mapping_removed_holds (g : G) :
  holds (on_seen ResetClientTracker (remove_mapping g)) = ((holds g).1, unleased (serverInfo (sv g)) (leases (env g))) /\
  sv (remove_mapping g) = sv g.
Proof.
  unfold remove_mapping, unleased. destruct (serverInfo (sv g)) as [info|]; [|done].
  case_bool_decide; [rewrite decide_True by done|rewrite decide_False by done]; [|done]. split; [|done]. unfold holds. cbn. by rewrite lease_removed.
Qed.

Lemma stopped_holds (g : G) e : leases e = leases (env g) ->
  holds (on_sv server_stopped (close_keepalive (on_seen ResetClientTracker (remove_mapping (mkApi (cl g) (sv g) (rs g) None (seen g) e))))) =
    (live_sgs (rs g), None, (false, activeWebRTCServerGroup (sv g), drainingWebRTCServerGroups (sv g), ""),
     unleased (serverInfo (sv g)) (leases (env g))).
Proof.
  intros He. set (g0 := mkApi _ _ _ _ _ _). destruct (mapping_removed_holds g0) as [Hr _].
  destruct (quiet_keepalive (on_seen ResetClientTracker (remove_mapping g0))) as [Hk _]. rewrite Hr in Hk.
  injection Hk as K1 K2 K3 K4 K5 K6 K7. cbn in *. unfold holds. cbn. by rewrite K1, K2, K4, K5, K7, He.
Qed.

Lemma listing_info (g : G) : serverInfo (sv (stop_listing g)) = serverInfo (sv g).
Proof.
  unfold stop_listing. case_bool_decide; [done|].
  set (g1 := match heartbeatStop (sv g) with Some _ => _ | None => _ end).
  assert (serverInfo (sv g1) = serverInfo (sv g)) as <- by (subst g1; destruct (heartbeatStop (sv g)) as [c|]; [|done]; unfold close_chan; by destruct (is_open BeatCh c g)).
  unfold ext. by destruct (sig_DeregisterServer _ _ (env g1)).
Qed.

(** What stopping releases; when [Close] of the instance fails the server
    still counts as running. *)
Lemma stop_server_spec (g : G) : serverRunning (sv g) = true ->
  let groups : gset nat := list_to_set (option_list (activeWebRTCServerGroup (sv g))) ∪ list_to_set (drainingWebRTCServerGroups (sv g)) in
  match stop_server g with
  | (Ok _, g') =>
      holds g' = if decide (serverMethod (sv g) = "holepunch")
                 then (live_sgs (rs g) ∖ groups, xi g, (false, None, [], ""), leases (env g))
                 else (live_sgs (rs g), None, (false, activeWebRTCServerGroup (sv g), drainingWebRTCServerGroups (sv g), ""),
                       unleased (serverInfo (sv g)) (leases (env g)))
  | (Err _, g') => serverMethod (sv g) <> "holepunch" /\ xi g' = None /\ serverRunning (sv g') = true /\ live_sgs (rs g') = live_sgs (rs g) /\
                   leases (env g') = leases (env g)
  end.
Proof.
  intros Hr groups. unfold stop_server. rewrite Hr. cbn [negb].
  set (g1 := match serverCancel _ with Some _ => _ | None => _ end).
  assert (Q1 : quiet g g1 /\ serverInfo (sv g1) = serverInfo (sv g)).
  { split.
    - eapply quiet_trans; [apply quiet_listing|]. subst g1. destruct (serverCancel _) as [c|]; [exact (quiet_cancel c _)|apply quiet_refl].
    - rewrite <- (listing_info g). subst g1. by destruct (serverCancel (sv (stop_listing g))). }
  clearbody g1. destruct Q1 as [[Hh _] Hinfo]. injection Hh as Q1 Q2 Q3 Q4 Q5 Q6 Q7. subst groups. rewrite <- Q1, <- Q2, <- Q4, <- Q5, <- Q6, <- Q7, <- Hinfo.
  clear Q1 Q2 Q4 Q5 Q6 Q7 Hinfo. rewrite Hr in Q3. clear g Hr.
  case_bool_decide as Hm; [rewrite decide_True by done|rewrite decide_False by done].
  - pose proof (stop_groups_spec g1) as Hs. destruct (quiet_keepalive (stop_groups g1)) as [Hk _].
    rewrite Hs in Hk. injection Hk as K1 K2 K3 K4 K5 K6 K7. unfold holds. cbn. by rewrite K1, K2, K4, K5, K7.
  - unfold stop_xray, with_engine, StopXray. cbn [instance eng_env]. destruct (xi g1) as [inst|].
    2:{ cbn. by apply (stopped_holds g1). }
    pose proof (leases_core_close inst (env g1)) as Hl. destruct (core_close inst (env g1)) as [[u|e] e']; cbn [fst snd] in *; [|done].
    cbn. by apply (stopped_holds g1).
Qed.

(** After a stop the server holds what it held before the start. *)
Definition released (g g' : G) : Prop :=
  live_sgs (rs g') = live_sgs (rs g) /\ xi g' = xi g /\ serverRunning (sv g') = false /\ serverMethod (sv g') = "".

Lemma punched_stop g g' c lp : drainingWebRTCServerGroups (sv g) = [] -> punched_post g (Ok (c, lp)) g' ->
  (stop_server g').1 = Ok tt /\ released g (stop_server g').2 /\ leases (env (stop_server g').2) = leases (env g) /\
  activeWebRTCServerGroup (sv (stop_server g').2) = None.
Proof.
  destruct lp as [[p i] offers]. intros Hd [(Hi & _ & Hh & _) _]. rewrite Hd in Hh. injection Hh as Hl Hx Hr Ha Hd' Hm Hle.
  pose proof (stop_server_spec g' Hr) as Hs. cbv zeta in Hs. rewrite Hm, Hl, Hx, Ha, Hd', Hle in Hs.
  destruct (stop_server g') as [[[]|e] g2]; [|by destruct Hs]. rewrite decide_True in Hs by done.
  injection Hs as S1 S2 S3 S4 S5 S6 S7. cbn [fst snd]. split; [done|]. split; [|done]. split; [|done]. rewrite S1. cbn. set_solver.
Qed.

Lemma mapped_stop g g' c : mapped g g' c -> exists info, serverInfo (sv g') = Some info /\
  match stop_server g' with
  | (Ok _, g2) => released g g2 /\ leases (env g2) = unleased (Some info) (lease_of info :: leases (env g))
  | (Err _, g2) => xi g2 = xi g /\ live_sgs (rs g2) = live_sgs (rs g) /\ serverRunning (sv g2) = true /\
                   leases (env g2) = lease_of info :: leases (env g)
  end.
Proof.
  intros (Hx & inst & info & uuid & Hh & Hm & Hi & _). injection Hh as Hl _ Hr Ha Hd Hme Hle. exists info. split; [done|].
  pose proof (stop_server_spec g' Hr) as Hs. cbv zeta in Hs. rewrite Hi, Hle in Hs. destruct (stop_server g') as [[u|e] g2].
  - rewrite decide_False in Hs by congruence. injection Hs as S1 S2 S3 S4 S5 S6 S7. split; [|done]. split_and!; [congruence|congruence|done|done].
  - destruct Hs as (_ & S2 & S3 & S4 & S5). split_and!; congruence.
Qed.

End serving.


End ApiServing.
