(* ===== verification/ApiDemo.v ===== *)
(** * Running the public API

    An environment whose answers are scripted, the theorems of the API at
    concrete runs, and schedules in which calls overlap: what the mutex does
    not protect shows in the states they reach. *)

From S2P Require Import Prelude IO GoStr Codes Url Xray Peer Api Threads ApiState ApiServer ApiClient ApiSafety ApiSpec ApiServing.

Open Scope Z_scope.

Module ApiDemo.

Import Xray Api ApiState ApiServer ApiClient ApiSafety ApiSpec ApiServing.

(** ** A scripted environment *)

(** [oks]: whether the next calls succeed; [picks]: the choices of [select];
    [newer]: how often the server refreshes its offers; [maps]: the port
    mappings made and removed.  When a script is over the answer is yes. *)
Record world := mkWorld { oks : list bool; picks : list bool; newer : nat; maps : list lease_event }.

Definition answer {A} (a : A) : Prog world A :=
  fun w => match oks w with
           | false :: l => (Err (EMsg "failed" []), mkWorld l (picks w) (newer w) (maps w))
           | l => (Ok a, mkWorld (tail l) (picks w) (newer w) (maps w))
           end.

Definition add_map (l : lease_event) (w : world) : world := mkWorld (oks w) (picks w) (newer w) (l :: maps w).

Definition map_port (port : Z) (proto : string) : Prog world (string * Z * string) :=
  fun w => match answer tt w with
           | (Ok _, w) => (Ok ("203.0.113.7", port, "upnp"), add_map (Lease port proto "upnp") w)
           | (Err e, w) => (Err e, w)
           end.

Definition poll (w : world) : offer_poll * world :=
  match newer w with
  | O => (Empty, w)
  | S n => (Newer ["newer offer"], mkWorld (oks w) (picks w) n (maps w))
  end.

#[export] Instance demo_env : ApiEnv world := {|
  env_now _ := 1000; env_sleep _ w := w; env_backoff _ w := w;
  env_choose w := (default true (head (picks w)), mkWorld (oks w) (tail (picks w)) (newer w) (maps w));
  env_random n w := (Ok (replicate n x05), w);
  nat_TryPortMapping _ port proto _ := map_port port proto; nat_RemoveUPnPMapping port proto w := add_map (Unlease port proto) w;
  sg_Start _ _ _ _ _ _ := answer ["v=0 typ srflx"]; sg_AcceptAnswers _ _ := answer tt; sg_WaitConnected _ _ := answer tt;
  sg_IsAlive _ _ := true; sg_GetRawConn _ _ := true; sg_stats _ _ := mkStats 1 10 20 4 2 [1; 1] (0, 0, 0); sg_Stop _ w := w;
  cg_Start _ _ _ _ _ _ _ _ := answer ["v=0 answer"]; cg_WaitConnected _ _ := answer tt; cg_ProtectSockets _ := answer tt;
  cg_IsAlive _ _ := true; cg_stats _ _ := (0, 0, 0); cg_Stop _ w := w;
  xray_RegisterProtectFunc w := w;
  tun_Start _ := answer tt; tun_GetStats _ _ := (0, 0); tun_Stop _ w := w;
  sig_PostSDPOffers _ _ _ := answer tt; sig_PostSDPAnswers _ _ _ := answer tt; sig_WaitSDPAnswersSSE _ _ := answer ["answer"];
  sig_pollForSDPAnswers _ _ := answer ["answer"]; sig_GetSDPOffersCtx _ _ := answer ["offer"];
  sig_PostSDPAnswersCtx _ _ _ := answer tt; sig_StreamSDPOffers _ _ := answer tt; sig_recv_offers w := (Some ["offer"], w);
  sig_poll_offers := poll; sig_RegisterServer _ _ := answer "listing"; sig_DeregisterServer _ _ := answer tt;
  sig_HeartbeatServer _ _ := answer true
|}.

#[export] Instance demo_core : XrayCore unit world := {| core_new _ := answer tt; core_close _ := answer tt |}.

Lemma answer_spec {A} (a b : A) w w' : answer a w = (Ok b, w') -> b = a /\ newer w' = newer w.
Proof. unfold answer. destruct (oks w) as [|[] l]; intros [= <- <-]; done. Qed.

Lemma answer_newer {A} (a : A) w : newer (answer a w).2 = newer w.
Proof. unfold answer. by destruct (oks w) as [|[] l]. Qed.

#[export, refine] Instance demo_client_env : ClientEnv world := {| offers_left := newer |}.
Proof.
  - intros ? ? ? ? ? ? ? ? e answers e' [-> _]%answer_spec. done.
  - intros e p e'. cbn. unfold poll. destruct (newer e) as [|n] eqn:Hn; intros [= <- <-]; cbn; lia.
  - intros. cbn [cg_Start demo_env]. by rewrite answer_newer.
  - done.
Defined.

Lemma answer_maps {A} (a : A) w : maps (answer a w).2 = maps w.
Proof. unfold answer. by destruct (oks w) as [|[] l]. Qed.

#[export, refine] Instance demo_mapping_env : MappingEnv unit world := {| leases := maps |}.
Proof.
  - intros i x proto opts e ip port method e'. cbn. unfold map_port. pose proof (answer_maps tt e) as Ha.
    destruct (answer tt e) as [[u|er] w]; intros [= _ <- <- <-]. cbn in *. by rewrite Ha.
  - intros i x proto opts e er e'. cbn. unfold map_port. pose proof (answer_maps tt e) as Ha.
    destruct (answer tt e) as [[u|er'] w]; intros [= _ <-]. done.
  - done.
  - done.
  - done.
  - intros. apply answer_maps.
  - done.
  - intros. apply answer_maps.
  - intros. apply answer_maps.
  - intros. apply answer_maps.
  - intros. apply answer_maps.
Defined.

Abbreviation G := (api unit world).

Definition no_ip : string -> option string := fun _ => None.
Definition start (oks picks : list bool) : G := init_api (mkWorld oks picks 1 []).

(** Codes of a server behind a hole punch and behind a port mapping. *)
Definition web_code : string := encode_info (holepunch_info (demo_server "auto") "sid" "" [x01; xff]).
Definition xray_code : string := encode_info (mapped_info "203.0.113.7" 443 "id" "upnp" "" (demo_server "auto")).

(** ** Calls one after another *)

(** Executing calls in sequence, with [n] steps for every call. *)
Definition enabled_b (o : op) (g : G) : bool :=
  match o with OFail grp => bool_decide (activeWebRTCClientGroup (cl g) = Some grp) | _ => true end.

Fixpoint run_ops (n : nat) (l : list op) (g : G) : option (list (op * bool) * G) :=
  match l with
  | [] => Some ([], g)
  | o :: l =>
      if enabled_b o g then
        '(r, _, g1) ← run_alone n (op_prog no_ip o) g;
        '(l, g2) ← run_ops n l g1;
        Some ((o, r) :: l, g2)
      else None
  end.

Lemma enabled_of_b o g : enabled_b o g = true -> enabled o g.
Proof. destruct o; cbn; try done. by rewrite bool_decide_eq_true. Qed.

Lemma run_ops_serial n l g l' g' : run_ops n l g = Some (l', g') -> serial no_ip l' g g'.
Proof.
  revert g l' g'. induction l as [|o l IH]; intros g l' g' Hr; cbn [run_ops] in *; [injection Hr as <- <-; constructor|].
  destruct (enabled_b o g) eqn:Ho; [|done]. apply bind_Some in Hr as ([[r ts] g1] & Hs & Hr).
  apply bind_Some in Hr as ([l2 g2] & Hl2 & Hr). injection Hr as <- <-. apply run_alone_runs in Hs.
  econstructor; [by apply enabled_of_b|exact Hs|]. by apply IH.
Qed.

(** A session over WebRTC: a first attempt fails, in the second the server
    refreshes its offers once, calls in between are refused, and the failure
    of the connection is answered by a new group; then the client is stopped
    and connects over xray. *)
Definition session : list op :=
  [OTunnel 5; OConnect web_code "x"; OConnect web_code "x"; OStart xray_code "x" 5; OTunnel 5; OStatus; OFail 4;
   OStop; OStop; OStart xray_code "x" 7; OStop].
Definition script : list bool := [true; true; true; true; false].
Definition session_answers : list bool := [false; false; true; false; true; true; true; true; true; true; true].

Lemma idle_start l picks : at_phase None Idle (start l picks).
Proof. split; [by exists false|]. intros i Hi. cbn in Hi. set_solver. Qed.

Lemma session_answered : (fun r => r.1.*2) <$> run_ops 100 session (start script []) = Some session_answers.
Proof. vm_compute. reflexivity. Qed.

Lemma client_calls_refine_witness :
  match run_ops 100 session (start script []) with
  | Some (l, g) => l.*2 = session_answers /\ exists ph, spec_run l Idle ph /\ at_phase None ph g
  | None => False
  end.
Proof.
  pose proof session_answered as Ha. destruct (run_ops 100 session (start script [])) as [[l g]|] eqn:Hr; [|discriminate Ha].
  split; [injection Ha as Ha; exact Ha|].
  destruct (client_calls_refine no_ip None l (start script []) g (idle_start _ _) (run_ops_serial _ _ _ _ _ Hr)) as (ph & Hs & Hp & _).
  exists ph. exact (conj Hs Hp).
Defined.

(** ** Calls that overlap *)

(** A schedule: a new call, or at most [n] steps of a thread. *)
Inductive action := Begin (p : prog G unit) | Steps (i n : nat).

Fixpoint steps (i n : nat) (s : pool G) : pool G :=
  match n with
  | O => s
  | S n => match pool_step (Run i) s with Some s' => steps i n s' | None => s end
  end.

Definition act (a : action) (s : pool G) : pool G :=
  match a with Begin p => mkPool (shared s) (threads s ++ [p]) | Steps i n => steps i n s end.

Definition schedule (l : list action) (g : G) : pool G := foldl (fun s a => act a s) (mkPool g []) l.

Definition permitted (a : action) : Prop := match a with Begin p => any_entry no_ip (start [] []) p | Steps _ _ => True end.

Lemma steps_reachable init entry i n s : reachable init entry s -> reachable init entry (steps i n s).
Proof.
  revert s. induction n as [|n IH]; intros s Hs; [done|]. cbn [steps]. destruct (pool_step (Run i) s) as [s'|] eqn:Hp; [|done].
  apply IH. by eapply reach_run.
Qed.

Lemma schedule_reachable l g : Forall permitted l -> reachable (fun g' => g' = g) (any_entry no_ip) (schedule l g).
Proof.
  intros Hl. unfold schedule. assert (Hs : reachable (fun g' => g' = g) (any_entry no_ip) (mkPool g [])) by by constructor.
  revert Hs. generalize (mkPool g []). induction Hl as [|a l Ha _ IH]; intros s Hs; [done|]. apply IH.
  destruct a as [p|i n]; cbn [act]; [by apply reach_call|by apply steps_reachable].
Qed.

(** A call that runs to its end before anything else happens. *)
Definition whole (i : nat) (p : prog G unit) : list action := [Begin p; Steps i 200].

Definition connect : prog G unit := ignore (ConnectWebRTC web_code "x").
Definition tunnel : prog G unit := ignore (StartTunnel 5).
Definition stop : prog G unit := ignore StopClient.
Definition xray : prog G unit := ignore (StartClient no_ip xray_code "x" 7).
Definition serve : prog G unit := ignore (StartServer no_ip "auto").
Definition stop_serving : prog G unit := ignore StopServer.

Lemma permitted_connect : permitted (Begin connect).
Proof. left. apply ent_connect. Qed.
Lemma permitted_tunnel : permitted (Begin tunnel).
Proof. left. apply ent_tunnel. Qed.
Lemma permitted_stop : permitted (Begin stop).
Proof. left. apply ent_stop. Qed.
Lemma permitted_xray : permitted (Begin xray).
Proof. left. apply ent_start. Qed.
Lemma permitted_ice i : permitted (Begin (ice_failure i)).
Proof. left. apply ent_ice. Qed.
Lemma permitted_serve : permitted (Begin serve).
Proof. right. apply ent_server. Qed.
Lemma permitted_stop_serving : permitted (Begin stop_serving).
Proof. right. apply ent_stop_server. Qed.

Ltac permit :=
  repeat lazymatch goal with
  | |- Forall permitted [] => constructor
  | |- Forall permitted (_ :: _) => constructor
  | |- permitted (Steps _ _) => exact Logic.I
  | |- permitted (Begin connect) => exact permitted_connect
  | |- permitted (Begin tunnel) => exact permitted_tunnel
  | |- permitted (Begin stop) => exact permitted_stop
  | |- permitted (Begin xray) => exact permitted_xray
  | |- permitted (Begin serve) => exact permitted_serve
  | |- permitted (Begin stop_serving) => exact permitted_stop_serving
  | |- permitted (Begin (ice_failure _)) => apply permitted_ice
  end.

(** The invariant of the client at the end of a schedule with two sessions,
    a failing connection and a server. *)
Definition busy : list action :=
  whole 0 serve ++ [Steps 1 9] ++ whole 2 connect ++ [Begin tunnel; Steps 3 1] ++ whole 4 stop ++ [Steps 3 200; Begin (ice_failure 4); Steps 1 5].

Lemma client_state_consistent_witness :
  client_inv (shared (schedule busy (start [false] []))) /\
  clientRunning (cl (shared (schedule busy (start [false] [])))) = true.
Proof.
  split; [|vm_compute; reflexivity].
  apply (client_state_consistent no_ip (mkWorld [false] [] 1 [])). apply schedule_reachable. unfold busy, whole. cbn [app]. permit.
Defined.

Lemma numbered_start l picks : numbered (start l picks).
Proof. intros i Hi. cbn in Hi. set_solver. Qed.


(** *** What overlapping calls can do *)

Definition returned (i : nat) (s : pool G) : bool := match threads s !! i with Some (Ret _) => true | _ => false end.

(** [StartTunnel] does not look at the state again: a [StopClient] that comes
    while it runs returns without an error, and the client runs. *)
Lemma stop_during_tunnel :
  exists s, reachable (fun g => g = start [] []) (any_entry no_ip) s /\ returned 2 s = true /\ returned 1 s = true /\
    clientRunning (cl (shared s)) = true /\ activeWebRTCClientGroup (cl (shared s)) = Some 2%nat.
Proof.
  exists (schedule (whole 0 connect ++ [Begin tunnel; Steps 1 1] ++ whole 2 stop ++ [Steps 1 200]) (start [] [])).
  split; [apply schedule_reachable; unfold whole; cbn [app]; permit|]. vm_compute. auto.
Qed.

(** A [StopClient] at the end of [ConnectWebRTC] leaves a pending group that
    no later call can use, and no call stops it. *)
Lemma stop_during_connect :
  exists s, reachable (fun g => g = start [] []) (any_entry no_ip) s /\ returned 0 s = true /\ returned 1 s = true /\
    clientConnecting (cl (shared s)) = false /\ pendingWebRTCClientGroup (cl (shared s)) = Some 2%nat /\
    live_cgs (rs (shared s)) = {[2%nat]} /\ live_cgs (rs (stop_client (shared s)).2) = {[2%nat]}.
Proof.
  exists (schedule ([Begin connect; Steps 0 19] ++ whole 1 stop ++ [Steps 0 200]) (start [] [])).
  split; [apply schedule_reachable; unfold whole; cbn [app]; permit|]. vm_compute. auto 7.
Qed.

(** The callback of a connection that has been stopped meets a session over
    xray: it calls a [nil] function, or swaps its group into the new session's
    tunnel and then panics because there is no old group. *)
Definition stale_reconnect : list action :=
  whole 0 connect ++ whole 1 tunnel ++ [Begin (ice_failure 2); Steps 3 1] ++ whole 4 stop ++ whole 5 xray ++ [Steps 3 200].

Lemma stale_reconnect_panics picks : picks = [true] \/ picks = [false] ->
  exists s, reachable (fun g => g = start [] picks) (any_entry no_ip) s /\ panicked (rs (shared s)) = true.
Proof.
  intros Hp. exists (schedule stale_reconnect (start [] picks)).
  split; [apply schedule_reachable; unfold stale_reconnect, whole; cbn [app]; permit|].
  destruct Hp as [-> | ->]; vm_compute; reflexivity.
Qed.

(** The same callback meets a new session over WebRTC: its group replaces the
    new session's, which nobody stops any more. *)
Lemma stale_reconnect_leaks :
  exists s, reachable (fun g => g = start [] []) (any_entry no_ip) s /\ returned 8 s = true /\
    clientRunning (cl (shared s)) = false /\ activeWebRTCClientGroup (cl (shared s)) = None /\
    pendingWebRTCClientGroup (cl (shared s)) = None /\ live_cgs (rs (shared s)) = {[6%nat]}.
Proof.
  exists (schedule (whole 0 connect ++ whole 1 tunnel ++ [Begin (ice_failure 2); Steps 3 2] ++ whole 4 stop ++ whole 5 connect ++
    whole 6 tunnel ++ [Steps 3 200] ++ whole 8 stop) (start [] [])).
  split; [apply schedule_reachable; unfold whole; cbn [app]; permit|]. vm_compute. auto 7.
Qed.

(** The accept loop installs the group for the next client without looking
    whether the server has been stopped. *)
Lemma accept_after_stop :
  exists s, reachable (fun g => g = start [false] []) (any_entry no_ip) s /\ returned 2 s = true /\ returned 1 s = true /\
    serverRunning (sv (shared s)) = false /\ activeWebRTCServerGroup (sv (shared s)) = Some 3%nat /\
    live_sgs (rs (shared s)) = {[3%nat]} /\ live_sgs (rs (stop_server (shared s)).2) = {[3%nat]}.
Proof.
  exists (schedule (whole 0 serve ++ [Steps 1 13] ++ whole 2 stop_serving ++ [Steps 1 50]) (start [false] [])).
  split; [apply schedule_reachable; unfold whole; cbn [app]; permit|]. vm_compute. auto 7.
Qed.

(** When xray cannot be started the port mapping stays. *)
Lemma mapping_left_behind :
  let '(r, g) := start_server no_ip "auto" (start [true; false] []) in
  is_ok r = false /\ serverRunning (sv g) = false /\ maps (env g) = [Lease 10853 "UDP" "upnp"] /\ stop_server g = (Ok tt, g).
Proof. vm_compute. auto. Qed.

End ApiDemo.
